(* ===== verification/_CoqProject ===== *)
-Q . S2P
Prelude.v
Bitmap.v
Sfs.v
SfsDir.v
SfsFile.v
SfsExt.v
SfsVnode.v
SfsVolume.v
SfsFlat.v
SfsMount.v
Mksfs.v
Bswap.v
Array.v
CString.v
Printf.v
ThreadList.v
Spinlock.v
Synch.v
Coremap.v
Sched.v
Kmalloc.v
KernelHeap.v
Addrspace.v
Copyinout.v
Vfs.v
VfsRefs.v
VfsNames.v
Semfs.v
SemfsSync.v
VfsBoot.v
Files.v
Process.v
Exec.v
Syscall.v
Malloc.v
MallocSbrk.v
Console.v
