(* ===== verification/Prelude.v ===== *)
(** A verification of an OS/161 kernel.

    The program is a teaching kernel for a MIPS machine: processes with their
    own address spaces, threads on several processors, synchronisation
    objects, a kernel heap, files, and the system calls that tie them
    together.  Its sources are under src/src (kern/ for the kernel, common/ for
    the library code it shares with user programs); paths below are relative
    to that directory.

    * Parts and files

    Prelude     (this file) results of kernel code, machine words, memory of
                objects, lists indexed by integers, tactics, and what the
                components share.
    Bitmap      kern/lib/bitmap.c.  State: the bytes of the bitmap.  Interface:
                the class [FreeMap], for the block allocator of Sfs.
    Bswap       kern/lib/bswap.c.
    Array       kern/lib/array.c, kern/include/array.h.
    CString     common/libc/string/*.c and common/libc/stdlib/atoi.c, on a map
                from addresses to bytes.
    Printf      common/libc/printf/__printf.c and snprintf.c.
    ThreadList  kern/thread/threadlist.c, on a heap of linked nodes.
    Spinlock    kern/thread/spinlock.c, one step per access to the lock, any
                number of processors.
    Synch       kern/thread/synch.c, one step per critical section.
    Coremap     kern/arch/mips/vm/ram.c and the coremap of
                kern/arch/mips/vm/mipsvm.c; the record [vm] is the state of the
                VM system, the TLB included.
    Sched       kern/thread/thread.c and clock.c: threads, run queues, wait
                channels, migration, interprocessor interrupts.
    Kmalloc     kern/vm/kmalloc.c, over an interface for whole pages, the
                classes [PageAlloc] and [PageLaws].
    KernelHeap  the instance of that interface by file Coremap.
    Addrspace   vm_fault and the as_* functions of mipsvm.c, over Coremap.
    Copyinout   kern/vm/copyinout.c and kern/lib/uio.c.
    Files       sys_open, sys_read, sys_write, sys_close of
                kern/arch/mips/syscall/syscall.c, over the class [Vfs] for the
                file systems and over Synch for the locks of descriptions.
    Process     kern/proc/proc.c, sys_fork, sys_getpid, sys_waitpid, sys__exit
                and sys_sbrk of syscall.c, over Addrspace, Synch and Files.
    Exec        load_elf of kern/syscall/loadelf.c, sys_execv of syscall.c,
                runprogram and sys___time, over Addrspace and Process and over
                the class [ExecEnv] for memory and files.
    Syscall     the dispatcher of syscall.c, over the class [Handlers], with
                the instance that puts in Files and Process.
    Sfs         kern/fs/sfs: block I/O of sfs_io.c, sfs_balloc.c, sfs_bmap.c,
                and sfs_sync_inode of sfs_inode.c, over the class [FreeMap], on
                the disk driver lhd_io of kern/dev/lamebus/lhd.c.
    SfsDir      directories: sfs_metaio of sfs_io.c and sfs_dir.c, over Sfs.
    SfsFile     sfs_io with sfs_partialio and sfs_blockio, over Sfs.
    SfsExt      the functions of Sfs, SfsDir and SfsFile do to a volume with
                more files what they do to the volume.
    SfsVnode    loading, creating and reclaiming vnodes (sfs_inode.c,
                sfs_lookonce of sfs_dir.c) and the vnode operations of
                sfs_vnops.c.  State: the record [sfs_mnt], the volume with the
                table and the reference counts of its vnodes.
    SfsVolume   the invariant of a mounted volume: vnodes in memory, inodes on
                the disk, blocks of both; the class [Layout] for what a volume
                keeps besides files.
    SfsFlat     the specification of SFS, a map from names to files, and the
                refinement by the operations of SfsVnode.
    SfsMount    syncing, unmounting and mounting volumes (sfs_fsops.c).
    Mksfs       userland/sbin/mksfs, the program that makes volumes.
    Console     kern/dev/generic/console.c and kern/lib/kgets.c, on the serial
                port driver kern/dev/lamebus/lser.c.
    Malloc      userland/lib/libc/stdlib/malloc.c, over the classes [Sbrk] and
                [SbrkLaws] for the system call; state: the words of the heap
                and the static variables.
    MallocSbrk  Malloc on the sbrk of this kernel (file Process).
    Vfs         kern/vfs (vnode.c, device.c, vfslist.c, vfscwd.c, vfslookup.c,
                vfspath.c, the entries of vfsfail.c), over the class
                [FileSystem] for the tables of operations below; its contract
                [FileSystemLaws] and the invariant of references are stated
                there too.  State: the record [vfs], with the vnodes, the list
                of devices, the current directories and the big lock.
    VfsRefs     the references of the VFS layer, function by function.
    VfsNames    path names and device names.
    Semfs       kern/fs/semfs (semfs_obj.c, semfs_vnops.c, semfs_fsops.c) and
                kern/vfs/devnull.c, an instance of [FileSystem] and of
                [FileSystemLaws].
    SemfsSync   semfs_read, semfs_write and semfs_truncate, by threads that
                interleave, over Synch.
    VfsBoot     vfs_bootstrap, devnull_create and semfs_bootstrap: the state in
                which the VFS layer starts, and concrete histories from there.

    * How the code is translated

    A function of the kernel becomes a function into [res]: it returns, or it
    takes the kernel down ([Fault]), with a failed KASSERT, a panic, and an
    access outside the object a pointer came from kept apart.  Return codes of
    the source are kept as they are, with the numbers of kern/errno.h.  State
    is passed along.  Integers are [Z], with the wrap-around of their C type
    written out ([u8], [u16], [u32], [s64]).  Objects that are shared, and
    objects that are freed, live in finite maps by address, so that aliasing,
    leaks and uses after free are visible.  What the sources do not determine
    (whether kmalloc finds memory, which TLB slot tlb_random takes, which disk
    operation fails, what the machine does) is an argument of the operation
    or a list in the state, and the theorems hold for all of it.  Where
    processors or threads interleave, an operation is cut where it gives up
    its lock; a history is a list of steps in any order.  Where a file does not
    say so its operations run one at a time.

    * What the theorems show

    Abstract specifications and refinements: bitmaps are finite sets, arrays
    are lists, thread lists are sequences ([bitmap_refines_set],
    [array_refines_list], [threadlist_refines_seq]); memmove, strtok_r and
    wchan_wakeall equal simple reference definitions.
    Isolation: on one processor, as long as page faults find room and none
    comes between the test and the stores of one page_alloc, no frame is mapped
    twice and the TLB leads a process to its own frames only, with the calls
    that run with interrupts on preempted anywhere else
    ([vm_reachable_isolated]; cm_lock does not keep page faults out, which
    [frame_claimed_twice] is about); copies cannot be talked into touching
    kernel memory, and change nothing but their destination even when they
    fail ([copyinout_safe]); uiomove moves exactly the bytes it accounts for
    ([uiomove_books]); heap blocks never overlap while pages for pagerefs are
    not refused too often ([kheap_sound], and with the coremap below it in
    KernelHeap), nor do those of a user program ([malloc_allocates]), if sbrk
    does what it promises.  The sbrk of this kernel does not, and malloc never
    works on it ([malloc_never_works]).
    Concurrency: spinlocks exclude and make progress; semaphores and condition
    variables keep their promises and lose no wakeup, and so do locks and
    reader-writer locks for threads that stay on their processor, which is what
    these record as their holder ([lock_holder_is_cpu]); the scheduler keeps
    every thread in exactly one place ([sched_sound]) and an idle processor
    picks up what is queued for it.
    Processes and system calls: the process table stays sound over program
    starts, forks, exits and waits, failing ones included and with the sleeping
    ones cut where they sleep, provided that p_id, which nobody assigns, starts
    as 0 ([process_table_sound], [unassigned_id_breaks]); fork returns twice,
    wait returns the exit code once, the register protocol, and the books of
    open, read, write and close; execv hands over exactly the argument strings
    ([execv_arguments]).
    The VFS layer: over every sequence of calls, one at a time, the count in
    each vnode is the number of references held, no call faults and the big
    lock is free again ([vfs_references_exact]), for any file systems that keep
    the contract, which semfs does while memory is granted; paths are read by their grammar ([getdevice_reads]) and names
    of devices mean what the source says ([device_names]).  Reads and writes of
    a semaphore file by threads that stay on their processor never overdraw it
    ([semfs_never_overdrawn]), but lose wakeups and writes
    ([semfs_wakeup_races]).
    The file system SFS: the block map never gives a block to two places and never
    changes what a file reads, whatever reads fail; truncation frees exactly
    what it takes from the file, which is a block less than the comment says
    ([sfs_itrunc_exact]); inodes come back from the disk as they were
    written; a directory is a finite map from names to inodes
    ([directory_refines_map]); reads deliver the bytes of the file and writes
    replace exactly the bytes they move ([sfs_read_delivers],
    [sfs_write_replaces], [sfs_write_read]).  Together: over any history of
    calls on a working disk every call returns and SFS is a map from names to
    files that last as long as they have a name or a reference
    ([sfs_refines_flat]; rename and truncation are the code's there, not the
    manual's), and after a sync whoever mounts the disk finds the
    same names, files and bytes ([sfs_remount]).  What mksfs writes mounts as
    an empty file system ([mksfs_mounts]).  All of it while no write fails:
    [write_error_swallowed] and [itrunc_lost_write] show what a failing write
    does.
    The console: reads deliver what is typed in order, lines are edited as
    kgets says, writes send everything ([console_reads_writes], [kgets_line]).
    Library code: text goes through snprintf and atoi unharmed, the number
    buffer is large enough, truncated output stays in its buffer.
    Errors in the code are theorems too, about what the code does: for
    instance [fork_enproc_locks_up], [ipi_tlbshootdown_overrun],
    [write_error_swallowed].

    * Bounds and fuel

    Loops over a counter are structural in the number of rounds left, which is
    the bound of the source (15 direct blocks, 128 entries, the size of the
    coremap).  Loops that end with what they find in memory get fuel equal to
    the number of cells there are (bytes in CString, pagerefs on the lists of
    Kmalloc, entries of the coremap), and the theorems show that this is
    enough: they state that the function returns [Ok].  uiomove gets two rounds
    per iovec, one to use it and one to find it empty.  Doubling the size of an
    array gets 40 rounds, which wraps any 32-bit size; beyond 2^31 elements the
    code loops for ever, and that is a theorem.  The loop of __pf_printnum gets
    65 rounds and needs at most 22.  Concrete
    sizes are those of the configuration: 4096-byte pages, 512-byte blocks,
    64 TLB slots, 128 descriptors.

    * Not modelled

    Device drivers (kern/dev: the timer, screen, network and emufs devices, the
    registers of the serial port and the interrupt side of the disk): their
    behaviour is that of hardware the sources only poke at.
    SFS is not an instance of the class [FileSystem] of Vfs: its vnodes are
    known by inode number here, those of Vfs by address.  Files is over its own
    class [Vfs] of what the system calls use.
    Of semfs the locks around its tables, since each of its operations is one
    step under the big lock.  sys_reboot.  Assembly code, boot,
    trap entry and the context switch (kern/arch/mips/locore, thread, main).
    kprintf, the menu, but for the start of a program, and the in-kernel tests
    (kern/main, kern/test).  The
    64-bit arithmetic of gcc (common/gcc-millicode, vendored).  User programs
    and their library (userland) other than mksfs and malloc, host tools, generated files, manual pages.
    Interrupt levels appear only as far as they make a sequence one step; the
    contents of stacks and names of threads do not appear. *)
From Stdlib Require Export ZArith Lia Bool.
From stdpp Require Export base numbers list gmap.
#[global] Open Scope Z_scope.
#[global] Arguments Z.shiftl : simpl never.
#[global] Arguments Z.shiftr : simpl never.
#[global] Arguments Z.land : simpl never.
#[global] Arguments Z.lor : simpl never.
#[global] Arguments Z.lxor : simpl never.
#[global] Arguments Z.lnot : simpl never.
#[global] Arguments Z.testbit : simpl never.
#[global] Arguments Z.pow : simpl never.
#[global] Arguments Z.add : simpl never.
#[global] Arguments Z.sub : simpl never.
#[global] Arguments Z.mul : simpl never.
#[global] Arguments Z.opp : simpl never.
#[global] Arguments Z.div : simpl never.
#[global] Arguments Z.modulo : simpl never.
#[global] Arguments Z.of_nat : simpl never.

(** ** Results of kernel code

    A kernel function either returns or takes the kernel down.  [fault] keeps
    apart a failed [KASSERT], a call of [panic], an access outside the object
    a pointer was derived from, a wait for something that the calls modelled
    so far have not provided, and a loop that used up the fuel it was given. *)
Inductive fault :=
| Assertion
| PanicCall
| BadAccess
| Hang
| OutOfFuel.

#[global] Instance fault_eq_dec : EqDecision fault.
Proof. solve_decision. Defined.

Inductive res (A : Type) :=
| Ok (a : A)
| Fault (f : fault).
Arguments Ok {A} a.
Arguments Fault {A} f.

#[global] Instance res_eq_dec {A} `{EqDecision A} : EqDecision (res A).
Proof. solve_decision. Defined.

Definition rbind {A B : Type} (m : res A) (k : A -> res B) : res B :=
  match m with
  | Ok a => k a
  | Fault f => Fault f
  end.

Declare Scope kern_scope.
Delimit Scope kern_scope with kern.
Notation "'let*' x := m 'in' k" := (rbind m (fun x => k))
  (at level 10, x pattern, m at level 100, k at level 200,
   format "'[v' 'let*'  x  :=  m  'in' '/' k ']'") : kern_scope.
#[global] Open Scope kern_scope.

(** [KASSERT(b); k] *)
Definition kassert {A} (b : bool) (k : res A) : res A :=
  if b then k else Fault Assertion.

(** An access that faults when the cell is not there. *)
Definition access {A} (o : option A) : res A :=
  match o with
  | Some a => Ok a
  | None => Fault BadAccess
  end.

Lemma rbind_Ok {A B} (m : res A) (k : A -> res B) b :
  rbind m k = Ok b <-> exists a, m = Ok a /\ k a = Ok b.
Proof. destruct m; simpl; naive_solver. Qed.

Lemma kassert_Ok {A} b (k : res A) a : kassert b k = Ok a <-> b = true /\ k = Ok a.
Proof. destruct b; simpl; naive_solver. Qed.

Lemma access_Ok {A} (o : option A) a : access o = Ok a <-> o = Some a.
Proof. destruct o; simpl; naive_solver. Qed.

(** [runs m Q]: the call returns, and what it returns satisfies [Q]. *)
Definition runs {A} (m : res A) (Q : A -> Prop) : Prop :=
  match m with
  | Ok a => Q a
  | Fault _ => False
  end.

Lemma runs_bind {A B} (m : res A) (k : A -> res B) (P : A -> Prop) (Q : B -> Prop) :
  runs m P -> (forall a, P a -> runs (k a) Q) -> runs (rbind m k) Q.
Proof. destruct m; simpl; auto. Qed.

Lemma runs_mono {A} (m : res A) (P Q : A -> Prop) : runs m P -> (forall a, P a -> Q a) -> runs m Q.
Proof. destruct m; simpl; auto. Qed.

Lemma runs_Ok {A} (m : res A) (Q : A -> Prop) : runs m Q <-> exists a, m = Ok a /\ Q a.
Proof. destruct m; simpl; naive_solver. Qed.

(** Take a successful run apart, one [let*], [kassert] or [access] at a time. *)
Ltac res_inv :=
  repeat match goal with
  | H : rbind _ _ = Ok _ |- _ => apply rbind_Ok in H as (? & ? & ?)
  | H : kassert _ _ = Ok _ |- _ => apply kassert_Ok in H as [? ?]
  | H : access _ = Ok _ |- _ => apply access_Ok in H
  | H : Ok _ = Ok _ |- _ => injection H as ?; try subst
  | H : Fault _ = Ok _ |- _ => discriminate H
  | H : Ok _ = Fault _ |- _ => discriminate H
  | H : (_ && _)%bool = true |- _ => apply andb_true_iff in H as [? ?]
  end.

(** Turn boolean comparisons on [Z] into propositions. *)
Ltac bool_inv :=
  repeat match goal with
  | H : (_ <? _) = true |- _ => apply Z.ltb_lt in H
  | H : (_ <? _) = false |- _ => apply Z.ltb_ge in H
  | H : (_ <=? _) = true |- _ => apply Z.leb_le in H
  | H : (_ <=? _) = false |- _ => apply Z.leb_gt in H
  | H : (_ =? _) = true |- _ => apply Z.eqb_eq in H
  | H : (_ =? _) = false |- _ => apply Z.eqb_neq in H
  | H : negb _ = true |- _ => apply negb_true_iff in H
  | H : negb _ = false |- _ => apply negb_false_iff in H
  | H : (_ && _)%bool = true |- _ => apply andb_true_iff in H as [? ?]
  | H : (_ || _)%bool = false |- _ => apply orb_false_iff in H as [? ?]
  end.

(** Split on the condition of an [if] over [Z] comparisons, keeping it as a
    proposition. *)
Ltac case_if :=
  match goal with
  | |- context [if ?a <? ?b then _ else _] => destruct (Z.ltb_spec a b)
  | |- context [if ?a <=? ?b then _ else _] => destruct (Z.leb_spec a b)
  | |- context [if ?a =? ?b then _ else _] => destruct (Z.eqb_spec a b)
  | |- context [if ?b then _ else _] => destruct b eqn:?
  end.

(** ** Sequences of calls

    The answers a component gives to a sequence of calls, up to the first
    call that takes the kernel down. *)
Fixpoint run {St Op Ans} (step : St -> Op -> res (St * Ans)) (st : St) (ops : list Op)
    : list (res Ans) :=
  match ops with
  | [] => []
  | o :: ops =>
    match step st o with
    | Ok (st', a) => Ok a :: run step st' ops
    | Fault f => [Fault f]
    end
  end.

(** If every step of the implementation is matched by the abstract step, whole
    sequences of calls get the same answers.  [ok a o]: in the abstract state
    [a] the contract of the component allows the call [o]. *)
Section Simulation.
Context {C A Op Ans : Type}.
Context (step1 : C -> Op -> res (C * Ans)) (step2 : A -> Op -> res (A * Ans)).
Context (R : C -> A -> Prop) (ok : A -> Op -> Prop).

Fixpoint all_ok (a : A) (ops : list Op) : Prop :=
  match ops with
  | [] => True
  | o :: ops =>
    ok a o /\ match step2 a o with Ok (a', _) => all_ok a' ops | Fault _ => True end
  end.

Lemma run_simulates :
  (forall c a o, R c a -> ok a o ->
     match step2 a o with
     | Ok (a', ans) => exists c', step1 c o = Ok (c', ans) /\ R c' a'
     | Fault f => step1 c o = Fault f
     end) ->
  forall ops c a, R c a -> all_ok a ops -> run step1 c ops = run step2 a ops.
Proof.
  intros Hsim. induction ops as [ | o ops IH]; intros c a HR Hok; [done |].
  destruct Hok as [Ho Hok]. specialize (Hsim c a o HR Ho). cbn [run].
  destruct (step2 a o) as [[a' ans] | f]; [ | by rewrite Hsim].
  destruct Hsim as (c' & -> & HR'). f_equal. by apply IH.
Qed.
End Simulation.

(** ** The kernel heap as its clients see it

    Which blocks are live; [fails] says which of the coming requests fail.
    Freeing a block that is not live is an error. *)
Record kheap := mkHeap {
  live : gset Z;
  next_block : Z;
  fails : list bool
}.

Definition halloc (h : kheap) : kheap * option Z :=
  match fails h with
  | true :: f => (mkHeap (live h) (next_block h) f, None)
  | f => (mkHeap ({[next_block h]} ∪ live h) (next_block h + 1) (tail f), Some (next_block h))
  end.

Definition hfree (h : kheap) (p : Z) : res kheap :=
  if decide (p ∈ live h) then Ok (mkHeap (live h ∖ {[p]}) (next_block h) (fails h))
  else Fault BadAccess.

(** Blocks handed out are numbered upwards. *)
Definition heap_ok (h : kheap) : Prop := forall p, p ∈ live h -> p < next_block h.

Lemma halloc_cases h :
  heap_ok h ->
  (exists h', halloc h = (h', None) /\ live h' = live h /\ heap_ok h') \/
  (exists h' p, halloc h = (h', Some p) /\ p ∉ live h /\ live h' = {[p]} ∪ live h /\ heap_ok h').
Proof.
  intros Hok. unfold halloc, heap_ok in *.
  assert (Hnew : next_block h ∉ live h) by (intros Hn%Hok; lia).
  assert (Hup : forall p, p ∈ {[next_block h]} ∪ live h -> p < next_block h + 1).
  { intros p [->%elem_of_singleton | Hp%Hok]%elem_of_union; lia. }
  destruct (fails h) as [ | [] f]; [right | left | right].
  - by eexists _, _.
  - by eexists.
  - by eexists _, _.
Qed.

Lemma hfree_live h p :
  p ∈ live h -> heap_ok h -> exists h', hfree h p = Ok h' /\ live h' = live h ∖ {[p]} /\ heap_ok h'.
Proof.
  intros Hp Hok. unfold hfree. rewrite decide_True by done. eexists. split; [done |]. split; [done |].
  intros q Hq. cbn in *. apply Hok. set_solver.
Qed.

(** Linear arithmetic with division and modulo. *)
Ltac div_lia := Z.to_euclidean_division_equations; lia.

(** ** Flags of open (kern/include/kern/fcntl.h) *)
Definition O_RDONLY := 0.
Definition O_WRONLY := 1.
Definition O_RDWR := 2.
Definition O_CREAT := 4.
Definition O_EXCL := 8.
Definition O_TRUNC := 16.
Definition O_APPEND := 32.
Definition O_ACCMODE := 3.

(** ** Error numbers (kern/include/kern/errno.h) *)
Definition ENOSYS := 1.
Definition ENOMEM := 3.
Definition EFAULT := 6.
Definition ENAMETOOLONG := 7.
Definition EINVAL := 8.
Definition ENPROC := 12.
Definition ENOEXEC := 13.
Definition E2BIG := 14.
Definition ENOTDIR := 17.
Definition EISDIR := 18.
Definition ENOENT := 19.
Definition ENOTEMPTY := 21.
Definition EEXIST := 22.
Definition EXDEV := 24.
Definition ENODEV := 25.
Definition ENXIO := 26.
Definition EBUSY := 27.
Definition EMFILE := 28.
Definition EBADF := 30.
Definition EIOCTL := 31.
Definition EIO := 32.
Definition EROFS := 35.
Definition ENOSPC := 36.
Definition EFBIG := 38.

(** ** Machine integers

    The kernel is built for a 32-bit big-endian MIPS.  A [w]-bit unsigned
    value is a [Z] in [0, 2^w); signed values are in [-2^(w-1), 2^(w-1)).
    The wrap-around of C's unsigned arithmetic is written out with [u8] ..
    [u64], the conversion to a signed type with [s32] and [s64]. *)
Definition u8 (z : Z) : Z := z mod 2 ^ 8.
Definition u16 (z : Z) : Z := z mod 2 ^ 16.
Definition u32 (z : Z) : Z := z mod 2 ^ 32.
Definition u64 (z : Z) : Z := z mod 2 ^ 64.
Definition s8 (z : Z) : Z := (z + 2 ^ 7) mod 2 ^ 8 - 2 ^ 7.
Definition s32 (z : Z) : Z := (z + 2 ^ 31) mod 2 ^ 32 - 2 ^ 31.
Definition s64 (z : Z) : Z := (z + 2 ^ 63) mod 2 ^ 64 - 2 ^ 63.

Definition is_u16 (z : Z) : Prop := 0 <= z < 2 ^ 16.
Definition is_u32 (z : Z) : Prop := 0 <= z < 2 ^ 32.
Definition is_u64 (z : Z) : Prop := 0 <= z < 2 ^ 64.
Definition is_s64 (z : Z) : Prop := - 2 ^ 63 <= z < 2 ^ 63.

Lemma u8_range z : 0 <= u8 z < 2 ^ 8.
Proof. apply Z.mod_pos_bound; lia. Qed.
Lemma u16_range z : 0 <= u16 z < 2 ^ 16.
Proof. apply Z.mod_pos_bound; lia. Qed.
Lemma u32_range z : 0 <= u32 z < 2 ^ 32.
Proof. apply Z.mod_pos_bound; lia. Qed.
Lemma u64_range z : 0 <= u64 z < 2 ^ 64.
Proof. apply Z.mod_pos_bound; lia. Qed.
Lemma s64_range z : - 2 ^ 63 <= s64 z < 2 ^ 63.
Proof. unfold s64. pose proof (Z.mod_pos_bound (z + 2 ^ 63) (2 ^ 64)). lia. Qed.

Lemma u32_id z : is_u32 z -> u32 z = z.
Proof. apply Z.mod_small. Qed.
Lemma u64_id z : is_u64 z -> u64 z = z.
Proof. apply Z.mod_small. Qed.

Lemma s64_u64 z : s64 (u64 z) = s64 z.
Proof. unfold s64, u64. by rewrite Zplus_mod_idemp_l. Qed.

Lemma u64_s64 z : u64 (s64 z) = u64 z.
Proof.
  unfold s64, u64. rewrite Zminus_mod_idemp_l. f_equal. lia.
Qed.

Lemma s64_id z : is_s64 z -> s64 z = z.
Proof. intros H. unfold s64. rewrite Z.mod_small; unfold is_s64 in H; lia. Qed.

(** Rounding-up division: [DIVROUNDUP] of kern/include/lib.h, at 32 bits. *)
Definition DIVROUNDUP (a b : Z) : Z := u32 (u32 (a + b) - 1) / b.

(** ** Bits *)
Lemma testbit_shl1 j n : 0 <= j -> 0 <= n -> Z.testbit (Z.shiftl 1 j) n = (n =? j).
Proof.
  intros Hj Hn. rewrite Z.shiftl_spec by lia.
  destruct (Z.eqb_spec n j) as [-> | Hne].
  - by rewrite Z.sub_diag.
  - destruct (Z.ltb_spec n j).
    + by rewrite Z.testbit_neg_r by lia.
    + apply (Z.bits_above_log2 1); simpl; lia.
Qed.

(** A mask with one bit tests exactly that bit. *)
Lemma land_shl1_zero x j :
  0 <= j -> (Z.land x (Z.shiftl 1 j) =? 0) = negb (Z.testbit x j).
Proof.
  intros Hj. destruct (Z.testbit x j) eqn:E; simpl.
  - apply Z.eqb_neq. intros H0.
    assert (Z.testbit (Z.land x (Z.shiftl 1 j)) j = true) as C.
    { by rewrite Z.land_spec, E, testbit_shl1, Z.eqb_refl by lia. }
    by rewrite H0, Z.bits_0 in C.
  - apply Z.eqb_eq, Z.bits_inj'. intros n Hn.
    rewrite Z.land_spec, testbit_shl1, Z.bits_0 by lia.
    destruct (Z.eqb_spec n j) as [-> | ]; [by rewrite E | by rewrite andb_false_r].
Qed.

(** ** Lists indexed by [Z], with C's out-of-range accesses made visible *)
Section ZLists.
Context {A : Type}.
Implicit Types (l : list A) (i : Z) (x : A).

Definition zget l i : option A :=
  if i <? 0 then None else l !! Z.to_nat i.

Definition zput l i x : option (list A) :=
  if (0 <=? i) && (i <? Z.of_nat (length l)) then Some (<[Z.to_nat i := x]> l)
  else None.

Definition zlen l : Z := Z.of_nat (length l).

Lemma zget_Some l i x : zget l i = Some x -> 0 <= i < zlen l.
Proof.
  unfold zget, zlen. destruct (Z.ltb_spec i 0); [done |].
  intros H1%lookup_lt_Some. lia.
Qed.

Lemma zget_lt l i : 0 <= i < zlen l -> exists x, zget l i = Some x.
Proof.
  intros H. unfold zget, zlen in *. destruct (Z.ltb_spec i 0); [lia |].
  apply lookup_lt_is_Some_2. lia.
Qed.

Lemma zput_Some l i x l' :
  zput l i x = Some l' <-> 0 <= i < zlen l /\ l' = <[Z.to_nat i := x]> l.
Proof.
  unfold zput, zlen. destruct (Z.leb_spec 0 i); destruct (Z.ltb_spec i (Z.of_nat (length l)));
    simpl; naive_solver lia.
Qed.

Lemma zput_lt l i x : 0 <= i < zlen l -> exists l', zput l i x = Some l'.
Proof. intros H. exists (<[Z.to_nat i := x]> l). by apply zput_Some. Qed.

Lemma zget_zput l i j x l' :
  zput l i x = Some l' -> zget l' j = if decide (j = i) then Some x else zget l j.
Proof.
  intros [Hr ->]%zput_Some. unfold zget, zlen in *.
  destruct (Z.ltb_spec j 0); [case_decide; [lia | done] |].
  case_decide; subst.
  - apply list_lookup_insert_eq. lia.
  - apply list_lookup_insert_ne. lia.
Qed.

Lemma zput_length l i x l' : zput l i x = Some l' -> zlen l' = zlen l.
Proof. intros [_ ->]%zput_Some. unfold zlen. by rewrite length_insert. Qed.
End ZLists.

Lemma NoDup_middle {A} (l1 l2 : list A) a :
  NoDup (l1 ++ a :: l2) <-> a ∉ l1 ++ l2 /\ NoDup (l1 ++ l2).
Proof. by rewrite <- Permutation_middle, NoDup_cons. Qed.

(** The same with one more element kept in front of [a]. *)
Lemma NoDup_middle2 {A} (l1 l2 : list A) x a :
  NoDup (l1 ++ x :: a :: l2) <-> a ∉ l1 ++ x :: l2 /\ NoDup (l1 ++ x :: l2).
Proof.
  rewrite (cons_middle x l1 (a :: l2)), (cons_middle x l1 l2), !(assoc_L (++)).
  apply NoDup_middle.
Qed.

(** A property of a few numbers in a row, checked one by one. *)
Lemma seqZ_all (P : Z -> Prop) lo n : Forall P (seqZ lo n) -> forall x, lo <= x < lo + n -> P x.
Proof. rewrite Forall_forall. intros H x Hx. apply H. by apply elem_of_seqZ. Qed.

Create HintDb kern.
#[export] Hint Resolve u8_range u16_range u32_range u64_range s64_range : kern.
