(* ===== verification/Bitmap.v ===== *)
(** Fixed-size bitmaps: kern/lib/bitmap.c.

    The struct is the record [bitmap]; its byte vector [v] is a list of bytes
    (as [Z]).  [kmalloc] may fail, so [bitmap_create] takes the outcome of its
    two allocations.  The operations are shown to implement a finite set of
    used bit numbers, and to keep the invariant [bitmap_wf] that makes the
    assertions in the code hold.  The class [FreeMap] is what a client (the
    SFS block allocator) may rely on; [bitmap] is its instance. *)
From S2P Require Import Prelude.

Definition BITS_PER_WORD := 8.
Definition WORD_ALLBITS := 255.

Record bitmap := mkBitmap {
  nbits : Z;
  v : list Z
}.

(** [for (j=overbits; j<BITS_PER_WORD; j++) b->v[ix] |= ((WORD_TYPE)1 << j);]
    on the word [w], with [k] iterations left. *)
Fixpoint mark_over (k : nat) (j w : Z) : Z :=
  match k with
  | O => w
  | S k => mark_over k (j + 1) (u8 (Z.lor w (Z.shiftl 1 j)))
  end.

(** [ok1] and [ok2] say whether the two calls of kmalloc succeed. *)
Definition bitmap_create (ok1 ok2 : bool) (n : Z) : res (option bitmap) :=
  let words := DIVROUNDUP n BITS_PER_WORD in
  if negb ok1 then Ok None
  else if negb ok2 then Ok None
  else
    let vec := replicate (Z.to_nat words) 0 in
    if n / BITS_PER_WORD <? words then
      let ix := words - 1 in
      let overbits := u32 (n - ix * BITS_PER_WORD) in
      kassert (n / BITS_PER_WORD =? words - 1) (
      kassert ((0 <? overbits) && (overbits <? BITS_PER_WORD)) (
      let* w := access (zget vec ix) in
      let* vec' := access (zput vec ix
                     (mark_over (Z.to_nat (BITS_PER_WORD - overbits)) overbits w)) in
      Ok (Some (mkBitmap n vec'))))
    else Ok (Some (mkBitmap n vec)).

Definition bitmap_getdata (b : bitmap) : list Z := v b.

(** The loop over the bits of one word: the first offset whose bit is clear. *)
Fixpoint scan_word (k : nat) (w offset : Z) : option Z :=
  match k with
  | O => None
  | S k =>
    if Z.land w (Z.shiftl 1 offset) =? 0 then Some offset
    else scan_word k w (offset + 1)
  end.

(** The loop over the words; the result is the return value with the updated
    bitmap and [*index]. *)
Fixpoint alloc_words (k : nat) (ix : Z) (b : bitmap) : res (Z * bitmap * Z) :=
  match k with
  | O => Ok (ENOSPC, b, 0)
  | S k =>
    let* w := access (zget (v b) ix) in
    if w =? WORD_ALLBITS then alloc_words k (ix + 1) b
    else
      match scan_word 8 w 0 with
      | None => Fault Assertion
      | Some offset =>
        let* vec := access (zput (v b) ix (Z.lor w (Z.shiftl 1 offset))) in
        let index := u32 (ix * BITS_PER_WORD + offset) in
        kassert (index <? nbits b) (Ok (0, mkBitmap (nbits b) vec, index))
      end
  end.

Definition bitmap_alloc (b : bitmap) : res (Z * bitmap * Z) :=
  alloc_words (Z.to_nat (DIVROUNDUP (nbits b) BITS_PER_WORD)) 0 b.

Definition bitmap_translate (bitno : Z) : Z * Z :=
  (bitno / BITS_PER_WORD, Z.shiftl 1 (bitno mod BITS_PER_WORD)).

Definition bitmap_mark (b : bitmap) (index : Z) : res bitmap :=
  kassert (index <? nbits b) (
  let (ix, mask) := bitmap_translate index in
  let* w := access (zget (v b) ix) in
  kassert (Z.land w mask =? 0) (
  let* vec := access (zput (v b) ix (Z.lor w mask)) in
  Ok (mkBitmap (nbits b) vec))).

Definition bitmap_unmark (b : bitmap) (index : Z) : res bitmap :=
  kassert (index <? nbits b) (
  let (ix, mask) := bitmap_translate index in
  let* w := access (zget (v b) ix) in
  kassert (negb (Z.land w mask =? 0)) (
  let* vec := access (zput (v b) ix (u8 (Z.land w (Z.lnot mask)))) in
  Ok (mkBitmap (nbits b) vec))).

Definition bitmap_isset (b : bitmap) (index : Z) : res Z :=
  let (ix, mask) := bitmap_translate index in
  let* w := access (zget (v b) ix) in
  Ok (Z.land w mask).

(** ** Abstraction: the set of used bits *)

Definition used (b : bitmap) (i : Z) : bool :=
  match zget (v b) (i / 8) with
  | Some w => Z.testbit w (i mod 8)
  | None => false
  end.

(** The sizes [bitmap_create] can handle: beyond this the rounding wraps. *)
Definition max_bits := 2 ^ 32 - 8.

Record bitmap_wf (b : bitmap) : Prop := {
  wf_nbits : 0 <= nbits b <= max_bits;
  wf_len : zlen (v b) = (nbits b + 7) / 8;
  wf_bytes : Forall (fun w => 0 <= w < 2 ^ 8) (v b);
  wf_over : forall i, nbits b <= i < 8 * zlen (v b) -> used b i = true
}.

(** ** Words *)

Lemma DIVROUNDUP_8 n : 0 <= n <= max_bits -> DIVROUNDUP n 8 = (n + 7) / 8.
Proof.
  intros H. unfold DIVROUNDUP, max_bits in *.
  destruct (Z.eq_dec n max_bits) as [-> | Hne]; [reflexivity |].
  unfold max_bits in Hne. rewrite (u32_id (n + 8)) by (unfold is_u32; lia).
  rewrite u32_id by (unfold is_u32; lia). f_equal; lia.
Qed.

Lemma byte_bits_above w n : 0 <= w < 2 ^ 8 -> 8 <= n -> Z.testbit w n = false.
Proof.
  intros Hw Hn. destruct (Z.eq_dec w 0) as [-> | ]; [by rewrite Z.bits_0 |].
  apply Z.bits_above_log2; [lia |].
  apply Z.log2_lt_pow2; [lia |].
  eapply Z.lt_le_trans; [apply Hw | apply Z.pow_le_mono_r; lia].
Qed.

Lemma byte_allbits w :
  0 <= w < 2 ^ 8 -> w = WORD_ALLBITS <-> (forall j, 0 <= j < 8 -> Z.testbit w j = true).
Proof.
  intros Hw. split.
  - intros -> j Hj. change WORD_ALLBITS with (Z.ones 8). apply Z.ones_spec_low. lia.
  - intros H. change WORD_ALLBITS with (Z.ones 8). apply Z.bits_inj'. intros n Hn.
    destruct (Z.ltb_spec n 8).
    + rewrite H, Z.ones_spec_low by lia. done.
    + rewrite Z.ones_spec_high, byte_bits_above by lia. done.
Qed.

Lemma lor_byte w j : 0 <= w < 2 ^ 8 -> 0 <= j < 8 -> 0 <= Z.lor w (Z.shiftl 1 j) < 2 ^ 8.
Proof.
  intros Hw Hj. split.
  - apply Z.lor_nonneg. split; [lia |]. apply Z.shiftl_nonneg. lia.
  - assert (H1 : Z.land (Z.lor w (Z.shiftl 1 j)) (Z.ones 8) = Z.lor w (Z.shiftl 1 j)).
    { apply Z.bits_inj'. intros n Hn. rewrite Z.land_spec, !Z.lor_spec, testbit_shl1 by lia.
      destruct (Z.ltb_spec n 8); [rewrite Z.ones_spec_low by lia; apply andb_true_r |].
      rewrite Z.ones_spec_high, byte_bits_above by lia.
      destruct (Z.eqb_spec n j); [lia | done]. }
    rewrite <- H1, Z.land_ones by lia. apply Z.mod_pos_bound. lia.
Qed.

Lemma scan_word_Some k w off r :
  0 <= off -> scan_word k w off = Some r ->
  off <= r < off + Z.of_nat k /\ Z.testbit w r = false /\
  (forall j, off <= j < r -> Z.testbit w j = true).
Proof.
  revert off. induction k as [ | k IH]; intros off Hoff; simpl; [done |].
  rewrite land_shl1_zero by lia.
  destruct (Z.testbit w off) eqn:E; simpl; intros H.
  - apply IH in H as (? & ? & Hb); [ | lia]. split; [lia |]. split; [done |].
    intros j Hj. destruct (Z.eq_dec j off) as [-> | ]; [done | apply Hb; lia].
  - injection H as <-. split; [lia |]. split; [done | lia].
Qed.

Lemma scan_word_None k w off :
  0 <= off -> scan_word k w off = None ->
  forall j, off <= j < off + Z.of_nat k -> Z.testbit w j = true.
Proof.
  revert off. induction k as [ | k IH]; intros off Hoff; simpl; [lia |].
  rewrite land_shl1_zero by lia.
  destruct (Z.testbit w off) eqn:E; simpl; intros H; [ | done].
  intros j Hj. destruct (Z.eq_dec j off) as [-> | ]; [done | ].
  apply (IH (off + 1)); [lia | done | lia].
Qed.

Lemma mark_over_bits k j w n :
  0 <= w < 2 ^ 8 -> 0 <= j -> j + Z.of_nat k <= 8 -> 0 <= n ->
  0 <= mark_over k j w < 2 ^ 8 /\
  Z.testbit (mark_over k j w) n = Z.testbit w n || (j <=? n) && (n <? j + Z.of_nat k).
Proof.
  revert j w. induction k as [ | k IH]; intros j w Hw Hj Hk Hn.
  - cbn [mark_over]. split; [done |]. change (Z.of_nat 0) with 0. rewrite Z.add_0_r.
    destruct (Z.leb_spec j n), (Z.ltb_spec n j); simpl; first [lia | by rewrite ?orb_false_r].
  - cbn [mark_over].
    assert (u8 (Z.lor w (Z.shiftl 1 j)) = Z.lor w (Z.shiftl 1 j)) as ->.
    { apply Z.mod_small, lor_byte; lia. }
    destruct (IH (j + 1) (Z.lor w (Z.shiftl 1 j))) as [Hr ->]; [by apply lor_byte; lia | lia | lia | lia |].
    split; [done |]. rewrite Z.lor_spec, testbit_shl1 by lia.
    destruct (Z.testbit w n); simpl; [done |].
    destruct (Z.eqb_spec n j), (Z.leb_spec (j + 1) n), (Z.leb_spec j n),
      (Z.ltb_spec n (j + 1 + Z.of_nat k)), (Z.ltb_spec n (j + Z.of_nat (S k))); simpl; done || lia.
Qed.

(** ** Effect of storing one word on the set of used bits *)

(** Replacing word [i / 8] by one that differs from it in bit [i mod 8] only. *)
Lemma used_store b ix w w' vec i (x : bool) :
  zget (v b) ix = Some w -> zput (v b) ix w' = Some vec -> ix = i / 8 ->
  (forall j, 0 <= j -> Z.testbit w' j = if j =? i mod 8 then x else Z.testbit w j) ->
  forall j, used (mkBitmap (nbits b) vec) j = if j =? i then x else used b j.
Proof.
  intros Hw Hp -> Hb j. unfold used; simpl.
  rewrite (zget_zput _ _ (j / 8) _ _ Hp).
  pose proof (Z.mod_pos_bound j 8 eq_refl). pose proof (Z.mod_pos_bound i 8 eq_refl).
  pose proof (Z.div_mod j 8). pose proof (Z.div_mod i 8).
  case_decide as E.
  - rewrite Hb by lia. rewrite E, Hw.
    destruct (Z.eqb_spec (j mod 8) (i mod 8)), (Z.eqb_spec j i); done || lia.
  - destruct (Z.eqb_spec j i) as [-> | ]; [congruence | done].
Qed.

(** A word stored that way keeps the invariant as long as no spare bit is
    cleared. *)
Lemma wf_store b ix w' vec i (x : bool) :
  bitmap_wf b -> zput (v b) ix w' = Some vec -> 0 <= w' < 2 ^ 8 ->
  (forall j, used (mkBitmap (nbits b) vec) j = if j =? i then x else used b j) ->
  (x = true \/ i < nbits b) ->
  bitmap_wf (mkBitmap (nbits b) vec).
Proof.
  intros [Hn Hl Hf Ho] Hp Hw' Hu Hx. pose proof (zput_length _ _ _ _ Hp) as Hlen.
  constructor; simpl.
  - done.
  - congruence.
  - apply zput_Some in Hp as [_ ->]. by apply Forall_insert.
  - intros j Hj. rewrite Hu, Ho by lia. destruct (Z.eqb_spec j i); [ | done].
    destruct Hx; [done | lia].
Qed.

Lemma byte_at b ix w : bitmap_wf b -> zget (v b) ix = Some w -> 0 <= w < 2 ^ 8.
Proof.
  intros Hwf Hw. apply (Forall_lookup_1 _ _ (Z.to_nat ix) w (wf_bytes _ Hwf)).
  unfold zget in Hw. by destruct (ix <? 0).
Qed.

Lemma testbit_set w m j :
  0 <= m -> 0 <= j ->
  Z.testbit (Z.lor w (Z.shiftl 1 m)) j = if j =? m then true else Z.testbit w j.
Proof.
  intros. rewrite Z.lor_spec, testbit_shl1 by lia.
  destruct (j =? m); [apply orb_true_r | apply orb_false_r].
Qed.

Lemma testbit_clear w m j :
  0 <= w < 2 ^ 8 -> 0 <= m -> 0 <= j ->
  Z.testbit (u8 (Z.land w (Z.lnot (Z.shiftl 1 m)))) j =
  if j =? m then false else Z.testbit w j.
Proof.
  intros Hw Hm Hj. unfold u8. rewrite Z.testbit_mod_pow2 by lia.
  rewrite Z.land_spec, Z.lnot_spec, testbit_shl1 by lia.
  destruct (Z.ltb_spec j 8); simpl.
  - destruct (j =? m); [apply andb_false_r | apply andb_true_r].
  - rewrite (byte_bits_above w) by lia. by destruct (j =? m).
Qed.

(** The word of a bit in range. *)
Lemma word_of_bit b i :
  bitmap_wf b -> 0 <= i < nbits b ->
  exists w, zget (v b) (i / 8) = Some w /\ used b i = Z.testbit w (i mod 8).
Proof.
  intros Hwf Hi. destruct (zget_lt (v b) (i / 8)) as [w Hw].
  - rewrite (wf_len _ Hwf). split; [apply Z.div_pos; lia |].
    pose proof (Z.div_mod i 8). pose proof (Z.div_mod (nbits b + 7) 8).
    pose proof (Z.mod_pos_bound i 8 eq_refl). pose proof (Z.mod_pos_bound (nbits b + 7) 8 eq_refl).
    lia.
  - exists w. split; [done |]. unfold used. by rewrite Hw.
Qed.

(** Bit [j] of word [ix] is bit number [8 * ix + j]. *)
Lemma bit_of_word b ix w j :
  zget (v b) ix = Some w -> 0 <= j < 8 -> used b (8 * ix + j) = Z.testbit w j.
Proof.
  intros Hw Hj. unfold used. replace ((8 * ix + j) / 8) with ix by div_lia.
  rewrite Hw. f_equal. div_lia.
Qed.

(** ** Operations *)

(** What setting the clear bit [off] of word [ix] does. *)
Lemma set_bit b ix w off :
  bitmap_wf b -> zget (v b) ix = Some w -> 0 <= off < 8 ->
  exists vec, zput (v b) ix (Z.lor w (Z.shiftl 1 off)) = Some vec /\
    bitmap_wf (mkBitmap (nbits b) vec) /\
    (forall j, used (mkBitmap (nbits b) vec) j = if j =? 8 * ix + off then true else used b j).
Proof.
  intros Hwf Hw Hoff. pose proof (byte_at _ _ _ Hwf Hw) as Hwb.
  destruct (zput_lt (v b) ix (Z.lor w (Z.shiftl 1 off))) as [vec Ep]; [by eapply zget_Some |].
  assert (Hu : forall j, used (mkBitmap (nbits b) vec) j =
                         if j =? 8 * ix + off then true else used b j).
  { apply (used_store b ix w _ vec (8 * ix + off) true Hw Ep); [div_lia |].
    intros j Hj. rewrite testbit_set by lia.
    by replace ((8 * ix + off) mod 8) with off by div_lia. }
  exists vec. split; [done |]. split; [ | done].
  eapply wf_store; [done | done | by apply lor_byte; lia | done | by left].
Qed.

Lemma clear_bit_in_range b i :
  bitmap_wf b -> 0 <= i < 8 * zlen (v b) -> used b i = false -> i < nbits b.
Proof.
  intros Hwf Hi Hc. destruct (Z.ltb_spec i (nbits b)); [done |].
  rewrite (wf_over _ Hwf) in Hc by lia. done.
Qed.

(** What a successful allocation of bit [i] does to the set of used bits. *)
Definition allocates (b b' : bitmap) (i : Z) : Prop :=
  0 <= i < nbits b /\ used b i = false /\ (forall j, 0 <= j < i -> used b j = true) /\
  bitmap_wf b' /\ nbits b' = nbits b /\
  (forall j, used b' j = if j =? i then true else used b j).

Lemma alloc_words_spec k ix b :
  bitmap_wf b -> 0 <= ix -> ix + Z.of_nat k = zlen (v b) ->
  (forall i, 0 <= i < 8 * ix -> used b i = true) ->
  (exists b' i, alloc_words k ix b = Ok (0, b', i) /\ allocates b b' i) \/
  (alloc_words k ix b = Ok (ENOSPC, b, 0) /\
     forall i, 0 <= i < nbits b -> used b i = true).
Proof.
  intros Hwf. revert ix. induction k as [ | k IH]; intros ix Hix Hk Hbelow.
  { right. split; [done |]. intros i Hi. apply Hbelow.
    pose proof (wf_len _ Hwf). div_lia. }
  cbn [alloc_words]. destruct (zget_lt (v b) ix) as [w Hw]; [lia |]. rewrite Hw. cbn [access rbind].
  pose proof (byte_at _ _ _ Hwf Hw) as Hwb.
  pose proof (fun j => bit_of_word b ix w j Hw) as Huse.
  assert (Hext : forall off, (forall j, 0 <= j < off -> Z.testbit w j = true) -> off <= 8 ->
            forall i, 0 <= i < 8 * ix + off -> used b i = true).
  { intros off Hset Hoff i Hi. destruct (Z.ltb_spec i (8 * ix)); [by apply Hbelow; lia |].
    replace i with (8 * ix + (i - 8 * ix)) by lia. rewrite Huse by lia. apply Hset; lia. }
  destruct (Z.eqb_spec w WORD_ALLBITS) as [E | E].
  { apply IH; [lia | lia |]. intros i Hi. apply (Hext 8); [ | lia | lia].
    by apply byte_allbits. }
  destruct (scan_word 8 w 0) as [off | ] eqn:Es.
  2: { exfalso. apply E, byte_allbits; [done |].
       intros j Hj. apply (scan_word_None 8 w 0); [lia | done | lia]. }
  apply scan_word_Some in Es as (Hoff & Hclr & Hset); [ | lia].
  assert (used b (8 * ix + off) = false) as Hfree by (rewrite Huse by lia; done).
  assert (8 * ix + off < nbits b) as Hidx by (apply clear_bit_in_range; [done | lia | done]).
  pose proof (wf_nbits _ Hwf) as Hnb. unfold max_bits in Hnb.
  destruct (set_bit b ix w off Hwf Hw) as (vec & -> & Hwf' & Hu); [lia |]. simpl.
  rewrite u32_id by (unfold is_u32, BITS_PER_WORD; lia).
  replace (ix * BITS_PER_WORD + off) with (8 * ix + off) by (unfold BITS_PER_WORD; lia).
  rewrite (proj2 (Z.ltb_lt _ _)) by lia. simpl. left. eexists _, _. split; [done |].
  split; [lia |]. split; [done |]. split; [ | done].
  apply (Hext off); [done | lia].
Qed.

(** [bitmap_alloc] on a well-formed bitmap never trips an assertion: it
    returns the lowest clear bit, marks exactly that bit and keeps the bitmap
    well-formed, or returns ENOSPC with the bitmap unchanged, and then every
    bit is in use. *)
Lemma bitmap_alloc_spec b :
  bitmap_wf b ->
  (exists b' i, bitmap_alloc b = Ok (0, b', i) /\ allocates b b' i) \/
  (bitmap_alloc b = Ok (ENOSPC, b, 0) /\ forall i, 0 <= i < nbits b -> used b i = true).
Proof.
  intros Hwf. unfold bitmap_alloc, BITS_PER_WORD. rewrite DIVROUNDUP_8 by apply Hwf.
  apply alloc_words_spec; [done | lia | | lia].
  rewrite (wf_len _ Hwf). pose proof (wf_nbits _ Hwf). rewrite Z2Nat.id by div_lia. lia.
Qed.

Lemma zget_replicate (n : nat) (x : Z) i :
  zget (replicate n x) i = if (0 <=? i) && (i <? Z.of_nat n) then Some x else None.
Proof.
  unfold zget. destruct (Z.ltb_spec i 0), (Z.leb_spec 0 i); try lia; [done |].
  destruct (Z.ltb_spec i (Z.of_nat n)); simpl.
  - apply lookup_replicate_2. lia.
  - apply lookup_ge_None_2. rewrite length_replicate. lia.
Qed.

(** A vector of zeros has no used bit. *)
Lemma used_zeros n k i : used (mkBitmap n (replicate k 0)) i = false.
Proof.
  unfold used. cbn [v]. rewrite zget_replicate.
  destruct (_ && _); [apply Z.bits_0 | done].
Qed.

(** The last word when the size is not a multiple of the word size. *)
Lemma create_partial n :
  0 <= n <= max_bits -> n mod 8 <> 0 ->
  exists vec, zput (replicate (Z.to_nat ((n + 7) / 8)) 0) (n / 8)
                (mark_over (Z.to_nat (8 - n mod 8)) (n mod 8) 0) = Some vec /\
    bitmap_wf (mkBitmap n vec) /\ forall i, 0 <= i < n -> used (mkBitmap n vec) i = false.
Proof.
  intros Hn Hm. set (w := mark_over _ _ _).
  assert (Hz : zlen (replicate (Z.to_nat ((n + 7) / 8)) 0) = (n + 7) / 8).
  { unfold zlen. rewrite length_replicate. div_lia. }
  assert (Hw : forall j, 0 <= j -> 0 <= w < 2 ^ 8 /\
             Z.testbit w j = (n mod 8 <=? j) && (j <? 8)).
  { intros j Hj. destruct (mark_over_bits (Z.to_nat (8 - n mod 8)) (n mod 8) 0 j) as [H1 H2];
      [lia | div_lia | div_lia | done |].
    split; [done |]. unfold w. rewrite H2, Z.bits_0. simpl. do 2 f_equal. div_lia. }
  destruct (zput_lt (replicate (Z.to_nat ((n + 7) / 8)) 0) (n / 8) w) as [vec Hp]; [div_lia |].
  assert (Hu : forall i, 0 <= i < 8 * ((n + 7) / 8) -> used (mkBitmap n vec) i = (n <=? i)).
  { intros i Hi. unfold used. cbn [v]. rewrite (zget_zput _ _ _ _ _ Hp).
    case_decide as E.
    - rewrite (proj2 (Hw (i mod 8) ltac:(div_lia))).
      destruct (Z.leb_spec (n mod 8) (i mod 8)), (Z.ltb_spec (i mod 8) 8), (Z.leb_spec n i);
        done || div_lia.
    - rewrite zget_replicate. destruct (Z.leb_spec n i); [div_lia |].
      destruct (_ && _); [apply Z.bits_0 | done]. }
  exists vec. split; [done |]. pose proof (zput_length _ _ _ _ Hp) as Hlen. split.
  - constructor; cbn [nbits v]; [done | lia | | ].
    + apply zput_Some in Hp as [_ ->]. apply Forall_insert; [apply Forall_replicate; lia | ].
      by apply (Hw 0).
    + intros i Hi. rewrite Hu by lia. apply Z.leb_le. lia.
  - intros i Hi. rewrite Hu by div_lia. apply Z.leb_gt. lia.
Qed.

(** a new bitmap is well-formed, of the size asked for, with no bit in
    range set; nothing faults, and the only other outcome is NULL when an
    allocation fails. *)
Lemma bitmap_create_spec ok1 ok2 n (Hn : 0 <= n <= max_bits) :
  if ok1 && ok2 then
    exists b, bitmap_create ok1 ok2 n = Ok (Some b) /\ bitmap_wf b /\ nbits b = n /\
              forall i, 0 <= i < n -> used b i = false
  else bitmap_create ok1 ok2 n = Ok None.
Proof.
  unfold bitmap_create, BITS_PER_WORD. destruct ok1, ok2; try done. cbn [negb andb].
  rewrite DIVROUNDUP_8 by done.
  destruct (Z.eq_dec (n mod 8) 0) as [E | E].
  - destruct (Z.ltb_spec (n / 8) ((n + 7) / 8)); [div_lia |].
    eexists. split; [done |]. split; [ | split; [done | intros; apply used_zeros]].
    constructor; cbn [nbits v].
    + done.
    + unfold zlen. rewrite length_replicate. div_lia.
    + apply Forall_replicate. lia.
    + unfold zlen. rewrite length_replicate. intros i Hi. div_lia.
  - destruct (Z.ltb_spec (n / 8) ((n + 7) / 8)); [ | div_lia].
    replace ((n + 7) / 8 - 1) with (n / 8) by div_lia. unfold max_bits in Hn.
    rewrite u32_id by (unfold is_u32; div_lia).
    replace (n - n / 8 * 8) with (n mod 8) by div_lia.
    rewrite Z.eqb_refl, (proj2 (Z.ltb_lt 0 _)), (proj2 (Z.ltb_lt _ 8)) by div_lia.
    cbn [kassert andb]. rewrite zget_replicate.
    rewrite (proj2 (Z.leb_le _ _)), (proj2 (Z.ltb_lt _ _)) by div_lia. cbn [andb access rbind].
    destruct (create_partial n) as (vec & -> & Hwf & Hu); [done | done |].
    cbn [access rbind]. eauto.
Qed.

(** [bitmap_mark] of a clear bit in range sets that bit and no other;
    anything else trips one of its assertions. *)
Lemma bitmap_mark_spec b i (Hwf : bitmap_wf b) (Hi : 0 <= i) :
  if (i <? nbits b) && negb (used b i) then
    exists b', bitmap_mark b i = Ok b' /\ bitmap_wf b' /\ nbits b' = nbits b /\
      forall j, used b' j = if j =? i then true else used b j
  else bitmap_mark b i = Fault Assertion.
Proof.
  unfold bitmap_mark, bitmap_translate, BITS_PER_WORD.
  destruct (Z.ltb_spec i (nbits b)); simpl; [ | done].
  destruct (word_of_bit b i) as (w & Hw & Hu); [done | lia |]. rewrite Hw. cbn [access rbind].
  rewrite land_shl1_zero, <- Hu by div_lia.
  destruct (used b i); simpl; [done |].
  destruct (set_bit b (i / 8) w (i mod 8) Hwf Hw) as (vec & -> & Hwf' & Hs); [div_lia |].
  cbn [access rbind]. eexists. split; [done |]. split; [done |]. split; [done |].
  intros j. rewrite Hs. by replace (8 * (i / 8) + i mod 8) with i by div_lia.
Qed.

Lemma clear_bit b i w :
  bitmap_wf b -> 0 <= i < nbits b -> zget (v b) (i / 8) = Some w ->
  exists vec, zput (v b) (i / 8) (u8 (Z.land w (Z.lnot (Z.shiftl 1 (i mod 8))))) = Some vec /\
    bitmap_wf (mkBitmap (nbits b) vec) /\
    (forall j, used (mkBitmap (nbits b) vec) j = if j =? i then false else used b j).
Proof.
  intros Hwf Hi Hw. pose proof (byte_at _ _ _ Hwf Hw) as Hwb.
  set (w' := u8 _).
  destruct (zput_lt (v b) (i / 8) w') as [vec Ep]; [by eapply zget_Some |].
  assert (Hu : forall j, used (mkBitmap (nbits b) vec) j = if j =? i then false else used b j).
  { apply (used_store b (i / 8) w w' vec i false Hw Ep eq_refl).
    intros j Hj. apply testbit_clear; [lia | div_lia | lia]. }
  exists vec. split; [done |]. split; [ | done].
  eapply wf_store; [done | done | apply u8_range | done | right; lia].
Qed.

(** [bitmap_unmark] of a set bit in range clears that bit and no other;
    anything else trips one of its assertions. *)
Lemma bitmap_unmark_spec b i (Hwf : bitmap_wf b) (Hi : 0 <= i) :
  if (i <? nbits b) && used b i then
    exists b', bitmap_unmark b i = Ok b' /\ bitmap_wf b' /\ nbits b' = nbits b /\
      forall j, used b' j = if j =? i then false else used b j
  else bitmap_unmark b i = Fault Assertion.
Proof.
  unfold bitmap_unmark, bitmap_translate, BITS_PER_WORD.
  destruct (Z.ltb_spec i (nbits b)); simpl; [ | done].
  destruct (word_of_bit b i) as (w & Hw & Hu); [done | lia |]. rewrite Hw. cbn [access rbind].
  rewrite land_shl1_zero, <- Hu by div_lia.
  destruct (used b i); simpl; [ | done].
  destruct (clear_bit b i w Hwf) as (vec & -> & Hwf' & Hs); [done | done |].
  cbn [access rbind]. by eexists.
Qed.

Lemma bitmap_isset_used b i :
  bitmap_wf b -> 0 <= i < nbits b ->
  exists r, bitmap_isset b i = Ok r /\ (r =? 0) = negb (used b i).
Proof.
  intros Hwf Hi. unfold bitmap_isset, bitmap_translate, BITS_PER_WORD.
  destruct (word_of_bit b i) as (w & Hw & Hu); [done | done |]. rewrite Hw. cbn [access rbind].
  eexists. split; [done |]. rewrite Hu. apply land_shl1_zero. div_lia.
Qed.

(** ** Refinement: a bitmap is a finite set of bit numbers

    A client's calls are a list of [bop]; both the bitmap and the abstract
    set run them and produce one answer per call, up to the first fault. *)
Inductive bop :=
| Alloc
| Mark (i : Z)
| Unmark (i : Z)
| Isset (i : Z).

Inductive bans :=
| AAlloc (err index : Z)
| ADone
| ABit (x : bool).

#[global] Instance bans_eq_dec : EqDecision bans.
Proof. solve_decision. Defined.

Definition bitmap_step (b : bitmap) (o : bop) : res (bitmap * bans) :=
  match o with
  | Alloc => let* (e, b', i) := bitmap_alloc b in Ok (b', AAlloc e i)
  | Mark i => let* b' := bitmap_mark b i in Ok (b', ADone)
  | Unmark i => let* b' := bitmap_unmark b i in Ok (b', ADone)
  | Isset i => let* r := bitmap_isset b i in Ok (b, ABit (negb (r =? 0)))
  end.

(** The abstract map of [n] bits: the set of bits in use. *)
Definition set_step (n : Z) (s : gset Z) (o : bop) : res (gset Z * bans) :=
  match o with
  | Alloc =>
    match list_find (fun i => i ∉ s) (seqZ 0 n) with
    | Some (_, i) => Ok ({[i]} ∪ s, AAlloc 0 i)
    | None => Ok (s, AAlloc ENOSPC 0)
    end
  | Mark i => kassert (i <? n) (kassert (bool_decide (i ∉ s)) (Ok ({[i]} ∪ s, ADone)))
  | Unmark i => kassert (i <? n) (kassert (bool_decide (i ∈ s)) (Ok (s ∖ {[i]}, ADone)))
  | Isset i => Ok (s, ABit (bool_decide (i ∈ s)))
  end.

(** Arguments are unsigned, and [bitmap_isset] is only asked about bits in
    range (it has no check of its own). *)
Definition op_ok (n : Z) (o : bop) : Prop :=
  match o with
  | Alloc => True
  | Mark i | Unmark i => 0 <= i
  | Isset i => 0 <= i < n
  end.

#[global] Instance op_ok_dec n o : Decision (op_ok n o).
Proof. destruct o; simpl; apply _. Defined.

Definition represents (n : Z) (b : bitmap) (s : gset Z) : Prop :=
  bitmap_wf b /\ nbits b = n /\ forall i, 0 <= i < n -> used b i = bool_decide (i ∈ s).

Lemma find_free n (s : gset Z) i :
  0 <= i < n -> i ∉ s -> (forall j, 0 <= j < i -> j ∈ s) ->
  list_find (fun i => i ∉ s) (seqZ 0 n) = Some (Z.to_nat i, i).
Proof.
  intros Hi Hs Hb. apply list_find_Some. split; [ | split].
  - rewrite lookup_seqZ. lia.
  - done.
  - intros j y Hy Hlt Hn. apply lookup_seqZ in Hy. apply Hn, Hb. lia.
Qed.

Lemma find_none n (s : gset Z) :
  (forall i, 0 <= i < n -> i ∈ s) -> list_find (fun i => i ∉ s) (seqZ 0 n) = None.
Proof.
  intros H. apply list_find_None, Forall_forall. intros i Hi%elem_of_seqZ Hn.
  apply Hn, H. lia.
Qed.

(** Adding or dropping one bit on both sides. *)
Lemma represents_update n b b' (s s' : gset Z) i (x : bool) :
  represents n b s -> bitmap_wf b' -> nbits b' = nbits b ->
  (forall j, used b' j = if j =? i then x else used b j) ->
  (forall j, j ∈ s' <-> if j =? i then x = true else j ∈ s) ->
  represents n b' s'.
Proof.
  intros (_ & Hn & Hu) Hwf' Hn' Hb Hs. split; [done |]. split; [congruence |].
  intros j Hj. rewrite Hb. specialize (Hs j). destruct (j =? i).
  - destruct x; symmetry; [by apply bool_decide_eq_true, Hs |].
    apply bool_decide_eq_false. rewrite Hs. done.
  - rewrite Hu by done. by apply bool_decide_ext.
Qed.

Ltac mem_step i :=
  intros j; destruct (Z.eqb_spec j i); subst; set_solver.

Lemma bitmap_step_refines n b s o :
  represents n b s -> op_ok n o ->
  match set_step n s o with
  | Ok (s', a) => exists b', bitmap_step b o = Ok (b', a) /\ represents n b' s'
  | Fault f => bitmap_step b o = Fault f
  end.
Proof.
  intros HR Ho. pose proof HR as (Hwf & Hn & Hu). subst n.
  assert (Hin : forall i, 0 <= i < nbits b -> used b i = true -> i ∈ s).
  { intros i Hi Hi'. rewrite Hu in Hi' by done. by apply bool_decide_eq_true in Hi'. }
  assert (Hout : forall i, 0 <= i < nbits b -> used b i = false -> i ∉ s).
  { intros i Hi Hi'. rewrite Hu in Hi' by done. by apply bool_decide_eq_false in Hi'. }
  destruct o as [ | i | i | i]; simpl in Ho |- *.
  - destruct (bitmap_alloc_spec b Hwf) as [(b' & i & -> & Hi & Hf & Hb & Hwf' & Hn' & Hu') | [-> Hfull]].
    + rewrite (find_free _ _ i); [ | done | by apply Hout | intros; apply Hin; [lia | by apply Hb]].
      eexists. split; [done |]. eapply represents_update with (i := i); [done.. | mem_step i].
    + rewrite find_none; [ | intros; apply Hin; [done | by apply Hfull]]. eauto.
  - pose proof (bitmap_mark_spec b i Hwf Ho) as Hm.
    destruct (Z.ltb_spec i (nbits b)); simpl in *; [ | by rewrite Hm].
    destruct (used b i) eqn:E; simpl in Hm.
    + rewrite bool_decide_eq_false_2 by (intros C; apply C, Hin; done).
      simpl. by rewrite Hm.
    + rewrite bool_decide_eq_true_2 by (by apply Hout). simpl.
      destruct Hm as (b' & -> & ? & ? & ?). eexists. split; [done |].
      eapply represents_update with (i := i); [done.. | mem_step i].
  - pose proof (bitmap_unmark_spec b i Hwf Ho) as Hm.
    destruct (Z.ltb_spec i (nbits b)); simpl in *; [ | by rewrite Hm].
    destruct (used b i) eqn:E; simpl in Hm.
    + rewrite bool_decide_eq_true_2 by (by apply Hin). simpl.
      destruct Hm as (b' & -> & ? & ? & ?). eexists. split; [done |].
      eapply represents_update with (i := i); [done.. | mem_step i].
    + rewrite bool_decide_eq_false_2 by (by apply Hout). simpl. by rewrite Hm.
  - destruct (bitmap_isset_used b i Hwf Ho) as (r & -> & Hr). simpl.
    eexists. rewrite Hr, negb_involutive, Hu by done. done.
Qed.

Lemma ops_all_ok n ops : forall s, Forall (op_ok n) ops -> all_ok (set_step n) (fun _ => op_ok n) s ops.
Proof.
  induction ops as [ | o ops IH]; intros s Hops; [done |].
  apply Forall_cons in Hops as [Ho Hops]. split; [done |].
  destruct (set_step n s o) as [[s' a] | f]; [by apply IH | done].
Qed.

(** C19: a bitmap of any size [bitmap_create] supports behaves, over every
    sequence of calls, exactly like a finite set of bit numbers: the same
    answers (the lowest free bit, ENOSPC when none is free, the membership
    test) and the same assertion failures. *)
Theorem bitmap_refines_set n ops (Hn : 0 <= n <= max_bits) (Hops : Forall (op_ok n) ops) :
  exists b, bitmap_create true true n = Ok (Some b) /\
            run bitmap_step b ops = run (set_step n) ∅ ops.
Proof.
  destruct (bitmap_create_spec true true n Hn) as (b & Hb & Hwf & Hnb & Hu).
  exists b. split; [done |].
  apply (run_simulates _ _ (represents n) (fun _ => op_ok n)).
  { intros. by apply bitmap_step_refines. }
  2: { by apply ops_all_ok. }
  split; [done |]. split; [done |]. intros i Hi. rewrite Hu by done.
  symmetry. by apply bool_decide_eq_false.
Qed.

Lemma bitmap_refines_set_witness :
  exists b, bitmap_create true true 10 = Ok (Some b) /\
    run bitmap_step b [Alloc; Mark 2; Alloc; Alloc; Unmark 1; Isset 1; Alloc; Mark 3] =
    run (set_step 10) ∅ [Alloc; Mark 2; Alloc; Alloc; Unmark 1; Isset 1; Alloc; Mark 3].
Proof.
  apply (bitmap_refines_set 10).
  - unfold max_bits. lia.
  - apply (bool_decide_unpack _). vm_compute. exact I.
Defined.

(** ** What a client relies on

    A map of blocks: which are in use, taking one that is not, giving one
    back. *)
Class FreeMap (B : Type) := {
  fm_size : B -> Z;
  fm_used : B -> Z -> bool;
  fm_alloc : B -> res (Z * B * Z);
  fm_unmark : B -> Z -> res B;
  fm_isset : B -> Z -> res Z
}.

Class FreeMapLaws (B : Type) `{FreeMap B} := {
  fm_wf : B -> Prop;
  fm_alloc_ok b : fm_wf b ->
    (exists b' i, fm_alloc b = Ok (0, b', i) /\ 0 <= i < fm_size b /\ fm_used b i = false /\ fm_wf b' /\ fm_size b' = fm_size b /\
       forall j, fm_used b' j = if j =? i then true else fm_used b j) \/
    (fm_alloc b = Ok (ENOSPC, b, 0));
  fm_unmark_ok b i : fm_wf b -> 0 <= i < fm_size b -> fm_used b i = true ->
    exists b', fm_unmark b i = Ok b' /\ fm_wf b' /\ fm_size b' = fm_size b /\
      forall j, fm_used b' j = if j =? i then false else fm_used b j;
  fm_isset_ok b i : fm_wf b -> 0 <= i < fm_size b ->
    exists r, fm_isset b i = Ok r /\ (r =? 0) = negb (fm_used b i)
}.

#[global] Instance bitmap_freemap : FreeMap bitmap := {
  fm_size := nbits;
  fm_used := used;
  fm_alloc := bitmap_alloc;
  fm_unmark := bitmap_unmark;
  fm_isset := bitmap_isset
}.

#[global] Program Instance bitmap_freemap_laws : FreeMapLaws bitmap := {
  fm_wf := bitmap_wf;
  fm_isset_ok := bitmap_isset_used
}.
Next Obligation.
  intros b Hwf. destruct (bitmap_alloc_spec b Hwf) as [(b' & i & E & Hi & Hf & _ & Hwf' & Hn & Hu) | [E _]]; [left | by right].
  by exists b', i.
Qed.
Next Obligation.
  intros b i Hwf Hi Hu. cbn in *. pose proof (bitmap_unmark_spec b i Hwf ltac:(lia)) as Hs. rewrite Hu in Hs.
  destruct (Z.ltb_spec i (nbits b)); [done | lia].
Qed.
