(* ===== verification/Sfs.v ===== *)
(** The blocks of a file system volume: kern/fs/sfs/sfs_balloc.c, sfs_bmap.c,
    the block I/O of sfs_io.c, and the inodes of sfs_inode.c, on the disk driver
    kern/dev/lamebus/lhd.c.

    A volume is the record [sfs_fs]: the map of blocks in use, the disk, and
    the inodes that are in memory.  The functions are written and proved
    against the interface [FreeMap] of file Bitmap.  The disk may fail any
    command: [rd_errors] and [wr_errors] say which of the coming ones, and a
    command that fails leaves the sector as it was.  vfs_biglock is held over
    all of this, so each call is one step, and the static buffers never outlive
    a call. *)
From S2P Require Import Prelude Bitmap.

(** ** Data (kern/include/kern/sfs.h, kern/include/sfs.h) *)

Definition SFS_BLOCKSIZE := 512.
Definition SFS_NDIRECT := 15.
Definition SFS_NINDIRECT := 1.
Definition SFS_DBPERIDB := 128.
Definition SFS_BITSPERBLOCK := SFS_BLOCKSIZE * 8.
Definition SFS_FREEMAPBITS (nblocks : Z) : Z := u32 (u32 (nblocks + SFS_BITSPERBLOCK - 1) / SFS_BITSPERBLOCK * SFS_BITSPERBLOCK).
Definition SFS_FREEMAPBLOCKS (nblocks : Z) : Z := SFS_FREEMAPBITS nblocks / SFS_BITSPERBLOCK.
Definition SFS_TYPE_INVAL := 0.
Definition SFS_TYPE_FILE := 1.
Definition SFS_TYPE_DIR := 2.

Record sfs_dinode := mkDinode {
  sfi_size : Z;
  sfi_type : Z;
  sfi_linkcount : Z;
  sfi_direct : list Z;
  sfi_indirect : Z;
  sfi_waste : list Z
}.

Record sfs_vnode := mkSv { sv_i : sfs_dinode; sv_dirty : bool }.

Record sfs_fs (B : Type) := mkSfs {
  sfs_freemap : B;
  sfs_freemapdirty : bool;
  sb_nblocks : Z;
  d_blocks : Z;
  disk : gmap Z (list Z);
  rd_errors : list bool;
  wr_errors : list bool;
  sfs_vnodes : gmap Z sfs_vnode
}.
Arguments mkSfs {B}.
Arguments sfs_freemap {B}.
Arguments sfs_freemapdirty {B}.
Arguments sb_nblocks {B}.
Arguments d_blocks {B}.
Arguments disk {B}.
Arguments rd_errors {B}.
Arguments wr_errors {B}.
Arguments sfs_vnodes {B}.

(** Words of 32 bits and their bytes, the most significant first. *)
Fixpoint words_of (l : list Z) : list Z :=
  match l with
  | b0 :: b1 :: b2 :: b3 :: l => (b0 * 2 ^ 24 + b1 * 2 ^ 16 + b2 * 2 ^ 8 + b3) :: words_of l
  | _ => []
  end.

Fixpoint bytes_of (ws : list Z) : list Z :=
  match ws with
  | [] => []
  | w :: ws => u8 (w / 2 ^ 24) :: u8 (w / 2 ^ 16) :: u8 (w / 2 ^ 8) :: u8 w :: bytes_of ws
  end.

Definition zeros : list Z := repeat 0 512.

(** An inode as the block it is stored in. *)
Definition dinode_block (i : sfs_dinode) : list Z :=
  bytes_of (sfi_size i :: (sfi_type i * 2 ^ 16 + sfi_linkcount i) :: sfi_direct i ++ sfi_indirect i :: sfi_waste i).

Definition block_dinode (b : list Z) : res sfs_dinode :=
  match words_of b with
  | size :: tl :: ws =>
    match drop 15 ws with
    | ind :: waste => Ok (mkDinode size (tl / 2 ^ 16) (tl mod 2 ^ 16) (take 15 ws) ind waste)
    | [] => Fault BadAccess
    end
  | _ => Fault BadAccess
  end.

Section Volume.
Context {B : Type} `{FreeMap B}.
Implicit Types s : sfs_fs B.

Definition with_map s (b : B) : sfs_fs B :=
  mkSfs b true (sb_nblocks s) (d_blocks s) (disk s) (rd_errors s) (wr_errors s) (sfs_vnodes s).
Definition with_io s (l : list bool) : sfs_fs B :=
  mkSfs (sfs_freemap s) (sfs_freemapdirty s) (sb_nblocks s) (d_blocks s) (disk s) l (wr_errors s) (sfs_vnodes s).
Definition with_wio s (l : list bool) : sfs_fs B :=
  mkSfs (sfs_freemap s) (sfs_freemapdirty s) (sb_nblocks s) (d_blocks s) (disk s) (rd_errors s) l (sfs_vnodes s).
Definition with_block s (b : Z) (data : list Z) : sfs_fs B :=
  mkSfs (sfs_freemap s) (sfs_freemapdirty s) (sb_nblocks s) (d_blocks s) (<[b := data]> (disk s)) (rd_errors s) (wr_errors s) (sfs_vnodes s).
Definition with_vnode s (ino : Z) (sv : sfs_vnode) : sfs_fs B :=
  mkSfs (sfs_freemap s) (sfs_freemapdirty s) (sb_nblocks s) (d_blocks s) (disk s) (rd_errors s) (wr_errors s) (<[ino := sv]> (sfs_vnodes s)).
Definition get_vnode s (ino : Z) : res sfs_vnode := access (sfs_vnodes s !! ino).

(** ** The disk *)

(** A uio into a kernel buffer: [bu_data] is what is still to be written from
    it, or what has been read into it. *)
Record buf_uio := mkBu { bu_offset : Z; bu_resid : Z; bu_data : list Z }.

(** The loop over the sectors: [k] left, the next one [sector].  For a write the
    data leaves the uio before the disk is told, for a read it arrives when the
    disk is done. *)
Fixpoint lhd_sectors (k : nat) s (write : bool) (sector : Z) (u : buf_uio) : res (sfs_fs B * buf_uio * Z) :=
  match k with
  | O => Ok (s, u, 0)
  | S k =>
    if write then
      let data := take 512 (bu_data u) in
      let u := mkBu (bu_offset u + SFS_BLOCKSIZE) (bu_resid u - SFS_BLOCKSIZE) (drop 512 (bu_data u)) in
      match wr_errors s with
      | true :: l => Ok (with_wio s l, u, EIO)
      | l => lhd_sectors k (with_block (with_wio s (tail l)) sector data) write (sector + 1) u
      end
    else
      match rd_errors s with
      | true :: l => Ok (with_io s l, u, EIO)
      | l =>
        let* data := access (disk s !! sector) in
        let u := mkBu (bu_offset u + SFS_BLOCKSIZE) (bu_resid u - SFS_BLOCKSIZE) (bu_data u ++ data) in
        lhd_sectors k (with_io s (tail l)) write (sector + 1) u
      end
  end.

Definition lhd_io s (write : bool) (u : buf_uio) : res (sfs_fs B * buf_uio * Z) :=
  let sector := u32 (bu_offset u / SFS_BLOCKSIZE) in
  let sectoff := bu_offset u mod SFS_BLOCKSIZE in
  let len := bu_resid u / SFS_BLOCKSIZE in
  let lenoff := bu_resid u mod SFS_BLOCKSIZE in
  if negb (sectoff =? 0) || negb (lenoff =? 0) then Ok (s, u, EINVAL)
  else if d_blocks s <? u32 (sector + len) then Ok (s, u, EINVAL)
  else lhd_sectors (Z.to_nat len) s write sector u.

(** ** Block I/O *)

(** With [tries] retries left. *)
Fixpoint rw_tries (tries : nat) s (write : bool) (u : buf_uio) : res (sfs_fs B * buf_uio * Z) :=
  let* (s, u, result) := lhd_io s write u in
  if result =? EINVAL then Fault PanicCall
  else if result =? EIO then match tries with O => Ok (s, u, result) | S tries => rw_tries tries s write u end
  else Ok (s, u, result).

Definition sfs_rwblock s (write : bool) (u : buf_uio) : res (sfs_fs B * buf_uio * Z) := rw_tries 10 s write u.

(** The return value and what is in the buffer. *)
Definition sfs_readblock s (block : Z) : res (sfs_fs B * Z * list Z) :=
  let* (s, u, result) := sfs_rwblock s false (mkBu (block * SFS_BLOCKSIZE) SFS_BLOCKSIZE []) in
  Ok (s, result, bu_data u).

Definition sfs_writeblock s (block : Z) (data : list Z) : res (sfs_fs B * Z) :=
  kassert (zlen data =? SFS_BLOCKSIZE) (
  let* (s, u, result) := sfs_rwblock s true (mkBu (block * SFS_BLOCKSIZE) SFS_BLOCKSIZE data) in
  Ok (s, result)).

(** ** Allocation *)

Definition sfs_clearblock s (block : Z) : res (sfs_fs B * Z) := sfs_writeblock s block zeros.

Definition sfs_balloc s : res (sfs_fs B * Z * Z) :=
  let* (result, m, diskblock) := fm_alloc (sfs_freemap s) in
  if negb (result =? 0) then Ok (s, result, 0)
  else
  let s := with_map s m in
  if sb_nblocks s <=? diskblock then Fault PanicCall
  else
  let* (s, result) := sfs_clearblock s diskblock in
  if negb (result =? 0) then let* m := fm_unmark (sfs_freemap s) diskblock in Ok (with_map s m, result, diskblock)
  else Ok (s, result, diskblock).

Definition sfs_bfree s (diskblock : Z) : res (sfs_fs B) :=
  let* m := fm_unmark (sfs_freemap s) diskblock in Ok (with_map s m).

Definition sfs_bused s (diskblock : Z) : res Z :=
  if sb_nblocks s <=? diskblock then Fault PanicCall else fm_isset (sfs_freemap s) diskblock.

(** ** The block map of a file *)

Definition set_direct (sv : sfs_vnode) (l : list Z) : sfs_vnode :=
  mkSv (mkDinode (sfi_size (sv_i sv)) (sfi_type (sv_i sv)) (sfi_linkcount (sv_i sv)) l (sfi_indirect (sv_i sv)) (sfi_waste (sv_i sv))) true.
Definition set_indirect (sv : sfs_vnode) (b : Z) : sfs_vnode :=
  mkSv (mkDinode (sfi_size (sv_i sv)) (sfi_type (sv_i sv)) (sfi_linkcount (sv_i sv)) (sfi_direct (sv_i sv)) b (sfi_waste (sv_i sv))) true.
Definition set_size (sv : sfs_vnode) (n : Z) : sfs_vnode :=
  mkSv (mkDinode n (sfi_type (sv_i sv)) (sfi_linkcount (sv_i sv)) (sfi_direct (sv_i sv)) (sfi_indirect (sv_i sv)) (sfi_waste (sv_i sv))) true.

(** Hand back the block, after the check that it is in use. *)
Definition bmap_result s (block : Z) : res (sfs_fs B * Z * Z) :=
  if negb (block =? 0) then
    let* u := sfs_bused s block in
    if u =? 0 then Fault PanicCall else Ok (s, 0, block)
  else Ok (s, 0, block).

Definition sfs_bmap_direct s (ino fileblock : Z) (doalloc : bool) : res (sfs_fs B * Z * Z) :=
  let* sv := get_vnode s ino in
  let* block := access (zget (sfi_direct (sv_i sv)) fileblock) in
  if (block =? 0) && doalloc then
    let* (s, result, block) := sfs_balloc s in
    if negb (result =? 0) then Ok (s, result, 0)
    else
    let* l := access (zput (sfi_direct (sv_i sv)) fileblock block) in
    bmap_result (with_vnode s ino (set_direct sv l)) block
  else bmap_result s block.

(** With the indirect block [idblock] loaded into [idbuf]. *)
Definition sfs_bmap_indirect s (idblock : Z) (idbuf : list Z) (idoff : Z) (doalloc : bool) : res (sfs_fs B * Z * Z) :=
  let* block := access (zget idbuf idoff) in
  if (block =? 0) && doalloc then
    let* (s, result, block) := sfs_balloc s in
    if negb (result =? 0) then Ok (s, result, 0)
    else
    let* idbuf := access (zput idbuf idoff block) in
    let* (s, result) := sfs_writeblock s idblock (bytes_of idbuf) in
    if negb (result =? 0) then Ok (s, result, 0) else bmap_result s block
  else bmap_result s block.

Definition sfs_bmap s (ino fileblock : Z) (doalloc : bool) : res (sfs_fs B * Z * Z) :=
  if fileblock <? SFS_NDIRECT then sfs_bmap_direct s ino fileblock doalloc
  else
  let fileblock := fileblock - SFS_NDIRECT in
  let idnum := fileblock / SFS_DBPERIDB in
  let idoff := fileblock mod SFS_DBPERIDB in
  if SFS_NINDIRECT <=? idnum then Ok (s, EFBIG, 0)
  else
  let* sv := get_vnode s ino in
  let idblock := sfi_indirect (sv_i sv) in
  if (idblock =? 0) && negb doalloc then Ok (s, 0, 0)
  else if idblock =? 0 then
    let* (s, result, idblock) := sfs_balloc s in
    if negb (result =? 0) then Ok (s, result, 0)
    else
    let s := with_vnode s ino (set_indirect sv idblock) in
    sfs_bmap_indirect s idblock (repeat 0 128) idoff doalloc
  else
    let* (s, result, data) := sfs_readblock s idblock in
    if negb (result =? 0) then Ok (s, result, 0)
    else sfs_bmap_indirect s idblock (words_of data) idoff doalloc.

(** ** Truncation *)

(** The loop over the direct blocks, at [i], with [k] rounds left. *)
Fixpoint itrunc_direct (k : nat) s (ino blocklen i : Z) : res (sfs_fs B) :=
  match k with
  | O => Ok s
  | S k =>
    let* sv := get_vnode s ino in
    let* block := access (zget (sfi_direct (sv_i sv)) i) in
    let* s :=
      if (blocklen <=? i) && negb (block =? 0) then
        let* s := sfs_bfree s block in
        let* l := access (zput (sfi_direct (sv_i sv)) i 0) in
        Ok (with_vnode s ino (set_direct sv l))
      else Ok s in
    itrunc_direct k s ino blocklen (i + 1)
  end.

(** The loop over the entries of the indirect block. *)
Fixpoint itrunc_indirect (k : nat) s (blocklen baseblock j : Z) (idbuf : list Z) (hasnonzero iddirty : bool)
    : res (sfs_fs B * list Z * bool * bool) :=
  match k with
  | O => Ok (s, idbuf, hasnonzero, iddirty)
  | S k =>
    let* block := access (zget idbuf j) in
    let* (s, idbuf, iddirty) :=
      if (blocklen <? baseblock + j) && negb (block =? 0) then
        let* s := sfs_bfree s block in
        let* idbuf := access (zput idbuf j 0) in
        Ok (s, idbuf, true)
      else Ok (s, idbuf, iddirty) in
    let* block := access (zget idbuf j) in
    itrunc_indirect k s blocklen baseblock (j + 1) idbuf (hasnonzero || negb (block =? 0)) iddirty
  end.

(** The indirect block: what is past the end of the file goes, and the block
    itself if nothing is left in it. *)
Definition itrunc_idblock s (ino blocklen : Z) : res (sfs_fs B * Z) :=
  let* sv := get_vnode s ino in
  let idblock := sfi_indirect (sv_i sv) in
  let baseblock := SFS_NDIRECT in
  let highblock := baseblock + SFS_DBPERIDB - 1 in
  if (blocklen <? highblock) && negb (idblock =? 0) then
    let* (s, result, data) := sfs_readblock s idblock in
    if negb (result =? 0) then Ok (s, result)
    else
    let* (s, idbuf, hasnonzero, iddirty) :=
      itrunc_indirect (Z.to_nat SFS_DBPERIDB) s blocklen baseblock 0 (words_of data) false false in
    if negb hasnonzero then
      let* s := sfs_bfree s idblock in
      Ok (with_vnode s ino (set_indirect sv 0), 0)
    else if iddirty : bool then sfs_writeblock s idblock (bytes_of idbuf)
    else Ok (s, 0)
  else Ok (s, 0).

Definition sfs_itrunc s (ino len : Z) : res (sfs_fs B * Z) :=
  let blocklen := u32 (Z.quot (len + SFS_BLOCKSIZE - 1) SFS_BLOCKSIZE) in
  let* s := itrunc_direct (Z.to_nat SFS_NDIRECT) s ino blocklen 0 in
  let* (s, result) := itrunc_idblock s ino blocklen in
  if negb (result =? 0) then Ok (s, result)
  else
  let* sv := get_vnode s ino in
  Ok (with_vnode s ino (set_size sv (u32 len)), 0).

(** ** Inodes *)

Definition sfs_sync_inode s (ino : Z) : res (sfs_fs B * Z) :=
  let* sv := get_vnode s ino in
  if sv_dirty sv then
    let* (s, result) := sfs_writeblock s ino (dinode_block (sv_i sv)) in
    if negb (result =? 0) then Ok (s, result) else Ok (with_vnode s ino (mkSv (sv_i sv) false), 0)
  else Ok (s, 0).
End Volume.

(** * Words and bytes *)

Lemma length_bytes_of ws : zlen (bytes_of ws) = 4 * zlen ws.
Proof. induction ws as [ | w ws IH]; [done |]. unfold zlen in *. cbn [bytes_of length]. lia. Qed.

Lemma bytes_of_bytes ws : Forall (fun b => 0 <= b < 2 ^ 8) (bytes_of ws).
Proof. induction ws as [ | w ws IH]; [done |]. cbn. repeat constructor; try apply u8_range. done. Qed.

(** What is written as words is read as the same words. *)
Lemma words_of_bytes_of ws : Forall is_u32 ws -> words_of (bytes_of ws) = ws.
Proof.
  induction 1 as [ | w ws Hw _ IH]; [done |]. cbn. rewrite IH. f_equal. unfold is_u32, u8 in *.
  change (2 ^ 8) with 256 in *. change (2 ^ 16) with 65536. change (2 ^ 24) with 16777216. change (2 ^ 32) with 4294967296 in Hw. div_lia.
Qed.

Lemma words_of_zeros : words_of zeros = repeat 0 128.
Proof. reflexivity. Qed.

Lemma length_words_of ws n : zlen ws = 4 * Z.of_nat n -> zlen (words_of ws) = Z.of_nat n.
Proof.
  revert ws. induction n as [ | n IH]; intros ws Hl.
  - destruct ws; [done | unfold zlen in Hl; cbn in Hl; lia].
  - destruct ws as [ | b0 [ | b1 [ | b2 [ | b3 ws]]]]; unfold zlen in Hl; cbn in Hl; try lia.
    cbn. specialize (IH ws). unfold zlen in *. cbn [length]. assert (Z.of_nat (length (words_of ws)) = Z.of_nat n) by (apply IH; lia). lia.
Qed.

Lemma words_of_u32 ws : Forall (fun b => 0 <= b < 2 ^ 8) ws -> Forall is_u32 (words_of ws).
Proof.
  assert (G : forall n ws, (length ws <= n)%nat -> Forall (fun b => 0 <= b < 2 ^ 8) ws -> Forall is_u32 (words_of ws)).
  { induction n as [ | n IH]; intros l Hn HF; destruct l as [ | b0 [ | b1 [ | b2 [ | b3 l]]]]; try constructor; cbn in Hn; try lia;
      rewrite !Forall_cons in HF; [unfold is_u32; lia |]. apply IH; [lia | apply HF]. }
  by apply (G (length ws)).
Qed.

(** * Which block is where *)

(** A file has its inode, perhaps an indirect block, and its data blocks. *)
Inductive slot := SIno | SInd | SFile (fb : Z).

#[global] Instance slot_eq_dec : EqDecision slot.
Proof. solve_decision. Defined.

(** The fields at their width, the arrays at their length. *)
Record dinode_ok (i : sfs_dinode) : Prop := {
  di_size : is_u32 (sfi_size i);
  di_type : 0 <= sfi_type i < 2 ^ 16;
  di_links : 0 <= sfi_linkcount i < 2 ^ 16;
  di_direct : zlen (sfi_direct i) = SFS_NDIRECT /\ Forall is_u32 (sfi_direct i);
  di_indirect : is_u32 (sfi_indirect i);
  di_waste : zlen (sfi_waste i) = 128 - 3 - SFS_NDIRECT /\ Forall is_u32 (sfi_waste i)
}.

Definition u32b (z : Z) : bool := (0 <=? z) && (z <? 2 ^ 32).

Definition dinode_okb (i : sfs_dinode) : bool :=
  u32b (sfi_size i) && (0 <=? sfi_type i) && (sfi_type i <? 2 ^ 16) && (0 <=? sfi_linkcount i) && (sfi_linkcount i <? 2 ^ 16) &&
  (zlen (sfi_direct i) =? SFS_NDIRECT) && forallb u32b (sfi_direct i) && u32b (sfi_indirect i) &&
  (zlen (sfi_waste i) =? 128 - 3 - SFS_NDIRECT) && forallb u32b (sfi_waste i).

Lemma dinode_check i : dinode_okb i = true -> dinode_ok i.
Proof.
  assert (Hu : forall l, forallb u32b l = true -> Forall is_u32 l).
  { intros l Hl. apply Forall_forall. intros x Hx%list_elem_of_In. rewrite forallb_forall in Hl. specialize (Hl x Hx). unfold u32b in Hl. unfold is_u32. lia. }
  unfold dinode_okb. rewrite !andb_true_iff. intros [[[[[[[[[H1 H2] H3] H4] H5] H6] H7] H8] H9] H10].
  unfold u32b in H1, H8. split; [unfold is_u32; lia | lia | lia | split; [lia | auto] | unfold is_u32; lia | split; [lia | auto]].
Qed.

Lemma dinode_set_direct sv fb b l : dinode_ok (sv_i sv) -> is_u32 b -> zput (sfi_direct (sv_i sv)) fb b = Some l -> dinode_ok (sv_i (set_direct sv l)).
Proof.
  intros [D1 D2 D3 [D4 D5] D6 D7] Hb Hl. split; try done. cbn. split; [by rewrite (zput_length _ _ _ _ Hl) |].
  apply zput_Some in Hl as [_ ->]. by apply Forall_insert.
Qed.

Lemma dinode_set_indirect sv b : dinode_ok (sv_i sv) -> is_u32 b -> dinode_ok (sv_i (set_indirect sv b)).
Proof. intros [D1 D2 D3 D4 D5 D6] Hb. by split. Qed.

Lemma dinode_set_size sv n : dinode_ok (sv_i sv) -> dinode_ok (sv_i (set_size sv (u32 n))).
Proof. intros [D1 D2 D3 D4 D5 D6]. split; try done. cbn. apply u32_range. Qed.

Section Blocks.
Context {B : Type} `{FreeMapLaws B}.
Implicit Types s : sfs_fs B.

Definition idwords (d : gmap Z (list Z)) (sv : sfs_vnode) : list Z :=
  if sfi_indirect (sv_i sv) =? 0 then repeat 0 128 else words_of (default zeros (d !! sfi_indirect (sv_i sv))).

Definition file_block (d : gmap Z (list Z)) (sv : sfs_vnode) (fb : Z) : Z :=
  default 0 (if fb <? SFS_NDIRECT then zget (sfi_direct (sv_i sv)) fb else zget (idwords d sv) (fb - SFS_NDIRECT)).

Definition vnode_block (d : gmap Z (list Z)) (ino : Z) (sv : sfs_vnode) (sl : slot) : Z :=
  match sl with
  | SIno => ino
  | SInd => sfi_indirect (sv_i sv)
  | SFile fb => file_block d sv fb
  end.

(** The block in a slot of a file in memory; 0: none. *)
Definition block_at s (p : Z * slot) : Z :=
  match sfs_vnodes s !! p.1 with
  | Some sv => vnode_block (disk s) p.1 sv p.2
  | None => 0
  end.

(** What a file holds: a block that is not there reads as zeros. *)
Definition content s (ino fb : Z) : list Z :=
  let b := block_at s (ino, SFile fb) in
  if b =? 0 then zeros else default zeros (disk s !! b).

Definition good_block (d : list Z) : Prop := zlen d = SFS_BLOCKSIZE /\ Forall (fun b => 0 <= b < 2 ^ 8) d.

(** The disk has room for the volume, and none of the coming writes fails. *)
Definition dev_ok s : Prop := sb_nblocks s <= d_blocks s < 2 ^ 32 /\ wr_errors s = [].

(** The map and the disk fit the volume. *)
Record vol_ok s : Prop := {
  vo_map : fm_wf (sfs_freemap s);
  vo_size : 0 <= sb_nblocks s <= fm_size (sfs_freemap s) /\ fm_size (sfs_freemap s) = SFS_FREEMAPBITS (sb_nblocks s);
  vo_u32 : sb_nblocks s < 2 ^ 32;
  vo_over : forall i, sb_nblocks s <= i < fm_size (sfs_freemap s) -> fm_used (sfs_freemap s) i = true;
  vo_zero : fm_used (sfs_freemap s) 0 = true;
  vo_disk : forall b, 0 <= b < sb_nblocks s -> exists d, disk s !! b = Some d /\ good_block d;
  vo_inode : forall ino sv, sfs_vnodes s !! ino = Some sv -> dinode_ok (sv_i sv);
  vo_dev : dev_ok s
}.

(** Every block of a file is marked, and belongs to no other file nor to
    another place in the same one. *)
Record sfs_inv s : Prop := {
  sv_vol : vol_ok s;
  sv_used : forall p, block_at s p <> 0 -> 0 < block_at s p < sb_nblocks s /\ fm_used (sfs_freemap s) (block_at s p) = true;
  sv_inj : forall p q, block_at s p <> 0 -> block_at s p = block_at s q -> p = q
}.

Lemma inv_block s p : sfs_inv s -> block_at s p <> 0 -> exists d, disk s !! block_at s p = Some d /\ good_block d.
Proof. intros HI Hp. destruct (sv_used _ HI p Hp) as [Hr _]. apply (vo_disk _ (sv_vol _ HI)). lia. Qed.

Lemma vo_direct s : vol_ok s -> forall ino sv, sfs_vnodes s !! ino = Some sv -> zlen (sfi_direct (sv_i sv)) = SFS_NDIRECT.
Proof. intros Hv ino sv Hsv. apply (vo_inode _ Hv ino sv Hsv). Qed.

Lemma block_at_Some s ino sv sl : sfs_vnodes s !! ino = Some sv -> block_at s (ino, sl) = vnode_block (disk s) ino sv sl.
Proof. intros E. unfold block_at. cbn. by rewrite E. Qed.

(** ** Taking a block *)

(** What a successful allocation does. *)
Record took s s' (b : Z) : Prop := {
  tk_range : 0 < b < sb_nblocks s;
  tk_free : fm_used (sfs_freemap s) b = false;
  tk_used : forall j, fm_used (sfs_freemap s') j = if j =? b then true else fm_used (sfs_freemap s) j;
  tk_map : fm_wf (sfs_freemap s') /\ fm_size (sfs_freemap s') = fm_size (sfs_freemap s);
  tk_disk : disk s' = <[b := zeros]> (disk s);
  tk_rest : sb_nblocks s' = sb_nblocks s /\ sfs_vnodes s' = sfs_vnodes s;
  tk_dev : d_blocks s' = d_blocks s /\ wr_errors s' = wr_errors s;
  tk_io : rd_errors s' = rd_errors s;
  tk_dirty : sfs_freemapdirty s' = true
}.

(** Nothing that matters has changed. *)
Record same s s' : Prop := {
  sm_used : forall j, fm_used (sfs_freemap s') j = fm_used (sfs_freemap s) j;
  sm_map : fm_wf (sfs_freemap s') /\ fm_size (sfs_freemap s') = fm_size (sfs_freemap s);
  sm_rest : sb_nblocks s' = sb_nblocks s /\ sfs_vnodes s' = sfs_vnodes s /\ disk s' = disk s;
  sm_dev : d_blocks s' = d_blocks s /\ wr_errors s' = wr_errors s
}.

Lemma good_zeros : good_block zeros.
Proof. split; [done |]. unfold zeros. apply Forall_forall. intros b Hb%list_elem_of_In%repeat_spec. subst. lia. Qed.

(** What the driver is asked to do for a block, and for nothing. *)
Lemma lhd_io_one s write b n data :
  0 <= b -> b + n <= d_blocks s < 2 ^ 32 -> n = 0 \/ n = 1 ->
  lhd_io s write (mkBu (b * SFS_BLOCKSIZE) (n * SFS_BLOCKSIZE) data) =
  lhd_sectors (Z.to_nat n) s write b (mkBu (b * SFS_BLOCKSIZE) (n * SFS_BLOCKSIZE) data).
Proof.
  intros Hb Hd Hn. unfold lhd_io. cbn [bu_offset bu_resid]. rewrite !Z.div_mul, !Z.mod_mul by done.
  cbn [Z.eqb negb orb]. rewrite (u32_id b), (u32_id (b + n)) by (unfold is_u32; lia). destruct (Z.ltb_spec (d_blocks s) (b + n)); [lia | done].
Qed.

Lemma read_first s b d data :
  0 <= b < d_blocks s -> d_blocks s < 2 ^ 32 -> disk s !! b = Some d ->
  lhd_io s false (mkBu (b * SFS_BLOCKSIZE) SFS_BLOCKSIZE data) =
  Ok (match rd_errors s with
      | true :: l => (with_io s l, mkBu (b * SFS_BLOCKSIZE) SFS_BLOCKSIZE data, EIO)
      | l => (with_io s (tail l), mkBu ((b + 1) * SFS_BLOCKSIZE) 0 (data ++ d), 0)
      end).
Proof.
  intros Hb Hd Hk. change SFS_BLOCKSIZE with (1 * SFS_BLOCKSIZE) at 2. rewrite lhd_io_one by (auto; lia). change (Z.to_nat 1) with 1%nat.
  cbn [lhd_sectors bu_data bu_offset bu_resid]. rewrite Hk. cbn [access rbind].
  replace (b * SFS_BLOCKSIZE + SFS_BLOCKSIZE) with ((b + 1) * SFS_BLOCKSIZE) by lia.
  replace (1 * SFS_BLOCKSIZE - SFS_BLOCKSIZE) with 0 by lia. by destruct (rd_errors s) as [ | [ | ] l].
Qed.

Lemma read_tries n s b d data :
  0 <= b < d_blocks s -> d_blocks s < 2 ^ 32 -> disk s !! b = Some d ->
  exists l r u, rw_tries n s false (mkBu (b * SFS_BLOCKSIZE) SFS_BLOCKSIZE data) = Ok (with_io s l, u, r) /\
    ((r = 0 /\ u = mkBu ((b + 1) * SFS_BLOCKSIZE) 0 (data ++ d)) \/ (r = EIO /\ u = mkBu (b * SFS_BLOCKSIZE) SFS_BLOCKSIZE data)) /\
    (rd_errors s = [] -> r = 0 /\ l = []).
Proof.
  revert s. induction n as [ | n IH]; intros s Hb Hd Hk; cbn [rw_tries]; rewrite (read_first s b d) by done;
    destruct (rd_errors s) as [ | [ | ] l] eqn:El; cbn [rbind tail]; change (EIO =? EINVAL) with false; change (EIO =? EIO) with true; cbv iota;
    try by eexists _, 0, _; split; [reflexivity |]; split; [by left | done].
  - eexists _, EIO, _. split; [done |]. split; [by right | done].
  - destruct (IH (with_io s l)) as (l' & r & u & E & Hr & _); [done | done | done |]. exists l', r, u. split; [done |]. by split.
Qed.

Lemma rw_read_ok s b d data :
  dev_ok s -> 0 <= b < sb_nblocks s -> disk s !! b = Some d ->
  exists l r u, sfs_rwblock s false (mkBu (b * SFS_BLOCKSIZE) SFS_BLOCKSIZE data) = Ok (with_io s l, u, r) /\
    ((r = 0 /\ u = mkBu ((b + 1) * SFS_BLOCKSIZE) 0 (data ++ d)) \/ (r = EIO /\ u = mkBu (b * SFS_BLOCKSIZE) SFS_BLOCKSIZE data)) /\
    (rd_errors s = [] -> r = 0 /\ l = []).
Proof. intros [Hn _] Hb Hd. apply read_tries; [lia | lia | done]. Qed.

Lemma readblock_ok s b d :
  dev_ok s -> 0 <= b < sb_nblocks s -> disk s !! b = Some d ->
  exists l r d', sfs_readblock s b = Ok (with_io s l, r, d') /\ ((r = 0 /\ d' = d) \/ r = EIO) /\ (rd_errors s = [] -> r = 0 /\ l = []).
Proof.
  intros Hdev Hb Hd. destruct (rw_read_ok s b d [] Hdev Hb Hd) as (l & r & u & E & Hr & Hio).
  exists l, r, (bu_data u). unfold sfs_readblock. rewrite E. split; [done |]. split; [ | done]. destruct Hr as [[-> ->] | [-> _]]; auto.
Qed.

Lemma write_first s b data :
  0 <= b < d_blocks s -> d_blocks s < 2 ^ 32 ->
  lhd_io s true (mkBu (b * SFS_BLOCKSIZE) SFS_BLOCKSIZE data) =
  Ok (match wr_errors s with
      | true :: l => (with_wio s l, mkBu ((b + 1) * SFS_BLOCKSIZE) 0 (drop 512 data), EIO)
      | l => (with_block (with_wio s (tail l)) b (take 512 data), mkBu ((b + 1) * SFS_BLOCKSIZE) 0 (drop 512 data), 0)
      end).
Proof.
  intros Hb Hd. change SFS_BLOCKSIZE with (1 * SFS_BLOCKSIZE) at 2. rewrite lhd_io_one by (auto; lia). change (Z.to_nat 1) with 1%nat.
  cbn [lhd_sectors bu_data bu_offset bu_resid]. replace (b * SFS_BLOCKSIZE + SFS_BLOCKSIZE) with ((b + 1) * SFS_BLOCKSIZE) by lia.
  replace (1 * SFS_BLOCKSIZE - SFS_BLOCKSIZE) with 0 by lia. by destruct (wr_errors s) as [ | [ | ] l].
Qed.

Lemma write_retry n s b l data :
  0 <= b < d_blocks s -> d_blocks s < 2 ^ 32 ->
  rw_tries n (with_wio s l) true (mkBu ((b + 1) * SFS_BLOCKSIZE) 0 data) = Ok (with_wio s l, mkBu ((b + 1) * SFS_BLOCKSIZE) 0 data, 0).
Proof.
  intros Hb Hd. assert (E : lhd_io (with_wio s l) true (mkBu ((b + 1) * SFS_BLOCKSIZE) 0 data) = Ok (with_wio s l, mkBu ((b + 1) * SFS_BLOCKSIZE) 0 data, 0)).
  { apply (lhd_io_one (with_wio s l) true (b + 1) 0 data); [lia | cbn; lia | by left]. }
  destruct n; cbn [rw_tries]; by rewrite E.
Qed.

Lemma rw_tries_S n s write u :
  rw_tries (S n) s write u =
  let* (s, u, result) := lhd_io s write u in
  if result =? EINVAL then Fault PanicCall else if result =? EIO then rw_tries n s write u else Ok (s, u, result).
Proof. done. Qed.

(** A write that the disk does. *)
Lemma rw_write_ok s b data : dev_ok s -> 0 <= b < sb_nblocks s ->
  sfs_rwblock s true (mkBu (b * SFS_BLOCKSIZE) SFS_BLOCKSIZE data) =
  Ok (with_block (with_io s (rd_errors s)) b (take 512 data), mkBu ((b + 1) * SFS_BLOCKSIZE) 0 (drop 512 data), 0).
Proof.
  intros [Hn Hw] Hb. unfold sfs_rwblock. rewrite rw_tries_S, write_first by lia. rewrite Hw. cbn. unfold with_block, with_wio, with_io. cbn. by rewrite Hw.
Qed.

Lemma writeblock_ok s b d : dev_ok s -> 0 <= b < sb_nblocks s -> zlen d = SFS_BLOCKSIZE ->
  sfs_writeblock s b d = Ok (with_block (with_io s (rd_errors s)) b d, 0).
Proof.
  intros Hdev Hb Hl. unfold sfs_writeblock. rewrite Hl, rw_write_ok by done. unfold kassert. rewrite Z.eqb_refl. cbn [rbind].
  unfold zlen, SFS_BLOCKSIZE in Hl. by rewrite take_ge by lia.
Qed.

(** One that it does not: the data has left the uio, and the retry moves
    nothing. *)
Lemma writeblock_lost s b d l :
  0 <= b < d_blocks s -> d_blocks s < 2 ^ 32 -> zlen d = SFS_BLOCKSIZE -> wr_errors s = true :: l ->
  sfs_writeblock s b d = Ok (with_wio s l, 0).
Proof.
  intros Hb Hd Hl Hw. unfold sfs_writeblock, sfs_rwblock. rewrite rw_tries_S, Hl, write_first by done. rewrite Hw.
  unfold kassert. rewrite Z.eqb_refl. unfold rbind at 2. rewrite Z.eqb_refl. change (EIO =? EINVAL) with false. cbv iota.
  by rewrite write_retry.
Qed.

Lemma balloc_ok s :
  vol_ok s ->
  (exists s' b, sfs_balloc s = Ok (s', 0, b) /\ took s s' b) \/
  (exists s' r b, sfs_balloc s = Ok (s', r, b) /\ r = ENOSPC /\ rd_errors s' = rd_errors s /\ same s s' /\ s' = s).
Proof.
  intros Hv. unfold sfs_balloc.
  destruct (fm_alloc_ok (sfs_freemap s) (vo_map _ Hv)) as [(m & b & -> & Hr & Hf & Hwf & Hsz & Hu) | ->]; cbn [rbind negb Z.eqb].
  2: { right. exists s, ENOSPC, 0. split; [done |]. split; [done |]. split; [done |]. split; [ | done]. split; [done | by split; [apply Hv |] | done | done]. }
  assert (Hb : 0 < b < sb_nblocks s).
  { split.
    - destruct (Z.eq_dec b 0) as [-> | ]; [by rewrite (vo_zero _ Hv) in Hf | lia].
    - destruct (Z_lt_ge_dec b (sb_nblocks s)); [done |]. rewrite (vo_over _ Hv) in Hf by lia. done. }
  cbn [sb_nblocks with_map]. destruct (Z.leb_spec (sb_nblocks s) b); [lia |].
  unfold sfs_clearblock. destruct (vo_disk _ Hv b ltac:(lia)) as (d & Hd & _).
  rewrite writeblock_ok; [ | apply Hv | cbn; lia | done].
  left. eexists _, b. split; [done |]. by split.
Qed.

(** *** Volumes stay volumes *)

Lemma vol_took s s' b : vol_ok s -> took s s' b -> vol_ok s'.
Proof.
  intros [M S U O Z D V X] [R F Us [Mw Ms] Dk [Rn Rv] [Xd Xw]]. split; rewrite ?Rn, ?Ms, ?Rv; try done.
  - intros i Hi. rewrite Us. case_if; [done | by apply O].
  - rewrite Us. case_if; done.
  - intros i Hi. rewrite Dk. destruct (decide (i = b)) as [-> | N].
    + exists zeros. rewrite lookup_insert_eq. split; [done | apply good_zeros].
    + rewrite lookup_insert_ne by done. by apply D.
  - unfold dev_ok in *. by rewrite Rn, Xd, Xw.
Qed.

Lemma vol_same s s' : vol_ok s -> same s s' -> vol_ok s'.
Proof.
  intros [M S U O Z D V X] [Us [Mw Ms] (Rn & Rv & Rd) [Xd Xw]]. split; rewrite ?Rn, ?Ms, ?Rv, ?Rd; try done; try (intros; rewrite Us; auto; fail).
  unfold dev_ok in *. by rewrite Rn, Xd, Xw.
Qed.

Lemma vol_io s l : vol_ok s -> vol_ok (with_io s l).
Proof. intros [M S U O Z D V X]. by split. Qed.

Lemma vol_vnode s ino sv : vol_ok s -> dinode_ok (sv_i sv) -> vol_ok (with_vnode s ino sv).
Proof.
  intros [M S U O Z D V X] Hl. split; try done. cbn. intros i sv' [[<- <-] | [_ Hi]]%lookup_insert_Some; [done | by eapply V].
Qed.

Lemma vol_block s b d : vol_ok s -> good_block d -> vol_ok (with_block s b d).
Proof.
  intros [M S U O Z D V X] Hd. split; try done. cbn. intros i Hi. destruct (decide (i = b)) as [-> | N].
  - exists d. by rewrite lookup_insert_eq.
  - rewrite lookup_insert_ne by done. by apply D.
Qed.

(** *** Blocks stay where they are *)

Lemma file_block_ext d d' sv fb :
  (sfi_indirect (sv_i sv) <> 0 -> d' !! sfi_indirect (sv_i sv) = d !! sfi_indirect (sv_i sv)) ->
  file_block d' sv fb = file_block d sv fb.
Proof. intros E. unfold file_block, idwords. destruct (Z.eqb_spec (sfi_indirect (sv_i sv)) 0); [done | by rewrite E]. Qed.

(** A change to a disk block that is no indirect block. *)
Lemma block_at_disk s s' x :
  sfs_vnodes s' = sfs_vnodes s -> (forall b, b <> x -> disk s' !! b = disk s !! b) ->
  (forall ino, block_at s (ino, SInd) <> 0 -> block_at s (ino, SInd) <> x) ->
  forall p, block_at s' p = block_at s p.
Proof.
  intros Hv Hd Hx [ino sl]. unfold block_at in *. rewrite Hv. cbn. destruct (sfs_vnodes s !! ino) as [sv | ] eqn:E; [ | done].
  destruct sl; [done | done |]. cbn. apply file_block_ext. intros Hi. apply Hd.
  specialize (Hx ino). cbn in Hx. rewrite E in Hx. by apply Hx.
Qed.

Lemma fresh_block s b p : sfs_inv s -> fm_used (sfs_freemap s) b = false -> 0 < b -> block_at s p <> b.
Proof. intros HI Hf Hb E. assert (Hn : block_at s p <> 0) by lia. destruct (sv_used _ HI p Hn) as [_ Hu]. congruence. Qed.

Lemma fresh_inode s b i : sfs_inv s -> fm_used (sfs_freemap s) b = false -> 0 < b -> i = 0 \/ is_Some (sfs_vnodes s !! i) -> b <> i.
Proof. intros HI Hf Hb [-> | [sv Hv]] E; [lia |]. apply (fresh_block s b (i, SIno) HI Hf Hb). by rewrite (block_at_Some _ _ _ _ Hv). Qed.

Lemma slot_inode s p i : sfs_inv s -> block_at s p <> 0 -> p.2 <> SIno -> i = 0 \/ is_Some (sfs_vnodes s !! i) -> block_at s p <> i.
Proof.
  intros HI Hp Hs [-> | [sv Hv]] E; [done |]. assert (p = (i, SIno)) as ->; [ | done]. apply (sv_inj _ HI); [done |]. by rewrite E, (block_at_Some _ _ _ _ Hv).
Qed.

Lemma took_block_at s s' b p : sfs_inv s -> took s s' b -> block_at s' p = block_at s p.
Proof.
  intros HI [R F Us M Dk [Rn Rv]]. apply (block_at_disk s s' b); [done | | ].
  - intros i Hi. rewrite Dk. by apply lookup_insert_ne.
  - intros ino _. apply fresh_block; [done | done | lia].
Qed.

(** A block is entered in a slot. *)
Lemma inv_assign s s' P nb :
  sfs_inv s -> vol_ok s' -> sb_nblocks s' = sb_nblocks s -> 0 < nb < sb_nblocks s -> fm_used (sfs_freemap s') nb = true ->
  (forall j, fm_used (sfs_freemap s) j = true -> fm_used (sfs_freemap s') j = true) -> (forall p, block_at s p <> nb) ->
  (forall p, block_at s' p = if decide (p = P) then nb else block_at s p) -> sfs_inv s'.
Proof.
  intros HI Hv Hn Hnb Hu Hus Hfr Hb. split; [done | |].
  - intros p. rewrite Hb, Hn. case_decide; [done |]. intros Hp. destruct (sv_used _ HI p Hp). auto.
  - intros p q. rewrite !Hb. repeat case_decide; subst; try done.
    + intros _ E. by destruct (Hfr q).
    + intros _ E. by destruct (Hfr p).
    + by apply (sv_inj _ HI).
Qed.

(** Nothing is entered. *)
Lemma inv_keep s s' :
  sfs_inv s -> vol_ok s' -> sb_nblocks s' = sb_nblocks s ->
  (forall j, fm_used (sfs_freemap s) j = true -> fm_used (sfs_freemap s') j = true) ->
  (forall p, block_at s' p = block_at s p) -> sfs_inv s'.
Proof.
  intros HI Hv Hn Hus Hb. split; [done | |].
  - intros p. rewrite Hb, Hn. intros Hp. destruct (sv_used _ HI p Hp). auto.
  - intros p q. rewrite !Hb. by apply (sv_inj _ HI).
Qed.

Lemma took_mono s s' b j : took s s' b -> fm_used (sfs_freemap s) j = true -> fm_used (sfs_freemap s') j = true.
Proof. intros T Hj. rewrite (tk_used _ _ _ T). by case_if. Qed.

Lemma inv_took s s' b : sfs_inv s -> took s s' b -> sfs_inv s'.
Proof.
  intros HI HT. apply (inv_keep s s'); [done | by eapply vol_took, HT; apply HI | apply HT | intros j; by eapply took_mono |].
  intros p. by apply took_block_at with b.
Qed.

(** ** What bmap leaves alone *)

(** Size, type and link count of a file. *)
Definition attrs s (ino : Z) : option (Z * Z * Z) :=
  (fun sv => (sfi_size (sv_i sv), sfi_type (sv_i sv), sfi_linkcount (sv_i sv))) <$> sfs_vnodes s !! ino.

(** The files read as before. *)
Record reads_same s s' : Prop := {
  rs_inv : sfs_inv s';
  rs_content : forall ino fb, content s' ino fb = content s ino fb;
  rs_attrs : forall ino, attrs s' ino = attrs s ino;
  rs_nblocks : sb_nblocks s' = sb_nblocks s
}.

(** The blocks in which inodes are stored, and block 0, are as before. *)
Definition inodes_kept s s' : Prop := forall i, i = 0 \/ is_Some (sfs_vnodes s !! i) -> disk s' !! i = disk s !! i.

(** The files read as before, and no inode was written. *)
Record unchanged s s' : Prop := {
  un_inv : sfs_inv s';
  un_content : forall ino fb, content s' ino fb = content s ino fb;
  un_attrs : forall ino, attrs s' ino = attrs s ino;
  un_nblocks : sb_nblocks s' = sb_nblocks s;
  un_inodes : inodes_kept s s'
}.

Lemma unchanged_reads s s' : unchanged s s' -> reads_same s s'.
Proof. intros [U1 U2 U3 U4 _]. by split. Qed.

Lemma attrs_loaded s i : is_Some (attrs s i) <-> is_Some (sfs_vnodes s !! i).
Proof. unfold attrs. by rewrite fmap_is_Some. Qed.

Lemma inodes_kept_trans s1 s2 s3 :
  (forall i, is_Some (sfs_vnodes s1 !! i) -> is_Some (sfs_vnodes s2 !! i)) -> inodes_kept s1 s2 -> inodes_kept s2 s3 -> inodes_kept s1 s3.
Proof. intros Hl H1 H2 i Hi. rewrite H2 by naive_solver. by apply H1. Qed.

Lemma unchanged_trans s1 s2 s3 : unchanged s1 s2 -> unchanged s2 s3 -> unchanged s1 s3.
Proof.
  intros [A1 B1 C1 D1 E1] [A2 B2 C2 D2 E2]. split; [done | | | congruence |].
  - intros. by rewrite B2.
  - intros. by rewrite C2.
  - eapply inodes_kept_trans; [ | exact E1 | exact E2]. intros i. by rewrite <- !attrs_loaded, C1.
Qed.

Lemma unchanged_same s s' : sfs_inv s -> same s s' -> unchanged s s'.
Proof.
  intros HI HS. pose proof (vol_same _ _ (sv_vol _ HI) HS) as Hv. destruct HS as [Us Mp (Rn & Rv & Rd)].
  assert (Hb : forall p, block_at s' p = block_at s p) by (intros p; unfold block_at; by rewrite Rv, Rd).
  split; [ | | | done |].
  - apply (inv_keep s s'); try done. intros j. by rewrite Us.
  - intros ino fb. unfold content. by rewrite Hb, Rd.
  - intros ino. unfold attrs. by rewrite Rv.
  - intros i _. by rewrite Rd.
Qed.

Lemma same_io s l : vol_ok s -> same s (with_io s l).
Proof. intros Hv. split; [done | by split; [apply Hv |] | done | done]. Qed.

Lemma unchanged_io s l : sfs_inv s -> unchanged s (with_io s l).
Proof. intros HI. apply unchanged_same; [done |]. apply same_io, HI. Qed.

(** *** Entering a new, zeroed block *)

Lemma unchanged_assign s s' ino fb b :
  sfs_inv s -> sfs_inv s' -> sb_nblocks s' = sb_nblocks s -> (forall i, attrs s' i = attrs s i) ->
  block_at s (ino, SFile fb) = 0 -> b <> 0 -> disk s' !! b = Some zeros ->
  (forall i f, block_at s' (i, SFile f) = if decide ((i, f) = (ino, fb)) then b else block_at s (i, SFile f)) ->
  (forall i f, block_at s (i, SFile f) <> 0 -> disk s' !! block_at s (i, SFile f) = disk s !! block_at s (i, SFile f)) ->
  inodes_kept s s' -> unchanged s s'.
Proof.
  intros HI HI' Hn Ha HP Hb Hz Hbl Hd Hk. split; [done | | done | done | done]. intros i f. unfold content. rewrite Hbl. case_decide as E.
  - injection E as -> ->. rewrite HP. destruct (Z.eqb_spec b 0); [done |]. by rewrite Hz.
  - destruct (Z.eqb_spec (block_at s (i, SFile f)) 0); [done |]. by rewrite Hd.
Qed.

Lemma attrs_vnode s ino sv sv' :
  sfs_vnodes s !! ino = Some sv -> sfi_size (sv_i sv') = sfi_size (sv_i sv) -> sfi_type (sv_i sv') = sfi_type (sv_i sv) ->
  sfi_linkcount (sv_i sv') = sfi_linkcount (sv_i sv) -> forall i, attrs (with_vnode s ino sv') i = attrs s i.
Proof.
  intros Hv H1 H2 H3 i. unfold attrs. cbn. destruct (decide (i = ino)) as [-> | N].
  - rewrite lookup_insert_eq, Hv. cbn. by rewrite H1, H2, H3.
  - by rewrite lookup_insert_ne.
Qed.

Lemma block_at_direct s ino sv fb b l :
  sfs_vnodes s !! ino = Some sv -> zput (sfi_direct (sv_i sv)) fb b = Some l -> fb < SFS_NDIRECT ->
  forall p, block_at (with_vnode s ino (set_direct sv l)) p = if decide (p = (ino, SFile fb)) then b else block_at s p.
Proof.
  intros Hv Hl Hfb [i sl]. unfold block_at. cbn. destruct (decide (i = ino)) as [-> | N].
  - rewrite lookup_insert_eq, Hv. destruct sl as [ | | f]; cbn; [by rewrite decide_False | by rewrite decide_False |]. unfold file_block. cbn.
    destruct (Z.ltb_spec f SFS_NDIRECT) as [Hf | Hf].
    + rewrite (zget_zput _ _ _ _ _ Hl). case_decide as E; [subst; by rewrite decide_True | rewrite decide_False; [done | congruence]].
    + rewrite decide_False; [done |]. intros [= ->]. lia.
  - rewrite lookup_insert_ne by done. rewrite decide_False; [done | congruence].
Qed.

Lemma bmap_result_ok s p : sfs_inv s -> bmap_result s (block_at s p) = Ok (s, 0, block_at s p).
Proof.
  intros HI. unfold bmap_result. destruct (Z.eqb_spec (block_at s p) 0) as [E | Hn]; cbn [negb]; [done |].
  destruct (sv_used _ HI p Hn) as [Hr Hu]. unfold sfs_bused. destruct (Z.leb_spec (sb_nblocks s) (block_at s p)); [lia |].
  destruct (fm_isset_ok (sfs_freemap s) (block_at s p) (vo_map _ (sv_vol _ HI))) as (r & E & Hrz).
  { pose proof (vo_size _ (sv_vol _ HI)). lia. }
  rewrite E. cbn [rbind]. rewrite Hrz, Hu. done.
Qed.

(** How a call of bmap for block [fb] of file [ino] may end. *)
Record bmap_post s (ino fb : Z) (doalloc : bool) s' (r b : Z) : Prop := {
  bp_unchanged : unchanged s s';
  bp_stays : forall p, block_at s p <> 0 -> block_at s' p = block_at s p;
  bp_other : forall i f, (i, f) <> (ino, fb) -> block_at s' (i, SFile f) = block_at s (i, SFile f);
  bp_loaded : forall i, is_Some (sfs_vnodes s' !! i) <-> is_Some (sfs_vnodes s !! i);
  bp_read : doalloc = false -> same s s';
  bp_result : (r = 0 /\ b = block_at s' (ino, SFile fb) /\ (doalloc = true -> b <> 0)) \/
    (r = ENOSPC /\ doalloc = true /\ block_at s (ino, SFile fb) = 0) \/ r = EIO;
  bp_io : rd_errors s = [] -> rd_errors s' = [] /\ r <> EIO
}.

Lemma bmap_direct_ok s ino sv fb doalloc :
  sfs_inv s -> sfs_vnodes s !! ino = Some sv -> 0 <= fb < SFS_NDIRECT ->
  exists s' r b, sfs_bmap_direct s ino fb doalloc = Ok (s', r, b) /\ bmap_post s ino fb doalloc s' r b.
Proof.
  intros HI Hv Hfb. pose proof (vo_direct _ (sv_vol _ HI) _ _ Hv) as Hlen. set (P := (ino, SFile fb)).
  destruct (zget_lt (sfi_direct (sv_i sv)) fb) as [b0 Hb0]; [lia |].
  assert (HP : block_at s P = b0).
  { unfold P. rewrite (block_at_Some _ _ _ _ Hv). cbn. unfold file_block. destruct (Z.ltb_spec fb SFS_NDIRECT); [by rewrite Hb0 | lia]. }
  assert (Hrefl : unchanged s s) by (apply unchanged_same; [done |]; split; [done | by split; [apply HI |] | done | done]).
  unfold sfs_bmap_direct, get_vnode. rewrite Hv. cbn [access rbind]. rewrite Hb0. cbn [access rbind]. rewrite <- HP.
  destruct ((block_at s P =? 0) && doalloc) eqn:Hgo.
  2: { rewrite bmap_result_ok by done. eexists s, 0, _. split; [done |]. split; try done.
       - intros _. split; [done | by split; [apply HI |] | done | done].
       - left. split; [done |]. split; [done |]. intros ->. rewrite andb_true_r in Hgo. by apply Z.eqb_neq in Hgo. }
  apply andb_true_iff in Hgo as [HP0%Z.eqb_eq ->].
  destruct (balloc_ok s (sv_vol _ HI)) as [(s1 & b & -> & HT) | (s1 & r & b & -> & Hr & Hio & HS & _)]; cbn [rbind].
  - destruct (zput_lt (sfi_direct (sv_i sv)) fb b) as [l Hl]; [lia |]. cbn [negb Z.eqb]. rewrite Hl. cbn [access rbind].
    pose proof HT as [Rb Fb Ub Mb Db [Nb Vb]]. set (s2 := with_vnode s1 ino (set_direct sv l)).
    assert (Hbl : forall p, block_at s2 p = if decide (p = P) then b else block_at s p).
    { intros p. unfold s2. rewrite (block_at_direct s1 ino sv fb b l) by (rewrite ?Vb; done || lia). by rewrite (took_block_at s s1 b). }
    assert (HI2 : sfs_inv s2).
    { apply (inv_assign s s2 P b); try done.
      - apply vol_vnode; [by eapply vol_took, HT; apply HI |]. eapply dinode_set_direct; [by eapply vo_inode; [apply HI |] | | exact Hl].
        pose proof (vo_u32 _ (sv_vol _ HI)). unfold is_u32. lia.
      - cbn. by rewrite Ub, Z.eqb_refl.
      - intros j. exact (took_mono s s1 b j HT).
      - intros p. apply fresh_block; [done | done | lia]. }
    replace b with (block_at s2 P) by (rewrite Hbl; by rewrite decide_True). rewrite bmap_result_ok by done.
    eexists s2, 0, _. split; [done |]. split.
    + apply (unchanged_assign s s2 ino fb b); try done; [ | lia | | | | intros i Hi; cbn; rewrite Db, lookup_insert_ne; [done | by apply (fresh_inode s); [ | | lia |]]].
      * intros i. unfold s2. rewrite (attrs_vnode s1 ino sv) by (rewrite ?Vb; done). unfold attrs. by rewrite Vb.
      * cbn. rewrite Db. apply lookup_insert_eq.
      * intros i f. rewrite Hbl. unfold P. destruct (decide ((i, f) = (ino, fb))) as [E | E]; [injection E as -> ->; by rewrite decide_True |].
        rewrite decide_False; [done | congruence].
      * intros i f Hif. cbn. rewrite Db, lookup_insert_ne; [done |]. intros E. symmetry in E. revert E. apply fresh_block; [done | done | lia].
    + intros p Hp. rewrite Hbl. case_decide as E; [congruence | done].
    + intros i f Hne. rewrite Hbl, decide_False; [done | unfold P; congruence].
    + intros i. cbn. rewrite lookup_insert_is_Some', Vb. split; [intros [<- | ?]; [by eexists | done] | by right].
    + done.
    + left. split; [done |]. split; [done |]. intros _. rewrite Hbl, decide_True by done. lia.
    + cbn. by rewrite (tk_io _ _ _ HT).
  - assert (r <> 0) by by rewrite Hr. destruct (Z.eqb_spec r 0); [done |]. cbn [negb].
    assert (Hb' : forall p, block_at s1 p = block_at s p) by (intros p; unfold block_at; destruct HS as [_ _ (_ & -> & ->)]; done).
    eexists s1, r, 0. split; [done |]. split; try done; [by apply unchanged_same | | tauto | by rewrite Hio, Hr].
    intros i. by destruct HS as [_ _ (_ & -> & _)].
Qed.

(** *** The indirect block *)

Lemma idwords_ok s ino sv :
  sfs_inv s -> sfs_vnodes s !! ino = Some sv -> zlen (idwords (disk s) sv) = SFS_DBPERIDB /\ Forall is_u32 (idwords (disk s) sv).
Proof.
  intros HI Hv. unfold idwords. destruct (Z.eqb_spec (sfi_indirect (sv_i sv)) 0) as [E | N].
  - split; [reflexivity |]. apply Forall_forall. intros w Hw%list_elem_of_In%repeat_spec. subst. unfold is_u32. lia.
  - assert (Hb : block_at s (ino, SInd) = sfi_indirect (sv_i sv)) by by rewrite (block_at_Some _ _ _ _ Hv).
    destruct (inv_block s (ino, SInd) HI) as (d & Hd & Hl & Hby); [by rewrite Hb |]. rewrite Hb in Hd. rewrite Hd. cbn.
    split; [apply (length_words_of d 128); by rewrite Hl | by apply words_of_u32].
Qed.

(** One entry of the indirect block [x] of [ino] is overwritten. *)
Lemma block_at_indirect s s' ino sv x idoff b l :
  sfs_inv s -> sfs_vnodes s !! ino = Some sv -> sfi_indirect (sv_i sv) = x -> x <> 0 -> 0 <= b < 2 ^ 32 ->
  zput (idwords (disk s) sv) idoff b = Some l -> 0 <= idoff ->
  sfs_vnodes s' = sfs_vnodes s -> disk s' !! x = Some (bytes_of l) -> (forall y, y <> x -> block_at s (ino, SInd) <> y ->
    (exists i, block_at s (i, SInd) = y) -> disk s' !! y = disk s !! y) ->
  forall p, block_at s' p = if decide (p = (ino, SFile (SFS_NDIRECT + idoff))) then b else block_at s p.
Proof.
  intros HI Hv Hx Hx0 Hb Hl Hid Hvs Hdx Hd [i sl].
  destruct (idwords_ok s ino sv HI Hv) as [_ Hu].
  assert (Hul : Forall is_u32 l).
  { apply zput_Some in Hl as [_ ->]. apply Forall_insert; [done | unfold is_u32; lia]. }
  destruct (decide (i = ino)) as [-> | Hne].
  - unfold block_at. cbn. rewrite Hvs, Hv. destruct sl as [ | | f]; cbn; [by rewrite decide_False | by rewrite decide_False |].
    unfold file_block. destruct (Z.ltb_spec f SFS_NDIRECT) as [Hf | Hf]; [rewrite decide_False by (intros [= ->]; lia); done |].
    assert (Hw : idwords (disk s') sv = l).
    { unfold idwords. rewrite Hx. destruct (Z.eqb_spec x 0); [done |]. rewrite Hdx. cbn. by apply words_of_bytes_of. }
    rewrite Hw, (zget_zput _ _ _ _ _ Hl). case_decide as E.
    + replace f with (SFS_NDIRECT + idoff) by lia. by rewrite decide_True.
    + rewrite decide_False; [done |]. intros [= ->]. lia.
  - rewrite decide_False by congruence. unfold block_at. cbn. rewrite Hvs. destruct (sfs_vnodes s !! i) as [sv' | ] eqn:Hv'; [ | done].
    destruct sl as [ | | f]; cbn; [done | done |]. apply file_block_ext. intros Hi.
    assert (Hbi : block_at s (i, SInd) = sfi_indirect (sv_i sv')) by by rewrite (block_at_Some _ _ _ _ Hv').
    assert (Hbx : block_at s (ino, SInd) = x) by by rewrite (block_at_Some _ _ _ _ Hv).
    assert (Hneq : sfi_indirect (sv_i sv') <> x).
    { intros E. assert ((i, SInd) = (ino, SInd)); [ | congruence]. apply (sv_inj _ HI); congruence. }
    apply Hd; [done | congruence | by exists i].
Qed.

Lemma block_at_indirect_slot s ino sv idoff :
  sfs_vnodes s !! ino = Some sv -> 0 <= idoff -> block_at s (ino, SFile (SFS_NDIRECT + idoff)) = default 0 (zget (idwords (disk s) sv) idoff).
Proof.
  intros Hv Hid. rewrite (block_at_Some _ _ _ _ Hv). cbn. unfold file_block. destruct (Z.ltb_spec (SFS_NDIRECT + idoff) SFS_NDIRECT); [lia |].
  do 2 f_equal. lia.
Qed.

(** A call that ends with an error and no change. *)
Lemma bmap_post_error s ino fb doalloc s' r b :
  sfs_inv s -> same s s' -> (r = ENOSPC /\ doalloc = true /\ block_at s (ino, SFile fb) = 0) \/ r = EIO -> (rd_errors s = [] -> rd_errors s' = [] /\ r <> EIO) ->
  bmap_post s ino fb doalloc s' r b.
Proof.
  intros HI HS Hr Hio. assert (Hb : forall p, block_at s' p = block_at s p) by (intros p; unfold block_at; destruct HS as [_ _ (_ & -> & ->)]; done).
  split; try done; [by apply unchanged_same | | tauto]. intros i. by destruct HS as [_ _ (_ & -> & _)].
Qed.

Lemma same_refl s : sfs_inv s -> same s s.
Proof. intros HI. split; [done | by split; [apply HI |] | done | done]. Qed.

(** Any block of a file can be read. *)
Lemma read_block_at s p :
  sfs_inv s -> block_at s p <> 0 ->
  exists l r d', sfs_readblock s (block_at s p) = Ok (with_io s l, r, d') /\
    ((r = 0 /\ disk s !! block_at s p = Some d') \/ r = EIO) /\ (rd_errors s = [] -> r = 0 /\ l = []).
Proof.
  intros HI Hp. destruct (inv_block s p HI Hp) as (d & Hd & _). destruct (sv_used _ HI p Hp) as [Hr _].
  destruct (readblock_ok s (block_at s p) d) as (l & r & d' & E & Hres & Hio); [apply (sv_vol _ HI) | lia | done |].
  exists l, r, d'. split; [done |]. split; [ | done]. destruct Hres as [[-> ->] | ]; auto.
Qed.

(** A call that finds the block. *)
Lemma bmap_post_found s ino fb doalloc s' :
  sfs_inv s -> same s s' -> rd_errors s' = rd_errors s -> (doalloc = true -> block_at s (ino, SFile fb) <> 0) ->
  bmap_post s ino fb doalloc s' 0 (block_at s (ino, SFile fb)).
Proof.
  intros HI HS Hio Hd. assert (Hb : forall p, block_at s' p = block_at s p) by (intros p; unfold block_at; destruct HS as [_ _ (_ & -> & ->)]; done).
  split; try done; [by apply unchanged_same | | left; by rewrite Hb | by rewrite Hio]. intros i. by destruct HS as [_ _ (_ & -> & _)].
Qed.

(** The data block is entered in the indirect block on disk. *)
Lemma bmap_indirect_write s s1 ino sv x idoff b idbuf :
  sfs_inv s -> sfs_vnodes s !! ino = Some sv -> sfi_indirect (sv_i sv) = x -> x <> 0 -> 0 <= idoff ->
  took s s1 b -> zput (idwords (disk s) sv) idoff b = Some idbuf -> block_at s (ino, SFile (SFS_NDIRECT + idoff)) = 0 ->
  let s2 := with_block (with_io s1 (rd_errors s1)) x (bytes_of idbuf) in
  bmap_post s ino (SFS_NDIRECT + idoff) true s2 0 b /\ bmap_result s2 b = Ok (s2, 0, b).
Proof.
  intros HI Hv Hx Hx0 Hid HT Hl HP0 s2. pose proof HT as [Rb Fb Ub Mb Db [Nb Vb]]. set (P := (ino, SFile (SFS_NDIRECT + idoff))) in *.
  destruct (idwords_ok s ino sv HI Hv) as [Hlen _].
  assert (Hbx : block_at s (ino, SInd) = x) by by rewrite (block_at_Some _ _ _ _ Hv).
  assert (Hxb : x <> b) by (intros E; apply (fresh_block s b (ino, SInd) HI Fb); [lia | congruence]).
  assert (Hdisk : forall y, y <> x -> y <> b -> disk s2 !! y = disk s !! y).
  { intros y H1 H2. cbn. rewrite lookup_insert_ne by done. rewrite Db. by rewrite lookup_insert_ne. }
  assert (Hbl : forall p, block_at s2 p = if decide (p = P) then b else block_at s p).
  { apply (block_at_indirect s s2 ino sv x idoff b idbuf); try done.
    - pose proof (vo_u32 _ (sv_vol _ HI)). lia.
    - cbn. apply lookup_insert_eq.
    - intros y Hy _ [i Hi]. apply Hdisk; [done |]. rewrite <- Hi. apply fresh_block; [done | done | lia]. }
  assert (HI2 : sfs_inv s2).
  { apply (inv_assign s s2 P b); try done.
    - apply vol_block; [apply vol_io; by eapply vol_took, HT; apply HI |]. split; [ | apply bytes_of_bytes].
      rewrite length_bytes_of, (zput_length _ _ _ _ Hl), Hlen. done.
    - cbn. by rewrite Ub, Z.eqb_refl.
    - intros j. exact (took_mono s s1 b j HT).
    - intros p. apply fresh_block; [done | done | lia]. }
  assert (HbP : block_at s2 P = b) by (rewrite Hbl; by rewrite decide_True).
  split; [split | rewrite <- HbP; by apply bmap_result_ok].
  - apply (unchanged_assign s s2 ino (SFS_NDIRECT + idoff) b); try done;
      [ | lia | | | | intros i Hi; apply Hdisk; [rewrite <- Hbx; apply not_eq_sym, slot_inode; [done | by rewrite Hbx | done | done] |
        apply not_eq_sym, (fresh_inode s); [done | done | lia | done]]].
    + intros i. unfold attrs. cbn. by rewrite Vb.
    + cbn. rewrite lookup_insert_ne by done. rewrite Db. apply lookup_insert_eq.
    + intros i f. rewrite Hbl. unfold P. destruct (decide ((i, f) = _)) as [E | E]; [injection E as -> ->; by rewrite decide_True |].
      rewrite decide_False; [done | congruence].
    + intros i f Hif. apply Hdisk; [ | apply fresh_block; [done | done | lia]].
      intros E. assert ((i, SFile f) = (ino, SInd)); [ | congruence]. apply (sv_inj _ HI); congruence.
  - intros p Hp. rewrite Hbl. case_decide as E; [congruence | done].
  - intros i f Hne. rewrite Hbl, decide_False; [done | unfold P; congruence].
  - intros i. cbn. by rewrite Vb.
  - done.
  - left. split; [done |]. split; [done |]. lia.
  - cbn. by rewrite (tk_io _ _ _ HT).
Qed.

Lemma bmap_indirect_ok s ino sv x idoff doalloc :
  sfs_inv s -> sfs_vnodes s !! ino = Some sv -> sfi_indirect (sv_i sv) = x -> x <> 0 -> 0 <= idoff < SFS_DBPERIDB ->
  exists s' r b, sfs_bmap_indirect s x (idwords (disk s) sv) idoff doalloc = Ok (s', r, b) /\
    bmap_post s ino (SFS_NDIRECT + idoff) doalloc s' r b.
Proof.
  intros HI Hv Hx Hx0 Hid. destruct (idwords_ok s ino sv HI Hv) as [Hlen _].
  destruct (zget_lt (idwords (disk s) sv) idoff) as [b0 Hb0]; [lia |].
  pose proof (block_at_indirect_slot s ino sv idoff Hv ltac:(lia)) as HP. rewrite Hb0 in HP. cbn in HP.
  unfold sfs_bmap_indirect. rewrite Hb0. cbn [access rbind]. rewrite <- HP.
  destruct ((block_at s (ino, SFile (SFS_NDIRECT + idoff)) =? 0) && doalloc) eqn:Hgo.
  2: { rewrite bmap_result_ok by done. eexists s, 0, _. split; [done |]. apply bmap_post_found; [done | by apply same_refl | done |].
       intros ->. rewrite andb_true_r in Hgo. by apply Z.eqb_neq in Hgo. }
  apply andb_true_iff in Hgo as [HP0%Z.eqb_eq ->].
  destruct (balloc_ok s (sv_vol _ HI)) as [(s1 & b & -> & HT) | (s1 & r & b & -> & Hr & Hio & HS & _)]; cbn [rbind].
  2: { assert (r <> 0) by by rewrite Hr. destruct (Z.eqb_spec r 0); [done |]. cbn [negb].
       eexists _, _, _. split; [done |]. apply bmap_post_error; [done | done | by left | by rewrite Hio, Hr]. }
  cbn [negb Z.eqb]. destruct (zput_lt (idwords (disk s) sv) idoff b) as [idbuf Hl]; [lia |]. rewrite Hl. cbn [access rbind].
  assert (Hbx : block_at s (ino, SInd) = x) by by rewrite (block_at_Some _ _ _ _ Hv).
  destruct (sv_used _ HI (ino, SInd)) as [Hxr _]; [congruence |]. rewrite Hbx in Hxr.
  pose proof (vol_took _ _ _ (sv_vol _ HI) HT) as Hvol. destruct (tk_rest _ _ _ HT) as [Nb _].
  rewrite writeblock_ok; [ | apply Hvol | lia |].
  2: { rewrite length_bytes_of, (zput_length _ _ _ _ Hl), Hlen. done. }
  cbn [rbind negb Z.eqb]. destruct (bmap_indirect_write s s1 ino sv x idoff b idbuf) as [Hpost ->]; try done; [lia |].
  by eexists _, _, _.
Qed.

(** A fresh indirect block is entered in the inode. *)
Lemma new_indirect_ok s s1 ino sv x :
  sfs_inv s -> sfs_vnodes s !! ino = Some sv -> sfi_indirect (sv_i sv) = 0 -> took s s1 x ->
  let s2 := with_vnode s1 ino (set_indirect sv x) in
  unchanged s s2 /\ (forall p, block_at s2 p = if decide (p = (ino, SInd)) then x else block_at s p) /\
  idwords (disk s2) (set_indirect sv x) = repeat 0 128.
Proof.
  intros HI Hv Hx HT s2. pose proof HT as [Rb Fb Ub Mb Db [Nb Vb]].
  assert (Hw : idwords (disk s2) (set_indirect sv x) = repeat 0 128).
  { unfold idwords. cbn. destruct (Z.eqb_spec x 0); [lia |]. by rewrite Db, lookup_insert_eq. }
  assert (Hbl : forall p, block_at s2 p = if decide (p = (ino, SInd)) then x else block_at s p).
  { intros [i sl]. rewrite <- (took_block_at s s1 x) by done. unfold block_at. cbn [fst snd s2 with_vnode sfs_vnodes disk].
    destruct (decide (i = ino)) as [-> | Hne].
    - rewrite lookup_insert_eq, Vb, Hv. destruct sl as [ | | f]; cbn; [by rewrite decide_False | by rewrite decide_True |].
      rewrite decide_False by done. unfold file_block. change (disk s2) with (disk s1) in Hw. rewrite Hw.
      unfold idwords. rewrite Hx. done.
    - rewrite lookup_insert_ne by done. by rewrite decide_False by congruence. }
  assert (HI2 : sfs_inv s2).
  { apply (inv_assign s s2 (ino, SInd) x); try done.
    - apply vol_vnode; [by eapply vol_took, HT; apply HI |]. apply dinode_set_indirect; [by eapply vo_inode; [apply HI |] |].
      pose proof (vo_u32 _ (sv_vol _ HI)). unfold is_u32. lia.
    - cbn. by rewrite Ub, Z.eqb_refl.
    - intros j. exact (took_mono s s1 x j HT).
    - intros p. apply fresh_block; [done | done | lia]. }
  split; [ | done]. split; [done | | | done | intros i Hi; cbn; rewrite Db, lookup_insert_ne; [done | by apply (fresh_inode s); [ | | lia |]]].
  - intros i f. unfold content. rewrite Hbl, decide_False by done.
    destruct (Z.eqb_spec (block_at s (i, SFile f)) 0); [done |]. cbn. rewrite Db, lookup_insert_ne; [done |].
    intros E. symmetry in E. revert E. apply fresh_block; [done | done | lia].
  - intros i. unfold s2. rewrite (attrs_vnode s1 ino sv) by (rewrite ?Vb; done). unfold attrs. by rewrite Vb.
Qed.

Lemma bmap_indirect_new s s1 ino sv x idoff :
  sfs_inv s -> sfs_vnodes s !! ino = Some sv -> sfi_indirect (sv_i sv) = 0 -> took s s1 x -> 0 <= idoff < SFS_DBPERIDB ->
  exists s' r b, sfs_bmap_indirect (with_vnode s1 ino (set_indirect sv x)) x (repeat 0 128) idoff true = Ok (s', r, b) /\
    bmap_post s ino (SFS_NDIRECT + idoff) true s' r b.
Proof.
  intros HI Hv Hx HT Hid. destruct (new_indirect_ok s s1 ino sv x HI Hv Hx HT) as (HU & Hbl & Hw).
  set (s2 := with_vnode s1 ino (set_indirect sv x)) in *. pose proof HT as [Rb Fb Ub Mb Db [Nb Vb]].
  destruct (bmap_indirect_ok s2 ino (set_indirect sv x) x idoff true) as (s' & r & b & E & [P1 P2 P3 P4 P5 P6 P7]);
    [apply HU | cbn; apply lookup_insert_eq | done | lia | done |].
  rewrite Hw in E. exists s', r, b. split; [done |]. split; try done.
  - by eapply unchanged_trans.
  - intros p Hp. assert (block_at s2 p = block_at s p) as Hb2.
    { rewrite Hbl. case_decide as Ep; [ | done]. subst p. rewrite (block_at_Some _ _ _ _ Hv) in Hp. cbn in Hp. congruence. }
    rewrite P2 by congruence. done.
  - intros i f Hne. rewrite P3 by done. by rewrite Hbl, decide_False.
  - intros i. rewrite P4. cbn. rewrite lookup_insert_is_Some', Vb. split; [intros [<- | ?]; [by eexists | done] | by right].
  - rewrite Hbl, decide_False in P6 by done. exact P6.
  - intros Hio. apply P7. cbn. by rewrite (tk_io _ _ _ HT).
Qed.

(** Blocks a file cannot have. *)
Definition SFS_MAXBLOCKS := SFS_NDIRECT + SFS_NINDIRECT * SFS_DBPERIDB.

Lemma bmap_ok s ino sv fb doalloc :
  sfs_inv s -> sfs_vnodes s !! ino = Some sv -> 0 <= fb < SFS_MAXBLOCKS ->
  exists s' r b, sfs_bmap s ino fb doalloc = Ok (s', r, b) /\ bmap_post s ino fb doalloc s' r b.
Proof.
  intros HI Hv Hfb. unfold SFS_MAXBLOCKS, SFS_NINDIRECT, SFS_DBPERIDB in Hfb. unfold sfs_bmap.
  destruct (Z.ltb_spec fb SFS_NDIRECT) as [Hd | Hd]; [apply (bmap_direct_ok s ino sv); [done | done | lia] |].
  set (idoff := (fb - SFS_NDIRECT) mod SFS_DBPERIDB).
  assert (Hq : (fb - SFS_NDIRECT) / SFS_DBPERIDB = 0 /\ idoff = fb - SFS_NDIRECT).
  { unfold idoff, SFS_DBPERIDB. rewrite Z.div_small, Z.mod_small by lia. done. }
  destruct Hq as [-> Hoff]. unfold SFS_NINDIRECT at 1. cbn [Z.leb Z.compare].
  replace fb with (SFS_NDIRECT + idoff) by lia. assert (Hid : 0 <= idoff < SFS_DBPERIDB) by (unfold SFS_DBPERIDB; lia). clearbody idoff.
  unfold get_vnode. rewrite Hv. cbn [access rbind].
  destruct (Z.eqb_spec (sfi_indirect (sv_i sv)) 0) as [Hx | Hx]; cbn [andb].
  - assert (HP : block_at s (ino, SFile (SFS_NDIRECT + idoff)) = 0).
    { rewrite (block_at_indirect_slot s ino sv idoff Hv) by lia. unfold idwords. rewrite Hx. cbn [Z.eqb].
      destruct (zget (repeat 0 128) idoff) as [w | ] eqn:E; [ | done]. cbn. unfold zget in E. destruct (idoff <? 0); [done |].
      apply list_elem_of_lookup_2, list_elem_of_In, repeat_spec in E. done. }
    destruct doalloc; cbn [negb].
    + destruct (balloc_ok s (sv_vol _ HI)) as [(s1 & x & -> & HT) | (s1 & r & b & -> & Hr & Hio & HS & _)]; cbn [rbind].
      * cbn [negb Z.eqb]. by apply bmap_indirect_new.
      * assert (r <> 0) by by rewrite Hr. destruct (Z.eqb_spec r 0); [done |]. cbn [negb].
        eexists _, _, _. split; [done |]. apply bmap_post_error; [done | done | by left | by rewrite Hio, Hr].
    + eexists s, 0, 0. split; [done |]. rewrite <- HP at 2. apply bmap_post_found; [done | by apply same_refl | done | done].
  - assert (Hbx : block_at s (ino, SInd) = sfi_indirect (sv_i sv)) by by rewrite (block_at_Some _ _ _ _ Hv).
    destruct (read_block_at s (ino, SInd) HI) as (l & r & d & Er & Hr & Hio); [congruence |]. rewrite Hbx in Er, Hr. rewrite Er.
    destruct Hr as [[-> Hdk] | ->]; cbn [rbind].
    + cbn [negb Z.eqb]. assert (Hw : words_of d = idwords (disk (with_io s l)) sv).
      { unfold idwords. destruct (Z.eqb_spec (sfi_indirect (sv_i sv)) 0); [done |]. cbn. by rewrite Hdk. }
      rewrite Hw. pose proof (unchanged_io s l HI) as HU.
      destruct (bmap_indirect_ok (with_io s l) ino sv (sfi_indirect (sv_i sv)) idoff doalloc) as (s' & r & b & E & [P1 P2 P3 P4 P5 P6 P7]);
        [apply HU | done | done | done | done |].
      exists s', r, b. split; [done |]. split; try done.
      * by eapply unchanged_trans.
      * intros Ha. destruct (P5 Ha) as [Q1 Q2 Q3 Q4]. by split.
      * intros Hs. apply P7. by destruct (Hio Hs) as [_ ->].
    + change (negb (EIO =? 0)) with true. cbv iota. eexists _, _, _. split; [done |].
      apply bmap_post_error; [done | apply same_io, HI | by right | by intros [? _]%Hio].
Qed.

Lemma bmap_toobig s ino fb doalloc : SFS_MAXBLOCKS <= fb -> sfs_bmap s ino fb doalloc = Ok (s, EFBIG, 0).
Proof.
  intros Hge. unfold sfs_bmap. unfold SFS_MAXBLOCKS, SFS_NDIRECT, SFS_NINDIRECT, SFS_DBPERIDB in *.
  destruct (Z.ltb_spec fb 15); [lia |]. destruct (Z.leb_spec 1 ((fb - 15) / 128)) as [ | Hl]; [done | exfalso; div_lia].
Qed.
End Blocks.

(** C11: the block map of a file.  For a file in memory and any block number,
    sfs_bmap returns without a panic or a failed assertion: EFBIG for a block
    no file can have, ENOSPC if it was to allocate, EIO if a read fails, or the
    disk block, which exists whenever allocation was asked for.  Whatever happens, failing reads included (and
    while no write fails), no block ever belongs to two places, every block in use stays marked, no
    file reads differently than before (a block that was not there read as
    zeros, and so does the new one), and blocks that were there stay. *)
Theorem sfs_bmap_transparent {B} `{FreeMapLaws B} (s : sfs_fs B) ino sv fb doalloc :
  sfs_inv s -> sfs_vnodes s !! ino = Some sv -> 0 <= fb ->
  exists s' r b, sfs_bmap s ino fb doalloc = Ok (s', r, b) /\ sfs_inv s' /\
    (forall i f, content s' i f = content s i f) /\
    (forall p, block_at s p <> 0 -> block_at s' p = block_at s p) /\
    ((r = 0 /\ b = block_at s' (ino, SFile fb) /\ (doalloc = true -> b <> 0)) \/ (r = ENOSPC /\ doalloc = true /\ block_at s (ino, SFile fb) = 0) \/
     (r = EIO /\ rd_errors s <> []) \/ (r = EFBIG /\ SFS_MAXBLOCKS <= fb)).
Proof.
  intros HI Hv Hfb. destruct (Z_lt_ge_dec fb SFS_MAXBLOCKS) as [Hlt | Hge].
  - destruct (bmap_ok s ino sv fb doalloc HI Hv) as (s' & r & b & E & [P1 P2 P3 P4 P5 P6 P7]); [lia |].
    exists s', r, b. split; [done |]. split; [apply P1 |]. split; [apply P1 |]. split; [done |]. naive_solver.
  - exists s, EFBIG, 0. rewrite bmap_toobig by lia. split; [done |]. split; [done |]. split; [done |]. split; [done |].
    right. right. right. split; [done | lia].
Qed.

(** * Truncation *)

Lemma zget_zeros n i w : zget (repeat 0 n) i = Some w -> w = 0.
Proof. unfold zget. destruct (i <? 0); [done |]. intros E%list_elem_of_lookup_2%list_elem_of_In%repeat_spec. done. Qed.

Lemma zeros_entry n i : default 0 (zget (repeat 0 n) i) = 0.
Proof. destruct (zget (repeat 0 n) i) eqn:E; [by apply zget_zeros in E | done]. Qed.

Section Truncate.
Context {B : Type} `{FreeMapLaws B}.
Implicit Types s : sfs_fs B.

(** Exactly the blocks in [F] are given back. *)
Record freed s s' (F : Z -> Prop) : Prop := {
  fd_map : fm_wf (sfs_freemap s') /\ fm_size (sfs_freemap s') = fm_size (sfs_freemap s);
  fd_used : forall j, fm_used (sfs_freemap s') j = true <-> fm_used (sfs_freemap s) j = true /\ ~ F j;
  fd_nblocks : sb_nblocks s' = sb_nblocks s;
  fd_dev : d_blocks s' = d_blocks s /\ wr_errors s' = wr_errors s
}.

Lemma bfree_ok s b :
  vol_ok s -> 0 < b < sb_nblocks s -> fm_used (sfs_freemap s) b = true ->
  exists s', sfs_bfree s b = Ok s' /\ freed s s' (eq b) /\ sfs_vnodes s' = sfs_vnodes s /\ disk s' = disk s /\ rd_errors s' = rd_errors s.
Proof.
  intros Hv Hb Hu. unfold sfs_bfree.
  destruct (fm_unmark_ok (sfs_freemap s) b (vo_map _ Hv)) as (m & -> & Hwf & Hsz & Hus); [pose proof (vo_size _ Hv); lia | done |].
  cbn. eexists. split; [done |]. split; [ | done]. split; [done | | done | done]. intros j. cbn. rewrite Hus.
  destruct (Z.eqb_spec j b) as [-> | N]; [naive_solver | split; [intros ->; naive_solver | by intros [-> _]]].
Qed.

Lemma freed_trans s1 s2 s3 F G : freed s1 s2 F -> freed s2 s3 G -> freed s1 s3 (fun j => F j \/ G j).
Proof.
  intros [[M1 S1] U1 N1 [X1 Y1]] [[M2 S2] U2 N2 [X2 Y2]]. split; [split; [done | congruence] | | congruence | split; congruence].
  intros j. rewrite U2, U1. tauto.
Qed.

Lemma freed_ext s s' F G : freed s s' F -> (forall j, F j <-> G j) -> freed s s' G.
Proof. intros [M U R X] E. split; [done | | done | done]. intros j. by rewrite U, E. Qed.

Lemma freed_none s : vol_ok s -> freed s s (fun _ => False).
Proof. intros Hv. split; [by split; [apply Hv |] | | done | done]. intros j. tauto. Qed.

(** Blocks given back are none of those outside the files. *)
Lemma vol_freed s s' F :
  vol_ok s -> freed s s' F -> (forall j, F j -> 0 < j < sb_nblocks s) ->
  (forall b, 0 <= b < sb_nblocks s -> exists d, disk s' !! b = Some d /\ good_block d) ->
  (forall ino sv, sfs_vnodes s' !! ino = Some sv -> dinode_ok (sv_i sv)) -> vol_ok s'.
Proof.
  intros [M S U O Z D V X] [[Mw Ms] Us Rn [Xd Xw]] HF HD HV. split; rewrite ?Rn, ?Ms; try done.
  - intros i Hi. apply Us. split; [by apply O |]. intros Hf. apply HF in Hf. lia.
  - apply Us. split; [done |]. intros Hf. apply HF in Hf. lia.
  - unfold dev_ok in *. by rewrite Rn, Xd, Xw.
Qed.

(** Slots [E] are emptied, and their blocks given back; the other blocks of
    files are as they were, except for what the indirect blocks hold. *)
Definition blocks_in s (E : Z * slot -> bool) (j : Z) : Prop := exists p, E p = true /\ block_at s p = j /\ j <> 0.

Record cut s s' (E : Z * slot -> bool) : Prop := {
  ct_freed : freed s s' (blocks_in s E);
  ct_block : forall p, block_at s' p = if E p then 0 else block_at s p;
  ct_vol : vol_ok s';
  ct_attrs : forall i, attrs s' i = attrs s i;
  ct_loaded : forall i, is_Some (sfs_vnodes s' !! i) <-> is_Some (sfs_vnodes s !! i);
  ct_disk : forall p, block_at s p <> 0 -> p.2 <> SInd -> E p = false -> disk s' !! block_at s p = disk s !! block_at s p;
  ct_zero : disk s' !! 0 = disk s !! 0
}.

Lemma cut_inv s s' E : sfs_inv s -> cut s s' E -> sfs_inv s'.
Proof.
  intros HI [[_ Us Hn] Hb Hv _ _ _]. split; [done | |].
  - intros p. rewrite Hb, Hn. destruct (E p) eqn:Ep; [done |]. intros Hp.
    destruct (sv_used _ HI p Hp) as [Hr Hu]. split; [done |]. apply Us. split; [done |]. intros (q & Eq & Hq & _).
    assert (p = q) by (by apply (sv_inj _ HI)). congruence.
  - intros p q. rewrite !Hb. destruct (E p), (E q); try done. apply (sv_inj _ HI).
Qed.

Lemma cut_none s E : sfs_inv s -> (forall p, E p = true -> block_at s p = 0) -> cut s s E.
Proof.
  intros HI HE. split; try done.
  - eapply freed_ext; [apply freed_none, HI |]. intros j. split; [done |]. intros (p & Hp & Hj & Hn). apply Hn. rewrite <- Hj. by apply HE.
  - intros p. destruct (E p) eqn:Ep; [by apply HE | done].
  - apply HI.
Qed.

Lemma cut_ext s s' E G : cut s s' E -> (forall p, E p = G p) -> cut s s' G.
Proof.
  intros [[M U R] Hb Hv Ha Hl Hd] HE. split; try done.
  - split; [done | | done | done]. intros j. rewrite U. unfold blocks_in. by setoid_rewrite HE.
  - intros p. by rewrite <- HE.
  - intros p H1 H2 H3. apply Hd; [done | done | by rewrite HE].
Qed.

Lemma cut_trans s1 s2 s3 E G : cut s1 s2 E -> cut s2 s3 G -> cut s1 s3 (fun p => E p || G p).
Proof.
  intros [F1 B1 V1 A1 L1 D1 Z1] [F2 B2 V2 A2 L2 D2 Z2]. split; [ | | done | | | | congruence].
  - eapply freed_ext; [eapply freed_trans; [exact F1 | exact F2] |]. intros j. unfold blocks_in. split.
    + intros [(p & Hp & Hj & Hn) | (p & Hp & Hj & Hn)]; exists p; rewrite Hp, ?orb_true_r; [done |].
      rewrite B1 in Hj. destruct (E p); [congruence | done].
    + intros (p & Hp & Hj & Hn). destruct (E p) eqn:Ep; [left; by exists p |]. right. exists p. rewrite B1, Ep. done.
  - intros p. rewrite B2, B1. by destruct (E p), (G p).
  - intros i. by rewrite A2.
  - intros i. by rewrite L2.
  - intros p Hp Hs [He Hg]%orb_false_iff. rewrite <- (D1 p) by done. assert (Hb : block_at s2 p = block_at s1 p) by by rewrite B1, He.
    rewrite <- Hb. apply D2; [congruence | done | done].
Qed.

(** ** The direct blocks *)

Lemma cut_one_direct s s1 ino sv i b l :
  sfs_inv s -> sfs_vnodes s !! ino = Some sv -> 0 <= i < SFS_NDIRECT -> block_at s (ino, SFile i) = b -> b <> 0 ->
  freed s s1 (eq b) -> sfs_vnodes s1 = sfs_vnodes s -> disk s1 = disk s -> zput (sfi_direct (sv_i sv)) i 0 = Some l ->
  cut s (with_vnode s1 ino (set_direct sv l)) (fun p => bool_decide (p = (ino, SFile i))).
Proof.
  intros HI Hv Hi Hb Hn HF Hvs Hd Hl. pose proof (vo_direct _ (sv_vol _ HI) _ _ Hv) as Hlen.
  assert (HF2 : freed s (with_vnode s1 ino (set_direct sv l)) (blocks_in s (fun p => bool_decide (p = (ino, SFile i))))).
  { destruct HF as [M U R X]. split; [done | | done | done]. intros j. cbn. rewrite U. apply and_iff_compat_l, not_iff_compat. unfold blocks_in. split.
    - intros <-. exists (ino, SFile i). split; [by apply bool_decide_eq_true_2 | done].
    - intros (p & ->%bool_decide_eq_true & <- & _). done. }
  split; [done | | | | | | cbn; by rewrite Hd].
  - intros p. rewrite (block_at_direct s1 ino sv i 0 l) by (rewrite ?Hvs; done || lia).
    destruct (bool_decide_reflect (p = (ino, SFile i))); [by rewrite decide_True | rewrite decide_False by done].
    unfold block_at. by rewrite Hvs, Hd.
  - eapply vol_freed; [apply HI | exact HF2 | | |].
    + intros j (p & _ & <- & Hp). by apply (sv_used _ HI).
    + cbn. rewrite Hd. apply (sv_vol _ HI).
    + cbn. intros d sv' [[<- <-] | [_ Hd']]%lookup_insert_Some; [ | rewrite Hvs in Hd'; by eapply (vo_inode _ (sv_vol _ HI))].
      eapply dinode_set_direct; [by eapply vo_inode; [apply HI |] | done | exact Hl].
  - intros d. rewrite (attrs_vnode s1 ino sv) by (rewrite ?Hvs; done). unfold attrs. by rewrite Hvs.
  - intros d. cbn. rewrite lookup_insert_is_Some', Hvs. split; [intros [<- | ?]; [by eexists | done] | by right].
  - intros p _ _ _. cbn. by rewrite Hd.
Qed.

(** Which slots the loop over the direct blocks empties from [i] on. *)
Definition cut_direct (ino bl i : Z) (p : Z * slot) : bool :=
  match p with (d, SFile f) => (d =? ino) && (i <=? f) && (f <? SFS_NDIRECT) && (bl <=? f) | _ => false end.

Lemma cut_direct_step ino bl i p : i < SFS_NDIRECT ->
  cut_direct ino bl i p = (bool_decide (p = (ino, SFile i)) && (bl <=? i)) || cut_direct ino bl (i + 1) p.
Proof.
  intros Hi. destruct p as [d sl]. destruct (bool_decide_reflect ((d, sl) = (ino, SFile i))) as [E | N].
  - injection E as -> ->. cbn. rewrite Z.eqb_refl. destruct (Z.leb_spec i i), (Z.ltb_spec i SFS_NDIRECT), (Z.leb_spec (i + 1) i); lia.
  - cbn. destruct sl as [ | | f]; [done | done |]. destruct (Z.eqb_spec d ino) as [-> | ]; [ | done]. cbn.
    destruct (Z.leb_spec i f), (Z.leb_spec (i + 1) f); try done; try lia. assert (f = i) as -> by lia. done.
Qed.

Lemma itrunc_direct_ok k s ino sv bl i :
  sfs_inv s -> sfs_vnodes s !! ino = Some sv -> 0 <= i -> i + Z.of_nat k = SFS_NDIRECT ->
  exists s', itrunc_direct k s ino bl i = Ok s' /\ cut s s' (cut_direct ino bl i) /\ rd_errors s' = rd_errors s.
Proof.
  intros HI. revert s sv i HI. induction k as [ | k IH]; intros s sv i HI Hv Hi Hk.
  { exists s. split; [done |]. split; [ | done]. apply cut_none; [done |]. intros [d [ | | f]]; cbn; [done | done |].
    destruct (Z.leb_spec i f), (Z.ltb_spec f SFS_NDIRECT); rewrite ?andb_false_r; try done. lia. }
  pose proof (vo_direct _ (sv_vol _ HI) _ _ Hv) as Hlen. destruct (zget_lt (sfi_direct (sv_i sv)) i) as [b Hb]; [lia |].
  assert (HP : block_at s (ino, SFile i) = b).
  { rewrite (block_at_Some _ _ _ _ Hv). cbn. unfold file_block. destruct (Z.ltb_spec i SFS_NDIRECT); [by rewrite Hb | lia]. }
  cbn [itrunc_direct]. unfold get_vnode. rewrite Hv. cbn [access rbind]. rewrite Hb. cbn [access rbind].
  destruct ((bl <=? i) && negb (b =? 0)) eqn:Hgo.
  - apply andb_true_iff in Hgo as [Hbl Hb0%negb_true_iff%Z.eqb_neq].
    destruct (sv_used _ HI (ino, SFile i)) as [Hr Hu]; [congruence |]. rewrite HP in Hr, Hu.
    destruct (bfree_ok s b (sv_vol _ HI) Hr Hu) as (s1 & -> & HF & Hvs & Hd & Hi1). cbn [rbind].
    destruct (zput_lt (sfi_direct (sv_i sv)) i 0) as [l Hl]; [lia |]. rewrite Hl. cbn [access rbind].
    pose proof (cut_one_direct s s1 ino sv i b l HI Hv ltac:(lia) HP Hb0 HF Hvs Hd Hl) as HC.
    destruct (IH (with_vnode s1 ino (set_direct sv l)) (set_direct sv l) (i + 1)) as (s' & E & HC' & Hio);
      [by eapply cut_inv | cbn; apply lookup_insert_eq | lia | lia |].
    exists s'. split; [done |]. split.
    + eapply cut_ext; [eapply cut_trans; [exact HC | exact HC'] |]. intros p. rewrite (cut_direct_step ino bl i) by lia. by rewrite Hbl, andb_true_r.
    + by rewrite Hio.
  - cbn [rbind]. destruct (IH s sv (i + 1) HI Hv) as (s' & E & HC & Hio); [lia | lia |]. exists s'. split; [done |]. split; [ | done].
    eapply cut_ext; [eapply cut_trans; [apply (cut_none s (fun p => bool_decide (p = (ino, SFile i)) && (bl <=? i)) HI) | exact HC] |].
    + intros p [->%bool_decide_eq_true Hbl]%andb_true_iff. rewrite Hbl in Hgo. cbn in Hgo. apply negb_false_iff, Z.eqb_eq in Hgo. congruence.
    + intros p. symmetry. apply cut_direct_step. lia.
Qed.

(** ** The indirect block *)

(** The entries that are about to be given back are blocks in use, each
    entered once. *)
Record entries_ok s (idbuf : list Z) (j : Z) : Prop := {
  eo_len : zlen idbuf = SFS_DBPERIDB;
  eo_used : forall i w, j <= i -> zget idbuf i = Some w -> w <> 0 -> 0 < w < sb_nblocks s /\ fm_used (sfs_freemap s) w = true;
  eo_inj : forall i i' w, zget idbuf i = Some w -> zget idbuf i' = Some w -> w <> 0 -> i = i'
}.

(** What the loop over the entries does from [j] on. *)
Record cut_entries s s' (bl j : Z) (idbuf idbuf' : list Z) : Prop := {
  ce_freed : freed s s' (fun w => exists i, j <= i /\ bl < SFS_NDIRECT + i /\ zget idbuf i = Some w /\ w <> 0);
  ce_len : zlen idbuf' = SFS_DBPERIDB;
  ce_buf : forall i, 0 <= i < SFS_DBPERIDB -> zget idbuf' i = if (j <=? i) && (bl <? SFS_NDIRECT + i) then Some 0 else zget idbuf i;
  ce_rest : sfs_vnodes s' = sfs_vnodes s /\ disk s' = disk s /\ rd_errors s' = rd_errors s
}.

Definition nonzero_from (j : Z) (l : list Z) : Prop := exists i w, j <= i /\ zget l i = Some w /\ w <> 0.

Lemma cut_entries_skip s s' bl j idbuf idbuf' w :
  0 <= j -> zget idbuf j = Some w -> (SFS_NDIRECT + j <= bl \/ w = 0) ->
  cut_entries s s' bl (j + 1) idbuf idbuf' -> cut_entries s s' bl j idbuf idbuf'.
Proof.
  intros Hj Hw Hno [HF Hl Hb Hr]. split; [ | done | | done].
  - eapply freed_ext; [exact HF |]. intros v. split; intros (i & Hi & Hbl & Hv & Hn); exists i; [by split; [lia |] |].
    split; [ | done]. destruct (Z.eq_dec i j) as [-> | ]; [ | lia]. rewrite Hw in Hv. injection Hv as ->. lia.
  - intros i Hi. rewrite Hb by done. destruct (Z.eq_dec i j) as [-> | Hne].
    + destruct (Z.leb_spec (j + 1) j); [lia |]. destruct (Z.leb_spec j j); [ | lia]. cbn.
      destruct (Z.ltb_spec bl (SFS_NDIRECT + j)); [ | done]. rewrite Hw. destruct Hno as [ | ->]; [lia | done].
    + by destruct (Z.leb_spec (j + 1) i), (Z.leb_spec j i); try lia.
Qed.

Lemma cut_entries_free s s1 s' bl j idbuf buf1 idbuf' w :
  0 <= j -> bl < SFS_NDIRECT + j -> zget idbuf j = Some w -> w <> 0 -> zput idbuf j 0 = Some buf1 ->
  freed s s1 (eq w) -> sfs_vnodes s1 = sfs_vnodes s /\ disk s1 = disk s /\ rd_errors s1 = rd_errors s ->
  cut_entries s1 s' bl (j + 1) buf1 idbuf' -> cut_entries s s' bl j idbuf idbuf'.
Proof.
  intros Hj Hbl Hw Hn Hp HF1 (R1 & R2 & R3) [HF Hl Hb (R1' & R2' & R3')].
  assert (Hg : forall i, i <> j -> zget buf1 i = zget idbuf i) by (intros i Hne; by rewrite (zget_zput _ _ _ _ _ Hp), decide_False).
  split; [ | done | | by rewrite R1', R2', R3'].
  - eapply freed_ext; [eapply freed_trans; [exact HF1 | exact HF] |]. intros v. split.
    + intros [<- | (i & Hi & Hbi & Hv & Hvn)]; [exists j; split; [lia | done] |]. exists i. rewrite Hg in Hv by lia. split; [lia | done].
    + intros (i & Hi & Hbi & Hv & Hvn). destruct (Z.eq_dec i j) as [-> | ]; [left; congruence |]. right. exists i. rewrite Hg by done. split; [lia | done].
  - intros i Hi. rewrite Hb by done. destruct (Z.eq_dec i j) as [-> | Hne].
    + destruct (Z.leb_spec (j + 1) j); [lia |]. destruct (Z.leb_spec j j), (Z.ltb_spec bl (SFS_NDIRECT + j)); try lia. cbn.
      by rewrite (zget_zput _ _ _ _ _ Hp), decide_True.
    + rewrite Hg by done. by destruct (Z.leb_spec (j + 1) i), (Z.leb_spec j i); try lia.
Qed.

Lemma entries_ok_skip s idbuf j : entries_ok s idbuf j -> entries_ok s idbuf (j + 1).
Proof. intros [L U I]. split; [done | | done]. intros i w Hi. apply U. lia. Qed.

Lemma entries_ok_free s s1 idbuf j w buf1 :
  entries_ok s idbuf j -> zget idbuf j = Some w -> w <> 0 -> freed s s1 (eq w) -> zput idbuf j 0 = Some buf1 -> entries_ok s1 buf1 (j + 1).
Proof.
  intros [L U I] Hw Hn [_ Us Hnb] Hp. pose proof (fun i => zget_zput _ _ i _ _ Hp) as Hg. split.
  - by rewrite (zput_length _ _ _ _ Hp).
  - intros i v Hi. rewrite Hg, decide_False by lia. intros Hv Hv0. destruct (U i v ltac:(lia) Hv Hv0) as [Hr Hu]. rewrite Hnb. split; [done |].
    apply Us. split; [done |]. intros ->. assert (i = j) by by eapply I. lia.
  - intros i i' v. rewrite !Hg. repeat case_decide; naive_solver.
Qed.

Lemma vol_entries s s1 w : vol_ok s -> 0 < w < sb_nblocks s -> freed s s1 (eq w) -> sfs_vnodes s1 = sfs_vnodes s -> disk s1 = disk s -> vol_ok s1.
Proof.
  intros Hv Hw HF Hvs Hd. eapply vol_freed; [exact Hv | exact HF | by intros j <- | rewrite Hd; apply Hv | rewrite Hvs; apply Hv].
Qed.

Lemma itrunc_indirect_ok k s bl j idbuf hasnonzero iddirty :
  vol_ok s -> entries_ok s idbuf j -> 0 <= j -> j + Z.of_nat k = SFS_DBPERIDB ->
  exists s' idbuf' hn' id',
    itrunc_indirect k s bl SFS_NDIRECT j idbuf hasnonzero iddirty = Ok (s', idbuf', hn', id') /\ cut_entries s s' bl j idbuf idbuf' /\
    (hn' = true <-> hasnonzero = true \/ nonzero_from j idbuf') /\ (id' = false -> iddirty = false /\ idbuf' = idbuf).
Proof.
  revert s j idbuf hasnonzero iddirty. induction k as [ | k IH]; intros s j idbuf hn id Hv HE Hj Hk.
  { exists s, idbuf, hn, id. split; [done |]. split; [ | split; [ | done]].
    - split; [ | apply HE | | done].
      + eapply freed_ext; [by apply freed_none |]. intros w. split; [done |]. intros (i & Hi & _ & Hw & _). apply zget_Some in Hw. rewrite (eo_len _ _ _ HE) in Hw. lia.
      + intros i Hi. destruct (Z.leb_spec j i); [lia | done].
    - split; [by left |]. intros [ | (i & w & Hi & Hw & _)]; [done |]. apply zget_Some in Hw. rewrite (eo_len _ _ _ HE) in Hw. lia. }
  destruct (zget_lt idbuf j) as [w Hw]; [rewrite (eo_len _ _ _ HE); lia |].
  cbn [itrunc_indirect]. rewrite Hw. cbn [access rbind].
  destruct ((bl <? SFS_NDIRECT + j) && negb (w =? 0)) eqn:Hgo.
  - apply andb_true_iff in Hgo as [Hbl%Z.ltb_lt Hw0%negb_true_iff%Z.eqb_neq].
    destruct (eo_used _ _ _ HE j w ltac:(lia) Hw Hw0) as [Hr Hu].
    destruct (bfree_ok s w Hv Hr Hu) as (s1 & -> & HF & Hvs & Hd & Hio). cbn [rbind].
    destruct (zput_lt idbuf j 0) as [buf1 Hp]; [rewrite (eo_len _ _ _ HE); lia |]. rewrite Hp. cbn [access rbind].
    rewrite (zget_zput _ _ _ _ _ Hp), decide_True by done. cbn [access rbind]. cbn [Z.eqb negb]. rewrite orb_false_r.
    destruct (IH s1 (j + 1) buf1 hn true) as (s' & buf' & hn' & id' & E & HC & Hh & Hi'); [by eapply vol_entries | by eapply entries_ok_free | lia | lia |].
    exists s', buf', hn', id'. split; [done |].
    assert (HC0 : cut_entries s s' bl j idbuf buf') by by eapply cut_entries_free. split; [done |]. split; [ | naive_solver].
    rewrite Hh. apply or_iff_compat_l. split; intros (i & v & Hi & Hv' & Hn); exists i, v; [by split; [lia |] |]. split; [ | done].
    destruct (Z.eq_dec i j) as [-> | ]; [ | lia]. rewrite (ce_buf _ _ _ _ _ _ HC0) in Hv' by lia.
    destruct (Z.leb_spec j j), (Z.ltb_spec bl (SFS_NDIRECT + j)); try lia. cbn in Hv'. congruence.
  - cbn [rbind]. rewrite Hw. cbn [access rbind].
    destruct (IH s (j + 1) idbuf (hn || negb (w =? 0)) id) as (s' & buf' & hn' & id' & E & HC & Hh & Hi'); [done | by apply entries_ok_skip | lia | lia |].
    exists s', buf', hn', id'. split; [done |].
    assert (Hno : SFS_NDIRECT + j <= bl \/ w = 0).
    { apply andb_false_iff in Hgo as [Hg%Z.ltb_ge | Hg%negb_false_iff%Z.eqb_eq]; auto. }
    split; [by eapply cut_entries_skip |]. split; [ | done].
    assert (Hbj : zget buf' j = Some w).
    { rewrite (ce_buf _ _ _ _ _ _ HC) by lia. destruct (Z.leb_spec (j + 1) j); [lia | done]. }
    rewrite Hh, orb_true_iff, negb_true_iff, Z.eqb_neq. split.
    + intros [[ | Hn] | (i & v & Hi & Hv')]; [by left | right; exists j, w; split; [lia | done] | right; exists i, v; split; [lia | done]].
    + intros [ | (i & v & Hi & Hv' & Hn)]; [by left; left |]. destruct (Z.eq_dec i j) as [-> | ]; [left; right; congruence |].
      right. exists i, v. split; [lia | done].
Qed.

(** ** The indirect block, back on the disk *)

Lemma entries_inv s ino sv : sfs_inv s -> sfs_vnodes s !! ino = Some sv -> entries_ok s (idwords (disk s) sv) 0.
Proof.
  intros HI Hv. assert (Hs : forall i w, zget (idwords (disk s) sv) i = Some w -> block_at s (ino, SFile (SFS_NDIRECT + i)) = w).
  { intros i w Hw. pose proof (zget_Some _ _ _ Hw). rewrite (block_at_indirect_slot s ino sv i Hv) by lia. by rewrite Hw. }
  split; [by eapply idwords_ok | |].
  - intros i w _ Hw Hn. apply Hs in Hw. rewrite <- Hw. apply (sv_used _ HI). congruence.
  - intros i i' w Hw%Hs Hw'%Hs Hn. assert ((ino, SFile (SFS_NDIRECT + i)) = (ino, SFile (SFS_NDIRECT + i'))) as E by (apply (sv_inj _ HI); congruence).
    injection E. lia.
Qed.

Definition cut_indirect (ino bl : Z) (p : Z * slot) : bool :=
  match p with (d, SFile f) => (d =? ino) && (SFS_NDIRECT <=? f) && (bl <? f) | _ => false end.

Lemma cut_indirect_blocks s ino sv bl w :
  sfs_vnodes s !! ino = Some sv ->
  (exists i, 0 <= i /\ bl < SFS_NDIRECT + i /\ zget (idwords (disk s) sv) i = Some w /\ w <> 0) <-> blocks_in s (cut_indirect ino bl) w.
Proof.
  intros Hv. split.
  - intros (i & Hi & Hbl & Hw & Hn). exists (ino, SFile (SFS_NDIRECT + i)). rewrite (block_at_indirect_slot s ino sv i Hv) by lia.
    rewrite Hw. split; [ | done]. cbn. rewrite Z.eqb_refl. destruct (Z.leb_spec SFS_NDIRECT (SFS_NDIRECT + i)), (Z.ltb_spec bl (SFS_NDIRECT + i)); done || lia.
  - intros ([d [ | | f]] & HE & Hw & Hn); cbn in HE; try done.
    apply andb_true_iff in HE as [[->%Z.eqb_eq Hf%Z.leb_le]%andb_true_iff Hbl%Z.ltb_lt].
    exists (f - SFS_NDIRECT). replace f with (SFS_NDIRECT + (f - SFS_NDIRECT)) in Hw by lia.
    rewrite (block_at_indirect_slot s ino sv _ Hv) in Hw by lia. split; [lia |]. split; [lia |].
    destruct (zget (idwords (disk s) sv) (f - SFS_NDIRECT)) as [v | ]; cbn in Hw; [by subst v | congruence].
Qed.

(** Entries that are cut read as holes in the buffer, the others as before. *)
Lemma cut_entries_slot s s1 ino sv bl buf' f :
  sfs_vnodes s !! ino = Some sv -> zlen (idwords (disk s) sv) = SFS_DBPERIDB -> cut_entries s s1 bl 0 (idwords (disk s) sv) buf' -> SFS_NDIRECT <= f ->
  default 0 (zget buf' (f - SFS_NDIRECT)) = if cut_indirect ino bl (ino, SFile f) then 0 else block_at s (ino, SFile f).
Proof.
  intros Hv Hl HC Hf. replace f with (SFS_NDIRECT + (f - SFS_NDIRECT)) at 3 by lia. rewrite (block_at_indirect_slot s ino sv _ Hv) by lia.
  cbn. rewrite Z.eqb_refl. destruct (Z.leb_spec SFS_NDIRECT f); [ | lia]. cbn.
  destruct (Z_lt_ge_dec (f - SFS_NDIRECT) SFS_DBPERIDB) as [Hlt | Hge].
  - rewrite (ce_buf _ _ _ _ _ _ HC) by lia. destruct (Z.leb_spec 0 (f - SFS_NDIRECT)); [ | lia]. cbn.
    replace (SFS_NDIRECT + (f - SFS_NDIRECT)) with f by lia. by destruct (bl <? f).
  - assert (Hz : forall l : list Z, zlen l = SFS_DBPERIDB -> zget l (f - SFS_NDIRECT) = None).
    { intros l Hll. destruct (zget l (f - SFS_NDIRECT)) eqn:E; [ | done]. apply zget_Some in E. lia. }
    rewrite !Hz by (apply HC || done). by destruct (bl <? f).
Qed.

Lemma vol_cut_entries s s1 ino sv bl buf' :
  sfs_inv s -> sfs_vnodes s !! ino = Some sv -> cut_entries s s1 bl 0 (idwords (disk s) sv) buf' -> vol_ok s1.
Proof.
  intros HI Hv [HF _ _ (R1 & R2 & _)]. eapply vol_freed; [apply HI | exact HF | | rewrite R2; apply (sv_vol _ HI) | rewrite R1; apply (sv_vol _ HI)].
  intros j Hj. apply (cut_indirect_blocks s ino sv bl j Hv) in Hj as (p & _ & <- & Hp). by apply (sv_used _ HI).
Qed.

(** It is written back. *)
Lemma cut_written s s1 ino sv bl buf' l :
  sfs_inv s -> sfs_vnodes s !! ino = Some sv -> sfi_indirect (sv_i sv) <> 0 -> cut_entries s s1 bl 0 (idwords (disk s) sv) buf' ->
  cut s (with_block (with_io s1 l) (sfi_indirect (sv_i sv)) (bytes_of buf')) (cut_indirect ino bl).
Proof.
  intros HI Hv Hx HC. destruct (idwords_ok s ino sv HI Hv) as [Hlen Hu]. pose proof (vol_cut_entries s s1 ino sv bl buf' HI Hv HC) as Hvol.
  pose proof HC as [HF Hl Hb (R1 & R2 & R3)].
  assert (Hbx : block_at s (ino, SInd) = sfi_indirect (sv_i sv)) by by rewrite (block_at_Some _ _ _ _ Hv).
  assert (Hu' : Forall is_u32 buf').
  { apply Forall_forall. intros w Hw. apply list_elem_of_lookup_1 in Hw as [n Hn].
    assert (Hz : zget buf' (Z.of_nat n) = Some w) by (unfold zget; destruct (Z.ltb_spec (Z.of_nat n) 0); [lia | by rewrite Nat2Z.id]).
    pose proof (zget_Some _ _ _ Hz). rewrite Hb in Hz by lia. destruct (_ && _); [injection Hz as <-; split; lia |].
    unfold zget in Hz. destruct (_ <? 0); [done |]. by eapply Forall_lookup_1. }
  split.
  - split; [apply HF | | apply HF | apply HF]. intros j. cbn. rewrite (fd_used _ _ _ HF). by rewrite (cut_indirect_blocks s ino sv bl j Hv).
  - intros [d sl]. unfold block_at at 1. cbn [fst snd with_block with_io sfs_vnodes disk]. rewrite R1, R2.
    destruct (decide (d = ino)) as [-> | Hne].
    + rewrite Hv. destruct sl as [ | | f]; cbn [vnode_block]; [by rewrite (block_at_Some _ _ _ _ Hv) | done |].
      unfold file_block. destruct (Z.ltb_spec f SFS_NDIRECT) as [Hf | Hf].
      * assert (cut_indirect ino bl (ino, SFile f) = false) as ->; [cbn; by destruct (Z.leb_spec SFS_NDIRECT f); [lia | rewrite andb_false_r] |].
        rewrite (block_at_Some _ _ _ _ Hv). cbn. unfold file_block. by destruct (Z.ltb_spec f SFS_NDIRECT); [ | lia].
      * rewrite <- (cut_entries_slot s s1 ino sv bl buf' f) by done. do 2 f_equal. unfold idwords. destruct (Z.eqb_spec (sfi_indirect (sv_i sv)) 0); [done |].
        rewrite lookup_insert_eq. cbn. by apply words_of_bytes_of.
    + assert (cut_indirect ino bl (d, sl) = false) as -> by (destruct sl; cbn; [done | done |]; by destruct (Z.eqb_spec d ino)).
      unfold block_at. cbn [fst snd]. destruct (sfs_vnodes s !! d) as [svd | ] eqn:Hd; [ | done].
      destruct sl as [ | | f]; cbn; [done | done |]. unfold file_block, idwords. destruct (Z.eqb_spec (sfi_indirect (sv_i svd)) 0) as [ | Hnz]; [done |].
      rewrite lookup_insert_ne; [done |]. intros E. assert ((ino, SInd) = (d, SInd)); [ | congruence].
      apply (sv_inj _ HI); [congruence |]. rewrite Hbx, (block_at_Some _ _ _ _ Hd). done.
  - apply vol_block; [by apply vol_io |]. split; [ | apply bytes_of_bytes]. rewrite length_bytes_of, Hl. done.
  - intros i. unfold attrs. cbn. by rewrite R1.
  - intros i. cbn. by rewrite R1.
  - intros p Hp Hs _. cbn. rewrite R2, lookup_insert_ne; [done |]. intros E. assert ((ino, SInd) = p) as <-; [ | done].
    apply (sv_inj _ HI); [by rewrite Hbx | by rewrite Hbx].
  - cbn. by rewrite R2, lookup_insert_ne.
Qed.

(** It has nothing left, and is given back itself. *)
Definition cut_all_indirect (ino bl : Z) (p : Z * slot) : bool := cut_indirect ino bl p || bool_decide (p = (ino, SInd)).

Lemma cut_dropped s s1 s2 ino sv bl buf' :
  sfs_inv s -> sfs_vnodes s !! ino = Some sv -> sfi_indirect (sv_i sv) <> 0 -> cut_entries s s1 bl 0 (idwords (disk s) sv) buf' ->
  ~ nonzero_from 0 buf' -> freed s1 s2 (eq (sfi_indirect (sv_i sv))) -> sfs_vnodes s2 = sfs_vnodes s1 -> disk s2 = disk s1 ->
  cut s (with_vnode s2 ino (set_indirect sv 0)) (cut_all_indirect ino bl).
Proof.
  intros HI Hv Hx HC Hz HF2 Q1 Q2. destruct (idwords_ok s ino sv HI Hv) as [Hlen _].
  pose proof HC as [HF Hl Hb (R1 & R2 & R3)]. rewrite R1 in Q1. rewrite R2 in Q2.
  assert (Hbx : block_at s (ino, SInd) = sfi_indirect (sv_i sv)) by by rewrite (block_at_Some _ _ _ _ Hv).
  assert (HFF : freed s (with_vnode s2 ino (set_indirect sv 0)) (blocks_in s (cut_all_indirect ino bl))).
  { eapply freed_ext; [destruct (freed_trans _ _ _ _ _ HF HF2) as [X1 X2 X3 X4]; split; [exact X1 | exact X2 | exact X3 | exact X4] |].
    intros j. cbn. rewrite (cut_indirect_blocks s ino sv bl j Hv). unfold blocks_in, cut_all_indirect. split.
    - intros [(p & Hp & Hj) | <-]; [exists p; by rewrite Hp |]. exists (ino, SInd). rewrite bool_decide_eq_true_2, orb_true_r by done. by rewrite Hbx.
    - intros (p & [Hp | ->%bool_decide_eq_true]%orb_true_iff & Hj & Hn); [left; by exists p | right; congruence]. }
  split; [done | | | | | | cbn; by rewrite Q2].
  - intros [d sl]. unfold block_at at 1. cbn [fst snd with_vnode sfs_vnodes disk]. rewrite Q1, Q2.
    destruct (decide (d = ino)) as [-> | Hne].
    + rewrite lookup_insert_eq. unfold cut_all_indirect. destruct sl as [ | | f]; cbn [vnode_block].
      * rewrite bool_decide_eq_false_2 by done. cbn. by rewrite (block_at_Some _ _ _ _ Hv).
      * rewrite bool_decide_eq_true_2, orb_true_r by done. done.
      * rewrite bool_decide_eq_false_2, orb_false_r by done. unfold file_block. destruct (Z.ltb_spec f SFS_NDIRECT) as [Hf | Hf].
        -- assert (cut_indirect ino bl (ino, SFile f) = false) as ->; [cbn; by destruct (Z.leb_spec SFS_NDIRECT f); [lia | rewrite andb_false_r] |].
           rewrite (block_at_Some _ _ _ _ Hv). cbn. unfold file_block. by destruct (Z.ltb_spec f SFS_NDIRECT); [ | lia].
        -- rewrite <- (cut_entries_slot s s1 ino sv bl buf' f) by done. transitivity 0.
           ++ unfold idwords. cbn [set_indirect sv_i sfi_indirect Z.eqb]. destruct (zget _ _) as [w | ] eqn:E; [ | done].
              by apply zget_zeros in E.
           ++ destruct (zget buf' (f - SFS_NDIRECT)) as [w | ] eqn:E; [ | done]. cbn. destruct (Z.eq_dec w 0); [done |].
              exfalso. apply Hz. exists (f - SFS_NDIRECT), w. split; [lia | done].
    + rewrite lookup_insert_ne by done. unfold cut_all_indirect. rewrite bool_decide_eq_false_2, orb_false_r by congruence.
      by assert (cut_indirect ino bl (d, sl) = false) as -> by (destruct sl; cbn; [done | done |]; by destruct (Z.eqb_spec d ino)).
  - eapply vol_freed; [apply HI | exact HFF | | cbn; rewrite Q2; apply (sv_vol _ HI) |].
    + intros j (p & _ & <- & Hp). by apply (sv_used _ HI).
    + cbn. rewrite Q1. intros d sv' [[<- <-] | [_ Hd']]%lookup_insert_Some; [ | by eapply (vo_inode _ (sv_vol _ HI))].
      apply dinode_set_indirect; [exact (vo_inode _ (sv_vol _ HI) _ _ Hv) | unfold is_u32; lia].
  - intros d. rewrite (attrs_vnode s2 ino sv) by (rewrite ?Q1; done). unfold attrs. by rewrite Q1.
  - intros d. cbn. rewrite lookup_insert_is_Some', Q1. split; [intros [<- | ?]; [by eexists | done] | by right].
  - intros p _ _ _. cbn. by rewrite Q2.
Qed.

(** Nothing was past the end. *)
Lemma cut_kept s s1 ino sv bl :
  sfs_inv s -> sfs_vnodes s !! ino = Some sv -> cut_entries s s1 bl 0 (idwords (disk s) sv) (idwords (disk s) sv) ->
  cut s s1 (cut_indirect ino bl).
Proof.
  intros HI Hv HC. pose proof (vol_cut_entries s s1 ino sv bl _ HI Hv HC) as Hvol. destruct HC as [HF Hl Hb (R1 & R2 & R3)].
  assert (Hno : forall p, cut_indirect ino bl p = true -> block_at s p = 0).
  { intros p Hp. destruct (Z.eq_dec (block_at s p) 0) as [ | Hn]; [done |].
    assert (blocks_in s (cut_indirect ino bl) (block_at s p)) as HB by by exists p.
    apply (cut_indirect_blocks s ino sv bl _ Hv) in HB as (i & Hi & Hbl & Hw & _). pose proof (zget_Some _ _ _ Hw).
    rewrite Hb in Hw by lia. destruct (Z.leb_spec 0 i), (Z.ltb_spec bl (SFS_NDIRECT + i)); try lia. cbn in Hw. congruence. }
  assert (Hbl : forall p, block_at s1 p = block_at s p) by (intros p; unfold block_at; by rewrite R1, R2).
  split; [ | | done | | | | by rewrite R2].
  - eapply freed_ext; [exact HF |]. intros j. by apply cut_indirect_blocks.
  - intros p. rewrite Hbl. destruct (cut_indirect ino bl p) eqn:E; [by apply Hno | done].
  - intros i. unfold attrs. by rewrite R1.
  - intros i. by rewrite R1.
  - intros p _ _ _. by rewrite R2.
Qed.

Lemma cut_io s s' E l : cut s s' E -> cut s (with_io s' l) E.
Proof. intros [[X1 X2 X3 X4] Hb Hv Ha Hl Hd]. split; try done. by apply vol_io. Qed.

Lemma cut_io_from s s' E l : cut (with_io s l) s' E -> cut s s' E.
Proof. intros [[X1 X2 X3 X4] Hb Hv Ha Hl Hd]. by split. Qed.

(** ** The whole truncation *)

(** What the part about the indirect block does: of blocks 15 and above, those
    up to number [bl] stay, and all of them if [bl] is 142 or more. *)
Record ind_post s s1 (ino bl : Z) : Prop := {
  ip_cut : exists E, cut s s1 E /\ forall p, E p = true -> p.1 = ino;
  ip_block : forall f, block_at s1 (ino, SFile f) = if (f <? SFS_NDIRECT) || (f <=? bl) || (142 <=? bl) then block_at s (ino, SFile f) else 0;
  ip_ind : block_at s1 (ino, SInd) <> 0 -> bl < 142 -> exists f, SFS_NDIRECT <= f /\ block_at s1 (ino, SFile f) <> 0
}.

Lemma ind_post_skip s ino sv bl :
  sfs_inv s -> sfs_vnodes s !! ino = Some sv -> 142 <= bl \/ sfi_indirect (sv_i sv) = 0 -> ind_post s s ino bl.
Proof.
  intros HI Hv Hor. split.
  - exists (fun _ => false). split; [by apply cut_none | done].
  - intros f. destruct Hor as [Hbl | Hx]; [destruct (Z.leb_spec 142 bl); [by rewrite orb_true_r | lia] |].
    destruct (Z.ltb_spec f SFS_NDIRECT); [done |]. cbn [orb]. destruct (_ || _); [done |].
    rewrite (block_at_Some _ _ _ _ Hv). cbn. unfold file_block. destruct (Z.ltb_spec f SFS_NDIRECT); [lia |].
    unfold idwords. rewrite Hx. cbn [Z.eqb]. destruct (zget _ _) eqn:E; [by apply zget_zeros in E | done].
  - rewrite (block_at_Some _ _ _ _ Hv). cbn. intros Hn Hbl. lia.
Qed.

Lemma ind_post_cut s s1 ino bl E :
  cut s s1 E -> bl < 142 -> (forall p, E p = cut_indirect ino bl p || (E p && bool_decide (p = (ino, SInd)))) ->
  (block_at s1 (ino, SInd) <> 0 -> exists f, SFS_NDIRECT <= f /\ block_at s1 (ino, SFile f) <> 0) -> ind_post s s1 ino bl.
Proof.
  intros HC Hbl HE Hi. split; [ | | by intros ? _; apply Hi].
  - exists E. split; [done |]. intros [d sl] Hp. rewrite HE in Hp. apply orb_true_iff in Hp as [Hp | Hp].
    + destruct sl as [ | | f]; cbn in Hp; [done | done |]. cbn. apply andb_true_iff in Hp as [[Hp _]%andb_true_iff _]. by apply Z.eqb_eq in Hp.
    + apply andb_true_iff in Hp as [_ Hp%bool_decide_eq_true]. by injection Hp.
  - intros f. rewrite (ct_block _ _ _ HC), HE, bool_decide_eq_false_2, andb_false_r, orb_false_r by done. cbn. rewrite Z.eqb_refl. cbn.
    by destruct (Z.leb_spec SFS_NDIRECT f), (Z.ltb_spec bl f), (Z.ltb_spec f SFS_NDIRECT), (Z.leb_spec f bl), (Z.leb_spec 142 bl); try lia.
Qed.

(** A buffer with something left in it is a file with a block left. *)
Lemma nonzero_slot s s1 s2 ino sv bl buf' :
  sfs_inv s -> sfs_vnodes s !! ino = Some sv -> cut_entries s s1 bl 0 (idwords (disk s) sv) buf' -> cut s s2 (cut_indirect ino bl) ->
  nonzero_from 0 buf' -> exists f, SFS_NDIRECT <= f /\ block_at s2 (ino, SFile f) <> 0.
Proof.
  intros HI Hv HC HK (i & w & Hi & Hw & Hn). exists (SFS_NDIRECT + i). split; [lia |].
  rewrite (ct_block _ _ _ HK), <- (cut_entries_slot s s1 ino sv bl buf') by (done || lia || by eapply idwords_ok).
  replace (SFS_NDIRECT + i - SFS_NDIRECT) with i by lia. by rewrite Hw.
Qed.

Lemma itrunc_idblock_ok s ino sv bl :
  sfs_inv s -> sfs_vnodes s !! ino = Some sv ->
  exists s' r, itrunc_idblock s ino bl = Ok (s', r) /\ (rd_errors s = [] -> r = 0) /\ ((r = 0 /\ ind_post s s' ino bl) \/ r = EIO).
Proof.
  intros HI Hv. unfold itrunc_idblock, get_vnode. rewrite Hv. cbn [access rbind].
  change (SFS_NDIRECT + SFS_DBPERIDB - 1) with 142. set (x := sfi_indirect (sv_i sv)).
  destruct ((bl <? 142) && negb (x =? 0)) eqn:Hgo.
  2: { eexists s, 0. split; [done |]. split; [done |]. left. split; [done |]. apply (ind_post_skip s ino sv bl HI Hv).
       apply andb_false_iff in Hgo as [Hg%Z.ltb_ge | Hg%negb_false_iff%Z.eqb_eq]; auto. }
  apply andb_true_iff in Hgo as [Hbl%Z.ltb_lt Hx%negb_true_iff%Z.eqb_neq].
  assert (Hbx : block_at s (ino, SInd) = x) by by rewrite (block_at_Some _ _ _ _ Hv).
  destruct (read_block_at s (ino, SInd) HI) as (l & r & d & Er & Hr & Hio); [congruence |]. rewrite Hbx in Er, Hr. rewrite Er. cbn [rbind].
  destruct Hr as [[-> Hd] | ->]; [ | by exists (with_io s l), EIO; split; [done |]; split; [apply Hio | right]].
  change (negb (0 =? 0)) with false. cbv iota.
  assert (Hw : words_of d = idwords (disk s) sv) by (unfold idwords; fold x; rewrite Hd; by destruct (Z.eqb_spec x 0)).
  pose proof (un_inv _ _ (unchanged_io s l HI)) as HIl. set (s0 := with_io s l) in *.
  change (idwords (disk s) sv) with (idwords (disk s0) sv) in Hw. rewrite Hw.
  destruct (itrunc_indirect_ok (Z.to_nat SFS_DBPERIDB) s0 bl 0 (idwords (disk s0) sv) false false) as (s1 & buf' & hn & id & -> & HC & Hh & Hid);
    [apply HIl | by apply (entries_inv s0 ino) | lia | done |].
  cbn [rbind]. destruct hn; cbn [negb].
  - assert (Hnz : nonzero_from 0 buf') by naive_solver. destruct id.
    + destruct (sv_used _ HI (ino, SInd)) as [Hr _]; [congruence |]. rewrite Hbx in Hr.
      rewrite writeblock_ok;
        [ | by eapply (vol_cut_entries s0) | rewrite (fd_nblocks _ _ _ (ce_freed _ _ _ _ _ _ HC)); cbn; lia | rewrite length_bytes_of; by destruct HC as [_ -> _ _]].
      * eexists _, 0. split; [done |]. split; [done |]. left. split; [done |].
        pose proof (cut_written s0 s1 ino sv bl buf' (rd_errors s1) HIl Hv Hx HC) as HK. fold x in HK.
        eapply ind_post_cut; [apply cut_io_from with (l := l); exact HK | done | intros p; by destruct (cut_indirect ino bl p) |].
        intros _. by eapply (nonzero_slot s0 s1).
    + destruct (Hid eq_refl) as [_ ->]. eexists _, 0. split; [done |]. split; [done |]. left. split; [done |].
      pose proof (cut_kept s0 s1 ino sv bl HIl Hv HC) as HK.
      eapply ind_post_cut; [apply cut_io_from with (l := l); exact HK | done | intros p; by destruct (cut_indirect ino bl p) |].
      intros _. by eapply (nonzero_slot s0 s1).
  - assert (Hnz : ~ nonzero_from 0 buf') by naive_solver.
    pose proof (vol_cut_entries s0 s1 ino sv bl buf' HIl Hv HC) as Hvol.
    destruct (sv_used _ HI (ino, SInd)) as [Hr Hu]; [congruence |]. rewrite Hbx in Hr, Hu.
    destruct (bfree_ok s1 x Hvol) as (s2 & -> & HF & Q1 & Q2 & Q3).
    { destruct HC as [HF _ _ _]. by rewrite (fd_nblocks _ _ _ HF). }
    { destruct HC as [HF _ _ _]. apply (fd_used _ _ _ HF). split; [done |]. intros Hin.
      apply (cut_indirect_blocks s0 ino sv bl x Hv) in Hin as (p & Hp & Hpx & _). assert ((ino, SInd) = p) as <-; [ | done].
      apply (sv_inj _ HI); [congruence | rewrite Hbx; by symmetry]. }
    cbn [rbind]. eexists _, 0. split; [done |]. split; [done |]. left. split; [done |].
    pose proof (cut_dropped s0 s1 s2 ino sv bl buf' HIl Hv Hx HC Hnz HF Q1 Q2) as HK.
    eapply ind_post_cut; [apply cut_io_from with (l := l); exact HK | done | |].
    + intros p. unfold cut_all_indirect. by destruct (cut_indirect ino bl p), (bool_decide _).
    + intros Hn. exfalso. apply Hn. rewrite (ct_block _ _ _ HK). unfold cut_all_indirect. by rewrite bool_decide_eq_true_2, orb_true_r.
Qed.

(** Which blocks of a file are still there after sfs_itrunc to [bl] blocks, as
    the code has it: those below [bl], and of those behind the indirect block
    also number [bl], because of a < that should be <=, and all when [bl] is the
    last of them or more. *)
Definition kept (bl f : Z) : bool := if f <? SFS_NDIRECT then f <? bl else (f <=? bl) || (142 <=? bl).

Lemma set_size_blocks s ino sv n p : sfs_vnodes s !! ino = Some sv -> block_at (with_vnode s ino (set_size sv n)) p = block_at s p.
Proof.
  intros Hv. unfold block_at. cbn. destruct (decide (p.1 = ino)) as [E | N]; [ | by rewrite lookup_insert_ne].
  rewrite E, lookup_insert_eq, Hv. done.
Qed.

(** What a truncation that succeeds leaves. *)
Record itrunc_post s (ino len bl : Z) s' : Prop := {
  it_inv : sfs_inv s';
  it_size : forall i, attrs s' i = if i =? ino then (fun a => (u32 len, a.1.2, a.2)) <$> attrs s i else attrs s i;
  it_block : forall i f, block_at s' (i, SFile f) = if (i =? ino) && negb (kept bl f) then 0 else block_at s (i, SFile f);
  it_content : forall i f, content s' i f = if (i =? ino) && negb (kept bl f) then zeros else content s i f;
  it_used : forall b, fm_used (sfs_freemap s') b = true <->
    fm_used (sfs_freemap s) b = true /\ ~ exists sl, block_at s (ino, sl) = b /\ b <> 0 /\ block_at s' (ino, sl) = 0;
  it_ind : block_at s' (ino, SInd) <> 0 -> bl < 142 -> exists f, SFS_NDIRECT <= f /\ block_at s' (ino, SFile f) <> 0;
  it_inodes : inodes_kept s s'
}.

(** The two cuts together, and the new size. *)
Lemma itrunc_compose s s0 s1 ino sv1 len bl :
  sfs_inv s -> 0 <= bl -> cut s s0 (cut_direct ino bl 0) -> ind_post s0 s1 ino bl -> sfs_vnodes s1 !! ino = Some sv1 ->
  itrunc_post s ino len bl (with_vnode s1 ino (set_size sv1 (u32 len))).
Proof.
  intros HI Hbl HC0 [(E1 & HC1 & HE1) Hb1 Hi1] Hv1.
  pose proof (cut_trans _ _ _ _ _ HC0 HC1) as HC. set (E := fun p => cut_direct ino bl 0 p || E1 p) in *.
  assert (HE : forall p, E p = true -> p.1 = ino).
  { intros [d sl] [Hp | Hp]%orb_true_iff; [ | by apply HE1]. destruct sl; cbn in Hp; [done | done |].
    cbn. do 3 apply andb_true_iff in Hp as [Hp _]. by apply Z.eqb_eq in Hp. }
  assert (Hsame : forall p, block_at (with_vnode s1 ino (set_size sv1 (u32 len))) p = block_at s1 p) by (intros p; by apply set_size_blocks).
  assert (Hfile : forall f, block_at s1 (ino, SFile f) = if negb (kept bl f) then 0 else block_at s (ino, SFile f)).
  { intros f. rewrite Hb1, (ct_block _ _ _ HC0). cbn. rewrite Z.eqb_refl. unfold kept. cbn.
    destruct (Z.ltb_spec f SFS_NDIRECT); cbn [orb andb]; [ | rewrite andb_false_r; cbn; by destruct (_ || _)].
    destruct (Z.leb_spec 0 f), (Z.leb_spec bl f), (Z.ltb_spec f bl); try done; lia. }
  assert (HI1 : sfs_inv s1) by by eapply cut_inv.
  assert (Hblk : forall i f, block_at s1 (i, SFile f) = if (i =? ino) && negb (kept bl f) then 0 else block_at s (i, SFile f)).
  { intros i f. destruct (Z.eqb_spec i ino) as [-> | Hne]; [apply Hfile |]. rewrite (ct_block _ _ _ HC). destruct (E (i, SFile f)) eqn:Ep; [ | done].
    apply HE in Ep. done. }
  split.
  - apply (inv_keep s1); try done. apply vol_vnode; [apply HI1 |]. apply dinode_set_size. exact (vo_inode _ (sv_vol _ HI1) _ _ Hv1).
  - intros i. pose proof (ct_attrs _ _ _ HC i) as Ha. rewrite <- Ha. unfold attrs. cbn. destruct (Z.eqb_spec i ino) as [-> | Hne].
    + by rewrite lookup_insert_eq, Hv1.
    + by rewrite lookup_insert_ne.
  - intros i f. rewrite Hsame. apply Hblk.
  - intros i f. transitivity (content s1 i f); [unfold content; by rewrite Hsame |]. unfold content at 1. rewrite Hblk.
    destruct ((i =? ino) && negb (kept bl f)) eqn:Ek; [done |]. unfold content. destruct (Z.eqb_spec (block_at s (i, SFile f)) 0) as [ | Hn]; [done |].
    rewrite (ct_disk _ _ _ HC); [done | done | done |]. destruct (E (i, SFile f)) eqn:Ep; [ | done].
    pose proof (Hblk i f) as Hx. rewrite Ek, (ct_block _ _ _ HC), Ep in Hx. by symmetry in Hx.
  - intros b. cbn [with_vnode sfs_freemap]. rewrite (fd_used _ _ _ (ct_freed _ _ _ HC)). apply and_iff_compat_l, not_iff_compat. split.
    + intros ([d sl] & Hp & Hb & Hn). pose proof (HE _ Hp) as Hd. cbn in Hd. subst d. exists sl. rewrite Hsame, (ct_block _ _ _ HC), Hp. done.
    + intros (sl & Hb & Hn & Hz). exists (ino, sl). rewrite Hsame, (ct_block _ _ _ HC) in Hz. destruct (E (ino, sl)); [done | congruence].
  - rewrite Hsame. setoid_rewrite Hsame. apply Hi1.
  - intros i Hi. cbn [with_vnode disk]. destruct (decide (i = 0)) as [-> | Hn]; [apply HC |]. destruct Hi as [ | Hi]; [done |].
    destruct (proj2 (ct_loaded _ _ _ HC i) Hi) as [svi Hvi]. destruct Hi as [sv Hv].
    pose proof (ct_disk _ _ _ HC (i, SIno)) as Hd. rewrite (block_at_Some _ _ _ _ Hv) in Hd. apply Hd; [done | done |].
    destruct (E (i, SIno)) eqn:Ei; [ | done]. pose proof (ct_block _ _ _ HC (i, SIno)) as Hb. rewrite Ei, (block_at_Some _ _ _ _ Hvi) in Hb. done.
Qed.

Definition file_blocks (len : Z) : Z := u32 (Z.quot (len + SFS_BLOCKSIZE - 1) SFS_BLOCKSIZE).

Lemma itrunc_ok s ino sv len :
  sfs_inv s -> sfs_vnodes s !! ino = Some sv ->
  exists s' r, sfs_itrunc s ino len = Ok (s', r) /\ (rd_errors s = [] -> r = 0) /\ ((r = 0 /\ itrunc_post s ino len (file_blocks len) s') \/ r = EIO).
Proof.
  intros HI Hv. unfold sfs_itrunc. fold (file_blocks len). set (bl := file_blocks len). assert (Hbl : 0 <= bl) by apply u32_range.
  destruct (itrunc_direct_ok (Z.to_nat SFS_NDIRECT) s ino sv bl 0 HI Hv) as (s0 & -> & HC0 & Hio); [lia | done |]. cbn [rbind].
  assert (HI0 : sfs_inv s0) by by eapply cut_inv. destruct (proj2 (ct_loaded _ _ _ HC0 ino)) as [sv0 Hv0]; [by eexists |].
  destruct (itrunc_idblock_ok s0 ino sv0 bl HI0 Hv0) as (s1 & r & -> & Hr & [[-> HP] | ->]); cbn [rbind].
  - cbn [negb Z.eqb]. destruct (ip_cut _ _ _ _ HP) as (E & HC & _). destruct (proj2 (ct_loaded _ _ _ HC ino)) as [sv1 Hv1]; [by eexists |].
    unfold get_vnode. rewrite Hv1. cbn [access rbind]. eexists _, 0. split; [done |]. split; [done |]. left. split; [done |].
    by eapply itrunc_compose.
  - exists s1, EIO. split; [done |]. split; [ | by right]. intros H1. apply Hr. congruence.
Qed.

(** Nothing is left of a file truncated to nothing. *)
Lemma itrunc_nothing s ino s' sl : itrunc_post s ino 0 0 s' -> sl <> SIno -> block_at s' (ino, sl) = 0.
Proof.
  intros HP. revert sl.
  assert (Hf : forall f, 0 <= f -> block_at s' (ino, SFile f) = 0).
  { intros f Hf. rewrite (it_block _ _ _ _ _ HP), Z.eqb_refl. unfold kept. unfold SFS_NDIRECT. cbn [andb].
    destruct (Z.ltb_spec f 15), (Z.ltb_spec f 0), (Z.leb_spec f 0), (Z.leb_spec 142 0); try done; lia. }
  intros sl Hne. destruct (Z.eq_dec (block_at s' (ino, sl)) 0) as [ | Hn]; [done |]. exfalso. destruct sl as [ | | f]; [done | |].
  - destruct (it_ind _ _ _ _ _ HP Hn ltac:(lia)) as (f & H15 & Hnf). apply Hnf, Hf. unfold SFS_NDIRECT in H15. lia.
  - destruct (Z_lt_ge_dec f 0) as [Hf0 | Hf0]; [ | apply Hn, Hf; lia]. apply Hn.
    unfold block_at. cbn. destruct (sfs_vnodes s' !! ino); [ | done]. unfold file_block, SFS_NDIRECT. destruct (Z.ltb_spec f 15); [ | lia].
    unfold zget. by destruct (Z.ltb_spec f 0); [ | lia].
Qed.
End Truncate.

(** C12: truncation, on a disk on which no write fails ([sfs_inv]; with a write
    that fails see [itrunc_lost_write]).  Sfs_itrunc never panics.  When it
    succeeds, as it does when no read fails either, the size is set, no block
    belongs to two places, and the blocks that stay are those before the end of
    the file and, against the comment that blocks past the new EOF are
    discarded, two kinds of others ([kept]): block number [file_blocks len], the
    first past the end, if it is reached through the indirect block, and all
    that the indirect block reaches if that number is 142 or more.  What stays
    and all blocks of other files read as before, and exactly the blocks that
    no longer belong to the file are free.  Truncation to nothing leaves the
    inode alone. *)
Theorem sfs_itrunc_exact {B} `{FreeMapLaws B} (s : sfs_fs B) ino sv len :
  sfs_inv s -> sfs_vnodes s !! ino = Some sv -> 0 <= len ->
  exists s' r, sfs_itrunc s ino len = Ok (s', r) /\ (rd_errors s = [] -> r = 0) /\ (r = 0 \/ r = EIO) /\
    (r = 0 -> itrunc_post s ino len (file_blocks len) s' /\ (len = 0 -> forall sl, sl <> SIno -> block_at s' (ino, sl) = 0)).
Proof.
  intros HI Hv Hlen. destruct (itrunc_ok s ino sv len HI Hv) as (s' & r & E & Hio & Hr). exists s', r. split; [done |]. split; [done |].
  split; [tauto |]. intros ->. destruct Hr as [[_ HP] | ]; [ | done]. split; [done |]. intros ->. change (file_blocks 0) with 0 in HP. intros sl.
  by apply itrunc_nothing with s.
Qed.

(** * Inodes on the disk *)

Lemma dinode_block_length i : dinode_ok i -> zlen (dinode_block i) = SFS_BLOCKSIZE.
Proof.
  intros [_ _ _ [Hd _] _ [Hw _]]. unfold dinode_block. rewrite length_bytes_of. unfold zlen in *. cbn [length].
  rewrite length_app. cbn [length]. unfold SFS_NDIRECT, SFS_BLOCKSIZE in *. lia.
Qed.

Lemma dinode_roundtrip i : dinode_ok i -> block_dinode (dinode_block i) = Ok i.
Proof.
  intros [Hs Ht Hl [Hd Hdu] Hi [Hw Hwu]]. unfold block_dinode, dinode_block. change (2 ^ 16) with 65536 in *.
  rewrite words_of_bytes_of.
  2: { constructor; [done |]. constructor; [unfold is_u32; lia |]. apply Forall_app. split; [done |]. by constructor. }
  assert (Hn : length (sfi_direct i) = 15%nat) by (unfold zlen, SFS_NDIRECT in Hd; lia).
  rewrite <- Hn, drop_app_length, take_app_length. rewrite Z.div_add_l, Z.div_small, Z.add_0_r by lia.
  rewrite Z.add_comm, Z.mod_add, Z.mod_small by lia. by destruct i.
Qed.

(** Writing the block of an inode, and no change to a file in memory but the
    dirty flag: the files are as before. *)
Lemma inode_written {B} `{FreeMapLaws B} (s : sfs_fs B) ino sv d l :
  sfs_inv s -> sfs_vnodes s !! ino = Some sv -> ino <> 0 -> good_block d ->
  reads_same s (with_vnode (with_block (with_io s l) ino d) ino (mkSv (sv_i sv) false)).
Proof.
  intros HI Hv Hn Hd. assert (Hino : block_at s (ino, SIno) = ino) by by rewrite (block_at_Some _ _ _ _ Hv).
  assert (Hoth : forall p, p <> (ino, SIno) -> ino <> block_at s p).
  { intros p Hp E. apply Hp. symmetry. apply (sv_inj _ HI); congruence. }
  set (s' := with_vnode _ _ _). assert (Hb : forall p, block_at s' p = block_at s p).
  { intros [i sl]. unfold block_at. cbn [fst snd s' with_vnode with_block with_io sfs_vnodes disk].
    assert (Hw : forall svi, sfs_vnodes s !! i = Some svi -> vnode_block (<[ino:=d]> (disk s)) i svi sl = vnode_block (disk s) i svi sl).
    { intros svi Hsv. destruct sl as [ | | f]; cbn; [done | done |]. unfold file_block, idwords.
      destruct (Z.eqb_spec (sfi_indirect (sv_i svi)) 0); [done |]. rewrite lookup_insert_ne; [done |].
      specialize (Hoth (i, SInd)). rewrite (block_at_Some _ _ _ _ Hsv) in Hoth. apply Hoth. done. }
    destruct (decide (i = ino)) as [-> | Hne]; [rewrite lookup_insert_eq, Hv; exact (Hw sv Hv) |].
    rewrite lookup_insert_ne by done. destruct (sfs_vnodes s !! i) as [svi | ] eqn:Hsv; [by apply Hw | done]. }
  split; [ | | | done].
  - apply (inv_keep s); try done. apply vol_vnode; [ | exact (vo_inode _ (sv_vol _ HI) _ _ Hv)].
    apply vol_block; [apply vol_io, HI | done].
  - intros i f. unfold content. rewrite Hb. destruct (_ =? 0); [done |]. cbn. rewrite lookup_insert_ne; [done |]. by apply Hoth.
  - intros i. unfold s'. by rewrite (attrs_vnode (with_block (with_io s l) ino d) ino sv).
Qed.

(** Inodes reach the disk.  As long as the disk does what it is told,
    sfs_sync_inode of a changed inode stores a block from which exactly that
    inode is read back and clears the flag, without a change to what any file
    reads or to the soundness of the volume.  An inode that was not changed
    costs no I/O. *)
Theorem sync_inode_roundtrip {B} `{FreeMapLaws B} (s : sfs_fs B) ino sv :
  sfs_inv s -> sfs_vnodes s !! ino = Some sv -> ino <> 0 ->
  exists s', sfs_sync_inode s ino = Ok (s', 0) /\ reads_same s s' /\
    if sv_dirty sv then
      (exists d, disk s' !! ino = Some d /\ block_dinode d = Ok (sv_i sv)) /\
      sfs_vnodes s' = <[ino := mkSv (sv_i sv) false]> (sfs_vnodes s)
    else s' = s.
Proof.
  intros HI Hv Hn. pose proof (vo_inode _ (sv_vol _ HI) _ _ Hv) as Hok. unfold sfs_sync_inode, get_vnode. rewrite Hv. cbn [access rbind]. destruct (sv_dirty sv).
  2: { exists s. split; [done |]. split; [ | done]. apply unchanged_reads, unchanged_same; [done |]. apply same_refl, HI. }
  destruct (sv_used _ HI (ino, SIno)) as [Hr _]; [by rewrite (block_at_Some _ _ _ _ Hv) |].
  rewrite (block_at_Some _ _ _ _ Hv) in Hr. cbn in Hr.
  rewrite writeblock_ok; [ | apply (sv_vol _ HI) | lia | by apply dinode_block_length].
  cbn [rbind negb Z.eqb]. eexists. split; [done |]. split.
  - apply inode_written; [done | done | done |]. split; [by apply dinode_block_length | apply bytes_of_bytes].
  - split; [ | done]. exists (dinode_block (sv_i sv)). split; [apply lookup_insert_eq | by apply dinode_roundtrip].
Qed.

(** * Failing writes *)

(** C40: a write the disk fails is lost in silence.  The driver takes the
    data out of the uio before the disk reports, so the retry of sfs_rwblock
    asks for nothing and succeeds: sfs_writeblock returns 0 and the sector
    holds what it held before. *)
Theorem write_error_swallowed {B} `{FreeMap B} (s : sfs_fs B) b data l :
  0 <= b < d_blocks s -> d_blocks s < 2 ^ 32 -> zlen data = SFS_BLOCKSIZE -> wr_errors s = true :: l ->
  exists s', sfs_writeblock s b data = Ok (s', 0) /\ disk s' = disk s.
Proof. intros Hb Hd Hl Hw. exists (with_wio s l). split; [by apply writeblock_lost | done]. Qed.

(** * A volume *)

Section Check.
Context {B : Type} `{FreeMapLaws B}.
Implicit Types s : sfs_fs B.

(** The slots a file can fill. *)
Definition slots : list slot := SIno :: SInd :: (SFile <$> seqZ 0 143).

Lemma slots_all s ino sl : sfs_inv s \/ (forall sv, sfs_vnodes s !! ino = Some sv -> zlen (sfi_direct (sv_i sv)) = SFS_NDIRECT /\ zlen (idwords (disk s) sv) = SFS_DBPERIDB) ->
  block_at s (ino, sl) <> 0 -> sl ∈ slots /\ is_Some (sfs_vnodes s !! ino).
Proof.
  intros Hor Hn. unfold block_at in Hn. cbn in Hn. destruct (sfs_vnodes s !! ino) as [sv | ] eqn:Hv; [ | done]. split; [ | by eexists].
  destruct sl as [ | | f]; [by left | right; by left | right; right]. apply list_elem_of_fmap. exists f. split; [done |]. apply elem_of_seqZ.
  assert (zlen (sfi_direct (sv_i sv)) = SFS_NDIRECT /\ zlen (idwords (disk s) sv) = SFS_DBPERIDB) as [H1 H2].
  { destruct Hor as [HI | Hw]; [ | by apply Hw]. split; [by apply (vo_direct _ (sv_vol _ HI) ino) | by eapply idwords_ok]. }
  unfold SFS_NDIRECT, SFS_DBPERIDB in *. cbn in Hn. unfold file_block in Hn. unfold SFS_NDIRECT in Hn.
  destruct (Z.ltb_spec f 15); destruct (zget _ _) as [w | ] eqn:E; try done; apply zget_Some in E; lia.
Qed.

(** The places in the files of a volume, and a check that they are sound. *)
Definition places s : list (Z * slot) :=
  filter (fun p => block_at s p <> 0) (ino ← (map_to_list (sfs_vnodes s)).*1; pair ino <$> slots).

Definition places_ok s : bool :=
  forallb (fun e => (zlen (sfi_direct (sv_i e.2)) =? SFS_NDIRECT) && (zlen (idwords (disk s) e.2) =? SFS_DBPERIDB)) (map_to_list (sfs_vnodes s)) &&
  bool_decide (NoDup (block_at s <$> places s)) &&
  forallb (fun p => (0 <? block_at s p) && (block_at s p <? sb_nblocks s) && fm_used (sfs_freemap s) (block_at s p)) (places s).

Lemma inv_check s : vol_ok s -> places_ok s = true -> sfs_inv s.
Proof.
  intros Hv [[Hl Hd%bool_decide_eq_true]%andb_true_iff Hu]%andb_true_iff. rewrite forallb_forall in Hl, Hu.
  assert (Hin : forall p, block_at s p <> 0 -> p ∈ places s).
  { intros [ino sl] Hp. destruct (slots_all s ino sl) as [Hs [sv Hsv]]; [ | done |].
    - right. intros sv Hsv. apply elem_of_map_to_list, list_elem_of_In, Hl in Hsv. cbn in Hsv. lia.
    - apply list_elem_of_filter. split; [done |]. apply list_elem_of_bind. exists ino. split.
      + by apply list_elem_of_fmap_2.
      + apply list_elem_of_fmap. exists (ino, sv). split; [done | by apply elem_of_map_to_list]. }
  split; [done | |].
  - intros p Hp. specialize (Hu p). rewrite <- list_elem_of_In in Hu. specialize (Hu (Hin p Hp)).
    apply andb_true_iff in Hu as [Hu ->]. lia.
  - intros p q Hp E. pose proof (Hin p Hp) as [i Hi]%list_elem_of_lookup. pose proof (Hin q ltac:(congruence)) as [j Hj]%list_elem_of_lookup.
    assert (i = j) as <-; [ | congruence]. apply (NoDup_lookup _ i j (block_at s p) Hd); rewrite list_lookup_fmap; [by rewrite Hi | by rewrite Hj, E].
Qed.
End Check.

(** The same for what the map and the disk must be. *)
Definition volume_okb (s : sfs_fs bitmap) : bool :=
  let b := sfs_freemap s in
  (0 <=? sb_nblocks s) && (sb_nblocks s <=? nbits b) && (nbits b =? SFS_FREEMAPBITS (sb_nblocks s)) && (nbits b <=? max_bits) && (8 * zlen (v b) =? nbits b) &&
  forallb (fun w => (0 <=? w) && (w <? 2 ^ 8)) (v b) && forallb (used b) (seqZ (sb_nblocks s) (nbits b - sb_nblocks s)) && used b 0 &&
  (sb_nblocks s <=? d_blocks s) && (sb_nblocks s <? 2 ^ 32) && (d_blocks s <? 2 ^ 32) && bool_decide (wr_errors s = []) &&
  forallb (fun kv => dinode_okb (sv_i kv.2)) (map_to_list (sfs_vnodes s)).

Lemma volume_check (s : sfs_fs bitmap) :
  volume_okb s = true -> (forall b, 0 <= b < sb_nblocks s -> exists d, disk s !! b = Some d /\ good_block d) -> vol_ok s.
Proof.
  unfold volume_okb. rewrite !andb_true_iff, !forallb_forall.
  intros [[[[[[[[[[[[A1 A2] A3] A4] A5] A6] A7] A8] A9] A10] A11] A12%bool_decide_eq_true] A13] Hd. split; cbn [fm_wf fm_size fm_used bitmap_freemap bitmap_freemap_laws].
  - split; [lia | div_lia | | lia]. apply Forall_forall. intros w Hw%list_elem_of_In. specialize (A6 w Hw). lia.
  - lia.
  - lia.
  - intros i Hi. apply A7, list_elem_of_In, elem_of_seqZ. lia.
  - done.
  - done.
  - intros ino sv Hv. apply dinode_check. apply (A13 (ino, sv)). by apply list_elem_of_In, elem_of_map_to_list.
  - split; [lia | done].
Qed.

(** Sixteen blocks; the file of inode 3 has blocks 0 and 1 in disk blocks 4 and
    5, and 15 and 16, through the indirect block 6, in 7 and 8. *)
Definition volume_disk : gmap Z (list Z) :=
  <[6 := bytes_of (7 :: 8 :: repeat 0 126)]> (list_to_map ((fun b => (b, zeros)) <$> seqZ 0 16)).

Definition demo_file : sfs_vnode := mkSv (mkDinode 8700 SFS_TYPE_FILE 1 (4 :: 5 :: repeat 0 13) 6 (repeat 0 110)) false.

Definition demo (rerrors werrors : list bool) : sfs_fs bitmap :=
  mkSfs (mkBitmap 4096 (255 :: 1 :: repeat 255 510)) false 16 16 volume_disk rerrors werrors {[3 := demo_file]}.

Lemma volume_disk_ok b : 0 <= b < 16 -> exists d, volume_disk !! b = Some d /\ good_block d.
Proof.
  intros Hb. unfold volume_disk. destruct (decide (b = 6)) as [-> | N].
  - eexists. rewrite lookup_insert_eq. split; [done |]. split; [done | apply bytes_of_bytes].
  - exists zeros. rewrite lookup_insert_ne by done. split; [ | apply good_zeros].
    apply elem_of_list_to_map_1; [ | apply list_elem_of_fmap; exists b; split; [done | apply elem_of_seqZ; lia]].
    rewrite <- list_fmap_compose. apply NoDup_fmap_2; [intros x y; done | apply NoDup_seqZ].
Qed.

Lemma demo_volume_inv errors : sfs_inv (demo errors []).
Proof. apply inv_check; [apply volume_check; [ | exact volume_disk_ok] | ]; vm_compute; reflexivity. Qed.

(** Block 2 of the file is a hole; it gets disk block 9. *)
Lemma sfs_bmap_transparent_witness :
  exists s' r b, sfs_bmap (demo [] []) 3 2 true = Ok (s', r, b) /\ sfs_inv s' /\ r = 0 /\ b = 9.
Proof.
  destruct (sfs_bmap_transparent (demo [] []) 3 demo_file 2 true (demo_volume_inv []) eq_refl) as (s' & r & b & E & HI & _); [lia |].
  exists s', r, b. split; [exact E |]. split; [exact HI |]. vm_compute in E. injection E as _ <- <-. split; reflexivity.
Defined.

(** To nothing, and to fifteen blocks: block 15 is kept. *)
Lemma sfs_itrunc_exact_witness :
  (exists s', sfs_itrunc (demo [] []) 3 0 = Ok (s', 0) /\ sfs_inv s' /\ block_at s' (3, SInd) = 0) /\
  (exists s', sfs_itrunc (demo [] []) 3 7680 = Ok (s', 0) /\ sfs_inv s' /\ block_at s' (3, SFile 15) = 7 /\ block_at s' (3, SFile 16) = 0).
Proof.
  split.
  - destruct (sfs_itrunc_exact (demo [] []) 3 demo_file 0 (demo_volume_inv []) eq_refl) as (s' & r & E & Hr & _ & HP); [lia |].
    specialize (Hr eq_refl). subst r. destruct (HP eq_refl) as [Hpost H0]. exists s'. split; [exact E |]. split; [apply Hpost | by apply H0].
  - destruct (sfs_itrunc_exact (demo [] []) 3 demo_file 7680 (demo_volume_inv []) eq_refl) as (s' & r & E & Hr & _ & HP); [lia |].
    specialize (Hr eq_refl). subst r. destruct (HP eq_refl) as [Hpost _]. exists s'. split; [exact E |]. split; [apply Hpost |].
    rewrite !(it_block _ _ _ _ _ Hpost). split; vm_compute; reflexivity.
Defined.

(** The file of inode 3, changed in memory. *)
Definition demo_dirty : sfs_fs bitmap := with_vnode (demo [] []) 3 (mkSv (sv_i demo_file) true).

Lemma sync_inode_roundtrip_witness : exists s', sfs_sync_inode demo_dirty 3 = Ok (s', 0) /\ sfs_inv s'.
Proof.
  destruct (sync_inode_roundtrip demo_dirty 3 (mkSv (sv_i demo_file) true)) as (s' & E & HU & _).
  - apply inv_check; [ | vm_compute; reflexivity]. apply vol_vnode; [apply (demo_volume_inv []) | by apply dinode_check].
  - apply lookup_insert_eq.
  - done.
  - exists s'. split; [exact E | apply HU].
Defined.

Lemma write_error_swallowed_witness :
  exists s', sfs_writeblock (demo [] [true]) 4 (repeat 7 512) = Ok (s', 0) /\ disk s' !! 4 = Some zeros.
Proof.
  destruct (write_error_swallowed (demo [] [true]) 4 (repeat 7 512) []) as (s' & E & Hd); [cbn; lia | cbn; lia | done | done |].
  exists s'. split; [exact E |]. rewrite Hd. vm_compute. reflexivity.
Defined.

(** One lost write.  From a sound volume, sfs_itrunc loses the write of
    the indirect block, whose entries it has given back, and succeeds.  The
    file goes on using a block that is marked free; when it grows next it is
    given that block a second time, and two of its blocks are one. *)
Theorem itrunc_lost_write :
  exists s s' s'' b, sfs_inv s /\ sfs_itrunc (with_wio s [true]) 3 7680 = Ok (s', 0) /\
    fm_used (sfs_freemap s') b = false /\ b <> 0 /\
    sfs_bmap s' 3 2 true = Ok (s'', 0, b) /\ block_at s'' (3, SFile 2) = b /\ block_at s'' (3, SFile 16) = b.
Proof.
  destruct (sfs_itrunc (with_wio (demo [] []) [true]) 3 7680) as [[s' r] | ] eqn:E; [ | vm_compute in E; discriminate].
  destruct (sfs_bmap s' 3 2 true) as [[[s'' r2] b] | ] eqn:E2; [ | vm_compute in E; injection E as <- <-; vm_compute in E2; discriminate].
  exists (demo [] []), s', s'', b. vm_compute in E. injection E as <- <-. vm_compute in E2. injection E2 as <- <- <-.
  split; [apply demo_volume_inv |]. split; [done |]. by vm_compute.
Qed.
