(* ===== verification/SfsDir.v ===== *)
(** Directories of SFS: kern/fs/sfs/sfs_dir.c and sfs_metaio of sfs_io.c, over
    the blocks of file Sfs.

    A directory is a file of 64-byte entries, an inode number and a name in 60
    bytes; number 0 marks an empty slot.  Names passed in are strings without
    their terminator, and strcmp on them is equality (file CString).  The
    theorems say that a directory implements a finite map from names to inode
    numbers. *)
From S2P Require Import Prelude Bitmap Sfs.

Definition SFS_NAMELEN := 60.
Definition SFS_NOINO := 0.
Definition DIRENTRY_SIZE := 64.

Record sfs_direntry := mkDe { sfd_ino : Z; sfd_name : list Z }.

(** An entry in memory, and the entry that some memory is. *)
Definition entry_bytes (e : sfs_direntry) : list Z := bytes_of [sfd_ino e] ++ sfd_name e.
Definition bytes_entry (b : list Z) : sfs_direntry := mkDe (default 0 (head (words_of b))) (drop 4 b).

(** The string at the start of some bytes. *)
Fixpoint cstr (l : list Z) : list Z :=
  match l with
  | [] => []
  | c :: l => if c =? 0 then [] else c :: cstr l
  end.

Section Directory.
Context {B : Type} `{FreeMap B}.
Implicit Types s : sfs_fs B.

(** ** Metadata I/O: the state, the return value, and what is in [data] *)
Definition sfs_metaio s (ino actualpos : Z) (data : list Z) (len : Z) (write : bool) : res (sfs_fs B * Z * list Z) :=
  let vnblock := u32 (actualpos / SFS_BLOCKSIZE) in
  let blockoffset := actualpos mod SFS_BLOCKSIZE in
  let* (s, result, diskblock) := sfs_bmap s ino vnblock write in
  if negb (result =? 0) then Ok (s, result, data)
  else if diskblock =? 0 then kassert (negb write) (Ok (s, 0, repeat 0 (Z.to_nat len)))
  else
  let* (s, result, metaiobuf) := sfs_readblock s diskblock in
  if negb (result =? 0) then Ok (s, result, data)
  else if SFS_BLOCKSIZE <? blockoffset + len then Fault BadAccess
  else if negb write then Ok (s, 0, take (Z.to_nat len) (drop (Z.to_nat blockoffset) metaiobuf))
  else
  let metaiobuf := take (Z.to_nat blockoffset) metaiobuf ++ take (Z.to_nat len) data ++ drop (Z.to_nat (blockoffset + len)) metaiobuf in
  let* (s, result) := sfs_writeblock s diskblock metaiobuf in
  if negb (result =? 0) then Ok (s, result, data)
  else
  let* sv := get_vnode s ino in
  let endpos := actualpos + len in
  if sfi_size (sv_i sv) <? endpos then Ok (with_vnode s ino (set_size sv (u32 endpos)), 0, data) else Ok (s, 0, data).

(** ** Entries *)

Definition sfs_readdir s (ino slot : Z) : res (sfs_fs B * Z * sfs_direntry) :=
  let actualpos := u32 (slot * DIRENTRY_SIZE) in
  let* (s, result, b) := sfs_metaio s ino actualpos [] DIRENTRY_SIZE false in
  Ok (s, result, bytes_entry b).

Definition sfs_writedir s (ino slot : Z) (sd : sfs_direntry) : res (sfs_fs B * Z) :=
  kassert (0 <=? slot) (
  let actualpos := u32 (slot * DIRENTRY_SIZE) in
  let* (s, result, _) := sfs_metaio s ino actualpos (entry_bytes sd) DIRENTRY_SIZE true in
  Ok (s, result)).

Definition sfs_dir_nentries s (ino : Z) : res Z :=
  let* sv := get_vnode s ino in
  kassert (sfi_type (sv_i sv) =? SFS_TYPE_DIR) (
  let size := sfi_size (sv_i sv) in
  if negb (size mod DIRENTRY_SIZE =? 0) then Fault PanicCall else Ok (size / DIRENTRY_SIZE)).

(** The loop, at slot [i], [k] slots to go: whether the name was found, and
    *ino, *slot and *emptyslot as they are. *)
Record found := mkFound { fo_found : bool; fo_ino : Z; fo_slot : Z; fo_empty : Z }.

Fixpoint findname_loop (k : nat) s (ino : Z) (name : list Z) (i : Z) (o : found) : res (sfs_fs B * Z * found) :=
  match k with
  | O => Ok (s, if fo_found o then 0 else ENOENT, o)
  | S k =>
    let* (s, result, tsd) := sfs_readdir s ino i in
    if negb (result =? 0) then Ok (s, result, o)
    else if sfd_ino tsd =? SFS_NOINO then findname_loop k s ino name (i + 1) (mkFound (fo_found o) (fo_ino o) (fo_slot o) i)
    else if bool_decide (cstr (take 59 (sfd_name tsd)) = name) then
      kassert (negb (fo_found o)) (findname_loop k s ino name (i + 1) (mkFound true (sfd_ino tsd) i (fo_empty o)))
    else findname_loop k s ino name (i + 1) o
  end.

Definition sfs_dir_findname s (ino : Z) (name : list Z) (o : found) : res (sfs_fs B * Z * found) :=
  let* nentries := sfs_dir_nentries s ino in
  findname_loop (Z.to_nat nentries) s ino name 0 (mkFound false (fo_ino o) (fo_slot o) (fo_empty o)).

(** The state, the return value and *slot. *)
Definition sfs_dir_link s (dir : Z) (name : list Z) (ino : Z) : res (sfs_fs B * Z * Z) :=
  let* (s, result, o) := sfs_dir_findname s dir name (mkFound false 0 0 (-1)) in
  if negb (result =? 0) && negb (result =? ENOENT) then Ok (s, result, 0)
  else if result =? 0 then Ok (s, EEXIST, 0)
  else if SFS_NAMELEN <? zlen name + 1 then Ok (s, ENAMETOOLONG, 0)
  else
  let* emptyslot := if fo_empty o <? 0 then sfs_dir_nentries s dir else Ok (fo_empty o) in
  let sd := mkDe ino (name ++ repeat 0 (60 - length name)) in
  let* (s, result) := sfs_writedir s dir emptyslot sd in
  Ok (s, result, emptyslot).

Definition sfs_dir_unlink s (dir slot : Z) : res (sfs_fs B * Z) :=
  sfs_writedir s dir slot (mkDe SFS_NOINO (repeat 0 60)).
End Directory.

(** * The parts of a file *)

Section Laws.
Context {B : Type} `{FreeMapLaws B}.
Implicit Types s : sfs_fs B.

Lemma content_good s ino f : sfs_inv s -> good_block (content s ino f).
Proof.
  intros HI. unfold content. destruct (Z.eqb_spec (block_at s (ino, SFile f)) 0) as [ | Hn]; [apply good_zeros |].
  by destruct (inv_block s _ HI Hn) as (d & -> & Hg).
Qed.

(** A data block is overwritten. *)
Lemma data_written s ino f d l :
  sfs_inv s -> block_at s (ino, SFile f) <> 0 -> good_block d ->
  let s' := with_block (with_io s l) (block_at s (ino, SFile f)) d in
  sfs_inv s' /\ (forall p, block_at s' p = block_at s p) /\
  (forall i g, content s' i g = if decide ((i, g) = (ino, f)) then d else content s i g) /\ inodes_kept s s'.
Proof.
  intros HI Hn Hd s'. set (b := block_at s (ino, SFile f)) in *.
  assert (Hoth : forall p, p <> (ino, SFile f) -> b <> block_at s p).
  { intros p Hp E. apply Hp. symmetry. apply (sv_inj _ HI); done. }
  assert (Hb : forall p, block_at s' p = block_at s p).
  { intros [i sl]. unfold block_at. cbn [fst snd s' with_block with_io sfs_vnodes disk]. destruct (sfs_vnodes s !! i) as [svi | ] eqn:Hsv; [ | done].
    destruct sl as [ | | g]; cbn; [done | done |]. unfold file_block, idwords.
    destruct (Z.eqb_spec (sfi_indirect (sv_i svi)) 0); [done |]. rewrite lookup_insert_ne; [done |].
    specialize (Hoth (i, SInd)). rewrite (block_at_Some _ _ _ _ Hsv) in Hoth. by apply Hoth. }
  split; [ | split; [done | split]].
  - apply (inv_keep s); try done. apply vol_block; [apply vol_io, HI | done].
  - intros i g. unfold content. rewrite Hb. case_decide as E.
    + injection E as -> ->. fold b. destruct (Z.eqb_spec b 0); [done |]. cbn. by rewrite lookup_insert_eq.
    + destruct (_ =? 0); [done |]. cbn. rewrite lookup_insert_ne; [done |]. apply Hoth. congruence.
  - intros i Hi. cbn. rewrite lookup_insert_ne; [done |]. unfold b. by apply slot_inode.
Qed.

Lemma size_set s ino sv n :
  sfs_inv s -> sfs_vnodes s !! ino = Some sv ->
  let s' := with_vnode s ino (set_size sv (u32 n)) in
  sfs_inv s' /\ (forall p, block_at s' p = block_at s p) /\ (forall i g, content s' i g = content s i g).
Proof.
  intros HI Hv s'. assert (Hb : forall p, block_at s' p = block_at s p) by (intros p; by apply set_size_blocks).
  split; [ | split; [done |]].
  - apply (inv_keep s); try done. apply vol_vnode; [apply HI |]. apply dinode_set_size. exact (vo_inode _ (sv_vol _ HI) _ _ Hv).
  - intros i g. unfold content. by rewrite Hb.
Qed.

(** ** Metadata I/O *)

(** Some bytes of a block. *)
Definition part (d : list Z) (off len : Z) : list Z := take (Z.to_nat len) (drop (Z.to_nat off) d).
Definition patch (d : list Z) (off : Z) (data : list Z) : list Z :=
  take (Z.to_nat off) d ++ data ++ drop (Z.to_nat (off + zlen data)) d.

Lemma patch_good d off data :
  good_block d -> 0 <= off -> off + zlen data <= SFS_BLOCKSIZE -> Forall (fun b => 0 <= b < 2 ^ 8) data -> good_block (patch d off data).
Proof.
  intros [Hl Hf] Ho Hlen Hd. unfold patch. split.
  - unfold zlen in *. rewrite !length_app, length_take, length_drop. lia.
  - apply Forall_app. split; [by apply Forall_take |]. apply Forall_app. split; [done | by apply Forall_drop].
Qed.

Lemma part_zeros n off len : 0 <= len -> 0 <= off -> off + len <= Z.of_nat n -> part (repeat 0 n) off len = repeat 0 (Z.to_nat len).
Proof.
  assert (Hrep : forall k, repeat 0 k = replicate k 0) by (intros k; induction k as [ | k IH]; [done | cbn; by rewrite IH]).
  intros Hl Ho Hn. unfold part. rewrite !Hrep, drop_replicate, take_replicate. f_equal. lia.
Qed.

(** What was written is read back; what lies beside it is as before. *)
Lemma part_patch_same d off data :
  zlen d = SFS_BLOCKSIZE -> 0 <= off -> off + zlen data <= SFS_BLOCKSIZE -> part (patch d off data) off (zlen data) = data.
Proof.
  intros Hd Ho Hl. unfold part, patch, zlen in *. rewrite Nat2Z.id.
  rewrite drop_app_length' by (rewrite length_take; lia). by rewrite take_app_length.
Qed.

Lemma part_patch_other d off data off' len :
  zlen d = SFS_BLOCKSIZE -> 0 <= off -> off + zlen data <= SFS_BLOCKSIZE -> 0 <= off' -> 0 <= len ->
  (off' + len <= off \/ off + zlen data <= off') -> part (patch d off data) off' len = part d off' len.
Proof.
  intros Hd Ho Hl Ho' Hlen Hdis. unfold part. apply list_eq. intros k. rewrite !lookup_take. case_decide as Hk; [ | done].
  rewrite !lookup_drop. unfold patch, zlen in *. rewrite !lookup_app, length_take.
  destruct Hdis as [Hdis | Hdis].
  - rewrite lookup_take, decide_True by lia. destruct (d !! (Z.to_nat off' + k)%nat) eqn:E; [done |].
    apply lookup_ge_None_1 in E. lia.
  - rewrite lookup_take, decide_False by lia. rewrite lookup_ge_None_2 by lia. rewrite lookup_drop. f_equal. lia.
Qed.

Lemma meta_read_ok s ino sv pos len :
  sfs_inv s -> sfs_vnodes s !! ino = Some sv -> 0 <= pos -> pos / SFS_BLOCKSIZE < SFS_MAXBLOCKS -> 0 <= len -> pos mod SFS_BLOCKSIZE + len <= SFS_BLOCKSIZE ->
  exists s' r b, sfs_metaio s ino pos [] len false = Ok (s', r, b) /\ same s s' /\
    ((r = 0 /\ b = part (content s ino (pos / SFS_BLOCKSIZE)) (pos mod SFS_BLOCKSIZE) len) \/ r = EIO) /\
    (rd_errors s = [] -> rd_errors s' = [] /\ r <> EIO).
Proof.
  intros HI Hv Hp Hbl Hl Hoff. set (vb := pos / SFS_BLOCKSIZE) in *. set (off := pos mod SFS_BLOCKSIZE) in *.
  assert (Hvb : 0 <= vb) by (apply Z.div_pos; [done | unfold SFS_BLOCKSIZE; lia]). assert (Ho : 0 <= off) by (apply Z.mod_pos_bound; done).
  unfold sfs_metaio. fold vb off. rewrite u32_id by (unfold is_u32, SFS_MAXBLOCKS, SFS_NDIRECT, SFS_NINDIRECT, SFS_DBPERIDB in *; lia).
  destruct (bmap_ok s ino sv vb false HI Hv) as (s1 & r & b & -> & [P1 P2 P3 P4 P5 P6 P7]); [lia |]. cbn [rbind].
  specialize (P5 eq_refl). destruct P6 as [(-> & -> & _) | [(_ & ? & _) | ->]]; [ | done |].
  2: { change (negb (EIO =? 0)) with true. cbv iota. exists s1, EIO, []. split; [done |]. split; [done |]. split; [by right | done]. }
  cbn [negb Z.eqb]. pose proof (un_content _ _ P1 ino vb) as Hc. unfold content at 1 in Hc.
  destruct (Z.eqb_spec (block_at s1 (ino, SFile vb)) 0) as [Hz | Hn]; cbn [kassert].
  - exists s1, 0, (repeat 0 (Z.to_nat len)). split; [done |]. split; [done |]. split; [ | apply P7]. left. split; [done |].
    rewrite <- Hc. symmetry. apply part_zeros; [done | done | unfold SFS_BLOCKSIZE in *; lia].
  - destruct (read_block_at s1 (ino, SFile vb)) as (l & r & d & -> & Hr & Hio); [apply P1 | done |]. cbn [rbind].
    assert (HS : same s (with_io s1 l)) by (destruct P5 as [Q1 Q2 Q3 Q4]; by split).
    assert (Hio' : rd_errors s = [] -> rd_errors (with_io s1 l) = [] /\ r = 0).
    { intros Hs. destruct (P7 Hs) as [Hs1 _]. by destruct (Hio Hs1) as [-> ->]. }
    destruct Hr as [[-> Hd] | ->].
    + cbn [negb Z.eqb]. destruct (Z.ltb_spec SFS_BLOCKSIZE (off + len)); [lia |]. eexists _, 0, _. split; [done |]. split; [done |].
      split; [left; split; [done |]; by rewrite <- Hc, Hd | by intros [-> _]%Hio'].
    + change (negb (EIO =? 0)) with true. cbv iota. eexists _, EIO, _. split; [done |]. split; [done |]. split; [by right | by intros [_ ?]%Hio'].
Qed.

(** What writing [data] at [pos] leaves. *)
Record wrote s (ino pos : Z) (data : list Z) s' : Prop := {
  wr_inv : sfs_inv s';
  wr_content : forall i g, content s' i g =
    if decide ((i, g) = (ino, pos / SFS_BLOCKSIZE)) then patch (content s ino (pos / SFS_BLOCKSIZE)) (pos mod SFS_BLOCKSIZE) data else content s i g;
  wr_attrs : forall i, attrs s' i = if i =? ino then (fun a => (Z.max a.1.1 (pos + zlen data), a.1.2, a.2)) <$> attrs s i else attrs s i;
  wr_inodes : inodes_kept s s'
}.

Lemma attrs_Some s s' ino sv' :
  attrs s' ino = attrs s ino -> sfs_vnodes s' !! ino = Some sv' ->
  attrs s ino = Some (sfi_size (sv_i sv'), sfi_type (sv_i sv'), sfi_linkcount (sv_i sv')).
Proof. intros <- Hv. unfold attrs. by rewrite Hv. Qed.

(** The end of a write: the block, then perhaps the size. *)
Lemma write_end s s1 ino pos data l :
  unchanged s s1 -> block_at s1 (ino, SFile (pos / SFS_BLOCKSIZE)) <> 0 -> is_Some (sfs_vnodes s1 !! ino) ->
  0 <= pos -> pos + zlen data < 2 ^ 32 -> good_block (patch (content s ino (pos / SFS_BLOCKSIZE)) (pos mod SFS_BLOCKSIZE) data) ->
  let s2 := with_block (with_io s1 l) (block_at s1 (ino, SFile (pos / SFS_BLOCKSIZE))) (patch (content s ino (pos / SFS_BLOCKSIZE)) (pos mod SFS_BLOCKSIZE) data) in
  exists sv s3, get_vnode s2 ino = Ok sv /\ wrote s ino pos data s3 /\ rd_errors s3 = l /\
    (if sfi_size (sv_i sv) <? pos + zlen data then Ok (with_vnode s2 ino (set_size sv (u32 (pos + zlen data))), 0, data) else Ok (s2, 0, data)) = Ok (s3, 0, data).
Proof.
  intros HU Hn [sv Hv] Hp Hsz Hg s2. destruct (data_written s1 ino _ _ l (un_inv _ _ HU) Hn Hg) as (HI2 & _ & Hc2 & Hk2). fold s2 in HI2, Hc2, Hk2.
  assert (Hk : inodes_kept s s2).
  { eapply inodes_kept_trans; [ | apply HU | exact Hk2]. intros i. by rewrite <- !attrs_loaded, (un_attrs _ _ HU). }
  assert (Hv2 : sfs_vnodes s2 !! ino = Some sv) by done. exists sv. unfold get_vnode. rewrite Hv2.
  pose proof (attrs_Some s s1 ino sv (un_attrs _ _ HU ino) Hv) as Ha.
  assert (Hc : forall i g, content s2 i g = if decide ((i, g) = (ino, pos / SFS_BLOCKSIZE)) then patch (content s ino (pos / SFS_BLOCKSIZE)) (pos mod SFS_BLOCKSIZE) data else content s i g).
  { intros i g. rewrite Hc2. case_decide; [done | apply HU]. }
  destruct (Z.ltb_spec (sfi_size (sv_i sv)) (pos + zlen data)) as [Hlt | Hge].
  - destruct (size_set s2 ino sv (pos + zlen data) HI2 Hv2) as (HI3 & _ & Hc3).
    exists (with_vnode s2 ino (set_size sv (u32 (pos + zlen data)))). split; [done |]. split; [ | done].
    split; [done | intros i g; by rewrite Hc3 | | done]. intros i. destruct (Z.eqb_spec i ino) as [-> | Hne].
    + rewrite Ha. unfold attrs. cbn. rewrite lookup_insert_eq. cbn. rewrite u32_id by (unfold is_u32, zlen in *; lia). by rewrite Z.max_r by lia.
    + rewrite <- (un_attrs _ _ HU i). unfold attrs. cbn. by rewrite lookup_insert_ne.
  - exists s2. split; [done |]. split; [ | done]. split; [done | done | | done]. intros i. destruct (Z.eqb_spec i ino) as [-> | Hne].
    + rewrite Ha. unfold attrs. rewrite Hv2. cbn. by rewrite Z.max_l by lia.
    + exact (un_attrs _ _ HU i).
Qed.

Lemma meta_write_ok s ino sv pos data :
  sfs_inv s -> sfs_vnodes s !! ino = Some sv -> 0 <= pos -> pos mod SFS_BLOCKSIZE + zlen data <= SFS_BLOCKSIZE -> pos + zlen data < 2 ^ 32 ->
  Forall (fun b => 0 <= b < 2 ^ 8) data ->
  exists s' r d, sfs_metaio s ino pos data (zlen data) true = Ok (s', r, d) /\ (rd_errors s = [] -> rd_errors s' = []) /\
    ((r = 0 /\ wrote s ino pos data s' /\ pos / SFS_BLOCKSIZE < SFS_MAXBLOCKS) \/
     (unchanged s s' /\ ((r = ENOSPC /\ block_at s (ino, SFile (pos / SFS_BLOCKSIZE)) = 0) \/ (r = EFBIG /\ SFS_MAXBLOCKS <= pos / SFS_BLOCKSIZE) \/ (r = EIO /\ rd_errors s <> [])))).
Proof.
  intros HI Hv Hp Hoff Hsz Hby. set (vb := pos / SFS_BLOCKSIZE) in *. set (off := pos mod SFS_BLOCKSIZE) in *.
  assert (Hvb : 0 <= vb) by (apply Z.div_pos; [done | unfold SFS_BLOCKSIZE; lia]). assert (Ho : 0 <= off) by (apply Z.mod_pos_bound; done).
  assert (Hvb' : vb <= pos) by (apply Z.div_le_upper_bound; unfold SFS_BLOCKSIZE; lia).
  unfold sfs_metaio. fold vb off. rewrite u32_id by (unfold is_u32, zlen in *; lia).
  destruct (Z_lt_ge_dec vb SFS_MAXBLOCKS) as [Hlt | Hge].
  2: { rewrite bmap_toobig by lia. cbn. exists s, EFBIG, data. split; [done |]. split; [done |]. right.
       split; [apply unchanged_same; [done | by apply same_refl] | right; left; split; [done | lia]]. }
  destruct (bmap_ok s ino sv vb true HI Hv) as (s1 & r & b & -> & [P1 P2 P3 P4 P5 P6 P7]); [lia |]. cbn [rbind].
  destruct P6 as [(-> & -> & Hn) | [(-> & _ & Hz) | ->]].
  2: { exists s1, ENOSPC, data. split; [done |]. split; [by intros [? _]%P7 |]. right. split; [done | by left]. }
  2: { exists s1, EIO, data. split; [done |]. split; [by intros [? _]%P7 |]. right. split; [done |]. right. right. split; [done |].
       intros Hs. by apply P7 in Hs as [_ ?]. }
  specialize (Hn eq_refl). cbn [negb Z.eqb]. destruct (Z.eqb_spec (block_at s1 (ino, SFile vb)) 0) as [ | _]; [done |].
  destruct (read_block_at s1 (ino, SFile vb)) as (l & r & d & -> & Hr & Hio); [apply P1 | done |]. cbn [rbind].
  assert (HU : unchanged s (with_io s1 l)) by (eapply unchanged_trans; [exact P1 | apply unchanged_io, P1]).
  assert (Hio' : rd_errors s = [] -> l = [] /\ r = 0) by (intros [Hs _]%P7; by destruct (Hio Hs)).
  destruct Hr as [[-> Hd] | ->].
  2: { exists (with_io s1 l), EIO, data. split; [done |]. split; [by intros [? _]%Hio' |]. right. split; [done |]. right. right. split; [done |].
       by intros [_ ?]%Hio'. }
  cbn [negb Z.eqb]. destruct (Z.ltb_spec SFS_BLOCKSIZE (off + zlen data)); [lia |].
  assert (Hc : content s ino vb = d).
  { rewrite <- (un_content _ _ P1). unfold content. destruct (Z.eqb_spec (block_at s1 (ino, SFile vb)) 0); [done | by rewrite Hd]. }
  assert (Hg : good_block (patch (content s ino vb) off data)) by (apply patch_good; [by apply content_good | done | done | done]).
  replace (take (Z.to_nat (zlen data)) data) with data by (unfold zlen; by rewrite Nat2Z.id, take_ge).
  fold (patch d off data). rewrite <- Hc.
  destruct (sv_used _ (un_inv _ _ P1) (ino, SFile vb) Hn) as [Hr _].
  rewrite writeblock_ok; [ | apply (sv_vol _ (un_inv _ _ HU)) | cbn; lia | apply Hg]. cbn [rbind negb Z.eqb].
  destruct (write_end s (with_io s1 l) ino pos data l HU Hn) as (sv' & s3 & Eg & Hw & Hl & E); [apply P4; by eexists | done | done | done |].
  fold vb off in Eg, E. change (block_at (with_io s1 l) (ino, SFile vb)) with (block_at s1 (ino, SFile vb)) in Eg, E.
  change (rd_errors (with_io s1 l)) with l. rewrite Eg. cbn [access rbind]. rewrite E.
  exists s3, 0, data. split; [done |]. split; [intros [? _]%Hio'; congruence |]. left. split; [done |]. split; [done | lia].
Qed.

(** * Directories as maps *)

Definition entry_at s (ino i : Z) : sfs_direntry := bytes_entry (part (content s ino (i / 8)) (DIRENTRY_SIZE * (i mod 8)) DIRENTRY_SIZE).

(** The name of an entry. *)
Definition ename (e : sfs_direntry) : list Z := cstr (take 59 (sfd_name e)).

(** Slot [i] has the name. *)
Definition match_at s (ino : Z) (name : list Z) (i : Z) : Prop :=
  sfd_ino (entry_at s ino i) <> SFS_NOINO /\ ename (entry_at s ino i) = name.

Definition MAXSLOTS := SFS_MAXBLOCKS * 8.

(** A directory with [n] slots, in which no name appears twice. *)
Record dir_ok s (ino n : Z) : Prop := {
  do_inv : sfs_inv s;
  do_attrs : exists links, attrs s ino = Some (DIRENTRY_SIZE * n, SFS_TYPE_DIR, links);
  do_size : 0 <= n <= MAXSLOTS;
  do_names : forall name i j, 0 <= i < n -> 0 <= j < n -> match_at s ino name i -> match_at s ino name j -> i = j
}.

(** Its names and numbers are those of the map [M]. *)
Definition holds_map s (ino n : Z) (M : gmap (list Z) Z) : Prop :=
  forall name x, M !! name = Some x <-> exists i, 0 <= i < n /\ match_at s ino name i /\ sfd_ino (entry_at s ino i) = x.

(** It implements the map [M]. *)
Definition dir_is s (ino : Z) (M : gmap (list Z) Z) : Prop := exists n, dir_ok s ino n /\ holds_map s ino n M.

Lemma slot_pos i : 0 <= i -> (i * DIRENTRY_SIZE) / SFS_BLOCKSIZE = i / 8 /\ (i * DIRENTRY_SIZE) mod SFS_BLOCKSIZE = DIRENTRY_SIZE * (i mod 8).
Proof. intros Hi. unfold DIRENTRY_SIZE, SFS_BLOCKSIZE. split; div_lia. Qed.

Lemma entry_unchanged s s' ino i : unchanged s s' -> entry_at s' ino i = entry_at s ino i.
Proof. intros HU. unfold entry_at. by rewrite (un_content _ _ HU). Qed.

Lemma dir_unchanged s s' ino n : unchanged s s' -> dir_ok s ino n -> dir_ok s' ino n.
Proof.
  intros HU [HI [links Ha] Hn Hd]. split; [apply HU | exists links; by rewrite (un_attrs _ _ HU) | done |].
  intros name i j Hi Hj. unfold match_at. rewrite !(entry_unchanged s s') by done. by apply Hd.
Qed.

Lemma holds_unchanged s s' ino n M : unchanged s s' -> holds_map s ino n M -> holds_map s' ino n M.
Proof. intros HU HM name x. rewrite (HM name x). unfold match_at. by setoid_rewrite (entry_unchanged s s' _ _ HU). Qed.

Lemma dir_is_unchanged s s' ino M : unchanged s s' -> dir_is s ino M -> dir_is s' ino M.
Proof. intros HU (n & Hd & HM). exists n. split; [by eapply dir_unchanged | by eapply holds_unchanged]. Qed.

Lemma dir_vnode s ino n : dir_ok s ino n ->
  exists sv, sfs_vnodes s !! ino = Some sv /\ sfi_size (sv_i sv) = DIRENTRY_SIZE * n /\ sfi_type (sv_i sv) = SFS_TYPE_DIR.
Proof.
  intros [_ [links Ha] _ _]. unfold attrs in Ha. destruct (sfs_vnodes s !! ino) as [sv | ]; [ | done]. exists sv.
  injection Ha as H1 H2 H3. done.
Qed.

Lemma nentries_ok s ino n : dir_ok s ino n -> sfs_dir_nentries s ino = Ok n.
Proof.
  intros Hd. destruct (dir_vnode s ino n Hd) as (sv & Hv & Hs & Ht). unfold sfs_dir_nentries, get_vnode. rewrite Hv. cbn [access rbind].
  rewrite Ht, Hs. unfold kassert. cbn [Z.eqb]. rewrite (Z.mul_comm DIRENTRY_SIZE), Z.mod_mul, Z.div_mul by done. done.
Qed.

(** ** Reading an entry *)

Lemma readdir_ok s ino n i :
  dir_ok s ino n -> 0 <= i < n ->
  exists s' r e, sfs_readdir s ino i = Ok (s', r, e) /\ unchanged s s' /\ ((r = 0 /\ e = entry_at s ino i) \/ (r = EIO /\ rd_errors s <> [])) /\
    (rd_errors s = [] -> rd_errors s' = []).
Proof.
  intros Hd Hi. destruct (dir_vnode s ino n Hd) as (sv & Hv & _). destruct (slot_pos i) as [Hq Hm]; [lia |].
  pose proof (do_size _ _ _ Hd) as Hn. unfold MAXSLOTS in Hn. pose proof (Z.mod_pos_bound i 8 ltac:(lia)) as Hm8.
  assert (Hmax : SFS_MAXBLOCKS = 143) by reflexivity. assert (Hlt : i / 8 < SFS_MAXBLOCKS) by (apply Z.div_lt_upper_bound; lia).
  unfold sfs_readdir. rewrite u32_id by (unfold is_u32, DIRENTRY_SIZE; lia).
  destruct (meta_read_ok s ino sv (i * DIRENTRY_SIZE) DIRENTRY_SIZE) as (s' & r & b & -> & HS & Hr & Hio);
    [apply Hd | done | unfold DIRENTRY_SIZE; lia | by rewrite Hq | done | rewrite Hm; unfold DIRENTRY_SIZE, SFS_BLOCKSIZE; lia |].
  cbn [rbind]. exists s', r, (bytes_entry b). split; [done |]. split; [apply unchanged_same; [apply Hd | done] |].
  split; [ | by intros [? _]%Hio]. destruct Hr as [[-> ->] | ->].
  - left. split; [done |]. by rewrite Hq, Hm.
  - right. split; [done |]. by intros [_ ?]%Hio.
Qed.

(** ** Looking for a name *)

(** What the loop knows after the slots below [i]; [e0] is the initial value of
    *emptyslot. *)
Record scanned s (ino : Z) (name : list Z) (e0 i : Z) (o : found) : Prop := {
  sc_found : if fo_found o then 0 <= fo_slot o < i /\ match_at s ino name (fo_slot o) /\ fo_ino o = sfd_ino (entry_at s ino (fo_slot o))
             else forall j, 0 <= j < i -> ~ match_at s ino name j;
  sc_empty : fo_empty o = e0 \/ (0 <= fo_empty o < i /\ sfd_ino (entry_at s ino (fo_empty o)) = SFS_NOINO)
}.

Lemma scanned_eq s s' ino name e0 i o :
  (forall j, entry_at s' ino j = entry_at s ino j) -> scanned s ino name e0 i o -> scanned s' ino name e0 i o.
Proof.
  intros He [H1 H2]. split; [ | by rewrite He]. unfold match_at in *. destruct (fo_found o); [by rewrite He |].
  intros j Hj. rewrite He. by apply H1.
Qed.

(** One more slot. *)
Lemma scanned_step s ino n name e0 i o :
  dir_ok s ino n -> 0 <= i < n -> scanned s ino name e0 i o ->
  if sfd_ino (entry_at s ino i) =? SFS_NOINO then scanned s ino name e0 (i + 1) (mkFound (fo_found o) (fo_ino o) (fo_slot o) i)
  else if bool_decide (ename (entry_at s ino i) = name) then
    fo_found o = false /\ scanned s ino name e0 (i + 1) (mkFound true (sfd_ino (entry_at s ino i)) i (fo_empty o))
  else scanned s ino name e0 (i + 1) o.
Proof.
  intros Hd Hi [Hf He]. assert (He' : fo_empty o = e0 \/ (0 <= fo_empty o < i + 1 /\ sfd_ino (entry_at s ino (fo_empty o)) = SFS_NOINO)) by (destruct He as [ | [? ?]]; [by left | right; split; [lia | done]]).
  assert (Hskip : ~ match_at s ino name i -> if fo_found o then 0 <= fo_slot o < i + 1 /\ match_at s ino name (fo_slot o) /\ fo_ino o = sfd_ino (entry_at s ino (fo_slot o))
                                             else forall j, 0 <= j < i + 1 -> ~ match_at s ino name j).
  { intros Hno. destruct (fo_found o); [destruct Hf as (? & ? & ?); split; [lia | done] |]. intros j Hj. destruct (Z.eq_dec j i) as [-> | ]; [done |]. apply Hf. lia. }
  destruct (Z.eqb_spec (sfd_ino (entry_at s ino i)) SFS_NOINO) as [Hz | Hnz].
  - split; cbn; [apply Hskip; by intros [? _] | right; split; [lia | done]].
  - destruct (bool_decide_reflect (ename (entry_at s ino i) = name)) as [Hname | Hname].
    + assert (Hmi : match_at s ino name i) by done. destruct (fo_found o) eqn:Eo.
      * destruct Hf as (Hsl & Hm & _). assert (fo_slot o = i) by (apply (do_names _ _ _ Hd name); [lia | lia | done | done]). lia.
      * split; [done |]. split; cbn; [split; [lia | done] | done].
    + split; [apply Hskip; by intros [_ ?] | done].
Qed.

Lemma findname_loop_ok k s ino n name e0 i o :
  dir_ok s ino n -> 0 <= i -> i + Z.of_nat k = n -> scanned s ino name e0 i o ->
  exists s' r o', findname_loop k s ino name i o = Ok (s', r, o') /\ unchanged s s' /\ (rd_errors s = [] -> rd_errors s' = []) /\
    ((r = EIO /\ rd_errors s <> []) \/ (r = (if fo_found o' then 0 else ENOENT) /\ scanned s ino name e0 n o')).
Proof.
  revert s i o. induction k as [ | k IH]; intros s i o Hd Hi Hk Hs.
  { exists s, (if fo_found o then 0 else ENOENT), o. split; [done |]. split; [apply unchanged_same; [apply Hd | apply same_refl, Hd] |].
    split; [done |]. right. split; [done |]. by replace n with i by lia. }
  cbn [findname_loop]. destruct (readdir_ok s ino n i Hd) as (s1 & r & e & -> & HU & Hr & Hio); [lia |]. cbn [rbind].
  destruct Hr as [[-> ->] | [-> Hne]].
  2: { exists s1, EIO, o. split; [done |]. split; [done |]. split; [done |]. by left. }
  cbn [negb Z.eqb]. pose proof (scanned_step s ino n name e0 i o Hd ltac:(lia) Hs) as Hstep. fold (ename (entry_at s ino i)).
  assert (Hgo : forall o1, scanned s ino name e0 (i + 1) o1 ->
    exists s' r o', findname_loop k s1 ino name (i + 1) o1 = Ok (s', r, o') /\ unchanged s s' /\ (rd_errors s = [] -> rd_errors s' = []) /\
    ((r = EIO /\ rd_errors s <> []) \/ (r = (if fo_found o' then 0 else ENOENT) /\ scanned s ino name e0 n o'))).
  { intros o1 Ho1. destruct (IH s1 (i + 1) o1) as (s' & r & o' & E & HU' & Hio' & Hr);
      [by eapply dir_unchanged | lia | lia | eapply scanned_eq; [ | exact Ho1]; intros j; by apply entry_unchanged |].
    exists s', r, o'. split; [done |]. split; [by eapply unchanged_trans |]. split; [auto |]. destruct Hr as [[-> Hne] | [-> Hsc]].
    - left. split; [done |]. auto.
    - right. split; [done |]. eapply scanned_eq; [ | exact Hsc]. intros j. symmetry. by apply entry_unchanged. }
  destruct (sfd_ino (entry_at s ino i) =? SFS_NOINO); [by apply Hgo |].
  destruct (bool_decide (ename (entry_at s ino i) = name)); [ | by apply Hgo]. destruct Hstep as [-> Hstep]. cbn [negb kassert]. by apply Hgo.
Qed.

Lemma findname_ok s ino n name o :
  dir_ok s ino n ->
  exists s' r o', sfs_dir_findname s ino name o = Ok (s', r, o') /\ unchanged s s' /\ (rd_errors s = [] -> rd_errors s' = []) /\
    ((r = EIO /\ rd_errors s <> []) \/ (r = (if fo_found o' then 0 else ENOENT) /\ scanned s ino name (fo_empty o) n o')).
Proof.
  intros Hd. unfold sfs_dir_findname. rewrite (nentries_ok s ino n Hd). cbn [rbind]. pose proof (do_size _ _ _ Hd).
  apply findname_loop_ok; [done | lia | lia |]. split; cbn; [lia | by left].
Qed.

(** ** Storing an entry *)

Record entry_ok (e : sfs_direntry) : Prop := {
  eo_ino : is_u32 (sfd_ino e);
  eo_name : zlen (sfd_name e) = SFS_NAMELEN /\ Forall (fun b => 0 <= b < 2 ^ 8) (sfd_name e)
}.

Lemma entry_bytes_ok e : entry_ok e -> zlen (entry_bytes e) = DIRENTRY_SIZE /\ Forall (fun b => 0 <= b < 2 ^ 8) (entry_bytes e).
Proof.
  intros [Hi [Hl Hb]]. unfold entry_bytes. split.
  - unfold zlen in *. rewrite length_app. cbn. unfold SFS_NAMELEN, DIRENTRY_SIZE in *. lia.
  - apply Forall_app. split; [apply bytes_of_bytes | done].
Qed.

Lemma entry_roundtrip e : entry_ok e -> bytes_entry (entry_bytes e) = e.
Proof.
  intros [Hi [Hl Hb]]. pose proof (words_of_bytes_of [sfd_ino e] ltac:(by constructor)) as Hw. cbn in Hw. injection Hw as Hw.
  unfold bytes_entry, entry_bytes. cbn [bytes_of app words_of head default drop]. rewrite Hw. by destruct e.
Qed.

(** Slot [i] of a directory of [n] slots now holds [e]. *)
Record stored s (ino n i : Z) (e : sfs_direntry) s' : Prop := {
  st_inv : sfs_inv s';
  st_size : 0 <= i < MAXSLOTS;
  st_entry : forall j, 0 <= j -> entry_at s' ino j = if j =? i then e else entry_at s ino j;
  st_other : forall d f, d <> ino -> content s' d f = content s d f /\ attrs s' d = attrs s d;
  st_attrs : exists links, attrs s' ino = Some (DIRENTRY_SIZE * Z.max n (i + 1), SFS_TYPE_DIR, links);
  st_inodes : inodes_kept s s'
}.

Lemma entry_patched s s' ino i e j :
  entry_ok e -> 0 <= i -> 0 <= j -> sfs_inv s -> wrote s ino (i * DIRENTRY_SIZE) (entry_bytes e) s' ->
  entry_at s' ino j = if j =? i then e else entry_at s ino j.
Proof.
  intros He Hi Hj HI [_ Hc _ _]. destruct (slot_pos i Hi) as [Hq Hm]. destruct (entry_bytes_ok e He) as [Hl _].
  destruct (content_good s ino (i / 8) HI) as [Hcl _]. unfold entry_at. rewrite Hc, Hq, Hm.
  pose proof (Z.mod_pos_bound i 8 ltac:(lia)). pose proof (Z.mod_pos_bound j 8 ltac:(lia)). unfold DIRENTRY_SIZE in *.
  destruct (Z.eqb_spec j i) as [-> | Hne].
  - rewrite decide_True by done. pose proof (part_patch_same (content s ino (i / 8)) (64 * (i mod 8)) (entry_bytes e)) as HP.
    rewrite Hl in HP. rewrite HP; [by apply entry_roundtrip | done | lia | unfold SFS_BLOCKSIZE; lia].
  - case_decide as E; [ | done]. injection E as Eq. rewrite Eq. f_equal.
    assert (j mod 8 <> i mod 8) by (intros E; apply Hne; rewrite (Z.div_mod j 8), (Z.div_mod i 8) by lia; congruence).
    apply part_patch_other; [done | lia | unfold SFS_BLOCKSIZE; lia | lia | lia | lia].
Qed.

Lemma writedir_ok s ino n i e :
  dir_ok s ino n -> 0 <= i <= n -> entry_ok e ->
  exists s' r, sfs_writedir s ino i e = Ok (s', r) /\ (rd_errors s = [] -> rd_errors s' = []) /\
    ((r = 0 /\ stored s ino n i e s') \/
     (unchanged s s' /\ ((r = ENOSPC /\ sfd_ino (entry_at s ino i) = SFS_NOINO) \/ (r = EFBIG /\ i = MAXSLOTS) \/ (r = EIO /\ rd_errors s <> [])))).
Proof.
  intros Hd Hi He. destruct (dir_vnode s ino n Hd) as (sv & Hv & _). destruct (slot_pos i) as [Hq Hm]; [lia |].
  pose proof (do_size _ _ _ Hd) as Hn. pose proof (Z.mod_pos_bound i 8 ltac:(lia)) as Hm8. destruct (entry_bytes_ok e He) as [Hl Hby].
  assert (Hmax : MAXSLOTS = 1144 /\ SFS_MAXBLOCKS = 143) by done. destruct Hmax as [Hms Hmb].
  unfold sfs_writedir. unfold kassert. destruct (Z.leb_spec 0 i); [ | lia]. rewrite u32_id by (unfold is_u32, DIRENTRY_SIZE; lia).
  destruct (meta_write_ok s ino sv (i * DIRENTRY_SIZE) (entry_bytes e)) as (s' & r & b & E & Hio & Hr);
    [apply Hd | done | unfold DIRENTRY_SIZE; lia | rewrite Hm, Hl; unfold DIRENTRY_SIZE, SFS_BLOCKSIZE; lia | rewrite Hl; unfold DIRENTRY_SIZE; lia | done |].
  rewrite Hl in E. rewrite E. cbn [rbind]. exists s', r. split; [done |]. split; [done |]. rewrite Hq in Hr. destruct Hr as [(-> & Hw & Hlt) | [HU Hr]].
  - left. split; [done |]. pose proof (wr_attrs _ _ _ _ _ Hw) as Ha. pose proof (wr_content _ _ _ _ _ Hw) as Hc. split.
    + apply Hw.
    + rewrite Hms. pose proof (Z.div_mod i 8 ltac:(lia)). lia.
    + intros j Hj. apply (entry_patched s s' ino i e); [done | lia | done | apply Hd | done].
    + intros d f Hne. rewrite Hc, Ha, decide_False by congruence. by destruct (Z.eqb_spec d ino).
    + destruct (do_attrs _ _ _ Hd) as [links Hat]. exists links. rewrite Ha, Z.eqb_refl, Hat, Hl. cbn. do 3 f_equal. unfold DIRENTRY_SIZE. lia.
    + apply Hw.
  - right. split; [done |]. destruct Hr as [[-> Hz] | [[-> Hge] | ]]; [ | | by right; right].
    { left. split; [done |]. unfold entry_at, content. rewrite Hz. cbn [Z.eqb]. unfold zeros. rewrite part_zeros by (unfold DIRENTRY_SIZE; lia). done. }
    right. left. split; [done |].
    pose proof (Z.div_mod i 8 ltac:(lia)). lia.
Qed.

(** ** Names *)

Definition valid_name (name : list Z) : Prop := Forall (fun c => 0 < c < 2 ^ 8) name.

Lemma cstr_name name k : valid_name name -> (length name <= k)%nat -> cstr (take k (name ++ repeat 0 (S k - length name))) = name.
Proof.
  intros Hv. revert k. induction Hv as [ | c name Hc Hv IH]; intros k Hk.
  - destruct k; [done |]. done.
  - destruct k as [ | k]; cbn in Hk; [lia |]. cbn. destruct (Z.eqb_spec c 0); [lia |]. f_equal. apply IH. lia.
Qed.

Lemma entry_of_name name x :
  valid_name name -> zlen name < SFS_NAMELEN -> is_u32 x ->
  let e := mkDe x (name ++ repeat 0 (60 - length name)) in entry_ok e /\ ename e = name.
Proof.
  intros Hv Hl Hx e. unfold zlen, SFS_NAMELEN in Hl. split; [split; [done |]; cbn; split |].
  - unfold zlen. rewrite length_app, repeat_length. unfold SFS_NAMELEN. lia.
  - apply Forall_app. split; [eapply Forall_impl; [exact Hv |]; cbn; lia |].
    apply Forall_forall. intros c Hc%list_elem_of_In%repeat_spec. subst. lia.
  - unfold ename. cbn. apply (cstr_name name 59); [done | lia].
Qed.

(** ** Entering and removing a name *)

Lemma match_stored s ino n i e s' name j :
  stored s ino n i e s' -> 0 <= j -> match_at s' ino name j <-> (if j =? i then sfd_ino e <> SFS_NOINO /\ ename e = name else match_at s ino name j).
Proof. intros HS Hj. unfold match_at. rewrite (st_entry _ _ _ _ _ _ HS j Hj). by destruct (j =? i). Qed.

Lemma stored_insert s ino n i e s' M :
  dir_ok s ino n -> holds_map s ino n M ->
  stored s ino n i e s' -> 0 <= i <= n -> (i = n \/ sfd_ino (entry_at s ino i) = SFS_NOINO) -> sfd_ino e <> SFS_NOINO ->
  (forall j, 0 <= j < n -> ~ match_at s ino (ename e) j) -> dir_is s' ino (<[ename e := sfd_ino e]> M).
Proof.
  intros Hd HM HS Hi Hfree He Hno.
  assert (Hold : forall j, 0 <= j < Z.max n (i + 1) -> j <> i -> 0 <= j < n) by (intros j Hj Hne; destruct (Z_lt_ge_dec j n); lia).
  assert (Hnew : forall name j, 0 <= j < n -> match_at s ino name j -> j <> i).
  { intros name j Hj [Hm _] ->. destruct Hfree; [lia | done]. }
  exists (Z.max n (i + 1)). split; [split |].
  - apply HS.
  - apply HS.
  - pose proof (st_size _ _ _ _ _ _ HS). pose proof (do_size _ _ _ Hd). lia.
  - intros name a b Ha Hb. rewrite (match_stored s ino n i e s' name a), (match_stored s ino n i e s' name b) by (done || lia).
    destruct (Z.eqb_spec a i) as [-> | Hai], (Z.eqb_spec b i) as [-> | Hbi]; [done | | |].
    + intros [_ <-] Hm. destruct (Hno b); [by apply Hold | done].
    + intros Hm [_ <-]. destruct (Hno a); [by apply Hold | done].
    + apply (do_names _ _ _ Hd); by apply Hold.
  - intros name x. destruct (decide (name = ename e)) as [-> | Hne].
    + rewrite lookup_insert_eq. split.
      * intros [= <-]. exists i. split; [lia |]. rewrite (match_stored s ino n i e s') by (done || lia). rewrite (st_entry _ _ _ _ _ _ HS) by lia.
        by rewrite Z.eqb_refl.
      * intros (j & Hj & Hm & <-). rewrite (match_stored s ino n i e s') in Hm by (done || lia). rewrite (st_entry _ _ _ _ _ _ HS) by lia.
        destruct (Z.eqb_spec j i); [done |]. destruct (Hno j); [by apply Hold | done].
    + rewrite lookup_insert_ne by done. rewrite (HM name x). split.
      * intros (j & Hj & Hm & <-). assert (j <> i) by by eapply Hnew. exists j. split; [lia |].
        rewrite (match_stored s ino n i e s'), (st_entry _ _ _ _ _ _ HS) by (done || lia). by destruct (Z.eqb_spec j i).
      * intros (j & Hj & Hm & <-). rewrite (match_stored s ino n i e s') in Hm by (done || lia). rewrite (st_entry _ _ _ _ _ _ HS) by lia.
        destruct (Z.eqb_spec j i); [by destruct Hm |]. exists j. split; [by apply Hold | done].
Qed.

Lemma stored_delete s ino n i e s' M name :
  dir_ok s ino n -> holds_map s ino n M ->
  stored s ino n i e s' -> 0 <= i < n -> match_at s ino name i -> sfd_ino e = SFS_NOINO -> dir_is s' ino (delete name M).
Proof.
  intros Hd HM HS Hi Hmi He. exists n. split; [split |].
  - apply HS.
  - destruct (st_attrs _ _ _ _ _ _ HS) as [links Ha]. exists links. by rewrite Z.max_l in Ha by lia.
  - apply Hd.
  - intros nm a b Ha Hb. rewrite !(match_stored s ino n i e s' nm) by (done || lia).
    destruct (Z.eqb_spec a i); [by intros [? _] |]. destruct (Z.eqb_spec b i); [by intros _ [? _] |]. by apply (do_names _ _ _ Hd).
  - intros nm x. rewrite lookup_delete_Some, (HM nm x). split.
    + intros (Hne & j & Hj & Hm & <-). assert (j <> i) by (intros ->; destruct Hm, Hmi; congruence). exists j. split; [done |].
      rewrite (match_stored s ino n i e s'), (st_entry _ _ _ _ _ _ HS) by (done || lia). by destruct (Z.eqb_spec j i).
    + intros (j & Hj & Hm & <-). rewrite (match_stored s ino n i e s') in Hm by (done || lia). rewrite (st_entry _ _ _ _ _ _ HS) by lia.
      destruct (Z.eqb_spec j i) as [ | Hne]; [by destruct Hm |]. split; [ | by exists j].
      intros <-. apply Hne. by apply (do_names _ _ _ Hd name).
Qed.

(** ** Histories of a directory *)

Inductive dop := Look (name : list Z) | Link (name : list Z) (x : Z) | Remove (name : list Z).

(** As sfs_lookonce, sfs_creat, sfs_link, sfs_remove and sfs_rename use it: the
    return code and, for a lookup, the inode number. *)
Definition dir_step s (dir : Z) (op : dop) : res (sfs_fs B * Z * Z) :=
  match op with
  | Look name =>
    let* (s, result, o) := sfs_dir_findname s dir name (mkFound false 0 0 (-1)) in
    Ok (s, result, if result =? 0 then fo_ino o else 0)
  | Link name x => let* (s, result, _) := sfs_dir_link s dir name x in Ok (s, result, 0)
  | Remove name =>
    let* (s, result, o) := sfs_dir_findname s dir name (mkFound false 0 0 (-1)) in
    if negb (result =? 0) then Ok (s, result, 0)
    else let* (s, result) := sfs_dir_unlink s dir (fo_slot o) in Ok (s, result, 0)
  end.

Fixpoint dir_run s (dir : Z) (ops : list dop) : res (sfs_fs B * list (Z * Z)) :=
  match ops with
  | [] => Ok (s, [])
  | op :: ops =>
    let* (s, r, x) := dir_step s dir op in
    let* (s, rs) := dir_run s dir ops in
    Ok (s, (r, x) :: rs)
  end.

(** The same on a finite map; only entering a name may also fail for lack of
    room. *)
Definition map_step (M : gmap (list Z) Z) (op : dop) (r x : Z) (M' : gmap (list Z) Z) : Prop :=
  match op with
  | Look name => M' = M /\ match M !! name with Some y => r = 0 /\ x = y | None => r = ENOENT /\ x = 0 end
  | Link name y =>
    x = 0 /\
    match M !! name with
    | Some _ => r = EEXIST /\ M' = M
    | None =>
      if SFS_NAMELEN <=? zlen name then r = ENAMETOOLONG /\ M' = M
      else (r = 0 /\ M' = <[name := y]> M) \/ ((r = ENOSPC \/ r = EFBIG) /\ M' = M)
    end
  | Remove name => x = 0 /\ match M !! name with Some _ => r = 0 /\ M' = delete name M | None => r = ENOENT /\ M' = M end
  end.

Inductive map_run : gmap (list Z) Z -> list dop -> list (Z * Z) -> gmap (list Z) Z -> Prop :=
| map_run_nil M : map_run M [] [] M
| map_run_cons M M1 M2 op ops r x rs : map_step M op r x M1 -> map_run M1 ops rs M2 -> map_run M (op :: ops) ((r, x) :: rs) M2.

Definition op_valid (op : dop) : Prop :=
  match op with Link name x => valid_name name /\ 0 < x < 2 ^ 32 | _ => True end.

(** Every other file is as it was, and no inode was written. *)
Record others_same s s' (dir : Z) : Prop := {
  os_files : forall d f, d <> dir -> content s' d f = content s d f /\ attrs s' d = attrs s d;
  os_inodes : inodes_kept s s'
}.

Lemma unchanged_others s s' dir : unchanged s s' -> others_same s s' dir.
Proof. intros HU. split; [intros d f _; split; apply HU | apply HU]. Qed.

Lemma others_trans s1 s2 s3 dir :
  is_Some (sfs_vnodes s2 !! dir) -> others_same s1 s2 dir -> others_same s2 s3 dir -> others_same s1 s3 dir.
Proof.
  intros Hd [F1 I1] [F2 I2]. split.
  - intros d f Hne. destruct (F2 d f Hne) as [-> ->]. by apply F1.
  - eapply inodes_kept_trans; [ | exact I1 | exact I2]. intros i. destruct (decide (i = dir)) as [-> | Hne]; [done |].
    destruct (F1 i 0 Hne) as [_ E]. by rewrite <- !attrs_loaded, E.
Qed.

Lemma stored_others s dir n i e s' : stored s dir n i e s' -> others_same s s' dir.
Proof. intros HS. split; apply HS. Qed.

Lemma dir_loaded s dir M : dir_is s dir M -> is_Some (sfs_vnodes s !! dir).
Proof. intros (n & Hd & _). destruct (dir_vnode s dir n Hd) as (sv & Hv & _). by eexists. Qed.

(** Slot [i] is that of a name. *)
Definition slot_is s (dir : Z) (name : list Z) (i : Z) : Prop := exists n, dir_ok s dir n /\ 0 <= i < n /\ match_at s dir name i.

Lemma slot_unchanged s s' dir name i : unchanged s s' -> slot_is s dir name i -> slot_is s' dir name i.
Proof.
  intros HU (n & Hd & Hi & Hm). exists n. split; [by eapply dir_unchanged |]. split; [done |]. unfold match_at. by rewrite (entry_unchanged s s').
Qed.

(** What a search means for the map. *)
Lemma scanned_map s ino n name e0 o M :
  holds_map s ino n M ->
  scanned s ino name e0 n o ->
  if fo_found o then 0 <= fo_slot o < n /\ match_at s ino name (fo_slot o) /\ M !! name = Some (fo_ino o)
  else (forall j, 0 <= j < n -> ~ match_at s ino name j) /\ M !! name = None.
Proof.
  intros HM [Hf _]. destruct (fo_found o).
  - destruct Hf as (Hs & Hm & ->). split; [done |]. split; [done |]. apply HM. by exists (fo_slot o).
  - split; [done |]. destruct (M !! name) as [x | ] eqn:E; [ | done]. apply HM in E as (j & Hj & Hm & _). by apply Hf in Hm.
Qed.

Lemma dir_link_ok s dir M name x :
  dir_is s dir M -> rd_errors s = [] -> valid_name name -> 0 < x < 2 ^ 32 ->
  exists s' r slot M', sfs_dir_link s dir name x = Ok (s', r, slot) /\ map_step M (Link name x) r 0 M' /\
    dir_is s' dir M' /\ rd_errors s' = [] /\ others_same s s' dir /\ (forall nm j, slot_is s dir nm j -> slot_is s' dir nm j).
Proof.
  intros (n & Hd & HM) Hio Hname Hx. unfold sfs_dir_link.
  destruct (findname_ok s dir n name (mkFound false 0 0 (-1)) Hd) as (s1 & r & o & -> & HU & Hio1 & [[_ ?] | [-> Hsc]]); [done |].
  cbn [rbind]. pose proof (dir_is_unchanged s s1 dir M HU ltac:(by exists n)) as HM1. pose proof (unchanged_others s s1 dir HU) as Ho1.
  assert (Hsl1 : forall nm j, slot_is s dir nm j -> slot_is s1 dir nm j) by (intros nm j; by apply slot_unchanged).
  pose proof (scanned_map s dir n name _ o M HM Hsc) as Hmap. cbn [map_step]. destruct (fo_found o).
  { destruct Hmap as (_ & _ & ->). exists s1, EEXIST, 0, M. split; [done |]. split; [done |]. split; [done |]. split; [auto | by split]. }
  destruct Hmap as [Hno ->]. change (negb (ENOENT =? 0) && negb (ENOENT =? ENOENT)) with false. change (ENOENT =? 0) with false. cbv iota.
  destruct (Z.ltb_spec SFS_NAMELEN (zlen name + 1)) as [Hlong | Hshort], (Z.leb_spec SFS_NAMELEN (zlen name)) as [Hlong' | Hshort']; try lia.
  { exists s1, ENAMETOOLONG, 0, M. split; [done |]. split; [done |]. split; [done |]. split; [auto | by split]. }
  destruct (entry_of_name name x Hname Hshort') as [He Hen]; [unfold is_u32; lia |]. set (e := mkDe x (name ++ repeat 0 (60 - length name))) in *.
  assert (Hd1 : dir_ok s1 dir n) by by eapply dir_unchanged.
  assert (HMa : holds_map s1 dir n M) by by eapply holds_unchanged.
  assert (Hno1 : forall j, 0 <= j < n -> ~ match_at s1 dir (ename e) j).
  { intros j Hj. rewrite Hen. unfold match_at. rewrite (entry_unchanged s s1) by done. by apply Hno. }
  set (slot := if fo_empty o <? 0 then n else fo_empty o). pose proof (do_size _ _ _ Hd) as Hn.
  assert (Hslot : 0 <= slot <= n /\ (slot = n \/ sfd_ino (entry_at s1 dir slot) = SFS_NOINO)).
  { unfold slot. destruct (Z.ltb_spec (fo_empty o) 0); [split; [lia | by left] |].
    destruct (sc_empty _ _ _ _ _ _ Hsc) as [E | [Hr Hz]]; [cbn in E; lia |]. split; [lia |]. right. by rewrite (entry_unchanged s s1). }
  destruct Hslot as [Hs1 Hs2].
  assert (Eslot : (if fo_empty o <? 0 then sfs_dir_nentries s1 dir else Ok (fo_empty o)) = Ok slot).
  { unfold slot. destruct (fo_empty o <? 0); [by apply nentries_ok | done]. }
  rewrite Eslot. cbn [rbind]. destruct (writedir_ok s1 dir n slot e Hd1 Hs1 He) as (s2 & r & -> & Hio2 & Hr). cbn [rbind].
  exists s2, r, slot. destruct Hr as [[-> HS] | [HU2 Hr]].
  - exists (<[name := x]> M). split; [done |]. split; [split; [done | by left] |].
    assert (Hd2 : dir_is s2 dir (<[name := x]> M)) by (rewrite <- Hen; apply (stored_insert s1 dir n slot e s2 M); try done; cbn; unfold SFS_NOINO; lia).
    split; [done |]. split; [auto |]. split; [by eapply others_trans; [eapply dir_loaded | exact Ho1 | eapply stored_others] |].
    intros nm j (n1 & Hn1 & Hj & Hm)%Hsl1. assert (n1 = n) as ->.
    { pose proof (nentries_ok _ _ _ Hn1) as E1. rewrite (nentries_ok _ _ _ Hd1) in E1. by injection E1. }
    assert (Hjs : j <> slot) by (intros ->; destruct Hs2 as [ | Hz]; [lia |]; by destruct Hm as [? _]).
    destruct Hd2 as (n2 & Hd2 & _). exists n2. split; [done |]. pose proof (nentries_ok _ _ _ Hd2) as E2.
    destruct (dir_vnode _ _ _ Hd2) as (sv2 & Hv2 & Hz2 & _). destruct (st_attrs _ _ _ _ _ _ HS) as [links Ha2]. unfold attrs in Ha2. rewrite Hv2 in Ha2.
    injection Ha2 as Ha2 _ _. rewrite Hz2 in Ha2. unfold DIRENTRY_SIZE in Ha2. split; [lia |]. unfold match_at. rewrite (st_entry _ _ _ _ _ _ HS) by lia.
    by destruct (Z.eqb_spec j slot).
  - exists M. split; [done |]. split; [split; [done |] |].
    + right. split; [ | done]. destruct Hr as [[-> _] | [[-> _] | [_ Hne]]]; [by left | by right | by rewrite Hio1 in Hne].
    + split; [by eapply dir_is_unchanged |]. split; [auto |]. split; [apply unchanged_others; by eapply unchanged_trans |].
      intros nm j Hj. eapply slot_unchanged; [exact HU2 | by apply Hsl1].
Qed.

(** The slot of a name is emptied: that always works. *)
Lemma dir_unlink_ok s dir M name i :
  dir_is s dir M -> rd_errors s = [] -> slot_is s dir name i ->
  exists s', sfs_dir_unlink s dir i = Ok (s', 0) /\ dir_is s' dir (delete name M) /\ rd_errors s' = [] /\ others_same s s' dir.
Proof.
  intros (n & Hd & HM) Hio (n1 & Hn1 & Hs & Hm). assert (n1 = n) as ->.
  { pose proof (nentries_ok _ _ _ Hn1) as E1. rewrite (nentries_ok _ _ _ Hd) in E1. by injection E1. }
  unfold sfs_dir_unlink.
  destruct (writedir_ok s dir n i (mkDe SFS_NOINO (repeat 0 60)) Hd) as (s2 & r & -> & Hio2 & Hr); [lia | |].
  { split; [unfold is_u32, SFS_NOINO; cbn; lia |]. split; [done |]. apply Forall_forall. intros c Hc%list_elem_of_In%repeat_spec. subst. lia. }
  destruct Hr as [[-> HS] | [HU2 Hr]].
  - exists s2. split; [done |].
    split; [apply (stored_delete s dir n i (mkDe SFS_NOINO (repeat 0 60)) s2 M name); done || lia |]. split; [auto | by eapply stored_others].
  - exfalso. pose proof (do_size _ _ _ Hd). destruct Hr as [[_ Hz] | [[_ Hz] | [_ Hne]]]; [by destruct Hm | lia | done].
Qed.

Lemma dir_remove_ok s dir M name :
  dir_is s dir M -> rd_errors s = [] ->
  exists s' r M', dir_step s dir (Remove name) = Ok (s', r, 0) /\ map_step M (Remove name) r 0 M' /\
    dir_is s' dir M' /\ rd_errors s' = [] /\ others_same s s' dir.
Proof.
  intros (n & Hd & HM) Hio. cbn [dir_step].
  destruct (findname_ok s dir n name (mkFound false 0 0 (-1)) Hd) as (s1 & r & o & -> & HU & Hio1 & [[_ ?] | [-> Hsc]]); [done |].
  cbn [rbind]. pose proof (dir_is_unchanged s s1 dir M HU ltac:(by exists n)) as HM1. pose proof (unchanged_others s s1 dir HU) as Ho1.
  pose proof (scanned_map s dir n name _ o M HM Hsc) as Hmap. cbn [map_step]. destruct (fo_found o).
  2: { destruct Hmap as [_ ->]. exists s1, ENOENT, M. split; [done |]. split; [done |]. split; [done |]. split; [auto | done]. }
  destruct Hmap as (Hs & Hm & ->). cbn [negb Z.eqb].
  destruct (dir_unlink_ok s1 dir M name (fo_slot o) HM1) as (s2 & -> & HM2 & Hio2 & Ho2);
    [auto | eapply slot_unchanged; [exact HU |]; by exists n |].
  exists s2, 0, (delete name M). split; [done |]. split; [done |]. split; [done |]. split; [done |].
  exact (others_trans _ _ _ _ (dir_loaded _ _ _ HM1) Ho1 Ho2).
Qed.

Lemma dir_step_ok s dir M op :
  dir_is s dir M -> rd_errors s = [] -> op_valid op ->
  exists s' r x M', dir_step s dir op = Ok (s', r, x) /\ map_step M op r x M' /\ dir_is s' dir M' /\ rd_errors s' = [] /\ others_same s s' dir.
Proof.
  intros HM Hio Hop. destruct op as [name | name x | name].
  - destruct HM as (n & Hd & HM). cbn [dir_step].
    destruct (findname_ok s dir n name (mkFound false 0 0 (-1)) Hd) as (s1 & r & o & -> & HU & Hio1 & [[_ ?] | [-> Hsc]]); [done |].
    cbn [rbind]. pose proof (scanned_map s dir n name _ o M HM Hsc) as Hmap. eexists _, _, _, M. split; [done |]. cbn [map_step].
    split; [ | split; [eapply dir_is_unchanged; [done | by exists n] | split; [auto | by apply unchanged_others]]].
    split; [done |]. destruct (fo_found o); [by destruct Hmap as (_ & _ & ->) | by destruct Hmap as [_ ->]].
  - destruct Hop as [Hn Hx]. destruct (dir_link_ok s dir M name x HM Hio Hn Hx) as (s' & r & slot & M' & E & H1 & H2 & H3 & H4 & _). exists s', r, 0, M'.
    cbn [dir_step]. by rewrite E.
  - destruct (dir_remove_ok s dir M name HM Hio) as (s' & r & M' & E & Hrest). by exists s', r, 0, M'.
Qed.

Lemma dir_run_ok ops s dir M :
  dir_is s dir M -> rd_errors s = [] -> Forall op_valid ops ->
  exists s' rs M', dir_run s dir ops = Ok (s', rs) /\ map_run M ops rs M' /\ dir_is s' dir M' /\ others_same s s' dir.
Proof.
  intros HM Hio Hops. revert s M HM Hio. induction Hops as [ | op ops Hop _ IH]; intros s M HM Hio.
  { exists s, [], M. split; [done |]. split; [constructor |]. split; [done |]. by split. }
  destruct (dir_step_ok s dir M op HM Hio Hop) as (s1 & r & x & M1 & E1 & H1 & HM1 & Hio1 & Ho1).
  destruct (IH s1 M1 HM1 Hio1) as (s2 & rs & M2 & E2 & H2 & HM2 & Ho2).
  exists s2, ((r, x) :: rs), M2. cbn [dir_run]. rewrite E1. cbn [rbind]. rewrite E2. split; [done |]. split; [by econstructor |]. split; [done |].
  exact (others_trans _ _ _ _ (dir_loaded _ _ _ HM1) Ho1 Ho2).
Qed.
End Laws.

(** A directory is a finite map.  Over every sequence of lookups, links
    and removals, on a disk without errors, the calls return, and answer like
    a finite map from names to inode numbers: a lookup gives the number that
    was entered under exactly this name, ENOENT without one; a name that is
    there is refused with EEXIST, one of 60 characters or more with
    ENAMETOOLONG; removing takes out that name and no other and needs no room.
    Only entering a name may fail for want of room, and then it changes
    nothing.  No other file reads differently afterwards. *)
Theorem directory_refines_map {B} `{FreeMapLaws B} (s : sfs_fs B) dir M ops :
  dir_is s dir M -> rd_errors s = [] -> Forall op_valid ops ->
  exists s' rs M', dir_run s dir ops = Ok (s', rs) /\ map_run M ops rs M' /\ dir_is s' dir M' /\
    forall d f, d <> dir -> content s' d f = content s d f.
Proof.
  intros HM Hio Hops. destruct (dir_run_ok ops s dir M HM Hio Hops) as (s' & rs & M' & E & HR & HD & Ho).
  exists s', rs, M'. split; [done |]. split; [done |]. split; [done |]. intros d f Hne. by apply (os_files _ _ _ Ho).
Qed.

(** An empty directory in inode 3 of a volume of sixteen blocks. *)
Definition empty_dir : sfs_vnode := mkSv (mkDinode 0 SFS_TYPE_DIR 2 (repeat 0 15) 0 (repeat 0 110)) false.
Definition dir_volume : sfs_fs bitmap := mkSfs (mkBitmap 4096 (15 :: 0 :: repeat 255 510)) false 16 16 volume_disk [] [] {[3 := empty_dir]}.

Lemma dir_volume_is : dir_is dir_volume 3 ∅.
Proof.
  exists 0. split; [split |].
  - apply inv_check; [apply volume_check; [ | exact volume_disk_ok] | ]; vm_compute; reflexivity.
  - by exists 2.
  - unfold MAXSLOTS. vm_compute. split; congruence.
  - intros name i j Hi. lia.
  - intros name x. rewrite lookup_empty. split; [done |]. intros (i & Hi & _). lia.
Qed.

Lemma directory_refines_map_witness :
  exists s', dir_run dir_volume 3 [Link [97] 5; Link [97] 6; Link [98; 99] 7; Look [97]; Remove [97]; Look [97]; Look [98; 99]] =
    Ok (s', [(0, 0); (EEXIST, 0); (0, 0); (0, 5); (0, 0); (ENOENT, 0); (0, 7)]) /\ exists M, dir_is s' 3 M.
Proof.
  destruct (directory_refines_map dir_volume 3 ∅ [Link [97] 5; Link [97] 6; Link [98; 99] 7; Look [97]; Remove [97]; Look [97]; Look [98; 99]])
    as (s' & rs & M' & E & _ & HD & _); [apply dir_volume_is | done | repeat constructor; lia |].
  exists s'. split; [ | by exists M']. vm_compute in E. injection E as <- <-. vm_compute. reflexivity.
Defined.
