(* ===== verification/SfsFile.v ===== *)
(** Reading and writing files of SFS: sfs_partialio, sfs_blockio and sfs_io of
    kern/fs/sfs/sfs_io.c, over the blocks of file Sfs.

    The uio is a [buf_uio]: the memory behind it does not fault (what uiomove
    does with memory that does is in file Copyinout).  A file is a sequence of
    bytes, [byte_at]; the theorems say that reading delivers the bytes of the
    file up to its size and that writing replaces exactly the bytes it says it
    has moved, whatever fails on the way. *)
From S2P Require Import Prelude Bitmap Sfs SfsDir.

(** ** uiomove on such a uio *)

(** Out of a kernel buffer, into it, and zeros. *)
Definition uio_put (u : buf_uio) (bytes : list Z) : buf_uio :=
  let n := Z.min (zlen bytes) (bu_resid u) in
  mkBu (bu_offset u + n) (bu_resid u - n) (bu_data u ++ take (Z.to_nat n) bytes).

Definition uio_get (u : buf_uio) (len : Z) : list Z * buf_uio :=
  let n := Z.min len (bu_resid u) in
  (take (Z.to_nat n) (bu_data u), mkBu (bu_offset u + n) (bu_resid u - n) (drop (Z.to_nat n) (bu_data u))).

Section Io.
Context {B : Type} `{FreeMap B}.
Implicit Types s : sfs_fs B.

(** ** A part of a block *)
Definition sfs_partialio s (ino : Z) (u : buf_uio) (write : bool) (skipstart len : Z) : res (sfs_fs B * buf_uio * Z) :=
  kassert (skipstart + len <=? SFS_BLOCKSIZE) (
  let fileblock := u32 (bu_offset u / SFS_BLOCKSIZE) in
  let* (s, result, diskblock) := sfs_bmap s ino fileblock write in
  if negb (result =? 0) then Ok (s, u, result)
  else
  let* (s, result, iobuf) :=
    if diskblock =? 0 then kassert (negb write) (Ok (s, 0, zeros))
    else sfs_readblock s diskblock in
  if negb (result =? 0) then Ok (s, u, result)
  else if write then
    let (bytes, u) := uio_get u len in
    let iobuf := take (Z.to_nat skipstart) iobuf ++ bytes ++ drop (Z.to_nat (skipstart + zlen bytes)) iobuf in
    let* (s, result) := sfs_writeblock s diskblock iobuf in
    Ok (s, u, result)
  else Ok (s, uio_put u (take (Z.to_nat len) (drop (Z.to_nat skipstart) iobuf)), 0)).

(** ** A whole block *)
Definition sfs_blockio s (ino : Z) (u : buf_uio) (write : bool) : res (sfs_fs B * buf_uio * Z) :=
  let fileblock := u32 (bu_offset u / SFS_BLOCKSIZE) in
  let* (s, result, diskblock) := sfs_bmap s ino fileblock write in
  if negb (result =? 0) then Ok (s, u, result)
  else if diskblock =? 0 then kassert (negb write) (Ok (s, uio_put u zeros, 0))
  else
  let saveoff := bu_offset u in
  let diskoff := u32 (diskblock * SFS_BLOCKSIZE) in
  kassert (SFS_BLOCKSIZE <=? bu_resid u) (
  let saveres := bu_resid u in
  let diskres := SFS_BLOCKSIZE in
  let* (s, u, result) := sfs_rwblock s write (mkBu diskoff diskres (bu_data u)) in
  Ok (s, mkBu ((bu_offset u - diskoff) + saveoff) ((bu_resid u - diskres) + saveres) (bu_data u), result)).

Fixpoint io_blocks (k : nat) s (ino : Z) (u : buf_uio) (write : bool) : res (sfs_fs B * buf_uio * Z) :=
  match k with
  | O => Ok (s, u, 0)
  | S k =>
    let* (s, u, result) := sfs_blockio s ino u write in
    if negb (result =? 0) then Ok (s, u, result) else io_blocks k s ino u write
  end.

(** ** Any region *)

(** Up to the label out: the blocks. *)
Definition io_region s (ino : Z) (u : buf_uio) (write : bool) : res (sfs_fs B * buf_uio * Z) :=
  let blkoff := bu_offset u mod SFS_BLOCKSIZE in
  let* (s, u, result) :=
    if negb (blkoff =? 0) then
      let skip := blkoff in
      let len := SFS_BLOCKSIZE - blkoff in
      let len := if bu_resid u <? len then bu_resid u else len in
      sfs_partialio s ino u write skip len
    else Ok (s, u, 0) in
  if negb (result =? 0) then Ok (s, u, result)
  else if bu_resid u =? 0 then Ok (s, u, result)
  else
  kassert (bu_offset u mod SFS_BLOCKSIZE =? 0) (
  let nblocks := bu_resid u / SFS_BLOCKSIZE in
  let* (s, u, result) := io_blocks (Z.to_nat nblocks) s ino u write in
  if negb (result =? 0) then Ok (s, u, result)
  else
  kassert (bu_resid u <? SFS_BLOCKSIZE) (
  if 0 <? bu_resid u then sfs_partialio s ino u write 0 (bu_resid u)
  else Ok (s, u, result))).

(** From the label out. *)
Definition io_out s (ino : Z) (u : buf_uio) (write : bool) (origresid extraresid result : Z) : res (sfs_fs B * buf_uio * Z) :=
  let* sv := get_vnode s ino in
  let s := if negb (bu_resid u =? origresid) && write && (sfi_size (sv_i sv) <? bu_offset u)
           then with_vnode s ino (set_size sv (u32 (bu_offset u))) else s in
  Ok (s, mkBu (bu_offset u) (bu_resid u + extraresid) (bu_data u), result).

Definition sfs_io s (ino : Z) (u : buf_uio) (write : bool) : res (sfs_fs B * buf_uio * Z) :=
  let origresid := bu_resid u in
  if write then
    let* (s, u, result) := io_region s ino u write in io_out s ino u write origresid 0 result
  else
  let* sv := get_vnode s ino in
  let size := sfi_size (sv_i sv) in
  let endpos := bu_offset u + bu_resid u in
  if size <=? bu_offset u then Ok (s, u, 0)
  else if size <? endpos then
    let extraresid := u32 (endpos - size) in
    kassert (extraresid <? bu_resid u) (
    let* (s, u, result) := io_region s ino (mkBu (bu_offset u) (bu_resid u - extraresid) (bu_data u)) write in
    io_out s ino u write origresid extraresid result)
  else let* (s, u, result) := io_region s ino u write in io_out s ino u write origresid 0 result.
End Io.

(** * The bytes of a file *)

Section Bytes.
Context {B : Type} `{FreeMapLaws B}.
Implicit Types (s : sfs_fs B) (u : buf_uio).

Definition byte_at s (ino p : Z) : Z := default 0 (content s ino (p / SFS_BLOCKSIZE) !! Z.to_nat (p mod SFS_BLOCKSIZE)).

Lemma pos_split fb o : 0 <= o < SFS_BLOCKSIZE -> (fb * SFS_BLOCKSIZE + o) / SFS_BLOCKSIZE = fb /\ (fb * SFS_BLOCKSIZE + o) mod SFS_BLOCKSIZE = o.
Proof. unfold SFS_BLOCKSIZE. intros Ho. split; div_lia. Qed.

(** Some bytes of a block are some bytes of the file. *)
Lemma part_bytes s ino fb skip len :
  sfs_inv s -> 0 <= skip -> 0 <= len -> skip + len <= SFS_BLOCKSIZE ->
  part (content s ino fb) skip len = byte_at s ino <$> seqZ (fb * SFS_BLOCKSIZE + skip) len.
Proof.
  intros HI Hs Hl Hsl. destruct (content_good s ino fb HI) as [Hc _]. apply list_eq. intros k. unfold part. rewrite lookup_take, list_lookup_fmap.
  case_decide as Hk.
  - rewrite lookup_drop, lookup_seqZ_lt by lia. cbn. unfold byte_at. destruct (pos_split fb (skip + Z.of_nat k)) as [E1 E2]; [lia |].
    replace (fb * SFS_BLOCKSIZE + skip + Z.of_nat k) with (fb * SFS_BLOCKSIZE + (skip + Z.of_nat k)) by lia. rewrite E1, E2.
    replace (Z.to_nat (skip + Z.of_nat k)) with (Z.to_nat skip + k)%nat by lia.
    destruct (lookup_lt_is_Some_2 (content s ino fb) (Z.to_nat skip + k)) as [x ->]; [unfold zlen in Hc; lia | done].
  - symmetry. rewrite lookup_seqZ_ge by lia. done.
Qed.

(** ** Steps of a transfer *)

(** After [k] bytes: what the uio has become, and what has happened to the
    files. *)
Definition advanced u u' (k : Z) : Prop := bu_offset u' = bu_offset u + k /\ bu_resid u' = bu_resid u - k.

Record read_done s (ino : Z) u s' u' (k : Z) : Prop := {
  rd_unch : unchanged s s';
  rd_data : bu_data u' = bu_data u ++ (byte_at s ino <$> seqZ (bu_offset u) k);
  rd_adv : advanced u u' k
}.

Definition in_range (off k p : Z) : bool := (off <=? p) && (p <? off + k).

Record write_done s (ino : Z) u s' u' (k : Z) : Prop := {
  wd_inv : sfs_inv s';
  wd_attrs : forall i, attrs s' i = attrs s i;
  wd_nblocks : sb_nblocks s' = sb_nblocks s;
  wd_bytes : forall i p, 0 <= p -> byte_at s' i p =
    if (i =? ino) && in_range (bu_offset u) k p then default 0 (bu_data u !! Z.to_nat (p - bu_offset u)) else byte_at s i p;
  wd_data : bu_data u' = drop (Z.to_nat k) (bu_data u);
  wd_adv : advanced u u' k;
  wd_inodes : inodes_kept s s';
  wd_files : forall i f, i <> ino -> content s' i f = content s i f
}.

Definition io_done (write : bool) s (ino : Z) u s' u' (k : Z) : Prop :=
  if write then write_done s ino u s' u' k else read_done s ino u s' u' k.

Lemma byte_unchanged s s' i p : unchanged s s' -> byte_at s' i p = byte_at s i p.
Proof. intros HU. unfold byte_at. by rewrite (un_content _ _ HU). Qed.

Lemma io_done_none w s ino u s' : unchanged s s' -> io_done w s ino u s' u 0.
Proof.
  intros HU. unfold io_done, advanced. destruct w; split; try apply HU; try (split; lia); try done.
  - intros i p Hp. rewrite (byte_unchanged s s') by done. unfold in_range.
    destruct (Z.leb_spec (bu_offset u) p), (Z.ltb_spec p (bu_offset u + 0)); rewrite ?andb_false_r; try done. lia.
  - intros i f _. apply HU.
  - cbn. by rewrite app_nil_r.
Qed.

Lemma io_done_trans w s ino u s1 u1 k1 s2 u2 k2 :
  0 <= k1 -> 0 <= k2 -> io_done w s ino u s1 u1 k1 -> io_done w s1 ino u1 s2 u2 k2 -> io_done w s ino u s2 u2 (k1 + k2).
Proof.
  intros Hk1 Hk2. unfold io_done, advanced. destruct w.
  - intros [I1 A1 N1 B1 D1 [O1 R1] K1 F1] [I2 A2 N2 B2 D2 [O2 R2] K2 F2]. split; [done | | congruence | | | split; lia |
      eapply inodes_kept_trans; [ | exact K1 | exact K2]; intros i; by rewrite <- !attrs_loaded, A1 | intros i f Hne; rewrite F2 by done; by apply F1].
    + intros i. by rewrite A2.
    + intros i p Hp. rewrite B2, B1 by done. rewrite O1, D1. unfold in_range. destruct (Z.eqb_spec i ino); cbn [andb]; [ | done].
      destruct (Z.leb_spec (bu_offset u + k1) p), (Z.ltb_spec p (bu_offset u + k1 + k2)), (Z.leb_spec (bu_offset u) p),
        (Z.ltb_spec p (bu_offset u + k1)), (Z.ltb_spec p (bu_offset u + (k1 + k2))); cbn [andb]; try lia; try done.
      rewrite lookup_drop. do 2 f_equal. lia.
    + rewrite D2, D1, drop_drop. f_equal. lia.
  - intros [U1 D1 [O1 R1]] [U2 D2 [O2 R2]]. split; [by eapply unchanged_trans | | split; lia].
    rewrite D2, D1, O1, <- app_assoc. f_equal. rewrite seqZ_app by lia. rewrite fmap_app. f_equal.
    apply list_fmap_ext. intros _ p _. by apply byte_unchanged.
Qed.

(** What is known about a step that may fail: nothing is transferred then. *)
Definition io_error (w : bool) s u (r : Z) : Prop :=
  (r = EIO /\ rd_errors s <> []) \/ (r = ENOSPC /\ w = true) \/ (r = EFBIG /\ SFS_MAXBLOCKS * SFS_BLOCKSIZE < bu_offset u + bu_resid u).

Record uio_ok (w : bool) u : Prop := {
  uo_off : 0 <= bu_offset u /\ 0 <= bu_resid u /\ bu_offset u + bu_resid u < 2 ^ 32;
  uo_data : w = true -> zlen (bu_data u) = bu_resid u /\ Forall (fun b => 0 <= b < 2 ^ 8) (bu_data u)
}.

Lemma uio_ok_done w s ino u s' u' k : uio_ok w u -> 0 <= k <= bu_resid u -> io_done w s ino u s' u' k -> uio_ok w u'.
Proof.
  intros [Ho Hd] Hk HD. unfold io_done, advanced in HD. destruct w.
  - destruct HD as [_ _ _ _ D [O R] _ _]. split; [lia |]. intros _. destruct (Hd eq_refl) as [Hl Hb]. rewrite D. split.
    + unfold zlen in *. rewrite length_drop. lia.
    + by apply Forall_drop.
  - destruct HD as [_ _ [O R]]. split; [lia | done].
Qed.

(** A block of the file takes the bytes [bytes] at [skip]. *)
Lemma write_done_patch s s1 ino u l skip k bytes :
  unchanged s s1 -> let fb := bu_offset u / SFS_BLOCKSIZE in
  0 <= bu_offset u -> skip = bu_offset u mod SFS_BLOCKSIZE -> 0 <= k -> skip + k <= SFS_BLOCKSIZE -> k <= zlen (bu_data u) ->
  Forall (fun b => 0 <= b < 2 ^ 8) (bu_data u) -> bytes = take (Z.to_nat k) (bu_data u) ->
  block_at s1 (ino, SFile fb) <> 0 ->
  write_done s ino u (with_block (with_io s1 l) (block_at s1 (ino, SFile fb)) (patch (content s ino fb) skip bytes))
    (mkBu (bu_offset u + k) (bu_resid u - k) (drop (Z.to_nat k) (bu_data u))) k.
Proof.
  intros HU fb Ho Hskip Hk Hsk Hkd Hby Hbytes Hn.
  assert (Hs0 : 0 <= skip < SFS_BLOCKSIZE) by (subst skip; apply Z.mod_pos_bound; done).
  assert (Hoff : bu_offset u = fb * SFS_BLOCKSIZE + skip) by (unfold fb; rewrite Hskip, Z.mul_comm; by apply Z.div_mod).
  assert (Hlb : zlen bytes = k) by (subst bytes; unfold zlen in *; rewrite length_take; lia).
  pose proof (un_inv _ _ HU) as HI1. assert (Hc : content s1 ino fb = content s ino fb) by apply HU.
  destruct (content_good s1 ino fb HI1) as [Hcl Hcg]. rewrite Hc in Hcl, Hcg.
  assert (Hg : good_block (patch (content s ino fb) skip bytes)).
  { apply patch_good; [by split | lia | lia |]. subst bytes. by apply Forall_take. }
  destruct (data_written s1 ino fb _ l HI1 Hn Hg) as (HI2 & _ & Hc2 & Hk2).
  assert (Hk' : inodes_kept s (with_block (with_io s1 l) (block_at s1 (ino, SFile fb)) (patch (content s ino fb) skip bytes))).
  { eapply inodes_kept_trans; [ | apply HU | exact Hk2]. intros i. by rewrite <- !attrs_loaded, (un_attrs _ _ HU). }
  split; [done | intros i; apply HU | apply HU | | done | done | done |
    intros i f Hne; rewrite Hc2, decide_False by congruence; apply HU].
  intros i p Hp. unfold byte_at at 1. rewrite Hc2. unfold in_range. rewrite Hoff.
  pose proof (Z.div_mod p SFS_BLOCKSIZE ltac:(done)) as Hpm. pose proof (Z.mod_pos_bound p SFS_BLOCKSIZE ltac:(done)) as Hpb.
  set (q := p / SFS_BLOCKSIZE) in *. set (m := p mod SFS_BLOCKSIZE) in *.
  case_decide as E.
  - injection E as -> Hq. rewrite Z.eqb_refl. cbn [andb]. unfold patch, zlen in *. rewrite Hq in Hpm.
    destruct (Z.leb_spec (fb * SFS_BLOCKSIZE + skip) p), (Z.ltb_spec p (fb * SFS_BLOCKSIZE + skip + k)); cbn [andb]; try lia.
    + rewrite lookup_app_r by (rewrite length_take; lia). rewrite lookup_app_l by (rewrite length_take; lia). subst bytes.
      rewrite lookup_take_lt by (rewrite length_take; lia). do 2 f_equal. rewrite length_take. lia.
    + rewrite lookup_app_r by (rewrite length_take; lia). rewrite lookup_app_r by (rewrite length_take; lia). rewrite lookup_drop.
      rewrite <- (byte_unchanged s s1 ino p HU). unfold byte_at. fold q m. rewrite Hq, Hc. do 2 f_equal. rewrite length_take. lia.
    + rewrite lookup_app_l by (rewrite length_take; lia). rewrite lookup_take_lt by lia.
      rewrite <- (byte_unchanged s s1 ino p HU). unfold byte_at. fold q m. by rewrite Hq, Hc.
  - rewrite <- (byte_unchanged s s1 i p HU). unfold byte_at. fold q m.
    destruct (Z.eqb_spec i ino) as [-> | ]; [ | done]. cbn [andb]. assert (q <> fb) by congruence.
    destruct (Z.leb_spec (fb * SFS_BLOCKSIZE + skip) p), (Z.ltb_spec p (fb * SFS_BLOCKSIZE + skip + k)); cbn [andb]; try done. nia.
Qed.

(** ** Finding the block *)

Lemma bmap_io s ino sv u w :
  sfs_inv s -> sfs_vnodes s !! ino = Some sv -> uio_ok w u -> 0 < bu_resid u ->
  let fb := bu_offset u / SFS_BLOCKSIZE in
  exists s1 r b, sfs_bmap s ino (u32 fb) w = Ok (s1, r, b) /\ unchanged s s1 /\ (rd_errors s = [] -> rd_errors s1 = []) /\
    ((r <> 0 /\ io_error w s u r) \/ (r = 0 /\ b = block_at s1 (ino, SFile fb) /\ (w = true -> b <> 0))).
Proof.
  intros HI Hv [(Ho & Hr & Hsz) _] Hpos fb. assert (Hfb : 0 <= fb) by (apply Z.div_pos; done).
  assert (Hfo : fb * SFS_BLOCKSIZE <= bu_offset u) by (unfold fb; rewrite Z.mul_comm; by apply Z.mul_div_le).
  rewrite u32_id by (unfold is_u32, SFS_BLOCKSIZE in *; lia). destruct (Z_lt_ge_dec fb SFS_MAXBLOCKS) as [Hlt | Hge].
  - destruct (bmap_ok s ino sv fb w HI Hv) as (s1 & r & b & -> & [P1 P2 P3 P4 P5 P6 P7]); [lia |].
    exists s1, r, b. split; [done |]. split; [done |]. split; [by intros [? _]%P7 |].
    destruct P6 as [(-> & -> & Hn) | [(-> & -> & _) | ->]]; [by right | left | left].
    + split; [done |]. right. by left.
    + split; [done |]. left. split; [done |]. by intros [_ ?]%P7.
  - exists s, EFBIG, 0. rewrite bmap_toobig by lia. split; [done |]. split; [apply unchanged_same; [done | by apply same_refl] |]. split; [done |].
    left. split; [done |]. right. right. split; [done |]. unfold SFS_MAXBLOCKS, SFS_NDIRECT, SFS_NINDIRECT, SFS_DBPERIDB, SFS_BLOCKSIZE in *. lia.
Qed.

(** What reading the block means. *)
Lemma content_block s ino fb d : disk s !! block_at s (ino, SFile fb) = Some d -> block_at s (ino, SFile fb) <> 0 -> content s ino fb = d.
Proof. intros Hd Hn. unfold content. destruct (Z.eqb_spec (block_at s (ino, SFile fb)) 0); [done | by rewrite Hd]. Qed.

Lemma content_hole s ino fb : block_at s (ino, SFile fb) = 0 -> content s ino fb = zeros.
Proof. intros Hz. unfold content. by rewrite Hz. Qed.

Lemma read_done_part s s' ino u fb skip len :
  sfs_inv s -> unchanged s s' -> 0 <= skip -> 0 <= len <= bu_resid u -> skip + len <= SFS_BLOCKSIZE -> bu_offset u = fb * SFS_BLOCKSIZE + skip ->
  read_done s ino u s' (uio_put u (part (content s ino fb) skip len)) len.
Proof.
  intros HI HU Hs Hl Hsl Ho. destruct (content_good s ino fb HI) as [Hc _].
  assert (Hz : zlen (part (content s ino fb) skip len) = len) by (unfold part, zlen in *; rewrite length_take, length_drop; lia).
  unfold uio_put. rewrite Hz, Z.min_l by lia. split; [done | cbn | done]. rewrite take_ge by (unfold zlen in Hz; lia). rewrite Ho. f_equal.
  apply part_bytes; [done | done | lia | done].
Qed.

(** ** A part of a block *)

(** The outcome of a step that is to transfer [k] bytes. *)
Definition io_outcome (w : bool) s (ino : Z) u (k : Z) (x : res (sfs_fs B * buf_uio * Z)) : Prop :=
  exists s' u' r, x = Ok (s', u', r) /\ (rd_errors s = [] -> rd_errors s' = []) /\
    ((r = 0 /\ io_done w s ino u s' u' k) \/ (io_error w s u r /\ r <> 0 /\ io_done w s ino u s' u' 0)).

Lemma eio_error w s u : rd_errors s <> [] -> io_error w s u EIO /\ EIO <> 0.
Proof. intros Hne. split; [left; split; done | done]. Qed.

Lemma partialio_ok s ino sv u w skip len :
  sfs_inv s -> sfs_vnodes s !! ino = Some sv -> uio_ok w u -> skip = bu_offset u mod SFS_BLOCKSIZE -> 0 < len <= bu_resid u -> skip + len <= SFS_BLOCKSIZE ->
  io_outcome w s ino u len (sfs_partialio s ino u w skip len).
Proof.
  intros HI Hv Hu Hskip Hlen Hsl. unfold sfs_partialio, kassert at 1. destruct (Z.leb_spec (skip + len) SFS_BLOCKSIZE); [ | lia].
  destruct (bmap_io s ino sv u w HI Hv Hu) as (s1 & r & b & -> & HU & Hio & Hr); [lia |]. set (fb := bu_offset u / SFS_BLOCKSIZE) in *. cbn [rbind].
  assert (Hs0 : 0 <= skip < SFS_BLOCKSIZE) by (subst skip; apply Z.mod_pos_bound; done).
  assert (Hoff : bu_offset u = fb * SFS_BLOCKSIZE + skip) by (unfold fb; rewrite Hskip, Z.mul_comm; by apply Z.div_mod).
  destruct Hr as [[Hr He] | (-> & -> & Hw)].
  { destruct (Z.eqb_spec r 0); [done |]. cbn [negb]. exists s1, u, r. split; [done |]. split; [done |]. right. split; [done |]. split; [done |]. by apply io_done_none. }
  cbn [negb Z.eqb]. destruct (Z.eqb_spec (block_at s1 (ino, SFile fb)) 0) as [Hz | Hn].
  - destruct w; [by destruct (Hw eq_refl) |]. cbn [kassert negb rbind Z.eqb]. rewrite <- (content_hole s1 ino fb Hz), (un_content _ _ HU).
    eexists _, _, 0. split; [done |]. split; [done |]. left. split; [done |]. apply read_done_part; [done | done | lia | lia | lia | done].
  - destruct (read_block_at s1 (ino, SFile fb)) as (l & r & d & -> & Hr & Hio1); [apply HU | done |]. cbn [rbind].
    assert (HUl : unchanged s (with_io s1 l)) by (eapply unchanged_trans; [exact HU | apply unchanged_io, HU]).
    assert (Hio2 : rd_errors s = [] -> l = [] /\ r = 0) by (intros Hs%Hio; by destruct (Hio1 Hs)).
    destruct Hr as [[-> Hd] | ->].
    2: { change (negb (EIO =? 0)) with true. cbv iota. exists (with_io s1 l), u, EIO. split; [done |]. split; [by intros [? _]%Hio2 |]. right.
         destruct (eio_error w s u) as [He Hne]; [by intros [_ ?]%Hio2 |]. split; [done |]. split; [done |]. by apply io_done_none. }
    cbn [negb Z.eqb]. assert (Hc : d = content s ino fb) by (rewrite <- (un_content _ _ HU); symmetry; by apply content_block). rewrite Hc. destruct w.
    + destruct (uo_data _ _ Hu eq_refl) as [Hdl Hdb]. unfold uio_get. rewrite Z.min_l by lia. cbn [bu_offset bu_resid bu_data].
      set (bytes := take (Z.to_nat len) (bu_data u)). fold (patch (content s ino fb) skip bytes).
      pose proof (write_done_patch s (with_io s1 l) ino u l skip len bytes HUl) as HW. cbv zeta in HW. fold fb in HW.
      specialize (HW ltac:(destruct (uo_off _ _ Hu); lia) Hskip ltac:(lia) Hsl ltac:(lia) Hdb eq_refl Hn).
      assert (Hg : zlen (patch (content s ino fb) skip bytes) = SFS_BLOCKSIZE).
      { destruct (content_good s ino fb HI) as [Hcl _]. unfold patch, bytes, zlen in *. rewrite !length_app, !length_take, length_drop. lia. }
      destruct (sv_used _ (un_inv _ _ HU) (ino, SFile fb) Hn) as [Hrange _].
      rewrite writeblock_ok; [ | apply (sv_vol _ (un_inv _ _ HUl)) | cbn; lia | done]. cbn [rbind].
      eexists _, _, 0. split; [done |]. split; [by intros [-> _]%Hio2 |]. left. split; [done |]. exact HW.
    + eexists _, _, 0. split; [done |]. split; [by intros [? _]%Hio2 |]. left. split; [done |].
      apply read_done_part; [done | done | lia | lia | lia | done].
Qed.

(** ** A whole block *)

(** The volumes whose last byte has a 32-bit offset. *)
Definition small_volume s : Prop := sb_nblocks s <= 2 ^ 23.

Lemma blockio_ok s ino sv u w :
  sfs_inv s -> small_volume s -> sfs_vnodes s !! ino = Some sv -> uio_ok w u -> bu_offset u mod SFS_BLOCKSIZE = 0 -> SFS_BLOCKSIZE <= bu_resid u ->
  io_outcome w s ino u SFS_BLOCKSIZE (sfs_blockio s ino u w).
Proof.
  intros HI Hsm Hv Hu Hal Hlen. unfold sfs_blockio.
  destruct (bmap_io s ino sv u w HI Hv Hu) as (s1 & r & b & -> & HU & Hio & Hr); [unfold SFS_BLOCKSIZE in *; lia |].
  set (fb := bu_offset u / SFS_BLOCKSIZE) in *. cbn [rbind].
  assert (Hoff : bu_offset u = fb * SFS_BLOCKSIZE + 0) by (unfold fb; rewrite <- Hal, Z.mul_comm; by apply Z.div_mod).
  destruct (content_good s ino fb HI) as [Hcl _].
  assert (Hwhole : part (content s ino fb) 0 SFS_BLOCKSIZE = content s ino fb).
  { unfold part. change (Z.to_nat 0) with 0%nat. rewrite drop_0, take_ge; [done |]. unfold zlen, SFS_BLOCKSIZE in *. lia. }
  destruct Hr as [[Hr He] | (-> & -> & Hw)].
  { destruct (Z.eqb_spec r 0); [done |]. cbn [negb]. exists s1, u, r. split; [done |]. split; [done |]. right. split; [done |]. split; [done |]. by apply io_done_none. }
  cbn [negb Z.eqb]. destruct (Z.eqb_spec (block_at s1 (ino, SFile fb)) 0) as [Hz | Hn].
  - destruct w; [by destruct (Hw eq_refl) |]. cbn [kassert negb]. eexists _, _, 0. split; [done |]. split; [done |]. left. split; [done |].
    rewrite <- (content_hole s1 ino fb Hz), (un_content _ _ HU). rewrite <- Hwhole. apply read_done_part; [done | done | done | split; done | done | done].
  - destruct (sv_used _ (un_inv _ _ HU) (ino, SFile fb) Hn) as [Hrange _]. unfold small_volume in Hsm. rewrite (un_nblocks _ _ HU) in Hrange.
    rewrite u32_id by (unfold is_u32, SFS_BLOCKSIZE; lia). unfold kassert. destruct (Z.leb_spec SFS_BLOCKSIZE (bu_resid u)); [ | lia].
    set (b := block_at s1 (ino, SFile fb)) in *. pose proof (un_nblocks _ _ HU) as Hnb. destruct w.
    + destruct (uo_data _ _ Hu eq_refl) as [Hdl Hdb]. rewrite rw_write_ok; [ | apply (sv_vol _ (un_inv _ _ HU)) | lia]. cbn [rbind bu_offset bu_resid bu_data].
      eexists _, _, 0. split; [done |]. split; [done |]. left. split; [done |].
      pose proof (write_done_patch s s1 ino u (rd_errors s1) 0 SFS_BLOCKSIZE (take 512 (bu_data u)) HU) as HW. cbv zeta in HW. fold fb b in HW.
      assert (Hpatch : patch (content s ino fb) 0 (take 512 (bu_data u)) = take 512 (bu_data u)).
      { unfold patch, zlen in *. cbn [Z.to_nat take app]. rewrite drop_ge; [by rewrite app_nil_r |]. rewrite length_take. unfold SFS_BLOCKSIZE in *. lia. }
      rewrite Hpatch in HW. replace ((b + 1) * SFS_BLOCKSIZE - b * SFS_BLOCKSIZE + bu_offset u) with (bu_offset u + SFS_BLOCKSIZE) by lia.
      replace (0 - SFS_BLOCKSIZE + bu_resid u) with (bu_resid u - SFS_BLOCKSIZE) by lia.
      apply HW; [destruct (uo_off _ _ Hu); lia | by symmetry | done | done | lia | done | done | done].
    + destruct (inv_block s1 (ino, SFile fb) (un_inv _ _ HU) Hn) as (d & Hd & _). fold b in Hd.
      destruct (rw_read_ok s1 b d (bu_data u)) as (l & r & u' & -> & Hr & Hio1); [apply (sv_vol _ (un_inv _ _ HU)) | lia | done |]. cbn [rbind].
      assert (HUl : unchanged s (with_io s1 l)) by (eapply unchanged_trans; [exact HU | apply unchanged_io, HU]).
      assert (Hio2 : rd_errors s = [] -> l = [] /\ r = 0) by (intros Hs%Hio; by destruct (Hio1 Hs)).
      eexists _, _, r. split; [done |]. split; [by intros [? _]%Hio2 |]. destruct Hr as [[-> ->] | [-> ->]]; cbn [bu_offset bu_resid bu_data].
      * left. split; [done |]. assert (Hc : d = content s ino fb) by (rewrite <- (un_content _ _ HU); symmetry; by apply content_block).
        pose proof (read_done_part s (with_io s1 l) ino u fb 0 SFS_BLOCKSIZE HI HUl) as HR. rewrite Hwhole, <- Hc in HR. unfold uio_put in HR.
        rewrite Hc, Hcl, Z.min_l, take_ge in HR by (done || (unfold zlen in Hcl; lia)). rewrite Hc.
        replace ((b + 1) * SFS_BLOCKSIZE - b * SFS_BLOCKSIZE + bu_offset u) with (bu_offset u + SFS_BLOCKSIZE) by lia.
        replace (0 - SFS_BLOCKSIZE + bu_resid u) with (bu_resid u - SFS_BLOCKSIZE) by lia. apply HR; [done | split; done | done | done].
      * right. destruct (eio_error false s u) as [He Hne]; [by intros [_ ?]%Hio2 |]. split; [done |]. split; [done |].
        replace (mkBu _ _ _) with u by (destruct u; cbn; f_equal; lia). by apply io_done_none.
Qed.

(** ** Steps in sequence *)

(** What every step needs, and finds again. *)
Record ready (w : bool) s (ino : Z) u : Prop := {
  ry_inv : sfs_inv s;
  ry_small : small_volume s;
  ry_vnode : is_Some (sfs_vnodes s !! ino);
  ry_uio : uio_ok w u
}.

Lemma io_done_attrs w s ino u s' u' k : io_done w s ino u s' u' k -> sfs_inv s' /\ (forall i, attrs s' i = attrs s i) /\ sb_nblocks s' = sb_nblocks s.
Proof.
  unfold io_done. destruct w; intros HD; [split; [apply HD | split; apply HD] |]. destruct HD as [HU _ _]. split; [apply HU | split; apply HU].
Qed.

Lemma io_done_adv w s ino u s' u' k : io_done w s ino u s' u' k -> advanced u u' k.
Proof. unfold io_done. destruct w; intros HD; apply HD. Qed.

Lemma ready_done w s ino u s' u' k : ready w s ino u -> 0 <= k <= bu_resid u -> io_done w s ino u s' u' k -> ready w s' ino u'.
Proof.
  intros [HI Hsm [sv Hv] Hu] Hk HD. destruct (io_done_attrs _ _ _ _ _ _ _ HD) as (HI' & Ha & Hn). split; [done | | | by eapply uio_ok_done].
  - unfold small_volume. by rewrite Hn.
  - specialize (Ha ino). unfold attrs in Ha. rewrite Hv in Ha. destruct (sfs_vnodes s' !! ino); [by eexists | done].
Qed.

Lemma io_error_back w s u s1 u1 k r :
  (rd_errors s = [] -> rd_errors s1 = []) -> advanced u u1 k -> io_error w s1 u1 r -> io_error w s u r.
Proof.
  intros Hio [Ho Hr] [[-> Hne] | [Hns | [-> Hbig]]]; [left; split; auto | by right; left | right; right]. split; [done |]. rewrite Ho, Hr in Hbig. lia.
Qed.

(** At most [k] bytes are transferred, and all of them unless there is an
    error. *)
Definition io_result (w : bool) s (ino : Z) u (k : Z) (x : res (sfs_fs B * buf_uio * Z)) : Prop :=
  exists s' u' r j, x = Ok (s', u', r) /\ (rd_errors s = [] -> rd_errors s' = []) /\ 0 <= j <= k /\ io_done w s ino u s' u' j /\
    ((r = 0 /\ j = k) \/ (r <> 0 /\ io_error w s u r)).

Lemma outcome_result w s ino u k x : 0 <= k -> io_outcome w s ino u k x -> io_result w s ino u k x.
Proof.
  intros Hk (s' & u' & r & E & Hio & [[-> HD] | (He & Hne & HD)]); [exists s', u', 0, k | exists s', u', r, 0]; (split; [done |]; split; [done |]).
  - split; [lia |]. split; [done |]. by left.
  - split; [lia |]. split; [done |]. by right.
Qed.

Lemma result_none w s ino u : sfs_inv s -> io_result w s ino u 0 (Ok (s, u, 0)).
Proof.
  intros HI. exists s, u, 0, 0. split; [done |]. split; [done |]. split; [lia |]. split; [ | by left].
  apply io_done_none, unchanged_same; [done | by apply same_refl].
Qed.

Lemma result_bind w s ino u k1 k2 x f :
  io_result w s ino u k1 x -> 0 <= k2 ->
  (forall s1 u1, io_done w s ino u s1 u1 k1 -> io_result w s1 ino u1 k2 (f s1 u1 0)) ->
  io_result w s ino u (k1 + k2) (let* (s, u, r) := x in if negb (r =? 0) then Ok (s, u, r) else f s u r).
Proof.
  intros (s1 & u1 & r & j & -> & Hio & Hj & HD & Hr) Hk2 Hf. cbn [rbind]. destruct Hr as [[-> ->] | [Hne He]].
  - cbn [negb Z.eqb]. destruct (Hf s1 u1 HD) as (s2 & u2 & r & j & -> & Hio2 & Hj2 & HD2 & Hr).
    exists s2, u2, r, (k1 + j). split; [done |]. split; [auto |]. split; [lia |]. split; [eapply io_done_trans; [lia | lia | done | done] |].
    destruct Hr as [[-> ->] | [Hne He]]; [by left | right; split; [done |]]. eapply io_error_back; [exact Hio | by eapply io_done_adv | done].
  - destruct (Z.eqb_spec r 0); [done |]. cbn [negb]. exists s1, u1, r, j. split; [done |]. split; [done |]. split; [lia |]. split; [done |]. by right.
Qed.

Lemma io_blocks_ok k s ino u w :
  ready w s ino u -> bu_offset u mod SFS_BLOCKSIZE = 0 -> Z.of_nat k * SFS_BLOCKSIZE <= bu_resid u ->
  io_result w s ino u (Z.of_nat k * SFS_BLOCKSIZE) (io_blocks k s ino u w).
Proof.
  revert s u. induction k as [ | k IH]; intros s u HR Hal Hk.
  { cbn [io_blocks]. replace (Z.of_nat 0 * SFS_BLOCKSIZE) with 0 by lia. apply result_none, HR. }
  cbn [io_blocks]. replace (Z.of_nat (S k) * SFS_BLOCKSIZE) with (SFS_BLOCKSIZE + Z.of_nat k * SFS_BLOCKSIZE) by lia.
  unfold SFS_BLOCKSIZE in Hk. pose proof HR as [HI Hsm [sv Hv] Hu]. apply (result_bind w s ino u SFS_BLOCKSIZE (Z.of_nat k * SFS_BLOCKSIZE) (sfs_blockio s ino u w) (fun s u _ => io_blocks k s ino u w)).
  - apply outcome_result; [done |]. apply (blockio_ok s ino sv); try done. unfold SFS_BLOCKSIZE. lia.
  - unfold SFS_BLOCKSIZE. lia.
  - intros s1 u1 HD. destruct (io_done_adv _ _ _ _ _ _ _ HD) as [Ho Hr]. apply IH.
    + eapply ready_done; [done | | done]. unfold SFS_BLOCKSIZE. lia.
    + rewrite Ho. unfold SFS_BLOCKSIZE in *. div_lia.
    + rewrite Hr. unfold SFS_BLOCKSIZE. lia.
Qed.

(** After the leading part. *)
Lemma io_aligned_ok s ino u w :
  ready w s ino u -> bu_offset u mod SFS_BLOCKSIZE = 0 ->
  io_result w s ino u (bu_resid u)
    (let* (s, u, result) := io_blocks (Z.to_nat (bu_resid u / SFS_BLOCKSIZE)) s ino u w in
     if negb (result =? 0) then Ok (s, u, result)
     else kassert (bu_resid u <? SFS_BLOCKSIZE) (if 0 <? bu_resid u then sfs_partialio s ino u w 0 (bu_resid u) else Ok (s, u, result))).
Proof.
  intros HR Hal. destruct (uo_off _ _ (ry_uio _ _ _ _ HR)) as (Ho & Hr & _).
  pose proof (Z.div_mod (bu_resid u) SFS_BLOCKSIZE ltac:(done)) as Hdm. pose proof (Z.mod_pos_bound (bu_resid u) SFS_BLOCKSIZE ltac:(done)) as Hmb.
  assert (Hq : 0 <= bu_resid u / SFS_BLOCKSIZE) by (apply Z.div_pos; done). set (q := bu_resid u / SFS_BLOCKSIZE) in *. set (m := bu_resid u mod SFS_BLOCKSIZE) in *.
  assert (Hn : Z.of_nat (Z.to_nat q) = q) by lia. replace (io_result w s ino u (bu_resid u)) with (io_result w s ino u (Z.of_nat (Z.to_nat q) * SFS_BLOCKSIZE + m)) by (f_equal; lia).
  apply (result_bind w s ino u _ m (io_blocks (Z.to_nat q) s ino u w)
    (fun s u r => kassert (bu_resid u <? SFS_BLOCKSIZE) (if 0 <? bu_resid u then sfs_partialio s ino u w 0 (bu_resid u) else Ok (s, u, r)))).
  - apply io_blocks_ok; [done | done | lia].
  - lia.
  - intros s1 u1 HD. destruct (io_done_adv _ _ _ _ _ _ _ HD) as [Ho1 Hr1]. assert (Hm : bu_resid u1 = m) by lia.
    assert (HR1 : ready w s1 ino u1) by (eapply ready_done; [done | | done]; unfold SFS_BLOCKSIZE in *; lia). rewrite Hm. unfold kassert. destruct (Z.ltb_spec m SFS_BLOCKSIZE); [ | lia].
    destruct (Z.ltb_spec 0 m).
    + pose proof HR1 as [HI1 _ [sv1 Hv1] Hu1]. apply outcome_result; [lia |]. apply (partialio_ok s1 ino sv1); try done; [ | lia | lia].
      rewrite Ho1, Z.mod_add by done. by symmetry.
    + replace m with 0 by lia. apply result_none, HR1.
Qed.

Lemma io_region_ok s ino u w : ready w s ino u -> 0 < bu_resid u -> io_result w s ino u (bu_resid u) (io_region s ino u w).
Proof.
  intros HR Hpos. destruct (uo_off _ _ (ry_uio _ _ _ _ HR)) as (Ho & Hr & _). pose proof HR as [HI Hsm [sv Hv] Hu].
  pose proof (Z.mod_pos_bound (bu_offset u) SFS_BLOCKSIZE ltac:(done)) as Hmb. unfold io_region. set (off := bu_offset u mod SFS_BLOCKSIZE) in *.
  set (len := if bu_resid u <? SFS_BLOCKSIZE - off then bu_resid u else SFS_BLOCKSIZE - off).
  assert (Hlen : 0 <= len <= bu_resid u /\ off + len <= SFS_BLOCKSIZE) by (unfold len; destruct (Z.ltb_spec (bu_resid u) (SFS_BLOCKSIZE - off)); lia).
  set (first := if negb (off =? 0) then len else 0). replace (io_result w s ino u (bu_resid u)) with (io_result w s ino u (first + (bu_resid u - first))) by (f_equal; lia).
  apply (result_bind w s ino u first (bu_resid u - first) _ (fun s u r => if bu_resid u =? 0 then Ok (s, u, r) else
    kassert (bu_offset u mod SFS_BLOCKSIZE =? 0) (
    let* (s, u, result) := io_blocks (Z.to_nat (bu_resid u / SFS_BLOCKSIZE)) s ino u w in
     if negb (result =? 0) then Ok (s, u, result)
     else kassert (bu_resid u <? SFS_BLOCKSIZE) (if 0 <? bu_resid u then sfs_partialio s ino u w 0 (bu_resid u) else Ok (s, u, result))))).
  - unfold first. destruct (Z.eqb_spec off 0) as [Hz | Hz]; cbn [negb]; [by apply result_none |]. apply outcome_result; [lia |].
    apply (partialio_ok s ino sv); try done; [ | lia]. unfold len. destruct (Z.ltb_spec (bu_resid u) (SFS_BLOCKSIZE - off)); lia.
  - unfold first. destruct (negb (off =? 0)); lia.
  - intros s1 u1 HD. destruct (io_done_adv _ _ _ _ _ _ _ HD) as [Ho1 Hr1].
    assert (Hfirst : 0 <= first <= bu_resid u) by (unfold first; destruct (negb (off =? 0)); lia).
    assert (HR1 : ready w s1 ino u1) by (eapply ready_done; [done | | done]; lia). rewrite <- Hr1.
    destruct (Z.eqb_spec (bu_resid u1) 0) as [Hz | Hnz]; [rewrite Hz; apply result_none, HR1 |].
    assert (Hal : bu_offset u1 mod SFS_BLOCKSIZE = 0).
    { rewrite Ho1. unfold first in *. destruct (Z.eqb_spec off 0) as [Hz | Hz]; cbn [negb] in *; [by rewrite Z.add_0_r |].
      assert (Hle : len = SFS_BLOCKSIZE - off) by (unfold len in *; destruct (Z.ltb_spec (bu_resid u) (SFS_BLOCKSIZE - off)); lia).
      rewrite Hle. unfold off, SFS_BLOCKSIZE in *. div_lia. }
    rewrite Hal. cbn [kassert Z.eqb]. by apply io_aligned_ok.
Qed.

(** ** sfs_io *)

Lemma byte_at_size s ino sv n i p : sfs_inv s -> sfs_vnodes s !! ino = Some sv -> byte_at (with_vnode s ino (set_size sv (u32 n))) i p = byte_at s i p.
Proof. intros HI Hv. unfold byte_at. destruct (size_set s ino sv n HI Hv) as (_ & _ & Hc). by rewrite Hc. Qed.

(** How many bytes a read is to deliver. *)
Definition readable (size : Z) u : Z := Z.max 0 (Z.min (bu_resid u) (size - bu_offset u)).

Lemma io_out_read s ino sv u origresid extra r :
  sfs_vnodes s !! ino = Some sv ->
  io_out s ino u false origresid extra r = Ok (s, mkBu (bu_offset u) (bu_resid u + extra) (bu_data u), r).
Proof. intros Hv. unfold io_out, get_vnode. rewrite Hv. cbn [access rbind]. by rewrite andb_false_r. Qed.

Lemma io_read_region s ino u extra :
  ready false s ino u -> 0 < bu_resid u ->
  exists s' u' r k,
    (let* (s1, u1, result) := io_region s ino u false in io_out s1 ino u1 false (bu_resid u + extra) extra result) = Ok (s', u', r) /\
    unchanged s s' /\ 0 <= k <= bu_resid u /\ bu_data u' = bu_data u ++ (byte_at s ino <$> seqZ (bu_offset u) k) /\
    bu_offset u' = bu_offset u + k /\ bu_resid u' = bu_resid u + extra - k /\ ((r = 0 /\ k = bu_resid u) \/ (r <> 0 /\ io_error false s u r)).
Proof.
  intros HR Hpos. destruct (io_region_ok s ino u false HR Hpos) as (s1 & u1 & r & k & -> & _ & Hk & HD & Hr). cbn [rbind].
  destruct (ry_vnode _ _ _ _ (ready_done _ _ _ _ _ _ _ HR Hk HD)) as [sv1 Hv1]. rewrite (io_out_read s1 ino sv1) by done.
  destruct HD as [HU HDd [Ho Hre]]. eexists s1, _, r, k. split; [done |]. split; [done |]. split; [done |]. split; [done |]. cbn. split; [done |].
  split; [lia | done].
Qed.

Lemma sfs_read_ok s ino sv u :
  ready false s ino u -> sfs_vnodes s !! ino = Some sv -> 0 <= sfi_size (sv_i sv) -> 0 < bu_resid u ->
  exists s' u' r k, sfs_io s ino u false = Ok (s', u', r) /\ unchanged s s' /\
    bu_data u' = bu_data u ++ (byte_at s ino <$> seqZ (bu_offset u) k) /\ advanced u u' k /\ 0 <= k <= readable (sfi_size (sv_i sv)) u /\
    ((r = 0 /\ k = readable (sfi_size (sv_i sv)) u) \/ (r = EIO /\ rd_errors s <> []) \/ (r = EFBIG /\ SFS_MAXBLOCKS * SFS_BLOCKSIZE < sfi_size (sv_i sv))).
Proof.
  intros HR Hv Hsz Hpos. unfold sfs_io, get_vnode. rewrite Hv. cbn [access rbind]. set (size := sfi_size (sv_i sv)) in *. unfold readable, advanced.
  destruct (uo_off _ _ (ry_uio _ _ _ _ HR)) as (Ho & Hr & Hb). destruct (Z.leb_spec size (bu_offset u)) as [Heof | Heof].
  { exists s, u, 0, 0. split; [done |]. split; [apply unchanged_same; [apply HR | apply same_refl, HR] |]. split; [cbn; by rewrite app_nil_r |].
    split; [split; lia |]. split; [lia |]. left. split; [done | lia]. }
  assert (Hres : forall v extra, v = mkBu (bu_offset u) (bu_resid u - extra) (bu_data u) -> 0 <= extra < bu_resid u -> bu_offset u + (bu_resid u - extra) <= size ->
    ready false s ino v).
  { intros v extra -> He _. split; try apply HR. split; [cbn; lia | done]. }
  destruct (Z.ltb_spec size (bu_offset u + bu_resid u)) as [Hpart | Hfull].
  - rewrite u32_id by (unfold is_u32; lia). set (extra := bu_offset u + bu_resid u - size). unfold kassert. destruct (Z.ltb_spec extra (bu_resid u)); [ | lia].
    destruct (io_read_region s ino (mkBu (bu_offset u) (bu_resid u - extra) (bu_data u)) extra) as (s' & u' & r & k & E & HU & Hk & Hd & Ho' & Hr' & Hx).
    { apply (Hres _ extra); [done | lia | lia]. }
    { cbn. lia. }
    cbn [bu_resid bu_offset bu_data] in *. replace (bu_resid u - extra + extra) with (bu_resid u) in * by lia.
    exists s', u', r, k. split; [done |]. split; [done |]. split; [done |]. split; [split; lia |]. split; [lia |].
    destruct Hx as [[-> ->] | [_ [? | [[_ ?] | [-> Hbig]]]]]; [left; split; [done | lia] | by right; left | done |].
    right. right. split; [done |]. cbn in Hbig. lia.
  - destruct (io_read_region s ino u 0) as (s' & u' & r & k & E & HU & Hk & Hd & Ho' & Hr' & Hx); [done | done |].
    rewrite Z.add_0_r in *. exists s', u', r, k. split; [done |]. split; [done |]. split; [done |]. split; [split; lia |]. split; [lia |].
    destruct Hx as [[-> ->] | [_ [? | [[_ ?] | [-> Hbig]]]]]; [left; split; [done | lia] | by right; left | done |].
    right. right. split; [done |]. lia.
Qed.

Lemma sfs_write_ok s ino sv u :
  ready true s ino u -> sfs_vnodes s !! ino = Some sv -> 0 < bu_resid u ->
  exists s' u' r k, sfs_io s ino u true = Ok (s', u', r) /\ sfs_inv s' /\ 0 <= k <= bu_resid u /\
    (forall i p, 0 <= p -> byte_at s' i p =
      if (i =? ino) && in_range (bu_offset u) k p then default 0 (bu_data u !! Z.to_nat (p - bu_offset u)) else byte_at s i p) /\
    (forall i, attrs s' i = if (i =? ino) && (0 <? k) then (fun a => (Z.max a.1.1 (bu_offset u + k), a.1.2, a.2)) <$> attrs s i else attrs s i) /\
    bu_data u' = drop (Z.to_nat k) (bu_data u) /\ advanced u u' k /\ ((r = 0 /\ k = bu_resid u) \/ (r <> 0 /\ io_error true s u r)) /\
    inodes_kept s s' /\ (forall i f, i <> ino -> content s' i f = content s i f) /\ sb_nblocks s' = sb_nblocks s.
Proof.
  intros HR Hv Hpos. destruct (uo_off _ _ (ry_uio _ _ _ _ HR)) as (Ho & Hr & Hb). unfold sfs_io.
  destruct (io_region_ok s ino u true HR Hpos) as (s1 & u1 & r & k & -> & _ & Hk & HD & Hres). cbn [rbind].
  destruct (ry_vnode _ _ _ _ (ready_done _ _ _ _ _ _ _ HR Hk HD)) as [sv1 Hv1]. destruct HD as [HI1 Ha1 Hn1 Hb1 Hd1 [Ho1 Hr1] Hk1 Hf1].
  unfold io_out, get_vnode. rewrite Hv1. cbn [access rbind]. rewrite andb_true_r.
  pose proof (attrs_Some s s1 ino sv1 (Ha1 ino) Hv1) as Hat.
  set (grow := negb (bu_resid u1 =? bu_resid u) && (sfi_size (sv_i sv1) <? bu_offset u1)).
  eexists _, _, r, k. split; [done |].
  assert (Hfin : sfs_inv (if grow then with_vnode s1 ino (set_size sv1 (u32 (bu_offset u1))) else s1) /\
    (forall i p, byte_at (if grow then with_vnode s1 ino (set_size sv1 (u32 (bu_offset u1))) else s1) i p = byte_at s1 i p)).
  { destruct grow; [ | done]. split; [by apply size_set |]. intros i p. by apply byte_at_size. }
  destruct Hfin as [HIf Hbf]. split; [done |]. split; [done |]. split; [intros i p Hp; rewrite Hbf; by apply Hb1 |]. split.
  - intros i. destruct (Z.eqb_spec i ino) as [-> | Hne]; cbn [andb].
    + rewrite Hat. unfold grow. destruct (Z.eqb_spec (bu_resid u1) (bu_resid u)), (Z.ltb_spec (sfi_size (sv_i sv1)) (bu_offset u1)), (Z.ltb_spec 0 k);
        try lia; unfold attrs; cbn; rewrite ?lookup_insert_eq, ?Hv1; cbn; rewrite ?u32_id by (unfold is_u32; lia); do 3 f_equal; lia.
    + rewrite <- Ha1. unfold attrs. destruct grow; [ | done]. cbn. by rewrite lookup_insert_ne.
  - cbn. split; [done |]. split; [split; cbn; lia |]. split; [done |]. split; [by destruct grow |]. split; [ | by destruct grow].
    intros i f Hne. rewrite <- (Hf1 i f Hne). destruct grow; [ | done]. by apply (size_set s1 ino sv1 (bu_offset u1)).
Qed.
End Bytes.

(** Reading a file.  sfs_io never panics; it appends to the buffer the
    bytes of the file from the offset on, as many as there are room for and
    the size of the file allows, and moves the offset and the residue by that
    many; when a disk read fails it returns EIO, and what has been delivered by
    then is a correct beginning.  No file changes. *)
Theorem sfs_read_delivers {B} `{FreeMapLaws B} (s : sfs_fs B) ino sv u :
  ready false s ino u -> sfs_vnodes s !! ino = Some sv -> 0 <= sfi_size (sv_i sv) -> 0 < bu_resid u ->
  exists s' u' r k, sfs_io s ino u false = Ok (s', u', r) /\ unchanged s s' /\
    bu_data u' = bu_data u ++ (byte_at s ino <$> seqZ (bu_offset u) k) /\ advanced u u' k /\ 0 <= k <= readable (sfi_size (sv_i sv)) u /\
    ((r = 0 /\ k = readable (sfi_size (sv_i sv)) u) \/ (r = EIO /\ rd_errors s <> []) \/ (r = EFBIG /\ SFS_MAXBLOCKS * SFS_BLOCKSIZE < sfi_size (sv_i sv))).
Proof. apply sfs_read_ok. Qed.

Lemma demo_ready w u : uio_ok w u -> ready w (demo [] []) 3 u.
Proof. intros Hu. split; [apply demo_volume_inv | unfold small_volume; cbn; lia | by eexists | done]. Qed.

Lemma sfs_read_delivers_witness :
  exists s' u', sfs_io (demo [] []) 3 (mkBu 8690 100 []) false = Ok (s', u', 0) /\ unchanged (demo [] []) s' /\ bu_data u' = repeat 0 10.
Proof.
  destruct (sfs_read_delivers (demo [] []) 3 demo_file (mkBu 8690 100 [])) as (s' & u' & r & k & E & HU & Hd & _);
    [apply demo_ready; split; [cbn; lia | done] | reflexivity | cbn; lia | cbn; lia |].
  exists s', u'. assert (r = 0 /\ bu_data u' = repeat 0 10) as [-> ->]; [vm_compute in E; injection E as _ <- <-; split; reflexivity |].
  split; [exact E |]. split; [exact HU | reflexivity].
Defined.

(** C13: writing a file, on a disk on which no write fails ([write_error_swallowed]
    in file Sfs is what happens otherwise; reads may fail), with memory that can
    be read, below 2^32 and on a volume of at most 2^23 blocks ([ready]).
    Sfs_io replaces exactly the bytes it has moved: the first [k] bytes of the
    buffer are in the file from the offset on, all other bytes of this and of
    every other file are as before, the size has grown to the end of what was
    written if that is further, and the buffer, the offset and the residue have
    moved on by [k].  All of it is written unless there is no room, the file
    would get too big, or a disk read fails. *)
Theorem sfs_write_replaces {B} `{FreeMapLaws B} (s : sfs_fs B) ino sv u :
  ready true s ino u -> sfs_vnodes s !! ino = Some sv -> 0 < bu_resid u ->
  exists s' u' r k, sfs_io s ino u true = Ok (s', u', r) /\ sfs_inv s' /\ 0 <= k <= bu_resid u /\
    (forall i p, 0 <= p -> byte_at s' i p =
      if (i =? ino) && in_range (bu_offset u) k p then default 0 (bu_data u !! Z.to_nat (p - bu_offset u)) else byte_at s i p) /\
    (forall i, attrs s' i = if (i =? ino) && (0 <? k) then (fun a => (Z.max a.1.1 (bu_offset u + k), a.1.2, a.2)) <$> attrs s i else attrs s i) /\
    bu_data u' = drop (Z.to_nat k) (bu_data u) /\ advanced u u' k /\ ((r = 0 /\ k = bu_resid u) \/ (r <> 0 /\ io_error true s u r)).
Proof.
  intros HR Hv Hp. destruct (sfs_write_ok s ino sv u HR Hv Hp) as (s' & u' & r & k & H1 & H2 & H3 & H4 & H5 & H6 & H7 & H8 & _). by exists s', u', r, k.
Qed.

(** Across the boundary of blocks 1 and 2, the second of them a hole. *)
Lemma sfs_write_replaces_witness :
  exists s' u', sfs_io (demo [] []) 3 (mkBu 1022 4 [1; 2; 3; 4]) true = Ok (s', u', 0) /\ sfs_inv s' /\ byte_at s' 3 1023 = 2 /\ byte_at s' 3 1024 = 3.
Proof.
  destruct (sfs_write_replaces (demo [] []) 3 demo_file (mkBu 1022 4 [1; 2; 3; 4])) as (s' & u' & r & k & E & HI & _ & Hb & _ & _ & _ & Hr);
    [apply demo_ready; split; [cbn; lia | intros _; split; [done | repeat constructor; lia]] | reflexivity | cbn; lia |].
  exists s', u'. assert (r = 0) as ->; [vm_compute in E; injection E as _ _ <-; reflexivity |]. destruct Hr as [[_ ->] | [? _]]; [ | done].
  split; [exact E |]. split; [exact HI |]. rewrite !Hb by lia. split; reflexivity.
Defined.

(** What was written is read back.  After a write that succeeds, a read
    of the same length at the same offset that succeeds delivers the very bytes
    that were written. *)
Theorem sfs_write_read {B} `{FreeMapLaws B} (s s1 s2 : sfs_fs B) ino off data u1 u2 :
  ready true s ino (mkBu off (zlen data) data) -> (exists sv, sfs_vnodes s !! ino = Some sv /\ 0 <= sfi_size (sv_i sv)) -> 0 < zlen data ->
  sfs_io s ino (mkBu off (zlen data) data) true = Ok (s1, u1, 0) ->
  sfs_io s1 ino (mkBu off (zlen data) []) false = Ok (s2, u2, 0) -> bu_data u2 = data.
Proof.
  intros HR (sv & Hv & Hsz) Hpos E1 E2. destruct (sfs_write_ok s ino sv _ HR Hv Hpos) as (s' & u' & r & k & E & HI & Hk & Hb & Ha & _ & _ & Hr & _).
  rewrite E in E1. injection E1 as -> -> ->. destruct Hr as [[_ ->] | [? _]]; [ | done]. cbn [bu_resid bu_offset bu_data] in *.
  pose proof HR as [_ Hsm _ [(Ho & _ & Hlim) _]]. cbn in Ho, Hlim.
  assert (Hat : exists sv1, sfs_vnodes s1 !! ino = Some sv1 /\ off + zlen data <= sfi_size (sv_i sv1)).
  { specialize (Ha ino). rewrite Z.eqb_refl in Ha. destruct (Z.ltb_spec 0 (zlen data)); [ | lia]. cbn [andb] in Ha. unfold attrs in Ha. rewrite Hv in Ha. cbn in Ha.
    destruct (sfs_vnodes s1 !! ino) as [sv1 | ]; [ | done]. exists sv1. split; [done |]. injection Ha as -> _ _. lia. }
  destruct Hat as (sv1 & Hv1 & Hsz1).
  assert (Hn1 : small_volume s1).
  { unfold small_volume in *. destruct (io_region_ok s ino _ true HR Hpos) as (t1 & v1 & r1 & k1 & Er & _ & Hk1 & HD & _).
    unfold sfs_io in E. rewrite Er in E. cbn [rbind] in E. destruct (ry_vnode _ _ _ _ (ready_done _ _ _ _ _ _ _ HR Hk1 HD)) as [svt Hvt].
    unfold io_out, get_vnode in E. rewrite Hvt in E. cbn [access rbind] in E. destruct (io_done_attrs _ _ _ _ _ _ _ HD) as (_ & _ & Hnb).
    injection E as <- _ _. destruct (_ && _); cbn; by rewrite Hnb. }
  destruct (sfs_read_ok s1 ino sv1 (mkBu off (zlen data) [])) as (s' & v' & r & k & E' & _ & Hd & _ & Hk' & Hr);
    [split; [done | done | by eexists | split; [cbn; lia | done]] | done | lia | done |].
  rewrite E' in E2. injection E2 as -> -> ->. assert (k = zlen data) as ->.
  { destruct Hr as [[_ ->] | [[? _] | [? _]]]; [ | done | done]. unfold readable. cbn. lia. }
  rewrite Hd. cbn [bu_data bu_offset app]. apply list_eq. intros n. rewrite list_lookup_fmap. destruct (decide (Z.of_nat n < zlen data)) as [Hn | Hn].
  - rewrite lookup_seqZ_lt by lia. cbn. rewrite Hb by lia. rewrite Z.eqb_refl. unfold in_range.
    destruct (Z.leb_spec off (off + Z.of_nat n)), (Z.ltb_spec (off + Z.of_nat n) (off + zlen data)); try lia. cbn [andb].
    replace (Z.to_nat (off + Z.of_nat n - off)) with n by lia. destruct (lookup_lt_is_Some_2 data n) as [x ->]; [unfold zlen in Hn; lia | done].
  - rewrite lookup_seqZ_ge by lia. cbn. symmetry. apply lookup_ge_None_2. unfold zlen in Hn. lia.
Qed.

Lemma sfs_write_read_witness :
  exists s1 s2 u1 u2, sfs_io (demo [] []) 3 (mkBu 1022 4 [1; 2; 3; 4]) true = Ok (s1, u1, 0) /\
    sfs_io s1 3 (mkBu 1022 4 []) false = Ok (s2, u2, 0) /\ bu_data u2 = [1; 2; 3; 4].
Proof.
  destruct (sfs_io (demo [] []) 3 (mkBu 1022 4 [1; 2; 3; 4]) true) as [[[s1 u1] r1] | ] eqn:E1; [ | vm_compute in E1; discriminate].
  destruct (sfs_io s1 3 (mkBu 1022 4 []) false) as [[[s2 u2] r2] | ] eqn:E2; [ | vm_compute in E1; injection E1 as <- _ _; vm_compute in E2; discriminate].
  exists s1, s2, u1, u2.
  assert (r1 = 0 /\ r2 = 0) as [-> ->].
  { pose proof E1 as E1'. vm_compute in E1'. injection E1' as H1 _ <-. split; [reflexivity |]. rewrite <- H1 in E2. vm_compute in E2. injection E2 as _ _ <-. reflexivity. }
  split; [reflexivity |]. split; [exact E2 |]. apply (sfs_write_read (demo [] []) s1 s2 3 1022 [1; 2; 3; 4] u1 u2).
  - apply demo_ready. split; [unfold zlen; cbn; lia | intros _; split; [done | repeat constructor; lia]].
  - exists demo_file. split; [reflexivity | cbn; lia].
  - unfold zlen. cbn. lia.
  - exact E1.
  - exact E2.
Defined.

(** Offsets of 41 bits.  The number of the block is cut to 32 bits, so a
    write at 2^41 lands in the first block of the file; the new size is cut as
    well, and the file of 8700 bytes has one byte afterwards. *)
Theorem write_offset_wraps :
  exists s' u', sfs_io (demo [] []) 3 (mkBu (2 ^ 41) 1 [7]) true = Ok (s', u', 0) /\ bu_resid u' = 0 /\
    byte_at s' 3 0 = 7 /\ attrs s' 3 = Some (1, SFS_TYPE_FILE, 1).
Proof.
  destruct (sfs_io (demo [] []) 3 (mkBu (2 ^ 41) 1 [7]) true) as [[[s' u'] r] | ] eqn:E; [ | vm_compute in E; discriminate].
  exists s', u'. vm_compute in E. injection E as <- <- <-. by vm_compute.
Qed.
