(* ===== verification/SfsExt.v ===== *)
(** Files of a volume that are not in memory.

    The functions of the files Sfs, SfsDir and SfsFile work on one file in
    memory.  A volume with more files in memory, [ext E s], behaves the same:
    each function commutes with [ext E].  So what is proved about a volume whose
    files are all in memory holds for one where some are only on the disk. *)
From S2P Require Import Prelude Bitmap Sfs SfsDir SfsFile.

Section Ext.
Context {B : Type} `{FreeMap B}.
Implicit Types s : sfs_fs B.

Definition ext (E : gmap Z sfs_vnode) s : sfs_fs B :=
  mkSfs (sfs_freemap s) (sfs_freemapdirty s) (sb_nblocks s) (d_blocks s) (disk s) (rd_errors s) (wr_errors s) (sfs_vnodes s ∪ E).

(** What the functions do to the inodes in memory: only that of [ino] changes,
    then it is dirty, and it keeps its type and its links. *)
Definition edited (sv sv' : sfs_vnode) : Prop :=
  (sv' = sv \/ sv_dirty sv' = true) /\ sfi_type (sv_i sv') = sfi_type (sv_i sv) /\ sfi_linkcount (sv_i sv') = sfi_linkcount (sv_i sv).

(** A map of free blocks that has changed is marked. *)
Definition map_marked s s' : Prop :=
  sfs_freemapdirty s' = true \/ (sfs_freemap s' = sfs_freemap s /\ sfs_freemapdirty s' = sfs_freemapdirty s).

Lemma map_marked_trans s1 s2 s3 : map_marked s1 s2 -> map_marked s2 s3 -> map_marked s1 s3.
Proof. unfold map_marked. intros [D1 | [M1 D1]] [D2 | [M2 D2]]; [by left | left; congruence | by left | right; split; congruence]. Qed.

Record edits (ino : Z) s s' : Prop := {
  ed_vnode : forall sv, sfs_vnodes s !! ino = Some sv -> exists sv', sfs_vnodes s' !! ino = Some sv' /\ edited sv sv';
  ed_others : forall i, i <> ino -> sfs_vnodes s' !! i = sfs_vnodes s !! i;
  ed_io : rd_errors s = [] -> rd_errors s' = [];
  ed_nblocks : sb_nblocks s' = sb_nblocks s;
  ed_map : map_marked s s'
}.

Lemma edits_refl ino s : edits ino s s.
Proof. split; try done; [ | by right]. intros sv Hv. exists sv. split; [done |]. split; [by left | done]. Qed.

Lemma edits_trans ino s1 s2 s3 : edits ino s1 s2 -> edits ino s2 s3 -> edits ino s1 s3.
Proof.
  intros [V1 O1 R1 N1 M1] [V2 O2 R2 N2 M2]. split; [ | | auto | congruence | by eapply map_marked_trans].
  - intros sv Hv. destruct (V1 sv Hv) as (sv1 & Hv1 & D1 & T1 & L1). destruct (V2 sv1 Hv1) as (sv2 & Hv2 & D2 & T2 & L2).
    exists sv2. split; [done |]. split; [ | split; congruence]. destruct D2 as [-> | ]; [done | by right].
  - intros i Hne. rewrite O2 by done. by apply O1.
Qed.

(** A step that does not touch the inodes in memory. *)
Lemma edits_same ino s s' :
  sfs_vnodes s' = sfs_vnodes s -> (rd_errors s = [] -> rd_errors s' = []) -> sb_nblocks s' = sb_nblocks s -> map_marked s s' -> edits ino s s'.
Proof. intros Hv Hr Hn Hm. split; rewrite ?Hv; try done. intros sv Hsv. exists sv. split; [done |]. split; [by left | done]. Qed.

Lemma edits_set ino s sv sv' :
  sfs_vnodes s !! ino = Some sv -> sv_dirty sv' = true -> sfi_type (sv_i sv') = sfi_type (sv_i sv) ->
  sfi_linkcount (sv_i sv') = sfi_linkcount (sv_i sv) -> edits ino s (with_vnode s ino sv').
Proof.
  intros Hv Hd Ht Hl. split; try done; [ | | by right]; cbn.
  - intros sv0 Hv0. rewrite Hv in Hv0. injection Hv0 as <-. exists sv'. rewrite lookup_insert_eq. split; [done |]. split; [by right | done].
  - intros i Hne. by rewrite lookup_insert_ne.
Qed.

(** The same with an inode that was read before some other steps. *)
Lemma edits_set_later ino s s1 sv sv' :
  sfs_vnodes s !! ino = Some sv -> edits ino s s1 -> sv_dirty sv' = true -> sfi_type (sv_i sv') = sfi_type (sv_i sv) ->
  sfi_linkcount (sv_i sv') = sfi_linkcount (sv_i sv) -> edits ino s1 (with_vnode s1 ino sv').
Proof.
  intros Hv HE Hd Ht Hl. destruct (ed_vnode _ _ _ HE sv Hv) as (sv1 & Hv1 & _ & T1 & L1). eapply edits_set; [done | done | congruence | congruence].
Qed.

(** Results carry the new state in front. *)
Class Carries (T : Type) := {
  st_of : T -> sfs_fs B;
  st_map : (sfs_fs B -> sfs_fs B) -> T -> T
}.

#[local] Instance carries_state : Carries (sfs_fs B) := {| st_of s := s; st_map f s := f s |}.
#[local] Instance carries_pair {T A} `{Carries T} : Carries (T * A) := {| st_of p := st_of p.1; st_map f p := (st_map f p.1, p.2) |}.

Context (E : gmap Z sfs_vnode) (ino : Z).

Definition loaded s : Prop := is_Some (sfs_vnodes s !! ino).

Lemma loaded_edits s s' : edits ino s s' -> loaded s -> loaded s'.
Proof. intros HE [sv Hv]. destruct (ed_vnode _ _ _ HE sv Hv) as (sv' & Hv' & _). by eexists. Qed.

(** [m'] does to [ext E s] what [m] does to [s]. *)
Definition lifts {T} `{Carries T} s (m' m : res T) : Prop :=
  match m with
  | Ok a => m' = Ok (st_map (ext E) a) /\ edits ino s (st_of a)
  | Fault e => m' = Fault e
  end.

Lemma lifts_ok {T} `{Carries T} s (a : T) : edits ino s (st_of a) -> lifts s (Ok (st_map (ext E) a)) (Ok a).
Proof. by split. Qed.

Lemma lifts_from {T} `{Carries T} s s1 (m' m : res T) : edits ino s s1 -> lifts s1 m' m -> lifts s m' m.
Proof. intros HE. destruct m; [ | done]. intros [-> H1]. split; [done |]. by eapply edits_trans. Qed.

Lemma lifts_bind {T U} `{Carries T} `{Carries U} s (m' m : res T) (k' k : T -> res U) :
  loaded s -> lifts s m' m -> (forall a, loaded (st_of a) /\ edits ino s (st_of a) -> lifts (st_of a) (k' (st_map (ext E) a)) (k a)) ->
  lifts s (rbind m' k') (rbind m k).
Proof.
  intros Hl Hm Hk. destruct m as [a | e]; [destruct Hm as [-> HE] | by rewrite Hm]. cbn [rbind]. eapply lifts_from; [exact HE |].
  apply Hk. split; [by eapply loaded_edits | done].
Qed.

Lemma lifts_pure {A T} `{Carries T} s (m : res A) (k' k : A -> res T) :
  (forall a, m = Ok a -> lifts s (k' a) (k a)) -> lifts s (rbind m k') (rbind m k).
Proof. intros Hk. destruct m; [by apply Hk | done]. Qed.

Lemma lifts_kassert {T} `{Carries T} s b (m' m : res T) : lifts s m' m -> lifts s (kassert b m') (kassert b m).
Proof. by destruct b. Qed.

(** What is known about [ext E s] is known about [s]. *)
Lemma lifts_elim {T} `{Carries T} s (m' m : res T) a' :
  lifts s m' m -> m' = Ok a' -> exists a, m = Ok a /\ a' = st_map (ext E) a /\ edits ino s (st_of a).
Proof. intros Hm ->. destruct m as [a | ]; [ | done]. destruct Hm as [[= ->] HE]. by exists a. Qed.

Lemma ext_vnode s sv : with_vnode (ext E s) ino sv = ext E (with_vnode s ino sv).
Proof. unfold with_vnode, ext. cbn. f_equal. by rewrite insert_union_l. Qed.

Lemma ext_get s : loaded s -> get_vnode (ext E s) ino = get_vnode s ino.
Proof. intros [sv Hv]. unfold get_vnode. cbn. by rewrite (lookup_union_Some_l _ _ _ _ Hv), Hv. Qed.

Lemma loaded_vnode s sv : loaded (with_vnode s ino sv).
Proof. unfold loaded. cbn. rewrite lookup_insert_eq. by eexists. Qed.

Lemma get_vnode_Some s sv : get_vnode s ino = Ok sv -> sfs_vnodes s !! ino = Some sv.
Proof. unfold get_vnode. apply access_Ok. Qed.
End Ext.

#[local] Existing Instance carries_state.
#[local] Existing Instance carries_pair.

Create HintDb lifts.
#[export] Hint Extern 1 (loaded _ _) => first [assumption | apply loaded_vnode] : lifts.

(** Moves [ext E] to the outside. *)
Ltac ext_norm E :=
  repeat match goal with
  | |- context [sfs_freemap (ext E ?s)] => change (sfs_freemap (ext E s)) with (sfs_freemap s)
  | |- context [sfs_freemapdirty (ext E ?s)] => change (sfs_freemapdirty (ext E s)) with (sfs_freemapdirty s)
  | |- context [sb_nblocks (ext E ?s)] => change (sb_nblocks (ext E s)) with (sb_nblocks s)
  | |- context [d_blocks (ext E ?s)] => change (d_blocks (ext E s)) with (d_blocks s)
  | |- context [disk (ext E ?s)] => change (disk (ext E s)) with (disk s)
  | |- context [rd_errors (ext E ?s)] => change (rd_errors (ext E s)) with (rd_errors s)
  | |- context [wr_errors (ext E ?s)] => change (wr_errors (ext E s)) with (wr_errors s)
  | |- context [with_map (ext E ?s) ?m] => change (with_map (ext E s) m) with (ext E (with_map s m))
  | |- context [with_io (ext E ?s) ?l] => change (with_io (ext E s) l) with (ext E (with_io s l))
  | |- context [with_wio (ext E ?s) ?l] => change (with_wio (ext E s) l) with (ext E (with_wio s l))
  | |- context [with_block (ext E ?s) ?b ?d] => change (with_block (ext E s) b d) with (ext E (with_block s b d))
  | |- context [with_vnode (ext E ?s) ?i ?sv] => rewrite (ext_vnode E i s sv)
  end.

Ltac edits_tac :=
  first
  [ apply edits_refl
  | assumption
  | apply edits_same; [reflexivity | solve [cbn; intros Hio; first [done | congruence]] | reflexivity | first [right; split; reflexivity | left; reflexivity]]
  | eapply edits_set; [eassumption | reflexivity | reflexivity | reflexivity]
  | eapply edits_set_later; [eassumption | eassumption | reflexivity | reflexivity | reflexivity] ].

(** Chains of steps become steps. *)
Ltac edits_chain :=
  repeat match goal with
  | H1 : edits ?i ?a ?b, H2 : edits ?i ?b ?c |- _ =>
    lazymatch goal with
    | _ : edits i a c |- _ => fail
    | |- _ => pose proof (edits_trans _ _ _ _ H1 H2)
    end
  end.

Ltac lift_done :=
  match goal with
  | |- lifts _ _ _ (Fault _) (Fault _) => reflexivity
  | |- lifts ?E ?ino ?s _ (Ok ?a) => refine (lifts_ok E ino s a _); cbn [st_of st_map carries_state carries_pair fst snd]; edits_tac
  end.

(** A call of a function that is known to lift, perhaps after a step. *)
Ltac lift_call := solve [eapply lifts_from; [ | eauto with lifts]; edits_tac].

Ltac lift_intro :=
  let a := fresh "a" in intros a ?; repeat match goal with p : _ * _ |- _ => destruct p | p : _ /\ _ |- _ => destruct p end;
  cbn [st_of st_map carries_state carries_pair fst snd] in *; edits_chain.

Ltac lift_step E :=
  ext_norm E;
  first
  [ lift_done
  | lift_call
  | lazymatch goal with
    | |- lifts _ _ _ (if ?b then _ else _) (if ?b then _ else _) => destruct b eqn:?
    | |- lifts _ _ _ (let (_, _) := ?p in _) (let (_, _) := ?p in _) => destruct p
    | |- lifts _ _ _ (kassert _ _) (kassert _ _) => apply lifts_kassert
    | |- lifts _ _ _ (rbind (get_vnode (ext _ _) _) _) _ => rewrite ext_get by assumption; apply lifts_pure; intros ? ?%get_vnode_Some
    | |- lifts _ _ _ (rbind ?m _) (rbind ?m _) => apply lifts_pure; lift_intro
    | |- lifts _ _ _ (rbind _ _) (rbind _ _) => eapply lifts_bind; [assumption | | lift_intro]
    end ].

Ltac lift E := repeat lift_step E.

Section Functions.
Context {B : Type} `{FreeMap B} (E : gmap Z sfs_vnode) (ino : Z).
Implicit Types s : sfs_fs B.

Lemma lhd_sectors_lifts k : forall s w sector u, loaded ino s -> lifts E ino s (lhd_sectors k (ext E s) w sector u) (lhd_sectors k s w sector u).
Proof.
  induction k as [ | k IH]; intros s w sector u Hl; cbn [lhd_sectors]; [lift E |]. destruct w; ext_norm E.
  - destruct (wr_errors s) as [ | [ | ] l] eqn:El; lift E.
  - destruct (rd_errors s) as [ | [ | ] l] eqn:El; lift E.
Qed.
#[local] Hint Resolve lhd_sectors_lifts : lifts.
Lemma lhd_io_lifts s w u : loaded ino s -> lifts E ino s (lhd_io (ext E s) w u) (lhd_io s w u).
Proof. intros Hl. unfold lhd_io. lift E. Qed.
#[local] Hint Resolve lhd_io_lifts : lifts.

Lemma rw_tries_lifts n : forall s w u, loaded ino s -> lifts E ino s (rw_tries n (ext E s) w u) (rw_tries n s w u).
Proof. induction n as [ | n IH]; intros s w u Hl; cbn [rw_tries]; lift E. Qed.
#[local] Hint Resolve rw_tries_lifts : lifts.

Lemma rwblock_lifts s w u : loaded ino s -> lifts E ino s (sfs_rwblock (ext E s) w u) (sfs_rwblock s w u).
Proof. intros Hl. unfold sfs_rwblock. lift E. Qed.
#[local] Hint Resolve rwblock_lifts : lifts.

Lemma readblock_lifts s b : loaded ino s -> lifts E ino s (sfs_readblock (ext E s) b) (sfs_readblock s b).
Proof. intros Hl. unfold sfs_readblock. lift E. Qed.
#[local] Hint Resolve readblock_lifts : lifts.

Lemma writeblock_lifts s b d : loaded ino s -> lifts E ino s (sfs_writeblock (ext E s) b d) (sfs_writeblock s b d).
Proof. intros Hl. unfold sfs_writeblock. lift E. Qed.
#[local] Hint Resolve writeblock_lifts : lifts.

Lemma balloc_lifts s : loaded ino s -> lifts E ino s (sfs_balloc (ext E s)) (sfs_balloc s).
Proof. intros Hl. unfold sfs_balloc, sfs_clearblock. lift E. Qed.
#[local] Hint Resolve balloc_lifts : lifts.

Lemma bfree_lifts s b : loaded ino s -> lifts E ino s (sfs_bfree (ext E s) b) (sfs_bfree s b).
Proof. intros Hl. unfold sfs_bfree. lift E. Qed.
#[local] Hint Resolve bfree_lifts : lifts.

Lemma bmap_result_lifts s b : loaded ino s -> lifts E ino s (bmap_result (ext E s) b) (bmap_result s b).
Proof. intros Hl. unfold bmap_result, sfs_bused. lift E. Qed.
#[local] Hint Resolve bmap_result_lifts : lifts.

Lemma bmap_direct_lifts s fb a : loaded ino s -> lifts E ino s (sfs_bmap_direct (ext E s) ino fb a) (sfs_bmap_direct s ino fb a).
Proof. intros Hl. unfold sfs_bmap_direct. lift E. Qed.
#[local] Hint Resolve bmap_direct_lifts : lifts.

Lemma bmap_indirect_lifts s b l o a : loaded ino s -> lifts E ino s (sfs_bmap_indirect (ext E s) b l o a) (sfs_bmap_indirect s b l o a).
Proof. intros Hl. unfold sfs_bmap_indirect. lift E. Qed.
#[local] Hint Resolve bmap_indirect_lifts : lifts.

Lemma bmap_lifts s fb a : loaded ino s -> lifts E ino s (sfs_bmap (ext E s) ino fb a) (sfs_bmap s ino fb a).
Proof. intros Hl. unfold sfs_bmap. lift E. Qed.
#[local] Hint Resolve bmap_lifts : lifts.

(** Truncation *)

Lemma itrunc_direct_lifts k : forall s bl i, loaded ino s -> lifts E ino s (itrunc_direct k (ext E s) ino bl i) (itrunc_direct k s ino bl i).
Proof. induction k as [ | k IH]; intros s bl i Hl; cbn [itrunc_direct]; lift E. Qed.
#[local] Hint Resolve itrunc_direct_lifts : lifts.

Lemma itrunc_indirect_lifts k : forall s bl base j l h d, loaded ino s ->
  lifts E ino s (itrunc_indirect k (ext E s) bl base j l h d) (itrunc_indirect k s bl base j l h d).
Proof. induction k as [ | k IH]; intros s bl base j l h d Hl; cbn [itrunc_indirect]; lift E. Qed.
#[local] Hint Resolve itrunc_indirect_lifts : lifts.

Lemma itrunc_idblock_lifts s bl : loaded ino s -> lifts E ino s (itrunc_idblock (ext E s) ino bl) (itrunc_idblock s ino bl).
Proof. intros Hl. unfold itrunc_idblock. lift E. Qed.
#[local] Hint Resolve itrunc_idblock_lifts : lifts.

Lemma itrunc_lifts s len : loaded ino s -> lifts E ino s (sfs_itrunc (ext E s) ino len) (sfs_itrunc s ino len).
Proof. intros Hl. unfold sfs_itrunc. lift E. Qed.

(** Directories *)

Lemma metaio_lifts s pos d len w : loaded ino s -> lifts E ino s (sfs_metaio (ext E s) ino pos d len w) (sfs_metaio s ino pos d len w).
Proof. intros Hl. unfold sfs_metaio. lift E. Qed.
#[local] Hint Resolve metaio_lifts : lifts.

Lemma readdir_lifts s i : loaded ino s -> lifts E ino s (sfs_readdir (ext E s) ino i) (sfs_readdir s ino i).
Proof. intros Hl. unfold sfs_readdir. lift E. Qed.
#[local] Hint Resolve readdir_lifts : lifts.

Lemma writedir_lifts s i e : loaded ino s -> lifts E ino s (sfs_writedir (ext E s) ino i e) (sfs_writedir s ino i e).
Proof. intros Hl. unfold sfs_writedir. lift E. Qed.
#[local] Hint Resolve writedir_lifts : lifts.

Lemma nentries_ext s : loaded ino s -> sfs_dir_nentries (ext E s) ino = sfs_dir_nentries s ino.
Proof. intros Hl. unfold sfs_dir_nentries. by rewrite ext_get. Qed.

Lemma findname_loop_lifts k : forall s name i o, loaded ino s ->
  lifts E ino s (findname_loop k (ext E s) ino name i o) (findname_loop k s ino name i o).
Proof. induction k as [ | k IH]; intros s name i o Hl; cbn [findname_loop]; lift E. Qed.
#[local] Hint Resolve findname_loop_lifts : lifts.

Lemma findname_lifts s name o : loaded ino s -> lifts E ino s (sfs_dir_findname (ext E s) ino name o) (sfs_dir_findname s ino name o).
Proof. intros Hl. unfold sfs_dir_findname. rewrite nentries_ext by done. lift E. Qed.
#[local] Hint Resolve findname_lifts : lifts.

Lemma dir_link_lifts s name x : loaded ino s -> lifts E ino s (sfs_dir_link (ext E s) ino name x) (sfs_dir_link s ino name x).
Proof.
  intros Hl. unfold sfs_dir_link. lift_step E; [lift E |]. rewrite nentries_ext by done. lift E.
Qed.

Lemma dir_unlink_lifts s i : loaded ino s -> lifts E ino s (sfs_dir_unlink (ext E s) ino i) (sfs_dir_unlink s ino i).
Proof. intros Hl. unfold sfs_dir_unlink. lift E. Qed.

(** Files *)

Lemma partialio_lifts s u w skip len : loaded ino s -> lifts E ino s (sfs_partialio (ext E s) ino u w skip len) (sfs_partialio s ino u w skip len).
Proof. intros Hl. unfold sfs_partialio. lift E. Qed.
#[local] Hint Resolve partialio_lifts : lifts.

Lemma blockio_lifts s u w : loaded ino s -> lifts E ino s (sfs_blockio (ext E s) ino u w) (sfs_blockio s ino u w).
Proof. intros Hl. unfold sfs_blockio. lift E. Qed.
#[local] Hint Resolve blockio_lifts : lifts.

Lemma io_blocks_lifts k : forall s u w, loaded ino s -> lifts E ino s (io_blocks k (ext E s) ino u w) (io_blocks k s ino u w).
Proof. induction k as [ | k IH]; intros s u w Hl; cbn [io_blocks]; lift E. Qed.
#[local] Hint Resolve io_blocks_lifts : lifts.

Lemma io_region_lifts s u w : loaded ino s -> lifts E ino s (io_region (ext E s) ino u w) (io_region s ino u w).
Proof. intros Hl. unfold io_region. lift E. Qed.
#[local] Hint Resolve io_region_lifts : lifts.

Lemma io_out_lifts s u w o x r : loaded ino s -> lifts E ino s (io_out (ext E s) ino u w o x r) (io_out s ino u w o x r).
Proof. intros Hl. unfold io_out. lift_step E. destruct (negb _ && w && _); lift E. Qed.
#[local] Hint Resolve io_out_lifts : lifts.

Lemma io_lifts s u w : loaded ino s -> lifts E ino s (sfs_io (ext E s) ino u w) (sfs_io s ino u w).
Proof. intros Hl. unfold sfs_io. lift E. Qed.
End Functions.
