(* ===== verification/SfsVnode.v ===== *)
(** The vnodes of SFS and the operations on them: sfs_reclaim, sfs_loadvnode,
    sfs_makeobj and sfs_getroot of kern/fs/sfs/sfs_inode.c, sfs_lookonce of
    sfs_dir.c, and sfs_vnops.c.

    A vnode is known by its inode number: sfs_loadvnode makes a second vnode for
    the same number impossible.  vfs_biglock is held over each operation, so
    each is one step, for threads on different processors: on one processor the
    lock is recursive and keeps nobody out (see Synch on lock_do_i_hold).
    Reference counts are numbers without a bound.  Whether a request for memory is granted is read from a
    list, [nomem]; VOP_DECREF is that of kern/vfs/vnode.c. *)
From S2P Require Import Prelude Bitmap Sfs SfsDir SfsFile.

Definition SFS_ROOTDIR_INO := 1.
Definition S_IFREG := 4096.
Definition S_IFDIR := 8192.
Definition O_ACCMODE := 3.

Record sfs_mnt (B : Type) := mkMnt {
  vol : sfs_fs B;
  (** the vnode table, and the reference counts of the vnodes *)
  table : list Z;
  vn_refcount : gmap Z Z;
  nomem : list bool
}.
Arguments mkMnt {B}.
Arguments vol {B}.
Arguments table {B}.
Arguments vn_refcount {B}.
Arguments nomem {B}.

Definition set_type (i : sfs_dinode) (ty : Z) : sfs_dinode :=
  mkDinode (sfi_size i) ty (sfi_linkcount i) (sfi_direct i) (sfi_indirect i) (sfi_waste i).

(** [sv->sv_i.sfi_linkcount = n; sv->sv_dirty = true;] *)
Definition set_links (sv : sfs_vnode) (n : Z) : sfs_vnode :=
  mkSv (mkDinode (sfi_size (sv_i sv)) (sfi_type (sv_i sv)) n (sfi_direct (sv_i sv)) (sfi_indirect (sv_i sv)) (sfi_waste (sv_i sv))) true.

Section Vnodes.
Context {B : Type} `{FreeMap B}.
Implicit Types m : sfs_mnt B.

Definition with_vol m (s : sfs_fs B) : sfs_mnt B := mkMnt s (table m) (vn_refcount m) (nomem m).
Definition with_refs m (r : gmap Z Z) : sfs_mnt B := mkMnt (vol m) (table m) r (nomem m).

(** A request for memory. *)
Definition want_mem m : sfs_mnt B * bool :=
  match nomem m with
  | true :: l => (mkMnt (vol m) (table m) (vn_refcount m) l, false)
  | l => (mkMnt (vol m) (table m) (vn_refcount m) (tail l), true)
  end.

Definition VOP_INCREF m (ino : Z) : res (sfs_mnt B) :=
  let* n := access (vn_refcount m !! ino) in Ok (with_refs m (<[ino := n + 1]> (vn_refcount m))).

(** ** Loading and reclaiming (sfs_inode.c) *)

Definition without_vnode (s : sfs_fs B) (ino : Z) : sfs_fs B :=
  mkSfs (sfs_freemap s) (sfs_freemapdirty s) (sb_nblocks s) (d_blocks s) (disk s) (rd_errors s) (wr_errors s) (delete ino (sfs_vnodes s)).

(** The place of the vnode in the table, found and taken out. *)
Fixpoint table_remove (l : list Z) (ino : Z) : option (list Z) :=
  match l with
  | [] => None
  | i :: l => if i =? ino then Some l else cons i <$> table_remove l ino
  end.

(** The return value. *)
Definition sfs_reclaim m (ino : Z) : res (sfs_mnt B * Z) :=
  let* n := access (vn_refcount m !! ino) in
  if negb (n =? 1) then kassert (1 <? n) (Ok (with_refs m (<[ino := n - 1]> (vn_refcount m)), EBUSY))
  else
  let* sv := get_vnode (vol m) ino in
  let* (s, result) := if sfi_linkcount (sv_i sv) =? 0 then sfs_itrunc (vol m) ino 0 else Ok (vol m, 0) in
  if negb (result =? 0) then Ok (with_vol m s, result)
  else
  let* (s, result) := sfs_sync_inode s ino in
  if negb (result =? 0) then Ok (with_vol m s, result)
  else
  let* sv := get_vnode s ino in
  let* s := if sfi_linkcount (sv_i sv) =? 0 then sfs_bfree s ino else Ok s in
  match table_remove (table m) ino with
  | None => Fault PanicCall
  | Some l => Ok (mkMnt (without_vnode s ino) l (delete ino (vn_refcount m)) (nomem m), 0)
  end.

(** An error of the reclaim is only reported. *)
Definition VOP_DECREF m (ino : Z) : res (sfs_mnt B) :=
  let* n := access (vn_refcount m !! ino) in
  kassert (0 <? n) (
  if 1 <? n then Ok (with_refs m (<[ino := n - 1]> (vn_refcount m)))
  else let* (m, result) := sfs_reclaim m ino in Ok m).

(** The search in the vnode table. *)
Fixpoint find_vnode (l : list Z) (s : sfs_fs B) (ino forcetype : Z) : res bool :=
  match l with
  | [] => Ok false
  | i :: l =>
    let* u := sfs_bused s i in
    if u =? 0 then Fault PanicCall
    else if i =? ino then kassert (forcetype =? SFS_TYPE_INVAL) (Ok true)
    else find_vnode l s ino forcetype
  end.

Definition sfs_loadvnode m (ino forcetype : Z) : res (sfs_mnt B * Z) :=
  let* found := find_vnode (table m) (vol m) ino forcetype in
  if found : bool then let* m := VOP_INCREF m ino in Ok (m, 0)
  else
  let (m, granted) := want_mem m in
  if negb granted then Ok (m, ENOMEM)
  else
  let* u := sfs_bused (vol m) ino in
  if u =? 0 then Fault PanicCall
  else
  let* (s, result, data) := sfs_readblock (vol m) ino in
  let m := with_vol m s in
  if negb (result =? 0) then Ok (m, result)
  else
  let* i := block_dinode data in
  let* sv :=
    if negb (forcetype =? SFS_TYPE_INVAL) then kassert (sfi_type i =? SFS_TYPE_INVAL) (Ok (mkSv (set_type i forcetype) true))
    else Ok (mkSv i false) in
  let ty := sfi_type (sv_i sv) in
  if negb ((ty =? SFS_TYPE_FILE) || (ty =? SFS_TYPE_DIR)) then Fault PanicCall
  else
  let (m, granted) := want_mem m in
  if negb granted then Ok (m, ENOMEM)
  else Ok (mkMnt (with_vnode (vol m) ino sv) (table m ++ [ino]) (<[ino := 1]> (vn_refcount m)) (nomem m), 0).

(** The return value and the new inode. *)
Definition sfs_makeobj m (ty : Z) : res (sfs_mnt B * Z * Z) :=
  let* (s, result, ino) := sfs_balloc (vol m) in
  let m := with_vol m s in
  if negb (result =? 0) then Ok (m, result, 0)
  else
  let* (m, result) := sfs_loadvnode m ino ty in
  let* m := if negb (result =? 0) then let* s := sfs_bfree (vol m) ino in Ok (with_vol m s) else Ok m in
  Ok (m, result, ino).

Definition sfs_getroot m : res (sfs_mnt B * Z) :=
  let* (m, result) := sfs_loadvnode m SFS_ROOTDIR_INO SFS_TYPE_INVAL in
  if negb (result =? 0) then Ok (m, result)
  else
  let* sv := get_vnode (vol m) SFS_ROOTDIR_INO in
  if negb (sfi_type (sv_i sv) =? SFS_TYPE_DIR) then Ok (m, EINVAL)
  else Ok (m, 0).

(** ** Names *)

Definition findname m (dir : Z) (name : list Z) : res (sfs_mnt B * Z * found) :=
  let* (s, result, o) := sfs_dir_findname (vol m) dir name (mkFound false 0 0 (-1)) in Ok (with_vol m s, result, o).

Definition dir_link m (dir : Z) (name : list Z) (ino : Z) : res (sfs_mnt B * Z * Z) :=
  let* (s, result, slot) := sfs_dir_link (vol m) dir name ino in Ok (with_vol m s, result, slot).

Definition dir_unlink m (dir slot : Z) : res (sfs_mnt B * Z) :=
  let* (s, result) := sfs_dir_unlink (vol m) dir slot in Ok (with_vol m s, result).

(** The return value, the inode and the slot. *)
Definition sfs_lookonce m (dir : Z) (name : list Z) : res (sfs_mnt B * Z * Z * Z) :=
  let* (m, result, o) := findname m dir name in
  if negb (result =? 0) then Ok (m, result, 0, 0)
  else
  let* (m, result) := sfs_loadvnode m (fo_ino o) SFS_TYPE_INVAL in
  if negb (result =? 0) then Ok (m, result, 0, 0)
  else
  let* sv := get_vnode (vol m) (fo_ino o) in
  if sfi_linkcount (sv_i sv) =? 0 then Fault PanicCall
  else Ok (m, 0, fo_ino o, fo_slot o).

(** [sv->sv_i.sfi_linkcount += d; sv->sv_dirty = true;] *)
Definition add_links m (ino d : Z) : res (sfs_mnt B) :=
  let* sv := get_vnode (vol m) ino in
  Ok (with_vol m (with_vnode (vol m) ino (set_links sv (u16 (sfi_linkcount (sv_i sv) + d))))).

(** ** Operations (sfs_vnops.c) *)

Definition is_dir m (ino : Z) : res bool :=
  let* sv := get_vnode (vol m) ino in Ok (sfi_type (sv_i sv) =? SFS_TYPE_DIR).

Definition sfs_eachopen m (ino openflags : Z) : res Z := Ok 0.

Definition sfs_eachopendir m (ino openflags : Z) : res Z :=
  if negb (Z.land openflags O_ACCMODE =? O_RDONLY) then Ok EISDIR
  else if negb (Z.land openflags O_APPEND =? 0) then Ok EISDIR
  else Ok 0.

Definition sfs_read m (ino : Z) (u : buf_uio) : res (sfs_mnt B * buf_uio * Z) :=
  let* (s, u, result) := sfs_io (vol m) ino u false in Ok (with_vol m s, u, result).

Definition sfs_write m (ino : Z) (u : buf_uio) : res (sfs_mnt B * buf_uio * Z) :=
  let* (s, u, result) := sfs_io (vol m) ino u true in Ok (with_vol m s, u, result).

Definition sfs_gettype m (ino : Z) : res Z :=
  let* sv := get_vnode (vol m) ino in
  if sfi_type (sv_i sv) =? SFS_TYPE_FILE then Ok S_IFREG
  else if sfi_type (sv_i sv) =? SFS_TYPE_DIR then Ok S_IFDIR
  else Fault PanicCall.

(** Mode, size and number of links. *)
Definition sfs_stat m (ino : Z) : res (Z * Z * Z) :=
  let* mode := sfs_gettype m ino in
  let* sv := get_vnode (vol m) ino in
  Ok (mode, sfi_size (sv_i sv), sfi_linkcount (sv_i sv)).

Definition sfs_fsync m (ino : Z) : res (sfs_mnt B * Z) :=
  let* (s, result) := sfs_sync_inode (vol m) ino in Ok (with_vol m s, result).

Definition sfs_truncate m (ino len : Z) : res (sfs_mnt B * Z) :=
  let* (s, result) := sfs_itrunc (vol m) ino len in Ok (with_vol m s, result).

Definition sfs_namefile m (ino : Z) : res Z := kassert (ino =? SFS_ROOTDIR_INO) (Ok 0).

(** The return value and the vnode. *)
Definition sfs_creat m (dir : Z) (name : list Z) (excl : bool) : res (sfs_mnt B * Z * Z) :=
  let* (m, result, o) := findname m dir name in
  if negb (result =? 0) && negb (result =? ENOENT) then Ok (m, result, 0)
  else if (result =? 0) && excl then Ok (m, EEXIST, 0)
  else if result =? 0 then
    let* (m, result) := sfs_loadvnode m (fo_ino o) SFS_TYPE_INVAL in
    if negb (result =? 0) then Ok (m, result, 0) else Ok (m, 0, fo_ino o)
  else
  let* (m, result, newguy) := sfs_makeobj m SFS_TYPE_FILE in
  if negb (result =? 0) then Ok (m, result, 0)
  else
  let* (m, result, _) := dir_link m dir name newguy in
  if negb (result =? 0) then let* m := VOP_DECREF m newguy in Ok (m, result, 0)
  else
  let* m := add_links m newguy 1 in
  Ok (m, 0, newguy).

Definition sfs_link m (dir : Z) (name : list Z) (file : Z) : res (sfs_mnt B * Z) :=
  let* d := is_dir m file in
  if d : bool then Ok (m, EINVAL)
  else
  let* (m, result, _) := dir_link m dir name file in
  if negb (result =? 0) then Ok (m, result)
  else
  let* m := add_links m file 1 in
  Ok (m, 0).

Definition drop_link m (ino : Z) : res (sfs_mnt B) :=
  let* sv := get_vnode (vol m) ino in
  kassert (0 <? sfi_linkcount (sv_i sv)) (add_links m ino (-1)).

Definition sfs_remove m (dir : Z) (name : list Z) : res (sfs_mnt B * Z) :=
  let* (m, result, victim, slot) := sfs_lookonce m dir name in
  if negb (result =? 0) then Ok (m, result)
  else
  let* (m, result) := dir_unlink m dir slot in
  let* m := if result =? 0 then drop_link m victim else Ok m in
  let* m := VOP_DECREF m victim in
  Ok (m, result).

(** In the recovery from a failed unlink the inode is not marked dirty again. *)
Definition undo_link m (ino : Z) : res (sfs_mnt B) :=
  let* sv := get_vnode (vol m) ino in
  let i := set_links sv (u16 (sfi_linkcount (sv_i sv) - 1)) in
  Ok (with_vol m (with_vnode (vol m) ino (mkSv (sv_i i) (sv_dirty sv)))).

Definition sfs_rename m (d1 : Z) (n1 : list Z) (d2 : Z) (n2 : list Z) : res (sfs_mnt B * Z) :=
  kassert (d1 =? d2) (
  kassert (d1 =? SFS_ROOTDIR_INO) (
  let* (m, result, g1, slot1) := sfs_lookonce m d1 n1 in
  if negb (result =? 0) then Ok (m, result)
  else
  let* sv := get_vnode (vol m) g1 in
  kassert (sfi_type (sv_i sv) =? SFS_TYPE_FILE) (
  let* (m, result, slot2) := dir_link m d1 n2 g1 in
  if negb (result =? 0) then let* m := VOP_DECREF m g1 in Ok (m, result)
  else
  let* m := add_links m g1 1 in
  let* (m, result) := dir_unlink m d1 slot1 in
  if negb (result =? 0) then
    let* (m, result2) := dir_unlink m d1 slot2 in
    if negb (result2 =? 0) then Fault PanicCall
    else
    let* m := undo_link m g1 in
    let* m := VOP_DECREF m g1 in
    Ok (m, result)
  else
  let* m := drop_link m g1 in
  let* m := VOP_DECREF m g1 in
  Ok (m, 0)))).

(** The return value and what is in [buf]; the directory is [ino] itself. *)
Definition sfs_lookparent m (ino : Z) (path : list Z) (buflen : Z) : res (sfs_mnt B * Z * list Z) :=
  let* d := is_dir m ino in
  if negb d then Ok (m, ENOTDIR, [])
  else if buflen <? zlen path + 1 then Ok (m, ENAMETOOLONG, [])
  else
  let* m := VOP_INCREF m ino in
  Ok (m, 0, path).

(** The return value and the vnode. *)
Definition sfs_lookup m (ino : Z) (path : list Z) : res (sfs_mnt B * Z * Z) :=
  let* d := is_dir m ino in
  if negb d then Ok (m, ENOTDIR, 0)
  else
  let* (m, result, final, _) := sfs_lookonce m ino path in
  if negb (result =? 0) then Ok (m, result, 0) else Ok (m, 0, final).
End Vnodes.
