(* ===== verification/SfsVolume.v ===== *)
(** Mounted volumes: what holds of the vnodes in memory, the inodes on the disk
    and the blocks of both, and that loading, creating and reclaiming vnodes
    keep it (the functions of file SfsVnode).

    [E] are the files that are not in memory, as their inodes on the disk have
    them; [ext E (vol m)] is the volume with all its files. *)
From S2P Require Import Prelude Bitmap Sfs SfsDir SfsFile SfsExt SfsVnode.

(** What a volume keeps besides files: blocks set aside, in which the map of
    free blocks is saved, and the superblock. *)
Class Layout (B : Type) := {
  aside : Z -> Prop;
  saved : B -> gmap Z (list Z) -> Prop;
  super : option (list Z);
  volume_blocks : Z;
  saved_ext : forall b d d', (forall i, aside i -> d' !! i = d !! i) -> saved b d -> saved b d'
}.

Section Volume.
Context {B : Type} `{FreeMapLaws B} `{Layout B}.
Implicit Types (m : sfs_mnt B) (s : sfs_fs B) (E : gmap Z sfs_vnode).

(** The inode is stored on the disk. *)
Definition on_disk s (i : Z) (sv : sfs_vnode) : Prop := exists d, disk s !! i = Some d /\ block_dinode d = Ok (sv_i sv).

Definition type_of (i : Z) : Z := if i =? SFS_ROOTDIR_INO then SFS_TYPE_DIR else SFS_TYPE_FILE.

(** In [E] the blocks set aside are entered like files without blocks, so that
    they are apart from all files. *)
Record laid_out s E : Prop := {
  lo_aside : forall i, aside i -> (exists sv, E !! i = Some sv /\ sv_dirty sv = true) /\ i <> SFS_ROOTDIR_INO;
  lo_saved : sfs_freemapdirty s = false -> saved (sfs_freemap s) (disk s);
  lo_super : disk s !! 0 = super;
  lo_nblocks : sb_nblocks s = volume_blocks
}.

(** What holds of the inodes and blocks of a volume [s], with the files [E]
    not in memory. *)
Record vol_sound s E : Prop := {
  vs_inv : sfs_inv (ext E s);
  vs_disj : E ##ₘ sfs_vnodes s;
  vs_disk : forall i sv, sfs_vnodes (ext E s) !! i = Some sv -> sv_dirty sv = false -> on_disk s i sv;
  vs_clean : forall i sv, E !! i = Some sv -> ~ aside i -> sv_dirty sv = false;
  vs_live : forall i sv, E !! i = Some sv -> sfi_linkcount (sv_i sv) <> 0;
  vs_type : forall i sv, sfs_vnodes (ext E s) !! i = Some sv -> sfi_type (sv_i sv) = type_of i;
  vs_zero : forall i, is_Some (sfs_vnodes (ext E s) !! i) -> i <> 0;
  vs_root : exists sv, sfs_vnodes (ext E s) !! SFS_ROOTDIR_INO = Some sv /\ sfi_linkcount (sv_i sv) <> 0;
  vs_small : small_volume s;
  vs_io : rd_errors s = [];
  vs_layout : laid_out s E
}.

(** The vnode table and the counts are those of the vnodes. *)
Record table_sound m : Prop := {
  ts_nodup : NoDup (table m);
  ts_table : forall i, i ∈ table m <-> is_Some (sfs_vnodes (vol m) !! i);
  ts_refs : forall i, is_Some (vn_refcount m !! i) <-> is_Some (sfs_vnodes (vol m) !! i);
  ts_pos : forall i n, vn_refcount m !! i = Some n -> 1 <= n
}.

Definition sound m E : Prop := vol_sound (vol m) E /\ table_sound m.

(** ** Volumes with and without [E] *)

Lemma ext_lookup s E i sv : sfs_vnodes s !! i = Some sv -> sfs_vnodes (ext E s) !! i = Some sv.
Proof. intros Hv. cbn. by apply lookup_union_Some_l. Qed.

Lemma ext_lookup_E s E i : sfs_vnodes s !! i = None -> sfs_vnodes (ext E s) !! i = E !! i.
Proof. intros Hv. cbn. by rewrite lookup_union_r. Qed.

Lemma ext_cases s E i sv : sfs_vnodes (ext E s) !! i = Some sv -> sfs_vnodes s !! i = Some sv \/ (sfs_vnodes s !! i = None /\ E !! i = Some sv).
Proof. cbn. rewrite lookup_union_Some_raw. tauto. Qed.

Lemma vol_ok_mem s E : vol_ok (ext E s) -> vol_ok s.
Proof. intros [M S U O Z D V X]. split; try done. intros ino sv Hv. apply (V ino). by apply ext_lookup. Qed.

Lemma took_ext s s1 b E : took s s1 b -> took (ext E s) (ext E s1) b.
Proof. intros [R F Us M D [N V] Dv I]. split; try done. cbn. by rewrite V. Qed.

Lemma freed_ext_E s s1 F E : freed s s1 F -> freed (ext E s) (ext E s1) F.
Proof. intros [M U N D]. by split. Qed.

Lemma with_io_same s : with_io s (rd_errors s) = s.
Proof. by destruct s. Qed.

(** A vnode that leaves memory. *)
Lemma ext_move s E i sv : sfs_vnodes s !! i = Some sv -> E ##ₘ sfs_vnodes s -> ext (<[i := sv]> E) (without_vnode s i) = ext E s.
Proof.
  intros Hv Hd. unfold ext, without_vnode. cbn. f_equal. apply map_eq. intros j. destruct (decide (j = i)) as [-> | Hne].
  - rewrite lookup_union_r by apply lookup_delete_eq. rewrite lookup_insert_eq. symmetry. by apply lookup_union_Some_l.
  - rewrite !lookup_union, lookup_delete_ne, lookup_insert_ne by done. done.
Qed.

(** A file that comes into memory. *)
Lemma ext_load s E i sv : E !! i = Some sv -> sfs_vnodes s !! i = None -> ext (delete i E) (with_vnode s i sv) = ext E s.
Proof.
  intros HE Hv. unfold ext, with_vnode. cbn. f_equal. apply map_eq. intros j. destruct (decide (j = i)) as [-> | Hne].
  - rewrite !lookup_union, lookup_insert_eq, lookup_delete_eq, Hv, HE. done.
  - rewrite !lookup_union, lookup_delete_ne, lookup_insert_ne by done. done.
Qed.

(** A step that leaves the blocks set aside and the superblock alone. *)
Lemma layout_keep s s' E :
  laid_out s E -> map_marked s s' -> sb_nblocks s' = sb_nblocks s -> (forall i, i = 0 \/ aside i -> disk s' !! i = disk s !! i) -> laid_out s' E.
Proof.
  intros [A S P N] HM Hn Hd. split; [done | | rewrite Hd by (by left); done | congruence].
  intros Hc. destruct HM as [? | [-> Hf]]; [congruence |]. eapply saved_ext; [ | apply S; congruence]. intros i Hi. apply Hd. by right.
Qed.

Lemma layout_eq s E E' : laid_out s E -> (forall i, aside i -> E' !! i = E !! i) -> laid_out s E'.
Proof. intros [A S P N] HE. split; try done. intros i Hi. rewrite HE by done. by apply A. Qed.

Lemma aside_ext s E i : laid_out s E -> aside i -> is_Some (sfs_vnodes (ext E s) !! i).
Proof. intros HL Hi. destruct (lo_aside _ _ HL i Hi) as [(sv & Hv & _) _]. cbn. rewrite lookup_union, Hv. by destruct (sfs_vnodes s !! i); eexists. Qed.

(** ** A change to one file in memory *)

Lemma edits_ext s s' E i j sv' :
  edits i s s' -> is_Some (sfs_vnodes s !! i) -> sfs_vnodes (ext E s') !! j = Some sv' -> exists sv, sfs_vnodes (ext E s) !! j = Some sv /\ (j = i -> edited sv sv') /\ (j <> i -> sv' = sv).
Proof.
  intros HE [svi Hvi] Hj. destruct (decide (j = i)) as [-> | Hne].
  - destruct (ed_vnode _ _ _ HE svi Hvi) as (svi' & Hvi' & Hed). rewrite (ext_lookup _ _ _ _ Hvi') in Hj. injection Hj as <-.
    exists svi. split; [by apply ext_lookup |]. by split.
  - exists sv'. split; [ | by split]. cbn in *. rewrite lookup_union in *. by rewrite <- (ed_others _ _ _ HE j Hne).
Qed.

Lemma edits_loaded s s' i j : edits i s s' -> is_Some (sfs_vnodes s !! i) -> is_Some (sfs_vnodes s' !! j) <-> is_Some (sfs_vnodes s !! j).
Proof.
  intros HE [sv Hv]. destruct (decide (j = i)) as [-> | Hne]; [ | by rewrite (ed_others _ _ _ HE)].
  destruct (ed_vnode _ _ _ HE sv Hv) as (sv' & Hv' & _). rewrite Hv, Hv'. split; by eexists.
Qed.

Lemma sound_edit s s' E i :
  vol_sound s E -> is_Some (sfs_vnodes s !! i) -> edits i s s' -> sfs_inv (ext E s') -> inodes_kept (ext E s) (ext E s') -> vol_sound s' E.
Proof.
  intros [I D K C L T Z X S R Q] Hi HE HI HK.
  assert (Q' : laid_out s' E).
  { apply (layout_keep s); [done | apply HE | apply HE |]. intros i0 Hi0. apply (HK i0). destruct Hi0 as [ | Ha]; [by left | right; by apply aside_ext]. }
  split; [done | | | done | done | | | | | by apply (ed_io _ _ _ HE) | done].
  - apply map_disjoint_spec. intros j x y Hx Hy. destruct (proj1 (edits_loaded s s' i j HE Hi)) as [z Hz]; [by eexists |].
    exact (proj1 (map_disjoint_spec _ _) D j x z Hx Hz).
  - intros j sv' Hj Hd. destruct (edits_ext s s' E i j sv' HE Hi Hj) as (sv & Hsv & Hed & Hne).
    assert (sv' = sv) as ->. { destruct (decide (j = i)) as [-> | ]; [ | auto]. destruct (Hed eq_refl) as [[-> | Hdt] _]; [done | congruence]. }
    destruct (K j sv Hsv Hd) as (d & Hd1 & Hd2). exists d. split; [ | done].
    assert (Hk : disk s' !! j = disk s !! j) by (apply HK; right; by eexists). by rewrite Hk.
  - intros j sv' Hj. destruct (edits_ext s s' E i j sv' HE Hi Hj) as (sv & Hsv & Hed & Hne). rewrite <- (T j sv Hsv).
    destruct (decide (j = i)) as [-> | Hn]; [by destruct (Hed eq_refl) as (_ & -> & _) | by rewrite Hne].
  - intros j [sv' Hj]. destruct (edits_ext s s' E i j sv' HE Hi Hj) as (sv & Hsv & _). apply Z. by eexists.
  - destruct X as (svr & Hr & Hl). destruct (edits_loaded s s' i SFS_ROOTDIR_INO HE Hi) as [_ Hback].
    assert (Hsome : is_Some (sfs_vnodes (ext E s') !! SFS_ROOTDIR_INO)).
    { destruct (ext_cases _ _ _ _ Hr) as [Hm | [Hm He]]; [destruct Hback as [y Hy]; [by eexists | exists y; by apply ext_lookup] |].
      destruct (sfs_vnodes s' !! SFS_ROOTDIR_INO) as [y | ] eqn:Ey; [exists y; by apply ext_lookup |]. exists svr. by rewrite ext_lookup_E. }
    destruct Hsome as [sv' Hj]. exists sv'. split; [done |]. destruct (edits_ext s s' E i _ sv' HE Hi Hj) as (sv & Hsv & Hed & Hne).
    assert (sv = svr) as -> by congruence. destruct (decide (SFS_ROOTDIR_INO = i)) as [Ei | Ni]; [by destruct (Hed Ei) as (_ & _ & ->) | by rewrite (Hne Ni)].
  - unfold small_volume. by rewrite (ed_nblocks _ _ _ HE).
Qed.

Lemma table_edit m s' i : table_sound m -> is_Some (sfs_vnodes (vol m) !! i) -> edits i (vol m) s' -> table_sound (with_vol m s').
Proof.
  intros [N T R P] Hi HE. split; try done; intros j; cbn; rewrite (edits_loaded _ _ _ _ HE Hi); [apply T | apply R].
Qed.

(** ** Loading *)

Lemma inode_used s E i : vol_sound s E -> is_Some (sfs_vnodes (ext E s) !! i) -> 0 < i < sb_nblocks s /\ fm_used (sfs_freemap s) i = true.
Proof.
  intros HS Hi. pose proof (vs_zero _ _ HS i Hi) as Hn. destruct Hi as [sv Hv].
  pose proof (sv_used _ (vs_inv _ _ HS) (i, SIno)) as Hu. rewrite (block_at_Some _ _ _ _ Hv) in Hu. by apply Hu.
Qed.

Lemma bused_ok s i : vol_ok s -> 0 <= i < sb_nblocks s -> exists u, sfs_bused s i = Ok u /\ (u =? 0) = negb (fm_used (sfs_freemap s) i).
Proof.
  intros Hv Hi. unfold sfs_bused. destruct (Z.leb_spec (sb_nblocks s) i); [lia |]. apply fm_isset_ok; [apply Hv |]. pose proof (vo_size _ Hv). lia.
Qed.

Lemma vs_vol s E : vol_sound s E -> vol_ok s.
Proof. intros HS. apply (vol_ok_mem s E), (vs_inv _ _ HS). Qed.

Lemma find_vnode_ok s E l ino ty :
  vol_sound s E -> (forall i, i ∈ l -> is_Some (sfs_vnodes s !! i)) -> ty = SFS_TYPE_INVAL \/ ino ∉ l -> find_vnode l s ino ty = Ok (bool_decide (ino ∈ l)).
Proof.
  intros HS. induction l as [ | i l IH]; intros Hl Hty; [done |]. cbn [find_vnode].
  destruct (inode_used s E i HS) as [Hr Hu]; [destruct (Hl i) as [sv Hv]; [left | exists sv; by apply ext_lookup] |].
  destruct (bused_ok s i (vs_vol _ _ HS)) as (u & -> & Hz); [lia |]. cbn [rbind]. rewrite Hz, Hu. cbn [negb].
  destruct (Z.eqb_spec i ino) as [-> | Hne].
  - destruct Hty as [-> | Hno]; [ | by destruct Hno; left]. rewrite bool_decide_eq_true_2 by left. done.
  - rewrite IH; [ | intros j Hj; apply Hl; by right | destruct Hty as [ | Hno]; [by left | right; intros Hj; apply Hno; by right]].
    f_equal. apply bool_decide_ext. rewrite elem_of_cons. naive_solver.
Qed.

Lemma want_mem_cases m : exists l b, want_mem m = (mkMnt (vol m) (table m) (vn_refcount m) l, b).
Proof. unfold want_mem. destruct (nomem m) as [ | [ | ] l]; by eexists _, _. Qed.

(** Only the memory that is left may differ. *)
Definition same_mnt m m' : Prop := vol m' = vol m /\ table m' = table m /\ vn_refcount m' = vn_refcount m.

(** One reference more. *)
Definition plus_ref (r : gmap Z Z) (i : Z) : gmap Z Z := <[i := default 0 (r !! i) + 1]> r.

(** A file of the volume is loaded, or not for want of memory.  The volume with
    all its files is as before. *)
Lemma loadvnode_ok m E i :
  sound m E -> is_Some (sfs_vnodes (ext E (vol m)) !! i) -> ~ aside i ->
  exists m' r, sfs_loadvnode m i SFS_TYPE_INVAL = Ok (m', r) /\
    ((r = ENOMEM /\ same_mnt m m') \/
     (r = 0 /\ is_Some (sfs_vnodes (vol m') !! i) /\ vn_refcount m' = plus_ref (vn_refcount m) i /\
      exists E', sound m' E' /\ ext E' (vol m') = ext E (vol m))).
Proof.
  intros [HS HT] Hi Hna. destruct HT as [TN TT TR TP]. unfold sfs_loadvnode.
  rewrite (find_vnode_ok _ E) by (done || (intros j Hj; by apply TT) || by left). cbn [rbind]. case_bool_decide as Hin.
  { apply TT in Hin. destruct (proj2 (TR i) Hin) as [n Hn]. unfold VOP_INCREF. rewrite Hn. cbn [access rbind]. eexists _, 0. split; [done |]. right.
    split; [done |]. split; [done |]. split; [unfold plus_ref; by rewrite Hn |]. exists E. split; [ | done]. split; [done |]. split; cbn; [done | done | |].
    - intros j. rewrite lookup_insert_is_Some', TR. split; [intros [<- | ?]; done | by right].
    - intros j k [[<- <-] | [_ Hk]]%lookup_insert_Some; [specialize (TP i n Hn); lia | by eapply TP]. }
  assert (Hnone : sfs_vnodes (vol m) !! i = None) by (apply eq_None_not_Some; by rewrite <- TT).
  destruct Hi as [sv Hv]. rewrite ext_lookup_E in Hv by done.
  destruct (want_mem_cases m) as (l & b & ->). destruct b; cbn [negb]; [ | eexists _, ENOMEM; split; [done |]; by left].
  cbn [vol]. assert (Hall : sfs_vnodes (ext E (vol m)) !! i = Some sv) by by rewrite ext_lookup_E.
  destruct (inode_used (vol m) E i HS) as [Hr Hu]; [by eexists |].
  destruct (bused_ok (vol m) i (vs_vol _ _ HS)) as (u & -> & Hz); [lia |]. cbn [rbind]. rewrite Hz, Hu. cbn [negb].
  destruct (vs_disk _ _ HS i sv Hall (vs_clean _ _ HS i sv Hv Hna)) as (d & Hd & Hp).
  destruct (readblock_ok (vol m) i d) as (l1 & r & d' & -> & Hres & Hio); [apply (vs_vol _ _ HS) | lia | done |].
  destruct (Hio (vs_io _ _ HS)) as [-> ->]. destruct Hres as [[_ ->] | ?]; [ | done]. cbn [rbind negb Z.eqb].
  rewrite <- (vs_io _ _ HS), with_io_same, Hp. cbn [rbind negb Z.eqb]. change (SFS_TYPE_INVAL =? SFS_TYPE_INVAL) with true. cbn [negb rbind].
  pose proof (vs_type _ _ HS i sv Hall) as Hty. pose proof (vs_clean _ _ HS i sv Hv Hna) as Hcl.
  assert (Esv : mkSv (sv_i sv) false = sv) by (destruct sv; cbn in *; by subst). rewrite Esv.
  assert (negb ((sfi_type (sv_i sv) =? SFS_TYPE_FILE) || (sfi_type (sv_i sv) =? SFS_TYPE_DIR)) = false) as ->.
  { rewrite Hty. unfold type_of. by destruct (i =? SFS_ROOTDIR_INO). }
  destruct (want_mem_cases (with_vol (mkMnt (vol m) (table m) (vn_refcount m) l) (vol m))) as (l2 & b2 & ->).
  destruct b2; cbn [negb vol table vn_refcount nomem with_vol]; [ | eexists _, ENOMEM; split; [done |]; by left].
  eexists _, 0. split; [done |]. right. split; [done |]. split; [cbn; by rewrite lookup_insert_eq |].
  assert (Hrn : vn_refcount m !! i = None) by (apply eq_None_not_Some; rewrite TR, Hnone; by intros [? ?]).
  split; [unfold plus_ref; by rewrite Hrn |]. exists (delete i E). cbn [vol]. rewrite (ext_load (vol m) E i sv) by done. split; [ | done].
  destruct HS as [I D K C L T Z X S R Q]. split; split; cbn [vol table vn_refcount].
  - by rewrite (ext_load (vol m) E i sv).
  - cbn. apply map_disjoint_insert_r. split; [apply lookup_delete_eq |]. by apply map_disjoint_delete_l.
  - rewrite (ext_load (vol m) E i sv) by done. exact K.
  - intros j svj [_ Hj]%lookup_delete_Some. by apply (C j).
  - intros j svj [_ Hj]%lookup_delete_Some. by apply (L j).
  - by rewrite (ext_load (vol m) E i sv).
  - by rewrite (ext_load (vol m) E i sv).
  - by rewrite (ext_load (vol m) E i sv).
  - done.
  - done.
  - apply layout_eq with E; [apply (layout_keep (vol m)); [done | by right | done | done] |]. intros j Hj. apply lookup_delete_ne. by intros ->.
  - apply NoDup_app. split; [done |]. split; [ | apply NoDup_singleton]. intros j Hj ->%list_elem_of_singleton. done.
  - intros j. cbn. rewrite elem_of_app, list_elem_of_singleton, lookup_insert_is_Some', TT. naive_solver.
  - intros j. cbn. rewrite !lookup_insert_is_Some', TR. done.
  - intros j k [[<- <-] | [_ Hk]]%lookup_insert_Some; [done | by eapply TP].
Qed.

(** ** Writing back and reclaiming *)

Lemma block_at_delete s s' i p :
  sfs_vnodes s' = delete i (sfs_vnodes s) -> disk s' = disk s -> block_at s' p = if decide (p.1 = i) then 0 else block_at s p.
Proof.
  intros Hv Hd. unfold block_at. rewrite Hv, Hd. case_decide as E; [by rewrite E, lookup_delete_eq | by rewrite lookup_delete_ne].
Qed.

Lemma disj_None s E i sv : vol_sound s E -> sfs_vnodes s !! i = Some sv -> E !! i = None.
Proof. intros HS Hv. apply eq_None_not_Some. intros [y Hy]. exact (proj1 (map_disjoint_spec _ _) (vs_disj _ _ HS) i y sv Hy Hv). Qed.

Lemma mem_not_aside s E i sv : vol_sound s E -> sfs_vnodes s !! i = Some sv -> ~ aside i.
Proof. intros HS Hv Ha. destruct (lo_aside _ _ (vs_layout _ _ HS) i Ha) as [(y & Hy & _) _]. by rewrite (disj_None _ _ _ _ HS Hv) in Hy. Qed.

(** What sfs_sync_inode does to the volume. *)
Record synced s E i sv s' : Prop := {
  sy_sound : vol_sound s' E;
  sy_reads : reads_same (ext E s) (ext E s');
  sy_vnodes : sfs_vnodes s' = <[i := mkSv (sv_i sv) false]> (sfs_vnodes s);
  sy_blocks : forall p, block_at (ext E s') p = block_at (ext E s) p
}.

Lemma sync_inode_ok s E i sv :
  vol_sound s E -> sfs_vnodes s !! i = Some sv -> exists s', sfs_sync_inode s i = Ok (s', 0) /\ synced s E i sv s' /\ (sv_dirty sv = true \/ s' = s).
Proof.
  intros HS Hv. pose proof HS as [I D K C L T Z X S R Q]. pose proof (ext_lookup s E i sv Hv) as Hx. pose proof (mem_not_aside s E i sv HS Hv) as Hna.
  assert (Hi0 : i <> 0) by (apply Z; by eexists). destruct (inode_used s E i HS) as [Hr Hu]; [by eexists |].
  pose proof (vo_inode _ (sv_vol _ I) _ _ Hx) as Hok. unfold sfs_sync_inode, get_vnode. rewrite Hv. cbn [access rbind].
  destruct (sv_dirty sv) eqn:Hd.
  2: { exists s. split; [done |]. split; [ | by right]. split; [done | apply unchanged_reads, unchanged_same; [done | by apply same_refl] | | done].
       rewrite insert_id; [done |]. rewrite Hv. destruct sv; cbn in *; by subst. }
  rewrite writeblock_ok; [ | apply (vs_vol _ _ HS) | lia | by apply dinode_block_length]. cbn [rbind negb Z.eqb].
  eexists. split; [done |]. split; [ | by left].
  assert (Hg : good_block (dinode_block (sv_i sv))) by (split; [by apply dinode_block_length | apply bytes_of_bytes]).
  pose proof (inode_written (ext E s) i sv (dinode_block (sv_i sv)) (rd_errors s) I Hx Hi0 Hg) as HR.
  set (s' := with_vnode (with_block (with_io s (rd_errors s)) i (dinode_block (sv_i sv))) i (mkSv (sv_i sv) false)).
  assert (He : with_vnode (with_block (with_io (ext E s) (rd_errors s)) i (dinode_block (sv_i sv))) i (mkSv (sv_i sv) false) = ext E s')
    by exact (ext_vnode E i (with_block (with_io s (rd_errors s)) i (dinode_block (sv_i sv))) (mkSv (sv_i sv) false)).
  rewrite He in HR.
  assert (Hall : forall j, sfs_vnodes (ext E s') !! j = if decide (j = i) then Some (mkSv (sv_i sv) false) else sfs_vnodes (ext E s) !! j).
  { intros j. cbn. rewrite !lookup_union. case_decide as Ej; [rewrite Ej, lookup_insert_eq; by destruct (E !! i) | by rewrite lookup_insert_ne]. }
  split; [ | done | done |].
  - split; [apply HR | | | done | done | | | | done | done |].
    + cbn. apply map_disjoint_insert_r. split; [ | done]. apply eq_None_not_Some. intros [y Hy]. exact (proj1 (map_disjoint_spec _ _) D i y sv Hy Hv).
    + intros j svj Hj Hcl. rewrite Hall in Hj. unfold on_disk. cbn. case_decide as Ej.
      * injection Hj as <-. subst j. exists (dinode_block (sv_i sv)). rewrite lookup_insert_eq. split; [done | by apply dinode_roundtrip].
      * rewrite lookup_insert_ne by done. by apply (K j).
    + intros j svj Hj. rewrite Hall in Hj. case_decide as Ej; [injection Hj as <-; subst j; by apply (T i sv) | by apply T].
    + intros j Hj. rewrite Hall in Hj. case_decide as Ej; [by subst j | by apply Z].
    + destruct X as (svr & Hr1 & Hl). rewrite Hall. case_decide as Ej; [ | by exists svr]. eexists. split; [done |]. cbn. subst i. congruence.
    + apply (layout_keep s); [done | by right | done |]. intros j Hj. cbn. rewrite lookup_insert_ne; [done |]. intros <-. by destruct Hj.
  - intros [j sl]. unfold block_at at 1. cbn [fst snd]. rewrite Hall. cbn [ext disk s' with_vnode with_block with_io].
    assert (Hw : forall svj, sfs_vnodes (ext E s) !! j = Some svj -> vnode_block (<[i := dinode_block (sv_i sv)]> (disk s)) j svj sl = block_at (ext E s) (j, sl)).
    { intros svj Hj. rewrite (block_at_Some _ _ _ _ Hj). destruct sl as [ | | f]; cbn; [done | done |]. apply file_block_ext. intros Hne.
      rewrite lookup_insert_ne; [done |]. pose proof (slot_inode (ext E s) (j, SInd) i I) as Hs. rewrite (block_at_Some _ _ _ _ Hj) in Hs.
      apply not_eq_sym, Hs; [done | done | right; by eexists]. }
    case_decide as Ej.
    + subst j. rewrite <- (Hw sv Hx). done.
    + destruct (sfs_vnodes (ext E s) !! j) as [svj | ] eqn:Hj; [by apply Hw |]. unfold block_at. cbn [fst]. by rewrite Hj.
Qed.

(** A file that no longer exists. *)
Record gone s s' i : Prop := {
  gn_content : forall j f, j <> i -> content s' j f = content s j f;
  gn_attrs : forall j, attrs s' j = if j =? i then None else attrs s j
}.

Lemma bfree_dirty s b s' : sfs_bfree s b = Ok s' -> sfs_freemapdirty s' = true.
Proof. unfold sfs_bfree. destruct (fm_unmark _ _); [ | done]. by intros [= <-]. Qed.

(** An inode without blocks is given back and leaves memory. *)
Lemma drop_inode_ok s E i sv :
  vol_sound s E -> sfs_vnodes s !! i = Some sv -> i <> SFS_ROOTDIR_INO -> (forall sl, sl <> SIno -> block_at (ext E s) (i, sl) = 0) ->
  exists s', sfs_bfree s i = Ok s' /\ sfs_vnodes s' = sfs_vnodes s /\ vol_sound (without_vnode s' i) E /\ gone (ext E s) (ext E (without_vnode s' i)) i.
Proof.
  intros HS Hv Hroot Hb0. pose proof HS as [I D K C L T Z X S R Q]. pose proof (bfree_dirty s i) as Hdirty. pose proof (ext_lookup s E i sv Hv) as Hx.
  destruct (inode_used s E i HS) as [Hr Hu]; [by eexists |].
  destruct (bfree_ok s i (vs_vol _ _ HS) Hr Hu) as (s3 & E3 & HF & V3 & D3 & R3). exists s3. split; [done |]. split; [done |].
  set (t := ext E (without_vnode s3 i)). assert (Hvs : sfs_vnodes t = delete i (sfs_vnodes (ext E s))).
  { cbn. rewrite V3. apply map_eq. intros j. destruct (decide (j = i)) as [-> | Hne].
    - rewrite lookup_delete_eq, lookup_union_r by apply lookup_delete_eq. by eapply disj_None.
    - by rewrite lookup_delete_ne, !lookup_union, lookup_delete_ne by done. }
  assert (Hbl : forall p, block_at t p = if decide (p.1 = i) then 0 else block_at (ext E s) p) by (intros p; by apply block_at_delete).
  assert (Hino : block_at (ext E s) (i, SIno) = i) by by rewrite (block_at_Some _ _ _ _ Hx).
  assert (HFt : freed (ext E s) t (eq i)) by (destruct HF as [F1 F2 F3 F4]; by split).
  assert (HI : sfs_inv t).
  { split.
    - eapply vol_freed; [apply I | exact HFt | intros j <-; exact Hr | intros b Hb; cbn; rewrite D3; by apply (vo_disk _ (sv_vol _ I)) |].
      intros j svj. rewrite Hvs. intros [_ Hj]%lookup_delete_Some. by eapply (vo_inode _ (sv_vol _ I)).
    - intros p. rewrite Hbl. case_decide as Ep; [done |]. intros Hp. destruct (sv_used _ I p Hp) as [Hpr Hpu].
      rewrite (fd_nblocks _ _ _ HFt). split; [done |]. apply (fd_used _ _ _ HFt). split; [done |]. intros Ei.
      assert ((i, SIno) = p) as <-; [ | done]. apply (sv_inj _ I); [lia | congruence].
    - intros p q. rewrite !Hbl. repeat case_decide; try done. by apply (sv_inj _ I). }
  split.
  - split; [done | | | done | done | | | | | by cbn; rewrite R3 |].
    + cbn. rewrite V3. by apply map_disjoint_delete_r.
    + intros j svj. fold t. rewrite Hvs. intros [Hne Hj]%lookup_delete_Some Hd. destruct (K j svj Hj Hd) as (d & Hd1 & Hd2). exists d. split; [cbn; by rewrite D3 | done].
    + intros j svj. fold t. rewrite Hvs. intros [_ Hj]%lookup_delete_Some. by apply T.
    + intros j. fold t. rewrite Hvs. intros [_ Hj]%lookup_delete_is_Some. by apply Z.
    + fold t. rewrite Hvs. destruct X as (svr & Hr1 & Hl). exists svr. by rewrite lookup_delete_ne.
    + unfold small_volume in *. cbn. destruct HF as [_ _ -> _]. done.
    + apply (layout_keep s); [done | left; exact (Hdirty s3 E3) | apply HF | intros j _; cbn; by rewrite D3].
  - split.
    + intros j f Hne. unfold content. rewrite Hbl. cbn [fst]. rewrite decide_False by done. cbn. by rewrite D3.
    + intros j. unfold attrs. rewrite Hvs. destruct (Z.eqb_spec j i) as [-> | Hne]; [by rewrite lookup_delete_eq | by rewrite lookup_delete_ne].
Qed.

Lemma table_remove_ok l i : i ∈ l -> NoDup l -> exists l', table_remove l i = Some l' /\ NoDup l' /\ forall j, j ∈ l' <-> j ∈ l /\ j <> i.
Proof.
  induction l as [ | x l IH]; intros Hi Hn; [by apply not_elem_of_nil in Hi |]. apply NoDup_cons in Hn as [Hx Hn]. cbn [table_remove].
  destruct (Z.eqb_spec x i) as [-> | Hne].
  - exists l. split; [done |]. split; [done |]. intros j. rewrite elem_of_cons. split; [intros Hj; split; [by right | by intros ->] | naive_solver].
  - apply elem_of_cons in Hi as [-> | Hi]; [done |]. destruct (IH Hi Hn) as (l' & -> & Hn' & Hl'). exists (x :: l'). split; [done |]. split.
    + apply NoDup_cons. split; [ | done]. rewrite Hl'. naive_solver.
    + intros j. rewrite !elem_of_cons, Hl'. naive_solver.
Qed.

Lemma get_vnode_ok s i sv : sfs_vnodes s !! i = Some sv -> get_vnode s i = Ok sv.
Proof. intros Hv. unfold get_vnode. by rewrite Hv. Qed.

(** A file in memory is truncated. *)
Lemma itrunc_sound s E i sv len :
  vol_sound s E -> sfs_vnodes s !! i = Some sv ->
  exists s', sfs_itrunc s i len = Ok (s', 0) /\ vol_sound s' E /\ edits i s s' /\ itrunc_post (ext E s) i len (file_blocks len) (ext E s').
Proof.
  intros HS Hv. destruct (itrunc_ok (ext E s) i sv len (vs_inv _ _ HS) (ext_lookup s E i sv Hv)) as (t & r & Et & Hio & Hr).
  specialize (Hio (vs_io _ _ HS)). subst r. destruct Hr as [[_ HP] | ?]; [ | done].
  destruct (lifts_elim E i s _ _ _ (itrunc_lifts E i s len ltac:(by eexists)) Et) as ([s1 r1] & E1 & Ea & HE).
  injection Ea as -> <-. cbn in HE. exists s1. split; [done |]. split; [ | by split].
  apply (sound_edit s s1 E i); [done | by eexists | done | apply HP | apply HP].
Qed.

(** The last reference to a file without links is given up. *)
Lemma erase_ok s E i sv :
  vol_sound s E -> sfs_vnodes s !! i = Some sv -> sfi_linkcount (sv_i sv) = 0 ->
  exists s1 s2 s3 sv2, sfs_itrunc s i 0 = Ok (s1, 0) /\ sfs_sync_inode s1 i = Ok (s2, 0) /\ get_vnode s2 i = Ok sv2 /\
    sfi_linkcount (sv_i sv2) = 0 /\ sfs_bfree s2 i = Ok s3 /\ (forall j, is_Some (sfs_vnodes s3 !! j) <-> is_Some (sfs_vnodes s !! j)) /\
    vol_sound (without_vnode s3 i) E /\ gone (ext E s) (ext E (without_vnode s3 i)) i.
Proof.
  intros HS Hv Hl. destruct (itrunc_sound s E i sv 0 HS Hv) as (s1 & E1 & HS1 & HE1 & HP). change (file_blocks 0) with 0 in HP.
  destruct (ed_vnode _ _ _ HE1 sv Hv) as (sv1 & Hv1 & _ & _ & Hl1).
  destruct (sync_inode_ok s1 E i sv1 HS1 Hv1) as (s2 & E2 & [Y1 Y2 Y3 Y4] & _).
  assert (Hv2 : sfs_vnodes s2 !! i = Some (mkSv (sv_i sv1) false)) by by rewrite Y3, lookup_insert_eq.
  destruct (drop_inode_ok s2 E i _ Y1 Hv2) as (s3 & E3 & V3 & HS3 & HG).
  { intros ->. destruct (vs_root _ _ HS) as (svr & Hr & Hlr). rewrite (ext_lookup _ _ _ _ Hv) in Hr. congruence. }
  { intros sl Hsl. rewrite Y4. by apply itrunc_nothing with (ext E s). }
  exists s1, s2, s3, (mkSv (sv_i sv1) false). split; [done |]. split; [done |]. split; [by apply get_vnode_ok |]. split; [cbn; congruence |]. split; [done |].
  split; [ | split; [done |]].
  - intros j. rewrite V3, Y3, lookup_insert_is_Some'. rewrite (edits_loaded s s1 i j HE1) by by eexists. split; [intros [<- | ?]; [by eexists | done] | by right].
  - split.
    + intros j f Hne. rewrite (gn_content _ _ _ HG j f Hne), (rs_content _ _ Y2), (it_content _ _ _ _ _ HP). by destruct (Z.eqb_spec j i).
    + intros j. rewrite (gn_attrs _ _ _ HG). destruct (Z.eqb_spec j i); [done |]. rewrite (rs_attrs _ _ Y2), (it_size _ _ _ _ _ HP). by destruct (Z.eqb_spec j i).
Qed.

Lemma table_sound_drop m s l i :
  table_sound m -> (forall j, is_Some (sfs_vnodes s !! j) <-> is_Some (sfs_vnodes (vol m) !! j)) -> NoDup l -> (forall j, j ∈ l <-> j ∈ table m /\ j <> i) ->
  table_sound (mkMnt (without_vnode s i) l (delete i (vn_refcount m)) (nomem m)).
Proof.
  intros [N T R P] Hs Hl Hj. split; cbn; [done | | |].
  - intros j. rewrite Hj, T, lookup_delete_is_Some, Hs. naive_solver.
  - intros j. rewrite !lookup_delete_is_Some, Hs, R. done.
  - intros j k [_ Hk]%lookup_delete_Some. by eapply P.
Qed.

Lemma release_ref_ok m E i n sv :
  sound m E -> vn_refcount m !! i = Some n -> sfs_vnodes (vol m) !! i = Some sv ->
  exists m' E', VOP_DECREF m i = Ok m' /\ sound m' E' /\
    vn_refcount m' = (if n =? 1 then delete i (vn_refcount m) else <[i := n - 1]> (vn_refcount m)) /\
    if (n =? 1) && (sfi_linkcount (sv_i sv) =? 0) then gone (ext E (vol m)) (ext E' (vol m')) i else reads_same (ext E (vol m)) (ext E' (vol m')).
Proof.
  intros [HS HT] Hn Hv. pose proof (ts_pos _ HT i n Hn) as Hpos. unfold VOP_DECREF. rewrite Hn. cbn [access rbind]. unfold kassert.
  destruct (Z.ltb_spec 0 n); [ | lia]. destruct (Z.ltb_spec 1 n) as [Hgt | Hle].
  { eexists _, E. split; [done |]. destruct (Z.eqb_spec n 1); [lia |]. split; [ | split; [done | apply unchanged_reads, unchanged_same; [apply HS | apply same_refl, HS]]].
    split; [done |]. destruct HT as [N T R P]. split; cbn; [done | done | |].
    - intros j. rewrite lookup_insert_is_Some', R. split; [intros [<- | ?]; [by eexists | done] | by right].
    - intros j k [[<- <-] | [_ Hk]]%lookup_insert_Some; [lia | by eapply P]. }
  assert (n = 1) as -> by lia. unfold sfs_reclaim. rewrite Hn. cbn [access rbind negb Z.eqb]. rewrite (get_vnode_ok _ _ _ Hv). cbn [rbind].
  destruct (table_remove_ok (table m) i) as (l & El & Hnl & Hl); [apply (ts_table _ HT); by eexists | apply HT |].
  cbn [Z.eqb andb]. destruct (Z.eqb_spec (sfi_linkcount (sv_i sv)) 0) as [Hz | Hnz].
  - destruct (erase_ok (vol m) E i sv HS Hv Hz) as (s1 & s2 & s3 & sv2 & -> & E2 & Eg & Hz2 & E3 & Hld & HS3 & HG).
    cbn [rbind negb Z.eqb]. rewrite E2. cbn [rbind negb Z.eqb]. rewrite Eg. cbn [rbind]. rewrite Hz2. cbn [Z.eqb]. rewrite E3. cbn [rbind]. rewrite El.
    eexists _, E. split; [done |]. split; [split; [done | by eapply table_sound_drop] | done].
  - cbn [rbind negb Z.eqb]. destruct (sync_inode_ok (vol m) E i sv HS Hv) as (s2 & -> & [Y1 Y2 Y3 Y4] & _). cbn [rbind negb Z.eqb].
    assert (Hv2 : sfs_vnodes s2 !! i = Some (mkSv (sv_i sv) false)) by by rewrite Y3, lookup_insert_eq.
    rewrite (get_vnode_ok _ _ _ Hv2). cbn [rbind sv_i]. destruct (Z.eqb_spec (sfi_linkcount (sv_i sv)) 0); [done |]. cbn [rbind]. rewrite El.
    eexists _, (<[i := mkSv (sv_i sv) false]> E). split; [done |]. cbn [vol vn_refcount].
    pose proof (ext_move s2 E i _ Hv2 (vs_disj _ _ Y1)) as Hmove. rewrite Hmove. split; [ | done]. split.
    + destruct Y1 as [I D K C L T Z X S R Q]. cbn [vol]. split; rewrite ?Hmove; try done.
      * cbn. apply map_disjoint_insert_l. split; [apply lookup_delete_eq |]. by apply map_disjoint_delete_r.
      * intros j svj [[<- <-] | [_ Hj]]%lookup_insert_Some; [done | by apply (C j)].
      * intros j svj [[<- <-] | [_ Hj]]%lookup_insert_Some; [done | by apply (L j)].
      * apply layout_eq with E; [apply (layout_keep s2); [done | by right | done | done] |]. intros j Hj. apply lookup_insert_ne. intros <-. by apply (mem_not_aside _ _ _ _ HS Hv).
    + eapply table_sound_drop; [done | | done | done]. intros j. rewrite Y3, lookup_insert_is_Some'. split; [intros [<- | ?]; [by eexists | done] | by right].
Qed.

(** ** Creating *)

Lemma content_none s i f : attrs s i = None -> content s i f = zeros.
Proof. unfold attrs, content, block_at. cbn. by destruct (sfs_vnodes s !! i). Qed.

(** A block is taken for an inode: no file has changed. *)
Lemma took_sound s s1 E b : vol_sound s E -> took s s1 b -> vol_sound s1 E /\ reads_same (ext E s) (ext E s1).
Proof.
  intros HS HT. pose proof (took_ext _ _ _ E HT) as HX. pose proof HS as [I D K C L T Z X S R Q]. pose proof (tk_rest _ _ _ HT) as [Hn Hv].
  assert (Hve : sfs_vnodes (ext E s1) = sfs_vnodes (ext E s)) by (cbn; by rewrite Hv). pose proof (tk_range _ _ _ HT) as Hb.
  assert (HI : sfs_inv (ext E s1)) by by eapply inv_took.
  assert (Hd : forall j, j <> b -> disk s1 !! j = disk s !! j) by (intros j Hj; rewrite (tk_disk _ _ _ HT); by apply lookup_insert_ne).
  split.
  - split; rewrite ?Hve; try done; [by rewrite Hv | | unfold small_volume; by rewrite Hn | by rewrite (tk_io _ _ _ HT) |].
    2: { apply (layout_keep s); [done | left; apply HT | done |]. intros i Hi. apply Hd, not_eq_sym, (fresh_inode (ext E s)); [done | apply HX | lia |].
         destruct Hi as [ | Ha]; [by left | right; by apply aside_ext]. }
    intros i sv Hi Hc. destruct (K i sv Hi Hc) as (d & Hd1 & Hd2). exists d. split; [ | done]. rewrite Hd; [done |].
    apply not_eq_sym, (fresh_inode (ext E s)); [done | apply HX | lia | right; by eexists].
  - split; [done | | intros i; unfold attrs; by rewrite Hve | done]. intros i f. unfold content. rewrite (took_block_at _ _ _ _ I HX).
    case_if; [done |]. change (disk (ext E s1)) with (disk s1). rewrite Hd; [done |]. apply fresh_block; [done | apply HX | lia].
Qed.

(** A block that belongs to no file is given back. *)
Lemma free_unowned s E b :
  vol_sound s E -> 0 < b < sb_nblocks s -> fm_used (sfs_freemap s) b = true -> (forall p, block_at (ext E s) p <> b) ->
  exists s', sfs_bfree s b = Ok s' /\ vol_sound s' E /\ reads_same (ext E s) (ext E s') /\ sfs_vnodes s' = sfs_vnodes s.
Proof.
  intros HS Hb Hu Hno. destruct (bfree_ok s b (vs_vol _ _ HS) Hb Hu) as (s' & E' & HF & V' & D' & R'). exists s'. split; [done |].
  pose proof HS as [I D K C L T Z X S R Q]. assert (HFx : freed (ext E s) (ext E s') (eq b)) by by apply freed_ext_E.
  assert (Hve : sfs_vnodes (ext E s') = sfs_vnodes (ext E s)) by (cbn; by rewrite V').
  assert (Hbl : forall p, block_at (ext E s') p = block_at (ext E s) p) by (intros p; unfold block_at; rewrite Hve; cbn; by rewrite D').
  assert (HI : sfs_inv (ext E s')).
  { split.
    - eapply vol_freed; [apply I | exact HFx | intros j <-; exact Hb | intros j Hj; cbn; rewrite D'; by apply (vo_disk _ (sv_vol _ I)) | rewrite Hve; apply I].
    - intros p. rewrite Hbl. intros Hp. destruct (sv_used _ I p Hp). rewrite (fd_nblocks _ _ _ HFx). split; [done |]. apply (fd_used _ _ _ HFx).
      split; [done |]. intros Ei. by apply (Hno p).
    - intros p q. rewrite !Hbl. apply I. }
  split; [ | split; [ | done]].
  - split; rewrite ?Hve; try done; [by rewrite V' | | unfold small_volume; by rewrite (fd_nblocks _ _ _ HF) | by rewrite R' |].
    2: { apply (layout_keep s); [done | left; by eapply bfree_dirty | apply HF | intros j _; by rewrite D']. }
    intros i sv Hi Hc. destruct (K i sv Hi Hc) as (d & Hd1 & Hd2). exists d. by rewrite D'.
  - split; [done | | intros i; unfold attrs; by rewrite Hve | apply HFx]. intros i f. unfold content. rewrite Hbl. cbn. by rewrite D'.
Qed.

Definition new_file (ty : Z) : sfs_vnode := mkSv (mkDinode 0 ty 0 (repeat 0 15) 0 (repeat 0 110)) true.

(** A file that did not exist. *)
Record created s s' i : Prop := {
  cr_new : attrs s i = None;
  cr_attrs : forall j, attrs s' j = if j =? i then Some (0, SFS_TYPE_FILE, 0) else attrs s j;
  cr_content : forall j f, content s' j f = content s j f
}.

Lemma add_vnode s E b :
  vol_sound s E -> 0 < b < sb_nblocks s -> fm_used (sfs_freemap s) b = true -> (forall p, block_at (ext E s) p <> b) ->
  vol_sound (with_vnode s b (new_file SFS_TYPE_FILE)) E /\ created (ext E s) (ext E (with_vnode s b (new_file SFS_TYPE_FILE))) b.
Proof.
  intros HS Hb Hu Hno. pose proof HS as [I D K C L T Z X S R Q]. set (nf := new_file SFS_TYPE_FILE). rewrite <- ext_vnode.
  assert (Hnone : sfs_vnodes (ext E s) !! b = None).
  { apply eq_None_not_Some. intros [sv Hv]. apply (Hno (b, SIno)). by rewrite (block_at_Some _ _ _ _ Hv). }
  assert (HEb : E !! b = None) by (cbn in Hnone; by apply lookup_union_None in Hnone as [_ ->]).
  assert (Hroot : b <> SFS_ROOTDIR_INO) by (intros ->; destruct X as (svr & Hr & _); congruence).
  assert (Hbl : forall p, block_at (with_vnode (ext E s) b nf) p = if decide (p = (b, SIno)) then b else block_at (ext E s) p).
  { intros [j sl]. destruct (decide (j = b)) as [-> | Hne].
    - rewrite (block_at_Some _ _ nf) by (cbn; by rewrite lookup_insert_eq). unfold block_at. cbn [fst]. rewrite Hnone.
      destruct sl as [ | | f]; [by rewrite decide_True | by rewrite decide_False | rewrite decide_False by done]. cbn [vnode_block].
      unfold file_block, idwords. case_if; cbn [sfi_direct sfi_indirect sv_i nf new_file]; [ | cbn [Z.eqb]]; apply zeros_entry.
    - rewrite decide_False by congruence. unfold block_at. cbn [fst snd with_vnode sfs_vnodes]. by rewrite lookup_insert_ne. }
  assert (HI : sfs_inv (with_vnode (ext E s) b nf)).
  { apply (inv_assign (ext E s) _ (b, SIno) b); try done. apply vol_vnode; [apply I | by apply dinode_check]. }
  split.
  - split; rewrite <- ?(ext_vnode E b); try done; change (sfs_vnodes (with_vnode (ext E s) b nf)) with (<[b := nf]> (sfs_vnodes (ext E s))).
    + cbn. apply map_disjoint_insert_r. by split.
    + intros j sv [[<- <-] | [Hne Hj]]%lookup_insert_Some Hc; [done | by apply (K j)].
    + intros j sv [[<- <-] | [Hne Hj]]%lookup_insert_Some; [ | by apply T]. unfold type_of. by destruct (Z.eqb_spec b SFS_ROOTDIR_INO).
    + intros j [-> | Hj]%lookup_insert_is_Some'; [lia | by apply Z].
    + destruct X as (svr & Hr & Hl). exists svr. split; [ | done]. cbn. by rewrite lookup_insert_ne.
    + by apply (layout_keep s); [ | right | |].
  - split; [unfold attrs; by rewrite Hnone | |].
    + intros j. unfold attrs. cbn [with_vnode sfs_vnodes]. destruct (Z.eqb_spec j b) as [-> | Hne]; [by rewrite lookup_insert_eq | by rewrite lookup_insert_ne].
    + intros j f. unfold content. rewrite Hbl, decide_False by done. done.
Qed.

Lemma zeros_dinode : block_dinode zeros = Ok (mkDinode 0 SFS_TYPE_INVAL 0 (repeat 0 15) 0 (repeat 0 110)).
Proof. vm_compute. reflexivity. Qed.

Lemma table_same m s : table_sound m -> sfs_vnodes s = sfs_vnodes (vol m) -> table_sound (with_vol m s).
Proof. intros [N T R P] Hv. split; try done; cbn; by rewrite Hv. Qed.

(** A vnode for an inode in a fresh block. *)
Lemma loadnew_ok m E b :
  sound m E -> 0 < b < sb_nblocks (vol m) -> fm_used (sfs_freemap (vol m)) b = true -> (forall p, block_at (ext E (vol m)) p <> b) ->
  disk (vol m) !! b = Some zeros ->
  exists m' r, sfs_loadvnode m b SFS_TYPE_FILE = Ok (m', r) /\
    ((r = ENOMEM /\ same_mnt m m') \/
     (r = 0 /\ sound m' E /\ vn_refcount m' = <[b := 1]> (vn_refcount m) /\ vol m' = with_vnode (vol m) b (new_file SFS_TYPE_FILE))).
Proof.
  intros [HS HT] Hb Hu Hno Hd. destruct HT as [TN TT TR TP]. unfold sfs_loadvnode.
  assert (Hnone : sfs_vnodes (vol m) !! b = None).
  { apply eq_None_not_Some. intros [sv Hv]. apply (Hno (b, SIno)). by rewrite (block_at_Some _ _ _ _ (ext_lookup _ E _ _ Hv)). }
  assert (Hnt : b ∉ table m) by (rewrite TT, Hnone; by intros [? ?]).
  rewrite (find_vnode_ok _ E) by (done || (intros j Hj; by apply TT) || by right). cbn [rbind]. rewrite bool_decide_eq_false_2 by done.
  destruct (want_mem_cases m) as (l & c & ->). destruct c; cbn [negb]; [ | eexists _, ENOMEM; split; [done |]; by left]. cbn [vol].
  destruct (bused_ok (vol m) b (vs_vol _ _ HS)) as (u & -> & Hz); [lia |]. cbn [rbind]. rewrite Hz, Hu. cbn [negb].
  destruct (readblock_ok (vol m) b zeros) as (l1 & r & d' & -> & Hres & Hio); [apply (vs_vol _ _ HS) | lia | done |].
  destruct (Hio (vs_io _ _ HS)) as [-> ->]. destruct Hres as [[_ ->] | ?]; [ | done]. cbn [rbind negb Z.eqb].
  rewrite <- (vs_io _ _ HS), with_io_same, zeros_dinode. cbn [rbind].
  change (negb (SFS_TYPE_FILE =? SFS_TYPE_INVAL)) with true. cbv iota. unfold kassert. change (sfi_type _ =? SFS_TYPE_INVAL) with true. cbn [rbind sv_i].
  change (negb (_ || _)) with false. cbv iota.
  destruct (want_mem_cases (with_vol (mkMnt (vol m) (table m) (vn_refcount m) l) (vol m))) as (l2 & c2 & ->).
  destruct c2; cbn [negb vol table vn_refcount nomem with_vol]; [ | eexists _, ENOMEM; split; [done |]; by left].
  eexists _, 0. split; [done |]. right. split; [done |]. split; [ | done]. destruct (add_vnode (vol m) E b HS Hb Hu Hno) as [HS' _]. split; [done |].
  split; cbn [vol table vn_refcount].
  - apply NoDup_app. split; [done |]. split; [ | apply NoDup_singleton]. intros j Hj ->%list_elem_of_singleton. done.
  - intros j. cbn. rewrite elem_of_app, list_elem_of_singleton, lookup_insert_is_Some', TT. naive_solver.
  - intros j. cbn. rewrite !lookup_insert_is_Some', TR. done.
  - intros j k [[<- <-] | [_ Hk]]%lookup_insert_Some; [done | by eapply TP].
Qed.

Lemma reads_trans s1 s2 s3 : reads_same s1 s2 -> reads_same s2 s3 -> reads_same s1 s3.
Proof.
  intros [I1 C1 A1 N1] [I2 C2 A2 N2]. split; [done | | | congruence].
  - intros i f. by rewrite C2.
  - intros i. by rewrite A2.
Qed.

(** An object is made, or there is no block or no memory for it. *)
Lemma makeobj_ok m E :
  sound m E -> exists m' r b, sfs_makeobj m SFS_TYPE_FILE = Ok (m', r, b) /\ sound m' E /\
    ((r = 0 /\ 0 < b < 2 ^ 32 /\ vn_refcount m' = <[b := 1]> (vn_refcount m) /\ created (ext E (vol m)) (ext E (vol m')) b) \/
     ((r = ENOSPC \/ r = ENOMEM) /\ vn_refcount m' = vn_refcount m /\ reads_same (ext E (vol m)) (ext E (vol m')))).
Proof.
  intros [HS HT]. unfold sfs_makeobj. destruct (balloc_ok (vol m) (vs_vol _ _ HS)) as [(s1 & b & -> & Htk) | (s1 & r & b & -> & -> & Hio & _ & ->)]; cbn [rbind].
  2: { change (negb (ENOSPC =? 0)) with true. cbv iota. eexists _, ENOSPC, 0. split; [done |]. split; [split; [done | by apply table_same] |].
       right. split; [by left |]. split; [done |]. split; [apply HS | done | done | done]. }
  destruct (took_sound _ _ E _ HS Htk) as [HS1 HR1]. cbn [negb Z.eqb]. pose proof (tk_range _ _ _ Htk) as Hb. pose proof (tk_rest _ _ _ Htk) as [Hn Hv].
  assert (HT1 : table_sound (with_vol m s1)) by by apply table_same.
  assert (Hu : fm_used (sfs_freemap s1) b = true) by (rewrite (tk_used _ _ _ Htk); by rewrite Z.eqb_refl).
  assert (Hno : forall p, block_at (ext E s1) p <> b).
  { intros p. rewrite (took_block_at _ _ _ _ (vs_inv _ _ HS) (took_ext _ _ _ E Htk)). apply fresh_block; [apply HS | apply Htk | lia]. }
  assert (Hb1 : 0 < b < sb_nblocks s1) by by rewrite Hn. pose proof (vo_u32 _ (vs_vol _ _ HS)) as Hu32.
  destruct (loadnew_ok (with_vol m s1) E b) as (m' & r & -> & Hr); [by split | done | done | done | |]; cbn [vol with_vol vn_refcount] in *.
  { rewrite (tk_disk _ _ _ Htk). by rewrite lookup_insert_eq. }
  cbn [rbind]. destruct Hr as [[-> (V' & T' & R')] | (-> & Hs' & R' & V')].
  - change (negb (ENOMEM =? 0)) with true. cbv iota. cbn [vol with_vol] in *. rewrite V'.
    destruct (free_unowned s1 E b HS1 Hb1 Hu Hno) as (s2 & -> & HS2 & HR2 & Hv2). cbn [rbind]. eexists _, ENOMEM, b. split; [done |].
    split; [split; [done |] | right; split; [by right |]; split; [done | by eapply reads_trans]].
    destruct HT1 as [N1 T1 R1 P1]. cbn in *. split; cbn; rewrite ?T', ?R', ?Hv2; done.
  - cbn [negb Z.eqb rbind]. eexists _, 0, b. split; [done |]. split; [done |]. left. split; [done |]. split; [lia |]. split; [done |]. rewrite V'.
    destruct (add_vnode s1 E b HS1 Hb1 Hu Hno) as [_ [C1 C2 C3]]. split.
    + by rewrite <- (rs_attrs _ _ HR1).
    + intros j. rewrite C2. by rewrite (rs_attrs _ _ HR1).
    + intros j f. rewrite C3. apply HR1.
Qed.

(** The number of links of a file in memory changes. *)
Record relinked s s' i n : Prop := {
  rl_inv : sfs_inv s';
  rl_attrs : forall j, attrs s' j = if j =? i then (fun a => (a.1.1, a.1.2, n)) <$> attrs s i else attrs s j;
  rl_content : forall j f, content s' j f = content s j f
}.

Lemma set_links_ok s E i sv n :
  vol_sound s E -> sfs_vnodes s !! i = Some sv -> 0 <= n < 2 ^ 16 -> (i = SFS_ROOTDIR_INO -> n <> 0) ->
  vol_sound (with_vnode s i (set_links sv n)) E /\ relinked (ext E s) (ext E (with_vnode s i (set_links sv n))) i n.
Proof.
  intros HS Hv Hn Hr. pose proof HS as [I D K C L T Z X S R Q]. set (sv' := set_links sv n). rewrite <- ext_vnode. pose proof (ext_lookup s E i sv Hv) as Hx.
  assert (Hbl : forall p, block_at (with_vnode (ext E s) i sv') p = block_at (ext E s) p).
  { intros [j sl]. unfold block_at. cbn [fst snd with_vnode sfs_vnodes]. destruct (decide (j = i)) as [-> | Hne]; [rewrite lookup_insert_eq, Hx; by destruct sl | by rewrite lookup_insert_ne]. }
  assert (HI : sfs_inv (with_vnode (ext E s) i sv')).
  { apply (inv_keep (ext E s)); try done. apply vol_vnode; [apply I |]. destruct (vo_inode _ (sv_vol _ I) _ _ Hx). by split. }
  assert (HEi : E !! i = None) by by eapply disj_None.
  split.
  - split; rewrite <- ?(ext_vnode E i); try done; change (sfs_vnodes (with_vnode (ext E s) i sv')) with (<[i := sv']> (sfs_vnodes (ext E s))).
    + cbn. apply map_disjoint_insert_r. by split.
    + intros j svj [[<- <-] | [Hne Hj]]%lookup_insert_Some Hc; [done | by apply (K j)].
    + intros j svj [[<- <-] | [Hne Hj]]%lookup_insert_Some; [ | by apply T]. by apply (T i sv).
    + intros j [<- | Hj]%lookup_insert_is_Some'; apply Z; [by eexists | done].
    + destruct X as (svr & Hxr & Hl). destruct (decide (i = SFS_ROOTDIR_INO)) as [-> | Hne]; [exists sv' | exists svr].
      * rewrite lookup_insert_eq. split; [done | by apply Hr].
      * by rewrite lookup_insert_ne.
    + by apply (layout_keep s); [ | right | |].
  - split; [done | |].
    + intros j. unfold attrs. cbn [with_vnode sfs_vnodes]. destruct (Z.eqb_spec j i) as [-> | Hne]; [by rewrite lookup_insert_eq, Hx | by rewrite lookup_insert_ne].
    + intros j f. unfold content. by rewrite Hbl.
Qed.

Lemma add_links_ok m E i sv d :
  sound m E -> sfs_vnodes (vol m) !! i = Some sv -> 0 <= sfi_linkcount (sv_i sv) + d < 2 ^ 16 -> (i = SFS_ROOTDIR_INO -> sfi_linkcount (sv_i sv) + d <> 0) ->
  exists m', add_links m i d = Ok m' /\ sound m' E /\ vn_refcount m' = vn_refcount m /\
    relinked (ext E (vol m)) (ext E (vol m')) i (sfi_linkcount (sv_i sv) + d).
Proof.
  intros [HS HT] Hv Hn Hr. unfold add_links. rewrite (get_vnode_ok _ _ _ Hv). cbn [rbind]. unfold u16. rewrite Z.mod_small by done. eexists. split; [done |].
  destruct (set_links_ok _ E i sv _ HS Hv Hn Hr) as [HS' HR]. split; [ | done]. split; [done |]. destruct HT as [N T R P].
  assert (Hld : forall j, is_Some (sfs_vnodes (with_vnode (vol m) i (set_links sv (sfi_linkcount (sv_i sv) + d))) !! j) <-> is_Some (sfs_vnodes (vol m) !! j)).
  { intros j. cbn. rewrite lookup_insert_is_Some'. split; [intros [<- | ?]; [by eexists | done] | by right]. }
  split; try done; intros j; cbn [vol with_vol table vn_refcount]; by rewrite Hld.
Qed.
End Volume.

(** The layout of a volume of [n] blocks: the map of free blocks from block 2
    on, [sb] in the superblock. *)
Definition SFS_FREEMAP_START := 2.

Definition freemap_part (b : bitmap) (j : Z) : list Z := take 512 (drop (Z.to_nat (j * SFS_BLOCKSIZE)) (bitmap_getdata b)).

Program Definition disk_layout (n : Z) (sb : list Z) : Layout bitmap := {|
  aside i := SFS_FREEMAP_START <= i < SFS_FREEMAP_START + SFS_FREEMAPBLOCKS n;
  saved b d := forall j, 0 <= j < SFS_FREEMAPBLOCKS n -> d !! (SFS_FREEMAP_START + j) = Some (freemap_part b j);
  super := Some sb;
  volume_blocks := n
|}.
Next Obligation. intros n sb b d d' Hd Hs j Hj. rewrite Hd by lia. by apply Hs. Qed.
