(* ===== verification/SfsFlat.v ===== *)
(** SFS as a flat file system: a map from names to files, and files of bytes
    that live as long as they have a name or a reference.  The operations of
    file SfsVnode on a mounted volume refine it, over any history of calls.

    As in the kernel the caller holds a reference to every vnode it passes.
    Requests for memory may fail and the volume may fill up; the disk works.
    Calls come one at a time, as vfs_biglock means them to.

    The specification is what this code does, which in two places is not what
    the manual says.  Rename to a name that exists, the same name included, is
    refused with EEXIST; rename.html has the existing file removed, and the
    same name succeed ([rename_refuses_existing]).  A file that is cut and made
    longer again may show the bytes it had before; ftruncate.html has zeros
    there ([truncate_shows_old_bytes]). *)
From S2P Require Import Prelude Bitmap Sfs SfsDir SfsFile SfsExt SfsVnode SfsVolume.

(** * The specification *)

(** [names] of the root directory; sizes and bytes of the regular files; the
    references held to each vnode. *)
Record flat := mkFlat {
  names : gmap (list Z) Z;
  sizes : gmap Z Z;
  bytes : Z -> Z -> Z;
  refs : gmap Z Z
}.

Definition set_names (F : flat) (M : gmap (list Z) Z) : flat := mkFlat M (sizes F) (bytes F) (refs F).
Definition set_sizes (F : flat) (S : gmap Z Z) : flat := mkFlat (names F) S (bytes F) (refs F).
Definition set_bytes (F : flat) (b : Z -> Z -> Z) : flat := mkFlat (names F) (sizes F) b (refs F).
Definition set_refs (F : flat) (R : gmap Z Z) : flat := mkFlat (names F) (sizes F) (bytes F) R.

(** How many names a file has. *)
Definition links_of (M : gmap (list Z) Z) (i : Z) : Z := Z.of_nat (size (filter (fun kv => kv.2 = i) M)).

(** A file without names and references is gone. *)
Definition reap (F : flat) (i : Z) : flat :=
  match refs F !! i with
  | None => if links_of (names F) i =? 0 then set_sizes F (delete i (sizes F)) else F
  | Some _ => F
  end.

Definition drop_ref (R : gmap Z Z) (i n : Z) : gmap Z Z := if n =? 1 then delete i R else <[i := n - 1]> R.

Inductive fop :=
| GetRoot
| Lookup (name : list Z)
| Creat (name : list Z) (excl : bool)
| LinkTo (name : list Z) (i : Z)
| Unlink (name : list Z)
| Rename (from to : list Z)
| Close (i : Z)
| ReadAt (i off len : Z)
| WriteAt (i off : Z) (data : list Z)
| Truncate (i len : Z)
| Fsync (i : Z)
| Stat (i : Z).

(** Return code, number and data of a call. *)
Record answer := mkAns { a_code : Z; a_num : Z; a_data : list Z }.

(** A reference to the file of a name, or no memory for it. *)
Definition opened (F : flat) (i : Z) (a : answer) (F' : flat) : Prop :=
  (a = mkAns 0 i [] /\ F' = set_refs F (plus_ref (refs F) i)) \/ (a = mkAns ENOMEM 0 [] /\ F' = F).

Definition no_room (r : Z) : Prop := r = ENOSPC \/ r = EFBIG \/ r = ENOMEM.

Definition flat_step (F : flat) (op : fop) (a : answer) (F' : flat) : Prop :=
  match op with
  | GetRoot => opened F SFS_ROOTDIR_INO a F'
  | Lookup name =>
    match names F !! name with
    | Some i => opened F i a F'
    | None => a = mkAns ENOENT 0 [] /\ F' = F
    end
  | Creat name excl =>
    match names F !! name with
    | Some i => if excl : bool then a = mkAns EEXIST 0 [] /\ F' = F else opened F i a F'
    | None =>
      (exists i, i <> SFS_ROOTDIR_INO /\ sizes F !! i = None /\ refs F !! i = None /\ zlen name < SFS_NAMELEN /\ a = mkAns 0 i [] /\
         F' = mkFlat (<[name := i]> (names F)) (<[i := 0]> (sizes F)) (fun j p => if j =? i then 0 else bytes F j p) (<[i := 1]> (refs F))) \/
      (exists r, (no_room r \/ (r = ENAMETOOLONG /\ SFS_NAMELEN <= zlen name)) /\ a = mkAns r 0 [] /\ F' = F)
    end
  | LinkTo name i =>
    if i =? SFS_ROOTDIR_INO then a = mkAns EINVAL 0 [] /\ F' = F
    else exists r M', a = mkAns r 0 [] /\ map_step (names F) (Link name i) r 0 M' /\ F' = set_names F M'
  | Unlink name =>
    match names F !! name with
    | Some i => (a = mkAns 0 0 [] /\ F' = reap (set_names F (delete name (names F))) i) \/ (a = mkAns ENOMEM 0 [] /\ F' = F)
    | None => a = mkAns ENOENT 0 [] /\ F' = F
    end
  | Rename n1 n2 =>
    match names F !! n1 with
    | Some i =>
      (exists r M', a = mkAns r 0 [] /\ map_step (names F) (Link n2 i) r 0 M' /\ F' = if r =? 0 then set_names F (delete n1 M') else F) \/
      (a = mkAns ENOMEM 0 [] /\ F' = F)
    | None => a = mkAns ENOENT 0 [] /\ F' = F
    end
  | Close i => exists n, refs F !! i = Some n /\ a = mkAns 0 0 [] /\ F' = reap (set_refs F (drop_ref (refs F) i n)) i
  | ReadAt i off len =>
    exists size k, sizes F !! i = Some size /\ F' = F /\ 0 <= k <= readable size (mkBu off len []) /\ a_num a = k /\ a_data a = bytes F i <$> seqZ off k /\
      ((a_code a = 0 /\ k = readable size (mkBu off len [])) \/ (a_code a = EFBIG /\ SFS_MAXBLOCKS * SFS_BLOCKSIZE < size))
  | WriteAt i off data =>
    exists size k, sizes F !! i = Some size /\ 0 <= k <= zlen data /\ a_num a = k /\ a_data a = [] /\
      F' = mkFlat (names F) (if 0 <? k then <[i := Z.max size (off + k)]> (sizes F) else sizes F)
             (fun j p => if (j =? i) && in_range off k p then default 0 (data !! Z.to_nat (p - off)) else bytes F j p) (refs F) /\
      ((a_code a = 0 /\ k = zlen data) \/ a_code a = ENOSPC \/ (a_code a = EFBIG /\ SFS_MAXBLOCKS * SFS_BLOCKSIZE < off + zlen data))
  | Truncate i len =>
    exists b, a = mkAns 0 0 [] /\ F' = mkFlat (names F) (<[i := len]> (sizes F)) b (refs F) /\
      (forall j p, j <> i \/ 0 <= p < len -> b j p = bytes F j p) /\ (forall p, len <= p -> b i p = bytes F i p \/ b i p = 0)
  | Fsync i => a = mkAns 0 0 [] /\ F' = F
  | Stat i => exists size, sizes F !! i = Some size /\ a = mkAns 0 0 [S_IFREG; size; links_of (names F) i] /\ F' = F
  end.

Inductive flat_run : flat -> list fop -> list answer -> flat -> Prop :=
| flat_nil F : flat_run F [] [] F
| flat_cons F F1 F2 op ops a l : flat_step F op a F1 -> flat_run F1 ops l F2 -> flat_run F (op :: ops) (a :: l) F2.

(** What the caller owes: references to the vnodes it passes (they are in [R]),
    one to the root for the operations on names, and what the system calls
    check before they come here. *)
Definition held (R : gmap Z Z) (i : Z) : Prop := is_Some (R !! i).

Definition op_ready (R : gmap Z Z) (op : fop) : Prop :=
  match op with
  | GetRoot => True
  | Lookup name => held R SFS_ROOTDIR_INO
  | Creat name _ => held R SFS_ROOTDIR_INO /\ valid_name name
  | LinkTo name i => held R SFS_ROOTDIR_INO /\ held R i /\ valid_name name
  | Unlink name => held R SFS_ROOTDIR_INO
  | Rename n1 n2 => held R SFS_ROOTDIR_INO /\ valid_name n2
  | Close i => held R i
  | ReadAt i off len => held R i /\ i <> SFS_ROOTDIR_INO /\ 0 <= off /\ 0 < len /\ off + len < 2 ^ 32
  | WriteAt i off data =>
    held R i /\ i <> SFS_ROOTDIR_INO /\ 0 <= off /\ 0 < zlen data /\ off + zlen data < 2 ^ 32 /\ Forall (fun b => 0 <= b < 2 ^ 8) data
  | Truncate i len => held R i /\ i <> SFS_ROOTDIR_INO /\ 0 <= len < 2 ^ 32 - SFS_BLOCKSIZE
  | Fsync i => held R i
  | Stat i => held R i /\ i <> SFS_ROOTDIR_INO
  end.

#[export] Instance op_ready_dec R op : Decision (op_ready R op).
Proof. destruct op; cbn; unfold held, valid_name; apply _. Defined.

(** * The implementation *)
Section Implementation.
Context {B : Type} `{FreeMap B}.
Implicit Types m : sfs_mnt B.

Definition code (x : res (sfs_mnt B * Z)) : res (sfs_mnt B * answer) := let* (m, r) := x in Ok (m, mkAns r 0 []).
Definition code_num (x : res (sfs_mnt B * Z * Z)) : res (sfs_mnt B * answer) := let* (m, r, n) := x in Ok (m, mkAns r n []).

Definition flat_do m (op : fop) : res (sfs_mnt B * answer) :=
  match op with
  | GetRoot => let* (m, r) := sfs_getroot m in Ok (m, mkAns r (if r =? 0 then SFS_ROOTDIR_INO else 0) [])
  | Lookup name => code_num (sfs_lookup m SFS_ROOTDIR_INO name)
  | Creat name excl => code_num (sfs_creat m SFS_ROOTDIR_INO name excl)
  | LinkTo name i => code (sfs_link m SFS_ROOTDIR_INO name i)
  | Unlink name => code (sfs_remove m SFS_ROOTDIR_INO name)
  | Rename n1 n2 => code (sfs_rename m SFS_ROOTDIR_INO n1 SFS_ROOTDIR_INO n2)
  | Close i => let* m := VOP_DECREF m i in Ok (m, mkAns 0 0 [])
  | ReadAt i off len => let* (m, u, r) := sfs_read m i (mkBu off len []) in Ok (m, mkAns r (len - bu_resid u) (bu_data u))
  | WriteAt i off data => let* (m, u, r) := sfs_write m i (mkBu off (zlen data) data) in Ok (m, mkAns r (zlen data - bu_resid u) [])
  | Truncate i len => code (sfs_truncate m i len)
  | Fsync i => code (sfs_fsync m i)
  | Stat i => let* (mode, size, links) := sfs_stat m i in Ok (m, mkAns 0 0 [mode; size; links])
  end.

Fixpoint flat_calls m (ops : list fop) : res (sfs_mnt B * list answer) :=
  match ops with
  | [] => Ok (m, [])
  | op :: ops => let* (m, a) := flat_do m op in let* (m, l) := flat_calls m ops in Ok (m, a :: l)
  end.

(** Every call of the history is made with what it needs. *)
Fixpoint calls_ready m (ops : list fop) : bool :=
  match ops with
  | [] => true
  | op :: ops => bool_decide (op_ready (vn_refcount m) op) && match flat_do m op with Ok (m, _) => calls_ready m ops | Fault _ => true end
  end.
End Implementation.

(** * Names and links *)

Lemma links_insert M n i j : M !! n = None -> links_of (<[n := i]> M) j = links_of M j + (if j =? i then 1 else 0).
Proof.
  intros Hn. unfold links_of. destruct (Z.eqb_spec j i) as [-> | Hne].
  - rewrite map_filter_insert_True by done. rewrite map_size_insert_None; [lia |]. apply map_lookup_filter_None. by left.
  - rewrite map_filter_insert_False by (cbn; congruence). rewrite delete_id by done. lia.
Qed.

Lemma links_delete M n i j : M !! n = Some i -> links_of (delete n M) j = links_of M j - (if j =? i then 1 else 0).
Proof.
  intros Hn. rewrite <- (insert_delete_id M n i Hn) at 2. rewrite links_insert by apply lookup_delete_eq. lia.
Qed.

Lemma links_named M n i : M !! n = Some i -> 1 <= links_of M i.
Proof. intros Hn. pose proof (links_delete M n i i Hn) as E. rewrite Z.eqb_refl in E. unfold links_of in *. lia. Qed.

Lemma links_none M i : (forall n, M !! n <> Some i) -> links_of M i = 0.
Proof.
  intros Hn. unfold links_of. assert (filter (fun kv : list Z * Z => kv.2 = i) M = ∅) as ->; [ | by rewrite map_size_empty].
  apply map_empty_filter. intros n x Hx E. cbn in E. subst x. by apply (Hn n).
Qed.

Section Names.
Context {B : Type} `{FreeMapLaws B}.
Implicit Types s : sfs_fs B.

Lemma dir_names_bound s d M : dir_is s d M -> Z.of_nat (size M) <= MAXSLOTS.
Proof.
  intros (n & Hd & HM). pose proof (do_size _ _ _ Hd) as Hn.
  assert (Hsub : (map_to_list M).*1 ⊆+ (ename ∘ entry_at s d <$> seqZ 0 n)).
  { apply NoDup_submseteq; [apply NoDup_fst_map_to_list |]. intros nm ([nm' x] & -> & Hx%elem_of_map_to_list)%list_elem_of_fmap.
    apply HM in Hx as (i & Hi & [_ Hm] & _). apply list_elem_of_fmap. exists i. split; [done | apply elem_of_seqZ; lia]. }
  apply submseteq_length in Hsub. rewrite !length_fmap, length_seqZ, length_map_to_list in Hsub. lia.
Qed.

Lemma links_bound s d M i : dir_is s d M -> links_of M i <= MAXSLOTS.
Proof. intros HM%dir_names_bound. unfold links_of. pose proof (map_subseteq_size _ _ (map_filter_subseteq (fun kv : list Z * Z => kv.2 = i) M)). lia. Qed.

(** A directory is what its blocks and its size say. *)
Lemma dir_is_eq s s' d M :
  sfs_inv s' -> (forall f, content s' d f = content s d f) -> attrs s' d = attrs s d -> dir_is s d M -> dir_is s' d M.
Proof.
  intros HI Hc Ha (n & [_ [links Hl] Hn Hd] & HM). assert (He : forall i, entry_at s' d i = entry_at s d i) by (intros i; unfold entry_at; by rewrite Hc).
  exists n. split; [split; [done | | done |] |].
  - rewrite Ha, Hl. by eexists.
  - intros name i j Hi Hj. unfold match_at. rewrite !He. by apply Hd.
  - intros name x. rewrite (HM name x). unfold match_at. by setoid_rewrite He.
Qed.

Lemma slot_is_eq s s' d name i : sfs_inv s' -> (forall f, content s' d f = content s d f) -> attrs s' d = attrs s d -> slot_is s d name i -> slot_is s' d name i.
Proof.
  intros HI Hc Ha (n & [_ Hl Hn Hd] & Hi & Hm). exists n. split; [split; [done | by rewrite Ha | done |] | split; [done |]]; unfold match_at, entry_at in *.
  - intros nm i1 i2. rewrite !Hc. by apply Hd.
  - by rewrite Hc.
Qed.
End Names.

(** * The representation *)

Section Flat.
Context {B : Type} `{FreeMapLaws B} `{LY : Layout B}.
Implicit Types (m : sfs_mnt B) (E : gmap Z sfs_vnode) (F : flat).

Notation all E m := (ext E (vol m)).
Notation root := SFS_ROOTDIR_INO.

(** The volume holds the file system [F], with link counts [L]. *)
Record holds m E F (L : Z -> Z) : Prop := {
  ho_sound : sound m E;
  ho_dir : dir_is (all E m) root (names F);
  ho_refs : refs F = vn_refcount m;
  ho_files : forall i, i <> root -> ~ aside i -> attrs (all E m) i = (fun sz => (sz, SFS_TYPE_FILE, L i)) <$> sizes F !! i;
  ho_root : forall i, i = root \/ aside i -> sizes F !! i = None;
  ho_bytes : forall i p, is_Some (sizes F !! i) -> 0 <= p -> byte_at (all E m) i p = bytes F i p;
  ho_names : forall n i, names F !! n = Some i -> is_Some (sizes F !! i)
}.

(** Between calls the counts are the numbers of names. *)
Definition rep_in m E F : Prop := holds m E F (links_of (names F)).
Definition rep m F : Prop := exists E, rep_in m E F.

Lemma holds_ext m E F L L' : holds m E F L -> (forall i, is_Some (sizes F !! i) -> L' i = L i) -> holds m E F L'.
Proof.
  intros [S D R Fi Rt By N] HL. split; try done. intros i Hi Ha. rewrite (Fi i Hi Ha). destruct (sizes F !! i) as [sz | ] eqn:Es; [ | done].
  cbn. by rewrite HL by by eexists.
Qed.

Lemma holds_not_root m E F L i : holds m E F L -> is_Some (sizes F !! i) -> i <> root.
Proof. intros HH [x Hx] ->. rewrite (ho_root _ _ _ _ HH) in Hx; [done | by left]. Qed.

Lemma holds_not_aside m E F L i : holds m E F L -> i = root \/ is_Some (sizes F !! i) -> ~ aside i.
Proof.
  intros HH [-> | [x Hx]] Ha.
  - destruct (ho_sound _ _ _ _ HH) as [HS _]. by apply (lo_aside _ _ (vs_layout _ _ HS)) in Ha as [_ Ha].
  - rewrite (ho_root _ _ _ _ HH) in Hx; [done | by right].
Qed.

Lemma holds_exists m E F L i : holds m E F L -> i = root \/ is_Some (sizes F !! i) -> is_Some (sfs_vnodes (all E m) !! i).
Proof.
  intros HH [-> | Hi]; [by eapply dir_loaded, HH |]. rewrite <- attrs_loaded, (ho_files _ _ _ _ HH);
    [by apply fmap_is_Some | by eapply holds_not_root | by eapply holds_not_aside; [ | right]].
Qed.

(** The files that exist are those with a size, and the root. *)
Lemma holds_file m E F L i sv : holds m E F L -> sfs_vnodes (vol m) !! i = Some sv -> i <> root ->
  exists sz, sizes F !! i = Some sz /\ sfi_size (sv_i sv) = sz /\ sfi_type (sv_i sv) = SFS_TYPE_FILE /\ sfi_linkcount (sv_i sv) = L i.
Proof.
  intros HH Hv Hi. destruct (ho_sound _ _ _ _ HH) as [HS _]. pose proof (ho_files _ _ _ _ HH i Hi (mem_not_aside _ _ _ _ HS Hv)) as Ha.
  unfold attrs in Ha. rewrite (ext_lookup _ E _ _ Hv) in Ha. cbn in Ha.
  destruct (sizes F !! i) as [sz | ]; [ | done]. cbn in Ha. injection Ha as H1 H2 H3. by exists sz.
Qed.

Lemma held_loaded m E F L i : holds m E F L -> held (refs F) i -> exists sv, sfs_vnodes (vol m) !! i = Some sv.
Proof. intros HH Hr. rewrite (ho_refs _ _ _ _ HH) in Hr. by apply (ts_refs _ (proj2 (ho_sound _ _ _ _ HH))) in Hr. Qed.

(** The files read as before; the references may differ. *)
Lemma holds_reads m E m' E' F L :
  holds m E F L -> sound m' E' -> reads_same (all E m) (all E' m') -> holds m' E' (set_refs F (vn_refcount m')) L.
Proof.
  intros [S D R Fi Rt By N] HS HR. split; try done.
  - apply (dir_is_eq (all E m)); [apply HR | intros f; apply HR | apply HR | done].
  - intros i Hi. rewrite (rs_attrs _ _ HR). by apply Fi.
  - intros i p Hi Hp. unfold byte_at. rewrite (rs_content _ _ HR). by apply By.
Qed.

Lemma set_refs_id F : set_refs F (refs F) = F.
Proof. by destruct F. Qed.

Lemma holds_keep m E m' E' F L :
  holds m E F L -> sound m' E' -> reads_same (all E m) (all E' m') -> vn_refcount m' = vn_refcount m -> holds m' E' F L.
Proof. intros HH HS HR Hr. rewrite <- (set_refs_id F), (ho_refs _ _ _ _ HH), <- Hr. by eapply holds_reads. Qed.

(** ** The steps of the operations *)

Lemma edit_sound m E i s' :
  sound m E -> is_Some (sfs_vnodes (vol m) !! i) -> edits i (vol m) s' -> sfs_inv (ext E s') -> inodes_kept (all E m) (ext E s') -> sound (with_vol m s') E.
Proof. intros [HS HT] Hi HE HI HK. split; [by eapply sound_edit | by eapply table_edit]. Qed.

Lemma findname_holds m E F L name :
  holds m E F L -> held (refs F) root ->
  exists m' r o, findname m root name = Ok (m', r, o) /\ holds m' E F L /\
    match names F !! name with Some i => r = 0 /\ fo_ino o = i /\ slot_is (all E m') root name (fo_slot o) | None => r = ENOENT end.
Proof.
  intros HH Hr. destruct (held_loaded _ _ _ _ _ HH Hr) as [sv Hv]. destruct (ho_dir _ _ _ _ HH) as (n & Hd & HM).
  destruct (ho_sound _ _ _ _ HH) as [HS HT].
  destruct (findname_ok (all E m) root n name (mkFound false 0 0 (-1)) Hd) as (t & r & o & Et & HU & _ & Hx).
  destruct Hx as [[_ Hno] | [-> Hsc]]; [by destruct Hno; apply HS |].
  destruct (lifts_elim E root (vol m) _ _ _ (findname_lifts E root (vol m) name _ ltac:(by eexists)) Et) as ([[s1 r1] o1] & E1 & Ea & HE).
  injection Ea as -> <- <-. cbn in HE. unfold findname. rewrite E1. cbn [rbind]. eexists _, _, o. split; [done |].
  assert (HS1 : sound (with_vol m s1) E) by (apply (edit_sound m E root); [done | by eexists | done | apply HU | apply HU]).
  split; [by apply (holds_keep m E _ E F L); [ | | apply unchanged_reads |] |].
  pose proof (scanned_map _ _ _ _ _ _ _ HM Hsc) as Hmap. destruct (fo_found o).
  - destruct Hmap as (Hs & Hm & ->). split; [done |]. split; [done |]. eapply slot_unchanged; [exact HU |]. by exists n.
  - by destruct Hmap as [_ ->].
Qed.

Lemma inode_u32 m E F L i : holds m E F L -> is_Some (sizes F !! i) -> 0 < i < 2 ^ 32.
Proof.
  intros HH Hi. destruct (ho_sound _ _ _ _ HH) as [HS _]. destruct (inode_used _ E i HS) as [Hr _]; [by eapply holds_exists; [ | right] |].
  pose proof (vo_u32 _ (vs_vol _ _ HS)). lia.
Qed.

(** Other files are not touched by a change to the root. *)
Lemma holds_others m E F L s1 M :
  holds m E F L -> sound (with_vol m s1) E -> others_same (all E m) (ext E s1) root -> dir_is (ext E s1) root M ->
  (forall n i, M !! n = Some i -> is_Some (sizes F !! i)) -> holds (with_vol m s1) E (set_names F M) L.
Proof.
  intros HH HS [Ho _] HD HN. pose proof HH as [S D R Fi Rt By N]. split; try done; cbn [vol with_vol].
  - intros i Hi. destruct (Ho i 0 Hi) as [_ ->]. by apply Fi.
  - intros i p Hi Hp. unfold byte_at. destruct (Ho i (p / SFS_BLOCKSIZE)) as [-> _]; [by eapply holds_not_root | by apply By].
Qed.

Lemma link_holds m E F L name x :
  holds m E F L -> held (refs F) root -> valid_name name -> is_Some (sizes F !! x) ->
  exists m' r slot M', dir_link m root name x = Ok (m', r, slot) /\ map_step (names F) (Link name x) r 0 M' /\ holds m' E (set_names F M') L /\
    (forall nm j, slot_is (all E m) root nm j -> slot_is (all E m') root nm j).
Proof.
  intros HH Hr Hn Hx. destruct (held_loaded _ _ _ _ _ HH Hr) as [sv Hv]. pose proof (inode_u32 _ _ _ _ _ HH Hx) as Hu.
  destruct (ho_sound _ _ _ _ HH) as [HS HT].
  destruct (dir_link_ok (all E m) root (names F) name x (ho_dir _ _ _ _ HH) (vs_io _ _ HS) Hn Hu) as (t & r & slot & M' & Et & Hm & HD & _ & Ho & Hsl).
  destruct (lifts_elim E root (vol m) _ _ _ (dir_link_lifts E root (vol m) name x ltac:(by eexists)) Et) as ([[s1 r1] slot1] & E1 & Ea & HE).
  injection Ea as -> <- <-. cbn in HE. unfold dir_link. rewrite E1. cbn [rbind]. eexists _, r, slot, M'. split; [done |]. split; [done |]. split; [ | done].
  apply holds_others; [done | apply (edit_sound m E root); [done | by eexists | done | by destruct HD as (n & [? _ _ _] & _) | apply Ho] | done | done |].
  intros nm i Hi. cbn in Hm. destruct Hm as [_ Hm]. pose proof (ho_names _ _ _ _ HH) as N. destruct (names F !! name); [destruct Hm as [_ ->]; by eapply N |].
  destruct (SFS_NAMELEN <=? zlen name); [destruct Hm as [_ ->]; by eapply N |]. destruct Hm as [[_ ->] | [_ ->]]; [ | by eapply N].
  apply lookup_insert_Some in Hi as [[_ <-] | [_ Hi]]; [done | by eapply N].
Qed.

Lemma unlink_holds m E F L name slot :
  holds m E F L -> held (refs F) root -> slot_is (all E m) root name slot ->
  exists m', dir_unlink m root slot = Ok (m', 0) /\ holds m' E (set_names F (delete name (names F))) L.
Proof.
  intros HH Hr Hs. destruct (held_loaded _ _ _ _ _ HH Hr) as [sv Hv]. destruct (ho_sound _ _ _ _ HH) as [HS HT].
  destruct (dir_unlink_ok (all E m) root (names F) name slot (ho_dir _ _ _ _ HH) (vs_io _ _ HS) Hs) as (t & Et & HD & _ & Ho).
  destruct (lifts_elim E root (vol m) _ _ _ (dir_unlink_lifts E root (vol m) slot ltac:(by eexists)) Et) as ([s1 r1] & E1 & Ea & HE).
  injection Ea as -> <-. cbn in HE. unfold dir_unlink. rewrite E1. cbn [rbind]. eexists. split; [done |].
  apply holds_others; [done | apply (edit_sound m E root); [done | by eexists | done | by destruct HD as (n & [? _ _ _] & _) | apply Ho] | done | done |].
  intros nm i [_ Hi]%lookup_delete_Some. by eapply (ho_names _ _ _ _ HH).
Qed.

Definition shift (L : Z -> Z) (i d j : Z) : Z := if j =? i then L j + d else L j.

Lemma addlinks_holds m E F L i d :
  holds m E F L -> held (refs F) i -> is_Some (sizes F !! i) -> 0 <= L i + d < 2 ^ 16 ->
  exists m', add_links m i d = Ok m' /\ holds m' E F (shift L i d) /\ (forall nm j, slot_is (all E m) root nm j -> slot_is (all E m') root nm j).
Proof.
  intros HH Hr Hi Hd. pose proof (holds_not_root _ _ _ _ _ HH Hi) as Hn. destruct (held_loaded _ _ _ _ _ HH Hr) as [sv Hv].
  destruct (holds_file _ _ _ _ _ _ HH Hv Hn) as (sz & Hsz & _ & _ & Hl). rewrite <- Hl in Hd.
  destruct (add_links_ok m E i sv d (ho_sound _ _ _ _ HH) Hv Hd) as (m' & -> & HS & HR & HL); [done |]. exists m'. split; [done |].
  assert (Ha : forall j, j <> i -> attrs (all E m') j = attrs (all E m) j) by (intros j Hj; rewrite (rl_attrs _ _ _ _ HL); by destruct (Z.eqb_spec j i)).
  pose proof HH as [S D R Fi Rt By N]. split; [split; try done | ].
  - apply (dir_is_eq (all E m)); [apply HL | intros f; apply HL | by apply Ha, not_eq_sym | done].
  - by rewrite HR.
  - intros j Hj Hna. unfold shift. rewrite (rl_attrs _ _ _ _ HL). destruct (Z.eqb_spec j i) as [-> | Hne]; [ | by apply Fi]. rewrite Fi, Hsz, Hl by done. done.
  - intros j p Hj Hp. unfold byte_at. rewrite (rl_content _ _ _ _ HL). by apply By.
  - intros nm j. apply slot_is_eq; [apply HL | intros f; apply HL | by apply Ha, not_eq_sym].
Qed.

Lemma load_holds m E F L i :
  holds m E F L -> i = root \/ is_Some (sizes F !! i) ->
  exists m' r, sfs_loadvnode m i SFS_TYPE_INVAL = Ok (m', r) /\
    ((r = ENOMEM /\ holds m' E F L) \/
     (r = 0 /\ exists E', holds m' E' (set_refs F (plus_ref (refs F) i)) L /\ all E' m' = all E m /\ is_Some (sfs_vnodes (vol m') !! i))).
Proof.
  intros HH Hi. pose proof (ho_sound _ _ _ _ HH) as HS. assert (HI : sfs_inv (all E m)) by apply HS.
  assert (Hsame : reads_same (all E m) (all E m)) by by split.
  destruct (loadvnode_ok m E i HS (holds_exists _ _ _ _ _ HH Hi) (holds_not_aside _ _ _ _ _ HH Hi)) as (m' & r & -> & Hr). exists m', r. split; [done |].
  destruct Hr as [[-> (V & T & R)] | (-> & Hl & HR & E' & HS' & Hall)]; [left | right]; (split; [done |]).
  - apply (holds_keep m E); [done | | by rewrite V | done]. destruct HS as [S1 [N1 T1 R1 P1]]. split; [by rewrite V |]. split; rewrite ?V, ?T, ?R; done.
  - exists E'. split; [ | done]. rewrite (ho_refs _ _ _ _ HH), <- HR. apply (holds_reads m E); [done | done | by rewrite Hall].
Qed.

Lemma plus_ref_held R i j : held R j -> held (plus_ref R i) j.
Proof. unfold held, plus_ref. rewrite lookup_insert_is_Some'. by right. Qed.

Lemma plus_ref_new R i : held (plus_ref R i) i.
Proof. unfold held, plus_ref. rewrite lookup_insert_eq. by eexists. Qed.

(** The file of a name, with one more reference, and the slot of the name. *)
Lemma lookonce_holds m E F name :
  rep_in m E F -> held (refs F) root ->
  exists m' r i slot, sfs_lookonce m root name = Ok (m', r, i, slot) /\
    match names F !! name with
    | None => r = ENOENT /\ i = 0 /\ rep_in m' E F
    | Some j =>
      (r = ENOMEM /\ i = 0 /\ rep_in m' E F) \/
      (r = 0 /\ i = j /\ exists E', rep_in m' E' (set_refs F (plus_ref (refs F) j)) /\ slot_is (all E' m') root name slot)
    end.
Proof.
  intros HH Hr. unfold sfs_lookonce. destruct (findname_holds m E F _ name HH Hr) as (m1 & r & o & -> & H1 & Hf). cbn [rbind].
  destruct (names F !! name) as [i | ] eqn:En.
  2: { subst r. eexists _, _, _, _. split; [done |]. by split. }
  destruct Hf as (-> & Ho & Hsl). cbn [negb Z.eqb]. rewrite Ho. pose proof (ho_names _ _ _ _ H1 name i En) as Hi.
  destruct (load_holds m1 E F _ i H1 (or_intror Hi)) as (m2 & r & -> & Hl). cbn [rbind].
  destruct Hl as [[-> H2] | (-> & E' & H2 & Hall & [sv Hv])]; [eexists _, _, _, _; split; [done |]; by left |]. cbn [negb Z.eqb].
  rewrite (get_vnode_ok _ _ _ Hv). cbn [rbind].
  destruct (holds_file _ _ _ _ _ _ H2 Hv) as (sz & _ & _ & _ & Hlc); [by eapply holds_not_root |].
  pose proof (links_named _ _ _ En). destruct (Z.eqb_spec (sfi_linkcount (sv_i sv)) 0); [cbn in Hlc; lia |].
  eexists _, _, _, _. split; [done |]. right. split; [done |]. split; [done |]. exists E'. split; [exact H2 |]. by rewrite Hall.
Qed.

Definition add_file F (i : Z) : flat := mkFlat (names F) (<[i := 0]> (sizes F)) (fun j p => if j =? i then 0 else bytes F j p) (<[i := 1]> (refs F)).

Lemma byte_zeros p : 0 <= p -> default 0 (zeros !! Z.to_nat (p mod SFS_BLOCKSIZE)) = 0.
Proof. intros Hp. destruct (zeros !! _) as [b | ] eqn:Eb; [ | done]. apply list_elem_of_lookup_2, list_elem_of_In, repeat_spec in Eb. done. Qed.

Lemma makeobj_holds m E F :
  rep_in m E F -> exists m' r b, sfs_makeobj m SFS_TYPE_FILE = Ok (m', r, b) /\
    ((r = 0 /\ b <> root /\ sizes F !! b = None /\ refs F !! b = None /\ rep_in m' E (add_file F b)) \/ ((r = ENOSPC \/ r = ENOMEM) /\ rep_in m' E F)).
Proof.
  intros HH. destruct (makeobj_ok m E (ho_sound _ _ _ _ HH)) as (m' & r & b & -> & HS & Hr). exists m', r, b. split; [done |].
  destruct Hr as [(-> & Hb & HR & [C1 C2 C3]) | (Hr & HR & HRs)]; [left | right; split; [done | by apply (holds_keep m E)]].
  pose proof HH as [S D R Fi Rt By N]. split; [done |]. assert (Hroot : b <> root).
  { intros ->. apply dir_loaded, attrs_loaded in D as [a Ha]. congruence. }
  assert (Hab : ~ aside b).
  { intros Ha. apply (aside_ext (vol m) E) in Ha; [ | apply S]. apply attrs_loaded in Ha as [a Ha]. congruence. }
  assert (Hsz : sizes F !! b = None) by (rewrite Fi in C1 by done; by destruct (sizes F !! b)).
  split; [done |]. split; [done |]. assert (Hrf : refs F !! b = None).
  { apply eq_None_not_Some. intros [sv Hv]%(held_loaded _ _ _ _ _ HH). apply (ext_lookup _ E) in Hv. unfold attrs in C1. by rewrite Hv in C1. }
  split; [done |]. split; cbn [names sizes bytes refs add_file].
  - done.
  - apply (dir_is_eq (all E m)); [apply HS | intros f; apply C3 | | done]. rewrite C2. by destruct (Z.eqb_spec root b).
  - by rewrite HR, R.
  - intros i Hi Hna. rewrite C2. destruct (Z.eqb_spec i b) as [-> | Hne]; [ | rewrite lookup_insert_ne by done; by apply Fi].
    rewrite lookup_insert_eq. cbn. rewrite links_none; [done |]. intros n Hn. apply N in Hn as [? ?]. congruence.
  - intros i Hi. rewrite lookup_insert_ne; [by apply Rt | intros <-; by destruct Hi].
  - intros i p Hi Hp. unfold byte_at. rewrite C3. destruct (Z.eqb_spec i b) as [-> | Hne].
    + rewrite content_none by done. by apply byte_zeros.
    + rewrite lookup_insert_ne in Hi by done. by apply By.
  - intros n i Hn. apply lookup_insert_is_Some'. right. by eapply N.
Qed.

(** A reference is given up. *)
Lemma decref_holds m E F i n :
  rep_in m E F -> refs F !! i = Some n ->
  exists m' E', VOP_DECREF m i = Ok m' /\ rep_in m' E' (reap (set_refs F (drop_ref (refs F) i n)) i).
Proof.
  intros HH Hn. destruct (held_loaded _ _ _ _ i HH) as [sv Hv]; [by eexists |]. pose proof HH as [S D R Fi Rt By N].
  rewrite R in Hn. destruct (release_ref_ok m E i n sv S Hn Hv) as (m' & E' & -> & HS & HR & Hx). exists m', E'. split; [done |]. fold (drop_ref (vn_refcount m) i n) in HR.
  rewrite R, <- HR. unfold reap. cbn [refs set_refs names]. destruct (Z.eqb_spec n 1) as [-> | Hne1]; cbn [andb] in Hx.
  2: { assert (is_Some (vn_refcount m' !! i)) as [k ->]; [ | by apply (holds_reads m E)]. rewrite HR. unfold drop_ref. destruct (Z.eqb_spec n 1); [done |].
       rewrite lookup_insert_eq. by eexists. }
  assert (vn_refcount m' !! i = None) as -> by (rewrite HR; unfold drop_ref; cbn; apply lookup_delete_eq).
  pose proof (ext_lookup _ E _ _ Hv) as Hx'. destruct (decide (i = root)) as [-> | Hroot].
  - destruct (vs_root _ _ (proj1 S)) as (svr & Hsr & Hl). rewrite Hx' in Hsr. injection Hsr as <-. destruct (Z.eqb_spec (sfi_linkcount (sv_i sv)) 0); [done |].
    pose proof (holds_reads m E m' E' F _ HH HS Hx) as HH'. case_if; [ | done]. replace (set_sizes _ _) with (set_refs F (vn_refcount m')); [done |].
    unfold set_sizes, set_refs. cbn. rewrite delete_id; [done | apply Rt; by left].
  - destruct (holds_file _ _ _ _ _ _ HH Hv Hroot) as (sz & Hsz & _ & _ & Hlc). rewrite Hlc in Hx.
    destruct (Z.eqb_spec (links_of (names F) i) 0) as [Hz | Hnz]; [ | by apply (holds_reads m E)].
    destruct Hx as [G1 G2]. split; cbn [names sizes bytes refs set_sizes set_refs].
    + done.
    + apply (dir_is_eq (all E m)); [apply HS | intros f; by apply G1, not_eq_sym | | done]. rewrite G2. by destruct (Z.eqb_spec root i).
    + done.
    + intros j Hj Hna. rewrite G2. destruct (Z.eqb_spec j i) as [-> | Hne]; [by rewrite lookup_delete_eq | rewrite lookup_delete_ne by done; by apply Fi].
    + intros j Hj. apply lookup_delete_None. right. by apply Rt.
    + intros j p Hj Hp. apply lookup_delete_is_Some in Hj as [Hne Hj]. unfold byte_at. rewrite G1 by done. by apply By.
    + intros nm j Hj. apply lookup_delete_is_Some. split; [ | by eapply N]. intros <-. apply links_named in Hj. lia.
Qed.

(** ** References that come and go *)

Lemma count_pos m E F L i k : holds m E F L -> refs F !! i = Some k -> 1 <= k.
Proof. intros HH Hk. rewrite (ho_refs _ _ _ _ HH) in Hk. by eapply (ts_pos _ (proj2 (ho_sound _ _ _ _ HH))). Qed.

Lemma drop_plus R i : (forall k, R !! i = Some k -> 1 <= k) -> drop_ref (plus_ref R i) i (default 0 (R !! i) + 1) = R.
Proof.
  intros Hk. unfold drop_ref, plus_ref. destruct (R !! i) as [k | ] eqn:Er; cbn.
  - specialize (Hk k eq_refl). destruct (Z.eqb_spec (k + 1) 1); [lia |]. rewrite insert_insert_eq. apply insert_id. rewrite Er. f_equal. lia.
  - by rewrite delete_insert_eq, delete_id.
Qed.

Lemma decref_cancel m E F i :
  rep_in m E (set_refs F (plus_ref (refs F) i)) -> (forall k, refs F !! i = Some k -> 1 <= k) ->
  exists m' E', VOP_DECREF m i = Ok m' /\ rep_in m' E' (reap F i).
Proof.
  intros HH Hk. destruct (decref_holds m E _ i (default 0 (refs F !! i) + 1) HH) as (m' & E' & -> & H').
  { cbn. unfold plus_ref. by rewrite lookup_insert_eq. }
  exists m', E'. split; [done |]. cbn [refs set_refs] in H'. rewrite drop_plus in H' by done. unfold set_refs in H'. cbn in H'. by destruct F.
Qed.

Lemma reap_named F n i : names F !! n = Some i -> reap F i = F.
Proof. intros Hn%links_named. unfold reap. destruct (refs F !! i); [done |]. destruct (Z.eqb_spec (links_of (names F) i) 0); [lia | done]. Qed.

Lemma holds_bytes m E F L b :
  holds m E F L -> (forall i p, is_Some (sizes F !! i) -> 0 <= p -> b i p = bytes F i p) -> holds m E (set_bytes F b) L.
Proof. intros [S D R Fi Rt By N] Hb. split; try done. intros i p Hi Hp. cbn. rewrite Hb by done. by apply By. Qed.

Lemma link_failed M name i r M' : map_step M (Link name i) r 0 M' -> r <> 0 -> M' = M.
Proof.
  intros [_ Hm] Hr. destruct (M !! name); [by destruct Hm |]. destruct (SFS_NAMELEN <=? zlen name); [by destruct Hm |].
  by destruct Hm as [[-> _] | [_ ->]].
Qed.

Lemma link_done M name i M' : map_step M (Link name i) 0 0 M' -> M' = <[name := i]> M /\ M !! name = None /\ zlen name < SFS_NAMELEN.
Proof.
  intros [_ Hm]. destruct (M !! name); [by destruct Hm |]. destruct (Z.leb_spec SFS_NAMELEN (zlen name)); [by destruct Hm |].
  by destruct Hm as [[_ ->] | [[? | ?] _]].
Qed.

(** The name is entered and the count raised. *)
Lemma relink_holds m E F L name i M' :
  holds m E (set_names F M') L -> map_step (names F) (Link name i) 0 0 M' -> (forall j, L j = links_of (names F) j) -> held (refs F) i -> is_Some (sizes F !! i) ->
  exists m', add_links m i 1 = Ok m' /\ rep_in m' E (set_names F M') /\ (forall nm j, slot_is (all E m) root nm j -> slot_is (all E m') root nm j).
Proof.
  intros HH (-> & Hn & _)%link_done HL Hr Hi. pose proof (links_bound _ _ _ i (ho_dir _ _ _ _ HH)) as Hb. cbn [names set_names] in Hb.
  rewrite links_insert, Z.eqb_refl, <- HL in Hb by done.
  assert (0 <= L i) by (rewrite HL; unfold links_of; lia). change MAXSLOTS with 1144 in Hb.
  destruct (addlinks_holds m E _ L i 1 HH Hr Hi) as (m' & -> & H' & Hs); [lia |]. exists m'. split; [done |]. split; [ | done].
  eapply holds_ext; [exact H' |]. intros j _. cbn. rewrite links_insert by done. unfold shift. rewrite HL. destruct (j =? i); lia.
Qed.

(** The name is taken out and the count lowered. *)
Lemma drop_holds m E F L name i :
  holds m E (set_names F (delete name (names F))) L -> names F !! name = Some i -> (forall j, L j = links_of (names F) j) -> held (refs F) i -> is_Some (sizes F !! i) ->
  links_of (names F) i < 2 ^ 16 ->
  exists m', drop_link m i = Ok m' /\ rep_in m' E (set_names F (delete name (names F))).
Proof.
  intros HH Hn HL Hr Hi Hb. pose proof (links_named _ _ _ Hn) as H1. destruct (addlinks_holds m E _ L i (-1) HH Hr Hi) as (m' & Ea & H' & _); [rewrite HL; lia |].
  destruct (held_loaded _ _ _ _ _ HH Hr) as [sv Hv]. unfold drop_link. rewrite (get_vnode_ok _ _ _ Hv). cbn [rbind].
  destruct (holds_file _ _ _ _ _ _ HH Hv) as (sz & _ & _ & _ & Hl); [by eapply holds_not_root |].
  unfold kassert. rewrite Hl, HL. destruct (Z.ltb_spec 0 (links_of (names F) i)); [ | lia]. exists m'. split; [done |].
  eapply holds_ext; [exact H' |]. intros j _. cbn. rewrite (links_delete _ _ i) by done. unfold shift. rewrite HL. destruct (j =? i); lia.
Qed.

Lemma is_dir_ok m E F L i : holds m E F L -> held (refs F) i -> is_dir m i = Ok (i =? root).
Proof.
  intros HH [sv Hv]%(held_loaded _ _ _ _ _ HH). unfold is_dir. rewrite (get_vnode_ok _ _ _ Hv). cbn [rbind].
  rewrite (vs_type _ _ (proj1 (ho_sound _ _ _ _ HH)) i sv (ext_lookup _ _ _ _ Hv)). unfold type_of. by destruct (i =? root).
Qed.

(** ** The operations *)

(** A call returns, as the specification says, and the volume holds the file
    system that results. *)
Definition conforms m F (op : fop) : Prop := exists m' a F', flat_do m op = Ok (m', a) /\ flat_step F op a F' /\ rep m' F'.

Lemma getroot_conforms m F : rep m F -> conforms m F GetRoot.
Proof.
  intros [E HH]. unfold conforms. cbn [flat_do]. unfold sfs_getroot. destruct (load_holds m E F _ root HH) as (m1 & r & -> & Hr); [by left |]. cbn [rbind].
  destruct Hr as [[-> H1] | (-> & E' & H1 & _ & [sv Hv])].
  - eexists _, _, _. split; [done |]. split; [by right |]. by exists E.
  - cbn [negb Z.eqb]. rewrite (get_vnode_ok _ _ _ Hv). cbn [rbind].
    rewrite (vs_type _ _ (proj1 (ho_sound _ _ _ _ H1)) _ sv (ext_lookup _ _ _ _ Hv)). change (type_of root =? SFS_TYPE_DIR) with true. cbn [negb rbind].
    eexists _, _, _. split; [done |]. split; [by left |]. by exists E'.
Qed.

Lemma lookup_conforms m F name : rep m F -> held (refs F) root -> conforms m F (Lookup name).
Proof.
  intros [E HH] Hr. unfold conforms. cbn [flat_do flat_step]. unfold sfs_lookup. rewrite (is_dir_ok _ _ _ _ _ HH Hr). cbn [rbind Z.eqb negb Pos.eqb].
  destruct (lookonce_holds m E F name HH Hr) as (m1 & r & i & slot & -> & Hl). cbn [rbind]. destruct (names F !! name) as [j | ].
  - destruct Hl as [(-> & -> & H1) | (-> & -> & E' & H1 & _)]; eexists _, _, _; (split; [done |]); [split; [by right | by exists E] | split; [by left | by exists E']].
  - destruct Hl as (-> & -> & H1). eexists _, _, _. split; [done |]. split; [done | by exists E].
Qed.

Lemma creat_new m E F name b :
  rep_in m E (add_file F b) -> names F !! name = None -> (forall n, names F !! n <> Some b) -> sizes F !! b = None -> refs F !! b = None -> held (refs F) root -> valid_name name ->
  exists m' r n F', (let* (m, result, _) := dir_link m root name b in
    if negb (result =? 0) then let* m := VOP_DECREF m b in Ok (m, result, 0) else let* m := add_links m b 1 in Ok (m, 0, b)) = Ok (m', r, n) /\ rep m' F' /\
    ((r = 0 /\ n = b /\ zlen name < SFS_NAMELEN /\ F' = set_names (add_file F b) (<[name := b]> (names F))) \/
     ((no_room r \/ (r = ENAMETOOLONG /\ SFS_NAMELEN <= zlen name)) /\ n = 0 /\ F' = F)).
Proof.
  intros HH Hn Hnb Hs Hrf Hr Hv. set (F1 := add_file F b).
  assert (Hb1 : held (refs F1) b) by (cbn; unfold held; rewrite lookup_insert_eq; by eexists).
  assert (Hr1 : held (refs F1) root) by (cbn; unfold held in *; apply lookup_insert_is_Some'; by right).
  assert (Hs1 : is_Some (sizes F1 !! b)) by (cbn; rewrite lookup_insert_eq; by eexists).
  destruct (link_holds m E F1 _ name b HH Hr1 Hv Hs1) as (m1 & r & slot & M' & -> & Hm & H1 & _). cbn [rbind].
  destruct (Z.eqb_spec r 0) as [-> | Hne]; cbn [negb].
  - destruct (relink_holds m1 E F1 _ name b M' H1 Hm) as (m2 & -> & H2 & _); [done | done | done |]. cbn [rbind].
    eexists _, _, _, _. split; [done |]. split; [by exists E |]. left. destruct (link_done _ _ _ _ Hm) as (-> & _ & Hl). done.
  - pose proof (link_failed _ _ _ _ _ Hm Hne) as ->. destruct (decref_holds m1 E _ b 1 H1) as (m2 & E' & -> & H2); [cbn; by rewrite lookup_insert_eq |].
    cbn [rbind]. exists m2, r, 0, F. split; [done |]. split; [exists E' | right; split; [ | done]].
    + cbn [refs set_names F1 add_file set_refs] in H2. unfold drop_ref, reap in H2. cbn in H2. rewrite delete_insert_eq, delete_id in H2 by done.
      rewrite Hrf in H2. rewrite (links_none (names F) b) in H2 by done.
      cbn in H2. unfold set_sizes in H2. cbn in H2. rewrite delete_insert_eq, delete_id in H2 by done.
      apply (holds_bytes _ _ _ _ (bytes F)) in H2; [by destruct F |]. cbn. intros i p Hi _. destruct (Z.eqb_spec i b) as [-> | ]; [ | done]. rewrite Hs in Hi. by destruct Hi.
    + cbn in Hm. rewrite Hn in Hm. destruct Hm as [_ Hm]. unfold no_room. destruct (Z.leb_spec SFS_NAMELEN (zlen name)); [right; by destruct Hm |].
      left. destruct Hm as [[-> _] | [[-> | ->] _]]; tauto.
Qed.

Lemma creat_conforms m F name excl : rep m F -> held (refs F) root -> valid_name name -> conforms m F (Creat name excl).
Proof.
  intros [E HH] Hr Hv. unfold conforms. cbn [flat_do flat_step]. unfold sfs_creat.
  destruct (findname_holds m E F _ name HH Hr) as (m1 & r & o & -> & H1 & Hf). cbn [rbind]. destruct (names F !! name) as [i | ] eqn:En.
  { destruct Hf as (-> & Ho & _). cbn [Z.eqb negb andb]. destruct excl; cbn [andb].
    { eexists _, _, _. split; [done |]. split; [done | by exists E]. }
    rewrite Ho. destruct (load_holds m1 E F _ i H1) as (m2 & r & -> & Hl); [right; by eapply (ho_names _ _ _ _ H1) |]. cbn [rbind].
    destruct Hl as [[-> H2] | (-> & E' & H2 & _)]; eexists _, _, _; (split; [done |]); [split; [by right | by exists E] | split; [by left | by exists E']]. }
  subst r. change (negb (ENOENT =? 0) && negb (ENOENT =? ENOENT)) with false. change (ENOENT =? 0) with false. cbn [andb].
  destruct (makeobj_holds m1 E F H1) as (m2 & r & b & -> & Hb). cbn [rbind]. destruct Hb as [(-> & Hroot & Hs & Hrf & H2) | [Hno H2]].
  2: { assert (Hne : r <> 0) by (by destruct Hno as [-> | ->]). destruct (Z.eqb_spec r 0); [done |]. cbn [negb code_num rbind].
       eexists _, _, _. split; [done |]. split; [ | by exists E]. right. exists r. split; [left; destruct Hno as [-> | ->]; unfold no_room; tauto | done]. }
  cbn [Z.eqb negb]. destruct (creat_new m2 E F name b H2 En) as (m3 & r & n & F' & -> & H3 & Hx); [ | done | done | done | done |].
  { intros nm Hnm. apply (ho_names _ _ _ _ HH) in Hnm as [? ?]. congruence. }
  cbn [code_num rbind]. eexists _, _, F'. split; [done |]. split; [ | done].
  destruct Hx as [(-> & -> & Hl & ->) | (Hr' & -> & ->)]; [left; by exists b | right; by exists r].
Qed.

Lemma link_conforms m F name i : rep m F -> held (refs F) root -> held (refs F) i -> valid_name name -> conforms m F (LinkTo name i).
Proof.
  intros [E HH] Hr Hi Hv. unfold conforms. cbn [flat_do flat_step]. unfold sfs_link. rewrite (is_dir_ok _ _ _ _ _ HH Hi). cbn [rbind].
  destruct (Z.eqb_spec i root) as [-> | Hroot]; [eexists _, _, _; split; [done |]; split; [done | by exists E] |].
  destruct (held_loaded _ _ _ _ _ HH Hi) as [sv Hsv]. destruct (holds_file _ _ _ _ _ _ HH Hsv Hroot) as (sz & Hsz & _).
  destruct (link_holds m E F _ name i HH Hr Hv) as (m1 & r & slot & M' & -> & Hm & H1 & _); [by eexists |]. cbn [rbind].
  destruct (Z.eqb_spec r 0) as [-> | Hne]; cbn [negb].
  - destruct (relink_holds m1 E F _ name i M' H1 Hm) as (m2 & -> & H2 & _); [done | done | by eexists |]. cbn [rbind code].
    eexists _, _, _. split; [done |]. split; [ | by exists E]. by exists 0, M'.
  - eexists _, _, _. split; [done |]. split; [by exists r, M' |]. exists E. pose proof (link_failed _ _ _ _ _ Hm Hne) as ->. by destruct F.
Qed.

Lemma unlink_conforms m F name : rep m F -> held (refs F) root -> conforms m F (Unlink name).
Proof.
  intros [E HH] Hr. unfold conforms. cbn [flat_do flat_step]. unfold sfs_remove.
  destruct (lookonce_holds m E F name HH Hr) as (m1 & r & i & slot & -> & Hl). cbn [rbind]. destruct (names F !! name) as [j | ] eqn:En.
  2: { destruct Hl as (-> & -> & H1). eexists _, _, _. split; [done |]. split; [done | by exists E]. }
  destruct Hl as [(-> & -> & H1) | (-> & -> & E' & H1 & Hs)]; [eexists _, _, _; split; [done |]; split; [by right | by exists E] |]. cbn [negb Z.eqb].
  set (F1 := set_refs F (plus_ref (refs F) j)) in *. assert (Hr1 : held (refs F1) root) by by apply plus_ref_held.
  destruct (unlink_holds m1 E' F1 _ name slot H1 Hr1 Hs) as (m2 & -> & H2). cbn [rbind Z.eqb].
  pose proof (links_bound _ _ _ j (ho_dir _ _ _ _ H1)) as Hb. change MAXSLOTS with 1144 in Hb.
  destruct (drop_holds m2 E' F1 _ name j H2 En) as (m3 & -> & H3); [done | apply plus_ref_new | by eapply (ho_names _ _ _ _ HH) | lia |]. cbn [rbind].
  destruct (decref_cancel m3 E' (set_names F (delete name (names F))) j H3) as (m4 & E4 & -> & H4); [intros k; by apply (count_pos m E F _ _ _ HH) |]. cbn [rbind code].
  eexists _, _, _. split; [done |]. split; [by left | by exists E4].
Qed.

Lemma rename_conforms m F n1 n2 : rep m F -> held (refs F) root -> valid_name n2 -> conforms m F (Rename n1 n2).
Proof.
  intros [E HH] Hr Hv2. unfold conforms. cbn [flat_do flat_step]. unfold sfs_rename, kassert at 1 2. cbn [Z.eqb Pos.eqb].
  destruct (lookonce_holds m E F n1 HH Hr) as (m1 & r & i & slot & -> & Hl). cbn [rbind]. destruct (names F !! n1) as [j | ] eqn:En.
  2: { destruct Hl as (-> & -> & H1). eexists _, _, _. split; [done |]. split; [done | by exists E]. }
  destruct Hl as [(-> & -> & H1) | (-> & -> & E' & H1 & Hs)]; [eexists _, _, _; split; [done |]; split; [by right | by exists E] |]. cbn [negb Z.eqb].
  assert (Hk : forall k, refs F !! j = Some k -> 1 <= k) by (intros k; by apply (count_pos m E F _ _ _ HH)).
  set (F1 := set_refs F (plus_ref (refs F) j)) in *. assert (Hr1 : held (refs F1) root) by by apply plus_ref_held.
  assert (Hj1 : held (refs F1) j) by apply plus_ref_new. assert (Hsz : is_Some (sizes F1 !! j)) by by eapply (ho_names _ _ _ _ HH).
  destruct (held_loaded _ _ _ _ _ H1 Hj1) as [sv Hv]. rewrite (get_vnode_ok _ _ _ Hv). cbn [rbind].
  destruct (holds_file _ _ _ _ _ _ H1 Hv) as (sz & _ & _ & -> & _); [by eapply holds_not_root |]. unfold kassert. cbn [Z.eqb Pos.eqb].
  destruct (link_holds m1 E' F1 _ n2 j H1 Hr1 Hv2 Hsz) as (m2 & r & slot2 & M' & -> & Hm & H2 & Hsl2). cbn [rbind].
  destruct (Z.eqb_spec r 0) as [-> | Hne]; cbn [negb].
  2: { pose proof (link_failed _ _ _ _ _ Hm Hne) as ->. destruct (decref_cancel m2 E' F j H2 Hk) as (m3 & E3 & -> & H3). cbn [rbind code].
       rewrite (reap_named F n1) in H3 by done. eexists _, _, _. split; [done |]. split; [ | by exists E3]. left. exists r, (names F). split; [done |]. split; [done |].
       by destruct (Z.eqb_spec r 0). }
  destruct (relink_holds m2 E' F1 _ n2 j M' H2 Hm) as (m3 & -> & H3 & Hsl3); [done | done | done |]. cbn [rbind].
  destruct (unlink_holds m3 E' (set_names F1 M') _ n1 slot H3 Hr1) as (m4 & -> & H4); [by apply Hsl3, Hsl2 |]. cbn [rbind negb Z.eqb].
  destruct (link_done _ _ _ _ Hm) as (EM & Hn2 & _). assert (Hne : n1 <> n2) by (intros ->; cbn in Hn2; congruence).
  assert (Hn1 : names (set_names F1 M') !! n1 = Some j) by (cbn; rewrite EM; by rewrite lookup_insert_ne).
  pose proof (links_bound _ _ _ j (ho_dir _ _ _ _ H3)) as Hb. change MAXSLOTS with 1144 in Hb.
  destruct (drop_holds m4 E' (set_names F1 M') _ n1 j H4 Hn1) as (m5 & -> & H5); [done | done | done | lia |]. cbn [rbind].
  destruct (decref_cancel m5 E' (set_names F (delete n1 M')) j H5 Hk) as (m6 & E6 & -> & H6). cbn [rbind code].
  rewrite (reap_named _ n2) in H6 by (cbn; rewrite EM; by rewrite lookup_delete_ne, lookup_insert_eq).
  eexists _, _, _. split; [done |]. split; [ | by exists E6]. left. by exists 0, M'.
Qed.

Lemma close_conforms m F i : rep m F -> held (refs F) i -> conforms m F (Close i).
Proof.
  intros [E HH] [n Hn]. destruct (decref_holds m E F i n HH Hn) as (m' & E' & Ed & H'). unfold conforms. cbn [flat_do flat_step]. rewrite Ed. cbn [rbind].
  eexists _, _, _. split; [done |]. split; [by exists n | by exists E'].
Qed.

Lemma held_file m E F L i :
  holds m E F L -> held (refs F) i -> i <> root ->
  exists sv sz, sfs_vnodes (vol m) !! i = Some sv /\ sizes F !! i = Some sz /\ sfi_size (sv_i sv) = sz /\ sfi_type (sv_i sv) = SFS_TYPE_FILE /\
    sfi_linkcount (sv_i sv) = L i /\ is_u32 sz.
Proof.
  intros HH Hi Hroot. destruct (held_loaded _ _ _ _ _ HH Hi) as [sv Hv]. destruct (holds_file _ _ _ _ _ _ HH Hv Hroot) as (sz & H1 & H2 & H3 & H4).
  exists sv, sz. split; [done |]. split; [done |]. split; [done |]. split; [done |]. split; [done |]. rewrite <- H2.
  apply (vo_inode _ (vs_vol _ _ (proj1 (ho_sound _ _ _ _ HH))) i sv Hv).
Qed.

Lemma ready_ok w m E F L i u : holds m E F L -> held (refs F) i -> uio_ok w u -> ready w (all E m) i u.
Proof.
  intros HH Hi Hu. destruct (ho_sound _ _ _ _ HH) as [HS _]. destruct (held_loaded _ _ _ _ _ HH Hi) as [sv Hv].
  split; [apply HS | exact (vs_small _ _ HS) | exists sv; by apply ext_lookup | done].
Qed.

Lemma read_conforms m F i off len :
  rep m F -> held (refs F) i -> i <> root -> 0 <= off -> 0 < len -> off + len < 2 ^ 32 -> conforms m F (ReadAt i off len).
Proof.
  intros [E HH] Hi Hroot Ho Hl Hb. destruct (held_file _ _ _ _ _ HH Hi Hroot) as (sv & sz & Hv & Hsz & Hs & _ & _ & Hu). unfold is_u32 in Hu.
  set (u := mkBu off len []). assert (Hready : ready false (all E m) i u) by (eapply ready_ok; [done | done |]; split; [cbn; lia | done]).
  destruct (sfs_read_ok (all E m) i sv u Hready (ext_lookup _ E _ _ Hv)) as (t & u' & r & k & Et & HU & Hd & [Ha1 Ha2] & Hk & Hr); [lia | done |].
  destruct (lifts_elim E i (vol m) _ _ _ (io_lifts E i (vol m) u false ltac:(by eexists)) Et) as ([[s1 u1] r1] & E1 & Ea & HE).
  injection Ea as -> <- <-. cbn in HE. unfold conforms. cbn [flat_do flat_step]. unfold sfs_read. fold u. rewrite E1. cbn [rbind]. rewrite Hs in Hk, Hr.
  eexists _, _, F. split; [done |]. split.
  - exists sz, k. cbn in Hd, Ha2. split; [done |]. split; [done |]. split; [done |]. cbn [a_num a_code a_data]. split; [lia |]. split.
    + rewrite Hd. apply list_fmap_ext. intros n p [Hp1 Hp2]%lookup_seqZ. apply (ho_bytes _ _ _ _ HH); [by eexists | lia].
    + destruct Hr as [? | [[_ Hno] | ?]]; [by left | by destruct Hno; apply (ho_sound _ _ _ _ HH) | by right].
  - exists E. apply (holds_keep m E); [done | | by apply unchanged_reads | done].
    apply (edit_sound m E i); [apply HH | by eexists | done | apply HU | apply HU].
Qed.

Lemma write_conforms m F i off data :
  rep m F -> held (refs F) i -> i <> root -> 0 <= off -> 0 < zlen data -> off + zlen data < 2 ^ 32 -> Forall (fun b => 0 <= b < 2 ^ 8) data ->
  conforms m F (WriteAt i off data).
Proof.
  intros [E HH] Hi Hroot Ho Hl Hb Hbytes. destruct (held_file _ _ _ _ _ HH Hi Hroot) as (sv & sz & Hv & Hsz & Hs & _ & _ & Hu).
  set (u := mkBu off (zlen data) data). assert (Hready : ready true (all E m) i u) by (eapply ready_ok; [done | done |]; split; [cbn; lia | done]).
  destruct (sfs_write_ok (all E m) i sv u Hready (ext_lookup _ E _ _ Hv)) as (t & u' & r & k & Et & HI & Hk & Hby & Hat & _ & [_ Ha2] & Hr & HK & Hco & _); [done |].
  destruct (lifts_elim E i (vol m) _ _ _ (io_lifts E i (vol m) u true ltac:(by eexists)) Et) as ([[s1 u1] r1] & E1 & Ea & HE).
  injection Ea as -> <- <-. cbn in HE. unfold conforms. cbn [flat_do flat_step]. unfold sfs_write. fold u. rewrite E1. cbn [rbind]. cbn in Ha2, Hk.
  eexists _, _, _. split; [done |]. split.
  - exists sz, k. split; [done |]. split; [done |]. cbn [a_num a_code a_data]. split; [lia |]. split; [done |]. split; [done |].
    destruct Hr as [? | [_ [[_ Hno] | [[-> _] | ?]]]]; [by left | by destruct Hno; apply (ho_sound _ _ _ _ HH) | by right; left | by right; right].
  - exists E. pose proof HH as [S D R Fi Rt By N]. split; cbn [names sizes bytes refs vol with_vol vn_refcount]; [ | | done | | | |].
    + apply (edit_sound m E i); [done | by eexists | done | done | done].
    + apply (dir_is_eq (all E m)); [done | intros f; by apply Hco, not_eq_sym | | done]. rewrite Hat. by destruct (Z.eqb_spec root i).
    + intros j Hj Hna. rewrite Hat. destruct (Z.eqb_spec j i) as [-> | Hne]; cbn [andb].
      * rewrite Fi, Hsz by done. destruct (0 <? k); [by rewrite lookup_insert_eq | by rewrite Hsz].
      * rewrite Fi by done. case_if; [by rewrite lookup_insert_ne | done].
    + intros j Hj. case_if; [ | by apply Rt]. rewrite lookup_insert_ne; [by apply Rt |]. intros <-. rewrite Rt in Hsz by done. done.
    + intros j p Hj Hp. rewrite Hby by done. destruct ((j =? i) && in_range _ _ _); [done |]. apply By; [ | done]. destruct (0 <? k); [ | done].
      apply lookup_insert_is_Some' in Hj as [<- | ?]; [by eexists | done].
    + intros n j Hn. case_if; [apply lookup_insert_is_Some'; right |]; by eapply N.
Qed.

Lemma kept_below len p : 0 <= p < len -> len < 2 ^ 32 - SFS_BLOCKSIZE -> kept (file_blocks len) (p / SFS_BLOCKSIZE) = true.
Proof.
  intros Hp Hl. unfold file_blocks, SFS_BLOCKSIZE in *. rewrite Z.quot_div_nonneg, u32_id by (unfold is_u32; div_lia || div_lia).
  unfold kept, SFS_NDIRECT. case_if; [apply Z.ltb_lt; div_lia |]. apply orb_true_iff. left. apply Z.leb_le. div_lia.
Qed.

Lemma truncate_conforms m F i len : rep m F -> held (refs F) i -> i <> root -> 0 <= len < 2 ^ 32 - SFS_BLOCKSIZE -> conforms m F (Truncate i len).
Proof.
  intros [E HH] Hi Hroot Hl. destruct (held_file _ _ _ _ _ HH Hi Hroot) as (sv & sz & Hv & Hsz & _).
  destruct (itrunc_sound (vol m) E i sv len (proj1 (ho_sound _ _ _ _ HH)) Hv) as (s1 & E1 & HS1 & HE & HP).
  unfold conforms. cbn [flat_do flat_step]. unfold sfs_truncate. rewrite E1. cbn [rbind code].
  set (b := fun j p => if (j =? i) && (len <=? p) then byte_at (ext E s1) i p else bytes F j p).
  assert (Hone : forall p, len <= p -> b i p = bytes F i p \/ b i p = 0).
  { intros p Hp. unfold b. rewrite Z.eqb_refl. destruct (Z.leb_spec len p); [ | lia]. cbn [andb]. unfold byte_at. rewrite (it_content _ _ _ _ _ HP), Z.eqb_refl. cbn [andb].
    destruct (kept _ _); cbn [negb]; [left; apply (ho_bytes _ _ _ _ HH); [by eexists | lia] | right; apply byte_zeros; lia]. }
  eexists _, _, _. split; [done |]. split.
  - exists b. split; [done |]. split; [done |]. split; [ | done]. intros j p Hj. unfold b. destruct (Z.eqb_spec j i), (Z.leb_spec len p); cbn [andb]; try done. lia.
  - exists E. pose proof HH as [S D R Fi Rt By N]. split; cbn [names sizes bytes refs vol with_vol vn_refcount]; [ | | done | | | |].
    + split; [done | by eapply table_edit; [apply S | by eexists | done]].
    + apply (dir_is_eq (all E m)); [apply HP | intros f; rewrite (it_content _ _ _ _ _ HP) | rewrite (it_size _ _ _ _ _ HP) | done]; by destruct (Z.eqb_spec root i).
    + intros j Hj Hna. rewrite (it_size _ _ _ _ _ HP). destruct (Z.eqb_spec j i) as [-> | Hne].
      * rewrite Fi, Hsz, lookup_insert_eq by done. cbn. rewrite u32_id; [done |]. unfold is_u32, SFS_BLOCKSIZE in *. lia.
      * rewrite lookup_insert_ne by done. by apply Fi.
    + intros j Hj. rewrite lookup_insert_ne; [by apply Rt |]. intros <-. rewrite Rt in Hsz by done. done.
    + intros j p Hj Hp. assert (Hj' : is_Some (sizes F !! j)) by (apply lookup_insert_is_Some' in Hj as [<- | ?]; [by eexists | done]).
      unfold b. destruct (Z.eqb_spec j i) as [-> | Hne]; cbn [andb].
      * destruct (Z.leb_spec len p) as [ | Hlt]; [done |]. unfold byte_at. rewrite (it_content _ _ _ _ _ HP), Z.eqb_refl, kept_below by lia. cbn [andb negb]. by apply By.
      * unfold byte_at. rewrite (it_content _ _ _ _ _ HP). destruct (Z.eqb_spec j i); [done |]. by apply By.
    + intros n j Hn. apply lookup_insert_is_Some'. right. by eapply N.
Qed.

Lemma fsync_conforms m F i : rep m F -> held (refs F) i -> conforms m F (Fsync i).
Proof.
  intros [E HH] Hi. destruct (held_loaded _ _ _ _ _ HH Hi) as [sv Hv]. destruct (ho_sound _ _ _ _ HH) as [HS HT].
  destruct (sync_inode_ok (vol m) E i sv HS Hv) as (s1 & E1 & [Y1 Y2 Y3 _] & _). unfold conforms. cbn [flat_do flat_step]. unfold sfs_fsync. rewrite E1. cbn [rbind code].
  eexists _, _, F. split; [done |]. split; [done |]. exists E. apply (holds_keep m E); [done | | done | done]. split; [done |].
  destruct HT as [TN TT TR TP]. assert (Hld : forall j, is_Some (sfs_vnodes s1 !! j) <-> is_Some (sfs_vnodes (vol m) !! j)).
  { intros j. rewrite Y3, lookup_insert_is_Some'. split; [intros [<- | ?]; [by eexists | done] | by right]. }
  split; try done; intros j; cbn [vol with_vol table vn_refcount]; by rewrite Hld.
Qed.

Lemma stat_conforms m F i : rep m F -> held (refs F) i -> i <> root -> conforms m F (Stat i).
Proof.
  intros [E HH] Hi Hroot. destruct (held_file _ _ _ _ _ HH Hi Hroot) as (sv & sz & Hv & Hsz & H1 & H2 & H3 & _).
  unfold conforms. cbn [flat_do flat_step]. unfold sfs_stat, sfs_gettype. rewrite (get_vnode_ok _ _ _ Hv). cbn [rbind]. rewrite H2. cbn [Z.eqb Pos.eqb rbind]. rewrite H1, H3.
  eexists _, _, F. split; [done |]. split; [by exists sz | by exists E].
Qed.

Lemma step_conforms m F op : rep m F -> op_ready (vn_refcount m) op -> conforms m F op.
Proof.
  intros HR Hop. destruct (HR) as [E HH]. rewrite <- (ho_refs _ _ _ _ HH) in Hop. clear HH. destruct op; cbn [op_ready] in Hop; destruct_and? Hop;
    [ by apply getroot_conforms | by apply lookup_conforms | by apply creat_conforms | by apply link_conforms | by apply unlink_conforms | by apply rename_conforms
    | by apply close_conforms | by apply read_conforms | by apply write_conforms | by apply truncate_conforms | by apply fsync_conforms | by apply stat_conforms ].
Qed.

Lemma calls_conform ops : forall m F, rep m F -> calls_ready m ops = true -> exists m' l F', flat_calls m ops = Ok (m', l) /\ flat_run F ops l F' /\ rep m' F'.
Proof.
  induction ops as [ | op ops IH]; intros m F HR Hc; [exists m, [], F; split; [done |]; split; [constructor | done] |].
  cbn [calls_ready] in Hc. apply andb_true_iff in Hc as [Hop%bool_decide_eq_true Hc].
  destruct (step_conforms m F op HR Hop) as (m1 & a & F1 & E1 & Hs & HR1). rewrite E1 in Hc. cbn [flat_calls]. rewrite E1. cbn [rbind].
  destruct (IH m1 F1 HR1 Hc) as (m2 & l & F2 & -> & Hrun & HR2). cbn [rbind]. eexists _, _, F2. split; [done |]. split; [by econstructor | done].
Qed.
End Flat.

(** * Histories *)

(** C8: SFS is a flat file system.  On a volume without disk errors, over any
    history of calls made one at a time with the references they need, every
    call returns (no panic, no assertion fails), and its answer and effect are
    those of a map from names to files of bytes: creating, linking, renaming
    and removing names, reading and writing, truncating, and files that last as
    long as they have a name or a reference, whether or not their vnodes are in
    memory.  A call may also fail for lack of memory or room, and then leaves
    names, files and references as they were.  Against the manual, rename to a
    name that exists fails with EEXIST, and bytes cut off by a truncation may
    reappear when the file grows again; see the two theorems below. *)
Theorem sfs_refines_flat {B} `{FreeMapLaws B} `{Layout B} (m : sfs_mnt B) F ops :
  rep m F -> calls_ready m ops = true -> exists m' l F', flat_calls m ops = Ok (m', l) /\ flat_run F ops l F' /\ rep m' F'.
Proof. apply calls_conform. Qed.

(** A new volume of sixteen blocks: the superblock, the root directory and the
    map of free blocks.  Nothing is in memory. *)
Definition root_dir : sfs_vnode := mkSv (mkDinode 0 SFS_TYPE_DIR 1 (repeat 0 15) 0 (repeat 0 110)) false.

Definition new_map : bitmap := mkBitmap 4096 (7 :: 0 :: repeat 255 510).
Definition new_super : list Z := bytes_of [2880303105; 16] ++ repeat 0 504.

Definition new_disk : gmap Z (list Z) :=
  <[0 := new_super]> (<[1 := dinode_block (sv_i root_dir)]> (<[2 := bitmap_getdata new_map]> (list_to_map ((fun b => (b, zeros)) <$> seqZ 3 13)))).

Definition new_volume (mem : list bool) : sfs_mnt bitmap := mkMnt (mkSfs new_map false 16 16 new_disk [] [] ∅) [] ∅ mem.

Definition empty_flat : flat := mkFlat ∅ ∅ (fun _ _ => 0) ∅.

(** The block of the map, as a file without blocks of its own. *)
Definition map_inode : sfs_vnode := mkSv (mkDinode 0 SFS_TYPE_FILE 1 (repeat 0 15) 0 (repeat 0 110)) true.

Definition new_files : gmap Z sfs_vnode := {[1 := root_dir; 2 := map_inode]}.

#[local] Instance new_layout : Layout bitmap := disk_layout 16 new_super.

Lemma good_check d : (zlen d =? SFS_BLOCKSIZE) && forallb (fun b => (0 <=? b) && (b <? 2 ^ 8)) d = true -> good_block d.
Proof. intros [Hl Hb]%andb_true_iff. split; [lia |]. apply Forall_forall. intros b Hin%list_elem_of_In. rewrite forallb_forall in Hb. specialize (Hb b Hin). lia. Qed.

Lemma new_disk_ok b : 0 <= b < 16 -> exists d, new_disk !! b = Some d /\ good_block d.
Proof.
  intros Hb. assert (Hall : forallb (fun b => match new_disk !! b with
      Some d => (zlen d =? SFS_BLOCKSIZE) && forallb (fun b => (0 <=? b) && (b <? 2 ^ 8)) d | None => false end) (seqZ 0 16) = true) by (vm_compute; reflexivity).
  rewrite forallb_forall in Hall. specialize (Hall b). destruct (new_disk !! b) as [d | ].
  - exists d. split; [done |]. apply good_check, Hall, list_elem_of_In, elem_of_seqZ. lia.
  - exfalso. assert (false = true); [ | done]. apply Hall, list_elem_of_In, elem_of_seqZ. lia.
Qed.

Lemma new_volume_inv mem : sfs_inv (ext new_files (vol (new_volume mem))).
Proof. apply inv_check; [apply volume_check; [ | exact new_disk_ok] | ]; vm_compute; reflexivity. Qed.

Lemma new_volume_files mem i sv :
  sfs_vnodes (ext new_files (vol (new_volume mem))) !! i = Some sv -> (i = 1 /\ sv = root_dir) \/ (i = 2 /\ sv = map_inode).
Proof.
  cbn. rewrite map_empty_union. unfold new_files. intros [[<- <-] | [_ [<- <-]%lookup_singleton_Some]]%lookup_insert_Some; [by left | by right].
Qed.

Lemma new_volume_sound mem : vol_sound (vol (new_volume mem)) new_files.
Proof.
  pose proof (new_volume_files mem) as Hf. split.
  - apply new_volume_inv.
  - apply map_disjoint_empty_r.
  - intros i sv Hi Hd. destruct (Hf i sv Hi) as [[-> ->] | [-> ->]]; [ | done]. eexists. split; [cbn; unfold new_disk; by rewrite lookup_insert_ne, lookup_insert_eq | by vm_compute].
  - intros i sv Hi Ha. destruct (Hf i sv) as [[-> ->] | [-> ->]]; [ | done |]; [cbn; by rewrite map_empty_union |]. destruct Ha. cbn. unfold SFS_FREEMAPBLOCKS. by vm_compute.
  - intros i sv Hi. destruct (Hf i sv) as [[-> ->] | [-> ->]]; [cbn; by rewrite map_empty_union | done | done].
  - intros i sv Hi. by destruct (Hf i sv Hi) as [[-> ->] | [-> ->]].
  - intros i [sv Hi]. by destruct (Hf i sv Hi) as [[-> _] | [-> _]].
  - exists root_dir. split; [cbn; by rewrite map_empty_union | done].
  - unfold small_volume. cbn. lia.
  - done.
  - split.
    + intros i Hi. change (2 <= i < 3) in Hi. assert (i = 2) as -> by lia. split; [by exists map_inode | done].
    + intros _ j Hj. change (0 <= j < 1) in Hj. assert (j = 0) as -> by lia. by vm_compute.
    + done.
    + done.
Qed.

Lemma new_volume_rep mem : rep (new_volume mem) empty_flat.
Proof.
  pose proof (new_volume_files mem) as Hf. exists new_files. split.
  - split; [apply new_volume_sound |]. split; cbn; [constructor | | |].
    + intros i. rewrite lookup_empty, elem_of_nil. split; [done | by intros [? ?]].
    + intros i. rewrite !lookup_empty. split; by intros [? ?].
    + intros i n. by rewrite lookup_empty.
  - exists 0. split; [split; [apply new_volume_inv | | by vm_compute | lia] |].
    + exists 1. unfold attrs. cbn. by rewrite map_empty_union.
    + intros name x. cbn. rewrite lookup_empty. split; [done |]. intros (i & Hi & _). lia.
  - done.
  - intros i Hi Ha. unfold attrs. destruct (sfs_vnodes _ !! i) as [sv | ] eqn:Ei; [ | cbn; by rewrite lookup_empty].
    destruct (Hf i sv Ei) as [[-> _] | [-> _]]; [done | by destruct Ha].
  - done.
  - intros i p [? Hs]. cbn in Hs. by rewrite lookup_empty in Hs.
  - intros n i Hn. cbn in Hn. by rewrite lookup_empty in Hn.
Qed.

(** A file is made, written, given a second name, loses the first, is renamed,
    closed, found again and read, and at last is gone. *)
Definition story : list fop :=
  [GetRoot; Creat [97] true; WriteAt 3 510 [1; 2; 3]; LinkTo [98] 3; Creat [97] true; Unlink [97]; Rename [98] [99]; Close 3; Lookup [97]; Lookup [99];
   ReadAt 3 509 10; Stat 3; Unlink [99]; Truncate 3 511; ReadAt 3 0 1000; Close 3; Lookup [99]].

Definition story_answers : list answer :=
  [mkAns 0 1 []; mkAns 0 3 []; mkAns 0 3 []; mkAns 0 0 []; mkAns EEXIST 0 []; mkAns 0 0 []; mkAns 0 0 []; mkAns 0 0 []; mkAns ENOENT 0 []; mkAns 0 3 [];
   mkAns 0 4 [0; 1; 2; 3]; mkAns 0 0 [S_IFREG; 513; 1]; mkAns 0 0 []; mkAns 0 0 []; mkAns 0 511 (repeat 0 510 ++ [1]); mkAns 0 0 []; mkAns ENOENT 0 []].

Lemma sfs_refines_flat_witness :
  exists m' F', flat_calls (new_volume []) story = Ok (m', story_answers) /\ flat_run empty_flat story story_answers F' /\ rep m' F'.
Proof.
  destruct (sfs_refines_flat (new_volume []) empty_flat story) as (m' & l & F' & E & HR & HI); [apply new_volume_rep | vm_compute; reflexivity |].
  assert (Hl : match flat_calls (new_volume []) story with Ok (_, l) => l | Fault _ => [] end = story_answers) by (vm_compute; reflexivity).
  rewrite E in Hl. subst l. exists m', F'. split; [exact E |]. split; [exact HR | exact HI].
Defined.

(** Rename never replaces: whatever names the directory has, giving a file a
    name that is taken, or the name it has, fails and changes nothing. *)
Theorem rename_refuses_existing {B} `{FreeMapLaws B} `{Layout B} (m : sfs_mnt B) F n1 n2 :
  rep m F -> calls_ready m [Rename n1 n2] = true -> is_Some (names F !! n1) -> is_Some (names F !! n2) ->
  exists m' a, flat_calls m [Rename n1 n2] = Ok (m', [a]) /\ (a_code a = EEXIST \/ a_code a = ENOMEM) /\ rep m' F.
Proof.
  intros Hr Hc [i Hi] [j Hj]. destruct (calls_conform [Rename n1 n2] m F Hr Hc) as (m' & l & F' & E & HR & HI).
  inversion HR as [ | ? F1 ? ? ? a l' Hs Hrest]; subst. inversion Hrest; subst. cbn [flat_step] in Hs. rewrite Hi in Hs.
  destruct Hs as [(r & M' & -> & Hm & HF) | [-> HF]].
  - cbn [map_step] in Hm. rewrite Hj in Hm. destruct Hm as (_ & -> & ->). cbn in HF. subst.
    exists m', (mkAns EEXIST 0 []). split; [exact E |]. split; [by left | exact HI].
  - subst. exists m', (mkAns ENOMEM 0 []). split; [exact E |]. split; [by right | exact HI].
Qed.

Lemma rename_itself_refused :
  exists m' l, flat_calls (new_volume []) [GetRoot; Creat [97] true; Rename [97] [97]] = Ok (m', l) /\ a_code <$> l !! 2%nat = Some EEXIST.
Proof. eexists _, _. split; vm_compute; reflexivity. Qed.

(** A file of three bytes, cut to one and made three bytes long again, has its
    old bytes back. *)
Theorem truncate_shows_old_bytes :
  exists m' l, flat_calls (new_volume []) [GetRoot; Creat [97] true; WriteAt 3 0 [1; 2; 3]; Truncate 3 1; Truncate 3 3; ReadAt 3 0 3] = Ok (m', l) /\
    l !! 5%nat = Some (mkAns 0 3 [1; 2; 3]).
Proof. eexists _, _. split; vm_compute; reflexivity. Qed.
