(* ===== verification/SfsMount.v ===== *)
(** Mounting, syncing and unmounting SFS volumes (kern/fs/sfs/sfs_fsops.c), and
    that what was synced is found again.

    [fs_mnt] is the volume with its vnodes.  sfs_domount reads it from a device,
    on which an unmounted volume is nothing but its blocks. *)
From S2P Require Import Prelude Bitmap Sfs SfsDir SfsFile SfsExt SfsVnode SfsVolume SfsFlat.

Definition SFS_MAGIC := 2880303105.
Definition SFS_SUPER_BLOCK := 0.
Definition SFS_VOLNAME_SIZE := 32.

(** The superblock; sb_nblocks is in the volume. *)
Record sfs_superblock := mkSb { sb_magic : Z; sb_volname : list Z; sb_reserved : list Z }.

Record sfs_object := mkObj {
  fs_mnt : sfs_mnt bitmap;
  sfs_sb : sfs_superblock;
  sfs_superdirty : bool
}.

(** A block device: what is on it, the number and the size of its blocks, and
    which of the coming operations fail. *)
Record device := mkDev {
  d_disk : gmap Z (list Z);
  d_nblocks : Z;
  d_blocksize : Z;
  d_rd_errors : list bool;
  d_wr_errors : list bool
}.

Definition super_block (sb : sfs_superblock) (nblocks : Z) : list Z := bytes_of [sb_magic sb; nblocks] ++ sb_volname sb ++ bytes_of (sb_reserved sb).

(** The superblock and the number of blocks. *)
Definition block_super (b : list Z) : sfs_superblock * Z :=
  (mkSb (default 0 (words_of b !! 0%nat)) (take (Z.to_nat SFS_VOLNAME_SIZE) (drop 8 b)) (words_of (drop 40 b)), default 0 (words_of b !! 1%nat)).

(** [sfs_sb.sb_volname[sizeof(sb_volname)-1] = 0;] *)
Definition end_volname (sb : sfs_superblock) : sfs_superblock := mkSb (sb_magic sb) (take (Z.to_nat (SFS_VOLNAME_SIZE - 1)) (sb_volname sb) ++ [0]) (sb_reserved sb).

Definition with_mnt (o : sfs_object) (m : sfs_mnt bitmap) : sfs_object := mkObj m (sfs_sb o) (sfs_superdirty o).

Definition set_map (s : sfs_fs bitmap) (b : bitmap) (dirty : bool) : sfs_fs bitmap :=
  mkSfs b dirty (sb_nblocks s) (d_blocks s) (disk s) (rd_errors s) (wr_errors s) (sfs_vnodes s).

(** ** The map of free blocks *)

(** A block of the map is read into it. *)
Definition put_part (b : bitmap) (j : Z) (data : list Z) : bitmap :=
  mkBitmap (nbits b) (take (Z.to_nat (j * SFS_BLOCKSIZE)) (bitmap_getdata b) ++ data ++ drop (Z.to_nat ((j + 1) * SFS_BLOCKSIZE)) (bitmap_getdata b)).

Fixpoint freemapio_loop (k : nat) (s : sfs_fs bitmap) (write : bool) (j : Z) : res (sfs_fs bitmap * Z) :=
  match k with
  | O => Ok (s, 0)
  | S k =>
    let* (s, result) :=
      if write then sfs_writeblock s (SFS_FREEMAP_START + j) (freemap_part (sfs_freemap s) j)
      else let* (s, result, data) := sfs_readblock s (SFS_FREEMAP_START + j) in
           Ok (set_map s (put_part (sfs_freemap s) j data) (sfs_freemapdirty s), result) in
    if negb (result =? 0) then Ok (s, result) else freemapio_loop k s write (j + 1)
  end.

Definition sfs_freemapio (s : sfs_fs bitmap) (write : bool) : res (sfs_fs bitmap * Z) :=
  freemapio_loop (Z.to_nat (SFS_FREEMAPBLOCKS (sb_nblocks s))) s write 0.

(** ** Writing everything back *)

(** The return values of VOP_FSYNC are not looked at. *)
Fixpoint sync_vnodes_loop (l : list Z) (m : sfs_mnt bitmap) : res (sfs_mnt bitmap) :=
  match l with
  | [] => Ok m
  | i :: l => let* (m, _) := sfs_fsync m i in sync_vnodes_loop l m
  end.

Definition sfs_sync_vnodes (m : sfs_mnt bitmap) : res (sfs_mnt bitmap * Z) := let* m := sync_vnodes_loop (table m) m in Ok (m, 0).

Definition sfs_sync_freemap (m : sfs_mnt bitmap) : res (sfs_mnt bitmap * Z) :=
  if sfs_freemapdirty (vol m) then
    let* (s, result) := sfs_freemapio (vol m) true in
    if negb (result =? 0) then Ok (with_vol m s, result) else Ok (with_vol m (set_map s (sfs_freemap s) false), 0)
  else Ok (m, 0).

Definition sfs_sync_superblock (o : sfs_object) : res (sfs_object * Z) :=
  if sfs_superdirty o then
    let* (s, result) := sfs_writeblock (vol (fs_mnt o)) SFS_SUPER_BLOCK (super_block (sfs_sb o) (sb_nblocks (vol (fs_mnt o)))) in
    let o := with_mnt o (with_vol (fs_mnt o) s) in
    if negb (result =? 0) then Ok (o, result) else Ok (mkObj (fs_mnt o) (sfs_sb o) false, 0)
  else Ok (o, 0).

Definition sfs_sync (o : sfs_object) : res (sfs_object * Z) :=
  let* (m, result) := sfs_sync_vnodes (fs_mnt o) in
  if negb (result =? 0) then Ok (with_mnt o m, result)
  else
  let* (m, result) := sfs_sync_freemap m in
  if negb (result =? 0) then Ok (with_mnt o m, result)
  else sfs_sync_superblock (with_mnt o m).

Definition sfs_getvolname (o : sfs_object) : list Z := cstr (sb_volname (sfs_sb o)).

(** ** Unmounting and mounting *)

Definition device_of (o : sfs_object) : device :=
  let s := vol (fs_mnt o) in mkDev (disk s) (d_blocks s) SFS_BLOCKSIZE (rd_errors s) (wr_errors s).

(** The return value; on success only the device is left of the volume. *)
Definition sfs_unmount (o : sfs_object) : res Z :=
  match table (fs_mnt o) with
  | _ :: _ => Ok EBUSY
  | [] => kassert (negb (sfs_superdirty o)) (kassert (negb (sfs_freemapdirty (vol (fs_mnt o)))) (Ok 0))
  end.

(** The object and its vnode table take memory. *)
Definition sfs_fs_create (dev : device) (mem : list bool) : sfs_mnt bitmap * bool :=
  let m := mkMnt (mkSfs (mkBitmap 0 []) false 0 (d_nblocks dev) (d_disk dev) (d_rd_errors dev) (d_wr_errors dev) ∅) [] ∅ mem in
  let (m, granted) := want_mem m in
  if negb granted then (m, false) else want_mem m.

(** [if (sb_nblocks > d_blocks)] only a warning is printed. *)
Definition sfs_domount (dev : device) (mem : list bool) : res (sfs_object + Z) :=
  if negb (d_blocksize dev =? SFS_BLOCKSIZE) then Ok (inr ENXIO)
  else
  let (m, granted) := sfs_fs_create dev mem in
  if negb granted then Ok (inr ENOMEM)
  else
  let* (s, result, data) := sfs_readblock (vol m) SFS_SUPER_BLOCK in
  if negb (result =? 0) then Ok (inr result)
  else
  let (sb, nblocks) := block_super data in
  if negb (sb_magic sb =? SFS_MAGIC) then Ok (inr EINVAL)
  else
  let sb := end_volname sb in
  let (m, ok1) := want_mem m in
  let (m, ok2) := if ok1 : bool then want_mem m else (m, true) in
  let* b := bitmap_create ok1 ok2 (SFS_FREEMAPBITS nblocks) in
  match b with
  | None => Ok (inr ENOMEM)
  | Some b =>
    let s := mkSfs b false nblocks (d_blocks s) (disk s) (rd_errors s) (wr_errors s) ∅ in
    let* (s, result) := sfs_freemapio s false in
    if negb (result =? 0) then Ok (inr result) else Ok (inl (mkObj (with_vol m s) sb false))
  end.

(** * What is synced is found again *)

Section Aside.
Context {B : Type} `{FreeMapLaws B} `{LY : Layout B}.
Implicit Types (s : sfs_fs B) (E : gmap Z sfs_vnode).

(** Only blocks set aside are written. *)
Definition aside_only s s' : Prop := forall b, disk s' !! b = disk s !! b \/ (aside b /\ exists d, disk s' !! b = Some d /\ good_block d).

Lemma aside_slot s s' E p : vol_sound s E -> aside_only s s' -> block_at (ext E s) p <> 0 -> p.2 <> SIno -> disk s' !! block_at (ext E s) p = disk s !! block_at (ext E s) p.
Proof.
  intros HS HA Hp Hs. destruct (HA (block_at (ext E s) p)) as [ | [Ha _]]; [done |].
  by destruct (slot_inode (ext E s) p (block_at (ext E s) p) (vs_inv _ _ HS) Hp Hs); [right; apply aside_ext; [apply HS |] |].
Qed.

Lemma aside_written s s' E :
  vol_sound s E -> sfs_freemap s' = sfs_freemap s -> sb_nblocks s' = sb_nblocks s -> d_blocks s' = d_blocks s -> rd_errors s' = rd_errors s ->
  wr_errors s' = wr_errors s -> sfs_vnodes s' = sfs_vnodes s -> aside_only s s' -> (sfs_freemapdirty s' = false -> saved (sfs_freemap s') (disk s')) ->
  vol_sound s' E /\ reads_same (ext E s) (ext E s').
Proof.
  intros HS Hm Hn Hb Hr Hw Hv HA Hsv. pose proof HS as [I D K C L T Z X S R Q].
  assert (Hve : sfs_vnodes (ext E s') = sfs_vnodes (ext E s)) by (cbn; by rewrite Hv).
  assert (Hbl : forall p, block_at (ext E s') p = block_at (ext E s) p).
  { intros [j sl]. unfold block_at. rewrite Hve. cbn [fst snd]. destruct (sfs_vnodes (ext E s) !! j) as [sv | ] eqn:Ej; [ | done].
    destruct sl; [done | done |]. apply file_block_ext. intros Hne. pose proof (aside_slot s s' E (j, SInd) HS HA) as Hs.
    rewrite (block_at_Some _ _ _ _ Ej) in Hs. by apply Hs. }
  assert (HI : sfs_inv (ext E s')).
  { destruct I as [[V1 V2 V3 V4 V5 V6 V7 V8] U J]. split; [split; rewrite ?Hve; cbn; rewrite ?Hm, ?Hn; try done | |].
    - intros b Hin. destruct (HA b) as [-> | [_ Hg]]; [by apply V6 | done].
    - unfold dev_ok in *. cbn. by rewrite Hn, Hb, Hw.
    - intros p. rewrite Hbl. cbn. rewrite Hm, Hn. apply U.
    - intros p q. rewrite !Hbl. apply J. }
  split.
  - split; rewrite ?Hve; try done; [by rewrite Hv | | unfold small_volume; by rewrite Hn | by rewrite Hr |].
    + intros i sv Hi Hc. destruct (K i sv Hi Hc) as (d & Hd1 & Hd2). exists d. split; [ | done].
      destruct (HA i) as [-> | [Ha _]]; [done |]. exfalso. destruct (ext_cases _ _ _ _ Hi) as [Hmem | [_ HE]].
      * by eapply mem_not_aside.
      * destruct (lo_aside _ _ Q i Ha) as [(sv' & Hsv' & Hdt) _]. congruence.
    + destruct Q as [Q1 Q2 Q3 Q4]. split; [done | done | | congruence]. rewrite <- Q3. destruct (HA 0) as [ | [Ha _]]; [done |].
      destruct (Q1 0 Ha) as [(sv & Hsv0 & _) _]. destruct (Z 0); [ | done]. apply aside_ext; [by split | done].
  - split; [done | | intros i; unfold attrs; by rewrite Hve | done]. intros i f. unfold content. rewrite Hbl. case_if; [done |]. cbn.
    by rewrite (aside_slot s s' E (i, SFile f) HS HA).
Qed.
End Aside.

(** ** The map on the disk *)

Lemma readblock_dev {B} (s : sfs_fs B) b d :
  0 <= b < d_blocks s -> d_blocks s < 2 ^ 32 -> disk s !! b = Some d -> rd_errors s = [] -> sfs_readblock s b = Ok (s, 0, d).
Proof.
  intros Hb Hd Hk Hr. unfold sfs_readblock, sfs_rwblock. destruct (read_tries 10 s b d [] Hb Hd Hk) as (l & r & u & -> & Hu & Hio).
  destruct (Hio Hr) as [-> ->]. destruct Hu as [[_ ->] | [? _]]; [ | done]. cbn [rbind bu_data app]. rewrite <- Hr. by destruct s.
Qed.

Lemma freemap_bits n : 0 <= n <= 2 ^ 23 -> SFS_FREEMAPBITS n = 4096 * SFS_FREEMAPBLOCKS n /\ 0 <= SFS_FREEMAPBLOCKS n <= 2 ^ 11.
Proof.
  intros Hn. unfold SFS_FREEMAPBLOCKS, SFS_FREEMAPBITS. change SFS_BITSPERBLOCK with 4096. rewrite (u32_id (n + 4096 - 1)) by (unfold is_u32; lia).
  rewrite u32_id by (unfold is_u32; div_lia). rewrite Z.div_mul by done. split; [lia | div_lia].
Qed.

Lemma part_good b j n : bitmap_wf b -> nbits b = 4096 * n -> 0 <= j < n -> good_block (freemap_part b j).
Proof.
  intros [_ Hl Hb _] Hn Hj. unfold freemap_part, good_block, zlen, SFS_BLOCKSIZE, bitmap_getdata in *. split; [ | by apply Forall_take, Forall_drop].
  rewrite length_take, length_drop. rewrite Hn in Hl. div_lia.
Qed.

Definition with_disk (s : sfs_fs bitmap) (D : gmap Z (list Z)) : sfs_fs bitmap :=
  mkSfs (sfs_freemap s) (sfs_freemapdirty s) (sb_nblocks s) (d_blocks s) D (rd_errors s) (wr_errors s) (sfs_vnodes s).

Lemma map_write_loop k s j n :
  dev_ok s -> bitmap_wf (sfs_freemap s) -> nbits (sfs_freemap s) = 4096 * n -> 2 + n <= sb_nblocks s -> 0 <= j -> j + Z.of_nat k = n ->
  exists D, freemapio_loop k s true j = Ok (with_disk s D, 0) /\
    forall b, D !! b = if (2 + j <=? b) && (b <? 2 + n) then Some (freemap_part (sfs_freemap s) (b - 2)) else disk s !! b.
Proof.
  revert s j. induction k as [ | k IH]; intros s j Hdev Hwf Hn Hfit Hj Hk; cbn [freemapio_loop].
  { exists (disk s). split; [by destruct s |]. intros b. destruct (Z.leb_spec (2 + j) b), (Z.ltb_spec b (2 + n)); try done. lia. }
  destruct (part_good (sfs_freemap s) j n Hwf Hn) as [Hl _]; [lia |]. unfold SFS_FREEMAP_START. rewrite writeblock_ok by (done || lia). cbn [rbind negb Z.eqb].
  rewrite with_io_same. destruct (IH (with_block s (2 + j) (freemap_part (sfs_freemap s) j)) (j + 1)) as (D & -> & HD); [done | done | done | done | lia | lia |].
  exists D. split; [done |]. intros b. rewrite HD. cbn [with_block sfs_freemap disk].
  destruct (Z.leb_spec (2 + (j + 1)) b), (Z.leb_spec (2 + j) b), (Z.ltb_spec b (2 + n)); cbn [andb]; try lia; try done.
  - rewrite lookup_insert_ne by lia. done.
  - assert (b = 2 + j) as -> by lia. rewrite lookup_insert_eq. do 2 f_equal. lia.
  - rewrite lookup_insert_ne by lia. done.
Qed.

(** Reading it back. *)
Lemma map_read_loop k s j n b0 :
  0 <= d_blocks s < 2 ^ 32 -> rd_errors s = [] -> 2 + n <= d_blocks s -> 0 <= j -> j + Z.of_nat k = n ->
  zlen (v b0) = 512 * n -> zlen (v (sfs_freemap s)) = 512 * n ->
  (forall i, 0 <= i < n -> disk s !! (2 + i) = Some (freemap_part b0 i)) -> take (Z.to_nat (512 * j)) (v (sfs_freemap s)) = take (Z.to_nat (512 * j)) (v b0) ->
  freemapio_loop k s false j = Ok (set_map s (mkBitmap (nbits (sfs_freemap s)) (v b0)) (sfs_freemapdirty s), 0).
Proof.
  revert s j. induction k as [ | k IH]; intros s j Hd Hr Hfit Hj Hk Hl0 Hl Hdisk Ht; cbn [freemapio_loop].
  { assert (v (sfs_freemap s) = v b0) as <-; [ | by destruct s as [[? ?] ? ? ? ? ? ? ?]]. unfold zlen in *. rewrite !take_ge in Ht by lia. done. }
  unfold SFS_FREEMAP_START. rewrite (readblock_dev s (2 + j) (freemap_part b0 j)); [ | lia | lia | apply Hdisk; lia | done]. cbn [rbind negb Z.eqb].
  set (f := put_part (sfs_freemap s) j (freemap_part b0 j)).
  assert (Hf : v f = take (Z.to_nat (512 * (j + 1))) (v b0) ++ drop (Z.to_nat (512 * (j + 1))) (v (sfs_freemap s))).
  { cbn. unfold bitmap_getdata, freemap_part, SFS_BLOCKSIZE. rewrite (Z.mul_comm j), (Z.mul_comm (j + 1)), Ht, app_assoc. f_equal.
    replace (Z.to_nat (512 * (j + 1))) with (Z.to_nat (512 * j) + 512)%nat by lia. unfold bitmap_getdata. by rewrite <- take_take_drop. }
  rewrite (IH (set_map s f (sfs_freemapdirty s)) (j + 1)); [done | done | done | done | lia | lia | done | | done |]; cbn [set_map sfs_freemap].
  - rewrite Hf. unfold zlen in *. rewrite length_app, length_take, length_drop. lia.
  - rewrite Hf. unfold zlen in *. rewrite take_app_le by (rewrite length_take; lia). by rewrite take_take, Nat.min_id.
Qed.

Section Durable.
Context (n : Z) (blk : list Z).
#[local] Instance the_layout : Layout bitmap := disk_layout n blk.
Implicit Types (m : sfs_mnt bitmap) (E : gmap Z sfs_vnode) (F : flat).

Notation all E m := (ext E (vol m)).

(** The same volume, with vnodes that have perhaps been written. *)
Record written m E m' : Prop := {
  wn_sound : sound m' E;
  wn_reads : reads_same (all E m) (all E m');
  wn_table : table m' = table m;
  wn_refs : vn_refcount m' = vn_refcount m;
  wn_vnodes : forall i sv', sfs_vnodes (vol m') !! i = Some sv' -> exists sv, sfs_vnodes (vol m) !! i = Some sv /\ sv_i sv' = sv_i sv /\ (sv_dirty sv' = true -> sv_dirty sv = true)
}.

Lemma written_refl m E : sound m E -> written m E m.
Proof. intros HS. split; [done | split; [apply HS | done | done | done] | done | done |]. intros i sv Hv. by exists sv. Qed.

Lemma written_trans m1 E m2 m3 : written m1 E m2 -> written m2 E m3 -> written m1 E m3.
Proof.
  intros [S1 R1 T1 C1 V1] [S2 R2 T2 C2 V2]. split; [done | by eapply reads_trans | congruence | congruence |].
  intros i sv3 H3. destruct (V2 i sv3 H3) as (sv2 & H2 & E2 & D2). destruct (V1 i sv2 H2) as (sv1 & H1 & E1 & D1). exists sv1. split; [done |]. split; [congruence | auto].
Qed.

Lemma fsync_written m E i sv : sound m E -> sfs_vnodes (vol m) !! i = Some sv ->
  exists m', sfs_fsync m i = Ok (m', 0) /\ written m E m' /\ (forall sv', sfs_vnodes (vol m') !! i = Some sv' -> sv_dirty sv' = false).
Proof.
  intros [HS HT] Hv. destruct (sync_inode_ok (vol m) E i sv HS Hv) as (s1 & E1 & [Y1 Y2 Y3 _] & _). unfold sfs_fsync. rewrite E1. cbn [rbind].
  eexists. split; [done |]. cbn [vol with_vol]. split; [split; cbn [vol with_vol table vn_refcount]; try done |].
  - split; [done |]. destruct HT as [TN TT TR TP]. assert (Hld : forall j, is_Some (sfs_vnodes s1 !! j) <-> is_Some (sfs_vnodes (vol m) !! j)).
    { intros j. rewrite Y3, lookup_insert_is_Some'. split; [intros [<- | ?]; [by eexists | done] | by right]. }
    split; try done; intros j; cbn [vol with_vol table vn_refcount]; by rewrite Hld.
  - intros j svj. rewrite Y3. intros [[<- <-] | [_ Hj]]%lookup_insert_Some; [by exists sv | by exists svj].
  - intros sv'. rewrite Y3, lookup_insert_eq. by intros [= <-].
Qed.

Lemma sync_table_ok l : forall m E,
  sound m E -> (forall i, i ∈ l -> is_Some (sfs_vnodes (vol m) !! i)) ->
  exists m', sync_vnodes_loop l m = Ok m' /\ written m E m' /\ (forall i sv', i ∈ l -> sfs_vnodes (vol m') !! i = Some sv' -> sv_dirty sv' = false).
Proof.
  induction l as [ | i l IH]; intros m E HS Hl; cbn [sync_vnodes_loop].
  { exists m. split; [done |]. split; [by apply written_refl |]. by intros i sv ?%elem_of_nil. }
  destruct (Hl i) as [sv Hv]; [left |]. destruct (fsync_written m E i sv HS Hv) as (m1 & -> & W1 & D1). cbn [rbind].
  destruct (IH m1 E (wn_sound _ _ _ W1)) as (m2 & -> & W2 & D2).
  { intros j Hj. apply (ts_table _ (proj2 (wn_sound _ _ _ W1))). rewrite (wn_table _ _ _ W1). apply (ts_table _ (proj2 HS)), Hl. by right. }
  exists m2. split; [done |]. split; [by eapply written_trans |]. intros j sv' [-> | Hj]%elem_of_cons Hv'; [ | by eapply D2].
  destruct (wn_vnodes _ _ _ W2 i sv' Hv') as (sv1 & Hv1 & _ & Hd). destruct (sv_dirty sv'); [ | done]. rewrite <- (D1 sv1 Hv1). symmetry. by apply Hd.
Qed.

Lemma sync_vnodes_ok m E : sound m E ->
  exists m', sfs_sync_vnodes m = Ok (m', 0) /\ written m E m' /\ (forall i sv', sfs_vnodes (vol m') !! i = Some sv' -> sv_dirty sv' = false).
Proof.
  intros HS. unfold sfs_sync_vnodes. destruct (sync_table_ok (table m) m E HS) as (m' & -> & W & D); [intros i; apply (ts_table _ (proj2 HS)) |]. cbn [rbind].
  exists m'. split; [done |]. split; [done |]. intros i sv' Hv'. apply (D i); [ | done]. rewrite <- (wn_table _ _ _ W).
  apply (ts_table _ (proj2 (wn_sound _ _ _ W))). by eexists.
Qed.

(** The map lies inside the volume. *)
Lemma map_fits m E : sound m E -> sb_nblocks (vol m) = n /\ 0 <= n <= 2 ^ 23 /\ 2 + SFS_FREEMAPBLOCKS n <= n /\ nbits (sfs_freemap (vol m)) = 4096 * SFS_FREEMAPBLOCKS n.
Proof.
  intros [HS _]. pose proof (lo_nblocks _ _ (vs_layout _ _ HS)) as Hn. cbn in Hn. pose proof (vo_size _ (vs_vol _ _ HS)) as [Hsz Hbits]. cbn in Hsz, Hbits.
  pose proof (vs_small _ _ HS) as Hsm. unfold small_volume in Hsm. rewrite Hn in *. destruct (freemap_bits n) as [Hb Hk]; [lia |].
  split; [done |]. split; [lia |]. split; [ | lia].
  destruct (vs_root _ _ HS) as (svr & Hr & _). destruct (inode_used _ E SFS_ROOTDIR_INO HS) as [Hrn _]; [by eexists |]. rewrite Hn in Hrn.
  destruct (Z.eq_dec (SFS_FREEMAPBLOCKS n) 0) as [Hz | Hnz]; [unfold SFS_ROOTDIR_INO in Hrn; lia |].
  assert (Ha : aside (2 + SFS_FREEMAPBLOCKS n - 1)) by (cbn; unfold SFS_FREEMAP_START; lia).
  destruct (inode_used _ _ _ HS (aside_ext _ _ _ (vs_layout _ _ HS) Ha)) as [Hu _]. rewrite Hn in Hu. lia.
Qed.

Lemma sync_freemap_ok m E : sound m E ->
  exists m', sfs_sync_freemap m = Ok (m', 0) /\ written m E m' /\ sfs_freemapdirty (vol m') = false /\ sfs_vnodes (vol m') = sfs_vnodes (vol m).
Proof.
  intros HSd. pose proof HSd as [HS HT]. unfold sfs_sync_freemap. destruct (sfs_freemapdirty (vol m)) eqn:Hdt.
  2: { exists m. split; [done |]. split; [by apply written_refl | done]. }
  destruct (map_fits m E HSd) as (Hn & Hn23 & Hfit & Hbits). destruct (freemap_bits n Hn23) as [_ Hk]. pose proof (vs_vol _ _ HS) as HV.
  unfold sfs_freemapio. rewrite Hn. destruct (map_write_loop (Z.to_nat (SFS_FREEMAPBLOCKS n)) (vol m) 0 (SFS_FREEMAPBLOCKS n)) as (D & -> & HD);
    [apply HV | apply (vo_map _ HV) | done | lia | lia | lia |]. cbn [rbind negb Z.eqb].
  set (s' := set_map (with_disk (vol m) D) (sfs_freemap (with_disk (vol m) D)) false).
  assert (Hin : forall b, D !! b = disk (vol m) !! b \/ (aside b /\ exists d, D !! b = Some d /\ good_block d)).
  { intros b. rewrite HD. destruct (Z.leb_spec (2 + 0) b), (Z.ltb_spec b (2 + SFS_FREEMAPBLOCKS n)); cbn [andb]; try by left.
    right. split; [cbn; unfold SFS_FREEMAP_START; lia |]. eexists. split; [done |]. eapply part_good; [apply (vo_map _ HV) | done | lia]. }
  assert (Hsaved : forall j, 0 <= j < SFS_FREEMAPBLOCKS n -> D !! (SFS_FREEMAP_START + j) = Some (freemap_part (sfs_freemap (vol m)) j)).
  { intros j Hj. unfold SFS_FREEMAP_START. rewrite HD. destruct (Z.leb_spec (2 + 0) (2 + j)), (Z.ltb_spec (2 + j) (2 + SFS_FREEMAPBLOCKS n)); try lia. cbn [andb].
    do 2 f_equal. lia. }
  destruct (aside_written (vol m) s' E HS) as [HS' HR']; [done | done | done | done | done | done | exact Hin | intros _; exact Hsaved |].
  eexists. split; [done |]. split; [ | done]. split; [split; [done | by apply table_same] | done | done | done |]. intros i sv Hv. by exists sv.
Qed.

(** ** Mounting *)

(** The volume after it has been synced: the disk has it all. *)
Record at_rest m E : Prop := {
  ar_sound : sound m E;
  ar_map : sfs_freemapdirty (vol m) = false;
  ar_vnodes : forall i sv, sfs_vnodes (vol m) !! i = Some sv -> sv_dirty sv = false
}.

Lemma domount_ok m E sb d :
  at_rest m E -> block_super blk = (sb, n) -> sb_magic sb = SFS_MAGIC ->
  d = mkDev (disk (vol m)) (d_blocks (vol m)) SFS_BLOCKSIZE [] [] ->
  exists m2, sfs_domount d [] = Ok (inl (mkObj m2 (end_volname sb) false)) /\ table m2 = [] /\ vn_refcount m2 = ∅ /\
    vol m2 = mkSfs (sfs_freemap (vol m)) false n (d_blocks (vol m)) (disk (vol m)) [] [] ∅.
Proof.
  intros [HSd Hmap Hcl] Hsb Hmagic ->. pose proof HSd as [HS HT]. destruct (map_fits m E HSd) as (Hn & Hn23 & Hfit & Hbits). destruct (freemap_bits n Hn23) as [Hb Hk].
  pose proof (vs_vol _ _ HS) as HV. destruct (vo_dev _ HV) as [Hdev _]. rewrite Hn in Hdev. destruct (vs_layout _ _ HS) as [LA LS LP LN].
  unfold sfs_domount, sfs_fs_create. cbn [d_blocksize negb Z.eqb Pos.eqb SFS_BLOCKSIZE want_mem nomem vol table vn_refcount tail d_disk d_nblocks d_rd_errors d_wr_errors].
  rewrite (readblock_dev _ SFS_SUPER_BLOCK blk); cbn [d_blocks disk rd_errors];
    [ | unfold SFS_SUPER_BLOCK; lia | lia | exact LP | done]. cbn [rbind negb Z.eqb]. rewrite Hsb, Hmagic, Z.eqb_refl. cbn [negb].
  pose proof (bitmap_create_spec true true (SFS_FREEMAPBITS n)) as Hcr. cbn [andb] in Hcr. destruct Hcr as (b & -> & Hwf & Hnb & _); [unfold max_bits; lia |]. cbn [rbind].
  unfold sfs_freemapio. cbn [sb_nblocks]. pose proof (wf_len _ Hwf) as Hlb. pose proof (wf_len _ (vo_map _ HV)) as Hlm. rewrite Hnb, Hb in Hlb. rewrite Hbits in Hlm.
  rewrite (map_read_loop _ _ 0 (SFS_FREEMAPBLOCKS n) (sfs_freemap (vol m))); cbn [d_blocks rd_errors disk sfs_freemap]; try done; try lia; [ | div_lia | div_lia |].
  - cbn [rbind negb Z.eqb]. eexists. split; [done |]. split; [done |]. split; [done |]. cbn [vol with_vol set_map sfs_freemapdirty sb_nblocks d_blocks disk rd_errors wr_errors sfs_vnodes sfs_freemap].
    f_equal. rewrite Hnb, Hb, <- Hbits. by destruct (sfs_freemap (vol m)).
  - apply LS, Hmap.
Qed.

(** All files, none of them in memory. *)
Lemma fresh_sound m E m2 :
  at_rest m E -> (forall i sv, sfs_vnodes (vol m) !! i = Some sv -> sfi_linkcount (sv_i sv) <> 0) -> table m2 = [] -> vn_refcount m2 = ∅ ->
  vol m2 = mkSfs (sfs_freemap (vol m)) false n (d_blocks (vol m)) (disk (vol m)) [] [] ∅ ->
  exists E2, sound m2 E2 /\ all E2 m2 = all E m.
Proof.
  intros [HSd Hmap Hcl] Hlive Htab Href Hvol. pose proof HSd as [HS HT]. exists (sfs_vnodes (all E m)).
  assert (Hall : all (sfs_vnodes (all E m)) m2 = all E m).
  { rewrite Hvol. unfold ext. cbn. rewrite map_empty_union, Hmap, (vs_io _ _ HS), (proj1 (map_fits m E HSd)). destruct (vo_dev _ (vs_vol _ _ HS)) as [_ ->]. done. }
  split; [ | done]. pose proof HS as [I D K C L T Z X S R Q]. split; [split; rewrite ?Hall; try done |].
  - rewrite Hvol. apply map_disjoint_empty_r.
  - intros i sv Hi Hc. destruct (K i sv Hi Hc) as (d & Hd). exists d. by rewrite Hvol.
  - intros i sv Hi Ha. destruct (ext_cases _ _ _ _ Hi) as [Hm | [_ He]]; [by eapply Hcl | by eapply C].
  - intros i sv Hi. destruct (ext_cases _ _ _ _ Hi) as [Hm | [_ He]]; [by eapply Hlive | by eapply L].
  - unfold small_volume. rewrite Hvol. cbn. pose proof (map_fits m E HSd). lia.
  - by rewrite Hvol.
  - destruct Q as [Q1 Q2 Q3 Q4]. rewrite Hvol. split; cbn [sfs_freemapdirty sfs_freemap disk sb_nblocks]; [ | | done | done].
    + intros i Hi. destruct (Q1 i Hi) as [(sv & Hsv & Hdt) Hr]. split; [ | done]. exists sv. split; [ | done]. rewrite ext_lookup_E; [done |].
      apply eq_None_not_Some. intros [y Hy]. by eapply mem_not_aside.
    + intros _. by apply Q2.
  - split; rewrite ?Htab, ?Href, ?Hvol; cbn; [constructor | | |].
    + intros i. rewrite lookup_empty, elem_of_nil. split; [done | by intros [? ?]].
    + intros i. rewrite !lookup_empty. split; by intros [? ?].
    + intros i k. by rewrite lookup_empty.
Qed.

(** Everything is written, and the volume still holds what it held. *)
Lemma sync_rests m E F L :
  holds m E F L -> exists m1 m2, sfs_sync_vnodes m = Ok (m1, 0) /\ sfs_sync_freemap m1 = Ok (m2, 0) /\ holds m2 E F L /\ at_rest m2 E /\ table m2 = table m.
Proof.
  intros HH. destruct (sync_vnodes_ok m E (ho_sound _ _ _ _ HH)) as (m1 & E1 & W1 & D1). destruct (sync_freemap_ok m1 E (wn_sound _ _ _ W1)) as (m2 & E2 & W2 & Hm2 & Hv2).
  exists m1, m2. split; [done |]. split; [done |]. pose proof (written_trans _ _ _ _ W1 W2) as W. split; [ | split; [split |]].
  - apply (holds_keep m E); [done | apply W | apply W | apply W].
  - apply W2.
  - done.
  - rewrite Hv2. exact D1.
  - apply W.
Qed.

Lemma mount_holds m E F m2 :
  rep_in m E F -> at_rest m E -> (forall i, is_Some (sizes F !! i) -> links_of (names F) i <> 0) -> table m2 = [] -> vn_refcount m2 = ∅ ->
  vol m2 = mkSfs (sfs_freemap (vol m)) false n (d_blocks (vol m)) (disk (vol m)) [] [] ∅ -> rep m2 (set_refs F ∅).
Proof.
  intros HH HA Hnm Htab Href Hvol. destruct (fresh_sound m E m2 HA) as (E2 & HS2 & Hall); [ | done | done | done |].
  { intros i sv Hv. destruct (decide (i = SFS_ROOTDIR_INO)) as [-> | Hroot].
    - destruct (vs_root _ _ (proj1 (ho_sound _ _ _ _ HH))) as (svr & Hr & Hl). rewrite (ext_lookup _ _ _ _ Hv) in Hr. by injection Hr as <-.
    - destruct (holds_file _ _ _ _ _ _ HH Hv Hroot) as (sz & Hsz & _ & _ & ->). apply Hnm. by eexists. }
  exists E2. unfold rep_in. change (names (set_refs F ∅)) with (names F). rewrite <- Href. apply (holds_reads m E); [done | done |]. rewrite Hall. split; [apply HA | done | done | done].
Qed.
End Durable.

(** The object of a mounted volume that holds the file system [F]. *)
Definition on_volume (o : sfs_object) (F : flat) : Prop :=
  sfs_superdirty o = false /\
  exists n blk sb, block_super blk = (sb, n) /\ sb_magic sb = SFS_MAGIC /\ @rep bitmap _ _ (disk_layout n blk) (fs_mnt o) F.

Definition all_named (F : flat) : Prop := forall i, is_Some (sizes F !! i) -> links_of (names F) i <> 0.

(** A file in nobody's hands has a name. *)
Lemma closed_named {B} `{FreeMapLaws B} `{Layout B} (m : sfs_mnt B) E F : rep_in m E F -> refs F = ∅ -> all_named F.
Proof.
  intros HH Hr i Hi. pose proof (holds_exists _ _ _ _ _ HH (or_intror Hi)) as [sv Hv]. destruct (ho_sound _ _ _ _ HH) as [HS HT].
  assert (Hnone : sfs_vnodes (vol m) !! i = None).
  { apply eq_None_not_Some. rewrite <- (ts_refs _ HT), <- (ho_refs _ _ _ _ HH), Hr, lookup_empty. by intros [? ?]. }
  pose proof Hv as HE. rewrite ext_lookup_E in HE by done. pose proof (vs_live _ _ HS i sv HE) as Hl.
  pose proof (ho_files _ _ _ _ HH i) as Ha. unfold attrs in Ha. rewrite Hv in Ha. cbn in Ha.
  specialize (Ha ltac:(by eapply holds_not_root) ltac:(by eapply holds_not_aside; [ | right])). destruct Hi as [sz Hsz]. rewrite Hsz in Ha. cbn in Ha. congruence.
Qed.

(** C9: what is synced is found again.  sfs_sync succeeds and changes nothing
    that can be seen.  After it the volume can be unmounted exactly if nobody
    holds a vnode, and, unmounted or not, whoever mounts the disk finds the
    same names, the same files and the same bytes, provided that every file has
    a name: that is so when nothing was open. *)
Theorem sfs_remount o F :
  on_volume o F ->
  exists o1, sfs_sync o = Ok (o1, 0) /\ on_volume o1 F /\ sfs_unmount o1 = Ok (if decide (refs F = ∅) then 0 else EBUSY) /\
    (refs F = ∅ \/ all_named F -> exists o2, sfs_domount (device_of o1) [] = Ok (inl o2) /\ on_volume o2 (set_refs F ∅)).
Proof.
  intros (Hsd & n & blk & sb & Hsb & Hmg & E & HH). set (ly := disk_layout n blk) in *.
  destruct (sync_rests n blk (fs_mnt o) E F _ HH) as (m1 & m2 & E1 & E2 & H2 & HR & Ht). unfold sfs_sync. rewrite E1. cbn [rbind negb Z.eqb]. rewrite E2. cbn [rbind negb Z.eqb].
  unfold sfs_sync_superblock. cbn [with_mnt sfs_superdirty]. rewrite Hsd. eexists. split; [done |]. split; [ | split].
  - split; [done |]. exists n, blk, sb. split; [done |]. split; [done |]. by exists E.
  - unfold sfs_unmount. cbn [fs_mnt with_mnt sfs_superdirty]. pose proof (proj2 (ho_sound _ _ _ _ H2)) as HT2. pose proof (ho_refs _ _ _ _ H2) as Hr2.
    destruct (decide (refs F = ∅)) as [He | Hne]; destruct (table m2) as [ | i l] eqn:Etab.
    + rewrite Hsd, (ar_map _ _ _ _ HR). done.
    + assert (Hi : is_Some (refs F !! i)) by (rewrite Hr2; apply (ts_refs _ HT2), (ts_table _ HT2); rewrite Etab; left). rewrite He, lookup_empty in Hi. by destruct Hi.
    + destruct Hne. apply map_empty. intros i. rewrite Hr2. apply eq_None_not_Some. rewrite (ts_refs _ HT2), <- (ts_table _ HT2), Etab. apply not_elem_of_nil.
    + done.
  - intros Hnm. assert (Hall : all_named F) by (destruct Hnm; [by eapply closed_named | done]).
    pose proof (proj1 (ho_sound _ _ _ _ H2)) as HS2. destruct (vo_dev _ (vs_vol _ _ HS2)) as [_ Hw].
    destruct (domount_ok n blk m2 E sb (device_of (with_mnt o m2)) HR Hsb Hmg) as (m3 & -> & Htab & Href & Hvol).
    { unfold device_of. cbn [fs_mnt with_mnt]. by rewrite (vs_io _ _ HS2), Hw. }
    eexists. split; [done |]. split; [done |]. exists n, blk, sb. split; [done |]. split; [done |]. by eapply mount_holds.
Qed.

(** A file is made, written and closed; the volume is synced, unmounted and
    mounted again, and the file is found and read. *)
Definition day_one : list fop := [GetRoot; Creat [97] true; WriteAt 3 510 [1; 2; 3]; Close 3; Close 1].
Definition day_two : list fop := [GetRoot; Lookup [97]; ReadAt 3 509 10].

Lemma day_one_volume m l : flat_calls (new_volume []) day_one = Ok (m, l) -> exists F, on_volume (mkObj m (fst (block_super new_super)) false) F /\ refs F = ∅.
Proof.
  intros Em. destruct (calls_conform day_one (new_volume []) empty_flat (new_volume_rep [])) as (m' & l' & F & E & _ & HI); [vm_compute; reflexivity |].
  rewrite E in Em. injection Em as <- <-. exists F. split.
  - split; [done |]. exists 16, new_super, (fst (block_super new_super)). split; [vm_compute; reflexivity |]. split; [vm_compute; reflexivity | exact HI].
  - destruct HI as [E0 HI]. rewrite (ho_refs _ _ _ _ HI).
    assert (Hr : match flat_calls (new_volume []) day_one with Ok (m, _) => vn_refcount m | Fault _ => ∅ end = ∅) by (vm_compute; reflexivity). by rewrite E in Hr.
Qed.

Definition remounted (o : sfs_object) : res (sfs_object + Z) := let* (o1, _) := sfs_sync o in sfs_domount (device_of o1) [].

Lemma sfs_remount_witness :
  exists m l o1 o2 m3 F, flat_calls (new_volume []) day_one = Ok (m, l) /\ sfs_sync (mkObj m (fst (block_super new_super)) false) = Ok (o1, 0) /\
    sfs_unmount o1 = Ok 0 /\ sfs_domount (device_of o1) [] = Ok (inl o2) /\ on_volume o2 F /\
    flat_calls (fs_mnt o2) day_two = Ok (m3, [mkAns 0 1 []; mkAns 0 3 []; mkAns 0 4 [0; 1; 2; 3]]).
Proof.
  destruct (flat_calls (new_volume []) day_one) as [[m l] | ] eqn:Em; [ | vm_compute in Em; discriminate]. destruct (day_one_volume m l Em) as (F & HV & HR).
  destruct (sfs_remount (mkObj m (fst (block_super new_super)) false) F HV) as (o1 & Es & _ & Hu & Hm). rewrite decide_True in Hu by exact HR.
  destruct (Hm (or_introl HR)) as (o2 & Ed & H2).
  assert (Hc : match flat_calls (new_volume []) day_one with
      | Ok (m, _) => match remounted (mkObj m (fst (block_super new_super)) false) with
          | Ok (inl o) => match flat_calls (fs_mnt o) day_two with Ok (_, l) => l | Fault _ => [] end | _ => [] end
      | Fault _ => [] end = [mkAns 0 1 []; mkAns 0 3 []; mkAns 0 4 [0; 1; 2; 3]]) by (vm_compute; reflexivity).
  rewrite Em in Hc. unfold remounted in Hc. rewrite Es in Hc. cbn [rbind] in Hc. rewrite Ed in Hc.
  destruct (flat_calls (fs_mnt o2) day_two) as [[m3 l3] | ] eqn:E3; [ | discriminate Hc]. subst l3.
  exists m, l, o1, o2, m3, (set_refs F ∅). split; [reflexivity |]. split; [exact Es |]. split; [exact Hu |]. split; [exact Ed |]. split; [exact H2 | exact E3].
Defined.

(** ** Volumes that do not fit *)

Lemma read_beyond {B} (s : sfs_fs B) b : d_blocks s <= b -> 0 <= b < 2 ^ 32 - 1 -> sfs_readblock s b = Fault PanicCall.
Proof.
  intros Hb Hr. unfold sfs_readblock, sfs_rwblock. cbn [rw_tries]. unfold lhd_io. cbn [bu_offset bu_resid]. rewrite Z.div_mul, Z.mod_mul by done.
  change (SFS_BLOCKSIZE mod SFS_BLOCKSIZE) with 0. change (SFS_BLOCKSIZE / SFS_BLOCKSIZE) with 1. cbn [Z.eqb negb orb].
  rewrite (u32_id b), (u32_id (b + 1)) by (unfold is_u32; lia). destruct (Z.ltb_spec (d_blocks s) (b + 1)); [done | lia].
Qed.

(** A volume that has been cut off.  A superblock that promises more blocks
    than the device has only gives a warning; when even the map of free blocks
    is not there, mounting panics. *)
Theorem mount_cut_off_panics dev blk sb n :
  d_blocksize dev = SFS_BLOCKSIZE -> 1 <= d_nblocks dev <= SFS_FREEMAP_START -> d_rd_errors dev = [] -> d_disk dev !! 0 = Some blk ->
  block_super blk = (sb, n) -> sb_magic sb = SFS_MAGIC -> 0 < n <= 2 ^ 23 -> sfs_domount dev [] = Fault PanicCall.
Proof.
  intros Hbs Hd Hr Hblk Hsb Hmg Hn. unfold SFS_FREEMAP_START in Hd. unfold sfs_domount, sfs_fs_create. rewrite Hbs. cbn [negb Z.eqb Pos.eqb SFS_BLOCKSIZE want_mem nomem vol table vn_refcount tail].
  rewrite (readblock_dev _ SFS_SUPER_BLOCK blk); cbn [d_blocks disk rd_errors]; [ | unfold SFS_SUPER_BLOCK; lia | lia | done | done]. cbn [rbind negb Z.eqb].
  rewrite Hsb, Hmg, Z.eqb_refl. cbn [negb]. destruct (freemap_bits n ltac:(lia)) as [Hb Hk].
  pose proof (bitmap_create_spec true true (SFS_FREEMAPBITS n)) as Hcr. cbn [andb] in Hcr. destruct Hcr as (b & -> & _); [unfold max_bits; lia |]. cbn [rbind].
  unfold sfs_freemapio. cbn [sb_nblocks].
  assert (Hpos : 0 < SFS_FREEMAPBLOCKS n).
  { unfold SFS_FREEMAPBLOCKS, SFS_FREEMAPBITS. change SFS_BITSPERBLOCK with 4096. rewrite (u32_id (n + 4096 - 1)) by (unfold is_u32; lia).
    rewrite u32_id by (unfold is_u32; div_lia). rewrite Z.div_mul by done. div_lia. }
  destruct (Z.to_nat (SFS_FREEMAPBLOCKS n)) as [ | k] eqn:Ek; [lia |]. cbn [freemapio_loop]. rewrite read_beyond; [done | cbn; unfold SFS_FREEMAP_START; lia | unfold SFS_FREEMAP_START; lia].
Qed.

Lemma mount_cut_off_panics_witness : sfs_domount (mkDev new_disk 2 512 [] []) [] = Fault PanicCall.
Proof.
  apply (mount_cut_off_panics (mkDev new_disk 2 512 [] []) new_super (fst (block_super new_super)) 16);
    [reflexivity | cbn; unfold SFS_FREEMAP_START; lia | reflexivity | vm_compute; reflexivity | vm_compute; reflexivity | vm_compute; reflexivity | lia].
Defined.
