(* ===== verification/Mksfs.v ===== *)
(** mksfs (userland/sbin/mksfs: mksfs.c and disk.c, as built for OS/161), and
    that a volume it makes can be mounted and is an empty file system.

    The program runs on the machine, so structures go to the disk as they are
    in memory.  A call of errx or err ends it ([Exit]). *)
From S2P Require Import Prelude Bitmap Sfs SfsDir SfsFile SfsExt SfsVnode SfsVolume SfsFlat SfsMount.

Definition MAXFREEMAPBLOCKS := 32.
Definition BLOCKSIZE := 512.

(** What write does next: it is interrupted, it fails, or it moves at most so
    many bytes. *)
Inductive wout := WRetry | WFail | WLen (n : Z).

(** The static variables, and the disk that has been opened: its blocks, and
    what the coming calls of write do (when the list ends they move all). *)
Record maker := mkMaker {
  freemapbuf : list Z;
  image : gmap Z (list Z);
  nblocks : Z;
  writes : list wout
}.

Inductive outcome := Done (m : maker) | Exit (code : Z).

Definition andthen (x : res outcome) (k : maker -> res outcome) : res outcome :=
  let* o := x in match o with Done m => k m | Exit c => Ok (Exit c) end.

(** ** disk.c *)

Fixpoint write_loop (l : list wout) (d data : list Z) (tot : Z) : option (list Z * list wout) :=
  if BLOCKSIZE <=? tot then Some (d, l)
  else
  match l with
  | [] => Some (patch d tot (drop (Z.to_nat tot) data), [])
  | WRetry :: l => write_loop l d data tot
  | WFail :: _ => None
  | WLen n :: l =>
    let piece := take (Z.to_nat n) (drop (Z.to_nat tot) data) in
    if zlen piece =? 0 then None else write_loop l (patch d tot piece) data (tot + zlen piece)
  end.

Definition diskwrite (m : maker) (data : list Z) (block : Z) : res outcome :=
  let b := u32 (block * BLOCKSIZE) / BLOCKSIZE in
  let* d := access (image m !! b) in
  match write_loop (writes m) d data 0 with
  | None => Ok (Exit 1)
  | Some (d, l) => Ok (Done (mkMaker (freemapbuf m) (<[b := d]> (image m)) (nblocks m) l))
  end.

(** ** mksfs.c *)

Definition allocblock (m : maker) (block : Z) : res maker :=
  let mapbyte := block / 8 in
  let mask := Z.shiftl 1 (block mod 8) in
  let* w := access (zget (freemapbuf m) mapbyte) in
  kassert (Z.land w mask =? 0) (
  let* buf := access (zput (freemapbuf m) mapbyte (Z.lor w mask)) in
  Ok (mkMaker buf (image m) (nblocks m) (writes m))).

(** [for (i = from; ...; i++) allocblock(i);], [k] times *)
Fixpoint alloc_range (k : nat) (m : maker) (i : Z) : res maker :=
  match k with
  | O => Ok m
  | S k => let* m := allocblock m i in alloc_range k m (i + 1)
  end.

Definition initfreemap (m : maker) (fsblocks : Z) : res outcome :=
  let freemapbits := SFS_FREEMAPBITS fsblocks in
  let freemapblocks := SFS_FREEMAPBLOCKS fsblocks in
  if MAXFREEMAPBLOCKS <? freemapblocks then Ok (Exit 1)
  else
  let* m := allocblock m SFS_SUPER_BLOCK in
  let* m := allocblock m SFS_ROOTDIR_INO in
  let* m := alloc_range (Z.to_nat freemapblocks) m SFS_FREEMAP_START in
  let* m := alloc_range (Z.to_nat (freemapbits - fsblocks)) m fsblocks in
  Ok (Done m).

(** bzero, then the fields, with strcpy for the name. *)
Definition new_superblock (volname : list Z) : sfs_superblock :=
  mkSb SFS_MAGIC (volname ++ repeat 0 (32 - length volname)) (repeat 0 118).

Definition writesuper (m : maker) (volname : list Z) (nblocks : Z) : res outcome :=
  if SFS_VOLNAME_SIZE <=? zlen volname then Ok (Exit 1)
  else diskwrite m (super_block (new_superblock volname) nblocks) SFS_SUPER_BLOCK.

Fixpoint writefreemap_loop (k : nat) (m : maker) (i : Z) : res outcome :=
  match k with
  | O => Ok (Done m)
  | S k => andthen (diskwrite m (part (freemapbuf m) (i * SFS_BLOCKSIZE) SFS_BLOCKSIZE) (SFS_FREEMAP_START + i)) (fun m => writefreemap_loop k m (i + 1))
  end.

Definition writefreemap (m : maker) (fsblocks : Z) : res outcome := writefreemap_loop (Z.to_nat (SFS_FREEMAPBLOCKS fsblocks)) m 0.

Definition new_rootdir : sfs_dinode := mkDinode 0 SFS_TYPE_DIR 1 (repeat 0 15) 0 (repeat 0 110).

Definition writerootdir (m : maker) : res outcome := diskwrite m (dinode_block new_rootdir) SFS_ROOTDIR_INO.

(** One colon at the end is taken off; other colons and slashes are refused. *)
Definition clean_volname (arg : list Z) : option (list Z) :=
  let name := match list_find (eq 58) arg with Some (i, _) => if zlen arg - Z.of_nat i =? 1 then Some (take i arg) else None | None => Some arg end in
  match name with Some n => if decide (47 ∈ n) then None else Some n | None => None end.

Definition main (m : maker) (arg : list Z) : res outcome :=
  match clean_volname arg with
  | None => Ok (Exit 1)
  | Some volname =>
    let size := nblocks m in
    andthen (initfreemap m size) (fun m =>
    andthen (writesuper m volname size) (fun m =>
    andthen (writefreemap m size) (fun m =>
    writerootdir m)))
  end.

(** * What is on the disk afterwards *)

Definition works (w : wout) : Prop := match w with WRetry => True | WFail => False | WLen n => 0 < n end.

Lemma write_loop_ok l : forall d data tot,
  zlen d = 512 -> zlen data = 512 -> 0 <= tot <= 512 -> take (Z.to_nat tot) d = take (Z.to_nat tot) data -> Forall works l ->
  exists l', write_loop l d data tot = Some (data, l') /\ Forall works l'.
Proof.
  assert (Hstep : forall d data tot k, zlen d = 512 -> zlen data = 512 -> 0 <= tot <= 512 -> take (Z.to_nat tot) d = take (Z.to_nat tot) data ->
    let piece := take k (drop (Z.to_nat tot) data) in
    zlen (patch d tot piece) = 512 /\ take (Z.to_nat (tot + zlen piece)) (patch d tot piece) = take (Z.to_nat (tot + zlen piece)) data).
  { intros d data tot k Hd Hl Ht Hp piece. assert (Hpl : zlen piece <= Z.max 0 (512 - tot)) by (unfold piece, zlen in *; rewrite length_take, length_drop; lia).
    assert (Hle : tot + zlen piece <= 512 \/ zlen piece = 0) by (unfold piece, zlen in *; rewrite length_take, length_drop; lia).
    unfold patch, zlen in *. split; [rewrite !length_app, length_take, length_drop; lia |].
    rewrite Hp, app_assoc, take_app_le by (rewrite length_app, length_take; lia). rewrite take_ge by (rewrite length_app, length_take; lia).
    replace (Z.to_nat (tot + Z.of_nat (length piece))) with (Z.to_nat tot + length piece)%nat by lia. rewrite <- take_take_drop. f_equal.
    unfold piece. rewrite length_take. destruct (Nat.le_ge_cases k (length (drop (Z.to_nat tot) data))); [by rewrite Nat.min_l | rewrite Nat.min_r, !take_ge by lia; done]. }
  induction l as [ | w l IH]; intros d data tot Hd Hl Ht Hp Hw; cbn [write_loop]; unfold BLOCKSIZE; destruct (Z.leb_spec 512 tot) as [Hge | Hlt].
  1, 3: (eexists; split; [ | exact Hw]; do 2 f_equal; unfold zlen in *; rewrite !take_ge in Hp by lia; done).
  - exists []. split; [ | done]. do 2 f_equal. destruct (Hstep d data tot 512%nat Hd Hl ltac:(lia) Hp) as [H1 H2].
    rewrite (take_ge (drop _ _)) in H1, H2 by (unfold zlen in *; rewrite length_drop; lia). unfold zlen in *. rewrite !take_ge in H2 by (rewrite ?length_drop in *; lia). done.
  - inversion_clear Hw as [ | ? ? Hw1 Hw2]. destruct w as [ | | n]; [by apply IH | done |]. cbn in Hw1.
    destruct (Hstep d data tot (Z.to_nat n) Hd Hl ltac:(lia) Hp) as [H1 H2].
    assert (Hpos : 0 < zlen (take (Z.to_nat n) (drop (Z.to_nat tot) data)) <= 512 - tot) by (unfold zlen in *; rewrite length_take, length_drop; lia).
    destruct (Z.eqb_spec (zlen (take (Z.to_nat n) (drop (Z.to_nat tot) data))) 0); [lia |]. apply IH; [done | done | lia | done | done].
Qed.

Definition set_image (m : maker) (D : gmap Z (list Z)) (l : list wout) : maker := mkMaker (freemapbuf m) D (nblocks m) l.

Lemma diskwrite_ok m data b d :
  image m !! b = Some d -> zlen d = 512 -> zlen data = 512 -> 0 <= b < 2 ^ 23 -> Forall works (writes m) ->
  exists l, diskwrite m data b = Ok (Done (set_image m (<[b := data]> (image m)) l)) /\ Forall works l.
Proof.
  intros Hd Hl Hl' Hb Hw. unfold diskwrite, BLOCKSIZE. rewrite u32_id by (unfold is_u32; lia). rewrite Z.div_mul by done. rewrite Hd. cbn [access rbind].
  destruct (write_loop_ok (writes m) d data 0) as (l & -> & Hl2); [done | done | lia | done | done |]. by exists l.
Qed.

(** ** The map *)

(** The buffer as a bitmap. *)
Definition buf_map (m : maker) : bitmap := mkBitmap 131072 (freemapbuf m).

Definition set_buf (m : maker) (buf : list Z) : maker := mkMaker buf (image m) (nblocks m) (writes m).

Lemma allocblock_ok m b :
  bitmap_wf (buf_map m) -> 0 <= b < 131072 -> used (buf_map m) b = false ->
  exists buf, allocblock m b = Ok (set_buf m buf) /\ bitmap_wf (mkBitmap 131072 buf) /\
    forall j, used (mkBitmap 131072 buf) j = if j =? b then true else used (buf_map m) j.
Proof.
  intros Hwf Hb Hu. pose proof (bitmap_mark_spec (buf_map m) b Hwf ltac:(lia)) as Hm. rewrite Hu in Hm. cbn [nbits buf_map] in Hm.
  destruct (Z.ltb_spec b 131072); [ | lia]. cbn [andb negb] in Hm. destruct Hm as ([n buf] & E & Hwf' & Hn & Hus). cbn in Hn. subst n.
  unfold bitmap_mark, bitmap_translate, BITS_PER_WORD, kassert in E. cbn [nbits v buf_map] in E. destruct (Z.ltb_spec b 131072); [ | lia].
  unfold allocblock, kassert. exists buf. split; [ | done].
  destruct (zget (freemapbuf m) (b / 8)) as [w | ]; [ | done]. cbn [access rbind] in *. destruct (Z.land w (Z.shiftl 1 (b mod 8)) =? 0); [ | done].
  destruct (zput (freemapbuf m) (b / 8) (Z.lor w (Z.shiftl 1 (b mod 8)))) as [vec | ]; [ | done]. cbn [access rbind] in *. by injection E as ->.
Qed.

Lemma alloc_range_ok k : forall m i,
  bitmap_wf (buf_map m) -> 0 <= i -> i + Z.of_nat k <= 131072 -> (forall j, i <= j < i + Z.of_nat k -> used (buf_map m) j = false) ->
  exists buf, alloc_range k m i = Ok (set_buf m buf) /\ bitmap_wf (mkBitmap 131072 buf) /\
    forall j, used (mkBitmap 131072 buf) j = (i <=? j) && (j <? i + Z.of_nat k) || used (buf_map m) j.
Proof.
  induction k as [ | k IH]; intros m i Hwf Hi Hk Hf; cbn [alloc_range].
  { exists (freemapbuf m). split; [by destruct m |]. split; [done |]. intros j. destruct (Z.leb_spec i j), (Z.ltb_spec j (i + Z.of_nat 0)); try done; lia. }
  destruct (allocblock_ok m i Hwf) as (buf & -> & Hwf1 & Hu1); [lia | apply Hf; lia |]. cbn [rbind].
  destruct (IH (set_buf m buf) (i + 1)) as (buf2 & -> & Hwf2 & Hu2); [done | lia | lia | |].
  { intros j Hj. change (buf_map (set_buf m buf)) with (mkBitmap 131072 buf). rewrite Hu1. destruct (Z.eqb_spec j i); [lia | apply Hf; lia]. }
  exists buf2. split; [done |]. split; [done |]. intros j. rewrite Hu2. change (buf_map (set_buf m buf)) with (mkBitmap 131072 buf). rewrite Hu1.
  destruct (Z.eqb_spec j i), (Z.leb_spec i j), (Z.leb_spec (i + 1) j), (Z.ltb_spec j (i + 1 + Z.of_nat k)), (Z.ltb_spec j (i + Z.of_nat (S k))); try done; lia.
Qed.

(** The sizes mksfs can handle: the map fits the buffer, and there is room for
    it in the volume. *)
Definition makable (n : Z) : Prop := 3 <= n <= 131072.

Lemma makable_map n : makable n -> let k := SFS_FREEMAPBLOCKS n in SFS_FREEMAPBITS n = 4096 * k /\ 1 <= k <= 32 /\ 2 + k <= n <= 4096 * k.
Proof.
  intros [Hn1 Hn2]. cbn. unfold SFS_FREEMAPBLOCKS, SFS_FREEMAPBITS. change SFS_BITSPERBLOCK with 4096. rewrite (u32_id (n + 4096 - 1)) by (unfold is_u32; lia).
  rewrite u32_id by (unfold is_u32; div_lia). rewrite Z.div_mul by done. split; [lia |]. split; [div_lia |]. div_lia.
Qed.

Lemma initfreemap_ok m n :
  makable n -> bitmap_wf (buf_map m) -> (forall j, used (buf_map m) j = false) ->
  exists buf, initfreemap m n = Ok (Done (set_buf m buf)) /\ bitmap_wf (mkBitmap 131072 buf) /\
    forall j, used (mkBitmap 131072 buf) j = (0 <=? j) && (j <? 2 + SFS_FREEMAPBLOCKS n) || (n <=? j) && (j <? SFS_FREEMAPBITS n).
Proof.
  intros Hn Hwf Hz. destruct (makable_map n Hn) as (Hb & Hk & Hf). unfold initfreemap, MAXFREEMAPBLOCKS. destruct (Z.ltb_spec 32 (SFS_FREEMAPBLOCKS n)); [lia |].
  destruct (allocblock_ok m SFS_SUPER_BLOCK Hwf) as (b1 & -> & W1 & U1); [unfold SFS_SUPER_BLOCK; lia | apply Hz |]. cbn [rbind].
  destruct (allocblock_ok (set_buf m b1) SFS_ROOTDIR_INO W1) as (b2 & -> & W2 & U2); [unfold SFS_ROOTDIR_INO; lia | change (buf_map (set_buf m b1)) with (mkBitmap 131072 b1); rewrite U1; apply Hz |].
  cbn [rbind]. change (buf_map (set_buf m b1)) with (mkBitmap 131072 b1) in U2. unfold SFS_FREEMAP_START, SFS_SUPER_BLOCK, SFS_ROOTDIR_INO in *.
  assert (U12 : forall j, used (mkBitmap 131072 b2) j = (j =? 1) || (j =? 0)) by (intros j; rewrite U2, U1, Hz; by destruct (j =? 1), (j =? 0)).
  destruct (alloc_range_ok (Z.to_nat (SFS_FREEMAPBLOCKS n)) (set_buf (set_buf m b1) b2) 2 W2) as (b3 & -> & W3 & U3); [lia | lia | |].
  { intros j Hj. change (buf_map _) with (mkBitmap 131072 b2). rewrite U12. destruct (Z.eqb_spec j 1), (Z.eqb_spec j 0); done || lia. }
  cbn [rbind]. change (buf_map (set_buf (set_buf m b1) b2)) with (mkBitmap 131072 b2) in U3.
  destruct (alloc_range_ok (Z.to_nat (SFS_FREEMAPBITS n - n)) (set_buf (set_buf (set_buf m b1) b2) b3) n W3) as (b4 & -> & W4 & U4); [lia | lia | |].
  { intros j Hj. change (buf_map _) with (mkBitmap 131072 b3). rewrite U3, U12.
    destruct (Z.eqb_spec j 1), (Z.eqb_spec j 0), (Z.leb_spec 2 j), (Z.ltb_spec j (2 + Z.of_nat (Z.to_nat (SFS_FREEMAPBLOCKS n)))); done || lia. }
  cbn [rbind]. exists b4. split; [done |]. split; [done |]. intros j. rewrite U4. change (buf_map _) with (mkBitmap 131072 b3). rewrite U3, U12.
  destruct (Z.eqb_spec j 1), (Z.eqb_spec j 0), (Z.leb_spec 2 j), (Z.ltb_spec j (2 + Z.of_nat (Z.to_nat (SFS_FREEMAPBLOCKS n)))), (Z.leb_spec n j),
    (Z.ltb_spec j (n + Z.of_nat (Z.to_nat (SFS_FREEMAPBITS n - n)))), (Z.leb_spec 0 j), (Z.ltb_spec j (2 + SFS_FREEMAPBLOCKS n)), (Z.ltb_spec j (SFS_FREEMAPBITS n)); try done; lia.
Qed.

(** ** The structures *)

Lemma words_of_app ws l : Forall is_u32 ws -> words_of (bytes_of ws ++ l) = ws ++ words_of l.
Proof.
  induction 1 as [ | w ws Hw _ IH]; [done |]. cbn. rewrite IH. f_equal. unfold is_u32, u8 in *.
  change (2 ^ 8) with 256 in *. change (2 ^ 16) with 65536. change (2 ^ 24) with 16777216. change (2 ^ 32) with 4294967296 in Hw. div_lia.
Qed.

(** A volume name that fits. *)
Definition good_volname (name : list Z) : Prop := valid_name name /\ zlen name < SFS_VOLNAME_SIZE.

Lemma new_super_good name n : good_volname name -> good_block (super_block (new_superblock name) n).
Proof.
  intros [Hv Hl]. unfold super_block. cbn [new_superblock sb_magic sb_volname sb_reserved]. unfold good_block, zlen, SFS_VOLNAME_SIZE in *. split.
  - rewrite !length_app, repeat_length. change (length (bytes_of (repeat 0 118))) with 472%nat. cbn [bytes_of length]. unfold SFS_BLOCKSIZE. lia.
  - apply Forall_app. split; [apply bytes_of_bytes |]. apply Forall_app. split; [ | apply bytes_of_bytes]. apply Forall_app. split; [eapply Forall_impl; [exact Hv |]; cbn; lia |].
    apply Forall_forall. intros c Hc%list_elem_of_In%repeat_spec. subst. lia.
Qed.

Lemma new_super_read name n : good_volname name -> is_u32 n -> block_super (super_block (new_superblock name) n) = (new_superblock name, n).
Proof.
  intros [Hv Hl] Hn. unfold block_super, super_block. cbn [new_superblock sb_magic sb_volname sb_reserved]. unfold SFS_VOLNAME_SIZE, zlen in *.
  assert (Hnl : length (name ++ repeat 0 (32 - length name)) = 32%nat) by (rewrite length_app, repeat_length; lia).
  rewrite words_of_app by (constructor; [unfold is_u32, SFS_MAGIC; lia | by constructor]). cbn [lookup list_lookup app default].
  change 8%nat with (length (bytes_of [SFS_MAGIC; n])) at 1. rewrite drop_app_length. change (Z.to_nat 32) with 32%nat. rewrite <- Hnl at 1. rewrite take_app_length.
  rewrite app_assoc, drop_app_length' by (rewrite length_app, Hnl; done). rewrite words_of_bytes_of; [done |].
  apply Forall_forall. intros c Hc%list_elem_of_In%repeat_spec. subst. unfold is_u32. lia.
Qed.

Lemma new_super_name name : good_volname name -> cstr (sb_volname (end_volname (new_superblock name))) = name.
Proof.
  intros [Hv Hl]. unfold SFS_VOLNAME_SIZE, zlen in *. cbn [end_volname new_superblock sb_volname]. change (Z.to_nat (SFS_VOLNAME_SIZE - 1)) with 31%nat.
  assert (Hc : forall l, cstr (l ++ [0]) = cstr l) by (induction l as [ | c l IH]; [done | cbn; by rewrite IH]).
  rewrite Hc. apply (cstr_name name 31); [done | lia].
Qed.

Lemma new_rootdir_ok : dinode_ok new_rootdir.
Proof. by apply dinode_check. Qed.

(** ** Writing *)

Definition good_disk (n : Z) (D : gmap Z (list Z)) : Prop := forall b, 0 <= b < n -> exists d, D !! b = Some d /\ good_block d.

Lemma diskwrite_good m data b n :
  good_disk n (image m) -> n <= 2 ^ 23 -> Forall works (writes m) -> 0 <= b < n -> good_block data ->
  exists l, diskwrite m data b = Ok (Done (set_image m (<[b := data]> (image m)) l)) /\ Forall works l /\ good_disk n (<[b := data]> (image m)).
Proof.
  intros HD Hn Hw Hb Hd. destruct (HD b Hb) as (d & Hd1 & [Hd2 _]). destruct (diskwrite_ok m data b d) as (l & E & Hl); [done | done | apply Hd | lia | done |].
  exists l. split; [done |]. split; [done |]. intros j Hj. destruct (decide (j = b)) as [-> | Hne]; [exists data; by rewrite lookup_insert_eq |].
  rewrite lookup_insert_ne by done. by apply HD.
Qed.

Lemma writefreemap_loop_ok k : forall m i n,
  good_disk n (image m) -> n <= 2 ^ 23 -> Forall works (writes m) -> 0 <= i -> 2 + i + Z.of_nat k <= n ->
  (forall j, i <= j < i + Z.of_nat k -> good_block (part (freemapbuf m) (j * 512) 512)) ->
  exists D l, writefreemap_loop k m i = Ok (Done (set_image m D l)) /\ Forall works l /\ good_disk n D /\
    forall b, D !! b = if (2 + i <=? b) && (b <? 2 + i + Z.of_nat k) then Some (part (freemapbuf m) ((b - 2) * 512) 512) else image m !! b.
Proof.
  induction k as [ | k IH]; intros m i n HD Hn Hw Hi Hk Hg; cbn [writefreemap_loop].
  { exists (image m), (writes m). split; [by destruct m |]. split; [done |]. split; [done |]. intros b. destruct (Z.leb_spec (2 + i) b), (Z.ltb_spec b (2 + i + Z.of_nat 0)); try done; lia. }
  unfold SFS_FREEMAP_START, SFS_BLOCKSIZE. destruct (diskwrite_good m (part (freemapbuf m) (i * 512) 512) (2 + i) n) as (l & -> & Hl & HD1); [done | done | done | lia | apply Hg; lia |].
  cbn [andthen rbind]. destruct (IH (set_image m (<[2 + i := part (freemapbuf m) (i * 512) 512]> (image m)) l) (i + 1) n) as (D & l' & E & Hl' & HD2 & Hb);
    [done | done | done | lia | lia | intros j Hj; apply Hg; lia |].
  cbn [set_image freemapbuf nblocks image] in *. exists D, l'. split; [exact E |]. split; [done |]. split; [done |]. intros b. rewrite Hb.
  destruct (Z.leb_spec (2 + (i + 1)) b), (Z.leb_spec (2 + i) b), (Z.ltb_spec b (2 + (i + 1) + Z.of_nat k)), (Z.ltb_spec b (2 + i + Z.of_nat (S k))); cbn [andb]; try lia; try done;
    try (rewrite lookup_insert_ne by lia; done).
  assert (b = 2 + i) as -> by lia. rewrite lookup_insert_eq. do 2 f_equal. lia.
Qed.

(** The disk that was written: superblock, root directory, map. *)
Definition formatted (n : Z) (name buf : list Z) (D D' : gmap Z (list Z)) : Prop :=
  forall b, D' !! b = if b =? 0 then Some (super_block (new_superblock name) n) else if b =? 1 then Some (dinode_block new_rootdir)
    else if (2 <=? b) && (b <? 2 + SFS_FREEMAPBLOCKS n) then Some (part buf ((b - 2) * 512) 512) else D !! b.

Lemma buf_part_good buf i : bitmap_wf (mkBitmap 131072 buf) -> 0 <= i < 32 -> good_block (part buf (i * 512) 512).
Proof.
  intros [_ Hl Hb _] Hi. unfold part, good_block, zlen, SFS_BLOCKSIZE in *. cbn [v nbits] in *. split; [ | by apply Forall_take, Forall_drop].
  rewrite length_take, length_drop. change ((131072 + 7) / 8) with 16384 in Hl. lia.
Qed.

(** A disk nothing is known of, on which every write moves something. *)
Record blank (m : maker) : Prop := {
  bk_buf : freemapbuf m = repeat 0 16384;
  bk_size : makable (nblocks m);
  bk_disk : good_disk (nblocks m) (image m);
  bk_writes : Forall works (writes m)
}.

Lemma zero_buf : bitmap_wf (mkBitmap 131072 (repeat 0 16384)) /\ forall j, used (mkBitmap 131072 (repeat 0 16384)) j = false.
Proof.
  split.
  - split; cbn [nbits v]; [unfold max_bits; lia | unfold zlen; rewrite repeat_length; done | |].
    + apply Forall_forall. intros c Hc%list_elem_of_In%repeat_spec. subst. lia.
    + intros i. assert (zlen (repeat 0 16384) = 16384) as -> by (unfold zlen; by rewrite repeat_length). lia.
  - intros j. unfold used. cbn [v]. destruct (zget (repeat 0 16384) (j / 8)) as [w | ] eqn:E; [ | done]. apply zget_zeros in E as ->. apply Z.testbit_0_l.
Qed.

(** The colon is not part of the name. *)
Definition names_volume (arg name : list Z) : Prop := good_volname name /\ 58 ∉ name /\ 47 ∉ name /\ (arg = name \/ arg = name ++ [58]).

Lemma clean_volname_ok arg name : names_volume arg name -> clean_volname arg = Some name.
Proof.
  intros (_ & Hc & Hs & Ha). assert (Hn : list_find (eq 58) name = None) by (apply list_find_None, Forall_forall; intros x Hx <-; done).
  unfold clean_volname. destruct Ha as [-> | ->]; [rewrite Hn; by rewrite decide_False by done |].
  rewrite list_find_app_r by done. cbn. rewrite decide_True by done. cbn. replace (zlen (name ++ [58]) - Z.of_nat (length name)) with 1 by (unfold zlen; rewrite length_app; cbn; lia). cbn.
  rewrite take_app_length. by rewrite decide_False by done.
Qed.

(** Everything is written. *)
Lemma main_writes m arg name :
  blank m -> names_volume arg name ->
  exists buf D l, main m arg = Ok (Done (mkMaker buf D (nblocks m) l)) /\ formatted (nblocks m) name buf (image m) D /\ good_disk (nblocks m) D /\
    bitmap_wf (mkBitmap 131072 buf) /\
    forall j, used (mkBitmap 131072 buf) j = (0 <=? j) && (j <? 2 + SFS_FREEMAPBLOCKS (nblocks m)) || (nblocks m <=? j) && (j <? SFS_FREEMAPBITS (nblocks m)).
Proof.
  intros [Hbuf Hsz HD Hw] Hn. unfold main. rewrite (clean_volname_ok arg name Hn). destruct Hn as (Hg & _). set (n := nblocks m) in *.
  destruct (makable_map n Hsz) as (_ & Hk & Hf). destruct zero_buf as [Wz Uz].
  destruct (initfreemap_ok m n Hsz) as (buf & -> & Hwf & Hu); [by rewrite <- Hbuf in Wz | intros j; unfold buf_map; rewrite Hbuf; apply Uz |]. cbn [andthen rbind].
  assert (Hn23 : n <= 2 ^ 23) by (destruct Hsz; lia).
  unfold writesuper. destruct (Z.leb_spec SFS_VOLNAME_SIZE (zlen name)) as [Hge | _]; [destruct Hg; lia |].
  destruct (diskwrite_good (set_buf m buf) (super_block (new_superblock name) n) SFS_SUPER_BLOCK n) as (l1 & -> & Hl1 & HD1); [done | done | done | unfold SFS_SUPER_BLOCK; lia | by apply new_super_good |].
  cbn [andthen rbind]. unfold writefreemap.
  destruct (writefreemap_loop_ok (Z.to_nat (SFS_FREEMAPBLOCKS n)) (set_image (set_buf m buf) (<[SFS_SUPER_BLOCK := super_block (new_superblock name) n]> (image (set_buf m buf))) l1) 0 n)
    as (D2 & l2 & -> & Hl2 & HD2 & Hb2); [done | done | done | lia | lia | intros j Hj; apply buf_part_good; [done | lia] |].
  cbn [andthen rbind]. unfold writerootdir. cbn [set_image set_buf freemapbuf image nblocks writes] in *.
  destruct (diskwrite_good (mkMaker buf D2 n l2) (dinode_block new_rootdir) SFS_ROOTDIR_INO n) as (l3 & E3 & _ & HD3);
    [done | done | done | unfold SFS_ROOTDIR_INO; lia | split; [apply dinode_block_length, new_rootdir_ok | apply bytes_of_bytes] |].
  exists buf, (<[SFS_ROOTDIR_INO := dinode_block new_rootdir]> D2), l3. split; [exact E3 |]. split; [ | split; [exact HD3 | done]].
  intros b. unfold SFS_ROOTDIR_INO, SFS_SUPER_BLOCK in *. destruct (Z.eqb_spec b 1) as [-> | H1]; [by rewrite lookup_insert_eq |]. rewrite lookup_insert_ne by done. rewrite Hb2.
  replace (2 + 0 + Z.of_nat (Z.to_nat (SFS_FREEMAPBLOCKS n))) with (2 + SFS_FREEMAPBLOCKS n) by lia. change (2 + 0) with 2.
  destruct (Z.eqb_spec b 0) as [-> | H0]; [by rewrite lookup_insert_eq | by rewrite lookup_insert_ne].
Qed.

(** * The volume that was made *)

Section Made.
Context (n : Z) (name buf : list Z) (D0 D : gmap Z (list Z)).
Context (Hn : makable n) (Hname : good_volname name) (HD : formatted n name buf D0 D) (HG : good_disk n D) (Hwf : bitmap_wf (mkBitmap 131072 buf)).
Context (Hus : forall j, used (mkBitmap 131072 buf) j = (0 <=? j) && (j <? 2 + SFS_FREEMAPBLOCKS n) || (n <=? j) && (j <? SFS_FREEMAPBITS n)).

Definition made_super : list Z := super_block (new_superblock name) n.
#[local] Instance made_layout : Layout bitmap := disk_layout n made_super.

Definition made_map : bitmap := mkBitmap (SFS_FREEMAPBITS n) (take (Z.to_nat (512 * SFS_FREEMAPBLOCKS n)) buf).
Definition made : sfs_mnt bitmap := mkMnt (mkSfs made_map false n n D [] [] ∅) [] ∅ [].
Definition made_files : gmap Z sfs_vnode := <[SFS_ROOTDIR_INO := root_dir]> (gset_to_gmap map_inode (list_to_set (seqZ 2 (SFS_FREEMAPBLOCKS n)))).

Lemma made_map_ok : bitmap_wf made_map /\ forall j, j < SFS_FREEMAPBITS n -> used made_map j = used (mkBitmap 131072 buf) j.
Proof using Hn Hwf.
  destruct (makable_map n Hn) as (Hb & Hk & Hf). destruct Hwf as [_ Hl HB _]. cbn [v nbits] in Hl, HB. change ((131072 + 7) / 8) with 16384 in Hl.
  assert (Hm : zlen (v made_map) = 512 * SFS_FREEMAPBLOCKS n) by (cbn; unfold zlen in *; rewrite length_take; lia).
  split; [split |].
  - cbn. unfold max_bits. lia.
  - rewrite Hm. cbn [nbits made_map]. div_lia.
  - cbn. by apply Forall_take.
  - rewrite Hm. cbn [nbits made_map]. lia.
  - intros j Hj. unfold used. cbn [v made_map]. unfold zget. case_if; [done |]. rewrite lookup_take_lt; [done |]. div_lia.
Qed.

Lemma made_used j : j < SFS_FREEMAPBITS n -> used made_map j = (0 <=? j) && (j <? 2 + SFS_FREEMAPBLOCKS n) || (n <=? j).
Proof using Hn Hwf Hus.
  intros Hj. rewrite (proj2 made_map_ok j Hj), Hus. destruct (Z.ltb_spec j (SFS_FREEMAPBITS n)); [ | lia]. by rewrite andb_true_r.
Qed.

Lemma made_lookup i sv : sfs_vnodes (ext made_files (vol made)) !! i = Some sv -> (i = 1 /\ sv = root_dir) \/ (2 <= i < 2 + SFS_FREEMAPBLOCKS n /\ sv = map_inode).
Proof using.
  cbn. rewrite map_empty_union. unfold made_files. intros [[<- <-] | [_ Hi]]%lookup_insert_Some; [by left |].
  apply lookup_gset_to_gmap_Some in Hi as [Hi <-]. apply elem_of_list_to_set, elem_of_seqZ in Hi. by right.
Qed.

(** Files without blocks have nothing but their inodes. *)
Lemma made_block p : block_at (ext made_files (vol made)) p <> 0 -> p.2 = SIno /\ block_at (ext made_files (vol made)) p = p.1 /\ 1 <= p.1 < 2 + SFS_FREEMAPBLOCKS n.
Proof using Hn.
  destruct (makable_map n Hn) as (_ & Hk & _). destruct p as [i sl]. unfold block_at. cbn [fst snd].
  destruct (sfs_vnodes (ext made_files (vol made)) !! i) as [sv | ] eqn:Ei; [ | done]. apply made_lookup in Ei.
  assert (Hsv : sfi_direct (sv_i sv) = repeat 0 15 /\ sfi_indirect (sv_i sv) = 0) by by destruct Ei as [[_ ->] | [_ ->]].
  destruct Hsv as [Hd Hi]. destruct sl as [ | | fb]; cbn [vnode_block].
  - intros _. split; [done |]. split; [done |]. lia.
  - by rewrite Hi.
  - unfold file_block, idwords. rewrite Hd, Hi. cbn [Z.eqb]. case_if; by rewrite zeros_entry.
Qed.

Lemma made_inv : sfs_inv (ext made_files (vol made)).
Proof using Hn HG Hwf Hus.
  destruct (makable_map n Hn) as (Hb & Hk & Hf). destruct made_map_ok as [Hmw _]. split; [split | |].
  - exact Hmw.
  - cbn. lia.
  - cbn. lia.
  - intros i Hi. cbn in Hi. change (used made_map i = true). rewrite made_used by lia. destruct (Z.leb_spec n i); [ | lia]. by rewrite orb_true_r.
  - change (used made_map 0 = true). rewrite made_used by lia. destruct (Z.ltb_spec 0 (2 + SFS_FREEMAPBLOCKS n)); [done | lia].
  - exact HG.
  - intros i sv Hi. apply dinode_check. by destruct (made_lookup i sv Hi) as [[_ ->] | [_ ->]].
  - split; [cbn; lia | done].
  - intros p Hp. destruct (made_block p Hp) as (_ & -> & Hr). split; [cbn; lia |]. change (used made_map p.1 = true). rewrite made_used by lia.
    destruct (Z.leb_spec 0 p.1), (Z.ltb_spec p.1 (2 + SFS_FREEMAPBLOCKS n)); done || lia.
  - intros [i si] [j sj] Hp E. destruct (made_block (i, si) Hp) as (Hs & Hi & _). destruct (made_block (j, sj)) as (Hs' & Hj & _); [congruence |]. cbn in *. congruence.
Qed.

Lemma made_sound : sound made made_files.
Proof using Hn Hname HD HG Hwf Hus.
  destruct (makable_map n Hn) as (Hb & Hk & Hf). assert (Hroot : sfs_vnodes (ext made_files (vol made)) !! SFS_ROOTDIR_INO = Some root_dir) by (cbn; rewrite map_empty_union; apply lookup_insert_eq).
  assert (HE : forall i, made_files !! i = sfs_vnodes (ext made_files (vol made)) !! i) by (intros i; cbn; by rewrite map_empty_union).
  split; [split |].
  - exact made_inv.
  - apply map_disjoint_empty_r.
  - intros i sv Hi Hd. destruct (made_lookup i sv Hi) as [[-> ->] | [_ ->]]; [ | done]. exists (dinode_block new_rootdir). split; [cbn; by rewrite HD |]. apply (dinode_roundtrip _ new_rootdir_ok).
  - intros i sv Hi Ha. rewrite HE in Hi. destruct (made_lookup i sv Hi) as [[_ ->] | [Hi2 ->]]; [done |]. by destruct Ha.
  - intros i sv Hi. rewrite HE in Hi. by destruct (made_lookup i sv Hi) as [[_ ->] | [_ ->]].
  - intros i sv Hi. destruct (made_lookup i sv Hi) as [[-> ->] | [Hi2 ->]]; [done |]. unfold type_of, SFS_ROOTDIR_INO. destruct (Z.eqb_spec i 1); [lia | done].
  - intros i [sv Hi]. destruct (made_lookup i sv Hi) as [[-> _] | [Hi2 _]]; lia.
  - by exists root_dir.
  - unfold small_volume. cbn. destruct Hn. lia.
  - done.
  - split.
    + intros i Hi. cbn in Hi. unfold SFS_FREEMAP_START in Hi. split; [exists map_inode; split; [ | done] | unfold SFS_ROOTDIR_INO; lia].
      unfold made_files. rewrite lookup_insert_ne by (unfold SFS_ROOTDIR_INO; lia). apply lookup_gset_to_gmap_Some. split; [ | done]. apply elem_of_list_to_set, elem_of_seqZ. lia.
    + intros _ j Hj. cbn. unfold SFS_FREEMAP_START. rewrite HD. destruct (Z.eqb_spec (2 + j) 0), (Z.eqb_spec (2 + j) 1), (Z.leb_spec 2 (2 + j)), (Z.ltb_spec (2 + j) (2 + SFS_FREEMAPBLOCKS n)); try lia.
      cbn [andb]. f_equal. unfold part, freemap_part, bitmap_getdata, SFS_BLOCKSIZE. cbn [v made_map]. replace (2 + j - 2) with j by lia. rewrite skipn_firstn_comm, take_take.
      f_equal. change (Z.to_nat 512) with 512%nat. lia.
    + cbn. by rewrite HD.
    + done.
  - split; cbn; [constructor | | |].
    + intros i. rewrite lookup_empty, elem_of_nil. split; [done | by intros [? ?]].
    + intros i. rewrite !lookup_empty. split; by intros [? ?].
    + intros i k. by rewrite lookup_empty.
Qed.

Lemma made_rep : rep_in made made_files empty_flat.
Proof using Hn Hname HD HG Hwf Hus.
  split.
  - exact made_sound.
  - exists 0. split; [split; [exact made_inv | | done | lia] |].
    + exists 1. unfold attrs. cbn. rewrite map_empty_union. unfold made_files. by rewrite lookup_insert_eq.
    + intros x i. cbn. rewrite lookup_empty. split; [done |]. intros (j & Hj & _). lia.
  - done.
  - intros i Hi Ha. unfold attrs. destruct (sfs_vnodes _ !! i) as [sv | ] eqn:Ei; [ | cbn; by rewrite lookup_empty].
    destruct (made_lookup i sv Ei) as [[-> _] | [Hr _]]; [done | by destruct Ha].
  - done.
  - intros i p [? Hs]. cbn in Hs. by rewrite lookup_empty in Hs.
  - intros x i Hx. cbn in Hx. by rewrite lookup_empty in Hx.
Qed.

Lemma made_mounts :
  exists o, sfs_domount (mkDev D n SFS_BLOCKSIZE [] []) [] = Ok (inl o) /\ on_volume o empty_flat /\ sfs_getvolname o = name.
Proof using Hn Hname HD HG Hwf Hus.
  pose proof (new_super_read name n Hname) as Hsb. destruct Hn as [Hn1 Hn2]. specialize (Hsb ltac:(unfold is_u32; lia)).
  assert (HR : at_rest n made_super made made_files) by (split; [exact made_sound | done | intros i sv Hi; cbn in Hi; by rewrite lookup_empty in Hi]).
  destruct (domount_ok n made_super made made_files (new_superblock name) (mkDev D n SFS_BLOCKSIZE [] []) HR Hsb) as (m2 & -> & Ht & Hr & Hv); [done | done |].
  eexists. split; [done |]. split; [ | by apply new_super_name]. split; [done |]. exists n, made_super, (new_superblock name). split; [exact Hsb |]. split; [done |].
  change empty_flat with (set_refs empty_flat ∅). eapply (mount_holds n made_super made made_files); [exact made_rep | exact HR | | done | done | exact Hv].
  intros i [x Hx]. cbn in Hx. by rewrite lookup_empty in Hx.
Qed.
End Made.

(** C10: mksfs makes file systems.  On a disk of 3 to 131072 blocks, whatever is
    on it and however few bytes each write moves, with a volume name that fits
    and has no colon or slash (one colon may follow it), mksfs does not fail;
    the disk can be mounted after it, the volume has that name, and it holds an
    empty file system in the sense of file SfsFlat: with the superblock, the
    root directory and the map of free blocks where the kernel looks for them
    and marked as in use. *)
Theorem mksfs_mounts m arg name :
  blank m -> names_volume arg name ->
  exists m' o, main m arg = Ok (Done m') /\ nblocks m' = nblocks m /\
    sfs_domount (mkDev (image m') (nblocks m') BLOCKSIZE [] []) [] = Ok (inl o) /\ on_volume o empty_flat /\ sfs_getvolname o = name.
Proof.
  intros HB HN. destruct (main_writes m arg name HB HN) as (buf & D & l & -> & HD & HG & Hwf & Hu).
  destruct (made_mounts (nblocks m) name buf (image m) D) as (o & Ho & HO & Hname); [apply HB | apply HN | done | done | done | done |].
  by exists (mkMaker buf D (nblocks m) l), o.
Qed.

(** ** Other sizes *)

(** Larger disks are refused, before anything is written. *)
Theorem mksfs_too_large m arg name : names_volume arg name -> 131072 < nblocks m < 2 ^ 32 - 4095 -> main m arg = Ok (Exit 1).
Proof.
  intros HN Hn. unfold main. rewrite (clean_volname_ok arg name HN). unfold initfreemap, MAXFREEMAPBLOCKS, SFS_FREEMAPBLOCKS, SFS_FREEMAPBITS. change SFS_BITSPERBLOCK with 4096.
  rewrite (u32_id (nblocks m + 4096 - 1)) by (unfold is_u32; lia). rewrite u32_id by (unfold is_u32; div_lia). rewrite Z.div_mul by done.
  destruct (Z.ltb_spec 32 ((nblocks m + 4096 - 1) / 4096)) as [_ | Hge]; [done | exfalso; div_lia].
Qed.

(** A disk of one or two blocks has no room for the map; mksfs does not say so
    but fails an assertion. *)
Theorem mksfs_too_small m arg name : names_volume arg name -> freemapbuf m = repeat 0 16384 -> nblocks m = 1 \/ nblocks m = 2 -> main m arg = Fault Assertion.
Proof.
  intros HN Hb Hn. unfold main. rewrite (clean_volname_ok arg name HN).
  assert (Hi : forall n, n = 1 \/ n = 2 -> initfreemap (mkMaker (repeat 0 16384) (image m) n (writes m)) n = Fault Assertion)
    by (intros n [-> | ->]; vm_compute; reflexivity).
  destruct m as [buf D n w]. cbn in *. subst buf. by rewrite (Hi n Hn).
Qed.

(** A disk with something on it, and writes that are interrupted or short. *)
Definition used_disk : maker := mkMaker (repeat 0 16384) (list_to_map ((fun b => (b, repeat 165 512)) <$> seqZ 0 16)) 16 [WRetry; WLen 100; WLen 7].

Lemma used_disk_blank : blank used_disk.
Proof.
  split; [done | cbn; unfold makable; lia | | repeat constructor; cbn; lia].
  intros b Hb. exists (repeat 165 512). split; [ | by apply good_check]. cbn. apply elem_of_list_to_map_1; [ | apply list_elem_of_fmap; exists b; split; [done | by apply elem_of_seqZ]].
  rewrite <- list_fmap_compose. rewrite (list_fmap_ext _ id) by done. rewrite list_fmap_id. apply NoDup_seqZ.
Qed.

Lemma vol_name_ok : names_volume [118; 58] [118].
Proof.
  split; [split; [repeat constructor; lia | done] |]. split; [ | split; [ | by right]]; intros [? | ?%elem_of_nil]%elem_of_cons; done.
Qed.

Lemma mksfs_mounts_witness :
  exists m' o, main used_disk [118; 58] = Ok (Done m') /\ sfs_domount (mkDev (image m') 16 512 [] []) [] = Ok (inl o) /\ on_volume o empty_flat /\ sfs_getvolname o = [118].
Proof.
  destruct (mksfs_mounts used_disk [118; 58] [118] used_disk_blank vol_name_ok) as (m' & o & E & Hn & Ed & HO & HN).
  rewrite Hn in Ed. exists m', o. split; [exact E |]. split; [exact Ed |]. split; [exact HO | exact HN].
Defined.

Lemma mksfs_too_large_witness : main (mkMaker [] ∅ 131073 []) [118; 58] = Ok (Exit 1).
Proof. apply (mksfs_too_large (mkMaker [] ∅ 131073 []) [118; 58] [118] vol_name_ok). cbn. lia. Defined.

Lemma mksfs_too_small_witness : main (mkMaker (repeat 0 16384) ∅ 2 []) [118] = Fault Assertion.
Proof. apply (mksfs_too_small (mkMaker (repeat 0 16384) ∅ 2 []) [118] [118]); [ | reflexivity | right; reflexivity]. destruct vol_name_ok as (H1 & H2 & H3 & _). split; [exact H1 |]. split; [exact H2 |]. split; [exact H3 | left; reflexivity]. Defined.
