(* ===== verification/Bswap.v ===== *)
(** Byte order: kern/lib/bswap.c, for the big-endian MIPS build.

    The swaps are written with the masks and shifts of the source at their
    widths; their specification is byte reversal, stated byte by byte.
    [bswap64] does not meet it: two of its eight terms shift the wrong way. *)
From S2P Require Import Prelude.

Definition bswap16 (val : Z) : Z :=
  u16 (Z.lor (Z.shiftl (Z.land val 0x00ff) 8)
             (Z.shiftr (Z.land val 0xff00) 8)).

Definition bswap32 (val : Z) : Z :=
  Z.lor (Z.lor (Z.lor
    (u32 (Z.shiftl (Z.land val 0x000000ff) 24))
    (u32 (Z.shiftl (Z.land val 0x0000ff00) 8)))
    (Z.shiftr (Z.land val 0x00ff0000) 8))
    (Z.shiftr (Z.land val 0xff000000) 24).

Definition bswap64 (val : Z) : Z :=
  Z.lor (Z.lor (Z.lor (Z.lor (Z.lor (Z.lor (Z.lor
    (u64 (Z.shiftl (Z.land val 0x00000000000000ff) 56))
    (u64 (Z.shiftl (Z.land val 0x000000000000ff00) 40)))
    (u64 (Z.shiftl (Z.land val 0x0000000000ff0000) 24)))
    (u64 (Z.shiftl (Z.land val 0x00000000ff000000) 8)))
    (u64 (Z.shiftl (Z.land val 0x000000ff00000000) 8)))
    (u64 (Z.shiftl (Z.land val 0x0000ff0000000000) 24)))
    (Z.shiftr (Z.land val 0x00ff000000000000) 40))
    (Z.shiftr (Z.land val 0xff00000000000000) 56).

(** [TO(tag, bits, type)] on a big-endian host: ntoh* and hton* are the
    identity. *)
Definition ntohs (val : Z) : Z := val.
Definition htons (val : Z) : Z := val.
Definition ntohl (val : Z) : Z := val.
Definition htonl (val : Z) : Z := val.
Definition ntohll (val : Z) : Z := val.
Definition htonll (val : Z) : Z := val.

Definition join32to64 (x1 x2 : Z) : Z :=
  Z.lor (u64 (Z.shiftl x1 32)) x2.

Definition split64to32 (x : Z) : Z * Z :=
  (u32 (Z.shiftr x 32), u32 (Z.land x 0xffffffff)).

(** ** Bytes *)

(** Byte [k] of [x], counted from the low end. *)
Definition byte (x k : Z) : Z := Z.land (Z.shiftr x (8 * k)) 255.

Lemma testbit_byte x k n :
  0 <= k -> 0 <= n -> Z.testbit (byte x k) n = (n <? 8) && Z.testbit x (n + 8 * k).
Proof.
  intros Hk Hn. unfold byte. change 255 with (Z.ones 8).
  rewrite Z.land_spec, Z.shiftr_spec, Z.testbit_ones_nonneg by lia.
  by rewrite andb_comm.
Qed.

(** A constant of one byte of ones at position [k]. *)
Lemma testbit_mask k n :
  0 <= k -> 0 <= n -> Z.testbit (Z.shiftl 255 (8 * k)) n = (8 * k <=? n) && (n <? 8 * k + 8).
Proof.
  intros Hk Hn. rewrite Z.shiftl_spec by lia. change 255 with (Z.ones 8).
  destruct (Z.leb_spec (8 * k) n); simpl.
  - rewrite Z.testbit_ones_nonneg by lia.
    destruct (Z.ltb_spec (n - 8 * k) 8), (Z.ltb_spec n (8 * k + 8)); done || lia.
  - apply Z.testbit_neg_r. lia.
Qed.

Lemma is_u32_bits x n : is_u32 x -> 32 <= n -> Z.testbit x n = false.
Proof.
  intros Hx Hn. rewrite <- (u32_id x Hx). apply Z.mod_pow2_bits_high. lia.
Qed.

(** Terms of a swap: one byte moved up or down. *)
Lemma move_up w x k s n :
  0 <= k -> 0 <= s -> 0 <= n -> 0 <= w ->
  Z.testbit (Z.shiftl (Z.land x (Z.shiftl 255 (8 * k))) s mod 2 ^ w) n =
  (n <? w) && (8 * k + s <=? n) && (n <? 8 * k + s + 8) && Z.testbit x (n - s).
Proof.
  intros Hk Hs Hn Hw. rewrite Z.testbit_mod_pow2, Z.shiftl_spec by lia.
  destruct (Z.ltb_spec n w); simpl; [ | done].
  destruct (Z.leb_spec (8 * k + s) n); simpl.
  - rewrite Z.land_spec, testbit_mask by lia.
    destruct (Z.leb_spec (8 * k) (n - s)), (Z.ltb_spec (n - s) (8 * k + 8)),
      (Z.ltb_spec n (8 * k + s + 8)); simpl; try lia; by rewrite ?andb_true_r, ?andb_false_r.
  - destruct (Z.ltb_spec (n - s) 0); [by apply Z.testbit_neg_r |].
    rewrite Z.land_spec, testbit_mask by lia.
    destruct (Z.leb_spec (8 * k) (n - s)); [lia | apply andb_false_r].
Qed.

Lemma move_down x k s n :
  0 <= k -> 0 <= s <= 8 * k -> 0 <= n ->
  Z.testbit (Z.shiftr (Z.land x (Z.shiftl 255 (8 * k))) s) n =
  (8 * k - s <=? n) && (n <? 8 * k - s + 8) && Z.testbit x (n + s).
Proof.
  intros Hk Hs Hn. rewrite Z.shiftr_spec, Z.land_spec, testbit_mask by lia.
  rewrite andb_comm. f_equal. f_equal.
  - destruct (Z.leb_spec (8 * k) (n + s)), (Z.leb_spec (8 * k - s) n); done || lia.
  - destruct (Z.ltb_spec (n + s) (8 * k + 8)), (Z.ltb_spec n (8 * k - s + 8)); done || lia.
Qed.

Ltac cmp_cases :=
  repeat match goal with
  | |- context [?a <? ?b] => destruct (Z.ltb_spec a b); try lia
  | |- context [?a <=? ?b] => destruct (Z.leb_spec a b); try lia
  end; cbn [andb orb]; rewrite ?andb_true_r, ?andb_false_r, ?orb_false_r, ?orb_false_l.

Lemma bswap32_bits val n :
  0 <= n ->
  Z.testbit (bswap32 val) n =
    if n <? 8 then Z.testbit val (n + 24)
    else if n <? 16 then Z.testbit val (n + 8)
    else if n <? 24 then Z.testbit val (n - 8)
    else if n <? 32 then Z.testbit val (n - 24) else false.
Proof.
  intros Hn. unfold bswap32, u32.
  change 0x000000ff with (Z.shiftl 255 (8 * 0)). change 0x0000ff00 with (Z.shiftl 255 (8 * 1)).
  change 0x00ff0000 with (Z.shiftl 255 (8 * 2)). change 0xff000000 with (Z.shiftl 255 (8 * 3)).
  rewrite !Z.lor_spec, !move_up, !move_down by lia. cmp_cases; done.
Qed.

Lemma bswap32_range val : is_u32 (bswap32 val).
Proof.
  unfold is_u32. assert (bswap32 val = bswap32 val mod 2 ^ 32) as ->.
  - apply Z.bits_inj'. intros n Hn. rewrite Z.testbit_mod_pow2, bswap32_bits by lia.
    cmp_cases; done.
  - apply Z.mod_pos_bound. lia.
Qed.

(** [bswap32] reverses the four bytes of its argument. *)
Theorem bswap32_reverses val k (Hk : 0 <= k < 4) :
  is_u32 (bswap32 val) /\ byte (bswap32 val) k = byte val (3 - k).
Proof.
  split; [apply bswap32_range |].
  apply Z.bits_inj'. intros n Hn.
  rewrite !testbit_byte, bswap32_bits by lia.
  assert (k = 0 \/ k = 1 \/ k = 2 \/ k = 3) as [-> | [-> | [-> | ->]]] by lia;
    cmp_cases; f_equal; try done; lia.
Qed.

Lemma bswap32_reverses_witness :
  byte (bswap32 0x12345678) 0 = 0x12 /\ byte (bswap32 0x12345678) 0 = byte 0x12345678 (3 - 0).
Proof.
  split; [reflexivity |]. apply (bswap32_reverses 0x12345678 0). lia.
Defined.

(** Swapping twice gives the 32-bit value back, so hosts of either byte
    order can undo the conversion. *)
Theorem bswap32_involutive val (Hv : is_u32 val) : bswap32 (bswap32 val) = val.
Proof.
  apply Z.bits_inj'. intros n Hn. rewrite (bswap32_bits (bswap32 val)) by lia.
  destruct (Z.ltb_spec n 32); [ | cmp_cases; by rewrite is_u32_bits].
  cmp_cases; rewrite bswap32_bits by lia; cmp_cases; f_equal; lia.
Qed.

Lemma bswap32_involutive_witness : bswap32 (bswap32 0xdeadbeef) = 0xdeadbeef.
Proof. apply bswap32_involutive. unfold is_u32. lia. Defined.

(** [bswap64] is not byte reversal.  Bytes 4 and 5 are shifted up where
    they have to be shifted down: byte 5 is lost and byte 4 lands in byte 5,
    so distinct arguments have the same image and swapping twice does not
    give the argument back. *)
Theorem bswap64_broken :
  bswap64 0x0000010000000000 = bswap64 0 /\
  byte (bswap64 0x0000000100000000) 3 <> byte 0x0000000100000000 (7 - 3) /\
  bswap64 (bswap64 0x0000000100000000) <> 0x0000000100000000.
Proof. vm_compute. done. Qed.

(** [split64to32] undoes [join32to64], and [join32to64] of the two halves
    of a 64-bit value is that value: the first word in memory is the high
    one. *)
Theorem join_split x1 x2 x (H1 : is_u32 x1) (H2 : is_u32 x2) (Hx : is_u64 x) :
  join32to64 x1 x2 = x1 * 2 ^ 32 + x2 /\
  split64to32 (join32to64 x1 x2) = (x1, x2) /\
  join32to64 (split64to32 x).1 (split64to32 x).2 = x.
Proof.
  assert (J : forall y1 y2, is_u32 y1 -> is_u32 y2 -> join32to64 y1 y2 = y1 * 2 ^ 32 + y2).
  { unfold is_u32, join32to64. intros y1 y2 Hy1 Hy2.
    rewrite u64_id, Z.shiftl_mul_pow2 by (unfold is_u64; rewrite ?Z.shiftl_mul_pow2 by lia; lia).
    rewrite <- Z.lxor_lor, <- Z.add_nocarry_lxor; [done | | ];
      (apply Z.bits_inj'; intros n Hn; rewrite Z.land_spec, Z.bits_0;
       destruct (Z.ltb_spec n 32);
       [rewrite Z.mul_pow2_bits_low by lia; done
       | rewrite (is_u32_bits y2), andb_false_r by done; done]). }
  split; [by apply J |].
  assert (S : forall y, is_u64 y -> split64to32 y = (y / 2 ^ 32, y mod 2 ^ 32)).
  { unfold is_u64, split64to32. intros y Hy. change 0xffffffff with (Z.ones 32).
    rewrite Z.land_ones, Z.shiftr_div_pow2 by lia. unfold u32. f_equal; div_lia. }
  unfold is_u32, is_u64 in *. split.
  - rewrite J, S by (unfold is_u64, is_u32; lia). f_equal; div_lia.
  - rewrite S by (unfold is_u64; lia). cbn [fst snd].
    rewrite J by (unfold is_u32; div_lia). div_lia.
Qed.

Lemma join_split_witness :
  join32to64 1 2 = 1 * 2 ^ 32 + 2 /\ split64to32 (join32to64 1 2) = (1, 2) /\
  join32to64 (split64to32 0x123456789abcdef0).1 (split64to32 0x123456789abcdef0).2 =
  0x123456789abcdef0.
Proof. apply join_split; unfold is_u32, is_u64; lia. Defined.
