(* ===== verification/Array.v ===== *)
(** Resizable arrays of pointers: kern/lib/array.c and the inline operations
    of kern/include/array.h.

    [v] is NULL ([None]) or a block of cells from kmalloc; a cell that was
    never written holds [None].  Sizes are [unsigned], with the wrap-around of
    [newmax*2] and of the byte count passed to kmalloc.  The outcome of a
    kmalloc is an argument of the operations that call it. *)
From S2P Require Import Prelude.

Section Array.
Context {V : Type}.

(** One word of a block: a pointer, or nothing written yet. *)
Local Notation cell := (option V).

Record array := mkArray {
  v : option (list cell);
  num : Z;
  max : Z
}.

Definition sizeof_ptr := 4.

Definition array_init : array := mkArray None 0 0.

Definition array_create (ok : bool) : option array :=
  if ok then Some array_init else None.

Definition array_cleanup (a : array) : res array :=
  kassert (num a =? 0) (Ok (mkArray None (num a) (max a))).

Definition array_destroy (a : array) : res unit :=
  let* _ := array_cleanup a in Ok tt.

Definition array_num (a : array) : Z := num a.

(** Word copies.  memcpy from one block to another, and memmove to a lower
    address of the same block, which the library does front to back. *)
Fixpoint copy_between (k : nat) (i : Z) (src dst : list cell) : res (list cell) :=
  match k with
  | O => Ok dst
  | S k =>
    let* x := access (zget src i) in
    let* dst := access (zput dst i x) in
    copy_between k (i + 1) src dst
  end.

Fixpoint copy_down (k : nat) (to from : Z) (blk : list cell) : res (list cell) :=
  match k with
  | O => Ok blk
  | S k =>
    let* x := access (zget blk from) in
    let* blk := access (zput blk to x) in
    copy_down k (to + 1) (from + 1) blk
  end.

(** [while (num > newmax) newmax = newmax ? newmax*2 : 4;] *)
Fixpoint grow (fuel : nat) (n newmax : Z) : option Z :=
  match fuel with
  | O => None
  | S fuel =>
    if newmax <? n
    then grow fuel n (if newmax =? 0 then 4 else u32 (newmax * 2))
    else Some newmax
  end.

(** Doubling from 4 passes 2^31 after 30 rounds. *)
Definition grow_fuel : nat := 40.

Definition array_preallocate (ok : bool) (a : array) (n : Z) : res (Z * array) :=
  if max a <? n then
    match grow grow_fuel n (max a) with
    | None => Fault OutOfFuel
    | Some newmax =>
      if negb ok then Ok (ENOMEM, a)
      else
        let newptr := replicate (Z.to_nat (u32 (newmax * sizeof_ptr) / sizeof_ptr)) None in
        let count := u32 (num a * sizeof_ptr) / sizeof_ptr in
        let* newptr := copy_between (Z.to_nat count) 0 (default [] (v a)) newptr in
        Ok (0, mkArray (Some newptr) (num a) newmax)
    end
  else Ok (0, a).

Definition array_setsize (ok : bool) (a : array) (n : Z) : res (Z * array) :=
  let* (result, a) := array_preallocate ok a n in
  if negb (result =? 0) then Ok (result, a)
  else Ok (0, mkArray (v a) n (max a)).

Definition array_get (a : array) (index : Z) : res cell :=
  kassert (index <? num a) (access (zget (default [] (v a)) index)).

Definition array_set (a : array) (index : Z) (val : V) : res array :=
  kassert (index <? num a) (
  let* blk := access (zput (default [] (v a)) index (Some val)) in
  Ok (mkArray (Some blk) (num a) (max a))).

(** The result carries the return value and [*index_ret]. *)
Definition array_add (ok : bool) (a : array) (val : V) : res (Z * array * Z) :=
  let index := num a in
  let* (ret, a) := array_setsize ok a (u32 (index + 1)) in
  if negb (ret =? 0) then Ok (ret, a, 0)
  else
    let* blk := access (zput (default [] (v a)) index (Some val)) in
    Ok (0, mkArray (Some blk) (num a) (max a), index).

Definition array_remove (a : array) (index : Z) : res array :=
  kassert (num a <=? max a) (
  kassert (index <? num a) (
  let num_to_move := u32 (num a - (index + 1)) in
  let* blk := copy_down (Z.to_nat (u32 (num_to_move * sizeof_ptr) / sizeof_ptr))
                index (index + 1) (default [] (v a)) in
  Ok (mkArray (Some blk) (u32 (num a - 1)) (max a)))).

(** ** Invariant and abstraction *)

Record array_wf (a : array) : Prop := {
  wf_num : 0 <= num a <= max a;
  wf_max : max a < 2 ^ 30;
  wf_block : zlen (default [] (v a)) = max a
}.

Definition contents (a : array) : list cell := take (Z.to_nat (num a)) (default [] (v a)).

Lemma contents_len a : array_wf a -> zlen (contents a) = num a.
Proof.
  intros [Hn _ Hb]. unfold contents, zlen in *. rewrite length_take. lia.
Qed.

Lemma zget_contents a i : array_wf a -> i < num a -> zget (default [] (v a)) i = zget (contents a) i.
Proof.
  intros _ Hi. unfold contents, zget. destruct (Z.ltb_spec i 0); [done |].
  rewrite lookup_take_lt by lia. done.
Qed.

Lemma copy_between_spec k i src dst :
  0 <= i -> i + Z.of_nat k <= zlen src -> i + Z.of_nat k <= zlen dst ->
  copy_between k i src dst =
  Ok (take (Z.to_nat i) dst ++ take k (drop (Z.to_nat i) src) ++ drop (Z.to_nat i + k) dst).
Proof.
  revert i dst. induction k as [ | k IH]; intros i dst Hi Hs Hd.
  { simpl. by rewrite Nat.add_0_r, take_drop. }
  cbn [copy_between]. destruct (zget_lt src i) as [x Hx]; [lia |]. rewrite Hx. cbn [access rbind].
  destruct (zput_lt dst i x) as [dst' Hd']; [lia |]. rewrite Hd'. cbn [access rbind].
  pose proof (zput_length _ _ _ _ Hd') as Hl.
  rewrite IH by lia. f_equal. apply zput_Some in Hd' as [_ ->].
  assert (Hsrc : src !! Z.to_nat i = Some x) by (unfold zget in Hx; by destruct (i <? 0)).
  replace (Z.to_nat (i + 1)) with (S (Z.to_nat i)) by lia. unfold zlen in *.
  replace (S (Z.to_nat i) + k)%nat with (Z.to_nat i + S k)%nat by lia.
  rewrite (take_S_r _ _ x) by (apply list_lookup_insert_eq; lia).
  rewrite take_insert_ge, drop_insert_lt by lia.
  rewrite (drop_S src x (Z.to_nat i)) by done. by rewrite firstn_cons, <- app_assoc.
Qed.

Lemma copy_down_spec k to blk :
  0 <= to -> to + 1 + Z.of_nat k <= zlen blk ->
  copy_down k to (to + 1) blk =
  Ok (take (Z.to_nat to) blk ++ take k (drop (S (Z.to_nat to)) blk) ++ drop (Z.to_nat to + k) blk).
Proof.
  revert to blk. induction k as [ | k IH]; intros to blk Ht Hl.
  { simpl. by rewrite Nat.add_0_r, take_drop. }
  cbn [copy_down]. destruct (zget_lt blk (to + 1)) as [x Hx]; [lia |]. rewrite Hx. cbn [access rbind].
  destruct (zput_lt blk to x) as [blk' Hb']; [lia |]. rewrite Hb'. cbn [access rbind].
  pose proof (zput_length _ _ _ _ Hb') as Hl'.
  rewrite IH by lia. f_equal. apply zput_Some in Hb' as [_ ->].
  assert (Hsrc : blk !! S (Z.to_nat to) = Some x).
  { unfold zget in Hx. destruct (Z.ltb_spec (to + 1) 0); [lia |]. rewrite <- Hx. f_equal. lia. }
  replace (Z.to_nat (to + 1)) with (S (Z.to_nat to)) by lia. unfold zlen in *.
  replace (S (Z.to_nat to) + k)%nat with (Z.to_nat to + S k)%nat by lia.
  rewrite (take_S_r _ _ x) by (apply list_lookup_insert_eq; lia).
  rewrite take_insert_ge, !drop_insert_lt by lia.
  rewrite (drop_S blk x (S (Z.to_nat to))) by done. by rewrite firstn_cons, <- app_assoc.
Qed.

Lemma grow_S fuel n m :
  grow (S fuel) n m =
  if m <? n then grow fuel n (if m =? 0 then 4 else u32 (m * 2)) else Some m.
Proof. done. Qed.

(** The loop stops at the first doubling that is large enough. *)
Lemma grow_from fuel n m :
  0 < m -> n <= 2 ^ 29 -> n <= m * 2 ^ Z.of_nat fuel ->
  exists m', grow (S fuel) n m = Some m' /\ n <= m' /\ (m' < 2 * n \/ m' = m).
Proof.
  revert m. induction fuel as [ | fuel IH]; intros m Hm Hn Hf.
  { exists m. cbn [grow]. change (2 ^ Z.of_nat 0) with 1 in Hf.
    rewrite (proj2 (Z.ltb_ge m n)) by lia. split; [done | lia]. }
  cbn [grow]. destruct (Z.ltb_spec m n).
  - destruct (Z.eqb_spec m 0); [lia |]. rewrite u32_id by (unfold is_u32; lia).
    destruct (IH (m * 2)) as (m' & Hg & H1 & H2).
    + lia.
    + done.
    + rewrite Nat2Z.inj_succ, Z.pow_succ_r in Hf by lia. lia.
    + exists m'. split; [done |]. lia.
  - exists m. split; [done | lia].
Qed.

Lemma grow_spec n m :
  0 <= m < n -> n <= 2 ^ 29 ->
  exists m', grow grow_fuel n m = Some m' /\ n <= m' /\ (m' < 2 * n \/ m' = 4).
Proof.
  intros Hm Hn. destruct (Z.eq_dec m 0) as [-> | Hne].
  - change grow_fuel with (S 39). rewrite grow_S, (proj2 (Z.ltb_lt 0 n)) by lia. rewrite Z.eqb_refl.
    destruct (grow_from 38 n 4) as (m' & Hg & H1 & H2); [lia | lia | lia |]. exists m'.
    split; [exact Hg |]. lia.
  - destruct (grow_from 39 n m) as (m' & Hg & H1 & H2); [lia | lia | lia |]. exists m'.
    split; [exact Hg |]. lia.
Qed.

(** ** The operations *)

Lemma array_preallocate_spec ok a n :
  array_wf a -> 0 <= n <= 2 ^ 29 ->
  (ok = false /\ max a < n /\ array_preallocate ok a n = Ok (ENOMEM, a)) \/
  (exists a', array_preallocate ok a n = Ok (0, a') /\ array_wf a' /\ n <= max a' /\
     num a' = num a /\ contents a' = contents a).
Proof.
  intros Hwf Hn. pose proof Hwf as [Hnum Hmax Hblk]. unfold array_preallocate.
  destruct (Z.ltb_spec (max a) n) as [Hlt | Hge]; [ | right; by exists a].
  destruct (grow_spec n (max a)) as (m & -> & Hm1 & Hm2); [lia | lia |].
  destruct ok; cbn [negb]; [right | by left]. unfold sizeof_ptr.
  rewrite !u32_id by (unfold is_u32; lia). rewrite !Z.div_mul by lia.
  assert (Hr : zlen (replicate (Z.to_nat m) (@None V)) = m).
  { unfold zlen. rewrite length_replicate. lia. }
  rewrite copy_between_spec by lia. cbn [rbind].
  change (Z.to_nat 0) with 0%nat. rewrite take_0, drop_0, app_nil_l, Nat.add_0_l.
  eexists. split; [done |]. unfold zlen in *. rewrite length_replicate in Hr.
  split; [ | split; [done | split; [done | ]]].
  - constructor; cbn [num max v default from_option id]; [lia | lia |].
    unfold zlen. rewrite length_app, length_take, length_drop, length_replicate. lia.
  - unfold contents. cbn [num v default from_option id]. rewrite take_app_le by (rewrite length_take; lia).
    by rewrite take_take, Nat.min_id.
Qed.

Lemma array_setsize_spec ok a n :
  array_wf a -> 0 <= n <= 2 ^ 29 ->
  (ok = false /\ array_setsize ok a n = Ok (ENOMEM, a)) \/
  (exists a' ext, array_setsize ok a n = Ok (0, a') /\ array_wf a' /\ num a' = n /\
     zlen ext = Z.max 0 (n - num a) /\
     contents a' = take (Z.to_nat n) (contents a) ++ ext).
Proof.
  intros Hwf Hn. unfold array_setsize.
  destruct (array_preallocate_spec ok a n Hwf Hn) as [(-> & _ & ->) | (a' & -> & Hwf' & Hm & Hnum & Hc)].
  { left. done. }
  right. cbn [rbind]. rewrite Z.eqb_refl. cbn [negb]. pose proof Hwf' as [H1 H2 H3].
  eexists _, (take (Z.to_nat n - Z.to_nat (num a)) (drop (Z.to_nat (num a)) (default [] (v a')))).
  split; [done |]. unfold zlen in *. split; [ | split; [done | split]].
  - constructor; cbn [num max v]; unfold zlen; lia.
  - rewrite length_take, length_drop. lia.
  - rewrite <- Hc. unfold contents. cbn [num v]. rewrite Hnum, take_take.
    destruct (Z.leb_spec n (num a)).
    + replace (Z.to_nat n - Z.to_nat (num a))%nat with 0%nat by lia.
      rewrite take_0, app_nil_r. f_equal. lia.
    + rewrite Nat.min_r by lia. rewrite take_take_drop. f_equal. lia.
Qed.

Lemma array_set_spec a i x :
  array_wf a -> 0 <= i ->
  if i <? num a then
    exists a', array_set a i x = Ok a' /\ array_wf a' /\
               contents a' = <[Z.to_nat i := Some x]> (contents a)
  else array_set a i x = Fault Assertion.
Proof.
  intros [H1 H2 H3] Hi. unfold array_set. destruct (Z.ltb_spec i (num a)); [ | done].
  cbn [kassert]. destruct (zput_lt (default [] (v a)) i (Some x)) as [blk Hb]; [lia |].
  rewrite Hb. cbn [access rbind]. eexists. split; [done |]. split.
  - constructor; cbn [num max v default from_option id]; [done | done |]. by rewrite (zput_length _ _ _ _ Hb).
  - unfold contents. cbn [num v default from_option id]. apply zput_Some in Hb as [_ ->].
    apply take_insert_lt. lia.
Qed.

Lemma array_remove_spec a i :
  array_wf a -> 0 <= i ->
  if i <? num a then
    exists a', array_remove a i = Ok a' /\ array_wf a' /\
               contents a' = delete (Z.to_nat i) (contents a)
  else array_remove a i = Fault Assertion.
Proof.
  intros [H1 H2 H3] Hi. unfold array_remove. rewrite (proj2 (Z.leb_le _ _)) by lia.
  destruct (Z.ltb_spec i (num a)); [ | done]. cbn [kassert]. unfold sizeof_ptr.
  rewrite (u32_id (num a - (i + 1))), u32_id, Z.div_mul by (unfold is_u32; lia).
  rewrite copy_down_spec by lia. cbn [rbind]. rewrite u32_id by (unfold is_u32; lia).
  eexists. split; [done |]. unfold zlen in *. set (b := default [] (v a)) in *.
  split.
  - constructor; cbn [num max v default from_option id]; [lia | lia |]. unfold zlen.
    rewrite !length_app, !length_take, !length_drop. lia.
  - unfold contents. cbn [num v default from_option id]. fold b.
    rewrite delete_take_drop, take_take, Nat.min_l by lia.
    rewrite app_assoc, take_app_le by (rewrite length_app, !length_take, length_drop; lia).
    rewrite take_ge by (rewrite length_app, !length_take, length_drop; lia).
    f_equal. rewrite skipn_firstn_comm. f_equal. lia.
Qed.

(** ** Refinement: an array is a list

    The calls of a client; an operation that may allocate carries the outcome
    of that allocation. *)
Inductive aop :=
| Add (ok : bool) (x : V)
| Get (i : Z)
| Set_ (i : Z) (x : V)
| Remove (i : Z)
| SetSize (ok : bool) (n : Z)
| Num.

Inductive aans :=
| AErr (e : Z)
| AIndex (i : Z)
| ACell (c : cell)
| ADone.

Definition array_step (a : array) (o : aop) : res (array * aans) :=
  match o with
  | Add ok x =>
    let* (e, a', i) := array_add ok a x in
    Ok (a', if e =? 0 then AIndex i else AErr e)
  | Get i => let* c := array_get a i in Ok (a, ACell c)
  | Set_ i x => let* a' := array_set a i x in Ok (a', ADone)
  | Remove i => let* a' := array_remove a i in Ok (a', ADone)
  | SetSize ok n => let* (e, a') := array_setsize ok a n in Ok (a', AErr e)
  | Num => Ok (a, AIndex (array_num a))
  end.

(** What the array promises: list operations.  Enlarging adds cells with
    unspecified contents; ENOMEM changes nothing and needs a failed kmalloc;
    an index out of range is an assertion failure. *)
Inductive list_step (l : list cell) : aop -> res (list cell * aans) -> Prop :=
| LAdd ok x : list_step l (Add ok x) (Ok (l ++ [Some x], AIndex (zlen l)))
| LAddFail x : list_step l (Add false x) (Ok (l, AErr ENOMEM))
| LGet i c : zget l i = Some c -> list_step l (Get i) (Ok (l, ACell c))
| LGetOut i : zlen l <= i -> list_step l (Get i) (Fault Assertion)
| LSet i x : 0 <= i < zlen l ->
    list_step l (Set_ i x) (Ok (<[Z.to_nat i := Some x]> l, ADone))
| LSetOut i x : zlen l <= i -> list_step l (Set_ i x) (Fault Assertion)
| LRemove i : 0 <= i < zlen l ->
    list_step l (Remove i) (Ok (delete (Z.to_nat i) l, ADone))
| LRemoveOut i : zlen l <= i -> list_step l (Remove i) (Fault Assertion)
| LSize ok n ext : zlen ext = Z.max 0 (n - zlen l) ->
    list_step l (SetSize ok n) (Ok (take (Z.to_nat n) l ++ ext, AErr 0))
| LSizeFail n : list_step l (SetSize false n) (Ok (l, AErr ENOMEM))
| LNum : list_step l Num (Ok (l, AIndex (zlen l))).

(** Sizes for which the byte count passed to kmalloc does not wrap. *)
Definition aop_ok (l : list cell) (o : aop) : Prop :=
  match o with
  | Add _ _ => zlen l < 2 ^ 29
  | Get i | Set_ i _ | Remove i => 0 <= i
  | SetSize _ n => 0 <= n <= 2 ^ 29
  | Num => True
  end.

Lemma array_add_spec ok a x :
  array_wf a -> num a < 2 ^ 29 ->
  (ok = false /\ array_add ok a x = Ok (ENOMEM, a, 0)) \/
  (exists a', array_add ok a x = Ok (0, a', num a) /\ array_wf a' /\
     contents a' = contents a ++ [Some x]).
Proof.
  intros Hwf Hn. pose proof (wf_num _ Hwf). unfold array_add.
  rewrite u32_id by (unfold is_u32; lia).
  destruct (array_setsize_spec ok a (num a + 1) Hwf) as [(-> & ->) | (a' & ext & -> & Hwf' & Hn' & He & Hc)];
    [lia | by left |].
  right. cbn [rbind]. rewrite Z.eqb_refl. cbn [negb]. pose proof Hwf' as [H1 H2 H3].
  destruct (zput_lt (default [] (v a')) (num a) (Some x)) as [blk Hb]; [lia |].
  rewrite Hb. cbn [access rbind]. eexists. split; [done |]. split.
  { constructor; cbn [num max v default from_option id]; [done | done |]. by rewrite (zput_length _ _ _ _ Hb). }
  apply zput_Some in Hb as [_ ->]. pose proof (contents_len a Hwf) as Hl.
  assert (Hc' : contents (mkArray (Some (<[Z.to_nat (num a) := Some x]> (default [] (v a')))) (num a') (max a'))
          = <[Z.to_nat (num a) := Some x]> (contents a')).
  { unfold contents. cbn [num v default from_option id]. apply take_insert_lt. lia. }
  rewrite Hc', Hc. unfold zlen in *. rewrite take_ge by lia.
  destruct ext as [ | c [ | ]]; simpl in He; try lia.
  rewrite insert_app_r_alt by lia.
  replace (Z.to_nat (num a) - length (contents a))%nat with 0%nat by lia. done.
Qed.

(** C20: every operation of a well-formed array is a step of the list of its
    contents, keeps the array well-formed, and never accesses memory outside
    the block: an index out of range is stopped by an assertion, and a failed
    allocation leaves the array as it was. *)
Theorem array_refines_list a o (Hwf : array_wf a) (Ho : aop_ok (contents a) o) :
  match array_step a o with
  | Ok (a', ans) => array_wf a' /\ list_step (contents a) o (Ok (contents a', ans))
  | Fault f => list_step (contents a) o (Fault f)
  end.
Proof.
  pose proof (contents_len a Hwf) as Hl. pose proof (wf_num _ Hwf) as Hnum.
  destruct o as [ok x | i | i x | i | ok n | ]; cbn [aop_ok array_step] in *.
  - destruct (array_add_spec ok a x Hwf) as [(-> & ->) | (a' & -> & Hwf' & Hc)]; [lia | | ].
    + simpl. split; [done | constructor].
    + simpl. rewrite Hc, <- Hl. split; [done | constructor].
  - unfold array_get. destruct (Z.ltb_spec i (num a)); simpl; [ | constructor; lia].
    rewrite zget_contents by done.
    destruct (zget_lt (contents a) i) as [c Hc]; [lia |]. rewrite Hc. simpl.
    split; [done | by constructor].
  - pose proof (array_set_spec a i x Hwf Ho) as Hs.
    destruct (Z.ltb_spec i (num a)); [ | rewrite Hs; constructor; lia].
    destruct Hs as (a' & -> & Hwf' & Hc). simpl. rewrite Hc. split; [done | constructor; lia].
  - pose proof (array_remove_spec a i Hwf Ho) as Hs.
    destruct (Z.ltb_spec i (num a)); [ | rewrite Hs; constructor; lia].
    destruct Hs as (a' & -> & Hwf' & Hc). simpl. rewrite Hc. split; [done | constructor; lia].
  - destruct (array_setsize_spec ok a n Hwf Ho) as [(-> & ->) | (a' & ext & -> & Hwf' & Hn & He & Hc)];
      simpl; (split; [done |]); [constructor | rewrite Hc; constructor; lia].
  - unfold array_num. rewrite <- Hl. split; [done | constructor].
Qed.

Lemma array_init_wf : array_wf array_init.
Proof. constructor; simpl; unfold zlen; simpl; lia. Qed.

(** Asking for more than 2^31 elements never returns: the doubling wraps
    around to 0 and starts again from 4, so the growth loop runs forever. *)
Theorem array_preallocate_diverges n fuel (Hn : 2 ^ 31 < n < 2 ^ 32) :
  grow fuel n (max array_init) = None.
Proof.
  assert (H : forall fuel m, (m = 0 \/ exists k, 2 <= k <= 31 /\ m = 2 ^ k) -> grow fuel n m = None).
  { clear fuel. induction fuel as [ | fuel IH]; intros m Hm; [done |]. cbn [grow].
    assert (m < n) by (destruct Hm as [-> | (k & Hk & ->)]; [lia |];
      assert (2 ^ k <= 2 ^ 31) by (apply Z.pow_le_mono_r; lia); lia).
    rewrite (proj2 (Z.ltb_lt m n)) by done. apply IH.
    destruct Hm as [-> | (k & Hk & ->)]; [right; exists 2; done |].
    destruct (Z.eqb_spec (2 ^ k) 0) as [E | _]; [pose proof (Z.pow_pos_nonneg 2 k); lia |].
    rewrite Z.mul_comm, <- Z.pow_succ_r by lia. unfold u32.
    destruct (Z.eq_dec k 31) as [-> | ]; [by left |]. right. exists (Z.succ k). split; [lia |].
    apply Z.mod_small. split; [apply Z.pow_nonneg; lia |]. apply Z.pow_lt_mono_r; lia. }
  apply H. by left.
Qed.
End Array.
Arguments array : clear implicits.

Lemma array_refines_list_witness :
  exists a ans, array_step (mkArray (Some [Some 7; Some 8; None; None]) 2 4) (Add true 9) = Ok (a, ans) /\
    array_wf a /\ list_step [Some 7; Some 8] (Add true 9) (Ok (contents a, ans)).
Proof.
  eexists _, _. split; [reflexivity |].
  apply (array_refines_list (mkArray (Some [Some 7; Some 8; None; None]) 2 4) (Add true 9)).
  - constructor; simpl; unfold zlen; simpl; lia.
  - simpl. unfold zlen. simpl. lia.
Defined.

Lemma array_preallocate_diverges_witness :
  grow 1000 (2 ^ 31 + 1) (max (@array_init Z)) = None.
Proof. apply array_preallocate_diverges. lia. Defined.
