(* ===== verification/CString.v ===== *)
(** Memory and string functions of common/libc, which the kernel and the user
    programs share: memcpy, memmove, bzero and memset on bytes of memory, the
    string functions on null-terminated strings in it, and atoi.

    Memory maps addresses to bytes; an access to an address that is not mapped
    is a fault.  A [long] has four bytes, the most significant first.  Objects
    do not go across the top of the address space, so pointers are integers
    that do not wrap.  A loop that ends with a byte it finds in memory gets as
    much fuel as there are bytes in memory, and one more: it reads another
    address each time around. *)
From S2P Require Import Prelude.

Notation memory := (gmap Z Z).

(** ** Loads and stores *)

Definition load (m : memory) (a : Z) : res Z := access (m !! a).

Definition store (m : memory) (a b : Z) : res memory :=
  let* _ := load m a in Ok (<[a := u8 b]> m).

Definition load32 (m : memory) (a : Z) : res Z :=
  let* b0 := load m a in
  let* b1 := load m (a + 1) in
  let* b2 := load m (a + 2) in
  let* b3 := load m (a + 3) in
  Ok (b0 * 2 ^ 24 + b1 * 2 ^ 16 + b2 * 2 ^ 8 + b3).

Definition store32 (m : memory) (a w : Z) : res memory :=
  let* m := store m a (w / 2 ^ 24) in
  let* m := store m (a + 1) (w / 2 ^ 16) in
  let* m := store m (a + 2) (w / 2 ^ 8) in
  store m (a + 3) w.

Definition sizeof_long := 4.

(** ** Blocks *)

Fixpoint copy_words (k : nat) (m : memory) (d s i : Z) : res memory :=
  match k with
  | O => Ok m
  | S k =>
    let* w := load32 m (s + sizeof_long * i) in
    let* m := store32 m (d + sizeof_long * i) w in
    copy_words k m d s (i + 1)
  end.

Fixpoint copy_bytes (k : nat) (m : memory) (d s i : Z) : res memory :=
  match k with
  | O => Ok m
  | S k =>
    let* b := load m (s + i) in
    let* m := store m (d + i) b in
    copy_bytes k m d s (i + 1)
  end.

Definition aligned (a : Z) : bool := a mod sizeof_long =? 0.

Definition memcpy (m : memory) (dst src len : Z) : res memory :=
  if aligned dst && aligned src && aligned len then copy_words (Z.to_nat (len / sizeof_long)) m dst src 0
  else copy_bytes (Z.to_nat len) m dst src 0.

(** Downwards from index [k - 1]. *)
Fixpoint copy_words_down (k : nat) (m : memory) (d s : Z) : res memory :=
  match k with
  | O => Ok m
  | S k =>
    let* w := load32 m (s + sizeof_long * Z.of_nat k) in
    let* m := store32 m (d + sizeof_long * Z.of_nat k) w in
    copy_words_down k m d s
  end.

Fixpoint copy_bytes_down (k : nat) (m : memory) (d s : Z) : res memory :=
  match k with
  | O => Ok m
  | S k =>
    let* b := load m (s + Z.of_nat k) in
    let* m := store m (d + Z.of_nat k) b in
    copy_bytes_down k m d s
  end.

Definition memmove (m : memory) (dst src len : Z) : res memory :=
  if dst <? src then memcpy m dst src len
  else if aligned dst && aligned src && aligned len then copy_words_down (Z.to_nat (len / sizeof_long)) m dst src
  else copy_bytes_down (Z.to_nat len) m dst src.

Fixpoint zero_words (k : nat) (m : memory) (b i : Z) : res memory :=
  match k with
  | O => Ok m
  | S k => let* m := store32 m (b + sizeof_long * i) 0 in zero_words k m b (i + 1)
  end.

Fixpoint fill_bytes (k : nat) (m : memory) (p ch i : Z) : res memory :=
  match k with
  | O => Ok m
  | S k => let* m := store m (p + i) ch in fill_bytes k m p ch (i + 1)
  end.

Definition bzero (m : memory) (block len : Z) : res memory :=
  if aligned block && aligned len then zero_words (Z.to_nat (len / sizeof_long)) m block 0
  else fill_bytes (Z.to_nat len) m block 0 0.

Definition memset (m : memory) (ptr ch len : Z) : res memory := fill_bytes (Z.to_nat len) m ptr ch 0.

(** ** Strings

    A null pointer is [None]. *)

Definition steps (m : memory) : nat := S (size m).

Fixpoint strlen_from (k : nat) (m : memory) (str ret : Z) : res Z :=
  match k with
  | O => Fault OutOfFuel
  | S k =>
    let* b := load m (str + ret) in
    if b =? 0 then Ok ret else strlen_from k m str (ret + 1)
  end.

Definition strlen (m : memory) (str : Z) : res Z := strlen_from (steps m) m str 0.

Fixpoint strcpy_from (k : nat) (m : memory) (dest src i : Z) : res memory :=
  match k with
  | O => Fault OutOfFuel
  | S k =>
    let* b := load m (src + i) in
    if b =? 0 then store m (dest + i) 0
    else let* m := store m (dest + i) b in strcpy_from k m dest src (i + 1)
  end.

Definition strcpy (m : memory) (dest src : Z) : res memory := strcpy_from (steps m) m dest src 0.

Definition strcat (m : memory) (dest src : Z) : res memory :=
  let* offset := strlen m dest in strcpy m (dest + offset) src.

Fixpoint strcmp_from (k : nat) (m : memory) (a b i : Z) : res Z :=
  match k with
  | O => Fault OutOfFuel
  | S k =>
    let* x := load m (a + i) in
    let* y := load m (b + i) in
    if negb (x =? 0) && (x =? y) then strcmp_from k m a b (i + 1)
    else if y <? x then Ok 1 else if x =? y then Ok 0 else Ok (-1)
  end.

Definition strcmp (m : memory) (a b : Z) : res Z := strcmp_from (steps m) m a b 0.

Fixpoint strchr_from (k : nat) (m : memory) (s ch : Z) : res (option Z) :=
  match k with
  | O => Fault OutOfFuel
  | S k =>
    let* b := load m s in
    if b =? 0 then Ok (if b =? ch then Some s else None)
    else if b =? ch then Ok (Some s) else strchr_from k m (s + 1) ch
  end.

Definition strchr (m : memory) (s ch_arg : Z) : res (option Z) := strchr_from (steps m) m s (u8 ch_arg).

(** From index [i - 1] down. *)
Fixpoint strrchr_from (i : nat) (m : memory) (s ch : Z) : res (option Z) :=
  match i with
  | O => Ok None
  | S i =>
    let* b := load m (s + Z.of_nat i) in
    if b =? ch then Ok (Some (s + Z.of_nat i)) else strrchr_from i m s ch
  end.

Definition strrchr (m : memory) (s ch_arg : Z) : res (option Z) :=
  let* n := strlen m s in strrchr_from (Z.to_nat (n + 1)) m s (u8 ch_arg).

(** The loops of strtok_r: skip bytes as long as they are separators ([sep])
    or as long as they are not. *)
Fixpoint skip (k : nat) (m : memory) (seps : Z) (sep : bool) (p : Z) : res Z :=
  match k with
  | O => Fault OutOfFuel
  | S k =>
    let* b := load m p in
    if b =? 0 then Ok p
    else
    let* r := strchr m seps b in
    if bool_decide (is_Some r) && sep || negb (bool_decide (is_Some r)) && negb sep then skip k m seps sep (p + 1) else Ok p
  end.

(** The memory, the word and the context afterwards. *)
Definition strtok_r (m : memory) (string : option Z) (seps : Z) (context : option Z)
    : res (memory * option Z * option Z) :=
  let context := match string with Some s => Some s | None => context end in
  match context with
  | None => Ok (m, None, context)
  | Some head =>
    let* head := skip (steps m) m seps true head in
    let* b := load m head in
    if b =? 0 then Ok (m, None, None)
    else
    let* tail := skip (steps m) m seps false head in
    let* b := load m tail in
    if b =? 0 then Ok (m, Some head, None)
    else
    let* m := store m tail 0 in
    Ok (m, Some head, Some (tail + 1))
  end.

(** ** Numbers *)

(** The index of a character in a constant string: where strchr finds it. *)
Fixpoint index_in (l : list Z) (ch : Z) : option Z :=
  match l with
  | [] => None
  | c :: l => if c =? ch then Some 0 else option_map (fun i => i + 1) (index_in l ch)
  end.

(** "0123456789" *)
Definition decimal_digits : list Z := seqZ 48 10.

Fixpoint skip_white (k : nat) (m : memory) (s : Z) : res Z :=
  match k with
  | O => Fault OutOfFuel
  | S k =>
    let* b := load m s in
    if (b =? 32) || (b =? 9) then skip_white k m (s + 1) else Ok s
  end.

Fixpoint atoi_digits (k : nat) (m : memory) (s val : Z) : res Z :=
  match k with
  | O => Fault OutOfFuel
  | S k =>
    let* b := load m s in
    if b =? 0 then Ok val
    else
    match index_in decimal_digits b with
    | None => Ok val
    | Some digit => atoi_digits k m (s + 1) (u32 (val * 10 + digit))
    end
  end.

Definition atoi (m : memory) (s : Z) : res Z :=
  let* s := skip_white (steps m) m s in
  let* b := load m s in
  let (neg, s) := if b =? 45 then (true, s + 1) else if b =? 43 then (false, s + 1) else (false, s) in
  let* val := atoi_digits (steps m) m s 0 in
  Ok (s32 (if neg : bool then u32 (- val) else val)).

(** * What the block functions do *)

(** Memory with the bytes [l] at [a]. *)
Fixpoint write (m : memory) (a : Z) (l : list Z) : memory :=
  match l with
  | [] => m
  | b :: l => write (<[a := b]> m) (a + 1) l
  end.

(** The bytes [l] are at [a]. *)
Definition holds (m : memory) (a : Z) (l : list Z) : Prop :=
  forall i b, l !! i = Some b -> m !! (a + Z.of_nat i) = Some b.

Definition mapped (m : memory) (a n : Z) : Prop := forall i, 0 <= i < n -> is_Some (m !! (a + i)).

Definition bytes (l : list Z) : Prop := Forall (fun b => 0 <= b < 2 ^ 8) l.

Lemma lookup_write l m a x :
  write m a l !! x = if decide (a <= x < a + zlen l) then l !! Z.to_nat (x - a) else m !! x.
Proof.
  revert m a. induction l as [ | b l IH]; intros m a; cbn.
  - unfold zlen. cbn. by rewrite decide_False by lia.
  - rewrite IH. unfold zlen. cbn [length]. destruct (decide (x = a)) as [-> | N].
    + rewrite decide_False, decide_True by lia. by rewrite lookup_insert_eq, Z.sub_diag.
    + rewrite lookup_insert_ne by done. case_decide; [rewrite decide_True by lia | rewrite decide_False by lia; done].
      replace (Z.to_nat (x - a)) with (S (Z.to_nat (x - (a + 1)))) by lia. done.
Qed.

Lemma write_mapped m a l x : is_Some (m !! x) -> is_Some (write m a l !! x).
Proof.
  intros Hx. rewrite lookup_write. case_decide; [ | done]. apply lookup_lt_is_Some. unfold zlen in *. lia.
Qed.

(** Writing piece by piece. *)
Lemma write_app l1 l2 m a : write m a (l1 ++ l2) = write (write m a l1) (a + zlen l1) l2.
Proof.
  revert m a. induction l1 as [ | b l1 IH]; intros m a; cbn; [unfold zlen; cbn; f_equal; lia |].
  rewrite IH. f_equal. unfold zlen. cbn [length]. lia.
Qed.

Lemma write_app_down l1 l2 m a : write (write m (a + zlen l1) l2) a l1 = write m a (l1 ++ l2).
Proof.
  apply map_eq. intros x. rewrite !lookup_write. unfold zlen. rewrite length_app.
  repeat case_decide; try lia; try done.
  - by rewrite lookup_app_l by lia.
  - rewrite lookup_app_r by lia. f_equal. lia.
Qed.

Lemma store_raw m a b : is_Some (m !! a) -> store m a b = Ok (<[a := u8 b]> m).
Proof. intros [v Hv]. unfold store, load. by rewrite Hv. Qed.

Lemma store_byte m a b : is_Some (m !! a) -> 0 <= b < 2 ^ 8 -> store m a b = Ok (write m a [b]).
Proof. intros Hm Hb. rewrite store_raw by done. unfold u8. by rewrite Z.mod_small. Qed.

(** A word is its four bytes, in both directions. *)
Lemma load32_ok m a b0 b1 b2 b3 :
  holds m a [b0; b1; b2; b3] -> load32 m a = Ok (b0 * 2 ^ 24 + b1 * 2 ^ 16 + b2 * 2 ^ 8 + b3).
Proof.
  intros H. unfold load32, load.
  pose proof (H 0%nat b0 eq_refl) as H0. pose proof (H 1%nat b1 eq_refl) as H1.
  pose proof (H 2%nat b2 eq_refl) as H2. pose proof (H 3%nat b3 eq_refl) as H3.
  replace (a + Z.of_nat 0) with a in H0 by lia. change (Z.of_nat 1) with 1 in H1. change (Z.of_nat 2) with 2 in H2.
  change (Z.of_nat 3) with 3 in H3. rewrite H0, H1, H2, H3. done.
Qed.

Lemma store32_ok m a b0 b1 b2 b3 :
  mapped m a 4 -> bytes [b0; b1; b2; b3] ->
  store32 m a (b0 * 2 ^ 24 + b1 * 2 ^ 16 + b2 * 2 ^ 8 + b3) = Ok (write m a [b0; b1; b2; b3]).
Proof.
  intros Hm Hb. unfold bytes in Hb. rewrite !Forall_cons in Hb. destruct Hb as (H0 & H1 & H2 & H3 & _).
  set (w := b0 * 2 ^ 24 + b1 * 2 ^ 16 + b2 * 2 ^ 8 + b3).
  assert (E : forall k b q, w / 2 ^ k = q * 2 ^ 8 + b -> 0 <= b < 2 ^ 8 -> u8 (w / 2 ^ k) = b).
  { intros k b q -> Hb. unfold u8. rewrite Z.add_comm, Z.mod_add by lia. by apply Z.mod_small. }
  assert (M : is_Some (m !! a) /\ is_Some (m !! (a + 1)) /\ is_Some (m !! (a + 2)) /\ is_Some (m !! (a + 3))).
  { split; [replace a with (a + 0) by lia |]; repeat split; apply Hm; lia. }
  destruct M as (M0 & M1 & M2 & M3). unfold store32. rewrite store_raw by done. cbn [rbind].
  rewrite store_raw by (rewrite !lookup_insert_is_Some'; auto). cbn [rbind].
  rewrite store_raw by (rewrite !lookup_insert_is_Some'; auto). cbn [rbind].
  rewrite store_raw by (rewrite !lookup_insert_is_Some'; auto).
  cbn. rewrite (E 24 b0 0), (E 16 b1 b0), (E 8 b2 (b0 * 2 ^ 8 + b1)) by (unfold w; first [lia | div_lia]).
  replace (u8 w) with b3; [ | symmetry; specialize (E 0 b3 (b0 * 2 ^ 16 + b1 * 2 ^ 8 + b2)); rewrite Z.pow_0_r, Z.div_1_r in E; apply E; unfold w; lia].
  replace (a + 1 + 1) with (a + 2) by lia. replace (a + 2 + 1) with (a + 3) by lia. done.
Qed.

(** ** Copying in chunks

    One proof for bytes and for words: [chunk] moves [c] bytes. *)
Lemma rbind_assoc {A B C} (x : res A) (f : A -> res B) (g : B -> res C) :
  (let* b := (let* a := x in f a) in g b) = (let* a := x in let* b := f a in g b).
Proof. by destruct x. Qed.

Lemma holds_app m a l1 l2 : holds m a (l1 ++ l2) <-> holds m a l1 /\ holds m (a + zlen l1) l2.
Proof.
  unfold zlen. split.
  - intros H. split; intros i b Hi.
    + apply H. by apply lookup_app_l_Some.
    + rewrite <- Z.add_assoc, <- Nat2Z.inj_add. apply H. by rewrite lookup_app_r, Nat.add_comm, Nat.add_sub by lia.
  - intros [H1 H2] i b [Hi | [Hl Hi]]%lookup_app_Some; [by apply H1 |].
    specialize (H2 _ _ Hi). by replace (a + Z.of_nat i) with (a + Z.of_nat (length l1) + Z.of_nat (i - length l1)) by lia.
Qed.

(** Writing elsewhere does not matter. *)
Lemma holds_write m a l d l' : holds m a l -> (zlen l' = 0 \/ d + zlen l' <= a \/ a + zlen l <= d) -> holds (write m d l') a l.
Proof.
  intros H Hd i b Hi. rewrite lookup_write. apply lookup_lt_Some in Hi as Hlt. unfold zlen in *.
  rewrite decide_False by lia. by apply H.
Qed.

Lemma mapped_write m a n d l : mapped m a n -> mapped (write m d l) a n.
Proof. intros H i Hi. by apply write_mapped, H. Qed.

Lemma mapped_sub m a n b k : mapped m a n -> a <= b -> b + k <= a + n -> mapped m b k.
Proof. intros H Ha Hk i Hi. replace (b + i) with (a + (b - a + i)) by lia. apply H. lia. Qed.

Lemma zlen_split (l : list Z) n : 0 <= n <= zlen l -> exists l1 l2, l = l1 ++ l2 /\ zlen l1 = n.
Proof.
  intros Hn. exists (take (Z.to_nat n) l), (drop (Z.to_nat n) l). rewrite take_drop. split; [done |].
  unfold zlen in *. rewrite length_take. lia.
Qed.

Section Chunks.
Context (c : Z) (chunk : memory -> Z -> Z -> res memory).
Hypothesis chunk_ok : forall m d s l,
  zlen l = c -> holds m s l -> mapped m d c -> bytes l -> chunk m d s = Ok (write m d l).
Hypothesis c_pos : 0 < c.

Fixpoint copy_up (k : nat) (m : memory) (d s i : Z) : res memory :=
  match k with
  | O => Ok m
  | S k => let* m := chunk m (d + c * i) (s + c * i) in copy_up k m d s (i + 1)
  end.

Fixpoint copy_down (k : nat) (m : memory) (d s : Z) : res memory :=
  match k with
  | O => Ok m
  | S k => let* m := chunk m (d + c * Z.of_nat k) (s + c * Z.of_nat k) in copy_down k m d s
  end.

(** Upwards, when no byte is written before it is read. *)
Lemma copy_up_ok k m d s i past rest :
  zlen past = c * i -> 0 <= i -> zlen rest = c * Z.of_nat k -> holds m s (past ++ rest) -> mapped m d (zlen (past ++ rest)) ->
  bytes (past ++ rest) -> d <= s \/ s + zlen (past ++ rest) <= d ->
  copy_up k (write m d past) d s i = Ok (write m d (past ++ rest)).
Proof.
  revert i past rest. induction k as [ | k IH]; intros i past rest Hp Hi Hr Hh Hm Hb Hov; cbn [copy_up].
  { destruct rest; [by rewrite app_nil_r |]. unfold zlen in Hr. cbn in Hr. lia. }
  assert (Hck : 0 <= c * Z.of_nat k) by nia. rewrite Nat2Z.inj_succ, Z.mul_succ_r in Hr.
  destruct (zlen_split rest c) as (l & rest' & -> & Hl); [lia |].
  rewrite app_assoc in *.
  assert (Hz : zlen ((past ++ l) ++ rest') = c * i + c + zlen rest') by (unfold zlen in *; rewrite !length_app; lia).
  assert (Hr' : zlen rest' = c * Z.of_nat k) by (unfold zlen in *; rewrite length_app in Hr; lia).
  rewrite (chunk_ok _ _ _ l).
  - cbn [rbind]. rewrite <- Hp, <- write_app. apply IH; try done; [ | lia].
    unfold zlen in *. rewrite length_app. lia.
  - done.
  - apply holds_app in Hh as [[_ Hh]%holds_app _]. rewrite Hp in Hh. apply holds_write; [done |]. rewrite Hp, Hl. lia.
  - apply mapped_write. eapply mapped_sub; [done | nia | unfold zlen in *; lia].
  - unfold bytes in Hb. rewrite !Forall_app in Hb. apply Hb.
Qed.

(** Downwards. *)
Lemma copy_down_ok k m d s rest past :
  zlen rest = c * Z.of_nat k -> holds m s (rest ++ past) -> mapped m d (zlen (rest ++ past)) -> bytes (rest ++ past) ->
  s <= d -> copy_down k (write m (d + zlen rest) past) d s = Ok (write m d (rest ++ past)).
Proof.
  revert rest past. induction k as [ | k IH]; intros rest past Hr Hh Hm Hb Hov; cbn [copy_down].
  { destruct rest; [unfold zlen; cbn; by rewrite Z.add_0_r |]. unfold zlen in Hr. cbn in Hr. lia. }
  assert (Hck : 0 <= c * Z.of_nat k) by nia. rewrite Nat2Z.inj_succ, Z.mul_succ_r in Hr.
  destruct (zlen_split rest (c * Z.of_nat k)) as (rest' & l & -> & Hr'); [lia |].
  assert (Hl : zlen l = c) by (unfold zlen in *; rewrite length_app in Hr; lia).
  rewrite <- app_assoc in *.
  assert (Hz : zlen (rest' ++ l) = c * Z.of_nat k + c) by (unfold zlen in *; rewrite length_app; lia).
  assert (Hz' : zlen (rest' ++ l ++ past) = c * Z.of_nat k + c + zlen past) by (unfold zlen in *; rewrite !length_app; lia).
  rewrite (chunk_ok _ _ _ l).
  - cbn [rbind]. rewrite <- IH; try done. f_equal. rewrite Hr', Hz, <- write_app_down, Hl. by rewrite Z.add_assoc.
  - done.
  - apply holds_app in Hh as [_ [Hh _]%holds_app]. rewrite Hr' in Hh. apply holds_write; [done |]. rewrite Hz, Hl. lia.
  - apply mapped_write. eapply mapped_sub; [done | nia | unfold zlen in *; lia].
  - unfold bytes in Hb. rewrite !Forall_app in Hb. apply Hb.
Qed.
End Chunks.

Definition byte_chunk (m : memory) (d s : Z) : res memory := let* b := load m s in store m d b.
Definition word_chunk (m : memory) (d s : Z) : res memory := let* w := load32 m s in store32 m d w.

Lemma byte_chunk_ok m d s l :
  zlen l = 1 -> holds m s l -> mapped m d 1 -> bytes l -> byte_chunk m d s = Ok (write m d l).
Proof.
  intros Hl Hh Hm Hb. destruct l as [ | b [ | ? ?]]; unfold zlen in Hl; cbn in Hl; try lia.
  pose proof (Hh 0%nat b eq_refl) as H. rewrite Z.add_0_r in H. unfold byte_chunk, load. rewrite H. cbn [access rbind].
  apply store_byte; [ | by apply Forall_cons in Hb as [? _]]. replace d with (d + 0) by lia. apply Hm. lia.
Qed.

Lemma word_chunk_ok m d s l :
  zlen l = 4 -> holds m s l -> mapped m d 4 -> bytes l -> word_chunk m d s = Ok (write m d l).
Proof.
  intros Hl Hh Hm Hb. destruct l as [ | b0 [ | b1 [ | b2 [ | b3 [ | ? ?]]]]]; unfold zlen in Hl; cbn in Hl; try lia.
  unfold word_chunk. rewrite (load32_ok _ _ b0 b1 b2 b3) by done. by apply store32_ok.
Qed.

Lemma copy_words_up k m d s i : copy_words k m d s i = copy_up 4 word_chunk k m d s i.
Proof.
  revert m i. induction k as [ | k IH]; intros m i; [done |]. cbn. unfold word_chunk, sizeof_long. rewrite rbind_assoc.
  destruct (load32 _ _); [ | done]. cbn. destruct (store32 _ _ _); [apply IH | done].
Qed.

Lemma copy_bytes_up k m d s i : copy_bytes k m d s i = copy_up 1 byte_chunk k m d s i.
Proof.
  revert m i. induction k as [ | k IH]; intros m i; [done |]. cbn. unfold byte_chunk. rewrite rbind_assoc, Z.mul_1_l.
  destruct (load _ _); [ | done]. cbn. destruct (store _ _ _); [apply IH | done].
Qed.

Lemma copy_words_down_eq k m d s : copy_words_down k m d s = copy_down 4 word_chunk k m d s.
Proof.
  revert m. induction k as [ | k IH]; intros m; [done |]. cbn. unfold word_chunk, sizeof_long. rewrite rbind_assoc.
  destruct (load32 _ _); [ | done]. cbn. destruct (store32 _ _ _); [apply IH | done].
Qed.

Lemma copy_bytes_down_eq k m d s : copy_bytes_down k m d s = copy_down 1 byte_chunk k m d s.
Proof.
  revert m. induction k as [ | k IH]; intros m; [done |]. cbn. unfold byte_chunk. rewrite rbind_assoc, Z.mul_1_l.
  destruct (load _ _); [ | done]. cbn. destruct (store _ _ _); [apply IH | done].
Qed.

(** The chunks of a block whose length is a multiple of four. *)
Lemma aligned_len (l : list Z) : aligned (zlen l) = true -> zlen l = 4 * Z.of_nat (Z.to_nat (zlen l / sizeof_long)).
Proof.
  unfold aligned, sizeof_long. intros H. bool_inv. rewrite Z2Nat.id by (apply Z.div_pos; unfold zlen; lia).
  rewrite (Z_div_mod_eq_full (zlen l) 4) at 1. lia.
Qed.

Lemma memcpy_ok m dst src l :
  holds m src l -> mapped m dst (zlen l) -> bytes l -> dst <= src \/ src + zlen l <= dst ->
  memcpy m dst src (zlen l) = Ok (write m dst l).
Proof.
  intros Hh Hm Hb Hov. unfold memcpy. destruct (aligned dst && aligned src && aligned (zlen l)) eqn:Ha.
  - apply andb_true_iff in Ha as [_ Ha%aligned_len]. rewrite copy_words_up.
    by apply (copy_up_ok 4 word_chunk word_chunk_ok eq_refl _ m dst src 0 [] l).
  - rewrite copy_bytes_up. apply (copy_up_ok 1 byte_chunk byte_chunk_ok eq_refl _ m dst src 0 [] l); try done.
    unfold zlen. lia.
Qed.

(** C33: memmove moves: whatever the two blocks overlap, and whether it works
    upwards or downwards, by bytes or by words, the destination ends up with
    what the source held before, and no other byte of memory changes. *)
Theorem memmove_moves m dst src l :
  holds m src l -> mapped m dst (zlen l) -> bytes l ->
  memmove m dst src (zlen l) = Ok (write m dst l) /\ holds (write m dst l) dst l /\
  (forall x, ~ (dst <= x < dst + zlen l) -> write m dst l !! x = m !! x).
Proof.
  intros Hh Hm Hb. split; [ | split].
  - unfold memmove. destruct (Z.ltb_spec dst src); [apply memcpy_ok; auto with lia |].
    destruct (aligned dst && aligned src && aligned (zlen l)) eqn:Ha.
    + apply andb_true_iff in Ha as [_ Ha%aligned_len]. rewrite copy_words_down_eq.
      pose proof (copy_down_ok 4 word_chunk word_chunk_ok eq_refl (Z.to_nat (zlen l / sizeof_long)) m dst src l []) as Hc.
      rewrite app_nil_r in Hc. by apply Hc.
    + rewrite copy_bytes_down_eq.
      pose proof (copy_down_ok 1 byte_chunk byte_chunk_ok eq_refl (Z.to_nat (zlen l)) m dst src l []) as Hc.
      rewrite app_nil_r in Hc. apply Hc; try done. unfold zlen. lia.
  - intros i b Hi. apply lookup_lt_Some in Hi as Hlt. rewrite lookup_write, decide_True by (unfold zlen; lia).
    by replace (Z.to_nat (dst + Z.of_nat i - dst)) with i by lia.
  - intros x Hx. by rewrite lookup_write, decide_False.
Qed.

Lemma zero_words_fill k m b i : zero_words k m b i = fill_bytes (4 * k) m b 0 (4 * i).
Proof.
  revert m i. induction k as [ | k IH]; intros m i; [done |]. cbn [zero_words]. unfold store32.
  replace (4 * S k)%nat with (S (S (S (S (4 * k))))) by lia. cbn [fill_bytes]. unfold sizeof_long.
  rewrite !rbind_assoc. change (0 / 2 ^ 24) with 0. change (0 / 2 ^ 16) with 0. change (0 / 2 ^ 8) with 0.
  destruct (store m (b + 4 * i) 0) as [m1 | ]; [ | done]. cbn [rbind]. rewrite !rbind_assoc.
  replace (b + (4 * i + 1)) with (b + 4 * i + 1) by lia. destruct (store m1 _ 0) as [m2 | ]; [ | done]. cbn [rbind]. rewrite !rbind_assoc.
  replace (b + (4 * i + 1 + 1)) with (b + 4 * i + 2) by lia. destruct (store m2 _ 0) as [m3 | ]; [ | done]. cbn [rbind].
  replace (b + (4 * i + 1 + 1 + 1)) with (b + 4 * i + 3) by lia. destruct (store m3 _ 0) as [m4 | ]; [ | done]. cbn [rbind].
  rewrite IH. f_equal. lia.
Qed.

(** Bzero, which writes whole words where it can, is memset with 0, on
    every memory and every block, mapped or not. *)
Theorem bzero_is_memset m block len : 0 <= len -> bzero m block len = memset m block 0 len.
Proof.
  intros Hlen. unfold bzero, memset. destruct (aligned block && aligned len) eqn:Ha; [ | done].
  apply andb_true_iff in Ha as [_ Ha]. unfold aligned, sizeof_long in *. bool_inv. rewrite zero_words_fill. f_equal. div_lia.
Qed.

(** * Strings in memory *)

(** The string [s] is at [a], with its terminator. *)
Definition cstr (m : memory) (a : Z) (s : list Z) : Prop :=
  holds m a (s ++ [0]) /\ Forall (fun b => 0 < b < 2 ^ 8) s.

(** The fuel of the loops is enough. *)
Lemma holds_size l m a : holds m a l -> (length l <= size m)%nat.
Proof.
  revert a m. induction l as [ | b l IH]; intros a m H; cbn; [lia |].
  assert (Ha : m !! a = Some b) by (specialize (H 0%nat b eq_refl); by rewrite Z.add_0_r in H).
  assert (Hl : holds (delete a m) (a + 1) l).
  { intros i c Hi. rewrite lookup_delete_ne by lia. specialize (H (S i) c Hi).
    by replace (a + 1 + Z.of_nat i) with (a + Z.of_nat (S i)) by lia. }
  apply IH in Hl. rewrite map_size_delete_Some in Hl by (by eexists). assert (size m <> 0%nat); [ | lia].
  intros Hz%map_size_empty_inv. by rewrite Hz, lookup_empty in Ha.
Qed.

Lemma cstr_size m a s : cstr m a s -> (length s < steps m)%nat.
Proof. intros [H _]. apply holds_size in H. rewrite length_app in H. unfold steps. cbn in H. lia. Qed.

Lemma cstr_nil m a : cstr m a [] <-> m !! a = Some 0.
Proof.
  split.
  - intros [H _]. specialize (H 0%nat 0 eq_refl). by rewrite Z.add_0_r in H.
  - intros H. split; [ | done]. intros [ | i] b Hi; cbn in Hi; [ | done]. simplify_eq. by rewrite Z.add_0_r.
Qed.

Lemma cstr_cons m a b s : cstr m a (b :: s) <-> m !! a = Some b /\ 0 < b < 2 ^ 8 /\ cstr m (a + 1) s.
Proof.
  unfold cstr. rewrite Forall_cons. change ((b :: s) ++ [0]) with ([b] ++ s ++ [0]). rewrite holds_app.
  change (zlen [b]) with 1. split.
  - intros [[H1 H2] [Hb Hs]]. specialize (H1 0%nat b eq_refl). by rewrite Z.add_0_r in H1.
  - intros (H1 & Hb & H2 & Hs). split; [split; [ | done] | done]. intros [ | i] c Hi; cbn in Hi; [ | done]. simplify_eq.
    by rewrite Z.add_0_r.
Qed.

(** The part of a string behind some of its characters. *)
Lemma cstr_app m a s1 s2 : cstr m a (s1 ++ s2) -> cstr m (a + zlen s1) s2.
Proof.
  revert a. induction s1 as [ | b s1 IH]; intros a H; unfold zlen; cbn [length].
  - by rewrite Z.add_0_r.
  - apply cstr_cons in H as (_ & _ & H). apply IH in H. unfold zlen in H. by replace (a + Z.of_nat (S (length s1))) with (a + 1 + Z.of_nat (length s1)) by lia.
Qed.

(** A string is not changed by a write elsewhere. *)
Lemma cstr_write m a s d l : cstr m a s -> zlen l = 0 \/ d + zlen l <= a \/ a + zlen s < d -> cstr (write m d l) a s.
Proof.
  intros [H Hs] Hd. split; [ | done]. apply holds_write; [done |]. unfold zlen in *. rewrite length_app. cbn. lia.
Qed.

Lemma strlen_ok m a s : cstr m a s -> strlen m a = Ok (zlen s).
Proof.
  intros H. assert (G : forall k i s', (length s' < k)%nat -> cstr m (a + i) s' -> strlen_from k m a i = Ok (i + zlen s')).
  { clear. induction k as [ | k IH]; intros i s' Hk H; [lia |]. cbn. unfold load. destruct s' as [ | b s'].
    - apply cstr_nil in H. rewrite H. cbn. unfold zlen. cbn. f_equal. lia.
    - apply cstr_cons in H as (Hb & Hr & H). rewrite Hb. cbn [access rbind]. destruct (Z.eqb_spec b 0); [lia |].
      rewrite (IH (i + 1) s') by (cbn in Hk; first [lia | by rewrite Z.add_assoc]). unfold zlen. cbn [length]. f_equal. lia. }
  unfold strlen. rewrite (G _ 0 s); [f_equal; lia | by eapply cstr_size | by rewrite Z.add_0_r].
Qed.

(** ** Copying *)

Lemma strcpy_from_ok k m dest src i past s :
  zlen past = i -> (length s < k)%nat -> cstr m src (past ++ s) -> mapped m dest (zlen (past ++ s) + 1) ->
  dest + zlen (past ++ s) < src \/ src + zlen (past ++ s) < dest ->
  strcpy_from k (write m dest past) dest src i = Ok (write m dest (past ++ s ++ [0])).
Proof.
  revert i past s. induction k as [ | k IH]; intros i past s Hi Hk H Hm Hov; [lia |].
  cbn [strcpy_from].
  assert (H' : cstr (write m dest past) (src + i) s).
  { subst i. apply cstr_app in H. apply cstr_write; [done |]. unfold zlen in *. rewrite length_app in Hov. lia. }
  assert (Hmi : is_Some (write m dest past !! (dest + i))).
  { apply write_mapped, Hm. unfold zlen in *. rewrite length_app. lia. }
  destruct s as [ | b s].
  - apply cstr_nil in H'. unfold load. rewrite H'. cbn [access rbind Z.eqb]. rewrite store_byte by (done || lia).
    rewrite app_nil_l, write_app. by rewrite Hi.
  - apply cstr_cons in H' as (Hb & Hr & _). unfold load. rewrite Hb. cbn [access rbind]. destruct (Z.eqb_spec b 0); [lia |].
    rewrite store_byte by (done || lia). cbn [rbind].
    replace (write (write m dest past) (dest + i) [b]) with (write m dest (past ++ [b])) by (by rewrite write_app, Hi).
    replace (past ++ (b :: s) ++ [0]) with ((past ++ [b]) ++ s ++ [0]) by by rewrite <- app_assoc.
    apply IH; rewrite <- ?app_assoc; try done; [ | cbn in Hk; lia]. subst i. unfold zlen. rewrite length_app. cbn. lia.
Qed.

Lemma strcpy_ok m dest src s :
  cstr m src s -> mapped m dest (zlen s + 1) -> dest + zlen s < src \/ src + zlen s < dest ->
  strcpy m dest src = Ok (write m dest (s ++ [0])).
Proof. intros H Hm Hov. apply (strcpy_from_ok (steps m) m dest src 0 [] s); try done. by eapply cstr_size. Qed.

(** A string that was just written. *)
Lemma cstr_written m a s : Forall (fun b => 0 < b < 2 ^ 8) s -> cstr (write m a (s ++ [0])) a s.
Proof.
  intros Hs. split; [ | done]. intros i b Hi. apply lookup_lt_Some in Hi as Hlt.
  rewrite lookup_write, decide_True by (unfold zlen; lia). by replace (Z.to_nat (a + Z.of_nat i - a)) with i by lia.
Qed.

Lemma cstr_join m a s1 s2 :
  holds m a s1 -> Forall (fun b => 0 < b < 2 ^ 8) s1 -> cstr m (a + zlen s1) s2 -> cstr m a (s1 ++ s2).
Proof.
  intros H1 F1 [H2 F2]. split; [ | by apply Forall_app]. rewrite <- app_assoc. by apply holds_app.
Qed.

(** Strcat appends: the destination then holds both strings in one, and
    nothing changes but the bytes behind the old string that the new one needs. *)
Theorem strcat_appends m dest src s1 s2 :
  cstr m dest s1 -> cstr m src s2 -> mapped m (dest + zlen s1) (zlen s2 + 1) ->
  dest + zlen s1 + zlen s2 < src \/ src + zlen s2 < dest ->
  exists m', strcat m dest src = Ok m' /\ cstr m' dest (s1 ++ s2) /\
    forall x, ~ (dest + zlen s1 <= x <= dest + zlen s1 + zlen s2) -> m' !! x = m !! x.
Proof.
  intros H1 H2 Hm Hov. assert (0 <= zlen s1) by (unfold zlen; lia).
  unfold strcat. rewrite (strlen_ok _ _ _ H1). cbn [rbind].
  rewrite (strcpy_ok m (dest + zlen s1) src s2) by (done || lia).
  eexists. split; [done |]. destruct H1 as [H1 F1], H2 as [_ F2]. split.
  - apply cstr_join; [ | done | by apply cstr_written].
    apply holds_app in H1 as [H1 _]. apply holds_write; [done | lia].
  - intros x Hx. rewrite lookup_write, decide_False; [done |]. unfold zlen in *. rewrite length_app. cbn. lia.
Qed.

(** ** Comparing *)

(** The order of dictionaries, on unsigned bytes. *)
Fixpoint lexicographic (s1 s2 : list Z) : Z :=
  match s1, s2 with
  | [], [] => 0
  | [], _ => -1
  | _, [] => 1
  | x :: s1, y :: s2 => if x <? y then -1 else if y <? x then 1 else lexicographic s1 s2
  end.

(** Strcmp compares two strings in the order of dictionaries. *)
Theorem strcmp_lexicographic m a b s1 s2 :
  cstr m a s1 -> cstr m b s2 -> strcmp m a b = Ok (lexicographic s1 s2).
Proof.
  intros H1 H2. assert (G : forall k i s1 s2, (length s1 < k)%nat -> cstr m (a + i) s1 -> cstr m (b + i) s2 ->
    strcmp_from k m a b i = Ok (lexicographic s1 s2)).
  { clear. induction k as [ | k IH]; intros i s1 s2 Hk H1 H2; [lia |]. cbn [strcmp_from]. unfold load.
    destruct s1 as [ | x s1], s2 as [ | y s2]; rewrite ?cstr_nil, ?cstr_cons in *.
    - by rewrite H1, H2.
    - destruct H2 as (H2 & Hy & _). rewrite H1, H2. cbn [access rbind lexicographic].
      destruct (Z.eqb_spec 0 y); [lia |]. cbn [negb andb Z.eqb]. destruct (Z.ltb_spec y 0); [lia | done].
    - destruct H1 as (H1 & Hx & _). rewrite H1, H2. cbn [access rbind lexicographic].
      destruct (Z.eqb_spec x 0); [lia |]. cbn [negb andb]. destruct (Z.ltb_spec 0 x); [done | lia].
    - destruct H1 as (H1 & Hx & T1), H2 as (H2 & Hy & T2). rewrite H1, H2. cbn [access rbind lexicographic].
      destruct (Z.eqb_spec x 0); [lia |]. destruct (Z.eqb_spec x y) as [-> | N]; cbn [negb andb].
      + rewrite Z.ltb_irrefl. apply IH; [cbn in Hk; lia | | ]; by rewrite Z.add_assoc.
      + destruct (Z.ltb_spec y x), (Z.ltb_spec x y); done || lia. }
  apply (G _ 0); [by eapply cstr_size | ..]; by rewrite Z.add_0_r.
Qed.

(** ** Searching *)

(** The first place of [ch] in a string, its terminator included. *)
Definition first_in (s : list Z) (ch : Z) : option Z := index_in (s ++ [0]) ch.

Lemma strchr_ok m a s ch : cstr m a s -> strchr m a ch = Ok (option_map (fun i => a + i) (first_in s (u8 ch))).
Proof.
  intros H. unfold strchr. generalize (u8 ch). intros c.
  assert (G : forall k a s, (length s < k)%nat -> cstr m a s ->
    strchr_from k m a c = Ok (option_map (fun i => a + i) (first_in s c))).
  { clear. induction k as [ | k IH]; intros a s Hk H; [lia |]. cbn [strchr_from]. unfold load, first_in in *.
    destruct s as [ | b s]; rewrite ?cstr_nil, ?cstr_cons in H.
    - rewrite H. cbn [access rbind app index_in]. rewrite Z.eqb_refl. destruct (Z.eqb_spec 0 c); cbn; [by rewrite Z.add_0_r | done].
    - destruct H as (Hb & Hr & H). rewrite Hb. cbn [access rbind app index_in]. destruct (Z.eqb_spec b 0); [lia |].
      destruct (Z.eqb_spec b c); cbn; [by rewrite Z.add_0_r |]. rewrite (IH _ s) by (cbn in Hk; done || lia).
      destruct (index_in (s ++ [0]) c); cbn; [do 2 f_equal; lia | done]. }
  apply G; [by eapply cstr_size | done].
Qed.

Lemma index_in_Some l ch : is_Some (index_in l ch) <-> ch ∈ l.
Proof.
  induction l as [ | c l IH]; cbn; [set_solver by inversion 1 |]. rewrite elem_of_cons. destruct (Z.eqb_spec c ch); [set_solver |].
  rewrite <- IH. destruct (index_in l ch); cbn; naive_solver.
Qed.

(** Whether strchr finds a character that is not the terminator. *)
Lemma strchr_found m a s ch r :
  cstr m a s -> 0 < ch < 2 ^ 8 -> strchr m a ch = Ok r -> (is_Some r <-> ch ∈ s).
Proof.
  intros H Hc. rewrite (strchr_ok _ _ _ _ H). unfold u8. rewrite Z.mod_small by lia. intros [= <-].
  transitivity (is_Some (first_in s ch)); [by destruct (first_in s ch); cbn |]. unfold first_in. rewrite index_in_Some, elem_of_app, list_elem_of_singleton.
  naive_solver lia.
Qed.

(** ** Words *)

(** The words of a string: its longest parts without separators.  [cur] is the
    word that has begun. *)
Fixpoint words (seps cur s : list Z) : list (list Z) :=
  match s with
  | [] => if decide (cur = []) then [] else [cur]
  | b :: s =>
    if decide (b ∈ seps) then if decide (cur = []) then words seps [] s else cur :: words seps [] s
    else words seps (cur ++ [b]) s
  end.

Lemma words_seps seps s1 s2 : Forall (fun b => b ∈ seps) s1 -> words seps [] (s1 ++ s2) = words seps [] s2.
Proof. induction 1 as [ | b s1 Hb _ IH]; [done |]. cbn. by rewrite decide_True. Qed.

Lemma words_word seps w s cur : Forall (fun b => b ∉ seps) w -> words seps cur (w ++ s) = words seps (cur ++ w) s.
Proof.
  intros H. revert cur. induction H as [ | b w Hb _ IH]; intros cur; cbn; [by rewrite app_nil_r |].
  rewrite decide_False by done. by rewrite IH, <- app_assoc.
Qed.

(** A string split by a test on its characters. *)
Lemma span (P : Z -> Prop) `{forall b, Decision (P b)} (s : list Z) :
  exists s1 s2, s = s1 ++ s2 /\ Forall P s1 /\ match s2 with [] => True | b :: _ => ~ P b end.
Proof.
  induction s as [ | b s (s1 & s2 & -> & H1 & H2)]; [by exists [], [] |].
  destruct (decide (P b)); [exists (b :: s1), s2; by rewrite Forall_cons | by exists [], (b :: s1 ++ s2)].
Qed.

(** The loops of strtok_r stop where the test first fails. *)
Lemma skip_ok k m a seps sep p s1 s2 :
  cstr m a seps -> (length s1 < k)%nat -> cstr m p (s1 ++ s2) -> Forall (fun b => b ∈ seps <-> sep = true) s1 ->
  match s2 with [] => True | b :: _ => ~ (b ∈ seps <-> sep = true) end ->
  skip k m a sep p = Ok (p + zlen s1).
Proof.
  intros Hs. revert p s1. induction k as [ | k IH]; intros p s1 Hk H F N; [lia |]. cbn [skip]. unfold load.
  destruct s1 as [ | b s1].
  - change (zlen []) with 0. rewrite Z.add_0_r. destruct s2 as [ | b s2]; cbn [app] in H.
    + apply cstr_nil in H. by rewrite H.
    + apply cstr_cons in H as (Hb & Hr & _). rewrite Hb. cbn [access rbind]. destruct (Z.eqb_spec b 0); [lia |].
      destruct (strchr m a b) as [r | ] eqn:E; [ | by rewrite (strchr_ok _ _ _ _ Hs) in E]. cbn [rbind].
      apply (strchr_found _ _ _ _ _ Hs Hr) in E. destruct (bool_decide_reflect (is_Some r)), sep; cbn;
        first [done | exfalso; apply N; intuition congruence].
  - apply cstr_cons in H as (Hb & Hr & H). apply Forall_cons in F as [Fb F]. rewrite Hb. cbn [access rbind].
    destruct (Z.eqb_spec b 0); [lia |].
    destruct (strchr m a b) as [r | ] eqn:E; [ | by rewrite (strchr_ok _ _ _ _ Hs) in E]. cbn [rbind].
    apply (strchr_found _ _ _ _ _ Hs Hr) in E.
    replace (bool_decide (is_Some r) && sep || negb (bool_decide (is_Some r)) && negb sep) with true
      by (destruct (bool_decide_reflect (is_Some r)), sep; cbn; intuition congruence).
    rewrite (IH (p + 1) s1) by (cbn in Hk; done || lia). unfold zlen. cbn [length]. f_equal. lia.
Qed.

(** Strings that lie apart. *)
Definition apart (a : Z) (s : list Z) (b : Z) (t : list Z) : Prop := a + zlen s < b \/ b + zlen t < a.

(** The first call and every later one: either there is no word left, or the
    word is the first of those that are, and the context holds the others. *)
Lemma strtok_r_ok m a seps p s :
  cstr m a seps -> cstr m p s -> apart p s a seps ->
  (strtok_r m None a (Some p) = Ok (m, None, None) /\ words seps [] s = []) \/
  (exists w m' q ctx, strtok_r m None a (Some p) = Ok (m', Some q, ctx) /\ p <= q /\ cstr m' q w /\
     (forall x, x < p -> m' !! x = m !! x) /\ (forall x, p + zlen s < x -> m' !! x = m !! x) /\ cstr m' a seps /\
     match ctx with
     | None => words seps [] s = [w]
     | Some p' => exists s', words seps [] s = w :: words seps [] s' /\ cstr m' p' s' /\ q + zlen w < p' /\
                    p' + zlen s' = p + zlen s
     end).
Proof.
  intros Hs Hp Hap. destruct (span (fun b => b ∈ seps) s) as (s1 & s2 & -> & F1 & N1).
  assert (K1 : (length s1 < steps m)%nat) by (apply cstr_size in Hp; rewrite length_app in Hp; lia).
  cbn [strtok_r]. rewrite (skip_ok _ m a seps true p s1 s2); [ | done | done | done | by eapply Forall_impl | destruct s2; [done | tauto]].
  cbn [rbind]. apply cstr_app in Hp as Hq. set (q := p + zlen s1) in *. rewrite words_seps by done.
  destruct (span (fun b => b ∉ seps) s2) as (w & s3 & -> & F2 & N2).
  destruct w as [ | b w].
  { destruct s3 as [ | b s3]; [ | cbn in N1; tauto]. left. apply cstr_nil in Hq. unfold load. by rewrite Hq. }
  right. assert (K2 : (length (b :: w) < steps m)%nat) by (apply cstr_size in Hq; rewrite length_app in Hq; lia).
  cbn [app] in Hq. apply cstr_cons in Hq as Hb. destruct Hb as (Hb & Hr & _). unfold load at 1. rewrite Hb. cbn [access rbind].
  destruct (Z.eqb_spec b 0); [lia |].
  rewrite (skip_ok _ m a seps false q (b :: w) s3); [ | done | done | done | eapply Forall_impl; [done | naive_solver] | destruct s3; [done | naive_solver]].
  cbn [rbind]. change (b :: w ++ s3) with ((b :: w) ++ s3) in Hq. rewrite (words_word seps (b :: w)) by done.
  rewrite app_nil_l. apply cstr_app in Hq as Ht. set (tl := q + zlen (b :: w)) in *.
  assert (Hbw : Forall (fun b => 0 < b < 2 ^ 8) (b :: w)) by (destruct Hq as [_ F]; by apply Forall_app in F as [? _]).
  assert (Hw : holds m q (b :: w)) by (destruct Hq as [F _]; rewrite <- app_assoc in F; by apply holds_app in F as [? _]).
  assert (Hqp : p <= q) by (unfold q, zlen; lia).
  destruct s3 as [ | c s3].
  - apply cstr_nil in Ht. unfold load. rewrite Ht. cbn [access rbind Z.eqb]. exists (b :: w), m, q, None.
    split; [done |]. split; [done |]. rewrite app_nil_r in Hq. do 4 (split; [done |]).
    cbn [words]. by rewrite decide_False.
  - apply cstr_cons in Ht as (Hc & Hcr & Ht). unfold load. rewrite Hc. cbn [access rbind]. destruct (Z.eqb_spec c 0); [lia |].
    rewrite store_byte by (by eexists || lia). cbn [rbind].
    assert (Hlen : zlen (s1 ++ (b :: w) ++ c :: s3) = zlen s1 + zlen (b :: w) + 1 + zlen s3)
      by (unfold zlen; rewrite !length_app; cbn [length]; lia).
    assert (Hpos : 0 <= zlen s1 /\ 0 < zlen (b :: w) /\ 0 <= zlen s3 /\ 0 <= zlen seps) by (unfold zlen; cbn [length]; lia).
    change (zlen [0]) with 1 in *.
    eexists (b :: w), _, q, _. split; [done |]. split; [done |]. split; [ | split; [ | split; [ | split]]].
    + rewrite <- (app_nil_r (b :: w)) at 1. apply cstr_join; [ | done |].
      * apply holds_write; [done |]. unfold tl. lia.
      * apply cstr_nil. fold tl. cbn. apply lookup_insert_eq.
    + intros x Hx. cbn. rewrite lookup_insert_ne; [done |]. unfold tl. lia.
    + intros x Hx. cbn. rewrite lookup_insert_ne; [done |]. unfold tl, q in *. lia.
    + apply cstr_write; [done |]. change (zlen [0]) with 1. unfold apart, tl, q in *. lia.
    + exists s3. cbn [words]. rewrite decide_True by (cbn in N2; destruct (decide (c ∈ seps)); tauto).
      rewrite decide_False by done. split; [done |]. split; [apply cstr_write; [done | change (zlen [0]) with 1; lia] |].
      unfold tl, q in *. lia.
Qed.

(** All words of a string, as callers get them: one call on the string, then
    calls with a null pointer until there is no word. *)
Fixpoint tokens (k : nat) (m : memory) (string : option Z) (seps : Z) (context : option Z) : res (memory * list Z) :=
  match k with
  | O => Fault OutOfFuel
  | S k =>
    let* (m, w, context) := strtok_r m string seps context in
    match w with
    | None => Ok (m, [])
    | Some q => let* (m, qs) := tokens k m None seps context in Ok (m, q :: qs)
    end
  end.

Lemma cstr_ext m m' a s : cstr m a s -> (forall x, a <= x <= a + zlen s -> m' !! x = m !! x) -> cstr m' a s.
Proof.
  intros [H Hs] E. split; [ | done]. intros i b Hi. apply lookup_lt_Some in Hi as Hlt. rewrite E; [by apply H |].
  rewrite length_app in Hlt. unfold zlen. cbn in Hlt. lia.
Qed.

Lemma tokens_ok k m a seps p s :
  (S (length s) < k)%nat -> cstr m a seps -> cstr m p s -> apart p s a seps ->
  exists m' qs, tokens k m None a (Some p) = Ok (m', qs) /\ Forall2 (cstr m') qs (words seps [] s) /\
    (forall x, x < p -> m' !! x = m !! x) /\ (forall x, p + zlen s < x -> m' !! x = m !! x).
Proof.
  revert m p s. induction k as [ | k IH]; intros m p s Hk Hs Hp Hap; [lia |]. cbn [tokens].
  destruct (strtok_r_ok m a seps p s Hs Hp Hap) as [[-> ->] | (w & m1 & q & ctx & -> & Hq & Hw & Lo & Hi & Hs1 & Hctx)]; cbn [rbind].
  { exists m, []. by split; [done |]; split; [constructor |]. }
  destruct ctx as [p' | ].
  - destruct Hctx as (s' & -> & Hp' & Hlt & Hend). assert (zlen w >= 0) by (unfold zlen; lia).
    destruct (IH m1 p' s') as (m2 & qs & -> & HF & Lo2 & Hi2); [unfold zlen in *; lia | done | done | unfold apart in *; lia |].
    cbn [rbind]. exists m2, (q :: qs). split; [done |]. split; [ | split].
    + constructor; [ | done]. eapply cstr_ext; [done |]. intros x Hx. apply Lo2. lia.
    + intros x Hx. rewrite Lo2 by lia. by apply Lo.
    + intros x Hx. rewrite Hi2 by lia. by apply Hi.
  - destruct k as [ | k]; [lia |]. cbn. exists m1, [q]. rewrite Hctx. split; [done |]. split; [ | done]. constructor; [done | constructor].
Qed.

(** Strtok_r splits a string into its words: called until it answers
    null it returns, in order, a string for each longest run of characters that
    are not separators, all of them intact in the end, and writes nowhere
    outside the string. *)
Theorem strtok_words m a seps p s ctx :
  cstr m a seps -> cstr m p s -> apart p s a seps ->
  exists m' qs, tokens (S (S (length s))) m (Some p) a ctx = Ok (m', qs) /\ Forall2 (cstr m') qs (words seps [] s) /\
    forall x, ~ (p <= x <= p + zlen s) -> m' !! x = m !! x.
Proof.
  intros Hs Hp Hap. destruct (tokens_ok (S (S (length s))) m a seps p s) as (m' & qs & E & HF & Lo & Hi); [lia | done | done | done |].
  exists m', qs. split; [done |]. split; [done |]. intros x Hx. destruct (Z_lt_ge_dec x p); [by apply Lo | apply Hi; lia].
Qed.

(** ** Numbers *)

(** The value of decimal digits, the most significant first. *)
Definition decimal_value (ds : list Z) : Z := fold_left (fun v b => v * 10 + (b - 48)) ds 0.

Lemma decimal_index b : 48 <= b <= 57 -> index_in decimal_digits b = Some (b - 48).
Proof.
  intros Hb. refine (seqZ_all (fun b => index_in decimal_digits b = Some (b - 48)) 48 10 _ b ltac:(lia)). repeat constructor.
Qed.

Lemma atoi_digits_ok k m s v ds :
  (length ds < k)%nat -> cstr m s ds -> Forall (fun b => 48 <= b <= 57) ds ->
  atoi_digits k m s (u32 v) = Ok (u32 (fold_left (fun v b => v * 10 + (b - 48)) ds v)).
Proof.
  revert s v ds. induction k as [ | k IH]; intros s v ds Hk Hs HF; [lia |]. cbn [atoi_digits]. unfold load. destruct ds as [ | b ds].
  - apply cstr_nil in Hs. by rewrite Hs.
  - apply cstr_cons in Hs as (Hb & Hr & Hs). apply Forall_cons in HF as [Hd HF]. rewrite Hb. cbn [access rbind fold_left].
    destruct (Z.eqb_spec b 0); [lia |]. rewrite decimal_index by done. cbn in Hk. rewrite <- (IH (s + 1)) by (done || lia). f_equal.
    unfold u32. rewrite <- Z.add_mod_idemp_l, Z.mul_mod_idemp_l, Z.add_mod_idemp_l by lia. done.
Qed.

Lemma atoi_ok m s white sign ds :
  cstr m s (white ++ sign ++ ds) -> Forall (fun b => b = 32 \/ b = 9) white -> sign ∈ [[]; [43]; [45]] ->
  Forall (fun b => 48 <= b <= 57) ds ->
  atoi m s = Ok (s32 (if decide (sign = [45]) then - decimal_value ds else decimal_value ds)).
Proof.
  intros Hs Hw Hsg Hd.
  assert (G : forall k s white, (length white < k)%nat -> cstr m s (white ++ sign ++ ds) -> Forall (fun b => b = 32 \/ b = 9) white ->
            skip_white k m s = Ok (s + zlen white)).
  { clear - Hsg Hd. induction k as [ | k IH]; intros s white Hk Hs Hw; [lia |]. cbn [skip_white]. unfold load. destruct white as [ | b white].
    - change (zlen []) with 0. rewrite Z.add_0_r. cbn [app] in Hs.
      assert (exists b, m !! s = Some b /\ b <> 32 /\ b <> 9) as (b & -> & N1 & N2).
      { apply elem_of_cons in Hsg as [-> | Hsg]; cbn [app] in Hs.
        - destruct ds as [ | d ds]; [apply cstr_nil in Hs; by exists 0 |]. apply cstr_cons in Hs as (Hb & _). apply Forall_cons in Hd as [Hd _].
          exists d. split; [done | lia].
        - apply elem_of_cons in Hsg as [-> | Hsg%list_elem_of_singleton]; [ | subst sign]; cbn [app] in Hs; apply cstr_cons in Hs as (Hb & _); by eexists. }
      cbn [access rbind]. destruct (Z.eqb_spec b 32), (Z.eqb_spec b 9); done.
    - cbn [app] in Hs. apply cstr_cons in Hs as (Hb & _ & Hs). apply Forall_cons in Hw as [Hwb Hw]. rewrite Hb. cbn [access rbind].
      replace ((b =? 32) || (b =? 9)) with true by (destruct Hwb as [-> | ->]; done).
      rewrite (IH (s + 1) white) by (cbn in Hk; done || lia). unfold zlen. cbn [length]. f_equal. lia. }
  assert (Hk : (length (white ++ sign ++ ds) < steps m)%nat) by by eapply cstr_size. rewrite !length_app in Hk.
  unfold atoi. rewrite (G (steps m) s white) by (done || lia). cbn [rbind]. apply cstr_app in Hs.
  assert (R : forall k p, (length ds < k)%nat -> cstr m p ds -> atoi_digits k m p 0 = Ok (u32 (decimal_value ds))).
  { intros k p Hkd Hp. change 0 with (u32 0) at 1. by apply atoi_digits_ok. }
  assert (W : forall v, s32 (u32 v) = s32 v /\ s32 (u32 (- u32 v)) = s32 (- v)).
  { intros v. unfold s32, u32. split; [by rewrite Z.add_mod_idemp_l by lia |]. rewrite Z.add_mod_idemp_l by lia. f_equal.
    rewrite <- (Z.sub_0_l (v mod _)), <- (Z.add_mod_idemp_l (0 - _)), Zminus_mod_idemp_r, Z.add_mod_idemp_l by lia. f_equal. }
  apply elem_of_cons in Hsg as [-> | Hsg]; [ | apply elem_of_cons in Hsg as [-> | Hsg%list_elem_of_singleton]; [ | subst sign]]; cbn [app] in Hs.
  - rewrite decide_False by done. assert (exists b, m !! (s + zlen white) = Some b /\ b <> 45 /\ b <> 43) as (b & Hb & N1 & N2).
    { destruct ds as [ | d ds]; [apply cstr_nil in Hs; by exists 0 |]. apply cstr_cons in Hs as (Hb & _). apply Forall_cons in Hd as [Hd _].
      exists d. split; [done | lia]. }
    unfold load. rewrite Hb. cbn [access rbind]. destruct (Z.eqb_spec b 45), (Z.eqb_spec b 43); try done.
    rewrite R by (done || lia). cbn [rbind]. by rewrite (proj1 (W _)).
  - rewrite decide_False by done. apply cstr_cons in Hs as (Hb & _ & Hs). unfold load. rewrite Hb. cbn [access rbind Z.eqb Pos.eqb].
    rewrite R by (cbn in Hk; done || lia). cbn [rbind]. by rewrite (proj1 (W _)).
  - rewrite decide_True by done. apply cstr_cons in Hs as (Hb & _ & Hs). unfold load. rewrite Hb. cbn [access rbind Z.eqb Pos.eqb].
    rewrite R by (cbn in Hk; done || lia). cbn [rbind]. by rewrite (proj2 (W _)).
Qed.

(** Atoi reads a decimal number, with white space in front and a sign or
    none, to its value in the arithmetic of 32-bit integers. *)
Theorem atoi_value m s white sign ds :
  cstr m s (white ++ sign ++ ds) -> Forall (fun b => b = 32 \/ b = 9) white -> sign ∈ [[]; [43]; [45]] ->
  Forall (fun b => 48 <= b <= 57) ds ->
  atoi m s = Ok (s32 (if decide (sign = [45]) then - decimal_value ds else decimal_value ds)).
Proof. apply atoi_ok. Qed.

(** strrchr finds the last place of a character, the terminator included. *)
Lemma strrchr_ok m a s ch :
  cstr m a s -> exists r, strrchr m a ch = Ok r /\
    match r with
    | None => u8 ch ∉ s ++ [0]
    | Some p => exists i, p = a + Z.of_nat i /\ (s ++ [0]) !! i = Some (u8 ch) /\
                  forall j, (i < j)%nat -> (s ++ [0]) !! j <> Some (u8 ch)
    end.
Proof.
  intros H. unfold strrchr. rewrite (strlen_ok _ _ _ H). cbn [rbind]. generalize (u8 ch). intros c.
  destruct H as [H _]. set (l := s ++ [0]) in *.
  assert (Hl : length l = Z.to_nat (zlen s + 1)) by (unfold l, zlen; rewrite length_app; cbn; lia). rewrite <- Hl.
  assert (G : forall k, (k <= length l)%nat -> (forall j, (k <= j)%nat -> l !! j <> Some c) -> exists r, strrchr_from k m a c = Ok r /\
    match r with
    | None => c ∉ l
    | Some p => exists i, p = a + Z.of_nat i /\ l !! i = Some c /\ forall j, (i < j)%nat -> l !! j <> Some c
    end).
  { induction k as [ | k IH]; intros Hk Hno; cbn [strrchr_from].
    - exists None. split; [done |]. intros [j Hj]%list_elem_of_lookup. by apply (Hno j); [lia |].
    - destruct (lookup_lt_is_Some_2 l k) as [b Hb]; [lia |]. unfold load. rewrite (H _ _ Hb). cbn [access rbind].
      destruct (Z.eqb_spec b c) as [-> | N]; [by exists (Some (a + Z.of_nat k)); split; [done |]; exists k |].
      apply IH; [lia |]. intros j Hj. destruct (decide (j = k)) as [-> | ]; [congruence | apply Hno; lia]. }
  apply G; [done |]. intros j Hj. by rewrite lookup_ge_None_2.
Qed.

(** ** Witnesses *)

(** Sixteen bytes at 100, the string "ab c" at 200, "b c" behind it, and the
    separators at 300. *)
Definition demo_mem : memory :=
  write (write (write (write ∅ 100 (seqZ 1 16)) 200 [97; 98; 32; 99; 0]) 220 [32; 45; 52; 50; 0])
    300 [32; 0].

Ltac cells :=
  let i := fresh in let b := fresh in let H := fresh in
  intros i b H; repeat (destruct i as [ | i]; [injection H as <-; vm_compute; reflexivity |]); discriminate H.

Lemma memmove_moves_witness :
  holds demo_mem 100 [1; 2; 3; 4; 5; 6; 7; 8] /\ memmove demo_mem 104 100 8 = Ok (write demo_mem 104 [1; 2; 3; 4; 5; 6; 7; 8]).
Proof.
  assert (H : holds demo_mem 100 [1; 2; 3; 4; 5; 6; 7; 8]) by cells. split; [exact H |].
  refine (proj1 (memmove_moves demo_mem 104 100 [1; 2; 3; 4; 5; 6; 7; 8] H _ _)).
  - refine (seqZ_all _ 0 8 _). repeat constructor; vm_compute; eexists; reflexivity.
  - repeat constructor; lia.
Defined.

Lemma bzero_is_memset_witness : bzero demo_mem 100 12 = memset demo_mem 100 0 12 /\ bzero demo_mem 101 3 = memset demo_mem 101 0 3.
Proof. split; [apply bzero_is_memset; lia | apply bzero_is_memset; lia]. Defined.

Lemma demo_string : cstr demo_mem 200 [97; 98; 32; 99].
Proof. split; [cells | repeat constructor; lia]. Defined.

Lemma demo_seps : cstr demo_mem 300 [32].
Proof. split; [cells | repeat constructor; lia]. Defined.

Lemma strcat_appends_witness : exists m', strcat (write demo_mem 205 [0; 0]) 200 300 = Ok m' /\ cstr m' 200 [97; 98; 32; 99; 32].
Proof.
  destruct (strcat_appends (write demo_mem 205 [0; 0]) 200 300 [97; 98; 32; 99] [32]) as (m' & E & H & _).
  - split; [cells | repeat constructor; lia].
  - split; [cells | repeat constructor; lia].
  - intros i Hi. change (zlen [32] + 1) with 2 in Hi. assert (i = 0 \/ i = 1) as [-> | ->] by lia; vm_compute; eexists; reflexivity.
  - vm_compute. auto.
  - exists m'. split; [exact E | exact H].
Defined.

Lemma strcmp_lexicographic_witness : strcmp demo_mem 200 300 = Ok 1.
Proof. rewrite (strcmp_lexicographic demo_mem 200 300 [97; 98; 32; 99] [32] demo_string demo_seps). reflexivity. Defined.

Lemma strtok_words_witness :
  exists m' qs, tokens 6 demo_mem (Some 200) 300 None = Ok (m', qs) /\ Forall2 (cstr m') qs [[97; 98]; [99]].
Proof.
  destruct (strtok_words demo_mem 300 [32] 200 [97; 98; 32; 99] None demo_seps demo_string) as (m' & qs & E & H & _).
  - left. vm_compute. reflexivity.
  - exists m', qs. split; [exact E |]. exact H.
Defined.

Lemma atoi_value_witness : atoi demo_mem 220 = Ok (-42).
Proof.
  rewrite (atoi_value demo_mem 220 [32] [45] [52; 50]); [reflexivity | | | |].
  - split; [cells | repeat constructor; lia].
  - repeat constructor.
  - right. right. left.
  - repeat constructor; lia.
Defined.
