(* ===== verification/Printf.v ===== *)
(** Formatted printing of common/libc/printf: __vprintf of __printf.c for any
    client, and snprintf.c as one client.

    A format is the list of its characters, without the terminator.  The
    arguments are what the callers pushed: numbers, of which va_arg takes as
    many bits as the type it is asked for has, and strings, null pointers among
    them.  Asking for an argument that is not there, or of another kind, is a
    fault.  [int] arithmetic wraps, as on the machine. *)
From S2P Require Import Prelude CString.

(** ** The state of one printf *)

Inductive arg := Num (n : Z) | Str (s : option (list Z)).

Inductive intsize := INTSZ | LONGSZ | LLONGSZ | SIZETSZ.

#[global] Instance intsize_eq_dec : EqDecision intsize.
Proof. solve_decision. Defined.

Definition NUMBER_BUF_SIZE := 8 * 8 / 3 + 2.

(** [clientdata]: the data of the callback. *)
Record PF (C : Type) := mkPF {
  clientdata : C;
  ap : list arg;
  charcount : Z;
  in_pct : bool;
  pf_size : intsize;
  num : Z;
  sign : Z;
  spacing : Z;
  rightspc : bool;
  fillchar : Z;
  base : Z;
  baseprefix : bool;
  altformat : bool
}.
Arguments mkPF {C}.
Arguments clientdata {C}.
Arguments ap {C}.
Arguments charcount {C}.
Arguments in_pct {C}.
Arguments pf_size {C}.
Arguments num {C}.
Arguments sign {C}.
Arguments spacing {C}.
Arguments rightspc {C}.
Arguments fillchar {C}.
Arguments base {C}.
Arguments baseprefix {C}.
Arguments altformat {C}.

(** "0123456789abcdef" *)
Definition digit_chars : list Z := seqZ 48 10 ++ seqZ 97 6.
(** "#-lz0123456789" and "doupx" *)
Definition modifier_chars : list Z := [35; 45; 108; 122] ++ seqZ 48 10.
Definition type_chars : list Z := [100; 111; 117; 112; 120].
Definition null_text : list Z := [40; 110; 117; 108; 108; 41].

(** The text of a number, right to left in the buffer: [x] is the next slot to
    use. *)
Fixpoint digit_loop (k : nat) (buf : list Z) (x xnum b : Z) : res (list Z * Z) :=
  match k with
  | O => Fault OutOfFuel
  | S k =>
    let* d := access (zget digit_chars (xnum mod b)) in
    let* buf := access (zput buf x d) in
    let x := x - 1 in
    let xnum := xnum / b in
    if 0 <? xnum then digit_loop k buf x xnum b else Ok (buf, x)
  end.

(** The string at the head of a buffer. *)
Fixpoint until_nul (l : list Z) : res (list Z) :=
  match l with
  | [] => Fault BadAccess
  | b :: l => if b =? 0 then Ok [] else let* s := until_nul l in Ok (b :: s)
  end.

(** A 64-bit number has at most 64 digits in any base. *)
Definition number_text (n b : Z) : res (list Z) :=
  let buf := repeat 170 (Z.to_nat NUMBER_BUF_SIZE) in
  let x := NUMBER_BUF_SIZE - 1 in
  let* buf := access (zput buf x 0) in
  let* (buf, x) := digit_loop 65 buf (x - 1) n b in
  until_nul (drop (Z.to_nat (x + 1)) buf).

Section Client.
Context {C : Type} (sendfunc : C -> list Z -> res C).
Implicit Types pf : PF C.

Definition pf_print pf (txt : list Z) : res (PF C) :=
  let* c := sendfunc (clientdata pf) txt in
  Ok (mkPF c (ap pf) (s32 (charcount pf + zlen txt)) (in_pct pf) (pf_size pf) (num pf) (sign pf) (spacing pf) (rightspc pf)
        (fillchar pf) (base pf) (baseprefix pf) (altformat pf)).

Definition pf_endfield pf : PF C :=
  mkPF (clientdata pf) (ap pf) (charcount pf) false INTSZ 0 0 0 false 32 0 false false.

Definition set_spacing pf (n : Z) : PF C :=
  mkPF (clientdata pf) (ap pf) (charcount pf) (in_pct pf) (pf_size pf) (num pf) (sign pf) n (rightspc pf)
    (fillchar pf) (base pf) (baseprefix pf) (altformat pf).
Definition set_size pf (z : intsize) : PF C :=
  mkPF (clientdata pf) (ap pf) (charcount pf) (in_pct pf) z (num pf) (sign pf) (spacing pf) (rightspc pf)
    (fillchar pf) (base pf) (baseprefix pf) (altformat pf).
Definition set_num pf (l : list arg) (n sg : Z) : PF C :=
  mkPF (clientdata pf) l (charcount pf) (in_pct pf) (pf_size pf) n sg (spacing pf) (rightspc pf)
    (fillchar pf) (base pf) (baseprefix pf) (altformat pf).

Definition pf_modifier pf (ch : Z) : res (PF C) :=
  if ch =? 35 then
    Ok (mkPF (clientdata pf) (ap pf) (charcount pf) (in_pct pf) (pf_size pf) (num pf) (sign pf) (spacing pf) (rightspc pf)
          (fillchar pf) (base pf) (baseprefix pf) true)
  else if ch =? 45 then
    Ok (mkPF (clientdata pf) (ap pf) (charcount pf) (in_pct pf) (pf_size pf) (num pf) (sign pf) (spacing pf) true
          (fillchar pf) (base pf) (baseprefix pf) (altformat pf))
  else if ch =? 108 then Ok (set_size pf (if decide (pf_size pf = LONGSZ) then LLONGSZ else LONGSZ))
  else if ch =? 122 then Ok (set_size pf SIZETSZ)
  else if ch =? 48 then
    if 0 <? spacing pf then Ok (set_spacing pf (s32 (spacing pf * 10)))
    else Ok (mkPF (clientdata pf) (ap pf) (charcount pf) (in_pct pf) (pf_size pf) (num pf) (sign pf) (spacing pf) (rightspc pf)
               48 (base pf) (baseprefix pf) (altformat pf))
  else kassert ((48 <? ch) && (ch <=? 57)) (Ok (set_spacing pf (s32 (spacing pf * 10 + (ch - 48))))).

(** The bits va_arg takes, as a signed or an unsigned number. *)
Definition va_num (l : list arg) : res (Z * list arg) :=
  match l with Num n :: l => Ok (n, l) | _ => Fault BadAccess end.

Definition va_str (l : list arg) : res (option (list Z) * list arg) :=
  match l with Str s :: l => Ok (s, l) | _ => Fault BadAccess end.

Definition pf_getnum pf (ch : Z) : res (PF C) :=
  let* (n, l) := va_num (ap pf) in
  if ch =? 112 then Ok (set_num pf l (u32 n) (sign pf))
  else if ch =? 100 then
    let signednum := match pf_size pf with LLONGSZ => s64 n | _ => s32 n end in
    if signednum <? 0 then Ok (set_num pf l (u64 (- signednum)) (-1)) else Ok (set_num pf l signednum (sign pf))
  else Ok (set_num pf l (match pf_size pf with LLONGSZ => u64 n | _ => u32 n end) (sign pf)).

Definition pf_setbase pf (ch : Z) : PF C :=
  let b := if (ch =? 100) || (ch =? 117) then 10 else if (ch =? 120) || (ch =? 112) then 16 else if ch =? 111 then 8 else base pf in
  let prefix := if altformat pf || (ch =? 112) then true else baseprefix pf in
  mkPF (clientdata pf) (ap pf) (charcount pf) (in_pct pf) (pf_size pf) (num pf) (sign pf) (spacing pf) (rightspc pf)
    (fillchar pf) b prefix (altformat pf).

Fixpoint pf_fill_loop (k : nat) pf : res (PF C) :=
  match k with
  | O => Ok pf
  | S k => let* pf := pf_print pf [u8 (fillchar pf)] in pf_fill_loop k pf
  end.

Definition pf_fill pf (spc : Z) : res (PF C) := pf_fill_loop (Z.to_nat spc) pf.

Definition pf_printstuff pf (prefix prefix2 stuff : list Z) : res (PF C) :=
  let len := s32 (zlen prefix + zlen prefix2 + zlen stuff) in
  let spc := spacing pf in
  let spc := if len <? spc then spc - len else 0 in
  let right := rightspc pf in
  let fill := fillchar pf in
  let* pf := if (0 <? spc) && negb right && negb (fill =? 48) then pf_fill pf spc else Ok pf in
  let* pf := pf_print pf prefix in
  let* pf := pf_print pf prefix2 in
  let* pf := if (0 <? spc) && negb right && (fill =? 48) then pf_fill pf spc else Ok pf in
  let* pf := pf_print pf stuff in
  if (0 <? spc) && right then pf_fill pf spc else Ok pf.

Definition pf_printnum pf : res (PF C) :=
  let* text := number_text (num pf) (base pf) in
  let bprefix := if baseprefix pf && (base pf =? 16) then [48; 120] else if baseprefix pf && (base pf =? 8) then [48] else [] in
  let sprefix := if negb (sign pf =? 0) then [45] else [] in
  pf_printstuff pf sprefix bprefix text.

Definition start_pct pf : PF C :=
  mkPF (clientdata pf) (ap pf) (charcount pf) true (pf_size pf) (num pf) (sign pf) (spacing pf) (rightspc pf)
    (fillchar pf) (base pf) (baseprefix pf) (altformat pf).
Definition set_ap pf (l : list arg) : PF C :=
  mkPF (clientdata pf) l (charcount pf) (in_pct pf) (pf_size pf) (num pf) (sign pf) (spacing pf) (rightspc pf)
    (fillchar pf) (base pf) (baseprefix pf) (altformat pf).

Definition pf_send pf (ch : Z) : res (PF C) :=
  kassert (negb (ch =? 0)) (
  if negb (in_pct pf) && negb (ch =? 37) then pf_print pf [u8 ch]
  else if negb (in_pct pf) then Ok (start_pct pf)
  else if bool_decide (is_Some (index_in modifier_chars ch)) then pf_modifier pf ch
  else if bool_decide (is_Some (index_in type_chars ch)) then
    let* pf := pf_getnum pf ch in
    let* pf := pf_printnum (pf_setbase pf ch) in
    Ok (pf_endfield pf)
  else if ch =? 115 then
    let* (s, l) := va_str (ap pf) in
    let* pf := pf_printstuff (set_ap pf l) [] [] (match s with None => null_text | Some s => s end) in
    Ok (pf_endfield pf)
  else
    let* (x, l) := if ch =? 99 then let* (n, l) := va_num (ap pf) in Ok (u8 n, l) else Ok (u8 ch, ap pf) in
    let* pf := pf_printstuff (set_ap pf l) [] [] (if x =? 0 then [] else [x]) in
    Ok (pf_endfield pf)).

Fixpoint pf_sends pf (format : list Z) : res (PF C) :=
  match format with
  | [] => Ok pf
  | ch :: format => let* pf := pf_send pf ch in pf_sends pf format
  end.

Definition pf_start (c : C) (args : list arg) : PF C :=
  pf_endfield (mkPF c args 0 false INTSZ 0 0 0 false 32 0 false false).

(** The client's data afterwards and the number of characters. *)
Definition vprintf (c : C) (format : list Z) (args : list arg) : res (C * Z) :=
  let* pf := pf_sends (pf_start c args) format in
  Ok (clientdata pf, charcount pf).
End Client.

(** ** Printing into a buffer *)

Record SNP := mkSNP { buf : list Z; buflen : Z; bufpos : Z }.

Fixpoint snprintf_send (snp : SNP) (data : list Z) : res SNP :=
  match data with
  | [] => Ok snp
  | d :: data =>
    let* snp :=
      if bufpos snp <? buflen snp then
        let* b := access (zput (buf snp) (bufpos snp) d) in
        Ok (mkSNP b (buflen snp) (bufpos snp + 1))
      else Ok snp in
    snprintf_send snp data
  end.

(** [b]: the memory behind the pointer. *)
Definition vsnprintf (b : list Z) (len : Z) (format : list Z) (args : list arg) : res (list Z * Z) :=
  let snp := mkSNP b (if len =? 0 then 0 else len - 1) 0 in
  let* (snp, chars) := vprintf snprintf_send snp format args in
  if 0 <? len then let* b := access (zput (buf snp) (bufpos snp) 0) in Ok (b, chars) else Ok (buf snp, chars).

Definition snprintf := vsnprintf.

(** * The text of a number *)

(** The value of digits in base [b], the most significant first. *)
Definition digit_value (d : Z) : Z := default 0 (index_in digit_chars d).
Definition value (b : Z) (ds : list Z) : Z := fold_left (fun v d => v * b + digit_value d) ds 0.

Lemma digit_char n : 0 <= n < 16 -> exists d, zget digit_chars n = Some d /\ digit_value d = n /\ 48 <= d < 2 ^ 8 /\
  (d = 48 -> n = 0) /\ (n < 10 -> d = 48 + n).
Proof.
  revert n. refine (seqZ_all _ 0 16 _). repeat constructor; (eexists; split; [reflexivity | split; [reflexivity | lia]]).
Qed.

Lemma value_snoc b ds d : value b (ds ++ [d]) = value b ds * b + digit_value d.
Proof. unfold value. by rewrite fold_left_app. Qed.

Lemma zput_middle (l1 l2 : list Z) x d i : i = zlen l1 -> zput (l1 ++ x :: l2) i d = Some (l1 ++ d :: l2).
Proof.
  intros ->. apply zput_Some. unfold zlen. rewrite length_app, Nat2Z.id. cbn [length]. split; [lia |].
  by rewrite insert_app_r_alt, Nat.sub_diag by lia.
Qed.

(** What the digits of [n] in base [b] are. *)
Record text_of (n b : Z) (ds : list Z) : Prop := {
  tx_value : value b ds = n;
  tx_chars : Forall (fun d => 48 <= d < 2 ^ 8) ds;
  tx_short : forall j, 0 < j -> n < b ^ j -> zlen ds <= j;
  tx_nonempty : ds <> [];
  tx_lead : head ds = Some 48 -> n = 0;
  tx_decimal : b <= 10 -> Forall (fun d => d <= 57) ds
}.

Lemma digit_loop_ok k pre suf n b :
  2 <= b <= 16 -> 0 <= n < b ^ zlen pre -> 0 < zlen pre -> (length pre <= k)%nat ->
  exists pre' ds, digit_loop k (pre ++ suf) (zlen pre - 1) n b = Ok (pre' ++ ds ++ suf, zlen pre' - 1) /\ text_of n b ds.
Proof.
  intros Hb. revert pre suf n. induction k as [ | k IH]; intros pre suf n Hn Hp Hk; [unfold zlen in Hp; lia |].
  destruct pre as [ | x pre _] using rev_ind; [unfold zlen in Hp; cbn in Hp; lia |].
  assert (Hz : zlen (pre ++ [x]) = zlen pre + 1) by (unfold zlen; rewrite length_app; cbn; lia). rewrite Hz in *.
  assert (Hp0 : 0 <= zlen pre) by (unfold zlen; lia).
  destruct (digit_char (n mod b)) as (d & Hd & Hv & Hr & Hz0 & Hdec); [pose proof (Z.mod_pos_bound n b); lia |].
  cbn [digit_loop]. rewrite Hd. cbn [access rbind].
  replace ((pre ++ [x]) ++ suf) with (pre ++ x :: suf) by by rewrite <- app_assoc.
  rewrite (zput_middle pre suf x d) by lia. cbn [access rbind]. rewrite Z.add_simpl_r.
  pose proof (Z_div_mod_eq_full n b) as Hdm. pose proof (Z.mod_pos_bound n b).
  assert (Hn0 : 0 <= n / b) by (apply Z.div_pos; lia).
  destruct (Z.ltb_spec 0 (n / b)) as [Hgo | Hstop].
  - assert (Hlt : n / b < b ^ zlen pre) by (apply Z.div_lt_upper_bound; [lia |]; rewrite Z.pow_add_r, Z.pow_1_r in Hn by lia; lia).
    assert (Hp1 : 0 < zlen pre) by (destruct (Z.eq_dec (zlen pre) 0) as [E | ]; [rewrite E, Z.pow_0_r in Hlt; lia | lia]).
    rewrite length_app in Hk. cbn in Hk.
    destruct (IH pre (d :: suf) (n / b)) as (pre' & ds & E & [T1 T2 T3 T4 T5 T6]); [lia | done | lia |].
    exists pre', (ds ++ [d]). rewrite E. replace ((ds ++ [d]) ++ suf) with (ds ++ d :: suf) by by rewrite <- app_assoc.
    split; [done |]. split.
    + rewrite value_snoc, T1, Hv. lia.
    + apply Forall_app. split; [done |]. by apply Forall_singleton.
    + intros j Hj Hnj. unfold zlen in *. rewrite length_app. cbn. destruct (Z.eq_dec j 1) as [-> | Hj1].
      * rewrite Z.pow_1_r in Hnj. rewrite Z.div_small in Hgo by lia. lia.
      * assert (Z.of_nat (length ds) <= j - 1); [ | lia]. apply T3; [lia |]. apply Z.div_lt_upper_bound; [lia |].
        replace j with (1 + (j - 1)) in Hnj by lia. rewrite Z.pow_add_r, Z.pow_1_r in Hnj by lia. lia.
    + by destruct ds.
    + destruct ds as [ | d0 ds]; [done |]. cbn. intros E0. apply T5 in E0. lia.
    + intros Hb10. apply Forall_app. split; [by apply T6 |]. apply Forall_singleton. rewrite Hdec by lia. lia.
  - exists pre, [d]. cbn. split; [done |]. assert (n / b = 0) as Hq by lia. split.
    + unfold value. cbn [fold_left]. rewrite Hv. lia.
    + by apply Forall_singleton.
    + intros j Hj _. unfold zlen. cbn. lia.
    + done.
    + intros [= ->]. specialize (Hz0 eq_refl). lia.
    + intros Hb10. apply Forall_singleton. rewrite Hdec by lia. lia.
Qed.

Lemma until_nul_ok ds l : Forall (fun d => 48 <= d < 2 ^ 8) ds -> until_nul (ds ++ 0 :: l) = Ok ds.
Proof. induction 1 as [ | d ds Hd _ IH]; [done |]. cbn. destruct (Z.eqb_spec d 0); [lia |]. by rewrite IH. Qed.

Lemma number_text_ok n b :
  is_u64 n -> b = 8 \/ b = 10 \/ b = 16 -> exists ds, number_text n b = Ok ds /\ text_of n b ds /\ zlen ds < NUMBER_BUF_SIZE.
Proof.
  intros Hn Hb. unfold number_text. change (Z.to_nat NUMBER_BUF_SIZE) with 23%nat. change (NUMBER_BUF_SIZE - 1) with 22.
  change (zput (repeat 170 23) 22 0) with (Some (repeat 170 22 ++ [0])). cbn [access rbind].
  assert (Hn' : 0 <= n < b ^ 22) by (unfold is_u64 in Hn; destruct Hb as [-> | [-> | ->]]; split; try lia;
    (eapply Z.lt_le_trans; [apply Hn |]; vm_compute; discriminate)).
  destruct (digit_loop_ok 65 (repeat 170 22) [0] n b) as (pre & ds & E & Ht).
  - destruct Hb as [-> | [-> | ->]]; lia.
  - exact Hn'.
  - vm_compute. reflexivity.
  - cbn. lia.
  - change (zlen (repeat 170 22) - 1) with (22 - 1) in E. rewrite E. cbn [rbind]. exists ds.
    replace (Z.to_nat (zlen pre - 1 + 1)) with (length pre) by (unfold zlen; lia). rewrite drop_app_length.
    rewrite until_nul_ok by apply Ht. split; [done |]. split; [done |]. pose proof (tx_short _ _ _ Ht 22).
    change NUMBER_BUF_SIZE with 23. lia.
Qed.

(** C36: the buffer of 23 bytes is large enough for every 64-bit number in
    every base printf knows: the loop stays inside it, and leaves the digits of
    the number, at least one, without leading zeros. *)
Theorem number_text_fits n b :
  is_u64 n -> b = 8 \/ b = 10 \/ b = 16 -> exists ds, number_text n b = Ok ds /\ text_of n b ds /\ zlen ds < NUMBER_BUF_SIZE.
Proof. apply number_text_ok. Qed.

(** * One printf with two clients *)

Section Clients.
Context {C D : Type} (send1 : C -> list Z -> res C) (send2 : D -> list Z -> res D).
(** [R c n d]: the data of the clients after [n] characters. *)
Context (R : C -> Z -> D -> Prop).
Hypothesis send_ok : forall c n d txt c',
  R c n d -> send1 c txt = Ok c' -> exists d', send2 d txt = Ok d' /\ R c' (s32 (n + zlen txt)) d'.

Definition with_client (pf : PF C) (d : D) : PF D :=
  mkPF d (ap pf) (charcount pf) (in_pct pf) (pf_size pf) (num pf) (sign pf) (spacing pf) (rightspc pf)
    (fillchar pf) (base pf) (baseprefix pf) (altformat pf).

(** A step with the first client is matched by one with the second. *)
Definition matched (f1 : PF C -> res (PF C)) (f2 : PF D -> res (PF D)) : Prop :=
  forall pf pf' d, f1 pf = Ok pf' -> R (clientdata pf) (charcount pf) d ->
    exists d', f2 (with_client pf d) = Ok (with_client pf' d') /\ R (clientdata pf') (charcount pf') d'.

Lemma matched_bind f1 g1 f2 g2 :
  matched f1 f2 -> matched g1 g2 -> matched (fun pf => let* pf := f1 pf in g1 pf) (fun pf => let* pf := f2 pf in g2 pf).
Proof.
  intros Hf Hg pf pf' d H HR. apply rbind_Ok in H as (pf1 & H1 & H). destruct (Hf _ _ _ H1 HR) as (d1 & E1 & HR1).
  destruct (Hg _ _ _ H HR1) as (d2 & E2 & HR2). exists d2. by rewrite E1.
Qed.

Lemma matched_ok (g1 : PF C -> PF C) (g2 : PF D -> PF D) :
  (forall pf d, g2 (with_client pf d) = with_client (g1 pf) d) ->
  (forall pf, clientdata (g1 pf) = clientdata pf /\ charcount (g1 pf) = charcount pf) ->
  matched (fun pf => Ok (g1 pf)) (fun pf => Ok (g2 pf)).
Proof. intros Hg Hc pf pf' d [= <-] HR. exists d. rewrite Hg. destruct (Hc pf) as [-> ->]. done. Qed.

Lemma print_matched txt : matched (fun pf => pf_print send1 pf txt) (fun pf => pf_print send2 pf txt).
Proof.
  intros pf pf' d H HR. unfold pf_print in H. apply rbind_Ok in H as (c' & H & [= <-]).
  destruct (send_ok _ _ _ _ _ HR H) as (d' & E & HR'). exists d'. unfold pf_print. cbn. by rewrite E.
Qed.

Lemma fill_loop_matched k : matched (fun pf => pf_fill_loop send1 k pf) (fun pf => pf_fill_loop send2 k pf).
Proof.
  induction k as [ | k IH]; [by intros pf pf' d [= <-] HR; exists d |].
  intros pf pf' d H HR. cbn [pf_fill_loop] in *.
  apply (matched_bind _ _ _ _ (print_matched [u8 (fillchar pf)]) IH pf pf' d H HR).
Qed.

(** A step that is taken or not. *)
Lemma matched_if (b : bool) f1 f2 : matched f1 f2 -> matched (fun pf => if b then f1 pf else Ok pf) (fun pf => if b then f2 pf else Ok pf).
Proof. intros Hf. destruct b; [done |]. by apply (matched_ok id id). Qed.

Lemma fill_matched n : matched (fun pf => pf_fill send1 pf n) (fun pf => pf_fill send2 pf n).
Proof. apply fill_loop_matched. Qed.

Lemma printstuff_matched a b s : matched (fun pf => pf_printstuff send1 pf a b s) (fun pf => pf_printstuff send2 pf a b s).
Proof.
  intros pf pf' d H HR. unfold pf_printstuff in *. cbn [spacing rightspc fillchar with_client].
  set (spc := if _ <? _ then _ else _) in *. set (right := rightspc pf) in *. set (fill := fillchar pf) in *.
  revert H HR. clearbody spc right fill. revert pf pf' d.
  change (matched
    (fun pf => let* pf := (if (0 <? spc) && negb right && negb (fill =? 48) then pf_fill send1 pf spc else Ok pf) in
      let* pf := pf_print send1 pf a in let* pf := pf_print send1 pf b in
      let* pf := (if (0 <? spc) && negb right && (fill =? 48) then pf_fill send1 pf spc else Ok pf) in
      let* pf := pf_print send1 pf s in if (0 <? spc) && right then pf_fill send1 pf spc else Ok pf)
    (fun pf => let* pf := (if (0 <? spc) && negb right && negb (fill =? 48) then pf_fill send2 pf spc else Ok pf) in
      let* pf := pf_print send2 pf a in let* pf := pf_print send2 pf b in
      let* pf := (if (0 <? spc) && negb right && (fill =? 48) then pf_fill send2 pf spc else Ok pf) in
      let* pf := pf_print send2 pf s in if (0 <? spc) && right then pf_fill send2 pf spc else Ok pf)).
  repeat (apply matched_bind; [first [apply print_matched | apply matched_if, fill_matched] |]). apply matched_if, fill_matched.
Qed.

Lemma printnum_matched : matched (pf_printnum send1) (pf_printnum send2).
Proof.
  intros pf pf' d H HR. unfold pf_printnum in *. cbn [num base baseprefix sign with_client].
  destruct (number_text (num pf) (base pf)) as [text | ]; [ | done]. cbn [rbind] in *. by apply printstuff_matched with (pf := pf).
Qed.

Lemma endfield_matched : matched (fun pf => Ok (pf_endfield pf)) (fun pf => Ok (pf_endfield pf)).
Proof. by apply matched_ok. Qed.

Lemma modifier_matched ch : matched (fun pf => pf_modifier pf ch) (fun pf => pf_modifier pf ch).
Proof.
  intros pf pf' d H HR. exists d. unfold pf_modifier in *. cbn [spacing pf_size with_client].
  repeat case_match; try discriminate; unfold kassert in *; repeat case_match; simplify_eq; done.
Qed.

Lemma getnum_matched ch : matched (fun pf => pf_getnum pf ch) (fun pf => pf_getnum pf ch).
Proof.
  intros pf pf' d H HR. exists d. unfold pf_getnum in *. cbn [ap pf_size with_client]. apply rbind_Ok in H as ([n l] & -> & H). cbn [rbind].
  repeat case_match; simplify_eq; done.
Qed.

Lemma field_matched ch :
  matched (fun pf => let* pf := pf_getnum pf ch in let* pf := pf_printnum send1 (pf_setbase pf ch) in Ok (pf_endfield pf))
    (fun pf => let* pf := pf_getnum pf ch in let* pf := pf_printnum send2 (pf_setbase pf ch) in Ok (pf_endfield pf)).
Proof.
  apply (matched_bind (fun pf => pf_getnum pf ch) _ (fun pf => pf_getnum pf ch)); [apply getnum_matched |].
  apply (matched_bind (fun pf => pf_printnum send1 (pf_setbase pf ch)) _ (fun pf => pf_printnum send2 (pf_setbase pf ch)));
    [ | apply endfield_matched].
  intros pf pf' d H HR. by apply printnum_matched with (pf := pf_setbase pf ch).
Qed.

Lemma pf_send_matched ch : matched (fun pf => pf_send send1 pf ch) (fun pf => pf_send send2 pf ch).
Proof.
  intros pf pf' d H HR. unfold pf_send in *. cbn [in_pct with_client]. apply kassert_Ok in H as [-> H]. cbn [kassert].
  destruct (negb (in_pct pf) && negb (ch =? 37)); [by apply print_matched with (pf := pf) |].
  destruct (negb (in_pct pf)); [by injection H as <-; exists d |].
  destruct (bool_decide (is_Some (index_in modifier_chars ch))); [by apply modifier_matched with (pf := pf) |].
  destruct (bool_decide (is_Some (index_in type_chars ch))).
  { by apply (field_matched ch pf). }
  destruct (ch =? 115).
  - cbn [ap with_client]. apply rbind_Ok in H as ([s l] & -> & H). cbn [rbind].
    by apply (matched_bind _ _ _ _ (printstuff_matched [] [] (match s with None => null_text | Some s => s end)) endfield_matched (set_ap pf l)).
  - cbn [ap with_client]. apply rbind_Ok in H as ([x l] & -> & H). cbn [rbind].
    by apply (matched_bind _ _ _ _ (printstuff_matched [] [] (if x =? 0 then [] else [x])) endfield_matched (set_ap pf l)).
Qed.

Lemma pf_sends_matched fmt : matched (fun pf => pf_sends send1 pf fmt) (fun pf => pf_sends send2 pf fmt).
Proof.
  induction fmt as [ | ch fmt IH]; [by intros pf pf' d [= <-] HR; exists d |].
  apply matched_bind; [apply pf_send_matched | apply IH].
Qed.

Lemma vprintf_matched c d fmt args c' n :
  R c 0 d -> vprintf send1 c fmt args = Ok (c', n) -> exists d', vprintf send2 d fmt args = Ok (d', n) /\ R c' n d'.
Proof.
  intros HR H. unfold vprintf in H. apply rbind_Ok in H as (pf & H & [= <- <-]).
  destruct (pf_sends_matched fmt _ _ d H HR) as (d' & E & HR'). exists d'. unfold vprintf.
  change (pf_start d args) with (with_client (pf_start c args) d). by rewrite E.
Qed.
End Clients.

(** ** Printing into a buffer *)

(** The client that keeps everything it is sent. *)
Definition emit (out txt : list Z) : res (list Z) := Ok (out ++ txt).

(** The buffer [b0] after [out] has been sent to snprintf. *)
Definition kept (b0 : list Z) (L : Z) (out : list Z) (n : Z) (snp : SNP) : Prop :=
  n = s32 (zlen out) /\ buflen snp = L /\ bufpos snp = Z.min (zlen out) L /\
  buf snp = take (Z.to_nat L) out ++ drop (length (take (Z.to_nat L) out)) b0.

Lemma s32_add x y : s32 (s32 x + y) = s32 (x + y).
Proof.
  unfold s32. f_equal. replace ((x + 2 ^ 31) mod 2 ^ 32 - 2 ^ 31 + y + 2 ^ 31) with ((x + 2 ^ 31) mod 2 ^ 32 + y) by lia.
  rewrite Z.add_mod_idemp_l by lia. f_equal. lia.
Qed.

(** One character more. *)
Lemma kept_char b0 L out snp d :
  0 <= L <= zlen b0 -> kept b0 L out (s32 (zlen out)) snp ->
  exists snp', (if bufpos snp <? buflen snp then
                  let* b := access (zput (buf snp) (bufpos snp) d) in Ok (mkSNP b (buflen snp) (bufpos snp + 1))
                else Ok snp) = Ok snp' /\ kept b0 L (out ++ [d]) (s32 (zlen (out ++ [d]))) snp'.
Proof.
  intros HL (_ & Hl & Hp & Hb). assert (Hz : zlen (out ++ [d]) = zlen out + 1) by (unfold zlen; rewrite length_app; cbn; lia).
  rewrite Hl, Hp. unfold kept. rewrite Hz. unfold zlen in *. destruct (Z.ltb_spec (Z.min (Z.of_nat (length out)) L) L) as [Hlt | Hge].
  - assert (E : Z.min (Z.of_nat (length out)) L = Z.of_nat (length out)) by lia. rewrite E, Hb.
    rewrite (take_ge out) by lia. destruct (lookup_lt_is_Some_2 b0 (length out)) as [x Hx]; [lia |].
    rewrite (drop_S _ _ _ Hx), (zput_middle out _ x d) by done. cbn [access rbind].
    eexists. split; [done |]. split; [done |]. split; [done |]. split; [cbn; lia |].
    cbn [buf]. rewrite take_ge by (rewrite length_app; cbn; lia). rewrite length_app, <- app_assoc. cbn. by rewrite Nat.add_1_r.
  - exists snp. split; [done |]. split; [done |]. split; [done |]. split; [rewrite Hp; lia |].
    rewrite Hb, take_app_le by lia. done.
Qed.

Lemma snprintf_send_kept b0 L txt out n snp :
  0 <= L <= zlen b0 -> kept b0 L out n snp ->
  exists snp', snprintf_send snp txt = Ok snp' /\ kept b0 L (out ++ txt) (s32 (n + zlen txt)) snp'.
Proof.
  intros HL. revert out n snp. induction txt as [ | d txt IH]; intros out n snp Hk; cbn [snprintf_send].
  { exists snp. split; [done |]. rewrite app_nil_r. change (zlen (@nil Z)) with 0. destruct Hk as (-> & Hk). by rewrite s32_add, Z.add_0_r. }
  assert (n = s32 (zlen out)) as -> by apply Hk. destruct (kept_char b0 L out snp d HL Hk) as (snp1 & -> & Hk1). cbn [rbind].
  destruct (IH _ _ _ Hk1) as (snp2 & E2 & Hk2). exists snp2. split; [done |].
  rewrite s32_add in Hk2 |- *. rewrite <- app_assoc in Hk2. unfold zlen in *. rewrite length_app in Hk2. cbn [length app] in *.
  by replace (Z.of_nat (length out) + Z.of_nat (S (length txt))) with (Z.of_nat (length out + 1) + Z.of_nat (length txt)) by lia.
Qed.

Lemma snprintf_ok b len fmt args out n :
  0 <= len <= zlen b -> vprintf emit [] fmt args = Ok (out, n) ->
  n = s32 (zlen out) /\
  let text := take (Z.to_nat (len - 1)) out in
  snprintf b len fmt args = Ok (if len =? 0 then b else text ++ 0 :: drop (S (length text)) b, n).
Proof.
  intros Hlen H. set (L := if len =? 0 then 0 else len - 1).
  assert (HL : 0 <= L <= zlen b) by (unfold L; case_if; lia).
  assert (HLe : len <> 0 -> L = len - 1) by (intros; unfold L; case_if; lia).
  destruct (vprintf_matched emit snprintf_send (kept b L)) with (c := @nil Z) (d := mkSNP b L 0) (fmt := fmt) (args := args) (c' := out) (n := n)
    as (snp & E & Hn & Hl & Hp & Hb); [ | | done |].
  - intros c m d txt c' Hk [= <-]. by apply snprintf_send_kept.
  - unfold kept. rewrite take_nil. cbn. split; [done |]. split; [done |]. split; [unfold zlen; cbn; lia | done].
  - split; [done |]. unfold snprintf, vsnprintf. fold L. rewrite E. cbn [rbind]. destruct (Z.eqb_spec len 0) as [-> | N].
    + cbn. rewrite Hb. unfold L. cbn. by rewrite take_0.
    + destruct (Z.ltb_spec 0 len); [ | lia]. rewrite (HLe N) in *.
      set (text := take (Z.to_nat (len - 1)) out) in *.
      assert (Ht : zlen text = Z.min (zlen out) (len - 1)) by (unfold zlen, text in *; rewrite length_take; lia).
      destruct (lookup_lt_is_Some_2 b (length text)) as [x Hx]; [unfold zlen in *; lia |].
      rewrite Hb, (drop_S _ _ _ Hx), (zput_middle text _ x 0) by lia. done.
Qed.

(** C34: snprintf into a buffer of [len] bytes: for every format and every
    list of arguments for which the text is defined, it stores as much of the
    text as fits in front of a terminator, stores the terminator, leaves the
    rest of the memory alone, and returns the length of the whole text; with no
    room at all it stores nothing. *)
Theorem snprintf_truncates b len fmt args out n :
  0 <= len <= zlen b -> vprintf emit [] fmt args = Ok (out, n) ->
  n = s32 (zlen out) /\
  let text := take (Z.to_nat (len - 1)) out in
  snprintf b len fmt args = Ok (if len =? 0 then b else text ++ 0 :: drop (S (length text)) b, n).
Proof. apply snprintf_ok. Qed.

(** ** Fields *)

(** What a field of width [w] looks like: the sign and the prefix come behind
    blanks but in front of zeros. *)
Definition field (w : Z) (left : bool) (fill : Z) (a b s : list Z) : list Z :=
  let pad := repeat (u8 fill) (Z.to_nat (w - (zlen a + zlen b + zlen s))) in
  if left then a ++ b ++ s ++ pad else if fill =? 48 then a ++ b ++ pad ++ s else pad ++ a ++ b ++ s.

(** Only the text and the count change. *)
Definition printed (pf pf' : PF (list Z)) (txt : list Z) : Prop :=
  clientdata pf' = clientdata pf ++ txt /\ ap pf' = ap pf /\ spacing pf' = spacing pf /\ rightspc pf' = rightspc pf /\
  fillchar pf' = fillchar pf.

Lemma printed_trans pf1 pf2 pf3 t1 t2 : printed pf1 pf2 t1 -> printed pf2 pf3 t2 -> printed pf1 pf3 (t1 ++ t2).
Proof.
  intros (A1 & B1 & C1 & D1 & E1) (A2 & B2 & C2 & D2 & E2). unfold printed.
  rewrite A2, A1, B2, B1, C2, C1, D2, D1, E2, E1, app_assoc. done.
Qed.

Lemma print_emit pf txt : exists pf', pf_print emit pf txt = Ok pf' /\ printed pf pf' txt.
Proof. by eexists. Qed.

Lemma fill_emit pf n : exists pf', pf_fill emit pf n = Ok pf' /\ printed pf pf' (repeat (u8 (fillchar pf)) (Z.to_nat n)).
Proof.
  unfold pf_fill. generalize (Z.to_nat n). clear n. intros k. revert pf. induction k as [ | k IH]; intros pf.
  { exists pf. split; [done |]. unfold printed. by rewrite app_nil_r. }
  cbn [pf_fill_loop]. destruct (print_emit pf [u8 (fillchar pf)]) as (pf1 & -> & H1). cbn [rbind].
  destruct (IH pf1) as (pf2 & -> & H2). exists pf2. split; [done |].
  replace (fillchar pf1) with (fillchar pf) in H2 by (symmetry; apply H1). by apply (printed_trans _ _ _ _ _ H1 H2).
Qed.

(** One print, or a fill that is done only when there is something to fill. *)
Lemma print_step pf q t txt : printed pf q t -> exists q', pf_print emit q txt = Ok q' /\ printed pf q' (t ++ txt).
Proof.
  intros Hq. destruct (print_emit q txt) as (q' & -> & Hq'). exists q'. split; [done |]. by eapply printed_trans.
Qed.

Lemma fill_step pf q t spc :
  printed pf q t -> exists q', (if 0 <? spc then pf_fill emit q spc else Ok q) = Ok q' /\
    printed pf q' (t ++ repeat (u8 (fillchar pf)) (Z.to_nat spc)).
Proof.
  intros Hq. destruct (Z.ltb_spec 0 spc).
  - destruct (fill_emit q spc) as (q' & -> & Hq'). exists q'. split; [done |].
    replace (fillchar q) with (fillchar pf) in Hq' by (symmetry; apply Hq). by eapply printed_trans.
  - exists q. replace (Z.to_nat spc) with 0%nat by lia. by rewrite app_nil_r.
Qed.

Lemma printstuff_emit pf a b s :
  zlen a + zlen b + zlen s < 2 ^ 31 ->
  exists pf', pf_printstuff emit pf a b s = Ok pf' /\ printed pf pf' (field (spacing pf) (rightspc pf) (fillchar pf) a b s).
Proof.
  intros Hlen. unfold pf_printstuff, field. replace (s32 (zlen a + zlen b + zlen s)) with (zlen a + zlen b + zlen s)
    by (unfold s32, zlen in *; rewrite Z.mod_small; lia).
  set (spc := if _ <? spacing pf then _ else 0).
  replace (Z.to_nat (spacing pf - (zlen a + zlen b + zlen s))) with (Z.to_nat spc) by (unfold spc; case_if; lia).
  assert (P0 : printed pf pf []) by (unfold printed; by rewrite app_nil_r).
  destruct (rightspc pf); [ | destruct (fillchar pf =? 48)]; cbn [negb]; rewrite ?andb_true_r, ?andb_false_r; cbn [andb rbind].
  - destruct (print_step pf pf [] a P0) as (p1 & -> & P1). cbn [rbind]. destruct (print_step _ _ _ b P1) as (p2 & -> & P2). cbn [rbind].
    destruct (print_step _ _ _ s P2) as (p3 & -> & P3). cbn [rbind]. destruct (fill_step _ _ _ spc P3) as (p4 & -> & P4).
    exists p4. by rewrite <- !app_assoc in P4.
  - destruct (print_step pf pf [] a P0) as (p1 & -> & P1). cbn [rbind]. destruct (print_step _ _ _ b P1) as (p2 & -> & P2). cbn [rbind].
    destruct (fill_step _ _ _ spc P2) as (p3 & -> & P3). cbn [rbind]. destruct (print_step _ _ _ s P3) as (p4 & -> & P4).
    exists p4. by rewrite <- !app_assoc in P4.
  - destruct (fill_step pf pf [] spc P0) as (p1 & -> & P1). cbn [rbind]. destruct (print_step _ _ _ a P1) as (p2 & -> & P2). cbn [rbind].
    destruct (print_step _ _ _ b P2) as (p3 & -> & P3). cbn [rbind]. destruct (print_step _ _ _ s P3) as (p4 & -> & P4).
    exists p4. by rewrite <- !app_assoc in P4.
Qed.

(** A field of a format: with the field width, the alignment and the fill
    character of the format, pf_printstuff sends the prefixes and the text
    padded to the width, and never less than all of the text. *)
Theorem printf_field pf a b s :
  zlen a + zlen b + zlen s < 2 ^ 31 ->
  exists pf', pf_printstuff emit pf a b s = Ok pf' /\
    clientdata pf' = clientdata pf ++ field (spacing pf) (rightspc pf) (fillchar pf) a b s /\
    zlen (field (spacing pf) (rightspc pf) (fillchar pf) a b s) = Z.max (spacing pf) (zlen a + zlen b + zlen s).
Proof.
  intros Hlen. destruct (printstuff_emit pf a b s Hlen) as (pf' & E & H1 & _). exists pf'. split; [done |]. split; [done |].
  unfold field, zlen in *. destruct (rightspc pf), (fillchar pf =? 48); rewrite ?length_app, ?repeat_length; lia.
Qed.

(** ** Printing and reading back *)

Lemma digit_decimal d : 48 <= d <= 57 -> digit_value d = d - 48.
Proof. intros Hd. refine (seqZ_all (fun d => digit_value d = d - 48) 48 10 _ d ltac:(lia)). repeat constructor. Qed.

Lemma value_decimal ds : Forall (fun d => 48 <= d <= 57) ds -> value 10 ds = decimal_value ds.
Proof.
  intros H. assert (G : forall v, fold_left (fun v d => v * 10 + digit_value d) ds v = fold_left (fun v d => v * 10 + (d - 48)) ds v).
  { induction H as [ | d ds Hd _ IH]; intros v; [done |]. cbn [fold_left]. by rewrite IH, digit_decimal. }
  apply G.
Qed.

(** The text of "%d". *)
Definition percent_d_text (n : Z) (ds : list Z) : list Z := (if n <? 0 then [45] else []) ++ ds.

Lemma percent_d n :
  exists ds c, text_of (Z.abs (s32 n)) 10 ds /\ vprintf emit [] [37; 100] [Num n] = Ok (percent_d_text (s32 n) ds, c) /\
    zlen (percent_d_text (s32 n) ds) <= 11.
Proof.
  assert (Hr : - 2 ^ 31 <= s32 n < 2 ^ 31) by (unfold s32; pose proof (Z.mod_pos_bound (n + 2 ^ 31) (2 ^ 32)); lia).
  destruct (number_text_ok (Z.abs (s32 n)) 10) as (ds & E & Ht & _); [unfold is_u64; lia | auto |].
  assert (Hs : zlen ds <= 10) by (apply (tx_short _ _ _ Ht); lia).
  set (pf := pf_setbase (set_num (start_pct (pf_start (@nil Z) [Num n])) [] (Z.abs (s32 n)) (if s32 n <? 0 then -1 else 0)) 100).
  assert (Hsg : zlen (if s32 n <? 0 then [45] else []) <= 1) by (unfold zlen; case_if; cbn; lia).
  destruct (printstuff_emit pf (if s32 n <? 0 then [45] else []) [] ds) as (pf' & E' & Hc & _); [change (zlen (@nil Z)) with 0; lia |].
  exists ds, (charcount pf'). split; [done |]. split.
  - unfold vprintf. cbn [pf_sends rbind]. change (pf_send emit (pf_start [] [Num n]) 37) with (Ok (start_pct (pf_start (@nil Z) [Num n]))).
    cbn [rbind]. unfold pf_send at 1. cbn [kassert]. 
    assert (G : pf_getnum (start_pct (pf_start (@nil Z) [Num n])) 100 =
      Ok (set_num (start_pct (pf_start (@nil Z) [Num n])) [] (Z.abs (s32 n)) (if s32 n <? 0 then -1 else 0))).
    { unfold pf_getnum. cbn -[s32]. destruct (Z.ltb_spec (s32 n) 0); cbn; [ | by rewrite Z.abs_eq by lia].
      unfold u64. by rewrite Z.mod_small, Z.abs_neq by lia. }
    change (negb (100 =? 0)) with true. cbn [kassert in_pct start_pct negb andb].
    change (bool_decide (is_Some (index_in modifier_chars 100))) with false. change (bool_decide (is_Some (index_in type_chars 100))) with true.
    cbv beta iota. rewrite G. cbn [rbind]. fold pf. unfold pf_printnum. change (num pf) with (Z.abs (s32 n)). change (base pf) with 10. rewrite E.
    cbn [rbind]. change (baseprefix pf) with false. cbn [andb]. change (sign pf) with (if s32 n <? 0 then -1 else 0).
    replace (if negb ((if s32 n <? 0 then -1 else 0) =? 0) then [45] else []) with (if s32 n <? 0 then [45] else []) by by destruct (s32 n <? 0).
    rewrite E'. cbn [rbind clientdata charcount pf_endfield]. rewrite Hc. f_equal. f_equal. cbn. unfold field, percent_d_text. cbn [Z.eqb].
    replace (Z.to_nat _) with 0%nat; [done |]. unfold zlen in *. cbn. lia.
  - unfold percent_d_text, zlen in *. rewrite length_app. lia.
Qed.

Lemma holds_prefix m a l1 l2 : holds m a (l1 ++ l2) -> holds m a l1.
Proof. by intros [H _]%holds_app. Qed.

(** C35: what snprintf prints with "%d" atoi reads back: for every [int], the
    smallest one included, any buffer of at least 12 bytes, and wherever the
    buffer is in memory. *)
Theorem atoi_snprintf b n :
  12 <= zlen b -> exists b' c, snprintf b (zlen b) [37; 100] [Num n] = Ok (b', c) /\
    forall m a, holds m a b' -> atoi m a = Ok (s32 n).
Proof.
  intros Hb. destruct (percent_d n) as (ds & c & Ht & Hv & Hlen).
  destruct (snprintf_ok b (zlen b) _ _ _ _ ltac:(lia) Hv) as [_ E]. cbn zeta in E.
  rewrite take_ge in E by (unfold zlen in *; lia). destruct (Z.eqb_spec (zlen b) 0); [lia |].
  eexists _, c. split; [exact E |]. intros m a Hm. set (text := percent_d_text (s32 n) ds) in *.
  replace (text ++ 0 :: drop (S (length text)) b) with ((text ++ [0]) ++ drop (S (length text)) b) in Hm by by rewrite <- app_assoc.
  apply holds_prefix in Hm.
  assert (Hd : Forall (fun d => 48 <= d <= 57) ds).
  { pose proof (tx_chars _ _ _ Ht) as H1. pose proof (tx_decimal _ _ _ Ht ltac:(lia)) as H2. rewrite Forall_forall in *.
    intros d Hdin. specialize (H1 d Hdin). specialize (H2 d Hdin). cbn in *. lia. }
  rewrite (atoi_ok m a [] (if s32 n <? 0 then [45] else []) ds).
  - f_equal. rewrite <- value_decimal, (tx_value _ _ _ Ht) by done.
    pose proof (s32_add n 0) as Hs. rewrite !Z.add_0_r in Hs.
    destruct (Z.ltb_spec (s32 n) 0); [rewrite decide_True by done | rewrite decide_False by done].
    + by rewrite Z.abs_neq, Z.opp_involutive by lia.
    + by rewrite Z.abs_eq by lia.
  - split; [exact Hm |]. cbn [app]. apply Forall_app. split; [case_if; repeat constructor; lia |].
    eapply Forall_impl; [exact Hd |]. cbn. lia.
  - constructor.
  - case_if; set_solver.
  - done.
Qed.

(** ** Witnesses *)

Lemma number_text_fits_witness : exists ds, number_text (2 ^ 64 - 1) 8 = Ok ds /\ zlen ds < NUMBER_BUF_SIZE.
Proof.
  destruct (number_text_fits (2 ^ 64 - 1) 8) as (ds & E & _ & H); [vm_compute; split; [discriminate | reflexivity] | left; reflexivity |].
  exists ds. split; [exact E | exact H].
Defined.

(** "%5d!" into six bytes. *)
Lemma snprintf_truncates_witness :
  snprintf (repeat 7 10) 6 [37; 53; 100; 33] [Num (-42)] = Ok ([32; 32; 45; 52; 50] ++ 0 :: repeat 7 4, 6).
Proof.
  assert (H : vprintf emit [] [37; 53; 100; 33] [Num (-42)] = Ok ([32; 32; 45; 52; 50; 33], 6)) by (vm_compute; reflexivity).
  exact (proj2 (snprintf_truncates (repeat 7 10) 6 _ _ _ _ ltac:(split; vm_compute; discriminate) H)).
Defined.

Lemma printf_field_witness :
  exists pf', pf_printstuff emit (set_spacing (pf_start (@nil Z) []) 4) [45] [] [55] = Ok pf' /\ clientdata pf' = [32; 32; 45; 55].
Proof.
  destruct (printf_field (set_spacing (pf_start (@nil Z) []) 4) [45] [] [55]) as (pf' & E & H & _); [vm_compute; reflexivity |].
  exists pf'. split; [exact E | exact H].
Defined.

Lemma atoi_snprintf_witness :
  exists b' c, snprintf (repeat 0 12) 12 [37; 100] [Num (- 2 ^ 31)] = Ok (b', c) /\ atoi (write ∅ 64 b') 64 = Ok (- 2 ^ 31).
Proof.
  destruct (atoi_snprintf (repeat 0 12) (- 2 ^ 31)) as (b' & c & E & H); [vm_compute; discriminate |].
  exists b', c. split; [exact E |]. apply (H (write ∅ 64 b') 64).
  intros i x Hi. apply lookup_lt_Some in Hi as Hlt. rewrite lookup_write, decide_True by (unfold zlen; lia).
  by replace (Z.to_nat (64 + Z.of_nat i - 64)) with i by lia.
Defined.
