(* ===== verification/ThreadList.v ===== *)
(** Thread lists: kern/thread/threadlist.c and threadlist.h.

    The lists are doubly linked through nodes embedded in the threads, between
    two bookend nodes that belong to the list.  Nodes live in a heap, a finite
    map from node addresses; a thread is identified with the address of its
    [t_listnode].  Every operation is the sequence of loads and stores of the
    source.  (DEBUGASSERT is compiled out, kern/include/lib.h.)  The theorem
    is that the linked structure implements a sequence of threads. *)
From S2P Require Import Prelude.

Notation addr := Z (only parsing).

Record threadlistnode := mkNode {
  tln_prev : option addr;
  tln_next : option addr;
  tln_self : option addr
}.

(** The bookends are addresses; [tl_count] is [unsigned]. *)
Record threadlist := mkList {
  tl_head : addr;
  tl_tail : addr;
  tl_count : Z
}.

Notation heap := (gmap Z threadlistnode).

Definition load (h : heap) (p : addr) : res threadlistnode := access (h !! p).

(** [p->tln_prev = x], [p->tln_next = x] *)
Definition set_prev (h : heap) (p : addr) (x : option addr) : res heap :=
  let* n := load h p in Ok (<[p := mkNode x (tln_next n) (tln_self n)]> h).

Definition set_next (h : heap) (p : addr) (x : option addr) : res heap :=
  let* n := load h p in Ok (<[p := mkNode (tln_prev n) x (tln_self n)]> h).

Definition threadlistnode_init (h : heap) (tln : addr) (t : option addr) : res heap :=
  kassert (bool_decide (t <> None)) (Ok (<[tln := mkNode None None t]> h)).

Definition threadlistnode_cleanup (h : heap) (tln : addr) : res unit :=
  let* n := load h tln in
  kassert (bool_decide (tln_next n = None)) (
  kassert (bool_decide (tln_prev n = None)) (
  kassert (bool_decide (tln_self n <> None)) (Ok tt))).

Definition threadlist_init (h : heap) (head tail : addr) : heap * threadlist :=
  (<[tail := mkNode (Some head) None None]> (<[head := mkNode None (Some tail) None]> h),
   mkList head tail 0).

Definition threadlist_isempty (tl : threadlist) : bool := tl_count tl =? 0.

Definition threadlist_cleanup (tl : threadlist) : res unit :=
  kassert (threadlist_isempty tl) (kassert (tl_count tl =? 0) (Ok tt)).

Definition threadlist_insertafternode (h : heap) (onlist t : addr) : res heap :=
  let addee := t in
  let* h := set_prev h addee (Some onlist) in
  let* on := load h onlist in
  let* h := set_next h addee (tln_next on) in
  let* a := load h addee in
  let* p := access (tln_prev a) in
  let* h := set_next h p (Some addee) in
  let* a := load h addee in
  let* n := access (tln_next a) in
  set_prev h n (Some addee).

Definition threadlist_insertbeforenode (h : heap) (t onlist : addr) : res heap :=
  let addee := t in
  let* on := load h onlist in
  let* h := set_prev h addee (tln_prev on) in
  let* h := set_next h addee (Some onlist) in
  let* a := load h addee in
  let* p := access (tln_prev a) in
  let* h := set_next h p (Some addee) in
  let* a := load h addee in
  let* n := access (tln_next a) in
  set_prev h n (Some addee).

Definition threadlist_removenode (h : heap) (tln : addr) : res heap :=
  let* t := load h tln in
  let* p := access (tln_prev t) in
  let* h := set_next h p (tln_next t) in
  let* t := load h tln in
  let* n := access (tln_next t) in
  let* h := set_prev h n (tln_prev t) in
  let* h := set_prev h tln None in
  set_next h tln None.

Definition set_count (tl : threadlist) (c : Z) : threadlist :=
  mkList (tl_head tl) (tl_tail tl) (u32 c).

Definition threadlist_addhead (h : heap) (tl : threadlist) (t : addr) : res (heap * threadlist) :=
  let* h := threadlist_insertafternode h (tl_head tl) t in
  Ok (h, set_count tl (tl_count tl + 1)).

Definition threadlist_addtail (h : heap) (tl : threadlist) (t : addr) : res (heap * threadlist) :=
  let* h := threadlist_insertbeforenode h t (tl_tail tl) in
  Ok (h, set_count tl (tl_count tl + 1)).

Definition threadlist_remhead (h : heap) (tl : threadlist)
    : res (heap * threadlist * option addr) :=
  let* hd := load h (tl_head tl) in
  let* tln := access (tln_next hd) in
  let* n := load h tln in
  match tln_next n with
  | None => Ok (h, tl, None)
  | Some _ =>
    let* h := threadlist_removenode h tln in
    let* n := load h tln in
    Ok (h, set_count tl (tl_count tl - 1), tln_self n)
  end.

Definition threadlist_remtail (h : heap) (tl : threadlist)
    : res (heap * threadlist * option addr) :=
  let* tail := load h (tl_tail tl) in
  let* tln := access (tln_prev tail) in
  let* n := load h tln in
  match tln_prev n with
  | None => Ok (h, tl, None)
  | Some _ =>
    let* h := threadlist_removenode h tln in
    let* n := load h tln in
    Ok (h, set_count tl (tl_count tl - 1), tln_self n)
  end.

Definition threadlist_insertafter (h : heap) (tl : threadlist) (onlist addee : addr)
    : res (heap * threadlist) :=
  let* h := threadlist_insertafternode h onlist addee in
  Ok (h, set_count tl (tl_count tl + 1)).

Definition threadlist_insertbefore (h : heap) (tl : threadlist) (addee onlist : addr)
    : res (heap * threadlist) :=
  let* h := threadlist_insertbeforenode h addee onlist in
  Ok (h, set_count tl (tl_count tl + 1)).

Definition threadlist_remove (h : heap) (tl : threadlist) (t : addr) : res (heap * threadlist) :=
  let* h := threadlist_removenode h t in
  Ok (h, set_count tl (tl_count tl - 1)).

(** THREADLIST_FORALL: the threads visited from node [p] on. *)
Fixpoint forall_from (fuel : nat) (h : heap) (p : addr) : res (list addr) :=
  match fuel with
  | O => Fault OutOfFuel
  | S fuel =>
    let* n := load h p in
    let* q := access (tln_next n) in
    let* m := load h q in
    match tln_self m with
    | None => Ok []
    | Some t => let* ts := forall_from fuel h t in Ok (t :: ts)
    end
  end.

Definition THREADLIST_FORALL (fuel : nat) (h : heap) (tl : threadlist) : res (list addr) :=
  forall_from fuel h (tl_head tl).

(** ** Doubly linked segments *)

Definition hd_or (l : list addr) (n : option addr) : option addr :=
  match l with [] => n | y :: _ => Some y end.

Fixpoint last_or (p : option addr) (l : list addr) : option addr :=
  match l with [] => p | x :: l => last_or (Some x) l end.

Section Segments.
Context (self : addr -> option addr).

(** The nodes [l] are linked in this order; [p] precedes and [n] follows. *)
Fixpoint dseg (h : heap) (p : option addr) (l : list addr) (n : option addr) : Prop :=
  match l with
  | [] => True
  | x :: l' => h !! x = Some (mkNode p (hd_or l' n) (self x)) /\ dseg h (Some x) l' n
  end.

Lemma hd_or_app l1 l2 n : hd_or (l1 ++ l2) n = hd_or l1 (hd_or l2 n).
Proof. by destruct l1. Qed.

Lemma last_or_app p l1 l2 : last_or p (l1 ++ l2) = last_or (last_or p l1) l2.
Proof. revert p. induction l1; simpl; auto. Qed.

Lemma dseg_app h p l1 l2 n :
  dseg h p (l1 ++ l2) n <-> dseg h p l1 (hd_or l2 n) /\ dseg h (last_or p l1) l2 n.
Proof.
  revert p. induction l1 as [ | x l1 IH]; intros p; simpl; [tauto |].
  rewrite IH, hd_or_app. tauto.
Qed.

Lemma dseg_ext h h' p l n :
  (forall x, x ∈ l -> h' !! x = h !! x) -> dseg h p l n -> dseg h' p l n.
Proof.
  revert p. induction l as [ | x l IH]; intros p Hx; simpl; [done |].
  intros [H1 H2]. split; [rewrite Hx; set_solver |]. apply IH; [set_solver | done].
Qed.

Lemma dseg_self h p l n x : dseg h p l n -> x ∈ l -> exists nd, h !! x = Some nd /\ tln_self nd = self x.
Proof.
  revert p. induction l as [ | y l IH]; intros p; simpl; [set_solver |].
  intros [H1 H2] [-> | Hx]%elem_of_cons; [by eexists | by eapply IH].
Qed.

(** Neighbours in the list are neighbours in the heap. *)
Lemma dseg_mid h l1 x y l2 :
  dseg h None (l1 ++ x :: y :: l2) None ->
  h !! x = Some (mkNode (last_or None l1) (Some y) (self x)) /\
  h !! y = Some (mkNode (Some x) (hd_or l2 None) (self y)).
Proof. intros (_ & H1 & H2 & _)%dseg_app. done. Qed.

(** Linking [a] in between the neighbours [x] and [y]. *)
Lemma dseg_link h h' l1 x a y l2 :
  dseg h None (l1 ++ x :: y :: l2) None -> NoDup (l1 ++ x :: a :: y :: l2) ->
  h' !! a = Some (mkNode (Some x) (Some y) (self a)) ->
  h' !! x = Some (mkNode (last_or None l1) (Some a) (self x)) ->
  h' !! y = Some (mkNode (Some a) (hd_or l2 None) (self y)) ->
  (forall z, z <> a -> z <> x -> z <> y -> h' !! z = h !! z) ->
  dseg h' None (l1 ++ x :: a :: y :: l2) None.
Proof.
  intros Hd Hnd Ha Hx Hy Hz. apply dseg_app in Hd as (H1 & _ & _ & H2).
  apply NoDup_app in Hnd as (_ & Hdis & Hnd). rewrite !NoDup_cons in Hnd.
  apply dseg_app. simpl. repeat (split; try done).
  - eapply dseg_ext; [ | done]. intros z Hz'. specialize (Hdis z Hz'). apply Hz; set_solver.
  - eapply dseg_ext; [ | done]. intros z Hz'. apply Hz; set_solver.
Qed.

(** Unlinking [a] from between [x] and [y]. *)
Lemma dseg_unlink h h' l1 x a y l2 :
  dseg h None (l1 ++ x :: a :: y :: l2) None -> NoDup (l1 ++ x :: a :: y :: l2) ->
  h' !! x = Some (mkNode (last_or None l1) (Some y) (self x)) ->
  h' !! y = Some (mkNode (Some x) (hd_or l2 None) (self y)) ->
  (forall z, z <> a -> z <> x -> z <> y -> h' !! z = h !! z) ->
  dseg h' None (l1 ++ x :: y :: l2) None.
Proof.
  intros Hd Hnd Hx Hy Hz. apply dseg_app in Hd as (H1 & _ & _ & _ & H2).
  apply NoDup_app in Hnd as (_ & Hdis & Hnd). rewrite !NoDup_cons in Hnd.
  apply dseg_app. simpl. repeat (split; try done).
  - eapply dseg_ext; [ | done]. intros z Hz'. specialize (Hdis z Hz'). apply Hz; set_solver.
  - eapply dseg_ext; [ | done]. intros z Hz'. apply Hz; set_solver.
Qed.
End Segments.

(** ** The three pointer manipulations *)

Ltac run_heap :=
  unfold set_prev, set_next, load; cbn [tln_prev tln_next tln_self access rbind];
  repeat (first [rewrite lookup_insert_eq | rewrite lookup_insert_ne by congruence
                | match goal with H : ?h !! ?x = _ |- context [?h !! ?x] => rewrite H end];
          cbn [tln_prev tln_next tln_self access rbind]).

Ltac frame_heap := intros z ? ? ?; rewrite ?lookup_insert_ne by congruence; done.

Lemma insertafternode_spec h x a y px sx ny sy na :
  h !! x = Some (mkNode px (Some y) sx) -> h !! y = Some (mkNode (Some x) ny sy) ->
  h !! a = Some na -> x <> y -> x <> a -> y <> a ->
  exists h', threadlist_insertafternode h x a = Ok h' /\
    h' !! a = Some (mkNode (Some x) (Some y) (tln_self na)) /\
    h' !! x = Some (mkNode px (Some a) sx) /\ h' !! y = Some (mkNode (Some a) ny sy) /\
    (forall z, z <> a -> z <> x -> z <> y -> h' !! z = h !! z).
Proof.
  intros Hx Hy Ha ???. unfold threadlist_insertafternode. run_heap.
  eexists. split; [done |]. run_heap. repeat (split; [done |]). frame_heap.
Qed.

Lemma insertbeforenode_spec h x a y px sx ny sy na :
  h !! x = Some (mkNode px (Some y) sx) -> h !! y = Some (mkNode (Some x) ny sy) ->
  h !! a = Some na -> x <> y -> x <> a -> y <> a ->
  exists h', threadlist_insertbeforenode h a y = Ok h' /\
    h' !! a = Some (mkNode (Some x) (Some y) (tln_self na)) /\
    h' !! x = Some (mkNode px (Some a) sx) /\ h' !! y = Some (mkNode (Some a) ny sy) /\
    (forall z, z <> a -> z <> x -> z <> y -> h' !! z = h !! z).
Proof.
  intros Hx Hy Ha ???. unfold threadlist_insertbeforenode. run_heap.
  eexists. split; [done |]. run_heap. repeat (split; [done |]). frame_heap.
Qed.

Lemma removenode_spec h x a y px sx ny sy sa :
  h !! x = Some (mkNode px (Some a) sx) -> h !! a = Some (mkNode (Some x) (Some y) sa) ->
  h !! y = Some (mkNode (Some a) ny sy) -> x <> y -> x <> a -> y <> a ->
  exists h', threadlist_removenode h a = Ok h' /\
    h' !! a = Some (mkNode None None sa) /\
    h' !! x = Some (mkNode px (Some y) sx) /\ h' !! y = Some (mkNode (Some x) ny sy) /\
    (forall z, z <> a -> z <> x -> z <> y -> h' !! z = h !! z).
Proof.
  intros Hx Ha Hy ???. unfold threadlist_removenode. run_heap.
  eexists. split; [done |]. run_heap. repeat (split; [done |]). frame_heap.
Qed.

(** ** Representation *)

Definition nodes (tl : threadlist) (ts : list addr) : list addr :=
  tl_head tl :: ts ++ [tl_tail tl].

(** The bookends have no thread; a thread's node points at the thread. *)
Definition self_of (tl : threadlist) (x : addr) : option addr :=
  if decide (x = tl_head tl \/ x = tl_tail tl) then None else Some x.

(** The list [tl] holds the threads [ts]; the threads in [fr] are on no list. *)
Record rep (h : heap) (tl : threadlist) (ts : list addr) (fr : gset Z) : Prop := {
  rep_seg : dseg (self_of tl) h None (nodes tl ts) None;
  rep_nodup : NoDup (nodes tl ts);
  rep_count : tl_count tl = zlen ts;
  rep_free : forall t, t ∈ fr -> h !! t = Some (mkNode None None (Some t));
  rep_disj : forall t, t ∈ fr -> t ∉ nodes tl ts
}.

(** The neighbours on both sides of a gap in the list. *)
Lemma gap_left (head : addr) l1 : exists n1 x, head :: l1 = n1 ++ [x] /\
  (l1 = [] -> x = head) /\ (forall l0 b, l1 = l0 ++ [b] -> x = b).
Proof.
  destruct l1 as [ | b l0 _] using rev_ind.
  { exists [], head. split; [done |]. split; [done |]. intros l0 b H. by destruct l0. }
  exists (head :: l0), b. split; [done |]. split; [by destruct l0 |].
  intros l0' b' [_ ->]%app_inj_tail. done.
Qed.

Lemma gap_right (tail : addr) l2 : exists y n2, l2 ++ [tail] = y :: n2 /\
  (l2 = [] -> y = tail) /\ (forall b l0, l2 = b :: l0 -> y = b).
Proof. destruct l2 as [ | b l0]; simpl; eexists _, _; (split; [done |]); by split; congruence. Qed.

Lemma nodes_gap tl l1 l2 n1 x y n2 mid :
  tl_head tl :: l1 = n1 ++ [x] -> l2 ++ [tl_tail tl] = y :: n2 ->
  nodes tl (l1 ++ mid ++ l2) = n1 ++ x :: mid ++ y :: n2.
Proof.
  intros H1 H2. unfold nodes. rewrite <- !app_assoc, H2, app_comm_cons, H1, <- app_assoc. done.
Qed.

Lemma self_free tl a ts : a ∉ nodes tl ts -> self_of tl a = Some a.
Proof. unfold nodes, self_of. intros H. case_decide; [set_solver | done]. Qed.

Lemma self_thread tl a l1 l2 : NoDup (nodes tl (l1 ++ a :: l2)) -> self_of tl a = Some a.
Proof.
  unfold nodes, self_of. rewrite NoDup_cons, <- app_assoc. intros [H1 H2].
  apply NoDup_app in H2 as (_ & _ & H2). rewrite <- app_comm_cons, NoDup_cons in H2.
  case_decide; [set_solver | done].
Qed.

Lemma zlen_insert (l1 l2 : list addr) a : zlen (l1 ++ a :: l2) = zlen (l1 ++ l2) + 1.
Proof. unfold zlen. rewrite !length_app. simpl. lia. Qed.

(** Putting a free thread into the gap between [l1] and [l2]. *)
Lemma rep_insert h tl l1 l2 fr a x n1 y n2 ins :
  rep h tl (l1 ++ l2) fr -> a ∈ fr -> zlen (l1 ++ l2) + 1 < 2 ^ 32 ->
  tl_head tl :: l1 = n1 ++ [x] -> l2 ++ [tl_tail tl] = y :: n2 ->
  (forall px sx ny sy na, h !! x = Some (mkNode px (Some y) sx) ->
     h !! y = Some (mkNode (Some x) ny sy) -> h !! a = Some na -> x <> y -> x <> a -> y <> a ->
     exists h', ins = Ok h' /\
       h' !! a = Some (mkNode (Some x) (Some y) (tln_self na)) /\
       h' !! x = Some (mkNode px (Some a) sx) /\ h' !! y = Some (mkNode (Some a) ny sy) /\
       (forall z, z <> a -> z <> x -> z <> y -> h' !! z = h !! z)) ->
  exists h', ins = Ok h' /\
    rep h' (set_count tl (tl_count tl + 1)) (l1 ++ a :: l2) (fr ∖ {[a]}).
Proof.
  intros [Hseg Hnd Hc Hf Hd] Ha Hlen E1 E2 Hins.
  pose proof (nodes_gap tl l1 l2 n1 x y n2 [] E1 E2) as En. cbn [app] in En.
  pose proof (nodes_gap tl l1 l2 n1 x y n2 [a] E1 E2) as En'. cbn [app] in En'.
  pose proof (Hd a Ha) as Hna. rewrite En in *.
  destruct (dseg_mid _ _ _ _ _ _ Hseg) as [Hx Hy].
  assert (Hnd' : NoDup (n1 ++ x :: a :: y :: n2)).
  { by apply NoDup_middle2. }
  assert (x <> y /\ x <> a /\ y <> a) as (? & ? & ?).
  { apply NoDup_app in Hnd' as (_ & _ & Hnd'). rewrite !NoDup_cons in Hnd'. set_solver. }
  destruct (Hins _ _ _ _ _ Hx Hy (Hf a Ha)) as (h' & -> & Ha' & Hx' & Hy' & Hz); [done.. |].
  exists h'. split; [done |]. cbn [tln_self] in Ha'.
  assert (Hself : self_of tl a = Some a) by (apply (self_free tl a (l1 ++ l2)); rewrite En; done).
  assert (Hfr : forall t, t ∈ fr ∖ {[a]} -> t <> a /\ t <> x /\ t <> y /\ t ∈ fr).
  { intros t Ht. assert (t ∉ n1 ++ x :: y :: n2) by (apply Hd; set_solver). set_solver. }
  constructor; change (nodes (set_count tl (tl_count tl + 1)) (l1 ++ a :: l2))
    with (nodes tl (l1 ++ a :: l2)); rewrite ?En'.
  - eapply dseg_link; [exact Hseg | done | by rewrite Ha', <- Hself | done | done | done].
  - done.
  - cbn [set_count tl_count]. rewrite zlen_insert, Hc, u32_id; [done |].
    unfold is_u32, zlen in *. lia.
  - intros t (? & ? & ? & ?)%Hfr. rewrite Hz by done. by apply Hf.
  - intros t Ht. destruct (Hfr t Ht) as (? & ? & ? & Ht'). apply Hd in Ht'. set_solver.
Qed.

(** Taking the thread [a] out of the list. *)
Lemma rep_remove h tl l1 l2 fr a :
  rep h tl (l1 ++ a :: l2) fr -> zlen (l1 ++ a :: l2) < 2 ^ 32 ->
  exists h', threadlist_removenode h a = Ok h' /\
    h' !! a = Some (mkNode None None (Some a)) /\
    rep h' (set_count tl (tl_count tl - 1)) (l1 ++ l2) ({[a]} ∪ fr).
Proof.
  intros [Hseg Hnd Hc Hf Hd] Hlen.
  pose proof (self_thread _ _ _ _ Hnd) as Hself.
  destruct (gap_left (tl_head tl) l1) as (n1 & x & E1 & _).
  destruct (gap_right (tl_tail tl) l2) as (y & n2 & E2 & _).
  pose proof (nodes_gap tl l1 l2 n1 x y n2 [] E1 E2) as En'. cbn [app] in En'.
  pose proof (nodes_gap tl l1 l2 n1 x y n2 [a] E1 E2) as En. cbn [app] in En. rewrite En in *.
  destruct (dseg_mid _ _ _ _ _ _ Hseg) as [Hx Ha].
  assert (Hy : h !! y = Some (mkNode (Some a) (hd_or n2 None) (self_of tl y))).
  { apply (dseg_mid (self_of tl) h (n1 ++ [x]) a y n2). rewrite <- app_assoc. done. }
  pose proof Hnd as Hnd2. apply NoDup_app in Hnd2 as (_ & _ & Hnd2). rewrite !NoDup_cons in Hnd2.
  destruct (removenode_spec h x a y _ _ _ _ _ Hx Ha Hy) as (h' & Hr & Ha' & Hx' & Hy' & Hz);
    [set_solver.. |].
  rewrite Hself in Ha'. exists h'. split; [done |]. split; [done |].
  assert (Hfr : forall t, t ∈ fr -> t <> a /\ t <> x /\ t <> y).
  { intros t Ht. apply Hd in Ht. set_solver. }
  constructor; change (nodes (set_count tl (tl_count tl - 1)) (l1 ++ l2))
    with (nodes tl (l1 ++ l2)); rewrite ?En'.
  - by eapply dseg_unlink.
  - by apply NoDup_middle2 in Hnd as [_ ?].
  - cbn [set_count tl_count]. rewrite Hc. rewrite zlen_insert in *.
    rewrite u32_id; [lia |]. unfold is_u32, zlen in *. lia.
  - intros t [->%elem_of_singleton | Ht]%elem_of_union; [done |].
    destruct (Hfr t Ht) as (? & ? & ?). rewrite Hz by done. by apply Hf.
  - intros t [->%elem_of_singleton | Ht]%elem_of_union; [ | apply Hd in Ht; set_solver].
    by apply NoDup_middle2 in Hnd as [? _].
Qed.

(** ** Refinement: a thread list is a sequence of threads *)

Inductive lop :=
| AddHead (t : addr)
| AddTail (t : addr)
| RemHead
| RemTail
| InsertAfter (onlist addee : addr)
| InsertBefore (addee onlist : addr)
| Remove (t : addr)
| IsEmpty.

Inductive lans :=
| LDone
| LThread (t : option addr)
| LBool (b : bool).

#[global] Instance lans_eq_dec : EqDecision lans.
Proof. solve_decision. Defined.

Definition threadlist_step (st : heap * threadlist) (o : lop)
    : res ((heap * threadlist) * lans) :=
  let (h, tl) := st in
  match o with
  | AddHead t => let* st := threadlist_addhead h tl t in Ok (st, LDone)
  | AddTail t => let* st := threadlist_addtail h tl t in Ok (st, LDone)
  | RemHead => let* (st, t) := threadlist_remhead h tl in Ok (st, LThread t)
  | RemTail => let* (st, t) := threadlist_remtail h tl in Ok (st, LThread t)
  | InsertAfter on t => let* st := threadlist_insertafter h tl on t in Ok (st, LDone)
  | InsertBefore t on => let* st := threadlist_insertbefore h tl t on in Ok (st, LDone)
  | Remove t => let* st := threadlist_remove h tl t in Ok (st, LDone)
  | IsEmpty => Ok (st, LBool (threadlist_isempty tl))
  end.

(** The abstract state: the threads on the list in order, and the threads
    that are on no list. *)
Fixpoint insert_after (on a : addr) (l : list addr) : list addr :=
  match l with
  | [] => []
  | x :: l => if decide (x = on) then x :: a :: l else x :: insert_after on a l
  end.

Fixpoint insert_before (a on : addr) (l : list addr) : list addr :=
  match l with
  | [] => []
  | x :: l => if decide (x = on) then a :: x :: l else x :: insert_before a on l
  end.

Definition seq_step (st : list addr * gset Z) (o : lop) : res ((list addr * gset Z) * lans) :=
  let (ts, fr) := st in
  match o with
  | AddHead t => Ok ((t :: ts, fr ∖ {[t]}), LDone)
  | AddTail t => Ok ((ts ++ [t], fr ∖ {[t]}), LDone)
  | RemHead =>
    match ts with
    | [] => Ok (st, LThread None)
    | t :: ts => Ok ((ts, {[t]} ∪ fr), LThread (Some t))
    end
  | RemTail =>
    match reverse ts with
    | [] => Ok (st, LThread None)
    | t :: r => Ok ((reverse r, {[t]} ∪ fr), LThread (Some t))
    end
  | InsertAfter on t => Ok ((insert_after on t ts, fr ∖ {[t]}), LDone)
  | InsertBefore t on => Ok ((insert_before t on ts, fr ∖ {[t]}), LDone)
  | Remove t => Ok ((filter (fun x => x <> t) ts, {[t]} ∪ fr), LDone)
  | IsEmpty => Ok (st, LBool (bool_decide (ts = [])))
  end.

(** The contract of the operations: only a thread that is on no list is
    added, only a thread on the list is removed or used as an anchor. *)
Definition lop_ok (st : list addr * gset Z) (o : lop) : Prop :=
  let (ts, fr) := st in
  match o with
  | AddHead t | AddTail t => t ∈ fr /\ zlen ts + 1 < 2 ^ 32
  | InsertAfter on t | InsertBefore t on => t ∈ fr /\ on ∈ ts /\ zlen ts + 1 < 2 ^ 32
  | Remove t => t ∈ ts
  | RemHead | RemTail | IsEmpty => True
  end.

Definition related (c : heap * threadlist) (a : list addr * gset Z) : Prop :=
  rep c.1 c.2 a.1 a.2 /\ zlen a.1 < 2 ^ 32.

Lemma insert_after_split on a l1 l2 :
  on ∉ l1 -> insert_after on a (l1 ++ on :: l2) = (l1 ++ [on]) ++ a :: l2.
Proof.
  induction l1 as [ | x l1 IH]; intros Hn; simpl; [by rewrite decide_True |].
  rewrite decide_False by set_solver. by rewrite IH by set_solver.
Qed.

Lemma insert_before_split on a l1 l2 :
  on ∉ l1 -> insert_before a on (l1 ++ on :: l2) = l1 ++ a :: on :: l2.
Proof.
  induction l1 as [ | x l1 IH]; intros Hn; simpl; [by rewrite decide_True |].
  rewrite decide_False by set_solver. by rewrite IH by set_solver.
Qed.

Lemma filter_ne (t : addr) (l : list addr) : t ∉ l -> filter (fun x => x <> t) l = l.
Proof.
  induction l as [ | x l IH]; intros H; [done |].
  rewrite filter_cons_True by set_solver. by rewrite IH by set_solver.
Qed.

Lemma rep_nodup_ts h tl ts fr : rep h tl ts fr -> NoDup ts.
Proof. intros R. pose proof (rep_nodup _ _ _ _ R) as H. apply NoDup_cons in H as [_ H].
  by apply NoDup_app in H as [? _]. Qed.

(** Insertion after the last node of the left part, or before the first node
    of the right part. *)
Lemma insert_after_gap h tl l1 l2 fr a x n1 :
  rep h tl (l1 ++ l2) fr -> a ∈ fr -> zlen (l1 ++ l2) + 1 < 2 ^ 32 ->
  tl_head tl :: l1 = n1 ++ [x] ->
  exists h', threadlist_insertafternode h x a = Ok h' /\
    rep h' (set_count tl (tl_count tl + 1)) (l1 ++ a :: l2) (fr ∖ {[a]}).
Proof.
  intros R Ha Hl E1. destruct (gap_right (tl_tail tl) l2) as (y & n2 & E2 & _).
  eapply rep_insert; [done.. |]. intros. by eapply insertafternode_spec.
Qed.

Lemma insert_before_gap h tl l1 l2 fr a y n2 :
  rep h tl (l1 ++ l2) fr -> a ∈ fr -> zlen (l1 ++ l2) + 1 < 2 ^ 32 ->
  l2 ++ [tl_tail tl] = y :: n2 ->
  exists h', threadlist_insertbeforenode h a y = Ok h' /\
    rep h' (set_count tl (tl_count tl + 1)) (l1 ++ a :: l2) (fr ∖ {[a]}).
Proof.
  intros R Ha Hl E2. destruct (gap_left (tl_head tl) l1) as (n1 & x & E1 & _).
  eapply rep_insert; [done.. |]. intros. by eapply insertbeforenode_spec.
Qed.

Lemma remhead_spec h tl ts fr :
  rep h tl ts fr -> zlen ts < 2 ^ 32 ->
  match ts with
  | [] => threadlist_remhead h tl = Ok (h, tl, None)
  | t :: l2 => exists h', threadlist_remhead h tl = Ok (h', set_count tl (tl_count tl - 1), Some t) /\
                 rep h' (set_count tl (tl_count tl - 1)) l2 ({[t]} ∪ fr)
  end.
Proof.
  intros R Hl. unfold threadlist_remhead, load. pose proof (rep_seg _ _ _ _ R) as Hd.
  destruct ts as [ | t l2]; unfold nodes in Hd; simpl in Hd.
  - destruct Hd as (-> & H2 & _). cbn [access rbind tln_next]. by rewrite H2.
  - destruct Hd as (-> & H2 & _). cbn [access rbind tln_next hd_or].
    rewrite H2. cbn [access rbind tln_next].
    destruct (l2 ++ [tl_tail tl]) as [ | y n2] eqn:E; [by destruct l2 |]. cbn [hd_or].
    destruct (rep_remove h tl [] l2 fr t R Hl) as (h' & -> & Ht & R').
    cbn [rbind]. rewrite Ht. cbn [access rbind tln_self]. eauto.
Qed.

Lemma remtail_spec h tl ts fr :
  rep h tl ts fr -> zlen ts < 2 ^ 32 ->
  match reverse ts with
  | [] => threadlist_remtail h tl = Ok (h, tl, None)
  | t :: r => exists h', threadlist_remtail h tl = Ok (h', set_count tl (tl_count tl - 1), Some t) /\
                 rep h' (set_count tl (tl_count tl - 1)) (reverse r) ({[t]} ∪ fr)
  end.
Proof.
  intros R Hl. unfold threadlist_remtail, load. pose proof (rep_seg _ _ _ _ R) as Hd.
  destruct ts as [ | t l1 _] using rev_ind.
  - unfold nodes in Hd. simpl in Hd. destruct Hd as (H1 & -> & _). cbn [access rbind tln_prev].
    rewrite H1. simpl. done.
  - rewrite reverse_snoc. destruct (gap_left (tl_head tl) l1) as (n1 & x & E & _).
    assert (En : nodes tl (l1 ++ [t]) = n1 ++ x :: t :: [tl_tail tl]).
    { unfold nodes. rewrite <- app_assoc, app_comm_cons, E, <- app_assoc. done. }
    rewrite En in Hd. destruct (dseg_mid _ _ _ _ _ _ Hd) as [_ Ht].
    assert (Htl : h !! tl_tail tl = Some (mkNode (Some t) None (self_of tl (tl_tail tl)))).
    { apply (dseg_mid (self_of tl) h (n1 ++ [x]) t (tl_tail tl) []). by rewrite <- app_assoc. }
    rewrite Htl. cbn [access rbind tln_prev]. rewrite Ht. cbn [access rbind tln_prev].
    destruct (rep_remove h tl l1 [] fr t R Hl) as (h' & -> & Ht' & R').
    cbn [rbind]. rewrite Ht'. cbn [access rbind tln_self].
    rewrite reverse_involutive. rewrite app_nil_r in R'. eauto.
Qed.

Lemma threadlist_step_refines c a o :
  related c a -> lop_ok a o ->
  exists c' a' ans, threadlist_step c o = Ok (c', ans) /\ seq_step a o = Ok (a', ans) /\ related c' a'.
Proof.
  destruct c as [h tl], a as [ts fr]. intros [R Hlen] Ho. cbn [fst snd] in *.
  pose proof (rep_nodup_ts _ _ _ _ R) as Hnd.
  destruct o as [t | t | | | on t | t on | t | ]; cbn [threadlist_step seq_step lop_ok] in *.
  - destruct Ho as [Ht Hl].
    destruct (insert_after_gap h tl [] ts fr t (tl_head tl) [] R Ht Hl eq_refl) as (h' & Hh & R').
    unfold threadlist_addhead. rewrite Hh. simpl. eexists _, _, _. split; [done |]. split; [done |].
    split; [done |]. cbn [fst]. change (t :: ts) with ([] ++ t :: ts). by rewrite zlen_insert.
  - destruct Ho as [Ht Hl]. rewrite <- (app_nil_r ts) in R, Hl.
    destruct (insert_before_gap h tl ts [] fr t (tl_tail tl) [] R Ht Hl eq_refl) as (h' & Hh & R').
    unfold threadlist_addtail. rewrite Hh. simpl. eexists _, _, _. split; [done |]. split; [done |].
    split; [done |]. cbn [fst]. by rewrite zlen_insert.
  - pose proof (remhead_spec _ _ _ _ R Hlen) as Hr. destruct ts as [ | t ts].
    + rewrite Hr. simpl. eexists _, _, _. done.
    + destruct Hr as (h' & -> & R'). simpl. eexists _, _, _. split; [done |]. split; [done |].
      split; [done |]. unfold zlen in *. simpl in *. lia.
  - pose proof (remtail_spec _ _ _ _ R Hlen) as Hr. destruct (reverse ts) as [ | t r] eqn:E.
    + rewrite Hr. simpl. eexists _, _, _. done.
    + destruct Hr as (h' & -> & R'). simpl. eexists _, _, _. split; [done |]. split; [done |].
      split; [done |]. cbn [fst]. apply (f_equal length) in E. unfold zlen in *.
      rewrite length_reverse in *. simpl in *. lia.
  - destruct Ho as (Ht & (l1 & l2 & ->)%list_elem_of_split & Hl).
    apply NoDup_middle in Hnd as [Hon _].
    rewrite insert_after_split by set_solver. rewrite cons_middle, app_assoc in R, Hl.
    destruct (insert_after_gap h tl (l1 ++ [on]) l2 fr t on (tl_head tl :: l1) R Ht Hl eq_refl)
      as (h' & Hh & R').
    unfold threadlist_insertafter. rewrite Hh. simpl. eexists _, _, _. split; [done |]. split; [done |].
    split; [done |]. cbn [fst]. by rewrite zlen_insert.
  - destruct Ho as (Ht & (l1 & l2 & ->)%list_elem_of_split & Hl).
    apply NoDup_middle in Hnd as [Hon _].
    rewrite insert_before_split by set_solver.
    destruct (insert_before_gap h tl l1 (on :: l2) fr t on (l2 ++ [tl_tail tl]) R Ht Hl eq_refl)
      as (h' & Hh & R').
    unfold threadlist_insertbefore. rewrite Hh. simpl. eexists _, _, _. split; [done |]. split; [done |].
    split; [done |]. cbn [fst]. by rewrite zlen_insert.
  - apply list_elem_of_split in Ho as (l1 & l2 & ->). apply NoDup_middle in Hnd as [Hon _].
    rewrite filter_app, filter_cons_False by naive_solver. rewrite !filter_ne by set_solver.
    destruct (rep_remove h tl l1 l2 fr t R Hlen) as (h' & Hh & _ & R').
    unfold threadlist_remove. rewrite Hh. simpl. eexists _, _, _. split; [done |]. split; [done |].
    split; [done |]. cbn [fst]. rewrite zlen_insert in Hlen. lia.
  - exists (h, tl), (ts, fr). eexists. split; [done |]. split; [ | by split].
    do 3 f_equal. unfold threadlist_isempty. rewrite (rep_count _ _ _ _ R).
    by destruct ts.
Qed.

(** C18: starting from [threadlist_init], any sequence of list operations that
    respects their contract (only threads on no list are added, only threads
    on the list are removed or used as an anchor) runs without a NULL or wild
    dereference and gives the answers of the same operations on a plain
    sequence of threads. *)
Theorem threadlist_refines_seq h head tail (fr : gset Z) ops
  (Hne : head <> tail) (Hh : head ∉ fr) (Ht : tail ∉ fr)
  (Hfr : forall t, t ∈ fr -> h !! t = Some (mkNode None None (Some t)))
  (Hops : all_ok seq_step lop_ok ([], fr) ops) :
  run threadlist_step (threadlist_init h head tail) ops = run seq_step ([], fr) ops.
Proof.
  apply (run_simulates _ _ related lop_ok); [ | | done].
  { intros c a o HR Ho. destruct (threadlist_step_refines c a o HR Ho) as (c' & a' & ans & H1 & -> & H2).
    eauto. }
  split; [ | unfold zlen; simpl; lia].
  unfold threadlist_init. constructor; cbn [fst snd tl_count].
  - unfold nodes, self_of. simpl.
    rewrite lookup_insert_ne, !lookup_insert_eq, !decide_True by auto. done.
  - unfold nodes. simpl. apply NoDup_cons. split; [set_solver | apply NoDup_singleton].
  - done.
  - intros t Hin. rewrite !lookup_insert_ne by set_solver. by apply Hfr.
  - unfold nodes. simpl. set_solver.
Qed.

(** A heap with the nodes of three threads, all of them initialised. *)
Definition three_threads : heap :=
  <[1 := mkNode None None (Some 1)]> (<[2 := mkNode None None (Some 2)]>
  (<[3 := mkNode None None (Some 3)]> ∅)).

Lemma threadlist_refines_seq_witness :
  run threadlist_step (threadlist_init three_threads 100 101)
    [AddTail 1; AddHead 2; InsertAfter 2 3; RemTail; Remove 3; RemHead; RemHead] =
  run seq_step ([], {[1; 2; 3]})
    [AddTail 1; AddHead 2; InsertAfter 2 3; RemTail; Remove 3; RemHead; RemHead].
Proof.
  apply threadlist_refines_seq; [done | set_solver | set_solver | | ].
  - intros t Ht. assert (t = 1 \/ t = 2 \/ t = 3) as [-> | [-> | ->]] by set_solver; reflexivity.
  - unfold zlen; simpl. set_solver by lia.
Defined.

Lemma forall_from_S fuel h p :
  forall_from (S fuel) h p =
  let* n := load h p in
  let* q := access (tln_next n) in
  let* m := load h q in
  match tln_self m with
  | None => Ok []
  | Some t => let* ts := forall_from fuel h t in Ok (t :: ts)
  end.
Proof. done. Qed.

Lemma forall_seg tl h p ts x :
  dseg (self_of tl) h p (x :: ts ++ [tl_tail tl]) None ->
  NoDup (x :: ts ++ [tl_tail tl]) -> tl_head tl ∉ ts ->
  forall_from (S (length ts)) h x = Ok ts.
Proof.
  revert p x. induction ts as [ | t ts IH]; intros p x Hd Hn Hh.
  - simpl in Hd. destruct Hd as (H1 & H2 & _). cbn [forall_from length]. unfold load.
    rewrite H1. cbn [access rbind tln_next]. rewrite H2. cbn [access rbind tln_self].
    unfold self_of. rewrite decide_True by auto. done.
  - cbn [length]. rewrite forall_from_S. destruct Hd as (H1 & Hd). pose proof Hd as (H2 & _). unfold load.
    rewrite H1. cbn [access rbind tln_next app hd_or]. rewrite H2. cbn [access rbind tln_self].
    apply NoDup_cons in Hn as [_ Hn].
    assert (self_of tl t = Some t) as ->.
    { unfold self_of. rewrite decide_False; [done |]. simpl in Hn.
      apply NoDup_cons in Hn as [Hn _]. set_solver. }
    rewrite (IH (Some x) t); [done | done | done | set_solver].
Qed.

(** Iterating a list with THREADLIST_FORALL terminates and visits exactly
    the threads on the list, in order. *)
Theorem threadlist_forall_visits h tl ts fr (HR : rep h tl ts fr) :
  THREADLIST_FORALL (S (length ts)) h tl = Ok ts.
Proof.
  apply (forall_seg tl h None ts (tl_head tl)); [apply HR | apply HR |].
  pose proof (rep_nodup _ _ _ _ HR) as H. apply NoDup_cons in H as [H _]. set_solver.
Qed.

Lemma threadlist_forall_visits_witness :
  exists h tl, threadlist_step (threadlist_init three_threads 100 101) (AddTail 2) = Ok ((h, tl), LDone) /\
    THREADLIST_FORALL 2 h tl = Ok [2].
Proof.
  eexists _, _. split; [vm_compute; reflexivity |].
  apply (threadlist_forall_visits _ _ [2] ∅).
  constructor.
  - simpl. repeat split.
  - vm_compute. repeat constructor; set_solver.
  - done.
  - set_solver.
  - set_solver.
Defined.
