(* ===== verification/Spinlock.v ===== *)
(** Spinlocks: kern/thread/spinlock.c, as a machine of any number of
    processors that interleave at each access to the lock.

    The state is the lock word, the holder field, each processor's count of
    held spinlocks and where in the code each processor is.  [spin_step s c]
    is the next access of processor [c]; a schedule is the list of processors
    in the order they make their accesses.  Interrupts are off from the first
    line of spinlock_acquire to the last of spinlock_release, so a processor
    runs nothing else in between.  Accesses take effect in the order of the
    schedule.  A test and set whose store conditional fails without cause is
    not a step of its own: it reads as a failed test, after which the loop
    starts again from the same state.  The paths for the time before there is
    a processor are left out. *)
From stdpp Require Import functions.
From S2P Require Import Prelude.

Inductive spin_pc :=
| Out         (** not using the lock *)
| Spin        (** about to read the lock word *)
| TestAndSet  (** read 0, about to test and set *)
| SetHolder   (** owns the lock word, about to write the holder *)
| Inside      (** in the critical section *)
| ClearWord.  (** holder cleared, about to clear the lock word *)

#[global] Instance spin_pc_eq_dec : EqDecision spin_pc.
Proof. solve_decision. Defined.

Record spin := mkSpin {
  splk_lock : Z;
  splk_holder : option Z;
  c_spinlocks : Z -> Z;
  at_pc : Z -> spin_pc
}.

Definition goto (s : spin) (c : Z) (pc : spin_pc) : spin :=
  mkSpin (splk_lock s) (splk_holder s) (c_spinlocks s) (<[c := pc]> (at_pc s)).

Definition spinlock_init : spin := mkSpin 0 None (fun _ => 0) (fun _ => Out).

Definition spinlock_cleanup (s : spin) : res unit :=
  kassert (bool_decide (splk_holder s = None)) (kassert (splk_lock s =? 0) (Ok tt)).

(** spinlock_acquire up to the loop: a processor that holds the lock already
    would wait for itself. *)
Definition acquire_begin (s : spin) (c : Z) : res spin :=
  if bool_decide (splk_holder s = Some c) then Fault PanicCall
  else Ok (mkSpin (splk_lock s) (splk_holder s) (<[c := c_spinlocks s c + 1]> (c_spinlocks s))
             (<[c := Spin]> (at_pc s))).

(** The loop of spinlock_acquire: a plain read of the lock word, then the
    atomic test and set. *)
Definition acquire_read (s : spin) (c : Z) : spin :=
  if negb (splk_lock s =? 0) then s else goto s c TestAndSet.

Definition acquire_testandset (s : spin) (c : Z) : spin :=
  let old := splk_lock s in
  let s := mkSpin 1 (splk_holder s) (c_spinlocks s) (at_pc s) in
  if negb (old =? 0) then goto s c Spin else goto s c SetHolder.

Definition acquire_end (s : spin) (c : Z) : spin :=
  goto (mkSpin (splk_lock s) (Some c) (c_spinlocks s) (at_pc s)) c Inside.

Definition release_begin (s : spin) (c : Z) : res spin :=
  kassert (bool_decide (splk_holder s = Some c)) (
  kassert (0 <? c_spinlocks s c) (
  Ok (mkSpin (splk_lock s) None (<[c := c_spinlocks s c - 1]> (c_spinlocks s))
        (<[c := ClearWord]> (at_pc s))))).

Definition release_end (s : spin) (c : Z) : spin :=
  goto (mkSpin 0 (splk_holder s) (c_spinlocks s) (at_pc s)) c Out.

Definition spinlock_do_i_hold (s : spin) (c : Z) : bool := bool_decide (splk_holder s = Some c).

Definition spin_step (s : spin) (c : Z) : res spin :=
  match at_pc s c with
  | Out => acquire_begin s c
  | Spin => Ok (acquire_read s c)
  | TestAndSet => Ok (acquire_testandset s c)
  | SetHolder => Ok (acquire_end s c)
  | Inside => release_begin s c
  | ClearWord => Ok (release_end s c)
  end.

Fixpoint spin_run (s : spin) (sched : list Z) : res spin :=
  match sched with
  | [] => Ok s
  | c :: sched => let* s := spin_step s c in spin_run s sched
  end.

(** The places where a processor owns the lock word, and where its count is
    up. *)
Definition owns_word (pc : spin_pc) : bool :=
  match pc with SetHolder | Inside | ClearWord => true | _ => false end.
Definition counted (pc : spin_pc) : Z :=
  match pc with Out | ClearWord => 0 | _ => 1 end.

(** [o]: the owner of the lock word, if any. *)
Record spin_inv (s : spin) (o : option Z) : Prop := {
  spin_word : splk_lock s = if o then 1 else 0;
  spin_owner : forall c, owns_word (at_pc s c) = true <-> o = Some c;
  spin_holder : forall c, splk_holder s = Some c <-> at_pc s c = Inside;
  spin_count : forall c, c_spinlocks s c = counted (at_pc s c)
}.

Lemma fn_insert_decide {B} (f : Z -> B) c x d : <[c := x]> f d = if decide (c = d) then x else f d.
Proof. case_decide; subst; [apply fn_lookup_insert | by apply fn_lookup_insert_ne]. Qed.

(** Case analysis on which processor is looked at; what is known of any other
    one is used at that one. *)
Ltac spin_cases :=
  unfold acquire_end, release_end in *; cbn [at_pc splk_lock splk_holder c_spinlocks goto] in *; intros;
  rewrite ?fn_insert_decide; repeat case_decide; subst; cbn [owns_word counted];
  try lia; eauto; try (intuition congruence);
  match goal with
  | Ho : forall c, owns_word _ = true <-> _, Hh : forall c, _ <-> _ = Inside, d : Z |- context [at_pc _ ?d] =>
    specialize (Ho d); specialize (Hh d); destruct (at_pc _ d); cbn in *; intuition congruence
  end.

(** No assertion fails and the invariant is kept by every access of every
    processor. *)
Lemma spin_step_inv s c o : spin_inv s o -> exists s' o', spin_step s c = Ok s' /\ spin_inv s' o'.
Proof.
  intros [W O H N]. pose proof (N c) as Nc. pose proof (O c) as Oc. pose proof (H c) as Hc'.
  unfold spin_step. destruct (at_pc s c) eqn:Hc; cbn [owns_word counted] in Nc, Oc.
  - unfold acquire_begin. rewrite bool_decide_eq_false_2 by (intuition congruence).
    eexists _, o. split; [done |]. split; spin_cases.
  - eexists _, o. split; [done |]. unfold acquire_read. destruct (Z.eqb_spec (splk_lock s) 0); [ | by split].
    cbn [negb]. split; spin_cases.
  - unfold acquire_testandset. destruct o as [c0 | ]; rewrite W; cbn.
    + eexists _, (Some c0). split; [done |]. split; spin_cases.
    + eexists _, (Some c). split; [done |]. split; spin_cases.
  - eexists _, o. split; [done |]. split; spin_cases.
  - unfold release_begin. rewrite bool_decide_eq_true_2 by (intuition congruence). rewrite Nc. cbn.
    eexists _, o. split; [done |]. split; spin_cases.
  - eexists _, None. split; [done |]. split; spin_cases.
Qed.

Lemma spin_run_inv sched s o :
  spin_inv s o -> exists s' o', spin_run s sched = Ok s' /\ spin_inv s' o'.
Proof.
  revert s o. induction sched as [ | c sched IH]; intros s o Inv; [by exists s, o |].
  destruct (spin_step_inv s c o Inv) as (s1 & o1 & E & Inv1). cbn [spin_run]. rewrite E. cbn [rbind].
  by apply (IH s1 o1).
Qed.

Lemma spin_init_inv : spin_inv spinlock_init None.
Proof. split; cbn; naive_solver. Qed.

(** C17: whatever the number of processors and however their accesses
    interleave, no processor panics or fails an assertion in spinlock_acquire
    or spinlock_release, at most one is in the critical section, exactly that
    one finds that it holds the lock, and its count of held spinlocks is 1
    there and 0 outside. *)
Theorem spinlock_mutual_exclusion sched :
  exists s, spin_run spinlock_init sched = Ok s /\
    (forall c d, at_pc s c = Inside -> at_pc s d = Inside -> c = d) /\
    (forall c, spinlock_do_i_hold s c = true <-> at_pc s c = Inside) /\
    (forall c, at_pc s c = Inside -> c_spinlocks s c = 1) /\
    (forall c, at_pc s c = Out -> c_spinlocks s c = 0).
Proof.
  destruct (spin_run_inv sched spinlock_init None spin_init_inv) as (s & o & E & [W O H N]).
  exists s. split; [done |]. split; [ | split; [ | split]].
  - intros c d Hc Hd. apply H in Hc, Hd. congruence.
  - intros c. unfold spinlock_do_i_hold. by rewrite bool_decide_eq_true, H.
  - intros c Hc. by rewrite N, Hc.
  - intros c Hc. by rewrite N, Hc.
Qed.

Lemma spin_run_app s l1 l2 :
  spin_run s (l1 ++ l2) = let* s1 := spin_run s l1 in spin_run s1 l2.
Proof.
  revert s. induction l1 as [ | c l1 IH]; intros s; [done |]. cbn [spin_run app].
  destruct (spin_step s c); [apply IH | done].
Qed.

Lemma at_insert (f : Z -> spin_pc) c x : <[c := x]> f c = x.
Proof. apply fn_lookup_insert. Qed.

(** The next access of a processor, by where it is. *)
Lemma spin_step_at s c : spin_step s c = match at_pc s c with
  | Out => acquire_begin s c | Spin => Ok (acquire_read s c) | TestAndSet => Ok (acquire_testandset s c)
  | SetHolder => Ok (acquire_end s c) | Inside => release_begin s c | ClearWord => Ok (release_end s c) end.
Proof. done. Qed.

Lemma enter_from_set s c : at_pc s c = SetHolder ->
  exists s', spin_run s [c] = Ok s' /\ at_pc s' c = Inside.
Proof. intros H. cbn [spin_run]. rewrite spin_step_at, H. eexists. split; [done |]. apply at_insert. Qed.

Lemma enter_from_test s c : at_pc s c = TestAndSet -> splk_lock s = 0 ->
  exists s', spin_run s [c; c] = Ok s' /\ at_pc s' c = Inside.
Proof.
  intros H W. cbn [spin_run]. rewrite spin_step_at, H. cbn [rbind]. unfold acquire_testandset. rewrite W.
  cbn [negb Z.eqb]. apply enter_from_set, at_insert.
Qed.

Lemma enter_from_spin s c : at_pc s c = Spin -> splk_lock s = 0 ->
  exists s', spin_run s [c; c; c] = Ok s' /\ at_pc s' c = Inside.
Proof.
  intros H W. cbn [spin_run]. rewrite spin_step_at, H. cbn [rbind]. unfold acquire_read. rewrite W.
  cbn [negb Z.eqb]. apply enter_from_test; [apply at_insert | done].
Qed.

(** With the lock word free any processor gets in by itself. *)
Lemma spin_enters s c :
  spin_inv s None -> exists k s', (k <= 4)%nat /\ spin_run s (repeat c k) = Ok s' /\ at_pc s' c = Inside.
Proof.
  intros Inv. pose proof (spin_word _ _ Inv) as W. pose proof (spin_owner _ _ Inv c) as O.
  destruct (at_pc s c) eqn:Hc; cbn in O; try discriminate (proj1 O eq_refl).
  - destruct (spin_step_inv s c None Inv) as (s1 & o1 & E & _). rewrite spin_step_at, Hc in E.
    assert (at_pc s1 c = Spin /\ splk_lock s1 = 0) as [H1 W1].
    { unfold acquire_begin in E. case_match; res_inv. split; [apply at_insert | done]. }
    destruct (enter_from_spin s1 c H1 W1) as (s' & E' & H'). exists 4%nat, s'. split; [lia |].
    split; [ | done]. cbn [repeat spin_run]. rewrite spin_step_at, Hc, E. exact E'.
  - destruct (enter_from_spin s c Hc W) as (s' & E & H). by exists 3%nat, s'; repeat split; [lia | ..].
  - destruct (enter_from_test s c Hc W) as (s' & E & H). by exists 2%nat, s'; repeat split; [lia | ..].
Qed.

Lemma leave_from_clear s d : at_pc s d = ClearWord ->
  exists s', spin_run s [d] = Ok s' /\ splk_lock s' = 0.
Proof. intros H. cbn [spin_run]. rewrite spin_step_at, H. by eexists. Qed.

Lemma leave_from_inside s d o : spin_inv s o -> at_pc s d = Inside ->
  exists s', spin_run s [d; d] = Ok s' /\ splk_lock s' = 0.
Proof.
  intros Inv H. destruct (spin_step_inv s d o Inv) as (s1 & o1 & E & _).
  assert (at_pc s1 d = ClearWord) as H1.
  { rewrite spin_step_at, H in E. unfold release_begin in E. res_inv. apply at_insert. }
  destruct (leave_from_clear s1 d H1) as (s' & E' & W). exists s'. split; [ | done].
  cbn [spin_run]. rewrite E. exact E'.
Qed.

(** The owner of the lock word gives it up by itself. *)
Lemma spin_leaves s d :
  spin_inv s (Some d) -> exists j s', (j <= 3)%nat /\ spin_run s (repeat d j) = Ok s' /\ splk_lock s' = 0.
Proof.
  intros Inv. pose proof (proj2 (spin_owner _ _ Inv d) eq_refl) as O.
  destruct (at_pc s d) eqn:Hd; try discriminate O.
  - destruct (spin_step_inv s d (Some d) Inv) as (s1 & o1 & E & Inv1).
    assert (at_pc s1 d = Inside) as H1.
    { rewrite spin_step_at, Hd in E. injection E as <-. apply at_insert. }
    destruct (leave_from_inside s1 d o1 Inv1 H1) as (s' & E' & W). exists 3%nat, s'. split; [lia |].
    split; [ | done]. cbn [repeat spin_run]. rewrite E. exact E'.
  - destruct (leave_from_inside s d (Some d) Inv Hd) as (s' & E & W). by exists 2%nat, s'; repeat split; [lia | ..].
  - destruct (leave_from_clear s d Hd) as (s' & E & W). by exists 1%nat, s'; repeat split; [lia | ..].
Qed.

(** C38: a spinlock never gets stuck.  From every reachable state and for every
    processor [c] there is a way into the critical section in at most seven
    accesses: the processor that owns the lock word, if any, leaves with at
    most three of its own, and [c] then needs at most four. *)
Theorem spinlock_progress sched s c (Hrun : spin_run spinlock_init sched = Ok s) :
  exists d j k s', (j <= 3)%nat /\ (k <= 4)%nat /\
    spin_run s (repeat d j ++ repeat c k) = Ok s' /\ at_pc s' c = Inside.
Proof.
  destruct (spin_run_inv sched spinlock_init None spin_init_inv) as (s1 & o & E & Inv).
  assert (s1 = s) as -> by congruence. destruct o as [d | ].
  - destruct (spin_leaves s d Inv) as (j & s2 & Hj & E2 & W).
    destruct (spin_run_inv (repeat d j) s (Some d) Inv) as (s3 & o3 & E3 & Inv3).
    assert (s3 = s2) as -> by congruence. pose proof (spin_word _ _ Inv3) as W3.
    destruct o3; [congruence |]. destruct (spin_enters s2 c Inv3) as (k & s' & Hk & Ek & H).
    exists d, j, k, s'. split; [done |]. split; [done |]. split; [ | done]. rewrite spin_run_app, E2. exact Ek.
  - destruct (spin_enters s c Inv) as (k & s' & Hk & Ek & H). exists c, 0%nat, k, s'.
    split; [lia |]. split; [done |]. by split.
Qed.

Lemma spinlock_progress_witness :
  exists s, spin_run spinlock_init [1; 1; 2; 1; 2; 1] = Ok s /\
    exists d j k s', (j <= 3)%nat /\ (k <= 4)%nat /\
      spin_run s (repeat d j ++ repeat 2 k) = Ok s' /\ at_pc s' 2 = Inside.
Proof.
  eexists. split; [reflexivity |].
  apply (spinlock_progress [1; 1; 2; 1; 2; 1]). reflexivity.
Defined.
