(* ===== verification/Synch.v ===== *)
(** Semaphores, locks, condition variables and reader-writer locks:
    kern/thread/synch.c over the wait channels of kern/thread/thread.c.

    Every operation works on its object inside critical sections of the
    object's spinlock, which file Spinlock shows to be exclusive, so one
    critical section is one step here.  A thread that has to wait leaves its
    section by going to sleep on the wait channel; when it has been woken it
    runs another section, which starts by testing the condition again.  The
    threads that sleep are [wc_threads], in order; those that have been woken
    and have not run yet are [wc_woken].  The order of the steps of all threads is
    free: theorems are about every sequence of steps. *)
From S2P Require Import Prelude.

(** The caller: [curthread], [curcpu->c_self], [curthread->t_in_interrupt]. *)
Record ctx := mkCtx {
  self : Z;
  on_cpu : Z;
  in_interrupt : bool
}.

(** ** Wait channels *)

Record wchan := mkWchan {
  wc_ptr : Z;
  wc_threads : list Z;
  wc_woken : list Z
}.

Definition wchan_create (h : kheap) : kheap * option wchan :=
  let (h, p) := halloc h in
  match p with
  | None => (h, None)
  | Some p => (h, Some (mkWchan p [] []))
  end.

(** threadlist_cleanup asserts that nobody is left. *)
Definition wchan_destroy (h : kheap) (wc : wchan) : res kheap :=
  kassert (bool_decide (wc_threads wc = [])) (hfree h (wc_ptr wc)).

Definition wchan_sleep (wc : wchan) (t : Z) : wchan :=
  mkWchan (wc_ptr wc) (wc_threads wc ++ [t]) (wc_woken wc).

Definition wchan_wakeone (wc : wchan) : wchan :=
  match wc_threads wc with
  | [] => wc
  | t :: ts => mkWchan (wc_ptr wc) ts (wc_woken wc ++ [t])
  end.

Definition wchan_wakeall (wc : wchan) : wchan :=
  mkWchan (wc_ptr wc) [] (wc_woken wc ++ wc_threads wc).

Definition wchan_isempty (wc : wchan) : bool := bool_decide (wc_threads wc = []).

(** A woken thread gets to run. *)
Definition wchan_run (wc : wchan) (t : Z) : wchan :=
  mkWchan (wc_ptr wc) (wc_threads wc) (filter (fun u => u <> t) (wc_woken wc)).

(** ** Making and unmaking the objects

    All four kinds are an object, a copy of its name and a wait channel, the
    object and the copy given back when a later part cannot be had. *)
Definition object_create (h : kheap) : res (kheap * option (Z * Z * wchan)) :=
  let (h, obj) := halloc h in
  match obj with
  | None => Ok (h, None)
  | Some obj =>
    let (h, name) := halloc h in
    match name with
    | None => let* h := hfree h obj in Ok (h, None)
    | Some name =>
      let (h, wc) := wchan_create h in
      match wc with
      | None => let* h := hfree h name in let* h := hfree h obj in Ok (h, None)
      | Some wc => Ok (h, Some (obj, name, wc))
      end
    end
  end.

(** In this order; the spinlock is not held between steps, which is what
    spinlock_cleanup asserts. *)
Definition object_destroy (h : kheap) (obj name : Z) (wc : wchan) : res kheap :=
  let* h := wchan_destroy h wc in
  let* h := hfree h name in
  hfree h obj.

(** ** Semaphores *)

Record semaphore := mkSem {
  sem_ptr : Z;
  sem_name : Z;
  sem_wchan : wchan;
  sem_count : Z
}.

Definition sem_create (h : kheap) (initial_count : Z) : res (kheap * option semaphore) :=
  let* (h, parts) := object_create h in
  match parts with
  | None => Ok (h, None)
  | Some (obj, name, wc) => Ok (h, Some (mkSem obj name wc initial_count))
  end.

Definition sem_destroy (h : kheap) (sem : semaphore) : res kheap :=
  object_destroy h (sem_ptr sem) (sem_name sem) (sem_wchan sem).

Definition sem_with (sem : semaphore) (wc : wchan) (n : Z) : semaphore :=
  mkSem (sem_ptr sem) (sem_name sem) wc n.

(** The loop of [P]: [false], the thread has gone to sleep; [true], the
    semaphore has been decremented and [P] returns. *)
Definition P_loop (sem : semaphore) (t : Z) : res (semaphore * bool) :=
  if sem_count sem =? 0 then
    Ok (sem_with sem (wchan_sleep (sem_wchan sem) t) (sem_count sem), false)
  else
    kassert (0 <? sem_count sem) (Ok (sem_with sem (sem_wchan sem) (sem_count sem - 1), true)).

Definition P (sem : semaphore) (c : ctx) : res (semaphore * bool) :=
  kassert (negb (in_interrupt c)) (P_loop sem (self c)).

(** After [wchan_sleep] has returned. *)
Definition P_resume (sem : semaphore) (t : Z) : res (semaphore * bool) :=
  P_loop (sem_with sem (wchan_run (sem_wchan sem) t) (sem_count sem)) t.

Definition V (sem : semaphore) : res semaphore :=
  let n := u32 (sem_count sem + 1) in
  kassert (0 <? n) (Ok (sem_with sem (wchan_wakeone (sem_wchan sem)) n)).

(** ** Locks *)

Record lock := mkLock {
  lk_ptr : Z;
  lk_name : Z;
  lock_wchan : wchan;
  lock_count : Z;
  lock_holder : option Z
}.

Definition lock_create (h : kheap) : res (kheap * option lock) :=
  let* (h, parts) := object_create h in
  match parts with
  | None => Ok (h, None)
  | Some (obj, name, wc) => Ok (h, Some (mkLock obj name wc 1 None))
  end.

Definition lock_destroy (h : kheap) (lk : lock) : res kheap :=
  object_destroy h (lk_ptr lk) (lk_name lk) (lock_wchan lk).

Definition lock_with (lk : lock) (wc : wchan) (n : Z) (holder : option Z) : lock :=
  mkLock (lk_ptr lk) (lk_name lk) wc n holder.

Definition lock_acquire_loop (lk : lock) (c : ctx) : res (lock * bool) :=
  if lock_count lk =? 0 then
    Ok (lock_with lk (wchan_sleep (lock_wchan lk) (self c)) (lock_count lk) (lock_holder lk), false)
  else
    kassert (0 <? lock_count lk)
      (Ok (lock_with lk (lock_wchan lk) (lock_count lk - 1) (Some (on_cpu c)), true)).

Definition lock_acquire (lk : lock) (c : ctx) : res (lock * bool) :=
  kassert (negb (in_interrupt c)) (lock_acquire_loop lk c).

Definition lock_acquire_resume (lk : lock) (c : ctx) : res (lock * bool) :=
  lock_acquire_loop
    (lock_with lk (wchan_run (lock_wchan lk) (self c)) (lock_count lk) (lock_holder lk)) c.

(** Once there is a processor to run on; before that the source answers true. *)
Definition lock_do_i_hold (lk : lock) (c : ctx) : bool :=
  bool_decide (lock_holder lk = Some (on_cpu c)).

Definition lock_release (lk : lock) (c : ctx) : res lock :=
  kassert (lock_do_i_hold lk c) (
  let n := u32 (lock_count lk + 1) in
  kassert (0 <? n) (Ok (lock_with lk (wchan_wakeone (lock_wchan lk)) n None))).

(** ** Condition variables *)

Record cv := mkCv {
  cv_ptr : Z;
  cv_name : Z;
  cv_wchan : wchan;
  cv_count : Z
}.

Definition cv_create (h : kheap) : res (kheap * option cv) :=
  let* (h, parts) := object_create h in
  match parts with
  | None => Ok (h, None)
  | Some (obj, name, wc) => Ok (h, Some (mkCv obj name wc 0))
  end.

Definition cv_destroy (h : kheap) (v : cv) : res kheap :=
  object_destroy h (cv_ptr v) (cv_name v) (cv_wchan v).

Definition cv_with (v : cv) (wc : wchan) (n : Z) : cv := mkCv (cv_ptr v) (cv_name v) wc n.

(** [cv_wait] up to going to sleep, all of it with [cv_lock] held. *)
Definition cv_wait (v : cv) (lk : lock) (c : ctx) : res (cv * lock) :=
  kassert (lock_do_i_hold lk c) (
  let* lk := lock_release lk c in
  Ok (cv_with v (wchan_sleep (cv_wchan v) (self c)) (u32 (cv_count v + 1)), lk)).

(** From waking up to the release of [cv_lock]; [lock_acquire] follows. *)
Definition cv_wait_resume (v : cv) (c : ctx) : cv :=
  cv_with v (wchan_run (cv_wchan v) (self c)) (u32 (cv_count v - 1)).

(** [cv_signal] and [cv_broadcast] release the lock first, wake in a section
    of [cv_lock], and acquire the lock again after it. *)
Definition cv_signal_begin (lk : lock) (c : ctx) : res lock :=
  kassert (lock_do_i_hold lk c) (lock_release lk c).

Definition cv_signal_wake (v : cv) : cv := cv_with v (wchan_wakeone (cv_wchan v)) (cv_count v).

Definition cv_broadcast_wake (v : cv) : cv := cv_with v (wchan_wakeall (cv_wchan v)) (cv_count v).

Definition cv_signal_end (lk : lock) (c : ctx) : res (lock * bool) := lock_acquire lk c.

(** ** Reader-writer locks *)

Record rwlock := mkRw {
  rwlk_ptr : Z;
  rwlk_name : Z;
  rwlock_wchan : wchan;
  reader_count : Z;
  reader_holders : list (option Z);
  writer_holder : option Z;
  writer_in : bool;
  writer_waiting : Z
}.

Definition READ := 0.
Definition WRITE := 1.

Definition no_readers : list (option Z) := repeat None 1000.

(** The four kilobytes of [reader_holders] are cleared with a size computed
    from [struct cpu], not from the pointers stored there. *)
Definition rwlock_create (h : kheap) (sizeof_cpu : Z) : res (kheap * option rwlock) :=
  let* (h, parts) := object_create h in
  match parts with
  | None => Ok (h, None)
  | Some (obj, name, wc) =>
    if sizeof_cpu * 1000 <=? 4 * 1000 then
      Ok (h, Some (mkRw obj name wc 0 no_readers None false 0))
    else Fault BadAccess
  end.

Definition rwlock_destroy (h : kheap) (rw : rwlock) : res kheap :=
  object_destroy h (rwlk_ptr rw) (rwlk_name rw) (rwlock_wchan rw).

Definition rw_sleep (rw : rwlock) (t : Z) : rwlock :=
  mkRw (rwlk_ptr rw) (rwlk_name rw) (wchan_sleep (rwlock_wchan rw) t) (reader_count rw)
    (reader_holders rw) (writer_holder rw) (writer_in rw) (writer_waiting rw).

Definition rw_run (rw : rwlock) (t : Z) : rwlock :=
  mkRw (rwlk_ptr rw) (rwlk_name rw) (wchan_run (rwlock_wchan rw) t) (reader_count rw)
    (reader_holders rw) (writer_holder rw) (writer_in rw) (writer_waiting rw).

(** [for(i = 0; reader_holders[i] != NULL; i++) {}] and
    [reader_holders[i] = curcpu->c_self]; past the last of the thousand slots
    it leaves the array. *)
Fixpoint holders_add (l : list (option Z)) (cpu : Z) : res (list (option Z)) :=
  match l with
  | [] => Fault BadAccess
  | None :: l => Ok (Some cpu :: l)
  | x :: l => let* l := holders_add l cpu in Ok (x :: l)
  end.

(** The search of rwlock_release: KASSERT that some slot matches, and clear
    it. *)
Fixpoint holders_remove (l : list (option Z)) (cpu : Z) : res (list (option Z)) :=
  match l with
  | [] => Fault Assertion
  | x :: l =>
    if bool_decide (x = Some cpu) then Ok (None :: l)
    else let* l := holders_remove l cpu in Ok (x :: l)
  end.

Definition rw_read_loop (rw : rwlock) (c : ctx) : res (rwlock * bool) :=
  if writer_in rw || (negb (writer_waiting rw =? 0) && negb (reader_count rw =? 0)) then
    Ok (rw_sleep rw (self c), false)
  else
    let* l := holders_add (reader_holders rw) (on_cpu c) in
    Ok (mkRw (rwlk_ptr rw) (rwlk_name rw) (rwlock_wchan rw) (u32 (reader_count rw + 1)) l
          (writer_holder rw) (writer_in rw) (writer_waiting rw), true).

Definition rw_write_loop (rw : rwlock) (c : ctx) : res (rwlock * bool) :=
  if negb (reader_count rw =? 0) || writer_in rw then Ok (rw_sleep rw (self c), false)
  else
    Ok (mkRw (rwlk_ptr rw) (rwlk_name rw) (rwlock_wchan rw) (reader_count rw) (reader_holders rw)
          (Some (on_cpu c)) true (s32 (writer_waiting rw - 1)), true).

Definition rw_enter_wait (rw : rwlock) : rwlock :=
  mkRw (rwlk_ptr rw) (rwlk_name rw) (rwlock_wchan rw) (reader_count rw) (reader_holders rw)
    (writer_holder rw) (writer_in rw) (s32 (writer_waiting rw + 1)).

(** An improper mode is only reported. *)
Definition rwlock_acquire (rw : rwlock) (c : ctx) (mode : Z) : res (rwlock * bool) :=
  if mode =? READ then rw_read_loop rw c
  else if mode =? WRITE then rw_write_loop (rw_enter_wait rw) c
  else Ok (rw, true).

Definition rwlock_acquire_resume (rw : rwlock) (c : ctx) (mode : Z) : res (rwlock * bool) :=
  let rw := rw_run rw (self c) in
  if mode =? READ then rw_read_loop rw c else rw_write_loop rw c.

Definition rwlock_release (rw : rwlock) (c : ctx) (mode : Z) : res rwlock :=
  let wake := wchan_wakeall (rwlock_wchan rw) in
  if mode =? READ then
    let* l := holders_remove (reader_holders rw) (on_cpu c) in
    Ok (mkRw (rwlk_ptr rw) (rwlk_name rw) wake (u32 (reader_count rw - 1)) l
          (writer_holder rw) (writer_in rw) (writer_waiting rw))
  else if mode =? WRITE then
    kassert (bool_decide (writer_holder rw = Some (on_cpu c)))
      (Ok (mkRw (rwlk_ptr rw) (rwlk_name rw) wake (reader_count rw) (reader_holders rw)
             None false (writer_waiting rw)))
  else
    Ok (mkRw (rwlk_ptr rw) (rwlk_name rw) wake (reader_count rw) (reader_holders rw)
          (writer_holder rw) (writer_in rw) (writer_waiting rw)).

(** ** Nothing leaks *)

Lemma object_create_cases h :
  heap_ok h ->
  (exists h', object_create h = Ok (h', None) /\ live h' = live h /\ heap_ok h') \/
  (exists h' obj name wc, object_create h = Ok (h', Some (obj, name, wc)) /\ heap_ok h' /\
     wc_threads wc = [] /\ wc_woken wc = [] /\
     name <> obj /\ wc_ptr wc <> obj /\ wc_ptr wc <> name /\
     obj ∉ live h /\ name ∉ live h /\ wc_ptr wc ∉ live h /\
     live h' = {[wc_ptr wc]} ∪ ({[name]} ∪ ({[obj]} ∪ live h))).
Proof.
  intros Hok. unfold object_create, wchan_create.
  destruct (halloc_cases h Hok) as [(h1 & -> & L1 & K1) | (h1 & obj & -> & N1 & L1 & K1)]; [left; eauto |].
  destruct (halloc_cases h1 K1) as [(h2 & -> & L2 & K2) | (h2 & name & -> & N2 & L2 & K2)].
  { destruct (hfree_live h2 obj) as (h3 & -> & L3 & K3); [set_solver | done |].
    left. exists h3. split; [done |]. split; [ | done]. rewrite L3, L2, L1. clear -N1. set_solver. }
  destruct (halloc_cases h2 K2) as [(h3 & -> & L3 & K3) | (h3 & wc & -> & N3 & L3 & K3)].
  - destruct (hfree_live h3 name) as (h4 & -> & L4 & K4); [set_solver | done |]. cbn [rbind].
    destruct (hfree_live h4 obj) as (h5 & -> & L5 & K5); [rewrite L4, L3, L2, L1 in *; clear -N2; set_solver | done |].
    left. exists h5. split; [done |]. split; [ | done].
    rewrite L5, L4, L3, L2, L1 in *. clear -N1 N2. set_solver.
  - right. exists h3, obj, name, (mkWchan wc [] []). cbn. rewrite L1 in L2, N2. rewrite L2 in L3, N3.
    clear L1 L2 K1 K2. split; [done |]. split; [done |]. split; [done |]. split; [done |].
    split; [set_solver |]. split; [set_solver |]. split; [set_solver |].
    split; [done |]. split; [set_solver |]. split; [set_solver | done].
Qed.

Lemma object_destroy_live h obj name wc X :
  heap_ok h -> wc_threads wc = [] ->
  name <> obj -> wc_ptr wc <> obj -> wc_ptr wc <> name ->
  obj ∉ X -> name ∉ X -> wc_ptr wc ∉ X ->
  live h = {[wc_ptr wc]} ∪ ({[name]} ∪ ({[obj]} ∪ X)) ->
  exists h', object_destroy h obj name wc = Ok h' /\ live h' = X.
Proof.
  intros K Hw D1 D2 D3 N1 N2 N3 L. unfold object_destroy, wchan_destroy.
  rewrite bool_decide_eq_true_2 by done. cbn [kassert].
  destruct (hfree_live h (wc_ptr wc)) as (h1 & -> & L1 & K1); [set_solver | done |]. cbn [rbind].
  destruct (hfree_live h1 name) as (h2 & -> & L2 & K2); [set_solver | done |]. cbn [rbind].
  destruct (hfree_live h2 obj) as (h3 & -> & L3 & K3);
    [rewrite L2, L1, L; clear -D1 D2; set_solver | done |].
  exists h3. split; [done |]. rewrite L3, L2, L1, L. clear -D1 D2 D3 N1 N2 N3. set_solver.
Qed.

(** A constructor and its destructor: a failed construction leaves the heap as
    it was, and so does construction followed by destruction. *)
Definition balanced {A} (create : kheap -> res (kheap * option A)) (destroy : kheap -> A -> res kheap) : Prop :=
  forall h, heap_ok h ->
    (exists h', create h = Ok (h', None) /\ live h' = live h) \/
    (exists h' x, create h = Ok (h', Some x) /\ exists h'', destroy h' x = Ok h'' /\ live h'' = live h).

Lemma object_balanced {A} (mk : Z -> Z -> wchan -> A) create (destroy : kheap -> A -> res kheap) :
  (forall h, create h = let* (h, parts) := object_create h in
     match parts with None => Ok (h, None) | Some (obj, name, wc) => Ok (h, Some (mk obj name wc)) end) ->
  (forall h obj name wc, destroy h (mk obj name wc) = object_destroy h obj name wc) ->
  balanced create destroy.
Proof.
  intros Hc Hd h Hok. rewrite Hc.
  destruct (object_create_cases h Hok) as [(h' & -> & L & K) | (h' & obj & name & wc & -> & K & W & _ & H)]; [left; eauto |].
  right. eexists _, _. split; [done |]. rewrite Hd. destruct H as (? & ? & ? & ? & ? & ? & ?).
  by eapply object_destroy_live.
Qed.

(** Semaphores, locks and condition variables are made and unmade without
    leaking or freeing anything twice: whichever of the allocations fails, the
    heap is as before; when all succeed, destroying the fresh object (nobody
    waits on it) gives back exactly what was taken. *)
Theorem synch_objects_balanced n :
  balanced (fun h => sem_create h n) sem_destroy /\ balanced lock_create lock_destroy /\
  balanced cv_create cv_destroy.
Proof.
  split; [ | split].
  - by apply (object_balanced (fun o nm wc => mkSem o nm wc n)).
  - by apply (object_balanced (fun o nm wc => mkLock o nm wc 1 None)).
  - by apply (object_balanced (fun o nm wc => mkCv o nm wc 0)).
Qed.

(** ** Semaphores keep count *)

(** What happens to a semaphore: [SemP] and [SemV], a call by a thread that is
    not blocked in P; [SemResume], a woken thread runs.  The numbers are how
    often P and V have returned. *)
Inductive sem_step : semaphore * Z * Z -> semaphore * Z * Z -> Prop :=
| SemP s p v c s' (got : bool) :
    self c ∉ wc_threads (sem_wchan s) ++ wc_woken (sem_wchan s) -> in_interrupt c = false ->
    P s c = Ok (s', got) -> sem_step (s, p, v) (s', if got then p + 1 else p, v)
| SemResume s p v t s' (got : bool) :
    t ∈ wc_woken (sem_wchan s) ->
    P_resume s t = Ok (s', got) -> sem_step (s, p, v) (s', if got then p + 1 else p, v)
| SemV s p v s' :
    V s = Ok s' -> sem_step (s, p, v) (s', p, v + 1).

Record sem_inv (n : Z) (x : semaphore * Z * Z) : Prop := {
  sem_total : sem_count x.1.1 + x.1.2 = n + x.2;
  sem_range : 0 <= sem_count x.1.1 < 2 ^ 32;
  sem_nodup : NoDup (wc_threads (sem_wchan x.1.1) ++ wc_woken (sem_wchan x.1.1));
  sem_wake : wc_threads (sem_wchan x.1.1) <> [] ->
    sem_count x.1.1 <= zlen (wc_woken (sem_wchan x.1.1))
}.

Lemma woken_run wc t :
  NoDup (wc_threads wc ++ wc_woken wc) -> t ∈ wc_woken wc ->
  zlen (wc_woken (wchan_run wc t)) = zlen (wc_woken wc) - 1 /\
  NoDup (wc_threads wc ++ wc_woken (wchan_run wc t)) /\
  t ∉ wc_threads wc ++ wc_woken (wchan_run wc t).
Proof.
  intros Hnd (l1 & l2 & E)%list_elem_of_split. cbn. rewrite E in *. rewrite filter_app, filter_cons_False by naive_solver.
  rewrite app_assoc in Hnd. apply NoDup_middle in Hnd as [Hnt Hnd].
  assert (Hid : forall l : list Z, t ∉ l -> filter (fun u => u <> t) l = l).
  { induction l as [ | x l IH]; [done |]. intros Hx. rewrite filter_cons_True by set_solver.
    f_equal. apply IH. set_solver. }
  rewrite !Hid by set_solver. unfold zlen. rewrite !length_app. cbn.
  rewrite <- !app_assoc in *. split; [lia |]. done.
Qed.

Lemma wakeone_nodup wc :
  NoDup (wc_threads wc ++ wc_woken wc) ->
  NoDup (wc_threads (wchan_wakeone wc) ++ wc_woken (wchan_wakeone wc)).
Proof.
  unfold wchan_wakeone. destruct (wc_threads wc) as [ | t ts] eqn:E; [by rewrite E |]. cbn.
  rewrite app_assoc. intros H. rewrite <- Permutation_cons_append. done.
Qed.

Lemma sleep_nodup wc t :
  NoDup (wc_threads wc ++ wc_woken wc) -> t ∉ wc_threads wc ++ wc_woken wc ->
  NoDup (wc_threads (wchan_sleep wc t) ++ wc_woken (wchan_sleep wc t)).
Proof.
  intros Hnd Ht. cbn. rewrite <- app_assoc. cbn. by apply NoDup_middle.
Qed.

Lemma P_loop_spec s t :
  0 <= sem_count s ->
  P_loop s t = if sem_count s =? 0 then Ok (sem_with s (wchan_sleep (sem_wchan s) t) (sem_count s), false)
               else Ok (sem_with s (sem_wchan s) (sem_count s - 1), true).
Proof.
  intros H. unfold P_loop. destruct (Z.eqb_spec (sem_count s) 0); [done |].
  by rewrite (proj2 (Z.ltb_lt _ _)) by lia.
Qed.

Lemma P_loop_inv n s p v t s' (got : bool) :
  sem_count s + p = n + v -> 0 <= sem_count s < 2 ^ 32 ->
  NoDup (wc_threads (sem_wchan s) ++ wc_woken (sem_wchan s)) ->
  t ∉ wc_threads (sem_wchan s) ++ wc_woken (sem_wchan s) ->
  (wc_threads (sem_wchan s) <> [] -> sem_count s <= zlen (wc_woken (sem_wchan s)) + 1) ->
  P_loop s t = Ok (s', got) -> sem_inv n (s', if got then p + 1 else p, v).
Proof.
  intros Ht Hr Hnd Hf Hw. rewrite P_loop_spec by lia. destruct (Z.eqb_spec (sem_count s) 0) as [E | E]; intros [= <- <-].
  - split; cbn [fst snd sem_with sem_count sem_wchan]; [lia | lia | by apply sleep_nodup |].
    intros _. rewrite E. unfold zlen. lia.
  - split; cbn [fst snd sem_with sem_count sem_wchan]; [lia | lia | done | intros Hne%Hw; lia].
Qed.

Lemma sem_step_inv n x y : sem_inv n x -> sem_step x y -> sem_inv n y.
Proof.
  intros [Ht Hr Hnd Hw] Hstep. destruct Hstep as [s p v c s' got Hf Hi H | s p v t s' got Hwk H | s p v s' H];
    cbn [fst snd] in *.
  - unfold P in H. rewrite Hi in H. eapply P_loop_inv; try done. intros ?%Hw. lia.
  - destruct (woken_run _ _ Hnd Hwk) as (Hlen & Hnd' & Hf').
    apply (P_loop_inv n (sem_with s (wchan_run (sem_wchan s) t) (sem_count s)) p v t);
      [done | done | exact Hnd' | exact Hf' | | exact H].
    cbn [sem_with sem_wchan sem_count]. intros Hne. cbn [wchan_run wc_threads] in Hne. rewrite Hlen.
    specialize (Hw Hne). lia.
  - unfold V in H. apply kassert_Ok in H as [Hpos [= <-]].
    assert (u32 (sem_count s + 1) = sem_count s + 1) as E.
    { destruct (Z.eq_dec (sem_count s) (2 ^ 32 - 1)) as [E1 | ]; [ | apply u32_id; unfold is_u32; lia].
      rewrite E1 in *. discriminate. }
    split; cbn [fst snd sem_with sem_count sem_wchan]; rewrite ?E.
    { lia. } { pose proof (u32_range (sem_count s + 1)). lia. } { by apply wakeone_nodup. }
    unfold wchan_wakeone. destruct (wc_threads (sem_wchan s)) as [ | w ws] eqn:Ew; [congruence |].
    intros _. cbn. specialize (Hw ltac:(done)). unfold zlen in *. rewrite length_app. cbn. lia.
Qed.

(** C14: semaphores count, and nobody sleeps through a wakeup.  After any
    sequence of P and V by any threads, in any order, on a semaphore created
    with count [n]: the count is [n] plus the Vs minus the Ps that returned,
    so never more Ps return than are due; P asserts nothing false, and makes
    its caller sleep exactly when the count is 0; V fails its assertion only
    where the count would wrap; and when a thread sleeps while the count is
    positive, at least that many woken threads are about to try again. *)
Theorem semaphore_counts n s0 s p v
  (Hn : 0 <= n < 2 ^ 32) (Hc : sem_count s0 = n)
  (Hnew : wc_threads (sem_wchan s0) = [] /\ wc_woken (sem_wchan s0) = [])
  (Hreach : rtc sem_step (s0, 0, 0) (s, p, v)) :
  sem_count s = n + v - p /\ p <= n + v /\
  (forall c, in_interrupt c = false -> exists s', P s c = Ok (s', negb (sem_count s =? 0))) /\
  (sem_count s < 2 ^ 32 - 1 -> exists s', V s = Ok s' /\ sem_count s' = sem_count s + 1) /\
  (wc_threads (sem_wchan s) <> [] -> sem_count s <= zlen (wc_woken (sem_wchan s))).
Proof.
  assert (Inv0 : sem_inv n (s0, 0, 0)).
  { destruct Hnew as [N1 N2]. split; cbn [fst snd]; rewrite ?N1, ?N2; [lia | lia | constructor | done]. }
  assert (Inv : sem_inv n (s, p, v)).
  { revert Inv0. generalize dependent (s0, 0, 0). intros x Hx. induction Hx as [ | x y z Hxy _ IH]; [done |].
    intros Inv. by eapply IH, sem_step_inv. }
  destruct Inv as [Ht Hr Hnd Hw]. cbn [fst snd] in *. split; [lia |]. split; [lia |]. split; [ | split; [ | done]].
  - intros c Hi. unfold P. rewrite Hi. cbn [negb kassert]. rewrite P_loop_spec by lia.
    destruct (sem_count s =? 0); by eexists.
  - intros Hmax. unfold V. rewrite u32_id by (unfold is_u32; lia).
    rewrite (proj2 (Z.ltb_lt _ _)) by lia. by eexists.
Qed.

Definition demo_sem : semaphore := mkSem 1 2 (mkWchan 3 [] []) 1.

Lemma semaphore_counts_witness :
  exists s, rtc sem_step (demo_sem, 0, 0) (s, 1, 1) /\ sem_count s = 1.
Proof.
  exists (mkSem 1 2 (mkWchan 3 [] [8]) 1).
  assert (H : rtc sem_step (demo_sem, 0, 0) (mkSem 1 2 (mkWchan 3 [] [8]) 1, 1, 1)).
  { eapply rtc_l; [eapply (SemP demo_sem 0 0 (mkCtx 7 0 false) _ true); [cbn; set_solver | done | reflexivity] |].
    eapply rtc_l; [eapply (SemP _ _ _ (mkCtx 8 0 false) _ false); [cbn; set_solver | done | reflexivity] |].
    apply rtc_once. eapply SemV. reflexivity. }
  split; [exact H |].
  refine (proj1 (semaphore_counts 1 demo_sem (mkSem 1 2 (mkWchan 3 [] [8]) 1) 1 1 _ eq_refl _ H)); [lia | done].
Defined.

(** ** Locks exclude *)

Section Locks.
(** The processor each thread runs on; threads stay where they are. *)
Context (cpu_of : Z -> Z).

Definition at_home (t : Z) : ctx := mkCtx t (cpu_of t) false.

(** What happens to a lock: a thread that does not hold it and does not wait
    for it calls lock_acquire, a woken thread runs, a thread that holds it
    calls lock_release.  The list is of the threads that hold the lock. *)
Inductive lock_step : lock * list Z -> lock * list Z -> Prop :=
| LockAcquire lk hs t lk' (got : bool) :
    t ∉ wc_threads (lock_wchan lk) ++ wc_woken (lock_wchan lk) -> t ∉ hs ->
    lock_acquire lk (at_home t) = Ok (lk', got) -> lock_step (lk, hs) (lk', if got then t :: hs else hs)
| LockResume lk hs t lk' (got : bool) :
    t ∈ wc_woken (lock_wchan lk) ->
    lock_acquire_resume lk (at_home t) = Ok (lk', got) -> lock_step (lk, hs) (lk', if got then t :: hs else hs)
| LockRelease lk hs1 t hs2 lk' :
    lock_release lk (at_home t) = Ok lk' -> lock_step (lk, hs1 ++ t :: hs2) (lk', hs1 ++ hs2).

(** The lock word against the list of holders. *)
Definition lock_word (count : Z) (holder : option Z) (hs : list Z) : Prop :=
  match hs with
  | [] => count = 1 /\ holder = None
  | [t] => count = 0 /\ holder = Some (cpu_of t)
  | _ => False
  end.

Record lock_inv (x : lock * list Z) : Prop := {
  lk_word : lock_word (lock_count x.1) (lock_holder x.1) x.2;
  lk_nodup : NoDup (wc_threads (lock_wchan x.1) ++ wc_woken (lock_wchan x.1));
  lk_wake : wc_threads (lock_wchan x.1) <> [] -> lock_count x.1 <= zlen (wc_woken (lock_wchan x.1))
}.

Lemma lock_loop_inv lk hs t lk' (got : bool) :
  lock_word (lock_count lk) (lock_holder lk) hs ->
  NoDup (wc_threads (lock_wchan lk) ++ wc_woken (lock_wchan lk)) ->
  t ∉ wc_threads (lock_wchan lk) ++ wc_woken (lock_wchan lk) ->
  (wc_threads (lock_wchan lk) <> [] -> lock_count lk <= zlen (wc_woken (lock_wchan lk)) + 1) ->
  lock_acquire_loop lk (at_home t) = Ok (lk', got) -> lock_inv (lk', if got then t :: hs else hs).
Proof.
  intros W Hnd Hf Hw. unfold lock_acquire_loop. destruct hs as [ | u [ | ? ?]]; [ | | done]; destruct W as [C H];
    rewrite C; cbn.
  - intros [= <- <-]. split; cbn; [done | done | unfold zlen; lia].
  - intros [= <- <-]. split; cbn; [done | by apply (sleep_nodup (lock_wchan lk)) | unfold zlen; lia].
Qed.

Lemma lock_step_inv x y : lock_inv x -> lock_step x y -> lock_inv y.
Proof.
  intros [W Hnd Hw] Hstep.
  destruct Hstep as [lk hs t lk' got Hf _ H | lk hs t lk' got Hwk H | lk hs1 t hs2 lk' H]; cbn [fst snd] in *.
  - eapply lock_loop_inv; try done. intros ?%Hw. lia.
  - destruct (woken_run _ _ Hnd Hwk) as (Hlen & Hnd' & Hf').
    eapply (lock_loop_inv (lock_with lk (wchan_run (lock_wchan lk) t) (lock_count lk) (lock_holder lk)));
      [done | exact Hnd' | exact Hf' | | exact H].
    cbn. intros Hne%Hw. cbn in Hlen. lia.
  - unfold lock_release in H. apply kassert_Ok in H as [_ H]. apply kassert_Ok in H as [_ [= <-]].
    assert (hs1 = [] /\ hs2 = []) as [-> ->].
    { destruct hs1 as [ | ? [ | ? ?]]; [ | done | done]. by destruct hs2. }
    destruct W as [C _]. split; cbn.
    + by rewrite C.
    + by apply wakeone_nodup.
    + rewrite C. change (u32 (0 + 1)) with 1. unfold wchan_wakeone. destruct (wc_threads (lock_wchan lk)) as [ | w ws] eqn:E; [congruence |].
      intros _. cbn. unfold zlen. rewrite length_app. cbn. lia.
Qed.

Lemma lock_reach_inv lk0 x :
  lock_count lk0 = 1 -> lock_holder lk0 = None ->
  wc_threads (lock_wchan lk0) = [] -> wc_woken (lock_wchan lk0) = [] ->
  rtc lock_step (lk0, []) x -> lock_inv x.
Proof.
  intros C H T Wk Hr. assert (Inv0 : lock_inv (lk0, [])).
  { split; cbn; rewrite ?T, ?Wk; [done | constructor | done]. }
  revert Inv0. induction Hr as [ | a b c Hab _ IH]; [done |]. intros Inv. by eapply IH, lock_step_inv.
Qed.

End Locks.

(** C15: locks give mutual exclusion to threads that stay on their processor.
    After any sequence of acquires, wakeups and releases on a fresh lock, in
    any order and by any threads, at most one thread holds it; lock_acquire
    by a thread gets the lock exactly when nobody has it and otherwise puts
    the thread to sleep; the holder is told that it holds the lock and can
    release it; and when the lock is free and somebody sleeps on it, a woken
    thread is about to try. *)
Theorem lock_exclusive cpu_of lk0 lk hs
  (Hc : lock_count lk0 = 1) (Hh : lock_holder lk0 = None)
  (Ht : wc_threads (lock_wchan lk0) = []) (Hw : wc_woken (lock_wchan lk0) = [])
  (Hreach : rtc (lock_step cpu_of) (lk0, []) (lk, hs)) :
  (length hs <= 1)%nat /\
  (forall t, exists lk', lock_acquire lk (at_home cpu_of t) = Ok (lk', bool_decide (hs = []))) /\
  (forall t, t ∈ hs -> lock_do_i_hold lk (at_home cpu_of t) = true /\
     exists lk', lock_release lk (at_home cpu_of t) = Ok lk' /\ lock_count lk' = 1) /\
  (hs = [] -> wc_threads (lock_wchan lk) <> [] -> wc_woken (lock_wchan lk) <> []).
Proof.
  destruct (lock_reach_inv cpu_of lk0 (lk, hs) Hc Hh Ht Hw Hreach) as [W Hnd Hwk]. cbn [fst snd] in *.
  destruct hs as [ | u [ | ? ?]]; [ | | done]; destruct W as [C H].
  - split; [cbn; lia |]. split; [ | split; [set_solver |]].
    + intros t. unfold lock_acquire, lock_acquire_loop. cbn. rewrite C. by eexists.
    + intros _ Hne%Hwk Hnil. rewrite C, Hnil in Hne. cbn in Hne. unfold zlen in Hne. cbn in Hne. lia.
  - split; [cbn; lia |]. split; [ | split; [ | done]].
    + intros t. unfold lock_acquire, lock_acquire_loop. cbn. rewrite C. by eexists.
    + intros t ->%list_elem_of_singleton. unfold lock_release, lock_do_i_hold. cbn.
      rewrite H, bool_decide_eq_true_2, C by done. split; [done |]. by eexists.
Qed.

Definition demo_lock : lock := mkLock 1 2 (mkWchan 3 [] []) 1 None.

Lemma lock_exclusive_witness :
  exists lk, rtc (lock_step (fun t => t mod 2)) (demo_lock, []) (lk, [7]) /\
    exists lk', lock_release lk (at_home (fun t => t mod 2) 7) = Ok lk' /\ lock_count lk' = 1.
Proof.
  exists (mkLock 1 2 (mkWchan 3 [8] []) 0 (Some 1)).
  assert (H : rtc (lock_step (fun t => t mod 2)) (demo_lock, []) (mkLock 1 2 (mkWchan 3 [8] []) 0 (Some 1), [7])).
  { eapply rtc_l; [eapply (LockAcquire _ demo_lock [] 7 _ true); [cbn; set_solver | set_solver | reflexivity] |].
    apply rtc_once. eapply (LockAcquire _ _ [7] 8 _ false); [cbn; set_solver | set_solver | reflexivity]. }
  split; [exact H |].
  destruct (lock_exclusive (fun t => t mod 2) demo_lock (mkLock 1 2 (mkWchan 3 [8] []) 0 (Some 1)) [7]
    eq_refl eq_refl eq_refl eq_refl H) as (_ & _ & Hrel & _).
  exact (proj2 (Hrel 7 (list_elem_of_here 7 []))).
Defined.

(** Who holds a lock is recorded by processor, not by thread.  When thread
    [t] has taken a free lock on processor [a], every thread on [a] is told
    that it holds the lock and may release it, after which a third thread
    takes the lock while [t] is still in its critical section; and [t] itself,
    once moved to another processor, fails the assertion in lock_release. *)
Theorem lock_holder_is_cpu lk t a lk1
  (Hc : lock_count lk = 1) (Hacq : lock_acquire lk (mkCtx t a false) = Ok (lk1, true)) :
  (forall u, lock_do_i_hold lk1 (mkCtx u a false) = true /\
     exists lk2, lock_release lk1 (mkCtx u a false) = Ok lk2 /\
       forall w b, exists lk3, lock_acquire lk2 (mkCtx w b false) = Ok (lk3, true)) /\
  (forall b, b <> a -> lock_release lk1 (mkCtx t b false) = Fault Assertion).
Proof.
  unfold lock_acquire, lock_acquire_loop in Hacq. cbn in Hacq. rewrite Hc in Hacq. injection Hacq as <-.
  unfold lock_release, lock_do_i_hold. cbn. split.
  - intros u. rewrite bool_decide_eq_true_2 by done. split; [done |]. eexists. split; [done |].
    intros w b. unfold lock_acquire, lock_acquire_loop. cbn. by eexists.
  - intros b Hb. by rewrite bool_decide_eq_false_2 by congruence.
Qed.

Lemma lock_holder_is_cpu_witness :
  exists lk1, lock_acquire demo_lock (mkCtx 7 0 false) = Ok (lk1, true) /\
    lock_release lk1 (mkCtx 7 1 false) = Fault Assertion.
Proof.
  eexists. split; [reflexivity |].
  apply (proj2 (lock_holder_is_cpu demo_lock 7 0 _ eq_refl eq_refl)). discriminate.
Defined.

(** ** Condition variables are first in, first out *)

(** What happens to a condition variable, with the threads that have called
    cv_wait and those that have been woken, both in order.  [CvLock]: anything
    else happens to the lock. *)
Inductive cv_step : cv * lock * list Z * list Z -> cv * lock * list Z * list Z -> Prop :=
| CvWait v lk ws wk c v' lk' :
    self c ∉ wc_threads (cv_wchan v) ++ wc_woken (cv_wchan v) ->
    cv_wait v lk c = Ok (v', lk') -> cv_step (v, lk, ws, wk) (v', lk', ws ++ [self c], wk)
| CvResume v lk ws wk c :
    self c ∈ wc_woken (cv_wchan v) -> cv_step (v, lk, ws, wk) (cv_wait_resume v c, lk, ws, wk)
| CvSignal v lk ws wk :
    cv_step (v, lk, ws, wk) (cv_signal_wake v, lk, ws, wk ++ take 1 (wc_threads (cv_wchan v)))
| CvBroadcast v lk ws wk :
    cv_step (v, lk, ws, wk) (cv_broadcast_wake v, lk, ws, wk ++ wc_threads (cv_wchan v))
| CvLock v lk ws wk lk' : cv_step (v, lk, ws, wk) (v, lk', ws, wk).

Record cv_inv (x : cv * lock * list Z * list Z) : Prop := {
  cv_order : x.1.2 = x.2 ++ wc_threads (cv_wchan x.1.1.1);
  cv_nodup : NoDup (wc_threads (cv_wchan x.1.1.1) ++ wc_woken (cv_wchan x.1.1.1));
  cv_counts : cv_count x.1.1.1 = u32 (zlen (wc_threads (cv_wchan x.1.1.1) ++ wc_woken (cv_wchan x.1.1.1)))
}.

Lemma u32_add a b : u32 (u32 a + b) = u32 (a + b).
Proof. unfold u32. by rewrite Zplus_mod_idemp_l. Qed.

Lemma wakeall_nodup wc :
  NoDup (wc_threads wc ++ wc_woken wc) ->
  NoDup (wc_threads (wchan_wakeall wc) ++ wc_woken (wchan_wakeall wc)).
Proof. cbn. by rewrite Permutation_app_comm. Qed.

Lemma wakeone_zlen wc :
  zlen (wc_threads (wchan_wakeone wc) ++ wc_woken (wchan_wakeone wc)) = zlen (wc_threads wc ++ wc_woken wc).
Proof.
  unfold wchan_wakeone, zlen. destruct (wc_threads wc) eqn:E; [by rewrite E |]. cbn.
  rewrite !length_app. cbn. lia.
Qed.

Lemma cv_step_inv x y : cv_inv x -> cv_step x y -> cv_inv y.
Proof.
  intros [O Hnd N] Hstep.
  destruct Hstep as [v lk ws wk c v' lk' Hf H | v lk ws wk c Hwk | v lk ws wk | v lk ws wk | ]; cbn [fst snd] in *;
    [ | | | | by split].
  - unfold cv_wait in H. apply kassert_Ok in H as [_ H]. apply rbind_Ok in H as (lk1 & _ & [= <- <-]).
    split; cbn [fst snd cv_with cv_wchan cv_count].
    + rewrite O. cbn. by rewrite app_assoc.
    + by apply sleep_nodup.
    + rewrite N, u32_add. f_equal. unfold zlen. cbn. rewrite !length_app. cbn. lia.
  - destruct (woken_run _ _ Hnd Hwk) as (Hlen & Hnd' & _).
    split; cbn [fst snd cv_wait_resume cv_with cv_wchan cv_count]; [done | done |].
    rewrite N. change (u32 (?a - 1)) with (u32 (a + -1)). rewrite u32_add. f_equal.
    unfold zlen in *. cbn in *. rewrite !length_app. lia.
  - split; cbn [fst snd cv_signal_wake cv_with cv_wchan cv_count].
    + rewrite O. unfold wchan_wakeone. destruct (wc_threads (cv_wchan v)) as [ | t ts] eqn:E; cbn.
      * by rewrite E, !app_nil_r.
      * by rewrite <- app_assoc.
    + by apply wakeone_nodup.
    + by rewrite wakeone_zlen.
  - split; cbn [fst snd cv_broadcast_wake cv_with cv_wchan cv_count].
    + cbn. by rewrite app_nil_r.
    + by apply wakeall_nodup.
    + rewrite N. f_equal. unfold zlen. cbn. rewrite !length_app. lia.
Qed.

(** No wakeup of a condition variable is lost or out of order.  After any
    sequence of waits, signals and broadcasts on a fresh condition variable,
    interleaved with anything that happens to the lock: the threads that
    called cv_wait are, in that order, those woken so far followed by those
    still asleep; nobody is in the channel twice; and cv_count is the number
    of threads inside cv_wait.  A thread is on the channel from the moment it
    lets go of the lock. *)
Theorem cv_fifo v0 lk0 v lk ws wk
  (Hcount : cv_count v0 = 0) (Ht : wc_threads (cv_wchan v0) = []) (Hw : wc_woken (cv_wchan v0) = [])
  (Hreach : rtc cv_step (v0, lk0, [], []) (v, lk, ws, wk)) :
  ws = wk ++ wc_threads (cv_wchan v) /\
  NoDup (wc_threads (cv_wchan v) ++ wc_woken (cv_wchan v)) /\
  cv_count v = u32 (zlen (wc_threads (cv_wchan v) ++ wc_woken (cv_wchan v))) /\
  (forall c v' lk', cv_wait v lk c = Ok (v', lk') ->
     lock_holder lk' = None /\ wc_threads (cv_wchan v') = wc_threads (cv_wchan v) ++ [self c]).
Proof.
  assert (Inv : cv_inv (v, lk, ws, wk)).
  { assert (Inv0 : cv_inv (v0, lk0, [], [])).
    { split; cbn [fst snd]; rewrite ?Ht, ?Hw; [done | constructor | by rewrite Hcount]. }
    revert Inv0. induction Hreach as [ | a b c Hab _ IH]; [done |]. intros Inv. by eapply IH, cv_step_inv. }
  destruct Inv as [O Hnd N]. split; [done |]. split; [done |]. split; [done |].
  intros c v' lk' H. unfold cv_wait, lock_release in H. res_inv. done.
Qed.

Definition demo_cv : cv := mkCv 4 5 (mkWchan 6 [] []) 0.
Definition held_lock : lock := mkLock 1 2 (mkWchan 3 [] []) 0 (Some 0).

Lemma cv_fifo_witness :
  exists v lk, rtc cv_step (demo_cv, held_lock, [], []) (v, lk, [7; 8], [7]) /\
    [7; 8] = [7] ++ wc_threads (cv_wchan v).
Proof.
  eexists _, _. assert (H : rtc cv_step (demo_cv, held_lock, [], [])
    (mkCv 4 5 (mkWchan 6 [8] [7]) 2, mkLock 1 2 (mkWchan 3 [] []) 1 None, [7; 8], [7])).
  { eapply rtc_l; [eapply (CvWait demo_cv held_lock [] [] (mkCtx 7 0 false)); [cbn; set_solver | reflexivity] |].
    eapply rtc_l; [apply (CvLock _ _ _ _ held_lock) |].
    eapply rtc_l; [eapply (CvWait _ held_lock _ _ (mkCtx 8 0 false)); [cbn; set_solver | reflexivity] |].
    apply rtc_once.
    exact (CvSignal (mkCv 4 5 (mkWchan 6 [7; 8] []) 2) (mkLock 1 2 (mkWchan 3 [] []) 1 None) [7; 8] []). }
  split; [exact H |].
  exact (proj1 (cv_fifo demo_cv held_lock _ _ _ _ eq_refl eq_refl eq_refl H)).
Defined.

(** Cv_signal and cv_broadcast let go of the lock in the middle.  A thread
    that holds the lock and calls either has given it up by the time it wakes
    anybody: any other thread can take the lock there, and the caller then
    sleeps at the end of cv_signal, so what the lock protects may change
    during the call. *)
Theorem cv_signal_drops_lock lk c lk1
  (Hheld : lock_count lk = 0) (Hint : in_interrupt c = false) (Hbegin : cv_signal_begin lk c = Ok lk1) :
  forall c2, in_interrupt c2 = false ->
    exists lk2 lk3, lock_acquire lk1 c2 = Ok (lk2, true) /\ cv_signal_end lk2 c = Ok (lk3, false).
Proof.
  intros c2 Hc2. unfold cv_signal_begin, lock_release in Hbegin. res_inv. rewrite Hheld in *.
  unfold cv_signal_end, lock_acquire, lock_acquire_loop. rewrite Hc2, Hint. cbn.
  eexists _, _. by split.
Qed.

Lemma cv_signal_drops_lock_witness :
  exists lk1 lk2 lk3, cv_signal_begin held_lock (mkCtx 7 0 false) = Ok lk1 /\
    lock_acquire lk1 (mkCtx 8 0 false) = Ok (lk2, true) /\ cv_signal_end lk2 (mkCtx 7 0 false) = Ok (lk3, false).
Proof.
  destruct (cv_signal_drops_lock held_lock (mkCtx 7 0 false) (mkLock 1 2 (mkWchan 3 [] []) 1 None)
    eq_refl eq_refl eq_refl (mkCtx 8 0 false) eq_refl) as (lk2 & lk3 & H).
  eexists _, lk2, lk3. split; [reflexivity | exact H].
Defined.

(** ** Reader-writer locks *)

(** The processors in the slots of [reader_holders]. *)
Definition slots (l : list (option Z)) : list Z := omap id l.

Lemma slots_cons x l : slots (x :: l) = match x with Some c => c :: slots l | None => slots l end.
Proof. by destruct x. Qed.

Lemma holders_add_spec l cpu l' :
  holders_add l cpu = Ok l' -> length l' = length l /\ slots l' ≡ₚ cpu :: slots l.
Proof.
  revert l'. induction l as [ | [x | ] l IH]; intros l'; cbn [holders_add]; [done | | ].
  - intros H. apply rbind_Ok in H as (l1 & [E P]%IH & [= <-]). split; [cbn; lia |].
    cbn. rewrite P. apply Permutation_swap.
  - intros [= <-]. done.
Qed.

Lemma holders_remove_spec l cpu :
  cpu ∈ slots l ->
  exists l', holders_remove l cpu = Ok l' /\ length l' = length l /\ slots l ≡ₚ cpu :: slots l'.
Proof.
  induction l as [ | x l IH]; cbn [holders_remove]; [cbn; set_solver |]. intros Hin.
  destruct (bool_decide (x = Some cpu)) eqn:E.
  - apply bool_decide_eq_true in E as ->. eexists. done.
  - apply bool_decide_eq_false in E. destruct IH as (l' & -> & L & P).
    { destruct x as [x | ]; [ | exact Hin]. cbn in Hin. set_solver. }
    eexists. split; [done |]. split; [cbn; lia |]. destruct x as [x | ]; [ | exact P].
    cbn. rewrite P. apply Permutation_swap.
Qed.

Section RwLocks.
Context (cpu_of : Z -> Z).

(** What happens to a reader-writer lock, with the threads that hold it for
    reading and for writing.  A woken thread tries again in the mode it asked
    for. *)
Inductive rw_step : rwlock * list Z * list Z -> rwlock * list Z * list Z -> Prop :=
| RwAcquire rw rs ws t rw' (got : bool) mode :
    mode = READ \/ mode = WRITE ->
    rwlock_acquire rw (at_home cpu_of t) mode = Ok (rw', got) ->
    rw_step (rw, rs, ws)
      (rw', if got && (mode =? READ) then t :: rs else rs, if got && (mode =? WRITE) then t :: ws else ws)
| RwResume rw rs ws t rw' (got : bool) mode :
    mode = READ \/ mode = WRITE -> t ∈ wc_woken (rwlock_wchan rw) ->
    rwlock_acquire_resume rw (at_home cpu_of t) mode = Ok (rw', got) ->
    rw_step (rw, rs, ws)
      (rw', if got && (mode =? READ) then t :: rs else rs, if got && (mode =? WRITE) then t :: ws else ws)
| RwReleaseRead rw r1 t r2 ws rw' :
    rwlock_release rw (at_home cpu_of t) READ = Ok rw' -> rw_step (rw, r1 ++ t :: r2, ws) (rw', r1 ++ r2, ws)
| RwReleaseWrite rw rs w1 t w2 rw' :
    rwlock_release rw (at_home cpu_of t) WRITE = Ok rw' -> rw_step (rw, rs, w1 ++ t :: w2) (rw', rs, w1 ++ w2).

(** Who is in, against the fields. *)
Definition writer_fields (rw : rwlock) (rs ws : list Z) : Prop :=
  match ws with
  | [] => writer_in rw = false
  | [t] => writer_in rw = true /\ writer_holder rw = Some (cpu_of t) /\ rs = []
  | _ => False
  end.

Record rw_inv (x : rwlock * list Z * list Z) : Prop := {
  rw_slots : slots (reader_holders x.1.1) ≡ₚ map cpu_of x.1.2;
  rw_length : length (reader_holders x.1.1) = 1000%nat;
  rw_count : reader_count x.1.1 = zlen x.1.2;
  rw_writer : writer_fields x.1.1 x.1.2 x.2;
  rw_busy : wc_threads (rwlock_wchan x.1.1) <> [] -> x.1.2 <> [] \/ x.2 <> []
}.

Lemma slots_bound l : (length (slots l) <= length l)%nat.
Proof. induction l as [ | [x | ] l IH]; [done | |]; rewrite slots_cons; cbn [length]; lia. Qed.

Lemma rw_readers_bound rw rs ws : rw_inv (rw, rs, ws) -> zlen rs <= 1000.
Proof.
  intros [S L _ _ _]. cbn in *. pose proof (slots_bound (reader_holders rw)) as B.
  apply Permutation_length in S. rewrite length_map in S. unfold zlen. lia.
Qed.

Lemma rw_read_inv rw rs ws t rw' (got : bool) :
  rw_inv (rw, rs, ws) -> rw_read_loop rw (at_home cpu_of t) = Ok (rw', got) ->
  rw_inv (rw', if got then t :: rs else rs, ws).
Proof.
  intros Inv H. pose proof Inv as [S L C W B]. unfold rw_read_loop in H. cbn [fst snd] in *.
  destruct (writer_in rw) eqn:Ew; cbn [orb] in H.
  - injection H as <- <-. destruct ws as [ | w [ | ? ?]]; [cbn in W; congruence | | done].
    split; cbn; auto.
  - destruct ws as [ | w [ | ? ?]]; [ | destruct W; congruence | done].
    destruct (_ && _) eqn:E.
    + injection H as <- <-. bool_inv. split; cbn; auto. intros _. left. intros ->. rewrite C in *. done.
    + apply rbind_Ok in H as (l & Hl & [= <- <-]). apply holders_add_spec in Hl as [L' P'].
      assert (zlen rs <= 1000) by (by eapply rw_readers_bound).
      split; cbn [fst snd reader_holders reader_count rwlock_wchan].
      * rewrite P', S. done.
      * congruence.
      * rewrite C, u32_id by (unfold is_u32, zlen in *; lia). unfold zlen. cbn. lia.
      * done.
      * by left.
Qed.

Lemma rw_write_inv rw rs ws t rw' (got : bool) :
  rw_inv (rw, rs, ws) -> rw_write_loop rw (at_home cpu_of t) = Ok (rw', got) ->
  rw_inv (rw', rs, if got then t :: ws else ws).
Proof.
  intros [S L C W B] H. unfold rw_write_loop in H. cbn [fst snd] in *.
  destruct (negb (reader_count rw =? 0) || writer_in rw) eqn:E.
  - injection H as <- <-. split; cbn; auto. intros _. apply orb_true_iff in E as [E | E].
    + bool_inv. left. intros ->. by rewrite C in E.
    + right. intros ->. cbn in W. congruence.
  - injection H as <- <-. bool_inv. destruct ws as [ | w [ | ? ?]]; [ | destruct W; congruence | done].
    assert (rs = []) as ->. { destruct rs; [done |]. rewrite C in *. unfold zlen in *. cbn in *. lia. }
    split; cbn; auto.
Qed.

(** Only the wait channel and the number of waiting writers differ. *)
Lemma rw_inv_other rw rw' rs ws :
  rw_inv (rw, rs, ws) ->
  reader_holders rw' = reader_holders rw -> reader_count rw' = reader_count rw ->
  writer_in rw' = writer_in rw -> writer_holder rw' = writer_holder rw ->
  (wc_threads (rwlock_wchan rw') <> [] -> wc_threads (rwlock_wchan rw) <> []) ->
  rw_inv (rw', rs, ws).
Proof.
  intros [S L C W B] E1 E2 E3 E4 E5. split; cbn [fst snd] in *; rewrite ?E1, ?E2; auto.
  unfold writer_fields in *. by rewrite E3, E4.
Qed.

Lemma rw_step_inv x y : rw_inv x -> rw_step x y -> rw_inv y.
Proof.
  intros Inv Hstep.
  destruct Hstep as [rw rs ws t rw' got mode Hm H | rw rs ws t rw' got mode Hm Hwk H | rw r1 t r2 ws rw' H | rw rs w1 t w2 rw' H].
  - destruct Hm as [-> | ->]; unfold rwlock_acquire in H; cbn in H; rewrite ?andb_true_r, ?andb_false_r; cbn.
    + by eapply rw_read_inv.
    + eapply rw_write_inv; [ | exact H]. by eapply rw_inv_other.
  - assert (Inv' : rw_inv (rw_run rw t, rs, ws)) by (by eapply rw_inv_other).
    destruct Hm as [-> | ->]; unfold rwlock_acquire_resume in H; cbn in H; rewrite ?andb_true_r, ?andb_false_r; cbn.
    + by eapply rw_read_inv.
    + by eapply rw_write_inv.
  - pose proof (rw_readers_bound _ _ _ Inv) as Hb. destruct Inv as [S L C W B]. cbn [fst snd] in *.
    unfold rwlock_release in H. cbn in H.
    destruct (holders_remove_spec (reader_holders rw) (cpu_of t)) as (l & E & L' & P).
    { rewrite S. apply list_elem_of_In, in_map, list_elem_of_In. set_solver. }
    rewrite E in H. injection H as <-. split; cbn [fst snd reader_holders reader_count rwlock_wchan wchan_wakeall wc_threads].
    + rewrite P, map_app in S. cbn in S. rewrite <- Permutation_middle in S. apply Permutation_cons_inv in S.
      by rewrite map_app.
    + lia.
    + rewrite C. unfold zlen in *. rewrite length_app in *. cbn in *. rewrite length_app in *. cbn in *.
      rewrite u32_id by (unfold is_u32; lia). lia.
    + destruct ws as [ | w [ | ? ?]]; [exact W | | done]. destruct W as (_ & _ & Hnil). by destruct r1.
    + done.
  - destruct Inv as [S L C W B]. cbn [fst snd] in *. unfold rwlock_release in H. cbn in H.
    apply kassert_Ok in H as [_ [= <-]].
    assert (w1 = [] /\ w2 = []) as [-> ->].
    { destruct w1 as [ | ? [ | ? ?]]; [ | done | done]. by destruct w2. }
    split; cbn; done.
Qed.

End RwLocks.

(** The fields of the lock as rwlock_create means to leave them.  In this state
    it never hands one over: its memset clears the array of readers and goes on
    through the rest of the structure, zeros already, into memory that is not
    its own ([rwlock_create_overruns]). *)
Definition rwlock_new (p name wc : Z) : rwlock :=
  mkRw p name (mkWchan wc [] []) 0 no_readers None false 0.

(** C31: reader-writer locks exclude, under two conditions: the threads stay on
    their processor ([cpu_of]), and the lock starts with the fields [rwlock_new],
    which rwlock_create means to leave but runs past ([rwlock_create_overruns]).
    After any sequence of acquires in either mode, wakeups and releases on such
    a lock: there is at most one writer, and none while
    there are readers; reader_count is the number of readers; whoever is in
    passes the assertions when leaving; and nobody sleeps on a lock that is
    free. *)
Theorem rwlock_excludes cpu_of p name wc rw rs ws
  (Hreach : rtc (rw_step cpu_of) (rwlock_new p name wc, [], []) (rw, rs, ws)) :
  (ws = [] \/ (rs = [] /\ exists t, ws = [t])) /\
  reader_count rw = zlen rs /\
  (forall t, t ∈ rs -> exists rw', rwlock_release rw (at_home cpu_of t) READ = Ok rw') /\
  (forall t, t ∈ ws -> exists rw', rwlock_release rw (at_home cpu_of t) WRITE = Ok rw') /\
  (rs = [] -> ws = [] -> wc_threads (rwlock_wchan rw) = []).
Proof.
  assert (Inv : rw_inv cpu_of (rw, rs, ws)).
  { assert (Inv0 : rw_inv cpu_of (rwlock_new p name wc, [], [])).
    { by split. }
    revert Inv0. induction Hreach as [ | a b c Hab _ IH]; [done |]. intros Inv. by eapply IH, rw_step_inv. }
  destruct Inv as [S L C W B]. cbn [fst snd] in *. split; [ | split; [done | split; [ | split]]].
  - destruct ws as [ | w [ | ? ?]]; [by left | | done]. right. destruct W as (_ & _ & ->). eauto.
  - intros t Ht. unfold rwlock_release. cbn.
    destruct (holders_remove_spec (reader_holders rw) (cpu_of t)) as (l & -> & _); [ | by eexists].
    rewrite S. apply list_elem_of_In, in_map, list_elem_of_In. done.
  - intros t Ht. destruct ws as [ | w [ | ? ?]]; [set_solver | | done]. destruct W as (_ & H & _).
    apply list_elem_of_singleton in Ht as ->. unfold rwlock_release. cbn. rewrite bool_decide_eq_true_2 by done.
    by eexists.
  - intros -> ->. destruct (wc_threads (rwlock_wchan rw)); [done |]. by destruct B.
Qed.

Lemma rwlock_excludes_witness :
  exists rw, rtc (rw_step (fun t => t mod 2)) (rwlock_new 1 2 3, [], []) (rw, [7], []) /\
    exists rw', rwlock_release rw (at_home (fun t => t mod 2) 7) READ = Ok rw'.
Proof.
  assert (H : exists rw, rtc (rw_step (fun t => t mod 2)) (rwlock_new 1 2 3, [], []) (rw, [7], [])).
  { eexists. apply rtc_once. exact (RwAcquire _ (rwlock_new 1 2 3) [] [] 7 _ true READ (or_introl eq_refl) eq_refl). }
  destruct H as [rw H]. exists rw. split; [exact H |].
  exact (proj1 (proj2 (proj2 (rwlock_excludes (fun t => t mod 2) 1 2 3 rw [7] [] H))) 7 (list_elem_of_here 7 [])).
Defined.

(** Rwlock_create writes past its object.  It clears sizeof(struct cpu)
    times 1000 bytes at an array of 1000 pointers of four bytes, so that it
    never returns a lock: either memory runs out, or, since a [struct cpu] is
    larger than a pointer, it overruns. *)
Theorem rwlock_create_overruns h sizeof_cpu (Hok : heap_ok h) (Hsize : 4 < sizeof_cpu) :
  (exists h', rwlock_create h sizeof_cpu = Ok (h', None) /\ live h' = live h) \/
  rwlock_create h sizeof_cpu = Fault BadAccess.
Proof.
  unfold rwlock_create.
  destruct (object_create_cases h Hok) as [(h' & -> & L & K) | (h' & obj & name & wc & -> & _)]; [left; eauto |].
  right. cbn [rbind]. by rewrite (proj2 (Z.leb_gt _ _)) by lia.
Qed.

Lemma rwlock_create_overruns_witness : rwlock_create (mkHeap ∅ 0 []) 120 = Fault BadAccess.
Proof.
  destruct (rwlock_create_overruns (mkHeap ∅ 0 []) 120) as [(h' & E & _) | E].
  - intros p Hp. cbn in Hp. set_solver.
  - lia.
  - discriminate E.
  - exact E.
Defined.
