(* ===== verification/Coremap.v ===== *)
(** Physical memory: kern/arch/mips/vm/ram.c and the coremap half of
    kern/arch/mips/vm/mipsvm.c, with the kernel-page allocator that kmalloc
    and the address spaces are built on, and the TLB it shoots down.

    The globals of the VM system are the record [vm].  [cm] is the array
    [coremap->entries]; [coremap->size] is its length.  Address spaces are
    objects with an identity (their address), kept in the map [spaces].  The
    lock [cm_lock] is held over the whole of alloc_kpages and free_kpages and
    released on every path, so these do not overlap with each other;
    [cm_lock_acquire] keeps what lock_acquire asserts.  The lock is a sleep
    lock: a call may be preempted in the middle, and vm_fault, which takes no
    lock, may run there.  File Addrspace cuts alloc_kpages into the claims of
    its frames ([page_alloc]) for that, and shows what a page fault in the
    middle of [page_alloc] does. *)
From S2P Require Import Prelude.

Definition PAGE_SIZE := 4096.
Definition PAGE_FRAME := 0xfffff000.
Definition MIPS_KSEG0 := 0x80000000.
Definition USERSPACETOP := MIPS_KSEG0.
Definition USERSTACK := USERSPACETOP.

Definition PADDR_TO_KVADDR (paddr : Z) : Z := u32 (paddr + MIPS_KSEG0).
Definition KVADDR_TO_PADDR (vaddr : Z) : Z := u32 (vaddr - MIPS_KSEG0).

(** The page of an address. *)
Lemma page_frame_spec x : is_u32 x -> Z.land x PAGE_FRAME = x - x mod PAGE_SIZE.
Proof.
  intros Hx. transitivity (Z.shiftl (Z.shiftr x 12) 12).
  - change PAGE_FRAME with (Z.shiftl (Z.ones 20) 12). apply Z.bits_inj'. intros n Hn.
    rewrite Z.land_spec, !Z.shiftl_spec by lia. destruct (Z.ltb_spec n 12).
    { rewrite !(Z.testbit_neg_r _ (n - 12)) by lia. apply andb_false_r. }
    rewrite Z.shiftr_spec by lia. rewrite Z.testbit_ones_nonneg by lia.
    replace (n - 12 + 12) with n by lia. destruct (Z.ltb_spec (n - 12) 20); [apply andb_true_r |].
    rewrite andb_false_r. symmetry. destruct (Z.eq_dec x 0) as [-> | ]; [apply Z.bits_0 |].
    apply Z.bits_above_log2; [unfold is_u32 in Hx; lia |].
    apply Z.log2_lt_pow2; [unfold is_u32 in Hx; lia |].
    unfold is_u32 in Hx. apply (Z.lt_le_trans _ (2 ^ 32)); [lia |]. apply Z.pow_le_mono_r; lia.
  - rewrite Z.shiftl_mul_pow2, Z.shiftr_div_pow2 by lia. unfold PAGE_SIZE. div_lia.
Qed.

Inductive page_state_t := FREE | DIRTY | FIXED | CLEAN.

#[global] Instance page_state_eq_dec : EqDecision page_state_t.
Proof. solve_decision. Defined.

Record coremap_entry := mkEntry {
  ce_as : option Z;
  ce_va : Z;
  ce_pa : Z;
  ce_st : page_state_t
}.

Record page_table_entry := mkPte {
  pt_va : Z;
  pt_pa : Z;
  pt_valid : Z
}.

Definition PTABLESIZE := 4096.

(** [as_heapstart] and [as_heapend] are never assigned in the VM system:
    [None] is an uninitialised field. *)
Record addrspace := mkAs {
  as_vbase1 : Z;
  as_pbase1 : Z;
  as_npages1 : Z;
  as_vbase2 : Z;
  as_pbase2 : Z;
  as_npages2 : Z;
  as_heapstart : option Z;
  as_heapend : option Z;
  as_stackpbase : Z;
  ptable : list page_table_entry
}.

(** The current process: none, or one with or without an address space.
    [mem] is the contents of physical memory, [tlb] the TLB of the processor
    as (entryhi, entrylo) pairs.  [curcpu] is [curcpu->c_spinlocks] and
    [curthread->t_in_interrupt], [None] before the first cpu is set up. *)
Record vm := mkVm {
  cm : list coremap_entry;
  vm_bootstrap_done : bool;
  max_pages : Z;
  firstpaddr : Z;
  lastpaddr : Z;
  spaces : gmap Z addrspace;
  curproc : option (option Z);
  tlb : list (Z * Z);
  mem : Z -> Z;
  curcpu : option (Z * bool)
}.

Definition with_cm (s : vm) (c : list coremap_entry) : vm :=
  mkVm c (vm_bootstrap_done s) (max_pages s) (firstpaddr s) (lastpaddr s)
    (spaces s) (curproc s) (tlb s) (mem s) (curcpu s).
Definition with_ram (s : vm) (first last : Z) : vm :=
  mkVm (cm s) (vm_bootstrap_done s) (max_pages s) first last
    (spaces s) (curproc s) (tlb s) (mem s) (curcpu s).
Definition with_spaces (s : vm) (m : gmap Z addrspace) : vm :=
  mkVm (cm s) (vm_bootstrap_done s) (max_pages s) (firstpaddr s) (lastpaddr s)
    m (curproc s) (tlb s) (mem s) (curcpu s).
Definition with_tlb (s : vm) (t : list (Z * Z)) : vm :=
  mkVm (cm s) (vm_bootstrap_done s) (max_pages s) (firstpaddr s) (lastpaddr s)
    (spaces s) (curproc s) t (mem s) (curcpu s).
Definition with_mem (s : vm) (m : Z -> Z) : vm :=
  mkVm (cm s) (vm_bootstrap_done s) (max_pages s) (firstpaddr s) (lastpaddr s)
    (spaces s) (curproc s) (tlb s) m (curcpu s).

(** ** ram.c *)

(** [ram_bootstrap], given what the bus reports and where start.S put the
    first free address. *)
Definition ram_bootstrap (s : vm) (mainbus_ramsize firstfree : Z) : vm :=
  let ramsize := if 512 * 1024 * 1024 <? mainbus_ramsize then 512 * 1024 * 1024
                 else mainbus_ramsize in
  with_ram s (u32 (firstfree - MIPS_KSEG0)) ramsize.

Definition ram_stealmem (s : vm) (npages : Z) : vm * Z :=
  let size := u32 (npages * PAGE_SIZE) in
  if lastpaddr s <? u32 (firstpaddr s + size) then (s, 0)
  else (with_ram s (u32 (firstpaddr s + size)) (lastpaddr s), firstpaddr s).

Definition ram_getsize (s : vm) : Z := lastpaddr s.

Definition ram_getfirstfree (s : vm) : vm * Z := (with_ram s 0 0, firstpaddr s).

(** ** The TLB (kern/arch/mips/include/tlb.h) *)

Definition NUM_TLB := 64.
Definition TLBHI_VPAGE := 0xfffff000.
Definition TLBLO_DIRTY := 0x400.
Definition TLBLO_VALID := 0x200.
Definition TLBHI_INVALID (entryno : Z) : Z := u32 (Z.shiftl (0x80000 + entryno) 12).
Definition TLBLO_INVALID := 0.

Definition tlb_write (s : vm) (hi lo index : Z) : res vm :=
  let* t := access (zput (tlb s) index (hi, lo)) in Ok (with_tlb s t).

(** The slot of [tlb_random] is the processor's choice, an argument here. *)
Definition tlb_random (s : vm) (slot hi lo : Z) : res vm := tlb_write s hi lo slot.

Definition tlb_read (s : vm) (index : Z) : res (Z * Z) := access (zget (tlb s) index).

Fixpoint find_index {A} (P : A -> bool) (l : list A) (i : Z) : option Z :=
  match l with
  | [] => None
  | x :: l => if P x then Some i else find_index P l (i + 1)
  end.

Definition tlb_probe (s : vm) (hi : Z) : Z :=
  match find_index (fun e : Z * Z => Z.land e.1 TLBHI_VPAGE =? Z.land hi TLBHI_VPAGE) (tlb s) 0 with
  | Some i => i
  | None => -1
  end.

Definition vm_tlbshootdown (s : vm) (ts_placeholder : Z) : res vm :=
  let* (hi, lo) := tlb_read s ts_placeholder in
  tlb_write s hi (Z.land lo (u32 (Z.lnot TLBLO_VALID))) ts_placeholder.

Fixpoint shootdown_from (k : nat) (i : Z) (s : vm) : res vm :=
  match k with
  | O => Ok s
  | S k => let* s := vm_tlbshootdown s i in shootdown_from k (i + 1) s
  end.

Definition vm_tlbshootdown_all (s : vm) : res vm := shootdown_from 64 0 s.

(** ** Coremap *)

Definition sizeof_coremap := 8.
Definition sizeof_coremap_entry := 16.

Definition boot_entry (firstaddr i : Z) : coremap_entry :=
  mkEntry None 0xffffffff (u32 (u32 (PAGE_SIZE * i) + firstaddr)) FREE.

Definition vm_bootstrap (s : vm) : vm :=
  if vm_bootstrap_done s then s
  else
    let lastaddr := ram_getsize s in
    let steal := u32 (sizeof_coremap + lastaddr / PAGE_SIZE * sizeof_coremap_entry) in
    let steal := u32 (steal + (PAGE_SIZE - 1)) / PAGE_SIZE in
    let page_num := lastaddr / PAGE_SIZE in
    let (s, _) := ram_stealmem s steal in
    let (s, firstaddr) := ram_getfirstfree s in
    let firstaddr := u32 (firstaddr + (PAGE_SIZE - firstaddr mod PAGE_SIZE)) in
    mkVm (map (boot_entry firstaddr) (seqZ 0 page_num)) true page_num
      (firstpaddr s) (lastpaddr s) (spaces s) (curproc s) (tlb s) (mem s) (curcpu s).

(** The inner loop: [Some j], the first of the [npages] entries from [i] on
    that is not FREE; [None], all of them are. *)
Fixpoint scan_run (k : nat) (c : list coremap_entry) (i j : Z) : res (option Z) :=
  match k with
  | O => Ok None
  | S k =>
    let* e := access (zget c (i + j)) in
    if bool_decide (ce_st e = FREE) then scan_run k c i (j + 1) else Ok (Some j)
  end.

(** The outer loop; the value of [i] it ends with. *)
Fixpoint scan_coremap (fuel : nat) (c : list coremap_entry) (npages i : Z) : res Z :=
  match fuel with
  | O => Fault OutOfFuel
  | S fuel =>
    if i <? zlen c then
      let* r := scan_run (Z.to_nat npages) c i 0 in
      match r with
      | None => Ok i
      | Some j => scan_coremap fuel c npages (i + j + 1)
      end
    else Ok i
  end.

(** page_alloc behind its assertion. *)
Definition page_claim (s : vm) (pnum : Z) : res (vm * Z) :=
  let* e := access (zget (cm s) pnum) in
  let* as_ := access (curproc s) in
  let* c := access (zput (cm s) pnum (mkEntry as_ (ce_va e) (ce_pa e) DIRTY)) in
  Ok (with_cm s c, PADDR_TO_KVADDR (ce_pa e)).

Definition page_alloc (s : vm) (pnum : Z) : res (vm * Z) :=
  let* e := access (zget (cm s) pnum) in
  kassert (bool_decide (ce_st e = FREE)) (page_claim s pnum).

(** [for(j = 0; j < npages; j++) page_alloc(i + j);] *)
Fixpoint page_alloc_run (k : nat) (s : vm) (i : Z) : res vm :=
  match k with
  | O => Ok s
  | S k => let* (s, _) := page_alloc s i in page_alloc_run k s (i + 1)
  end.

(** KASSERTs that the caller may sleep; nothing to check before there is a cpu. *)
Definition dumbvm_can_sleep (s : vm) : res unit :=
  match curcpu s with
  | None => Ok tt
  | Some (c_spinlocks, t_in_interrupt) =>
    kassert (c_spinlocks =? 0) (kassert (negb t_in_interrupt) (Ok tt))
  end.

(** [lock_acquire(cm_lock)] asserts that the lock exists, which [vm_bootstrap]
    creates, and that [curthread] is not in an interrupt handler. *)
Definition cm_lock_acquire (s : vm) : res unit :=
  kassert (vm_bootstrap_done s) (
  let* (_, t_in_interrupt) := access (curcpu s) in
  kassert (negb t_in_interrupt) (Ok tt)).

Definition getppages (s : vm) (npages : Z) : vm * Z := ram_stealmem s npages.

Definition alloc_kpages (s : vm) (npages : Z) : res (vm * Z) :=
  if vm_bootstrap_done s then
    let* _ := cm_lock_acquire s in
    let* i := scan_coremap (S (length (cm s))) (cm s) npages 0 in
    if i =? zlen (cm s) then Ok (s, 0)
    else
      let* e := access (zget (cm s) i) in
      let pa := PADDR_TO_KVADDR (ce_pa e) in
      let* s := page_alloc_run (Z.to_nat npages) s i in
      Ok (s, pa)
  else
    let* _ := dumbvm_can_sleep s in
    let (s, pa) := getppages s npages in
    if pa =? 0 then Ok (s, 0) else Ok (s, PADDR_TO_KVADDR pa).

Definition free_kpages (s : vm) (addr : Z) : res vm :=
  let* _ := cm_lock_acquire s in
  match find_index (fun e => ce_va e =? addr) (cm s) 0 with
  | None => Ok s
  | Some i =>
    let* e := access (zget (cm s) i) in
    let* c := access (zput (cm s) i (mkEntry None (ce_va e) (ce_pa e) FREE)) in
    let s' := with_cm s c in
    match ce_as e with
    | None => Ok s'
    | Some _ =>
      let ts := tlb_probe s' (ce_va e) in
      if 0 <=? ts then vm_tlbshootdown s' ts else Ok s'
    end
  end.

(** ** First fit *)

Definition free_at (c : list coremap_entry) (i : Z) : Prop :=
  exists e, zget c i = Some e /\ ce_st e = FREE.

(** [n] free frames from [i] on, all inside the coremap. *)
Definition run_free (c : list coremap_entry) (n i : Z) : Prop :=
  forall j, 0 <= j < n -> free_at c (i + j).

(** [i] is where the first such run starts. *)
Definition first_run (c : list coremap_entry) (n i : Z) : Prop :=
  0 <= i /\ run_free c n i /\ forall i', 0 <= i' < i -> ~ run_free c n i'.

Lemma free_at_lt c i : free_at c i -> 0 <= i < zlen c.
Proof. intros (e & He & _). by eapply zget_Some. Qed.

Lemma scan_run_spec k c i j :
  0 <= i + j <= zlen c -> 0 <= j ->
  (scan_run k c i j = Ok None /\ forall r, j <= r < j + Z.of_nat k -> free_at c (i + r)) \/
  (exists r, scan_run k c i j = Ok (Some r) /\ j <= r < j + Z.of_nat k /\
     i + r < zlen c /\ ~ free_at c (i + r)) \/
  (scan_run k c i j = Fault BadAccess /\ zlen c < i + j + Z.of_nat k /\
     forall r, j <= r -> i + r < zlen c -> free_at c (i + r)).
Proof.
  revert j. induction k as [ | k IH]; intros j Hij Hj.
  { left. split; [done | lia]. }
  cbn [scan_run]. destruct (zget c (i + j)) as [e | ] eqn:He; cbn [access rbind].
  - pose proof (zget_Some _ _ _ He).
    destruct (bool_decide (ce_st e = FREE)) eqn:E.
    + apply bool_decide_eq_true in E. assert (free_at c (i + j)) by (by exists e).
      destruct (IH (j + 1)) as [[-> H1] | [(r & -> & Hr & H1 & H2) | (-> & H1 & H2)]]; [lia | lia | | | ].
      * left. split; [done |]. intros r Hr.
        destruct (Z.eq_dec r j) as [-> | ]; [done | apply H1; lia].
      * right; left. exists r. split; [done |]. split; [lia | done].
      * right; right. split; [done |]. split; [lia |].
        intros r Hr ?. destruct (Z.eq_dec r j) as [-> | ]; [done | apply H2; lia].
    + apply bool_decide_eq_false in E. right; left. exists j. split; [done |]. split; [lia |].
      split; [lia |]. intros (e' & He' & E'). congruence.
  - right; right. split; [done |].
    assert (zlen c <= i + j).
    { destruct (Z.ltb_spec (i + j) (zlen c)); [ | done].
      destruct (zget_lt c (i + j)) as [e He']; [lia | congruence]. }
    split; [lia |]. intros r Hr Hlt. lia.
Qed.

Lemma scan_coremap_spec fuel c n i :
  0 < n -> 0 <= i <= zlen c -> zlen c - i < Z.of_nat fuel ->
  (forall i', 0 <= i' < i -> ~ run_free c n i') ->
  (exists r, scan_coremap fuel c n i = Ok r /\ r < zlen c /\ first_run c n r) \/
  (scan_coremap fuel c n i = Ok (zlen c) /\ forall i', 0 <= i' -> ~ run_free c n i') \/
  (scan_coremap fuel c n i = Fault BadAccess /\ 1 < n /\ free_at c (zlen c - 1) /\
     forall i', 0 <= i' -> ~ run_free c n i').
Proof.
  intros Hn. revert i. induction fuel as [ | fuel IH]; intros i Hi Hf Hno; [lia |].
  cbn [scan_coremap]. destruct (Z.ltb_spec i (zlen c)) as [Hlt | Hge].
  - destruct (scan_run_spec (Z.to_nat n) c i 0) as [[-> H1] | [(r & -> & Hr & H1 & H2) | (-> & H1 & H2)]];
      [lia | lia | | | ]; cbn [rbind].
    + left. exists i. split; [done |]. split; [done |]. split; [lia |]. split; [ | done].
      intros j Hj. apply H1. lia.
    + apply IH; [lia | lia |]. intros i' Hi' Hrun.
      destruct (Z.ltb_spec i' i); [apply (Hno i'); [lia | done] |].
      apply H2. replace (i + r) with (i' + (i + r - i')) by lia. apply Hrun. lia.
    + right; right. split; [done |].
      assert (forall i', 0 <= i' -> ~ run_free c n i') as Hnone.
      { intros i' Hi' Hrun. destruct (Z.ltb_spec i' i); [apply (Hno i'); [lia | done] |].
        pose proof (free_at_lt _ _ (Hrun (n - 1) ltac:(lia))). lia. }
      assert (1 < n) by lia. split; [done |]. split; [ | done].
      replace (zlen c - 1) with (i + (zlen c - 1 - i)) by lia. apply H2; lia.
  - right; left. replace i with (zlen c) by lia. split; [done |].
    intros i' Hi' Hrun. pose proof (free_at_lt _ _ (Hrun 0 ltac:(lia))).
    apply (Hno i'); [lia | done].
Qed.

(** The frame taken for the current process. *)
Definition taken (as_ : option Z) (e : coremap_entry) : coremap_entry :=
  mkEntry as_ (ce_va e) (ce_pa e) DIRTY.

Lemma page_alloc_run_spec k s i as_ :
  curproc s = Some as_ -> 0 <= i -> run_free (cm s) (Z.of_nat k) i ->
  exists c, page_alloc_run k s i = Ok (with_cm s c) /\ zlen c = zlen (cm s) /\
    forall j, zget c j = if (i <=? j) && (j <? i + Z.of_nat k)
                         then taken as_ <$> zget (cm s) j else zget (cm s) j.
Proof.
  intros Hc. revert s i Hc. induction k as [ | k IH]; intros s i Hc Hi Hrun.
  { exists (cm s). cbn [page_alloc_run]. split; [by destruct s |]. split; [done |]. intros j.
    destruct (Z.leb_spec i j), (Z.ltb_spec j (i + Z.of_nat 0)); simpl; try lia; done. }
  cbn [page_alloc_run]. destruct (Hrun 0 ltac:(lia)) as (e & He & Est). rewrite Z.add_0_r in He.
  unfold page_alloc. rewrite He. cbn [access rbind].
  rewrite bool_decide_eq_true_2 by done. cbn [kassert]. unfold page_claim. rewrite He, Hc. cbn [access rbind].
  destruct (zput_lt (cm s) i (taken as_ e)) as [c1 Hc1]; [by eapply zget_Some |].
  unfold taken in Hc1. rewrite Hc1. cbn [access rbind].
  pose proof (zput_length _ _ _ _ Hc1) as Hl1. pose proof (fun j => zget_zput _ _ j _ _ Hc1) as Hg1.
  destruct (IH (with_cm s c1) (i + 1)) as (c2 & -> & Hl2 & Hg2); [done | lia | | ].
  - intros j Hj. destruct (Hrun (j + 1) ltac:(lia)) as (e' & He' & E'). exists e'.
    cbn [with_cm cm]. rewrite Hg1. rewrite decide_False by lia. split; [ | done].
    rewrite <- He'. f_equal. lia.
  - exists c2. split; [done |]. split; [cbn [with_cm cm] in Hl2; lia |]. intros j. rewrite Hg2.
    cbn [with_cm cm]. rewrite Hg1.
    destruct (Z.leb_spec (i + 1) j), (Z.leb_spec i j), (Z.ltb_spec j (i + 1 + Z.of_nat k)),
      (Z.ltb_spec j (i + Z.of_nat (S k))); simpl; case_decide; try lia; try done.
    subst j. by rewrite He.
Qed.

(** After boot, in a thread: the coremap can be locked. *)
Definition booted (s : vm) : Prop :=
  vm_bootstrap_done s = true /\ exists n, curcpu s = Some (n, false).

Lemma booted_lock s : booted s <-> cm_lock_acquire s = Ok tt.
Proof.
  unfold booted, cm_lock_acquire. split.
  - intros [Hb [n Hn]]. by rewrite Hb, Hn.
  - destruct (vm_bootstrap_done s); [ | done]. destruct (curcpu s) as [[n []] | ]; naive_solver.
Qed.

(** What [alloc_kpages] may do with a request for [n] pages. *)
Inductive alloc_outcome (s : vm) (n : Z) (as_ : option Z) : res (vm * Z) -> Prop :=
| AllocTaken i e c :
    first_run (cm s) n i -> zget (cm s) i = Some e -> zlen c = zlen (cm s) ->
    (forall j, zget c j = if (i <=? j) && (j <? i + n)
                          then taken as_ <$> zget (cm s) j else zget (cm s) j) ->
    alloc_outcome s n as_ (Ok (with_cm s c, PADDR_TO_KVADDR (ce_pa e)))
| AllocNone :
    (forall i, 0 <= i -> ~ run_free (cm s) n i) -> alloc_outcome s n as_ (Ok (s, 0))
| AllocOverrun :
    (forall i, 0 <= i -> ~ run_free (cm s) n i) -> 1 < n -> free_at (cm s) (zlen (cm s) - 1) ->
    alloc_outcome s n as_ (Fault BadAccess).

Lemma alloc_kpages_cases s n as_ :
  booted s -> curproc s = Some as_ -> 0 < n ->
  alloc_outcome s n as_ (alloc_kpages s n).
Proof.
  intros Hb Hcur Hn. unfold alloc_kpages. rewrite (proj1 (booted_lock _) Hb), (proj1 Hb). cbn [rbind].
  destruct (scan_coremap_spec (S (length (cm s))) (cm s) n 0)
    as [(r & -> & Hr & Hf) | [[-> H1] | (-> & H1 & H2 & H3)]];
    [lia | unfold zlen; lia | unfold zlen; lia | lia | | | ]; cbn [rbind].
  - pose proof Hf as (Hr0 & Hrun & Hfirst).
    destruct (Z.eqb_spec r (zlen (cm s))); [lia |].
    destruct (zget_lt (cm s) r) as [e He]; [lia |]. rewrite He. cbn [access rbind].
    destruct (page_alloc_run_spec (Z.to_nat n) s r as_) as (c & -> & Hl & Hg); [done | done | | ].
    { by rewrite Z2Nat.id by lia. }
    cbn [rbind]. apply (AllocTaken _ _ _ r); [done | done | done |].
    intros j. rewrite Hg. by rewrite Z2Nat.id by lia.
  - rewrite Z.eqb_refl. by apply AllocNone.
  - by apply AllocOverrun.
Qed.

(** After boot, a request for [n > 0] pages has exactly three outcomes.
    If some run of [n] consecutive frames is free, the first such run is
    taken: its frames become DIRTY and owned by the current address space, no
    other frame changes, and the kernel address of its first frame is
    returned.  Without such a run the result is 0 with nothing changed, or,
    for [n > 1] when the last frame of the coremap is free, the scan reads
    past the end of the coremap. *)
Theorem alloc_kpages_first_fit s n as_
  (Hboot : booted s) (Hcur : curproc s = Some as_) (Hn : 0 < n) :
  alloc_outcome s n as_ (alloc_kpages s n) /\
  ((exists i, first_run (cm s) n i) ->
     exists s' addr, alloc_kpages s n = Ok (s', addr)).
Proof.
  pose proof (alloc_kpages_cases s n as_ Hboot Hcur Hn) as H. split; [done |].
  intros (i & Hi & Hrun & _). inversion H as [? ? ? ? ? ? ? E | Hno E | Hno ? ? E]; [by eexists _, _ | | ];
    by destruct (Hno i).
Qed.

(** A machine with four frames, the first one in use. *)
Definition small_vm : vm :=
  mkVm [mkEntry None 0xffffffff 0x10000 DIRTY; mkEntry None 0xffffffff 0x11000 FREE;
        mkEntry None 0xffffffff 0x12000 FREE; mkEntry None 0xffffffff 0x13000 FREE]
    true 4 0 0 ∅ (Some (Some 7)) [] (fun _ => 0) (Some (0, false)).

Lemma small_vm_booted : booted small_vm.
Proof. split; [done | by exists 0]. Qed.

Lemma alloc_kpages_first_fit_witness :
  alloc_outcome small_vm 2 (Some 7) (alloc_kpages small_vm 2) /\
  ((exists i, first_run (cm small_vm) 2 i) ->
     exists s' addr, alloc_kpages small_vm 2 = Ok (s', addr)).
Proof. apply (alloc_kpages_first_fit small_vm 2 (Some 7)); [exact small_vm_booted | reflexivity | lia]. Defined.

(** The scan does run off the end: with three free frames at the end of
    the coremap, asking for four contiguous pages reads entry [size]. *)
Theorem alloc_kpages_overrun : alloc_kpages small_vm 4 = Fault BadAccess.
Proof. reflexivity. Qed.

(** ** Freeing *)

(** Addresses recorded in the coremap: never set, or of a user page. *)
Definition va_user (c : list coremap_entry) : Prop :=
  Forall (fun e => ce_va e = 0xffffffff \/ 0 <= ce_va e < USERSPACETOP) c.

Lemma find_index_None {A} (P : A -> bool) l i :
  Forall (fun x => P x = false) l -> find_index P l i = None.
Proof.
  revert i. induction l as [ | x l IH]; intros i; [done |]. intros [Hx Hl]%Forall_cons.
  simpl. rewrite Hx. by apply IH.
Qed.

Lemma Forall_zget {A} (P : A -> Prop) l :
  Forall P l <-> forall i x, zget l i = Some x -> P x.
Proof.
  rewrite Forall_lookup. unfold zget. split.
  - intros H i x. destruct (i <? 0); [done |]. apply H.
  - intros H i x Hx. apply (H (Z.of_nat i)). rewrite (proj2 (Z.ltb_ge _ _)) by lia.
    by rewrite Nat2Z.id.
Qed.

Lemma free_kpages_ignores s addr :
  booted s -> va_user (cm s) -> USERSPACETOP <= addr < 0xffffffff -> free_kpages s addr = Ok s.
Proof.
  intros Hb Hva Ha. unfold free_kpages. rewrite (proj1 (booted_lock _) Hb). cbn [rbind]. rewrite find_index_None; [done |].
  eapply Forall_impl; [exact Hva |]. intros e He. apply Z.eqb_neq. cbn beta in He.
  unfold USERSPACETOP, MIPS_KSEG0 in *. lia.
Qed.

(** Memory from [alloc_kpages] is never given back.  The coremap records
    no virtual address for kernel pages, so [free_kpages] of the address
    [alloc_kpages] returned finds no entry: it changes nothing and the frames
    stay DIRTY.  Every kfree of a page-sized block leaks it. *)
Theorem free_kpages_leaks s n as_ s' addr
  (Hboot : booted s) (Hcur : curproc s = Some as_) (Hn : 0 < n)
  (Hva : va_user (cm s)) (Hram : Forall (fun e => 0 <= ce_pa e < 2 ^ 29) (cm s))
  (Hal : alloc_kpages s n = Ok (s', addr)) (Hok : addr <> 0) :
  free_kpages s' addr = Ok s' /\
  exists i, 0 <= i /\ forall j, 0 <= j < n -> ~ free_at (cm s') (i + j).
Proof.
  pose proof (alloc_kpages_cases s n as_ Hboot Hcur Hn) as H. rewrite Hal in H.
  inversion H as [i e c Hf He Hl Hg E1 | ? E | ]; subst; [ | congruence].
  cbn [with_cm cm]. split.
  - apply free_kpages_ignores; [exact Hboot | | ].
    + apply Forall_zget. intros j e' He'. cbn [with_cm cm] in He'. rewrite Hg in He'.
      unfold va_user in Hva. rewrite Forall_zget in Hva. destruct (_ && _); [ | by eapply Hva].
      destruct (zget (cm s) j) as [e0 | ] eqn:Hj; [ | done]. injection He' as <-.
      by apply (Hva j e0).
    + rewrite Forall_zget in Hram. specialize (Hram i e He). cbn beta in Hram.
      unfold PADDR_TO_KVADDR, USERSPACETOP, MIPS_KSEG0. rewrite u32_id by (unfold is_u32; lia). lia.
  - destruct Hf as (Hi & _). exists i. split; [done |]. intros j Hj (e' & He' & E').
    rewrite Hg in He'.
    rewrite (proj2 (Z.leb_le _ _)), (proj2 (Z.ltb_lt _ _)) in He' by lia. simpl in He'.
    destruct (zget (cm s) (i + j)); [ | done]. injection He' as <-. done.
Qed.

Lemma free_kpages_leaks_witness :
  exists s', alloc_kpages small_vm 1 = Ok (s', 0x80011000) /\
    (free_kpages s' 0x80011000 = Ok s' /\
     exists i, 0 <= i /\ forall j, 0 <= j < 1 -> ~ free_at (cm s') (i + j)).
Proof.
  eexists. split; [reflexivity |].
  apply (free_kpages_leaks small_vm 1 (Some 7)); try reflexivity; try exact small_vm_booted; try done.
  - repeat constructor.
  - repeat (constructor; [simpl; lia |]). constructor.
Defined.

(** ** Boot *)

Lemma vm_bootstrap_spec s n
  (Hnew : vm_bootstrap_done s = false) (Hlast : lastpaddr s = n * PAGE_SIZE) (Hn : 0 < n <= 2 ^ 17)
  (Hfirst : 0 <= firstpaddr s <= lastpaddr s) :
  exists f, f mod PAGE_SIZE = 0 /\ firstpaddr s < f /\
    zlen (cm (vm_bootstrap s)) = n /\
    (forall i, 0 <= i < n ->
       zget (cm (vm_bootstrap s)) i = Some (mkEntry None 0xffffffff (f + PAGE_SIZE * i) FREE)) /\
    lastpaddr s <= f + PAGE_SIZE * (n - 1) /\ f + PAGE_SIZE * n <= 2 ^ 31.
Proof.
  unfold vm_bootstrap, ram_getsize, PAGE_SIZE in *. rewrite Hnew, Hlast, Z.div_mul by lia.
  unfold sizeof_coremap, sizeof_coremap_entry.
  rewrite (u32_id (8 + n * 16)), (u32_id (8 + n * 16 + (4096 - 1))) by (unfold is_u32; lia).
  set (steal := (8 + n * 16 + (4096 - 1)) / 4096).
  assert (Hst : 0 < steal <= 1024) by (unfold steal; div_lia).
  unfold ram_stealmem, ram_getfirstfree, PAGE_SIZE.
  assert (Hgen : forall g, firstpaddr s <= g < 2 ^ 30 ->
    exists f, f mod 4096 = 0 /\ firstpaddr s < f /\ f <= 2 ^ 30 + 4096 /\
      f = u32 (g + (4096 - g mod 4096))).
  { intros g Hg. exists (g + (4096 - g mod 4096)). rewrite u32_id by (unfold is_u32; div_lia). div_lia. }
  assert (Hlen : forall f, zlen (map (boot_entry f) (seqZ 0 n)) = n).
  { intros f. unfold zlen. rewrite length_map, length_seqZ. lia. }
  assert (Hent : forall f, f mod 4096 = 0 -> 0 <= f < 2 ^ 31 -> forall i, 0 <= i < n ->
    zget (map (boot_entry f) (seqZ 0 n)) i = Some (mkEntry None 0xffffffff (f + 4096 * i) FREE)).
  { intros f Hm Hf i Hi. unfold zget. rewrite (proj2 (Z.ltb_ge _ _)) by lia.
    change (map (boot_entry f) (seqZ 0 n)) with (boot_entry f <$> seqZ 0 n).
    rewrite list_lookup_fmap.
    rewrite (lookup_seqZ_lt _ _ _) by lia. simpl. unfold boot_entry, PAGE_SIZE.
    rewrite !u32_id by (unfold is_u32; rewrite ?u32_id by (unfold is_u32; lia); lia).
    do 2 f_equal. lia. }
  destruct (_ <? _); cbn [firstpaddr with_ram cm].
  - destruct (Hgen (firstpaddr s)) as (f & Hm & Hlo & Hhi & E); [lia |]. rewrite <- E.
    exists f. split; [done |]. split; [done |]. split; [apply Hlen |]. split; [apply Hent; [done | lia] |]. div_lia.
  - destruct (Hgen (u32 (firstpaddr s + u32 (steal * 4096)))) as (f & Hm & Hlo & Hhi & E).
    { rewrite !u32_id by (unfold is_u32; rewrite ?u32_id by (unfold is_u32; lia); lia). lia. }
    rewrite <- E.
    exists f. split; [done |]. split; [done |]. split; [apply Hlen |]. split; [apply Hent; [done | lia] |]. div_lia.
Qed.


(** The coremap [vm_bootstrap] builds has one FREE entry per page of RAM,
    with consecutive page-aligned frames that start above everything already
    handed out.  It counts from the size of all of RAM but starts at the
    first free frame, so the last entry describes memory that is not there. *)
Theorem vm_bootstrap_frames s n
  (Hnew : vm_bootstrap_done s = false) (Hlast : lastpaddr s = n * PAGE_SIZE) (Hn : 0 < n <= 2 ^ 17)
  (Hfirst : 0 <= firstpaddr s <= lastpaddr s) :
  exists f, f mod PAGE_SIZE = 0 /\ firstpaddr s < f /\
    zlen (cm (vm_bootstrap s)) = n /\
    (forall i, 0 <= i < n ->
       zget (cm (vm_bootstrap s)) i = Some (mkEntry None 0xffffffff (f + PAGE_SIZE * i) FREE)) /\
    lastpaddr s <= f + PAGE_SIZE * (n - 1) /\ f + PAGE_SIZE * n <= 2 ^ 31.
Proof. by apply vm_bootstrap_spec. Qed.

Definition boot_vm : vm := mkVm [] false 0 0x30000 0x40000 ∅ None [] (fun _ => 0) None.

Lemma vm_bootstrap_frames_witness :
  exists f, f mod PAGE_SIZE = 0 /\ firstpaddr boot_vm < f /\
    zlen (cm (vm_bootstrap boot_vm)) = 64 /\
    (forall i, 0 <= i < 64 ->
       zget (cm (vm_bootstrap boot_vm)) i = Some (mkEntry None 0xffffffff (f + PAGE_SIZE * i) FREE)) /\
    lastpaddr boot_vm <= f + PAGE_SIZE * (64 - 1) /\ f + PAGE_SIZE * 64 <= 2 ^ 31.
Proof.
  apply (vm_bootstrap_frames boot_vm 64); [reflexivity | reflexivity | lia | simpl; lia].
Defined.
