(* ===== verification/Sched.v ===== *)
(** The scheduler: threads, processors, run queues, wait channels, migration
    and interprocessor interrupts of kern/thread/thread.c, and
    kern/thread/clock.c on top of them.

    Thread lists are sequences of threads, which is what file ThreadList shows
    them to be.  Run queues and wait channels are protected by spinlocks, so a
    critical section is one step (file Spinlock).  [thread_switch] is cut where
    it gives up the run queue lock: to wait for an interrupt when the processor
    has nothing to run.  [thread_consider_migration] is cut into its critical
    sections.  The switch of the register context is the change of
    [c_curthread]; a thread continues behind its own switchframe_switch, with
    the tail of thread_switch (or of thread_startup, which is the same).
    Address spaces are not activated here, and stacks are not looked into. *)
From S2P Require Import Prelude Coremap.

(** ** Data *)

Inductive threadstate_t := S_RUN | S_READY | S_SLEEP | S_ZOMBIE.

#[global] Instance threadstate_eq_dec : EqDecision threadstate_t.
Proof. solve_decision. Defined.

Record thread := mkThread {
  t_state : threadstate_t;
  t_cpu : Z;
  t_proc : option Z
}.

(** [c_asleep]: the processor is inside cpu_idle.  [c_victims] and [c_to_send]
    are the locals of a thread_consider_migration that has begun. *)
Record cpu := mkCpu {
  c_curthread : Z;
  c_isidle : bool;
  c_asleep : bool;
  c_runqueue : list Z;
  c_zombies : list Z;
  c_victims : list Z;
  c_to_send : Z;
  c_hardclocks : Z;
  c_ipi_pending : Z;
  c_shootdown : list Z;
  c_numshootdown : Z
}.

(** [chans]: the wait channels with their sleepers; [allcpus] by number. *)
Record sched := mkSched {
  threads : gmap Z thread;
  allcpus : gmap Z cpu;
  numcpus : Z;
  chans : gmap Z (list Z);
  next_thread : Z
}.

Definition set_thread (s : sched) (t : Z) (th : thread) : sched :=
  mkSched (<[t := th]> (threads s)) (allcpus s) (numcpus s) (chans s) (next_thread s).
Definition set_cpu (s : sched) (c : Z) (p : cpu) : sched :=
  mkSched (threads s) (<[c := p]> (allcpus s)) (numcpus s) (chans s) (next_thread s).
Definition set_chan (s : sched) (wc : Z) (l : list Z) : sched :=
  mkSched (threads s) (allcpus s) (numcpus s) (<[wc := l]> (chans s)) (next_thread s).
Definition get_thread (s : sched) (t : Z) : res thread := access (threads s !! t).
Definition get_cpu (s : sched) (c : Z) : res cpu := access (allcpus s !! c).
Definition get_chan (s : sched) (wc : Z) : res (list Z) := access (chans s !! wc).

Definition set_state (th : thread) (st : threadstate_t) : thread := mkThread st (t_cpu th) (t_proc th).
Definition with_queue (p : cpu) (l : list Z) : cpu :=
  mkCpu (c_curthread p) (c_isidle p) (c_asleep p) l (c_zombies p) (c_victims p) (c_to_send p) (c_hardclocks p)
    (c_ipi_pending p) (c_shootdown p) (c_numshootdown p).
Definition with_zombies (p : cpu) (l : list Z) : cpu :=
  mkCpu (c_curthread p) (c_isidle p) (c_asleep p) (c_runqueue p) l (c_victims p) (c_to_send p) (c_hardclocks p)
    (c_ipi_pending p) (c_shootdown p) (c_numshootdown p).
Definition with_victims (p : cpu) (l : list Z) (n : Z) : cpu :=
  mkCpu (c_curthread p) (c_isidle p) (c_asleep p) (c_runqueue p) (c_zombies p) l n (c_hardclocks p)
    (c_ipi_pending p) (c_shootdown p) (c_numshootdown p).
Definition with_idle (p : cpu) (idle asleep : bool) : cpu :=
  mkCpu (c_curthread p) idle asleep (c_runqueue p) (c_zombies p) (c_victims p) (c_to_send p) (c_hardclocks p)
    (c_ipi_pending p) (c_shootdown p) (c_numshootdown p).
Definition with_current (p : cpu) (t : Z) : cpu :=
  mkCpu t (c_isidle p) (c_asleep p) (c_runqueue p) (c_zombies p) (c_victims p) (c_to_send p) (c_hardclocks p)
    (c_ipi_pending p) (c_shootdown p) (c_numshootdown p).
Definition with_hardclocks (p : cpu) (n : Z) : cpu :=
  mkCpu (c_curthread p) (c_isidle p) (c_asleep p) (c_runqueue p) (c_zombies p) (c_victims p) (c_to_send p) n
    (c_ipi_pending p) (c_shootdown p) (c_numshootdown p).
Definition with_ipi (p : cpu) (bits : Z) (sd : list Z) (n : Z) : cpu :=
  mkCpu (c_curthread p) (c_isidle p) (c_asleep p) (c_runqueue p) (c_zombies p) (c_victims p) (c_to_send p) (c_hardclocks p)
    bits sd n.

(** ** Interprocessor interrupts *)

Definition IPI_PANIC := 0.
Definition IPI_OFFLINE := 1.
Definition IPI_UNIDLE := 2.
Definition IPI_TLBSHOOTDOWN := 3.
Definition TLBSHOOTDOWN_MAX := 16.
Definition TLBSHOOTDOWN_ALL := -1.

Definition ipi_post (p : cpu) (code : Z) : cpu :=
  with_ipi p (Z.lor (c_ipi_pending p) (Z.shiftl 1 code)) (c_shootdown p) (c_numshootdown p).

Definition ipi_send (s : sched) (target code : Z) : res sched :=
  kassert ((0 <=? code) && (code <? 32)) (
  let* p := get_cpu s target in Ok (set_cpu s target (ipi_post p code))).

Fixpoint ipi_broadcast_from (k : nat) (s : sched) (curcpu code i : Z) : res sched :=
  match k with
  | O => Ok s
  | S k =>
    let* s := if negb (i =? curcpu) then ipi_send s i code else Ok s in
    ipi_broadcast_from k s curcpu code (i + 1)
  end.

Definition ipi_broadcast (s : sched) (curcpu code : Z) : res sched :=
  ipi_broadcast_from (Z.to_nat (numcpus s)) s curcpu code 0.

(** [c_shootdown[n] = *mapping] is out of bounds when [n] is negative. *)
Definition ipi_tlbshootdown (s : sched) (target mapping : Z) : res sched :=
  let* p := get_cpu s target in
  let n := c_numshootdown p in
  let* p := if n =? TLBSHOOTDOWN_MAX then Ok (with_ipi p (c_ipi_pending p) (c_shootdown p) TLBSHOOTDOWN_ALL)
            else let* sd := access (zput (c_shootdown p) n mapping) in Ok (with_ipi p (c_ipi_pending p) sd (n + 1)) in
  Ok (set_cpu s target (ipi_post p IPI_TLBSHOOTDOWN)).

Fixpoint shootdowns (l : list Z) (v : vm) : res vm :=
  match l with
  | [] => Ok v
  | m :: l => let* v := vm_tlbshootdown v m in shootdowns l v
  end.

(** [None]: the processor stops for good. *)
Definition interprocessor_interrupt (s : sched) (v : vm) (c : Z) : res (option (sched * vm)) :=
  let* p := get_cpu s c in
  let bits := c_ipi_pending p in
  if negb (Z.land bits (Z.shiftl 1 IPI_PANIC) =? 0) then Ok None
  else if negb (Z.land bits (Z.shiftl 1 IPI_OFFLINE) =? 0) then Ok None
  else
  let* (p, v) :=
    if negb (Z.land bits (Z.shiftl 1 IPI_TLBSHOOTDOWN) =? 0) then
      let* v := if c_numshootdown p =? TLBSHOOTDOWN_ALL then vm_tlbshootdown_all v
                else shootdowns (take (Z.to_nat (c_numshootdown p)) (c_shootdown p)) v in
      Ok (with_ipi p bits (c_shootdown p) 0, v)
    else Ok (p, v) in
  Ok (Some (set_cpu s c (with_ipi p 0 (c_shootdown p) (c_numshootdown p)), v)).

Definition thread_panic (s : sched) (c : Z) : res sched :=
  let* s := ipi_broadcast s c IPI_PANIC in
  let* p := get_cpu s c in
  Ok (set_cpu s c (with_queue p [])).

Definition thread_shutdown (s : sched) (c : Z) : res sched := ipi_broadcast s c IPI_OFFLINE.

(** ** Creating and destroying threads *)

(** [mem]: whether kmalloc and kstrdup succeed.  -1 is the null processor. *)
Definition thread_create (s : sched) (mem : bool) : sched * option Z :=
  if mem then
    let t := next_thread s in
    (mkSched (<[t := mkThread S_READY (-1) None]> (threads s)) (allcpus s) (numcpus s) (chans s) (t + 1), Some t)
  else (s, None).

(** The kernel's own process. *)
Definition kproc := 0.

(** The first thread of a processor keeps the state of a new one.  [mem]:
    whether every allocation succeeds; the kernel panics otherwise. *)
Definition cpu_create (s : sched) (mem : bool) : res (sched * Z) :=
  if negb mem then Fault PanicCall
  else
  let c := numcpus s in
  let (s, t) := thread_create s true in
  let* t := access t in
  let s := set_thread s t (mkThread S_READY c (Some kproc)) in
  Ok (mkSched (threads s) (<[c := mkCpu t false false [] [] [] 0 0 0 (repeat 0 16) 0]> (allcpus s)) (c + 1)
        (chans s) (next_thread s), c).

Definition thread_bootstrap : res sched :=
  let* (s, c) := cpu_create (mkSched ∅ ∅ 0 ∅ 0) true in
  let* p := get_cpu s c in
  let* th := get_thread s (c_curthread p) in
  kassert (bool_decide (t_proc th = Some kproc)) (Ok s).

(** [c]: the processor this runs on. *)
Definition thread_destroy (s : sched) (c t : Z) : res sched :=
  let* p := get_cpu s c in
  kassert (negb (t =? c_curthread p)) (
  let* th := get_thread s t in
  kassert (negb (bool_decide (t_state th = S_RUN))) (
  kassert (bool_decide (t_proc th = None)) (
  Ok (mkSched (delete t (threads s)) (allcpus s) (numcpus s) (chans s) (next_thread s))))).

Fixpoint exorcise_list (l : list Z) (s : sched) (c : Z) : res sched :=
  match l with
  | [] => Ok s
  | z :: l =>
    let* p := get_cpu s c in
    let s := set_cpu s c (with_zombies p l) in
    kassert (negb (z =? c_curthread p)) (
    let* th := get_thread s z in
    kassert (bool_decide (t_state th = S_ZOMBIE)) (
    let* s := thread_destroy s c z in
    exorcise_list l s c))
  end.

Definition exorcise (s : sched) (c : Z) : res sched :=
  let* p := get_cpu s c in exorcise_list (c_zombies p) s c.

(** ** Making threads runnable *)

Definition thread_make_runnable (s : sched) (target : Z) : res sched :=
  let* th := get_thread s target in
  let* p := get_cpu s (t_cpu th) in
  let s := set_thread s target (set_state th S_READY) in
  let s := set_cpu s (t_cpu th) (with_queue p (c_runqueue p ++ [target])) in
  if c_isidle p then ipi_send s (t_cpu th) IPI_UNIDLE else Ok s.

(** [mem1], [mem2], [mem3]: whether there is memory for the thread, for its
    stack, and for the entry proc_addthread adds to the process. *)
Definition thread_fork (s : sched) (c : Z) (proc : option Z) (mem1 mem2 mem3 : bool) : res (sched * Z) :=
  let* p := get_cpu s c in
  let* cur := get_thread s (c_curthread p) in
  let (s, newthread) := thread_create s mem1 in
  match newthread with
  | None => Ok (s, ENOMEM)
  | Some t =>
    if negb mem2 then let* s := thread_destroy s c t in Ok (s, ENOMEM)
    else
    let s := set_thread s t (mkThread S_READY (t_cpu cur) None) in
    let proc := match proc with None => t_proc cur | Some q => Some q end in
    if negb mem3 then let* s := thread_destroy s c t in Ok (s, ENOMEM)
    else
    let s := set_thread s t (mkThread S_READY (t_cpu cur) proc) in
    let* s := thread_make_runnable s t in
    Ok (s, 0)
  end.

(** ** Switching *)

(** Up to the search for the next thread.  [false]: the call returns at
    once. *)
Definition switch_begin (s : sched) (c : Z) (newstate : threadstate_t) (wc : Z) : res (sched * bool) :=
  let* p := get_cpu s c in
  if c_isidle p then Ok (s, false)
  else if bool_decide (newstate = S_READY) && bool_decide (c_runqueue p = []) then Ok (s, false)
  else
  let cur := c_curthread p in
  let* s :=
    match newstate with
    | S_RUN => Fault PanicCall
    | S_READY => thread_make_runnable s cur
    | S_SLEEP => let* l := get_chan s wc in Ok (set_chan s wc (l ++ [cur]))
    | S_ZOMBIE => Ok (set_cpu s c (with_zombies p (c_zombies p ++ [cur])))
    end in
  let* th := get_thread s cur in
  let s := set_thread s cur (set_state th newstate) in
  let* p := get_cpu s c in
  Ok (set_cpu s c (with_idle p true false), true).

(** One round of the loop: the next thread runs and cleans up, or the
    processor waits for an interrupt. *)
Definition switch_next (s : sched) (c : Z) : res sched :=
  let* p := get_cpu s c in
  match c_runqueue p with
  | [] => Ok (set_cpu s c (with_idle p true true))
  | next :: l =>
    let s := set_cpu s c (with_current (with_idle (with_queue p l) false false) next) in
    let* th := get_thread s next in
    let s := set_thread s next (set_state th S_RUN) in
    exorcise s c
  end.

Definition thread_switch (s : sched) (c : Z) (newstate : threadstate_t) (wc : Z) : res sched :=
  let* (s, sw) := switch_begin s c newstate wc in
  if sw : bool then switch_next s c else Ok s.

Definition thread_yield (s : sched) (c : Z) : res sched := thread_switch s c S_READY 0.

(** proc_remthread has detached the thread. *)
Definition thread_exit (s : sched) (c : Z) : res sched :=
  let* p := get_cpu s c in
  let* th := get_thread s (c_curthread p) in
  kassert (bool_decide (t_proc th <> None)) (
  let s := set_thread s (c_curthread p) (mkThread (t_state th) (t_cpu th) None) in
  thread_switch s c S_ZOMBIE 0).

(** The processor comes out of cpu_idle. *)
Definition wake_cpu (s : sched) (c : Z) : res sched :=
  let* p := get_cpu s c in Ok (set_cpu s c (with_idle p (c_isidle p) false)).

(** ** Wait channels *)

(** [wc]: the block kmalloc returns. *)
Definition wchan_create (s : sched) (wc : Z) : sched := set_chan s wc [].

Definition wchan_destroy (s : sched) (wc : Z) : res sched :=
  let* l := get_chan s wc in
  kassert (bool_decide (l = [])) (Ok (mkSched (threads s) (allcpus s) (numcpus s) (delete wc (chans s)) (next_thread s))).

Definition wchan_isempty (s : sched) (wc : Z) : res bool :=
  let* l := get_chan s wc in Ok (bool_decide (l = [])).

(** That the caller is in no interrupt handler and holds the spinlock of the
    channel and no other is asserted in the source, and is so wherever file
    Synch calls it: spinlocks are not part of this state. *)
Definition wchan_sleep (s : sched) (c wc : Z) : res sched := thread_switch s c S_SLEEP wc.

Definition wchan_wakeone (s : sched) (wc : Z) : res sched :=
  let* l := get_chan s wc in
  match l with
  | [] => Ok s
  | target :: l => thread_make_runnable (set_chan s wc l) target
  end.

Fixpoint make_all_runnable (l : list Z) (s : sched) : res sched :=
  match l with
  | [] => Ok s
  | t :: l => let* s := thread_make_runnable s t in make_all_runnable l s
  end.

Definition wchan_wakeall (s : sched) (wc : Z) : res sched :=
  let* l := get_chan s wc in make_all_runnable l (set_chan s wc []).

(** ** Migration *)

(** The counts, and what follows from them: the share of each processor and
    how many threads to give away; [None]: nothing to do. *)
Fixpoint total_count_from (k : nat) (s : sched) (i acc : Z) : res Z :=
  match k with
  | O => Ok acc
  | S k => let* p := get_cpu s i in total_count_from k s (i + 1) (u32 (acc + zlen (c_runqueue p)))
  end.

Definition migration_plan (numcpus my_count total_count : Z) : option (Z * Z) :=
  let one_share := DIVROUNDUP total_count numcpus in
  if my_count <? one_share then None else Some (one_share, my_count - one_share).

(** [to_send] threads from the tail of the run queue become victims, in
    order. *)
Fixpoint take_victims (k : nat) (rq victims : list Z) : res (list Z * list Z) :=
  match k with
  | O => Ok (rq, victims)
  | S k => let* t := access (last rq) in take_victims k (removelast rq) (t :: victims)
  end.

Definition migrate_take (s : sched) (c to_send : Z) : res sched :=
  let* p := get_cpu s c in
  let* (rq, victims) := take_victims (Z.to_nat to_send) (c_runqueue p) [] in
  Ok (set_cpu s c (with_victims (with_queue p rq) victims to_send)).

(** The loop for processor [d], under its run queue lock; [k] bounds the
    rounds, each of which counts [to_send] down. *)
Fixpoint migrate_give_loop (k : nat) (s : sched) (c d one_share : Z) : res sched :=
  match k with
  | O => Ok s
  | S k =>
    let* p := get_cpu s c in
    let* q := get_cpu s d in
    if (zlen (c_runqueue q) <? one_share) && (0 <? c_to_send p) then
      match c_victims p with
      | [] => Fault BadAccess
      | t :: l =>
        if t =? c_curthread p then
          migrate_give_loop k (set_cpu s c (with_victims p (l ++ [t]) (c_to_send p - 1))) c d one_share
        else
        let* th := get_thread s t in
        let s := set_cpu s c (with_victims p l (c_to_send p - 1)) in
        let s := set_thread s t (mkThread (t_state th) d (t_proc th)) in
        let s := set_cpu s d (with_queue q (c_runqueue q ++ [t])) in
        let* s := if c_isidle q then ipi_send s d IPI_UNIDLE else Ok s in
        migrate_give_loop k s c d one_share
      end
    else Ok s
  end.

Definition migrate_give (s : sched) (c d one_share : Z) : res sched :=
  if d =? c then Ok s
  else let* p := get_cpu s c in migrate_give_loop (Z.to_nat (c_to_send p)) s c d one_share.

(** Leftovers go back to the processor's own queue. *)
Definition migrate_back (s : sched) (c : Z) : res sched :=
  let* p := get_cpu s c in
  Ok (set_cpu s c (with_victims (with_queue p (c_runqueue p ++ c_victims p)) [] 0)).

Fixpoint migrate_give_from (k : nat) (s : sched) (c one_share i : Z) : res sched :=
  match k with
  | O => Ok s
  | S k => let* s := migrate_give s c i one_share in migrate_give_from k s c one_share (i + 1)
  end.

Definition thread_consider_migration (s : sched) (c : Z) : res sched :=
  let* total := total_count_from (Z.to_nat (numcpus s)) s 0 0 in
  let* p := get_cpu s c in
  match migration_plan (numcpus s) (zlen (c_runqueue p)) total with
  | None => Ok s
  | Some (one_share, to_send) =>
    let* s := migrate_take s c to_send in
    let* s := migrate_give_from (Z.to_nat (numcpus s)) s c one_share 0 in
    migrate_back s c
  end.

(** ** The clock *)

Definition SCHEDULE_HARDCLOCKS := 4.
Definition MIGRATE_HARDCLOCKS := 16.

(** The scheduler has no policy of its own. *)
Definition schedule (s : sched) : res sched := Ok s.

Definition hardclock (s : sched) (c : Z) : res sched :=
  let* p := get_cpu s c in
  let p := with_hardclocks p (u32 (c_hardclocks p + 1)) in
  let s := set_cpu s c p in
  let* s := if c_hardclocks p mod MIGRATE_HARDCLOCKS =? 0 then thread_consider_migration s c else Ok s in
  let* s := if c_hardclocks p mod SCHEDULE_HARDCLOCKS =? 0 then schedule s else Ok s in
  thread_yield s c.

Definition timerclock (s : sched) (lbolt : Z) : res sched := wchan_wakeall s lbolt.

(** * Where threads are *)

Inductive place := Running | Queued | Zombie | Victim.

#[global] Instance place_eq_dec : EqDecision place.
Proof. solve_decision. Defined.

(** A place on a processor, or a wait channel. *)
Inductive spot := OnCpu (k : place) (c : Z) | Sleeping (wc : Z).

#[global] Instance spot_eq_dec : EqDecision spot.
Proof. solve_decision. Defined.

Definition cpu_list (p : cpu) (k : place) : list Z :=
  match k with
  | Running => if c_isidle p then [] else [c_curthread p]
  | Queued => c_runqueue p
  | Zombie => c_zombies p
  | Victim => c_victims p
  end.

Definition spot_list (s : sched) (sp : spot) : list Z :=
  match sp with
  | OnCpu k c => match allcpus s !! c with Some p => cpu_list p k | None => [] end
  | Sleeping wc => default [] (chans s !! wc)
  end.

(** The state of a thread fits its spot.  The first thread of a processor runs
    in state S_READY until it has been switched to once. *)
Definition fits (th : thread) (sp : spot) : Prop :=
  match sp with
  | OnCpu Running c => (t_state th = S_RUN \/ t_state th = S_READY) /\ t_cpu th = c
  | OnCpu Queued c | OnCpu Victim c => t_state th = S_READY /\ t_cpu th = c
  | OnCpu Zombie c => t_state th = S_ZOMBIE /\ t_cpu th = c /\ t_proc th = None
  | Sleeping _ => t_state th = S_SLEEP
  end.

(** Every thread is at exactly one spot, and in the right state there. *)
Record places_ok (L : spot -> list Z) (T : gmap Z thread) : Prop := {
  pk_nodup : forall sp, NoDup (L sp);
  pk_once : forall t sp sp', t ∈ L sp -> t ∈ L sp' -> sp = sp';
  pk_fits : forall t sp, t ∈ L sp -> exists th, T !! t = Some th /\ fits th sp;
  pk_all : forall t th, T !! t = Some th -> exists sp, t ∈ L sp
}.

(** The order in which a spot keeps its threads does not matter here. *)
#[global] Instance places_ok_perm : Proper (pointwise_relation _ (≡ₚ) ==> eq ==> impl) places_ok.
Proof.
  intros L L' HL T _ <- [N O F A]. split.
  - intros sp. by rewrite <- (HL sp).
  - intros t sp sp'. rewrite <- (HL sp), <- (HL sp'). apply O.
  - intros t sp. rewrite <- (HL sp). apply F.
  - intros t th Ht. destruct (A t th Ht) as [sp Hsp]. exists sp. by rewrite <- (HL sp).
Qed.

Lemma places_same L L' T : places_ok L T -> (forall sp, L' sp ≡ₚ L sp) -> places_ok L' T.
Proof. intros H HL. refine (places_ok_perm L L' _ T T eq_refl H). intros sp. by rewrite HL. Qed.

(** A thread leaves one spot for another. *)
Lemma places_move L L' T t A B th' :
  places_ok L T -> A <> B -> L A ≡ₚ t :: L' A -> L' B ≡ₚ t :: L B ->
  (forall sp, sp <> A -> sp <> B -> L' sp ≡ₚ L sp) -> fits th' B ->
  places_ok L' (<[t := th']> T).
Proof.
  intros [N O F Al] Hne HA HB Hsame Hfit.
  assert (HtA : t ∈ L A) by (rewrite HA; set_solver).
  assert (HnB : t ∉ L B) by (intros Ht; by apply Hne, (O t)).
  assert (HnA : t ∉ L' A /\ NoDup (L' A)) by (apply NoDup_cons; by rewrite <- HA).
  assert (Hin : forall u sp, u ∈ L' sp -> (u = t /\ sp = B) \/ (u <> t /\ u ∈ L sp)).
  { intros u sp Hu. destruct (decide (sp = B)) as [-> | NB].
    - rewrite HB in Hu. apply elem_of_cons in Hu as [-> | Hu]; [by left | right]. split; [congruence | done].
    - right. destruct (decide (sp = A)) as [-> | NA].
      + split; [by intros ->; apply HnA | rewrite HA; set_solver].
      + rewrite Hsame in Hu by done. split; [ | done]. intros ->. by apply NA, (O t). }
  split.
  - intros sp. destruct (decide (sp = A)) as [-> | NA]; [apply HnA |]. destruct (decide (sp = B)) as [-> | NB].
    + rewrite HB. by apply NoDup_cons.
    + by rewrite Hsame.
  - intros u sp sp' H1 H2. apply Hin in H1, H2. destruct H1 as [[-> ->] | [Hu H1]], H2 as [[? ->] | [? H2]]; try done. by apply (O u).
  - intros u sp [[-> ->] | [Hu H1]]%Hin; [exists th'; by rewrite lookup_insert_eq |].
    rewrite lookup_insert_ne by done. by apply F.
  - intros u th [[<- <-] | [Hu Hth]]%lookup_insert_Some; [exists B; rewrite HB; set_solver |].
    destruct (Al u th Hth) as [sp Hsp]. exists sp.
    destruct (decide (sp = A)) as [-> | NA]; [rewrite HA in Hsp; set_solver |].
    destruct (decide (sp = B)) as [-> | NB]; [rewrite HB; set_solver | by rewrite Hsame].
Qed.

(** A new thread appears at [B]. *)
Lemma places_add L L' T t B th :
  places_ok L T -> T !! t = None -> L' B ≡ₚ t :: L B -> (forall sp, sp <> B -> L' sp ≡ₚ L sp) -> fits th B ->
  places_ok L' (<[t := th]> T).
Proof.
  intros [N O F Al] Hnew HB Hsame Hfit.
  assert (Hno : forall sp, t ∉ L sp) by (intros sp Ht; destruct (F t sp Ht) as (? & ? & _); congruence).
  assert (Hin : forall u sp, u ∈ L' sp -> (u = t /\ sp = B) \/ (u <> t /\ u ∈ L sp)).
  { intros u sp Hu. destruct (decide (sp = B)) as [-> | NB].
    - rewrite HB in Hu. apply elem_of_cons in Hu as [-> | Hu]; [by left | right]. split; [by intros ->; apply (Hno B) | done].
    - right. rewrite Hsame in Hu by done. split; [by intros ->; apply (Hno sp) | done]. }
  split.
  - intros sp. destruct (decide (sp = B)) as [-> | NB]; [rewrite HB; by apply NoDup_cons | by rewrite Hsame].
  - intros u sp sp' H1 H2. apply Hin in H1, H2. destruct H1 as [[-> ->] | [Hu H1]], H2 as [[? ->] | [? H2]]; try done. by apply (O u).
  - intros u sp [[-> ->] | [Hu H1]]%Hin; [exists th; by rewrite lookup_insert_eq |]. rewrite lookup_insert_ne by done. by apply F.
  - intros u thu [[<- <-] | [Hu Hth]]%lookup_insert_Some; [exists B; rewrite HB; set_solver |].
    destruct (Al u thu Hth) as [sp Hsp]. exists sp.
    destruct (decide (sp = B)) as [-> | NB]; [rewrite HB; set_solver | by rewrite Hsame].
Qed.

(** A thread disappears from [A]. *)
Lemma places_remove L L' T t A :
  places_ok L T -> L A ≡ₚ t :: L' A -> (forall sp, sp <> A -> L' sp ≡ₚ L sp) -> places_ok L' (delete t T).
Proof.
  intros [N O F Al] HA Hsame.
  assert (HtA : t ∈ L A) by (rewrite HA; set_solver).
  assert (HnA : t ∉ L' A /\ NoDup (L' A)) by (apply NoDup_cons; by rewrite <- HA).
  assert (Hin : forall u sp, u ∈ L' sp -> u <> t /\ u ∈ L sp).
  { intros u sp Hu. destruct (decide (sp = A)) as [-> | NA].
    - split; [by intros ->; apply HnA | rewrite HA; set_solver].
    - rewrite Hsame in Hu by done. split; [ | done]. intros ->. by apply NA, (O t). }
  split.
  - intros sp. destruct (decide (sp = A)) as [-> | NA]; [apply HnA | by rewrite Hsame].
  - intros u sp sp' [_ H1]%Hin [_ H2]%Hin. by apply (O u).
  - intros u sp [Hu H1]%Hin. rewrite lookup_delete_ne by done. by apply F.
  - intros u th [Hu Hth]%lookup_delete_Some. destruct (Al u th Hth) as [sp Hsp]. exists sp.
    destruct (decide (sp = A)) as [-> | NA]; [rewrite HA in Hsp; set_solver | by rewrite Hsame].
Qed.

(** ** The invariant *)

(** No call modelled here posts another interrupt than IPI_UNIDLE. *)
Definition unidle_pending (p : cpu) : Prop := c_ipi_pending p = Z.shiftl 1 IPI_UNIDLE.

(** What a processor says about itself: a processor that sleeps in cpu_idle
    with something to run has been sent an interrupt. *)
Record cpu_ok (p : cpu) : Prop := {
  ck_ipi : c_ipi_pending p = 0 \/ unidle_pending p;
  ck_asleep : c_asleep p = true -> c_isidle p = true /\ c_victims p = [];
  ck_wakeup : c_asleep p = true -> c_runqueue p <> [] -> unidle_pending p;
  ck_send : 0 <= c_to_send p <= zlen (c_victims p)
}.

(** The current thread of a processor, running or not, belongs to it. *)
Definition cur_ok (T : gmap Z thread) (c : Z) (p : cpu) : Prop :=
  exists th, T !! c_curthread p = Some th /\ t_cpu th = c.

Record sched_inv (s : sched) : Prop := {
  si_places : places_ok (spot_list s) (threads s);
  si_cpu : forall c p, allcpus s !! c = Some p -> cpu_ok p /\ cur_ok (threads s) c p;
  si_cpus : forall c, is_Some (allcpus s !! c) <-> 0 <= c < numcpus s;
  si_next : forall t, is_Some (threads s !! t) -> t < next_thread s;
  si_home : forall t th, threads s !! t = Some th -> is_Some (allcpus s !! t_cpu th);
  si_num : 0 <= numcpus s
}.

Lemma spot_list_set_cpu s c p sp :
  spot_list (set_cpu s c p) sp =
  match sp with
  | OnCpu k d => if decide (d = c) then cpu_list p k else spot_list s sp
  | Sleeping _ => spot_list s sp
  end.
Proof.
  destruct sp as [k d | wc]; [ | done]. cbn. case_decide; [subst; by rewrite lookup_insert_eq | by rewrite lookup_insert_ne].
Qed.

Lemma spot_list_cpu s c p k : allcpus s !! c = Some p -> spot_list s (OnCpu k c) = cpu_list p k.
Proof. intros H. cbn. by rewrite H. Qed.

(** Threads keep their processors. *)
Definition same_home (T T' : gmap Z thread) : Prop :=
  forall t th, T !! t = Some th -> exists th', T' !! t = Some th' /\ t_cpu th' = t_cpu th.

Lemma same_home_refl T : same_home T T.
Proof. by intros t th H; exists th. Qed.

Lemma same_home_insert T t th th' : T !! t = Some th -> t_cpu th' = t_cpu th -> same_home T (<[t := th']> T).
Proof.
  intros Ht Hc u thu Hu. destruct (decide (u = t)) as [-> | N].
  - exists th'. rewrite lookup_insert_eq. split; congruence.
  - exists thu. by rewrite lookup_insert_ne.
Qed.

Lemma same_home_new T t th : T !! t = None -> same_home T (<[t := th]> T).
Proof. intros Ht u thu Hu. exists thu. rewrite lookup_insert_ne by congruence. done. Qed.

Lemma same_home_cur T T' c p : same_home T T' -> cur_ok T c p -> cur_ok T' c p.
Proof. intros HT (th & Ht & Hc). destruct (HT _ _ Ht) as (th' & ? & ?). exists th'. split; congruence. Qed.

Definition below (n : Z) (T : gmap Z thread) : Prop := forall t, is_Some (T !! t) -> t < n.

Lemma below_insert n T t th : below n T -> t < n -> below n (<[t := th]> T).
Proof. intros HT Ht u [thu [[<- _] | [_ Hu]]%lookup_insert_Some]; [done | by apply HT]. Qed.

(** The invariant after an operation on processor [c]. *)
Lemma sched_inv_upd s s' c p p' :
  sched_inv s -> allcpus s !! c = Some p -> allcpus s' = <[c := p']> (allcpus s) -> numcpus s' = numcpus s ->
  places_ok (spot_list s') (threads s') -> cpu_ok p' -> cur_ok (threads s') c p' ->
  (forall d q, d <> c -> allcpus s !! d = Some q -> cur_ok (threads s') d q) ->
  below (next_thread s') (threads s') ->
  (forall t th, threads s' !! t = Some th -> is_Some (allcpus s !! t_cpu th)) ->
  sched_inv s'.
Proof.
  intros [P C N X H M] Hp Hcs Hn HP Hp' Hc' Hd HX HH. split; rewrite ?Hcs; try done.
  - intros d q [[<- <-] | [Hne Hq]]%lookup_insert_Some; [done |]. split; [by eapply C | by eapply Hd].
  - intros d. rewrite Hn, <- N. destruct (decide (d = c)) as [-> | Hne].
    + rewrite lookup_insert_eq. split; intros _; [by exists p | by exists p'].
    + by rewrite lookup_insert_ne.
  - intros t th Ht%HH. destruct (decide (t_cpu th = c)) as [-> | Hne]; [rewrite lookup_insert_eq; by eexists |].
    by rewrite lookup_insert_ne.
  - by rewrite Hn.
Qed.

Lemma home_insert s t th th' :
  sched_inv s -> threads s !! t = Some th -> t_cpu th' = t_cpu th ->
  forall u thu, <[t := th']> (threads s) !! u = Some thu -> is_Some (allcpus s !! t_cpu thu).
Proof.
  intros HI Ht Hc u thu [[<- <-] | [_ Hu]]%lookup_insert_Some; [rewrite Hc |]; by eapply (si_home _ HI).
Qed.

(** A thread that keeps its processor moves between spots: of the processors
    only [c] changes. *)
Lemma sched_inv_move s s' c p p' t th th' A B :
  sched_inv s -> allcpus s !! c = Some p -> threads s !! t = Some th ->
  allcpus s' = <[c := p']> (allcpus s) -> numcpus s' = numcpus s -> next_thread s' = next_thread s ->
  threads s' = <[t := th']> (threads s) -> t_cpu th' = t_cpu th ->
  A <> B -> spot_list s A ≡ₚ t :: spot_list s' A -> spot_list s' B ≡ₚ t :: spot_list s B ->
  (forall sp, sp <> A -> sp <> B -> spot_list s' sp ≡ₚ spot_list s sp) -> fits th' B ->
  cpu_ok p' -> cur_ok (<[t := th']> (threads s)) c p' ->
  sched_inv s'.
Proof.
  intros HI Hp Ht Hcs Hn Hx HT Hc HAB HA HB Hsame Hfit Hp' Hcur.
  assert (Hhome := same_home_insert _ _ _ _ Ht Hc).
  eapply sched_inv_upd; eauto; rewrite ?HT.
  - by eapply places_move; [apply si_places | ..].
  - done.
  - intros d q Hd Hq. eapply same_home_cur; [done |]. by eapply (si_cpu _ HI).
  - rewrite Hx. apply below_insert; [exact (si_next _ HI) | eapply (si_next _ HI); by exists th].
  - by eapply home_insert.
Qed.

(** ** Each operation *)

(** A thread is put on a run queue; an idle processor is sent an interrupt. *)
Definition enqueue (p : cpu) (t : Z) : cpu :=
  let p' := with_queue p (c_runqueue p ++ [t]) in if c_isidle p then ipi_post p' IPI_UNIDLE else p'.

Lemma lor_unidle x : x = 0 \/ x = Z.shiftl 1 IPI_UNIDLE -> Z.lor x (Z.shiftl 1 IPI_UNIDLE) = Z.shiftl 1 IPI_UNIDLE.
Proof. by intros [-> | ->]. Qed.

Lemma enqueue_ok p t : cpu_ok p -> cpu_ok (enqueue p t).
Proof.
  intros [I As W Sd]. unfold enqueue. destruct (c_isidle p) eqn:E.
  - assert (Hpost := lor_unidle _ I). split; cbn; unfold unidle_pending in *; rewrite ?E; auto.
  - assert (Ha : c_asleep p = false) by (destruct (c_asleep p); [by destruct As | done]).
    split; cbn; rewrite ?Ha; done.
Qed.

Lemma enqueue_list p t k : cpu_list (enqueue p t) k = if decide (k = Queued) then c_runqueue p ++ [t] else cpu_list p k.
Proof. unfold enqueue. destruct (c_isidle p) eqn:E, k; cbn; by rewrite ?E. Qed.

Lemma enqueue_cur p t : c_curthread (enqueue p t) = c_curthread p /\ c_isidle (enqueue p t) = c_isidle p.
Proof. unfold enqueue. destruct (c_isidle p) eqn:E; cbn; by rewrite E. Qed.

Lemma make_runnable_eq s t th p :
  threads s !! t = Some th -> allcpus s !! t_cpu th = Some p ->
  thread_make_runnable s t = Ok (set_cpu (set_thread s t (set_state th S_READY)) (t_cpu th) (enqueue p t)).
Proof.
  intros Ht Hp. unfold thread_make_runnable, get_thread, get_cpu, enqueue. rewrite Ht. cbn. rewrite Hp. cbn.
  destruct (c_isidle p); [ | done]. unfold ipi_send, get_cpu. cbn. rewrite lookup_insert_eq. cbn.
  unfold set_cpu. cbn. by rewrite insert_insert_eq.
Qed.

(** What the invariant says of a thread at a spot. *)
Lemma inv_spot s t sp :
  sched_inv s -> t ∈ spot_list s sp ->
  exists th p, threads s !! t = Some th /\ fits th sp /\ allcpus s !! t_cpu th = Some p.
Proof.
  intros HI Ht. destruct (pk_fits _ _ (si_places _ HI) _ _ Ht) as (th & Hth & Hf).
  destruct (si_home _ HI _ _ Hth) as [p Hp]. by exists th, p.
Qed.

Lemma wakeone_ok s wc l :
  sched_inv s -> chans s !! wc = Some l -> exists s', wchan_wakeone s wc = Ok s' /\ sched_inv s' /\
  chans s' = <[wc := tail l]> (chans s).
Proof.
  intros HI Hl. unfold wchan_wakeone, get_chan. rewrite Hl. cbn. destruct l as [ | t l].
  { exists s. split; [done |]. split; [done |]. by rewrite insert_id. }
  destruct (inv_spot s t (Sleeping wc) HI) as (th & p & Ht & Hf & Hp); [cbn; rewrite Hl; set_solver |].
  rewrite (make_runnable_eq _ t th p) by done. eexists. split; [done |]. split; [ | done].
  destruct (si_cpu _ HI _ _ Hp) as [Hok Hcur]. destruct (enqueue_cur p t) as [Ec Ei].
  eapply (sched_inv_move s _ (t_cpu th) p (enqueue p t) t th (set_state th S_READY) (Sleeping wc) (OnCpu Queued (t_cpu th)));
    try done.
  - cbn. by rewrite Hl, lookup_insert_eq.
  - rewrite spot_list_set_cpu, decide_True by done. rewrite enqueue_list, decide_True by done.
    rewrite (spot_list_cpu _ _ _ _ Hp). cbn. by rewrite (comm (++)).
  - intros sp HA HB. rewrite spot_list_set_cpu. destruct sp as [k d | w].
    + case_decide as E; [subst | done]. rewrite (spot_list_cpu _ _ _ _ Hp), enqueue_list, decide_False; [done | congruence].
    + cbn. rewrite lookup_insert_ne; [done | congruence].
  - by apply enqueue_ok.
  - unfold cur_ok. rewrite Ec. by eapply same_home_cur; [eapply same_home_insert |].
Qed.

(** *** Leaving the processor *)

(** The state in which thread_switch looks for the next thread. *)
Definition left_cpu (p : cpu) (newstate : threadstate_t) : cpu :=
  let cur := c_curthread p in
  with_idle
    match newstate with
    | S_READY => with_queue p (c_runqueue p ++ [cur])
    | S_ZOMBIE => with_zombies p (c_zombies p ++ [cur])
    | _ => p
    end true false.

Definition left (s : sched) (c : Z) (p : cpu) (th : thread) (newstate : threadstate_t) (wc : Z) (l : list Z) : sched :=
  let cur := c_curthread p in
  let s := match newstate with S_SLEEP => set_chan s wc (l ++ [cur]) | _ => s end in
  set_cpu (set_thread s cur (set_state th newstate)) c (left_cpu p newstate).

Definition dest (newstate : threadstate_t) (c wc : Z) : spot :=
  match newstate with
  | S_READY => OnCpu Queued c
  | S_ZOMBIE => OnCpu Zombie c
  | S_SLEEP => Sleeping wc
  | S_RUN => OnCpu Running c
  end.

Lemma switch_begin_eq s c p th newstate wc l :
  allcpus s !! c = Some p -> c_isidle p = false -> threads s !! c_curthread p = Some th -> t_cpu th = c ->
  (newstate = S_SLEEP -> chans s !! wc = Some l) -> (newstate = S_READY -> c_runqueue p <> []) -> newstate <> S_RUN ->
  switch_begin s c newstate wc = Ok (left s c p th newstate wc l, true).
Proof.
  intros Hp Hi Ht Hc Hl Hq Hr. unfold switch_begin, get_cpu, left. rewrite Hp. cbn. rewrite Hi.
  destruct newstate; [done | | | ].
  - rewrite (bool_decide_eq_true_2 (S_READY = S_READY)), bool_decide_eq_false_2 by auto. cbn.
    rewrite (make_runnable_eq _ _ th p) by congruence. unfold enqueue, get_thread. rewrite Hi, Hc. cbn.
    rewrite lookup_insert_eq. cbn. rewrite lookup_insert_eq. cbn. unfold set_cpu, set_thread. cbn.
    by rewrite !insert_insert_eq.
  - unfold get_chan. rewrite (bool_decide_eq_false_2 (S_SLEEP = S_READY)), Hl by done. cbn.
    unfold get_thread. cbn. rewrite Ht. cbn. by rewrite Hp.
  - rewrite (bool_decide_eq_false_2 (S_ZOMBIE = S_READY)) by done. cbn.
    unfold get_thread. cbn. rewrite Ht. cbn. rewrite lookup_insert_eq. cbn. unfold set_cpu. cbn. by rewrite insert_insert_eq.
Qed.

Lemma left_ok s c p th newstate wc l :
  sched_inv s -> allcpus s !! c = Some p -> c_isidle p = false -> threads s !! c_curthread p = Some th -> t_cpu th = c ->
  (newstate = S_SLEEP -> chans s !! wc = Some l) -> (newstate = S_ZOMBIE -> t_proc th = None) -> newstate <> S_RUN ->
  sched_inv (left s c p th newstate wc l).
Proof.
  intros HI Hp Hi Ht Hc Hl Hz Hr. destruct (si_cpu _ HI _ _ Hp) as [Hok Hcur].
  eapply (sched_inv_move s _ c p (left_cpu p newstate) (c_curthread p) th (set_state th newstate) (OnCpu Running c)
    (dest newstate c wc)); try done.
  1-5: by destruct newstate.
  - unfold left. rewrite spot_list_set_cpu, decide_True, (spot_list_cpu _ _ _ _ Hp) by done. cbn. by rewrite Hi.
  - unfold left. rewrite spot_list_set_cpu. destruct newstate; cbn; [done | | | ].
    + rewrite decide_True, Hp by done. cbn. by rewrite (comm (++)).
    + rewrite Hl, lookup_insert_eq by done. cbn. by rewrite (comm (++)).
    + rewrite decide_True, Hp by done. cbn. by rewrite (comm (++)).
  - intros sp HA HB. unfold left. rewrite spot_list_set_cpu. destruct sp as [k d | w].
    + case_decide as E; [subst d | by destruct newstate]. rewrite (spot_list_cpu _ _ _ _ Hp).
      destruct newstate, k; cbn; done.
    + destruct newstate; try done. cbn in HB |- *. rewrite lookup_insert_ne; [done | congruence].
  - destruct newstate; cbn; auto.
  - destruct Hok as [I As W Sd]. destruct newstate; by split.
  - destruct newstate; (eapply same_home_cur; [by eapply same_home_insert | done]).
Qed.

(** *** Taking over the processor *)

Lemma inv_running s c p :
  sched_inv s -> allcpus s !! c = Some p -> c_isidle p = false ->
  exists th, threads s !! c_curthread p = Some th /\ (t_state th = S_RUN \/ t_state th = S_READY) /\ t_cpu th = c.
Proof.
  intros HI Hp Hi. destruct (inv_spot s (c_curthread p) (OnCpu Running c) HI) as (th & _ & Ht & [Hs Hc] & _).
  - rewrite (spot_list_cpu _ _ _ _ Hp). cbn. rewrite Hi. set_solver.
  - by exists th.
Qed.

(** One round of exorcise. *)
Lemma exorcise_step s c p z l :
  sched_inv s -> allcpus s !! c = Some p -> c_isidle p = false -> c_zombies p = z :: l ->
  exists s', thread_destroy (set_cpu s c (with_zombies p l)) c z = Ok s' /\ z <> c_curthread p /\
    (exists th, threads s !! z = Some th /\ t_state th = S_ZOMBIE) /\
    sched_inv s' /\ allcpus s' = <[c := with_zombies p l]> (allcpus s) /\ chans s' = chans s.
Proof.
  intros HI Hp Hi Hz. assert (Hin : z ∈ spot_list s (OnCpu Zombie c)).
  { rewrite (spot_list_cpu _ _ _ _ Hp). cbn. rewrite Hz. set_solver. }
  destruct (inv_spot s z _ HI Hin) as (th & _ & Ht & (Hs & Hc & Hpr) & _).
  destruct (inv_running s c p HI Hp Hi) as (thc & Hcur & Hrun & Hcc).
  assert (Hne : z <> c_curthread p) by (destruct Hrun; congruence).
  assert (Hdel : forall d q, allcpus s !! d = Some q -> z <> c_curthread q ->
            cur_ok (delete z (threads s)) d q).
  { intros d q Hq Hzq. destruct (proj2 (si_cpu _ HI _ _ Hq)) as (thq & Hthq & ?). exists thq. by rewrite lookup_delete_ne. }
  unfold thread_destroy, get_cpu, get_thread. cbn. rewrite lookup_insert_eq. cbn.
  destruct (Z.eqb_spec z (c_curthread p)); [done |]. cbn. rewrite Ht. cbn. rewrite Hs, Hpr. cbn.
  eexists. split; [done |]. split; [done |]. split; [by exists th |]. split; [ | done].
  eapply (sched_inv_upd s _ c p (with_zombies p l)); try done; cbn.
  - eapply (places_remove _ _ _ _ (OnCpu Zombie c)); [apply si_places; done | ..].
    + rewrite (spot_list_cpu _ _ _ _ Hp). cbn. by rewrite lookup_insert_eq, Hz.
    + intros sp Hsp. change (spot_list (set_cpu s c (with_zombies p l)) sp ≡ₚ spot_list s sp).
      rewrite spot_list_set_cpu. destruct sp as [k d | ]; [ | done]. case_decide as E; [subst | done].
      rewrite (spot_list_cpu _ _ _ _ Hp). by destruct k.
  - destruct (proj1 (si_cpu _ HI _ _ Hp)). by split.
  - by apply (Hdel c p).
  - intros d q Hd Hq. apply Hdel; [done |]. intros ->.
    destruct (proj2 (si_cpu _ HI _ _ Hq)) as (thq & ? & ?). congruence.
  - intros u [thu [_ Hu]%lookup_delete_Some]. eapply (si_next _ HI). by exists thu.
  - intros u thu [_ Hu]%lookup_delete_Some. by eapply (si_home _ HI).
Qed.

Lemma exorcise_ok l s c p :
  sched_inv s -> allcpus s !! c = Some p -> c_isidle p = false -> c_zombies p = l ->
  exists s', exorcise_list l s c = Ok s' /\ sched_inv s' /\ allcpus s' = <[c := with_zombies p []]> (allcpus s) /\
    chans s' = chans s.
Proof.
  revert s p. induction l as [ | z l IH]; intros s p HI Hp Hi Hz.
  { exists s. split; [done |]. split; [done |]. split; [ | done]. rewrite insert_id; [done |].
    rewrite Hp. f_equal. destruct p; cbn in *. by subst. }
  destruct (exorcise_step s c p z l HI Hp Hi Hz) as (s1 & E1 & Hne & (th & Ht & Hs) & HI1 & Hc1 & Hch).
  cbn [exorcise_list]. unfold get_cpu, get_thread. rewrite Hp. cbn -[thread_destroy].
  destruct (Z.eqb_spec z (c_curthread p)); [done |]. cbn -[thread_destroy]. rewrite Ht. cbn -[thread_destroy].
  rewrite bool_decide_eq_true_2 by done. cbn -[thread_destroy]. rewrite E1. cbn -[thread_destroy].
  destruct (IH s1 (with_zombies p l)) as (s2 & E2 & HI2 & Hc2 & Hch2); try done.
  { by rewrite Hc1, lookup_insert_eq. }
  exists s2. rewrite Hc2, Hc1, insert_insert_eq, Hch2. done.
Qed.

(** The next thread gets the processor. *)
Definition taken (s : sched) (c : Z) (p : cpu) (next : Z) (th : thread) (l : list Z) : sched :=
  set_thread (set_cpu s c (with_current (with_idle (with_queue p l) false false) next)) next (set_state th S_RUN).

Lemma taken_ok s c p next th l :
  sched_inv s -> allcpus s !! c = Some p -> c_isidle p = true -> c_runqueue p = next :: l ->
  threads s !! next = Some th -> t_cpu th = c -> sched_inv (taken s c p next th l).
Proof.
  intros HI Hp Hi Hq Ht Hc. destruct (si_cpu _ HI _ _ Hp) as [[I As W Sd] Hcur].
  eapply (sched_inv_move s _ c p (with_current (with_idle (with_queue p l) false false) next) next th (set_state th S_RUN)
    (OnCpu Queued c) (OnCpu Running c)); try done.
  - unfold taken. cbn. rewrite lookup_insert_eq, Hp. cbn. by rewrite Hq.
  - unfold taken. cbn. rewrite lookup_insert_eq, Hp. cbn. by rewrite Hi.
  - intros sp HA HB. change (spot_list (set_cpu s c (with_current (with_idle (with_queue p l) false false) next)) sp ≡ₚ spot_list s sp).
    rewrite spot_list_set_cpu. destruct sp as [k d | ]; [ | done]. case_decide as E; [subst d | done].
    rewrite (spot_list_cpu _ _ _ _ Hp). by destruct k.
  - split; [by left | done].
  - exists (set_state th S_RUN). split; [apply lookup_insert_eq | done].
Qed.

(** One round of the loop in thread_switch. *)
Lemma switch_next_ok s c p :
  sched_inv s -> allcpus s !! c = Some p -> c_isidle p = true -> c_victims p = [] ->
  exists s' p', switch_next s c = Ok s' /\ sched_inv s' /\ allcpus s' = <[c := p']> (allcpus s) /\ chans s' = chans s /\
    match c_runqueue p with
    | [] => c_asleep p' = true /\ c_isidle p' = true /\ c_curthread p' = c_curthread p
    | next :: l => c_curthread p' = next /\ c_isidle p' = false /\ c_runqueue p' = l /\ c_zombies p' = []
    end.
Proof.
  intros HI Hp Hi Hv. unfold switch_next, get_cpu. rewrite Hp. cbn [access rbind].
  destruct (si_cpu _ HI _ _ Hp) as [[I As W Sd] Hcur].
  destruct (c_runqueue p) as [ | next l] eqn:Hq.
  - eexists _, (with_idle p true true). split; [done |]. split; [ | done].
    eapply (sched_inv_upd s _ c p (with_idle p true true)); try done; cbn.
    + eapply places_same; [apply (si_places _ HI) |]. intros sp.
      rewrite spot_list_set_cpu. destruct sp as [k d | ]; [ | done]. case_decide as E; [subst d | done].
      rewrite (spot_list_cpu _ _ _ _ Hp). destruct k; cbn; by rewrite ?Hi.
    + intros d q _ Hq'. by eapply (si_cpu _ HI).
    + exact (si_next _ HI).
    + exact (si_home _ HI).
  - destruct (inv_spot s next (OnCpu Queued c) HI) as (th & _ & Ht & [_ Hc] & _).
    { rewrite (spot_list_cpu _ _ _ _ Hp). cbn. rewrite Hq. set_solver. }
    unfold get_thread. cbn [set_cpu threads]. rewrite Ht. cbn [access rbind].
    pose proof (taken_ok s c p next th l HI Hp Hi Hq Ht Hc) as HI1.
    set (p1 := with_current (with_idle (with_queue p l) false false) next).
    assert (Hp1 : allcpus (taken s c p next th l) !! c = Some p1) by (cbn; by rewrite lookup_insert_eq).
    destruct (exorcise_ok _ _ c p1 HI1 Hp1 eq_refl eq_refl) as (s2 & E2 & HI2 & Hc2 & Hch2).
    exists s2, (with_zombies p1 []). 
    change (set_thread (set_cpu s c p1) next (set_state th S_RUN)) with (taken s c p next th l).
    unfold exorcise, get_cpu. rewrite Hp1. cbn [access rbind].
    rewrite E2, Hc2. cbn. by rewrite insert_insert_eq.
Qed.

(** A whole thread_switch by the thread that runs. *)
Lemma thread_switch_ok s c p th newstate wc :
  sched_inv s -> allcpus s !! c = Some p -> c_isidle p = false -> c_victims p = [] ->
  threads s !! c_curthread p = Some th ->
  (newstate = S_SLEEP -> is_Some (chans s !! wc)) -> (newstate = S_ZOMBIE -> t_proc th = None) -> newstate <> S_RUN ->
  exists s', thread_switch s c newstate wc = Ok s' /\ sched_inv s'.
Proof.
  intros HI Hp Hi Hv Ht Hl Hz Hr. destruct (inv_running s c p HI Hp Hi) as (th' & Ht' & _ & Hc). simplify_eq.
  destruct (decide (newstate = S_READY /\ c_runqueue p = [])) as [[-> Hq] | Hgo].
  { exists s. unfold thread_switch, switch_begin, get_cpu. rewrite Hp. cbn. by rewrite Hi, Hq. }
  set (l := default [] (chans s !! wc)).
  assert (Hl' : newstate = S_SLEEP -> chans s !! wc = Some l) by (intros E; unfold l; by destruct (Hl E) as [? ->]).
  unfold thread_switch. rewrite (switch_begin_eq s (t_cpu th) p th newstate wc l) by naive_solver. cbn [rbind].
  pose proof (left_ok s (t_cpu th) p th newstate wc l HI Hp Hi Ht eq_refl Hl' Hz Hr) as HI1.
  destruct (switch_next_ok (left s (t_cpu th) p th newstate wc l) (t_cpu th) (left_cpu p newstate)) as (s2 & p2 & E2 & HI2 & _).
  - done.
  - destruct newstate; cbn; by rewrite lookup_insert_eq.
  - done.
  - by destruct newstate.
  - by exists s2.
Qed.

(** A processor changes in what the spots do not show. *)
Lemma sched_inv_cpu s c p p' :
  sched_inv s -> allcpus s !! c = Some p -> (forall k, cpu_list p' k ≡ₚ cpu_list p k) ->
  c_curthread p' = c_curthread p -> cpu_ok p' -> sched_inv (set_cpu s c p').
Proof.
  intros HI Hp Hl Hc Hok. eapply (sched_inv_upd s _ c p p'); try done; cbn.
  - eapply places_same; [apply (si_places _ HI) |]. intros sp. rewrite spot_list_set_cpu. destruct sp as [k d | ]; [ | done].
    case_decide as E; [subst d | done]. by rewrite (spot_list_cpu _ _ _ _ Hp).
  - unfold cur_ok. rewrite Hc. by apply (si_cpu _ HI).
  - intros d q _ Hq. by eapply (si_cpu _ HI).
  - exact (si_next _ HI).
  - exact (si_home _ HI).
Qed.

(** The running thread is detached from its process. *)
Lemma sched_inv_detach s c p th :
  sched_inv s -> allcpus s !! c = Some p -> c_isidle p = false -> threads s !! c_curthread p = Some th ->
  sched_inv (set_thread s (c_curthread p) (mkThread (t_state th) (t_cpu th) None)).
Proof.
  intros HI Hp Hi Ht. set (th' := mkThread (t_state th) (t_cpu th) None).
  assert (Hhome : same_home (threads s) (<[c_curthread p := th']> (threads s))) by by eapply same_home_insert.
  eapply (sched_inv_upd s _ c p p); try done; cbn.
  - by rewrite insert_id.
  - destruct (si_places _ HI) as [N O F A]. split; try done.
    + intros t sp Hin. destruct (F t sp Hin) as (thu & Hu & Hf). destruct (decide (t = c_curthread p)) as [-> | Hne].
      * exists th'. rewrite lookup_insert_eq. split; [done |]. simplify_eq.
        replace sp with (OnCpu Running c); [destruct (F (c_curthread p) (OnCpu Running c)) as (? & ? & ?) |].
        -- cbn. rewrite Hp. cbn. rewrite Hi. set_solver.
        -- by simplify_eq.
        -- apply (O (c_curthread p)); [ | done]. cbn. rewrite Hp. cbn. rewrite Hi. set_solver.
      * exists thu. by rewrite lookup_insert_ne.
    + intros t thu [[<- _] | [_ Hu]]%lookup_insert_Some; [by eapply A | by eapply A].
  - by apply (si_cpu _ HI _ _ Hp).
  - eapply same_home_cur; [done |]. by apply (si_cpu _ HI).
  - intros d q _ Hq. eapply same_home_cur; [done |]. by apply (si_cpu _ HI).
  - apply below_insert; [exact (si_next _ HI) | eapply (si_next _ HI); by exists th].
  - by eapply home_insert.
Qed.

Lemma thread_exit_ok s c p th pr :
  sched_inv s -> allcpus s !! c = Some p -> c_isidle p = false -> c_victims p = [] ->
  threads s !! c_curthread p = Some th -> t_proc th = Some pr ->
  exists s', thread_exit s c = Ok s' /\ sched_inv s'.
Proof.
  intros HI Hp Hi Hv Ht Hpr. unfold thread_exit, get_cpu, get_thread. rewrite Hp. cbn [access rbind]. rewrite Ht. cbn [access rbind].
  rewrite bool_decide_eq_true_2 by congruence. cbn [kassert].
  eapply (thread_switch_ok _ c p); try done; [by eapply sched_inv_detach | cbn; apply lookup_insert_eq | done].
Qed.

(** *** New threads *)

Lemma next_fresh s : sched_inv s -> threads s !! next_thread s = None.
Proof.
  intros HI. destruct (threads s !! next_thread s) eqn:E; [ | done].
  assert (next_thread s < next_thread s); [apply (si_next _ HI); by eexists | lia].
Qed.

Lemma forked_ok s c p th :
  sched_inv s -> allcpus s !! c = Some p -> t_state th = S_READY -> t_cpu th = c ->
  sched_inv (mkSched (<[next_thread s := th]> (threads s)) (<[c := enqueue p (next_thread s)]> (allcpus s)) (numcpus s)
    (chans s) (next_thread s + 1)).
Proof.
  intros HI Hp Hs Hc. set (t := next_thread s). pose proof (next_fresh s HI) as Hnew. fold t in Hnew.
  destruct (si_cpu _ HI _ _ Hp) as [Hok Hcur]. destruct (enqueue_cur p t) as [Ec Ei].
  eapply (sched_inv_upd s _ c p (enqueue p t)); try done; cbn.
  - eapply (places_add _ _ _ _ (OnCpu Queued c)); [apply (si_places _ HI) | done | ..].
    + change (spot_list (set_cpu s c (enqueue p t)) (OnCpu Queued c) ≡ₚ t :: spot_list s (OnCpu Queued c)).
      rewrite spot_list_set_cpu, decide_True, enqueue_list, decide_True, (spot_list_cpu _ _ _ _ Hp) by done.
      cbn. by rewrite (comm (++)).
    + intros sp Hsp. change (spot_list (set_cpu s c (enqueue p t)) sp ≡ₚ spot_list s sp). rewrite spot_list_set_cpu.
      destruct sp as [k d | ]; [ | done]. case_decide as E; [subst d | done]. rewrite (spot_list_cpu _ _ _ _ Hp), enqueue_list.
      rewrite decide_False by congruence. done.
    + done.
  - by apply enqueue_ok.
  - unfold cur_ok. rewrite Ec. by eapply same_home_cur; [apply same_home_new |].
  - intros d q _ Hq. eapply same_home_cur; [by apply same_home_new |]. by apply (si_cpu _ HI).
  - apply below_insert; [ | unfold t; lia]. intros u Hu. pose proof (si_next _ HI u Hu). unfold t. lia.
  - intros u thu [[<- <-] | [_ Hu]]%lookup_insert_Some; [rewrite Hc; by exists p | by eapply (si_home _ HI)].
Qed.

(** A thread that was never put anywhere is thrown away again. *)
Lemma fork_undo s c p t th :
  sched_inv s -> allcpus s !! c = Some p -> t = next_thread s -> t_state th = S_READY -> t_proc th = None ->
  exists s', thread_destroy (mkSched (<[t := th]> (threads s)) (allcpus s) (numcpus s) (chans s) (t + 1)) c t = Ok s' /\ sched_inv s'.
Proof.
  intros HI Hp -> Hs Hpr. pose proof (next_fresh s HI) as Hnew. destruct (proj2 (si_cpu _ HI _ _ Hp)) as (thc & Hthc & _).
  unfold thread_destroy, get_cpu, get_thread. cbn. rewrite Hp. cbn.
  destruct (Z.eqb_spec (next_thread s) (c_curthread p)); [congruence |]. cbn. rewrite lookup_insert_eq. cbn. rewrite Hs, Hpr. cbn.
  eexists. split; [done |]. rewrite delete_insert_id by done.
  destruct HI as [P C N X H M]. split; try done. cbn. intros u Hu. pose proof (X u Hu). lia.
Qed.

Lemma thread_fork_ok s c p proc mem1 mem2 mem3 :
  sched_inv s -> allcpus s !! c = Some p -> c_isidle p = false ->
  exists s' r, thread_fork s c proc mem1 mem2 mem3 = Ok (s', r) /\ sched_inv s' /\
    r = (if mem1 && mem2 && mem3 then 0 else ENOMEM).
Proof.
  intros HI Hp Hi. destruct (inv_running s c p HI Hp Hi) as (th & Ht & _ & Hc).
  unfold thread_fork, get_cpu, get_thread, thread_create. rewrite Hp. cbn [access rbind]. rewrite Ht. cbn [access rbind].
  destruct mem1; [ | by exists s, ENOMEM]. unfold set_thread. cbn [negb andb threads allcpus numcpus chans next_thread].
  destruct mem2; cbn [negb andb].
  2: { destruct (fork_undo s c p (next_thread s) (mkThread S_READY (-1) None)) as (s' & E & HI'); try done.
       rewrite E. by eexists _, _. }
  rewrite !insert_insert_eq. destruct mem3; cbn [negb andb].
  - erewrite (make_runnable_eq _ _ _ p); [ | apply lookup_insert_eq | cbn; congruence]. cbn.
    eexists _, 0. split; [done |]. split; [ | done]. unfold set_cpu, set_thread. cbn. rewrite !insert_insert_eq, Hc.
    by apply forked_ok.
  - destruct (fork_undo s c p (next_thread s) (mkThread S_READY (t_cpu th) None)) as (s' & E & HI'); try done.
    rewrite E. by eexists _, _.
Qed.

(** *** Interrupts *)

Lemma wake_cpu_ok s c p : sched_inv s -> allcpus s !! c = Some p -> exists s', wake_cpu s c = Ok s' /\ sched_inv s' /\
  s' = set_cpu s c (with_idle p (c_isidle p) false).
Proof.
  intros HI Hp. unfold wake_cpu, get_cpu. rewrite Hp. cbn. eexists. split; [done |]. split; [ | done].
  destruct (si_cpu _ HI _ _ Hp) as [[I As W Sd] _]. by eapply sched_inv_cpu; [ | | intros [] | | split].
Qed.

Lemma ipi_ok s v c p :
  sched_inv s -> allcpus s !! c = Some p -> c_asleep p = false ->
  exists s', interprocessor_interrupt s v c = Ok (Some (s', v)) /\ sched_inv s' /\
    s' = set_cpu s c (with_ipi p 0 (c_shootdown p) (c_numshootdown p)).
Proof.
  intros HI Hp Ha. destruct (si_cpu _ HI _ _ Hp) as [[I As W Sd] _].
  unfold interprocessor_interrupt, get_cpu. rewrite Hp. cbn [access rbind].
  assert (Hbit : forall j, 0 <= j < 32 -> j <> IPI_UNIDLE -> Z.land (c_ipi_pending p) (Z.shiftl 1 j) =? 0 = true).
  { intros j Hj Hne. rewrite land_shl1_zero by lia. destruct I as [-> | ->]; [by rewrite Z.bits_0 |].
    rewrite testbit_shl1 by (unfold IPI_UNIDLE; lia). by destruct (Z.eqb_spec j IPI_UNIDLE). }
  rewrite !Hbit by (unfold IPI_PANIC, IPI_OFFLINE, IPI_TLBSHOOTDOWN, IPI_UNIDLE; lia). cbn.
  eexists. split; [done |]. split; [ | done].
  eapply sched_inv_cpu; [done | done | by intros [] | done |]. split; cbn; auto. by rewrite Ha.
Qed.

(** *** Migration *)

(** Threads move between two spots that ask the same of them. *)
Lemma places_regroup L L' T A B :
  places_ok L T -> A <> B -> (forall th, fits th A <-> fits th B) ->
  L' A ++ L' B ≡ₚ L A ++ L B -> (forall sp, sp <> A -> sp <> B -> L' sp ≡ₚ L sp) -> places_ok L' T.
Proof.
  intros [N O F Al] Hne Hfit HAB Hsame.
  assert (Hin : forall t, (t ∈ L' A \/ t ∈ L' B) <-> (t ∈ L A \/ t ∈ L B)) by (intros t; by rewrite <- !elem_of_app, HAB).
  assert (Hnd : NoDup (L' A ++ L' B)).
  { rewrite HAB. apply NoDup_app. split; [done |]. split; [ | done]. intros t H1 H2. by apply Hne, (O t). }
  apply NoDup_app in Hnd as (NA & NAB & NB).
  assert (Hback : forall t sp, t ∈ L' sp -> exists sp0, t ∈ L sp0 /\ (forall th, fits th sp0 -> fits th sp) /\
            ((sp = A \/ sp = B) -> sp0 = A \/ sp0 = B) /\ (sp <> A -> sp <> B -> sp0 = sp)).
  { intros t sp Ht. destruct (decide (sp = A)) as [-> | HA]; [ | destruct (decide (sp = B)) as [-> | HB]].
    - destruct (proj1 (Hin t)) as [? | ?]; [by left | exists A | exists B]; naive_solver.
    - destruct (proj1 (Hin t)) as [? | ?]; [by right | exists A | exists B]; naive_solver.
    - exists sp. rewrite <- Hsame by done. naive_solver. }
  split.
  - intros sp. destruct (decide (sp = A)) as [-> | HA]; [done |]. destruct (decide (sp = B)) as [-> | HB]; [done |]. by rewrite Hsame.
  - intros t sp sp' H1 H2. destruct (Hback _ _ H1) as (q1 & K1 & _ & A1 & B1), (Hback _ _ H2) as (q2 & K2 & _ & A2 & B2).
    assert (q1 = q2) by (by eapply O). subst q2.
    destruct (decide (sp = A)), (decide (sp = B)), (decide (sp' = A)), (decide (sp' = B)); subst; naive_solver.
  - intros t sp Ht. destruct (Hback _ _ Ht) as (q & K & Hf & _). destruct (F _ _ K) as (th & ? & ?). exists th. auto.
  - intros t th Ht. destruct (Al _ _ Ht) as [sp Hsp].
    destruct (decide (sp = A)) as [-> | HA]; [destruct (proj2 (Hin t)); [by left | by exists A | by exists B] |].
    destruct (decide (sp = B)) as [-> | HB]; [destruct (proj2 (Hin t)); [by right | by exists A | by exists B] |].
    exists sp. by rewrite Hsame.
Qed.

(** The run queue and the victims of a processor are regrouped. *)
Lemma sched_inv_regroup s c p p' :
  sched_inv s -> allcpus s !! c = Some p -> c_runqueue p' ++ c_victims p' ≡ₚ c_runqueue p ++ c_victims p ->
  c_curthread p' = c_curthread p -> c_isidle p' = c_isidle p -> c_zombies p' = c_zombies p -> cpu_ok p' ->
  sched_inv (set_cpu s c p').
Proof.
  intros HI Hp Hrv Hc Hi Hz Hok. eapply (sched_inv_upd s _ c p p'); try done; cbn.
  - eapply (places_regroup _ _ _ (OnCpu Queued c) (OnCpu Victim c)); [apply (si_places _ HI) | done | done | ..].
    + cbn. by rewrite lookup_insert_eq, Hp.
    + intros sp HA HB. rewrite spot_list_set_cpu. destruct sp as [k d | ]; [ | done]. case_decide as E; [subst d | done].
      rewrite (spot_list_cpu _ _ _ _ Hp). destruct k; cbn; by rewrite ?Hi, ?Hc, ?Hz.
  - unfold cur_ok. rewrite Hc. by apply (si_cpu _ HI).
  - intros d q _ Hq. by eapply (si_cpu _ HI).
  - exact (si_next _ HI).
  - exact (si_home _ HI).
Qed.

Lemma take_victims_eq k rq v :
  (k <= length rq)%nat ->
  take_victims k rq v = Ok (take (length rq - k) rq, drop (length rq - k) rq ++ v).
Proof.
  revert rq v. induction k as [ | k IH]; intros rq v Hk.
  { cbn. rewrite Nat.sub_0_r, take_ge, drop_ge by lia. done. }
  destruct rq as [ | x rq _] using rev_ind; [cbn in Hk; lia |]. rewrite length_app in Hk |- *. cbn in Hk |- *.
  rewrite last_snoc. cbn. rewrite removelast_last, IH by lia.
  replace (length rq + 1 - S k)%nat with (length rq - k)%nat by lia.
  rewrite take_app_le, drop_app_le by lia. by rewrite <- app_assoc.
Qed.

Lemma migrate_take_ok s c p n :
  sched_inv s -> allcpus s !! c = Some p -> c_asleep p = false -> c_victims p = [] -> 0 <= n <= zlen (c_runqueue p) ->
  exists s' rq v, migrate_take s c n = Ok s' /\ sched_inv s' /\ s' = set_cpu s c (with_victims (with_queue p rq) v n) /\
    rq ++ v = c_runqueue p /\ zlen v = n.
Proof.
  intros HI Hp Ha Hv Hn. unfold migrate_take, get_cpu. rewrite Hp. cbn [access rbind]. unfold zlen in Hn.
  rewrite take_victims_eq by lia. cbn [rbind]. rewrite app_nil_r.
  set (k := (length (c_runqueue p) - Z.to_nat n)%nat).
  assert (Hlen : zlen (drop k (c_runqueue p)) = n) by (unfold zlen, k; rewrite length_drop; lia).
  eexists _, _, _. split; [done |]. split; [ | by rewrite take_drop].
  destruct (si_cpu _ HI _ _ Hp) as [[I As W Sd] _].
  eapply sched_inv_regroup; try done; cbn; [by rewrite take_drop, Hv, app_nil_r |].
  split; cbn; rewrite ?Ha; try done. lia.
Qed.

(** One victim goes to processor [d]. *)
Lemma give_one_ok s c p d q t l :
  sched_inv s -> c <> d -> allcpus s !! c = Some p -> allcpus s !! d = Some q -> c_victims p = t :: l ->
  t <> c_curthread p -> c_asleep p = false -> 0 < c_to_send p ->
  exists th, threads s !! t = Some th /\
    sched_inv (set_cpu (set_thread (set_cpu s c (with_victims p l (c_to_send p - 1))) t (mkThread (t_state th) d (t_proc th)))
      d (enqueue q t)).
Proof.
  intros HI Hcd Hp Hq Hv Hne Ha Hs.
  destruct (inv_spot s t (OnCpu Victim c) HI) as (th & _ & Ht & [Hst Hc] & _).
  { cbn. rewrite Hp. cbn. rewrite Hv. set_solver. }
  exists th. split; [done |]. set (th' := mkThread (t_state th) d (t_proc th)). set (p' := with_victims p l (c_to_send p - 1)).
  destruct (si_cpu _ HI _ _ Hp) as [[I As W Sd] Hcur], (enqueue_cur q t) as [Ec Ei].
  assert (Hcur' : forall e r, allcpus s !! e = Some r -> cur_ok (<[t := th']> (threads s)) e r).
  { intros e r Hr. destruct (proj2 (si_cpu _ HI _ _ Hr)) as (thr & Hthr & He). exists thr.
    rewrite lookup_insert_ne; [done |]. intros ->. assert (e = c) by congruence. subst e. congruence. }
  split; cbn.
  - eapply (places_move _ _ _ _ (OnCpu Victim c) (OnCpu Queued d)); [apply (si_places _ HI) | done | ..].
    + rewrite spot_list_set_cpu, decide_False by done. cbn. by rewrite lookup_insert_eq, Hp, Hv.
    + rewrite spot_list_set_cpu, decide_True, enqueue_list, decide_True, (spot_list_cpu _ _ _ _ Hq) by done.
      cbn. by rewrite (comm (++)).
    + intros sp HA HB. rewrite spot_list_set_cpu. destruct sp as [k e | ]; [ | done]. case_decide as E.
      * subst e. rewrite (spot_list_cpu _ _ _ _ Hq), enqueue_list, decide_False; [done | congruence].
      * change (spot_list (set_cpu s c p') (OnCpu k e) ≡ₚ spot_list s (OnCpu k e)). rewrite spot_list_set_cpu.
        case_decide as E'; [subst e | done]. rewrite (spot_list_cpu _ _ _ _ Hp). by destruct k.
    + done.
  - intros e r [[<- <-] | [He [[<- <-] | [He' Hr]]%lookup_insert_Some]]%lookup_insert_Some.
    + split; [by apply enqueue_ok, (si_cpu _ HI _ _ Hq) |]. unfold cur_ok. rewrite Ec. by apply Hcur'.
    + split; [ | by apply (Hcur' c p)]. split; cbn; rewrite ?Ha; try done. rewrite Hv in Sd. unfold zlen in *. cbn in Sd. lia.
    + split; [by eapply (si_cpu _ HI) | by apply Hcur'].
  - intros e. rewrite <- (si_cpus _ HI). rewrite !lookup_insert_is_Some'. naive_solver.
  - intros u [thu [[<- _] | [_ Hu]]%lookup_insert_Some]; eapply (si_next _ HI); by eexists.
  - intros u thu Hu. rewrite !lookup_insert_is_Some'. apply lookup_insert_Some in Hu as [[_ <-] | [_ Hu]]; [by left |].
    right; right. by eapply (si_home _ HI).
  - by apply si_num.
Qed.

Lemma give_loop_ok k s c d share p :
  sched_inv s -> c <> d -> allcpus s !! c = Some p -> is_Some (allcpus s !! d) -> c_asleep p = false ->
  exists s' v n, migrate_give_loop k s c d share = Ok s' /\ sched_inv s' /\ numcpus s' = numcpus s /\
    allcpus s' !! c = Some (with_victims p v n).
Proof.
  revert s p. induction k as [ | k IH]; intros s p HI Hcd Hp [q Hq] Ha.
  { exists s, (c_victims p), (c_to_send p). rewrite Hp. by destruct p. }
  cbn [migrate_give_loop]. unfold get_cpu. rewrite Hp, Hq. cbn [access rbind].
  destruct ((zlen (c_runqueue q) <? share) && (0 <? c_to_send p)) eqn:Hgo.
  2: { exists s, (c_victims p), (c_to_send p). rewrite Hp. by destruct p. }
  bool_inv. destruct (si_cpu _ HI _ _ Hp) as [[I As W Sd] _].
  destruct (c_victims p) as [ | t l] eqn:Hv; [unfold zlen in Sd; cbn in Sd; lia |].
  destruct (Z.eqb_spec t (c_curthread p)) as [Hcur | Hne].
  - set (p1 := with_victims p (l ++ [t]) (c_to_send p - 1)).
    destruct (IH (set_cpu s c p1) p1) as (s' & v & n & E & HI' & Hn & Hp'); try done.
    + eapply sched_inv_regroup; try done; cbn.
      * rewrite Hv. by rewrite (Permutation_app_comm l [t]).
      * split; cbn; rewrite ?Ha; try done. unfold zlen in *. rewrite length_app. cbn in Sd |- *. lia.
    + cbn. apply lookup_insert_eq.
    + cbn. rewrite lookup_insert_ne by done. by exists q.
    + exists s', v, n. by rewrite E.
  - destruct (give_one_ok s c p d q t l) as (th & Ht & HI1); try done.
    unfold get_thread. rewrite Ht. cbn [access rbind].
    match type of HI1 with sched_inv ?s1 => destruct (IH s1 (with_victims p l (c_to_send p - 1))) as (s' & v & n & E & HI' & Hn & Hp') end; try done.
    + cbn. rewrite lookup_insert_ne, lookup_insert_eq by done. done.
    + cbn. rewrite lookup_insert_eq. by eexists.
    + exists s', v, n. split; [ | by destruct p].
      unfold ipi_send, enqueue in *. destruct (c_isidle q); cbn in E |- *; [ | done].
      unfold get_cpu. cbn. rewrite lookup_insert_eq. cbn. unfold set_cpu in *. cbn in *. by rewrite insert_insert_eq.
Qed.

Lemma migrate_give_ok s c d share p :
  sched_inv s -> allcpus s !! c = Some p -> 0 <= d < numcpus s -> c_asleep p = false ->
  exists s' v n, migrate_give s c d share = Ok s' /\ sched_inv s' /\ numcpus s' = numcpus s /\
    allcpus s' !! c = Some (with_victims p v n).
Proof.
  intros HI Hp Hd Ha. unfold migrate_give. destruct (Z.eqb_spec d c) as [-> | Hne].
  - exists s, (c_victims p), (c_to_send p). rewrite Hp. by destruct p.
  - unfold get_cpu. rewrite Hp. cbn [access rbind]. eapply give_loop_ok; try done. by apply (si_cpus _ HI).
Qed.

Lemma migrate_back_ok s c p :
  sched_inv s -> allcpus s !! c = Some p -> c_asleep p = false ->
  exists s', migrate_back s c = Ok s' /\ sched_inv s' /\ numcpus s' = numcpus s /\
    allcpus s' !! c = Some (with_victims (with_queue p (c_runqueue p ++ c_victims p)) [] 0).
Proof.
  intros HI Hp Ha. unfold migrate_back, get_cpu. rewrite Hp. cbn [access rbind].
  eexists. split; [done |]. split; [ | cbn; by rewrite lookup_insert_eq].
  destruct (si_cpu _ HI _ _ Hp) as [[I As W Sd] _].
  eapply sched_inv_regroup; try done; cbn; [by rewrite app_nil_r |]. split; cbn; rewrite ?Ha; done.
Qed.

Lemma give_from_ok k s c share i p :
  sched_inv s -> allcpus s !! c = Some p -> 0 <= i -> i + Z.of_nat k <= numcpus s -> c_asleep p = false ->
  exists s' v n, migrate_give_from k s c share i = Ok s' /\ sched_inv s' /\ numcpus s' = numcpus s /\
    allcpus s' !! c = Some (with_victims p v n).
Proof.
  revert s i p. induction k as [ | k IH]; intros s i p HI Hp Hi Hk Ha.
  { exists s, (c_victims p), (c_to_send p). rewrite Hp. by destruct p. }
  destruct (migrate_give_ok s c i share p) as (s1 & v1 & n1 & E1 & HI1 & Hn1 & Hp1); [done | done | lia | done |].
  destruct (IH s1 (i + 1) _ HI1 Hp1) as (s2 & v2 & n2 & E2 & HI2 & Hn2 & Hp2); [lia | lia | done |].
  exists s2, v2, n2. cbn [migrate_give_from]. rewrite E1. cbn [rbind]. by rewrite E2, Hn2.
Qed.

Lemma total_count_ok k s i acc :
  sched_inv s -> 0 <= i -> i + Z.of_nat k <= numcpus s -> 0 <= acc -> exists n, total_count_from k s i acc = Ok n /\ 0 <= n.
Proof.
  intros HI. revert i acc. induction k as [ | k IH]; intros i acc Hi Hk Hacc; [by exists acc |].
  destruct (proj2 (si_cpus _ HI i)) as [q Hq]; [lia |]. cbn. unfold get_cpu. rewrite Hq. cbn [access rbind].
  apply IH; [lia | lia |]. apply u32_range.
Qed.

Lemma migration_ok s c p :
  sched_inv s -> allcpus s !! c = Some p -> c_asleep p = false -> c_victims p = [] ->
  exists s' q, thread_consider_migration s c = Ok s' /\ sched_inv s' /\ numcpus s' = numcpus s /\
    allcpus s' !! c = Some q /\ c_isidle q = c_isidle p /\ c_victims q = [].
Proof.
  intros HI Hp Ha Hv. assert (Hc : 0 <= c < numcpus s) by (apply (si_cpus _ HI); by exists p).
  destruct (total_count_ok (Z.to_nat (numcpus s)) s 0 0 HI) as (total & Et & Ht); [lia | lia | lia |].
  unfold thread_consider_migration. rewrite Et. cbn [rbind]. unfold get_cpu. rewrite Hp. cbn [access rbind].
  unfold migration_plan. set (share := DIVROUNDUP total (numcpus s)).
  assert (Hsh : 0 <= share) by (apply Z.div_pos; [apply u32_range | lia]).
  destruct (Z.ltb_spec (zlen (c_runqueue p)) share); [by exists s, p |].
  destruct (migrate_take_ok s c p (zlen (c_runqueue p) - share)) as (s1 & rq & v & E1 & HI1 & -> & _); try done; [lia |].
  rewrite E1. cbn [rbind]. set (p1 := with_victims (with_queue p rq) v (zlen (c_runqueue p) - share)).
  assert (Hp1 : allcpus (set_cpu s c p1) !! c = Some p1) by (cbn; by rewrite lookup_insert_eq).
  destruct (give_from_ok (Z.to_nat (numcpus s)) (set_cpu s c p1) c share 0 p1) as (s2 & v2 & n2 & E2 & HI2 & Hn2 & Hp2);
    [done | done | lia | cbn; lia | done |].
  cbn [numcpus set_cpu] in *. rewrite E2. cbn [rbind].
  destruct (migrate_back_ok s2 c _ HI2 Hp2) as (s3 & E3 & HI3 & Hn3 & Hp3); [done |].
  exists s3. eexists. split; [done |]. split; [done |]. split; [congruence |]. by split.
Qed.

(** *** The clock *)

Lemma thread_yield_ok s c p :
  sched_inv s -> allcpus s !! c = Some p -> c_victims p = [] -> exists s', thread_yield s c = Ok s' /\ sched_inv s'.
Proof.
  intros HI Hp Hv. destruct (c_isidle p) eqn:Hi.
  - exists s. unfold thread_yield, thread_switch, switch_begin, get_cpu. rewrite Hp. cbn. by rewrite Hi.
  - destruct (inv_running s c p HI Hp Hi) as (th & Ht & _). by eapply thread_switch_ok.
Qed.

Lemma hardclock_ok s c p :
  sched_inv s -> allcpus s !! c = Some p -> c_asleep p = false -> c_victims p = [] ->
  exists s', hardclock s c = Ok s' /\ sched_inv s'.
Proof.
  intros HI Hp Ha Hv. unfold hardclock, get_cpu. rewrite Hp. cbn [access rbind].
  set (p1 := with_hardclocks p (u32 (c_hardclocks p + 1))).
  assert (HI1 : sched_inv (set_cpu s c p1)).
  { destruct (si_cpu _ HI _ _ Hp) as [[I As W Sd] _]. by eapply sched_inv_cpu; [ | | intros [] | | split]. }
  assert (Hp1 : allcpus (set_cpu s c p1) !! c = Some p1) by (cbn; by rewrite lookup_insert_eq).
  case_if.
  - destruct (migration_ok _ c p1 HI1 Hp1 Ha Hv) as (s2 & q & E2 & HI2 & _ & Hq & _ & Hvq). rewrite E2. cbn [rbind].
    case_if; by eapply thread_yield_ok.
  - cbn [rbind]. case_if; by eapply thread_yield_ok.
Qed.

(** *** Processors and wait channels come and go *)

Lemma cpu_create_ok s : sched_inv s -> exists s', cpu_create s true = Ok (s', numcpus s) /\ sched_inv s'.
Proof.
  intros HI. pose proof (si_num _ HI) as Hn0. pose proof (next_fresh s HI) as Hnew. unfold cpu_create, thread_create, set_thread. cbn. rewrite insert_insert_eq.
  eexists. split; [done |]. set (c := numcpus s). set (t := next_thread s).
  set (p := mkCpu t false false [] [] [] 0 0 0 (repeat 0 16) 0). set (th := mkThread S_READY c (Some kproc)).
  assert (Hc : allcpus s !! c = None).
  { destruct (allcpus s !! c) eqn:E; [ | done]. assert (0 <= c < numcpus s) by (apply (si_cpus _ HI); by eexists). unfold c in *. lia. }
  split; cbn.
  - eapply (places_add _ _ _ _ (OnCpu Running c)); [apply (si_places _ HI) | done | ..].
    + cbn. by rewrite lookup_insert_eq, Hc.
    + intros sp Hsp. change (spot_list (set_cpu s c p) sp ≡ₚ spot_list s sp). rewrite spot_list_set_cpu.
      destruct sp as [k d | ]; [ | done]. case_decide as E; [subst d | done]. cbn. rewrite Hc. by destruct k.
    + split; [by right | done].
  - intros d q [[<- <-] | [Hd Hq]]%lookup_insert_Some.
    + split; [by split; cbn; auto |]. exists th. split; [apply lookup_insert_eq | done].
    + destruct (si_cpu _ HI _ _ Hq). split; [done |]. by eapply same_home_cur; [apply same_home_new |].
  - intros d. rewrite lookup_insert_is_Some', (si_cpus _ HI). unfold c. lia.
  - apply below_insert; [ | unfold t; lia]. intros u Hu. pose proof (si_next _ HI u Hu). lia.
  - intros u thu Hu. rewrite lookup_insert_is_Some'. apply lookup_insert_Some in Hu as [[_ <-] | [_ Hu]]; [by left |].
    right. by eapply (si_home _ HI).
  - lia.
Qed.

(** Empty wait channels are added or removed. *)
Lemma sched_inv_chans s C :
  sched_inv s -> (forall wc, default [] (C !! wc) = default [] (chans s !! wc)) ->
  sched_inv (mkSched (threads s) (allcpus s) (numcpus s) C (next_thread s)).
Proof.
  intros [P Cp N X H M] HC. split; try done. cbn. eapply places_same; [done |]. intros [k d | wc]; [done |]. cbn. by rewrite HC.
Qed.

(** ** Waking all sleepers is waking them one by one *)

Fixpoint wakeones (k : nat) (s : sched) (wc : Z) : res sched :=
  match k with
  | O => Ok s
  | S k => let* s := wchan_wakeone s wc in wakeones k s wc
  end.

Lemma make_runnable_chan s wc l t :
  thread_make_runnable (set_chan s wc l) t = let* s' := thread_make_runnable s t in Ok (set_chan s' wc l).
Proof.
  unfold thread_make_runnable, get_thread, get_cpu, ipi_send. cbn. destruct (threads s !! t) as [th | ]; [ | done]. cbn.
  destruct (allcpus s !! t_cpu th) as [p | ]; [ | done]. cbn. destruct (c_isidle p); [ | done]. unfold get_cpu. cbn.
  by rewrite lookup_insert_eq.
Qed.

Lemma make_all_runnable_chan l s wc l' :
  make_all_runnable l (set_chan s wc l') = let* s' := make_all_runnable l s in Ok (set_chan s' wc l').
Proof.
  revert s. induction l as [ | t l IH]; intros s; [done |]. cbn. rewrite make_runnable_chan.
  destruct (thread_make_runnable s t); [ | done]. cbn. apply IH.
Qed.

Lemma wakeones_eq l s wc :
  chans s !! wc = Some l -> wakeones (length l) s wc = let* s' := make_all_runnable l s in Ok (set_chan s' wc []).
Proof.
  revert s. induction l as [ | t l IH]; intros s Hl; cbn [wakeones length make_all_runnable rbind].
  { destruct s. unfold set_chan. cbn in *. by rewrite insert_id. }
  unfold wchan_wakeone, get_chan. rewrite Hl. cbn [access rbind]. rewrite make_runnable_chan.
  destruct (thread_make_runnable s t) as [s1 | ]; [ | done]. cbn [rbind].
  rewrite IH by (cbn; apply lookup_insert_eq). rewrite make_all_runnable_chan.
  destruct (make_all_runnable l s1); [ | done]. cbn. unfold set_chan. cbn. by rewrite insert_insert_eq.
Qed.

(** Waking every sleeper of a channel, through the private list that
    wchan_wakeall moves them to, has the outcome of waking the first sleeper as
    often as there are sleepers: the same state, or the same fault. *)
Theorem wakeall_is_wakeones s wc l :
  chans s !! wc = Some l -> wchan_wakeall s wc = wakeones (length l) s wc.
Proof.
  intros Hl. rewrite wakeones_eq by done. unfold wchan_wakeall, get_chan. rewrite Hl. cbn [access rbind].
  apply make_all_runnable_chan.
Qed.

Lemma wakeones_ok k s wc :
  sched_inv s -> is_Some (chans s !! wc) -> exists s', wakeones k s wc = Ok s' /\ sched_inv s'.
Proof.
  revert s. induction k as [ | k IH]; intros s HI [l Hl]; [by exists s |]. cbn.
  destruct (wakeone_ok s wc l HI Hl) as (s1 & E & HI1 & Hc). rewrite E. cbn. apply IH; [done |]. rewrite Hc, lookup_insert_eq. by eexists.
Qed.

Lemma wakeall_ok s wc : sched_inv s -> is_Some (chans s !! wc) -> exists s', wchan_wakeall s wc = Ok s' /\ sched_inv s'.
Proof.
  intros HI [l Hl]. destruct (wakeones_ok (length l) s wc HI) as (s' & E & HI'); [by eexists |]. exists s'. split; [ | done].
  unfold wchan_wakeall, get_chan. rewrite Hl. cbn [access rbind]. rewrite make_all_runnable_chan. by rewrite wakeones_eq in E.
Qed.

(** * The scheduler as a transition system *)

(** What can happen.  [EvNext]: a processor with nothing to run looks at its
    queue again after an interrupt; [EvInterrupt]: an interrupt takes it out of
    cpu_idle; the migration of threads away from a processor can be
    interleaved with everything other processors do ([EvTake], [EvGive],
    [EvBack]) or happen at one go ([EvHardclock]). *)
Inductive event :=
| EvCpu
| EvChanCreate (wc : Z)
| EvChanDestroy (wc : Z)
| EvYield (c : Z)
| EvSleep (c wc : Z)
| EvExit (c : Z)
| EvFork (c : Z) (proc : option Z) (mem1 mem2 mem3 : bool)
| EvNext (c : Z)
| EvWakeone (wc : Z)
| EvWakeall (wc : Z)
| EvInterrupt (c : Z)
| EvIpi (c : Z)
| EvHardclock (c : Z)
| EvTake (c n : Z)
| EvGive (c d share : Z)
| EvBack (c : Z).

Definition on_cpu (s : sched) (c : Z) (f : cpu -> bool) : bool :=
  match allcpus s !! c with Some p => f p | None => false end.

(** A thread runs on the processor, and not in the middle of a migration. *)
Definition runs (p : cpu) : bool := negb (c_isidle p) && bool_decide (c_victims p = []).

Definition has_proc (s : sched) (p : cpu) : bool :=
  match threads s !! c_curthread p with Some th => bool_decide (t_proc th <> None) | None => false end.

(** The victims of a migration were counted before: the queue they are taken
    from can only have grown. *)
Definition enabled (s : sched) (e : event) : bool :=
  match e with
  | EvCpu => true
  | EvChanCreate wc => bool_decide (chans s !! wc = None)
  | EvChanDestroy wc => bool_decide (chans s !! wc = Some [])
  | EvYield c => on_cpu s c runs
  | EvSleep c wc => on_cpu s c runs && bool_decide (is_Some (chans s !! wc))
  | EvExit c => on_cpu s c (fun p => runs p && has_proc s p)
  | EvFork c _ _ _ _ => on_cpu s c runs
  | EvNext c => on_cpu s c (fun p => c_isidle p && negb (c_asleep p) && bool_decide (c_victims p = []))
  | EvWakeone wc | EvWakeall wc => bool_decide (is_Some (chans s !! wc))
  | EvInterrupt c => on_cpu s c (fun _ => true)
  | EvIpi c | EvBack c => on_cpu s c (fun p => negb (c_asleep p))
  | EvHardclock c => on_cpu s c (fun p => negb (c_asleep p) && bool_decide (c_victims p = []))
  | EvTake c n =>
    on_cpu s c (fun p => negb (c_asleep p) && bool_decide (c_victims p = []) && (0 <=? n) && (n <=? zlen (c_runqueue p)))
  | EvGive c d _ => on_cpu s c (fun p => negb (c_asleep p) && (0 <=? d) && (d <? numcpus s))
  end.

Definition exec (s : sched) (v : vm) (e : event) : res sched :=
  match e with
  | EvCpu => let* (s, _) := cpu_create s true in Ok s
  | EvChanCreate wc => Ok (wchan_create s wc)
  | EvChanDestroy wc => wchan_destroy s wc
  | EvYield c => thread_yield s c
  | EvSleep c wc => wchan_sleep s c wc
  | EvExit c => thread_exit s c
  | EvFork c proc m1 m2 m3 => let* (s, _) := thread_fork s c proc m1 m2 m3 in Ok s
  | EvNext c => switch_next s c
  | EvWakeone wc => wchan_wakeone s wc
  | EvWakeall wc => wchan_wakeall s wc
  | EvInterrupt c => wake_cpu s c
  | EvIpi c =>
    let* o := interprocessor_interrupt s v c in
    match o with Some (s, _) => Ok s | None => Fault PanicCall end
  | EvHardclock c => hardclock s c
  | EvTake c n => migrate_take s c n
  | EvGive c d share => migrate_give s c d share
  | EvBack c => migrate_back s c
  end.

Inductive reachable (v : vm) : sched -> Prop :=
| reach_boot s : thread_bootstrap = Ok s -> reachable v s
| reach_step s e s' : reachable v s -> enabled s e = true -> exec s v e = Ok s' -> reachable v s'.

Lemma on_cpu_true s c f : on_cpu s c f = true <-> exists p, allcpus s !! c = Some p /\ f p = true.
Proof. unfold on_cpu. destruct (allcpus s !! c); naive_solver. Qed.

(** Take the guard of an event apart. *)
Ltac take_guard H :=
  cbn [enabled] in H; unfold runs, has_proc in H;
  repeat match type of H with
  | _ && _ = true => let H1 := fresh in apply andb_true_iff in H as [H H1]; take_guard H1
  | on_cpu _ _ _ = true => apply on_cpu_true in H as (? & ? & H)
  | negb _ = true => apply negb_true_iff in H
  | bool_decide _ = true => apply bool_decide_eq_true in H
  | (_ <=? _) = true => apply Z.leb_le in H
  | (_ <? _) = true => apply Z.ltb_lt in H
  end.

(** The invariant is kept by every event, and none of them goes wrong. *)
Lemma exec_ok s v e : sched_inv s -> enabled s e = true -> exists s', exec s v e = Ok s' /\ sched_inv s'.
Proof.
  intros HI He. destruct e; cbn [exec]; take_guard He.
  - destruct (cpu_create_ok s HI) as (s' & -> & ?). by exists s'.
  - eexists. split; [done |]. apply sched_inv_chans; [done |]. intros w. cbn. destruct (decide (w = wc)) as [-> | N].
    + by rewrite lookup_insert_eq, He.
    + by rewrite lookup_insert_ne.
  - unfold wchan_destroy, get_chan. rewrite He. cbn. eexists. split; [done |]. apply sched_inv_chans; [done |].
    intros w. destruct (decide (w = wc)) as [-> | N]; [by rewrite lookup_delete_eq, He | by rewrite lookup_delete_ne].
  - by eapply thread_yield_ok.
  - destruct (inv_running s c _ HI H0 He) as (th & Ht & _). by eapply thread_switch_ok.
  - destruct (threads s !! c_curthread x) as [th | ] eqn:Ht; [ | done]. apply bool_decide_eq_true in H0.
    destruct (t_proc th) as [pr | ] eqn:Hpr; [ | done]. by eapply thread_exit_ok.
  - destruct (thread_fork_ok s c x proc mem1 mem2 mem3 HI H He) as (s' & r & -> & ? & _). by exists s'.
  - destruct (switch_next_ok s c x) as (s' & p' & E & HI' & _); try done. by exists s'.
  - destruct He as [l Hl]. destruct (wakeone_ok s wc l HI Hl) as (s' & E & HI' & _). by exists s'.
  - by apply wakeall_ok.
  - destruct (wake_cpu_ok s c x HI H) as (s' & E & ? & _). by exists s'.
  - destruct (ipi_ok s v c x HI H He) as (s' & -> & ? & _). by exists s'.
  - by eapply hardclock_ok.
  - destruct (migrate_take_ok s c x n) as (s' & rq & vs & E & HI' & _); try done. by exists s'.
  - destruct (migrate_give_ok s c d share x) as (s' & vs & n & E & HI' & _); try done. by exists s'.
  - destruct (migrate_back_ok s c x) as (s' & E & HI' & _); try done. by exists s'.
Qed.

Lemma boot_ok s : thread_bootstrap = Ok s -> sched_inv s.
Proof.
  assert (H0 : sched_inv (mkSched ∅ ∅ 0 ∅ 0)).
  { split; cbn; try done.
    - split; try done.
      + intros [k c | wc]; cbn; rewrite lookup_empty; apply NoDup_nil_2.
      + intros t [k c | wc] sp'; cbn; rewrite lookup_empty; intros ?%elem_of_nil; done.
      + intros t [k c | wc]; cbn; rewrite lookup_empty; intros ?%elem_of_nil; done.
    - intros c. split; [intros [? ?]; done | lia].
    - intros t [? ?]. done. }
  destruct (cpu_create_ok _ H0) as (s' & E & HI). unfold thread_bootstrap. rewrite E. cbn [rbind]. intros Hs. res_inv. done.
Qed.

Lemma reachable_inv v s : reachable v s -> sched_inv s.
Proof.
  induction 1 as [s Hb | s e s' _ IH He Hx]; [by apply boot_ok |].
  destruct (exec_ok s v e IH He) as (s2 & E & HI). congruence.
Qed.

(** ** Run queues are queues *)

(** Whoever does not own the queue of processor [c] only adds to its end. *)
Definition grows (c : Z) (s s' : sched) : Prop :=
  forall p, allcpus s !! c = Some p -> exists p' l, allcpus s' !! c = Some p' /\ c_runqueue p' = c_runqueue p ++ l.

Lemma grows_same c s s' : allcpus s' = allcpus s -> grows c s s'.
Proof. intros E p Hp. exists p, []. by rewrite E, app_nil_r. Qed.

Lemma grows_trans c s1 s2 s3 : grows c s1 s2 -> grows c s2 s3 -> grows c s1 s3.
Proof.
  intros H1 H2 p Hp. destruct (H1 p Hp) as (p1 & l1 & Hp1 & E1), (H2 p1 Hp1) as (p2 & l2 & Hp2 & E2).
  exists p2, (l1 ++ l2). by rewrite E2, E1, app_assoc.
Qed.

Lemma grows_other c d s q : d <> c -> grows c s (set_cpu s d q).
Proof. intros Hne p Hp. exists p, []. cbn. by rewrite lookup_insert_ne, app_nil_r. Qed.

Lemma grows_own c s p q l : allcpus s !! c = Some p -> c_runqueue q = c_runqueue p ++ l -> grows c s (set_cpu s c q).
Proof. intros Hp Hq p' Hp'. simplify_eq. exists q, l. cbn. by rewrite lookup_insert_eq. Qed.

Lemma grows_queue c d s q q' l : allcpus s !! d = Some q -> c_runqueue q' = c_runqueue q ++ l -> grows c s (set_cpu s d q').
Proof. intros Hq E. destruct (decide (d = c)) as [-> | N]; [by eapply grows_own | by apply grows_other]. Qed.

Lemma grows_thread c s t th : grows c s (set_thread s t th).
Proof. by apply grows_same. Qed.

Lemma grows_chan c s wc l : grows c s (set_chan s wc l).
Proof. by apply grows_same. Qed.

Create HintDb grows.
#[export] Hint Resolve grows_same grows_other grows_thread grows_chan : grows.

Lemma ipi_send_grows c s d code s' : ipi_send s d code = Ok s' -> grows c s s'.
Proof.
  unfold ipi_send, get_cpu. intros H. res_inv. eapply grows_queue; [done |]. cbn. by rewrite app_nil_r.
Qed.

Lemma make_runnable_grows c s t s' : thread_make_runnable s t = Ok s' -> grows c s s'.
Proof.
  unfold thread_make_runnable, get_thread, get_cpu. intros H. res_inv.
  assert (G : grows c s (set_cpu (set_thread s t (set_state x S_READY)) (t_cpu x) (with_queue x0 (c_runqueue x0 ++ [t])))).
  { eapply grows_trans; [apply grows_thread |]. by eapply grows_queue. }
  destruct (c_isidle x0); [eapply grows_trans; [done | by eapply ipi_send_grows] | by res_inv].
Qed.

Lemma make_all_grows c l s s' : make_all_runnable l s = Ok s' -> grows c s s'.
Proof.
  revert s. induction l as [ | t l IH]; intros s H; cbn in H; res_inv; [by apply grows_same |].
  eapply grows_trans; [by eapply make_runnable_grows | by apply IH].
Qed.

Lemma destroy_grows c s d t s' : thread_destroy s d t = Ok s' -> grows c s s'.
Proof. unfold thread_destroy. intros H. res_inv. by apply grows_same. Qed.

Lemma exorcise_grows c l s d s' : d <> c -> exorcise_list l s d = Ok s' -> grows c s s'.
Proof.
  intros Hne. revert s. induction l as [ | z l IH]; intros s H; cbn in H; res_inv; [by apply grows_same |].
  eapply grows_trans; [by apply grows_other |]. eapply grows_trans; [by eapply destroy_grows |]. by apply IH.
Qed.

Lemma switch_next_grows c s d s' : d <> c -> switch_next s d = Ok s' -> grows c s s'.
Proof.
  intros Hne H. unfold switch_next, exorcise in H. res_inv. destruct (c_runqueue x); res_inv; [by apply grows_other |].
  eapply grows_trans; [by apply grows_other |]. eapply grows_trans; [by apply grows_thread |]. by eapply exorcise_grows.
Qed.

Lemma switch_begin_grows c s d st wc s' b : d <> c -> switch_begin s d st wc = Ok (s', b) -> grows c s s'.
Proof.
  intros Hne H. unfold switch_begin in H. apply rbind_Ok in H as (p & Hp & H). destruct (c_isidle p); res_inv; [by apply grows_same |].
  destruct (bool_decide _ && bool_decide _); res_inv; [by apply grows_same |].
  assert (G : grows c s x). { destruct st; res_inv; auto with grows. by eapply make_runnable_grows. }
  eapply grows_trans; [done |]. eapply grows_trans; [by apply grows_thread | by apply grows_other].
Qed.

Lemma thread_switch_grows c s d st wc s' : d <> c -> thread_switch s d st wc = Ok s' -> grows c s s'.
Proof.
  intros Hne H. unfold thread_switch in H. apply rbind_Ok in H as ([s1 b] & H1 & H). apply switch_begin_grows with (c := c) in H1; [ | done].
  destruct b; res_inv; [ | done]. eapply grows_trans; [done | by eapply switch_next_grows].
Qed.

Lemma give_loop_grows e k s c d share s' : migrate_give_loop k s c d share = Ok s' -> c <> d -> grows e s s'.
Proof.
  intros H Hne. revert s H. induction k as [ | k IH]; intros s H; cbn [migrate_give_loop] in H; res_inv; [by apply grows_same |].
  unfold get_cpu in *. res_inv. destruct (_ && _); res_inv; [ | by apply grows_same].
  destruct (c_victims x) as [ | t l]; [done |]. destruct (t =? c_curthread x).
  - eapply grows_trans; [ | by apply IH]. eapply grows_queue; [done |]. cbn. by rewrite app_nil_r.
  - res_inv. eapply grows_trans; [ | by eapply IH].
    match goal with H : (if _ then ipi_send ?S _ _ else _) = Ok _ |- _ => apply (grows_trans _ _ S) end.
    + eapply (grows_trans _ _ (set_cpu s c (with_victims x l (c_to_send x - 1)))).
      { eapply grows_queue; [done |]. cbn. by rewrite app_nil_r. }
      eapply grows_trans; [apply grows_thread |]. eapply (grows_queue _ d _ x0); [cbn; by rewrite lookup_insert_ne | done].
    + destruct (c_isidle x0); [by eapply ipi_send_grows | by res_inv; apply grows_same].
Qed.

(** The events in which processor [c] takes threads off its own queue. *)
Definition takes_from (e : event) (c : Z) : bool :=
  match e with
  | EvYield d | EvSleep d _ | EvExit d | EvNext d | EvHardclock d | EvTake d _ => d =? c
  | _ => false
  end.

Lemma migrate_take_grows c s d n s' : d <> c -> migrate_take s d n = Ok s' -> grows c s s'.
Proof. unfold migrate_take. intros Hne H. apply rbind_Ok in H as (p & _ & H). apply rbind_Ok in H as ([rq v] & _ & H). res_inv. by apply grows_other. Qed.

Lemma migrate_give_grows e s c d share s' : migrate_give s c d share = Ok s' -> grows e s s'.
Proof.
  unfold migrate_give. intros H. destruct (Z.eqb_spec d c); res_inv; [by apply grows_same | by eapply give_loop_grows].
Qed.

Lemma migrate_back_grows e s c s' : migrate_back s c = Ok s' -> grows e s s'.
Proof. unfold migrate_back, get_cpu. intros H. res_inv. by eapply grows_queue. Qed.

Lemma give_from_grows e k s c share i s' : migrate_give_from k s c share i = Ok s' -> grows e s s'.
Proof.
  revert s i. induction k as [ | k IH]; intros s i H; cbn in H; res_inv; [by apply grows_same |].
  eapply grows_trans; [by eapply migrate_give_grows | by eapply IH].
Qed.

Lemma migration_grows c s d s' : d <> c -> thread_consider_migration s d = Ok s' -> grows c s s'.
Proof.
  intros Hne H. unfold thread_consider_migration in H. res_inv. destruct (migration_plan _ _ _) as [[sh n] | ]; res_inv; [ | by apply grows_same].
  eapply grows_trans; [by eapply migrate_take_grows |]. eapply grows_trans; [by eapply give_from_grows | by eapply migrate_back_grows].
Qed.

Lemma hardclock_grows c s d s' : d <> c -> hardclock s d = Ok s' -> grows c s s'.
Proof.
  intros Hne H. unfold hardclock, schedule in H. res_inv.
  eapply grows_trans; [by apply (grows_other _ d s (with_hardclocks x (u32 (c_hardclocks x + 1)))) |].
  assert (x1 = x0) as -> by (destruct (_ =? _) in H1; congruence).
  eapply grows_trans; [ | by eapply thread_switch_grows].
  destruct (_ =? _) in H0; [by eapply migration_grows | res_inv; by apply grows_same].
Qed.

Lemma exec_grows s v e s' c : sched_inv s -> exec s v e = Ok s' -> takes_from e c = false -> grows c s s'.
Proof.
  intros HI H Hc. destruct e; cbn [exec takes_from] in *; bool_inv.
  - apply rbind_Ok in H as ([s1 d] & H & Heq). injection Heq as <-. unfold cpu_create, thread_create in H. cbn in H. injection H as <- _.
    intros p Hp. exists p, []. cbn. rewrite lookup_insert_ne, app_nil_r; [done |]. intros <-.
    assert (0 <= numcpus s < numcpus s) by (apply (si_cpus _ HI); by exists p). lia.
  - injection H as <-. apply grows_chan.
  - unfold wchan_destroy in H. res_inv. by apply grows_same.
  - by eapply thread_switch_grows.
  - by eapply thread_switch_grows.
  - unfold thread_exit in H. res_inv. eapply grows_trans; [apply grows_thread | by eapply thread_switch_grows].
  - apply rbind_Ok in H as ([s1 r] & H & Heq). injection Heq as <-. unfold thread_fork, thread_create in H.
    res_inv. destruct mem1; [ | by simplify_eq; apply grows_same].
    destruct mem2; cbn [negb] in H1; [destruct mem3; cbn [negb] in H1 |];
      apply rbind_Ok in H1 as (s2 & H1 & Heq); injection Heq as <- <-; (eapply grows_trans; [ | first [by eapply make_runnable_grows | by eapply destroy_grows]]);
      by apply grows_same.
  - by eapply switch_next_grows.
  - unfold wchan_wakeone in H. res_inv. destruct x; res_inv; [by apply grows_same |].
    eapply grows_trans; [apply grows_chan | by eapply make_runnable_grows].
  - unfold wchan_wakeall in H. res_inv. eapply grows_trans; [apply grows_chan | by eapply make_all_grows].
  - unfold wake_cpu, get_cpu in H. res_inv. eapply grows_queue; [done |]. cbn. by rewrite app_nil_r.
  - res_inv. destruct x as [[s1 v1] | ]; [ | done]. injection H0 as <-.
    unfold interprocessor_interrupt, get_cpu in H. res_inv. repeat (destruct (negb _); [try discriminate |]).
    all: repeat match goal with H : context [let* _ := ?m in _] |- _ => apply rbind_Ok in H as ([? ?] & ? & ?) end.
    all: res_inv; simplify_eq; eapply grows_queue; [done |]; cbn; by rewrite app_nil_r.
  - by eapply hardclock_grows.
  - by eapply migrate_take_grows.
  - by eapply migrate_give_grows.
  - by eapply migrate_back_grows.
Qed.

(** * Theorems *)

(** C6: in every state the kernel can get into, for any number of processors
    and any interleaving: every thread is at exactly one place (running on a
    processor, on a run queue, asleep on a channel, a zombie, or on its way to
    another processor), in the state and on the processor that fit, and no list
    holds it twice; no two processors use one thread, and so one stack, even
    while they idle on it; a processor that sleeps while its queue is not empty
    has an interrupt on its way (no wakeup is lost); and no operation fails an
    assertion, panics, or follows a bad pointer, those of exorcise,
    thread_destroy and the migration among them. *)
Theorem sched_sound v s :
  reachable v s ->
  (forall t th, threads s !! t = Some th -> exists sp, t ∈ spot_list s sp /\ fits th sp /\
     forall sp', t ∈ spot_list s sp' -> sp' = sp) /\
  (forall t sp, t ∈ spot_list s sp -> is_Some (threads s !! t)) /\
  (forall sp, NoDup (spot_list s sp)) /\
  (forall c d p q, allcpus s !! c = Some p -> allcpus s !! d = Some q -> c_curthread p = c_curthread q -> c = d) /\
  (forall c p, allcpus s !! c = Some p -> c_asleep p = true -> c_runqueue p <> [] -> unidle_pending p) /\
  (forall e, enabled s e = true -> exists s', exec s v e = Ok s').
Proof.
  intros HI%reachable_inv. destruct (si_places _ HI) as [N O F A]. split; [ | split; [ | split; [done | split; [ | split]]]].
  - intros t th Ht. destruct (A t th Ht) as [sp Hsp]. exists sp. destruct (F t sp Hsp) as (th' & Ht' & Hf). simplify_eq.
    split; [done |]. split; [done |]. intros sp' H'. by apply (O t).
  - intros t sp Hsp. destruct (F t sp Hsp) as (th & ? & _). by exists th.
  - intros c d p q Hp Hq E. destruct (proj2 (si_cpu _ HI _ _ Hp)) as (th1 & ? & <-), (proj2 (si_cpu _ HI _ _ Hq)) as (th2 & ? & <-).
    congruence.
  - intros c p Hp. apply (si_cpu _ HI _ _ Hp).
  - intros e He. destruct (exec_ok s v e HI He) as (s' & ? & _). by exists s'.
Qed.

(** C37: a processor that sleeps in cpu_idle while a thread waits on its
    queue gets going: the interrupt it was sent wakes it, the handler of the
    interrupt clears the request, and the processor then runs the thread at the
    head of its queue, after cleaning up its zombies. *)
Theorem idle_cpu_picks_up v s c p next l :
  reachable v s -> allcpus s !! c = Some p -> c_asleep p = true -> c_runqueue p = next :: l ->
  unidle_pending p /\
  exists s1 s2 s3 q, wake_cpu s c = Ok s1 /\ interprocessor_interrupt s1 v c = Ok (Some (s2, v)) /\ switch_next s2 c = Ok s3 /\
    allcpus s3 !! c = Some q /\ c_curthread q = next /\ c_isidle q = false /\ c_runqueue q = l /\ c_zombies q = [].
Proof.
  intros HI%reachable_inv Hp Ha Hq. destruct (si_cpu _ HI _ _ Hp) as [[I As W Sd] _]. destruct (As Ha) as [Hi Hv].
  split; [apply W; [done | by rewrite Hq] |].
  destruct (wake_cpu_ok s c p HI Hp) as (s1 & E1 & HI1 & ->). set (p1 := with_idle p (c_isidle p) false) in *.
  destruct (ipi_ok _ v c p1 HI1) as (s2 & E2 & HI2 & ->); [apply lookup_insert_eq | done |].
  destruct (switch_next_ok _ c (with_ipi p1 0 (c_shootdown p1) (c_numshootdown p1)) HI2) as (s3 & q & E3 & _ & Hc3 & _ & Hrun);
    [apply lookup_insert_eq | done | done |].
  cbn [c_runqueue with_ipi p1 with_idle] in Hrun. rewrite Hq in Hrun.
  eexists _, _, s3, q. split; [done |]. split; [done |]. split; [done |]. split; [ | done]. by rewrite Hc3, lookup_insert_eq.
Qed.

(** Run queues are first-in first-out between processors: in every
    reachable state an event in which processor [c] does not take from its own
    queue leaves what is on that queue where it is, and can only append to it;
    so the number of threads a migration has counted is still there when it
    takes them. *)
Theorem runqueue_fifo v s e s' c p :
  reachable v s -> exec s v e = Ok s' -> takes_from e c = false -> allcpus s !! c = Some p ->
  exists p' l, allcpus s' !! c = Some p' /\ c_runqueue p' = c_runqueue p ++ l.
Proof. intros HI%reachable_inv Hx Ht Hp. by eapply exec_grows. Qed.

(** ** The shootdown queue *)

Fixpoint tlbshootdowns (s : sched) (target : Z) (ms : list Z) : res sched :=
  match ms with
  | [] => Ok s
  | m :: ms => let* s := ipi_tlbshootdown s target m in tlbshootdowns s target ms
  end.

Lemma tlbshootdown_step s target m p :
  allcpus s !! target = Some p -> zlen (c_shootdown p) = TLBSHOOTDOWN_MAX -> 0 <= c_numshootdown p < TLBSHOOTDOWN_MAX ->
  exists s' p', ipi_tlbshootdown s target m = Ok s' /\ allcpus s' !! target = Some p' /\
    zlen (c_shootdown p') = TLBSHOOTDOWN_MAX /\ c_numshootdown p' = c_numshootdown p + 1.
Proof.
  intros Hp Hl Hn. unfold ipi_tlbshootdown, get_cpu. rewrite Hp. cbn [access rbind].
  destruct (Z.eqb_spec (c_numshootdown p) TLBSHOOTDOWN_MAX); [lia |].
  destruct (zput_lt (c_shootdown p) (c_numshootdown p) m) as [l' Hl']; [lia |]. rewrite Hl'. cbn.
  eexists _, _. split; [done |]. split; [cbn; apply lookup_insert_eq |]. cbn. by rewrite (zput_length _ _ _ _ Hl').
Qed.

Lemma tlbshootdowns_app s target l1 l2 :
  tlbshootdowns s target (l1 ++ l2) = let* s' := tlbshootdowns s target l1 in tlbshootdowns s' target l2.
Proof. revert s. induction l1 as [ | m l1 IH]; intros s; [done |]. cbn. destruct (ipi_tlbshootdown s target m); [apply IH | done]. Qed.

Lemma tlbshootdowns_fill ms s target p :
  allcpus s !! target = Some p -> zlen (c_shootdown p) = TLBSHOOTDOWN_MAX -> 0 <= c_numshootdown p ->
  c_numshootdown p + zlen ms <= TLBSHOOTDOWN_MAX ->
  exists s' p', tlbshootdowns s target ms = Ok s' /\ allcpus s' !! target = Some p' /\
    c_numshootdown p' = c_numshootdown p + zlen ms.
Proof.
  revert s p. induction ms as [ | m ms IH]; intros s p Hp Hl H0 Hn; unfold zlen in *; cbn [length] in *.
  { exists s, p. split; [done |]. split; [done | lia]. }
  destruct (tlbshootdown_step s target m p Hp Hl) as (s1 & p1 & E & Hp1 & Hl1 & Hn1); [lia |].
  destruct (IH s1 p1 Hp1 Hl1) as (s2 & p2 & E2 & Hp2 & Hn2); [lia | lia |].
  exists s2, p2. cbn. rewrite E. cbn. split; [done |]. split; [done | lia].
Qed.

(** A processor that has not handled its interrupts takes 17 requests to
    invalidate a TLB entry; the 17th replaces the count by the marker -1 for
    "all", and the 18th then stores through the marker, in front of the array
    c_shootdown. *)
Theorem ipi_tlbshootdown_overrun s target p ms m1 m2 :
  allcpus s !! target = Some p -> zlen (c_shootdown p) = TLBSHOOTDOWN_MAX -> c_numshootdown p = 0 ->
  zlen ms = TLBSHOOTDOWN_MAX ->
  (exists s', tlbshootdowns s target (ms ++ [m1]) = Ok s') /\
  tlbshootdowns s target (ms ++ [m1; m2]) = Fault BadAccess.
Proof.
  intros Hp Hl H0 Hn. destruct (tlbshootdowns_fill ms s target p Hp Hl) as (s1 & p1 & E & Hp1 & Hn1); [lia | lia |].
  assert (Hstep : ipi_tlbshootdown s1 target m1 =
    Ok (set_cpu s1 target (ipi_post (with_ipi p1 (c_ipi_pending p1) (c_shootdown p1) TLBSHOOTDOWN_ALL) IPI_TLBSHOOTDOWN))).
  { unfold ipi_tlbshootdown, get_cpu. rewrite Hp1. cbn [access rbind]. by rewrite Hn1, H0, Hn. }
  rewrite !tlbshootdowns_app, E. cbn [rbind tlbshootdowns]. rewrite Hstep. cbn [rbind]. split; [by eexists |].
  unfold ipi_tlbshootdown, get_cpu. cbn. by rewrite lookup_insert_eq.
Qed.

(** ** Witnesses *)

Fixpoint play (s : sched) (v : vm) (es : list event) : option sched :=
  match es with
  | [] => Some s
  | e :: es => if enabled s e then match exec s v e with Ok s' => play s' v es | Fault _ => None end else None
  end.

Lemma play_reachable es v s s' : reachable v s -> play s v es = Some s' -> reachable v s'.
Proof.
  revert s. induction es as [ | e es IH]; intros s Hs H; cbn in H; [by simplify_eq |].
  destruct (enabled s e) eqn:He; [ | done]. destruct (exec s v e) as [s1 | ] eqn:Hx; [ | done].
  apply (IH s1); [ | done]. by eapply reach_step.
Qed.

Definition booted : sched := match thread_bootstrap with Ok s => s | Fault _ => mkSched ∅ ∅ 0 ∅ 0 end.

Lemma booted_reachable v : reachable v booted.
Proof. apply reach_boot. vm_compute. reflexivity. Qed.

(** Two processors; the first thread of the second exits and leaves it idle;
    the first forks three threads and migrates two of them. *)
Definition busy : list event :=
  [EvCpu; EvChanCreate 7; EvExit 1; EvFork 0 None true true true; EvFork 0 None true true true;
   EvFork 0 None true true true; EvSleep 0 7; EvTake 0 2; EvWakeone 7; EvGive 0 1 1; EvBack 0].

Definition busy_state : sched := match play booted small_vm busy with Some s => s | None => booted end.

Lemma busy_reachable : reachable small_vm busy_state.
Proof. apply (play_reachable busy small_vm booted); [apply booted_reachable |]. vm_compute. reflexivity. Qed.

Lemma wakeall_is_wakeones_witness :
  exists s, play booted small_vm [EvCpu; EvChanCreate 7; EvSleep 0 7; EvSleep 1 7] = Some s /\
    wchan_wakeall s 7 = wakeones 2 s 7.
Proof.
  eexists. split; [vm_compute; reflexivity |]. apply (wakeall_is_wakeones _ 7 [0; 1]). vm_compute. reflexivity.
Defined.

Lemma sched_sound_witness :
  t_state <$> threads busy_state !! 3 = Some S_READY /\ (forall sp, 3 ∈ spot_list busy_state sp -> sp = OnCpu Queued 1).
Proof.
  split; [vm_compute; reflexivity |]. intros sp Hsp.
  destruct (sched_sound small_vm busy_state busy_reachable) as (Hone & _).
  destruct (Hone 3 (mkThread S_READY 1 (Some 0))) as (sp0 & _ & _ & Hu); [vm_compute; reflexivity |].
  rewrite (Hu _ Hsp). symmetry. apply Hu. vm_compute. left.
Defined.

Lemma idle_cpu_picks_up_witness :
  exists p s3 q, allcpus busy_state !! 1 = Some p /\ c_asleep p = true /\ allcpus s3 !! 1 = Some q /\ c_curthread q = 3.
Proof.
  eexists. destruct (idle_cpu_picks_up small_vm busy_state 1
    (mkCpu 1 true true [3] [1] [] 0 0 4 (repeat 0 16) 0) 3 []) as (_ & s1 & s2 & s3 & q & _ & _ & _ & Hq & Hc & _).
  - exact busy_reachable.
  - vm_compute. reflexivity.
  - reflexivity.
  - reflexivity.
  - exists s3, q. split; [vm_compute; reflexivity |]. split; [reflexivity |]. split; [exact Hq | exact Hc].
Defined.

Lemma runqueue_fifo_witness :
  exists p' l s', exec busy_state small_vm (EvFork 0 None true true true) = Ok s' /\ allcpus s' !! 1 = Some p' /\ c_runqueue p' = 3 :: l.
Proof.
  destruct (exec busy_state small_vm (EvFork 0 None true true true)) as [s' | f] eqn:E; [ | vm_compute in E; discriminate].
  destruct (runqueue_fifo small_vm busy_state (EvFork 0 None true true true) s' 1
    (mkCpu 1 true true [3] [1] [] 0 0 4 (repeat 0 16) 0)) as (p' & l & Hp & Hl).
  - exact busy_reachable.
  - exact E.
  - reflexivity.
  - vm_compute. reflexivity.
  - exists p', l, s'. split; [reflexivity |]. split; [exact Hp | exact Hl].
Defined.

Lemma ipi_tlbshootdown_overrun_witness :
  tlbshootdowns booted 0 (repeat 5 16 ++ [6; 7]) = Fault BadAccess.
Proof.
  refine (proj2 (ipi_tlbshootdown_overrun booted 0 (mkCpu 0 false false [] [] [] 0 0 0 (repeat 0 16) 0) (repeat 5 16) 6 7 _ _ _ _));
    vm_compute; reflexivity.
Defined.
