(* ===== verification/Kmalloc.v ===== *)
(** The kernel heap: kern/vm/kmalloc.c, in the configuration the file selects
    (no SLOW, GUARDS or LABELS).

    Small blocks are cut from pages of equal blocks.  Each page has a
    [pageref]; its free blocks are chained through their first words, and the
    pagerefs are chained in two lists, one per block size and one of all.
    Pagerefs live in pages of their own, with a bitmap of those in use in
    [kheaproots].  [words] is the memory behind the free list pointers, which
    clients overwrite as they like in blocks they own.

    Whole pages come from an interface, the class [PageAlloc] with the laws
    [PageLaws]; the end of the file discharges it with the coremap of file
    Coremap.  A call runs to its end before the next one starts; that
    kmalloc_spinlock is dropped while pages are allocated is not exploited. *)
From S2P Require Import Prelude Bitmap Coremap.

(** ** Pages *)

Class PageAlloc (S : Type) := {
  pa_alloc : S -> Z -> res (S * Z);
  pa_free : S -> Z -> res S
}.

(** Two runs of pages that share no byte. *)
Definition apart_runs (a n b m : Z) : Prop := a + n * PAGE_SIZE <= b \/ b + m * PAGE_SIZE <= a.

(** [owned]: the runs handed out and not yet freed, by address, with their
    numbers of pages.  Single pages can always be asked for. *)
Class PageLaws (S : Type) `{PageAlloc S} := {
  owned : S -> gmap Z Z;
  pages_ok : S -> Prop;
  pl_run : forall s a n, pages_ok s -> owned s !! a = Some n ->
    0 < a /\ a mod PAGE_SIZE = 0 /\ 0 < n /\ a + n * PAGE_SIZE <= 2 ^ 32;
  pl_apart : forall s a n b m, pages_ok s -> owned s !! a = Some n -> owned s !! b = Some m -> a <> b ->
    apart_runs a n b m;
  pl_one : forall s, pages_ok s -> exists r, pa_alloc s 1 = Ok r;
  pl_alloc : forall s n s' va, pages_ok s -> 0 < n -> pa_alloc s n = Ok (s', va) ->
    pages_ok s' /\ (va = 0 /\ owned s' = owned s \/
                    va <> 0 /\ owned s !! va = None /\ owned s' = <[va := n]> (owned s));
  pl_free : forall s va n, pages_ok s -> owned s !! va = Some n ->
    exists s', pa_free s va = Ok s' /\ pages_ok s' /\ owned s' = delete va (owned s)
}.

(** ** Data *)

Definition sizes : list Z := [16; 32; 64; 128; 256; 512; 1024; 2048].
Definition NSIZES := 8.
Definition LARGEST_SUBPAGE_SIZE := 2048.
Definition INVALID_OFFSET := 0xffff.
Definition sizeof_pageref := 16.
Definition NPAGEREFS_PER_PAGE := PAGE_SIZE / sizeof_pageref.
Definition INUSE_WORDS := NPAGEREFS_PER_PAGE / 32.
Definition NUM_PAGEREFPAGES := 16.

Record pageref := mkRef {
  next_samesize : Z;
  next_all : Z;
  pageaddr_and_blocktype : Z;
  freelist_offset : Z;
  nfree : Z
}.

Definition PR_PAGEADDR (pr : pageref) : Z := Z.land (pageaddr_and_blocktype pr) PAGE_FRAME.
Definition PR_BLOCKTYPE (pr : pageref) : Z := Z.land (pageaddr_and_blocktype pr) (u32 (Z.lnot PAGE_FRAME)).
Definition MKPAB (pa blk : Z) : Z := Z.lor (Z.land pa PAGE_FRAME) (Z.land blk (u32 (Z.lnot PAGE_FRAME))).

Record kheap_root := mkRoot {
  page : Z;
  pagerefs_inuse : list Z;
  numinuse : Z
}.

(** [refs]: the pagerefs that have been written, by address. *)
Record kmem {S : Type} := mkKmem {
  pages : S;
  words : Z -> Z;
  refs : gmap Z pageref;
  kheaproots : list kheap_root;
  sizebases : list Z;
  allbase : Z
}.
Arguments kmem S : clear implicits.
Arguments mkKmem {S} _ _ _ _ _ _.

Section Kmalloc.
Context {S : Type} `{PageAlloc S}.
Implicit Types s : kmem S.

Definition with_pages s (p : S) : kmem S := mkKmem p (words s) (refs s) (kheaproots s) (sizebases s) (allbase s).
Definition with_words s (w : Z -> Z) : kmem S := mkKmem (pages s) w (refs s) (kheaproots s) (sizebases s) (allbase s).
Definition with_refs s (r : gmap Z pageref) : kmem S := mkKmem (pages s) (words s) r (kheaproots s) (sizebases s) (allbase s).
Definition with_roots s (r : list kheap_root) : kmem S := mkKmem (pages s) (words s) (refs s) r (sizebases s) (allbase s).
Definition with_lists s (sb : list Z) (ab : Z) : kmem S := mkKmem (pages s) (words s) (refs s) (kheaproots s) sb ab.

Definition poke (w : Z -> Z) (a v : Z) : Z -> Z := fun x => if x =? a then v else w x.

(** [ptr[i] = 0xdeadbeef] for the [k] words from [ptr] on *)
Fixpoint fill_words (k : nat) (w : Z -> Z) (ptr : Z) : Z -> Z :=
  match k with
  | O => w
  | Datatypes.S k => fill_words k (poke w ptr 0xdeadbeef) (ptr + 4)
  end.

Definition fill_deadbeef (w : Z -> Z) (vptr len : Z) : Z -> Z := fill_words (Z.to_nat (len / 4)) w vptr.

(** ** Pagerefs *)

Definition allocpagerefpage s (w : Z) : res (kmem S) :=
  let* root := access (zget (kheaproots s) w) in
  kassert (page root =? 0) (
  let* (p, va) := pa_alloc (pages s) 1 in
  let s := with_pages s p in
  if va =? 0 then Ok s
  else
  kassert (va mod PAGE_SIZE =? 0) (
  let* root := access (zget (kheaproots s) w) in
  if negb (page root =? 0) then
    let* p := pa_free (pages s) va in Ok (with_pages s p)
  else
    let* r := access (zput (kheaproots s) w (mkRoot va (pagerefs_inuse root) (numinuse root))) in
    Ok (with_roots s r))).

(** [for (k=1,j=0; k!=0; k<<=1,j++)]: the first clear bit of a word. *)
Fixpoint find_bit (k : nat) (w j : Z) : option Z :=
  match k with
  | O => None
  | Datatypes.S k => if Z.land w (Z.shiftl 1 j) =? 0 then Some j else find_bit k w (j + 1)
  end.

(** The first word that is not full, and its first clear bit. *)
Fixpoint find_word (ws : list Z) (i : Z) : res (option (Z * Z)) :=
  match ws with
  | [] => Ok None
  | w :: ws =>
    if w =? 0xffffffff then find_word ws (i + 1)
    else match find_bit 32 w 0 with
         | Some j => Ok (Some (i, j))
         | None => Fault Assertion
         end
  end.

(** The loop over the roots, [k] of them from [w] on; 0 is NULL. *)
Fixpoint allocpageref_from (k : nat) s (w : Z) : res (kmem S * Z) :=
  match k with
  | O => Ok (s, 0)
  | Datatypes.S k =>
    let* root := access (zget (kheaproots s) w) in
    if NPAGEREFS_PER_PAGE <=? numinuse root then allocpageref_from k s (w + 1)
    else
    let* f := find_word (pagerefs_inuse root) 0 in
    match f with
    | None => allocpageref_from k s (w + 1)
    | Some (i, j) =>
      let* x := access (zget (pagerefs_inuse root) i) in
      let* ws := access (zput (pagerefs_inuse root) i (Z.lor x (Z.shiftl 1 j))) in
      let* r := access (zput (kheaproots s) w (mkRoot (page root) ws (u32 (numinuse root + 1)))) in
      let s := with_roots s r in
      let* s := if page root =? 0 then allocpagerefpage s w else Ok s in
      let* root := access (zget (kheaproots s) w) in
      if page root =? 0 then Ok (s, 0)
      else Ok (s, page root + (i * 32 + j) * sizeof_pageref)
    end
  end.

Definition allocpageref s : res (kmem S * Z) := allocpageref_from (Z.to_nat NUM_PAGEREFPAGES) s 0.

Fixpoint freepageref_from (k : nat) s (w p : Z) : res (kmem S) :=
  match k with
  | O => Fault Assertion
  | Datatypes.S k =>
    let* root := access (zget (kheaproots s) w) in
    if page root =? 0 then kassert (numinuse root =? 0) (freepageref_from k s (w + 1) p)
    else
    let j := u32 ((p - page root) / sizeof_pageref) in
    if j <? NPAGEREFS_PER_PAGE then
      let i := j / 32 in
      let k := Z.shiftl 1 (j mod 32) in
      let* x := access (zget (pagerefs_inuse root) i) in
      kassert (negb (Z.land x k =? 0)) (
      let* ws := access (zput (pagerefs_inuse root) i (Z.land x (u32 (Z.lnot k)))) in
      kassert (0 <? numinuse root) (
      let* r := access (zput (kheaproots s) w (mkRoot (page root) ws (numinuse root - 1))) in
      Ok (with_roots s r)))
    else freepageref_from k s (w + 1) p
  end.

Definition freepageref s (p : Z) : res (kmem S) := freepageref_from (Z.to_nat NUM_PAGEREFPAGES) s 0 p.

(** ** The two lists of pagerefs *)

(** Follow [next] from the pointer [p] to the one that is [pr] and make what
    points to it point to its successor: the new value of [p]. *)
Fixpoint unlink (fuel : nat) (next : pageref -> Z) (set : pageref -> Z -> pageref)
    (m : gmap Z pageref) (p pr : Z) : res (gmap Z pageref * Z) :=
  match fuel with
  | O => Fault OutOfFuel
  | Datatypes.S fuel =>
    if p =? 0 then Ok (m, p)
    else
    let* r := access (m !! p) in
    if p =? pr then Ok (m, next r)
    else
    let* (m, q) := unlink fuel next set m (next r) pr in
    let* r := access (m !! p) in
    Ok (<[p := set r q]> m, p)
  end.

Definition set_same (r : pageref) (q : Z) : pageref :=
  mkRef q (next_all r) (pageaddr_and_blocktype r) (freelist_offset r) (nfree r).
Definition set_all (r : pageref) (q : Z) : pageref :=
  mkRef (next_samesize r) q (pageaddr_and_blocktype r) (freelist_offset r) (nfree r).

(** Lists of pagerefs are no longer than there are pagerefs. *)
Definition list_fuel s : nat := Datatypes.S (size (refs s)).

Definition remove_lists s (pr blktype : Z) : res (kmem S) :=
  kassert ((0 <=? blktype) && (blktype <? NSIZES)) (
  let* b := access (zget (sizebases s) blktype) in
  let* (m, b) := unlink (list_fuel s) next_samesize set_same (refs s) b pr in
  let* sb := access (zput (sizebases s) blktype b) in
  let s := with_lists (with_refs s m) sb (allbase s) in
  let* (m, a) := unlink (list_fuel s) next_all set_all (refs s) (allbase s) pr in
  Ok (with_lists (with_refs s m) (sizebases s) a)).

(** ** Small blocks *)

Fixpoint blocktype_from (l : list Z) (clientsz i : Z) : res Z :=
  match l with
  | [] => Fault PanicCall
  | sz :: l => if clientsz <=? sz then Ok i else blocktype_from l clientsz (i + 1)
  end.

Definition blocktype (clientsz : Z) : res Z := blocktype_from sizes clientsz 0.

(** [for (pr = sizebases[blktype]; pr != NULL; pr = pr->next_samesize)]: the
    first page of the size with a free block, 0 if there is none. *)
Fixpoint find_page (fuel : nat) s (pr blktype : Z) : res Z :=
  match fuel with
  | O => Fault OutOfFuel
  | Datatypes.S fuel =>
    if pr =? 0 then Ok 0
    else
    let* r := access (refs s !! pr) in
    kassert (PR_BLOCKTYPE r =? blktype) (
    if 0 <? nfree r then Ok pr else find_page fuel s (next_samesize r) blktype)
  end.

(** [doalloc]: take the first block of the page's free list. *)
Definition doalloc s (pr : Z) : res (kmem S * Z) :=
  let* r := access (refs s !! pr) in
  kassert (freelist_offset r <? PAGE_SIZE) (
  let prpage := PR_PAGEADDR r in
  let retptr := u32 (prpage + freelist_offset r) in
  let fl := words s retptr in
  let n := u16 (nfree r - 1) in
  let upd off := with_refs s (<[pr := mkRef (next_samesize r) (next_all r) (pageaddr_and_blocktype r) off n]> (refs s)) in
  if negb (fl =? 0) then
    kassert (0 <? n) (kassert (u32 (fl - prpage) <? PAGE_SIZE) (Ok (upd (u16 (u32 (fl - prpage))), retptr)))
  else kassert (n =? 0) (Ok (upd INVALID_OFFSET, retptr))).

(** Chain the blocks of a fresh page, each to the one below: blocks [i] up to
    [i + k - 1]. *)
Fixpoint chain_blocks (k : nat) (w : Z -> Z) (fla sz i : Z) : Z -> Z :=
  match k with
  | O => w
  | Datatypes.S k => chain_blocks k (poke w (fla + i * sz) (fla + (i - 1) * sz)) fla sz (i + 1)
  end.

Definition subpage_kmalloc s (sz : Z) : res (kmem S * Z) :=
  let* blktype := blocktype sz in
  let* b := access (zget (sizebases s) blktype) in
  let* pr := find_page (list_fuel s) s b blktype in
  if negb (pr =? 0) then doalloc s pr
  else
  let* (p, prpage) := pa_alloc (pages s) 1 in
  let s := with_pages s p in
  if prpage =? 0 then Ok (s, 0)
  else
  kassert (prpage mod PAGE_SIZE =? 0) (
  let* (s, pr) := allocpageref s in
  if pr =? 0 then let* p := pa_free (pages s) prpage in Ok (with_pages s p, 0)
  else
  let* bsz := access (zget sizes blktype) in
  let n := PAGE_SIZE / bsz in
  let w := chain_blocks (Z.to_nat (n - 1)) (poke (words s) prpage 0) prpage bsz 1 in
  let* b := access (zget (sizebases s) blktype) in
  let* sb := access (zput (sizebases s) blktype pr) in
  let r := mkRef b (allbase s) (MKPAB prpage blktype) ((n - 1) * bsz) n in
  let s := with_lists (with_refs (with_words s w) (<[pr := r]> (refs s))) sb pr in
  doalloc s pr).

(** The page of all pages that holds [ptraddr], 0 if there is none. *)
Fixpoint find_holder (fuel : nat) s (pr ptraddr : Z) : res Z :=
  match fuel with
  | O => Fault OutOfFuel
  | Datatypes.S fuel =>
    if pr =? 0 then Ok 0
    else
    let* r := access (refs s !! pr) in
    kassert ((0 <=? PR_BLOCKTYPE r) && (PR_BLOCKTYPE r <? NSIZES)) (
    if (PR_PAGEADDR r <=? ptraddr) && (ptraddr <? PR_PAGEADDR r + PAGE_SIZE) then Ok pr
    else find_holder fuel s (next_all r) ptraddr)
  end.

(** 0, or -1 when the block is not from here. *)
Definition subpage_kfree s (ptraddr : Z) : res (kmem S * Z) :=
  let* pr := find_holder (list_fuel s) s (allbase s) ptraddr in
  if pr =? 0 then Ok (s, -1)
  else
  let* r := access (refs s !! pr) in
  let prpage := PR_PAGEADDR r in
  let blktype := PR_BLOCKTYPE r in
  let* bsz := access (zget sizes blktype) in
  let offset := ptraddr - prpage in
  if (PAGE_SIZE <=? offset) || negb (offset mod bsz =? 0) then Fault PanicCall
  else
  let w := fill_deadbeef (words s) ptraddr bsz in
  let fl := prpage + offset in
  let next := if freelist_offset r =? INVALID_OFFSET then 0 else u32 (prpage + freelist_offset r) in
  kassert ((freelist_offset r =? INVALID_OFFSET) || negb (fl =? next)) (
  let n := u16 (nfree r + 1) in
  let r := mkRef (next_samesize r) (next_all r) (pageaddr_and_blocktype r) (u16 offset) n in
  let s := with_refs (with_words s (poke w fl next)) (<[pr := r]> (refs s)) in
  kassert (n <=? PAGE_SIZE / bsz) (
  if n =? PAGE_SIZE / bsz then
    let* s := remove_lists s pr blktype in
    let* s := freepageref s pr in
    let* p := pa_free (pages s) prpage in
    Ok (with_pages s p, 0)
  else Ok (s, 0))).

(** ** kmalloc and kfree *)

Definition kmalloc s (sz : Z) : res (kmem S * Z) :=
  if LARGEST_SUBPAGE_SIZE <=? sz then
    let npages := u32 (u32 (sz + PAGE_SIZE) - 1) / PAGE_SIZE in
    let* (p, address) := pa_alloc (pages s) npages in
    let s := with_pages s p in
    if address =? 0 then Ok (s, 0)
    else kassert (address mod PAGE_SIZE =? 0) (Ok (s, address))
  else subpage_kmalloc s sz.

Definition kfree s (ptr : Z) : res (kmem S) :=
  if ptr =? 0 then Ok s
  else
  let* (s, r) := subpage_kfree s ptr in
  if negb (r =? 0) then
    kassert (ptr mod PAGE_SIZE =? 0) (let* p := pa_free (pages s) ptr in Ok (with_pages s p))
  else Ok s.

End Kmalloc.

(** * Facts *)

(** ** Page addresses *)

Lemma land_offset x : is_u32 x -> Z.land x (u32 (Z.lnot PAGE_FRAME)) = x mod PAGE_SIZE.
Proof. intros _. change (u32 (Z.lnot PAGE_FRAME)) with (Z.ones 12). rewrite Z.land_ones by lia. done. Qed.

Lemma MKPAB_sum pa blk : is_u32 pa -> pa mod PAGE_SIZE = 0 -> 0 <= blk < PAGE_SIZE -> MKPAB pa blk = pa + blk.
Proof.
  intros Hpa Hm Hb. unfold MKPAB. rewrite page_frame_spec, land_offset by (unfold is_u32, PAGE_SIZE in *; lia).
  rewrite Hm, Z.sub_0_r, (Z.mod_small blk) by done.
  assert (Z.land pa blk = 0) as Hz.
  { apply Z.bits_inj'. intros n Hn. rewrite Z.land_spec, Z.bits_0. destruct (Z.ltb_spec n 12).
    - replace pa with (Z.shiftl (pa / 4096) 12).
      { rewrite Z.shiftl_spec by lia. rewrite Z.testbit_neg_r by lia. done. }
      rewrite Z.shiftl_mul_pow2 by lia. unfold PAGE_SIZE in Hm. div_lia.
    - destruct (Z.eq_dec blk 0) as [-> | ]; [rewrite Z.bits_0; apply andb_false_r |].
      rewrite (Z.bits_above_log2 blk n); [apply andb_false_r | lia |].
      apply Z.log2_lt_pow2; [lia |]. unfold PAGE_SIZE in Hb. apply (Z.lt_le_trans _ (2 ^ 12)); [lia |].
      apply Z.pow_le_mono_r; lia. }
  rewrite Z.add_nocarry_lxor, Z.lxor_lor by done. done.
Qed.

Lemma PR_MKPAB r pa blk :
  pageaddr_and_blocktype r = MKPAB pa blk -> is_u32 pa -> pa mod PAGE_SIZE = 0 -> 0 <= blk < 8 ->
  PR_PAGEADDR r = pa /\ PR_BLOCKTYPE r = blk.
Proof.
  intros Hr Hpa Hm Hb. unfold PR_PAGEADDR, PR_BLOCKTYPE. rewrite Hr, MKPAB_sum by (unfold PAGE_SIZE; lia || done).
  unfold is_u32, PAGE_SIZE in *. rewrite page_frame_spec, land_offset by (unfold is_u32; div_lia).
  unfold PAGE_SIZE. div_lia.
Qed.

(** ** Chains of pointers *)

Fixpoint chain (nx : Z -> option Z) (p : Z) (l : list Z) : Prop :=
  match l with
  | [] => p = 0
  | q :: l => p = q /\ q <> 0 /\ exists n, nx q = Some n /\ chain nx n l
  end.

Lemma chain_ext nx nx' p l : (forall q, q ∈ l -> nx' q = nx q) -> chain nx p l -> chain nx' p l.
Proof.
  revert p. induction l as [ | q l IH]; intros p Hq Hc; [done |]. cbn in *. destruct Hc as (-> & Hz & n & Hn & Hc).
  split; [done |]. split; [done |]. exists n. split; [rewrite Hq by set_solver; done |].
  apply IH; [ | done]. intros q' Hq'. apply Hq. set_solver.
Qed.

Lemma chain_head nx p l : chain nx p l -> p = hd 0 l.
Proof. destruct l; [done |]. by intros (-> & _). Qed.

(** What unlinking an element does: the list loses it, and only [next]
    fields of elements in front of it change. *)
Lemma unlink_spec fuel next set m p l1 pr l2 :
  (forall r q, next (set r q) = q) ->
  NoDup (l1 ++ pr :: l2) -> (length l1 < fuel)%nat ->
  chain (fun q => next <$> m !! q) p (l1 ++ pr :: l2) ->
  exists m' p', unlink fuel next set m p pr = Ok (m', p') /\
    chain (fun q => next <$> m' !! q) p' (l1 ++ l2) /\
    (forall q, q ∉ l1 -> m' !! q = m !! q) /\
    (forall q, q ∈ l1 -> exists r x, m !! q = Some r /\ m' !! q = Some (set r x)).
Proof.
  intros Hset. revert fuel p. induction l1 as [ | a l1 IH]; intros fuel p Hnd Hf Hc; destruct fuel as [ | fuel]; cbn in Hf; try lia.
  - cbn in Hc. destruct Hc as (-> & Hz & n & Hn & Hc). cbn [unlink]. rewrite (proj2 (Z.eqb_neq pr 0)) by done.
    apply fmap_Some in Hn as (r & Hr & ->). rewrite Hr. cbn [access rbind]. rewrite Z.eqb_refl.
    exists m, (next r). split; [done |]. split; [done |]. split; [done |]. intros q Hq. by apply elem_of_nil in Hq.
  - cbn in Hc, Hnd. destruct Hc as (-> & Hz & n & Hn & Hc). apply NoDup_cons in Hnd as [Ha Hnd].
    assert (Hap : a <> pr) by set_solver.
    cbn [unlink]. rewrite (proj2 (Z.eqb_neq a 0)) by done. apply fmap_Some in Hn as (r & Hr & ->).
    rewrite Hr. cbn [access rbind]. rewrite (proj2 (Z.eqb_neq a pr)) by done.
    destruct (IH fuel (next r) Hnd ltac:(lia) Hc) as (m' & p' & -> & Hc' & Hout & Hin). cbn [rbind].
    rewrite Hout by set_solver. rewrite Hr. cbn [access rbind]. exists (<[a := set r p']> m'), a.
    split; [done |]. split.
    + cbn. split; [done |]. split; [done |]. exists p'. rewrite lookup_insert_eq. cbn. rewrite Hset. split; [done |].
      eapply chain_ext; [ | exact Hc']. intros q Hq. cbn beta. rewrite lookup_insert_ne by set_solver. done.
    + split.
      * intros q Hq. rewrite lookup_insert_ne by set_solver. apply Hout. set_solver.
      * intros q [-> | Hq]%elem_of_cons.
        -- exists r, p'. by rewrite lookup_insert_eq.
        -- rewrite lookup_insert_ne by set_solver. by apply Hin.
Qed.

(** ** Bits in use *)

Definition inuse (ws : list Z) (j : Z) : bool :=
  match zget ws (j / 32) with
  | Some w => Z.testbit w (j mod 32)
  | None => false
  end.

Definition count (ws : list Z) : Z := zlen (filter (fun j => inuse ws j = true) (seqZ 0 256)).

Lemma filter_ext_in {A} (P Q : A -> Prop) `{!forall x, Decision (P x), !forall x, Decision (Q x)} (l : list A) :
  (forall x, x ∈ l -> P x <-> Q x) -> filter P l = filter Q l.
Proof.
  induction l as [ | i l IH]; intros Heq; [done |]. rewrite !filter_cons.
  rewrite IH by (intros; apply Heq; set_solver). destruct (decide (P i)) as [Hp | Hp].
  - by rewrite decide_True by (apply Heq; set_solver).
  - rewrite decide_False; [done |]. rewrite <- Heq by set_solver. done.
Qed.

Lemma filter_all {A} (P : A -> Prop) `{!forall x, Decision (P x)} (l : list A) :
  (forall x, x ∈ l -> P x) -> filter P l = l.
Proof.
  induction l as [ | i l IH]; intros Hall; [done |]. rewrite filter_cons, decide_True by (apply Hall; set_solver).
  rewrite IH; [done |]. intros x Hx. apply Hall. set_solver.
Qed.

Lemma filter_flip (P Q : Z -> Prop) `{!forall x, Decision (P x), !forall x, Decision (Q x)} (l : list Z) j :
  NoDup l -> j ∈ l -> ~ P j -> Q j -> (forall i, i <> j -> P i <-> Q i) ->
  zlen (filter Q l) = zlen (filter P l) + 1.
Proof.
  intros Hnd Hj HP HQ Heq. unfold zlen. induction l as [ | i l IH]; [by apply elem_of_nil in Hj |].
  apply NoDup_cons in Hnd as [Hi Hnd]. rewrite !filter_cons. destruct (decide (i = j)) as [-> | Hne].
  - rewrite decide_True, decide_False by done. cbn.
    assert (filter Q l = filter P l) as ->; [ | lia].
    apply filter_ext_in. intros x Hx. assert (x <> j) by congruence. symmetry. by apply Heq.
  - assert (Hj' : j ∈ l) by set_solver. specialize (IH Hnd Hj').
    destruct (decide (P i)) as [Hp | Hp].
    + rewrite decide_True by (by apply Heq). cbn. lia.
    + rewrite decide_False by (by rewrite <- Heq). lia.
Qed.

Lemma count_bounds ws : 0 <= count ws <= 256.
Proof.
  unfold count, zlen. pose proof (length_filter (fun j => inuse ws j = true) (seqZ 0 256)) as Hf.
  rewrite length_seqZ in Hf. lia.
Qed.

Lemma count_full ws : count ws = 256 <-> forall j, 0 <= j < 256 -> inuse ws j = true.
Proof.
  unfold count. split.
  - intros Hc j Hj. destruct (inuse ws j) eqn:E; [done | exfalso].
    assert (zlen (filter (fun i => i = j \/ inuse ws i = true) (seqZ 0 256)) = 256 + 1) as Hbad.
    { etransitivity; [ | exact (f_equal (fun n => n + 1) Hc)]. apply (filter_flip (fun i => inuse ws i = true) _ _ j).
      - apply NoDup_seqZ.
      - apply elem_of_seqZ. lia.
      - congruence.
      - by left.
      - intros i Hi. naive_solver. }
    unfold zlen in Hbad. pose proof (length_filter (fun i => i = j \/ inuse ws i = true) (seqZ 0 256)) as Hf.
    rewrite length_seqZ in Hf. lia.
  - intros Hall. rewrite filter_all.
    + unfold zlen. rewrite length_seqZ. lia.
    + intros j Hj%elem_of_seqZ. apply Hall. lia.
Qed.

(** The words of a root: 8 of 32 bits. *)
Definition words_ok (ws : list Z) : Prop := zlen ws = 8 /\ Forall (fun w => is_u32 w) ws.

Lemma words_ok_get ws i w : words_ok ws -> zget ws i = Some w -> is_u32 w.
Proof.
  intros [_ Hf] Hg. unfold zget in Hg. destruct (i <? 0); [done |]. by apply (Forall_lookup_1 _ _ _ _ Hf Hg).
Qed.

(** Storing a word that differs in one bit. *)
Lemma inuse_store ws i j w w' ws' (x : bool) :
  words_ok ws -> zget ws i = Some w -> zput ws i w' = Some ws' -> 0 <= j < 32 -> is_u32 w' ->
  (forall n, 0 <= n < 32 -> Z.testbit w' n = if n =? j then x else Z.testbit w n) ->
  words_ok ws' /\ forall m, 0 <= m < 256 -> inuse ws' m = if m =? i * 32 + j then x else inuse ws m.
Proof.
  intros [Hl Hf] Hg Hp Hj Hw' Hb. split.
  - split; [by rewrite (zput_length _ _ _ _ Hp) |]. apply zput_Some in Hp as [_ ->]. by apply Forall_insert.
  - intros m Hm. unfold inuse. rewrite (zget_zput _ _ (m / 32) _ _ Hp). case_decide as E.
    + rewrite Hb by div_lia. subst i. rewrite Hg.
      destruct (Z.eqb_spec (m mod 32) j), (Z.eqb_spec m (m / 32 * 32 + j)); try done; exfalso; div_lia.
    + destruct (Z.eqb_spec m (i * 32 + j)) as [-> | ]; [exfalso; apply E; div_lia | done].
Qed.

Lemma count_set ws ws' j :
  0 <= j < 256 -> inuse ws j = false -> (forall m, 0 <= m < 256 -> inuse ws' m = if m =? j then true else inuse ws m) ->
  count ws' = count ws + 1.
Proof.
  intros Hj Hno Heq. unfold count.
  rewrite (filter_ext_in (fun m => inuse ws' m = true) (fun m => m = j \/ inuse ws m = true)).
  - apply (filter_flip _ _ _ j); [apply NoDup_seqZ | apply elem_of_seqZ; lia | congruence | by left | naive_solver].
  - intros m Hm%elem_of_seqZ. rewrite Heq by lia. destruct (Z.eqb_spec m j); naive_solver.
Qed.

Lemma count_clear ws ws' j :
  0 <= j < 256 -> inuse ws j = true -> (forall m, 0 <= m < 256 -> inuse ws' m = if m =? j then false else inuse ws m) ->
  count ws' = count ws - 1.
Proof.
  intros Hj Hin Heq. enough (count ws = count ws' + 1) by lia. apply (count_set _ _ j); [done | rewrite Heq by lia; by rewrite Z.eqb_refl |].
  intros m Hm. rewrite Heq by done. destruct (Z.eqb_spec m j) as [-> | ]; done.
Qed.

Lemma find_bit_scan k w j : find_bit k w j = scan_word k w j.
Proof. revert j. induction k as [ | k IH]; intros j; [done |]. cbn [find_bit scan_word]. by rewrite IH. Qed.

Lemma u32_bits_above w n : is_u32 w -> 32 <= n -> Z.testbit w n = false.
Proof.
  intros Hw Hn. rewrite <- (u32_id w) by done. unfold u32. rewrite <- Z.land_ones by lia.
  rewrite Z.land_spec, Z.ones_spec_high by lia. apply andb_false_r.
Qed.

Lemma full_word w : is_u32 w -> (forall j, 0 <= j < 32 -> Z.testbit w j = true) -> w = 0xffffffff.
Proof.
  intros Hw Hj. change 0xffffffff with (Z.ones 32). apply Z.bits_inj'. intros n Hn.
  destruct (Z.ltb_spec n 32).
  - by rewrite Hj, Z.ones_spec_low by lia.
  - by rewrite u32_bits_above, Z.ones_spec_high by (done || lia).
Qed.

Lemma find_word_spec ws i0 :
  Forall (fun w => is_u32 w) ws ->
  (exists i j w, find_word ws i0 = Ok (Some (i0 + i, j)) /\ zget ws i = Some w /\ 0 <= j < 32 /\ Z.testbit w j = false) \/
  (find_word ws i0 = Ok None /\ forall w, w ∈ ws -> w = 0xffffffff).
Proof.
  revert i0. induction ws as [ | w ws IH]; intros i0 Hf.
  { right. split; [done |]. intros w Hw. by apply elem_of_nil in Hw. }
  apply Forall_cons in Hf as [Hw Hf]. cbn [find_word]. destruct (Z.eqb_spec w 0xffffffff) as [-> | Hne].
  - destruct (IH (i0 + 1) Hf) as [(i & j & w & -> & Hg & Hj & Hb) | [-> Hall]].
    + left. exists (i + 1), j, w. split; [do 3 f_equal; lia |]. split; [ | done].
      pose proof (zget_Some _ _ _ Hg). unfold zget in *. destruct (Z.ltb_spec i 0), (Z.ltb_spec (i + 1) 0); try lia.
      by replace (Z.to_nat (i + 1)) with (Datatypes.S (Z.to_nat i)) by lia.
    + right. split; [done |]. intros w [-> | Hin]%elem_of_cons; [done | auto].
  - rewrite find_bit_scan. destruct (scan_word 32 w 0) as [j | ] eqn:E.
    + apply scan_word_Some in E as (Hj & Hb & _); [ | lia]. left. exists 0, j, w. rewrite Z.add_0_r. split; [done |].
      split; [done |]. split; [lia | done].
    + exfalso. apply Hne, full_word; [done |]. intros j Hj. apply (scan_word_None 32 w 0); [lia | done | lia].
Qed.

(** A root with room has a clear bit, which is found. *)
Lemma find_word_room ws :
  words_ok ws -> count ws < 256 ->
  exists i j w, find_word ws 0 = Ok (Some (i, j)) /\ zget ws i = Some w /\ 0 <= i < 8 /\ 0 <= j < 32 /\
    Z.testbit w j = false /\ inuse ws (i * 32 + j) = false.
Proof.
  intros [Hl Hf] Hc. destruct (find_word_spec ws 0 Hf) as [(i & j & w & E & Hg & Hj & Hb) | [_ Hall]].
  - exists i, j, w. rewrite Z.add_0_l in E. split; [done |]. split; [done |].
    pose proof (zget_Some _ _ _ Hg). split; [lia |]. split; [done |]. split; [done |].
    unfold inuse. replace ((i * 32 + j) / 32) with i by div_lia. rewrite Hg.
    by replace ((i * 32 + j) mod 32) with j by div_lia.
  - exfalso. enough (count ws = 256) by lia. apply count_full. intros j Hj. unfold inuse.
    destruct (zget_lt ws (j / 32)) as [w Hw]; [div_lia |]. rewrite Hw.
    rewrite (Hall w). { change 0xffffffff with (Z.ones 32). apply Z.ones_spec_low. div_lia. }
    unfold zget in Hw. destruct (_ <? 0); [done |]. by eapply list_elem_of_lookup_2.
Qed.

Lemma lor_u32 w j : is_u32 w -> 0 <= j < 32 -> is_u32 (Z.lor w (Z.shiftl 1 j)).
Proof.
  intros Hw Hj. unfold is_u32 in *. split.
  - apply Z.lor_nonneg. split; [lia |]. apply Z.shiftl_nonneg. lia.
  - assert (Z.land (Z.lor w (Z.shiftl 1 j)) (Z.ones 32) = Z.lor w (Z.shiftl 1 j)) as <-.
    { apply Z.bits_inj'. intros n Hn. rewrite Z.land_spec. destruct (Z.ltb_spec n 32).
      - rewrite Z.ones_spec_low by lia. apply andb_true_r.
      - rewrite Z.ones_spec_high, Z.lor_spec, testbit_shl1, u32_bits_above by (done || lia).
        destruct (Z.eqb_spec n j); [lia | done]. }
    rewrite Z.land_ones by lia. apply Z.mod_pos_bound. lia.
Qed.

Lemma clear_word w j :
  is_u32 w -> 0 <= j < 32 ->
  is_u32 (Z.land w (u32 (Z.lnot (Z.shiftl 1 j)))) /\
  forall n, 0 <= n < 32 -> Z.testbit (Z.land w (u32 (Z.lnot (Z.shiftl 1 j)))) n = if n =? j then false else Z.testbit w n.
Proof.
  intros Hw Hj. unfold u32. rewrite <- Z.land_ones by lia.
  replace (Z.land w (Z.land (Z.lnot (Z.shiftl 1 j)) (Z.ones 32))) with (Z.land (Z.land w (Z.lnot (Z.shiftl 1 j))) (Z.ones 32))
    by (by rewrite Z.land_assoc).
  split.
  - rewrite Z.land_ones by lia. apply Z.mod_pos_bound. lia.
  - intros n Hn. rewrite !Z.land_spec, Z.lnot_spec, testbit_shl1, Z.ones_spec_low by lia.
    destruct (Z.eqb_spec n j); cbn; [by rewrite andb_false_r | by rewrite !andb_true_r].
Qed.

(** ** The roots *)

Record root_ok (o : gmap Z Z) (r : kheap_root) : Prop := {
  rt_words : words_ok (pagerefs_inuse r);
  rt_count : numinuse r = count (pagerefs_inuse r);
  rt_page : page r <> 0 -> o !! page r = Some 1
}.

(** Pages for pagerefs are allocated in the order of the roots. *)
Record roots_ok (o : gmap Z Z) (rs : list kheap_root) : Prop := {
  ro_len : zlen rs = 16;
  ro_each : forall w r, zget rs w = Some r -> root_ok o r;
  ro_distinct : forall w w' r r', zget rs w = Some r -> zget rs w' = Some r' -> page r = page r' -> page r <> 0 -> w = w';
  ro_prefix : forall w w' r r', zget rs w = Some r -> zget rs w' = Some r' -> w < w' -> page r' <> 0 -> page r <> 0
}.

(** No root has run full without ever having had a page. *)
Definition healthy (rs : list kheap_root) : Prop :=
  forall w r, zget rs w = Some r -> numinuse r = 256 -> page r <> 0.

(** The pageref [j] of root [w] is at [p] and in use. *)
Definition ref_at (rs : list kheap_root) (p w j : Z) : Prop :=
  exists r, zget rs w = Some r /\ page r <> 0 /\ 0 <= j < 256 /\ p = page r + j * 16 /\ inuse (pagerefs_inuse r) j = true.

(** [r'] has the same page, or one where [r] had none, and all pagerefs in
    use still are. *)
Definition grown (r r' : kheap_root) : Prop :=
  (page r <> 0 -> page r' = page r) /\
  forall j, 0 <= j < 256 -> inuse (pagerefs_inuse r) j = true -> inuse (pagerefs_inuse r') j = true.

Lemma roots_ok_store o o' rs w r r' rs' :
  roots_ok o rs -> zget rs w = Some r -> zput rs w r' = Some rs' -> root_ok o' r' ->
  (forall a n, o !! a = Some n -> o' !! a = Some n) ->
  page r' = page r \/
    (page r = 0 /\ (forall w1 r1, zget rs w1 = Some r1 -> page r1 <> page r') /\
     (forall w1 r1, zget rs w1 = Some r1 -> w1 < w -> page r1 <> 0)) ->
  roots_ok o' rs'.
Proof.
  intros [L E D P] Hr Hp Hok Ho Hpage. pose proof (fun j => zget_zput _ _ j _ _ Hp) as Hg. split.
  - by rewrite (zput_length _ _ _ _ Hp).
  - intros w1 r1. rewrite Hg. case_decide; [by intros [= <-] |]. intros [W C Pg]%E. split; auto.
  - intros w1 w2 r1 r2. rewrite !Hg. intros H1 H2 Heq Hnz.
    destruct (decide (w1 = w)) as [-> | N1], (decide (w2 = w)) as [-> | N2]; simplify_eq; try done.
    + destruct Hpage as [Hpg | (_ & Hne & _)]; [eapply (D w w2 r r2); congruence |]. exfalso. by apply (Hne w2 r2).
    + destruct Hpage as [Hpg | (_ & Hne & _)]; [eapply (D w1 w r1 r); congruence |]. exfalso. by apply (Hne w1 r1).
    + by eapply D.
  - intros w1 w2 r1 r2. rewrite !Hg. intros H1 H2 Hlt Hnz.
    destruct (decide (w1 = w)) as [-> | N1], (decide (w2 = w)) as [-> | N2]; simplify_eq; try lia.
    + destruct Hpage as [Hpg | (Hz & _)]; [rewrite Hpg; by eapply (P w w2) |]. exfalso. by eapply (P w w2).
    + destruct Hpage as [Hpg | (Hz & _ & Hlow)]; [eapply (P w1 w r1 r); congruence | by eapply Hlow].
    + by eapply (P w1 w2).
Qed.

Lemma ref_at_mono rs rs' p w j :
  (forall w r, zget rs w = Some r -> exists r', zget rs' w = Some r' /\ grown r r') -> ref_at rs p w j -> ref_at rs' p w j.
Proof.
  intros Hg (r & Hr & Hp & Hj & -> & Hu). destruct (Hg w r Hr) as (r' & Hr' & Hpg & Hin).
  exists r'. rewrite (Hpg Hp). split; [done |]. split; [done |]. split; [done |]. split; [done |]. by apply Hin.
Qed.

(** Storing one root grows the others trivially. *)
Lemma grown_store rs w r r' rs' :
  zget rs w = Some r -> zput rs w r' = Some rs' -> grown r r' ->
  forall w1 r1, zget rs w1 = Some r1 -> exists r1', zget rs' w1 = Some r1' /\ grown r1 r1'.
Proof.
  intros Hr Hp Hg w1 r1 H1. rewrite (zget_zput _ _ w1 _ _ Hp). case_decide; subst.
  - exists r'. split; [done |]. by simplify_eq.
  - exists r1. split; [done |]. split; auto.
Qed.

(** What the rest of the heap can rely on when a pageref is allocated. *)
Record took_ref {S} `{PageLaws S} (s s' : kmem S) (p : Z) : Prop := {
  tr_same : words s' = words s /\ refs s' = refs s /\ sizebases s' = sizebases s /\ allbase s' = allbase s;
  tr_pages : pages_ok (pages s');
  tr_owned : owned (pages s') = owned (pages s) \/
    exists va w r, owned (pages s) !! va = None /\ owned (pages s') = <[va := 1]> (owned (pages s)) /\
      zget (kheaproots s') w = Some r /\ page r = va;
  tr_roots : roots_ok (owned (pages s')) (kheaproots s');
  tr_grown : forall w r, zget (kheaproots s) w = Some r -> exists r', zget (kheaproots s') w = Some r' /\ grown r r';
  tr_new : forall w r', zget (kheaproots s') w = Some r' -> page r' <> 0 ->
    (exists r, zget (kheaproots s) w = Some r /\ page r = page r') \/
    owned (pages s) !! page r' = None /\ owned (pages s') = <[page r' := 1]> (owned (pages s));
  tr_ref : p = 0 \/ healthy (kheaproots s') /\ (exists w j, ref_at (kheaproots s') p w j) /\
    forall w j, ~ ref_at (kheaproots s) p w j
}.

Section RootFacts.
Context {S : Type} `{PageLaws S}.
Implicit Types s : kmem S.

(** Addresses of pagerefs tell root and index. *)
Lemma ref_at_inj (P : S) rs p w j w' j' :
  pages_ok P -> roots_ok (owned P) rs -> ref_at rs p w j -> ref_at rs p w' j' -> w = w' /\ j = j'.
Proof.
  intros HP Hro (r & Hr & Hz & Hj & E & _) (r' & Hr' & Hz' & Hj' & E' & _).
  destruct (decide (page r = page r')) as [Heq | Hne].
  - split; [by eapply (ro_distinct _ _ Hro) | lia].
  - destruct (pl_apart P (page r) 1 (page r') 1) as [Ha | Ha]; try done.
    + by apply (rt_page _ _ (ro_each _ _ Hro _ _ Hr)).
    + by apply (rt_page _ _ (ro_each _ _ Hro _ _ Hr')).
    + unfold PAGE_SIZE in Ha. lia.
    + unfold PAGE_SIZE in Ha. lia.
Qed.

Lemma took_ref_refl s : pages_ok (pages s) -> roots_ok (owned (pages s)) (kheaproots s) -> took_ref s s 0.
Proof.
  intros HP Hro. split; auto; intros w r Hr; [ | eauto]. exists r. split; [done |]. split; auto.
Qed.

(** Taking the pageref [j] of root [w], whose page [va] may be new. *)
Lemma took_ref_root s P rs' w r ws va j :
  pages_ok (pages s) -> roots_ok (owned (pages s)) (kheaproots s) -> healthy (kheaproots s) ->
  zget (kheaproots s) w = Some r -> (forall w1 r1, zget (kheaproots s) w1 = Some r1 -> w1 < w -> page r1 <> 0) ->
  words_ok ws -> 0 <= j < 256 -> inuse (pagerefs_inuse r) j = false ->
  (forall m, 0 <= m < 256 -> inuse ws m = if m =? j then true else inuse (pagerefs_inuse r) m) ->
  zput (kheaproots s) w (mkRoot va ws (numinuse r + 1)) = Some rs' ->
  pages_ok P ->
  (va = page r /\ owned P = owned (pages s) \/
   page r = 0 /\ va <> 0 /\ owned (pages s) !! va = None /\ owned P = <[va := 1]> (owned (pages s))) ->
  took_ref s (with_roots (with_pages s P) rs') (if va =? 0 then 0 else va + j * 16).
Proof.
  intros HP Hro Hh Hr Hlow Hws Hj Hno Hin Hput HP' Hva. pose proof (ro_each _ _ Hro _ _ Hr) as [W C Pg].
  pose proof (fun i => zget_zput _ _ i _ _ Hput) as Hg.
  assert (Hown : forall a n, owned (pages s) !! a = Some n -> owned P !! a = Some n).
  { intros a n Ha. destruct Hva as [[_ ->] | (_ & _ & Hn & ->)]; [done |]. rewrite lookup_insert_ne; [done |]. congruence. }
  assert (Hro' : roots_ok (owned P) rs').
  { eapply roots_ok_store; [exact Hro | exact Hr | exact Hput | | done |].
    - split; cbn; [done | rewrite C; symmetry; by apply (count_set _ _ j) |]. intros Hz.
      destruct Hva as [[-> ->] | (_ & _ & _ & ->)]; [auto | apply lookup_insert_eq].
    - cbn. destruct Hva as [[-> _] | (Hz & Hnz & Hn & _)]; [by left | right].
      split; [done |]. split; [ | done]. intros w1 r1 H1 E. pose proof (rt_page _ _ (ro_each _ _ Hro _ _ H1) ltac:(congruence)). congruence. }
  split; cbn.
  - done.
  - done.
  - destruct Hva as [[_ ->] | (_ & _ & Hn & ->)]; [by left | right]. exists va, w. eexists.
    split; [done |]. split; [done |]. rewrite Hg, decide_True by done. by split.
  - done.
  - eapply grown_store; [exact Hr | exact Hput |]. split; cbn.
    + intros Hnz. destruct Hva as [[-> _] | (Hz & _)]; done.
    + intros m Hm Hu. rewrite Hin by done. by destruct (m =? j).
  - intros w1 r1. rewrite Hg. case_decide; [ | eauto]. subst. intros [= <-]. cbn. intros Hnz.
    destruct Hva as [[-> _] | (_ & _ & Hn & ->)]; [left; eauto | by right].
  - destruct (Z.eqb_spec va 0) as [-> | Hnz]; [by left | right].
    assert (Hat : ref_at rs' (va + j * 16) w j).
    { exists (mkRoot va ws (numinuse r + 1)). rewrite Hg, decide_True by done. cbn. rewrite Hin, Z.eqb_refl by done. auto. }
    split; [ | split; [by exists w, j |]].
    + intros w1 r1. rewrite Hg. case_decide; [by intros [= <-] | by apply Hh].
    + intros w' j' Hat'. pose proof (ref_at_mono _ rs' _ _ _ (grown_store _ _ _ _ _ Hr Hput ltac:(split; cbn;
        [intros Hnz'; destruct Hva as [[-> _] | (Hz & _)]; done | intros m Hm Hu; rewrite Hin by done; by destruct (m =? j)])) Hat') as Hat2.
      destruct (ref_at_inj P rs' _ _ _ _ _ HP' Hro' Hat Hat2) as [-> ->].
      destruct Hat' as (r' & Hr' & _ & _ & _ & Hu). simplify_eq. congruence.
Qed.

Lemma allocpageref_from_spec k s w :
  pages_ok (pages s) -> roots_ok (owned (pages s)) (kheaproots s) -> healthy (kheaproots s) ->
  0 <= w -> w + Z.of_nat k = 16 -> (forall w1 r1, zget (kheaproots s) w1 = Some r1 -> w1 < w -> page r1 <> 0) ->
  exists s' p, allocpageref_from k s w = Ok (s', p) /\ took_ref s s' p.
Proof.
  intros HP Hro Hh. revert w. induction k as [ | k IH]; intros w Hw Hk Hlow.
  { exists s, 0. split; [done | by apply took_ref_refl]. }
  cbn [allocpageref_from]. destruct (zget_lt (kheaproots s) w) as [r Hr]; [rewrite (ro_len _ _ Hro); lia |].
  rewrite Hr. cbn [access rbind]. pose proof (ro_each _ _ Hro _ _ Hr) as [W C Pg].
  change NPAGEREFS_PER_PAGE with 256. destruct (Z.leb_spec 256 (numinuse r)) as [Hfull | Hroom].
  { apply IH; [lia | lia |]. intros w1 r1 H1 Hlt. destruct (Z.eq_dec w1 w) as [-> | ]; [ | apply (Hlow w1); [done | lia]].
    simplify_eq. apply (Hh w); [done |]. pose proof (count_bounds (pagerefs_inuse r)). lia. }
  destruct (find_word_room (pagerefs_inuse r)) as (i & j & x & -> & Hx & Hi & Hj & Hbit & Hno); [done | lia |].
  cbn [rbind]. rewrite Hx. cbn [access rbind].
  assert (Hxu : is_u32 x) by (by eapply words_ok_get).
  destruct (zput_lt (pagerefs_inuse r) i (Z.lor x (Z.shiftl 1 j))) as [ws Hws]; [by eapply zget_Some |].
  rewrite Hws. cbn [access rbind].
  destruct (inuse_store (pagerefs_inuse r) i j x (Z.lor x (Z.shiftl 1 j)) ws true W Hx Hws Hj) as [Wok Hin].
  { by apply lor_u32. }
  { intros n Hn. apply testbit_set; lia. }
  rewrite (u32_id (numinuse r + 1)) by (pose proof (count_bounds (pagerefs_inuse r)); unfold is_u32; lia).
  destruct (zput_lt (kheaproots s) w (mkRoot (page r) ws (numinuse r + 1))) as [rs1 Hrs1]; [by eapply zget_Some |].
  rewrite Hrs1. cbn [access rbind]. pose proof (fun q => zget_zput _ _ q _ _ Hrs1) as Hg1.
  assert (Hij : 0 <= i * 32 + j < 256) by lia.
  assert (Hcase : forall P rs' va, zput (kheaproots s) w (mkRoot va ws (numinuse r + 1)) = Some rs' -> pages_ok P ->
    (va = page r /\ owned P = owned (pages s) \/
     page r = 0 /\ va <> 0 /\ owned (pages s) !! va = None /\ owned P = <[va := 1]> (owned (pages s))) ->
    took_ref s (with_roots (with_pages s P) rs') (if va =? 0 then 0 else va + (i * 32 + j) * 16)).
  { intros P rs' va Hp HP' Hva. eapply took_ref_root; eauto. }
  destruct (Z.eqb_spec (page r) 0) as [Hz | Hnz].
  - unfold allocpagerefpage. cbn [with_roots kheaproots pages]. rewrite Hg1, decide_True by done. cbn [access rbind page].
    rewrite Hz. cbn [kassert Z.eqb]. destruct (pl_one (pages s) HP) as [[P va] E]. rewrite E. cbn [rbind].
    destruct (pl_alloc (pages s) 1 P va HP ltac:(lia) E) as (HP' & Hown).
    destruct (Z.eqb_spec va 0) as [-> | Hvz].
    + cbn [rbind with_pages with_roots kheaproots]. rewrite Hg1, decide_True by done. cbn [access rbind page].
      rewrite Hz. cbn. eexists _, 0. split; [reflexivity |].
      apply (Hcase P rs1 0); [by rewrite <- Hz | done |]. left. split; [done |]. by destruct Hown as [[_ ?] | [? _]].
    + destruct Hown as [[-> _] | (_ & Hn & Hown)]; [done |].
      assert (Hrun : owned P !! va = Some 1) by (rewrite Hown; apply lookup_insert_eq).
      destruct (pl_run P va 1 HP' Hrun) as (_ & Hal & _). rewrite Hal. cbn [kassert Z.eqb].
      cbn [with_pages with_roots kheaproots]. rewrite Hg1, decide_True by done. cbn [access rbind page pagerefs_inuse numinuse].
      rewrite Hz. cbn [negb Z.eqb].
      destruct (zput_lt rs1 w (mkRoot va ws (numinuse r + 1))) as [rs2 Hrs2].
      { rewrite (zput_length _ _ _ _ Hrs1). by eapply zget_Some. }
      rewrite Hrs2. cbn [access rbind with_roots kheaproots]. rewrite (zget_zput _ _ w _ _ Hrs2), decide_True by done.
      cbn [access rbind page]. rewrite (proj2 (Z.eqb_neq va 0)) by done.
      eexists _, _. split; [reflexivity |].
      specialize (Hcase P rs2 va). rewrite (proj2 (Z.eqb_neq va 0)) in Hcase by done. apply Hcase; [ | done | right; auto].
      apply zput_Some in Hrs1 as [Hr1 ->]. apply zput_Some in Hrs2 as [_ ->]. apply zput_Some. split; [done |].
      by rewrite list_insert_insert_eq.
  - cbn [rbind with_roots kheaproots]. rewrite Hg1, decide_True by done. cbn [access rbind page].
    rewrite (proj2 (Z.eqb_neq (page r) 0)) by done. eexists _, _. split; [reflexivity |].
    specialize (Hcase (pages s) rs1 (page r) Hrs1 HP (or_introl (conj eq_refl eq_refl))).
    rewrite (proj2 (Z.eqb_neq (page r) 0)) in Hcase by done. by destruct s.
Qed.

Lemma allocpageref_spec s :
  pages_ok (pages s) -> roots_ok (owned (pages s)) (kheaproots s) -> healthy (kheaproots s) ->
  exists s' p, allocpageref s = Ok (s', p) /\ took_ref s s' p.
Proof.
  intros HP Hro Hh. apply allocpageref_from_spec; try done. intros w1 r1 H1 Hlt. apply zget_Some in H1. lia.
Qed.

(** A pageref is on the page of no other root. *)
Lemma not_on_page (P : S) rs p w j w1 r1 :
  pages_ok P -> roots_ok (owned P) rs -> ref_at rs p w j -> zget rs w1 = Some r1 -> page r1 <> 0 -> w1 <> w ->
  256 <= u32 ((p - page r1) / 16).
Proof.
  intros HP Hro (r & Hr & Hz & Hj & -> & _) H1 Hz1 Hne.
  pose proof (rt_page _ _ (ro_each _ _ Hro _ _ Hr) Hz) as Ho. pose proof (rt_page _ _ (ro_each _ _ Hro _ _ H1) Hz1) as Ho1.
  assert (Hpg : page r <> page r1) by (intros E; apply Hne; symmetry; by eapply (ro_distinct _ _ Hro)).
  destruct (pl_run P _ _ HP Ho) as (? & ? & _ & ?), (pl_run P _ _ HP Ho1) as (? & ? & _ & ?).
  destruct (pl_apart P _ _ _ _ HP Ho Ho1 Hpg) as [Ha | Ha]; unfold PAGE_SIZE in *.
  - assert (-2 ^ 28 <= (page r + j * 16 - page r1) / 16 < 0) by div_lia. unfold u32.
    rewrite <- (Z.mod_add _ 1) by lia. rewrite Z.mod_small by lia. lia.
  - rewrite u32_id by (unfold is_u32; div_lia). div_lia.
Qed.

Lemma freepageref_from_spec k s w0 p w j r :
  pages_ok (pages s) -> roots_ok (owned (pages s)) (kheaproots s) -> ref_at (kheaproots s) p w j ->
  zget (kheaproots s) w = Some r -> 0 <= w0 <= w -> w < w0 + Z.of_nat k ->
  exists ws rs', freepageref_from k s w0 p = Ok (with_roots s rs') /\
    zput (kheaproots s) w (mkRoot (page r) ws (numinuse r - 1)) = Some rs' /\ words_ok ws /\
    forall m, 0 <= m < 256 -> inuse ws m = if m =? j then false else inuse (pagerefs_inuse r) m.
Proof.
  intros HP Hro Hat Hr. revert w0. induction k as [ | k IH]; intros w0 Hw0 Hk; [lia |].
  cbn [freepageref_from]. destruct (zget_lt (kheaproots s) w0) as [r0 Hr0].
  { pose proof (zget_Some _ _ _ Hr). lia. }
  rewrite Hr0. cbn [access rbind]. pose proof Hat as (r' & Hr' & Hz & Hj & Hp & Hu). simplify_eq.
  destruct (decide (w0 = w)) as [-> | Hne].
  - assert (r0 = r) as -> by congruence. rewrite (proj2 (Z.eqb_neq (page r) 0)) by done. unfold sizeof_pageref.
    replace ((page r + j * 16 - page r) / 16) with j by div_lia.
    rewrite u32_id by (unfold is_u32; lia). change NPAGEREFS_PER_PAGE with 256. rewrite (proj2 (Z.ltb_lt j 256)) by lia.
    pose proof (ro_each _ _ Hro _ _ Hr) as [W C _].
    destruct (zget_lt (pagerefs_inuse r) (j / 32)) as [x Hx]; [rewrite (proj1 W); div_lia |].
    assert (Hxu : is_u32 x) by (by eapply words_ok_get).
    assert (Hjm : 0 <= j mod 32 < 32) by div_lia.
    assert (Hbit : Z.testbit x (j mod 32) = true) by (unfold inuse in Hu; by rewrite Hx in Hu).
    destruct (clear_word x (j mod 32) Hxu Hjm) as [Hcu Hcb].
    rewrite Hx. cbn [access rbind]. rewrite land_shl1_zero, Hbit by lia. cbn [negb kassert].
    destruct (zput_lt (pagerefs_inuse r) (j / 32) (Z.land x (u32 (Z.lnot (Z.shiftl 1 (j mod 32)))))) as [ws Hws];
      [by eapply zget_Some |].
    rewrite Hws. cbn [access rbind].
    destruct (inuse_store _ _ _ _ _ _ false W Hx Hws Hjm Hcu Hcb) as [Wok Hin].
    replace (j / 32 * 32 + j mod 32) with j in Hin by div_lia.
    assert (Hpos : 0 < numinuse r).
    { rewrite C. pose proof (count_clear _ ws j Hj Hu Hin). pose proof (count_bounds ws). lia. }
    rewrite (proj2 (Z.ltb_lt _ _)) by done. cbn [kassert].
    destruct (zput_lt (kheaproots s) w (mkRoot (page r) ws (numinuse r - 1))) as [rs' Hrs]; [by eapply zget_Some |].
    rewrite Hrs. cbn [access rbind]. eauto 10.
  - assert (Hz0 : page r0 <> 0) by (eapply (ro_prefix _ _ Hro w0 w); [done | done | lia | done]).
    rewrite (proj2 (Z.eqb_neq (page r0) 0)) by done.
    pose proof (not_on_page (pages s) _ _ w j w0 r0 HP Hro Hat Hr0 Hz0 Hne) as Hbig.
    change NPAGEREFS_PER_PAGE with 256. unfold sizeof_pageref. rewrite (proj2 (Z.ltb_ge _ _)) by done.
    apply IH; lia.
Qed.

(** What giving a pageref back does to the roots. *)
Lemma freepageref_spec s p w j :
  pages_ok (pages s) -> roots_ok (owned (pages s)) (kheaproots s) -> ref_at (kheaproots s) p w j ->
  exists rs', freepageref s p = Ok (with_roots s rs') /\ roots_ok (owned (pages s)) rs' /\
    (healthy (kheaproots s) -> healthy rs') /\
    (forall w1 r1, zget rs' w1 = Some r1 -> exists r, zget (kheaproots s) w1 = Some r /\ page r1 = page r) /\
    (forall q w' j', q <> p -> ref_at (kheaproots s) q w' j' -> ref_at rs' q w' j').
Proof.
  intros HP Hro Hat. pose proof Hat as (r & Hr & Hz & Hj & Hp & Hu).
  destruct (freepageref_from_spec (Z.to_nat NUM_PAGEREFPAGES) s 0 p w j r) as (ws & rs' & E & Hput & Wok & Hin); try done.
  { apply zget_Some in Hr. lia. }
  { apply zget_Some in Hr. rewrite (ro_len _ _ Hro) in Hr. unfold NUM_PAGEREFPAGES. lia. }
  pose proof (ro_each _ _ Hro _ _ Hr) as [W C Pg]. pose proof (fun i => zget_zput _ _ i _ _ Hput) as Hg.
  pose proof (count_clear _ ws j Hj Hu Hin) as Hcnt.
  exists rs'. split; [exact E |]. split; [ | split; [ | split]].
  - eapply roots_ok_store; [exact Hro | exact Hr | exact Hput | | done | by left]. split; cbn; [done | lia | auto].
  - intros Hh w1 r1. rewrite Hg. case_decide; [ | by apply Hh]. by intros [= <-].
  - intros w1 r1. rewrite Hg. case_decide; [ | eauto]. subst. intros [= <-]. eauto.
  - intros q w' j' Hq (r' & Hr' & Hz' & Hj' & -> & Hu'). destruct (decide (w' = w)) as [-> | Hne].
    + simplify_eq. eexists. rewrite Hg, decide_True by done. split; [done |]. cbn. split; [done |]. split; [done |].
      split; [done |]. rewrite Hin by done. destruct (Z.eqb_spec j' j); [ | done]. subst. done.
    + exists r'. rewrite Hg, decide_False by done. auto.
Qed.

(** Freeing a page that is none of the roots' does not concern them. *)
Lemma roots_ok_delete o rs a :
  roots_ok o rs -> (forall w r, zget rs w = Some r -> page r <> a) -> roots_ok (delete a o) rs.
Proof.
  intros [L E D P] Ha. split; try done. intros w r Hr. pose proof (E w r Hr) as [W C Pg]. split; [done | done |].
  intros Hz. rewrite lookup_delete_ne; [auto |]. intros Heq. by apply (Ha w r Hr).
Qed.
End RootFacts.

(** ** Pages of blocks *)

(** A page in the heap: its pageref, its address, the index of its block size
    and its free blocks in the order of the free list. *)
Record pinfo := mkPinfo {
  g_ref : Z;
  g_page : Z;
  g_type : Z;
  g_free : list Z
}.

Definition set_free (g : pinfo) (l : list Z) : pinfo := mkPinfo (g_ref g) (g_page g) (g_type g) l.

Definition bsize (t : Z) : Z := default 16 (zget sizes t).
Definition nblocks (t : Z) : Z := PAGE_SIZE / bsize t.

Definition blocks (g : pinfo) : list Z := (fun k => g_page g + k * bsize (g_type g)) <$> seqZ 0 (nblocks (g_type g)).

Lemma bsize_facts t :
  0 <= t < 8 ->
  zget sizes t = Some (bsize t) /\ 16 <= bsize t <= 2048 /\ bsize t mod 16 = 0 /\ nblocks t * bsize t = PAGE_SIZE /\
  2 <= nblocks t <= 256 /\ bsize t mod 4 = 0.
Proof.
  intros Ht. assert (t = 0 \/ t = 1 \/ t = 2 \/ t = 3 \/ t = 4 \/ t = 5 \/ t = 6 \/ t = 7) as Hc by lia.
  repeat (destruct Hc as [-> | Hc]; [by vm_compute |]). subst. by vm_compute.
Qed.

Lemma elem_of_blocks g a :
  a ∈ blocks g <-> exists k, 0 <= k < nblocks (g_type g) /\ a = g_page g + k * bsize (g_type g).
Proof.
  unfold blocks. rewrite list_elem_of_fmap. split.
  - intros (k & -> & Hk%elem_of_seqZ). exists k. split; [lia | done].
  - intros (k & Hk & ->). exists k. split; [done |]. apply elem_of_seqZ. lia.
Qed.

Lemma length_blocks g : 0 <= g_type g < 8 -> zlen (blocks g) = nblocks (g_type g).
Proof.
  intros Ht. unfold blocks, zlen. rewrite length_fmap, length_seqZ. destruct (bsize_facts _ Ht) as (_ & _ & _ & _ & ? & _). lia.
Qed.

(** A block lies in its page. *)
Lemma block_in_page g a :
  0 <= g_type g < 8 -> a ∈ blocks g -> g_page g <= a /\ a + bsize (g_type g) <= g_page g + PAGE_SIZE /\
  (a - g_page g) mod bsize (g_type g) = 0.
Proof.
  intros Ht (k & Hk & ->)%elem_of_blocks. destruct (bsize_facts _ Ht) as (_ & Hb & _ & Hn & _).
  split; [nia |]. split; [nia |]. replace (g_page g + k * bsize (g_type g) - g_page g) with (k * bsize (g_type g)) by lia.
  apply Z.mod_mul. lia.
Qed.

(** Two blocks of one page. *)
Lemma blocks_apart g a b :
  0 <= g_type g < 8 -> a ∈ blocks g -> b ∈ blocks g -> a <> b -> a + bsize (g_type g) <= b \/ b + bsize (g_type g) <= a.
Proof.
  intros Ht (k & Hk & ->)%elem_of_blocks (m & Hm & ->)%elem_of_blocks Hne. destruct (bsize_facts _ Ht) as (_ & Hb & _).
  destruct (Z.lt_total k m) as [ | [-> | ]]; [left; nia | done | right; nia].
Qed.

Record page_ok (w : Z -> Z) (m : gmap Z pageref) (g : pinfo) : Prop := {
  po_type : 0 <= g_type g < 8;
  po_ref : exists r, m !! g_ref g = Some r /\ pageaddr_and_blocktype r = MKPAB (g_page g) (g_type g) /\
    nfree r = zlen (g_free g) /\
    freelist_offset r = match g_free g with [] => INVALID_OFFSET | a :: _ => a - g_page g end;
  po_chain : chain (fun a => Some (w a)) (hd 0 (g_free g)) (g_free g);
  po_nodup : NoDup (g_free g);
  po_blocks : forall a, a ∈ g_free g -> a ∈ blocks g
}.

Lemma free_count g l : 0 <= g_type g < 8 -> NoDup l -> (forall a, a ∈ l -> a ∈ blocks g) -> zlen l <= nblocks (g_type g).
Proof.
  intros Ht Hnd Hb. rewrite <- length_blocks by done. unfold zlen.
  pose proof (submseteq_length l (blocks g) (NoDup_submseteq _ _ Hnd Hb)). lia.
Qed.

Lemma free_all g l :
  0 <= g_type g < 8 -> NoDup l -> (forall a, a ∈ l -> a ∈ blocks g) -> zlen l = nblocks (g_type g) ->
  forall a, a ∈ blocks g -> a ∈ l.
Proof.
  intros Ht Hnd Hb Hl a Ha. rewrite <- length_blocks in Hl by done. unfold zlen in Hl.
  rewrite (submseteq_length_Permutation l (blocks g)); [done | by apply NoDup_submseteq | lia].
Qed.

Lemma page_ok_ext w w' m m' g :
  page_ok w m g -> (forall a, a ∈ blocks g -> w' a = w a) ->
  (forall r, m !! g_ref g = Some r -> exists r', m' !! g_ref g = Some r' /\
     pageaddr_and_blocktype r' = pageaddr_and_blocktype r /\ nfree r' = nfree r /\ freelist_offset r' = freelist_offset r) ->
  page_ok w' m' g.
Proof.
  intros [T (r & Hr & H1 & H2 & H3) C N B] Hw Hm. split; try done.
  - destruct (Hm r Hr) as (r' & Hr' & E1 & E2 & E3). exists r'. rewrite E1, E2, E3. auto.
  - eapply chain_ext; [ | exact C]. intros q Hq. cbn. by rewrite Hw by auto.
Qed.

(** ** Filling memory *)

Lemma fill_words_outside k w ptr a : a < ptr \/ ptr + 4 * Z.of_nat k <= a -> fill_words k w ptr a = w a.
Proof.
  revert w ptr. induction k as [ | k IH]; intros w ptr Ha; [done |]. cbn [fill_words].
  rewrite IH by lia. unfold poke. destruct (Z.eqb_spec a ptr); [lia | done].
Qed.

Lemma fill_deadbeef_outside w ptr len a : 0 <= len -> a < ptr \/ ptr + len <= a -> fill_deadbeef w ptr len a = w a.
Proof. intros Hl Ha. apply fill_words_outside. rewrite Z2Nat.id by div_lia. div_lia. Qed.

Lemma chain_blocks_spec k w fla sz i :
  0 < sz ->
  (forall m, i <= m < i + Z.of_nat k -> chain_blocks k w fla sz i (fla + m * sz) = fla + (m - 1) * sz) /\
  (forall a, (forall m, i <= m < i + Z.of_nat k -> a <> fla + m * sz) -> chain_blocks k w fla sz i a = w a).
Proof.
  intros Hsz. revert w i. induction k as [ | k IH]; intros w i; [split; [lia | done] |]. cbn [chain_blocks].
  destruct (IH (poke w (fla + i * sz) (fla + (i - 1) * sz)) (i + 1)) as [H1 H2]. split.
  - intros m Hm. destruct (Z.eq_dec m i) as [-> | ]; [ | apply H1; lia].
    rewrite H2 by nia. unfold poke. by rewrite Z.eqb_refl.
  - intros a Ha. rewrite H2 by (intros m Hm; apply Ha; lia). unfold poke.
    destruct (Z.eqb_spec a (fla + i * sz)) as [E | ]; [ | done]. exfalso. apply (Ha i); [lia | done].
Qed.

(** The free list of a fresh page: its blocks from the top down. *)
Fixpoint down (k : nat) (fla sz : Z) : list Z :=
  match k with
  | O => []
  | Datatypes.S k => fla + Z.of_nat k * sz :: down k fla sz
  end.

Lemma elem_of_down k fla sz a : a ∈ down k fla sz <-> exists m, 0 <= m < Z.of_nat k /\ a = fla + m * sz.
Proof.
  induction k as [ | k IH]; cbn [down].
  - split; [intros Ha; by apply elem_of_nil in Ha | intros (m & ? & _); lia].
  - rewrite elem_of_cons, IH. split.
    + intros [-> | (m & Hm & ->)]; [exists (Z.of_nat k) | exists m]; (split; [lia | done]).
    + intros (m & Hm & ->). destruct (Z.eq_dec m (Z.of_nat k)) as [-> | ]; [by left | right]. exists m. split; [lia | done].
Qed.

Lemma NoDup_down k fla sz : 0 < sz -> NoDup (down k fla sz).
Proof.
  intros Hsz. induction k as [ | k IH]; cbn [down]; [constructor |]. apply NoDup_cons. split; [ | done].
  intros (m & Hm & E)%elem_of_down. nia.
Qed.

Lemma length_down k fla sz : zlen (down k fla sz) = Z.of_nat k.
Proof. unfold zlen. induction k as [ | k IH]; cbn [down length]; lia. Qed.

Lemma chain_down w k fla sz :
  0 < fla -> 0 < sz -> (0 < k)%nat -> w fla = 0 ->
  (forall m, 1 <= m < Z.of_nat k -> w (fla + m * sz) = fla + (m - 1) * sz) ->
  chain (fun a => Some (w a)) (fla + (Z.of_nat k - 1) * sz) (down k fla sz).
Proof.
  intros Hf Hsz. induction k as [ | k IH]; intros Hk H0 Hm; [lia |]. cbn [down chain].
  replace (Z.of_nat (Datatypes.S k) - 1) with (Z.of_nat k) by lia.
  split; [done |]. split; [nia |]. eexists. split; [done |]. destruct k as [ | k].
  - cbn. by replace (fla + Z.of_nat 0 * sz) with fla by lia.
  - rewrite Hm by lia. apply IH; [lia | done |]. intros m Hm'. apply Hm. lia.
Qed.

(** ** The invariant of the heap *)

Lemma NoDup_fmap_filter {A B} (f : A -> B) (P : A -> Prop) `{!forall x, Decision (P x)} (l : list A) :
  NoDup (f <$> l) -> NoDup (f <$> filter P l).
Proof.
  induction l as [ | x l IH]; [done |]. cbn [fmap list_fmap]. intros [Hx Hl]%NoDup_cons. rewrite filter_cons. case_decide; [ | auto].
  cbn. apply NoDup_cons. split; [ | auto]. intros (y & E & Hy)%list_elem_of_fmap. apply Hx. rewrite E.
  apply list_elem_of_fmap_2. by apply list_elem_of_filter in Hy as [_ ?].
Qed.

Lemma NoDup_fmap_inj {A B} (f : A -> B) (l : list A) x y : NoDup (f <$> l) -> x ∈ l -> y ∈ l -> f x = f y -> x = y.
Proof.
  intros Hnd [i Hi]%list_elem_of_lookup [j Hj]%list_elem_of_lookup E.
  assert (i = j) as ->; [ | congruence].
  apply (NoDup_lookup (f <$> l) i j (f x) Hnd); rewrite list_lookup_fmap; [by rewrite Hi | rewrite Hj; cbn; by rewrite E].
Qed.

Section HeapFacts.
Context {S : Type} `{PageLaws S}.
Implicit Types (s : kmem S) (G : list pinfo) (g : pinfo).

Definition same_size G (t : Z) : list pinfo := filter (fun g => g_type g = t) G.

Record heap_inv s G : Prop := {
  hi_pages : pages_ok (pages s);
  hi_roots : roots_ok (owned (pages s)) (kheaproots s);
  hi_all : chain (fun p => next_all <$> refs s !! p) (allbase s) (g_ref <$> G);
  hi_len : zlen (sizebases s) = 8;
  hi_same : forall t b, zget (sizebases s) t = Some b ->
    chain (fun p => next_samesize <$> refs s !! p) b (g_ref <$> same_size G t);
  hi_ok : forall g, g ∈ G -> page_ok (words s) (refs s) g;
  hi_nodup : NoDup (g_ref <$> G);
  hi_pgs : NoDup (g_page <$> G);
  hi_owned : forall g, g ∈ G -> owned (pages s) !! g_page g = Some 1;
  hi_ref : forall g, g ∈ G -> exists w j, ref_at (kheaproots s) (g_ref g) w j;
  hi_apart : forall g w r, g ∈ G -> zget (kheaproots s) w = Some r -> page r <> g_page g
}.

(** The blocks clients hold, with their sizes: blocks of heap pages that are
    not on a free list, and runs of whole pages the heap does not use. *)
Definition live s G (a n : Z) : Prop :=
  (exists g, g ∈ G /\ a ∈ blocks g /\ a ∉ g_free g /\ n = bsize (g_type g)) \/
  (exists k, owned (pages s) !! a = Some k /\ n = k * PAGE_SIZE /\ (forall g, g ∈ G -> g_page g <> a) /\
     forall w r, zget (kheaproots s) w = Some r -> page r <> a).

Lemma page_facts s G g :
  heap_inv s G -> g ∈ G ->
  0 <= g_type g < 8 /\ 0 < g_page g /\ g_page g mod PAGE_SIZE = 0 /\ g_page g + PAGE_SIZE <= 2 ^ 32.
Proof.
  intros Inv Hg. pose proof (pl_run _ _ _ (hi_pages _ _ Inv) (hi_owned _ _ Inv g Hg)) as (H1 & H2 & _ & H3).
  pose proof (po_type _ _ _ (hi_ok _ _ Inv g Hg)). split; [done |]. split; [done |]. split; [done | lia].
Qed.

(** The pageref of a page of the heap, and the fields it is read through. *)
Lemma page_ref s G g :
  heap_inv s G -> g ∈ G ->
  exists r, refs s !! g_ref g = Some r /\ PR_PAGEADDR r = g_page g /\ PR_BLOCKTYPE r = g_type g /\
    pageaddr_and_blocktype r = MKPAB (g_page g) (g_type g) /\ nfree r = zlen (g_free g) /\
    freelist_offset r = match g_free g with [] => INVALID_OFFSET | a :: _ => a - g_page g end.
Proof.
  intros Inv Hg. destruct (page_facts s G g Inv Hg) as (Ht & H1 & H2 & H3).
  destruct (po_ref _ _ _ (hi_ok _ _ Inv g Hg)) as (r & Hr & E1 & E2 & E3). exists r.
  destruct (PR_MKPAB r (g_page g) (g_type g) E1) as [-> ->]; [unfold is_u32, PAGE_SIZE in *; lia | done | done |]. auto 10.
Qed.

(** Pages of different entries share no address. *)
Lemma pages_apart s G g g' :
  heap_inv s G -> g ∈ G -> g' ∈ G -> g_page g <> g_page g' ->
  g_page g + PAGE_SIZE <= g_page g' \/ g_page g' + PAGE_SIZE <= g_page g.
Proof.
  intros Inv Hg Hg' Hne.
  destruct (pl_apart _ _ 1 _ 1 (hi_pages _ _ Inv) (hi_owned _ _ Inv g Hg) (hi_owned _ _ Inv g' Hg') Hne) as [Ha | Ha]; lia.
Qed.

Lemma refs_size (m : gmap Z pageref) (l : list Z) :
  NoDup l -> (forall p, p ∈ l -> is_Some (m !! p)) -> (length l <= size m)%nat.
Proof.
  intros Hnd Hin. rewrite <- size_dom, <- (size_list_to_set (C := gset Z)) by done.
  apply subseteq_size. intros p Hp%elem_of_list_to_set. apply elem_of_dom. auto.
Qed.

Lemma heap_fuel s G : heap_inv s G -> (length G < list_fuel s)%nat.
Proof.
  intros Inv. unfold list_fuel. rewrite <- (length_fmap g_ref).
  enough (length (g_ref <$> G) <= size (refs s))%nat by lia.
  apply refs_size; [apply (hi_nodup _ _ Inv) |]. intros p (g & -> & Hg)%list_elem_of_fmap.
  destruct (page_ref s G g Inv Hg) as (r & -> & _). done.
Qed.

Lemma same_size_sub G t g : g ∈ same_size G t <-> g ∈ G /\ g_type g = t.
Proof. unfold same_size. rewrite list_elem_of_filter. tauto. Qed.

(** ** Finding a page *)

Lemma find_page_spec fuel s G t b l :
  heap_inv s G -> (forall g, g ∈ l -> g ∈ G /\ g_type g = t) -> (length l < fuel)%nat ->
  chain (fun p => next_samesize <$> refs s !! p) b (g_ref <$> l) ->
  find_page fuel s b t = Ok 0 \/ exists g, g ∈ l /\ find_page fuel s b t = Ok (g_ref g) /\ g_ref g <> 0 /\ g_free g <> [].
Proof.
  intros Inv Hl. revert fuel b. induction l as [ | g l IH]; intros fuel b Hf Hc; destruct fuel as [ | fuel]; cbn in Hf; try lia.
  - cbn in Hc. subst b. by left.
  - cbn in Hc. destruct Hc as (-> & Hz & n & Hn & Hc). cbn [find_page]. rewrite (proj2 (Z.eqb_neq _ _)) by done.
    destruct (Hl g) as [Hg Ht]; [set_solver |]. destruct (page_ref s G g Inv Hg) as (r & Hr & _ & Hty & _ & Hnf & _).
    rewrite Hr in *. cbn [access rbind]. rewrite Hty, Ht, Z.eqb_refl. cbn [kassert]. cbn in Hn. injection Hn as <-.
    rewrite Hnf. destruct (g_free g) as [ | a f] eqn:E.
    + cbn. destruct (IH ltac:(intros; apply Hl; set_solver) fuel (next_samesize r) ltac:(lia) Hc) as [-> | (g' & Hg' & -> & ? & ?)];
        [by left | right]. exists g'. split; [set_solver | done].
    + right. exists g. rewrite (proj2 (Z.ltb_lt _ _)) by (unfold zlen; cbn; lia). split; [set_solver |]. by rewrite E.
Qed.

Lemma find_holder_spec fuel s G b l ptr :
  heap_inv s G -> (forall g, g ∈ l -> g ∈ G) -> (length l < fuel)%nat ->
  chain (fun p => next_all <$> refs s !! p) b (g_ref <$> l) ->
  (find_holder fuel s b ptr = Ok 0 /\ forall g, g ∈ l -> ~ g_page g <= ptr < g_page g + PAGE_SIZE) \/
  exists g, g ∈ l /\ find_holder fuel s b ptr = Ok (g_ref g) /\ g_ref g <> 0 /\ g_page g <= ptr < g_page g + PAGE_SIZE.
Proof.
  intros Inv Hl. revert fuel b. induction l as [ | g l IH]; intros fuel b Hf Hc; destruct fuel as [ | fuel]; cbn in Hf; try lia.
  - cbn in Hc. subst b. left. split; [done |]. intros g Hg. by apply elem_of_nil in Hg.
  - cbn in Hc. destruct Hc as (-> & Hz & n & Hn & Hc). cbn [find_holder]. rewrite (proj2 (Z.eqb_neq _ _)) by done.
    assert (Hg : g ∈ G) by (apply Hl; set_solver). destruct (page_ref s G g Inv Hg) as (r & Hr & Hpg & Hty & _).
    destruct (page_facts s G g Inv Hg) as (Ht & _). rewrite Hr in *. cbn [access rbind]. rewrite Hty, Hpg.
    rewrite (proj2 (Z.leb_le 0 _)), (proj2 (Z.ltb_lt _ NSIZES)) by (unfold NSIZES; lia). cbn [andb kassert].
    cbn in Hn. injection Hn as <-.
    destruct (Z.leb_spec (g_page g) ptr), (Z.ltb_spec ptr (g_page g + PAGE_SIZE)); cbn [andb];
      try (destruct (IH ltac:(intros; apply Hl; set_solver) fuel (next_all r) ltac:(lia) Hc) as [[-> Hno] | (g' & Hg' & -> & ? & ?)];
        [left; split; [done |]; intros g' [-> | Hg']%elem_of_cons; [lia | by apply Hno] | right; exists g'; split; [set_solver | done]]).
    right. exists g. split; [set_solver | done].
Qed.

(** ** Changing one page *)

Lemma other_entry {B} (f : pinfo -> B) G1 g G2 g' :
  NoDup (f <$> (G1 ++ g :: G2)) -> g' ∈ G1 ++ G2 -> f g' <> f g.
Proof.
  rewrite fmap_app, fmap_cons. intros [Hn _]%NoDup_middle Hg' E. apply Hn. rewrite <- E, <- fmap_app. by apply list_elem_of_fmap_2.
Qed.

Lemma elem_of_middle {B} (l1 l2 : list B) a b : b ∈ l1 ++ a :: l2 <-> b = a \/ b ∈ l1 ++ l2.
Proof. rewrite !elem_of_app, elem_of_cons. tauto. Qed.

Lemma same_size_middle G1 g G2 t :
  same_size (G1 ++ g :: G2) t = same_size G1 t ++ (if decide (g_type g = t) then [g] else []) ++ same_size G2 t.
Proof. unfold same_size. rewrite filter_app, filter_cons. by case_decide. Qed.

Lemma refs_set_free G1 g G2 l t :
  g_ref <$> (G1 ++ set_free g l :: G2) = g_ref <$> (G1 ++ g :: G2) /\
  g_page <$> (G1 ++ set_free g l :: G2) = g_page <$> (G1 ++ g :: G2) /\
  g_ref <$> same_size (G1 ++ set_free g l :: G2) t = g_ref <$> same_size (G1 ++ g :: G2) t.
Proof.
  rewrite !same_size_middle, !fmap_app. cbn [g_type set_free]. split; [done |]. split; [done |]. by case_decide.
Qed.

(** Entries after the change: the changed one, or an old one elsewhere. *)
Lemma heap_inv_update s G1 g G2 r r' w' l :
  heap_inv s (G1 ++ g :: G2) -> refs s !! g_ref g = Some r ->
  next_samesize r' = next_samesize r -> next_all r' = next_all r ->
  page_ok w' (<[g_ref g := r']> (refs s)) (set_free g l) ->
  (forall a, ~ g_page g <= a < g_page g + PAGE_SIZE -> w' a = words s a) ->
  heap_inv (with_refs (with_words s w') (<[g_ref g := r']> (refs s))) (G1 ++ set_free g l :: G2).
Proof.
  intros Inv Hr Hs Ha Hok Hw. pose proof Inv as [P R Al L Sa Ok Nd Np Ow Rf Ap].
  assert (Hin : forall g', g' ∈ G1 ++ set_free g l :: G2 -> g' = set_free g l \/
    (g' ∈ G1 ++ g :: G2 /\ g' ∈ G1 ++ G2)).
  { intros g' [-> | Hg']%elem_of_middle; [by left | right]. split; [apply elem_of_middle; by right | done]. }
  assert (Hg : g ∈ G1 ++ g :: G2) by (apply elem_of_middle; by left).
  destruct (refs_set_free G1 g G2 l 0) as (E1 & E2 & _).
  assert (Hnx : forall (f : pageref -> Z), f r' = f r -> forall p, f <$> <[g_ref g := r']> (refs s) !! p = f <$> refs s !! p).
  { intros f Hf p. destruct (decide (p = g_ref g)) as [-> | ]; [by rewrite lookup_insert_eq, Hr; cbn; rewrite Hf | by rewrite lookup_insert_ne by done]. }
  split; cbn [with_refs with_words pages kheaproots refs words allbase sizebases]; rewrite ?E1, ?E2; try done.
  - eapply chain_ext; [ | exact Al]. intros p _. by apply Hnx.
  - intros t b Hb. destruct (refs_set_free G1 g G2 l t) as (_ & _ & ->). eapply chain_ext; [ | by apply Sa].
    intros p _. by apply Hnx.
  - intros g' [-> | [Hg' Ho]]%Hin; [done |]. eapply page_ok_ext; [by apply Ok | |].
    + intros a Hb. apply Hw. destruct (page_facts _ _ g' Inv Hg') as (Ht & _).
      destruct (block_in_page _ _ Ht Hb) as (Hb1 & Hb2 & _). destruct (bsize_facts _ Ht) as (_ & Hbs & _).
      pose proof (pages_apart _ _ _ _ Inv Hg' Hg (other_entry g_page _ _ _ _ Np Ho)). lia.
    + intros r0 Hr0. exists r0. rewrite lookup_insert_ne; [done |]. symmetry. by apply (other_entry g_ref _ _ _ _ Nd).
  - intros g' [-> | [Hg' _]]%Hin; [by apply (Ow g) | by apply Ow].
  - intros g' [-> | [Hg' _]]%Hin; [by apply (Rf g) | by apply Rf].
  - intros g' w r0 [-> | [Hg' _]]%Hin; [by apply (Ap g) | by apply Ap].
Qed.

(** Blocks clients hold after such a change. *)
Lemma live_update s s' G1 g G2 l a n :
  owned (pages s') = owned (pages s) -> kheaproots s' = kheaproots s ->
  live s' (G1 ++ set_free g l :: G2) a n <->
  (a ∈ blocks g /\ a ∉ l /\ n = bsize (g_type g)) \/
  (exists g', g' ∈ G1 ++ G2 /\ a ∈ blocks g' /\ a ∉ g_free g' /\ n = bsize (g_type g')) \/
  (exists k, owned (pages s) !! a = Some k /\ n = k * PAGE_SIZE /\ (forall g', g' ∈ G1 ++ g :: G2 -> g_page g' <> a) /\
     forall w r, zget (kheaproots s) w = Some r -> page r <> a).
Proof.
  intros Ho Hr. unfold live. rewrite Ho, Hr.
  assert (Hpg : (forall g', g' ∈ G1 ++ set_free g l :: G2 -> g_page g' <> a) <-> (forall g', g' ∈ G1 ++ g :: G2 -> g_page g' <> a)).
  { setoid_rewrite elem_of_middle. split; intros Hall g' [-> | Hg']; try (apply Hall; by right).
    - apply (Hall (set_free g l)). by left.
    - apply (Hall g). by left. }
  setoid_rewrite Hpg. setoid_rewrite elem_of_middle. split.
  - intros [(g' & [-> | Hg'] & H1 & H2 & H3) | Hbig]; [by left | right; left; eauto | by right; right].
  - intros [(H1 & H2 & H3) | [(g' & Hg' & Hx) | Hbig]]; [left; exists (set_free g l); auto | left; exists g'; auto | by right].
Qed.

(** Taking the first free block of a page. *)
Lemma doalloc_spec s G1 g G2 a l :
  heap_inv s (G1 ++ g :: G2) -> g_free g = a :: l ->
  exists r', doalloc s (g_ref g) = Ok (with_refs s (<[g_ref g := r']> (refs s)), a) /\
    heap_inv (with_refs s (<[g_ref g := r']> (refs s))) (G1 ++ set_free g l :: G2).
Proof.
  intros Inv Hfree. assert (Hg : g ∈ G1 ++ g :: G2) by (apply elem_of_middle; by left).
  destruct (page_facts _ _ g Inv Hg) as (Ht & Hp0 & Hpm & Hp32).
  destruct (page_ref _ _ g Inv Hg) as (r & Hr & Hpg & Hty & Hpab & Hnf & Hoff). rewrite Hfree in *.
  pose proof (hi_ok _ _ Inv g Hg) as Hok. pose proof Hok as [_ _ C N B]. rewrite Hfree in *.
  assert (Hblk : forall b, b ∈ a :: l -> g_page g <= b < g_page g + PAGE_SIZE).
  { intros b Hb. destruct (block_in_page g b Ht (B b Hb)) as (H1 & H2 & _). destruct (bsize_facts _ Ht) as (_ & Hbs & _). lia. }
  pose proof (Hblk a ltac:(set_solver)) as Ha. pose proof (free_count g _ Ht N B) as Hcnt.
  destruct (bsize_facts _ Ht) as (_ & _ & _ & _ & Hnb & _). unfold PAGE_SIZE in *.
  unfold doalloc. rewrite Hr. cbn [access rbind]. rewrite Hoff, Hpg. unfold PAGE_SIZE.
  rewrite (proj2 (Z.ltb_lt _ _)) by lia. cbn [kassert]. replace (g_page g + (a - g_page g)) with a by lia.
  rewrite (u32_id a) by (unfold is_u32; lia). cbn in C. destruct C as (_ & _ & n & [= <-] & C).
  assert (Hu : u16 (nfree r - 1) = zlen l) by (rewrite Hnf; unfold zlen in *; cbn in *; unfold u16; rewrite Z.mod_small; lia).
  rewrite Hu. apply NoDup_cons in N as [Hal N].
  assert (Hfin : forall r', next_samesize r' = next_samesize r -> next_all r' = next_all r ->
    pageaddr_and_blocktype r' = MKPAB (g_page g) (g_type g) -> nfree r' = zlen l ->
    freelist_offset r' = match l with [] => INVALID_OFFSET | b :: _ => b - g_page g end ->
    heap_inv (with_refs s (<[g_ref g := r']> (refs s))) (G1 ++ set_free g l :: G2)).
  { intros r' H1 H2 H3 H4 H5. pose proof (heap_inv_update s G1 g G2 r r' (words s) l Inv Hr H1 H2) as Hup.
    destruct s. apply Hup; [ | done]. split; cbn [set_free g_ref g_page g_type g_free].
    - done.
    - exists r'. rewrite lookup_insert_eq. auto.
    - by rewrite <- (chain_head _ _ _ C).
    - done.
    - intros b Hb. apply B. set_solver. }
  pose proof (chain_head _ _ _ C) as Hhd. destruct l as [ | b l].
  - cbn in Hhd. rewrite Hhd. cbn. eexists. split; [reflexivity |]. by apply Hfin.
  - cbn in Hhd. rewrite Hhd. pose proof (Hblk b ltac:(set_solver)) as Hb.
    rewrite (proj2 (Z.eqb_neq b 0)) by lia. cbn [negb]. rewrite (proj2 (Z.ltb_lt 0 _)) by (unfold zlen; cbn; lia). cbn [kassert].
    rewrite u32_id by (unfold is_u32; lia). rewrite (proj2 (Z.ltb_lt _ _)) by lia. cbn [kassert].
    eexists. split; [reflexivity |]. apply Hfin; try done. cbn. unfold u16. rewrite Z.mod_small; lia.
Qed.

(** ** New pages *)

(** The heap only minds its own pages. *)
Lemma heap_inv_pages s G (P : S) :
  heap_inv s G -> pages_ok P -> (forall g, g ∈ G -> owned P !! g_page g = Some 1) ->
  (forall w r, zget (kheaproots s) w = Some r -> page r <> 0 -> owned P !! page r = Some 1) ->
  heap_inv (with_pages s P) G.
Proof.
  intros [Pk R Al L Sa Ok Nd Np Ow Rf Ap] HP Hg Hr. split; try done. destruct R as [Rl Re Rd Rp]. split; try done.
  intros w r H1. pose proof (Re w r H1) as [W C _]. split; eauto.
Qed.

Lemma heap_inv_take s s' G p : heap_inv s G -> took_ref s s' p -> heap_inv s' G.
Proof.
  intros [Pk R Al L Sa Ok Nd Np Ow Rf Ap] [(E1 & E2 & E3 & E4) Tp To Tr Tg Tn _].
  split; rewrite ?E1, ?E2, ?E3, ?E4; try done.
  - intros g Hg. destruct To as [-> | (va & _ & _ & Hn & -> & _)]; [auto |]. rewrite lookup_insert_ne; [auto |].
    intros ->. rewrite Ow in Hn; done.
  - intros g Hg. destruct (Rf g Hg) as (w & j & Hat). exists w, j. by eapply ref_at_mono.
  - intros g w r Hg Hr E. assert (page r <> 0) as Hz.
    { rewrite E. pose proof (pl_run _ _ _ Pk (Ow g Hg)). lia. }
    destruct (Tn w r Hr Hz) as [(r0 & Hr0 & E0) | [Hn _]]; [apply (Ap g w r0 Hg Hr0); congruence |].
    rewrite E, Ow in Hn; done.
Qed.

Lemma live_take s s' G p a n : heap_inv s G -> took_ref s s' p -> live s' G a n <-> live s G a n.
Proof.
  intros Inv [(E1 & E2 & E3 & E4) Tp To Tr Tg Tn _]. pose proof (hi_pages _ _ Inv) as HP. unfold live. split; (intros [Hs | (k & Hk & -> & Hg & Hr)]; [by left | right]); exists k.
  - destruct To as [To | (va & w & r & Hn & To & Hw & Hv)]; rewrite To in Hk.
    + split; [done |]. split; [done |]. split; [done |]. intros w r Hwr E.
      destruct (Tg w r Hwr) as (r' & Hr' & Hpg & _). apply (Hr w r' Hr'). rewrite Hpg; [done |].
      rewrite E. pose proof (pl_run _ _ _ HP Hk). lia.
    + apply lookup_insert_Some in Hk as [[<- <-] | [Hne Hk]]; [exfalso; by apply (Hr w r) |].
      split; [done |]. split; [done |]. split; [done |]. intros w1 r1 Hwr E.
      destruct (Tg w1 r1 Hwr) as (r' & Hr' & Hpg & _). apply (Hr w1 r' Hr'). rewrite Hpg; [done |].
      rewrite E. pose proof (pl_run _ _ _ HP Hk). lia.
  - split.
    { destruct To as [-> | (va & w & r & Hn & -> & _)]; [done |]. rewrite lookup_insert_ne; [done |]. congruence. }
    split; [done |]. split; [done |]. intros w r Hwr E. assert (page r <> 0) as Hz.
    { rewrite E. pose proof (pl_run _ _ _ HP Hk). lia. }
    destruct (Tn w r Hwr Hz) as [(r0 & Hr0 & E0) | [Hn _]]; [apply (Hr w r0 Hr0) |]; congruence.
Qed.

(** A page that has just been chained up, with its pageref, joins the heap. *)
Lemma heap_inv_add s G g r sb b w' :
  heap_inv s G -> owned (pages s) !! g_page g = Some 1 ->
  (forall g', g' ∈ G -> g_page g' <> g_page g /\ g_ref g' <> g_ref g) ->
  (forall w r, zget (kheaproots s) w = Some r -> page r <> g_page g) ->
  (exists w j, ref_at (kheaproots s) (g_ref g) w j) -> g_ref g <> 0 ->
  zget (sizebases s) (g_type g) = Some b -> zput (sizebases s) (g_type g) (g_ref g) = Some sb ->
  next_samesize r = b -> next_all r = allbase s ->
  page_ok w' (<[g_ref g := r]> (refs s)) g ->
  (forall a, ~ g_page g <= a < g_page g + PAGE_SIZE -> w' a = words s a) ->
  heap_inv (with_lists (with_refs (with_words s w') (<[g_ref g := r]> (refs s))) sb (g_ref g)) (g :: G).
Proof.
  intros Inv Ho Hfresh Hroots Hat Hz Hb Hsb Hnb Hna Hok Hw. pose proof Inv as [P R Al L Sa Ok Nd Np Ow Rf Ap].
  assert (Hnx : forall (f : pageref -> Z) (l : list pinfo), (forall g', g' ∈ l -> g' ∈ G) -> forall p, p ∈ g_ref <$> l ->
    f <$> <[g_ref g := r]> (refs s) !! p = f <$> refs s !! p).
  { intros f l Hl p (g' & -> & Hg')%list_elem_of_fmap. rewrite lookup_insert_ne; [done |].
    symmetry. apply Hfresh. auto. }
  split; cbn [with_lists with_refs with_words pages kheaproots refs words allbase sizebases]; try done.
  - cbn. split; [done |]. split; [done |]. exists (allbase s). rewrite lookup_insert_eq. cbn. split; [by rewrite Hna |].
    eapply chain_ext; [ | exact Al]. intros p Hp. by apply (Hnx next_all G).
  - by rewrite (zput_length _ _ _ _ Hsb).
  - intros t b'. rewrite (zget_zput _ _ t _ _ Hsb). unfold same_size. rewrite filter_cons.
    intros Hb'. destruct (decide (t = g_type g)) as [-> | E].
    + injection Hb' as <-. rewrite decide_True by done. cbn. split; [done |]. split; [done |]. exists b.
      rewrite lookup_insert_eq. cbn. split; [by rewrite Hnb |].
      eapply chain_ext; [ | by apply Sa]. intros p Hp. apply (Hnx next_samesize (same_size G (g_type g))); [ | done].
      by intros g' [? _]%same_size_sub.
    + rewrite decide_False by done. eapply chain_ext; [ | by apply Sa]. intros p Hp.
      apply (Hnx next_samesize (same_size G t)); [ | done]. by intros g' [? _]%same_size_sub.
  - intros g' [-> | Hg']%elem_of_cons; [done |]. eapply page_ok_ext; [by apply Ok | |].
    + intros a Ha. apply Hw. destruct (page_facts _ _ g' Inv Hg') as (Ht & _).
      destruct (block_in_page _ _ Ht Ha) as (Hb1 & Hb2 & _). destruct (bsize_facts _ Ht) as (_ & Hbs & _).
      destruct (pl_apart _ _ 1 _ 1 P (Ow g' Hg') Ho (proj1 (Hfresh g' Hg'))); lia.
    + intros r0 Hr0. exists r0. rewrite lookup_insert_ne; [done |]. symmetry. apply (Hfresh g' Hg').
  - cbn. apply NoDup_cons. split; [ | done]. intros (g' & E & Hg')%list_elem_of_fmap. destruct (Hfresh g' Hg'); congruence.
  - cbn. apply NoDup_cons. split; [ | done]. intros (g' & E & Hg')%list_elem_of_fmap. destruct (Hfresh g' Hg'); congruence.
  - intros g' [-> | Hg']%elem_of_cons; auto.
  - intros g' [-> | Hg']%elem_of_cons; auto.
  - intros g' w r0 [-> | Hg']%elem_of_cons; [apply Hroots | by apply Ap].
Qed.

(** ** The blocks clients hold *)

(** Every live block lies in a run of pages that is owned. *)
Lemma live_run s G a n :
  heap_inv s G -> live s G a n ->
  exists b k, owned (pages s) !! b = Some k /\ b <= a /\ a + n <= b + k * PAGE_SIZE /\ 16 <= n /\ a mod 16 = 0 /\
    ((exists g, g ∈ G /\ b = g_page g /\ a ∈ blocks g /\ a ∉ g_free g /\ n = bsize (g_type g)) \/
     (b = a /\ forall g, g ∈ G -> g_page g <> a)).
Proof.
  intros Inv [(g & Hg & Hb & Hf & ->) | (k & Hk & -> & Hg & Hr)].
  - exists (g_page g), 1. destruct (page_facts s G g Inv Hg) as (Ht & H1 & H2 & H3).
    destruct (block_in_page g a Ht Hb) as (H4 & H5 & H6). destruct (bsize_facts _ Ht) as (_ & Hbs & Hm & _).
    split; [by apply (hi_owned _ _ Inv) |]. split; [done |]. split; [lia |]. split; [lia |]. split.
    + apply elem_of_blocks in Hb as (i & _ & ->). unfold PAGE_SIZE in H2. rewrite Z.add_mod, Z.mul_mod, Hm by lia.
      rewrite Z.mul_0_r. cbn. div_lia.
    + left. by exists g.
  - exists a, k. destruct (pl_run _ _ _ (hi_pages _ _ Inv) Hk) as (H1 & H2 & H3 & H4). unfold PAGE_SIZE in *.
    split; [done |]. split; [lia |]. split; [lia |]. split; [lia |]. split; [div_lia |]. by right.
Qed.

Lemma page_of_run s G g b k :
  heap_inv s G -> g ∈ G -> owned (pages s) !! b = Some k -> b <> g_page g ->
  g_page g + PAGE_SIZE <= b \/ b + k * PAGE_SIZE <= g_page g.
Proof.
  intros Inv Hg Hb Hne. destruct (pl_apart _ _ _ _ _ (hi_pages _ _ Inv) Hb (hi_owned _ _ Inv g Hg) Hne); lia.
Qed.

Lemma live_in_page s G g a n :
  heap_inv s G -> g ∈ G -> live s G a n -> g_page g <= a < g_page g + PAGE_SIZE ->
  a ∈ blocks g /\ a ∉ g_free g /\ n = bsize (g_type g).
Proof.
  intros Inv Hg Hl Ha. destruct (live_run s G a n Inv Hl) as (b & k & Hb & Hlo & Hhi & Hn & _ & Hwhich).
  destruct (decide (b = g_page g)) as [-> | Hne].
  - destruct Hwhich as [(g' & Hg' & Hp & Hx) | [Heq Hno]]; [ | exfalso; by apply (Hno g)].
    assert (g' = g) as ->; [ | done]. by apply (NoDup_fmap_inj g_page G g' g (hi_pgs _ _ Inv)).
  - destruct (page_of_run s G g b k Inv Hg Hb Hne); lia.
Qed.

Lemma live_disjoint s G a n b m :
  heap_inv s G -> live s G a n -> live s G b m -> a <> b -> a + n <= b \/ b + m <= a.
Proof.
  intros Inv Ha Hb Hne. destruct (live_run _ _ _ _ Inv Ha) as (x & k & Hx & Hx1 & Hx2 & Hx3 & _ & Hwx).
  destruct (live_run _ _ _ _ Inv Hb) as (y & l & Hy & Hy1 & Hy2 & Hy3 & _ & Hwy).
  destruct (decide (x = y)) as [<- | Hxy].
  - destruct Hwx as [(g & Hg & Hp & Hblk & _ & ->) | [-> Hno]], Hwy as [(g' & Hg' & Hp' & Hblk' & _ & ->) | [-> Hno']]; try done.
    + assert (b ∈ blocks g /\ b ∉ g_free g /\ bsize (g_type g') = bsize (g_type g)) as (Hblk2 & _ & Hbs).
      { apply (live_in_page s G); try done. rewrite <- Hp. destruct (page_facts s G g' Inv Hg') as (Ht' & _).
        destruct (block_in_page g' b Ht' Hblk') as (? & ? & _). rewrite <- Hp' in *.
        destruct (bsize_facts _ Ht') as (_ & ? & _). lia. }
      rewrite Hbs. apply (blocks_apart g); try done. by destruct (page_facts s G g Inv Hg).
    + exfalso. by apply (Hno' g).
    + exfalso. by apply (Hno g').
  - destruct (pl_apart _ _ _ _ _ (hi_pages _ _ Inv) Hx Hy Hxy) as [Hc | Hc]; lia.
Qed.

(** What a client sees of an allocation: the blocks it held are still there
    with their contents, and there is a new one. *)
Definition kept s G s' : Prop := forall a n x, live s G a n -> a <= x < a + n -> words s' x = words s x.

Record allocated s G s' G' (p n : Z) : Prop := {
  al_inv : heap_inv s' G';
  al_live : forall a m, live s' G' a m <-> live s G a m \/ (a = p /\ m = n);
  al_fresh : forall m, ~ live s G p m;
  al_kept : kept s G s'
}.

Lemma blocktype_spec sz :
  0 <= sz <= 2048 -> exists t, blocktype sz = Ok t /\ 0 <= t < 8 /\ sz <= bsize t /\ (0 < t -> bsize (t - 1) < sz).
Proof.
  intros Hsz. unfold blocktype. cbn [blocktype_from sizes].
  repeat (match goal with |- context [if sz <=? ?b then _ else _] => destruct (Z.leb_spec sz b) end;
    [eexists; split; [reflexivity |];
     repeat match goal with |- context [bsize ?t] => let v := eval vm_compute in (bsize t) in change (bsize t) with v end; lia |]). lia.
Qed.

(** Taking a block from a page that has one. *)
Lemma doalloc_allocated s G g a l :
  heap_inv s G -> g ∈ G -> g_free g = a :: l ->
  exists s' G', doalloc s (g_ref g) = Ok (s', a) /\ allocated s G s' G' a (bsize (g_type g)) /\ kheaproots s' = kheaproots s /\
    a <> 0.
Proof.
  intros Inv Hg Hf. destruct (list_elem_of_split _ _ Hg) as (G1 & G2 & ->).
  destruct (doalloc_spec s G1 g G2 a l Inv Hf) as (r' & E & Inv').
  exists (with_refs s (<[g_ref g := r']> (refs s))), (G1 ++ set_free g l :: G2). split; [done |].
  destruct (page_facts _ _ g Inv Hg) as (Ht & Hp & _). pose proof (hi_ok _ _ Inv g Hg) as [_ _ C N B]. rewrite Hf in *.
  assert (Ha : a ∈ blocks g) by (apply B; set_solver). destruct (block_in_page g a Ht Ha) as (H1 & H2 & _).
  destruct (bsize_facts _ Ht) as (_ & Hbs & _). apply NoDup_cons in N as [Hal N].
  split; [ | split; [done | lia]]. split.
  - done.
  - intros b m. rewrite (live_update s); [ | done | done]. unfold live. split.
    + intros [(Hb & Hbl & ->) | [(g' & Hg' & Hx) | Hbig]].
      * destruct (decide (b = a)) as [-> | Hne]; [by right | left; left]. exists g. rewrite Hf.
        split; [done |]. split; [done |]. split; [set_solver | done].
      * left; left. exists g'. split; [apply elem_of_middle; by right | done].
      * left; by right.
    + intros [[(g' & [-> | Hg']%elem_of_middle & Hb & Hbf & ->) | Hbig] | [-> ->]].
      * left. rewrite Hf in Hbf. split; [done |]. split; [set_solver | done].
      * right; left. by exists g'.
      * by right; right.
      * by left.
  - intros m Hl. destruct (live_in_page _ _ g a m Inv Hg Hl) as (_ & Hn & _); [lia |]. apply Hn. rewrite Hf. set_solver.
  - done.
Qed.

(** ** Owning and giving up runs of pages *)

Lemma live_own s G (P : S) a0 k a n :
  heap_inv s G -> owned (pages s) !! a0 = None -> owned P = <[a0 := k]> (owned (pages s)) ->
  (forall w r, zget (kheaproots s) w = Some r -> page r <> a0) ->
  live (with_pages s P) G a n <-> live s G a n \/ (a = a0 /\ n = k * PAGE_SIZE).
Proof.
  intros Inv Hn Ho Hr. unfold live. cbn [with_pages pages kheaproots]. rewrite Ho.
  assert (Hg : forall g, g ∈ G -> g_page g <> a0) by (intros g Hg <-; rewrite (hi_owned _ _ Inv g Hg) in Hn; done).
  split.
  - intros [Hs | (m & [[<- <-] | [Hne Hm]]%lookup_insert_Some & -> & H1 & H2)]; [left; by left | by right | left; right; eauto].
  - intros [[Hs | (m & Hm & -> & H1 & H2)] | [-> ->]]; [by left | right | right].
    + exists m. rewrite lookup_insert_ne by congruence. auto.
    + exists k. rewrite lookup_insert_eq. auto.
Qed.

Lemma live_disown s G (P : S) a0 k a n :
  heap_inv s G -> owned (pages s) !! a0 = Some k -> owned P = delete a0 (owned (pages s)) ->
  (forall g, g ∈ G -> g_page g <> a0) ->
  live (with_pages s P) G a n <-> live s G a n /\ a <> a0.
Proof.
  intros Inv Hk Ho Hg. unfold live. cbn [with_pages pages kheaproots]. rewrite Ho. split.
  - intros [(g & Hin & Hb & Hf & ->) | (m & [Hne Hm]%lookup_delete_Some & -> & H1 & H2)]; [ | split; [right; eauto | done]].
    split; [left; by exists g |]. intros ->. destruct (page_facts s G g Inv Hin) as (Ht & _).
    destruct (block_in_page g a0 Ht Hb) as (? & ? & _). destruct (bsize_facts _ Ht) as (_ & ? & _).
    destruct (pl_run _ _ _ (hi_pages _ _ Inv) Hk) as (_ & _ & ? & _).
    pose proof (Hg g Hin). destruct (page_of_run s G g a0 k Inv Hin Hk); [done | lia | unfold PAGE_SIZE in *; nia].
  - intros [[Hs | (m & Hm & -> & H1 & H2)] Hne]; [by left | right]. exists m. rewrite lookup_delete_ne by done. auto.
Qed.

Lemma heap_inv_own s G (P : S) a0 k :
  heap_inv s G -> pages_ok P -> owned (pages s) !! a0 = None -> owned P = <[a0 := k]> (owned (pages s)) ->
  heap_inv (with_pages s P) G.
Proof.
  intros Inv HP Hn Ho. apply heap_inv_pages; try done; rewrite Ho.
  - intros g Hg. pose proof (hi_owned _ _ Inv g Hg). rewrite lookup_insert_ne by congruence. done.
  - intros w r Hr Hz. pose proof (rt_page _ _ (ro_each _ _ (hi_roots _ _ Inv) _ _ Hr) Hz).
    rewrite lookup_insert_ne by congruence. done.
Qed.

Lemma heap_inv_disown s G (P : S) a0 :
  heap_inv s G -> pages_ok P -> owned P = delete a0 (owned (pages s)) ->
  (forall g, g ∈ G -> g_page g <> a0) -> (forall w r, zget (kheaproots s) w = Some r -> page r <> a0) ->
  heap_inv (with_pages s P) G.
Proof.
  intros Inv HP Ho Hg Hr. apply heap_inv_pages; try done; rewrite Ho.
  - intros g Hin. rewrite lookup_delete_ne by (symmetry; by apply Hg). by apply (hi_owned _ _ Inv).
  - intros w r Hw Hz. rewrite lookup_delete_ne by (symmetry; by apply (Hr w)).
    by apply (rt_page _ _ (ro_each _ _ (hi_roots _ _ Inv) _ _ Hw)).
Qed.

(** A run that is not owned is no root's page. *)
Lemma root_owned s G w r a :
  heap_inv s G -> zget (kheaproots s) w = Some r -> a <> 0 -> owned (pages s) !! a = None -> page r <> a.
Proof.
  intros Inv Hr Hz Hn E. rewrite <- E in *. pose proof (rt_page _ _ (ro_each _ _ (hi_roots _ _ Inv) _ _ Hr) Hz). congruence.
Qed.

(** ** A fresh page *)

(** Writing to a page that was not owned touches no live block. *)
Lemma live_outside s G (P : S) a0 a n x :
  heap_inv s G -> pages_ok P -> owned (pages s) !! a0 = None -> owned P = <[a0 := 1]> (owned (pages s)) ->
  live s G a n -> a <= x < a + n -> ~ a0 <= x < a0 + PAGE_SIZE.
Proof.
  intros Inv HP Hn Ho Hl Hx Hin. destruct (live_run s G a n Inv Hl) as (b & k & Hb & Hlo & Hhi & _).
  assert (Hne : b <> a0) by congruence.
  destruct (pl_apart P b k a0 1 HP) as [Hc | Hc]; [ | | done | lia | lia]; rewrite Ho.
  - by rewrite lookup_insert_ne by done.
  - apply lookup_insert_eq.
Qed.

Lemma fresh_page_ok s pr prpage t r :
  0 <= t < 8 -> 0 < prpage ->
  pageaddr_and_blocktype r = MKPAB prpage t -> nfree r = nblocks t -> freelist_offset r = (nblocks t - 1) * bsize t ->
  let w := chain_blocks (Z.to_nat (nblocks t - 1)) (poke (words s) prpage 0) prpage (bsize t) 1 in
  page_ok w (<[pr := r]> (refs s)) (mkPinfo pr prpage t (down (Z.to_nat (nblocks t)) prpage (bsize t))) /\
  forall a, ~ prpage <= a < prpage + PAGE_SIZE -> w a = words s a.
Proof.
  intros Ht Hp E1 E2 E3 w. destruct (bsize_facts _ Ht) as (_ & Hb & _ & Hnb & Hn & _).
  destruct (chain_blocks_spec (Z.to_nat (nblocks t - 1)) (poke (words s) prpage 0) prpage (bsize t) 1) as [Hw1 Hw2]; [lia |].
  rewrite Z2Nat.id in * by lia. fold w in Hw1, Hw2.
  assert (Hdown : exists a l, down (Z.to_nat (nblocks t)) prpage (bsize t) = a :: l /\ a = prpage + (nblocks t - 1) * bsize t).
  { destruct (Z.to_nat (nblocks t)) as [ | k] eqn:E; [lia |]. eexists _, _. split; [reflexivity |]. f_equal. lia. }
  destruct Hdown as (a0 & l0 & Hd & Ha0). split.
  - split; cbn [g_ref g_page g_type g_free].
    + done.
    + exists r. rewrite lookup_insert_eq, length_down, Z2Nat.id, Hd by lia. split; [done |]. split; [done |]. split; [done |]. lia.
    + replace (hd 0 (down (Z.to_nat (nblocks t)) prpage (bsize t))) with (prpage + (Z.of_nat (Z.to_nat (nblocks t)) - 1) * bsize t)
        by (rewrite Hd; cbn; lia).
      apply chain_down; [done | lia | lia | |].
      * rewrite Hw2 by nia. unfold poke. by rewrite Z.eqb_refl.
      * intros m Hm. apply Hw1. lia.
    + apply NoDup_down. lia.
    + intros a (m & Hm & ->)%elem_of_down. apply elem_of_blocks. exists m. cbn. split; [lia | done].
  - intros a Ha. rewrite Hw2 by (intros m Hm ->; apply Ha; nia). unfold poke.
    destruct (Z.eqb_spec a prpage); [lia | done].
Qed.

(** A page [prpage] that has just been obtained, before and after a pageref
    has been found for it. *)
Lemma fresh_unused s G (P : S) s2 pr prpage :
  heap_inv s G -> pages_ok P -> prpage <> 0 -> owned (pages s) !! prpage = None -> owned P = <[prpage := 1]> (owned (pages s)) ->
  took_ref (with_pages s P) s2 pr ->
  heap_inv (with_pages s P) G /\ heap_inv s2 G /\ owned (pages s2) !! prpage = Some 1 /\
  (forall w r, zget (kheaproots s2) w = Some r -> page r <> prpage) /\
  (forall a n, live s2 G a n <-> live s G a n \/ (a = prpage /\ n = PAGE_SIZE)).
Proof.
  intros Inv HP Hz Hn Ho T. assert (Inv1 : heap_inv (with_pages s P) G) by (by eapply heap_inv_own).
  pose proof (heap_inv_take _ _ _ _ Inv1 T) as Inv2.
  assert (Hroot1 : forall w r, zget (kheaproots s) w = Some r -> page r <> prpage) by (intros w r Hw; exact (root_owned s G w r prpage Inv Hw Hz Hn)).
  assert (Hown1 : owned P !! prpage = Some 1) by (rewrite Ho; apply lookup_insert_eq).
  split; [done |]. split; [done |]. split; [ | split].
  - destruct (tr_owned _ _ _ T) as [-> | (va & w & r & Hva & -> & _)]; [done |]. cbn in *.
    rewrite lookup_insert_ne; [done |]. congruence.
  - intros w r Hr E. destruct (tr_new _ _ _ T w r Hr) as [(r0 & Hr0 & E0) | [Hnew _]]; [congruence | |].
    + apply (Hroot1 w r0 Hr0). congruence.
    + cbn in Hnew. congruence.
  - intros a n. rewrite (live_take _ _ _ _ _ _ Inv1 T), (live_own s G P prpage 1) by done. by rewrite Z.mul_1_l.
Qed.

Lemma took_ref_fresh s s2 G pr g : heap_inv s G -> took_ref s s2 pr -> pr <> 0 -> g ∈ G -> g_ref g <> pr.
Proof.
  intros Inv T Hz Hg E. destruct (tr_ref _ _ _ T) as [ | (_ & _ & Hno)]; [done |].
  destruct (hi_ref _ _ Inv g Hg) as (w & j & Hat). rewrite E in Hat. by apply (Hno w j).
Qed.

Lemma subpage_kmalloc_spec s G sz :
  heap_inv s G -> healthy (kheaproots s) -> 0 <= sz < 2048 ->
  exists s' p t, subpage_kmalloc s sz = Ok (s', p) /\ blocktype sz = Ok t /\ 0 <= t < 8 /\
    (p = 0 /\ heap_inv s' G /\ (forall a n, live s' G a n <-> live s G a n) /\ kept s G s' \/
     p <> 0 /\ healthy (kheaproots s') /\ exists G', allocated s G s' G' p (bsize t)).
Proof.
  intros Inv Hh Hsz. destruct (blocktype_spec sz) as (t & Hbt & Ht & _); [lia |].
  unfold subpage_kmalloc. rewrite Hbt. cbn [rbind].
  destruct (zget_lt (sizebases s) t) as [b Hb]; [rewrite (hi_len _ _ Inv); lia |]. rewrite Hb. cbn [access rbind].
  destruct (find_page_spec (list_fuel s) s G t b (same_size G t)) as [-> | (g & Hg & -> & Hgz & Hgf)].
  { done. }
  { intros g. apply same_size_sub. }
  { pose proof (heap_fuel s G Inv). pose proof (length_filter (fun g => g_type g = t) G). unfold same_size. lia. }
  { by apply (hi_same _ _ Inv). }
  2: { cbn [rbind]. rewrite (proj2 (Z.eqb_neq _ _)) by done. cbn [negb]. apply same_size_sub in Hg as [Hg Hty].
    destruct (g_free g) as [ | a l] eqn:Hf; [done |].
    destruct (doalloc_allocated s G g a l Inv Hg Hf) as (s' & G' & -> & Hal & Hr & Hz). exists s', a, t.
    split; [done |]. split; [done |]. split; [done |]. right. rewrite Hty in Hal. rewrite Hr. eauto. }
  cbn [rbind negb Z.eqb]. destruct (pl_one _ (hi_pages _ _ Inv)) as [[P prpage] HP1]. rewrite HP1. cbn [rbind].
  destruct (pl_alloc (pages s) 1 P prpage (hi_pages _ _ Inv) ltac:(lia) HP1) as (HP & [[-> Ho] | (Hz & Hn & Ho)]).
  { cbn. exists (with_pages s P), 0, t. split; [done |]. split; [done |]. split; [done |]. left.
    split; [done |]. split; [ | split; [ | done]].
    - apply heap_inv_pages; try done; rewrite Ho; [by apply (hi_owned _ _ Inv) |].
      intros w r Hr. by apply (rt_page _ _ (ro_each _ _ (hi_roots _ _ Inv) _ _ Hr)).
    - intros a n. unfold live. cbn. by rewrite Ho. }
  rewrite (proj2 (Z.eqb_neq prpage 0)) by done.
  assert (Hown1 : owned P !! prpage = Some 1) by (rewrite Ho; apply lookup_insert_eq).
  destruct (pl_run P prpage 1 HP Hown1) as (Hpos & Hal & _). rewrite Hal. cbn [kassert Z.eqb].
  assert (Inv1 : heap_inv (with_pages s P) G) by (by eapply heap_inv_own).
  destruct (allocpageref_spec (with_pages s P)) as (s2 & pr & -> & T); [done | apply (hi_roots _ _ Inv1) | done |].
  cbn [rbind]. destruct (fresh_unused s G P s2 pr prpage Inv HP Hz Hn Ho T) as (_ & Inv2 & Hown2 & Hroot2 & Hlive2).
  destruct (tr_same _ _ _ T) as (E1 & E2 & E3 & E4). cbn in E1, E2, E3, E4.
  assert (Hgp : forall g, g ∈ G -> g_page g <> prpage).
  { intros g Hg <-. rewrite (hi_owned _ _ Inv g Hg) in Hn. done. }
  destruct (Z.eqb_spec pr 0) as [-> | Hprz].
  - destruct (pl_free _ _ _ (hi_pages _ _ Inv2) Hown2) as (P3 & -> & HP3 & Ho3). cbn [rbind].
    exists (with_pages s2 P3), 0, t. split; [done |]. split; [done |]. split; [done |]. left. split; [done |]. split; [ | split].
    + by eapply heap_inv_disown.
    + intros a n. rewrite (live_disown s2 G P3 prpage 1), Hlive2 by done. split; [intros [[ | [-> _]] ?]; done |].
      intros Hl. split; [by left |]. intros ->.
      destruct (live_run s G prpage n Inv Hl) as (b0 & k & Hb0 & H1 & H2 & H3 & _ & Hw).
      assert (b0 <> prpage) by congruence.
      destruct (pl_apart P b0 k prpage 1 HP) as [Hc | Hc]; try done; rewrite ?Ho; [by rewrite lookup_insert_ne by done | lia |].
      unfold PAGE_SIZE in *. lia.
    + intros a n x _ _. cbn. by rewrite E1.
  - destruct (bsize_facts _ Ht) as (Hget & Hbs & _ & Hnb & Hnn & _). rewrite Hget. cbn [access rbind].
    rewrite E3, Hb. cbn [access rbind].
    destruct (zput_lt (sizebases s) t pr) as [sb Hsb]; [by eapply zget_Some |]. rewrite Hsb. cbn [access rbind].
    change (PAGE_SIZE / bsize t) with (nblocks t).
    set (r := mkRef b (allbase s2) (MKPAB prpage t) ((nblocks t - 1) * bsize t) (nblocks t)).
    set (g := mkPinfo pr prpage t (down (Z.to_nat (nblocks t)) prpage (bsize t))).
    destruct (fresh_page_ok s2 pr prpage t r Ht Hpos eq_refl eq_refl eq_refl) as [Hok Hw].
    set (w3 := chain_blocks _ _ _ _ _) in *.
    assert (Inv3 : heap_inv (with_lists (with_refs (with_words s2 w3) (<[pr := r]> (refs s2))) sb pr) (g :: G)).
    { destruct (tr_ref _ _ _ T) as [ | (_ & Hat & _)]; [done |].
      apply (heap_inv_add s2 G g r sb b w3); try done.
      - intros g' Hg'. split; [by apply Hgp | by apply (took_ref_fresh _ _ _ _ _ Inv1 T)].
      - by rewrite E3.
      - by rewrite E3. }
    set (s3 := with_lists _ _ _) in *.
    assert (Hlive3 : forall a n, live s3 (g :: G) a n <-> live s G a n).
    { intros a n. assert (Hbig : live s3 (g :: G) a n <-> live s2 G a n /\ a <> prpage).
      { unfold live. cbn [s3 with_lists with_refs with_words pages kheaproots]. setoid_rewrite elem_of_cons. split.
        - intros [(g' & [-> | Hg'] & Hbl & Hf & ->) | (k & Hk & -> & H1 & H2)].
          + exfalso. apply Hf. apply elem_of_blocks in Hbl as (m & Hm & ->). apply elem_of_down. exists m. cbn in *. split; [lia | done].
          + split; [left; by exists g' |]. intros ->. destruct (page_facts _ _ g' Inv2 Hg') as (Ht' & _).
            destruct (block_in_page g' _ Ht' Hbl) as (? & ? & _). destruct (bsize_facts _ Ht') as (_ & ? & _).
            pose proof (Hgp g' Hg'). destruct (page_of_run s2 G g' prpage 1 Inv2 Hg' Hown2); [done | lia | unfold PAGE_SIZE in *; lia].
          + split; [ | intros ->; by apply (H1 g); [left |]]. right. exists k. split; [done |]. split; [done |].
            split; [ | done]. intros g' Hg'. apply H1. by right.
        - intros [[(g' & Hg' & Hx) | (k & Hk & -> & H1 & H2)] Hne]; [left; exists g'; auto | right; exists k].
          split; [done |]. split; [done |]. split; [ | done]. intros g' [-> | Hg']; [by cbn | by apply H1]. }
      rewrite Hbig, Hlive2. split; [by intros [[ | [-> _]] ?] |]. intros Hl. split; [by left |]. intros ->.
      assert (16 <= n) by (by destruct (live_run s G prpage n Inv Hl) as (? & ? & _ & _ & _ & ? & _)).
      apply (live_outside s G P prpage prpage n prpage Inv HP Hn Ho Hl); unfold PAGE_SIZE; lia. }
    assert (Hdn : exists a l, g_free g = a :: l).
    { unfold g. cbn. destruct (Z.to_nat (nblocks t)) eqn:E; [lia |]. by eexists _, _. }
    destruct Hdn as (a & l & Hf).
    destruct (doalloc_allocated s3 (g :: G) g a l Inv3 ltac:(set_solver) Hf) as (s4 & G4 & E & [A1 A2 A3 A4] & Hr4 & Haz).
    cbn [g g_ref g_type] in E, A2. rewrite E. exists s4, a, t. split; [done |]. split; [done |]. split; [done |]. right.
    split; [done |]. split.
    { rewrite Hr4. destruct (tr_ref _ _ _ T) as [ | (Hh2 & _)]; done. }
    exists G4. split.
    + done.
    + intros a' m. by rewrite A2, Hlive3.
    + intros m Hl. apply (A3 m). by apply Hlive3.
    + intros a' m x Hl Hx. rewrite (A4 a' m x) by (done || by apply Hlive3). cbn.
      rewrite Hw by (by apply (live_outside s G P prpage a' m x Inv HP Hn Ho)). by rewrite E1.
Qed.

(** ** Giving a page back *)

(** Unlinking changes no field but the links. *)
Definition same_but_links (m m' : gmap Z pageref) : Prop :=
  forall q r, m !! q = Some r -> exists r', m' !! q = Some r' /\
    pageaddr_and_blocktype r' = pageaddr_and_blocktype r /\ nfree r' = nfree r /\ freelist_offset r' = freelist_offset r.

Lemma unlink_same (next : pageref -> Z) (set : pageref -> Z -> pageref) (m m' : gmap Z pageref) (l1 : list Z) :
  (forall r x, pageaddr_and_blocktype (set r x) = pageaddr_and_blocktype r /\ nfree (set r x) = nfree r /\
     freelist_offset (set r x) = freelist_offset r /\ next (set r x) = next r) ->
  (forall q, q ∉ l1 -> m' !! q = m !! q) ->
  (forall q, q ∈ l1 -> exists r x, m !! q = Some r /\ m' !! q = Some (set r x)) ->
  same_but_links m m' /\ forall q, next <$> m' !! q = next <$> m !! q.
Proof.
  intros Hset Hout Hin. split; intros q.
  - intros r Hr. destruct (decide (q ∈ l1)) as [Hq | Hq]; [ | exists r; by rewrite Hout by done].
    destruct (Hin q Hq) as (r0 & x & H1 & H2). simplify_eq. destruct (Hset r x) as (E1 & E2 & E3 & _). eauto 10.
  - destruct (decide (q ∈ l1)) as [Hq | Hq]; [ | by rewrite Hout by done].
    destruct (Hin q Hq) as (r & x & -> & ->). cbn. f_equal. apply (Hset r x).
Qed.

Lemma set_links r x :
  (pageaddr_and_blocktype (set_same r x) = pageaddr_and_blocktype r /\ nfree (set_same r x) = nfree r /\
   freelist_offset (set_same r x) = freelist_offset r /\ next_all (set_same r x) = next_all r) /\
  (pageaddr_and_blocktype (set_all r x) = pageaddr_and_blocktype r /\ nfree (set_all r x) = nfree r /\
   freelist_offset (set_all r x) = freelist_offset r /\ next_samesize (set_all r x) = next_samesize r).
Proof. done. Qed.

Lemma remove_lists_spec s G1 g G2 :
  heap_inv s (G1 ++ g :: G2) ->
  exists m sb a, remove_lists s (g_ref g) (g_type g) = Ok (with_lists (with_refs s m) sb a) /\
    heap_inv (with_lists (with_refs s m) sb a) (G1 ++ G2).
Proof.
  intros Inv. pose proof Inv as [P R Al L Sa Ok Nd Np Ow Rf Ap].
  assert (Hg : g ∈ G1 ++ g :: G2) by (apply elem_of_middle; by left).
  assert (Hsub : forall g', g' ∈ G1 ++ G2 -> g' ∈ G1 ++ g :: G2) by (intros; apply elem_of_middle; by right).
  destruct (page_facts _ _ g Inv Hg) as (Ht & _).
  destruct (zget_lt (sizebases s) (g_type g)) as [b Hb]; [lia |].
  unfold remove_lists. rewrite (proj2 (Z.leb_le 0 _)), (proj2 (Z.ltb_lt _ NSIZES)) by (unfold NSIZES; lia).
  cbn [andb kassert]. rewrite Hb. cbn [access rbind]. pose proof (Sa _ _ Hb) as Hsame.
  rewrite same_size_middle, decide_True, !fmap_app in Hsame by done. cbn [fmap list_fmap app] in Hsame.
  pose proof (heap_fuel _ _ Inv) as Hfuel.
  assert (Hlen : forall t, (length (same_size G1 t) <= length G1)%nat) by (intros; apply length_filter).
  assert (Hnd1 : NoDup ((g_ref <$> same_size G1 (g_type g)) ++ g_ref g :: (g_ref <$> same_size G2 (g_type g)))).
  { rewrite fmap_app, fmap_cons in Nd. rewrite <- fmap_cons, <- fmap_app. unfold same_size.
    replace (g :: filter (fun g' => g_type g' = g_type g) G2) with (filter (fun g' => g_type g' = g_type g) (g :: G2))
      by (rewrite filter_cons; by rewrite decide_True).
    rewrite <- filter_app. rewrite <- fmap_cons, <- fmap_app in Nd.
    apply (NoDup_fmap_filter g_ref); done. }
  destruct (unlink_spec (list_fuel s) next_samesize set_same (refs s) b _ _ _ ltac:(done) Hnd1) as (m1 & b1 & -> & C1 & O1 & I1);
    [rewrite length_fmap; specialize (Hlen (g_type g)); rewrite length_app in Hfuel; lia | done |].
  cbn [rbind]. destruct (zput_lt (sizebases s) (g_type g) b1) as [sb Hsb]; [by eapply zget_Some |]. rewrite Hsb. cbn [access rbind].
  cbn [with_lists with_refs refs allbase sizebases].
  destruct (unlink_same next_all set_same (refs s) m1 _ (fun r x => proj1 (set_links r x)) O1 I1) as [S1 N1].
  assert (Al1 : chain (fun q => next_all <$> m1 !! q) (allbase s) ((g_ref <$> G1) ++ g_ref g :: (g_ref <$> G2))).
  { rewrite <- fmap_cons, <- fmap_app. eapply chain_ext; [ | exact Al]. intros q _. apply N1. }
  assert (Hf1 : list_fuel (with_lists (with_refs s m1) sb (allbase s)) = list_fuel s).
  { unfold list_fuel. cbn. f_equal. rewrite <- !size_dom. f_equal. apply set_eq. intros q. rewrite !elem_of_dom.
    specialize (N1 q). split; intros [x Hx]; rewrite Hx in N1; cbn in N1; symmetry in N1 || idtac;
      destruct (m1 !! q), (refs s !! q); done. }
  rewrite Hf1. rewrite fmap_app, fmap_cons in Nd.
  destruct (unlink_spec (list_fuel s) next_all set_all m1 (allbase s) _ _ _ ltac:(done) Nd) as (m2 & a2 & -> & C2 & O2 & I2);
    [rewrite length_fmap; rewrite length_app in Hfuel; cbn in Hfuel; lia | done |].
  destruct (unlink_same next_samesize set_all m1 m2 _ (fun r x => proj2 (set_links r x)) O2 I2) as [S2 N2].
  exists m2, sb, a2. split; [done |]. rewrite <- fmap_cons, <- fmap_app in Nd.
  split; cbn [with_lists with_refs refs allbase sizebases pages words kheaproots]; try done.
  - by rewrite fmap_app.
  - by rewrite (zput_length _ _ _ _ Hsb).
  - intros t bt. rewrite (zget_zput _ _ t _ _ Hsb). intros Hbt.
    eapply chain_ext; [intros q _; apply N2 |]. unfold same_size. rewrite filter_app, fmap_app.
    destruct (decide (t = g_type g)) as [-> | Hne]; [by injection Hbt as <- |].
    pose proof (Sa t bt Hbt) as Hs. rewrite same_size_middle, decide_False, !fmap_app in Hs by congruence.
    cbn [app] in Hs. eapply chain_ext; [ | exact Hs]. intros q Hq. cbn. rewrite O1; [done |].
    intros (g1 & -> & [Hg1 Hty1]%same_size_sub)%list_elem_of_fmap.
    rewrite <- fmap_app in Hq. apply list_elem_of_fmap in Hq as (g2 & E & Hg2).
    assert (g1 = g2) as ->.
    { apply (NoDup_fmap_inj g_ref (G1 ++ g :: G2)); [done | apply Hsub; set_solver | | done].
      apply Hsub. apply elem_of_app. apply elem_of_app in Hg2 as [[? _]%same_size_sub | [? _]%same_size_sub]; auto. }
    apply elem_of_app in Hg2 as [[_ Hty2]%same_size_sub | [_ Hty2]%same_size_sub]; congruence.
  - intros g' Hg'. eapply page_ok_ext; [by apply Ok, Hsub | done |]. intros r Hr.
    destruct (S1 _ _ Hr) as (r1 & Hr1 & E1 & E2 & E3). destruct (S2 _ _ Hr1) as (r2 & Hr2 & F1 & F2 & F3).
    exists r2. split; [done |]. split; [congruence |]. split; congruence.
  - rewrite fmap_app, fmap_cons in Nd. apply NoDup_middle in Nd as [_ Nd]. by rewrite fmap_app.
  - rewrite fmap_app, fmap_cons in Np. apply NoDup_middle in Np as [_ Np]. by rewrite fmap_app.
  - intros g' Hg'. by apply Ow, Hsub.
  - intros g' Hg'. by apply Rf, Hsub.
  - intros g' w r Hg'. by apply Ap, Hsub.
Qed.

(** The heap with another set of roots, as far as it relies on them. *)
Lemma heap_inv_roots s G rs :
  heap_inv s G -> roots_ok (owned (pages s)) rs ->
  (forall w1 r1, zget rs w1 = Some r1 -> exists r, zget (kheaproots s) w1 = Some r /\ page r1 = page r) ->
  (forall g, g ∈ G -> exists w j, ref_at rs (g_ref g) w j) ->
  heap_inv (with_roots s rs) G.
Proof.
  intros [P R Al L Sa Ok Nd Np Ow Rf Ap] Hro Hpg Hat. split; try done.
  intros g w r Hg Hr. destruct (Hpg w r Hr) as (r0 & Hr0 & ->). by apply (Ap g w r0).
Qed.

(** A page with nothing but free blocks leaves the heap. *)
Lemma release_page s G1 g G2 :
  heap_inv s (G1 ++ g :: G2) -> (forall a, a ∈ blocks g -> a ∈ g_free g) ->
  exists s1 s2 P, remove_lists s (g_ref g) (g_type g) = Ok s1 /\ freepageref s1 (g_ref g) = Ok s2 /\
    pa_free (pages s2) (g_page g) = Ok P /\ heap_inv (with_pages s2 P) (G1 ++ G2) /\ words s2 = words s /\
    (healthy (kheaproots s) -> healthy (kheaproots s2)) /\
    forall a n, live (with_pages s2 P) (G1 ++ G2) a n <-> live s (G1 ++ g :: G2) a n.
Proof.
  intros Inv Hall. assert (Hg : g ∈ G1 ++ g :: G2) by (apply elem_of_middle; by left).
  destruct (remove_lists_spec s G1 g G2 Inv) as (m & sb & a0 & E & Inv1). set (s1 := with_lists _ _ _) in *.
  destruct (hi_ref _ _ Inv g Hg) as (w & j & Hat).
  destruct (freepageref_spec s1 (g_ref g) w j (hi_pages _ _ Inv1) (hi_roots _ _ Inv1) Hat) as (rs & E2 & Hro & Hh & Hpg & Hrest).
  assert (Inv2 : heap_inv (with_roots s1 rs) (G1 ++ G2)).
  { apply heap_inv_roots; try done. intros g' Hg'. destruct (hi_ref _ _ Inv1 g' Hg') as (w' & j' & Hat').
    exists w', j'. apply Hrest; [ | done]. by apply (other_entry g_ref _ _ _ _ (hi_nodup _ _ Inv)). }
  destruct (pl_free (pages s) (g_page g) 1 (hi_pages _ _ Inv) (hi_owned _ _ Inv g Hg)) as (P & E3 & HP & Ho).
  assert (Hpgs : forall g', g' ∈ G1 ++ G2 -> g_page g' <> g_page g).
  { intros g' Hg'. by apply (other_entry g_page _ _ _ _ (hi_pgs _ _ Inv)). }
  assert (Hroot : forall w1 r1, zget rs w1 = Some r1 -> page r1 <> g_page g).
  { intros w1 r1 Hr1. destruct (Hpg w1 r1 Hr1) as (r & Hr & ->). by apply (hi_apart _ _ Inv g w1 r). }
  exists s1, (with_roots s1 rs), P. split; [done |]. split; [done |]. split; [done |]. split; [ | split; [done | split; [done |]]].
  - by apply (heap_inv_disown (with_roots s1 rs) _ P (g_page g)).
  - intros a n. rewrite (live_disown (with_roots s1 rs) (G1 ++ G2) P (g_page g) 1); [ | done | | done | done];
      [ | by apply (hi_owned _ _ Inv)].
    unfold live. cbn [with_roots pages kheaproots s1 with_lists with_refs]. setoid_rewrite elem_of_middle. split.
    + intros [[(g' & Hg' & Hx) | (k & Hk & -> & H1 & H2)] Hne]; [left; exists g'; auto | right; exists k].
      split; [done |]. split; [done |]. split; [intros g' [-> | Hg']; auto |].
      intros w1 r1 Hr1 Ea. apply zget_Some in Hr1 as Hlt. destruct (zget_lt rs w1) as [r2 Hr2].
      { rewrite (ro_len _ _ Hro). rewrite (ro_len _ _ (hi_roots _ _ Inv)) in Hlt. lia. }
      destruct (Hpg w1 r2 Hr2) as (r & Hr & Er). apply (H2 w1 r2 Hr2). cbn in Hr. congruence.
    + intros [(g' & [-> | Hg'] & Hb & Hf & ->) | (k & Hk & -> & H1 & H2)].
      * exfalso. by apply Hf, Hall.
      * split; [left; by exists g' |]. intros ->.
        assert (Hin' : g' ∈ G1 ++ g :: G2) by (apply elem_of_middle; by right).
        destruct (page_facts _ _ g' Inv Hin') as (Ht' & _). destruct (block_in_page g' _ Ht' Hb) as (? & ? & _).
        destruct (bsize_facts _ Ht') as (_ & ? & _). pose proof (pages_apart _ _ _ _ Inv Hin' Hg (Hpgs g' Hg')).
        unfold PAGE_SIZE in *. lia.
      * split; [ | intros ->; by apply (H1 g); [left |]]. right. exists k. split; [done |]. split; [done |].
        split; [intros; apply H1; by right |]. intros w1 r1 Hr1. destruct (Hpg w1 r1 Hr1) as (r & Hr & ->). by apply (H2 w1).
Qed.

(** Putting a block back on the free list of its page. *)
Lemma push_block s G1 g G2 p r :
  heap_inv s (G1 ++ g :: G2) -> p ∈ blocks g -> p ∉ g_free g -> refs s !! g_ref g = Some r ->
  let r' := mkRef (next_samesize r) (next_all r) (pageaddr_and_blocktype r) (p - g_page g) (zlen (g_free g) + 1) in
  let w' := poke (fill_deadbeef (words s) p (bsize (g_type g))) p (hd 0 (g_free g)) in
  let s' := with_refs (with_words s w') (<[g_ref g := r']> (refs s)) in
  heap_inv s' (G1 ++ set_free g (p :: g_free g) :: G2) /\
  (forall a n x, live s (G1 ++ g :: G2) a n -> a <> p -> a <= x < a + n -> words s' x = words s x) /\
  forall a n, live s' (G1 ++ set_free g (p :: g_free g) :: G2) a n <-> live s (G1 ++ g :: G2) a n /\ a <> p.
Proof.
  intros Inv Hb Hf Hr r' w' s'. assert (Hg : g ∈ G1 ++ g :: G2) by (apply elem_of_middle; by left).
  destruct (page_facts _ _ g Inv Hg) as (Ht & Hp0 & _). destruct (block_in_page g p Ht Hb) as (H1 & H2 & _).
  destruct (bsize_facts _ Ht) as (_ & Hbs & _). pose proof (hi_ok _ _ Inv g Hg) as [_ (r0 & Hr0 & E1 & E2 & E3) C N B].
  assert (r0 = r) as -> by congruence.
  assert (Hout : forall a, a < p \/ p + bsize (g_type g) <= a -> w' a = words s a).
  { intros a Ha. unfold w', poke. destruct (Z.eqb_spec a p); [lia |]. apply fill_deadbeef_outside; lia. }
  assert (Hlive : live s (G1 ++ g :: G2) p (bsize (g_type g))) by (left; by exists g).
  split; [ | split].
  - apply (heap_inv_update s G1 g G2 r r'); try done.
    + split; cbn [set_free g_ref g_page g_type g_free].
      * done.
      * exists r'. rewrite lookup_insert_eq. split; [done |]. split; [done |]. split; [ | done]. change (nfree r') with (zlen (g_free g) + 1). unfold zlen. cbn [length]. lia.
      * cbn. split; [done |]. split; [lia |]. exists (hd 0 (g_free g)). split.
        { unfold w', poke. by rewrite Z.eqb_refl. }
        eapply chain_ext; [ | exact C]. intros b Hin. cbv beta. rewrite Hout; [done |].
        destruct (blocks_apart g b p Ht (B b Hin) Hb); [congruence | lia | lia].
      * by apply NoDup_cons.
      * intros b [-> | Hin]%elem_of_cons; auto.
    + intros a Ha. apply Hout. lia.
  - intros a n x Hl Hne Hx. apply Hout. destruct (live_disjoint _ _ _ _ _ _ Inv Hl Hlive Hne); lia.
  - intros a n. rewrite (live_update s) by done. unfold live. setoid_rewrite elem_of_middle. split.
    + intros [(Ha & Hn & ->) | [(g' & Hg' & Hx) | Hbig]].
      * split; [left; exists g; split; [by left |]; split; [done |]; split; [set_solver | done] | set_solver].
      * split; [left; exists g'; auto |]. intros ->. destruct Hx as (Hb' & Hf' & Hn').
        assert (Hin' : g' ∈ G1 ++ g :: G2) by (apply elem_of_middle; by right).
        destruct (page_facts _ _ g' Inv Hin') as (Ht' & _). destruct (block_in_page g' p Ht' Hb') as (? & ? & _).
        destruct (bsize_facts _ Ht') as (_ & ? & _).
        pose proof (pages_apart _ _ _ _ Inv Hin' Hg (other_entry g_page _ _ _ _ (hi_pgs _ _ Inv) Hg')). lia.
      * split; [by right |].
        intros ->. destruct Hbig as (k & Hk & Hn & Hg' & _). pose proof (Hg' g (or_introl eq_refl)).
        destruct (pl_run _ _ _ (hi_pages _ _ Inv) Hk) as (_ & _ & ? & _).
        destruct (page_of_run _ _ g p k Inv Hg Hk); [done | lia | unfold PAGE_SIZE in *; nia].
    + intros [[(g' & [-> | Hg'] & Ha & Hn & ->) | Hbig] Hne].
      * left. split; [done |]. split; [set_solver | done].
      * right; left. by exists g'.
      * by right; right.
Qed.

Record freed s G s' G' (p : Z) : Prop := {
  fr_inv : heap_inv s' G';
  fr_live : forall a n, live s' G' a n <-> live s G a n /\ a <> p;
  fr_kept : forall a n x, live s G a n -> a <> p -> a <= x < a + n -> words s' x = words s x;
  fr_healthy : healthy (kheaproots s) -> healthy (kheaproots s')
}.

Lemma subpage_kfree_spec s G g p n :
  heap_inv s G -> g ∈ G -> live s G p n -> g_page g <= p < g_page g + PAGE_SIZE ->
  find_holder (list_fuel s) s (allbase s) p = Ok (g_ref g) -> g_ref g <> 0 ->
  exists s' G', subpage_kfree s p = Ok (s', 0) /\ freed s G s' G' p.
Proof.
  intros Inv Hg Hl Hp Hfind Hz. destruct (live_in_page s G g p n Inv Hg Hl Hp) as (Hb & Hf & ->).
  destruct (page_facts s G g Inv Hg) as (Ht & Hp0 & Hpm & Hp32). destruct (block_in_page g p Ht Hb) as (H1 & H2 & H3).
  destruct (bsize_facts _ Ht) as (Hget & Hbs & _ & Hnb & Hnn & _).
  destruct (page_ref s G g Inv Hg) as (r & Hr & Hpg & Hty & _ & Hnf & Hoff).
  pose proof (hi_ok _ _ Inv g Hg) as [_ _ C N B].
  assert (Hnd : NoDup (p :: g_free g)) by (by apply NoDup_cons).
  assert (Hbl : forall a, a ∈ p :: g_free g -> a ∈ blocks g) by (intros a [-> | ?]%elem_of_cons; auto).
  pose proof (free_count g _ Ht Hnd Hbl) as Hcnt. unfold zlen in Hcnt. cbn [length] in Hcnt.
  unfold subpage_kfree. rewrite Hfind. cbn [rbind]. rewrite (proj2 (Z.eqb_neq _ _)) by done. rewrite Hr. cbn [access rbind].
  rewrite Hty, Hget, Hpg. cbn [access rbind]. unfold PAGE_SIZE in *.
  rewrite (proj2 (Z.leb_gt 4096 (p - g_page g))) by lia. rewrite H3. cbn [orb negb Z.eqb].
  assert (Hnext : (if freelist_offset r =? INVALID_OFFSET then 0 else u32 (g_page g + freelist_offset r)) = hd 0 (g_free g) /\
    ((freelist_offset r =? INVALID_OFFSET) || negb (g_page g + (p - g_page g) =? hd 0 (g_free g)) = true)).
  { rewrite Hoff. destruct (g_free g) as [ | a l] eqn:E; [done |].
    assert (Ha : g_page g <= a < g_page g + 4096).
    { destruct (block_in_page g a Ht (B a ltac:(set_solver))) as (? & ? & _). unfold PAGE_SIZE in *. lia. }
    rewrite (proj2 (Z.eqb_neq (a - g_page g) INVALID_OFFSET)) by (unfold INVALID_OFFSET; lia). cbn [hd orb].
    rewrite u32_id by (unfold is_u32; lia). split; [lia |]. apply negb_true_iff, Z.eqb_neq. set_solver by lia. }
  destruct Hnext as [-> ->]. cbn [kassert].
  replace (g_page g + (p - g_page g)) with p by lia. rewrite Hnf. unfold zlen.
  replace (u16 (Z.of_nat (length (g_free g)) + 1)) with (Z.of_nat (length (g_free g)) + 1) by (unfold u16; rewrite Z.mod_small; lia).
  replace (u16 (p - g_page g)) with (p - g_page g) by (unfold u16; rewrite Z.mod_small; lia).
  change (4096 / bsize (g_type g)) with (nblocks (g_type g)).
  rewrite (proj2 (Z.leb_le _ (nblocks (g_type g)))) by lia. cbn [kassert].
  destruct (list_elem_of_split _ _ Hg) as (G1 & G2 & ->).
  destruct (push_block s G1 g G2 p r Inv Hb Hf Hr) as (Inv1 & Hk1 & Hl1). unfold zlen in *.
  set (s1 := with_refs _ _) in *.
  destruct (Z.eqb_spec (Z.of_nat (length (g_free g)) + 1) (nblocks (g_type g))) as [Hfull | Hpart].
  - destruct (release_page s1 G1 (set_free g (p :: g_free g)) G2 Inv1) as (s2 & s3 & P & E1 & E2 & E3 & Inv3 & Hw & Hh & Hlv).
    { apply (free_all g (p :: g_free g)); [done | done | done |]. unfold zlen. cbn [length]. lia. }
    cbn [set_free g_ref g_type g_page] in E1, E2, E3. rewrite E1. cbn [rbind]. rewrite E2. cbn [rbind]. rewrite E3. cbn [rbind].
    exists (with_pages s3 P), (G1 ++ G2). split; [done |]. split; [done | | | done].
    + intros a n. by rewrite Hlv, Hl1.
    + intros a n x Ha Hne Hx. cbn [with_pages words]. rewrite Hw. by apply (Hk1 a n).
  - exists s1, (G1 ++ set_free g (p :: g_free g) :: G2). split; [done |]. by split.
Qed.

Lemma kfree_spec s G p n :
  heap_inv s G -> live s G p n -> exists s' G', kfree s p = Ok s' /\ freed s G s' G' p.
Proof.
  intros Inv Hl. destruct (live_run s G p n Inv Hl) as (b & k & Hb & Hlo & Hhi & Hn & _ & Hwhich).
  destruct (pl_run _ _ _ (hi_pages _ _ Inv) Hb) as (Hb0 & Hbm & Hk & _).
  unfold kfree. rewrite (proj2 (Z.eqb_neq p 0)) by lia.
  destruct (find_holder_spec (list_fuel s) s G (allbase s) G p Inv) as [[E Hno] | (g & Hg & E & Hz & Hin)].
  { done. } { by apply heap_fuel. } { apply (hi_all _ _ Inv). }
  - destruct Hwhich as [(g & Hg & -> & Hblk & _ & ->) | [-> Hng]].
    { exfalso. apply (Hno g Hg). rewrite (hi_owned _ _ Inv g Hg) in Hb. injection Hb as <-. lia. }
    assert (Hroot : forall w r, zget (kheaproots s) w = Some r -> page r <> p).
    { destruct Hl as [(g & Hg & Hblk & _) | (k' & _ & _ & _ & Hr)]; [exfalso | done].
      destruct (page_facts s G g Inv Hg) as (Ht & _). destruct (block_in_page g p Ht Hblk) as (? & ? & _).
      destruct (bsize_facts _ Ht) as (_ & ? & _). apply (Hno g Hg). unfold PAGE_SIZE in *. lia. }
    unfold subpage_kfree. rewrite E. cbn [rbind Z.eqb negb]. rewrite Hbm. cbn [kassert Z.eqb].
    destruct (pl_free _ _ _ (hi_pages _ _ Inv) Hb) as (P & -> & HP & Ho). cbn [rbind].
    exists (with_pages s P), G. split; [done |]. split.
    + by eapply heap_inv_disown.
    + intros a m. by apply (live_disown s G P p k).
    + done.
    + done.
  - destruct (subpage_kfree_spec s G g p n Inv Hg Hl Hin E Hz) as (s' & G' & -> & Hfr). cbn. eauto.
Qed.

(** ** kmalloc *)

(** The size of the block a request gets. *)
Definition usable (sz : Z) : Z :=
  if LARGEST_SUBPAGE_SIZE <=? sz then (sz + PAGE_SIZE - 1) / PAGE_SIZE * PAGE_SIZE
  else match blocktype sz with Ok t => bsize t | Fault _ => 0 end.

Lemma usable_fits sz : 0 <= sz -> sz <= usable sz /\ (0 < sz -> usable sz < sz + PAGE_SIZE).
Proof.
  intros Hsz. unfold usable, LARGEST_SUBPAGE_SIZE, PAGE_SIZE. destruct (Z.leb_spec 2048 sz); [div_lia |].
  destruct (blocktype_spec sz) as (t & -> & Ht & Hle & _); [lia |]. destruct (bsize_facts t Ht) as (_ & ? & _). lia.
Qed.

Lemma kmalloc_spec s G sz s' p :
  heap_inv s G -> healthy (kheaproots s) -> 0 <= sz <= 2 ^ 32 - PAGE_SIZE -> kmalloc s sz = Ok (s', p) ->
  (p = 0 /\ heap_inv s' G /\ (forall a n, live s' G a n <-> live s G a n) /\ kept s G s') \/
  (p <> 0 /\ healthy (kheaproots s') /\ exists G', allocated s G s' G' p (usable sz)).
Proof.
  intros Inv Hh Hsz. unfold kmalloc, usable, LARGEST_SUBPAGE_SIZE. destruct (Z.leb_spec 2048 sz).
  - assert (Hnp : u32 (u32 (sz + PAGE_SIZE) - 1) / PAGE_SIZE = (sz + PAGE_SIZE - 1) / PAGE_SIZE).
    { unfold PAGE_SIZE in *. destruct (Z.eq_dec sz (2 ^ 32 - 4096)) as [-> | ]; [done |].
      rewrite (u32_id (sz + 4096)), u32_id by (unfold is_u32; lia). done. }
    rewrite Hnp. set (k := (sz + PAGE_SIZE - 1) / PAGE_SIZE).
    assert (Hk : 0 < k) by (unfold k, PAGE_SIZE; div_lia).
    intros ([P va] & E & Hm)%rbind_Ok. destruct (pl_alloc _ _ _ _ (hi_pages _ _ Inv) Hk E) as (HP & [[-> Ho] | (Hz & Hn & Ho)]).
    + injection Hm as <- <-. left. split; [done |]. split; [ | split; [ | done]].
      * apply heap_inv_pages; try done; rewrite Ho; [by apply (hi_owned _ _ Inv) |].
        intros w r Hr. by apply (rt_page _ _ (ro_each _ _ (hi_roots _ _ Inv) _ _ Hr)).
      * intros a n. unfold live. cbn. by rewrite Ho.
    + rewrite (proj2 (Z.eqb_neq va 0)) in Hm by done. apply kassert_Ok in Hm as [_ [= <- <-]]. right.
      split; [done |]. split; [done |]. exists G.
      assert (Hroot : forall w r, zget (kheaproots s) w = Some r -> page r <> va) by (intros w r Hw; exact (root_owned s G w r va Inv Hw Hz Hn)).
      split.
      * by eapply heap_inv_own.
      * intros a n. by apply live_own.
      * intros m Hl. destruct (live_run s G va m Inv Hl) as (b & j & Hb & Hlo & Hhi & Hm & _ & _).
        assert (b <> va) by congruence. unfold PAGE_SIZE in *.
        destruct (pl_apart P b j va k HP) as [Hc | Hc]; try done; rewrite ?Ho; [by rewrite lookup_insert_ne by done | apply lookup_insert_eq | |];
          unfold PAGE_SIZE in *; nia.
      * done.
  - intros E. destruct (subpage_kmalloc_spec s G sz Inv Hh) as (s1 & p1 & t & E1 & -> & Ht & Hres); [lia |].
    rewrite E in E1. injection E1 as <- <-. done.
Qed.

Lemma kmalloc_small_returns s G sz :
  heap_inv s G -> healthy (kheaproots s) -> 0 <= sz < LARGEST_SUBPAGE_SIZE -> exists s' p, kmalloc s sz = Ok (s', p).
Proof.
  intros Inv Hh Hsz. unfold kmalloc, LARGEST_SUBPAGE_SIZE in *. rewrite (proj2 (Z.leb_gt _ _)) by lia.
  destruct (subpage_kmalloc_spec s G sz Inv Hh Hsz) as (s1 & p1 & t & -> & _). eauto.
Qed.
End HeapFacts.

(** ** Clients *)

Section Clients.
Context {S : Type} `{PageLaws S}.

(** The heap at boot. *)
Definition kmem0 (P : S) : kmem S :=
  mkKmem P (fun _ => 0) ∅ (replicate 16 (mkRoot 0 (replicate 8 0) 0)) (replicate 8 0) 0.

(** Everything clients may do, with the blocks they hold and their sizes:
    ask for memory, free a block they hold, and write to blocks they hold.
    [healthy]: no pageref page has been missing 256 times. *)
Inductive heap_reach : kmem S -> gmap Z Z -> Prop :=
| HeapBoot P : pages_ok P -> owned P = ∅ -> heap_reach (kmem0 P) ∅
| HeapMalloc s h sz s' p :
    heap_reach s h -> 0 <= sz <= 2 ^ 32 - PAGE_SIZE -> kmalloc s sz = Ok (s', p) -> healthy (kheaproots s') ->
    heap_reach s' (if p =? 0 then h else <[p := usable sz]> h)
| HeapFree s h p n s' :
    heap_reach s h -> h !! p = Some n -> kfree s p = Ok s' -> heap_reach s' (delete p h)
| HeapWrite s h a n x v :
    heap_reach s h -> h !! a = Some n -> a <= x < a + n -> heap_reach (with_words s (poke (words s) x v)) h.

Definition holds (s : kmem S) (h : gmap Z Z) : Prop :=
  healthy (kheaproots s) /\ exists G, heap_inv s G /\ forall a n, h !! a = Some n <-> live s G a n.

Lemma zget_replicate_Some {A} (k : nat) (x y : A) i : zget (replicate k x) i = Some y -> y = x.
Proof. unfold zget. destruct (_ <? _); [done |]. by intros [-> _]%lookup_replicate. Qed.

Lemma kmem0_inv P : pages_ok P -> owned P = ∅ -> holds (kmem0 P) ∅.
Proof.
  intros HP Ho. assert (Hroot : forall w r, zget (kheaproots (kmem0 P)) w = Some r -> r = mkRoot 0 (replicate 8 0) 0)
    by (intros w r; apply zget_replicate_Some).
  split; [intros w r ->%Hroot; done |]. exists []. split.
  - split; try done.
    + split; try done.
      * intros w r ->%Hroot. split; [ | reflexivity | done]. split; [done |]. repeat constructor; unfold is_u32; lia.
      * intros w w' r r' ->%Hroot. done.
      * intros w w' r r' _ ->%Hroot. done.
    + intros t b Hb. by apply zget_replicate_Some in Hb.
    + intros g Hg. by apply elem_of_nil in Hg.
    + constructor.
    + constructor.
    + intros g Hg. by apply elem_of_nil in Hg.
    + intros g Hg. by apply elem_of_nil in Hg.
    + intros g w r Hg. by apply elem_of_nil in Hg.
  - intros a n. rewrite lookup_empty. split; [done |]. unfold live. cbn. rewrite Ho.
    intros [(g & Hg & _) | (k & Hk & _)]; [by apply elem_of_nil in Hg | by rewrite lookup_empty in Hk].
Qed.

Lemma malloc_holds s h sz s' p :
  holds s h -> 0 <= sz <= 2 ^ 32 - PAGE_SIZE -> kmalloc s sz = Ok (s', p) -> healthy (kheaproots s') ->
  holds s' (if p =? 0 then h else <[p := usable sz]> h) /\
  (p <> 0 -> h !! p = None) /\
  (forall a n x, h !! a = Some n -> a <= x < a + n -> words s' x = words s x).
Proof.
  intros (Hh & G & Inv & Hl) Hsz E Hh'. destruct (kmalloc_spec s G sz s' p Inv Hh Hsz E) as [(-> & Inv' & Hl' & Hk) | (Hz & _ & G' & [A1 A2 A3 A4])].
  - cbn. split; [ | split; [done | intros a n x Ha; by apply (Hk a n), Hl]]. split; [done |]. exists G. split; [done |].
    intros a n. by rewrite Hl, Hl'.
  - rewrite (proj2 (Z.eqb_neq p 0)) by done.
    assert (Hp : h !! p = None).
    { destruct (h !! p) as [m | ] eqn:Em; [ | done]. apply Hl in Em. by apply A3 in Em. }
    split; [ | split; [done | intros a n x Ha; by apply (A4 a n), Hl]]. split; [done |]. exists G'. split; [done |].
    intros a n. rewrite A2, <- Hl, lookup_insert_Some. split.
    + intros [[<- <-] | [_ ?]]; auto.
    + intros [Ha | [-> ->]]; [right | by left]. split; [congruence | done].
Qed.

Lemma free_holds s h p n :
  holds s h -> h !! p = Some n ->
  exists s', kfree s p = Ok s' /\ holds s' (delete p h) /\
    forall a m x, h !! a = Some m -> a <> p -> a <= x < a + m -> words s' x = words s x.
Proof.
  intros (Hh & G & Inv & Hl) Hp. apply Hl in Hp. destruct (kfree_spec s G p n Inv Hp) as (s' & G' & E & [F1 F2 F3 F4]).
  exists s'. split; [done |]. split; [ | intros a m x Ha; by apply (F3 a m), Hl]. split; [by apply F4 |]. exists G'. split; [done |].
  intros a m. rewrite F2, <- Hl, lookup_delete_Some. naive_solver.
Qed.

(** Free lists are out of reach of the clients' writes. *)
Lemma write_holds s h a n x v :
  holds s h -> h !! a = Some n -> a <= x < a + n -> holds (with_words s (poke (words s) x v)) h.
Proof.
  intros (Hh & G & Inv & Hl) Ha Hx. apply Hl in Ha. split; [done |]. exists G. split; [ | done].
  pose proof Inv as [P R Al L Sa Ok Nd Np Ow Rf Ap]. split; try done.
  intros g Hg. destruct (Ok g Hg) as [T Rr C N B]. split; try done. eapply chain_ext; [ | exact C].
  intros b Hb. cbn. unfold poke. destruct (Z.eqb_spec b x) as [-> | ]; [exfalso | done].
  assert (Hxg : g_page g <= x < g_page g + PAGE_SIZE).
  { destruct (block_in_page g x T (B x Hb)) as (? & ? & _). destruct (bsize_facts _ T) as (_ & ? & _). lia. }
  destruct (live_run s G a n Inv Ha) as (b0 & k & Hb0 & H1 & H2 & H3 & _ & Hw).
  destruct (decide (b0 = g_page g)) as [-> | Hne].
  - destruct Hw as [(g' & Hg' & Hpg & Hab & Haf & ->) | [Heq Hno]]; [ | by apply (Hno g)].
    assert (g' = g) as -> by (by apply (NoDup_fmap_inj g_page G g' g Np)).
    destruct (decide (a = x)) as [-> | Hax]; [done |]. destruct (blocks_apart g a x T Hab (B x Hb) Hax); lia.
  - destruct (page_of_run s G g b0 k Inv Hg Hb0 Hne); lia.
Qed.

Lemma heap_reach_holds s h : heap_reach s h -> holds s h.
Proof.
  induction 1 as [P HP Ho | s h sz s' p _ IH Hsz E Hh' | s h p n s' _ IH Hp E | s h a n x v _ IH Ha Hx].
  - by apply kmem0_inv.
  - by apply (malloc_holds s h sz s' p).
  - destruct (free_holds s h p n IH Hp) as (s1 & E1 & Hs1 & _). rewrite E in E1. by injection E1 as ->.
  - by eapply write_holds.
Qed.

(** C2: the kernel heap is safe for the sequences of calls of kmalloc and kfree,
    one at a time, and of writes of its clients to their own blocks, under two
    conditions: requests are of at most 2^32 - 4096 bytes, and the heap stays
    [healthy], that is, none of the roots of pagerefs has been used up by 256
    requests that found no page for it (file KernelHeap shows in
    [kmalloc_leaks_pagerefs] that kfree fails an assertion then).  The blocks handed out and not yet freed are aligned
    and never overlap.  A small request returns; a request that succeeds gets a
    block that was not in use and is large enough, and leaves the contents of
    all other blocks alone.  Every block that is held can be freed: no
    assertion fails, and the contents of all other blocks stay. *)
Theorem kheap_sound s h :
  heap_reach s h ->
  (forall a n, h !! a = Some n -> 0 < a /\ a mod 16 = 0 /\ a + n <= 2 ^ 32) /\
  (forall a n b m, h !! a = Some n -> h !! b = Some m -> a <> b -> a + n <= b \/ b + m <= a) /\
  (forall sz, 0 <= sz < LARGEST_SUBPAGE_SIZE -> exists s' p, kmalloc s sz = Ok (s', p)) /\
  (forall sz s' p, 0 <= sz <= 2 ^ 32 - PAGE_SIZE -> kmalloc s sz = Ok (s', p) -> healthy (kheaproots s') ->
     (p <> 0 -> h !! p = None /\ sz <= usable sz) /\
     forall a n x, h !! a = Some n -> a <= x < a + n -> words s' x = words s x) /\
  (forall p n, h !! p = Some n -> exists s', kfree s p = Ok s' /\
     forall a m x, h !! a = Some m -> a <> p -> a <= x < a + m -> words s' x = words s x).
Proof.
  intros Hr. pose proof (heap_reach_holds s h Hr) as Hhold. pose proof Hhold as (Hh & G & Inv & Hl). split; [ | split; [ | split; [ | split]]].
  - intros a n Ha%Hl. destruct (live_run s G a n Inv Ha) as (b & k & Hb & H1 & H2 & H3 & H4 & _).
    destruct (pl_run _ _ _ (hi_pages _ _ Inv) Hb) as (? & _ & _ & ?). split; [lia |]. split; [done | lia].
  - intros a n b m Ha%Hl Hb%Hl. by apply (live_disjoint s G).
  - intros sz Hsz. by apply (kmalloc_small_returns s G).
  - intros sz s' p Hsz E Hh'. destruct (malloc_holds s h sz s' p Hhold Hsz E Hh') as (_ & Hp & Hk).
    split; [ | done]. intros Hz. split; [auto |]. apply usable_fits. lia.
  - intros p n Hp. destruct (free_holds s h p n Hhold Hp) as (s' & E & _ & Hk). eauto.
Qed.
End Clients.
