(* ===== verification/KernelHeap.v ===== *)
(** The kernel heap on its page allocators.

    [coremap_pages]: the laws file Kmalloc relies on, discharged by
    alloc_kpages and free_kpages of file Coremap, so that the safety of the
    heap holds for the kernel as it is put together.  The runs handed out are
    recorded beside the state of the VM system.  [bump_pages]: an allocator
    that fails on demand, for the error paths. *)
From S2P Require Import Prelude Bitmap Coremap Kmalloc.

(** ** The coremap as page allocator *)

#[global] Instance coremap_alloc : PageAlloc (vm * gmap Z Z) := {
  pa_alloc := fun s n =>
    let* (v, va) := alloc_kpages s.1 n in Ok ((v, if va =? 0 then s.2 else <[va := n]> s.2), va);
  pa_free := fun s va => let* v := free_kpages s.1 va in Ok (v, delete va s.2)
}.

(** The kernel address of frame [i] when the first frame is at [f]. *)
Definition frame_addr (f i : Z) : Z := MIPS_KSEG0 + f + PAGE_SIZE * i.

(** Run [a] of [n] pages: frames of the coremap, none of them free. *)
Definition run_at (v : vm) (f a n i : Z) : Prop :=
  a = frame_addr f i /\ 0 <= i /\ 0 < n /\ i + n <= zlen (cm v) /\ forall j, i <= j < i + n -> ~ free_at (cm v) j.

Record coremap_ok (s : vm * gmap Z Z) : Prop := {
  co_boot : booted s.1;
  co_proc : exists as_, curproc s.1 = Some as_;
  co_va : va_user (cm s.1);
  co_runs : exists f, 0 < f /\ f mod PAGE_SIZE = 0 /\ f + PAGE_SIZE * zlen (cm s.1) < 2 ^ 31 /\
    (forall i e, zget (cm s.1) i = Some e -> ce_pa e = f + PAGE_SIZE * i) /\
    (forall a n, s.2 !! a = Some n -> exists i, run_at s.1 f a n i) /\
    (forall a n b m i j, s.2 !! a = Some n -> s.2 !! b = Some m -> a <> b -> run_at s.1 f a n i -> run_at s.1 f b m j ->
       i + n <= j \/ j + m <= i)
}.

Lemma runs_apart f i n j m : i + n <= j \/ j + m <= i -> apart_runs (frame_addr f i) n (frame_addr f j) m.
Proof. unfold apart_runs, frame_addr, PAGE_SIZE. lia. Qed.

(** What an allocation of [n] pages at frame [i] leaves. *)
Lemma coremap_alloc_ok s n i e c as_ :
  coremap_ok s -> 0 < n -> first_run (cm s.1) n i -> zget (cm s.1) i = Some e -> zlen c = zlen (cm s.1) ->
  (forall j, zget c j = if (i <=? j) && (j <? i + n) then taken as_ <$> zget (cm s.1) j else zget (cm s.1) j) ->
  let va := PADDR_TO_KVADDR (ce_pa e) in
  va <> 0 /\ s.2 !! va = None /\ coremap_ok (with_cm s.1 c, <[va := n]> s.2).
Proof.
  intros [B [p Hp] V (f & Hf0 & Hfm & Hf31 & Hpa & Hrun & Hap)] Hn (Hi & Hfree & _) He Hlen Hg va.
  destruct s as [v o]. cbn [fst snd] in *.
  assert (Hin : i + n <= zlen (cm v)).
  { pose proof (free_at_lt _ _ (Hfree (n - 1) ltac:(lia))). lia. }
  assert (Hva : va = frame_addr f i).
  { unfold va, PADDR_TO_KVADDR, frame_addr, MIPS_KSEG0. rewrite (Hpa i e He). unfold PAGE_SIZE in *.
    rewrite u32_id by (unfold is_u32; lia). lia. }
  assert (Hold : forall j, ~ free_at (cm v) j -> ~ free_at c j).
  { intros j Hj (e' & He' & Est). rewrite Hg in He'. destruct (_ && _); [ | by apply Hj; exists e'].
    destruct (zget (cm v) j); [ | done]. by injection He' as <-. }
  assert (Hnew : run_at (with_cm v c) f va n i).
  { split; [done |]. split; [done |]. split; [done |]. cbn [with_cm cm]. split; [lia |]. intros j Hj (e' & He' & Est).
    rewrite Hg in He'. rewrite (proj2 (Z.leb_le i j)), (proj2 (Z.ltb_lt j (i + n))) in He' by lia. cbn [andb] in He'.
    destruct (zget (cm v) j); [ | done]. by injection He' as <-. }
  assert (Hlift : forall a m j, run_at v f a m j -> run_at (with_cm v c) f a m j).
  { intros a m j (Ea & Hj & Hm & Hl & Hb). split; [done |]. split; [done |]. split; [done |]. cbn [with_cm cm]. split; [lia |].
    intros q Hq. by apply Hold, Hb. }
  assert (Hsep : forall a m j, run_at v f a m j -> i + n <= j \/ j + m <= i).
  { intros a m j (_ & Hj & Hm & _ & Hb). destruct (Z.le_gt_cases (i + n) j), (Z.le_gt_cases (j + m) i); auto.
    exfalso. apply (Hb (Z.max i j)); [lia |]. replace (Z.max i j) with (i + (Z.max i j - i)) by lia. apply Hfree. lia. }
  assert (Huniq : forall a m j j', run_at v f a m j -> run_at (with_cm v c) f a m j' -> j = j').
  { intros a m j j' (E1 & _) (E2 & _). unfold frame_addr, PAGE_SIZE in *. lia. }
  assert (Hnone : o !! va = None).
  { destruct (o !! va) as [m | ] eqn:E; [exfalso | done]. destruct (Hrun va m E) as (j & Hj).
    assert (j = i) as -> by (destruct Hj as (E1 & _); rewrite Hva in E1; unfold frame_addr, PAGE_SIZE in E1; lia).
    destruct (Hsep _ _ _ Hj); [lia |]. destruct Hj as (_ & _ & ? & _). lia. }
  split; [rewrite Hva; unfold frame_addr, MIPS_KSEG0, PAGE_SIZE; lia |]. split; [done |].
  split; cbn [fst snd with_cm].
  - done.
  - by exists p.
  - apply Forall_zget. intros j e'. cbn. rewrite Hg. unfold va_user in V. rewrite Forall_zget in V.
    destruct (_ && _); [ | apply V]. destruct (zget (cm v) j) as [e0 | ] eqn:E0; [ | done]. intros [= <-]. by apply (V j e0).
  - exists f. cbn. split; [done |]. split; [done |]. split; [by rewrite Hlen |]. split; [ | split].
    + intros j e'. rewrite Hg. destruct (_ && _); [ | apply Hpa]. destruct (zget (cm v) j) as [e0 | ] eqn:E0; [ | done].
      intros [= <-]. by apply (Hpa j e0).
    + intros a m [[<- <-] | [_ Ha]]%lookup_insert_Some; [by exists i |]. destruct (Hrun a m Ha) as (j & Hj). eauto.
    + intros a m b q j k [[<- <-] | [Hna Ha]]%lookup_insert_Some [[<- <-] | [Hnb Hb]]%lookup_insert_Some Hne Hj Hk; try done.
      * destruct (Hrun b q Hb) as (k0 & Hk0). assert (k0 = k) as -> by (by eapply Huniq).
        assert (j = i) as -> by (destruct Hj as (E1 & _); rewrite Hva in E1; unfold frame_addr, PAGE_SIZE in E1; lia). eauto.
      * destruct (Hrun a m Ha) as (j0 & Hj0). assert (j0 = j) as -> by (by eapply Huniq).
        assert (k = i) as -> by (destruct Hk as (E1 & _); rewrite Hva in E1; unfold frame_addr, PAGE_SIZE in E1; lia).
        destruct (Hsep _ _ _ Hj0); auto.
      * destruct (Hrun a m Ha) as (j0 & Hj0), (Hrun b q Hb) as (k0 & Hk0).
        assert (j0 = j) as -> by (by eapply Huniq). assert (k0 = k) as -> by (by eapply Huniq). by apply (Hap a m b q).
Qed.

#[global] Instance coremap_laws : PageLaws (vm * gmap Z Z).
Proof.
  refine {| owned := snd; pages_ok := coremap_ok |}.
  - intros [v o] a n [_ _ _ (f & Hf0 & Hfm & Hf31 & _ & Hrun & _)] Ha. destruct (Hrun a n Ha) as (i & -> & Hi & Hn & Hl & _).
    cbn [fst snd] in *. unfold frame_addr, MIPS_KSEG0, PAGE_SIZE in *. split; [lia |]. split; [div_lia |]. split; [done | lia].
  - intros [v o] a n b m [_ _ _ (f & _ & _ & _ & _ & Hrun & Hap)] Ha Hb Hne.
    destruct (Hrun a n Ha) as (i & Hi), (Hrun b m Hb) as (j & Hj). pose proof (Hap a n b m i j Ha Hb Hne Hi Hj) as Hx.
    destruct Hi as (-> & _), Hj as (-> & _). by apply runs_apart.
  - intros [v o] [B [p Hp] _ _]. cbn [fst snd pa_alloc coremap_alloc] in *.
    pose proof (alloc_kpages_cases v 1 p B Hp ltac:(lia)) as Hc. inversion Hc as [? ? ? ? ? ? ? E | ? E | ? ? ? E]; [ | | lia]; cbn; eauto.
  - intros [v o] n s' va Hok Hn E. pose proof Hok as [B [p Hp] _ _]. cbn [fst snd pa_alloc coremap_alloc] in *.
    pose proof (alloc_kpages_cases v n p B Hp Hn) as Hc. apply rbind_Ok in E as ([v' va'] & Ev & [= <- <-]). rewrite Ev in Hc.
    inversion Hc as [i e c Hf He Hl Hg E1 | Hno E1 | ]; subst; [ | split; [exact Hok | by left]].
    destruct (coremap_alloc_ok (v, o) n i e c p Hok Hn Hf He Hl Hg) as (Hz & Hnone & Hok'). cbn [fst snd] in *.
    rewrite (proj2 (Z.eqb_neq _ 0)) by done. split; [done |]. right. auto.
  - intros [v o] va n Hok Hva. pose proof Hok as [B Hp V (f & Hf0 & Hfm & Hf31 & Hpa & Hrun & Hap)].
    cbn [fst snd pa_free coremap_alloc] in *. destruct (Hrun va n Hva) as (i & Ea & Hi & Hn & Hl & _).
    rewrite free_kpages_ignores; [ | done | done |].
    + cbn. eexists. split; [done |]. split; [ | done]. split; cbn [fst snd]; try done. exists f. split; [done |]. split; [done |].
      split; [done |]. split; [done |]. split.
      * intros a m [_ Ha]%lookup_delete_Some. auto.
      * intros a m b q j k [_ Ha]%lookup_delete_Some [_ Hb]%lookup_delete_Some. by apply Hap.
    + rewrite Ea. unfold frame_addr, USERSPACETOP, MIPS_KSEG0, PAGE_SIZE in *. lia.
Defined.

(** ** The heap on the coremap *)

Definition heap_boot : kmem (vm * gmap Z Z) := kmem0 (small_vm, ∅).

Lemma heap_boot_reach : heap_reach heap_boot ∅.
Proof.
  apply HeapBoot; [ | reflexivity]. split; cbn [fst snd].
  - exact small_vm_booted.
  - by exists (Some 7).
  - repeat constructor.
  - exists 0x10000. split; [lia |]. split; [reflexivity |]. split; [vm_compute; reflexivity |]. split; [ | split].
    + intros i e. unfold zget. destruct (Z.ltb_spec i 0); [done |]. intros Hi.
      assert (Hlt : (Z.to_nat i < 4)%nat) by (apply lookup_lt_Some in Hi; exact Hi).
      assert (i = 0 \/ i = 1 \/ i = 2 \/ i = 3) as [-> | [-> | [-> | ->]]] by lia; injection Hi as <-; reflexivity.
    + intros a n. by rewrite lookup_empty.
    + intros a n b m i j. by rewrite lookup_empty.
Qed.

Definition malloc_state {S} (r : res (kmem S * Z)) (d : kmem S) : kmem S := match r with Ok (s, _) => s | Fault _ => d end.
Definition malloc_ptr {S} (r : res (kmem S * Z)) : Z := match r with Ok (_, p) => p | Fault _ => 0 end.

Lemma malloc_Ok {S} (r : res (kmem S * Z)) d p : malloc_ptr r = p -> p <> 0 -> r = Ok (malloc_state r d, p).
Proof. destruct r as [[s q] | ]; cbn; [by intros -> | by intros <-]. Qed.

(** The heap after a first request for 100 bytes: the page of 128-byte blocks
    is the second frame, its last block is handed out. *)
Definition heap1 : kmem (vm * gmap Z Z) := malloc_state (kmalloc heap_boot 100) heap_boot.

Lemma heap1_Ok : kmalloc heap_boot 100 = Ok (heap1, 0x80011f80).
Proof. apply malloc_Ok; [vm_compute; reflexivity | lia]. Qed.

Definition healthyb (rs : list kheap_root) : bool := forallb (fun r => negb (numinuse r =? 256) || negb (page r =? 0)) rs.

Lemma healthyb_true rs : healthyb rs = true -> healthy rs.
Proof.
  intros Hb w r Hr Hn Hz. unfold healthyb in Hb. rewrite forallb_forall in Hb.
  assert (In r rs) as Hin.
  { unfold zget in Hr. destruct (_ <? _); [done |]. by apply list_elem_of_In, (list_elem_of_lookup_2 _ (Z.to_nat w)). }
  specialize (Hb r Hin). by rewrite Hn, Hz in Hb.
Qed.

Lemma kheap_sound_witness : exists s', kfree heap1 0x80011f80 = Ok s'.
Proof.
  assert (Hr : heap_reach heap1 (<[0x80011f80 := 128]> ∅)).
  { apply (HeapMalloc heap_boot ∅ 100 heap1 0x80011f80 heap_boot_reach); [unfold PAGE_SIZE; lia | exact heap1_Ok |].
    apply healthyb_true. vm_compute. reflexivity. }
  destruct (kheap_sound heap1 _ Hr) as (_ & _ & _ & _ & H).
  destruct (H 0x80011f80 128) as (s' & E & _); [reflexivity | exists s'; exact E].
Defined.

(** ** Running out of pages *)

(** An allocator that hands out pages upwards; [fails] says which of the
    coming requests are refused. *)
#[global] Instance bump_alloc : PageAlloc (Z * list bool) := {
  pa_alloc := fun s n => match s.2 with
                         | true :: f => Ok ((s.1, f), 0)
                         | f => Ok ((s.1 + n * PAGE_SIZE, tail f), s.1)
                         end;
  pa_free := fun s _ => Ok s
}.

Fixpoint kmallocs {S} `{PageAlloc S} (k : nat) (s : kmem S) (sz : Z) : res (kmem S) :=
  match k with
  | O => Ok s
  | Datatypes.S k => let* (s, _) := kmalloc s sz in kmallocs k s sz
  end.

(** Every second request is refused, 256 times: always the page for the
    pagerefs. *)
Definition scarce : kmem (Z * list bool) := kmem0 (0x80000000, mjoin (replicate 256 [false; true])).

(** A request that succeeds after [r], with a block that cannot be freed. *)
Definition leak_check (r : res (kmem (Z * list bool))) : bool :=
  match r with
  | Ok s =>
    match kmalloc s 16 with
    | Ok (s, p) => negb (p =? 0) && match kfree s p with Fault Assertion => true | _ => false end
    | Fault _ => false
    end
  | Fault _ => false
  end.

Lemma leak_check_true r :
  leak_check r = true -> exists s s' p, r = Ok s /\ kmalloc s 16 = Ok (s', p) /\ p <> 0 /\ kfree s' p = Fault Assertion.
Proof.
  destruct r as [s | ]; [cbn [leak_check] | done]. destruct (kmalloc s 16) as [[s' p] | ] eqn:E; [ | done]. intros [Hp Hf]%andb_true_iff.
  bool_inv. exists s, s', p. split; [done |]. split; [done |]. split; [done |]. by destruct (kfree s' p) as [ | []].
Qed.

(** A pageref that has been marked in use stays so when no page can be had
    to put it on.  After 256 such failures the first root is full without a
    page; memory is back, the next kmalloc succeeds from the second root, and
    the kfree of its block runs into the assertion of freepageref that a root
    without a page has no pagerefs in use. *)
Theorem kmalloc_leaks_pagerefs :
  exists s s' p, kmallocs 256 scarce 16 = Ok s /\ kmalloc s 16 = Ok (s', p) /\ p <> 0 /\ kfree s' p = Fault Assertion.
Proof. apply leak_check_true. vm_compute. reflexivity. Qed.
