(* ===== verification/Addrspace.v ===== *)
(** Address spaces and page faults: the user half of
    kern/arch/mips/vm/mipsvm.c.

    An address space is an object with an identity, the kernel address of its
    [struct addrspace]; the coremap refers to it by that address.  The slot
    [tlb_random] overwrites is chosen by the processor and is an argument of
    [vm_fault].  There is one processor: vm_fault runs with interrupts off from
    where it first looks at the coremap and is one step here.  It does not take
    [cm_lock], so it may come in the middle of the other operations, which run
    with interrupts on; the steps of the section on reachable states are cut
    accordingly. *)
From S2P Require Import Prelude Coremap.

Definition DUMBVM_STACKPAGES := 18.
Definition VM_FAULT_READ := 0.
Definition VM_FAULT_WRITE := 1.
Definition VM_FAULT_READONLY := 2.
Definition UPPERTWENTYM := 0xfffff000.

(** [curproc->p_addrspace], or NULL when there is no process. *)
Definition proc_getas (s : vm) : option Z :=
  match curproc s with
  | None => None
  | Some as_ => as_
  end.

Definition get_as (s : vm) (a : Z) : res addrspace := access (spaces s !! a).
Definition set_as (s : vm) (a : Z) (sp : addrspace) : vm := with_spaces s (<[a := sp]> (spaces s)).

Definition with_ptable (sp : addrspace) (pt : list page_table_entry) : addrspace :=
  mkAs (as_vbase1 sp) (as_pbase1 sp) (as_npages1 sp) (as_vbase2 sp) (as_pbase2 sp)
    (as_npages2 sp) (as_heapstart sp) (as_heapend sp) (as_stackpbase sp) pt.

Definition page_aligned (x : Z) : bool := Z.land x PAGE_FRAME =? x.

(** ** vm_fault *)

Definition tlb_elo (pa : Z) : Z := Z.lor (Z.lor pa TLBLO_DIRTY) TLBLO_VALID.

(** The assertions on a fault: the address space has been set up. *)
Definition as_set_up (sp : addrspace) : bool :=
  negb (as_vbase1 sp =? 0) && negb (as_pbase1 sp =? 0) && negb (as_npages1 sp =? 0) &&
  negb (as_vbase2 sp =? 0) && negb (as_pbase2 sp =? 0) && negb (as_npages2 sp =? 0) &&
  negb (as_stackpbase sp =? 0) &&
  page_aligned (as_vbase1 sp) && page_aligned (as_pbase1 sp) &&
  page_aligned (as_vbase2 sp) && page_aligned (as_pbase2 sp) &&
  page_aligned (as_stackpbase sp).

(** The address computed from the region the fault is in: [None], outside of
    all three. *)
Definition region_paddr (sp : addrspace) (faultaddress : Z) : option Z :=
  let vbase1 := as_vbase1 sp in
  let vtop1 := u32 (vbase1 + u32 (as_npages1 sp * PAGE_SIZE)) in
  let vbase2 := as_vbase2 sp in
  let vtop2 := u32 (vbase2 + u32 (as_npages2 sp * PAGE_SIZE)) in
  let stackbase := USERSTACK - DUMBVM_STACKPAGES * PAGE_SIZE in
  let stacktop := USERSTACK in
  if (vbase1 <=? faultaddress) && (faultaddress <? vtop1) then
    Some (u32 (faultaddress - vbase1 + as_pbase1 sp))
  else if (vbase2 <=? faultaddress) && (faultaddress <? vtop2) then
    Some (u32 (faultaddress - vbase2 + as_pbase2 sp))
  else if (stackbase <=? faultaddress) && (faultaddress <? stacktop) then
    Some (u32 (faultaddress - stackbase + as_stackpbase sp))
  else None.

Definition owns (a fa : Z) (e : coremap_entry) : bool :=
  bool_decide (ce_as e = Some a) && (ce_va e =? fa).

(** The first search: the frame of the first page table entry for the
    address, when the coremap still has a frame for it. *)
Fixpoint find_mapped (pt : list page_table_entry) (c : list coremap_entry) (a fa : Z) : option Z :=
  match pt with
  | [] => None
  | p :: pt =>
    if (pt_va p =? fa) && existsb (owns a fa) c then Some (pt_pa p)
    else find_mapped pt c a fa
  end.

(** The frame for a new page: the first free one, not counting frame 0, or
    else the first that belongs to somebody else. *)
Definition pick_frame (c : list coremap_entry) (a : Z) : option Z :=
  match find_index (fun e => bool_decide (ce_st e = FREE)) (drop 1 c) 1 with
  | Some j => Some j
  | None => find_index (fun e => negb (bool_decide (ce_as e = Some a))) c 0
  end.

(** The second search: every unused page table entry met is marked valid for
    the address, and the first for which there is a frame gets it. *)
Fixpoint place (pt : list page_table_entry) (c : list coremap_entry) (a fa : Z)
    : res (list page_table_entry * option (Z * list coremap_entry)) :=
  match pt with
  | [] => Ok ([], None)
  | p :: pt =>
    if pt_valid p =? 0 then
      match pick_frame c a with
      | Some j =>
        let* e := access (zget c j) in
        let* c' := access (zput c j (mkEntry (Some a) fa (ce_pa e) DIRTY)) in
        Ok (mkPte fa (ce_pa e) 1 :: pt, Some (ce_pa e, c'))
      | None =>
        let* (pt', r) := place pt c a fa in Ok (mkPte fa (pt_pa p) 1 :: pt', r)
      end
    else
      let* (pt', r) := place pt c a fa in Ok (p :: pt', r)
  end.

(** The last resort: a TLB slot that is not valid. *)
Fixpoint tlb_unused (k : nat) (s : vm) (i ehi elo' : Z) : res (vm * Z) :=
  match k with
  | O => Ok (s, EFAULT)
  | S k =>
    let* (_, elo) := tlb_read s i in
    if Z.land elo TLBLO_VALID =? 0 then
      let* s := tlb_write s ehi elo' i in Ok (s, 0)
    else tlb_unused k s (i + 1) ehi elo'
  end.

(** What vm_fault does, with interrupts off, once the fault is known to be in
    a region. *)
Definition map_page (s : vm) (a : Z) (sp : addrspace) (slot fa paddr : Z) : res (vm * Z) :=
  match find_mapped (ptable sp) (cm s) a fa with
  | Some pa => let* s := tlb_random s slot fa (tlb_elo pa) in Ok (s, 0)
  | None =>
    let* (pt, r) := place (ptable sp) (cm s) a fa in
    let s := set_as s a (with_ptable sp pt) in
    match r with
    | Some (pa, c) =>
      let* s := tlb_random (with_cm s c) slot fa (tlb_elo pa) in Ok (s, 0)
    | None => tlb_unused 64 s 0 fa (tlb_elo paddr)
    end
  end.

Definition vm_fault (s : vm) (slot faulttype faultaddress : Z) : res (vm * Z) :=
  let faultaddress := Z.land faultaddress PAGE_FRAME in
  if faulttype =? VM_FAULT_READONLY then Fault PanicCall
  else if negb ((faulttype =? VM_FAULT_READ) || (faulttype =? VM_FAULT_WRITE)) then Ok (s, EINVAL)
  else
    match curproc s with
    | None => Ok (s, EFAULT)
    | Some _ =>
      match proc_getas s with
      | None =>
        match List.find (fun e => ce_va e =? Z.land faultaddress UPPERTWENTYM) (cm s) with
        | Some e =>
          let* s := tlb_random s slot faultaddress (tlb_elo (ce_pa e)) in Ok (s, 0)
        | None => Ok (s, EFAULT)
        end
      | Some a =>
        let* sp := get_as s a in
        kassert (as_set_up sp) (
        match region_paddr sp faultaddress with
        | None => Ok (s, EFAULT)
        | Some paddr =>
          kassert (page_aligned paddr) (
          map_page s a sp slot faultaddress paddr)
        end)
      end
    end.

(** ** Address spaces *)

(** kmalloc and kfree of an object of a page or more: whole pages. *)
Definition kmalloc_pages (s : vm) (sz : Z) : res (vm * Z) :=
  let npages := u32 (u32 (sz + PAGE_SIZE) - 1) / PAGE_SIZE in
  let* (s, address) := alloc_kpages s npages in
  if address =? 0 then Ok (s, 0)
  else kassert (address mod PAGE_SIZE =? 0) (Ok (s, address)).

Definition kfree_pages (s : vm) (ptr : Z) : res vm :=
  kassert (ptr mod PAGE_SIZE =? 0) (free_kpages s ptr).

(** Ten words and the page table. *)
Definition sizeof_addrspace := 40 + 12 * PTABLESIZE.

Definition empty_pte : page_table_entry := mkPte 0xdeadbeef 0xdeadbeef 0.

Definition new_as : addrspace :=
  mkAs 0 0 0 0 0 0 None None 0 (repeat empty_pte (Z.to_nat PTABLESIZE)).

Definition as_create (s : vm) : res (vm * option Z) :=
  let* (s, a) := kmalloc_pages s sizeof_addrspace in
  if a =? 0 then Ok (s, None) else Ok (set_as s a new_as, Some a).

Definition as_destroy (s : vm) (a : Z) : res vm :=
  let* _ := dumbvm_can_sleep s in
  let* s := kfree_pages s a in
  Ok (with_spaces s (delete a (spaces s))).

Fixpoint tlb_invalidate (k : nat) (i : Z) (s : vm) : res vm :=
  match k with
  | O => Ok s
  | S k =>
    let* s := tlb_write s (TLBHI_INVALID i) TLBLO_INVALID i in tlb_invalidate k (i + 1) s
  end.

Definition as_activate (s : vm) : res vm :=
  match proc_getas s with
  | None => Ok s
  | Some _ => let* s := vm_tlbshootdown_all s in tlb_invalidate 64 0 s
  end.

Definition as_deactivate (s : vm) : vm := s.

Definition as_define_region (s : vm) (a vaddr sz : Z) : res (vm * Z) :=
  let* _ := dumbvm_can_sleep s in
  let sz := u32 (sz + Z.land vaddr (u32 (Z.lnot PAGE_FRAME))) in
  let vaddr := Z.land vaddr PAGE_FRAME in
  let sz := Z.land (u32 (u32 (sz + PAGE_SIZE) - 1)) PAGE_FRAME in
  let npages := sz / PAGE_SIZE in
  let* sp := get_as s a in
  if as_vbase1 sp =? 0 then
    Ok (set_as s a (mkAs vaddr (as_pbase1 sp) npages (as_vbase2 sp) (as_pbase2 sp)
          (as_npages2 sp) (as_heapstart sp) (as_heapend sp) (as_stackpbase sp) (ptable sp)), 0)
  else if as_vbase2 sp =? 0 then
    Ok (set_as s a (mkAs (as_vbase1 sp) (as_pbase1 sp) (as_npages1 sp) vaddr (as_pbase2 sp)
          npages (as_heapstart sp) (as_heapend sp) (as_stackpbase sp) (ptable sp)), 0)
  else Ok (s, ENOSYS).

(** Kernel accesses to physical memory go through kseg0, the lowest 512M. *)
Definition kseg0_ok (paddr len : Z) : bool :=
  (0 <=? paddr) && (paddr + len <=? 2 ^ 29).

Definition as_zero_region (s : vm) (paddr npages : Z) : res vm :=
  let len := u32 (npages * PAGE_SIZE) in
  if kseg0_ok paddr len then
    Ok (with_mem s (fun x => if (paddr <=? x) && (x <? paddr + len) then 0 else mem s x))
  else Fault BadAccess.

Definition set_pbase1 (sp : addrspace) (p : Z) : addrspace :=
  mkAs (as_vbase1 sp) p (as_npages1 sp) (as_vbase2 sp) (as_pbase2 sp) (as_npages2 sp)
    (as_heapstart sp) (as_heapend sp) (as_stackpbase sp) (ptable sp).
Definition set_pbase2 (sp : addrspace) (p : Z) : addrspace :=
  mkAs (as_vbase1 sp) (as_pbase1 sp) (as_npages1 sp) (as_vbase2 sp) p (as_npages2 sp)
    (as_heapstart sp) (as_heapend sp) (as_stackpbase sp) (ptable sp).
Definition set_stackpbase (sp : addrspace) (p : Z) : addrspace :=
  mkAs (as_vbase1 sp) (as_pbase1 sp) (as_npages1 sp) (as_vbase2 sp) (as_pbase2 sp) (as_npages2 sp)
    (as_heapstart sp) (as_heapend sp) p (ptable sp).

(** [as->field = KVADDR_TO_PADDR(alloc_kpages(npages));] *)
Definition load_pages (s : vm) (a npages : Z) (field : addrspace -> Z -> addrspace)
    : res (vm * Z) :=
  let* (s, va) := alloc_kpages s npages in
  let* sp := get_as s a in
  let pa := KVADDR_TO_PADDR va in
  Ok (set_as s a (field sp pa), pa).

Definition as_prepare_load (s : vm) (a : Z) : res (vm * Z) :=
  let* sp := get_as s a in
  kassert ((as_pbase1 sp =? 0) && (as_pbase2 sp =? 0) && (as_stackpbase sp =? 0)) (
  let* _ := dumbvm_can_sleep s in
  let* (s, pbase1) := load_pages s a (as_npages1 sp) set_pbase1 in
  if pbase1 =? 0 then Ok (s, ENOMEM)
  else
  let* (s, pbase2) := load_pages s a (as_npages2 sp) set_pbase2 in
  if pbase2 =? 0 then Ok (s, ENOMEM)
  else
  let* (s, stackpbase) := load_pages s a DUMBVM_STACKPAGES set_stackpbase in
  if stackpbase =? 0 then Ok (s, ENOMEM)
  else
  let* s := as_zero_region s pbase1 (as_npages1 sp) in
  let* s := as_zero_region s pbase2 (as_npages2 sp) in
  let* s := as_zero_region s stackpbase DUMBVM_STACKPAGES in
  Ok (s, 0)).

Definition as_complete_load (s : vm) (a : Z) : res Z :=
  let* _ := dumbvm_can_sleep s in Ok 0.

(** The error code and [*stackptr]. *)
Definition as_define_stack (s : vm) (a : Z) : res (Z * Z) :=
  let* sp := get_as s a in
  kassert (negb (as_stackpbase sp =? 0)) (Ok (0, USERSTACK)).

Definition memmove_phys (s : vm) (dst src len : Z) : res vm :=
  if kseg0_ok dst len && kseg0_ok src len then
    Ok (with_mem s (fun x => if (dst <=? x) && (x <? dst + len) then mem s (src + (x - dst)) else mem s x))
  else Fault BadAccess.

(** The error code and [*ret]. *)
Definition as_copy (s : vm) (old : Z) : res (vm * Z * option Z) :=
  let* _ := dumbvm_can_sleep s in
  let* (s, new) := as_create s in
  match new with
  | None => Ok (s, ENOMEM, None)
  | Some new =>
    let* o := get_as s old in
    let* n := get_as s new in
    let s := set_as s new (mkAs (as_vbase1 o) (as_pbase1 n) (as_npages1 o) (as_vbase2 o)
               (as_pbase2 n) (as_npages2 o) (as_heapstart n) (as_heapend n)
               (as_stackpbase n) (ptable n)) in
    let* (s, result) := as_prepare_load s new in
    if negb (result =? 0) then
      let* s := as_destroy s new in Ok (s, ENOMEM, None)
    else
      let* n := get_as s new in
      kassert (negb (as_pbase1 n =? 0) && negb (as_pbase2 n =? 0) && negb (as_stackpbase n =? 0)) (
      let* s := memmove_phys s (as_pbase1 n) (as_pbase1 o) (u32 (as_npages1 o * PAGE_SIZE)) in
      let* s := memmove_phys s (as_pbase2 n) (as_pbase2 o) (u32 (as_npages2 o * PAGE_SIZE)) in
      let* s := memmove_phys s (as_stackpbase n) (as_stackpbase o) (DUMBVM_STACKPAGES * PAGE_SIZE) in
      Ok (s, 0, Some new))
  end.

(** ** The coremap only fills up

    [grew c c']: frames keep their place and address, frames in use are not
    touched, and a frame that was taken has the address of a user page or the
    one it had before. *)
Definition user_page (va : Z) : Prop := 0 <= va < USERSPACETOP.

Definition grew (c c' : list coremap_entry) : Prop :=
  zlen c' = zlen c /\
  forall i e, zget c i = Some e -> exists e', zget c' i = Some e' /\ ce_pa e' = ce_pa e /\
    (ce_st e <> FREE -> e' = e) /\ (ce_va e' = ce_va e \/ user_page (ce_va e')).

#[global] Instance grew_preorder : PreOrder grew.
Proof.
  split.
  - intros c. split; [done |]. intros i e He. exists e. auto.
  - intros c1 c2 c3 [L1 H1] [L2 H2]. split; [lia |]. intros i e He.
    destruct (H1 i e He) as (e2 & He2 & P2 & K2 & V2).
    destruct (H2 i e2 He2) as (e3 & He3 & P3 & K3 & V3).
    exists e3. split; [done |]. split; [congruence |]. split.
    + intros Hst. rewrite <- (K2 Hst). apply K3. by rewrite (K2 Hst).
    + destruct V3 as [-> | ]; auto.
Qed.

Lemma grew_put c i e e' c' :
  zget c i = Some e -> zput c i e' = Some c' -> ce_st e = FREE -> ce_pa e' = ce_pa e ->
  (ce_va e' = ce_va e \/ user_page (ce_va e')) -> grew c c'.
Proof.
  intros He Hput Hst Hpa Hva. split; [by eapply zput_length |].
  intros j x Hx. rewrite (zget_zput _ _ _ _ _ Hput). case_decide as E.
  - subst j. rewrite He in Hx. injection Hx as <-. exists e'. naive_solver.
  - exists x. naive_solver.
Qed.

Lemma page_alloc_grew s i s' va :
  page_alloc s i = Ok (s', va) -> grew (cm s) (cm s') /\ s' = with_cm s (cm s').
Proof.
  unfold page_alloc, page_claim. intros (e & He%access_Ok & [Hst H]%kassert_Ok)%rbind_Ok.
  rewrite He in H. cbn [access rbind] in H. apply rbind_Ok in H as (as_ & _ & H).
  apply rbind_Ok in H as (c & Hc%access_Ok & [= <- _]). split; [ | done].
  eapply grew_put; [done | done | by apply bool_decide_eq_true in Hst | done | by left].
Qed.

(** Whatever [alloc_kpages] returns, the coremap has only filled up. *)
Lemma page_alloc_run_grew k s i s' :
  page_alloc_run k s i = Ok s' -> grew (cm s) (cm s') /\ s' = with_cm s (cm s').
Proof.
  revert s i. induction k as [ | k IH]; intros s i H.
  - injection H as ->. split; [reflexivity | by destruct s'].
  - cbn [page_alloc_run] in H. apply rbind_Ok in H as ([s1 v] & [G1 E1]%page_alloc_grew & H2).
    apply IH in H2 as [G E]. split; [by transitivity (cm s1) |]. rewrite E, E1. done.
Qed.

Lemma alloc_kpages_grew s n s' va :
  alloc_kpages s n = Ok (s', va) -> vm_bootstrap_done s = true ->
  grew (cm s) (cm s') /\ s' = with_cm s (cm s').
Proof.
  unfold alloc_kpages. intros H Hb. rewrite Hb in H. res_inv.
  case_match; res_inv.
  - split; [reflexivity | by destruct s'].
  - eapply page_alloc_run_grew; eassumption.
Qed.

(** What is fixed about the frames of a booted machine: an address recorded
    is of a user page or was never set, and kseg0 can reach the frame. *)
Definition frames_ok (c : list coremap_entry) : Prop :=
  Forall (fun e => (ce_va e = 0xffffffff \/ user_page (ce_va e)) /\ 0 <= ce_pa e < 2 ^ 31) c.

Lemma frames_ok_va c : frames_ok c -> va_user c.
Proof. intros Hf. eapply Forall_impl; [exact Hf |]. by intros e [H _]. Qed.

Lemma zlen_zget {A B} (l : list A) (l' : list B) i x :
  zlen l' = zlen l -> zget l' i = Some x -> exists y, zget l i = Some y.
Proof. intros E H%zget_Some. apply zget_lt. lia. Qed.

Lemma frames_ok_grew c c' : grew c c' -> frames_ok c -> frames_ok c'.
Proof.
  intros [L G]. unfold frames_ok. rewrite !Forall_zget. intros H i e' He'.
  destruct (zlen_zget c c' i e' L He') as [e He].
  destruct (G i e He) as (e2 & He2 & Hpa & _ & Hva). assert (e2 = e') as -> by congruence.
  destruct (H i e He) as [V P]. rewrite Hpa. split; [ | done]. destruct Hva as [-> | ]; auto.
Qed.

Lemma alloc_kpages_addr s n s' va :
  alloc_kpages s n = Ok (s', va) -> vm_bootstrap_done s = true -> frames_ok (cm s) ->
  va = 0 \/ USERSPACETOP <= va < 2 ^ 32.
Proof.
  unfold alloc_kpages. intros H Hb Hf. rewrite Hb in H. res_inv. case_match; res_inv; [by left |].
  right. unfold frames_ok in Hf. rewrite Forall_zget in Hf.
  match goal with H : zget _ _ = Some _ |- _ => apply Hf in H as [_ ?] end.
  unfold PADDR_TO_KVADDR, USERSPACETOP, MIPS_KSEG0. rewrite u32_id by (unfold is_u32; lia). lia.
Qed.

(** [evolves s s']: what every operation but a page fault does to the VM
    system.  The coremap fills up, the TLB stays, and no page table changes
    except that address spaces may go away and new ones start empty. *)
Definition empty_table : list page_table_entry := repeat empty_pte (Z.to_nat PTABLESIZE).

Definition evolves (s s' : vm) : Prop :=
  vm_bootstrap_done s = true -> frames_ok (cm s) ->
  vm_bootstrap_done s' = true /\ grew (cm s) (cm s') /\ tlb s' = tlb s /\ curproc s' = curproc s /\
  forall a sp', spaces s' !! a = Some sp' ->
    ptable sp' = empty_table \/ exists sp, spaces s !! a = Some sp /\ ptable sp' = ptable sp.

#[global] Instance evolves_preorder : PreOrder evolves.
Proof.
  split.
  - intros s Hb Hf. split; [done |]. split; [reflexivity |]. eauto 10.
  - intros s1 s2 s3 E1 E2 Hb Hf. destruct (E1 Hb Hf) as (B1 & G1 & T1 & C1 & S1).
    destruct (E2 B1 (frames_ok_grew _ _ G1 Hf)) as (B2 & G2 & T2 & C2 & S2).
    split; [done |]. split; [by transitivity (cm s2) |]. split; [congruence |]. split; [congruence |].
    intros a sp3 H3. destruct (S2 a sp3 H3) as [ | (sp2 & H2 & ->)]; [by left |].
    by apply S1 in H2.
Qed.

Lemma set_as_evolves s a sp0 sp :
  spaces s !! a = Some sp0 -> ptable sp = ptable sp0 -> evolves s (set_as s a sp).
Proof.
  intros H0 Hp Hb Hf. split; [done |]. split; [reflexivity |]. split; [done |]. split; [done |].
  intros b sp'. unfold set_as. cbn [with_spaces spaces]. intros [[<- <-] | [Hne H]]%lookup_insert_Some.
  - right. eauto.
  - right. eauto.
Qed.

Lemma set_new_evolves s a : evolves s (set_as s a new_as).
Proof.
  intros Hb Hf. split; [done |]. split; [reflexivity |]. split; [done |]. split; [done |].
  intros b sp'. unfold set_as. cbn [with_spaces spaces]. intros [[<- <-] | [Hne H]]%lookup_insert_Some;
    [by left | right; eauto].
Qed.

Lemma alloc_kpages_evolves s n s' va : alloc_kpages s n = Ok (s', va) -> evolves s s'.
Proof.
  intros H Hb Hf. destruct (alloc_kpages_grew _ _ _ _ H Hb) as [G ->].
  split; [done |]. split; [done |]. split; [done |]. split; [done |]. right. eauto.
Qed.

Lemma page_alloc_evolves s i s' va : page_alloc s i = Ok (s', va) -> evolves s s'.
Proof. intros [G ->]%page_alloc_grew Hb Hf. split; [done |]. split; [exact G |]. eauto 10. Qed.

Lemma free_kpages_evolves s addr s' :
  free_kpages s addr = Ok s' -> USERSPACETOP <= addr < 0xffffffff -> evolves s s'.
Proof.
  intros H Ha Hb Hf. assert (booted s) as Hbt.
  { unfold free_kpages in H. apply rbind_Ok in H as ([] & H & _). by apply booted_lock. }
  rewrite (free_kpages_ignores s addr Hbt (frames_ok_va _ Hf) Ha) in H. injection H as <-.
  by apply (reflexivity (R := evolves) s).
Qed.

Lemma kmalloc_pages_evolves s sz s' p : kmalloc_pages s sz = Ok (s', p) -> evolves s s'.
Proof.
  unfold kmalloc_pages. intros H. apply rbind_Ok in H as ([s1 v] & H1 & H2).
  assert (s1 = s') as -> by (case_match; res_inv; done). by eapply alloc_kpages_evolves.
Qed.

Lemma as_create_evolves s s' r : as_create s = Ok (s', r) -> evolves s s'.
Proof.
  unfold as_create. intros H. apply rbind_Ok in H as ([s1 v] & H1%kmalloc_pages_evolves & H2).
  case_match; res_inv; [done |]. transitivity s1; [done | apply set_new_evolves].
Qed.

Lemma as_destroy_evolves s a s' :
  as_destroy s a = Ok s' -> USERSPACETOP <= a < 2 ^ 32 -> evolves s s'.
Proof.
  unfold as_destroy, kfree_pages. intros H Ha. res_inv. bool_inv.
  match goal with H : free_kpages _ _ = Ok ?s1 |- _ =>
    apply free_kpages_evolves in H; [transitivity s1; [done |] | ] end.
  - intros Hb Hf. split; [done |]. split; [reflexivity |]. split; [done |]. split; [done |].
    intros b sp'. cbn [with_spaces spaces]. intros [_ ?]%lookup_delete_Some. eauto.
  - unfold PAGE_SIZE in *. split; [lia |].
    destruct (Z.eq_dec a 0xffffffff) as [-> | ]; [discriminate | lia].
Qed.

Lemma as_define_region_evolves s a va sz s' r :
  as_define_region s a va sz = Ok (s', r) -> evolves s s'.
Proof.
  unfold as_define_region, get_as. intros H. res_inv.
  repeat case_match; res_inv; try reflexivity; by eapply set_as_evolves.
Qed.

Lemma load_pages_evolves s a n field s' r :
  load_pages s a n field = Ok (s', r) -> (forall sp p, ptable (field sp p) = ptable sp) -> evolves s s'.
Proof.
  unfold load_pages, get_as. intros H Hfield. apply rbind_Ok in H as ([s1 v] & H1%alloc_kpages_evolves & H2).
  res_inv. transitivity s1; [done |]. by eapply set_as_evolves.
Qed.

Lemma with_mem_evolves s m : evolves s (with_mem s m).
Proof. intros Hb Hf. split; [done |]. split; [reflexivity |]. cbn. eauto 10. Qed.

Lemma as_zero_region_evolves s p n s' : as_zero_region s p n = Ok s' -> evolves s s'.
Proof. unfold as_zero_region. case_match; intros; res_inv; [apply with_mem_evolves]. Qed.

Lemma memmove_phys_evolves s d src n s' : memmove_phys s d src n = Ok s' -> evolves s s'.
Proof. unfold memmove_phys. case_match; intros; res_inv; [apply with_mem_evolves]. Qed.

(** Peel off one operation of a sequence. *)
Ltac evolve_step :=
  match goal with
  | H : rbind (load_pages _ _ _ _) _ = Ok _ |- evolves _ _ =>
    apply rbind_Ok in H as ([? ?] & ?%load_pages_evolves & H); [etransitivity; [eassumption |] | done]
  | H : rbind (as_zero_region _ _ _) _ = Ok _ |- evolves _ _ =>
    apply rbind_Ok in H as (? & ?%as_zero_region_evolves & H); etransitivity; [eassumption |]
  | H : rbind (memmove_phys _ _ _ _) _ = Ok _ |- evolves _ _ =>
    apply rbind_Ok in H as (? & ?%memmove_phys_evolves & H); etransitivity; [eassumption |]
  | H : (if _ then Ok _ else _) = Ok _ |- evolves _ _ =>
    case_match; [res_inv; reflexivity |]
  end.

Lemma as_prepare_load_evolves s a s' r : as_prepare_load s a = Ok (s', r) -> evolves s s'.
Proof.
  unfold as_prepare_load. intros H. apply rbind_Ok in H as (sp & Hsp & H).
  apply kassert_Ok in H as [_ H]. apply rbind_Ok in H as (_ & _ & H).
  repeat evolve_step. res_inv. reflexivity.
Qed.

Lemma as_create_addr s s' a :
  as_create s = Ok (s', Some a) -> vm_bootstrap_done s = true -> frames_ok (cm s) ->
  USERSPACETOP <= a < 2 ^ 32.
Proof.
  unfold as_create, kmalloc_pages. intros H Hb Hf. apply rbind_Ok in H as ([s1 v] & H1 & H2).
  apply rbind_Ok in H1 as ([s2 v2] & H1 & H3). case_match; res_inv; [done |].
  case_match; res_inv; [done |]. bool_inv.
  by destruct (alloc_kpages_addr _ _ _ _ H1 Hb Hf).
Qed.

Lemma as_copy_evolves s old s' r new : as_copy s old = Ok (s', r, new) -> evolves s s'.
Proof.
  unfold as_copy. intros H. apply rbind_Ok in H as (_ & _ & H).
  apply rbind_Ok in H as ([s1 [n | ]] & Hc & H); [ | res_inv; by eapply as_create_evolves].
  intros Hb Hf. pose proof (as_create_addr _ _ _ Hc Hb Hf) as Haddr. revert Hb Hf.
  change (evolves s s'). transitivity s1; [by eapply as_create_evolves |]. unfold get_as in H.
  apply rbind_Ok in H as (o & Ho & H). apply rbind_Ok in H as (nw & Hn & H).
  apply rbind_Ok in H as ([s2 res] & Hl%as_prepare_load_evolves & H).
  transitivity s2; [etransitivity; [ | exact Hl]; apply access_Ok in Hn; by eapply set_as_evolves |].
  case_match.
  - apply rbind_Ok in H as (s3 & Hd & H). res_inv. by eapply as_destroy_evolves.
  - apply rbind_Ok in H as (n2 & _ & H). apply kassert_Ok in H as [_ H].
    repeat evolve_step. res_inv. reflexivity.
Qed.

(** ** The invariant

    [owned c a va pa]: the coremap has the frame at [pa] in use for page [va]
    of address space [a]. *)
Definition owned (c : list coremap_entry) (a va pa : Z) : Prop :=
  exists i e, zget c i = Some e /\ ce_st e <> FREE /\ ce_as e = Some a /\ ce_va e = va /\ ce_pa e = pa.

Definition frames_distinct (c : list coremap_entry) : Prop :=
  forall i j e e', zget c i = Some e -> zget c j = Some e' -> ce_pa e = ce_pa e' -> i = j.

Record pt_inv (c : list coremap_entry) (a : Z) (pt : list page_table_entry) : Prop := {
  pt_frames : forall p, p ∈ pt -> pt_valid p <> 0 -> user_page (pt_va p) /\ owned c a (pt_va p) (pt_pa p);
  pt_unused : forall p, p ∈ pt -> pt_valid p = 0 -> pt_va p = 0xdeadbeef;
  pt_once : forall i j p q, pt !! i = Some p -> pt !! j = Some q -> pt_valid p <> 0 -> pt_valid q <> 0 ->
    pt_va p = pt_va q -> i = j
}.

Definition tlb_ok (s : vm) : Prop :=
  zlen (tlb s) = NUM_TLB /\
  forall a i hi lo, curproc s = Some (Some a) -> zget (tlb s) i = Some (hi, lo) ->
    Z.land lo TLBLO_VALID <> 0 -> exists pa, lo = tlb_elo pa /\ owned (cm s) a hi pa.

Record vm_inv (s : vm) : Prop := {
  inv_boot : vm_bootstrap_done s = true;
  inv_frames : frames_ok (cm s);
  inv_distinct : frames_distinct (cm s);
  inv_tables : forall a sp, spaces s !! a = Some sp -> pt_inv (cm s) a (ptable sp);
  inv_tlb : tlb_ok s
}.

Lemma owned_grew c c' a va pa : grew c c' -> owned c a va pa -> owned c' a va pa.
Proof.
  intros [_ G] (i & e & He & Hst & H). destruct (G i e He) as (e' & He' & _ & K & _).
  exists i, e. by rewrite <- (K Hst) at 1.
Qed.

Lemma frames_distinct_grew c c' : grew c c' -> frames_distinct c -> frames_distinct c'.
Proof.
  intros [L G] H i j e1 e2 H1 H2 Hpa.
  destruct (zlen_zget c c' i e1 L H1) as [d1 D1], (zlen_zget c c' j e2 L H2) as [d2 D2].
  destruct (G i d1 D1) as (x1 & X1 & P1 & _), (G j d2 D2) as (x2 & X2 & P2 & _).
  apply (H i j d1 d2 D1 D2). congruence.
Qed.

Lemma pt_inv_grew c c' a pt : grew c c' -> pt_inv c a pt -> pt_inv c' a pt.
Proof.
  intros G [F U O]. split; [ | done | done]. intros p Hp Hv. destruct (F p Hp Hv).
  split; [done | by eapply owned_grew].
Qed.

Lemma pt_inv_empty c a : pt_inv c a empty_table.
Proof.
  assert (forall p, p ∈ empty_table -> p = empty_pte) as E.
  { intros p Hp%list_elem_of_In%repeat_spec. done. }
  split.
  - intros p ->%E. done.
  - intros p ->%E. done.
  - intros i j p q Hp%list_elem_of_lookup_2%E _ Hv. by subst p.
Qed.

Lemma vm_inv_evolves s s' : vm_inv s -> evolves s s' -> vm_inv s'.
Proof.
  intros [B F D T [L H]] E. destruct (E B F) as (B' & G & Ht & Hc & S'). split.
  - done.
  - by eapply frames_ok_grew.
  - by eapply frames_distinct_grew.
  - intros a sp' Hsp'. destruct (S' a sp' Hsp') as [-> | (sp & Hsp & ->)]; [apply pt_inv_empty |].
    eapply pt_inv_grew; [done | by apply T].
  - unfold tlb_ok. rewrite Ht, Hc. split; [done |]. intros a i hi lo Ha Hi Hv.
    destruct (H a i hi lo Ha Hi Hv) as (pa & -> & Ho). exists pa. split; [done | by eapply owned_grew].
Qed.

(** ** A fault *)

Lemma owned_existsb c a fa pa : owned c a fa pa -> existsb (owns a fa) c = true.
Proof.
  intros (i & e & He & _ & Ha & Hva & _). apply existsb_exists. exists e. split.
  - unfold zget in He. destruct (i <? 0); [done |]. by apply list_elem_of_lookup_2, list_elem_of_In in He.
  - unfold owns. by rewrite bool_decide_eq_true_2, Hva, Z.eqb_refl by done.
Qed.

Lemma find_mapped_Some pt c a fa pa :
  find_mapped pt c a fa = Some pa -> exists p, p ∈ pt /\ pt_va p = fa /\ pt_pa p = pa.
Proof.
  induction pt as [ | p pt IH]; [done |]. simpl. destruct (pt_va p =? fa) eqn:E; simpl.
  - destruct (existsb _ _); [ | intros (q & ? & ?)%IH; exists q; set_solver].
    intros [= <-]. bool_inv. exists p. set_solver.
  - intros (q & ? & ?)%IH; exists q; set_solver.
Qed.

(** Under the invariant the first search finds exactly the valid entry for
    the page. *)
Lemma find_mapped_valid c a pt fa p :
  pt_inv c a pt -> user_page fa -> p ∈ pt -> pt_valid p <> 0 -> pt_va p = fa ->
  find_mapped pt c a fa = Some (pt_pa p).
Proof.
  intros [F U O] Hu Hp Hv Hva. destruct (F p Hp Hv) as [_ Hex%owned_existsb]. rewrite Hva in Hex.
  apply list_elem_of_lookup_1 in Hp as [i Hi].
  assert (forall l k, (forall j q, l !! j = Some q -> pt !! (k + j)%nat = Some q) ->
    l !! (i - k)%nat = Some p -> (k <= i)%nat -> find_mapped l c a fa = Some (pt_pa p)) as Hgen.
  { induction l as [ | q l IH]; intros k Hl Hip Hk; [by rewrite lookup_nil in Hip |]. simpl.
    rewrite Hex, andb_true_r. destruct (Z.eqb_spec (pt_va q) fa) as [Hq | Hq].
    - pose proof (Hl 0%nat q eq_refl) as Hk0. rewrite Nat.add_0_r in Hk0.
      assert (pt_valid q <> 0) as Hqv.
      { intros Hq0. apply list_elem_of_lookup_2 in Hk0. apply U in Hk0; [ | done].
        unfold user_page, USERSPACETOP, MIPS_KSEG0 in Hu. lia. }
      assert (k = i) as -> by (eapply (O k i q p); congruence). congruence.
    - destruct (decide (k = i)) as [-> | Hne].
      + rewrite Nat.sub_diag in Hip. simpl in Hip. congruence.
      + apply (IH (S k)); [ | | lia].
        * intros j r Hr. replace (S k + j)%nat with (k + S j)%nat by lia. by apply Hl.
        * replace (i - k)%nat with (S (i - S k)) in Hip by lia. done. }
  apply (Hgen pt 0%nat); [done | by rewrite Nat.sub_0_r | lia].
Qed.

Lemma find_index_from {A} (P : A -> bool) l i :
  match find_index P l i with
  | Some j => i <= j /\ exists x, l !! Z.to_nat (j - i) = Some x /\ P x = true
  | None => forall x, x ∈ l -> P x = false
  end.
Proof.
  revert i. induction l as [ | x l IH]; intros i; simpl; [set_solver |].
  destruct (P x) eqn:E.
  - split; [lia |]. exists x. by rewrite Z.sub_diag.
  - specialize (IH (i + 1)). destruct (find_index P l (i + 1)) as [j | ].
    + destruct IH as [Hj (y & Hy & HP)]. split; [lia |]. exists y.
      by replace (Z.to_nat (j - i)) with (S (Z.to_nat (j - (i + 1)))) by lia.
    + intros y [-> | Hy]%elem_of_cons; [done | by apply IH].
Qed.

(** With a free frame other than frame 0, the frame picked is free. *)
Lemma pick_frame_free c a j0 :
  1 <= j0 -> free_at c j0 ->
  exists j e, pick_frame c a = Some j /\ zget c j = Some e /\ ce_st e = FREE.
Proof.
  intros Hj (e0 & He0 & Hst0). unfold pick_frame.
  pose proof (find_index_from (fun e => bool_decide (ce_st e = FREE)) (drop 1 c) 1) as H.
  destruct (find_index _ _ _) as [j | ].
  - destruct H as [Hj1 (e & He & Hst)]. exists j, e. split; [done |]. rewrite lookup_drop in He.
    split; [ | by apply bool_decide_eq_true in Hst]. unfold zget. rewrite (proj2 (Z.ltb_ge _ _)) by lia.
    by replace (Z.to_nat j) with (1 + Z.to_nat (j - 1))%nat by lia.
  - unfold zget in He0. rewrite (proj2 (Z.ltb_ge _ _)) in He0 by lia.
    assert (e0 ∈ drop 1 c) as Hin.
    { apply list_elem_of_lookup. exists (Z.to_nat (j0 - 1)). rewrite lookup_drop.
      by replace (1 + Z.to_nat (j0 - 1))%nat with (Z.to_nat j0) by lia. }
    apply H in Hin. by apply bool_decide_eq_false in Hin.
Qed.

Lemma place_spec pt c a fa j e :
  pick_frame c a = Some j -> zget c j = Some e -> (exists p, p ∈ pt /\ pt_valid p = 0) ->
  exists l1 p l2 c', pt = l1 ++ p :: l2 /\ pt_valid p = 0 /\
    zput c j (mkEntry (Some a) fa (ce_pa e) DIRTY) = Some c' /\
    place pt c a fa = Ok (l1 ++ mkPte fa (ce_pa e) 1 :: l2, Some (ce_pa e, c')).
Proof.
  intros Hpick He. induction pt as [ | p pt IH]; intros (p0 & Hp0 & Hv0); [set_solver |].
  destruct (zput_lt c j (mkEntry (Some a) fa (ce_pa e) DIRTY)) as [c' Hc']; [by eapply zget_Some |].
  cbn [place]. destruct (Z.eqb_spec (pt_valid p) 0) as [Hv | Hv].
  - exists [], p, pt, c'. rewrite Hpick, He. cbn [access rbind]. rewrite Hc'. done.
  - destruct IH as (l1 & q & l2 & c2 & -> & Hq & Hput & ->).
    { apply elem_of_cons in Hp0 as [-> | ]; [done | by exists p0]. }
    exists (p :: l1), q, l2, c2. done.
Qed.

Lemma tlb_random_ok s slot hi lo :
  0 <= slot < zlen (tlb s) ->
  exists t, tlb_random s slot hi lo = Ok (with_tlb s t) /\ zlen t = zlen (tlb s) /\
    forall i, zget t i = if decide (i = slot) then Some (hi, lo) else zget (tlb s) i.
Proof.
  intros Hs. destruct (zput_lt (tlb s) slot (hi, lo) Hs) as [t Ht]. exists t.
  unfold tlb_random, tlb_write. rewrite Ht. split; [done |].
  split; [by eapply zput_length | intros i; by apply zget_zput].
Qed.

(** Entering an owned page into the TLB keeps the invariant. *)
Lemma tlb_random_inv s slot a fa pa :
  vm_inv s -> 0 <= slot < NUM_TLB -> curproc s = Some (Some a) -> owned (cm s) a fa pa ->
  exists t, tlb_random s slot fa (tlb_elo pa) = Ok (with_tlb s t) /\ vm_inv (with_tlb s t) /\
    zget t slot = Some (fa, tlb_elo pa).
Proof.
  intros [B F D T [L H]] Hs Hc Ho.
  destruct (tlb_random_ok s slot fa (tlb_elo pa)) as (t & E & Lt & G); [lia |].
  exists t. split; [done |]. split; [ | by rewrite G, decide_True by done].
  split; [done | done | done | done |]. split; [cbn; lia |].
  intros b i hi lo Hb Hi Hv. cbn [with_tlb tlb cm curproc] in *. rewrite G in Hi.
  case_decide; [ | by eapply H]. assert (b = a) as -> by congruence. injection Hi as <- <-. eauto.
Qed.

(** What the faulting process gets. *)
Definition mapped (s : vm) (a slot fa pa : Z) : Prop :=
  zget (tlb s) slot = Some (fa, tlb_elo pa) /\ owned (cm s) a fa pa /\
  exists sp, spaces s !! a = Some sp /\ find_mapped (ptable sp) (cm s) a fa = Some pa.

Definition has_room (s : vm) (a : Z) (sp : addrspace) (fa : Z) : Prop :=
  find_mapped (ptable sp) (cm s) a fa <> None \/
  ((exists j, 1 <= j /\ free_at (cm s) j) /\ exists p, p ∈ ptable sp /\ pt_valid p = 0).

(** A new page table entry in an unused slot, for a page not in the table. *)
Lemma pt_inv_add c a l1 p l2 fa pa :
  pt_inv c a (l1 ++ p :: l2) -> pt_valid p = 0 -> user_page fa -> owned c a fa pa ->
  (forall q, q ∈ l1 ++ p :: l2 -> pt_valid q <> 0 -> pt_va q <> fa) ->
  pt_inv c a (l1 ++ mkPte fa pa 1 :: l2).
Proof.
  intros [F U O] Hp Hu Ho Hnew.
  assert (Hother : forall i q, (l1 ++ mkPte fa pa 1 :: l2) !! i = Some q ->
    (i = length l1 /\ q = mkPte fa pa 1) \/ (i <> length l1 /\ (l1 ++ p :: l2) !! i = Some q)).
  { intros i q. destruct (decide (i = length l1)) as [-> | Hne].
    - rewrite list_lookup_middle by done. intros [= <-]. by left.
    - intros Hq. right. split; [done |]. rewrite <- Hq. destruct (decide (i < length l1)%nat).
      + by rewrite !lookup_app_l by done.
      + rewrite !lookup_app_r by lia. by destruct (i - length l1)%nat eqn:E; [lia |]. }
  split.
  - intros q [i Hi]%list_elem_of_lookup_1 Hv. destruct (Hother i q Hi) as [[_ ->] | [_ Hq]]; [done |].
    apply F; [by eapply list_elem_of_lookup_2 | done].
  - intros q [i Hi]%list_elem_of_lookup_1 Hv. destruct (Hother i q Hi) as [[_ ->] | [_ Hq]]; [done |].
    apply U; [by eapply list_elem_of_lookup_2 | done].
  - intros i j q r Hi Hj Hq Hr E.
    destruct (Hother i q Hi) as [[-> ->] | [_ Hq']], (Hother j r Hj) as [[-> ->] | [_ Hr']].
    + done.
    + exfalso. apply (Hnew r); [by eapply list_elem_of_lookup_2 | done | done].
    + exfalso. apply (Hnew q); [by eapply list_elem_of_lookup_2 | done | done].
    + by eapply O.
Qed.

(** A page table with a new entry and the coremap with the frame it takes. *)
Lemma vm_inv_place s a sp pt c' :
  vm_inv s -> grew (cm s) c' -> pt_inv c' a pt ->
  vm_inv (with_cm (set_as s a (with_ptable sp pt)) c').
Proof.
  intros [B F D T [L H]] G PT. split; [done | by eapply frames_ok_grew |
    by eapply frames_distinct_grew | | ].
  - intros b spb. unfold set_as. cbn [with_cm with_spaces spaces cm].
    intros [[<- <-] | [Hne Hb]]%lookup_insert_Some; [done |].
    eapply pt_inv_grew; [done | by apply T].
  - split; [done |]. intros b i hi lo Hb Hi Hv. destruct (H b i hi lo Hb Hi Hv) as (pa & -> & Hb').
    exists pa. split; [done |]. by eapply owned_grew.
Qed.

(** The part of a fault after the region check, when there is room. *)
Lemma map_page_ok s a sp slot fa paddr :
  vm_inv s -> 0 <= slot < NUM_TLB -> user_page fa ->
  curproc s = Some (Some a) -> spaces s !! a = Some sp -> has_room s a sp fa ->
  exists s' pa, map_page s a sp slot fa paddr = Ok (s', 0) /\ vm_inv s' /\ mapped s' a slot fa pa /\
    grew (cm s) (cm s') /\ curproc s' = curproc s /\
    (forall b, b <> a -> spaces s' !! b = spaces s !! b) /\
    (exists pt, spaces s' !! a = Some (with_ptable sp pt)).
Proof.
  intros Inv Hs Hu Hc Hsp Hroom. pose proof (inv_tables _ Inv a sp Hsp) as PT. unfold map_page.
  assert (with_ptable sp (ptable sp) = sp) as Hid by (by destruct sp).
  destruct (find_mapped (ptable sp) (cm s) a fa) as [pa | ] eqn:Hfm.
  - pose proof (find_mapped_Some _ _ _ _ _ Hfm) as (p & Hp & Hva & Hpa).
    assert (pt_valid p <> 0) as Hv.
    { intros H0%(pt_unused _ _ _ PT p Hp). unfold user_page, USERSPACETOP, MIPS_KSEG0 in Hu. lia. }
    destruct (pt_frames _ _ _ PT p Hp Hv) as [_ Ho]. rewrite Hva, Hpa in Ho.
    destruct (tlb_random_inv s slot a fa pa Inv Hs Hc Ho) as (t & -> & Inv' & Ht).
    eexists _, pa. split; [reflexivity |]. split; [done |]. split; [by split; [ | eauto] |].
    split; [reflexivity |]. split; [done |]. split; [done |]. exists (ptable sp). cbn. by rewrite Hid.
  - destruct Hroom as [ | [(j0 & Hj0 & Hfree) Hinv]]; [done |].
    destruct (pick_frame_free (cm s) a j0 Hj0 Hfree) as (j & e & Hpick & He & Hst).
    destruct (place_spec (ptable sp) (cm s) a fa j e Hpick He Hinv)
      as (l1 & p & l2 & c' & Hpt & Hp & Hput & ->). cbn [rbind].
    assert (grew (cm s) c') as G.
    { eapply grew_put; [done | done | done | done | by right]. }
    assert (owned c' a fa (ce_pa e)) as Ho.
    { eexists j, _. rewrite (zget_zput _ _ _ _ _ Hput), decide_True by done. split; [done |]. done. }
    set (s1 := with_cm (set_as s a (with_ptable sp (l1 ++ mkPte fa (ce_pa e) 1 :: l2))) c').
    assert (PT' : pt_inv c' a (l1 ++ mkPte fa (ce_pa e) 1 :: l2)).
    { rewrite Hpt in PT. eapply pt_inv_add; [by eapply pt_inv_grew | done | done | done |].
      intros q Hq Hv Hva. rewrite <- Hpt in *. by rewrite (find_mapped_valid _ _ _ _ _ PT Hu Hq Hv Hva) in Hfm. }
    pose proof (vm_inv_place s a sp _ c' Inv G PT' : vm_inv s1) as Inv1.
    destruct (tlb_random_inv s1 slot a fa (ce_pa e) Inv1 Hs Hc Ho) as (t & E & Inv' & Ht).
    fold s1. rewrite E. cbn [rbind].
    assert (Hsp1 : spaces s1 !! a = Some (with_ptable sp (l1 ++ mkPte fa (ce_pa e) 1 :: l2))).
    { unfold s1, set_as. cbn. apply lookup_insert_eq. }
    eexists _, (ce_pa e). split; [reflexivity |]. split; [done |]. split.
    { split; [done |]. split; [done |]. eexists. split; [exact Hsp1 |]. cbn [with_ptable ptable].
      apply (find_mapped_valid c' a _ fa (mkPte fa (ce_pa e) 1)); [done | done | set_solver | done | done]. }
    split; [done |]. split; [done |]. split; [ | by eauto].
    intros b Hb. unfold s1, set_as. cbn. by apply lookup_insert_ne.
Qed.

Lemma user_page_frame addr : user_page addr -> user_page (Z.land addr PAGE_FRAME).
Proof.
  unfold user_page, USERSPACETOP, MIPS_KSEG0. intros H.
  rewrite page_frame_spec by (unfold is_u32; lia). unfold PAGE_SIZE. div_lia.
Qed.

(** The two kinds of access a fault can be resolved for. *)
Definition rw (faulttype : Z) : Prop := faulttype = VM_FAULT_READ \/ faulttype = VM_FAULT_WRITE.

Lemma vm_fault_eq s slot ft addr a sp :
  rw ft -> curproc s = Some (Some a) -> spaces s !! a = Some sp ->
  let fa := Z.land addr PAGE_FRAME in
  vm_fault s slot ft addr =
  kassert (as_set_up sp)
    match region_paddr sp fa with
    | None => Ok (s, EFAULT)
    | Some paddr => kassert (page_aligned paddr) (map_page s a sp slot fa paddr)
    end.
Proof.
  intros Hrw Hc Hsp fa. unfold vm_fault. unfold fa.
  assert ((ft =? VM_FAULT_READONLY) = false /\ (ft =? VM_FAULT_READ) || (ft =? VM_FAULT_WRITE) = true) as [-> ->].
  { by destruct Hrw as [-> | ->]. }
  cbn [negb]. unfold proc_getas. rewrite Hc. unfold get_as. by rewrite Hsp.
Qed.

Lemma as_set_up_region sp fa paddr :
  as_set_up sp = true -> is_u32 fa -> fa mod PAGE_SIZE = 0 -> region_paddr sp fa = Some paddr ->
  page_aligned paddr = true.
Proof.
  unfold as_set_up. intros Hset Hfa Hal. bool_inv.
  assert (Hmod : forall x, is_u32 x -> page_aligned x = true <-> x mod PAGE_SIZE = 0).
  { intros x Hx. unfold page_aligned. rewrite page_frame_spec by done. rewrite Z.eqb_eq. lia. }
  assert (Hal' : forall x, page_aligned x = true -> x mod PAGE_SIZE = 0).
  { intros x Hx. unfold page_aligned in Hx. bool_inv. rewrite <- Hx.
    change PAGE_FRAME with (Z.shiftl (Z.ones 20) 12). change PAGE_SIZE with (2 ^ 12).
    rewrite <- Z.land_ones, <- Z.land_assoc by lia. change (Z.land (Z.shiftl (Z.ones 20) 12) (Z.ones 12)) with 0.
    apply Z.land_0_r. }
  assert (Hsum : forall x y, x mod PAGE_SIZE = 0 -> y mod PAGE_SIZE = 0 ->
     page_aligned (u32 (fa - x + y)) = true).
  { intros x y Hx Hy. apply Hmod; [apply u32_range |]. unfold u32, PAGE_SIZE in *. div_lia. }
  unfold region_paddr. intros Hr. repeat case_match; simplify_eq; apply Hsum; auto.
Qed.

Lemma page_frame_props addr :
  user_page addr -> let fa := Z.land addr PAGE_FRAME in
  user_page fa /\ is_u32 fa /\ fa mod PAGE_SIZE = 0.
Proof.
  intros H fa. pose proof (user_page_frame addr H) as Hu. fold fa in Hu.
  unfold user_page, USERSPACETOP, MIPS_KSEG0, is_u32 in *. split; [done |]. split; [lia |].
  unfold fa. rewrite page_frame_spec by (unfold is_u32; lia). unfold PAGE_SIZE. div_lia.
Qed.

(** A page that is mapped already keeps its frame. *)
Lemma vm_fault_again s slot ft addr a sp paddr pa :
  vm_inv s -> 0 <= slot < NUM_TLB -> rw ft -> curproc s = Some (Some a) -> spaces s !! a = Some sp ->
  as_set_up sp = true -> user_page addr ->
  region_paddr sp (Z.land addr PAGE_FRAME) = Some paddr ->
  find_mapped (ptable sp) (cm s) a (Z.land addr PAGE_FRAME) = Some pa ->
  exists t, vm_fault s slot ft addr = Ok (with_tlb s t, 0) /\
    zget t slot = Some (Z.land addr PAGE_FRAME, tlb_elo pa).
Proof.
  intros Inv Hs Hrw Hc Hsp Hset Hu Hreg Hfm. destruct (page_frame_props addr Hu) as (_ & Hf & Hal).
  rewrite (vm_fault_eq s slot ft addr a sp Hrw Hc Hsp), Hset, Hreg. cbn [kassert].
  rewrite (as_set_up_region sp _ paddr Hset Hf Hal Hreg). cbn [kassert]. unfold map_page. rewrite Hfm.
  destruct (tlb_random_ok s slot (Z.land addr PAGE_FRAME) (tlb_elo pa)) as (t & -> & _ & G).
  { destruct (inv_tlb _ Inv). lia. }
  exists t. split; [done |]. by rewrite G, decide_True by done.
Qed.

(** C4: a read or write fault on a page inside a region of the current address
    space is resolved whenever the page is mapped already, or a frame other
    than frame 0 is free and the page table has an unused entry.  The TLB then
    maps the page to a frame the coremap records for exactly this page of this
    address space, frames in use and other address spaces are untouched, the
    invariant is kept, and a later fault on the page, in whatever TLB slot the
    processor picks, maps it to the same frame. *)
Theorem vm_fault_maps s slot ft addr a sp paddr
  (Inv : vm_inv s) (Hs : 0 <= slot < NUM_TLB) (Hrw : rw ft) (Hc : curproc s = Some (Some a))
  (Hsp : spaces s !! a = Some sp) (Hset : as_set_up sp = true) (Hu : user_page addr)
  (Hreg : region_paddr sp (Z.land addr PAGE_FRAME) = Some paddr)
  (Hroom : has_room s a sp (Z.land addr PAGE_FRAME)) :
  exists s' pa, vm_fault s slot ft addr = Ok (s', 0) /\ vm_inv s' /\
    mapped s' a slot (Z.land addr PAGE_FRAME) pa /\ grew (cm s) (cm s') /\
    (forall b, b <> a -> spaces s' !! b = spaces s !! b) /\
    (forall slot', 0 <= slot' < NUM_TLB ->
       exists t, vm_fault s' slot' ft addr = Ok (with_tlb s' t, 0) /\
         zget t slot' = Some (Z.land addr PAGE_FRAME, tlb_elo pa)).
Proof.
  destruct (page_frame_props addr Hu) as (Hfu & Hf & Hal).
  rewrite (vm_fault_eq s slot ft addr a sp Hrw Hc Hsp), Hset, Hreg. cbn [kassert].
  rewrite (as_set_up_region sp _ paddr Hset Hf Hal Hreg). cbn [kassert].
  destruct (map_page_ok s a sp slot _ paddr Inv Hs Hfu Hc Hsp Hroom)
    as (s' & pa & E & Inv' & M & G & Hc' & Hoth & pt & Hsp').
  exists s', pa. do 5 (split; [done |]). intros slot' Hs'.
  destruct M as (_ & _ & sp2 & Hsp2 & Hfm). assert (sp2 = with_ptable sp pt) as -> by congruence.
  eapply vm_fault_again; try done; congruence.
Qed.

(** ** Reachable states *)

Definition with_curproc (s : vm) (p : option (option Z)) : vm :=
  mkVm (cm s) (vm_bootstrap_done s) (max_pages s) (firstpaddr s) (lastpaddr s)
    (spaces s) p (tlb s) (mem s) (curcpu s).

(** One operation of the VM system after boot, or a part of one.  A context
    switch installs another current process and activates its address space.
    Page faults are those that find room.  The operations that run with
    interrupts on may be preempted: besides the whole calls there are the
    pieces they are made of, so that any calls may be in progress at once, with
    page faults and context switches between their pieces: the claim of one
    frame by a call of alloc_kpages that has ended its search, on any frame;
    the new structure of as_create; changes of the fields other than the page
    table (as_define_region, as_prepare_load, as_copy, sbrk); and any writes to
    memory.  What is not cut are page faults, the TLB flush of a context switch
    and the two stores of page_alloc behind their assertion. *)
Inductive vm_step (s s' : vm) : Prop :=
| step_fault slot ft addr r :
    0 <= slot < NUM_TLB -> user_page addr ->
    (forall a sp, curproc s = Some (Some a) -> spaces s !! a = Some sp ->
       has_room s a sp (Z.land addr PAGE_FRAME)) ->
    vm_fault s slot ft addr = Ok (s', r) -> vm_step s s'
| step_alloc n va : alloc_kpages s n = Ok (s', va) -> vm_step s s'
| step_free va : USERSPACETOP <= va < 0xffffffff -> free_kpages s va = Ok s' -> vm_step s s'
| step_create r : as_create s = Ok (s', r) -> vm_step s s'
| step_destroy a : USERSPACETOP <= a < 2 ^ 32 -> as_destroy s a = Ok s' -> vm_step s s'
| step_region a va sz r : as_define_region s a va sz = Ok (s', r) -> vm_step s s'
| step_load a r : as_prepare_load s a = Ok (s', r) -> vm_step s s'
| step_copy a r new : as_copy s a = Ok (s', r, new) -> vm_step s s'
| step_switch p : as_activate (with_curproc s p) = Ok s' -> vm_step s s'
| step_page i va : page_alloc s i = Ok (s', va) -> vm_step s s'
| step_new a : s' = set_as s a new_as -> vm_step s s'
| step_fields a sp sp' : spaces s !! a = Some sp -> ptable sp' = ptable sp -> s' = set_as s a sp' -> vm_step s s'
| step_mem m : s' = with_mem s m -> vm_step s s'.

Lemma vm_fault_inv s slot ft addr s' r :
  vm_inv s -> 0 <= slot < NUM_TLB -> user_page addr ->
  (forall a sp, curproc s = Some (Some a) -> spaces s !! a = Some sp ->
       has_room s a sp (Z.land addr PAGE_FRAME)) ->
  vm_fault s slot ft addr = Ok (s', r) -> vm_inv s'.
Proof.
  intros Inv Hs Hu Hroom. destruct (page_frame_props addr Hu) as (Hfu & _).
  unfold vm_fault. case_match; [done |]. case_match; [intros; res_inv; done |].
  unfold proc_getas. destruct (curproc s) as [[a | ] | ] eqn:Hc; [ | | intros; res_inv; done].
  - intros H1. apply rbind_Ok in H1 as (sp & Hsp & H1). apply access_Ok in Hsp.
    apply kassert_Ok in H1 as [_ H1]. case_match; [ | res_inv; done]. apply kassert_Ok in H1 as [_ H1].
    destruct (map_page_ok s a sp slot _ z Inv Hs Hfu Hc Hsp (Hroom a sp eq_refl Hsp))
      as (s2 & pa & E & Inv' & _). rewrite E in H1. res_inv. done.
  - destruct (List.find _ _) as [e | ]; [ | intros; res_inv; done].
    destruct (tlb_random_ok s slot (Z.land addr PAGE_FRAME) (tlb_elo (ce_pa e))) as (t & -> & L & _).
    { destruct (inv_tlb _ Inv). lia. }
    intros; res_inv. destruct Inv as [B F D T [L' _]]. split; try done. split; [cbn; lia |].
    intros b ? ? ? Hb. cbn in Hb. congruence.
Qed.

Lemma tlb_write_length s hi lo i s' :
  tlb_write s hi lo i = Ok s' -> s' = with_tlb s (tlb s') /\ zlen (tlb s') = zlen (tlb s).
Proof. unfold tlb_write. intros H. res_inv. split; [done |]. by eapply zput_length. Qed.

Lemma shootdown_length k i s s' :
  shootdown_from k i s = Ok s' -> s' = with_tlb s (tlb s') /\ zlen (tlb s') = zlen (tlb s).
Proof.
  revert i s. induction k as [ | k IH]; intros i s H.
  - injection H as ->. split; [by destruct s' | done].
  - cbn [shootdown_from] in H. apply rbind_Ok in H as (s1 & H1 & H2). unfold vm_tlbshootdown in H1.
    apply rbind_Ok in H1 as ([hi lo] & _ & H1). apply tlb_write_length in H1 as [E1 L1].
    apply IH in H2 as [E2 L2]. rewrite E2, E1. split; [done |]. cbn. lia.
Qed.

Lemma tlb_invalidate_spec k i s s' :
  tlb_invalidate k i s = Ok s' ->
  s' = with_tlb s (tlb s') /\ zlen (tlb s') = zlen (tlb s) /\
  (forall j hi lo, i <= j < i + Z.of_nat k -> zget (tlb s') j = Some (hi, lo) -> lo = TLBLO_INVALID) /\
  (forall j, j < i -> zget (tlb s') j = zget (tlb s) j).
Proof.
  revert i s. induction k as [ | k IH]; intros i s H.
  - injection H as ->. split; [by destruct s' |]. split; [done |]. split; [lia | done].
  - cbn [tlb_invalidate] in H. apply rbind_Ok in H as (s1 & H1 & H2).
    pose proof (tlb_write_length _ _ _ _ _ H1) as [E1 L1]. unfold tlb_write in H1.
    apply rbind_Ok in H1 as (t & Ht%access_Ok & [= <-]). cbn [with_tlb tlb] in *.
    apply IH in H2 as (E2 & L2 & Z2 & K2). split; [by rewrite E2 |]. split; [cbn in *; lia |]. split.
    + intros j hi lo Hj Hg. destruct (decide (j = i)) as [-> | Hne].
      * rewrite K2 in Hg by lia. cbn in Hg. rewrite (zget_zput _ _ _ _ _ Ht), decide_True in Hg by done.
        by injection Hg as _ <-.
      * eapply Z2; [ | done]. lia.
    + intros j Hj. rewrite K2 by lia. cbn. rewrite (zget_zput _ _ _ _ _ Ht). by rewrite decide_False by lia.
Qed.

Lemma as_activate_inv s p s' : vm_inv s -> as_activate (with_curproc s p) = Ok s' -> vm_inv s'.
Proof.
  intros [B F D T [L H]]. unfold as_activate, vm_tlbshootdown_all, proc_getas. cbn [with_curproc curproc].
  destruct p as [[a | ] | ].
  - intros H1. apply rbind_Ok in H1 as (s1 & [E1 L1]%shootdown_length & (E2 & L2 & Z2 & _)%tlb_invalidate_spec).
    rewrite E2, E1. split; [done | done | done | done |]. cbn in L1. split; [cbn; lia |].
    intros b i hi lo _ Hi Hv. cbn in Hi. exfalso. apply Hv.
    pose proof (zget_Some _ _ _ Hi) as Hr. unfold NUM_TLB in *.
    rewrite (Z2 i hi lo ltac:(lia) Hi). done.
  - intros [= <-]. by split.
  - intros [= <-]. by split.
Qed.

Lemma vm_step_inv s s' : vm_inv s -> vm_step s s' -> vm_inv s'.
Proof.
  intros Inv []; [by eapply vm_fault_inv | | | | | | | | by eapply as_activate_inv | | | |];
    (eapply vm_inv_evolves; [done |]).
  - by eapply alloc_kpages_evolves.
  - by eapply free_kpages_evolves.
  - by eapply as_create_evolves.
  - by eapply as_destroy_evolves.
  - by eapply as_define_region_evolves.
  - by eapply as_prepare_load_evolves.
  - by eapply as_copy_evolves.
  - by eapply page_alloc_evolves.
  - subst s'. apply set_new_evolves.
  - subst s'. by eapply set_as_evolves.
  - subst s'. apply with_mem_evolves.
Qed.

(** Memory isolation: frames mapped by valid page table entries are mapped
    once, and a valid TLB entry leads to a frame of the current address space
    that no page table of another one maps. *)
Definition maps (s : vm) (a va pa : Z) : Prop :=
  exists sp p, spaces s !! a = Some sp /\ p ∈ ptable sp /\ pt_valid p <> 0 /\ pt_va p = va /\ pt_pa p = pa.

Definition isolated (s : vm) : Prop :=
  (forall a b va vb pa, maps s a va pa -> maps s b vb pa -> a = b /\ va = vb) /\
  (forall a i hi lo, curproc s = Some (Some a) -> zget (tlb s) i = Some (hi, lo) ->
     Z.land lo TLBLO_VALID <> 0 ->
     exists pa, lo = tlb_elo pa /\ owned (cm s) a hi pa /\
       forall b vb, maps s b vb pa -> b = a /\ vb = hi).

Lemma maps_owned s a va pa : vm_inv s -> maps s a va pa -> owned (cm s) a va pa.
Proof.
  intros Inv (sp & p & Hsp & Hp & Hv & <- & <-).
  apply (pt_frames _ _ _ (inv_tables _ Inv a sp Hsp) p Hp Hv).
Qed.

Lemma owned_unique c a b va vb pa :
  frames_distinct c -> owned c a va pa -> owned c b vb pa -> a = b /\ va = vb.
Proof.
  intros D (i & e & He & _ & Ha & Hva & Hpa) (j & e' & He' & _ & Hb & Hvb & Hpb).
  assert (i = j) as -> by (eapply D; eauto; congruence). assert (e = e') as -> by congruence.
  split; congruence.
Qed.

Lemma vm_inv_isolated s : vm_inv s -> isolated s.
Proof.
  intros Inv. pose proof (inv_distinct _ Inv) as D. split.
  - intros a b va vb pa Ha%maps_owned Hb%maps_owned; [ | done | done]. by eapply owned_unique.
  - intros a i hi lo Hc Hi Hv. destruct (inv_tlb _ Inv) as [_ H].
    destruct (H a i hi lo Hc Hi Hv) as (pa & -> & Ho). exists pa. split; [done |]. split; [done |].
    intros b vb Hb%maps_owned; [ | done]. by eapply owned_unique.
Qed.

(** The state start.S and boot() leave before [vm_bootstrap]: no address space
    exists yet, [n] pages of RAM. *)
Record boot_state (s : vm) (n : Z) : Prop := {
  boot_new : vm_bootstrap_done s = false;
  boot_size : lastpaddr s = n * PAGE_SIZE;
  boot_n : 0 < n <= 2 ^ 17;
  boot_first : 0 <= firstpaddr s <= lastpaddr s;
  boot_spaces : spaces s = ∅;
  boot_proc : proc_getas s = None;
  boot_tlb : zlen (tlb s) = NUM_TLB
}.

Lemma vm_bootstrap_rest s :
  vm_bootstrap_done s = false ->
  vm_bootstrap_done (vm_bootstrap s) = true /\ spaces (vm_bootstrap s) = spaces s /\
  curproc (vm_bootstrap s) = curproc s /\ tlb (vm_bootstrap s) = tlb s.
Proof.
  intros Hb. unfold vm_bootstrap. rewrite Hb. unfold ram_stealmem.
  destruct (_ <? _); repeat split.
Qed.

Lemma vm_bootstrap_inv s n : boot_state s n -> vm_inv (vm_bootstrap s).
Proof.
  intros [Hb Hsz Hn Hf Hsp Hp Ht].
  destruct (vm_bootstrap_spec s n Hb Hsz Hn Hf) as (f & Hal & Hlo & Hlen & He & _ & Hhi).
  destruct (vm_bootstrap_rest s Hb) as (B & S' & C & T).
  assert (Hget : forall i e, zget (cm (vm_bootstrap s)) i = Some e ->
    0 <= i < n /\ e = mkEntry None 0xffffffff (f + PAGE_SIZE * i) FREE).
  { intros i e Hi. pose proof (zget_Some _ _ _ Hi). rewrite Hlen in *. rewrite He in Hi by lia.
    by injection Hi as <-. }
  unfold PAGE_SIZE in *. split.
  - done.
  - apply Forall_zget. intros i e [Hi ->]%Hget. cbn. split; [by left | lia].
  - intros i j e e' [Hi ->]%Hget [Hj ->]%Hget. cbn. lia.
  - intros a sp. rewrite S', Hsp. by rewrite lookup_empty.
  - split; [by rewrite T |]. intros a i hi lo Hc. unfold proc_getas in Hp. rewrite C in Hc.
    by rewrite Hc in Hp.
Qed.

(** C1: memory isolation, on one processor with at most 512 MB, in every state
    reachable from boot by the VM system's operations, by any processes and with
    the calls that run with interrupts on preempted between the pieces [vm_step] cuts them into,
    under two conditions: each page fault finds its page mapped or finds room
    for it, and the assertion and the stores of one page_alloc are not
    separated by a page fault (see [frame_claimed_twice] for one that is).  No
    frame is mapped by two page table entries, of one or of two address spaces,
    and every valid TLB entry leads the current process to a frame that is its
    own. *)
Theorem vm_reachable_isolated s0 n s
  (Hboot : boot_state s0 n) (Hreach : rtc vm_step (vm_bootstrap s0) s) : isolated s.
Proof.
  apply vm_inv_isolated. pose proof (vm_bootstrap_inv s0 n Hboot) as Inv.
  revert Inv. induction Hreach as [ | s1 s2 s3 H12 _ IH]; [done |].
  intros Inv. by eapply IH, vm_step_inv.
Qed.

(** A machine with 128 pages of RAM: one process creates its address space,
    defines its two regions, loads, switches to it and touches a page. *)
Definition state_of {A} (r : res (vm * A)) (d : vm) : vm :=
  match r with Ok (s, _) => s | Fault _ => d end.

Definition is_ok {A} (r : res A) : bool :=
  match r with Ok _ => true | Fault _ => false end.

Lemma state_of_Ok {A} (r : res (vm * A)) d : is_ok r = true -> exists a, r = Ok (state_of r d, a).
Proof. destruct r as [[s a] | ]; [by exists a | done]. Qed.

Lemma create_step s : is_ok (as_create s) = true -> vm_step s (state_of (as_create s) s).
Proof. intros [r E]%(state_of_Ok _ s). by eapply step_create. Qed.
Lemma region_step s a va sz :
  is_ok (as_define_region s a va sz) = true -> vm_step s (state_of (as_define_region s a va sz) s).
Proof. intros [r E]%(state_of_Ok _ s). by eapply step_region. Qed.
Lemma load_step s a : is_ok (as_prepare_load s a) = true -> vm_step s (state_of (as_prepare_load s a) s).
Proof. intros [r E]%(state_of_Ok _ s). by eapply step_load. Qed.

Definition switch_to (s : vm) (p : option (option Z)) : vm :=
  match as_activate (with_curproc s p) with Ok s => s | Fault _ => s end.
Lemma switch_step s p : is_ok (as_activate (with_curproc s p)) = true -> vm_step s (switch_to s p).
Proof. unfold switch_to. intros H. apply (step_switch _ _ p). by destruct (as_activate _). Qed.

Definition demo0 : vm :=
  mkVm [] false 0 0x30000 0x80000 ∅ (Some None) (repeat (0, 0) 64) (fun _ => 0) (Some (0, false)).
Definition demo1 : vm := vm_bootstrap demo0.
Definition demo_as : Z := 0x80032000.
Definition demo2 : vm := state_of (as_create demo1) demo1.
Definition demo3 : vm := state_of (as_define_region demo2 demo_as 0x400010 100) demo2.
Definition demo4 : vm := state_of (as_define_region demo3 demo_as 0x10000000 0x1001) demo3.
Definition demo5 : vm := state_of (as_prepare_load demo4 demo_as) demo4.
Definition demo6 : vm := switch_to demo5 (Some (Some demo_as)).
Definition demo7 : vm := state_of (vm_fault demo6 3 VM_FAULT_READ 0x400010) demo6.

Lemma demo_boot : boot_state demo0 128.
Proof. split; try reflexivity; cbn; unfold PAGE_SIZE; lia. Qed.

Lemma demo_reach : rtc vm_step demo1 demo6.
Proof.
  apply (rtc_l _ _ demo2); [apply (create_step demo1); by vm_compute |].
  apply (rtc_l _ _ demo3); [apply (region_step demo2); by vm_compute |].
  apply (rtc_l _ _ demo4); [apply (region_step demo3); by vm_compute |].
  apply (rtc_l _ _ demo5); [apply (load_step demo4); by vm_compute |].
  apply rtc_once, (switch_step demo5). by vm_compute.
Qed.

Lemma demo_inv : vm_inv demo6.
Proof.
  assert (forall s s', rtc vm_step s s' -> vm_inv s -> vm_inv s') as H.
  { induction 1; [done |]. intros. by eauto using vm_step_inv. }
  exact (H _ _ demo_reach (vm_bootstrap_inv _ _ demo_boot)).
Qed.

Lemma vm_reachable_isolated_witness : isolated demo6.
Proof. exact (vm_reachable_isolated demo0 128 demo6 demo_boot demo_reach). Defined.

(** The lock cm_lock does not keep page faults out.  A kernel thread in
    alloc_kpages has found the first free frame and is preempted; the process
    faults and gets the same frame.  When the thread goes on, page_alloc's
    assertion fails; and if it was preempted just behind the assertion, it
    takes the frame nevertheless and returns its address as a page of the
    kernel, while the page table of the process goes on mapping it. *)
Theorem frame_claimed_twice :
  exists i e s1 s2 va, scan_coremap (S (length (cm demo6))) (cm demo6) 1 0 = Ok i /\
    zget (cm demo6) i = Some e /\ ce_st e = FREE /\
    vm_fault demo6 3 VM_FAULT_READ 0x400010 = Ok (s1, 0) /\
    page_alloc (with_curproc s1 (Some None)) i = Fault Assertion /\
    page_claim (with_curproc s1 (Some None)) i = Ok (s2, va) /\
    va = PADDR_TO_KVADDR (ce_pa e) /\ maps s2 demo_as 0x400000 (ce_pa e).
Proof.
  destruct (state_of_Ok (vm_fault demo6 3 VM_FAULT_READ 0x400010) demo6) as [r E]; [by vm_compute |].
  change (state_of _ _) with demo7 in E. assert (r = 0) as ->.
  { assert (H : match vm_fault demo6 3 VM_FAULT_READ 0x400010 with Ok (_, r) => r =? 0 | Fault _ => false end = true)
      by (vm_compute; reflexivity). rewrite E in H. by apply Z.eqb_eq. }
  pose (s2 := state_of (page_claim (with_curproc demo7 (Some None)) 34) demo7).
  destruct (state_of_Ok (page_claim (with_curproc demo7 (Some None)) 34) demo7) as [va E2]; [by vm_compute |].
  change (state_of _ _) with s2 in E2.
  exists 34. eexists _, demo7, s2, va. split; [vm_compute; reflexivity |]. split; [vm_compute; reflexivity |].
  split; [reflexivity |]. split; [exact E |]. split; [vm_compute; reflexivity |]. split; [exact E2 |]. split.
  { assert (Hva : match page_claim (with_curproc demo7 (Some None)) 34 with Ok (_, v) => v =? 0x80054000 | Fault _ => false end = true)
      by (vm_compute; reflexivity).
    rewrite E2 in Hva. by apply Z.eqb_eq. }
  clear E E2. assert (Hp : (spaces s2 !! demo_as) ≫= (fun sp => ptable sp !! 0%nat) = Some (mkPte 0x400000 0x54000 1))
    by (vm_compute; reflexivity).
  clearbody s2. destruct (spaces s2 !! demo_as) as [sp | ] eqn:Hsp; [ | discriminate Hp].
  exists sp, (mkPte 0x400000 0x54000 1). split; [exact Hsp |]. split; [by apply (list_elem_of_lookup_2 _ 0%nat) |].
  split; [discriminate |]. split; reflexivity.
Qed.

Definition demo_space : addrspace :=
  match spaces demo6 !! demo_as with Some sp => sp | None => new_as end.

Lemma vm_fault_maps_witness :
  exists s' pa, vm_fault demo6 3 VM_FAULT_READ 0x400010 = Ok (s', 0) /\ vm_inv s' /\
    mapped s' demo_as 3 (Z.land 0x400010 PAGE_FRAME) pa /\ grew (cm demo6) (cm s') /\
    (forall b, b <> demo_as -> spaces s' !! b = spaces demo6 !! b) /\
    (forall slot', 0 <= slot' < NUM_TLB ->
       exists t, vm_fault s' slot' VM_FAULT_READ 0x400010 = Ok (with_tlb s' t, 0) /\
         zget t slot' = Some (Z.land 0x400010 PAGE_FRAME, tlb_elo pa)).
Proof.
  apply (vm_fault_maps demo6 3 VM_FAULT_READ 0x400010 demo_as demo_space 258048 demo_inv).
  - unfold NUM_TLB; lia.
  - by left.
  - vm_compute; reflexivity.
  - assert (bool_decide (is_Some (spaces demo6 !! demo_as)) = true) as H by (vm_compute; reflexivity).
    apply bool_decide_eq_true in H as [sp H]. unfold demo_space. by rewrite H.
  - vm_compute; reflexivity.
  - unfold user_page, USERSPACETOP, MIPS_KSEG0; lia.
  - vm_compute; reflexivity.
  - right. split.
    + exists 60. split; [lia |]. eexists. split; [vm_compute; reflexivity | reflexivity].
    + exists empty_pte. split; [ | done]. apply list_elem_of_lookup. exists 5%nat. vm_compute; reflexivity.
Defined.

(** The faults [vm_fault] turns down, none of which changes anything: a
    fault type it does not know (EINVAL), no current process (EFAULT), and a
    page in none of the three regions of a set-up address space (EFAULT).  A
    write to a read-only page takes the kernel down. *)
Theorem vm_fault_refuses s slot ft addr :
  (~ rw ft -> ft <> VM_FAULT_READONLY -> vm_fault s slot ft addr = Ok (s, EINVAL)) /\
  (rw ft -> curproc s = None -> vm_fault s slot ft addr = Ok (s, EFAULT)) /\
  (forall a sp, rw ft -> curproc s = Some (Some a) -> spaces s !! a = Some sp -> as_set_up sp = true ->
     region_paddr sp (Z.land addr PAGE_FRAME) = None -> vm_fault s slot ft addr = Ok (s, EFAULT)) /\
  vm_fault s slot VM_FAULT_READONLY addr = Fault PanicCall.
Proof.
  split; [ | split; [ | split]].
  - intros Hrw Hro. unfold vm_fault, rw in *. case_if; [done |].
    destruct (Z.eqb_spec ft VM_FAULT_READ), (Z.eqb_spec ft VM_FAULT_WRITE); naive_solver.
  - intros [-> | ->] Hc; unfold vm_fault; rewrite Hc; reflexivity.
  - intros a sp Hrw Hc Hsp Hset Hreg.
    by rewrite (vm_fault_eq s slot ft addr a sp Hrw Hc Hsp), Hset, Hreg.
  - done.
Qed.

Lemma vm_fault_refuses_witness : vm_fault demo6 3 VM_FAULT_WRITE 0x600000 = Ok (demo6, EFAULT).
Proof.
  apply (proj1 (proj2 (proj2 (vm_fault_refuses demo6 3 VM_FAULT_WRITE 0x600000))) demo_as demo_space).
  - by right.
  - vm_compute; reflexivity.
  - assert (bool_decide (is_Some (spaces demo6 !! demo_as)) = true) as H by (vm_compute; reflexivity).
    apply bool_decide_eq_true in H as [sp H]. unfold demo_space. by rewrite H.
  - vm_compute; reflexivity.
  - vm_compute; reflexivity.
Defined.

(** ** Out of memory *)

(** Faults of several processes in turn, each after a context switch. *)
Fixpoint fault_run (s : vm) (faults : list (Z * Z)) : res vm :=
  match faults with
  | [] => Ok s
  | (a, addr) :: faults =>
    let* s := as_activate (with_curproc s (Some (Some a))) in
    let* (s, _) := vm_fault s 0 VM_FAULT_WRITE addr in
    fault_run s faults
  end.

Definition thrash_space (p : Z) : addrspace :=
  mkAs 0x400000 p 8 0x10000000 p 8 None None p empty_table.

(** Two frames, two processes. *)
Definition thrash_vm : vm :=
  mkVm [mkEntry None 0xffffffff 0x40000 FREE; mkEntry None 0xffffffff 0x41000 FREE]
    true 2 0 0 (<[1 := thrash_space 0x1000]> {[2 := thrash_space 0x2000]}) (Some None)
    (repeat (0, 0) 64) (fun _ => 0) (Some (0, false)).

(** Without room, isolation is lost.  [vm_fault] then takes a frame of
    another address space without telling its owner, whose page table still
    names the frame; once the owner has a new frame for that page, the stale
    entry is found first.  On two frames, after seven faults of two processes,
    the TLB maps process 2's page 0x401000 to the frame the coremap has for
    process 1's page 0x402000. *)
Theorem vm_fault_steals :
  match fault_run thrash_vm [(1, 0x400000); (2, 0x401000); (1, 0x402000); (2, 0x403000);
                             (2, 0x401000); (1, 0x402000); (2, 0x401000)] with
  | Ok s => curproc s = Some (Some 2) /\ zget (tlb s) 0 = Some (0x401000, tlb_elo 0x40000) /\
            owned (cm s) 1 0x402000 0x40000
  | Fault _ => False
  end.
Proof.
  vm_compute. split; [done |]. split; [done |].
  exists 0. eexists. split; [reflexivity |]. split; [discriminate |]. split; [reflexivity |]. split; reflexivity.
Qed.

(** ** Regions *)

(** What [as_define_region] makes of its arguments: first page and number. *)
Lemma region_pages vaddr sz :
  is_u32 vaddr -> 0 <= sz -> vaddr + sz + PAGE_SIZE < 2 ^ 32 ->
  let base := Z.land vaddr PAGE_FRAME in
  let sz' := Z.land (u32 (u32 (u32 (sz + Z.land vaddr (u32 (Z.lnot PAGE_FRAME))) + PAGE_SIZE) - 1)) PAGE_FRAME in
  base = vaddr - vaddr mod PAGE_SIZE /\
  base + sz' / PAGE_SIZE * PAGE_SIZE - PAGE_SIZE < vaddr + sz <= base + sz' / PAGE_SIZE * PAGE_SIZE.
Proof.
  intros Hv Hs Hsum base sz'. unfold base. rewrite page_frame_spec by done. split; [done |].
  unfold sz'. change (u32 (Z.lnot PAGE_FRAME)) with (Z.ones 12). rewrite Z.land_ones by lia.
  change (2 ^ 12) with PAGE_SIZE. unfold PAGE_SIZE, is_u32 in *.
  assert (0 <= vaddr mod 4096 < 4096) by (apply Z.mod_pos_bound; lia).
  assert (vaddr mod 4096 <= vaddr) by (apply Z.mod_le; lia).
  rewrite (u32_id (sz + vaddr mod 4096)) by (unfold is_u32; lia).
  rewrite (u32_id (sz + vaddr mod 4096 + 4096)) by (unfold is_u32; lia).
  rewrite (u32_id (sz + vaddr mod 4096 + 4096 - 1)) by (unfold is_u32; lia).
  rewrite page_frame_spec by (unfold is_u32; lia). unfold PAGE_SIZE. div_lia.
Qed.

(** [as_define_region] enters the smallest run of whole pages that covers
    the bytes asked for: as the first region while that is not set, as the
    second while that is not set, and is refused with ENOSYS after that.
    Nothing else of any address space changes. *)
Theorem as_define_region_covers s a sp vaddr sz
  (Hsleep : dumbvm_can_sleep s = Ok tt) (Hsp : spaces s !! a = Some sp)
  (Hv : is_u32 vaddr) (Hsz : 0 <= sz) (Hsum : vaddr + sz + PAGE_SIZE < 2 ^ 32) :
  exists base n, base mod PAGE_SIZE = 0 /\ base <= vaddr /\
    base + n * PAGE_SIZE - PAGE_SIZE < vaddr + sz <= base + n * PAGE_SIZE /\
    as_define_region s a vaddr sz =
      (if as_vbase1 sp =? 0 then
         Ok (set_as s a (mkAs base (as_pbase1 sp) n (as_vbase2 sp) (as_pbase2 sp) (as_npages2 sp)
               (as_heapstart sp) (as_heapend sp) (as_stackpbase sp) (ptable sp)), 0)
       else if as_vbase2 sp =? 0 then
         Ok (set_as s a (mkAs (as_vbase1 sp) (as_pbase1 sp) (as_npages1 sp) base (as_pbase2 sp) n
               (as_heapstart sp) (as_heapend sp) (as_stackpbase sp) (ptable sp)), 0)
       else Ok (s, ENOSYS)).
Proof.
  pose proof (region_pages vaddr sz Hv Hsz Hsum) as [Hb Hn].
  eexists _, _. split; [ | split; [ | split; [exact Hn |]]].
  - rewrite Hb. unfold PAGE_SIZE. div_lia.
  - rewrite Hb. unfold PAGE_SIZE, is_u32 in *. div_lia.
  - unfold as_define_region. rewrite Hsleep. unfold get_as. rewrite Hsp. done.
Qed.

Lemma as_define_region_covers_witness :
  exists base n, base mod PAGE_SIZE = 0 /\ base <= 0x400ff0 /\
    base + n * PAGE_SIZE - PAGE_SIZE < 0x400ff0 + 32 <= base + n * PAGE_SIZE /\
    as_define_region thrash_vm 1 0x400ff0 32 = Ok (thrash_vm, ENOSYS).
Proof.
  destruct (as_define_region_covers thrash_vm 1 (thrash_space 0x1000) 0x400ff0 32)
    as (base & n & H1 & H2 & H3 & H4); [reflexivity | reflexivity | split; lia | lia | unfold PAGE_SIZE; lia |].
  exists base, n. split; [exact H1 |]. split; [exact H2 |]. split; [exact H3 |].
  etransitivity; [exact H4 |]. reflexivity.
Defined.

(** ** Loading without memory *)

Definition frames_nonzero (c : list coremap_entry) : Prop :=
  Forall (fun e => 0 < ce_pa e < 2 ^ 31) c.

Lemma frames_nonzero_grew c c' : grew c c' -> frames_nonzero c -> frames_nonzero c'.
Proof.
  intros [L G]. unfold frames_nonzero. rewrite !Forall_zget. intros H i e' He'.
  destruct (zlen_zget c c' i e' L He') as [e He].
  destruct (G i e He) as (e2 & He2 & Hpa & _). assert (e2 = e') as -> by congruence.
  rewrite Hpa. by apply (H i e).
Qed.

(** The conversion of a failed allocation to a physical address is not 0. *)
Lemma load_pages_nonzero s a n field s' pa :
  load_pages s a n field = Ok (s', pa) -> vm_bootstrap_done s = true -> frames_nonzero (cm s) ->
  pa <> 0 /\ vm_bootstrap_done s' = true /\ frames_nonzero (cm s').
Proof.
  unfold load_pages. intros H Hb Hf. apply rbind_Ok in H as ([s1 va] & Ha & H).
  destruct (alloc_kpages_grew _ _ _ _ Ha Hb) as [G E]. res_inv.
  split; [ | split; [by rewrite E | by apply (frames_nonzero_grew _ _ G)]].
  unfold alloc_kpages in Ha. rewrite Hb in Ha. res_inv. case_match; res_inv; [by vm_compute |].
  unfold frames_nonzero in Hf. rewrite Forall_zget in Hf.
  match goal with H : zget _ _ = Some _ |- _ => apply Hf in H end. cbn beta in *.
  unfold KVADDR_TO_PADDR, PADDR_TO_KVADDR, MIPS_KSEG0, u32.
  rewrite Zminus_mod_idemp_l, Z.mod_small; lia.
Qed.

(** One allocation of as_prepare_load with its test for ENOMEM. *)
Lemma load_pages_check s a n field (k : vm -> Z -> res (vm * Z)) s' r :
  (let* (s, pa) := load_pages s a n field in
   if pa =? 0 then Ok (s, ENOMEM) else k s pa) = Ok (s', r) ->
  vm_bootstrap_done s = true -> frames_nonzero (cm s) ->
  exists s1 pa, vm_bootstrap_done s1 = true /\ frames_nonzero (cm s1) /\ k s1 pa = Ok (s', r).
Proof.
  intros H Hb Hf. apply rbind_Ok in H as ([s1 pa] & Hl & H). exists s1, pa.
  destruct (load_pages_nonzero _ _ _ _ _ _ Hl Hb Hf) as (Hnz & Hb1 & Hf1).
  by rewrite (proj2 (Z.eqb_neq _ _) Hnz) in H.
Qed.

Lemma as_prepare_load_result s a s' r :
  vm_bootstrap_done s = true -> frames_nonzero (cm s) -> as_prepare_load s a = Ok (s', r) -> r = 0.
Proof.
  intros Hb Hf H. unfold as_prepare_load in H. apply rbind_Ok in H as (sp & _ & H).
  apply kassert_Ok in H as [_ H]. apply rbind_Ok in H as (_ & _ & H).
  apply load_pages_check in H as (s1 & p1 & Hb1 & Hf1 & H); [ | done | done].
  apply load_pages_check in H as (s2 & p2 & Hb2 & Hf2 & H); [ | done | done].
  apply load_pages_check in H as (s3 & p3 & Hb3 & Hf3 & H); [ | done | done].
  by res_inv.
Qed.

(** [as_prepare_load] cannot report that memory ran out.  alloc_kpages
    returns 0 then, but the code tests KVADDR_TO_PADDR(0), which is
    0x80000000: whatever it returns with is 0, and with every frame in use it
    goes on to clear memory at kernel address 0. *)
Theorem as_prepare_load_no_enomem s a s' r
  (Hb : vm_bootstrap_done s = true) (Hf : frames_nonzero (cm s))
  (H : as_prepare_load s a = Ok (s', r)) :
  r = 0 /\
  as_prepare_load
    (mkVm [mkEntry None 0xffffffff 0x40000 DIRTY] true 1 0 0
       {[1 := mkAs 0x400000 0 1 0x10000000 0 1 None None 0 empty_table]} (Some (Some 1))
       [] (fun _ => 0) (Some (0, false))) 1 = Fault BadAccess.
Proof. split; [by eapply as_prepare_load_result | by vm_compute]. Qed.

Lemma as_prepare_load_no_enomem_witness :
  exists s' r, as_prepare_load demo4 demo_as = Ok (s', r) /\ r = 0.
Proof.
  destruct (state_of_Ok (as_prepare_load demo4 demo_as) demo4) as [r E]; [by vm_compute |].
  exists (state_of (as_prepare_load demo4 demo_as) demo4), r. split; [exact E |].
  refine (proj1 (as_prepare_load_no_enomem demo4 demo_as _ r _ _ E)).
  - vm_compute; reflexivity.
  - apply Forall_forall. intros e He.
    assert (forallb (fun e => (0 <? ce_pa e) && (ce_pa e <? 2 ^ 31)) (cm demo4) = true) as H by (by vm_compute).
    rewrite forallb_forall in H. apply list_elem_of_In in He. specialize (H e He). bool_inv. lia.
Defined.

(** ** fork *)

Lemma map_page_mem s a sp slot fa paddr s' r : map_page s a sp slot fa paddr = Ok (s', r) -> mem s' = mem s.
Proof.
  assert (Hu : forall k i x lo y q, tlb_unused k x i fa lo = Ok (y, q) -> mem y = mem x).
  { induction k as [ | k IH]; intros i x lo y q H; cbn [tlb_unused] in H; [by res_inv |].
    apply rbind_Ok in H as ([hi l] & _ & H). case_match; [ | by eapply IH].
    apply rbind_Ok in H as (y1 & [-> _]%tlb_write_length & H). by res_inv. }
  unfold map_page, tlb_random. intros H. case_match.
  - apply rbind_Ok in H as (y1 & [-> _]%tlb_write_length & H). by res_inv.
  - apply rbind_Ok in H as ([pt [[pa c] | ]] & _ & H); [ | by apply Hu in H].
    apply rbind_Ok in H as (y1 & [-> _]%tlb_write_length & H). by res_inv.
Qed.

Lemma vm_fault_mem s slot ft addr s' r : vm_fault s slot ft addr = Ok (s', r) -> mem s' = mem s.
Proof.
  unfold vm_fault. intros H. case_match; [done |]. case_match; [by res_inv |].
  case_match; [ | by res_inv]. case_match.
  - apply rbind_Ok in H as (sp & _ & H). apply kassert_Ok in H as [_ H].
    case_match; [ | by res_inv]. apply kassert_Ok in H as [_ H]. by eapply map_page_mem.
  - case_match; [ | by res_inv]. unfold tlb_random in H.
    apply rbind_Ok in H as (y1 & [-> _]%tlb_write_length & H). by res_inv.
Qed.

Definition same_regions (sp sp' : addrspace) : Prop :=
  as_vbase1 sp' = as_vbase1 sp /\ as_npages1 sp' = as_npages1 sp /\
  as_vbase2 sp' = as_vbase2 sp /\ as_npages2 sp' = as_npages2 sp.

(** [loads a s s']: only where address space [a] keeps its memory may have
    changed, of all address spaces. *)
Definition loads (a : Z) (s s' : vm) : Prop :=
  vm_bootstrap_done s = true ->
  vm_bootstrap_done s' = true /\ (forall b, b <> a -> spaces s' !! b = spaces s !! b) /\
  forall sp, spaces s !! a = Some sp ->
    exists sp', spaces s' !! a = Some sp' /\ same_regions sp sp' /\ ptable sp' = ptable sp.

#[global] Instance loads_preorder a : PreOrder (loads a).
Proof.
  split.
  - intros s Hb. split; [done |]. split; [done |]. intros sp Hsp. exists sp. by repeat split.
  - intros s1 s2 s3 H1 H2 Hb. destruct (H1 Hb) as (B1 & O1 & A1). destruct (H2 B1) as (B2 & O2 & A2).
    split; [done |]. split; [intros b Hne; by rewrite O2, O1 |]. intros sp Hsp.
    destruct (A1 sp Hsp) as (sp1 & Hsp1 & R1 & P1), (A2 sp1 Hsp1) as (sp2 & Hsp2 & R2 & P2).
    exists sp2. unfold same_regions in *. intuition congruence.
Qed.

Lemma load_pages_loads s a n field s' r :
  load_pages s a n field = Ok (s', r) ->
  (forall sp p, same_regions sp (field sp p) /\ ptable (field sp p) = ptable sp) -> loads a s s'.
Proof.
  unfold load_pages, get_as. intros H Hfield Hb. apply rbind_Ok in H as ([s1 v] & H1 & H2).
  destruct (alloc_kpages_grew _ _ _ _ H1 Hb) as [_ E]. rewrite E in H2. res_inv.
  split; [done |]. unfold set_as. cbn [with_spaces with_cm spaces] in *. split.
  - intros b Hne. by apply lookup_insert_ne.
  - intros sp Hsp. eexists. split; [apply lookup_insert_eq |].
    match goal with H : _ !! a = Some ?x |- _ => assert (x = sp) as -> by congruence end. apply Hfield.
Qed.

Lemma with_mem_loads a s m : loads a s (with_mem s m).
Proof. intros Hb. split; [done |]. split; [done |]. intros sp Hsp. exists sp. by repeat split. Qed.

Lemma as_zero_region_loads a s p n s' : as_zero_region s p n = Ok s' -> loads a s s'.
Proof. unfold as_zero_region. case_match; intros; res_inv; [apply with_mem_loads]. Qed.

Lemma memmove_phys_loads a s d src n s' : memmove_phys s d src n = Ok s' -> loads a s s'.
Proof. unfold memmove_phys. case_match; intros; res_inv; [apply with_mem_loads]. Qed.

Ltac load_step :=
  match goal with
  | H : rbind (load_pages _ _ _ _) _ = Ok _ |- loads _ _ _ =>
    apply rbind_Ok in H as ([? ?] & ?%load_pages_loads & H); [etransitivity; [eassumption |] | done]
  | H : rbind (as_zero_region _ _ _) _ = Ok _ |- loads ?a _ _ =>
    apply rbind_Ok in H as (? & ?%(as_zero_region_loads a) & H); etransitivity; [eassumption |]
  | H : rbind (memmove_phys _ _ _ _) _ = Ok _ |- loads ?a _ _ =>
    apply rbind_Ok in H as (? & ?%(memmove_phys_loads a) & H); etransitivity; [eassumption |]
  | H : (if _ then Ok _ else _) = Ok _ |- loads _ _ _ => case_match; [res_inv; reflexivity |]
  end.

Lemma as_prepare_load_loads s a s' r : as_prepare_load s a = Ok (s', r) -> loads a s s'.
Proof.
  unfold as_prepare_load. intros H. apply rbind_Ok in H as (sp & Hsp & H).
  apply kassert_Ok in H as [_ H]. apply rbind_Ok in H as (_ & _ & H).
  repeat load_step. res_inv. reflexivity.
Qed.

Lemma as_copy_spaces s old o s' new :
  vm_bootstrap_done s = true -> spaces s !! old = Some o -> new <> old ->
  as_copy s old = Ok (s', 0, Some new) ->
  (forall b, b <> new -> spaces s' !! b = spaces s !! b) /\
  exists sp, spaces s' !! new = Some sp /\ same_regions o sp /\ ptable sp = empty_table.
Proof.
  unfold as_copy, as_create, kmalloc_pages. intros Hb Ho Hne H. apply rbind_Ok in H as (_ & _ & H).
  apply rbind_Ok in H as ([s1 n] & Hc & H). destruct n as [n | ]; [ | by res_inv].
  apply rbind_Ok in Hc as ([s2 v] & Hk & Hc). apply rbind_Ok in Hk as ([s3 v3] & Ha & Hk).
  destruct (alloc_kpages_grew _ _ _ _ Ha Hb) as [_ E]. case_match; [by res_inv |].
  assert (s2 = s3) as -> by (case_match; by res_inv). injection Hc as <- <-. rewrite E in H.
  unfold get_as, set_as in H. cbn [with_spaces with_cm spaces] in H.
  assert (v <> old) as Hv.
  { intros ->. apply rbind_Ok in H as (? & _ & H). apply rbind_Ok in H as (? & _ & H).
    apply rbind_Ok in H as ([? ?] & _ & H). destruct (negb _) in H; [by res_inv |].
    apply rbind_Ok in H as (? & _ & H). by res_inv. }
  rewrite lookup_insert_ne, Ho, lookup_insert_eq in H by done. cbn [access rbind] in H.
  rewrite insert_insert_eq in H. apply rbind_Ok in H as ([s4 r] & Hl%as_prepare_load_loads & H).
  destruct (negb _) in H; [by res_inv |]. apply rbind_Ok in H as (n2 & _ & H). apply kassert_Ok in H as [_ H].
  assert (loads v s4 s' /\ v = new) as [L4 <-].
  { split; [repeat load_step; res_inv; reflexivity | by res_inv]. }
  destruct (transitivity (R := loads v) Hl L4 Hb) as (_ & Hoth & Hnew).
  cbn [with_spaces with_cm spaces] in *. split.
  - intros b Hbv. rewrite Hoth by done. by apply lookup_insert_ne.
  - destruct (Hnew _ (lookup_insert_eq _ _ _)) as (sp & Hsp & R & P). exists sp. done.
Qed.

(** The address space fork gives the child has the parent's regions but
    none of its pages.  as_copy copies the memory set aside for the regions,
    yet a process reads and writes the frames in its page table, and the
    child's page table is empty: no page of the child is mapped, the parent's
    pages stay as they were, and the fault on the child's first access only
    picks a frame, whose contents it does not change. *)
Theorem as_copy_loses_pages s old o s' new
  (Hb : vm_bootstrap_done s = true) (Ho : spaces s !! old = Some o) (Hne : new <> old)
  (H : as_copy s old = Ok (s', 0, Some new)) :
  (exists sp, spaces s' !! new = Some sp /\ same_regions o sp) /\
  (forall va pa, ~ maps s' new va pa) /\
  (forall va pa, maps s old va pa -> maps s' old va pa) /\
  (forall slot ft addr s'' r, vm_fault s' slot ft addr = Ok (s'', r) -> mem s'' = mem s').
Proof.
  destruct (as_copy_spaces s old o s' new Hb Ho Hne H) as (Hoth & sp & Hsp & R & P).
  split; [by exists sp |]. split; [ | split].
  - intros va pa (sp' & p & Hsp' & Hp & Hv & _). assert (sp' = sp) as -> by congruence.
    rewrite P in Hp. apply list_elem_of_In, repeat_spec in Hp as ->. done.
  - intros va pa (sp' & p & Hsp' & Hp). exists sp', p. by rewrite Hoth.
  - intros slot ft addr s'' r. apply vm_fault_mem.
Qed.

Definition copy_of (r : res (vm * Z * option Z)) : option (Z * Z) :=
  match r with Ok (_, e, Some n) => Some (e, n) | _ => None end.

Lemma as_copy_loses_pages_witness :
  exists s' new, as_copy demo7 demo_as = Ok (s', 0, Some new) /\
    (exists sp, spaces s' !! new = Some sp) /\ forall va pa, ~ maps s' new va pa.
Proof.
  assert (copy_of (as_copy demo7 demo_as) = Some (0, 0x80055000)) as E by (vm_compute; reflexivity).
  destruct (as_copy demo7 demo_as) as [[[s' r] [n | ]] | ] eqn:Ec; [ | discriminate E | discriminate E].
  injection E as -> ->. exists s', 0x80055000. split; [reflexivity |].
  assert (bool_decide (is_Some (spaces demo7 !! demo_as)) = true) as Hs by (vm_compute; reflexivity).
  apply bool_decide_eq_true in Hs as [sp Hs].
  destruct (as_copy_loses_pages demo7 demo_as sp s' 0x80055000) as ((sp' & H1 & _) & H2 & _);
    [vm_compute; reflexivity | exact Hs | discriminate | exact Ec |].
  split; [exists sp'; exact H1 | exact H2].
Defined.
