(* ===== verification/Copyinout.v ===== *)
(** Moving data between kernel and user memory: kern/vm/copyinout.c and
    kern/lib/uio.c.

    Memory is a partial map from addresses to bytes: an address outside it
    faults.  User addresses are below USERSPACETOP.  copyin and its relatives
    run with [tm_badfaultfunc] set, so that a fault during the copy comes back
    through setjmp as EFAULT; what was copied before the fault stays copied. *)
From S2P Require Import Prelude Coremap.

Definition memory := Z -> option Z.

Definition store (m : memory) (a v : Z) : option memory :=
  match m a with
  | None => None
  | Some _ => Some (fun x => if x =? a then Some v else m x)
  end.

(** Memory and [curthread->t_machdep.tm_badfaultfunc]. *)
Record machine := mkMachine {
  bytes : memory;
  badfaultfunc : bool
}.

Definition with_bytes (s : machine) (m : memory) : machine := mkMachine m (badfaultfunc s).
Definition set_badfault (s : machine) (b : bool) : machine := mkMachine (bytes s) b.

(** memcpy, byte by byte; [false], a fault on the way.  memcpy.c goes by words
    where both addresses and the length allow it; pages being made of words, it
    stops at the same byte. *)
Fixpoint copy_bytes (k : nat) (m : memory) (dst src : Z) : memory * bool :=
  match k with
  | O => (m, true)
  | S k =>
    match m src with
    | None => (m, false)
    | Some v =>
      match store m dst v with
      | None => (m, false)
      | Some m => copy_bytes k m (dst + 1) (src + 1)
      end
    end
  end.

(** The error code and [*stoplen]. *)
Definition copycheck (userptr len : Z) : Z * Z :=
  let bot := userptr in
  let top := u32 (u32 (bot + len) - 1) in
  if top <? bot then (EFAULT, len)
  else if USERSPACETOP <=? bot then (EFAULT, len)
  else if USERSPACETOP <=? top then (0, USERSPACETOP - bot)
  else (0, len).

(** The part that copyin and copyout share: [memcpy] under [copyfail]. *)
Definition guarded_copy (s : machine) (dst src len : Z) : machine * Z :=
  let s := set_badfault s true in
  let (m, ok) := copy_bytes (Z.to_nat len) (bytes s) dst src in
  let s := set_badfault (with_bytes s m) false in
  if ok then (s, 0) else (s, EFAULT).

Definition copyin (s : machine) (usersrc dest len : Z) : machine * Z :=
  let (result, stoplen) := copycheck usersrc len in
  if negb (result =? 0) then (s, result)
  else if negb (stoplen =? len) then (s, EFAULT)
  else guarded_copy s dest usersrc len.

Definition copyout (s : machine) (src userdest len : Z) : machine * Z :=
  let (result, stoplen) := copycheck userdest len in
  if negb (result =? 0) then (s, result)
  else if negb (stoplen =? len) then (s, EFAULT)
  else guarded_copy s userdest src len.

(** The loop of [copystr]; [k] is what is left of the smaller of [maxlen] and
    [stoplen]. *)
Inductive str_result :=
| StrFault
| StrEnd
| StrGot (len : Z).

Fixpoint copystr_loop (k : nat) (m : memory) (dest src i : Z) : memory * str_result :=
  match k with
  | O => (m, StrEnd)
  | S k =>
    match m (src + i) with
    | None => (m, StrFault)
    | Some v =>
      match store m (dest + i) v with
      | None => (m, StrFault)
      | Some m => if v =? 0 then (m, StrGot (i + 1)) else copystr_loop k m dest src (i + 1)
      end
    end
  end.

(** The error code and [*gotlen]; a fault is a result of its own. *)
Definition copystr (m : memory) (dest src maxlen stoplen : Z) : memory * option (Z * option Z) :=
  let (m, r) := copystr_loop (Z.to_nat (Z.min maxlen stoplen)) m dest src 0 in
  match r with
  | StrFault => (m, None)
  | StrGot n => (m, Some (0, Some n))
  | StrEnd => if stoplen <? maxlen then (m, Some (EFAULT, None)) else (m, Some (ENAMETOOLONG, None))
  end.

Definition guarded_copystr (s : machine) (dest src len stoplen : Z) : machine * (Z * option Z) :=
  let s := set_badfault s true in
  let (m, r) := copystr (bytes s) dest src len stoplen in
  let s := set_badfault (with_bytes s m) false in
  match r with
  | None => (s, (EFAULT, None))
  | Some r => (s, r)
  end.

(** The error code and [*actual]. *)
Definition copyinstr (s : machine) (usersrc dest len : Z) : machine * (Z * option Z) :=
  let (result, stoplen) := copycheck usersrc len in
  if negb (result =? 0) then (s, (result, None))
  else guarded_copystr s dest usersrc len stoplen.

Definition copyoutstr (s : machine) (src userdest len : Z) : machine * (Z * option Z) :=
  let (result, stoplen) := copycheck userdest len in
  if negb (result =? 0) then (s, (result, None))
  else guarded_copystr s userdest src len stoplen.

(** ** uio *)

Inductive uio_rw := UIO_READ | UIO_WRITE.
Inductive uio_seg := UIO_USERISPACE | UIO_USERSPACE | UIO_SYSSPACE.

#[global] Instance uio_rw_eq_dec : EqDecision uio_rw.
Proof. solve_decision. Defined.
#[global] Instance uio_seg_eq_dec : EqDecision uio_seg.
Proof. solve_decision. Defined.

Record iovec := mkIov {
  iov_base : Z;
  iov_len : Z
}.

(** [uio_iov] is the list of the blocks from the current one on; its length
    is [uio_iovcnt]. *)
Record uio := mkUio {
  uio_iov : list iovec;
  uio_offset : Z;
  uio_resid : Z;
  uio_segflg : uio_seg;
  uio_dir : uio_rw;
  uio_space : option Z
}.

Definition uio_kinit (kbuf len pos : Z) (rw : uio_rw) : uio :=
  mkUio [mkIov kbuf len] pos len UIO_SYSSPACE rw None.

(** memmove: everything is read before anything is written. *)
Fixpoint read_bytes (k : nat) (m : memory) (a : Z) : option (list Z) :=
  match k with
  | O => Some []
  | S k =>
    match m a, read_bytes k m (a + 1) with
    | Some v, Some l => Some (v :: l)
    | _, _ => None
    end
  end.

Fixpoint write_bytes (m : memory) (a : Z) (l : list Z) : option memory :=
  match l with
  | [] => Some m
  | v :: l =>
    match store m a v with
    | Some m => write_bytes m (a + 1) l
    | None => None
    end
  end.

Definition memmove (s : machine) (dst src len : Z) : res machine :=
  let* l := access (read_bytes (Z.to_nat len) (bytes s) src) in
  let* m := access (write_bytes (bytes s) dst l) in
  Ok (with_bytes s m).

(** One transfer of [size] bytes between [ptr] and the first block. *)
Definition move_piece (s : machine) (u : uio) (base ptr size : Z) : res (machine * Z) :=
  match uio_segflg u with
  | UIO_SYSSPACE =>
    let* s := match uio_dir u with
              | UIO_READ => memmove s base ptr size
              | UIO_WRITE => memmove s ptr base size
              end in
    Ok (s, 0)
  | UIO_USERSPACE | UIO_USERISPACE =>
    Ok (match uio_dir u with
        | UIO_READ => copyout s ptr base size
        | UIO_WRITE => copyin s base ptr size
        end)
  end.

Definition advance (u : uio) (base len size : Z) (iov : list iovec) : uio :=
  mkUio (mkIov (base + size) (len - size) :: iov) (s64 (uio_offset u + size))
    (u32 (uio_resid u - size)) (uio_segflg u) (uio_dir u) (uio_space u).

Fixpoint uiomove_loop (fuel : nat) (s : machine) (ptr n : Z) (u : uio) : res (machine * uio * Z) :=
  if (0 <? n) && (0 <? uio_resid u) then
    match fuel with
    | O => Fault OutOfFuel
    | S fuel =>
      match uio_iov u with
      | [] => Fault BadAccess
      | mkIov base len :: iov =>
        let size := if n <? len then n else len in
        if size =? 0 then
          match iov with
          | [] => Fault PanicCall
          | _ => uiomove_loop fuel s ptr n
                   (mkUio iov (uio_offset u) (uio_resid u) (uio_segflg u) (uio_dir u) (uio_space u))
          end
        else
          let* (s, result) := move_piece s u base ptr size in
          if negb (result =? 0) then Ok (s, u, result)
          else uiomove_loop fuel s (ptr + size) (n - size) (advance u base len size iov)
      end
    end
  else Ok (s, u, 0).

Definition uiomove (s : machine) (curas : option Z) (ptr n : Z) (u : uio) : res (machine * uio * Z) :=
  kassert (match uio_segflg u with
           | UIO_SYSSPACE => bool_decide (uio_space u = None)
           | _ => bool_decide (uio_space u = curas)
           end)
    (uiomove_loop (2 * length (uio_iov u) + 2) s ptr n u).

(** The array [zeros] is at [zeros]. *)
Fixpoint uiomovezeros_loop (fuel : nat) (s : machine) (curas : option Z) (zeros n : Z) (u : uio)
    : res (machine * uio * Z) :=
  if 0 <? n then
    match fuel with
    | O => Fault OutOfFuel
    | S fuel =>
      let amt := if n <? 16 then n else 16 in
      let* (s, u, result) := uiomove s curas zeros amt u in
      if negb (result =? 0) then Ok (s, u, result)
      else uiomovezeros_loop fuel s curas zeros (n - amt) u
    end
  else Ok (s, u, 0).

Definition uiomovezeros (s : machine) (curas : option Z) (zeros n : Z) (u : uio) : res (machine * uio * Z) :=
  kassert (bool_decide (uio_dir u = UIO_READ)) (uiomovezeros_loop (Z.to_nat n) s curas zeros n u).

(** ** What a copy does *)

(** [moved n dst src m m']: the [n] bytes from [src] on are at [dst] now, and
    nothing else changed. *)
Definition moved (n dst src : Z) (m m' : memory) : Prop :=
  forall a, m' a = if (dst <=? a) && (a <? dst + n) then m (src + (a - dst)) else m a.

Definition readable (m : memory) (a n : Z) : Prop := forall x, a <= x < a + n -> is_Some (m x).

Definition apart (a b n : Z) : Prop := a + n <= b \/ b + n <= a.

(** Which addresses are mapped never changes. *)
Definition same_map (m m' : memory) : Prop := forall a, is_Some (m a) <-> is_Some (m' a).

Lemma store_same m a v m' : store m a v = Some m' -> same_map m m'.
Proof.
  unfold store. destruct (m a) eqn:E; [ | done]. intros [= <-] x. destruct (Z.eqb_spec x a) as [-> | ]; [ | done].
  rewrite E. split; eauto.
Qed.

Lemma same_map_trans m1 m2 m3 : same_map m1 m2 -> same_map m2 m3 -> same_map m1 m3.
Proof. intros H1 H2 a. unfold same_map in *. by rewrite (H1 a). Qed.

Lemma copy_bytes_same k m dst src m' ok : copy_bytes k m dst src = (m', ok) -> same_map m m'.
Proof.
  revert m dst src. induction k as [ | k IH]; intros m dst src; cbn [copy_bytes]; [by intros [= <- _] |].
  destruct (m src); [ | by intros [= <- _]]. destruct (store m dst z) eqn:E; [ | by intros [= <- _]].
  intros H%IH. by eapply same_map_trans; [eapply store_same |].
Qed.

(** Where a copy stops, whatever is mapped: after [j] bytes, at the first one
    that cannot be read or written. *)
Lemma copy_bytes_stops k m dst src m' ok :
  copy_bytes k m dst src = (m', ok) ->
  exists j, 0 <= j <= Z.of_nat k /\ readable m src j /\ readable m dst j /\
    (if ok then j = Z.of_nat k else j < Z.of_nat k /\ (m (src + j) = None \/ m (dst + j) = None)) /\
    (forall a, ~ (dst <= a < dst + j) -> m' a = m a) /\
    (apart dst src j -> moved j dst src m m').
Proof.
  revert m dst src. induction k as [ | k IH]; intros m dst src; cbn [copy_bytes].
  { intros [= <- <-]. exists 0. repeat split; try done; try lia; intros x; try lia. intros a. case_match; [bool_inv; lia | done]. }
  assert (Hstop : (m src = None \/ m dst = None) -> (m, false) = (m', ok) ->
    exists j, 0 <= j <= Z.of_nat (S k) /\ readable m src j /\ readable m dst j /\
      (if ok then j = Z.of_nat (S k) else j < Z.of_nat (S k) /\ (m (src + j) = None \/ m (dst + j) = None)) /\
      (forall a, ~ (dst <= a < dst + j) -> m' a = m a) /\ (apart dst src j -> moved j dst src m m')).
  { intros Hn [= <- <-]. exists 0. rewrite !Z.add_0_r. repeat split; try done; try lia; intros x; try lia.
    intros a. case_match; [bool_inv; lia | done]. }
  destruct (m src) as [v | ] eqn:Hv; [ | by apply Hstop; left].
  unfold store. destruct (m dst) as [w | ] eqn:Hw; [ | by apply Hstop; right]. clear Hstop.
  set (m1 := fun x => if x =? dst then Some v else m x).
  assert (Hsame : forall x, is_Some (m1 x) <-> is_Some (m x)).
  { intros x. unfold m1. destruct (Z.eqb_spec x dst) as [-> | ]; [ | done]. rewrite Hw. split; eauto. }
  intros (j & Hj & Rs & Rd & Hres & Hfr & Hmv)%IH. exists (j + 1). split; [lia |].
  split; [ | split; [ | split; [ | split]]].
  - intros x Hx. destruct (Z.eq_dec x src) as [-> | ]; [eauto | apply Hsame, Rs; lia].
  - intros x Hx. destruct (Z.eq_dec x dst) as [-> | ]; [eauto | apply Hsame, Rd; lia].
  - destruct ok; [lia |]. destruct Hres as [Hlt Hn]. split; [lia |].
    rewrite !(Z.add_comm j 1), !Z.add_assoc.
    destruct Hn as [Hn | Hn]; [left | right]; apply eq_None_not_Some; rewrite <- Hsame; by apply eq_None_not_Some.
  - intros a Ha. rewrite Hfr by lia. unfold m1. by rewrite (proj2 (Z.eqb_neq _ _)) by lia.
  - intros Ha. unfold apart in Ha. assert (M := Hmv ltac:(unfold apart; lia)). intros a. rewrite (M a). unfold m1.
    destruct (Z.leb_spec (dst + 1) a), (Z.ltb_spec a (dst + 1 + j)), (Z.leb_spec dst a),
      (Z.ltb_spec a (dst + (j + 1))); cbn [andb]; try lia.
    + rewrite (proj2 (Z.eqb_neq _ _)) by lia. f_equal. lia.
    + by rewrite (proj2 (Z.eqb_neq _ _)) by lia.
    + assert (a = dst) as -> by lia. rewrite Z.eqb_refl, <- Hv. f_equal. lia.
    + by rewrite (proj2 (Z.eqb_neq _ _)) by lia.
Qed.

(** The one block check of all four operations. *)
Lemma copycheck_cases p n :
  is_u32 p -> is_u32 n ->
  (copycheck p n = (0, n) /\ 0 < n /\ p + n <= USERSPACETOP) \/
  (copycheck p n = (0, USERSPACETOP - p) /\ p < USERSPACETOP /\ (USERSPACETOP < p + n \/ (n = 0 /\ p = 0))) \/
  (exists l, copycheck p n = (EFAULT, l) /\ (n = 0 \/ USERSPACETOP < p + n \/ USERSPACETOP <= p)).
Proof.
  unfold is_u32, copycheck, USERSPACETOP, MIPS_KSEG0. intros Hp Hn.
  assert (Htop : u32 (u32 (p + n) - 1) = if p + n =? 0 then 2 ^ 32 - 1 else if p + n - 1 <? 2 ^ 32 then p + n - 1 else p + n - 1 - 2 ^ 32).
  { unfold u32. rewrite Zminus_mod_idemp_l. destruct (Z.eqb_spec (p + n) 0) as [-> | ]; [done |].
    destruct (Z.ltb_spec (p + n - 1) (2 ^ 32)); [rewrite Z.mod_small; lia |].
    symmetry. apply (Z.mod_unique _ _ 1); lia. }
  rewrite Htop. clear Htop.
  destruct (Z.eqb_spec (p + n) 0), (Z.ltb_spec (p + n - 1) (2 ^ 32)); try lia; repeat case_if; try lia;
    first [ left; split; [done | lia] | right; left; split; [done | lia]
          | right; right; eexists; split; [done | lia] ].
Qed.

(** What a copy of [n] bytes from [src] to [dst] leaves behind when it ends
    with [r]: the first [k] bytes have arrived and no other address changed,
    with 0 exactly when nothing stopped it. *)
Record copied (n dst src : Z) (m m' : memory) (r : Z) : Prop := {
  copied_result : r = 0 \/ r = EFAULT;
  copied_iff : r = 0 <-> readable m src n /\ readable m dst n;
  copied_frame : forall a, ~ (dst <= a < dst + n) -> m' a = m a;
  copied_prefix : apart dst src n -> exists k, 0 <= k <= n /\ moved k dst src m m' /\
    (r = 0 -> k = n) /\ (r = EFAULT -> k < n /\ (m (src + k) = None \/ m (dst + k) = None))
}.

(** Every result of a guarded copy: the fault handler is off again, the map
    of memory is the same, and what was copied is the part before the fault. *)
Lemma guarded_copy_spec s dst src n :
  0 <= n ->
  exists s' r, guarded_copy s dst src n = (s', r) /\
    badfaultfunc s' = false /\ same_map (bytes s) (bytes s') /\ copied n dst src (bytes s) (bytes s') r.
Proof.
  intros Hn. unfold guarded_copy. cbn [set_badfault bytes].
  destruct (copy_bytes (Z.to_nat n) (bytes s) dst src) as [m ok] eqn:E.
  exists (set_badfault (with_bytes (set_badfault s true) m) false), (if ok then 0 else EFAULT).
  split; [by destruct ok |]. split; [done |]. split; [by eapply copy_bytes_same |]. cbn [set_badfault with_bytes bytes].
  apply copy_bytes_stops in E as (j & Hj & Rs & Rd & Hres & Hfr & Hmv). rewrite !Z2Nat.id in * by done.
  split.
  - destruct ok; auto.
  - destruct ok; [by subst j |]. destruct Hres as [Hlt Hno]. split; [done | intros [R1 R2]]. exfalso.
    destruct (R1 (src + j)) as [v Hv]; [lia |]. destruct (R2 (dst + j)) as [w Hw]; [lia |]. destruct Hno; congruence.
  - intros a Ha. apply Hfr. lia.
  - intros Ha. exists j. split; [done |]. split; [apply Hmv; unfold apart in *; lia |]. by destruct ok.
Qed.

(** What copyin and copyout promise of a block of [n] bytes at the user
    address [p]. *)
Record copy_contract (s : machine) (p dst src n : Z) (s' : machine) (r : Z) : Prop := {
  copy_result : r = 0 \/ r = EFAULT;
  copy_handler : badfaultfunc s = false -> badfaultfunc s' = false;
  copy_map : same_map (bytes s) (bytes s');
  copy_kernel : USERSPACETOP < p + n -> r = EFAULT /\ s' = s;
  copy_empty : n = 0 -> r = EFAULT /\ s' = s;
  copy_done : 0 < n -> p + n <= USERSPACETOP -> copied n dst src (bytes s) (bytes s') r;
  copy_frame : forall a, ~ (dst <= a < dst + n) -> bytes s' a = bytes s a
}.

Lemma copy_contract_holds s p dst src n :
  is_u32 p -> is_u32 n ->
  exists s' r,
    (let (result, stoplen) := copycheck p n in
     if negb (result =? 0) then (s, result)
     else if negb (stoplen =? n) then (s, EFAULT) else guarded_copy s dst src n) = (s', r) /\
    copy_contract s p dst src n s' r.
Proof.
  intros Hp Hn.
  destruct (copycheck_cases p n Hp Hn) as [(-> & H1 & H2) | [(-> & H1 & H2) | (l & -> & H1)]]; cbn [negb Z.eqb].
  - rewrite Z.eqb_refl. cbn [negb].
    destruct (guarded_copy_spec s dst src n) as (s' & r & -> & Hb & Hm & Hc); [lia |].
    exists s', r. split; [done |]. split; auto; try lia; apply Hc.
  - assert ((USERSPACETOP - p =? n) = false) as ->.
    { apply Z.eqb_neq. unfold USERSPACETOP, MIPS_KSEG0 in *. lia. }
    exists s, EFAULT. split; [done |]. split; auto; try done. lia.
  - exists s, EFAULT. split; [done |]. split; auto; try done. unfold is_u32 in *. lia.
Qed.

(** C30: copyin and copyout are safe against any user address and length.  They
    return 0 or EFAULT, leave the fault handler off and map nothing in or out;
    however they end, no byte outside the destination block is changed, and a
    block that is empty or reaches into the kernel is refused with all of
    memory as it was.  A block below USERSPACETOP is copied with 0 exactly when
    both sides are mapped; otherwise the copy ends with EFAULT, and the bytes
    before the first one that faults, no others, are the source's (for blocks
    that do not overlap). *)
Theorem copyinout_safe s user kern n (Hu : is_u32 user) (Hn : is_u32 n) :
  (exists s' r, copyin s user kern n = (s', r) /\ copy_contract s user kern user n s' r) /\
  (exists s' r, copyout s kern user n = (s', r) /\ copy_contract s user user kern n s' r).
Proof. split; by apply copy_contract_holds. Qed.

(** User memory with a string, kernel memory above. *)
Definition demo_machine : machine :=
  mkMachine (fun a => if (0x1000 <=? a) && (a <? 0x1100) then Some (if a =? 0x1003 then 0 else 65)
                      else if (USERSPACETOP - 4 <=? a) && (a <? USERSPACETOP + 0x100) then Some 66 else None) false.

Lemma copyinout_safe_witness :
  exists s' r, copyin demo_machine 0x1000 (USERSPACETOP + 16) 3 = (s', r) /\
    copy_contract demo_machine 0x1000 (USERSPACETOP + 16) 0x1000 3 s' r.
Proof. refine (proj1 (copyinout_safe demo_machine 0x1000 (USERSPACETOP + 16) 3 _ _)); split; lia. Defined.

(** ** Strings *)

(** [l], with no zero in it, and a zero after it are at [a]. *)
Definition string_at (m : memory) (a : Z) (l : list Z) : Prop :=
  (forall j x, l !! j = Some x -> m (a + Z.of_nat j) = Some x /\ x <> 0) /\ m (a + zlen l) = Some 0.

Lemma moved_trans m1 m2 m3 dst src n :
  0 <= n -> apart dst src (n + 1) -> moved 1 dst src m1 m2 -> moved n (dst + 1) (src + 1) m2 m3 ->
  moved (n + 1) dst src m1 m3.
Proof.
  intros Hn Ha H1 H2 a. unfold apart in Ha. rewrite (H2 a).
  destruct (Z.leb_spec (dst + 1) a), (Z.ltb_spec a (dst + 1 + n)); cbn [andb].
  - rewrite (proj2 (Z.leb_le dst a)), (proj2 (Z.ltb_lt a (dst + (n + 1)))) by lia. cbn [andb].
    replace (src + 1 + (a - (dst + 1))) with (src + (a - dst)) by lia. rewrite (H1 (src + (a - dst))).
    destruct (Z.leb_spec dst (src + (a - dst))), (Z.ltb_spec (src + (a - dst)) (dst + 1)); cbn [andb]; [lia | done..].
  - rewrite (proj2 (Z.ltb_ge a (dst + (n + 1)))), andb_false_r, (H1 a) by lia.
    by rewrite (proj2 (Z.ltb_ge a (dst + 1))), andb_false_r by lia.
  - rewrite (H1 a). destruct (Z.leb_spec dst a); cbn [andb]; [ | done].
    by rewrite (proj2 (Z.ltb_lt a (dst + 1))), (proj2 (Z.ltb_lt a (dst + (n + 1)))) by lia.
  - lia.
Qed.

Lemma store_moved m dst src v m' : m src = Some v -> store m dst v = Some m' -> moved 1 dst src m m'.
Proof.
  unfold store. intros Hv. destruct (m dst); [ | done]. intros [= <-] a.
  destruct (Z.eqb_spec a dst) as [-> | Hne].
  - rewrite Z.leb_refl, (proj2 (Z.ltb_lt _ _)) by lia. cbn. rewrite <- Hv. f_equal. lia.
  - destruct (Z.leb_spec dst a), (Z.ltb_spec a (dst + 1)); cbn; try lia; done.
Qed.

Lemma store_ok m a v : is_Some (m a) -> exists m', store m a v = Some m'.
Proof. intros [w Hw]. unfold store. rewrite Hw. by eexists. Qed.

(** The loop on a string that fits. *)
Lemma copystr_loop_got l k m dest src i :
  string_at m (src + i) l -> (length l < k)%nat ->
  readable m (dest + i) (zlen l + 1) -> apart (dest + i) (src + i) (zlen l + 1) ->
  exists m', copystr_loop k m dest src i = (m', StrGot (i + zlen l + 1)) /\
    moved (zlen l + 1) (dest + i) (src + i) m m'.
Proof.
  revert k m i. induction l as [ | x l IH]; intros k m i [Hl Hz] Hk Hr Ha; destruct k as [ | k]; cbn [length] in Hk; try lia;
    cbn [copystr_loop].
  - change (zlen (A := Z) []) with 0 in *. replace (src + i + 0) with (src + i) in Hz by lia. rewrite Hz.
    destruct (store_ok m (dest + i) 0) as [m1 E]; [apply Hr; lia |]. rewrite E. cbn [Z.eqb].
    exists m1. split; [do 2 f_equal; lia |]. by eapply store_moved.
  - assert (zlen (x :: l) = zlen l + 1) as El by (unfold zlen; cbn; lia). rewrite El in *.
    destruct (Hl 0%nat x eq_refl) as [Hx Hx0]. rewrite Z.add_0_r in Hx. rewrite Hx.
    destruct (store_ok m (dest + i) x) as [m1 E]; [apply Hr; unfold zlen in *; lia |]. rewrite E.
    rewrite (proj2 (Z.eqb_neq _ _)) by done. pose proof (store_moved _ _ _ _ _ Hx E) as M1.
    assert (Hkeep : forall a, a <> dest + i -> m1 a = m a).
    { intros a Ha'. rewrite (M1 a). destruct (Z.leb_spec (dest + i) a), (Z.ltb_spec a (dest + i + 1)); cbn; try lia; done. }
    unfold apart, zlen in Ha.
    destruct (IH k m1 (i + 1)) as (m2 & -> & M2).
    + split.
      * intros j y Hy. pose proof (lookup_lt_Some _ _ _ Hy). rewrite Hkeep by lia.
        destruct (Hl (S j) y Hy) as [Hm Hy0]. split; [ | done]. rewrite <- Hm. f_equal. lia.
      * rewrite Hkeep by (unfold zlen; lia). rewrite <- Hz. f_equal. lia.
    + lia.
    + intros a Ha'. apply (store_same _ _ _ _ E). apply Hr. lia.
    + unfold apart, zlen. lia.
    + exists m2. split; [do 2 f_equal; lia |].
      replace (dest + (i + 1)) with (dest + i + 1) in M2 by lia. replace (src + (i + 1)) with (src + i + 1) in M2 by lia.
      eapply moved_trans; [unfold zlen; lia | unfold apart, zlen; lia | exact M1 | exact M2].
Qed.

(** The loop on [k] bytes with no zero among them. *)
Lemma copystr_loop_end k m dest src i :
  (forall j, 0 <= j < Z.of_nat k -> exists x, m (src + i + j) = Some x /\ x <> 0) ->
  readable m (dest + i) (Z.of_nat k) -> apart (dest + i) (src + i) (Z.of_nat k) ->
  exists m', copystr_loop k m dest src i = (m', StrEnd).
Proof.
  revert m i. induction k as [ | k IH]; intros m i Hl Hr Ha; cbn [copystr_loop]; [by eexists |].
  destruct (Hl 0) as (x & Hx & Hx0); [lia |]. rewrite Z.add_0_r in Hx. rewrite Hx.
  destruct (store_ok m (dest + i) x) as [m1 E]; [apply Hr; lia |]. rewrite E.
  rewrite (proj2 (Z.eqb_neq _ _)) by done. pose proof (store_moved _ _ _ _ _ Hx E) as M1.
  apply IH.
  - intros j Hj. destruct (Hl (j + 1)) as (y & Hy & Hy0); [lia |]. exists y. split; [ | done].
    rewrite (M1 (src + (i + 1) + j)), <- Hy. unfold apart in Ha.
    destruct (Z.leb_spec (dest + i) (src + (i + 1) + j)), (Z.ltb_spec (src + (i + 1) + j) (dest + i + 1));
      cbn; try lia; f_equal; lia.
  - intros a Ha'. apply (store_same _ _ _ _ E). apply Hr. lia.
  - unfold apart in *. lia.
Qed.

(** Copyinstr brings in strings.  A string that ends below USERSPACETOP is
    copied with its terminator when it fits into [len] bytes, and its length
    counting the terminator is reported; a string that does not fit is refused
    with ENAMETOOLONG, and one that runs into the kernel with EFAULT.  The
    fault handler is off afterwards. *)
Theorem copyinstr_strings s user kern len l
  (Hu : is_u32 user) (Hlen : is_u32 len) (Hpos : 0 < len) (Hb : badfaultfunc s = false)
  (Hdest : readable (bytes s) kern len) (Happ : apart kern user (Z.max len (zlen l + 1))) :
  (string_at (bytes s) user l -> zlen l + 1 <= len -> user + len <= USERSPACETOP ->
     exists s', copyinstr s user kern len = (s', (0, Some (zlen l + 1))) /\ badfaultfunc s' = false /\
       moved (zlen l + 1) kern user (bytes s) (bytes s')) /\
  (string_at (bytes s) user l -> len < zlen l + 1 -> user + len <= USERSPACETOP ->
     exists s', copyinstr s user kern len = (s', (ENAMETOOLONG, None)) /\ badfaultfunc s' = false) /\
  (user < USERSPACETOP -> USERSPACETOP < user + len ->
     (forall j, user <= j < USERSPACETOP -> exists x, bytes s j = Some x /\ x <> 0) ->
     exists s', copyinstr s user kern len = (s', (EFAULT, None)) /\ badfaultfunc s' = false).
Proof.
  unfold copyinstr, guarded_copystr, copystr. cbn [set_badfault bytes].
  unfold apart in Happ. split; [ | split].
  - intros Hs Hfit Htop.
    destruct (copycheck_cases user len Hu Hlen) as [(-> & _) | [(-> & H1 & H2) | (? & -> & H1)]]; [ | lia | lia].
    cbn [negb Z.eqb]. rewrite Z.min_id.
    destruct (copystr_loop_got l (Z.to_nat len) (bytes s) kern user 0) as (m & -> & M);
      rewrite ?Z.add_0_r; [done | unfold zlen in *; lia | intros a Ha; apply Hdest; lia | unfold apart; lia |].
    rewrite Z.add_0_l. eexists. split; [done |]. split; [done |]. cbn. by rewrite !Z.add_0_r in M.
  - intros [Hs Hz] Hbig Htop.
    destruct (copycheck_cases user len Hu Hlen) as [(-> & _) | [(-> & H1 & H2) | (? & -> & H1)]]; [ | lia | lia].
    cbn [negb Z.eqb]. rewrite Z.min_id, Z.ltb_irrefl.
    destruct (copystr_loop_end (Z.to_nat len) (bytes s) kern user 0) as (m & ->);
      rewrite ?Z.add_0_r, ?Z2Nat.id by lia; [ | done | unfold apart; lia | by eexists].
    intros j Hj. destruct (lookup_lt_is_Some_2 l (Z.to_nat j)) as [x Hx]; [unfold zlen in *; lia |].
    exists x. destruct (Hs _ _ Hx). rewrite Z2Nat.id in * by lia. done.
  - intros Hlow Hover Hnz.
    destruct (copycheck_cases user len Hu Hlen) as [(-> & H1) | [(-> & _) | (l' & -> & _)]]; [lia | | by eexists].
    cbn [negb Z.eqb]. rewrite Z.min_r, (proj2 (Z.ltb_lt _ _)) by lia.
    destruct (copystr_loop_end (Z.to_nat (USERSPACETOP - user)) (bytes s) kern user 0) as (m & ->);
      rewrite ?Z.add_0_r, ?Z2Nat.id by lia; [ | | unfold apart; lia | by eexists].
    + intros j Hj. apply Hnz. lia.
    + intros a Ha. apply Hdest. lia.
Qed.

Lemma copyinstr_strings_witness :
  exists s', copyinstr demo_machine 0x1000 (USERSPACETOP + 16) 32 = (s', (0, Some 4)) /\ badfaultfunc s' = false /\
    moved 4 (USERSPACETOP + 16) 0x1000 (bytes demo_machine) (bytes s').
Proof.
  refine (proj1 (copyinstr_strings demo_machine 0x1000 (USERSPACETOP + 16) 32 [65; 65; 65] _ _ _ _ _ _) _ _ _).
  - split; lia.
  - split; lia.
  - lia.
  - reflexivity.
  - intros a Ha. unfold USERSPACETOP, MIPS_KSEG0 in Ha. cbn [demo_machine bytes].
    rewrite (proj2 (Z.ltb_ge a 0x1100)), andb_false_r by lia. unfold USERSPACETOP, MIPS_KSEG0.
    rewrite (proj2 (Z.leb_le _ _)), (proj2 (Z.ltb_lt _ _)) by lia. by eexists.
  - right. unfold USERSPACETOP, MIPS_KSEG0, zlen. cbn. lia.
  - split; [ | reflexivity]. intros [ | [ | [ | j]]] x Hx; simplify_eq/=; done.
  - unfold zlen. cbn. lia.
  - unfold USERSPACETOP, MIPS_KSEG0. lia.
Defined.

(** ** uiomove *)

Fixpoint total (l : list iovec) : Z :=
  match l with
  | [] => 0
  | v :: l => iov_len v + total l
  end.

(** A uio set up as uio.h asks: blocks at addresses of 32 bits, and
    [uio_resid] is what the blocks hold. *)
Record uio_ok (u : uio) : Prop := {
  uio_blocks : Forall (fun v => is_u32 (iov_base v) /\ 0 <= iov_len v /\ iov_base v + iov_len v < 2 ^ 32) (uio_iov u);
  uio_total : uio_resid u = total (uio_iov u);
  uio_range : total (uio_iov u) < 2 ^ 32
}.

Lemma total_nonneg l : Forall (fun v => is_u32 (iov_base v) /\ 0 <= iov_len v /\ iov_base v + iov_len v < 2 ^ 32) l -> 0 <= total l.
Proof. induction 1 as [ | v l Hv _ IH]; [done |]. cbn in *. lia. Qed.

(** The address of byte [i] of the blocks. *)
Fixpoint addr_at (l : list iovec) (i : Z) : Z :=
  match l with
  | [] => 0
  | v :: l => if i <? iov_len v then iov_base v + i else addr_at l (i - iov_len v)
  end.

(** Where byte [i] of a transfer between [ptr] and the blocks goes, and where
    it comes from. *)
Definition to_addr (u : uio) (ptr i : Z) : Z :=
  match uio_dir u with UIO_READ => addr_at (uio_iov u) i | UIO_WRITE => ptr + i end.
Definition from_addr (u : uio) (ptr i : Z) : Z :=
  match uio_dir u with UIO_READ => ptr + i | UIO_WRITE => addr_at (uio_iov u) i end.

(** Byte [i] can be moved: mapped on both sides and, for a transfer with user
    memory, below the kernel. *)
Definition good_byte (m : memory) (u : uio) (ptr i : Z) : Prop :=
  is_Some (m (from_addr u ptr i)) /\ is_Some (m (to_addr u ptr i)) /\
  (uio_segflg u <> UIO_SYSSPACE -> addr_at (uio_iov u) i < USERSPACETOP).

#[global] Instance good_byte_dec m u ptr i : Decision (good_byte m u ptr i).
Proof. unfold good_byte. apply _. Defined.

(** The [K] places written to are different ones and none is read from. *)
Definition clash_free (dst src : Z -> Z) (K : Z) : Prop :=
  (forall i j, 0 <= i < K -> 0 <= j < K -> dst i <> src j) /\
  (forall i j, 0 <= i < K -> 0 <= j < K -> dst i = dst j -> i = j).

(** Nothing but the [K] places [dst] is written, and the first [k] hold what
    the places [src] held. *)
Definition arrived (dst src : Z -> Z) (K k : Z) (m m' : memory) : Prop :=
  (forall a, (forall i, 0 <= i < K -> a <> dst i) -> m' a = m a) /\
  (clash_free dst src K -> forall i, 0 <= i < k -> m' (dst i) = m (src i)).

Lemma arrived_none dst src K m : arrived dst src K 0 m m.
Proof. split; [done | lia]. Qed.

(** A transfer of [p] bytes and one of the bytes after them make one. *)
Lemma arrived_app dst src dst' src' p K k m m1 m2 :
  0 <= p -> 0 <= k <= K ->
  (forall i, 0 <= i < K -> dst' i = dst (p + i) /\ src' i = src (p + i)) ->
  arrived dst src p p m m1 -> arrived dst' src' K k m1 m2 -> arrived dst src (p + K) (p + k) m m2.
Proof.
  intros Hp Hk Hsh [F1 C1] [F2 C2]. split.
  - intros a Ha. rewrite F2, F1; [done | intros i Hi; apply Ha; lia |].
    intros i Hi. rewrite (proj1 (Hsh i Hi)). apply Ha. lia.
  - intros [Hne Hinj] i Hi. destruct (Z.lt_ge_cases i p) as [Hlt | Hge].
    + rewrite F2; [apply C1; [split; [intros ????; apply Hne; lia | intros ????; apply Hinj; lia] | lia] |].
      intros j Hj. rewrite (proj1 (Hsh j Hj)). intros E%Hinj; lia.
    + destruct (Hsh (i - p)) as [Ed Es]; [lia |]. replace (p + (i - p)) with i in * by lia.
      rewrite <- Ed, C2, Es; [ | | lia].
      * apply F1. intros j Hj. apply not_eq_sym, Hne; lia.
      * split; intros a b Ha Hb; rewrite (proj1 (Hsh a Ha)), ?(proj2 (Hsh b Hb)), ?(proj1 (Hsh b Hb));
          [apply Hne; lia | intros E%Hinj; lia].
Qed.

Lemma moved_arrived n dst src m m' :
  moved n dst src m m' -> arrived (fun i => dst + i) (fun i => src + i) n n m m'.
Proof.
  intros M. split.
  - cbn beta. intros a Ha. rewrite (M a). case_match; [bool_inv | done]. destruct (Ha (a - dst)); lia.
  - cbn beta. intros _ i Hi. rewrite (M _), (proj2 (Z.leb_le _ _)), (proj2 (Z.ltb_lt _ _)) by lia. cbn. f_equal. lia.
Qed.

Lemma copied_arrived n dst src m m' r :
  0 < n -> copied n dst src m m' r ->
  arrived (fun i => dst + i) (fun i => src + i) n (if r =? 0 then n else 0) m m'.
Proof.
  intros Hn C. split.
  - intros a Ha. apply (copied_frame _ _ _ _ _ _ C). intros H. apply (Ha (a - dst)); lia.
  - intros [Hne _] i Hi. case_match; [ | lia]. bool_inv. subst r. cbn beta in *.
    destruct (copied_prefix _ _ _ _ _ _ C) as (k & _ & M & Hk & _).
    { cbv beta in Hne. unfold apart. destruct (Z.le_gt_cases (dst + n) src); [auto |]. destruct (Z.le_gt_cases (src + n) dst); [auto |].
      destruct (Z.le_gt_cases dst src); [destruct (Hne (src - dst) 0) | destruct (Hne 0 (dst - src))]; lia. }
    rewrite (Hk eq_refl) in M. rewrite (M _), (proj2 (Z.leb_le _ _)), (proj2 (Z.ltb_lt _ _)) by lia. cbn. f_equal. lia.
Qed.

(** *** memmove *)

Lemma read_bytes_spec k m a :
  match read_bytes k m a with
  | Some l => length l = k /\ forall j, (j < k)%nat -> m (a + Z.of_nat j) = l !! j
  | None => exists i, 0 <= i < Z.of_nat k /\ m (a + i) = None
  end.
Proof.
  revert a. induction k as [ | k IH]; intros a; cbn [read_bytes]; [split; [done | lia] |].
  destruct (m a) as [v | ] eqn:Hv; [ | exists 0; rewrite Z.add_0_r; split; [lia | done]].
  specialize (IH (a + 1)). destruct (read_bytes k m (a + 1)) as [l | ].
  - destruct IH as [Hl Hm]. split; [by cbn; f_equal |]. intros [ | j] Hj; [by rewrite Z.add_0_r |].
    cbn. rewrite <- Hm by lia. f_equal. lia.
  - destruct IH as (i & Hi & Hn). exists (i + 1). split; [lia |]. rewrite <- Hn. f_equal. lia.
Qed.

Lemma write_bytes_spec l m a :
  match write_bytes m a l with
  | Some m' => readable m a (zlen l) /\
      forall x, m' x = if (a <=? x) && (x <? a + zlen l) then l !! Z.to_nat (x - a) else m x
  | None => exists i, 0 <= i < zlen l /\ m (a + i) = None
  end.
Proof.
  revert m a. induction l as [ | v l IH]; intros m a; cbn [write_bytes].
  { split; [intros x Hx; unfold zlen in Hx; cbn in Hx; lia |]. intros x. case_match; [bool_inv; unfold zlen in *; cbn in *; lia | done]. }
  assert (El : zlen (v :: l) = zlen l + 1) by (unfold zlen; cbn; lia). assert (0 <= zlen l) by (unfold zlen; lia).
  unfold store. destruct (m a) as [w | ] eqn:Hw; [ | exists 0; rewrite Z.add_0_r; split; [lia | done]].
  set (m1 := fun x => if x =? a then Some v else m x). specialize (IH m1 (a + 1)).
  destruct (write_bytes m1 (a + 1) l) as [m' | ].
  - destruct IH as [Hr Hm]. split.
    + intros x Hx. destruct (Z.eq_dec x a) as [-> | ]; [eauto |]. destruct (Hr x) as [y Hy]; [lia |].
      exists y. rewrite <- Hy. unfold m1. by rewrite (proj2 (Z.eqb_neq _ _)).
    + intros x. rewrite Hm. unfold m1.
      destruct (Z.leb_spec (a + 1) x), (Z.ltb_spec x (a + 1 + zlen l)), (Z.leb_spec a x),
        (Z.ltb_spec x (a + zlen (v :: l))); cbn [andb]; try lia.
      * replace (Z.to_nat (x - a)) with (S (Z.to_nat (x - (a + 1)))) by lia. done.
      * by rewrite (proj2 (Z.eqb_neq _ _)) by lia.
      * assert (x = a) as -> by lia. by rewrite Z.eqb_refl, Z.sub_diag.
      * by rewrite (proj2 (Z.eqb_neq _ _)) by lia.
  - destruct IH as (i & Hi & Hn). exists (i + 1). split; [lia |]. revert Hn. unfold m1.
    rewrite (proj2 (Z.eqb_neq _ _)) by lia. intros <-. f_equal. lia.
Qed.

(** Memmove moves the block, or faults on an address of it. *)
Lemma memmove_cases s dst src n :
  0 <= n ->
  (memmove s dst src n = Fault BadAccess /\
     exists i, 0 <= i < n /\ (bytes s (src + i) = None \/ bytes s (dst + i) = None)) \/
  exists s', memmove s dst src n = Ok s' /\ badfaultfunc s' = badfaultfunc s /\ moved n dst src (bytes s) (bytes s') /\
    readable (bytes s) src n /\ readable (bytes s) dst n.
Proof.
  intros Hn. unfold memmove. pose proof (read_bytes_spec (Z.to_nat n) (bytes s) src) as Hr.
  destruct (read_bytes _ _ _) as [l | ]; cbn [access rbind];
    [ | left; split; [done |]; destruct Hr as (i & Hi & E); exists i; split; [lia | auto]].
  destruct Hr as [Hl Hr]. assert (El : zlen l = n) by (unfold zlen; lia).
  pose proof (write_bytes_spec l (bytes s) dst) as Hw.
  destruct (write_bytes _ _ l) as [m | ]; cbn [access rbind]; rewrite El in Hw;
    [ | left; split; [done |]; destruct Hw as (i & Hi & E); exists i; split; [lia | auto]].
  destruct Hw as [Hd Hm]. right. eexists. split; [done |]. split; [done |]. cbn [with_bytes bytes]. split; [ | split; [ | done]].
  - intros a. rewrite Hm. case_match; [ | done]. bool_inv. rewrite <- Hr by lia. f_equal. lia.
  - intros x Hx. replace x with (src + Z.of_nat (Z.to_nat (x - src))) by lia. rewrite Hr by lia.
    apply lookup_lt_is_Some. lia.
Qed.

Lemma moved_same n dst src m m' : readable m src n -> readable m dst n -> moved n dst src m m' -> same_map m m'.
Proof.
  intros Hs Hd M a. rewrite (M a). case_match; [bool_inv | done].
  split; intros _; [apply Hs | apply Hd]; lia.
Qed.

(** *** A piece *)

(** How a transfer of one piece, the first [size] bytes of the blocks, ends. *)
Definition piece_outcome (s : machine) (u : uio) (ptr size : Z) (o : res (machine * Z)) : Prop :=
  (o = Fault BadAccess /\ uio_segflg u = UIO_SYSSPACE /\ exists i, 0 <= i < size /\ ~ good_byte (bytes s) u ptr i) \/
  exists s' r, o = Ok (s', r) /\ same_map (bytes s) (bytes s') /\
    (badfaultfunc s = false -> badfaultfunc s' = false) /\
    arrived (to_addr u ptr) (from_addr u ptr) size (if r =? 0 then size else 0) (bytes s) (bytes s') /\
    ((r = 0 /\ forall i, 0 <= i < size -> good_byte (bytes s) u ptr i) \/
     (r = EFAULT /\ uio_segflg u <> UIO_SYSSPACE /\ exists i, 0 <= i < size /\ ~ good_byte (bytes s) u ptr i)).

Lemma not_all_bytes (P : Z -> Prop) `{forall i, Decision (P i)} n :
  0 <= n -> ~ (forall i, 0 <= i < n -> P i) -> exists i, 0 <= i < n /\ ~ P i.
Proof.
  intros Hn Hno. rewrite <- (Z2Nat.id n Hn) in *. clear Hn. induction (Z.to_nat n) as [ | k IH]; [destruct Hno; lia |].
  destruct (decide (P (Z.of_nat k))) as [Hp | Hp]; [ | exists (Z.of_nat k); split; [lia | done]].
  destruct IH as (i & Hi & Hni); [ | exists i; split; [lia | done]].
  intros Hall. apply Hno. intros i Hi. destruct (Z.eq_dec i (Z.of_nat k)) as [-> | ]; [done | apply Hall; lia].
Qed.

Lemma arrived_ext dst src dst' src' K k m m' :
  k <= K -> (forall i, 0 <= i < K -> dst' i = dst i /\ src' i = src i) ->
  arrived dst src K k m m' -> arrived dst' src' K k m m'.
Proof.
  intros Hk E [F C]. split.
  - intros a Ha. apply F. intros i Hi. rewrite <- (proj1 (E i Hi)). auto.
  - intros [Hne Hinj] i Hi. destruct (E i) as [-> ->]; [lia |]. apply C; [ | done].
    split; intros a b Ha Hb; rewrite <- ?(proj1 (E a Ha)), <- ?(proj1 (E b Hb)), <- ?(proj2 (E b Hb)); auto.
Qed.
Lemma addr_at_head base len l i : i < len -> addr_at (mkIov base len :: l) i = base + i.
Proof. intros H. cbn. by rewrite (proj2 (Z.ltb_lt _ _)). Qed.

(** Both directions of a piece with user memory are one copy. *)
Lemma user_piece s u base len l ptr size dst src :
  uio_segflg u <> UIO_SYSSPACE -> uio_iov u = mkIov base len :: l ->
  is_u32 base -> 0 < size <= len -> base + len < 2 ^ 32 ->
  (forall i, to_addr u ptr i = match uio_dir u with UIO_READ => addr_at (uio_iov u) i | UIO_WRITE => dst + i end) ->
  (forall i, from_addr u ptr i = match uio_dir u with UIO_READ => src + i | UIO_WRITE => addr_at (uio_iov u) i end) ->
  match uio_dir u with UIO_READ => dst = base | UIO_WRITE => src = base end ->
  forall s' r, copy_contract s base dst src size s' r -> piece_outcome s u ptr size (Ok (s', r)).
Proof.
  intros Hseg Hiov Hb Hsz Hlen Hto Hfrom Hside s' r C. right. exists s', r.
  assert (Haddr : forall i, 0 <= i < size -> to_addr u ptr i = dst + i /\ from_addr u ptr i = src + i /\ addr_at (uio_iov u) i = base + i).
  { intros i Hi. rewrite Hto, Hfrom, Hiov, addr_at_head by lia. destruct (uio_dir u); subst; auto. }
  assert (Hgood : forall i, 0 <= i < size -> good_byte (bytes s) u ptr i <->
    is_Some (bytes s (src + i)) /\ is_Some (bytes s (dst + i)) /\ base + i < USERSPACETOP).
  { intros i Hi. unfold good_byte. destruct (Haddr i Hi) as (-> & -> & ->). naive_solver. }
  split; [done |]. split; [apply C |]. split; [apply C |].
  destruct (Z.le_gt_cases (base + size) USERSPACETOP) as [Hu | Hu].
  - pose proof (copy_done _ _ _ _ _ _ _ C (proj1 Hsz) Hu) as D. split.
    { eapply arrived_ext; [destruct (r =? 0); lia | | apply copied_arrived; [lia | exact D]].
      intros i Hi. destruct (Haddr i Hi) as (-> & -> & _). done. }
    destruct (copied_result _ _ _ _ _ _ D) as [-> | ->].
    + left. split; [done |]. intros i Hi. apply Hgood; [done |].
      destruct (proj1 (copied_iff _ _ _ _ _ _ D) eq_refl) as [Rs Rd].
      split; [apply Rs; lia |]. split; [apply Rd; lia | lia].
    + right. split; [done |]. split; [done |]. apply not_all_bytes; [apply _ | lia |].
      intros Hall. assert (EFAULT = 0); [ | done]. apply (copied_iff _ _ _ _ _ _ D). split; intros x Hx.
      * destruct (proj1 (Hgood (x - src) ltac:(lia)) (Hall (x - src) ltac:(lia))) as [H _]. by replace (src + (x - src)) with x in H by lia.
      * destruct (proj1 (Hgood (x - dst) ltac:(lia)) (Hall (x - dst) ltac:(lia))) as (_ & H & _). by replace (dst + (x - dst)) with x in H by lia.
  - destruct (copy_kernel _ _ _ _ _ _ _ C Hu) as [-> ->]. split; [apply arrived_none |].
    right. split; [done |]. split; [done |]. exists (size - 1). split; [lia |].
    intros H%Hgood; lia.
Qed.

Lemma move_piece_cases s u base len l ptr size :
  uio_iov u = mkIov base len :: l -> is_u32 base -> 0 < size <= len -> base + len < 2 ^ 32 ->
  piece_outcome s u ptr size (move_piece s u base ptr size).
Proof.
  intros Hiov Hb Hsz Hlen. unfold move_piece.
  assert (Huser : uio_segflg u <> UIO_SYSSPACE -> piece_outcome s u ptr size
    (Ok (match uio_dir u with UIO_READ => copyout s ptr base size | UIO_WRITE => copyin s base ptr size end))).
  { intros Hseg. destruct (uio_dir u) eqn:Hd.
    - destruct (copy_contract_holds s base base ptr size Hb) as (s' & r & E & C); [unfold is_u32 in *; lia |].
      change (copyout s ptr base size = (s', r)) in E. rewrite E.
      by apply (user_piece s u base len l ptr size base ptr); try done; rewrite ?Hd; intros; unfold to_addr, from_addr; rewrite ?Hd.
    - destruct (copy_contract_holds s base ptr base size Hb) as (s' & r & E & C); [unfold is_u32 in *; lia |].
      change (copyin s base ptr size = (s', r)) in E. rewrite E.
      by apply (user_piece s u base len l ptr size ptr base); try done; rewrite ?Hd; intros; unfold to_addr, from_addr; rewrite ?Hd. }
  destruct (uio_segflg u) eqn:Hseg; [by apply Huser | by apply Huser |]. clear Huser.
  assert (Hmove : forall dst src,
    (forall i, 0 <= i < size -> to_addr u ptr i = dst + i /\ from_addr u ptr i = src + i) ->
    piece_outcome s u ptr size (let* s' := memmove s dst src size in Ok (s', 0))).
  { intros dst src Ha. assert (Hgood : forall i, 0 <= i < size -> good_byte (bytes s) u ptr i <->
      is_Some (bytes s (src + i)) /\ is_Some (bytes s (dst + i))).
    { intros i Hi. unfold good_byte. destruct (Ha i Hi) as [-> ->]. naive_solver. }
    destruct (memmove_cases s dst src size ltac:(lia)) as [(-> & i & Hi & Hn) | (s' & -> & Hbf & M & Rs & Rd)]; cbn [rbind].
    - left. split; [done |]. split; [done |]. exists i. split; [done |]. rewrite Hgood by done.
      intros [[v Hv] [w Hw]]. destruct Hn; congruence.
    - right. exists s', 0. split; [done |]. split; [by apply (moved_same size dst src) |]. split; [by rewrite Hbf |]. split.
      + by eapply arrived_ext; [reflexivity | exact Ha | apply moved_arrived].
      + left. split; [done |]. intros i Hi. apply Hgood; [done |]. split; [apply Rs | apply Rd]; lia. }
  assert (Hat : forall i, 0 <= i < size -> addr_at (uio_iov u) i = base + i).
  { intros i Hi. rewrite Hiov. apply addr_at_head. lia. }
  destruct (uio_dir u) eqn:Hd; apply Hmove; intros i Hi; unfold to_addr, from_addr; rewrite Hd, Hat by done; done.
Qed.

(** *** The loop *)

(** How a transfer of up to [n] bytes between [ptr] and the blocks of [u] may
    end, [K] being the bytes there are to move: with the fault of a kernel
    address that is not mapped; or after [k] bytes, all of them movable and
    arrived, with the books of [u'] saying so: [uio_resid], [uio_offset] and
    the blocks, whose first byte is byte [k] now.  The result is 0 when that is
    all, and EFAULT when a byte further on cannot be moved. *)
Inductive uio_outcome (s : machine) (ptr n : Z) (u : uio) : res (machine * uio * Z) -> Prop :=
| UioKernelFault i :
    uio_segflg u = UIO_SYSSPACE -> 0 <= i < Z.min n (uio_resid u) -> ~ good_byte (bytes s) u ptr i ->
    uio_outcome s ptr n u (Fault BadAccess)
| UioMoved s' u' r k :
    0 <= k <= Z.min n (uio_resid u) ->
    (forall i, 0 <= i < k -> good_byte (bytes s) u ptr i) ->
    arrived (to_addr u ptr) (from_addr u ptr) (Z.min n (uio_resid u)) k (bytes s) (bytes s') ->
    same_map (bytes s) (bytes s') -> (badfaultfunc s = false -> badfaultfunc s' = false) ->
    uio_resid u' = uio_resid u - k ->
    uio_offset u' = s64 (uio_offset u + k) \/ (k = 0 /\ uio_offset u' = uio_offset u) ->
    (forall i, 0 <= i < uio_resid u - k -> addr_at (uio_iov u') i = addr_at (uio_iov u) (k + i)) ->
    uio_segflg u' = uio_segflg u -> uio_dir u' = uio_dir u -> uio_space u' = uio_space u -> uio_ok u' ->
    (length (uio_iov u') <= length (uio_iov u))%nat ->
    (r = 0 /\ k = Z.min n (uio_resid u)) \/
    (r = EFAULT /\ uio_segflg u <> UIO_SYSSPACE /\
       exists i, k <= i < Z.min n (uio_resid u) /\ ~ good_byte (bytes s) u ptr i) ->
    uio_outcome s ptr n u (Ok (s', u', r)).

(** Nothing moved. *)
Lemma uio_outcome_none s ptr n u :
  0 <= n -> uio_ok u -> 0 <= uio_resid u -> Z.min n (uio_resid u) = 0 -> uio_outcome s ptr n u (Ok (s, u, 0)).
Proof.
  intros Hn Hok Hr Hm. apply (UioMoved s ptr n u s u 0 0); auto; try (intros; lia); [apply arrived_none | done].
Qed.
(** What is left of the blocks: two rounds for a full one, one for one that is
    used up. *)
Definition rounds (l : list iovec) : nat :=
  match l with
  | [] => 0
  | v :: l => (if iov_len v =? 0 then 1 else 2) + 2 * length l
  end.

Lemma s64_add a b c : s64 (s64 (a + b) + c) = s64 (a + (b + c)).
Proof.
  unfold s64. replace ((a + b + 2 ^ 63) mod 2 ^ 64 - 2 ^ 63 + c + 2 ^ 63) with ((a + b + 2 ^ 63) mod 2 ^ 64 + c) by lia.
  rewrite Zplus_mod_idemp_l. do 2 f_equal. lia.
Qed.

(** The next step of the loop and the rest of it: a piece of [size] bytes that
    arrived, and what became of the bytes after it. *)
Lemma uio_outcome_app s ptr n u base len l size s1 u' o :
  uio_iov u = mkIov base len :: l -> 0 < size <= len -> size <= n -> size <= uio_resid u ->
  uio_iov u' = mkIov (base + size) (len - size) :: l -> uio_resid u' = uio_resid u - size ->
  uio_offset u' = s64 (uio_offset u + size) ->
  uio_segflg u' = uio_segflg u -> uio_dir u' = uio_dir u -> uio_space u' = uio_space u ->
  same_map (bytes s) (bytes s1) -> (badfaultfunc s = false -> badfaultfunc s1 = false) ->
  arrived (to_addr u ptr) (from_addr u ptr) size size (bytes s) (bytes s1) ->
  (forall i, 0 <= i < size -> good_byte (bytes s) u ptr i) ->
  uio_outcome s1 (ptr + size) (n - size) u' o -> uio_outcome s ptr n u o.
Proof.
  intros Hiov Hsz Hn Hres Hiov' Hres' Hoff' Hseg Hdir Hsp Hmap Hbf Harr Hgood Ho.
  assert (Haddr : forall i, 0 <= i -> addr_at (uio_iov u') i = addr_at (uio_iov u) (size + i)).
  { intros i Hi. rewrite Hiov, Hiov'. cbn. destruct (Z.ltb_spec i (len - size)), (Z.ltb_spec (size + i) len); try lia; f_equal; lia. }
  assert (Hto : forall i, 0 <= i -> to_addr u' (ptr + size) i = to_addr u ptr (size + i) /\
                                    from_addr u' (ptr + size) i = from_addr u ptr (size + i)).
  { intros i Hi. unfold to_addr, from_addr. rewrite Hdir, Haddr by done. destruct (uio_dir u); split; auto; lia. }
  assert (Hgb : forall i, 0 <= i -> good_byte (bytes s1) u' (ptr + size) i <-> good_byte (bytes s) u ptr (size + i)).
  { intros i Hi. unfold good_byte. destruct (Hto i Hi) as [-> ->]. rewrite Haddr, Hseg by done. by rewrite !(Hmap _). }
  inversion Ho as [i Hs Hi Hg E | s' u2 r k Hk Hg Ha Hm Hb Hr Hoff Hat Hs1 Hs2 Hs3 Hok2 Hlen Hresult E]; rewrite Hres', ?Hseg in *.
  - apply (UioKernelFault s ptr n u (size + i)); [done | lia |]. rewrite <- Hgb by lia. done.
  - apply (UioMoved s ptr n u s' u2 r (size + k)).
    + lia.
    + intros i Hi. destruct (Z.lt_ge_cases i size); [apply Hgood; lia |].
      replace i with (size + (i - size)) by lia. apply Hgb; [lia |]. apply Hg. lia.
    + replace (Z.min n (uio_resid u)) with (size + Z.min (n - size) (uio_resid u - size)) by lia.
      eapply arrived_app; [lia | exact Hk | | exact Harr | exact Ha]. intros i Hi. apply Hto. lia.
    + by eapply same_map_trans.
    + auto.
    + lia.
    + left. destruct Hoff as [-> | [-> ->]]; rewrite Hoff'; [apply s64_add | by rewrite Z.add_0_r].
    + intros i Hi. rewrite Hat, Haddr by lia. f_equal. lia.
    + by rewrite Hs1.
    + by rewrite Hs2.
    + by rewrite Hs3.
    + done.
    + rewrite Hiov' in Hlen. rewrite Hiov. done.
    + destruct Hresult as [[-> ->] | (-> & Hns & i & Hi & Hbad)]; [left | right]; (split; [done |]); [lia |].
      split; [done |]. exists (size + i). split; [lia |]. rewrite <- Hgb by lia. done.
Qed.

(** A block that is used up is left behind. *)
Lemma uio_outcome_skip s ptr n u base l u' o :
  uio_iov u = mkIov base 0 :: l ->
  u' = mkUio l (uio_offset u) (uio_resid u) (uio_segflg u) (uio_dir u) (uio_space u) ->
  uio_outcome s ptr n u' o -> uio_outcome s ptr n u o.
Proof.
  intros Hiov -> Ho.
  assert (Haddr : forall i, 0 <= i -> addr_at (uio_iov u) i = addr_at l i).
  { intros i Hi. rewrite Hiov. cbn. rewrite (proj2 (Z.ltb_ge _ _)) by done. by rewrite Z.sub_0_r. }
  assert (Hto : forall i, 0 <= i -> to_addr u ptr i = to_addr (mkUio l (uio_offset u) (uio_resid u) (uio_segflg u) (uio_dir u) (uio_space u)) ptr i /\
     from_addr u ptr i = from_addr (mkUio l (uio_offset u) (uio_resid u) (uio_segflg u) (uio_dir u) (uio_space u)) ptr i).
  { intros i Hi. unfold to_addr, from_addr. cbn. rewrite Haddr by done. done. }
  set (u' := mkUio l _ _ _ _ _) in *.
  assert (Hgb : forall i, 0 <= i -> good_byte (bytes s) u ptr i <-> good_byte (bytes s) u' ptr i).
  { intros i Hi. unfold good_byte. destruct (Hto i Hi) as [-> ->]. by rewrite Haddr. }
  inversion Ho as [i Hs Hi Hg E | s' u2 r k Hk Hg Ha Hm Hb Hr Hoff Hat Hs1 Hs2 Hs3 Hok2 Hlen Hresult E]; cbn in *.
  - apply (UioKernelFault s ptr n u i); [done | lia |]. rewrite Hgb by lia. done.
  - apply (UioMoved s ptr n u s' u2 r k); auto.
    + intros i Hi. apply Hgb; [lia | auto].
    + eapply arrived_ext; [ | | exact Ha]; [lia |]. intros i Hi. apply Hto. lia.
    + intros i Hi. rewrite Hat, Haddr by lia. done.
    + rewrite Hiov. cbn. lia.
    + destruct Hresult as [? | (-> & Hns & i & Hi & Hbad)]; [by left | right].
      split; [done |]. split; [done |]. exists i. split; [done |]. rewrite Hgb by lia. done.
Qed.

Lemma uiomove_loop_cases fuel s ptr n u :
  is_u32 n -> uio_ok u -> n = 0 \/ (rounds (uio_iov u) <= fuel)%nat ->
  uio_outcome s ptr n u (uiomove_loop fuel s ptr n u).
Proof.
  revert s ptr n u. induction fuel as [ | fuel IH]; intros s ptr n u Hn Hok Hf; pose proof Hok as [Hbl Htot Hrng];
    pose proof (total_nonneg _ Hbl) as Hge; unfold is_u32 in Hn.
  - cbn [uiomove_loop].
    assert (Hz : Z.min n (uio_resid u) = 0).
    { destruct Hf as [-> | Hf]; [lia |]. destruct (uio_iov u) as [ | v l]; cbn in Hf; [ | destruct (_ =? _); lia].
      rewrite Htot. cbn. lia. }
    assert ((0 <? n) && (0 <? uio_resid u) = false) as ->.
    { apply andb_false_iff. rewrite !Z.ltb_ge. lia. }
    apply uio_outcome_none; (lia || done).
  - cbn [uiomove_loop]. destruct (Z.ltb_spec 0 n); cbn [andb]; [ | apply uio_outcome_none; (lia || done)].
    destruct (Z.ltb_spec 0 (uio_resid u)); cbn [andb]; [ | apply uio_outcome_none; (lia || done)].
    destruct Hf as [ | Hf]; [lia |].
    destruct (uio_iov u) as [ | [base len] iov] eqn:Hiov; [rewrite Htot in *; cbn in *; lia |].
    apply Forall_cons in Hbl as [(Hb & Hl & Hbl0) Hbl]. cbn [iov_base iov_len] in *. cbn in Htot, Hrng, Hge, Hf.
    pose proof (total_nonneg _ Hbl) as Hge'.
    set (size := if n <? len then n else len).
    assert (Hsize : size = Z.min n len) by (unfold size; case_if; lia).
    destruct (Z.eqb_spec size 0) as [Hz | Hnz].
    + assert (len = 0) as -> by lia. destruct iov as [ | v iov]; [cbn in *; lia |].
      eapply uio_outcome_skip; [exact Hiov | reflexivity |].
      apply IH; [done | | right; cbn; cbn in Hf; destruct (iov_len v =? 0); lia].
      split; cbn; [done | rewrite Htot; done | cbn in Hrng; lia].
    + destruct (move_piece_cases s u base len iov ptr size Hiov Hb ltac:(lia) Hbl0)
        as [(-> & Hseg & i & Hi & Hbad) | (s1 & r1 & -> & Hmap & Hbf & Harr & Hr1)]; cbn [rbind].
      { apply (UioKernelFault s ptr n u i); [done | lia | done]. }
      destruct Hr1 as [[-> Hgood] | (-> & Hseg & i & Hi & Hbad)]; cbn [negb Z.eqb] in *.
      2: { apply (UioMoved s ptr n u s1 u EFAULT 0); auto; try lia; try (intros; lia).
           - split; [intros a Ha; apply Harr; intros j Hj; apply Ha; lia | lia].
           - right. split; [done |]. split; [done |]. exists i. split; [lia | done]. }
      assert (Hres' : uio_resid (advance u base len size iov) = uio_resid u - size).
      { unfold advance. cbn. apply u32_id. unfold is_u32. lia. }
      eapply (uio_outcome_app s ptr n u base len iov size s1 (advance u base len size iov));
        [done | lia | lia | lia | done | exact Hres' | done | done | done | done | done | done | done | done |].
      apply IH; [unfold is_u32; lia | |].
      * split; [ | | cbn; lia].
        -- cbn. constructor; [cbn; unfold is_u32 in *; lia | done].
        -- rewrite Hres'. cbn. lia.
      * destruct (Z.eq_dec (n - size) 0); [by left | right].
        cbn. assert ((len - size =? 0) = true) as -> by (apply Z.eqb_eq; lia).
        destruct (len =? 0) eqn:El; [bool_inv; lia |]. lia.
Qed.

(** C32: Uiomove moves what it says it moves.  On a uio set up as uio.h asks, for
    any number of blocks, empty ones included, it returns.  When every one of
    the first [n] or [uio_resid] bytes, whichever is less, can be moved (mapped
    on both sides, and below the kernel on a user's side), the result is 0 and
    exactly those bytes have gone: byte [i] of the blocks from or to byte [i]
    of the buffer at [ptr], provided that no place written to is also read or
    written twice.  Otherwise the transfer ends with EFAULT on a user address,
    with the fault of the kernel on a kernel address, and never for any other
    reason; the bytes before the failing piece have gone.  Nothing outside the
    destination bytes changes in any case, [uio_resid] goes down and
    [uio_offset] up by the bytes accounted for, the blocks start at the first
    byte after them, the other fields stay, and the uio is fit for the next
    call. *)
Theorem uiomove_books s curas ptr n u
  (Hn : is_u32 n) (Hok : uio_ok u)
  (Hspace : uio_space u = match uio_segflg u with UIO_SYSSPACE => None | _ => curas end) :
  uio_outcome s ptr n u (uiomove s curas ptr n u) /\
  ((forall i, 0 <= i < Z.min n (uio_resid u) -> good_byte (bytes s) u ptr i) ->
     exists s' u', uiomove s curas ptr n u = Ok (s', u', 0) /\ uio_resid u' = uio_resid u - Z.min n (uio_resid u) /\
       arrived (to_addr u ptr) (from_addr u ptr) (Z.min n (uio_resid u)) (Z.min n (uio_resid u)) (bytes s) (bytes s')).
Proof.
  assert (Ho : uio_outcome s ptr n u (uiomove s curas ptr n u)).
  { unfold uiomove. assert (Hk : forall b : bool, b = true -> uio_outcome s ptr n u
      (kassert b (uiomove_loop (2 * length (uio_iov u) + 2) s ptr n u))).
    { intros b ->. cbn [kassert]. apply uiomove_loop_cases; [done | done | right].
      destruct (uio_iov u) as [ | v l]; cbn; [lia |]. destruct (_ =? _); lia. }
    apply Hk. destruct (uio_segflg u); by apply bool_decide_eq_true_2. }
  split; [done |]. intros Hall.
  inversion Ho as [i Hs Hi Hg E | s' u2 r k Hk Hg Ha Hm Hb Hr Hoff Hat Hs1 Hs2 Hs3 Hok2 Hlen Hresult E].
  - destruct Hg. auto.
  - destruct Hresult as [[-> ->] | (_ & _ & i & Hi & Hbad)]; [eauto | destruct Hbad; apply Hall; lia].
Qed.

Definition demo_uio : uio :=
  mkUio [mkIov 0x1000 2; mkIov 0x2000 0; mkIov 0x1010 3] 100 5 UIO_USERSPACE UIO_WRITE (Some 7).

(** Four bytes from two user blocks, with an empty one between them. *)
Lemma uiomove_books_witness :
  exists s' u', uiomove demo_machine (Some 7) (USERSPACETOP + 16) 4 demo_uio = Ok (s', u', 0) /\ uio_resid u' = 1 /\
    bytes s' (USERSPACETOP + 18) = bytes demo_machine 0x1010.
Proof.
  destruct (uiomove_books demo_machine (Some 7) (USERSPACETOP + 16) 4 demo_uio) as [_ H].
  - split; lia.
  - split; [ | reflexivity | cbn; lia].
    repeat (constructor; [cbn; unfold is_u32; lia |]). constructor.
  - reflexivity.
  - destruct H as (s' & u' & E & Hr & Ha).
    + intros i Hi. change (Z.min 4 (uio_resid demo_uio)) with 4 in Hi.
      assert (i = 0 \/ i = 1 \/ i = 2 \/ i = 3) as [-> | [-> | [-> | ->]]] by lia;
        (split; [by eexists | split; [by eexists | intros _; reflexivity]]).
    + exists s', u'. split; [exact E |]. split; [exact Hr |]. change (Z.min 4 (uio_resid demo_uio)) with 4 in Ha.
      refine (proj2 Ha _ 2 ltac:(lia)). change (to_addr demo_uio (USERSPACETOP + 16)) with (fun i => USERSPACETOP + 16 + i).
      assert (Hlow : forall j, 0 <= j < 4 -> from_addr demo_uio (USERSPACETOP + 16) j < 0x2000).
      { intros j Hj. assert (j = 0 \/ j = 1 \/ j = 2 \/ j = 3) as [-> | [-> | [-> | ->]]] by lia; reflexivity. }
      split; intros a b Hi Hj; [ | lia]. pose proof (Hlow b Hj). unfold USERSPACETOP, MIPS_KSEG0 in *. lia.
Defined.
