(* ===== verification/Vfs.v ===== *)
(** The VFS layer: vnodes and their reference counts (kern/vfs/vnode.c,
    kern/include/vnode.h), devices as vnodes (device.c), the list of devices
    and what is mounted on them (vfslist.c), the current directory (vfscwd.c),
    path names (vfslookup.c) and the operations on them (vfspath.c).

    The file systems below are the class [FileSystem], the operations of
    struct vnode_ops and struct fs_ops; [FileSystemLaws] is what the layer
    relies on.  Vnodes live in a map by address, so that a vnode that was
    freed is not there.  The caller holds references to vnodes, a multiset;
    the theorems say that the counts in the vnodes are exact on every path
    through this code.

    Paths and names are strings without their terminator, and strcmp on them
    is equality (file CString).  Arrays are lists (file Array); whether adding
    to one finds memory is read from the heap's list of outcomes. *)
From stdpp Require Import gmultiset.
From S2P Require Import Prelude Coremap Copyinout Synch.

Definition NAME_MAX := 255.
Definition S_IFREG := 4096.
Definition S_IFDIR := 8192.
Definition S_IFCHR := 24576.
Definition S_IFBLK := 28672.

(** ** Data *)

(** The operations table of a vnode and what its [vn_data] points to: a device,
    or whatever the file system keeps for the vnode. *)
Inductive vnode_ops := DevOps (d : option Z) | FsOps.

Record vnode := mkVnode {
  vn_refcount : Z;
  vn_fs : option Z;
  vn_ops : vnode_ops
}.

Record device := mkDevice {
  d_blocks : Z;
  d_blocksize : Z;
  d_devnumber : Z
}.

Record knowndev := mkKd {
  kd_name : list Z;
  kd_rawname : option (list Z);
  kd_device : option Z;
  kd_vnode : Z;
  kd_fs : option Z
}.

(** What the layer shares with the file systems: the vnodes, the heap, and the
    file systems' own data. *)
Record store (F : Type) := mkStore {
  vnodes : gmap Z vnode;
  kmem : kheap;
  fsdata : F
}.
Arguments mkStore {F}.
Arguments vnodes {F}.
Arguments kmem {F}.
Arguments fsdata {F}.

(** A call that hands back a vnode: the return value and [*ret]. *)
Definition ret_vnode (F : Type) : Type := store F * Z * option Z.

(** ** The file systems and the drivers below *)
Class FileSystem (F : Type) := {
  vop_eachopen : store F -> Z -> Z -> res (store F * Z);
  vop_reclaim : store F -> Z -> res (store F * Z);
  vop_readlink : store F -> Z -> uio -> res (store F * uio * Z);
  vop_gettype : store F -> Z -> res (Z * Z);
  vop_truncate : store F -> Z -> Z -> res (store F * Z);
  vop_namefile : store F -> Z -> uio -> res (store F * uio * Z);
  vop_creat : store F -> Z -> list Z -> bool -> Z -> res (ret_vnode F);
  vop_symlink : store F -> Z -> list Z -> list Z -> res (store F * Z);
  vop_mkdir : store F -> Z -> list Z -> Z -> res (store F * Z);
  vop_link : store F -> Z -> list Z -> Z -> res (store F * Z);
  vop_remove : store F -> Z -> list Z -> res (store F * Z);
  vop_rmdir : store F -> Z -> list Z -> res (store F * Z);
  vop_rename : store F -> Z -> list Z -> Z -> list Z -> res (store F * Z);
  vop_lookup : store F -> Z -> list Z -> res (ret_vnode F);
  vop_lookparent : store F -> Z -> list Z -> Z -> res (ret_vnode F * list Z);
  fsop_sync : store F -> Z -> res (store F * Z);
  fsop_getvolname : F -> Z -> option (list Z);
  fsop_getroot : store F -> Z -> res (ret_vnode F);
  fsop_unmount : store F -> Z -> res (store F * Z);
  devop_eachopen : store F -> Z -> Z -> res (store F * Z);
  devop_io : store F -> Z -> uio -> res (store F * uio * Z);
  devop_ioctl : store F -> Z -> Z -> Z -> res (store F * Z);
  (** uiomove of some bytes of the kernel (file Copyinout) *)
  uio_bytes : store F -> list Z -> uio -> res (store F * uio * Z)
}.

(** ** The layer *)
Record vfs (F : Type) := mkVfs {
  st : store F;
  vfs_biglock : lock;
  vfs_biglock_depth : Z;
  devices : gmap Z device;
  knowndevs : list knowndev;
  bootfs_vnode : option Z;
  (** per process; no entry: NULL *)
  p_cwd : gmap Z Z
}.
Arguments mkVfs {F}.
Arguments st {F}.
Arguments vfs_biglock {F}.
Arguments vfs_biglock_depth {F}.
Arguments devices {F}.
Arguments knowndevs {F}.
Arguments bootfs_vnode {F}.
Arguments p_cwd {F}.

(** The thread that calls and its process. *)
Record caller := mkCaller { thr : ctx; curproc : Z }.

Section Vfs.
Context {F : Type} `{FileSystem F}.
Implicit Types s : vfs F.
Implicit Types c : caller.

Definition with_st s (x : store F) : vfs F :=
  mkVfs x (vfs_biglock s) (vfs_biglock_depth s) (devices s) (knowndevs s) (bootfs_vnode s) (p_cwd s).
Definition with_biglock s (lk : lock) (n : Z) : vfs F :=
  mkVfs (st s) lk n (devices s) (knowndevs s) (bootfs_vnode s) (p_cwd s).
Definition with_devices s (m : gmap Z device) : vfs F :=
  mkVfs (st s) (vfs_biglock s) (vfs_biglock_depth s) m (knowndevs s) (bootfs_vnode s) (p_cwd s).
Definition with_knowndevs s (l : list knowndev) : vfs F :=
  mkVfs (st s) (vfs_biglock s) (vfs_biglock_depth s) (devices s) l (bootfs_vnode s) (p_cwd s).
Definition with_bootfs s (v : option Z) : vfs F :=
  mkVfs (st s) (vfs_biglock s) (vfs_biglock_depth s) (devices s) (knowndevs s) v (p_cwd s).
Definition with_cwd s (m : gmap Z Z) : vfs F :=
  mkVfs (st s) (vfs_biglock s) (vfs_biglock_depth s) (devices s) (knowndevs s) (bootfs_vnode s) m.

Definition set_vnodes (x : store F) (m : gmap Z vnode) : store F := mkStore m (kmem x) (fsdata x).
Definition set_kmem (x : store F) (h : kheap) : store F := mkStore (vnodes x) h (fsdata x).

(** ** The big lock (vfslist.c) *)

Definition vfs_biglock_acquire s c : res (vfs F) :=
  if lock_do_i_hold (vfs_biglock s) (thr c) then Ok (with_biglock s (vfs_biglock s) (vfs_biglock_depth s + 1))
  else
  let* (lk, got) := lock_acquire (vfs_biglock s) (thr c) in
  if got : bool then Ok (with_biglock s lk (vfs_biglock_depth s + 1)) else Fault Hang.

Definition vfs_biglock_release s c : res (vfs F) :=
  kassert (lock_do_i_hold (vfs_biglock s) (thr c)) (
  kassert (0 <? vfs_biglock_depth s) (
  let n := vfs_biglock_depth s - 1 in
  if n =? 0 then let* lk := lock_release (vfs_biglock s) (thr c) in Ok (with_biglock s lk n)
  else Ok (with_biglock s (vfs_biglock s) n))).

Definition vfs_biglock_do_i_hold s c : bool := lock_do_i_hold (vfs_biglock s) (thr c).

(** ** Vnodes (vnode.c) *)

Definition set_refcount (x : store F) (v : Z) (vn : vnode) (n : Z) : store F :=
  set_vnodes x (<[v := mkVnode n (vn_fs vn) (vn_ops vn)]> (vnodes x)).

Definition vnode_init (x : store F) (v : Z) (ops : vnode_ops) (fs : option Z) : store F :=
  set_vnodes x (<[v := mkVnode 1 fs ops]> (vnodes x)).

Definition vnode_cleanup (x : store F) (v : Z) : res (store F) :=
  let* vn := access (vnodes x !! v) in
  kassert (vn_refcount vn =? 1) (Ok (set_vnodes x (delete v (vnodes x)))).

Definition vnode_incref (x : store F) (v : Z) : res (store F) :=
  let* vn := access (vnodes x !! v) in
  Ok (set_refcount x v vn (vn_refcount vn + 1)).

(** Returns the vnode whose operations the caller goes on to use. *)
Definition vnode_check s c (v : Z) : res (vfs F * vnode) :=
  let* s := vfs_biglock_acquire s c in
  let* vn := access (vnodes (st s) !! v) in
  if vn_refcount vn <=? 0 then Fault PanicCall
  else
  let* s := vfs_biglock_release s c in
  Ok (s, vn).

(** [VOP_x(v, ...)] for an operation that changes the state and returns an int:
    [dev] is the entry in the table of devices, [fs] the file system's. *)
Definition VOP s c (v : Z) (dev : option Z -> res (store F * Z)) (fs : res (store F * Z)) : res (vfs F * Z) :=
  let* (s, vn) := vnode_check s c v in
  let* (x, r) := match vn_ops vn with DevOps d => dev d | FsOps => fs end in
  Ok (with_st s x, r).

(** The same for operations that hand back a vnode. *)
Definition VOPret s c (v : Z) (dev : option Z -> res (ret_vnode F)) (fs : res (ret_vnode F)) : res (vfs F * Z * option Z) :=
  let* (s, vn) := vnode_check s c v in
  let* (x, r, o) := match vn_ops vn with DevOps d => dev d | FsOps => fs end in
  Ok (with_st s x, r, o).

(** And for those that move data. *)
Definition VOPuio s c (v : Z) (dev : option Z -> res (store F * uio * Z)) (fs : res (store F * uio * Z)) : res (vfs F * uio * Z) :=
  let* (s, vn) := vnode_check s c v in
  let* (x, u, r) := match vn_ops vn with DevOps d => dev d | FsOps => fs end in
  Ok (with_st s x, u, r).

(** An entry of vfsfail.c. *)
Definition vopfail (x : store F) (e : Z) (_ : option Z) : res (store F * Z) := Ok (x, e).
Definition vopfail_ret (x : store F) (e : Z) (_ : option Z) : res (ret_vnode F) := Ok (x, e, None).
Definition vopfail_uio (x : store F) (u : uio) (e : Z) (_ : option Z) : res (store F * uio * Z) := Ok (x, u, e).

(** ** Devices as vnodes (device.c)

    [d]: the pointer to the device, which these dereference. *)

Definition get_device s (d : option Z) : res (Z * device) :=
  let* d := access d in
  let* dev := access (devices s !! d) in
  Ok (d, dev).

Definition dev_eachopen s (flags : Z) (d : option Z) : res (store F * Z) :=
  if negb (Z.land flags (Z.lor (Z.lor (Z.lor O_CREAT O_TRUNC) O_EXCL) O_APPEND) =? 0) then Ok (st s, EINVAL)
  else
  let* (d, _) := get_device s d in
  devop_eachopen (st s) d flags.

Definition dev_reclaim s (d : option Z) : res (store F * Z) := Ok (st s, 0).

(** [%] and [/] on an off_t round towards zero. *)
Definition dev_tryseek (dev : device) (pos : Z) : Z :=
  if 0 <? d_blocks dev then
    if negb (Z.rem pos (d_blocksize dev) =? 0) then EINVAL
    else if d_blocks dev <=? Z.quot pos (d_blocksize dev) then EINVAL
    else 0
  else 0.

Definition dev_io s (rw : uio_rw) (u : uio) (d : option Z) : res (store F * uio * Z) :=
  let* (d, dev) := get_device s d in
  let result := dev_tryseek dev (uio_offset u) in
  if negb (result =? 0) then Ok (st s, u, result)
  else kassert (bool_decide (uio_dir u = rw)) (devop_io (st s) d u).

Definition dev_read s (u : uio) (d : option Z) := dev_io s UIO_READ u d.
Definition dev_write s (u : uio) (d : option Z) := dev_io s UIO_WRITE u d.

Definition dev_ioctl s (op data : Z) (d : option Z) : res (store F * Z) :=
  let* (d, _) := get_device s d in devop_ioctl (st s) d op data.

Definition dev_gettype s (d : option Z) : res (Z * Z) :=
  let* (_, dev) := get_device s d in
  Ok (if 0 <? d_blocks dev then S_IFBLK else S_IFCHR, 0).

Record stat := mkStat {
  st_size : Z;
  st_mode : Z;
  st_nlink : Z;
  st_blocks : Z;
  st_blksize : Z;
  st_dev : Z;
  st_ino : Z;
  st_rdev : Z
}.

Definition dev_stat s (d : option Z) : res (stat * Z) :=
  let* (_, dev) := get_device s d in
  let* (mode, result) := dev_gettype s d in
  let size := if 0 <? d_blocks dev then u32 (d_blocks dev * d_blocksize dev) else 0 in
  let blksize := if 0 <? d_blocks dev then d_blocksize dev else 0 in
  if negb (result =? 0) then Ok (mkStat size mode 0 0 blksize 0 0 0, result)
  else Ok (mkStat size (Z.lor mode 384) 1 (d_blocks dev) blksize 0 0 (d_devnumber dev), 0).

Definition dev_isseekable s (d : option Z) : res bool :=
  let* (_, dev) := get_device s d in Ok (negb (d_blocks dev =? 0)).

Definition dev_truncate s (len : Z) (d : option Z) : res (store F * Z) :=
  let* (_, dev) := get_device s d in
  if (0 <? d_blocks dev) && (u32 (d_blocks dev * d_blocksize dev) =? len) then Ok (st s, 0) else Ok (st s, EINVAL).

Definition dev_namefile s (u : uio) (d : option Z) : res (store F * uio * Z) := Ok (st s, u, 0).

Definition dev_lookup s (dir : Z) (pathname : list Z) (d : option Z) : res (ret_vnode F) :=
  if 0 <? zlen pathname then Ok (st s, ENOENT, None)
  else
  let* x := vnode_incref (st s) dir in
  Ok (x, 0, Some dir).

(** The table for devices and the file systems' tables, as vnode.h calls them. *)
Definition VOP_EACHOPEN s c v flags := VOP s c v (dev_eachopen s flags) (vop_eachopen (st s) v flags).
Definition VOP_RECLAIM s c v := VOP s c v (dev_reclaim s) (vop_reclaim (st s) v).
Definition VOP_READLINK s c v u := VOPuio s c v (vopfail_uio (st s) u EINVAL) (vop_readlink (st s) v u).
Definition VOP_TRUNCATE s c v pos := VOP s c v (dev_truncate s pos) (vop_truncate (st s) v pos).
Definition VOP_NAMEFILE s c v u := VOPuio s c v (dev_namefile s u) (vop_namefile (st s) v u).
Definition VOP_CREAT s c v name excl mode := VOPret s c v (vopfail_ret (st s) ENOTDIR) (vop_creat (st s) v name excl mode).
Definition VOP_SYMLINK s c v name content := VOP s c v (vopfail (st s) ENOTDIR) (vop_symlink (st s) v name content).
Definition VOP_MKDIR s c v name mode := VOP s c v (vopfail (st s) ENOTDIR) (vop_mkdir (st s) v name mode).
Definition VOP_LINK s c v name v2 := VOP s c v (vopfail (st s) ENOTDIR) (vop_link (st s) v name v2).
Definition VOP_REMOVE s c v name := VOP s c v (vopfail (st s) ENOTDIR) (vop_remove (st s) v name).
Definition VOP_RMDIR s c v name := VOP s c v (vopfail (st s) ENOTDIR) (vop_rmdir (st s) v name).
Definition VOP_RENAME s c v1 name1 v2 name2 := VOP s c v1 (vopfail (st s) ENOTDIR) (vop_rename (st s) v1 name1 v2 name2).
Definition VOP_LOOKUP s c v path := VOPret s c v (dev_lookup s v path) (vop_lookup (st s) v path).

Definition VOP_GETTYPE s c v : res (vfs F * Z * Z) :=
  let* (s, vn) := vnode_check s c v in
  let* (ty, r) := match vn_ops vn with DevOps d => dev_gettype s d | FsOps => vop_gettype (st s) v end in
  Ok (s, ty, r).

Definition VOP_LOOKPARENT s c v path buflen : res (vfs F * Z * option Z * list Z) :=
  let* (s, vn) := vnode_check s c v in
  let* (x, r, o, name) := match vn_ops vn with DevOps d => Ok (st s, ENOTDIR, None, []) | FsOps => vop_lookparent (st s) v path buflen end in
  Ok (with_st s x, r, o, name).

(** ** References *)

Definition VOP_INCREF s (v : Z) : res (vfs F) := let* x := vnode_incref (st s) v in Ok (with_st s x).

Definition VOP_DECREF s c (v : Z) : res (vfs F) :=
  let* vn := access (vnodes (st s) !! v) in
  kassert (0 <? vn_refcount vn) (
  if 1 <? vn_refcount vn then Ok (with_st s (set_refcount (st s) v vn (vn_refcount vn - 1)))
  else
  let* (s, result) := VOP_RECLAIM s c v in
  Ok s).

(** ** The list of devices (vfslist.c) *)

(** A file system's operation on the shared store. *)
Definition fsop s (m : res (store F * Z)) : res (vfs F * Z) :=
  let* (x, r) := m in Ok (with_st s x, r).

Definition FSOP_GETROOT s (fs : Z) : res (vfs F * Z * option Z) :=
  let* (x, r, o) := fsop_getroot (st s) fs in Ok (with_st s x, r, o).

Fixpoint sync_loop (l : list knowndev) s : res (vfs F) :=
  match l with
  | [] => Ok s
  | dev :: l =>
    let* s := match kd_fs dev with
              | Some fs => let* (s, _) := fsop s (fsop_sync (st s) fs) in Ok s
              | None => Ok s
              end in
    sync_loop l s
  end.

Definition vfs_sync s c : res (vfs F * Z) :=
  let* s := vfs_biglock_acquire s c in
  let* s := sync_loop (knowndevs s) s in
  let* s := vfs_biglock_release s c in
  Ok (s, 0).

(** The device itself, for a name that is neither that of a file system nor of
    a device waiting for one. *)
Definition getroot_device s (kd : knowndev) : res (vfs F * Z * option Z) :=
  kassert (bool_decide (is_Some (kd_device kd))) (
  let* s := VOP_INCREF s (kd_vnode kd) in
  Ok (s, 0, Some (kd_vnode kd))).

Fixpoint getroot_loop (l : list knowndev) s (devname : list Z) : res (vfs F * Z * option Z) :=
  match l with
  | [] => Ok (s, ENODEV, None)
  | kd :: l =>
    let named := bool_decide (kd_name kd = devname) in
    let rest :=
      if named then
        kassert (bool_decide (kd_fs kd = None)) (kassert (bool_decide (kd_rawname kd = None)) (getroot_device s kd))
      else if bool_decide (kd_rawname kd = Some devname) then getroot_device s kd
      else getroot_loop l s devname in
    match kd_fs kd with
    | Some fs => if named || bool_decide (fsop_getvolname (fsdata (st s)) fs = Some devname) then FSOP_GETROOT s fs else rest
    | None => if bool_decide (is_Some (kd_rawname kd)) && named then Ok (s, ENXIO, None) else rest
    end
  end.

Definition vfs_getroot s c (devname : list Z) : res (vfs F * Z * option Z) :=
  kassert (vfs_biglock_do_i_hold s c) (getroot_loop (knowndevs s) s devname).

Fixpoint getdevname_loop (l : list knowndev) (fs : Z) : option (list Z) :=
  match l with
  | [] => None
  | kd :: l => if bool_decide (kd_fs kd = Some fs) then Some (kd_name kd) else getdevname_loop l fs
  end.

Definition vfs_getdevname s c (fs : Z) : res (option (list Z)) :=
  kassert (vfs_biglock_do_i_hold s c) (Ok (getdevname_loop (knowndevs s) fs)).

(** "raw" *)
Definition mkrawname (name : list Z) : list Z := name ++ [114; 97; 119].

Definition samestring (a b : option (list Z)) : bool :=
  match a, b with
  | Some a, Some b => bool_decide (a = b)
  | _, _ => false
  end.

Definition samestring3 (a b c d : option (list Z)) : bool := samestring a b || samestring a c || samestring a d.

Fixpoint badnames_loop (l : list knowndev) (x : store F) (n1 n2 n3 : option (list Z)) : bool :=
  match l with
  | [] => false
  | kd :: l =>
    match kd_fs kd with Some fs => samestring3 (fsop_getvolname (fsdata x) fs) n1 n2 n3 | None => false end ||
    (samestring3 (kd_rawname kd) n1 n2 n3 || samestring3 (Some (kd_name kd)) n1 n2 n3) ||
    badnames_loop l x n1 n2 n3
  end.

Definition badnames s c (n1 n2 n3 : option (list Z)) : res bool :=
  kassert (vfs_biglock_do_i_hold s c) (Ok (badnames_loop (knowndevs s) (st s) n1 n2 n3)).

(** kmalloc and kfree. *)
Definition kmalloc s : vfs F * option Z :=
  let (h, p) := halloc (kmem (st s)) in (with_st s (set_kmem (st s) h), p).

Definition kfree_if s (p : option Z) : res (vfs F) :=
  match p with
  | Some p => let* h := hfree (kmem (st s)) p in Ok (with_st s (set_kmem (st s) h))
  | None => Ok s
  end.

Definition dev_create_vnode s (dev : option Z) : vfs F * option Z :=
  let (s, v) := kmalloc s in
  match v with
  | None => (s, None)
  | Some v => (with_st s (vnode_init (st s) v (DevOps dev) None), Some v)
  end.

Definition dev_uncreate_vnode s (v : Z) : res (vfs F) :=
  let* vn := access (vnodes (st s) !! v) in
  kassert (match vn_ops vn with DevOps _ => true | FsOps => false end) (
  let* x := vnode_cleanup (st s) v in
  kfree_if (with_st s x) (Some v)).

(** Whether there is memory for an array to grow. *)
Definition array_room (h : kheap) : kheap * bool :=
  match fails h with
  | true :: f => (mkHeap (live h) (next_block h) f, false)
  | f => (mkHeap (live h) (next_block h) (tail f), true)
  end.

(** [fail:] *)
Definition doadd_fail s c (name rawname vnode kd : option Z) (result : Z) : res (vfs F * Z) :=
  let* s := kfree_if s name in
  let* s := kfree_if s rawname in
  let* s := match vnode with Some v => dev_uncreate_vnode s v | None => Ok s end in
  let* s := kfree_if s kd in
  let* s := vfs_biglock_release s c in
  Ok (s, result).

(** [dev->d_devnumber = n] *)
Definition set_devnumber s (dev : option Z) (n : Z) : res (vfs F) :=
  match dev with
  | None => Ok s
  | Some d =>
    let* x := access (devices s !! d) in
    Ok (with_devices s (<[d := mkDevice (d_blocks x) (d_blocksize x) n]> (devices s)))
  end.

(** The new entry is filled in and put into the list, unless its names are
    taken. *)
Definition doadd_enter s c (name rawname : option Z) (v : Z) (kd : option Z)
    (dname : list Z) (mountable : bool) (dev fs : option Z) : res (vfs F * Z) :=
  let raw := if mountable then Some (mkrawname dname) else None in
  let volname := match fs with Some fs => fsop_getvolname (fsdata (st s)) fs | None => None end in
  let* bad := badnames s c (Some dname) raw volname in
  if bad : bool then doadd_fail s c name rawname (Some v) kd EEXIST
  else
  let (h, room) := array_room (kmem (st s)) in
  let s := with_st s (set_kmem (st s) h) in
  if negb room then doadd_fail s c name rawname (Some v) kd ENOMEM
  else
  let index := zlen (knowndevs s) in
  let s := with_knowndevs s (knowndevs s ++ [mkKd dname raw dev v fs]) in
  let* s := set_devnumber s dev (index + 1) in
  let* s := vfs_biglock_release s c in
  Ok (s, 0).

Definition vfs_doadd s c (dname : list Z) (mountable : bool) (dev fs : option Z) : res (vfs F * Z) :=
  let* s := vfs_biglock_acquire s c in
  let (s, name) := kmalloc s in
  match name with
  | None => doadd_fail s c None None None None ENOMEM
  | Some _ =>
  let (s, rawname) := if mountable then kmalloc s else (s, None) in
  if mountable && bool_decide (rawname = None) then doadd_fail s c name None None None ENOMEM
  else
  let (s, vnode) := dev_create_vnode s dev in
  match vnode with
  | None => doadd_fail s c name rawname None None ENOMEM
  | Some v =>
  let (s, kd) := kmalloc s in
  match kd with
  | None => doadd_fail s c name rawname vnode None ENOMEM
  | Some _ => doadd_enter s c name rawname v kd dname mountable dev fs
  end
  end
  end.

Definition vfs_adddev s c devname dev mountable := vfs_doadd s c devname mountable (Some dev) None.
Definition vfs_addfs s c devname fs := vfs_doadd s c devname false None (Some fs).

(** The place of the device in the list, from [i] on. *)
Fixpoint findmount_loop (l : list knowndev) (i : nat) (devname : list Z) : option (nat * knowndev) :=
  match l with
  | [] => None
  | dev :: l =>
    if bool_decide (kd_rawname dev = None) then findmount_loop l (S i) devname
    else if bool_decide (devname = kd_name dev) then Some (i, dev)
    else findmount_loop l (S i) devname
  end.

Definition findmount s c (devname : list Z) : res (option (nat * knowndev)) :=
  kassert (vfs_biglock_do_i_hold s c) (Ok (findmount_loop (knowndevs s) 0 devname)).

(** [kd->kd_fs = fs] *)
Definition set_kd_fs s (i : nat) (kd : knowndev) (fs : option Z) : vfs F :=
  with_knowndevs s (<[i := mkKd (kd_name kd) (kd_rawname kd) (kd_device kd) (kd_vnode kd) fs]> (knowndevs s)).

Definition mount_fun : Type := store F -> Z -> res (store F * Z * option Z).

Definition vfs_mount s c (devname : list Z) (mountfunc : mount_fun) : res (vfs F * Z) :=
  let* s := vfs_biglock_acquire s c in
  let* k := findmount s c devname in
  match k with
  | None => let* s := vfs_biglock_release s c in Ok (s, ENODEV)
  | Some (i, kd) =>
  if bool_decide (is_Some (kd_fs kd)) then let* s := vfs_biglock_release s c in Ok (s, EBUSY)
  else
  kassert (bool_decide (is_Some (kd_rawname kd))) (
  match kd_device kd with
  | None => Fault Assertion
  | Some d =>
  let* (x, result, fs) := mountfunc (st s) d in
  let s := with_st s x in
  if negb (result =? 0) then let* s := vfs_biglock_release s c in Ok (s, result)
  else
  kassert (bool_decide (is_Some fs)) (
  let* s := vfs_biglock_release (set_kd_fs s i kd fs) c in
  Ok (s, 0))
  end)
  end.

Definition vfs_unmount s c (devname : list Z) : res (vfs F * Z) :=
  let* s := vfs_biglock_acquire s c in
  let* k := findmount s c devname in
  let* (s, result) :=
    match k with
    | None => Ok (s, ENODEV)
    | Some (i, kd) =>
      match kd_fs kd with
      | None => Ok (s, EINVAL)
      | Some fs =>
        kassert (bool_decide (is_Some (kd_rawname kd))) (
        kassert (bool_decide (is_Some (kd_device kd))) (
        let* (s, result) := fsop s (fsop_sync (st s) fs) in
        if negb (result =? 0) then Ok (s, result)
        else
        let* (s, result) := fsop s (fsop_unmount (st s) fs) in
        if negb (result =? 0) then Ok (s, result)
        else Ok (set_kd_fs s i kd None, 0)))
      end
    end in
  let* s := vfs_biglock_release s c in
  Ok (s, result).

(** The loop, at device [i] of the list with [k] to go. *)
Fixpoint unmountall_loop (k : nat) s (i : nat) : res (vfs F) :=
  match k with
  | O => Ok s
  | S k =>
    let* dev := access (knowndevs s !! i) in
    let* s :=
      if bool_decide (kd_rawname dev = None) then Ok s
      else
      match kd_fs dev with
      | None => Ok s
      | Some fs =>
        let* (s, result) := fsop s (fsop_sync (st s) fs) in
        let* (s, result) := if negb (result =? 0) then fsop s (fsop_sync (st s) fs) else Ok (s, result) in
        if negb (result =? 0) then Ok s
        else
        let* (s, result) := fsop s (fsop_unmount (st s) fs) in
        if negb (result =? 0) then Ok s
        else Ok (set_kd_fs s i dev None)
      end in
    unmountall_loop k s (S i)
  end.

Definition vfs_unmountall s c : res (vfs F * Z) :=
  let* s := vfs_biglock_acquire s c in
  let* s := unmountall_loop (length (knowndevs s)) s 0 in
  let* s := vfs_biglock_release s c in
  Ok (s, 0).

(** ** The current directory (vfscwd.c) *)

Definition vfs_getcurdir s c : res (vfs F * Z * option Z) :=
  match p_cwd s !! curproc c with
  | Some v => let* s := VOP_INCREF s v in Ok (s, 0, Some v)
  | None => Ok (s, ENOENT, None)
  end.

(** The process's directory is replaced, and the old one let go. *)
Definition replace_cwd s c (dir : option Z) : res (vfs F) :=
  let old := p_cwd s !! curproc c in
  let s := with_cwd s (partial_alter (fun _ => dir) (curproc c) (p_cwd s)) in
  match old with
  | Some v => VOP_DECREF s c v
  | None => Ok s
  end.

Definition vfs_setcurdir s c (dir : Z) : res (vfs F * Z) :=
  let* (s, vtype, result) := VOP_GETTYPE s c dir in
  if negb (result =? 0) then Ok (s, result)
  else if negb (vtype =? S_IFDIR) then Ok (s, ENOTDIR)
  else
  let* s := VOP_INCREF s dir in
  let* s := replace_cwd s c (Some dir) in
  Ok (s, 0).

Definition vfs_clearcurdir s c : res (vfs F * Z) :=
  let* s := replace_cwd s c None in Ok (s, 0).

(** ** Path names (vfslookup.c) *)

(** The first ':' or '/': [colon] and [slash], at most one of them not -1. *)
Fixpoint scan (path : list Z) (i : Z) : Z * Z :=
  match path with
  | [] => (-1, -1)
  | ch :: path => if ch =? 58 then (i, -1) else if ch =? 47 then (-1, i) else scan path (i + 1)
  end.

Fixpoint skip_slashes (l : list Z) : list Z :=
  match l with
  | [] => []
  | ch :: l' => if ch =? 47 then skip_slashes l' else l
  end.

(** The return value, [*subpath] and [*startvn]. *)
Definition getdevice s c (path : list Z) : res (vfs F * Z * list Z * option Z) :=
  kassert (vfs_biglock_do_i_hold s c) (
  let (colon, slash) := scan path 0 in
  if (colon <? 0) && negb (slash =? 0) then
    let* (s, result, startvn) := vfs_getcurdir s c in
    Ok (s, result, path, startvn)
  else if 0 <? colon then
    let subpath := skip_slashes (drop (Z.to_nat (colon + 1)) path) in
    let* (s, result, startvn) := vfs_getroot s c (take (Z.to_nat colon) path) in
    Ok (s, result, subpath, startvn)
  else
  kassert ((colon =? 0) || (slash =? 0)) (
  let* (s, result, startvn) :=
    if bool_decide (head path = Some 47) then
      match bootfs_vnode s with
      | None => Ok (s, ENOENT, None)
      | Some v => let* s := VOP_INCREF s v in Ok (s, 0, Some v)
      end
    else
    kassert (bool_decide (head path = Some 58)) (
    let* (s, result, vn) := vfs_getcurdir s c in
    if negb (result =? 0) then Ok (s, result, None)
    else
    let* v := access vn in
    let* vnode := access (vnodes (st s) !! v) in
    match vn_fs vnode with
    | None => Fault Assertion
    | Some fs =>
      let* (s, result, startvn) := FSOP_GETROOT s fs in
      let* s := VOP_DECREF s c v in
      Ok (s, result, startvn)
    end) in
  Ok (s, result, skip_slashes (tail path), startvn))).

(** The return value, [*retval] and what is in [buf]. *)
Definition vfs_lookparent s c (path : list Z) (buflen : Z) : res (vfs F * Z * option Z * list Z) :=
  let* s := vfs_biglock_acquire s c in
  let* (s, result, path, startvn) := getdevice s c path in
  if negb (result =? 0) then let* s := vfs_biglock_release s c in Ok (s, result, None, [])
  else
  let* startvn := access startvn in
  let* (s, result, retval, name) :=
    if zlen path =? 0 then Ok (s, EINVAL, None, []) else VOP_LOOKPARENT s c startvn path buflen in
  let* s := VOP_DECREF s c startvn in
  let* s := vfs_biglock_release s c in
  Ok (s, result, retval, name).

Definition vfs_lookup s c (path : list Z) : res (vfs F * Z * option Z) :=
  let* s := vfs_biglock_acquire s c in
  let* (s, result, path, startvn) := getdevice s c path in
  if negb (result =? 0) then let* s := vfs_biglock_release s c in Ok (s, result, None)
  else
  let* startvn := access startvn in
  if zlen path =? 0 then let* s := vfs_biglock_release s c in Ok (s, 0, Some startvn)
  else
  let* (s, result, retval) := VOP_LOOKUP s c startvn path in
  let* s := VOP_DECREF s c startvn in
  let* s := vfs_biglock_release s c in
  Ok (s, result, retval).

Definition vfs_chdir s c (path : list Z) : res (vfs F * Z) :=
  let* (s, result, vn) := vfs_lookup s c path in
  if negb (result =? 0) then Ok (s, result)
  else
  let* vn := access vn in
  let* (s, result) := vfs_setcurdir s c vn in
  let* s := VOP_DECREF s c vn in
  Ok (s, result).

Definition change_bootfs s c (newvn : option Z) : res (vfs F) :=
  let oldvn := bootfs_vnode s in
  let s := with_bootfs s newvn in
  match oldvn with
  | Some v => VOP_DECREF s c v
  | None => Ok s
  end.

(** [strchr(s, ':')], as the rest of the string from there. *)
Fixpoint from_colon (l : list Z) : option (list Z) :=
  match l with
  | [] => None
  | ch :: l' => if ch =? 58 then Some l else from_colon l'
  end.

Definition vfs_setbootfs s c (fsname : list Z) : res (vfs F * Z) :=
  let* s := vfs_biglock_acquire s c in
  let tmp := take 254 fsname in
  let colon := from_colon tmp in
  if bool_decide (is_Some colon) && (0 <? zlen (default [] colon)) then let* s := vfs_biglock_release s c in Ok (s, EINVAL)
  else
  let tmp := if bool_decide (is_Some colon) then tmp else tmp ++ [58] in
  let* (s, result) := vfs_chdir s c tmp in
  if negb (result =? 0) then let* s := vfs_biglock_release s c in Ok (s, result)
  else
  let* (s, result, newguy) := vfs_getcurdir s c in
  if negb (result =? 0) then let* s := vfs_biglock_release s c in Ok (s, result)
  else
  let* s := change_bootfs s c newguy in
  let* s := vfs_biglock_release s c in
  Ok (s, 0).

Definition vfs_clearbootfs s c : res (vfs F) :=
  let* s := vfs_biglock_acquire s c in
  let* s := change_bootfs s c None in
  vfs_biglock_release s c.

Definition vfs_getcwd s c (u : uio) : res (vfs F * uio * Z) :=
  kassert (bool_decide (uio_dir u = UIO_READ)) (
  let* (s, result, cwd) := vfs_getcurdir s c in
  if negb (result =? 0) then Ok (s, u, result)
  else
  let* cwd := access cwd in
  let* vn := access (vnodes (st s) !! cwd) in
  match vn_fs vn with
  | None => Fault Assertion
  | Some fs =>
  let* (s, name) :=
    match fsop_getvolname (fsdata (st s)) fs with
    | Some name => Ok (s, Some name)
    | None =>
      let* s := vfs_biglock_acquire s c in
      let* name := vfs_getdevname s c fs in
      let* s := vfs_biglock_release s c in
      Ok (s, name)
    end in
  match name with
  | None => Fault Assertion
  | Some name =>
  let* (x, u, result) := uio_bytes (st s) name u in
  let s := with_st s x in
  if negb (result =? 0) then let* s := VOP_DECREF s c cwd in Ok (s, u, result)
  else
  let* (x, u, result) := uio_bytes (st s) [58] u in
  let s := with_st s x in
  if negb (result =? 0) then let* s := VOP_DECREF s c cwd in Ok (s, u, result)
  else
  let* (s, u, result) := VOP_NAMEFILE s c cwd u in
  let* s := VOP_DECREF s c cwd in
  Ok (s, u, result)
  end
  end).

(** ** Operations on path names (vfspath.c) *)

Definition vfs_open s c (path : list Z) (openflags mode : Z) : res (vfs F * Z * option Z) :=
  let how := Z.land openflags O_ACCMODE in
  if negb ((how =? O_RDONLY) || (how =? O_WRONLY) || (how =? O_RDWR)) then Ok (s, EINVAL, None)
  else
  let canwrite := negb (how =? O_RDONLY) in
  let* (s, result, vn) :=
    if negb (Z.land openflags O_CREAT =? 0) then
      let excl := negb (Z.land openflags O_EXCL =? 0) in
      let* (s, result, dir, name) := vfs_lookparent s c path (NAME_MAX + 1) in
      if negb (result =? 0) then Ok (s, result, None)
      else
      let* dir := access dir in
      let* (s, result, vn) := VOP_CREAT s c dir name excl mode in
      let* s := VOP_DECREF s c dir in
      Ok (s, result, vn)
    else vfs_lookup s c path in
  if negb (result =? 0) then Ok (s, result, None)
  else
  match vn with
  | None => Fault Assertion
  | Some v =>
  let* (s, result) := VOP_EACHOPEN s c v openflags in
  if negb (result =? 0) then let* s := VOP_DECREF s c v in Ok (s, result, None)
  else
  let* (s, result) :=
    if negb (Z.land openflags O_TRUNC =? 0) then
      if canwrite then VOP_TRUNCATE s c v 0 else Ok (s, EINVAL)
    else Ok (s, 0) in
  if negb (result =? 0) then let* s := VOP_DECREF s c v in Ok (s, result, None)
  else Ok (s, 0, Some v)
  end.

Definition vfs_close s c (v : Z) : res (vfs F) := VOP_DECREF s c v.

(** The shape of remove, symlink, mkdir and rmdir: find the parent directory,
    call its operation with the name, let the directory go. *)
Definition in_parent s c (path : list Z) (op : vfs F -> Z -> list Z -> res (vfs F * Z)) : res (vfs F * Z) :=
  let* (s, result, dir, name) := vfs_lookparent s c path (NAME_MAX + 1) in
  if negb (result =? 0) then Ok (s, result)
  else
  let* dir := access dir in
  let* (s, result) := op s dir name in
  let* s := VOP_DECREF s c dir in
  Ok (s, result).

Definition vfs_remove s c path := in_parent s c path (fun s dir name => VOP_REMOVE s c dir name).
Definition vfs_symlink s c contents path := in_parent s c path (fun s dir name => VOP_SYMLINK s c dir name contents).
Definition vfs_mkdir s c path mode := in_parent s c path (fun s dir name => VOP_MKDIR s c dir name mode).
Definition vfs_rmdir s c path := in_parent s c path (fun s dir name => VOP_RMDIR s c dir name).

(** [a->vn_fs==NULL || b->vn_fs==NULL || a->vn_fs != b->vn_fs] *)
Definition other_fs s (a b : Z) : res bool :=
  let* va := access (vnodes (st s) !! a) in
  let* vb := access (vnodes (st s) !! b) in
  Ok (bool_decide (vn_fs va = None) || bool_decide (vn_fs vb = None) || negb (bool_decide (vn_fs va = vn_fs vb))).

Definition vfs_rename s c (oldpath newpath : list Z) : res (vfs F * Z) :=
  let* (s, result, olddir, oldname) := vfs_lookparent s c oldpath (NAME_MAX + 1) in
  if negb (result =? 0) then Ok (s, result)
  else
  let* olddir := access olddir in
  let* (s, result, newdir, newname) := vfs_lookparent s c newpath (NAME_MAX + 1) in
  if negb (result =? 0) then let* s := VOP_DECREF s c olddir in Ok (s, result)
  else
  let* newdir := access newdir in
  let* x := other_fs s olddir newdir in
  let* (s, result) := if x : bool then Ok (s, EXDEV) else VOP_RENAME s c olddir oldname newdir newname in
  let* s := VOP_DECREF s c newdir in
  let* s := VOP_DECREF s c olddir in
  Ok (s, result).

Definition vfs_link s c (oldpath newpath : list Z) : res (vfs F * Z) :=
  let* (s, result, oldfile) := vfs_lookup s c oldpath in
  if negb (result =? 0) then Ok (s, result)
  else
  let* oldfile := access oldfile in
  let* (s, result, newdir, newname) := vfs_lookparent s c newpath (NAME_MAX + 1) in
  if negb (result =? 0) then let* s := VOP_DECREF s c oldfile in Ok (s, result)
  else
  let* newdir := access newdir in
  let* x := other_fs s oldfile newdir in
  let* (s, result) := if x : bool then Ok (s, EXDEV) else VOP_LINK s c newdir newname oldfile in
  let* s := VOP_DECREF s c newdir in
  let* s := VOP_DECREF s c oldfile in
  Ok (s, result).

Definition vfs_readlink s c (path : list Z) (u : uio) : res (vfs F * uio * Z) :=
  let* (s, result, vn) := vfs_lookup s c path in
  if negb (result =? 0) then Ok (s, u, result)
  else
  let* v := access vn in
  let* (s, u, result) := VOP_READLINK s c v u in
  let* s := VOP_DECREF s c v in
  Ok (s, u, result).
End Vfs.

(** * What the layer relies on *)

Section Contract.
Context {F : Type}.
Implicit Types x : store F.

Definition refs x (v : Z) : Z := from_option vn_refcount 0 (vnodes x !! v).

(** A vnode is there as long as something refers to it; file systems' vnodes
    know their file system, devices have none. *)
Record vnodes_ok x : Prop := {
  vk_heap : heap_ok (kmem x);
  vk_live : forall v vn, vnodes x !! v = Some vn -> v ∈ live (kmem x);
  vk_pos : forall v vn, vnodes x !! v = Some vn -> 0 < vn_refcount vn;
  vk_fs : forall v vn, vnodes x !! v = Some vn -> vn_ops vn = FsOps <-> is_Some (vn_fs vn)
}.

(** A vnode of file system [f]. *)
Definition vnode_of x (v f : Z) : Prop :=
  exists n, vnodes x !! v = Some (mkVnode n (Some f) FsOps).

(** The same file system vnodes, up to their counts. *)
Definition same_files x x' : Prop := forall v f, vnode_of x v f <-> vnode_of x' v f.

(** What else a file system sees of the layer: its data is not touched, its
    blocks are not freed nor used for something else. *)
Record frame x x' : Prop := {
  fr_data : fsdata x' = fsdata x;
  fr_files : same_files x x';
  fr_live : live (kmem x) ⊆ live (kmem x');
  fr_fails : exists n, fails (kmem x') = drop n (fails (kmem x));
  fr_new : forall v, is_Some (vnodes x' !! v) -> is_Some (vnodes x !! v) \/ v ∉ live (kmem x);
  fr_ok : vnodes_ok x'
}.

(** A count changes, and stays positive. *)
Lemma refcount_frame x v vn k :
  vnodes_ok x -> vnodes x !! v = Some vn -> 0 < k ->
  let x' := set_refcount x v vn k in
  frame x x' /\ (forall w, refs x' w = if decide (w = v) then k else refs x w) /\
  (forall w vw vw', vnodes x !! w = Some vw -> vnodes x' !! w = Some vw' -> vn_fs vw' = vn_fs vw /\ vn_ops vw' = vn_ops vw).
Proof.
  intros Hok Hv Hk x'.
  assert (E : forall w, vnodes x' !! w = if decide (w = v) then Some (mkVnode k (vn_fs vn) (vn_ops vn)) else vnodes x !! w).
  { intros w. unfold x'. cbn. case_decide; [subst; by rewrite lookup_insert_eq | by rewrite lookup_insert_ne]. }
  assert (Hok' : vnodes_ok x').
  { destruct Hok as [Hh Hl Hp Hf]. split; [done | | |]; intros w vw; rewrite E; case_decide as Hw; try (by eauto);
      intros [= <-]; subst; cbn; [eauto | done | by apply (Hf v)]. }
  split; [split; try done; [ | by exists 0%nat | ] | split].
  - intros w f. unfold vnode_of. rewrite E. case_decide as Hw; [ | done]. subst. rewrite Hv. destruct vn; cbn.
    split; intros [j Ej]; injection Ej; naive_solver.
  - intros w. rewrite E. case_decide as Hw; [subst; left; eauto | by left].
  - intros w. unfold refs. rewrite E. by case_decide.
  - intros w vw vw' Ew. rewrite E. case_decide as Hw; [subst; intros [= <-]; cbn; by simplify_eq | intros Ew'; by simplify_eq].
Qed.
End Contract.

(** The invariant of the file systems, which of them there are, and which of
    these can be unmounted. *)
Class FsSpec (F : Type) := {
  fs_inv : store F -> Prop;
  mounted : F -> Z -> Prop;
  removable : F -> Z -> Prop
}.

Section Steps.
Context {F : Type} `{FsSpec F}.
Implicit Types x : store F.

(** From [x] to [x'] the references in [g] were handed out and those in [l]
    given up, and nothing else happened to the counts. *)
Record moved x x' (g l : gmultiset Z) : Prop := {
  mv_inv : fs_inv x';
  mv_ok : vnodes_ok x';
  mv_refs : forall v, refs x' v + Z.of_nat (multiplicity v l) = refs x v + Z.of_nat (multiplicity v g);
  mv_same : forall v vn vn', vnodes x !! v = Some vn -> vnodes x' !! v = Some vn' -> vn_fs vn' = vn_fs vn /\ vn_ops vn' = vn_ops vn
}.

(** The file systems are those of [x], with the change [m]. *)
Definition file_systems x x' (m : Z -> Prop -> Prop) : Prop :=
  forall f, (mounted (fsdata x') f <-> m f (mounted (fsdata x) f)) /\ (removable (fsdata x') f <-> m f (removable (fsdata x) f)).

Definition steps x x' (g l : gmultiset Z) : Prop := moved x x' g l /\ file_systems x x' (fun _ P => P).

(** A call that leaves the counts alone. *)
Definition quiet x x' : Prop := steps x x' ∅ ∅.

(** A call that hands back a vnode of [f] if it returns 0. *)
Definition hands_back x (f : Z) (a : ret_vnode F) : Prop :=
  let '(x', r, o) := a in
  if r =? 0 then exists v, o = Some v /\ vnode_of x' v f /\ steps x x' {[+ v +]} ∅ else quiet x x'.

(** A call that hands back a file system if it returns 0. *)
Definition mounts x (a : store F * Z * option Z) : Prop :=
  let '(x', r, o) := a in
  if r =? 0 then exists f, o = Some f /\ moved x x' ∅ ∅ /\ ~ mounted (fsdata x) f /\ file_systems x x' (fun g P => P \/ g = f)
  else quiet x x'.

Definition unmounts x (f : Z) (a : store F * Z) : Prop :=
  let '(x', r) := a in
  if r =? 0 then moved x x' ∅ ∅ /\ file_systems x x' (fun g P => P /\ g <> f)
  else quiet x x'.
End Steps.

Class FileSystemLaws (F : Type) `{FileSystem F} `{FsSpec F} := {
  law_frame : forall x x', fs_inv x -> frame x x' -> fs_inv x';
  law_live : forall x v f, fs_inv x -> vnode_of x v f -> mounted (fsdata x) f;
  law_eachopen : forall x v f flags, fs_inv x -> vnodes_ok x -> vnode_of x v f ->
    runs (vop_eachopen x v flags) (fun a => quiet x a.1);
  law_reclaim : forall x v f, fs_inv x -> vnodes_ok x -> vnode_of x v f -> runs (vop_reclaim x v) (fun a => steps x a.1 ∅ {[+ v +]});
  law_readlink : forall x v f u, fs_inv x -> vnodes_ok x -> vnode_of x v f ->
    runs (vop_readlink x v u) (fun a => quiet x a.1.1);
  law_gettype : forall x v f, fs_inv x -> vnodes_ok x -> vnode_of x v f -> runs (vop_gettype x v) (fun _ => True);
  law_truncate : forall x v f len, fs_inv x -> vnodes_ok x -> vnode_of x v f ->
    runs (vop_truncate x v len) (fun a => quiet x a.1);
  law_namefile : forall x v f u, fs_inv x -> vnodes_ok x -> vnode_of x v f ->
    runs (vop_namefile x v u) (fun a => quiet x a.1.1);
  law_creat : forall x v f name excl mode, fs_inv x -> vnodes_ok x -> vnode_of x v f ->
    runs (vop_creat x v name excl mode) (hands_back x f);
  law_symlink : forall x v f a b, fs_inv x -> vnodes_ok x -> vnode_of x v f ->
    runs (vop_symlink x v a b) (fun a => quiet x a.1);
  law_mkdir : forall x v f name mode, fs_inv x -> vnodes_ok x -> vnode_of x v f ->
    runs (vop_mkdir x v name mode) (fun a => quiet x a.1);
  law_link : forall x v f name v2, fs_inv x -> vnodes_ok x -> vnode_of x v f -> vnode_of x v2 f ->
    runs (vop_link x v name v2) (fun a => quiet x a.1);
  law_remove : forall x v f name, fs_inv x -> vnodes_ok x -> vnode_of x v f ->
    runs (vop_remove x v name) (fun a => quiet x a.1);
  law_rmdir : forall x v f name, fs_inv x -> vnodes_ok x -> vnode_of x v f ->
    runs (vop_rmdir x v name) (fun a => quiet x a.1);
  law_rename : forall x v f n1 v2 n2, fs_inv x -> vnodes_ok x -> vnode_of x v f -> vnode_of x v2 f ->
    runs (vop_rename x v n1 v2 n2) (fun a => quiet x a.1);
  law_lookup : forall x v f path, fs_inv x -> vnodes_ok x -> vnode_of x v f -> path <> [] ->
    runs (vop_lookup x v path) (hands_back x f);
  law_lookparent : forall x v f path len, fs_inv x -> vnodes_ok x -> vnode_of x v f -> path <> [] ->
    runs (vop_lookparent x v path len) (fun a => hands_back x f a.1);
  law_sync : forall x f, fs_inv x -> vnodes_ok x -> mounted (fsdata x) f -> runs (fsop_sync x f) (fun a => quiet x a.1);
  law_getroot : forall x f, fs_inv x -> vnodes_ok x -> mounted (fsdata x) f -> runs (fsop_getroot x f) (hands_back x f);
  law_unmount : forall x f, fs_inv x -> vnodes_ok x -> mounted (fsdata x) f -> removable (fsdata x) f -> runs (fsop_unmount x f) (unmounts x f);
  law_dev_eachopen : forall x d flags, fs_inv x -> vnodes_ok x -> runs (devop_eachopen x d flags) (fun a => quiet x a.1);
  law_uio_bytes : forall x l u, fs_inv x -> vnodes_ok x -> runs (uio_bytes x l u) (fun a => quiet x a.1.1)
}.
