(* ===== verification/VfsRefs.v ===== *)
(** The VFS layer counts references exactly: the invariant [vfs_inv], kept by
    every function of file Vfs for any file systems that satisfy
    [FileSystemLaws].

    The callers' references are a multiset [h]; the layer's own are [owned]:
    the boot file system, the current directories, and one per known device.
    The count in every vnode is the number of references to it, on every path
    through the code, error paths included. *)
From stdpp Require Import gmultiset.
From S2P Require Import Prelude Coremap Copyinout Synch Vfs.

(** * References are counted *)

Section Refs.
Context {F : Type} `{FileSystemLaws F}.
Implicit Types x : store F.
Implicit Types s : vfs F.
Implicit Types c : caller.
Implicit Types g l : gmultiset Z.

(** The references that the layer itself holds. *)
Definition opt_ref (o : option Z) : gmultiset Z := match o with Some v => {[+ v +]} | None => ∅ end.
Definition cwd_refs (m : gmap Z Z) : gmultiset Z := list_to_set_disj (map_to_list m).*2.
Definition kd_refs (l : list knowndev) : gmultiset Z := list_to_set_disj (kd_vnode <$> l).
Definition owned s : gmultiset Z := opt_ref (bootfs_vnode s) ⊎ cwd_refs (p_cwd s) ⊎ kd_refs (knowndevs s).

(** The caller is inside [n] nested acquisitions of the big lock. *)
Record mine s c (n : Z) : Prop := {
  mi_depth : vfs_biglock_depth s = n;
  mi_pos : 0 <= n;
  mi_int : in_interrupt (thr c) = false;
  mi_lock : if n =? 0 then lock_count (vfs_biglock s) = 1 /\ lock_holder (vfs_biglock s) = None
            else lock_count (vfs_biglock s) = 0 /\ lock_holder (vfs_biglock s) = Some (on_cpu (thr c))
}.

Definition usable s (o : vnode_ops) : Prop :=
  match o with
  | DevOps (Some d) => is_Some (devices s !! d)
  | DevOps None => False
  | FsOps => True
  end.

(** The comment on struct knowndev: a device that can be mounted, or has no
    file system of its own, is a device. *)
Record kd_ok s (kd : knowndev) : Prop := {
  ko_vnode : exists n, vnodes (st s) !! kd_vnode kd = Some (mkVnode n None (DevOps (kd_device kd)));
  ko_device : forall d, kd_device kd = Some d -> is_Some (devices s !! d);
  ko_real : is_Some (kd_rawname kd) \/ kd_fs kd = None -> is_Some (kd_device kd);
  ko_fs : forall f, kd_fs kd = Some f -> mounted (fsdata (st s)) f /\ (is_Some (kd_rawname kd) -> removable (fsdata (st s)) f)
}.

Definition listed (l : list knowndev) (f : Z) : Prop := exists kd, kd ∈ l /\ kd_fs kd = Some f.

(** The invariant, for a caller who holds the references [h]. *)
Record vfs_inv c (n : Z) s (h : gmultiset Z) : Prop := {
  iv_fs : fs_inv (st s);
  iv_vn : vnodes_ok (st s);
  iv_lock : mine s c n;
  iv_refs : forall v, refs (st s) v = Z.of_nat (multiplicity v (h ⊎ owned s));
  iv_boot : forall v, bootfs_vnode s = Some v -> exists f, vnode_of (st s) v f;
  iv_cwd : forall p v, p_cwd s !! p = Some v -> exists f, vnode_of (st s) v f;
  iv_held : forall v vn, v ∈ h -> vnodes (st s) !! v = Some vn -> usable s (vn_ops vn);
  iv_kd : forall kd, kd ∈ knowndevs s -> kd_ok s kd;
  iv_dev : forall v vn d, vnodes (st s) !! v = Some vn -> vn_ops vn = DevOps d -> v ∈ kd_vnode <$> knowndevs s;
  iv_nodup : NoDup (omap kd_fs (knowndevs s));
  iv_listed : forall v f, vnode_of (st s) v f -> listed (knowndevs s) f
}.

(** ** Counting *)

Lemma refs_pos x v : vnodes_ok x -> 0 < refs x v <-> is_Some (vnodes x !! v).
Proof.
  intros Hok. unfold refs. destruct (vnodes x !! v) as [vn | ] eqn:E; cbn.
  - split; [eauto | intros _; by apply (vk_pos _ Hok v)].
  - split; [lia | intros [? [=]]].
Qed.

Lemma ref_counted c n s h v : vfs_inv c n s h -> v ∈ h ⊎ owned s -> exists vn, vnodes (st s) !! v = Some vn.
Proof.
  intros HI Hv. apply refs_pos; [apply HI |]. rewrite (iv_refs _ _ _ _ HI). rewrite elem_of_multiplicity in Hv. lia.
Qed.

Lemma held_vnode c n s h v : vfs_inv c n s h -> v ∈ h -> exists vn, vnodes (st s) !! v = Some vn /\ usable s (vn_ops vn).
Proof.
  intros HI Hv. destruct (ref_counted c n s h v HI) as [vn Hvn]; [multiset_solver |].
  exists vn. split; [done |]. by apply (iv_held _ _ _ _ HI v).
Qed.

(** A file system's vnode that is held. *)
Lemma fs_vnode x v vn : vnodes_ok x -> vnodes x !! v = Some vn -> vn_ops vn = FsOps -> exists f, vnode_of x v f.
Proof.
  intros Hok Hv Ho. destruct (proj1 (vk_fs _ Hok v vn Hv) Ho) as [f Hf].
  exists f, (vn_refcount vn). destruct vn; cbn in *. by subst.
Qed.

Lemma cwd_refs_insert m p v : m !! p = None -> cwd_refs (<[p := v]> m) = {[+ v +]} ⊎ cwd_refs m.
Proof. intros E. unfold cwd_refs. rewrite map_to_list_insert by done. by rewrite fmap_cons, list_to_set_disj_cons. Qed.

Lemma cwd_refs_delete m p v : m !! p = Some v -> cwd_refs m = {[+ v +]} ⊎ cwd_refs (delete p m).
Proof. intros E. rewrite <- (cwd_refs_insert (delete p m) p v) by apply lookup_delete_eq. by rewrite insert_delete_id. Qed.

Lemma cwd_refs_alter m p o :
  cwd_refs (partial_alter (fun _ => o) p m) ⊎ opt_ref (m !! p) = cwd_refs m ⊎ opt_ref o.
Proof.
  assert (E : cwd_refs (partial_alter (fun _ => o) p m) = opt_ref o ⊎ cwd_refs (delete p m)).
  { destruct o as [v | ]; unfold opt_ref; [ | symmetry; apply (left_id_L ∅ disj_union)].
    rewrite <- (cwd_refs_insert (delete p m) p v) by apply lookup_delete_eq. by rewrite insert_delete_eq. }
  rewrite E. destruct (m !! p) as [v | ] eqn:Hp; unfold opt_ref at 2.
  - rewrite (cwd_refs_delete m p v Hp). multiset_solver.
  - rewrite delete_id by done. multiset_solver.
Qed.

(** ** The vnodes before and after a call *)

Lemma moved_vnode x x' g l v n fs ops :
  moved x x' g l -> vnodes x !! v = Some (mkVnode n fs ops) -> 0 < refs x' v ->
  exists n', vnodes x' !! v = Some (mkVnode n' fs ops).
Proof.
  intros Hm Hv Hp. apply refs_pos in Hp as [vn' Hv']; [ | apply Hm].
  destruct (mv_same _ _ _ _ Hm v _ _ Hv Hv') as [Hf Ho]. exists (vn_refcount vn'). rewrite Hv'.
  destruct vn'; cbn in *. by subst.
Qed.

Lemma moved_back_any x x' g l v vn' :
  vnodes_ok x -> moved x x' g l -> vnodes x' !! v = Some vn' ->
  v ∈ g \/ exists vn, vnodes x !! v = Some vn /\ vn_ops vn = vn_ops vn' /\ vn_fs vn = vn_fs vn'.
Proof.
  intros Hok Hm Hv'. destruct (decide (v ∈ g)) as [ | Hg]; [by left | right].
  assert (Hp : 0 < refs x v).
  { pose proof (mv_refs _ _ _ _ Hm v) as E. assert (0 < refs x' v) by (apply refs_pos; [apply Hm | eauto]).
    rewrite not_elem_of_multiplicity in Hg. lia. }
  apply refs_pos in Hp as [vn Hv]; [ | done]. destruct (mv_same _ _ _ _ Hm v _ _ Hv Hv') as [Hf Ho]. by exists vn.
Qed.

Lemma moved_back x x' g l v f :
  vnodes_ok x -> moved x x' g l -> vnode_of x' v f -> v ∈ g \/ vnode_of x v f.
Proof.
  intros Hok Hm [n' Hv']. destruct (moved_back_any _ _ _ _ _ _ Hok Hm Hv') as [Hg | (vn & Hv & Ho & Hf)]; [by left | right].
  exists (vn_refcount vn). rewrite Hv. destruct vn; cbn in *. by subst.
Qed.

(** ** One call on the store *)

Lemma count_steps s x' g l h v :
  (forall w, refs (st s) w = Z.of_nat (multiplicity w (h ⊎ l ⊎ owned s))) -> moved (st s) x' g l ->
  refs x' v = Z.of_nat (multiplicity v (h ⊎ g ⊎ owned s)).
Proof.
  intros Hr Hm. pose proof (mv_refs _ _ _ _ Hm v) as E. rewrite Hr in E. rewrite !multiplicity_disj_union in *. lia.
Qed.

(** The list of devices may change what is mounted where, not the devices. *)
Record same_devices (l l' : list knowndev) : Prop := {
  sd_vnodes : kd_vnode <$> l' = kd_vnode <$> l;
  sd_entry : forall kd', kd' ∈ l' -> exists kd, kd ∈ l /\ kd_vnode kd' = kd_vnode kd /\ kd_device kd' = kd_device kd /\
    kd_rawname kd' = kd_rawname kd /\ (kd_fs kd' = None -> is_Some (kd_rawname kd) \/ kd_fs kd = None)
}.

Lemma same_devices_refl (l : list knowndev) : same_devices l l.
Proof. split; [done |]. intros kd Hk. exists kd. repeat split; auto. Qed.

Lemma kd_owned s kd : kd ∈ knowndevs s -> kd_vnode kd ∈ owned s.
Proof.
  intros Hk. unfold owned, kd_refs. rewrite !gmultiset_elem_of_disj_union, elem_of_list_to_set_disj. right.
  apply list_elem_of_fmap. eauto.
Qed.

Lemma boot_owned s v : bootfs_vnode s = Some v -> v ∈ owned s.
Proof. intros E. unfold owned. rewrite E. multiset_solver. Qed.

Lemma cwd_owned s p v : p_cwd s !! p = Some v -> v ∈ owned s.
Proof. intros E. unfold owned. rewrite (cwd_refs_delete _ _ _ E). multiset_solver. Qed.

Lemma inv_moved c n s h x' g l kds :
  vfs_inv c n s (h ⊎ l) -> moved (st s) x' g l -> same_devices (knowndevs s) kds ->
  (forall kd f, kd ∈ kds -> kd_fs kd = Some f -> mounted (fsdata x') f /\ (is_Some (kd_rawname kd) -> removable (fsdata x') f)) ->
  NoDup (omap kd_fs kds) ->
  (forall v f, vnode_of x' v f -> listed kds f) ->
  (forall v vn, v ∈ g -> vnodes x' !! v = Some vn -> usable s (vn_ops vn)) ->
  (forall v vn d, vnodes x' !! v = Some vn -> vn_ops vn = DevOps d -> v ∈ kd_vnode <$> knowndevs s) ->
  vfs_inv c n (with_knowndevs (with_st s x') kds) (h ⊎ g).
Proof.
  intros HI Hm Hsd Hmo Hnd Hli Hg Hdev.
  assert (Ho : owned (with_knowndevs (with_st s x') kds) = owned s).
  { unfold owned, kd_refs. cbn. by rewrite (sd_vnodes _ _ Hsd). }
  assert (Hr : forall v, refs x' v = Z.of_nat (multiplicity v (h ⊎ g ⊎ owned s))).
  { intros v. apply (count_steps _ _ _ l); [apply HI | done]. }
  assert (Hp : forall v, v ∈ h ⊎ g ⊎ owned s -> 0 < refs x' v).
  { intros v Hv. rewrite Hr. rewrite elem_of_multiplicity in Hv. lia. }
  assert (Hfile : forall v f, vnode_of (st s) v f -> v ∈ owned s -> vnode_of x' v f).
  { intros v f [k Hv] Hw. apply (moved_vnode _ _ _ _ _ _ _ _ Hm Hv). apply Hp. multiset_solver. }
  split; cbn [st with_knowndevs with_st knowndevs bootfs_vnode p_cwd].
  - apply Hm.
  - apply Hm.
  - destruct (iv_lock _ _ _ _ HI). by split.
  - intros v. rewrite Ho. apply Hr.
  - intros v E. destruct (iv_boot _ _ _ _ HI v E) as [f Hf]. exists f. by apply Hfile, boot_owned.
  - intros p v E. destruct (iv_cwd _ _ _ _ HI p v E) as [f Hf]. exists f. by apply Hfile, (cwd_owned _ p).
  - intros v vn Hv Hx. apply gmultiset_elem_of_disj_union in Hv as [Hv | Hv]; [ | by apply (Hg v)].
    destruct (held_vnode _ _ _ _ v HI) as (vn0 & E0 & Hu); [multiset_solver |].
    destruct (mv_same _ _ _ _ Hm v _ _ E0 Hx) as [_ ->]. done.
  - intros kd' Hk'. destruct (sd_entry _ _ Hsd kd' Hk') as (kd & Hk & Ev & Ed & Er & Ef).
    destruct (iv_kd _ _ _ _ HI kd Hk) as [[k Hv] Hd Hreal Hfs]. split; cbn [st with_knowndevs with_st devices].
    + rewrite Ev, Ed. apply (moved_vnode _ _ _ _ _ _ _ _ Hm Hv). apply Hp. pose proof (kd_owned _ _ Hk). multiset_solver.
    + rewrite Ed. done.
    + rewrite Er, Ed. intros [Hra | Hfn]; [by apply Hreal; left |]. apply Hreal. by apply Ef.
    + intros f Hf. by apply (Hmo kd').
  - intros v vn d Hv Ho'. rewrite (sd_vnodes _ _ Hsd). by apply (Hdev v vn d).
  - done.
  - done.
Qed.

Lemma inv_steps c n s h x' g l :
  vfs_inv c n s (h ⊎ l) -> steps (st s) x' g l ->
  (forall v vn, v ∈ g -> vnodes x' !! v = Some vn ->
     usable s (vn_ops vn) /\ (forall f, vn_fs vn = Some f -> listed (knowndevs s) f) /\
     (forall d, vn_ops vn = DevOps d -> v ∈ kd_vnode <$> knowndevs s)) ->
  vfs_inv c n (with_st s x') (h ⊎ g).
Proof.
  intros HI [Hm Hmo] Hg. apply (inv_moved c n s h x' g l (knowndevs s) HI Hm).
  - apply same_devices_refl.
  - intros kd f Hk Hf. destruct (Hmo f) as [-> ->]. by apply (iv_kd _ _ _ _ HI kd Hk).
  - apply HI.
  - intros v f Hv. destruct (moved_back _ _ _ _ v f (iv_vn _ _ _ _ HI) Hm Hv) as [Hin | Hold].
    + destruct Hv as [k E]. by apply (proj1 (proj2 (Hg v _ Hin E))).
    + by apply (iv_listed _ _ _ _ HI v).
  - intros v vn Hv Hx. apply (Hg v vn Hv Hx).
  - intros v vn d Hv Ho. destruct (moved_back_any _ _ _ _ v vn (iv_vn _ _ _ _ HI) Hm Hv) as [Hin | (vn0 & E0 & Eo & _)].
    + by apply (proj2 (proj2 (Hg v vn Hin Hv)) d).
    + apply (iv_dev _ _ _ _ HI v vn0 d E0). congruence.
Qed.

Lemma inv_quiet c n s h x' : vfs_inv c n s h -> quiet (st s) x' -> vfs_inv c n (with_st s x') h.
Proof.
  intros HI Hq. rewrite <- (right_id_L ∅ disj_union h).
  apply (inv_steps c n s h x' ∅ ∅); [by rewrite (right_id_L ∅ disj_union h) | done | multiset_solver].
Qed.

Lemma quiet_refl x : fs_inv x -> vnodes_ok x -> quiet x x.
Proof. intros Hi Hv. split; [ | done]. split; [done | done | done |]. intros v vn vn' E E'. rewrite E in E'. by injection E' as ->. Qed.

(** ** The big lock *)

Lemma inv_biglock c n n' s h lk d :
  vfs_inv c n s h -> mine (with_biglock s lk d) c n' -> vfs_inv c n' (with_biglock s lk d) h.
Proof. intros [? ? ? ? ? ? ? Hkd ? ?] Hm. split; try done. intros kd Hk. by destruct (Hkd kd Hk). Qed.

Lemma mine_holds s c n : mine s c n -> lock_do_i_hold (vfs_biglock s) (thr c) = negb (n =? 0).
Proof.
  intros [_ _ _ Hl]. unfold lock_do_i_hold. destruct (n =? 0); destruct Hl as [_ ->]; cbn.
  - by apply bool_decide_eq_false.
  - by apply bool_decide_eq_true.
Qed.

Lemma biglock_acquire_ok c n s h :
  vfs_inv c n s h -> runs (vfs_biglock_acquire s c) (fun s' => vfs_inv c (n + 1) s' h /\ st s' = st s).
Proof.
  intros HI. pose proof (iv_lock _ _ _ _ HI) as Hm. pose proof (mi_pos _ _ _ Hm) as Hpos. unfold vfs_biglock_acquire.
  rewrite (mine_holds s c n Hm). destruct Hm as [Hd _ Hi Hl].
  destruct (Z.eqb_spec n 0) as [-> | Hn]; cbn [negb] in *.
  - unfold lock_acquire, lock_acquire_loop. rewrite Hi. destruct Hl as [Hc Hh]. rewrite Hc. cbn.
    split; [ | done]. apply (inv_biglock c 0); [done |]. split; cbn; [lia | lia | done | by rewrite ?Hc].
  - cbn. split; [ | done]. apply (inv_biglock c n); [done |]. split; cbn; [lia | lia | done |].
    destruct (Z.eqb_spec (n + 1) 0); [lia | done].
Qed.

Lemma biglock_release_ok c n s h :
  vfs_inv c (n + 1) s h -> 0 <= n -> runs (vfs_biglock_release s c) (fun s' => vfs_inv c n s' h /\ st s' = st s).
Proof.
  intros HI Hpos. pose proof (iv_lock _ _ _ _ HI) as Hm. unfold vfs_biglock_release.
  rewrite (mine_holds s c _ Hm). destruct Hm as [Hd _ Hi Hl]. destruct (Z.eqb_spec (n + 1) 0) as [ | Hn]; [lia |].
  cbn [negb kassert]. rewrite Hd. replace (0 <? n + 1) with true by lia. cbn [kassert].
  replace (n + 1 - 1) with n by lia. destruct Hl as [Hc Hh]. destruct (Z.eqb_spec n 0) as [-> | Hz].
  - unfold lock_release, lock_do_i_hold. rewrite Hh, Hc. rewrite bool_decide_eq_true_2 by done. cbn.
    split; [ | done]. apply (inv_biglock c (0 + 1)); [done |]. split; cbn; done.
  - cbn. split; [ | done]. apply (inv_biglock c (n + 1)); [done |]. split; cbn; [lia | lia | done |].
    by destruct (Z.eqb_spec n 0).
Qed.

Lemma release_shape s c s' : vfs_biglock_release s c = Ok s' -> exists lk d, s' = with_biglock s lk d.
Proof. unfold vfs_biglock_release. intros E. res_inv. destruct (_ =? 0); res_inv; eauto. Qed.

Lemma acquire_shape s c s' : vfs_biglock_acquire s c = Ok s' -> exists lk d, s' = with_biglock s lk d.
Proof.
  unfold vfs_biglock_acquire. destruct (lock_do_i_hold _ _); intros E; res_inv; [eauto |].
  match goal with x : lock * bool |- _ => destruct x as [lk []] end; res_inv; eauto.
Qed.

Lemma biglock_held c n s h : vfs_inv c (n + 1) s h -> 0 <= n -> vfs_biglock_do_i_hold s c = true.
Proof.
  intros HI Hn. unfold vfs_biglock_do_i_hold. rewrite (mine_holds s c (n + 1)) by apply HI.
  destruct (Z.eqb_spec (n + 1) 0); [lia | done].
Qed.

(** ** Operations on vnodes *)

Lemma vnode_check_ok c n s h v vn :
  vfs_inv c n s h -> vnodes (st s) !! v = Some vn ->
  runs (vnode_check s c v) (fun a => vfs_inv c n a.1 h /\ st a.1 = st s /\ a.2 = vn).
Proof.
  intros HI Hv. unfold vnode_check.
  eapply runs_bind; [by apply (biglock_acquire_ok c n s h) |]. intros s1 [HI1 E1].
  rewrite E1, Hv. cbn [access rbind]. pose proof (vk_pos _ (iv_vn _ _ _ _ HI) v vn Hv).
  destruct (Z.leb_spec (vn_refcount vn) 0); [lia |].
  eapply runs_bind; [apply (biglock_release_ok c n s1 h HI1), (iv_lock _ _ _ _ HI) |]. intros s2 [HI2 E2].
  cbn. by rewrite E2.
Qed.

(** The entry of either table. *)
Definition entry_ok s (v : Z) {A} (dev : option Z -> res A) (fs : res A) (Q : A -> Prop) : Prop :=
  (forall d, is_Some (devices s !! d) -> is_Some (vnodes (st s) !! v) -> runs (dev (Some d)) Q) /\
  (forall f, vnode_of (st s) v f -> listed (knowndevs s) f -> runs fs Q).

Lemma dispatch_ok c n s h v vn {A} (dev : option Z -> res A) (fs : res A) (Q : A -> Prop) :
  vfs_inv c n s h -> v ∈ h -> vnodes (st s) !! v = Some vn -> entry_ok s v dev fs Q ->
  runs (match vn_ops vn with DevOps d => dev d | FsOps => fs end) Q.
Proof.
  intros HI Hv Hvn [Hd Hf]. pose proof (iv_held _ _ _ _ HI v vn Hv Hvn) as Hu.
  destruct (vn_ops vn) as [[d | ] | ] eqn:Ho; [apply Hd; eauto | done |].
  destruct (fs_vnode _ _ _ (iv_vn _ _ _ _ HI) Hvn Ho) as [f Hv']. apply (Hf f Hv'). by apply (iv_listed _ _ _ _ HI v).
Qed.

Lemma VOP_ok c n s h v dev fs :
  vfs_inv c n s h -> v ∈ h -> entry_ok s v dev fs (fun a => quiet (st s) a.1) ->
  runs (VOP s c v dev fs) (fun a => vfs_inv c n a.1 h).
Proof.
  intros HI Hv He. destruct (held_vnode _ _ _ _ v HI Hv) as (vn & Hvn & _). unfold VOP.
  eapply runs_bind; [by apply (vnode_check_ok c n s h v vn) |]. intros [s1 vn1] (HI1 & E1 & Ev). cbn [fst snd] in *. subst vn1.
  eapply runs_bind; [by apply (dispatch_ok c n s h v vn dev fs _ HI) |]. intros [x r] Hq. cbn.
  apply inv_quiet; [done |]. by rewrite E1.
Qed.

Lemma VOPuio_ok c n s h v dev fs :
  vfs_inv c n s h -> v ∈ h -> entry_ok s v dev fs (fun a => quiet (st s) a.1.1) ->
  runs (VOPuio s c v dev fs) (fun a => vfs_inv c n a.1.1 h).
Proof.
  intros HI Hv He. destruct (held_vnode _ _ _ _ v HI Hv) as (vn & Hvn & _). unfold VOPuio.
  eapply runs_bind; [by apply (vnode_check_ok c n s h v vn) |]. intros [s1 vn1] (HI1 & E1 & Ev). cbn [fst snd] in *. subst vn1.
  eapply runs_bind; [by apply (dispatch_ok c n s h v vn dev fs _ HI) |]. intros [[x u] r] Hq. cbn.
  apply inv_quiet; [done |]. by rewrite E1.
Qed.

(** A call that hands the caller a reference if it returns 0. *)
Definition returns_vnode c (n : Z) (h : gmultiset Z) (a : vfs F * Z * option Z) : Prop :=
  let '(s', r, o) := a in
  if r =? 0 then exists v, o = Some v /\ vfs_inv c n s' (h ⊎ {[+ v +]}) else vfs_inv c n s' h.

Lemma inv_hands_back c n s h f x r o :
  vfs_inv c n s h -> listed (knowndevs s) f -> hands_back (st s) f (x, r, o) -> returns_vnode c n h (with_st s x, r, o).
Proof.
  intros HI Hl Hb. cbn in *. destruct (r =? 0); [ | by apply inv_quiet].
  destruct Hb as (v & -> & Hv & Hs). exists v. split; [done |].
  apply (inv_steps c n s h x _ ∅); [by rewrite (right_id_L ∅ disj_union h) | done |].
  intros w vn Hw E. assert (w = v) as -> by multiset_solver. destruct Hv as [k Hv]. simplify_eq/=. naive_solver.
Qed.

(** ** Taking and giving up references *)

Lemma refcount_moved x v vn k :
  fs_inv x -> vnodes_ok x -> vnodes x !! v = Some vn -> 0 < k ->
  let x' := set_refcount x v vn k in
  fs_inv x' /\ vnodes_ok x' /\ (forall w, refs x' w = if decide (w = v) then k else refs x w) /\
  (forall w vw vw', vnodes x !! w = Some vw -> vnodes x' !! w = Some vw' -> vn_fs vw' = vn_fs vw /\ vn_ops vw' = vn_ops vw).
Proof.
  intros Hi Hok Hv Hk x'. destruct (refcount_frame x v vn k Hok Hv Hk) as (Hfr & Hr & Hs).
  split; [by apply (law_frame x) |]. split; [apply Hfr | done].
Qed.

Lemma incref_steps x v vn :
  fs_inv x -> vnodes_ok x -> vnodes x !! v = Some vn ->
  runs (vnode_incref x v) (fun x' => steps x x' {[+ v +]} ∅ /\
    exists k, vnodes x' !! v = Some (mkVnode k (vn_fs vn) (vn_ops vn))).
Proof.
  intros Hi Hok Hv. unfold vnode_incref. rewrite Hv. cbn. pose proof (vk_pos _ Hok v vn Hv).
  destruct (refcount_moved x v vn (vn_refcount vn + 1)) as (Hi' & Hok' & Hr & Hs); [done | done | done | lia |].
  split; [split; [split; try done |]; [ | done] | ].
  - intros w. rewrite Hr, multiplicity_empty. case_decide as Hw; [ | rewrite multiplicity_singleton_ne by done; lia].
    subst. unfold refs. rewrite Hv, multiplicity_singleton_eq. cbn. lia.
  - eexists. cbn. by rewrite lookup_insert_eq.
Qed.

Lemma incref_ok c n s h v vn :
  vfs_inv c n s h -> vnodes (st s) !! v = Some vn -> usable s (vn_ops vn) ->
  runs (VOP_INCREF s v) (fun s' => vfs_inv c n s' (h ⊎ {[+ v +]}) /\
    exists k, vnodes (st s') !! v = Some (mkVnode k (vn_fs vn) (vn_ops vn))).
Proof.
  intros HI Hv Hu. unfold VOP_INCREF.
  eapply runs_bind; [apply (incref_steps (st s) v vn); [apply HI | apply HI | done] |]. intros x [Hs [k Hk]]. cbn.
  split; [ | eauto]. apply (inv_steps c n s h x _ ∅); [by rewrite (right_id_L ∅ disj_union h) | done |].
  intros w vw Hw E. assert (w = v) as -> by multiset_solver. rewrite Hk in E. injection E as <-. cbn. split; [done |].
  split; [ | intros d Hd; by apply (iv_dev _ _ _ _ HI v vn d)]. intros f Hf. destruct vn as [m fs ops]; cbn in *. subst fs.
  apply (iv_listed _ _ _ _ HI v). exists m. rewrite Hv. f_equal. f_equal.
  apply (vk_fs _ (iv_vn _ _ _ _ HI) v _ Hv). cbn. eauto.
Qed.

Lemma decref_steps x v vn :
  fs_inv x -> vnodes_ok x -> vnodes x !! v = Some vn -> 1 < vn_refcount vn ->
  steps x (set_refcount x v vn (vn_refcount vn - 1)) ∅ {[+ v +]}.
Proof.
  intros Hi Hok Hv Hk.
  destruct (refcount_moved x v vn (vn_refcount vn - 1)) as (Hi' & Hok' & Hr & Hs); [done | done | done | lia |].
  split; [split; try done |]; [ | done].
  intros w. rewrite Hr, multiplicity_empty. case_decide as Hw; [ | rewrite multiplicity_singleton_ne by done; lia].
  subst. unfold refs. rewrite Hv, multiplicity_singleton_eq. cbn. lia.
Qed.

(** A device has the reference of the list, so the last one of a caller is not
    the last. *)
Lemma device_pinned c n s h v vn d :
  vfs_inv c n s h -> v ∈ h -> vnodes (st s) !! v = Some vn -> vn_ops vn = DevOps d -> 1 < vn_refcount vn.
Proof.
  intros HI Hv E Ho. pose proof (iv_refs _ _ _ _ HI v) as R. unfold refs in R. rewrite E in R. cbn in R.
  assert (Hk : v ∈ kd_refs (knowndevs s)) by (apply elem_of_list_to_set_disj; by apply (iv_dev _ _ _ _ HI v vn d)).
  unfold owned in R. rewrite !multiplicity_disj_union in R. rewrite elem_of_multiplicity in Hv, Hk. lia.
Qed.

Lemma held_split (h : gmultiset Z) v : v ∈ h -> h = (h ∖ {[+ v +]}) ⊎ {[+ v +]}.
Proof. multiset_solver. Qed.

Lemma decref_ok c n s h v :
  vfs_inv c n s h -> v ∈ h -> runs (VOP_DECREF s c v) (fun s' => vfs_inv c n s' (h ∖ {[+ v +]})).
Proof.
  intros HI Hv. destruct (held_vnode _ _ _ _ v HI Hv) as (vn & Hvn & _). unfold VOP_DECREF. rewrite Hvn. cbn [access rbind].
  pose proof (vk_pos _ (iv_vn _ _ _ _ HI) v vn Hvn). destruct (Z.ltb_spec 0 (vn_refcount vn)); [ | lia]. cbn [kassert].
  assert (Hgive : forall x s', vfs_inv c n s' h -> st s' = st s -> steps (st s) x ∅ {[+ v +]} -> vfs_inv c n (with_st s' x) (h ∖ {[+ v +]})).
  { intros x s' HI' E Hs. rewrite (held_split h v Hv) in HI'. rewrite <- (right_id_L ∅ disj_union (h ∖ _)).
    apply (inv_steps c n s' _ x ∅ _ HI'); [by rewrite E | multiset_solver]. }
  destruct (Z.ltb_spec 1 (vn_refcount vn)) as [Hgt | Hle].
  - apply Hgive; [done | done |]. by apply decref_steps; [apply HI | apply HI | |].
  - unfold VOP_RECLAIM, VOP.
    apply (runs_bind _ _ (fun a => vfs_inv c n a.1 (h ∖ {[+ v +]}))); [eapply runs_bind; [by apply (vnode_check_ok c n s h v vn) |] | ].
    { intros [s1 vn1] (HI1 & E1 & Ev). cbn [fst snd] in *. subst vn1.
      destruct (vn_ops vn) as [d | ] eqn:Ho; [pose proof (device_pinned _ _ _ _ _ _ _ HI Hv Hvn Ho); lia |].
      destruct (fs_vnode _ _ _ (iv_vn _ _ _ _ HI) Hvn Ho) as [f Hf].
      eapply runs_bind; [apply (law_reclaim (st s) v f); [apply HI | apply HI | done] |]. intros [x r] Hs. cbn in Hs.
      by apply Hgive. }
    intros [s2 r] HI2. exact HI2.
Qed.

Lemma VOPret_ok c n s h v dev fs :
  vfs_inv c n s h -> v ∈ h ->
  entry_ok s v dev fs (fun a => forall s', vfs_inv c n s' h -> st s' = st s -> returns_vnode c n h (with_st s' a.1.1, a.1.2, a.2)) ->
  runs (VOPret s c v dev fs) (returns_vnode c n h).
Proof.
  intros HI Hv He. destruct (held_vnode _ _ _ _ v HI Hv) as (vn & Hvn & _). unfold VOPret.
  eapply runs_bind; [by apply (vnode_check_ok c n s h v vn) |]. intros [s1 vn1] (HI1 & E1 & Ev). cbn [fst snd] in *. subst vn1.
  eapply runs_bind; [by apply (dispatch_ok c n s h v vn dev fs _ HI) |]. intros [[x r] o] Hq. by apply (Hq s1).
Qed.

Lemma hands_back_at c n s h v f a s' :
  hands_back (st s) f a -> vnode_of (st s) v f -> vfs_inv c n s' h -> st s' = st s ->
  returns_vnode c n h (with_st s' a.1.1, a.1.2, a.2).
Proof.
  destruct a as [[x r] o]. intros Hb Hv HI' E. apply (inv_hands_back _ _ _ _ f); [done | | by rewrite E].
  apply (iv_listed _ _ _ _ HI' v). by rewrite E.
Qed.

Lemma VOP_CREAT_ok c n s h v name excl mode :
  vfs_inv c n s h -> v ∈ h -> runs (VOP_CREAT s c v name excl mode) (returns_vnode c n h).
Proof.
  intros HI Hv. apply VOPret_ok; [done | done |]. split.
  - intros d _ _. cbn. intros s' HI' E. rewrite <- E. apply inv_quiet; [done |]. apply quiet_refl; apply HI'.
  - intros f Hf _. eapply runs_mono; [apply (law_creat _ _ f); [apply HI | apply HI | done] |].
    intros a Ha s' HI' E. by apply (hands_back_at c n s h v f).
Qed.

Lemma VOP_LOOKUP_ok c n s h v path :
  vfs_inv c n s h -> v ∈ h -> path <> [] -> runs (VOP_LOOKUP s c v path) (returns_vnode c n h).
Proof.
  intros HI Hv Hp. apply VOPret_ok; [done | done |]. split.
  - intros d _ _. unfold dev_lookup. destruct path as [ | ch path]; [done |].
    destruct (Z.ltb_spec 0 (zlen (ch :: path))) as [_ | E]; [ | unfold zlen in E; cbn in E; lia].
    cbn. intros s' HI' E. rewrite <- E. apply inv_quiet; [done |]. apply quiet_refl; apply HI'.
  - intros f Hf _. eapply runs_mono; [apply (law_lookup _ _ f); [apply HI | apply HI | done | done] |].
    intros a Ha s' HI' E. by apply (hands_back_at c n s h v f).
Qed.

Lemma VOP_LOOKPARENT_ok c n s h v path len :
  vfs_inv c n s h -> v ∈ h -> path <> [] ->
  runs (VOP_LOOKPARENT s c v path len) (fun a => returns_vnode c n h a.1).
Proof.
  intros HI Hv Hp. destruct (held_vnode _ _ _ _ v HI Hv) as (vn & Hvn & _). unfold VOP_LOOKPARENT.
  eapply runs_bind; [by apply (vnode_check_ok c n s h v vn) |]. intros [s1 vn1] (HI1 & E1 & Ev). cbn [fst snd] in *. subst vn1.
  apply (runs_bind _ _ (fun a => returns_vnode c n h (with_st s1 a.1.1.1, a.1.1.2, a.1.2))).
  - apply (dispatch_ok c n s1 h v vn (fun _ => Ok (st s1, ENOTDIR, None, [])) _ _ HI1 Hv); [by rewrite E1 |]. split.
    + intros d _ _. cbn. apply inv_quiet; [done |]. apply quiet_refl; apply HI1.
    + intros f Hf _. eapply runs_mono; [apply (law_lookparent _ _ f); [apply HI1 | apply HI1 | done | done] |].
      intros [[[x r] o] nm] Ha. by apply (hands_back_at c n s1 h v f (x, r, o)).
  - intros [[[x r] o] nm] Ha. exact Ha.
Qed.

Lemma VOP_GETTYPE_ok c n s h v :
  vfs_inv c n s h -> v ∈ h ->
  runs (VOP_GETTYPE s c v) (fun a => vfs_inv c n a.1.1 h /\ st a.1.1 = st s /\
    (a.1.2 = S_IFDIR -> exists f, vnode_of (st s) v f)).
Proof.
  intros HI Hv. destruct (held_vnode _ _ _ _ v HI Hv) as (vn & Hvn & _). unfold VOP_GETTYPE.
  eapply runs_bind; [by apply (vnode_check_ok c n s h v vn) |]. intros [s1 vn1] (HI1 & E1 & Ev). cbn [fst snd] in *. subst vn1.
  apply (runs_bind _ _ (fun a => a.1 = S_IFDIR -> exists f, vnode_of (st s) v f)).
  - rewrite <- E1. apply (dispatch_ok c n s1 h v vn (dev_gettype s1) _ _ HI1 Hv); [by rewrite E1 |]. split.
    + intros d [dev Hd] _. unfold dev_gettype, get_device. cbn. rewrite Hd. cbn. destruct (0 <? d_blocks dev); intros [=].
    + intros f Hf _. eapply runs_mono; [by apply (law_gettype _ _ f); [apply HI1 | apply HI1 | ] |]. eauto.
  - intros [ty r] Ht. cbn in *. done.
Qed.

(** The operations that do not hand out vnodes. *)
Ltac vop_law law :=
  intros HI Hv; apply VOP_ok; [done | done |]; split;
  [ intros d Hd _; try (apply quiet_refl; apply HI)
  | intros f Hf _; eapply runs_mono; [eapply law; [apply HI | apply HI | ..]; try done | done] ].

Lemma VOP_SYMLINK_ok c n s h v a b : vfs_inv c n s h -> v ∈ h -> runs (VOP_SYMLINK s c v a b) (fun a => vfs_inv c n a.1 h).
Proof. vop_law law_symlink. Qed.
Lemma VOP_MKDIR_ok c n s h v a b : vfs_inv c n s h -> v ∈ h -> runs (VOP_MKDIR s c v a b) (fun a => vfs_inv c n a.1 h).
Proof. vop_law law_mkdir. Qed.
Lemma VOP_REMOVE_ok c n s h v a : vfs_inv c n s h -> v ∈ h -> runs (VOP_REMOVE s c v a) (fun a => vfs_inv c n a.1 h).
Proof. vop_law law_remove. Qed.
Lemma VOP_RMDIR_ok c n s h v a : vfs_inv c n s h -> v ∈ h -> runs (VOP_RMDIR s c v a) (fun a => vfs_inv c n a.1 h).
Proof. vop_law law_rmdir. Qed.

Lemma VOP_EACHOPEN_ok c n s h v flags :
  vfs_inv c n s h -> v ∈ h -> runs (VOP_EACHOPEN s c v flags) (fun a => vfs_inv c n a.1 h).
Proof.
  vop_law law_eachopen. unfold dev_eachopen. case_if; [apply quiet_refl; apply HI |].
  destruct Hd as [dev Hd]. unfold get_device. cbn. rewrite Hd. cbn. apply law_dev_eachopen; apply HI.
Qed.

Lemma VOP_TRUNCATE_ok c n s h v len :
  vfs_inv c n s h -> v ∈ h -> runs (VOP_TRUNCATE s c v len) (fun a => vfs_inv c n a.1 h).
Proof.
  vop_law law_truncate. unfold dev_truncate, get_device. destruct Hd as [dev Hd]. cbn. rewrite Hd. cbn.
  case_if; apply quiet_refl; apply HI.
Qed.

Lemma VOP_READLINK_ok c n s h v u :
  vfs_inv c n s h -> v ∈ h -> runs (VOP_READLINK s c v u) (fun a => vfs_inv c n a.1.1 h).
Proof.
  intros HI Hv. apply VOPuio_ok; [done | done |]. split; [intros d _ _; apply quiet_refl; apply HI |].
  intros f Hf _. by apply (law_readlink _ _ f); [apply HI | apply HI |].
Qed.

Lemma VOP_NAMEFILE_ok c n s h v u :
  vfs_inv c n s h -> v ∈ h -> runs (VOP_NAMEFILE s c v u) (fun a => vfs_inv c n a.1.1 h).
Proof.
  intros HI Hv. apply VOPuio_ok; [done | done |]. split; [intros d _ _; apply quiet_refl; apply HI |].
  intros f Hf _. by apply (law_namefile _ _ f); [apply HI | apply HI |].
Qed.

Lemma decref_to c n s h h' v :
  vfs_inv c n s h -> h = h' ⊎ {[+ v +]} -> runs (VOP_DECREF s c v) (fun s' => vfs_inv c n s' h').
Proof.
  intros HI ->. eapply runs_mono; [apply (decref_ok c n s _ v HI); multiset_solver |].
  intros s'. cbn. by replace ((h' ⊎ {[+ v +]}) ∖ {[+ v +]}) with h' by multiset_solver.
Qed.

(** ** Names to vnodes *)

Lemma getroot_device_ok c n s h kd :
  vfs_inv c n s h -> kd ∈ knowndevs s -> is_Some (kd_device kd) -> runs (getroot_device s kd) (returns_vnode c n h).
Proof.
  intros HI Hk Hd. unfold getroot_device. rewrite bool_decide_eq_true_2 by done. cbn [kassert].
  destruct (iv_kd _ _ _ _ HI kd Hk) as [[k Hv] Hdev _ _]. destruct Hd as [d Hd].
  eapply runs_bind; [apply (incref_ok c n s h _ _ HI Hv); cbn; rewrite Hd; by apply Hdev |].
  intros s' [HI' _]. cbn. eauto.
Qed.

Lemma fsop_getroot_ok c n s h f :
  vfs_inv c n s h -> listed (knowndevs s) f -> runs (FSOP_GETROOT s f) (returns_vnode c n h).
Proof.
  intros HI Hl. unfold FSOP_GETROOT. destruct Hl as (kd & Hk & Hf).
  eapply runs_bind; [apply (law_getroot _ f); [apply HI | apply HI | by apply (iv_kd _ _ _ _ HI kd Hk)] |].
  intros [[x r] o] Hb. apply (inv_hands_back _ _ _ _ f); [done | by exists kd | done].
Qed.

Lemma getroot_loop_ok c n s h devname (l : list knowndev) :
  vfs_inv c n s h -> (forall kd, kd ∈ l -> kd ∈ knowndevs s) -> runs (getroot_loop l s devname) (returns_vnode c n h).
Proof.
  intros HI. induction l as [ | kd l IH]; intros Hl; cbn [getroot_loop]; [done |].
  assert (Hk : kd ∈ knowndevs s) by (apply Hl; left).
  assert (IH' : runs (getroot_loop l s devname) (returns_vnode c n h)) by (apply IH; intros k' Hk'; apply Hl; by right).
  pose proof (ko_real _ _ (iv_kd _ _ _ _ HI kd Hk)) as Hreal.
  assert (Hraw : runs (if bool_decide (kd_rawname kd = Some devname) then getroot_device s kd else getroot_loop l s devname) (returns_vnode c n h)).
  { case_bool_decide as Hr; [ | done]. apply getroot_device_ok; [done | done |]. apply Hreal. left. by rewrite Hr. }
  destruct (kd_fs kd) as [f | ] eqn:Hf.
  - destruct (bool_decide (kd_name kd = devname) || bool_decide _) eqn:Hb; [apply fsop_getroot_ok; [done | by exists kd] |].
    by apply orb_false_iff in Hb as [-> _].
  - destruct (bool_decide (is_Some (kd_rawname kd)) && _) eqn:Hb; [done |]. destruct (bool_decide (kd_name kd = devname)); [ | exact Hraw].
    rewrite (bool_decide_eq_true_2 (None = None)) by done. cbn [kassert].
    destruct (kd_rawname kd) as [r | ]; [by rewrite bool_decide_eq_true_2 in Hb by eauto |].
    cbn [kassert]. rewrite bool_decide_eq_true_2 by done. cbn [kassert]. apply getroot_device_ok; [done | done |]. apply Hreal. by right.
Qed.

Lemma vfs_getroot_ok c n s h devname :
  vfs_inv c (n + 1) s h -> 0 <= n -> runs (vfs_getroot s c devname) (returns_vnode c (n + 1) h).
Proof.
  intros HI Hn. unfold vfs_getroot. rewrite (biglock_held c n s h) by done. cbn [kassert]. by apply getroot_loop_ok.
Qed.

(** The current directory, which is in some file system. *)
Definition returns_dir c (n : Z) (h : gmultiset Z) (a : vfs F * Z * option Z) : Prop :=
  let '(s', r, o) := a in
  (r = 0 /\ exists v f, o = Some v /\ vfs_inv c n s' (h ⊎ {[+ v +]}) /\ vnode_of (st s') v f) \/
  (r = ENOENT /\ vfs_inv c n s' h).

Lemma vfs_getcurdir_ok c n s h : vfs_inv c n s h -> runs (vfs_getcurdir s c) (returns_dir c n h).
Proof.
  intros HI. unfold vfs_getcurdir. destruct (p_cwd s !! curproc c) as [v | ] eqn:E; [ | by right].
  destruct (iv_cwd _ _ _ _ HI _ v E) as (f & k & Hv).
  eapply runs_bind; [by apply (incref_ok c n s h v _ HI Hv) |]. intros s' [HI' [k' Hk']]. cbn in *. left.
  split; [done |]. exists v, f. split; [done | split; [done | by exists k']].
Qed.

Lemma returns_dir_vnode c n h a : returns_dir c n h a -> returns_vnode c n h a.
Proof. destruct a as [[s r] o]. intros [(-> & v & f & -> & HI & _) | [-> HI]]; cbn; eauto. Qed.

(** A relative start: the root of the current directory's file system. *)
Lemma current_root_ok c n s h :
  vfs_inv c n s h ->
  runs (let* (s, result, vn) := vfs_getcurdir s c in
        if negb (result =? 0) then Ok (s, result, None)
        else
        let* v := access vn in
        let* vnode := access (vnodes (st s) !! v) in
        match vn_fs vnode with
        | None => Fault Assertion
        | Some fs =>
          let* (s, result, startvn) := FSOP_GETROOT s fs in
          let* s := VOP_DECREF s c v in
          Ok (s, result, startvn)
        end) (returns_vnode c n h).
Proof.
  intros HI. eapply runs_bind; [by apply (vfs_getcurdir_ok c n s h) |].
  intros [[s1 r1] o1] [(-> & v & f & -> & HI1 & [k Hv]) | [-> HI1]]; [ | done].
  cbn. rewrite Hv. cbn.
  eapply runs_bind; [apply (fsop_getroot_ok c n s1 _ f HI1); apply (iv_listed _ _ _ _ HI1 v); by exists k |].
  intros [[s2 r2] o2] H2. cbn in H2. destruct (r2 =? 0) eqn:Er.
  - destruct H2 as (w & -> & HI2). eapply runs_bind; [apply (decref_to c n s2 _ (h ⊎ {[+ w +]}) v HI2); multiset_solver |].
    intros s3 HI3. cbn. rewrite Er. eauto.
  - eapply runs_bind; [by apply (decref_to c n s2 _ h v H2) |]. intros s3 HI3. cbn. by rewrite Er.
Qed.

Lemma getdevice_ok c n s h path :
  vfs_inv c (n + 1) s h -> 0 <= n ->
  runs (getdevice s c path) (fun a => returns_vnode c (n + 1) h (a.1.1.1, a.1.1.2, a.2)).
Proof.
  intros HI Hn. unfold getdevice. rewrite (biglock_held c n s h) by done. cbn [kassert].
  destruct (scan path 0) as [colon slash] eqn:Es.
  assert (Hs : (colon = -1 \/ 0 <= colon /\ (colon = 0 -> head path = Some 58)) /\
               (slash = -1 \/ 0 <= slash /\ (slash = 0 -> head path = Some 47))).
  { assert (G : forall p i a b, scan p i = (a, b) -> 0 <= i -> (a = -1 \/ i <= a /\ (a = i -> head p = Some 58)) /\ (b = -1 \/ i <= b /\ (b = i -> head p = Some 47))).
    { clear. induction p as [ | ch p IH]; intros i a b; cbn; [intros [= <- <-]; lia |].
      repeat case_if; subst; [intros [= <- <-] Hi; split; [right; split; [lia | done] | by left] |
                      intros [= <- <-] Hi; split; [by left | right; split; [lia | done]] |].
      intros E Hi. destruct (IH (i + 1) a b E) as [Ha Hb]; [lia |]. split; [destruct Ha as [ | []]; [by left | right] | destruct Hb as [ | []]; [by left | right]]; split; lia. }
    by apply (G path 0). }
  destruct ((colon <? 0) && negb (slash =? 0)) eqn:Heqb.
  - eapply runs_bind; [by apply (vfs_getcurdir_ok c (n + 1) s h) |]. intros [[s1 r1] o1] Hr. cbn.
    by apply (returns_dir_vnode _ _ _ (s1, r1, o1)).
  - destruct (Z.ltb_spec 0 colon).
    + eapply runs_bind; [by apply (vfs_getroot_ok c n s h) |]. intros [[s1 r1] o1] Hr. exact Hr.
    + assert (Hz : colon = 0 \/ slash = 0).
      { apply andb_false_iff in Heqb as [Hb | Hb]; bool_inv; lia. }
      replace ((colon =? 0) || (slash =? 0)) with true by (destruct Hz as [-> | ->]; [done | by rewrite orb_true_r]). cbn [kassert].
      apply (runs_bind _ _ (returns_vnode c (n + 1) h)); [ | by intros [[s1 r1] o1] Hr].
      case_bool_decide as Hh.
      * destruct (bootfs_vnode s) as [v | ] eqn:Eb; [ | done]. destruct (iv_boot _ _ _ _ HI v Eb) as (f & k & Hv).
        eapply runs_bind; [by apply (incref_ok c (n + 1) s h v _ HI Hv) |]. intros s' [HI' _]. cbn. eauto.
      * rewrite bool_decide_eq_true_2; [by apply current_root_ok |]. destruct Hs as [[ | [_ Hc]] [ | [_ Hs]]]; naive_solver lia.
Qed.

Lemma release_then c n s h {A} (a : vfs F -> A) (Q : A -> Prop) :
  vfs_inv c (n + 1) s h -> 0 <= n -> (forall s', vfs_inv c n s' h -> Q (a s')) ->
  runs (let* s := vfs_biglock_release s c in Ok (a s)) Q.
Proof.
  intros HI Hn HQ. eapply runs_bind; [by apply (biglock_release_ok c n s h) |]. intros s' [HI' _]. by apply HQ.
Qed.

Lemma zlen_zero (l : list Z) : zlen l =? 0 = false -> l <> [].
Proof. by intros E ->. Qed.

Lemma vfs_lookparent_ok c n s h path len :
  vfs_inv c n s h -> runs (vfs_lookparent s c path len) (fun a => returns_vnode c n h a.1).
Proof.
  intros HI. assert (Hn : 0 <= n) by apply (iv_lock _ _ _ _ HI). unfold vfs_lookparent.
  eapply runs_bind; [by apply (biglock_acquire_ok c n s h) |]. intros s1 [HI1 _].
  eapply runs_bind; [by apply (getdevice_ok c n s1 h) |]. intros [[[s2 r2] sub] o2] H2. cbn in H2.
  destruct (r2 =? 0) eqn:Er; cbn [negb]; [ | apply (release_then c n s2 h); [done | done |]; intros s3 HI3; cbn; by rewrite Er].
  destruct H2 as (v & -> & HI2). cbn [access rbind].
  apply (runs_bind _ _ (fun a => returns_vnode c (n + 1) (h ⊎ {[+ v +]}) a.1)).
  - destruct (zlen sub =? 0) eqn:Ez; [done |]. apply VOP_LOOKPARENT_ok; [done | multiset_solver | by apply zlen_zero].
  - intros [[[s3 r3] o3] nm] H3. cbn in H3. destruct (r3 =? 0) eqn:E3.
    + destruct H3 as (w & -> & HI3). eapply runs_bind; [apply (decref_to c _ s3 _ (h ⊎ {[+ w +]}) v HI3); multiset_solver |].
      intros s4 HI4. apply (release_then c n s4 _ (fun s => (s, r3, Some w, nm)) _ HI4 Hn). intros s5 HI5. cbn. rewrite E3. eauto.
    + eapply runs_bind; [by apply (decref_to c _ s3 _ h v H3) |].
      intros s4 HI4. apply (release_then c n s4 _ (fun s => (s, r3, o3, nm)) _ HI4 Hn). intros s5 HI5. cbn. by rewrite E3.
Qed.

Lemma vfs_lookup_ok c n s h path : vfs_inv c n s h -> runs (vfs_lookup s c path) (returns_vnode c n h).
Proof.
  intros HI. assert (Hn : 0 <= n) by apply (iv_lock _ _ _ _ HI). unfold vfs_lookup.
  eapply runs_bind; [by apply (biglock_acquire_ok c n s h) |]. intros s1 [HI1 _].
  eapply runs_bind; [by apply (getdevice_ok c n s1 h) |]. intros [[[s2 r2] sub] o2] H2. cbn in H2.
  destruct (r2 =? 0) eqn:Er; cbn [negb]; [ | apply (release_then c n s2 h); [done | done |]; intros s3 HI3; cbn; by rewrite Er].
  destruct H2 as (v & -> & HI2). cbn [access rbind].
  destruct (zlen sub =? 0) eqn:Ez; [apply (release_then c n s2 _ (fun s => (s, 0, Some v)) _ HI2 Hn); intros s3 HI3; cbn; eauto |].
  eapply runs_bind; [apply (VOP_LOOKUP_ok c _ s2 _ v sub HI2); [multiset_solver | by apply zlen_zero] |].
  intros [[s3 r3] o3] H3. cbn in H3. destruct (r3 =? 0) eqn:E3.
  - destruct H3 as (w & -> & HI3). eapply runs_bind; [apply (decref_to c _ s3 _ (h ⊎ {[+ w +]}) v HI3); multiset_solver |].
    intros s4 HI4. apply (release_then c n s4 _ (fun s => (s, r3, Some w)) _ HI4 Hn). intros s5 HI5. cbn. rewrite E3. eauto.
  - eapply runs_bind; [by apply (decref_to c _ s3 _ h v H3) |].
    intros s4 HI4. apply (release_then c n s4 _ (fun s => (s, r3, o3)) _ HI4 Hn). intros s5 HI5. cbn. by rewrite E3.
Qed.

(** ** The current directory and the boot file system *)

Lemma inv_owned c n s h h' b m :
  vfs_inv c n s h -> h' ⊎ owned (with_cwd (with_bootfs s b) m) = h ⊎ owned s ->
  (forall v, b = Some v -> exists f, vnode_of (st s) v f) ->
  (forall p v, m !! p = Some v -> exists f, vnode_of (st s) v f) ->
  (forall v vn, v ∈ h' -> vnodes (st s) !! v = Some vn -> usable s (vn_ops vn)) ->
  vfs_inv c n (with_cwd (with_bootfs s b) m) h'.
Proof.
  intros HI Ho Hb Hm Hh. split; try apply HI; try done.
  - destruct (iv_lock _ _ _ _ HI). by split.
  - intros v. rewrite Ho. apply HI.
  - intros kd Hk. by destruct (iv_kd _ _ _ _ HI kd Hk).
Qed.

Lemma replace_cwd_ok c n s h dir :
  vfs_inv c n s (h ⊎ opt_ref dir) -> (forall v, dir = Some v -> exists f, vnode_of (st s) v f) ->
  runs (replace_cwd s c dir) (fun s' => vfs_inv c n s' h).
Proof.
  intros HI Hd. unfold replace_cwd. set (m := partial_alter _ _ _).
  assert (HI' : vfs_inv c n (with_cwd (with_bootfs s (bootfs_vnode s)) m) (h ⊎ opt_ref (p_cwd s !! curproc c))).
  { apply (inv_owned c n s (h ⊎ opt_ref dir)); [done | | apply HI | |].
    - unfold owned. cbn [bootfs_vnode with_cwd with_bootfs p_cwd knowndevs].
      pose proof (cwd_refs_alter (p_cwd s) (curproc c) dir) as E. fold m in E. multiset_solver.
    - intros p v. unfold m. destruct (decide (p = curproc c)) as [-> | Hne].
      + rewrite lookup_partial_alter_eq. apply Hd.
      + rewrite lookup_partial_alter_ne by done. apply HI.
    - intros v vn Hv Hvn. apply gmultiset_elem_of_disj_union in Hv as [Hv | Hv]; [apply (iv_held _ _ _ _ HI v vn); [multiset_solver | done] |].
      destruct (p_cwd s !! curproc c) as [w | ] eqn:E; [ | multiset_solver]. assert (v = w) as -> by multiset_solver.
      destruct (iv_cwd _ _ _ _ HI _ w E) as (f & k & Ek). by rewrite Ek in Hvn; injection Hvn as <-. }
  change (with_cwd (with_bootfs s (bootfs_vnode s)) m) with (with_cwd s m) in HI'.
  destruct (p_cwd s !! curproc c) as [w | ]; [by apply (decref_to c n _ _ h w HI') |].
  cbn in *. by rewrite (right_id_L ∅ disj_union h) in HI'.
Qed.

Lemma change_bootfs_ok c n s h newvn :
  vfs_inv c n s (h ⊎ opt_ref newvn) -> (forall v, newvn = Some v -> exists f, vnode_of (st s) v f) ->
  runs (change_bootfs s c newvn) (fun s' => vfs_inv c n s' h).
Proof.
  intros HI Hd. unfold change_bootfs.
  assert (HI' : vfs_inv c n (with_cwd (with_bootfs s newvn) (p_cwd s)) (h ⊎ opt_ref (bootfs_vnode s))).
  { apply (inv_owned c n s (h ⊎ opt_ref newvn)); [done | | done | apply HI |].
    - unfold owned. cbn [bootfs_vnode with_cwd with_bootfs p_cwd knowndevs]. multiset_solver.
    - intros v vn Hv Hvn. apply gmultiset_elem_of_disj_union in Hv as [Hv | Hv]; [apply (iv_held _ _ _ _ HI v vn); [multiset_solver | done] |].
      destruct (bootfs_vnode s) as [w | ] eqn:E; [ | multiset_solver]. assert (v = w) as -> by multiset_solver.
      destruct (iv_boot _ _ _ _ HI w E) as (f & k & Ek). by rewrite Ek in Hvn; injection Hvn as <-. }
  change (with_cwd (with_bootfs s newvn) (p_cwd s)) with (with_bootfs s newvn) in HI'.
  destruct (bootfs_vnode s) as [w | ]; [by apply (decref_to c n _ _ h w HI') |].
  cbn in *. by rewrite (right_id_L ∅ disj_union h) in HI'.
Qed.

Lemma vfs_setcurdir_ok c n s h dir :
  vfs_inv c n s h -> dir ∈ h -> runs (vfs_setcurdir s c dir) (fun a => vfs_inv c n a.1 h).
Proof.
  intros HI Hv. unfold vfs_setcurdir.
  eapply runs_bind; [by apply (VOP_GETTYPE_ok c n s h dir) |]. intros [[s1 ty] r] (HI1 & E1 & Ht). cbn [fst snd] in *.
  destruct (r =? 0); cbn [negb]; [ | done]. destruct (Z.eqb_spec ty S_IFDIR) as [Hty | Hty]; cbn [negb]; [ | done].
  destruct (Ht Hty) as (f & k & Hd). rewrite <- E1 in Hd.
  eapply runs_bind; [by apply (incref_ok c n s1 h dir _ HI1 Hd) |]. intros s2 [HI2 [k2 Hk2]].
  eapply runs_bind; [apply (replace_cwd_ok c n s2 h (Some dir) HI2) |]; [ | by intros s3 HI3].
  intros v [= <-]. by exists f, k2.
Qed.

Lemma vfs_clearcurdir_ok c n s h : vfs_inv c n s h -> runs (vfs_clearcurdir s c) (fun a => vfs_inv c n a.1 h).
Proof.
  intros HI. unfold vfs_clearcurdir. eapply runs_bind; [apply (replace_cwd_ok c n s h None); [ | done] |]; [ | by intros s1 HI1].
  cbn. by rewrite (right_id_L ∅ disj_union h).
Qed.

Lemma vfs_chdir_ok c n s h path : vfs_inv c n s h -> runs (vfs_chdir s c path) (fun a => vfs_inv c n a.1 h).
Proof.
  intros HI. unfold vfs_chdir. eapply runs_bind; [by apply (vfs_lookup_ok c n s h) |]. intros [[s1 r] o] H1'. cbn in H1'.
  destruct (r =? 0) eqn:Er; cbn [negb]; [ | done]. destruct H1' as (v & -> & HI1). cbn [access rbind].
  eapply runs_bind; [apply (vfs_setcurdir_ok c n s1 _ v HI1); multiset_solver |]. intros [s2 r2] HI2. cbn in HI2.
  eapply runs_bind; [by apply (decref_to c n s2 _ h v HI2) |]. by intros s3 HI3.
Qed.

Lemma vfs_setbootfs_ok c n s h fsname : vfs_inv c n s h -> runs (vfs_setbootfs s c fsname) (fun a => vfs_inv c n a.1 h).
Proof.
  intros HI. assert (Hn : 0 <= n) by apply (iv_lock _ _ _ _ HI). unfold vfs_setbootfs.
  eapply runs_bind; [by apply (biglock_acquire_ok c n s h) |]. intros s1 [HI1 _].
  destruct (bool_decide _ && _); [by apply (release_then c n s1 h) |].
  eapply runs_bind; [by apply (vfs_chdir_ok c (n + 1) s1 h) |]. intros [s2 r2] HI2. cbn in HI2.
  destruct (r2 =? 0) eqn:E2; cbn [negb]; [ | by apply (release_then c n s2 h)].
  eapply runs_bind; [by apply (vfs_getcurdir_ok c (n + 1) s2 h) |].
  intros [[s3 r3] o3] [(-> & v & f & -> & HI3 & Hv) | [-> HI3]]; cbn [Z.eqb negb]; [ | by apply (release_then c n s3 h)].
  change (negb (0 =? 0)) with false. cbn iota.
  eapply runs_bind; [apply (change_bootfs_ok c (n + 1) s3 h (Some v) HI3); intros w [= <-]; eauto |].
  intros s4 HI4. by apply (release_then c n s4 h).
Qed.

Lemma vfs_clearbootfs_ok c n s h : vfs_inv c n s h -> runs (vfs_clearbootfs s c) (fun s' => vfs_inv c n s' h).
Proof.
  intros HI. assert (Hn : 0 <= n) by apply (iv_lock _ _ _ _ HI). unfold vfs_clearbootfs.
  eapply runs_bind; [by apply (biglock_acquire_ok c n s h) |]. intros s1 [HI1 _].
  eapply runs_bind; [apply (change_bootfs_ok c (n + 1) s1 h None); [ | done]; cbn; by rewrite (right_id_L ∅ disj_union h) |].
  intros s2 HI2. eapply runs_mono; [by apply (biglock_release_ok c n s2 h) |]. by intros s3 [].
Qed.

Lemma getdevname_listed (l : list knowndev) f : listed l f -> exists name, getdevname_loop l f = Some name.
Proof.
  intros (kd & Hk & Hf). induction Hk as [l | kd0 l Hk IH]; cbn; [rewrite bool_decide_eq_true_2 by done; eauto |].
  case_bool_decide; eauto.
Qed.

Lemma vfs_getcwd_ok c n s h u :
  vfs_inv c n s h -> uio_dir u = UIO_READ -> runs (vfs_getcwd s c u) (fun a => vfs_inv c n a.1.1 h).
Proof.
  intros HI Hu. assert (Hn : 0 <= n) by apply (iv_lock _ _ _ _ HI). unfold vfs_getcwd. rewrite bool_decide_eq_true_2 by done. cbn [kassert].
  eapply runs_bind; [by apply (vfs_getcurdir_ok c n s h) |].
  intros [[s1 r1] o1] [(-> & v & f & -> & HI1 & [k Hv]) | [-> HI1]]; [ | done].
  change (negb (0 =? 0)) with false. cbn [access rbind]. rewrite Hv. cbn [access rbind vn_fs].
  apply (runs_bind _ _ (fun a => vfs_inv c n a.1 (h ⊎ {[+ v +]}) /\ is_Some a.2)).
  { destruct (fsop_getvolname (fsdata (st s1)) f) as [name | ]; [cbn; eauto |].
    eapply runs_bind; [by apply (biglock_acquire_ok c n s1 (h ⊎ {[+ v +]})) |]. intros s2 [HI2 E2].
    unfold vfs_getdevname. rewrite (biglock_held c n s2 _ HI2) by done. cbn [kassert rbind].
    apply (release_then c n s2 (h ⊎ {[+ v +]}) (fun s => (s, getdevname_loop (knowndevs s2) f))); [done | done |].
    intros s3 HI3. split; [done |]. apply getdevname_listed. apply (iv_listed _ _ _ _ HI2 v). rewrite E2. by exists k. }
  intros [s2 o2] [HI2 [name E2]]. cbn in HI2, E2. subst o2.
  eapply runs_bind; [apply (law_uio_bytes _ name u); apply HI2 |]. intros [[x3 u3] r3] Hq3. cbn in Hq3.
  assert (HI3 : vfs_inv c n (with_st s2 x3) (h ⊎ {[+ v +]})) by by apply inv_quiet.
  destruct (r3 =? 0); cbn [negb]; [ | eapply runs_bind; [by apply (decref_to c n _ _ h v HI3) |]; by intros s4 HI4].
  eapply runs_bind; [apply (law_uio_bytes _ [58] u3); apply HI3 |]. intros [[x4 u4] r4] Hq4. cbn in Hq4.
  assert (HI4 : vfs_inv c n (with_st (with_st s2 x3) x4) (h ⊎ {[+ v +]})) by by apply inv_quiet.
  destruct (r4 =? 0); cbn [negb]; [ | eapply runs_bind; [by apply (decref_to c n _ _ h v HI4) |]; by intros s5 HI5].
  eapply runs_bind; [apply (VOP_NAMEFILE_ok c n _ _ v u4 HI4); multiset_solver |]. intros [[s5 u5] r5] HI5. cbn in HI5.
  eapply runs_bind; [by apply (decref_to c n _ _ h v HI5) |]. by intros s6 HI6.
Qed.

(** ** Operations on path names *)

Lemma in_parent_ok c n s h path op :
  vfs_inv c n s h ->
  (forall s v name h, vfs_inv c n s h -> v ∈ h -> runs (op s v name) (fun a => vfs_inv c n a.1 h)) ->
  runs (in_parent s c path op) (fun a => vfs_inv c n a.1 h).
Proof.
  intros HI Hop. unfold in_parent. eapply runs_bind; [by apply (vfs_lookparent_ok c n s h) |].
  intros [[[s1 r] o] name] H1'. cbn in H1'. destruct (r =? 0) eqn:Er; cbn [negb]; [ | done].
  destruct H1' as (v & -> & HI1). cbn [access rbind].
  eapply runs_bind; [apply (Hop s1 v name _ HI1); multiset_solver |]. intros [s2 r2] HI2. cbn in HI2.
  eapply runs_bind; [by apply (decref_to c n s2 _ h v HI2) |]. by intros s3 HI3.
Qed.

Lemma vfs_open_ok c n s h path flags mode : vfs_inv c n s h -> runs (vfs_open s c path flags mode) (returns_vnode c n h).
Proof.
  intros HI. unfold vfs_open. destruct (negb _); [done |].
  apply (runs_bind _ _ (returns_vnode c n h)).
  { destruct (negb (Z.land flags O_CREAT =? 0)); [ | by apply vfs_lookup_ok].
    eapply runs_bind; [by apply (vfs_lookparent_ok c n s h) |].
    intros [[[s1 r] o] name] H1'. cbn in H1'. destruct (r =? 0) eqn:Er; cbn [negb]; [ | cbn; by rewrite Er].
    destruct H1' as (d & -> & HI1). cbn [access rbind].
    eapply runs_bind; [apply (VOP_CREAT_ok c n s1 _ d _ _ _ HI1); multiset_solver |]. intros [[s2 r2] o2] H2. cbn in H2.
    destruct (r2 =? 0) eqn:E2.
    - destruct H2 as (v & -> & HI2). eapply runs_bind; [apply (decref_to c n s2 _ (h ⊎ {[+ v +]}) d HI2); multiset_solver |].
      intros s3 HI3. cbn. rewrite E2. eauto.
    - eapply runs_bind; [by apply (decref_to c n s2 _ h d H2) |]. intros s3 HI3. cbn. by rewrite E2. }
  intros [[s1 r1] o1] H1'. cbn in H1'. destruct (r1 =? 0) eqn:E1; cbn [negb]; [ | cbn; by rewrite E1].
  destruct H1' as (v & -> & HI1). eapply runs_bind; [apply (VOP_EACHOPEN_ok c n s1 _ v flags HI1); multiset_solver |].
  intros [s2 r2] HI2. cbn in HI2.
  destruct (r2 =? 0) eqn:E2; cbn [negb]; [ | eapply runs_bind; [by apply (decref_to c n s2 _ h v HI2) |]; intros s3 HI3; cbn; by rewrite E2].
  apply (runs_bind _ _ (fun a => vfs_inv c n a.1 (h ⊎ {[+ v +]}))).
  { destruct (negb (Z.land flags O_TRUNC =? 0)); [ | done]. destruct (negb (Z.land flags O_ACCMODE =? O_RDONLY)); [ | done].
    apply VOP_TRUNCATE_ok; [done | multiset_solver]. }
  intros [s3 r3] HI3. cbn in HI3.
  destruct (r3 =? 0) eqn:E3; cbn [negb]; [cbn; eauto |].
  eapply runs_bind; [by apply (decref_to c n s3 _ h v HI3) |]; intros s4 HI4; cbn; by rewrite E3.
Qed.

(** Two vnodes of the same file system, or else EXDEV. *)
Lemma other_fs_ok c n s h a b :
  vfs_inv c n s h -> a ∈ h -> b ∈ h ->
  runs (other_fs s a b) (fun o : bool => o = false -> exists f, vnode_of (st s) a f /\ vnode_of (st s) b f).
Proof.
  intros HI Ha Hb. destruct (held_vnode _ _ _ _ a HI Ha) as (va & Ea & _), (held_vnode _ _ _ _ b HI Hb) as (vb & Eb & _).
  assert (G : forall v vn f, vnodes (st s) !! v = Some vn -> vn_fs vn = Some f -> vnode_of (st s) v f).
  { intros v vn f E Hf. exists (vn_refcount vn). rewrite E. destruct vn as [k0 fs0 ops0]; cbn in *. subst.
    assert (ops0 = FsOps) as -> by (apply (vk_fs _ (iv_vn _ _ _ _ HI) v _ E); cbn; eauto). done. }
  unfold other_fs. rewrite Ea, Eb. cbn. destruct (vn_fs va) as [fa | ] eqn:Efa; [ | done].
  destruct (vn_fs vb) as [fb | ] eqn:Efb; [ | done]. cbn. case_bool_decide as E; [ | done].
  intros _. injection E as <-. exists fa. split; [by apply (G a va) | by apply (G b vb)].
Qed.

(** An operation on two directories. *)
Lemma two_dirs_ok c n s h a b (op : res (store F * Z)) (o : bool) :
  vfs_inv c n s h -> a ∈ h -> b ∈ h -> (o = false -> exists f, vnode_of (st s) a f /\ vnode_of (st s) b f) ->
  (forall f, vnode_of (st s) a f -> vnode_of (st s) b f -> runs op (fun p => quiet (st s) p.1)) ->
  runs (if o then Ok (s, EXDEV) else VOP s c a (vopfail (st s) ENOTDIR) op) (fun p => vfs_inv c n p.1 h).
Proof.
  intros HI Ha Hb Hx Hop. destruct o; [done |]. destruct (Hx eq_refl) as (f & Hfa & Hfb).
  apply VOP_ok; [done | done |]. split; [intros d _ _; apply quiet_refl; apply HI |].
  intros f' Hf' _. by apply (Hop f).
Qed.

Lemma vfs_rename_ok c n s h oldpath newpath : vfs_inv c n s h -> runs (vfs_rename s c oldpath newpath) (fun a => vfs_inv c n a.1 h).
Proof.
  intros HI. unfold vfs_rename. eapply runs_bind; [by apply (vfs_lookparent_ok c n s h) |].
  intros [[[s1 r1] o1] n1] H1'. cbn in H1'. destruct (r1 =? 0) eqn:E1; cbn [negb]; [ | done].
  destruct H1' as (a & -> & HI1). cbn [access rbind].
  eapply runs_bind; [by apply (vfs_lookparent_ok c n s1 (h ⊎ {[+ a +]})) |].
  intros [[[s2 r2] o2] n2] H2. cbn in H2.
  destruct (r2 =? 0) eqn:E2; cbn [negb]; [ | eapply runs_bind; [by apply (decref_to c n s2 _ h a H2) |]; by intros s3 HI3].
  destruct H2 as (b & -> & HI2). cbn [access rbind].
  eapply runs_bind; [apply (other_fs_ok c n s2 _ a b HI2); multiset_solver |]. intros o Hx.
  eapply runs_bind; [apply (two_dirs_ok c n s2 _ a b _ o HI2); [multiset_solver | multiset_solver | done |] | ].
  { intros f Ha Hb. by apply (law_rename _ _ f); [apply HI2 | apply HI2 | |]. }
  intros [s3 r3] HI3. cbn in HI3.
  eapply runs_bind; [apply (decref_to c n s3 _ (h ⊎ {[+ a +]}) b HI3); multiset_solver |]. intros s4 HI4.
  eapply runs_bind; [by apply (decref_to c n s4 _ h a HI4) |]. by intros s5 HI5.
Qed.

Lemma vfs_link_ok c n s h oldpath newpath : vfs_inv c n s h -> runs (vfs_link s c oldpath newpath) (fun a => vfs_inv c n a.1 h).
Proof.
  intros HI. unfold vfs_link. eapply runs_bind; [by apply (vfs_lookup_ok c n s h) |].
  intros [[s1 r1] o1] H1'. cbn in H1'. destruct (r1 =? 0) eqn:E1; cbn [negb]; [ | done].
  destruct H1' as (a & -> & HI1). cbn [access rbind].
  eapply runs_bind; [by apply (vfs_lookparent_ok c n s1 (h ⊎ {[+ a +]})) |].
  intros [[[s2 r2] o2] n2] H2. cbn in H2.
  destruct (r2 =? 0) eqn:E2; cbn [negb]; [ | eapply runs_bind; [by apply (decref_to c n s2 _ h a H2) |]; by intros s3 HI3].
  destruct H2 as (b & -> & HI2). cbn [access rbind].
  eapply runs_bind; [apply (other_fs_ok c n s2 _ a b HI2); multiset_solver |]. intros o Hx.
  eapply runs_bind; [apply (two_dirs_ok c n s2 _ b a _ o HI2); [multiset_solver | multiset_solver | naive_solver |] | ].
  { intros f Hb Ha. by apply (law_link _ _ f); [apply HI2 | apply HI2 | |]. }
  intros [s3 r3] HI3. cbn in HI3.
  eapply runs_bind; [apply (decref_to c n s3 _ (h ⊎ {[+ a +]}) b HI3); multiset_solver |]. intros s4 HI4.
  eapply runs_bind; [by apply (decref_to c n s4 _ h a HI4) |]. by intros s5 HI5.
Qed.

Lemma vfs_readlink_ok c n s h path u : vfs_inv c n s h -> runs (vfs_readlink s c path u) (fun a => vfs_inv c n a.1.1 h).
Proof.
  intros HI. unfold vfs_readlink. eapply runs_bind; [by apply (vfs_lookup_ok c n s h) |]. intros [[s1 r] o] H1'. cbn in H1'.
  destruct (r =? 0) eqn:Er; cbn [negb]; [ | done]. destruct H1' as (v & -> & HI1). cbn [access rbind].
  eapply runs_bind; [apply (VOP_READLINK_ok c n s1 _ v u HI1); multiset_solver |]. intros [[s2 u2] r2] HI2. cbn in HI2.
  eapply runs_bind; [by apply (decref_to c n s2 _ h v HI2) |]. by intros s3 HI3.
Qed.

(** ** Mounting *)

Lemma fsop_ok c n s h m : vfs_inv c n s h -> runs m (fun a => quiet (st s) a.1) -> runs (fsop s m) (fun a => vfs_inv c n a.1 h /\ knowndevs a.1 = knowndevs s).
Proof. intros HI Hm. unfold fsop. eapply runs_bind; [exact Hm |]. intros [x r] Hq. cbn in *. split; [by apply inv_quiet | done]. Qed.

Lemma fsop_sync_ok c n s h f :
  vfs_inv c n s h -> listed (knowndevs s) f -> runs (fsop s (fsop_sync (st s) f)) (fun a => vfs_inv c n a.1 h /\ knowndevs a.1 = knowndevs s).
Proof.
  intros HI (kd & Hk & Hf). apply fsop_ok; [done |]. apply law_sync; [apply HI | apply HI | by apply (iv_kd _ _ _ _ HI kd Hk)].
Qed.

Lemma sync_loop_ok c n (l : list knowndev) : forall s h,
  vfs_inv c n s h -> (forall kd, kd ∈ l -> kd ∈ knowndevs s) -> runs (sync_loop l s) (fun s' => vfs_inv c n s' h).
Proof.
  induction l as [ | kd l IH]; intros s h HI Hl; cbn [sync_loop]; [done |].
  apply (runs_bind _ _ (fun s' => vfs_inv c n s' h /\ knowndevs s' = knowndevs s)).
  - destruct (kd_fs kd) as [f | ] eqn:Ef; [ | done].
    eapply runs_bind; [apply (fsop_sync_ok c n s h f HI); exists kd; split; [apply Hl; left | done] |]. by intros [s1 r1] ?.
  - intros s1 [HI1 E1]. apply IH; [done |]. rewrite E1. intros k' Hk'. apply Hl. by right.
Qed.

Lemma vfs_sync_ok c n s h : vfs_inv c n s h -> runs (vfs_sync s c) (fun a => vfs_inv c n a.1 h).
Proof.
  intros HI. assert (Hn : 0 <= n) by apply (iv_lock _ _ _ _ HI). unfold vfs_sync.
  eapply runs_bind; [by apply (biglock_acquire_ok c n s h) |]. intros s1 [HI1 _].
  eapply runs_bind; [by apply (sync_loop_ok c (n + 1) _ s1 h HI1) |]. intros s2 HI2. by apply (release_then c n s2 h).
Qed.

Lemma findmount_loop_spec (l : list knowndev) : forall i devname j kd,
  findmount_loop l i devname = Some (j, kd) -> exists k, j = (i + k)%nat /\ l !! k = Some kd /\ is_Some (kd_rawname kd).
Proof.
  induction l as [ | dev l IH]; intros i devname j kd; cbn; [done |].
  assert (Hrest : findmount_loop l (S i) devname = Some (j, kd) -> exists k, j = (i + k)%nat /\ (dev :: l) !! k = Some kd /\ is_Some (kd_rawname kd)).
  { intros E. destruct (IH _ _ _ _ E) as (k & -> & Hk & Hr). exists (S k). split; [lia | done]. }
  case_bool_decide as Hr; [done |]. case_bool_decide as Hd; [ | done].
  intros [= <- <-]. exists 0%nat. split; [lia | split; [done |]]. destruct (kd_rawname dev); [eauto | done].
Qed.

(** What is mounted on the device at [i] changes from [kd_fs kd] to [o]. *)
Lemma inv_set_fs c n s h x' i kd o :
  vfs_inv c n s h -> moved (st s) x' ∅ ∅ -> knowndevs s !! i = Some kd -> is_Some (kd_rawname kd) ->
  (forall f, kd_fs kd <> Some f -> (mounted (fsdata (st s)) f -> mounted (fsdata x') f) /\ (removable (fsdata (st s)) f -> removable (fsdata x') f)) ->
  (forall f, o = Some f -> mounted (fsdata x') f /\ removable (fsdata x') f /\ ~ mounted (fsdata (st s)) f) ->
  (forall v f, vnode_of x' v f -> kd_fs kd <> Some f) ->
  vfs_inv c n (set_kd_fs (with_st s x') i kd o) h.
Proof.
  intros HI Hm Hi Hraw Hold Hnew Hgone. unfold set_kd_fs. set (kd' := mkKd _ _ _ _ _).
  assert (Hlt : (i < length (knowndevs s))%nat) by (apply lookup_lt_is_Some; eauto).
  pose proof (take_drop_middle _ _ _ Hi) as Esplit. pose proof (insert_take_drop _ i kd' Hlt) as Eins.
  set (l1 := take i (knowndevs s)) in *. set (l2 := drop (S i) (knowndevs s)) in *.
  assert (Hfs : forall kd0 f, kd0 ∈ knowndevs s -> kd_fs kd0 = Some f -> mounted (fsdata (st s)) f).
  { intros kd0 f Hk Hf. by apply (iv_kd _ _ _ _ HI kd0 Hk). }
  pose proof (iv_nodup _ _ _ _ HI) as Hnd. rewrite <- Esplit, omap_app in Hnd. cbn in Hnd.
  assert (Hnd' : NoDup (omap kd_fs l1 ++ omap kd_fs l2)).
  { destruct (kd_fs kd); [ | done]. by apply NoDup_middle in Hnd as []. }
  assert (Hin : forall kd0, kd0 ∈ l1 \/ kd0 ∈ l2 -> kd0 ∈ knowndevs s /\ (forall f, kd_fs kd0 = Some f -> kd_fs kd <> Some f)).
  { intros kd0 Hk. split; [rewrite <- Esplit; rewrite elem_of_app, elem_of_cons; tauto |].
    intros f Ef Ek. rewrite Ek in Hnd. apply NoDup_middle in Hnd as [Hn _]. apply Hn.
    rewrite elem_of_app, !list_elem_of_omap. destruct Hk as [Hk | Hk]; [left | right]; eauto. }
  rewrite <- (right_id_L ∅ disj_union h).
  apply (inv_moved c n s h x' ∅ ∅); [by rewrite (right_id_L ∅ disj_union h) | done | ..]; cbn [knowndevs with_st].
  - split.
    + rewrite Eins, <- Esplit, !fmap_app. cbn. done.
    + intros k0 Hk0. rewrite Eins, elem_of_app, elem_of_cons in Hk0.
      destruct Hk0 as [Hk0 | [-> | Hk0]]; [exists k0 | exists kd | exists k0];
        (split; [ | repeat split; cbn; auto]); try (apply Hin; tauto). by apply list_elem_of_lookup_2 in Hi.
  - intros k0 f Hk0 Hf. rewrite Eins, elem_of_app, elem_of_cons in Hk0. destruct Hk0 as [Hk0 | [-> | Hk0]]; [ | by destruct (Hnew f Hf) as (? & ? & _) | ];
      (destruct (Hin k0 ltac:(tauto)) as [Hk1 Hne]; destruct (Hold f (Hne f Hf)) as [Ho1 Ho2];
       destruct (ko_fs _ _ (iv_kd _ _ _ _ HI k0 Hk1) f Hf); auto).
  - rewrite Eins, omap_app. cbn. destruct o as [f | ]; cbn; [ | done].
    apply NoDup_middle. split; [ | done]. destruct (Hnew f eq_refl) as (_ & _ & Hnm). intros Hf. apply Hnm.
    rewrite elem_of_app, !list_elem_of_omap in Hf. destruct Hf as [(k0 & Hk0 & Ef) | (k0 & Hk0 & Ef)]; (apply (Hfs k0); [apply Hin; tauto | done]).
  - intros v f Hv. destruct (moved_back _ _ _ _ v f (iv_vn _ _ _ _ HI) Hm Hv) as [Hx | Hv0]; [multiset_solver |].
    destruct (iv_listed _ _ _ _ HI v f Hv0) as (k0 & Hk0 & Hf). exists k0. split; [ | done]. rewrite Eins.
    rewrite <- Esplit in Hk0. rewrite elem_of_app, elem_of_cons in *. destruct Hk0 as [ | [-> | ]]; [tauto | | tauto].
    by destruct (Hgone v f Hv).
  - multiset_solver.
  - intros v vn d Hv Ho. destruct (moved_back_any _ _ _ _ v vn (iv_vn _ _ _ _ HI) Hm Hv) as [Hx | (vn0 & E0 & Eo & _)]; [multiset_solver |].
    apply (iv_dev _ _ _ _ HI v vn0 d E0). congruence.
Qed.

(** What vfs_mount asks of its [mountfunc]. *)
Definition mount_fun_ok (mf : mount_fun) : Prop := forall x d, fs_inv x -> vnodes_ok x -> runs (mf x d) (mounts x).

Lemma vfs_mount_ok c n s h devname mf :
  vfs_inv c n s h -> mount_fun_ok mf -> runs (vfs_mount s c devname mf) (fun a => vfs_inv c n a.1 h).
Proof.
  intros HI Hmf. assert (Hn : 0 <= n) by apply (iv_lock _ _ _ _ HI). unfold vfs_mount.
  eapply runs_bind; [by apply (biglock_acquire_ok c n s h) |]. intros s1 [HI1 _].
  unfold findmount. rewrite (biglock_held c n s1 h) by done. cbn [kassert rbind].
  destruct (findmount_loop _ _ _) as [[i kd] | ] eqn:Ef; [ | by apply (release_then c n s1 h)].
  destruct (findmount_loop_spec _ _ _ _ _ Ef) as (k & -> & Hk & Hraw). cbn [Nat.add].
  case_bool_decide as Hfs; [by apply (release_then c n s1 h) |]. rewrite bool_decide_eq_true_2 by done. cbn [kassert].
  assert (Hki : kd ∈ knowndevs s1) by by apply list_elem_of_lookup_2 in Hk.
  destruct (ko_real _ _ (iv_kd _ _ _ _ HI1 kd Hki)) as [d Hd]; [by left |]. rewrite Hd.
  eapply runs_bind; [apply (Hmf (st s1) d); apply HI1 |]. intros [[x r] o] Hmo. cbn in Hmo.
  destruct (r =? 0) eqn:Er; cbn [negb]; [ | apply (release_then c n _ h); [by apply inv_quiet | done | done]].
  destruct Hmo as (f & -> & Hmv & Hnew & Hmo). rewrite bool_decide_eq_true_2 by eauto. cbn [kassert].
  apply (release_then c n _ h); [ | done | done].
  apply inv_set_fs; [done | done | done | done | | |].
  - intros g _. destruct (Hmo g) as [-> ->]. auto.
  - intros g [= <-]. destruct (Hmo f) as [-> ->]. auto.
  - intros v g Hv Eg. apply Hfs. eauto.
Qed.

(** fsop_unmount on a device that has a file system. *)
Lemma unmount_ok c n s h i kd f :
  vfs_inv c n s h -> knowndevs s !! i = Some kd -> is_Some (kd_rawname kd) -> kd_fs kd = Some f ->
  runs (let* (s, result) := fsop s (fsop_unmount (st s) f) in
        if negb (result =? 0) then Ok (s, result) else Ok (set_kd_fs s i kd None, 0))
    (fun a => vfs_inv c n a.1 h /\ length (knowndevs a.1) = length (knowndevs s)).
Proof.
  intros HI Hi Hraw Hf. assert (Hki : kd ∈ knowndevs s) by by apply list_elem_of_lookup_2 in Hi.
  apply (runs_bind _ _ (fun a => exists x, a.1 = with_st s x /\ unmounts (st s) f (x, a.2))).
  { unfold fsop. eapply runs_bind; [apply (law_unmount _ f); [apply HI | apply HI | by apply (iv_kd _ _ _ _ HI kd Hki) | by apply (ko_fs _ _ (iv_kd _ _ _ _ HI kd Hki))] |].
    intros [x r] Hu. by exists x. }
  intros [s1 r] (x & E & Hu). cbn in E. subst s1. cbn in Hu. destruct (r =? 0); cbn [negb]; [ | split; [by apply inv_quiet | done]].
  destruct Hu as [Hmv Hmo]. split; [ | cbn; by rewrite length_insert]. cbn.
  apply inv_set_fs; [done | done | done | done | | done |].
  - intros g Hne. destruct (Hmo g) as [-> ->]. split; (intros Hg; split; [done | congruence]).
  - intros v g Hv Eg. assert (g = f) as -> by congruence. apply (law_live x v f) in Hv; [ | apply Hmv]. apply Hmo in Hv. naive_solver.
Qed.

Lemma vfs_unmount_ok c n s h devname : vfs_inv c n s h -> runs (vfs_unmount s c devname) (fun a => vfs_inv c n a.1 h).
Proof.
  intros HI. assert (Hn : 0 <= n) by apply (iv_lock _ _ _ _ HI). unfold vfs_unmount.
  eapply runs_bind; [by apply (biglock_acquire_ok c n s h) |]. intros s1 [HI1 _].
  unfold findmount. rewrite (biglock_held c n s1 h) by done. cbn [kassert rbind].
  apply (runs_bind _ _ (fun a => vfs_inv c (n + 1) a.1 h)); [ | intros [s2 r] HI2; by apply (release_then c n s2 h)].
  destruct (findmount_loop _ _ _) as [[i kd] | ] eqn:Ef; [ | done].
  destruct (findmount_loop_spec _ _ _ _ _ Ef) as (k & -> & Hk & Hraw). cbn [Nat.add].
  assert (Hki : kd ∈ knowndevs s1) by by apply list_elem_of_lookup_2 in Hk.
  destruct (kd_fs kd) as [f | ] eqn:Hf; [ | done]. rewrite !bool_decide_eq_true_2; [ | apply (iv_kd _ _ _ _ HI1 kd Hki); by left | done].
  cbn [kassert]. eapply runs_bind; [apply (fsop_sync_ok c _ s1 h f HI1); by exists kd |]. intros [s2 r2] [HI2 E2]. cbn in E2, HI2.
  destruct (r2 =? 0); cbn [negb]; [ | done].
  eapply runs_mono; [apply (unmount_ok c _ s2 h k kd f HI2); [by rewrite E2 | done | done] |]. by intros a [].
Qed.

Lemma unmountall_loop_ok c n k : forall s h i,
  vfs_inv c n s h -> (i + k = length (knowndevs s))%nat -> runs (unmountall_loop k s i) (fun s' => vfs_inv c n s' h).
Proof.
  induction k as [ | k IH]; intros s h i HI Hl; cbn [unmountall_loop]; [done |].
  destruct (lookup_lt_is_Some_2 (knowndevs s) i) as [dev Hi]; [lia |]. rewrite Hi. cbn [access rbind].
  apply (runs_bind _ _ (fun s' => vfs_inv c n s' h /\ length (knowndevs s') = length (knowndevs s)));
    [ | intros s1 [HI1 E1]; apply IH; [done | lia]].
  case_bool_decide as Hraw; [done |]. destruct (kd_fs dev) as [f | ] eqn:Hf; [ | done].
  assert (Hli : listed (knowndevs s) f) by (exists dev; split; [by apply list_elem_of_lookup_2 in Hi | done]).
  eapply runs_bind; [by apply (fsop_sync_ok c n s h f HI) |]. intros [s1 r1] [HI1 E1]. cbn [fst snd] in *.
  apply (runs_bind _ _ (fun a => vfs_inv c n a.1 h /\ knowndevs a.1 = knowndevs s)).
  { destruct (r1 =? 0); cbn [negb]; [done |]. rewrite <- E1. apply fsop_sync_ok; [done | by rewrite E1]. }
  intros [s2 r2] [HI2 E2]. cbn [fst snd] in *. destruct (r2 =? 0); cbn [negb]; [ | cbn; by rewrite E2].
  pose proof (unmount_ok c n s2 h i dev f HI2) as Hu. rewrite E2 in Hu.
  specialize (Hu Hi ltac:(destruct (kd_rawname dev); [eauto | done]) Hf).
  destruct (fsop s2 (fsop_unmount (st s2) f)) as [[s3 r3] | ]; [ | done]. cbn in Hu |- *.
  destruct (r3 =? 0); cbn [negb] in *; done.
Qed.

Lemma vfs_unmountall_ok c n s h : vfs_inv c n s h -> runs (vfs_unmountall s c) (fun a => vfs_inv c n a.1 h).
Proof.
  intros HI. assert (Hn : 0 <= n) by apply (iv_lock _ _ _ _ HI). unfold vfs_unmountall.
  eapply runs_bind; [by apply (biglock_acquire_ok c n s h) |]. intros s1 [HI1 _].
  eapply runs_bind; [by apply (unmountall_loop_ok c (n + 1) _ s1 h 0 HI1) |]. intros s2 HI2. by apply (release_then c n s2 h).
Qed.

(** ** Adding a device *)

(** Between [x] and [x'] the blocks [ps] were allocated, one of them for a new
    device vnode [vn]. *)
Record tmp x x' (ps : gset Z) (vn : option (Z * option Z)) : Prop := {
  tp_vnodes : vnodes x' = match vn with Some (v, dev) => <[v := mkVnode 1 None (DevOps dev)]> (vnodes x) | None => vnodes x end;
  tp_vn : forall v dev, vn = Some (v, dev) -> v ∈ ps;
  tp_data : fsdata x' = fsdata x;
  tp_live : live (kmem x') = ps ∪ live (kmem x);
  tp_fresh : ps ## live (kmem x);
  tp_heap : heap_ok (kmem x');
  tp_fails : exists k, fails (kmem x') = drop k (fails (kmem x))
}.

Lemma tmp_start x : heap_ok (kmem x) -> tmp x x ∅ None.
Proof. intros Hh. split; try done; [set_solver | by exists 0%nat]. Qed.

Lemma tmp_alloc x x' ps vn h o :
  tmp x x' ps vn -> halloc (kmem x') = (h, o) ->
  match o with
  | Some p => p ∉ ps /\ p ∉ live (kmem x) /\ tmp x (set_kmem x' h) ({[p]} ∪ ps) vn
  | None => tmp x (set_kmem x' h) ps vn
  end.
Proof.
  intros [Hv Hvn Hd Hl Hf Hh [k Hk]] E.
  assert (Hdrop : exists k', fails h = drop k' (fails (kmem x))).
  { unfold halloc in E. exists (S k). rewrite <- Nat.add_1_r, <- drop_drop, <- Hk. destruct (fails (kmem x')) as [ | [] f]; injection E as <- _; cbn; done. }
  destruct (halloc_cases _ Hh) as [(h' & E' & Hl' & Hh') | (h' & p & E' & Hp & Hl' & Hh')]; rewrite E in E'; injection E' as -> ->.
  - split; try done. cbn. congruence.
  - rewrite Hl in Hp. split; [set_solver | split; [set_solver |]].
    split; cbn; try done; [set_solver | rewrite Hl', Hl; set_solver | set_solver].
Qed.

Lemma tmp_free x x' ps vn p :
  tmp x x' ps vn -> p ∈ ps -> (forall v dev, vn = Some (v, dev) -> v <> p) ->
  exists h, hfree (kmem x') p = Ok h /\ tmp x (set_kmem x' h) (ps ∖ {[p]}) vn.
Proof.
  intros [Hv Hvn Hd Hl Hf Hh [k Hk]] Hp Hne. destruct (hfree_live (kmem x') p) as (h & E & Hl' & Hh'); [set_solver | done |].
  exists h. split; [done |]. split; cbn; try done.
  - intros v dev E'. specialize (Hvn v dev E'). specialize (Hne v dev E'). set_solver.
  - rewrite Hl', Hl. set_solver.
  - set_solver.
  - exists k. unfold hfree in E. case_decide; [ | done]. by injection E as <-.
Qed.

Lemma tmp_vnode x x' ps v dev : tmp x x' ps None -> v ∈ ps -> tmp x (vnode_init x' v (DevOps dev) None) ps (Some (v, dev)).
Proof. intros [Hv Hvn Hd Hl Hf Hh Hk] Hin. split; cbn; try done; [by rewrite Hv | naive_solver]. Qed.

Lemma tmp_unvnode x x' ps v dev :
  vnodes_ok x -> tmp x x' ps (Some (v, dev)) -> exists x2, vnode_cleanup x' v = Ok x2 /\ kmem x2 = kmem x' /\ tmp x x2 ps None.
Proof.
  intros Hok [Hv Hvn Hd Hl Hf Hh Hk]. unfold vnode_cleanup. rewrite Hv, lookup_insert_eq. cbn. eexists. split; [done |]. split; [done |].
  split; cbn; try done. rewrite ?Hv, delete_insert_id; [done |].
  destruct (vnodes x !! v) as [vn | ] eqn:E; [ | done]. pose proof (vk_live _ Hok v vn E). specialize (Hvn v dev eq_refl). set_solver.
Qed.

Lemma tmp_quiet x x' : fs_inv x -> vnodes_ok x -> tmp x x' ∅ None -> quiet x x'.
Proof.
  intros Hi Hok [Hv Hvn Hd Hl Hf Hh Hk]. cbn in Hv.
  assert (Hok' : vnodes_ok x') by (destruct Hok as [? Hlv ? ?]; split; rewrite ?Hv; try done; intros v vn E; rewrite Hl; specialize (Hlv v vn E); set_solver).
  split; [ | intros f; by rewrite Hd]. split; [ | done | | ].
  - apply (law_frame x); [done |]. split; try done; [ | rewrite Hl; set_solver | intros v; rewrite Hv; by left]. intros v f. unfold vnode_of. by rewrite Hv.
  - intros v. unfold refs. by rewrite Hv.
  - intros v vn vn' E E'. rewrite Hv in E'. rewrite E in E'. by injection E' as ->.
Qed.

Lemma kfree_if_ok x s ps vn (p : option Z) :
  tmp x (st s) ps vn -> (forall q, p = Some q -> q ∈ ps /\ forall v dev, vn = Some (v, dev) -> v <> q) ->
  runs (kfree_if s p) (fun s' => tmp x (st s') (ps ∖ match p with Some q => {[q]} | None => ∅ end) vn /\ s' = with_st s (st s')).
Proof.
  intros Ht Hp. destruct p as [q | ]; cbn.
  - destruct (Hp q eq_refl) as [Hq Hne]. destruct (tmp_free _ _ _ _ q Ht Hq Hne) as (h & -> & Ht'). cbn. done.
  - split; [ | by destruct s]. by replace (ps ∖ ∅) with ps by set_solver.
Qed.

Definition opt_set (o : option Z) : gset Z := match o with Some p => {[p]} | None => ∅ end.

(** The failure path gives back exactly what was allocated. *)
Lemma doadd_fail_ok c n s1 h s name rawname vn kd result dev :
  vfs_inv c (n + 1) s1 h -> 0 <= n -> s = with_st s1 (st s) ->
  tmp (st s1) (st s) (opt_set name ∪ opt_set rawname ∪ opt_set vn ∪ opt_set kd) ((fun v => (v, dev)) <$> vn) ->
  opt_set name ## opt_set rawname -> opt_set vn ## opt_set name ∪ opt_set rawname -> opt_set kd ## opt_set name ∪ opt_set rawname ∪ opt_set vn ->
  runs (doadd_fail s c name rawname vn kd result) (fun a => vfs_inv c n a.1 h /\ a.2 = result /\ knowndevs a.1 = knowndevs s1 /\
    live (kmem (st a.1)) = live (kmem (st s1))).
Proof.
  intros HI Hn Hs Ht D1 D2 D3. unfold doadd_fail.
  assert (Hv : forall p, p ∈ opt_set name ∪ opt_set rawname ∪ opt_set kd -> forall v d', ((fun v => (v, dev)) <$> vn) = Some (v, d') -> v <> p).
  { intros p Hp v d' E. destruct vn as [w | ]; [ | done]. injection E as -> _. cbn in *. intros ->. set_solver. }
  eapply runs_bind; [apply (kfree_if_ok _ _ _ _ name Ht); intros q ->; split; [set_solver | apply Hv; set_solver] |].
  intros s2 [Ht2 E2]. eapply runs_bind; [apply (kfree_if_ok _ _ _ _ rawname Ht2); intros q ->; split; [set_solver | apply Hv; set_solver] |].
  intros s3 [Ht3 E3].
  apply (runs_bind _ _ (fun s4 => tmp (st s1) (st s4) (opt_set kd) None /\ s4 = with_st s3 (st s4))).
  { destruct vn as [w | ].
    - cbn in Ht3. destruct (tmp_unvnode _ _ _ _ _ (iv_vn _ _ _ _ HI) Ht3) as (x & Ex & Ek & Hx). unfold dev_uncreate_vnode.
      rewrite (tp_vnodes _ _ _ _ Ht3), lookup_insert_eq. cbn [access rbind vn_ops kassert]. rewrite Ex. cbn [rbind].
      eapply runs_mono; [apply (kfree_if_ok (st s1) (with_st s3 x) _ None (Some w) Hx) |].
      + intros q [= <-]. split; [set_solver | done].
      + intros s5 [Ht5 E5]. split; [ | rewrite E5; done]. match goal with |- tmp _ _ ?a _ => match type of Ht5 with tmp _ _ ?b _ => replace a with b; [done |] end end.
        cbn [opt_set] in *. set_solver.
    - cbn. split; [ | by destruct s3]. match type of Ht3 with tmp _ _ ?b _ => replace (opt_set kd) with b; [done |] end.
      cbn [opt_set] in *. set_solver. }
  intros s4 [Ht4 E4]. eapply runs_bind; [apply (kfree_if_ok _ _ _ _ kd Ht4); intros q ->; split; [set_solver | done] |].
  intros s5 [Ht5 E5]. assert (Ht6 : tmp (st s1) (st s5) ∅ None).
  { match type of Ht5 with tmp _ _ ?b _ => replace ∅ with b; [done |] end. destruct kd; cbn; set_solver. }
  assert (HI5 : vfs_inv c (n + 1) s5 h).
  { assert (E : s5 = with_st s1 (st s5)) by (rewrite E5, E4, E3, E2, Hs; done). rewrite E. apply inv_quiet; [done |].
    apply tmp_quiet; [apply HI | apply HI | done]. }
  pose proof (biglock_release_ok c n s5 h HI5 Hn) as Hrel. destruct (vfs_biglock_release s5 c) as [s6 | ] eqn:E6; [ | done].
  destruct Hrel as [HI6 Est]. cbn. split; [done |]. split; [done |]. split; [ | rewrite Est, (tp_live _ _ _ _ Ht6); set_solver].
  destruct (release_shape _ _ _ E6) as (lk & d & ->). cbn. by rewrite E5, E4, E3, E2, Hs.
Qed.

Lemma kmalloc_tmp x s ps vn s' o :
  tmp x (st s) ps vn -> kmalloc s = (s', o) ->
  s' = with_st s (st s') /\
  match o with
  | Some p => p ∉ ps /\ p ∉ live (kmem x) /\ tmp x (st s') ({[p]} ∪ ps) vn
  | None => tmp x (st s') ps vn
  end.
Proof.
  intros Ht. unfold kmalloc. destruct (halloc (kmem (st s))) as [h q] eqn:E. intros [= <- <-]. split; [done |].
  by apply (tmp_alloc _ _ _ _ _ _ Ht E).
Qed.

(** What the caller of vfs_adddev and vfs_addfs provides. *)
Record add_ok s (mountable : bool) (dev fs : option Z) : Prop := {
  ad_device : forall d, dev = Some d -> is_Some (devices s !! d);
  ad_real : mountable = true \/ fs = None -> is_Some dev;
  ad_fs : forall f, fs = Some f -> mounted (fsdata (st s)) f /\ (mountable = true -> removable (fsdata (st s)) f) /\ ~ listed (knowndevs s) f
}.

Lemma inv_add c n s h x' ps v dname raw dev fs mountable devs :
  vfs_inv c n s h -> tmp (st s) x' ps (Some (v, dev)) -> add_ok s mountable dev fs ->
  (is_Some raw -> mountable = true) -> (forall d, is_Some (devices s !! d) -> is_Some (devs !! d)) ->
  vfs_inv c n (with_devices (with_knowndevs (with_st s x') (knowndevs s ++ [mkKd dname raw dev v fs])) devs) h.
Proof.
  intros HI Ht [Had Har Haf] Hraw Hdevs. destruct Ht as [Ev Hvn Ed El Hfr Hh Hfa]. specialize (Hvn v dev eq_refl).
  pose proof (iv_vn _ _ _ _ HI) as Hok.
  assert (Hnone : vnodes (st s) !! v = None).
  { destruct (vnodes (st s) !! v) as [vn | ] eqn:E; [ | done]. pose proof (vk_live _ Hok v vn E). set_solver. }
  assert (Hfile : forall w f, vnode_of x' w f <-> vnode_of (st s) w f).
  { intros w f. unfold vnode_of. rewrite Ev. destruct (decide (w = v)) as [-> | Hne]; [ | by rewrite lookup_insert_ne].
    rewrite lookup_insert_eq, Hnone. naive_solver. }
  assert (Hok' : vnodes_ok x').
  { destruct Hok as [Hh0 Hl0 Hp0 Hf0]. split; [done | | |]; intros w vw; rewrite Ev, lookup_insert_Some; intros [[<- <-] | [Hne Hw]]; cbn; eauto.
    - set_solver.
    - specialize (Hl0 w vw Hw). set_solver.
    - lia.
    - split; [intros [=] | intros [? [=]]]. }
  assert (Hold : forall w vw, vnodes (st s) !! w = Some vw -> vnodes x' !! w = Some vw).
  { intros w vw E. rewrite Ev, lookup_insert_ne; [done | congruence]. }
  assert (Hus : forall o, usable s o -> usable (with_devices (with_knowndevs (with_st s x') (knowndevs s ++ [mkKd dname raw dev v fs])) devs) o).
  { intros [[d | ] | ]; cbn; auto. }
  split; cbn [st knowndevs with_devices with_knowndevs with_st bootfs_vnode p_cwd].
  - apply (law_frame (st s)); [apply HI |]. split; [done | intros w f; by rewrite Hfile | rewrite El; set_solver | done | | done].
    intros w. rewrite Ev. destruct (decide (w = v)) as [-> | Hne]; [right; set_solver | rewrite lookup_insert_ne by done; by left].
  - done.
  - destruct (iv_lock _ _ _ _ HI). by split.
  - intros w. assert (E : owned (with_devices (with_knowndevs (with_st s x') (knowndevs s ++ [mkKd dname raw dev v fs])) devs) = owned s ⊎ {[+ v +]}).
    { unfold owned, kd_refs. cbn [knowndevs with_devices with_knowndevs with_st bootfs_vnode p_cwd]. rewrite fmap_app, list_to_set_disj_app.
      change (kd_vnode <$> [_]) with [v]. rewrite list_to_set_disj_cons, list_to_set_disj_nil. multiset_solver. }
    rewrite E. pose proof (iv_refs _ _ _ _ HI w) as R. unfold refs in *. rewrite Ev. rewrite !multiplicity_disj_union in *.
    destruct (decide (w = v)) as [-> | Hne].
    + rewrite lookup_insert_eq, multiplicity_singleton_eq. rewrite Hnone in R. cbn in *. lia.
    + rewrite lookup_insert_ne, multiplicity_singleton_ne by done. lia.
  - intros w E. destruct (iv_boot _ _ _ _ HI w E) as [f Hf]. exists f. by apply Hfile.
  - intros p w E. destruct (iv_cwd _ _ _ _ HI p w E) as [f Hf]. exists f. by apply Hfile.
  - intros w vw Hw E. destruct (held_vnode _ _ _ _ w HI Hw) as (vn0 & E0 & Hu0). rewrite (Hold w vn0 E0) in E. injection E as <-. by apply Hus.
  - intros kd Hk. apply elem_of_app in Hk as [Hk | Hk%list_elem_of_singleton].
    + destruct (iv_kd _ _ _ _ HI kd Hk) as [[k Hv] Hd Hr Hf]. split; cbn; [exists k; by apply Hold | eauto | done | by rewrite Ed].
    + subst kd. split; cbn; [exists 1; by rewrite Ev, lookup_insert_eq | eauto | | rewrite Ed; naive_solver].
      intros [Hr | Hf]; apply Har; auto.
  - intros w vw d. rewrite Ev, lookup_insert_Some, fmap_app, elem_of_app. intros [[<- <-] | [Hne Hw]] Ho; [right; cbn; by left |].
    left. by apply (iv_dev _ _ _ _ HI w vw d).
  - rewrite omap_app. cbn. destruct fs as [f | ]; cbn; [ | rewrite app_nil_r; apply HI].
    apply NoDup_app. split; [apply HI | split; [ | apply NoDup_singleton]].
    intros g Hg ->%list_elem_of_singleton. apply (Haf f eq_refl). by apply list_elem_of_omap in Hg as (kd & ? & ?); exists kd.
  - intros w f Hw. apply Hfile in Hw. destruct (iv_listed _ _ _ _ HI w f Hw) as (kd & Hk & Hf). exists kd. split; [ | done].
    apply elem_of_app. by left.
Qed.

Lemma room_tmp x x' ps vn h b : tmp x x' ps vn -> array_room (kmem x') = (h, b) -> tmp x (set_kmem x' h) ps vn.
Proof.
  intros [Hv Hvn Hd Hl Hf Hh [k Hk]] E.
  assert (E' : live h = live (kmem x') /\ next_block h = next_block (kmem x') /\ fails h = drop 1 (fails (kmem x'))).
  { unfold array_room in E. destruct (fails (kmem x')) as [ | [] f]; injection E as <- <-; cbn; done. }
  destruct E' as (El & En & Ef). split; cbn; try done; [congruence | |].
  - intros p. rewrite El, En. apply Hh.
  - exists (k + 1)%nat. by rewrite Ef, Hk, drop_drop.
Qed.

(** What vfs_doadd has done: on success the device is in the list, otherwise
    nothing is left of the attempt. *)
Definition added s (dname : list Z) (mountable : bool) (dev fs : option Z) (a : vfs F * Z) : Prop :=
  let '(s', r) := a in
  if r =? 0 then exists v, knowndevs s' = knowndevs s ++ [mkKd dname (if mountable then Some (mkrawname dname) else None) dev v fs]
  else knowndevs s' = knowndevs s /\ live (kmem (st s')) = live (kmem (st s)).

(** The blocks of one attempt. *)
Definition attempt (name rawname vn kd : option Z) : gset Z := opt_set name ∪ opt_set rawname ∪ opt_set vn ∪ opt_set kd.

Definition distinct (name rawname vn kd : option Z) : Prop :=
  opt_set name ## opt_set rawname /\ opt_set vn ## opt_set name ∪ opt_set rawname /\
  opt_set kd ## opt_set name ∪ opt_set rawname ∪ opt_set vn.

(** The raw name, for a device that can be mounted. *)
Lemma doadd_rawname s1 (mountable : bool) s2 name :
  s2 = with_st s1 (st s2) -> tmp (st s1) (st s2) ({[name]} ∪ ∅) None ->
  exists s3 rawname, (if mountable then kmalloc s2 else (s2, None)) = (s3, rawname) /\ s3 = with_st s1 (st s3) /\
    opt_set rawname ## {[name]} /\ tmp (st s1) (st s3) ({[name]} ∪ opt_set rawname) None.
Proof.
  intros Es2 Ht2. destruct mountable; [ | exists s2, None; split; [done |]; split; [done | split; [set_solver | done]]].
  destruct (kmalloc s2) as [s3 rawname] eqn:E3. exists s3, rawname. split; [done |].
  destruct (kmalloc_tmp _ _ _ _ _ _ Ht2 E3) as [Es3 Ht3]. split; [by rewrite Es3, Es2 |]. destruct rawname as [r | ]; cbn [opt_set].
  - destruct Ht3 as (Hr & _ & Ht3). split; [set_solver |].
    by replace ({[name]} ∪ {[r]}) with (({[r]} ∪ ({[name]} ∪ ∅)) : gset Z) by set_solver.
  - split; [set_solver | done].
Qed.
Section Add.
Context (c : caller) (n : Z) (h : gmultiset Z) (s s1 : vfs F).
Context (dname : list Z) (mountable : bool) (dev fs : option Z).
Context (Hn : 0 <= n) (HI1 : vfs_inv c (n + 1) s1 h) (Had : add_ok s1 mountable dev fs).
Context (Hkd : knowndevs s1 = knowndevs s) (Hst : st s1 = st s).

Lemma doadd_fails s' name rawname vn kd e :
  s' = with_st s1 (st s') -> tmp (st s1) (st s') (attempt name rawname vn kd) ((fun v => (v, dev)) <$> vn) ->
  distinct name rawname vn kd -> e <> 0 ->
  runs (doadd_fail s' c name rawname vn kd e) (fun a => vfs_inv c n a.1 h /\ added s dname mountable dev fs a).
Proof.
  intros Es Ht (D1 & D2 & D3) He.
  eapply runs_mono; [by apply (doadd_fail_ok c n s1 h s' name rawname vn kd e dev HI1 Hn Es Ht) |].
  intros [s2 r2] (HI2 & Er2 & Ek & El). cbn [fst snd] in *. subst r2. split; [done |]. unfold added.
  destruct (Z.eqb_spec e 0); [done |]. by rewrite Ek, El, Hkd, Hst.
Qed.

Lemma doadd_enter_ok s' name rawname v kd :
  s' = with_st s1 (st s') -> tmp (st s1) (st s') (attempt name rawname (Some v) kd) (Some (v, dev)) ->
  distinct name rawname (Some v) kd ->
  runs (doadd_enter s' c name rawname v kd dname mountable dev fs) (fun a => vfs_inv c n a.1 h /\ added s dname mountable dev fs a).
Proof.
  intros Es Ht D. unfold doadd_enter, badnames, vfs_biglock_do_i_hold.
  rewrite (mine_holds s' c (n + 1)) by (rewrite Es; destruct (iv_lock _ _ _ _ HI1); by split).
  destruct (Z.eqb_spec (n + 1) 0); [lia |]. cbn [negb kassert rbind].
  destruct (badnames_loop _ _ _ _ _); [by apply doadd_fails |].
  destruct (array_room (kmem (st s'))) as [hp room] eqn:Er. pose proof (room_tmp _ _ _ _ _ _ Ht Er) as Ht'.
  destruct room; cbn [negb]; [ | apply doadd_fails; [by rewrite Es | done | done | done]].
  set (raw := if mountable then Some (mkrawname dname) else None). set (entry := mkKd dname raw dev v fs).
  assert (G : forall devs, (forall d, is_Some (devices s1 !! d) -> is_Some (devs !! d)) ->
    vfs_inv c (n + 1) (with_devices (with_knowndevs (with_st s1 (set_kmem (st s') hp)) (knowndevs s1 ++ [entry])) devs) h).
  { intros devs Hdv. apply (inv_add c (n + 1) s1 h _ _ v dname raw dev fs mountable devs HI1 Ht' Had); [ | done].
    unfold raw. destruct mountable; [done | intros [? [=]]]. }
  apply (runs_bind _ _ (fun s' => vfs_inv c (n + 1) s' h /\ knowndevs s' = knowndevs s ++ [entry])).
  - rewrite Es. unfold set_devnumber. destruct dev as [d | ]; cbn.
    + destruct (ad_device _ _ _ _ Had d eq_refl) as [dv Hdv]. rewrite Hdv. cbn. rewrite <- Hkd. split; [ | done].
      apply G. intros d' Hd'. destruct (decide (d' = d)) as [-> | ]; [rewrite lookup_insert_eq; eauto | by rewrite lookup_insert_ne].
    + rewrite <- Hkd. split; [ | done]. by apply (G (devices s1)).
  - intros s6 [HI6 E6]. pose proof (biglock_release_ok c n s6 h HI6 Hn) as Hrel.
    destruct (vfs_biglock_release s6 c) as [s7 | ] eqn:E7; [ | done].
    destruct Hrel as [HI7 _]. cbn. split; [done |]. destruct (release_shape _ _ _ E7) as (lk' & d' & ->). cbn. eauto.
Qed.

End Add.

Lemma vfs_doadd_ok c n s h dname mountable dev fs :
  vfs_inv c n s h -> add_ok s mountable dev fs ->
  runs (vfs_doadd s c dname mountable dev fs) (fun a => vfs_inv c n a.1 h /\ added s dname mountable dev fs a).
Proof.
  intros HI Had. assert (Hn : 0 <= n) by apply (iv_lock _ _ _ _ HI). unfold vfs_doadd.
  pose proof (biglock_acquire_ok c n s h HI) as Hacq. destruct (vfs_biglock_acquire s c) as [s1 | ] eqn:Ea; [ | done].
  cbn [rbind]. destruct Hacq as [HI1 E1]. destruct (acquire_shape _ _ _ Ea) as (lk & dep & Es1).
  assert (Hkd : knowndevs s1 = knowndevs s) by by rewrite Es1.
  assert (Had1 : add_ok s1 mountable dev fs) by by (rewrite Es1; destruct Had; split).
  pose proof (doadd_fails c n h s s1 dname mountable dev fs Hn HI1 Hkd E1) as Hfail.
  destruct (kmalloc s1) as [s2 name] eqn:E2.
  destruct (kmalloc_tmp _ _ _ _ _ _ (tmp_start _ (vk_heap _ (iv_vn _ _ _ _ HI1))) E2) as [Es2 Ht2].
  unfold attempt, distinct in *.
  destruct name as [name | ]; [ | apply Hfail; cbn [opt_set fmap option_fmap option_map];
    [done | by replace (∅ ∪ ∅ ∪ ∅ ∪ ∅) with (∅ : gset Z) by set_solver | set_solver | done]].
  destruct Ht2 as (_ & _ & Ht2).
  destruct (doadd_rawname s1 mountable s2 name Es2 Ht2) as (s3 & rawname & -> & Es3 & Dr & Ht3).
  destruct (mountable && bool_decide (rawname = None)) eqn:Em.
  { apply Hfail; cbn [opt_set fmap option_fmap option_map]; [done | | set_solver | done].
    apply andb_true_iff in Em as [_ Em]. apply bool_decide_eq_true in Em. subst rawname.
    by replace ({[name]} ∪ ∅ ∪ ∅ ∪ ∅) with ({[name]} ∪ opt_set None) by set_solver. }
  unfold dev_create_vnode. destruct (kmalloc s3) as [s4 v] eqn:E4. destruct (kmalloc_tmp _ _ _ _ _ _ Ht3 E4) as [Es4 Ht4].
  destruct v as [v | ]; [ | apply Hfail; cbn [opt_set fmap option_fmap option_map]; [by rewrite Es4, Es3 | | set_solver | done];
    by replace ({[name]} ∪ opt_set rawname ∪ ∅ ∪ ∅) with ({[name]} ∪ opt_set rawname) by set_solver].
  destruct Ht4 as (Hv & _ & Ht4). apply (tmp_vnode _ _ _ v dev) in Ht4; [ | set_solver].
  destruct (kmalloc (with_st s4 (vnode_init (st s4) v (DevOps dev) None))) as [s5 kd] eqn:E5.
  destruct (kmalloc_tmp (st s1) (with_st s4 (vnode_init (st s4) v (DevOps dev) None)) _ _ _ _ Ht4 E5) as [Es5 Ht5].
  assert (Es5' : s5 = with_st s1 (st s5)) by (rewrite Es5, Es4, Es3; done).
  destruct kd as [kd | ]; [ | apply Hfail; cbn [opt_set fmap option_fmap option_map]; [done | | set_solver | done];
    by replace ({[name]} ∪ opt_set rawname ∪ {[v]} ∪ ∅) with ({[v]} ∪ ({[name]} ∪ opt_set rawname)) by set_solver].
  destruct Ht5 as (Hkdf & _ & Ht5).
  apply (doadd_enter_ok c n h s s1); try done; unfold attempt, distinct; cbn [opt_set]; [ | set_solver].
  by replace ({[name]} ∪ opt_set rawname ∪ {[v]} ∪ {[kd]}) with ({[kd]} ∪ ({[v]} ∪ ({[name]} ∪ opt_set rawname))) by set_solver.
Qed.

(** ** Histories *)

Inductive vfs_call :=
| COpen (path : list Z) (flags mode : Z)
| CClose (v : Z)
| CLookup (path : list Z)
| CRemove (path : list Z)
| CRename (oldpath newpath : list Z)
| CLink (oldpath newpath : list Z)
| CSymlink (contents path : list Z)
| CReadlink (path : list Z) (u : uio)
| CMkdir (path : list Z) (mode : Z)
| CRmdir (path : list Z)
| CChdir (path : list Z)
| CSetcurdir (v : Z)
| CClearcurdir
| CGetcwd (u : uio)
| CSetbootfs (name : list Z)
| CClearbootfs
| CSync
| CAdddev (name : list Z) (dev : Z) (mountable : bool)
| CAddfs (name : list Z) (fs : Z)
| CMount (name : list Z) (mf : @mount_fun F)
| CUnmount (name : list Z)
| CUnmountall.

(** The return value, and the vnode that the caller gets. *)
Definition vfs_step s c (k : vfs_call) : res (vfs F * Z * option Z) :=
  let plain m := let* (s, r) := m in Ok (s, r, None) in
  let void m := let* s := m in Ok (s, 0, None) in
  let data m := let* (s, u, r) := m in Ok (s, r, None) in
  match k with
  | COpen path flags mode => vfs_open s c path flags mode
  | CClose v => void (vfs_close s c v)
  | CLookup path => vfs_lookup s c path
  | CRemove path => plain (vfs_remove s c path)
  | CRename a b => plain (vfs_rename s c a b)
  | CLink a b => plain (vfs_link s c a b)
  | CSymlink a b => plain (vfs_symlink s c a b)
  | CReadlink path u => data (vfs_readlink s c path u)
  | CMkdir path mode => plain (vfs_mkdir s c path mode)
  | CRmdir path => plain (vfs_rmdir s c path)
  | CChdir path => plain (vfs_chdir s c path)
  | CSetcurdir v => plain (vfs_setcurdir s c v)
  | CClearcurdir => plain (vfs_clearcurdir s c)
  | CGetcwd u => data (vfs_getcwd s c u)
  | CSetbootfs name => plain (vfs_setbootfs s c name)
  | CClearbootfs => void (vfs_clearbootfs s c)
  | CSync => plain (vfs_sync s c)
  | CAdddev name dev mountable => plain (vfs_adddev s c name dev mountable)
  | CAddfs name fs => plain (vfs_addfs s c name fs)
  | CMount name mf => plain (vfs_mount s c name mf)
  | CUnmount name => plain (vfs_unmount s c name)
  | CUnmountall => plain (vfs_unmountall s c)
  end.

(** What a call asks of its caller, who holds [h]. *)
Definition call_ok s (h : gmultiset Z) c (k : vfs_call) : Prop :=
  in_interrupt (thr c) = false /\
  match k with
  | CClose v | CSetcurdir v => v ∈ h
  | CGetcwd u => uio_dir u = UIO_READ
  | CAdddev _ dev mountable => add_ok s mountable (Some dev) None
  | CAddfs _ fs => add_ok s false None (Some fs)
  | CMount _ mf => mount_fun_ok mf
  | _ => True
  end.

(** The references the callers hold after a call. *)
Definition held_after (h : gmultiset Z) (k : vfs_call) (r : Z) (o : option Z) : gmultiset Z :=
  match k with
  | COpen _ _ _ | CLookup _ => if r =? 0 then h ⊎ opt_ref o else h
  | CClose v => h ∖ {[+ v +]}
  | _ => h
  end.

Fixpoint vfs_run s (h : gmultiset Z) (l : list (caller * vfs_call)) : res (vfs F * gmultiset Z) :=
  match l with
  | [] => Ok (s, h)
  | (c, k) :: l => let* (s, r, o) := vfs_step s c k in vfs_run s (held_after h k r o) l
  end.

Fixpoint calls_ok s (h : gmultiset Z) (l : list (caller * vfs_call)) : Prop :=
  match l with
  | [] => True
  | (c, k) :: l =>
    call_ok s h c k /\
    match vfs_step s c k with
    | Ok (s, r, o) => calls_ok s (held_after h k r o) l
    | Fault _ => True
    end
  end.

(** Between calls nobody is inside, and anybody can be next. *)
Lemma inv_caller c c' s h : vfs_inv c 0 s h -> in_interrupt (thr c') = false -> vfs_inv c' 0 s h.
Proof. intros [? ? [? ? ? ?] ? ? ? ? ? ? ? ?] Hi. by split. Qed.

Lemma plain_ok c n h (m : res (vfs F * Z)) :
  runs m (fun a => vfs_inv c n a.1 h) -> runs (let* (s, r) := m in Ok (s, r, None : option Z)) (fun a => vfs_inv c n a.1.1 h).
Proof. intros Hm. eapply runs_bind; [exact Hm |]. by intros [s r]. Qed.

Lemma data_ok c n h (m : res (vfs F * uio * Z)) :
  runs m (fun a => vfs_inv c n a.1.1 h) -> runs (let* (s, u, r) := m in Ok (s, r, None : option Z)) (fun a => vfs_inv c n a.1.1 h).
Proof. intros Hm. eapply runs_bind; [exact Hm |]. by intros [[s u] r]. Qed.

Lemma returns_held c n h a : returns_vnode c n h a -> vfs_inv c n a.1.1 (if a.1.2 =? 0 then h ⊎ opt_ref a.2 else h).
Proof. destruct a as [[s r] o]. cbn. destruct (r =? 0); [ | done]. by intros (v & -> & HI). Qed.

Lemma vfs_step_ok c s h k :
  vfs_inv c 0 s h -> call_ok s h c k -> runs (vfs_step s c k) (fun a => vfs_inv c 0 a.1.1 (held_after h k a.1.2 a.2)).
Proof.
  intros HI [_ Hok]. destruct k; cbn [vfs_step held_after];
    try (apply plain_ok; first [by apply vfs_rename_ok | by apply vfs_link_ok | by apply vfs_chdir_ok | by apply vfs_setcurdir_ok |
      by apply vfs_clearcurdir_ok | by apply vfs_setbootfs_ok | by apply vfs_sync_ok | by apply vfs_mount_ok | by apply vfs_unmount_ok |
      by apply vfs_unmountall_ok | (apply in_parent_ok; [done |]; intros ? ? ? ? ? ?;
        first [by apply VOP_REMOVE_ok | by apply VOP_SYMLINK_ok | by apply VOP_MKDIR_ok | by apply VOP_RMDIR_ok]) |
      (eapply runs_mono; [by apply vfs_doadd_ok |]; by intros a [])]);
    try (apply data_ok; first [by apply vfs_readlink_ok | by apply vfs_getcwd_ok]).
  - eapply runs_mono; [by apply vfs_open_ok |]. intros a Ha. by apply returns_held.
  - eapply runs_bind; [by apply (decref_ok c 0 s h v) |]. by intros s'.
  - eapply runs_mono; [by apply vfs_lookup_ok |]. intros a Ha. by apply returns_held.
  - eapply runs_bind; [by apply (vfs_clearbootfs_ok c 0 s h) |]. by intros s'.
Qed.

(** Every sequence of calls into the layer, by any callers, returns: no
    assertion fails and no vnode is used after it is gone. *)
Lemma vfs_run_ok (l : list (caller * vfs_call)) : forall c s h,
  vfs_inv c 0 s h -> calls_ok s h l -> runs (vfs_run s h l) (fun a => exists c', vfs_inv c' 0 a.1 a.2).
Proof.
  induction l as [ | [c' k] l IH]; intros c s h HI Hl; cbn [vfs_run calls_ok] in *; [by exists c |].
  destruct Hl as [Hk Hl]. assert (HI' : vfs_inv c' 0 s h) by (apply (inv_caller c); [done | apply Hk]).
  pose proof (vfs_step_ok c' s h k HI' Hk) as Hs. destruct (vfs_step s c' k) as [[[s1 r] o] | ]; [ | done].
  cbn in Hs |- *. by apply (IH c').
Qed.
End Refs.

(** C7: The VFS layer counts references exactly, for file systems that keep the
    contract [FileSystemLaws] and callers that keep theirs ([calls_ok]).  Of the
    file systems here semfs keeps it while memory is granted
    ([creat_without_memory] in file VfsBoot is what happens otherwise); SFS does
    not on a disk that fails, since sfs_reclaim may then keep its vnode.  Under
    these conditions, path operations, opens and closes, changes of directory,
    devices added and file systems mounted, in any order, one at a time and by
    any callers: every call returns, the count in each vnode is then exactly the
    number of references that the callers and the layer hold to it, and the big
    lock is free. *)
Theorem vfs_references_exact {F} `{FileSystemLaws F} c (s : vfs F) h l
  (HI : vfs_inv c 0 s h) (Hl : calls_ok s h l) :
  exists s' h', vfs_run s h l = Ok (s', h') /\
    (forall v, refs (st s') v = Z.of_nat (multiplicity v (h' ⊎ owned s'))) /\
    (forall v, is_Some (vnodes (st s') !! v) <-> v ∈ h' ⊎ owned s') /\
    vfs_biglock_depth s' = 0 /\ lock_count (vfs_biglock s') = 1.
Proof.
  pose proof (vfs_run_ok l c s h HI Hl) as Hr. destruct (vfs_run s h l) as [[s' h'] | ]; [ | done].
  destruct Hr as [c' HI']. cbn in HI'. exists s', h'. split; [done |]. split; [apply HI' |]. split.
  - intros v. rewrite <- refs_pos by apply HI'. rewrite (iv_refs _ _ _ _ HI'), elem_of_multiplicity. lia.
  - destruct (iv_lock _ _ _ _ HI') as [Hd _ _ [Hc _]]. done.
Qed.
