(* ===== verification/VfsNames.v ===== *)
(** Path names (kern/vfs/vfslookup.c) and the names of devices
    (kern/vfs/vfslist.c): how [getdevice] reads a path, against a grammar of
    paths, what vfs_setbootfs accepts, and names that two devices share. *)
From stdpp Require Import gmultiset.
From S2P Require Import Prelude Coremap Copyinout Synch Vfs.

(** ** The grammar *)

(** Where the search for a file begins. *)
Inductive start := FromCurdir | FromDevice (name : list Z) | FromBootfs | FromCurroot.

(** No ':' and no '/'. *)
Definition plain (l : list Z) : Prop := Forall (fun ch => ch <> 58 /\ ch <> 47) l.
Definition slashes (l : list Z) : Prop := Forall (eq 47) l.

(** The four forms of a path: "file" or "dir/file", "dev:file", "/file" and
    ":file", the last three with any number of slashes before the file. *)
Inductive reads : list Z -> start -> list Z -> Prop :=
| ReadsName name : plain name -> reads name FromCurdir name
| ReadsRelative name rest : plain name -> name <> [] -> reads (name ++ 47 :: rest) FromCurdir (name ++ 47 :: rest)
| ReadsDevice name sl rest : plain name -> name <> [] -> slashes sl -> head rest <> Some 47 ->
    reads (name ++ 58 :: sl ++ rest) (FromDevice name) rest
| ReadsAbsolute sl rest : slashes sl -> head rest <> Some 47 -> reads (47 :: sl ++ rest) FromBootfs rest
| ReadsCurroot sl rest : slashes sl -> head rest <> Some 47 -> reads (58 :: sl ++ rest) FromCurroot rest.

(** ** What [getdevice] makes of a path *)

Section Names.
Context {F : Type} `{FileSystem F}.
Implicit Types s : vfs F.

(** The vnode to begin with. *)
Definition start_vnode s (c : caller) (from : start) : res (vfs F * Z * option Z) :=
  match from with
  | FromCurdir => vfs_getcurdir s c
  | FromDevice name => vfs_getroot s c name
  | FromBootfs =>
    match bootfs_vnode s with
    | None => Ok (s, ENOENT, None)
    | Some v => let* s := VOP_INCREF s v in Ok (s, 0, Some v)
    end
  | FromCurroot =>
    let* (s, result, vn) := vfs_getcurdir s c in
    if negb (result =? 0) then Ok (s, result, None)
    else
    let* v := access vn in
    let* vnode := access (vnodes (st s) !! v) in
    match vn_fs vnode with
    | None => Fault Assertion
    | Some fs =>
      let* (s, result, startvn) := FSOP_GETROOT s fs in
      let* s := VOP_DECREF s c v in
      Ok (s, result, startvn)
    end
  end.
End Names.

Lemma skip_slashes_spec sl rest : slashes sl -> head rest <> Some 47 -> skip_slashes (sl ++ rest) = rest.
Proof.
  intros Hs Hr. induction Hs as [ | ch sl <- _ IH]; cbn; [ | done].
  destruct rest as [ | ch rest]; [done |]. cbn. destruct (Z.eqb_spec ch 47) as [-> | ]; [done | done].
Qed.

Lemma skip_slashes_split l : exists sl, slashes sl /\ l = sl ++ skip_slashes l /\ head (skip_slashes l) <> Some 47.
Proof.
  induction l as [ | ch l (sl & Hs & E & Hh)]; cbn; [by exists []; split; [constructor |] |].
  destruct (Z.eqb_spec ch 47) as [-> | Hne].
  - exists (47 :: sl). split; [by constructor |]. split; [by rewrite E at 1 | done].
  - exists []. split; [constructor |]. split; [done |]. cbn. by intros [= ->].
Qed.

(** The scan stops behind the plain characters. *)
Lemma scan_plain name rest : plain name -> forall i, scan (name ++ rest) i = scan rest (i + zlen name).
Proof.
  unfold zlen. induction 1 as [ | ch name [H1 H2] _ IH]; intros i; cbn; [by rewrite Z.add_0_r |].
  destruct (Z.eqb_spec ch 58); [done |]. destruct (Z.eqb_spec ch 47); [done |]. rewrite IH. f_equal. lia.
Qed.

Lemma plain_split l : exists name rest, plain name /\ l = name ++ rest /\ (rest = [] \/ head rest = Some 58 \/ head rest = Some 47).
Proof.
  induction l as [ | ch l (name & rest & Hp & -> & Hr)].
  - exists [], []. split; [constructor | auto].
  - destruct (decide (ch = 58)) as [-> | H1]; [exists [], (58 :: name ++ rest); split; [constructor | auto] |].
    destruct (decide (ch = 47)) as [-> | H2]; [exists [], (47 :: name ++ rest); split; [constructor | auto] |].
    exists (ch :: name), rest. split; [by constructor | auto].
Qed.

(** Every path has a form. *)
Lemma reads_total path : exists from rest, reads path from rest.
Proof.
  destruct (plain_split path) as (name & rest & Hp & -> & Hr).
  destruct Hr as [-> | Hr]; [rewrite app_nil_r; by exists FromCurdir, name; constructor |].
  destruct rest as [ | ch rest]; [by destruct Hr |]. cbn in Hr.
  destruct (skip_slashes_split rest) as (sl & Hs & E & Hh).
  destruct Hr as [[= ->] | [= ->]].
  - rewrite E. destruct name as [ | a name]; [by exists FromCurroot, (skip_slashes rest); constructor |].
    exists (FromDevice (a :: name)), (skip_slashes rest). by constructor.
  - destruct name as [ | a name].
    + rewrite E. exists FromBootfs, (skip_slashes rest). by constructor.
    + eexists FromCurdir, _. by constructor.
Qed.

(** The form as a function. *)
Definition read_path (path : list Z) : start * list Z :=
  let (colon, slash) := scan path 0 in
  if (colon <? 0) && negb (slash =? 0) then (FromCurdir, path)
  else if 0 <? colon then (FromDevice (take (Z.to_nat colon) path), skip_slashes (drop (Z.to_nat (colon + 1)) path))
  else (if bool_decide (head path = Some 47) then FromBootfs else FromCurroot, skip_slashes (tail path)).

Lemma reads_read_path path from rest : reads path from rest -> read_path path = (from, rest).
Proof.
  unfold read_path. intros Hr. destruct Hr as [name Hp | name rest Hp Hne | name sl rest Hp Hne Hs Hh | sl rest Hs Hh | sl rest Hs Hh].
  - pose proof (scan_plain name [] Hp 0) as E. rewrite app_nil_r in E. by rewrite E.
  - rewrite scan_plain by done. cbn [scan]. unfold zlen. destruct name; [done |].
    destruct (Z.eqb_spec (0 + Z.of_nat (length (z :: name))) 0) as [E | ]; [cbn in E; lia |]. done.
  - rewrite scan_plain by done. cbn [scan]. unfold zlen. rewrite Z.add_0_l. set (k := Z.of_nat (length name)).
    change (58 =? 58) with true. cbv beta iota zeta.
    assert (0 < k) by (destruct name; [done |]; subst k; cbn; lia).
    destruct (Z.ltb_spec k 0); [lia |]. cbn [andb]. destruct (Z.ltb_spec 0 k); [ | lia].
    replace (Z.to_nat (k + 1)) with (S (length name)) by lia. replace (Z.to_nat k) with (length name) by lia.
    rewrite take_app_length. replace (drop (S (length name)) (name ++ 58 :: sl ++ rest)) with (sl ++ rest).
    + by rewrite skip_slashes_spec.
    + rewrite drop_app_ge by lia. by replace (S (length name) - length name)%nat with 1%nat by lia.
  - cbn. by rewrite skip_slashes_spec.
  - cbn. by rewrite skip_slashes_spec.
Qed.

Lemma reads_unique path from rest from' rest' : reads path from rest -> reads path from' rest' -> from' = from /\ rest' = rest.
Proof. intros H1%reads_read_path H2%reads_read_path. rewrite H1 in H2. by injection H2. Qed.

(** ':' is first: the scan stops there. *)
Lemma scan_cases path colon slash : scan path 0 = (colon, slash) ->
  (colon < 0 /\ slash <> 0) \/ 0 < colon \/ (colon <= 0 /\ (slash = 0 /\ head path = Some 47 \/ colon = 0 /\ head path = Some 58)).
Proof.
  intros E. destruct (plain_split path) as (name & rest & Hp & -> & Hr). rewrite scan_plain, Z.add_0_l in E by done. unfold zlen in E.
  destruct Hr as [-> | Hr]; [injection E as <- <-; left; lia |]. destruct rest as [ | ch rest]; [by destruct Hr |]. cbn in Hr.
  destruct name as [ | a name]; cbn in E |- *; destruct Hr as [[= ->] | [= ->]]; cbn in E; injection E as <- <-; [right; right; split; [lia | auto] | right; right; split; [lia | auto] | right; left; lia | left; lia].
Qed.

Section Reads.
Context {F : Type} `{FileSystem F}.

(** [getdevice] begins where the form of the path says. *)
Lemma getdevice_start (s : vfs F) c path from rest :
  reads path from rest -> vfs_biglock_do_i_hold s c = true ->
  getdevice s c path = let* (s, result, startvn) := start_vnode s c from in Ok (s, result, rest, startvn).
Proof.
  intros Hr%reads_read_path Hl. unfold getdevice. rewrite Hl. cbn [kassert]. unfold read_path in Hr.
  destruct (scan path 0) as [colon slash] eqn:E. apply scan_cases in E as [[H1 H2] | [H1 | (H1 & H2)]].
  - destruct (Z.ltb_spec colon 0), (Z.eqb_spec slash 0); try lia. by injection Hr as <- <-.
  - destruct (Z.ltb_spec colon 0); [lia |]. destruct (Z.ltb_spec 0 colon); [ | lia]. by injection Hr as <- <-.
  - assert ((colon <? 0) && negb (slash =? 0) = false) as Ec.
    { destruct H2 as [[-> _] | [-> _]]; [by rewrite andb_false_r | done]. }
    rewrite Ec in Hr |- *. destruct (Z.ltb_spec 0 colon); [lia |]. injection Hr as <- <-.
    destruct H2 as [[-> Hh] | [-> Hh]]; rewrite Hh; [by rewrite orb_true_r |]. done.
Qed.
End Reads.

(** C26: The path names of the kernel: each path has one of the four forms, and only
    that one, and the search for it begins where the form says, the device named
    being everything before the ':' and the rest being what follows the slashes. *)
Theorem getdevice_reads {F} `{FileSystem F} (s : vfs F) c path (Hl : vfs_biglock_do_i_hold s c = true) :
  exists from rest, reads path from rest /\
    (forall from' rest', reads path from' rest' -> from' = from /\ rest' = rest) /\
    getdevice s c path = let* (s, result, startvn) := start_vnode s c from in Ok (s, result, rest, startvn).
Proof.
  destruct (reads_total path) as (from & rest & Hr). exists from, rest. split; [done |]. split; [ | by apply getdevice_start].
  intros from' rest' Hr'. by apply (reads_unique path).
Qed.

(** ** The names of devices *)

Section DeviceNames.
Context {F : Type} `{FileSystem F}.
Implicit Types s : vfs F.

(** All the names of a device: its own, the raw device's, and that of the
    volume mounted on it. *)
Definition kd_names (d : F) (kd : knowndev) : list (list Z) :=
  kd_name kd :: option_list (kd_rawname kd) ++ match kd_fs kd with Some fs => option_list (fsop_getvolname d fs) | None => [] end.

Definition unique_names s : Prop := forall i j kd kd' nm,
  knowndevs s !! i = Some kd -> knowndevs s !! j = Some kd' ->
  nm ∈ kd_names (fsdata (st s)) kd -> nm ∈ kd_names (fsdata (st s)) kd' -> i = j.

(** What the comment on struct knowndev says a name of the device refers to. *)
Definition named_vnode s (kd : knowndev) (nm : list Z) : res (vfs F * Z * option Z) :=
  match kd_fs kd with
  | Some fs =>
    if decide (nm = kd_name kd \/ fsop_getvolname (fsdata (st s)) fs = Some nm) then FSOP_GETROOT s fs else getroot_device s kd
  | None => if decide (nm = kd_name kd /\ is_Some (kd_rawname kd)) then Ok (s, ENXIO, None) else getroot_device s kd
  end.

Lemma samestring_spec (a b : option (list Z)) : samestring a b = true <-> exists nm, a = Some nm /\ b = Some nm.
Proof.
  destruct a as [a | ], b as [b | ]; cbn; rewrite ?bool_decide_eq_true; split; try (naive_solver).
Qed.

Lemma samestring3_spec (a n1 n2 n3 : option (list Z)) :
  samestring3 a n1 n2 n3 = true <-> exists nm, a = Some nm /\ (n1 = Some nm \/ n2 = Some nm \/ n3 = Some nm).
Proof. unfold samestring3. rewrite !orb_true_iff, !samestring_spec. naive_solver. Qed.

Lemma in_kd_names (d : F) kd nm :
  nm ∈ kd_names d kd <-> nm = kd_name kd \/ kd_rawname kd = Some nm \/ exists fs, kd_fs kd = Some fs /\ fsop_getvolname d fs = Some nm.
Proof.
  unfold kd_names. rewrite elem_of_cons, elem_of_app.
  assert (E : forall o : option (list Z), nm ∈ option_list o <-> o = Some nm) by (intros [a | ]; cbn; rewrite ?list_elem_of_singleton, ?elem_of_nil; naive_solver).
  rewrite E. destruct (kd_fs kd) as [fs | ]; [rewrite E; naive_solver |]. rewrite elem_of_nil. naive_solver.
Qed.

(** [badnames] finds a name that a device has. *)
Lemma badnames_spec (l : list knowndev) (x : store F) n1 n2 n3 :
  badnames_loop l x n1 n2 n3 = true <->
  exists kd nm, kd ∈ l /\ nm ∈ kd_names (fsdata x) kd /\ (n1 = Some nm \/ n2 = Some nm \/ n3 = Some nm).
Proof.
  induction l as [ | kd l IH]; cbn; [split; [done | by intros (kd & nm & ?%elem_of_nil & _)] |].
  rewrite !orb_true_iff, IH, !samestring3_spec. split.
  - intros [[Hv | [(nm & E & Hn) | (nm & E & Hn)]] | (kd' & nm & Hk & Hn & Hx)].
    + destruct (kd_fs kd) as [fs | ] eqn:Ef; [ | done]. apply samestring3_spec in Hv as (nm & E & Hn).
      exists kd, nm. split; [by left |]. rewrite in_kd_names. naive_solver.
    + exists kd, nm. split; [by left |]. rewrite in_kd_names. naive_solver.
    + exists kd, nm. split; [by left |]. rewrite in_kd_names. naive_solver.
    + exists kd', nm. split; [by right | done].
  - intros (kd' & nm & Hk & Hn & Hx). apply elem_of_cons in Hk as [-> | Hk]; [ | right; exists kd', nm; auto]. left.
    apply in_kd_names in Hn as [-> | [Er | (fs & Ef & Ev)]].
    + right; right. eauto.
    + right; left. eauto.
    + left. rewrite Ef, samestring3_spec. eauto.
Qed.

(** The loop passes the devices that do not have the name. *)
Lemma getroot_loop_skip s (l : list knowndev) kd nm :
  nm ∉ kd_names (fsdata (st s)) kd -> getroot_loop (kd :: l) s nm = getroot_loop l s nm.
Proof.
  rewrite in_kd_names. intros Hn. cbn. rewrite (bool_decide_eq_false_2 (kd_name kd = nm)) by naive_solver.
  rewrite (bool_decide_eq_false_2 (kd_rawname kd = Some nm)) by naive_solver.
  destruct (kd_fs kd) as [fs | ]; [ | by rewrite andb_false_r].
  rewrite bool_decide_eq_false_2 by naive_solver. done.
Qed.

Lemma getroot_loop_here s (l : list knowndev) kd nm :
  nm ∈ kd_names (fsdata (st s)) kd -> getroot_loop (kd :: l) s nm = named_vnode s kd nm.
Proof.
  rewrite in_kd_names. intros Hn. unfold named_vnode. cbn.
  destruct (kd_fs kd) as [fs | ] eqn:Ef.
  - destruct (decide (nm = kd_name kd \/ _)) as [Hd | Hd].
    + assert (bool_decide (kd_name kd = nm) || bool_decide (fsop_getvolname (fsdata (st s)) fs = Some nm) = true) as -> by
        (rewrite orb_true_iff, !bool_decide_eq_true; naive_solver). done.
    + rewrite !(bool_decide_eq_false_2 (kd_name kd = nm)) by naive_solver.
      rewrite (bool_decide_eq_false_2 (fsop_getvolname _ _ = _)) by naive_solver. rewrite bool_decide_eq_true_2 by naive_solver. done.
  - destruct (decide (nm = kd_name kd /\ _)) as [[-> Hr] | Hd].
    + rewrite (bool_decide_eq_true_2 (is_Some _)) by done. by rewrite bool_decide_eq_true_2.
    + assert (bool_decide (is_Some (kd_rawname kd)) && bool_decide (kd_name kd = nm) = false) as ->.
      { apply not_true_iff_false. rewrite andb_true_iff, !bool_decide_eq_true. naive_solver. }
      destruct (decide (kd_name kd = nm)) as [En | En].
      * rewrite bool_decide_eq_true_2 by done. cbn. rewrite bool_decide_eq_true_2; [done |]. destruct (kd_rawname kd); [ | done]. exfalso. naive_solver.
      * rewrite bool_decide_eq_false_2 by done. rewrite bool_decide_eq_true_2 by naive_solver. done.
Qed.

Lemma getroot_loop_none s (l : list knowndev) nm :
  (forall kd, kd ∈ l -> nm ∉ kd_names (fsdata (st s)) kd) -> getroot_loop l s nm = Ok (s, ENODEV, None).
Proof.
  induction l as [ | kd l IH]; intros Hn; [done |]. rewrite getroot_loop_skip by (apply Hn; by left). apply IH. intros kd' Hk. apply Hn. by right.
Qed.

Lemma getroot_loop_found s (l1 l2 : list knowndev) kd nm :
  (forall kd', kd' ∈ l1 -> nm ∉ kd_names (fsdata (st s)) kd') -> nm ∈ kd_names (fsdata (st s)) kd ->
  getroot_loop (l1 ++ kd :: l2) s nm = named_vnode s kd nm.
Proof.
  induction l1 as [ | kd' l1 IH]; intros Hn Hk; [by apply getroot_loop_here |]. cbn [app].
  rewrite getroot_loop_skip by (apply Hn; by left). apply IH; [ | done]. intros kd0 Hk0. apply Hn. by right.
Qed.

(** ** Adding a device keeps the names apart *)

Definition keeps s s' : Prop := fsdata (st s') = fsdata (st s) /\ knowndevs s' = knowndevs s.

Lemma keeps_trans s1 s2 s3 : keeps s1 s2 -> keeps s2 s3 -> keeps s1 s3.
Proof. intros [] []. split; congruence. Qed.

Lemma acquire_keeps s c s' : vfs_biglock_acquire s c = Ok s' -> keeps s s'.
Proof.
  unfold vfs_biglock_acquire. destruct (lock_do_i_hold _ _); [by intros [= <-] |].
  destruct (lock_acquire _ _) as [[lk []] | ]; [by intros [= <-] | done..].
Qed.

Lemma release_keeps s c s' : vfs_biglock_release s c = Ok s' -> keeps s s'.
Proof.
  unfold vfs_biglock_release. destruct (lock_do_i_hold _ _); [ | done]. destruct (0 <? _); [ | done]. cbn.
  destruct (_ =? 0); [ | by intros [= <-]]. destruct (lock_release _ _); [by intros [= <-] | done].
Qed.

Lemma kfree_if_keeps s p s' : kfree_if s p = Ok s' -> keeps s s'.
Proof. unfold kfree_if. destruct p; [ | by intros [= <-]]. destruct (hfree _ _); [by intros [= <-] | done]. Qed.

Lemma uncreate_keeps s v s' : dev_uncreate_vnode s v = Ok s' -> keeps s s'.
Proof.
  unfold dev_uncreate_vnode, vnode_cleanup. destruct (vnodes (st s) !! v) as [vn | ]; [ | done]. cbn.
  destruct (vn_ops vn); [ | done]. cbn. destruct (vn_refcount vn =? 1); [ | done]. cbn. destruct (hfree _ _); [by intros [= <-] | done].
Qed.

Lemma fail_keeps s c name rawname vn kd e s' r : doadd_fail s c name rawname vn kd e = Ok (s', r) -> keeps s s' /\ r = e.
Proof.
  unfold doadd_fail. intros E.
  destruct (kfree_if s name) as [s1 | ] eqn:E1; [ | done]. cbn in E. destruct (kfree_if s1 rawname) as [s2 | ] eqn:E2; [ | done]. cbn in E.
  assert (Hv : forall s3, match vn with Some v => dev_uncreate_vnode s2 v | None => Ok s2 end = Ok s3 -> keeps s2 s3).
  { intros s3. destruct vn; [apply uncreate_keeps | by intros [= <-]]. }
  destruct (match vn with Some v => _ | None => _ end) as [s3 | ] eqn:E3; [ | done]. cbn in E.
  destruct (kfree_if s3 kd) as [s4 | ] eqn:E4; [ | done]. cbn in E. destruct (vfs_biglock_release s4 c) as [s5 | ] eqn:E5; [ | done].
  injection E as <- <-. split; [ | done]. specialize (Hv s3 eq_refl).
  eapply keeps_trans; [by eapply kfree_if_keeps |]. eapply keeps_trans; [by eapply kfree_if_keeps |].
  eapply keeps_trans; [exact Hv |]. eapply keeps_trans; [by eapply kfree_if_keeps | by eapply release_keeps].
Qed.

Lemma kmalloc_keeps s s' p : kmalloc s = (s', p) -> keeps s s'.
Proof. unfold kmalloc. destruct (halloc _). by intros [= <- _]. Qed.

(** The names the new device has. *)
Definition new_names s (dname : list Z) (mountable : bool) (fs : option Z) : list (list Z) :=
  dname :: (if mountable then [mkrawname dname] else []) ++ match fs with Some f => option_list (fsop_getvolname (fsdata (st s)) f) | None => [] end.

Definition free_names s (l : list (list Z)) : Prop := forall kd nm, kd ∈ knowndevs s -> nm ∈ kd_names (fsdata (st s)) kd -> nm ∉ l.

(** On success the names were free and the device is in the list; otherwise the
    list is as before. *)
Definition doadd_effect s (dname : list Z) (mountable : bool) (dev fs : option Z) s' (r : Z) : Prop :=
  fsdata (st s') = fsdata (st s) /\
  if r =? 0 then free_names s (new_names s dname mountable fs) /\
    exists v, knowndevs s' = knowndevs s ++ [mkKd dname (if mountable then Some (mkrawname dname) else None) dev v fs]
  else knowndevs s' = knowndevs s.

Lemma fail_effect s0 s c name rawname vn kd e s' r dname mountable dev fs :
  keeps s0 s -> e <> 0 -> doadd_fail s c name rawname vn kd e = Ok (s', r) -> doadd_effect s0 dname mountable dev fs s' r.
Proof.
  intros K He E. apply fail_keeps in E as [K' ->]. destruct (keeps_trans _ _ _ K K') as [E1 E2]. split; [done |].
  by destruct (Z.eqb_spec e 0).
Qed.

Lemma set_devnumber_keeps s dev n s' : set_devnumber s dev n = Ok s' -> keeps s s'.
Proof. unfold set_devnumber. destruct dev as [d | ]; [ | by intros [= <-]]. destruct (devices s !! d); [by intros [= <-] | done]. Qed.

Lemma enter_effect s0 s c name rawname v kd dname mountable dev fs s' r :
  keeps s0 s -> doadd_enter s c name rawname v kd dname mountable dev fs = Ok (s', r) -> doadd_effect s0 dname mountable dev fs s' r.
Proof.
  intros K. unfold doadd_enter, badnames. destruct (vfs_biglock_do_i_hold s c); [ | done]. cbn [kassert rbind].
  destruct (badnames_loop _ _ _ _ _) eqn:Eb; [by apply fail_effect |].
  destruct (array_room _) as [h room]. destruct room; cbn [negb]; [ | by apply fail_effect].
  set (s1 := with_knowndevs _ _). destruct (set_devnumber s1 dev _) as [s2 | ] eqn:E2; [ | done]. cbn [rbind].
  destruct (vfs_biglock_release s2 c) as [s3 | ] eqn:E3; [ | done]. intros [= <- <-].
  apply set_devnumber_keeps in E2. apply release_keeps in E3. destruct (keeps_trans _ _ _ E2 E3) as [D1 D2], K as [K1 K2].
  split; [rewrite D1; done |]. cbn [Z.eqb]. split.
  - intros kd0 nm Hk Hn Hin. rewrite <- not_true_iff_false in Eb. apply Eb. apply badnames_spec. exists kd0, nm.
    rewrite K1, K2. split; [done |]. split; [done |]. revert Hin. unfold new_names. rewrite elem_of_cons, elem_of_app.
    intros [-> | [Hr | Hv]]; [by left | right; left | right; right].
    + destruct mountable; [by apply list_elem_of_singleton in Hr as -> | by apply elem_of_nil in Hr].
    + destruct fs as [f | ]; [ | by apply elem_of_nil in Hv]. destruct (fsop_getvolname (fsdata (st s0)) f) as [a | ] eqn:Ef; [ | by apply elem_of_nil in Hv].
      apply list_elem_of_singleton in Hv as ->. by rewrite <- K1 in Ef.
  - exists v. rewrite D2. cbn. by rewrite K2.
Qed.

Lemma vfs_doadd_effect s c dname mountable dev fs s' r :
  vfs_doadd s c dname mountable dev fs = Ok (s', r) -> doadd_effect s dname mountable dev fs s' r.
Proof.
  unfold vfs_doadd. destruct (vfs_biglock_acquire s c) as [s1 | ] eqn:E1; [ | done]. apply acquire_keeps in E1. cbn [rbind].
  destruct (kmalloc s1) as [s2 name] eqn:E2. apply kmalloc_keeps in E2. pose proof (keeps_trans _ _ _ E1 E2) as K2.
  destruct name as [name | ]; [ | by apply fail_effect].
  assert (K3 : forall s3 o, (if mountable then kmalloc s2 else (s2, None)) = (s3, o) -> keeps s s3).
  { intros s3 o. destruct mountable; [intros E; by eapply keeps_trans, kmalloc_keeps | by intros [= <- _]]. }
  destruct (if mountable then kmalloc s2 else (s2, None)) as [s3 rawname]. specialize (K3 s3 rawname eq_refl).
  destruct (mountable && _); [by apply fail_effect |].
  unfold dev_create_vnode. destruct (kmalloc s3) as [s4 v] eqn:E4. apply kmalloc_keeps in E4. pose proof (keeps_trans _ _ _ K3 E4) as K4.
  destruct v as [v | ]; [ | by apply fail_effect].
  destruct (kmalloc _) as [s5 kd] eqn:E5. apply kmalloc_keeps in E5. assert (K5 : keeps s s5) by (eapply keeps_trans; [ | exact E5]; exact K4).
  destruct kd; [by apply enter_effect | by apply fail_effect].
Qed.

Lemma doadd_unique s c dname mountable dev fs s' r :
  unique_names s -> vfs_doadd s c dname mountable dev fs = Ok (s', r) -> unique_names s'.
Proof.
  intros Hu E. apply vfs_doadd_effect in E as [Ed E]. unfold unique_names. rewrite Ed. destruct (r =? 0); [ | by rewrite E].
  destruct E as [Hfree [v ->]]. set (kd0 := mkKd _ _ _ _ _).
  assert (Hnew : forall nm, nm ∈ kd_names (fsdata (st s)) kd0 -> nm ∈ new_names s dname mountable fs).
  { intros nm. unfold kd_names, new_names. cbn. by destruct mountable. }
  intros i j kd kd' nm Hi Hj Hn Hn'. apply lookup_app_Some in Hi as [Hi | [Hl1 Hi]], Hj as [Hj | [Hl2 Hj]].
  - by apply (Hu i j kd kd' nm).
  - apply list_lookup_singleton_Some in Hj as [_ <-]. exfalso. apply (Hfree kd nm); auto. by eapply list_elem_of_lookup_2.
  - apply list_lookup_singleton_Some in Hi as [_ <-]. exfalso. apply (Hfree kd' nm); auto. by eapply list_elem_of_lookup_2.
  - apply list_lookup_singleton_Some in Hi as [Hi _], Hj as [Hj _]. lia.
Qed.
End DeviceNames.

(** C27: Names of devices.  Adding devices and file systems keeps all names apart:
    the devices', the raw devices' and the volumes'.  While they are, a name
    refers to what the comment on struct knowndev says, wherever the device is
    in the list: the root of the file system for the device's or the volume's
    name, ENXIO for a mountable device without one, the device itself for its
    raw name or if it cannot be mounted on; a name that no device has is
    ENODEV. *)
Theorem device_names {F} `{FileSystem F} (s : vfs F) c (Hl : vfs_biglock_do_i_hold s c = true) (Hu : unique_names s) :
  (forall kd nm, kd ∈ knowndevs s -> nm ∈ kd_names (fsdata (st s)) kd -> vfs_getroot s c nm = named_vnode s kd nm) /\
  (forall nm, (forall kd, kd ∈ knowndevs s -> nm ∉ kd_names (fsdata (st s)) kd) -> vfs_getroot s c nm = Ok (s, ENODEV, None)) /\
  (forall dname mountable dev fs s' r, vfs_doadd s c dname mountable dev fs = Ok (s', r) -> unique_names s').
Proof.
  unfold vfs_getroot. rewrite Hl. split; [ | split].
  - intros kd nm Hk Hn. apply list_elem_of_lookup in Hk as [i Hi]. cbn [kassert].
    rewrite <- (take_drop_middle _ _ _ Hi). apply getroot_loop_found; [ | done].
    intros kd' [j Hj]%list_elem_of_lookup Hn'. apply lookup_take_Some in Hj as [Hj Hlt].
    rewrite (Hu i j kd kd' nm Hi Hj Hn Hn') in Hlt. lia.
  - intros nm Hn. by apply getroot_loop_none.
  - intros dname mountable dev fs s' r. by apply doadd_unique.
Qed.

Lemma from_colon_spec (l : list Z) : 58 ∈ l -> exists l', from_colon l = Some (58 :: l').
Proof.
  induction l as [ | ch l IH]; intros Hc; [by apply elem_of_nil in Hc |]. cbn. destruct (Z.eqb_spec ch 58) as [-> | Hne]; [eauto |].
  apply IH. apply elem_of_cons in Hc as [ | ]; [done | done].
Qed.

(** vfs_setbootfs refuses every name with a colon, also one at its end, and
    leaves only the big lock's sleepers different. *)
Theorem setbootfs_no_colon {F} `{FileSystem F} (s : vfs F) c fsname
  (Hl : lock_count (vfs_biglock s) = 1) (Hh : lock_holder (vfs_biglock s) = None) (Hd : vfs_biglock_depth s = 0)
  (Hi : in_interrupt (thr c) = false) (Hc : 58 ∈ take 254 fsname) :
  exists lk, vfs_setbootfs s c fsname = Ok (with_biglock s lk 0, EINVAL).
Proof.
  unfold vfs_setbootfs, vfs_biglock_acquire, lock_acquire, lock_acquire_loop, lock_do_i_hold. rewrite Hh, Hi, Hl, Hd.
  rewrite bool_decide_eq_false_2 by done. cbn. destruct (from_colon_spec _ Hc) as [l' ->]. cbn.
  unfold vfs_biglock_release, lock_release, lock_do_i_hold. cbn. rewrite bool_decide_eq_true_2 by done. cbn. eauto.
Qed.

(** The big lock admits a second thread of the same processor: the holder that
    it is compared with is the processor. *)
Theorem biglock_same_cpu {F} `{FileSystem F} (s : vfs F) c c'
  (Hl : lock_count (vfs_biglock s) = 1) (Hh : lock_holder (vfs_biglock s) = None) (Hi : in_interrupt (thr c) = false)
  (Hs : on_cpu (thr c') = on_cpu (thr c)) :
  exists s1 s2, vfs_biglock_acquire s c = Ok s1 /\ vfs_biglock_acquire s1 c' = Ok s2 /\
    vfs_biglock_do_i_hold s2 c = true /\ vfs_biglock_do_i_hold s2 c' = true.
Proof.
  unfold vfs_biglock_acquire, vfs_biglock_do_i_hold, lock_acquire, lock_acquire_loop, lock_do_i_hold.
  rewrite Hh, Hi, Hl. rewrite bool_decide_eq_false_2 by done. cbn. eexists _, _. split; [done |]. cbn.
  rewrite bool_decide_eq_true_2 by congruence. split; [done |]. cbn. rewrite !bool_decide_eq_true. split; congruence.
Qed.
