(* ===== verification/Semfs.v ===== *)
(** The semaphore file system: kern/fs/semfs (semfs.h, semfs_obj.c,
    semfs_vnops.c, semfs_fsops.c), attached to the VFS layer as "sem:".

    A semaphore lives while it is in the directory or has a vnode.  The file
    system's data is the record [semfs], next to the vnodes and the heap of
    file Vfs; vnodes, semaphores and directory entries are in arrays whose slots
    are reused.  Each operation holds the directory lock or the table lock over
    its work and is one step here; the reads and writes of a semaphore, where
    threads sleep and interleave, are in file SemfsSync. *)
From stdpp Require Import gmultiset.
From S2P Require Import Prelude Coremap Copyinout Synch Vfs.

Definition SEMFS_ROOTDIR := 4294967295.

Record semfs_sem := mkSemfsSem {
  sem_block : Z;
  sems_lock : lock;
  sems_cv : cv;
  sems_count : Z;
  sems_hasvnode : bool;
  sems_linked : bool
}.

Record semfs_direntry := mkDent {
  dent_block : Z;
  name_block : Z;
  semd_name : list Z;
  semd_semnum : Z
}.

(** [semv_semnum]: the number in the struct semfs_vnode behind a vnode. *)
Record semfs := mkSemfs {
  semfs_absfs : Z;
  semfs_vnodes : list Z;
  semv_semnum : gmap Z Z;
  semfs_sems : list (option semfs_sem);
  semfs_dents : list (option semfs_direntry)
}.

Implicit Types x : store semfs.

Definition with_data x (d : semfs) : store semfs := mkStore (vnodes x) (kmem x) d.
Definition with_vnode_table x (l : list Z) (m : gmap Z Z) : store semfs :=
  with_data x (mkSemfs (semfs_absfs (fsdata x)) l m (semfs_sems (fsdata x)) (semfs_dents (fsdata x))).
Definition with_sems x (l : list (option semfs_sem)) : store semfs :=
  with_data x (mkSemfs (semfs_absfs (fsdata x)) (semfs_vnodes (fsdata x)) (semv_semnum (fsdata x)) l (semfs_dents (fsdata x))).
Definition with_dents x (l : list (option semfs_direntry)) : store semfs :=
  with_data x (mkSemfs (semfs_absfs (fsdata x)) (semfs_vnodes (fsdata x)) (semv_semnum (fsdata x)) (semfs_sems (fsdata x)) l).

(** array_get and array_set assert that the index is in range. *)
Definition get {A} (l : list A) (i : Z) : res A := match zget l i with Some a => Ok a | None => Fault Assertion end.
Definition set {A} (l : list A) (i : Z) (a : A) : res (list A) := match zput l i a with Some l => Ok l | None => Fault Assertion end.

(** ** Objects (semfs_obj.c) *)

Definition semfs_sem_create x : res (store semfs * option semfs_sem) :=
  let (h, p) := halloc (kmem x) in
  match p with
  | None => Ok (set_kmem x h, None)
  | Some p =>
    let* (h, lk) := lock_create h in
    match lk with
    | None => let* h := hfree h p in Ok (set_kmem x h, None)
    | Some lk =>
      let* (h, v) := cv_create h in
      match v with
      | None => let* h := lock_destroy h lk in let* h := hfree h p in Ok (set_kmem x h, None)
      | Some v => Ok (set_kmem x h, Some (mkSemfsSem p lk v 0 false false))
      end
    end
  end.

Definition semfs_sem_destroy x (sem : semfs_sem) : res (store semfs) :=
  let* h := cv_destroy (kmem x) (sems_cv sem) in
  let* h := lock_destroy h (sems_lock sem) in
  let* h := hfree h (sem_block sem) in
  Ok (set_kmem x h).

(** The first empty slot, from [i] on. *)
Fixpoint empty_slot {A} (l : list (option A)) (i : Z) : option Z :=
  match l with
  | [] => None
  | None :: _ => Some i
  | Some _ :: l => empty_slot l (i + 1)
  end.

(** The return value and [*ret]. *)
Definition semfs_sem_insert x (sem : semfs_sem) : res (store semfs * Z * Z) :=
  let sems := semfs_sems (fsdata x) in
  let num := zlen sems in
  if num =? SEMFS_ROOTDIR then Ok (x, ENOSPC, 0)
  else
  match empty_slot sems 0 with
  | Some i => let* l := set sems i (Some sem) in Ok (with_sems x l, 0, i)
  | None =>
    let (h, room) := array_room (kmem x) in
    let x := set_kmem x h in
    if room : bool then Ok (with_sems x (sems ++ [Some sem]), 0, num) else Ok (x, ENOMEM, 0)
  end.

Definition semfs_direntry_create x (name : list Z) (semnum : Z) : res (store semfs * option semfs_direntry) :=
  let (h, p) := halloc (kmem x) in
  match p with
  | None => Ok (set_kmem x h, None)
  | Some p =>
    let (h, q) := halloc h in
    match q with
    | None => let* h := hfree h p in Ok (set_kmem x h, None)
    | Some q => Ok (set_kmem x h, Some (mkDent p q name semnum))
    end
  end.

Definition semfs_direntry_destroy x (dent : semfs_direntry) : res (store semfs) :=
  let* h := hfree (kmem x) (name_block dent) in
  let* h := hfree h (dent_block dent) in
  Ok (set_kmem x h).

(** ** Vnodes (semfs_vnops.c) *)

Definition semnum_of x (v : Z) : res Z := access (semv_semnum (fsdata x) !! v).

Definition set_hasvnode (sem : semfs_sem) (b : bool) : semfs_sem :=
  mkSemfsSem (sem_block sem) (sems_lock sem) (sems_cv sem) (sems_count sem) b (sems_linked sem).
Definition set_linked (sem : semfs_sem) (b : bool) : semfs_sem :=
  mkSemfsSem (sem_block sem) (sems_lock sem) (sems_cv sem) (sems_count sem) (sems_hasvnode sem) b.
Definition set_count (sem : semfs_sem) (v : cv) (n : Z) : semfs_sem :=
  mkSemfsSem (sem_block sem) (sems_lock sem) v n (sems_hasvnode sem) (sems_linked sem).

(** [sem = semfs_semarray_get(...)], which is then dereferenced. *)
Definition get_sem x (semnum : Z) : res semfs_sem :=
  let* o := get (semfs_sems (fsdata x)) semnum in access o.
Definition put_sem x (semnum : Z) (o : option semfs_sem) : res (store semfs) :=
  let* l := set (semfs_sems (fsdata x)) semnum o in Ok (with_sems x l).

Definition semfs_vnode_destroy x (v : Z) : res (store semfs) :=
  let* x := vnode_cleanup x v in
  let* h := hfree (kmem x) v in
  Ok (with_vnode_table (set_kmem x h) (semfs_vnodes (fsdata x)) (delete v (semv_semnum (fsdata x)))).

Definition semfs_vnode_create x (semnum : Z) : store semfs * option Z :=
  let (h, p) := halloc (kmem x) in
  let x := set_kmem x h in
  match p with
  | None => (x, None)
  | Some v =>
    let x := with_vnode_table x (semfs_vnodes (fsdata x)) (<[v := semnum]> (semv_semnum (fsdata x))) in
    (vnode_init x v FsOps (Some (semfs_absfs (fsdata x))), Some v)
  end.

(** The loop over the vnode table. *)
Fixpoint find_vnode (l : list Z) x (semnum : Z) : res (option Z) :=
  match l with
  | [] => Ok None
  | v :: l =>
    let* n := semnum_of x v in
    if n =? semnum then Ok (Some v) else find_vnode l x semnum
  end.

Definition semfs_getvnode x (semnum : Z) : res (ret_vnode semfs) :=
  let* o := find_vnode (semfs_vnodes (fsdata x)) x semnum in
  match o with
  | Some v => let* x := vnode_incref x v in Ok (x, 0, Some v)
  | None =>
  let (x, o) := semfs_vnode_create x semnum in
  match o with
  | None => Ok (x, ENOMEM, None)
  | Some v =>
  let (h, room) := array_room (kmem x) in
  let x := set_kmem x h in
  if negb room then let* x := semfs_vnode_destroy x v in Ok (x, ENOMEM, None)
  else
  let x := with_vnode_table x (semfs_vnodes (fsdata x) ++ [v]) (semv_semnum (fsdata x)) in
  let* x :=
    if negb (semnum =? SEMFS_ROOTDIR) then
      let* sem := get (semfs_sems (fsdata x)) semnum in
      match sem with
      | None => Fault Assertion
      | Some sem => kassert (negb (sems_hasvnode sem)) (put_sem x semnum (Some (set_hasvnode sem true)))
      end
    else Ok x in
  Ok (x, 0, Some v)
  end
  end.

(** vnodearray_remove of the slot that holds [v]. *)
Fixpoint remove_first (l : list Z) (v : Z) : list Z :=
  match l with
  | [] => []
  | w :: l => if w =? v then l else w :: remove_first l v
  end.

Definition semfs_reclaim x (v : Z) : res (store semfs * Z) :=
  let* vn := access (vnodes x !! v) in
  if 1 <? vn_refcount vn then Ok (set_refcount x v vn (vn_refcount vn - 1), EBUSY)
  else
  let x := with_vnode_table x (remove_first (semfs_vnodes (fsdata x)) v) (semv_semnum (fsdata x)) in
  let* semnum := semnum_of x v in
  let* x :=
    if negb (semnum =? SEMFS_ROOTDIR) then
      let* sem := get_sem x semnum in
      kassert (sems_hasvnode sem) (
      let* x := put_sem x semnum (Some (set_hasvnode sem false)) in
      if negb (sems_linked sem) then
        let* x := put_sem x semnum None in
        semfs_sem_destroy x sem
      else Ok x)
    else Ok x in
  let* x := semfs_vnode_destroy x v in
  Ok (x, 0).

(** ** Operations on semaphores *)

Definition semfs_eachopen x (v openflags : Z) : res (store semfs * Z) :=
  let* semnum := semnum_of x v in
  if semnum =? SEMFS_ROOTDIR then
    if negb (Z.land openflags O_ACCMODE =? O_RDONLY) then Ok (x, EISDIR)
    else if negb (Z.land openflags O_APPEND =? 0) then Ok (x, EISDIR)
    else Ok (x, 0)
  else Ok (x, 0).

Definition semfs_gettype x (v : Z) : res (Z * Z) :=
  let* semnum := semnum_of x v in
  Ok (if semnum =? SEMFS_ROOTDIR then S_IFDIR else S_IFREG, 0).

Definition semfs_isseekable x (v : Z) : res bool :=
  let* semnum := semnum_of x v in Ok (semnum =? SEMFS_ROOTDIR).

(** The condition variable after [semfs_wakeup(sem, newcount)]. *)
Definition semfs_wakeup (sem : semfs_sem) (newcount : Z) : cv :=
  if (0 <? sems_count sem) || (newcount =? 0) then sems_cv sem
  else if newcount =? 1 then cv_signal_wake (sems_cv sem)
  else cv_broadcast_wake (sems_cv sem).

Definition semfs_semstat x (v : Z) : res (stat * Z) :=
  let* semnum := semnum_of x v in
  let* sem := get_sem x semnum in
  Ok (mkStat (sems_count sem) (Z.lor S_IFREG 438) (if sems_linked sem then 1 else 0) 0 0 0 semnum 0, 0).

(** The mode is [S_IFDIR | 1777], in decimal. *)
Definition semfs_dirstat x (v : Z) : res (stat * Z) :=
  Ok (mkStat (zlen (semfs_dents (fsdata x))) (Z.lor S_IFDIR 1777) 2 0 0 0 SEMFS_ROOTDIR 0, 0).

Definition semfs_truncate x (v len : Z) : res (store semfs * Z) :=
  if len <? 0 then Ok (x, EINVAL)
  else if 2 ^ 32 - 1 <? len then Ok (x, EFBIG)
  else
  let* semnum := semnum_of x v in
  let* sem := get_sem x semnum in
  let* x := put_sem x semnum (Some (set_count sem (semfs_wakeup sem len) len)) in
  Ok (x, 0).

(** ** Operations on the directory *)

(** "." and ".." *)
Definition is_dots (name : list Z) : bool := bool_decide (name = [46]) || bool_decide (name = [46; 46]).

(** The loop of semfs_creat, at slot [i]: the entry with this name, and the
    first empty slot before it. *)
Fixpoint creat_loop (l : list (option semfs_direntry)) (i num empty : Z) (name : list Z) : option semfs_direntry * Z :=
  match l with
  | [] => (None, empty)
  | None :: l => creat_loop l (i + 1) num (if empty =? num then i else empty) name
  | Some dent :: l => if bool_decide (semd_name dent = name) then (Some dent, empty) else creat_loop l (i + 1) num empty name
  end.

(** The loop of semfs_remove and semfs_lookup. *)
Fixpoint find_dent (l : list (option semfs_direntry)) (i : Z) (name : list Z) : option (Z * semfs_direntry) :=
  match l with
  | [] => None
  | None :: l => find_dent l (i + 1) name
  | Some dent :: l => if bool_decide (name = semd_name dent) then Some (i, dent) else find_dent l (i + 1) name
  end.

(** [fail_uninsert:] and what follows it. *)
Definition creat_uninsert x (semnum : Z) (sem : semfs_sem) (result : Z) : res (ret_vnode semfs) :=
  let* x := put_sem x semnum None in
  let* x := semfs_sem_destroy x sem in
  Ok (x, result, None).

(** [fail_undent:] *)
Definition creat_undent x (dent : semfs_direntry) (semnum : Z) (sem : semfs_sem) (result : Z) : res (ret_vnode semfs) :=
  let* x := semfs_direntry_destroy x dent in
  creat_uninsert x semnum sem result.

(** The entry goes into the slot that was found, or to the end: the return
    value and the slot. *)
Definition creat_enter x (empty num : Z) (dent : semfs_direntry) : res (store semfs * Z * Z) :=
  let dents := semfs_dents (fsdata x) in
  if empty <? num then let* l := set dents empty (Some dent) in Ok (with_dents x l, 0, empty)
  else
  let (h, room) := array_room (kmem x) in
  let x := set_kmem x h in
  if room : bool then Ok (with_dents x (dents ++ [Some dent]), 0, zlen dents) else Ok (x, ENOMEM, empty).

(** The vnode, and the mark that the semaphore is in the directory. *)
Definition creat_finish x (empty : Z) (dent : semfs_direntry) (semnum : Z) (sem : semfs_sem) : res (ret_vnode semfs) :=
  let* (x, result, vn) := semfs_getvnode x semnum in
  if negb (result =? 0) then
    let* l := set (semfs_dents (fsdata x)) empty None in
    creat_undent (with_dents x l) dent semnum sem result
  else
  let* sem := get_sem x semnum in
  let* x := put_sem x semnum (Some (set_linked sem true)) in
  Ok (x, 0, vn).

Definition semfs_creat x (dirvn : Z) (name : list Z) (excl : bool) (mode : Z) : res (ret_vnode semfs) :=
  if is_dots name then Ok (x, EEXIST, None)
  else
  let num := zlen (semfs_dents (fsdata x)) in
  match creat_loop (semfs_dents (fsdata x)) 0 num num name with
  | (Some dent, _) => if excl then Ok (x, EEXIST, None) else semfs_getvnode x (semd_semnum dent)
  | (None, empty) =>
  let* (x, sem) := semfs_sem_create x in
  match sem with
  | None => Ok (x, ENOMEM, None)
  | Some sem =>
  let* (x, result, semnum) := semfs_sem_insert x sem in
  if negb (result =? 0) then let* x := semfs_sem_destroy x sem in Ok (x, result, None)
  else
  let* (x, dent) := semfs_direntry_create x name semnum in
  match dent with
  | None => creat_uninsert x semnum sem result
  | Some dent =>
  let* (x, result, empty) := creat_enter x empty num dent in
  if negb (result =? 0) then creat_undent x dent semnum sem result
  else
  creat_finish x empty dent semnum sem
  end
  end
  end.

Definition semfs_remove x (dirvn : Z) (name : list Z) : res (store semfs * Z) :=
  if is_dots name then Ok (x, EINVAL)
  else
  match find_dent (semfs_dents (fsdata x)) 0 name with
  | None => Ok (x, ENOENT)
  | Some (i, dent) =>
    let* sem := get_sem x (semd_semnum dent) in
    kassert (sems_linked sem) (
    let* x := put_sem x (semd_semnum dent) (Some (set_linked sem false)) in
    let* x :=
      if negb (sems_hasvnode sem) then
        let* x := put_sem x (semd_semnum dent) None in
        semfs_sem_destroy x sem
      else Ok x in
    let* l := set (semfs_dents (fsdata x)) i None in
    let* x := semfs_direntry_destroy (with_dents x l) dent in
    Ok (x, 0))
  end.

Definition semfs_lookup x (dirvn : Z) (path : list Z) : res (ret_vnode semfs) :=
  if is_dots path then let* x := vnode_incref x dirvn in Ok (x, 0, Some dirvn)
  else
  match find_dent (semfs_dents (fsdata x)) 0 path with
  | None => Ok (x, ENOENT, None)
  | Some (_, dent) => semfs_getvnode x (semd_semnum dent)
  end.

Definition semfs_lookparent x (dirvn : Z) (path : list Z) (bufmax : Z) : res (ret_vnode semfs * list Z) :=
  if bufmax <? zlen path + 1 then Ok (x, ENAMETOOLONG, None, [])
  else
  let* x := vnode_incref x dirvn in
  Ok (x, 0, Some dirvn, path).

(** The name that a read of the directory at [pos] hands to uiomove; [None]: end
    of file. *)
Definition semfs_getdirentry x (pos : Z) : res (option (list Z)) :=
  kassert (0 <=? pos) (
  let pos := u32 pos in
  if zlen (semfs_dents (fsdata x)) <=? pos then Ok None
  else
  let* dent := get (semfs_dents (fsdata x)) pos in
  let* dent := access dent in
  Ok (Some (semd_name dent))).

(** ** The file system (semfs_fsops.c) *)

(** "sem" *)
Definition semfs_volname : list Z := [115; 101; 109].

Definition semfs_getroot x : res (ret_vnode semfs) := semfs_getvnode x SEMFS_ROOTDIR.

Fixpoint destroy_sems (l : list (option semfs_sem)) x : res (store semfs) :=
  match l with
  | [] => Ok x
  | sem :: l => let* sem := access sem in let* x := semfs_sem_destroy x sem in destroy_sems l x
  end.

Fixpoint destroy_dents (l : list (option semfs_direntry)) x : res (store semfs) :=
  match l with
  | [] => Ok x
  | dent :: l => let* dent := access dent in let* x := semfs_direntry_destroy x dent in destroy_dents l x
  end.

Definition semfs_destroy x : res (store semfs) :=
  let* x := destroy_sems (semfs_sems (fsdata x)) x in
  let* x := destroy_dents (semfs_dents (fsdata x)) (with_sems x []) in
  Ok (with_dents x []).

Definition semfs_unmount x : res (store semfs * Z) :=
  if 0 <? zlen (semfs_vnodes (fsdata x)) then Ok (x, EBUSY)
  else let* x := semfs_destroy x in Ok (x, 0).

(** ** The null device (kern/vfs/devnull.c) *)

Definition nullopen x (dev openflags : Z) : res (store semfs * Z) := Ok (x, 0).

(** A write is discarded, a read is at the end of the file. *)
Definition nullio x (dev : Z) (u : uio) : res (store semfs * uio * Z) :=
  Ok (x, match uio_dir u with
         | UIO_WRITE => mkUio (uio_iov u) (uio_offset u) 0 (uio_segflg u) (uio_dir u) (uio_space u)
         | UIO_READ => u
         end, 0).

Definition nullioctl x (dev op data : Z) : res (store semfs * Z) := Ok (x, EINVAL).

(** What uiomove does to the uio when the copy succeeds; the memory the bytes go
    to is not part of this state. *)
Definition take_bytes x (l : list Z) (u : uio) : res (store semfs * uio * Z) :=
  let k := Z.min (zlen l) (uio_resid u) in
  Ok (x, mkUio (uio_iov u) (s64 (uio_offset u + k)) (u32 (uio_resid u - k)) (uio_segflg u) (uio_dir u) (uio_space u), 0).

(** The two tables of operations: the directory's and the semaphores'. *)
Definition by_table x (v : Z) {A} (dir sem : res A) : res A :=
  let* semnum := semnum_of x v in
  if semnum =? SEMFS_ROOTDIR then dir else sem.

#[global] Instance semfs_fs : FileSystem semfs := {
  vop_eachopen := semfs_eachopen;
  vop_reclaim := semfs_reclaim;
  vop_readlink x v u := by_table x v (Ok (x, u, EISDIR)) (Ok (x, u, EINVAL));
  vop_gettype := semfs_gettype;
  vop_truncate x v len := by_table x v (Ok (x, EISDIR)) (semfs_truncate x v len);
  vop_namefile x v u := by_table x v (Ok (x, u, 0)) (Ok (x, u, ENOTDIR));
  vop_creat x v name excl mode := by_table x v (semfs_creat x v name excl mode) (Ok (x, ENOTDIR, None));
  vop_symlink x v _ _ := by_table x v (Ok (x, ENOSYS)) (Ok (x, ENOTDIR));
  vop_mkdir x v _ _ := by_table x v (Ok (x, ENOSYS)) (Ok (x, ENOTDIR));
  vop_link x v _ _ := by_table x v (Ok (x, ENOSYS)) (Ok (x, ENOTDIR));
  vop_remove x v name := by_table x v (semfs_remove x v name) (Ok (x, ENOTDIR));
  vop_rmdir x v _ := by_table x v (Ok (x, ENOSYS)) (Ok (x, ENOTDIR));
  vop_rename x v _ _ _ := by_table x v (Ok (x, ENOSYS)) (Ok (x, ENOTDIR));
  vop_lookup x v path := by_table x v (semfs_lookup x v path) (Ok (x, ENOTDIR, None));
  vop_lookparent x v path len := by_table x v (semfs_lookparent x v path len) (Ok (x, ENOTDIR, None, []));
  fsop_sync x _ := Ok (x, 0);
  fsop_getvolname _ _ := Some semfs_volname;
  fsop_getroot x _ := semfs_getroot x;
  fsop_unmount x _ := semfs_unmount x;
  devop_eachopen := nullopen;
  devop_io := nullio;
  devop_ioctl := nullioctl;
  uio_bytes := take_bytes
}.

(** * The invariant *)

Definition sem_blocks (sem : semfs_sem) : list Z :=
  [sem_block sem; lk_ptr (sems_lock sem); lk_name (sems_lock sem); wc_ptr (lock_wchan (sems_lock sem));
   cv_ptr (sems_cv sem); cv_name (sems_cv sem); wc_ptr (cv_wchan (sems_cv sem))].
Definition dent_blocks (dent : semfs_direntry) : list Z := [dent_block dent; name_block dent].

Definition sem_at (d : semfs) (n : Z) (sem : semfs_sem) : Prop := zget (semfs_sems d) n = Some (Some sem).
Definition dent_at (d : semfs) (i : Z) (dent : semfs_direntry) : Prop := zget (semfs_dents d) i = Some (Some dent).

(** Which object a block belongs to. *)
Definition owns (d : semfs) (k : Z + Z) (p : Z) : Prop :=
  match k with
  | inl n => exists sem, sem_at d n sem /\ p ∈ sem_blocks sem
  | inr i => exists dent, dent_at d i dent /\ p ∈ dent_blocks dent
  end.

(** A semaphore that nobody sleeps on. *)
Record sem_ok (sem : semfs_sem) : Prop := {
  sm_blocks : NoDup (sem_blocks sem);
  sm_lock : wc_threads (lock_wchan (sems_lock sem)) = [];
  sm_cv : wc_threads (cv_wchan (sems_cv sem)) = []
}.

(** How vnodes, semaphores and entries refer to each other.  [e]: the number of a
    semaphore that is being made, whose entry is in the directory before it is
    marked as linked. *)
Record links (d : semfs) (e : option Z) : Prop := {
  so_nodup : NoDup (semfs_vnodes d);
  so_num : forall v, v ∈ semfs_vnodes d -> is_Some (semv_semnum d !! v);
  so_inj : forall v w n, v ∈ semfs_vnodes d -> w ∈ semfs_vnodes d -> semv_semnum d !! v = Some n -> semv_semnum d !! w = Some n -> v = w;
  so_vnode : forall v n, v ∈ semfs_vnodes d -> semv_semnum d !! v = Some n -> n <> SEMFS_ROOTDIR ->
    exists sem, sem_at d n sem /\ sems_hasvnode sem = true;
  so_hasvnode : forall n sem, sem_at d n sem -> sems_hasvnode sem = true ->
    exists v, v ∈ semfs_vnodes d /\ semv_semnum d !! v = Some n;
  so_dent : forall i dent, dent_at d i dent ->
    exists sem, sem_at d (semd_semnum dent) sem /\ (sems_linked sem = true \/ e = Some (semd_semnum dent));
  so_linked : forall n sem, sem_at d n sem -> sems_linked sem = true -> exists i dent, dent_at d i dent /\ semd_semnum dent = n;
  so_names : forall i j d1 d2, dent_at d i d1 -> dent_at d j d2 -> semd_name d1 = semd_name d2 -> i = j;
  so_numbers : forall i j d1 d2, dent_at d i d1 -> dent_at d j d2 -> semd_semnum d1 = semd_semnum d2 -> i = j;
  so_used : forall n sem, sem_at d n sem -> sems_hasvnode sem = true \/ sems_linked sem = true \/ e = Some n;
  so_limit : zlen (semfs_sems d) <= SEMFS_ROOTDIR
}.

(** Every block has one owner. *)
Record blocks_ok (d : semfs) : Prop := {
  so_sem : forall n sem, sem_at d n sem -> sem_ok sem;
  so_dent_blocks : forall i dent, dent_at d i dent -> dent_block dent <> name_block dent;
  so_owner : forall k k' p, owns d k p -> owns d k' p -> k = k'
}.

Record semfs_ok (x : store semfs) (e : option Z) : Prop := {
  so_fails : fails (kmem x) = [];
  so_files : forall v f, vnode_of x v f <-> v ∈ semfs_vnodes (fsdata x) /\ f = semfs_absfs (fsdata x);
  so_links : links (fsdata x) e;
  so_blocks : blocks_ok (fsdata x);
  so_live : forall k p, owns (fsdata x) k p -> p ∈ live (kmem x) /\ vnodes x !! p = None
}.

#[global] Instance semfs_spec : FsSpec semfs := {
  fs_inv x := semfs_ok x None;
  mounted d f := f = semfs_absfs d;
  removable _ _ := False
}.

(** ** The heap when there is memory *)

Lemma halloc_nofail h :
  fails h = [] -> halloc h = (mkHeap ({[next_block h]} ∪ live h) (next_block h + 1) [], Some (next_block h)).
Proof. intros E. unfold halloc. by rewrite E. Qed.

Lemma room_nofail h : fails h = [] -> array_room h = (mkHeap (live h) (next_block h) [], true).
Proof. intros E. unfold array_room. by rewrite E. Qed.

Lemma hfree_fails h p h' : hfree h p = Ok h' -> fails h' = fails h.
Proof. unfold hfree. case_decide; [ | done]. by intros [= <-]. Qed.

(** [l] was taken from the heap [h], which is [h'] now. *)
Record took_blocks (h h' : kheap) (l : list Z) : Prop := {
  tb_fails : fails h' = fails h;
  tb_heap : heap_ok h';
  tb_live : forall p, p ∈ live h' <-> p ∈ l \/ p ∈ live h;
  tb_fresh : forall p, p ∈ l -> p ∉ live h;
  tb_nodup : NoDup l
}.

Record gave_blocks (h h' : kheap) (l : list Z) : Prop := {
  gb_fails : fails h' = fails h;
  gb_heap : heap_ok h';
  gb_live : forall p, p ∈ live h' <-> p ∈ live h /\ p ∉ l
}.

Lemma hfree_gave h p : heap_ok h -> p ∈ live h -> exists h', hfree h p = Ok h' /\ gave_blocks h h' [p].
Proof.
  intros Hh Hp. destruct (hfree_live h p Hp Hh) as (h' & E & L & K). exists h'. split; [done |].
  split; [by apply (hfree_fails h p) | done |]. intros q. rewrite L. set_solver.
Qed.

Lemma gave_trans h1 h2 h3 l1 l2 : gave_blocks h1 h2 l1 -> gave_blocks h2 h3 l2 -> gave_blocks h1 h3 (l1 ++ l2).
Proof. intros [F1 K1 L1] [F2 K2 L2]. split; [congruence | done |]. intros p. rewrite L2, L1, elem_of_app. tauto. Qed.

Lemma semfs_sem_create_ok x :
  heap_ok (kmem x) -> fails (kmem x) = [] ->
  exists h sem, semfs_sem_create x = Ok (set_kmem x h, Some sem) /\ took_blocks (kmem x) h (sem_blocks sem) /\
    sem_ok sem /\ sems_count sem = 0 /\ sems_hasvnode sem = false /\ sems_linked sem = false.
Proof.
  intros Hh Hf. unfold semfs_sem_create, lock_create, cv_create, object_create, wchan_create.
  rewrite (halloc_nofail _ Hf). unfold halloc. cbn. set (b := next_block (kmem x)).
  assert (Hfresh : forall p, b <= p -> p ∉ live (kmem x)) by (intros p Hp Hin; specialize (Hh p Hin); subst b; lia).
  assert (Hnd : NoDup [b; b + 1; b + 1 + 1; b + 1 + 1 + 1; b + 1 + 1 + 1 + 1; b + 1 + 1 + 1 + 1 + 1; b + 1 + 1 + 1 + 1 + 1 + 1]).
  { repeat (apply NoDup_cons; split; [rewrite ?elem_of_cons, elem_of_nil; lia |]). apply NoDup_nil_2. }
  eexists _, _. split; [done |]. cbn. split; [ | split; [by split | done]].
  split; cbn; [by rewrite Hf | | | |].
  - intros p Hp. cbn in Hp |- *. rewrite !elem_of_union, !elem_of_singleton in Hp. repeat destruct Hp as [Hp | Hp]; subst; try lia.
    specialize (Hh p Hp). lia.
  - intros p. unfold sem_blocks. cbn. set_solver.
  - intros p Hp. apply Hfresh. unfold sem_blocks in Hp. cbn in Hp. rewrite !elem_of_cons, elem_of_nil in Hp. lia.
  - exact Hnd.
Qed.

Lemma object_destroy_gave h obj name wc :
  heap_ok h -> wc_threads wc = [] -> NoDup [wc_ptr wc; name; obj] -> (forall p, p ∈ [wc_ptr wc; name; obj] -> p ∈ live h) ->
  exists h', object_destroy h obj name wc = Ok h' /\ gave_blocks h h' [wc_ptr wc; name; obj].
Proof.
  intros Hh Hw Hnd Hl. unfold object_destroy, wchan_destroy. rewrite bool_decide_eq_true_2 by done. cbn [kassert].
  rewrite !NoDup_cons, !elem_of_cons, elem_of_nil in Hnd. destruct Hnd as (N1 & N2 & _).
  destruct (hfree_gave h (wc_ptr wc)) as (h1 & -> & G1); [done | apply Hl; by left |]. cbn [rbind].
  destruct (hfree_gave h1 name) as (h2 & -> & G2); [apply G1 | apply G1; split; [apply Hl; set_solver | set_solver] |]. cbn [rbind].
  destruct (hfree_gave h2 obj) as (h3 & -> & G3); [apply G2 | apply G2; split; [apply G1; split; [apply Hl; set_solver | set_solver] | set_solver] |].
  exists h3. split; [done |]. change [wc_ptr wc; name; obj] with ([wc_ptr wc] ++ ([name] ++ [obj])). eapply gave_trans; [done | by eapply gave_trans].
Qed.

Lemma gave_ext h h' l l' : gave_blocks h h' l -> (forall p, p ∈ l <-> p ∈ l') -> gave_blocks h h' l'.
Proof. intros [F1 K1 L1] E. split; [done | done |]. intros p. by rewrite L1, E. Qed.

Lemma semfs_sem_destroy_ok x sem :
  heap_ok (kmem x) -> sem_ok sem -> (forall p, p ∈ sem_blocks sem -> p ∈ live (kmem x)) ->
  exists h, semfs_sem_destroy x sem = Ok (set_kmem x h) /\ gave_blocks (kmem x) h (sem_blocks sem).
Proof.
  intros Hh [Hnd Hwl Hwc] Hl. unfold semfs_sem_destroy, cv_destroy, lock_destroy. unfold sem_blocks in *.
  set (a := sem_block sem) in *. set (l := sems_lock sem) in *. set (v := sems_cv sem) in *.
  rewrite !NoDup_cons, !elem_of_cons, !elem_of_nil in Hnd.
  destruct (object_destroy_gave (kmem x) (cv_ptr v) (cv_name v) (cv_wchan v)) as (h1 & -> & G1); [done | done | | |].
  { rewrite !NoDup_cons, !elem_of_cons, !elem_of_nil. clear -Hnd. repeat split; try apply NoDup_nil_2; naive_solver. }
  { intros p Hp. apply Hl. set_solver. }
  cbn [rbind].
  destruct (object_destroy_gave h1 (lk_ptr l) (lk_name l) (lock_wchan l)) as (h2 & -> & G2); [apply G1 | done | | |].
  { rewrite !NoDup_cons, !elem_of_cons, !elem_of_nil. clear -Hnd. repeat split; try apply NoDup_nil_2; naive_solver. }
  { intros p Hp. apply G1. split; [apply Hl; set_solver |]. rewrite !elem_of_cons, elem_of_nil in *. clear -Hnd Hp. naive_solver. }
  cbn [rbind]. destruct (hfree_gave h2 a) as (h3 & -> & G3); [apply G2 | |].
  { apply G2. rewrite !elem_of_cons, elem_of_nil. split; [ | clear -Hnd; naive_solver].
    apply G1. rewrite !elem_of_cons, elem_of_nil. split; [apply Hl; set_solver | clear -Hnd; naive_solver]. }
  exists h3. split; [done |]. eapply gave_ext; [eapply gave_trans; [exact G1 | eapply gave_trans; [exact G2 | exact G3]] |].
  intros p. rewrite !elem_of_app, !elem_of_cons, !elem_of_nil. tauto.
Qed.

Lemma semfs_direntry_create_ok x name n :
  heap_ok (kmem x) -> fails (kmem x) = [] ->
  exists h p q, semfs_direntry_create x name n = Ok (set_kmem x h, Some (mkDent p q name n)) /\ took_blocks (kmem x) h [p; q].
Proof.
  intros Hh Hf. unfold semfs_direntry_create. rewrite (halloc_nofail _ Hf). unfold halloc. cbn. set (b := next_block (kmem x)).
  assert (Hfresh : forall p, b <= p -> p ∉ live (kmem x)) by (intros p Hp Hin; specialize (Hh p Hin); subst b; lia).
  eexists _, _, _. split; [done |]. split; cbn; [done | | | |].
  - intros p Hp. cbn in Hp |- *. rewrite !elem_of_union, !elem_of_singleton in Hp. repeat destruct Hp as [Hp | Hp]; subst; try lia.
    specialize (Hh p Hp). lia.
  - intros p. set_solver.
  - intros p Hp. apply Hfresh. rewrite !elem_of_cons, elem_of_nil in Hp. lia.
  - repeat (apply NoDup_cons; split; [rewrite ?elem_of_cons, elem_of_nil; lia |]). apply NoDup_nil_2.
Qed.

Lemma semfs_direntry_destroy_ok x dent :
  heap_ok (kmem x) -> dent_block dent <> name_block dent -> (forall p, p ∈ dent_blocks dent -> p ∈ live (kmem x)) ->
  exists h, semfs_direntry_destroy x dent = Ok (set_kmem x h) /\ gave_blocks (kmem x) h (dent_blocks dent).
Proof.
  intros Hh Hne Hl. unfold semfs_direntry_destroy, dent_blocks in *.
  destruct (hfree_gave (kmem x) (name_block dent)) as (h1 & -> & G1); [done | apply Hl; set_solver |]. cbn [rbind].
  destruct (hfree_gave h1 (dent_block dent)) as (h2 & -> & G2); [apply G1 | apply G1; split; [apply Hl; set_solver | set_solver] |].
  exists h2. split; [done |]. eapply gave_ext; [by eapply gave_trans |]. intros p. set_solver.
Qed.

(** ** The links *)

(** Slot [i] now holds [a]. *)
Definition upd {A} (l l' : list A) (i : Z) (a : A) : Prop := forall j, zget l' j = if decide (j = i) then Some a else zget l j.

Lemma set_upd {A} (l : list A) i a : 0 <= i < zlen l -> exists l', set l i a = Ok l' /\ upd l l' i a /\ zlen l' = zlen l.
Proof.
  intros Hi. destruct (zput_lt l i a Hi) as [l' E]. exists l'. unfold set. rewrite E. split; [done |]. split; [ | by apply (zput_length l i a)].
  intros j. by apply zget_zput.
Qed.

Lemma snoc_upd {A} (l : list A) a : upd l (l ++ [a]) (zlen l) a.
Proof.
  intros j. unfold zget, zlen. destruct (Z.ltb_spec j 0); [case_decide; [lia | done] |]. case_decide; subst.
  - rewrite Nat2Z.id. apply list_lookup_middle. done.
  - destruct (decide (Z.to_nat j < length l)%nat); [by rewrite lookup_app_l |].
    rewrite !lookup_ge_None_2; [done | lia | rewrite length_app; cbn; lia].
Qed.

Lemma empty_slot_spec {A} (l : list (option A)) : forall i, 0 <= i ->
  match empty_slot l i with
  | Some j => i <= j /\ zget l (j - i) = Some None
  | None => True
  end.
Proof.
  induction l as [ | [a | ] l IH]; intros i Hi; cbn; [done | | ].
  - specialize (IH (i + 1) ltac:(lia)). destruct (empty_slot l (i + 1)) as [j | ]; [ | done]. destruct IH as [Hj E]. split; [lia |].
    unfold zget in *. destruct (Z.ltb_spec (j - (i + 1)) 0); [done |]. destruct (Z.ltb_spec (j - i) 0); [lia |].
    replace (Z.to_nat (j - i)) with (S (Z.to_nat (j - (i + 1)))) by lia. done.
  - split; [lia |]. by replace (i - i) with 0 by lia.
Qed.

Section Links.
Context (d : semfs) (a : Z) (vs : list Z) (m : gmap Z Z) (ss : list (option semfs_sem)) (ds : list (option semfs_direntry)).

Lemma sem_at_upd n o j sem :
  upd (semfs_sems d) ss n o -> sem_at (mkSemfs a vs m ss ds) j sem <-> (j = n /\ o = Some sem) \/ (j <> n /\ sem_at d j sem).
Proof. intros U. unfold sem_at. cbn. rewrite U. case_decide; subst; naive_solver. Qed.

Lemma dent_at_upd n o j dent :
  upd (semfs_dents d) ds n o -> dent_at (mkSemfs a vs m ss ds) j dent <-> (j = n /\ o = Some dent) \/ (j <> n /\ dent_at d j dent).
Proof. intros U. unfold dent_at. cbn. rewrite U. case_decide; subst; naive_solver. Qed.
End Links.

(** One semaphore changes, its flags as given. *)
Lemma links_sem d e n sem sem' ss :
  links d e -> sem_at d n sem -> upd (semfs_sems d) ss n (Some sem') -> zlen ss = zlen (semfs_sems d) ->
  sems_hasvnode sem' = sems_hasvnode sem -> sems_linked sem' = sems_linked sem ->
  links (mkSemfs (semfs_absfs d) (semfs_vnodes d) (semv_semnum d) ss (semfs_dents d)) e.
Proof.
  intros [] Hn U Hl Hv Hk.
  assert (S : forall j s, sem_at (mkSemfs (semfs_absfs d) (semfs_vnodes d) (semv_semnum d) ss (semfs_dents d)) j s <-> (j = n /\ Some sem' = Some s) \/ (j <> n /\ sem_at d j s)) by (intros; by apply sem_at_upd).
  assert (G : forall j s, sem_at d j s -> exists s', sem_at (mkSemfs (semfs_absfs d) (semfs_vnodes d) (semv_semnum d) ss (semfs_dents d)) j s' /\
    sems_hasvnode s' = sems_hasvnode s /\ sems_linked s' = sems_linked s).
  { intros j s Hj. destruct (decide (j = n)) as [-> | Hne].
    - exists sem'. assert (s = sem) as -> by (unfold sem_at in *; congruence). rewrite S. auto.
    - exists s. rewrite S. auto. }
  split; cbn; try done.
  - intros v j Hv' Ej Hj. destruct (so_vnode0 v j Hv' Ej Hj) as (s & Hs & Hh). destruct (G j s Hs) as (s' & ? & ? & ?). exists s'. split; [done | congruence].
  - intros j s Hs. apply S in Hs as [[-> [= <-]] | [Hne Hs]]; [rewrite Hv; by apply so_hasvnode0 | by apply so_hasvnode0].
  - intros i dent Hd. destruct (so_dent0 i dent Hd) as (s & Hs & Hh). destruct (G _ s Hs) as (s' & ? & ? & E'). exists s'. by rewrite E'.
  - intros j s Hs. apply S in Hs as [[-> [= <-]] | [Hne Hs]]; [rewrite Hk; by apply so_linked0 | by apply so_linked0].
  - intros j s Hs. apply S in Hs as [[-> [= <-]] | [Hne Hs]]; [rewrite Hk, Hv; by apply so_used0 | by apply so_used0].
  - lia.
Qed.

(** A vnode for semaphore [n] appears. *)
Lemma links_new_vnode d e v n sem ss :
  links d e -> v ∉ semfs_vnodes d -> n <> SEMFS_ROOTDIR -> sem_at d n sem -> sems_hasvnode sem = false ->
  upd (semfs_sems d) ss n (Some (set_hasvnode sem true)) -> zlen ss = zlen (semfs_sems d) ->
  links (mkSemfs (semfs_absfs d) (semfs_vnodes d ++ [v]) (<[v := n]> (semv_semnum d)) ss (semfs_dents d)) e.
Proof.
  intros HL Hv Hr Hn Hh U Hl. set (d' := mkSemfs _ _ _ _ _).
  assert (S : forall j s, sem_at d' j s <-> (j = n /\ Some (set_hasvnode sem true) = Some s) \/ (j <> n /\ sem_at d j s)) by (intros; by apply sem_at_upd).
  assert (D : forall j s, dent_at d' j s <-> dent_at d j s) by done.
  assert (N : forall w k, w ∈ semfs_vnodes d' -> semv_semnum d' !! w = Some k -> (w = v /\ k = n) \/ (w <> v /\ w ∈ semfs_vnodes d /\ semv_semnum d !! w = Some k)).
  { intros w k. cbn. rewrite elem_of_app, list_elem_of_singleton. destruct (decide (w = v)) as [-> | Hne].
    - rewrite lookup_insert_eq. intros _ [= <-]. by left.
    - rewrite lookup_insert_ne by done. intros [ | ] ?; [right; auto | done]. }
  assert (Hnew : forall w, w ∈ semfs_vnodes d -> semv_semnum d !! w <> Some n).
  { intros w Hw Ew. destruct (so_vnode _ _ HL w n Hw Ew Hr) as (s & Hs & Hsh). unfold sem_at in *. congruence. }
  destruct HL. split; fold d'.
  - cbn. apply NoDup_app. split; [done | split; [ | apply NoDup_singleton]]. intros w Hw ->%list_elem_of_singleton. done.
  - intros w. cbn. rewrite elem_of_app, list_elem_of_singleton. destruct (decide (w = v)) as [-> | Hne]; [rewrite lookup_insert_eq; eauto |].
    rewrite lookup_insert_ne by done. intros [ | ]; [auto | done].
  - intros w1 w2 k H1 H2 E1 E2. destruct (N _ _ H1 E1) as [[-> ->] | (? & ? & ?)], (N _ _ H2 E2) as [[-> ?] | (? & ? & ?)]; subst; try done; eauto; exfalso; by eapply Hnew.
  - intros w k Hw Ew Hk. destruct (N _ _ Hw Ew) as [[-> ->] | (? & Hw' & Ew')]; [exists (set_hasvnode sem true); rewrite S; auto |].
    destruct (so_vnode0 w k Hw' Ew' Hk) as (s & Hs & Hsh). exists s. rewrite S. split; [ | done]. right. split; [ | done]. intros ->. by apply (Hnew w).
  - intros k s Hs. apply S in Hs as [[-> [= <-]] | [Hne Hs]]; intros Hsh.
    + exists v. cbn. rewrite elem_of_app, list_elem_of_singleton, lookup_insert_eq. auto.
    + destruct (so_hasvnode0 k s Hs Hsh) as (w & Hw & Ew). exists w. cbn. rewrite elem_of_app. split; [by left |]. rewrite lookup_insert_ne; [done |]. by intros ->.
  - intros i dent Hd. destruct (so_dent0 i dent Hd) as (s & Hs & Hsl). destruct (decide (semd_semnum dent = n)) as [En | Hne].
    + exists (set_hasvnode sem true). rewrite S. split; [auto |]. assert (s = sem) as -> by (unfold sem_at in *; congruence). done.
    + exists s. rewrite S. auto.
  - intros k s Hs. apply S in Hs as [[-> [= <-]] | [Hne Hs]]; intros Hsl; [by apply (so_linked0 n sem) | by apply (so_linked0 k s)].
  - done.
  - done.
  - intros k s Hs. apply S in Hs as [[-> [= <-]] | [Hne Hs]]; [by left | by apply so_used0].
  - cbn. lia.
Qed.

(** The root directory has no semaphore. *)
Lemma links_new_root d e v :
  links d e -> v ∉ semfs_vnodes d -> (forall w, w ∈ semfs_vnodes d -> semv_semnum d !! w <> Some SEMFS_ROOTDIR) ->
  links (mkSemfs (semfs_absfs d) (semfs_vnodes d ++ [v]) (<[v := SEMFS_ROOTDIR]> (semv_semnum d)) (semfs_sems d) (semfs_dents d)) e.
Proof.
  intros HL Hv Hnew. set (d' := mkSemfs _ _ _ _ _).
  assert (N : forall w k, w ∈ semfs_vnodes d' -> semv_semnum d' !! w = Some k -> (w = v /\ k = SEMFS_ROOTDIR) \/ (w <> v /\ w ∈ semfs_vnodes d /\ semv_semnum d !! w = Some k)).
  { intros w k. cbn. rewrite elem_of_app, list_elem_of_singleton. destruct (decide (w = v)) as [-> | Hne].
    - rewrite lookup_insert_eq. intros _ [= <-]. by left.
    - rewrite lookup_insert_ne by done. intros [ | ] ?; [right; auto | done]. }
  destruct HL. split; fold d'; try done.
  - cbn. apply NoDup_app. split; [done | split; [ | apply NoDup_singleton]]. intros w Hw ->%list_elem_of_singleton. done.
  - intros w. cbn. rewrite elem_of_app, list_elem_of_singleton. destruct (decide (w = v)) as [-> | Hne]; [rewrite lookup_insert_eq; eauto |].
    rewrite lookup_insert_ne by done. intros [ | ]; [auto | done].
  - intros w1 w2 k H1 H2 E1 E2. destruct (N _ _ H1 E1) as [[-> ->] | (? & ? & ?)], (N _ _ H2 E2) as [[-> ?] | (? & ? & ?)]; subst; try done; eauto; exfalso; by eapply Hnew.
  - intros w k Hw Ew Hk. destruct (N _ _ Hw Ew) as [[-> ->] | (? & Hw' & Ew')]; [done |]. by apply (so_vnode0 w k).
  - intros k s Hs Hsh. destruct (so_hasvnode0 k s Hs Hsh) as (w & Hw & Ew). exists w. cbn. rewrite elem_of_app. split; [by left |].
    rewrite lookup_insert_ne; [done |]. by intros ->.
Qed.

Lemma remove_first_spec (l : list Z) v : NoDup l -> NoDup (remove_first l v) /\ forall w, w ∈ remove_first l v <-> w ∈ l /\ w <> v.
Proof.
  induction 1 as [ | a l Ha Hl [IH1 IH2]]; cbn; [split; [constructor | set_solver] |].
  destruct (Z.eqb_spec a v) as [-> | Hne].
  - split; [done |]. intros w. rewrite elem_of_cons. split; [intros Hw; split; [by right | by intros ->] | tauto].
  - split; [constructor; [ | done] | intros w; rewrite !elem_of_cons, IH2; naive_solver]. rewrite IH2. tauto.
Qed.

(** The vnode of [n] goes, and with it the semaphore unless it is linked. *)
Lemma links_gone d v n sem ss :
  links d None -> v ∈ semfs_vnodes d -> semv_semnum d !! v = Some n -> n <> SEMFS_ROOTDIR -> sem_at d n sem ->
  upd (semfs_sems d) ss n (if sems_linked sem then Some (set_hasvnode sem false) else None) -> zlen ss = zlen (semfs_sems d) ->
  links (mkSemfs (semfs_absfs d) (remove_first (semfs_vnodes d) v) (delete v (semv_semnum d)) ss (semfs_dents d)) None.
Proof.
  intros HL Hv Ev Hr Hn U Hl. set (d' := mkSemfs _ _ _ _ _).
  destruct (remove_first_spec (semfs_vnodes d) v (so_nodup _ _ HL)) as [Hnd Hrm].
  assert (S : forall j s, sem_at d' j s <-> (j = n /\ sems_linked sem = true /\ s = set_hasvnode sem false) \/ (j <> n /\ sem_at d j s)).
  { intros j s. unfold d'. rewrite (sem_at_upd d _ _ _ _ _ _ _ _ _ U). destruct (sems_linked sem); naive_solver. }
  assert (N : forall w k, w ∈ semfs_vnodes d' -> semv_semnum d' !! w = Some k -> w <> v /\ w ∈ semfs_vnodes d /\ semv_semnum d !! w = Some k /\ k <> n).
  { intros w k. cbn. rewrite Hrm, lookup_delete_Some. intros [Hw Hne] [_ Ew]. repeat split; try done. intros ->. apply Hne. by apply (so_inj _ _ HL w v n). }
  destruct HL. split; fold d'; try done.
  - intros w. cbn. rewrite Hrm. intros [Hw Hne]. rewrite lookup_delete_ne by done. auto.
  - intros w1 w2 k H1 H2 E1 E2. destruct (N _ _ H1 E1) as (? & ? & ? & ?), (N _ _ H2 E2) as (? & ? & ? & ?). eauto.
  - intros w k Hw Ew Hk. destruct (N _ _ Hw Ew) as (? & Hw' & Ew' & Hkn). destruct (so_vnode0 w k Hw' Ew' Hk) as (s & Hs & Hsh).
    exists s. rewrite S. auto.
  - intros k s Hs Hsh. apply S in Hs as [(-> & _ & ->) | [Hne Hs]]; [done |]. destruct (so_hasvnode0 k s Hs Hsh) as (w & Hw & Ew).
    exists w. cbn. rewrite Hrm, lookup_delete_ne; [ | congruence]. split; [split; [done | congruence] | done].
  - intros i dent Hd. destruct (so_dent0 i dent Hd) as (s & Hs & [Hsl | ]); [ | done].
    destruct (decide (semd_semnum dent = n)) as [En | Hne]; [ | exists s; rewrite S; auto].
    assert (s = sem) as -> by (unfold sem_at in *; congruence). exists (set_hasvnode sem false). rewrite S. auto.
  - intros k s Hs Hsl. apply S in Hs as [(-> & Hk & ->) | [Hne Hs]]; [by apply (so_linked0 n sem) | by apply (so_linked0 k s)].
  - intros k s Hs. apply S in Hs as [(-> & Hk & ->) | [Hne Hs]]; [auto | by apply so_used0].
  - cbn. lia.
Qed.

Lemma links_gone_root d v :
  links d None -> v ∈ semfs_vnodes d -> semv_semnum d !! v = Some SEMFS_ROOTDIR ->
  links (mkSemfs (semfs_absfs d) (remove_first (semfs_vnodes d) v) (delete v (semv_semnum d)) (semfs_sems d) (semfs_dents d)) None.
Proof.
  intros HL Hv Ev. set (d' := mkSemfs _ _ _ _ _).
  destruct (remove_first_spec (semfs_vnodes d) v (so_nodup _ _ HL)) as [Hnd Hrm].
  assert (N : forall w k, w ∈ semfs_vnodes d' -> semv_semnum d' !! w = Some k -> w <> v /\ w ∈ semfs_vnodes d /\ semv_semnum d !! w = Some k).
  { intros w k. cbn. rewrite Hrm, lookup_delete_Some. tauto. }
  assert (L : forall k s, sem_at d k s -> k <> SEMFS_ROOTDIR).
  { intros k s Hs ->. apply zget_Some in Hs. pose proof (so_limit _ _ HL). lia. }
  destruct HL. split; fold d'; try done.
  - intros w. cbn. rewrite Hrm. intros [Hw Hne]. rewrite lookup_delete_ne by done. auto.
  - intros w1 w2 k H1 H2 E1 E2. destruct (N _ _ H1 E1) as (? & ? & ?), (N _ _ H2 E2) as (? & ? & ?). eauto.
  - intros w k Hw Ew Hk. destruct (N _ _ Hw Ew) as (? & Hw' & Ew'). by apply (so_vnode0 w k).
  - intros k s Hs Hsh. destruct (so_hasvnode0 k s Hs Hsh) as (w & Hw & Ew). exists w. cbn. rewrite Hrm.
    assert (w <> v) by (intros ->; apply (L k s Hs); congruence). by rewrite lookup_delete_ne.
Qed.

(** A new semaphore, not in the directory yet. *)
Lemma links_new_sem d n sem ss :
  links d None -> (forall s, ~ sem_at d n s) -> sems_hasvnode sem = false -> sems_linked sem = false ->
  upd (semfs_sems d) ss n (Some sem) -> zlen ss <= SEMFS_ROOTDIR ->
  links (mkSemfs (semfs_absfs d) (semfs_vnodes d) (semv_semnum d) ss (semfs_dents d)) (Some n).
Proof.
  intros HL Hn Hh Hk U Hl. set (d' := mkSemfs _ _ _ _ _).
  assert (S : forall j s, sem_at d' j s <-> (j = n /\ Some sem = Some s) \/ (j <> n /\ sem_at d j s)) by (intros; by apply sem_at_upd).
  destruct HL. split; fold d'; try done.
  - intros v k Hv Ev Hr. destruct (so_vnode0 v k Hv Ev Hr) as (s & Hs & Hsh). exists s. rewrite S. split; [ | done]. right. split; [ | done]. intros ->. by apply (Hn s).
  - intros k s Hs Hsh. apply S in Hs as [[-> [= <-]] | [Hne Hs]]; [congruence | by apply (so_hasvnode0 k s)].
  - intros i dent Hd. destruct (so_dent0 i dent Hd) as (s & Hs & Hsl). exists s. rewrite S. split; [ | destruct Hsl; [by left | done]].
    right. split; [ | done]. intros E. rewrite E in Hs. by apply (Hn s).
  - intros k s Hs Hsl. apply S in Hs as [[-> [= <-]] | [Hne Hs]]; [congruence | by apply (so_linked0 k s)].
  - intros k s Hs. apply S in Hs as [[-> [= <-]] | [Hne Hs]]; [auto |]. destruct (so_used0 k s Hs) as [ | [ | ]]; auto. done.
Qed.

(** Its entry in the directory. *)
Lemma links_new_dent d n i dent ds sem :
  links d (Some n) -> sem_at d n sem -> semd_semnum dent = n ->
  (forall j d2, dent_at d j d2 -> semd_name d2 <> semd_name dent /\ semd_semnum d2 <> n) -> (forall d2, ~ dent_at d i d2) ->
  upd (semfs_dents d) ds i (Some dent) ->
  links (mkSemfs (semfs_absfs d) (semfs_vnodes d) (semv_semnum d) (semfs_sems d) ds) (Some n).
Proof.
  intros HL Hn En Hnew Hi U. set (d' := mkSemfs _ _ _ _ _).
  assert (D : forall j s, dent_at d' j s <-> (j = i /\ Some dent = Some s) \/ (j <> i /\ dent_at d j s)) by (intros; by apply dent_at_upd).
  destruct HL. split; fold d'; try done.
  - intros j d2 Hj. apply D in Hj as [[-> [= <-]] | [Hne Hj]]; [ | by apply (so_dent0 j d2)]. exists sem. rewrite En. auto.
  - intros k s Hs Hsl. destruct (so_linked0 k s Hs Hsl) as (j & d2 & Hj & E2). exists j, d2. split; [ | done]. apply D. right. split; [ | done].
    intros ->. by apply (Hi d2).
  - intros j1 j2 e1 e2 H1 H2 E. apply D in H1. apply D in H2. destruct H1 as [[-> [= <-]] | [_ H1]], H2 as [[-> [= <-]] | [_ H2]]; [done | | | by apply (so_names0 j1 j2 e1 e2)].
    + by destruct (Hnew j2 e2 H2) as [[] _].
    + by destruct (Hnew j1 e1 H1) as [[] _].
  - intros j1 j2 e1 e2 H1 H2 E. apply D in H1. apply D in H2. destruct H1 as [[-> [= <-]] | [_ H1]], H2 as [[-> [= <-]] | [_ H2]]; [done | | | by apply (so_numbers0 j1 j2 e1 e2)].
    + destruct (Hnew j2 e2 H2) as [_ []]. congruence.
    + destruct (Hnew j1 e1 H1) as [_ []]. congruence.
Qed.

(** It is marked as linked. *)
Lemma links_mark d n i dent sem ss :
  links d (Some n) -> sem_at d n sem -> dent_at d i dent -> semd_semnum dent = n ->
  upd (semfs_sems d) ss n (Some (set_linked sem true)) -> zlen ss = zlen (semfs_sems d) ->
  links (mkSemfs (semfs_absfs d) (semfs_vnodes d) (semv_semnum d) ss (semfs_dents d)) None.
Proof.
  intros HL Hn Hi En U Hl. set (d' := mkSemfs _ _ _ _ _).
  assert (S : forall j s, sem_at d' j s <-> (j = n /\ Some (set_linked sem true) = Some s) \/ (j <> n /\ sem_at d j s)) by (intros; by apply sem_at_upd).
  assert (G : forall k s, sem_at d k s -> exists s', sem_at d' k s' /\ sems_hasvnode s' = sems_hasvnode s /\ (k = n \/ s' = s) /\ (k = n -> sems_linked s' = true)).
  { intros k s Hs. destruct (decide (k = n)) as [-> | Hne]; [ | exists s; rewrite S; auto 6; naive_solver].
    assert (s = sem) as -> by (unfold sem_at in *; congruence). exists (set_linked sem true). rewrite S. auto 6. }
  destruct HL. split; fold d'; try done.
  - intros v k Hv Ev Hr. destruct (so_vnode0 v k Hv Ev Hr) as (s & Hs & Hsh). destruct (G k s Hs) as (s' & ? & ? & _). exists s'. split; [done | congruence].
  - intros k s Hs Hsh. apply S in Hs as [[-> [= <-]] | [Hne Hs]]; [by apply (so_hasvnode0 n sem) | by apply (so_hasvnode0 k s)].
  - intros j d2 Hj. destruct (so_dent0 j d2 Hj) as (s & Hs & Hsl). destruct (G _ s Hs) as (s' & Hs' & _ & Hsame & Hlk). exists s'. split; [done | left].
    destruct (decide (semd_semnum d2 = n)) as [Ed | Hne]; [by apply Hlk |]. destruct Hsame as [ | ->]; [done |]. destruct Hsl as [ | [= Hsl]]; done.
  - intros k s Hs Hsl. apply S in Hs as [[-> [= <-]] | [Hne Hs]]; [by exists i, dent | by apply (so_linked0 k s)].
  - intros k s Hs. apply S in Hs as [[-> [= <-]] | [Hne Hs]]; [auto |]. destruct (so_used0 k s Hs) as [ | [ | [= ]]]; auto; congruence.
  - cbn. lia.
Qed.

(** An entry goes, and with it the semaphore unless it has a vnode. *)
Lemma links_unlink d i dent sem ss ds :
  links d None -> dent_at d i dent -> sem_at d (semd_semnum dent) sem ->
  upd (semfs_sems d) ss (semd_semnum dent) (if sems_hasvnode sem then Some (set_linked sem false) else None) -> zlen ss = zlen (semfs_sems d) ->
  upd (semfs_dents d) ds i None ->
  links (mkSemfs (semfs_absfs d) (semfs_vnodes d) (semv_semnum d) ss ds) None.
Proof.
  intros HL Hi Hn U Hl W. set (n := semd_semnum dent) in *. set (d' := mkSemfs _ _ _ _ _).
  assert (S : forall j s, sem_at d' j s <-> (j = n /\ sems_hasvnode sem = true /\ s = set_linked sem false) \/ (j <> n /\ sem_at d j s)).
  { intros j s. unfold d'. rewrite (sem_at_upd d _ _ _ _ _ _ _ _ _ U). destruct (sems_hasvnode sem); naive_solver. }
  assert (D : forall j s, dent_at d' j s <-> j <> i /\ dent_at d j s).
  { intros j s. unfold d'. rewrite (dent_at_upd d _ _ _ _ _ _ _ _ _ W). naive_solver. }
  destruct HL. split; fold d'; try done.
  - intros v k Hv Ev Hr. destruct (so_vnode0 v k Hv Ev Hr) as (s & Hs & Hsh). destruct (decide (k = n)) as [-> | Hne]; [ | exists s; rewrite S; auto].
    assert (s = sem) as -> by (unfold sem_at in *; congruence). exists (set_linked sem false). rewrite S. auto.
  - intros k s Hs Hsh. apply S in Hs as [(-> & _ & ->) | [Hne Hs]]; [by apply (so_hasvnode0 n sem) | by apply (so_hasvnode0 k s)].
  - intros j d2 Hj. apply D in Hj as [Hj Hd2]. destruct (so_dent0 j d2 Hd2) as (s & Hs & Hsl). exists s. rewrite S. split; [ | done]. right. split; [ | done].
    intros E. apply Hj. by apply (so_numbers0 j i d2 dent).
  - intros k s Hs Hsl. apply S in Hs as [(-> & _ & ->) | [Hne Hs]]; [done |]. destruct (so_linked0 k s Hs Hsl) as (j & d2 & Hj & E2).
    exists j, d2. split; [ | done]. apply D. split; [ | done]. intros ->. apply Hne. assert (d2 = dent) as -> by (unfold dent_at in *; congruence). done.
  - intros j1 j2 e1 e2 [_ H1]%D [_ H2]%D. by apply so_names0.
  - intros j1 j2 e1 e2 [_ H1]%D [_ H2]%D. by apply so_numbers0.
  - intros k s Hs. apply S in Hs as [(-> & Hh & ->) | [Hne Hs]]; [auto | by apply so_used0].
  - cbn. lia.
Qed.

(** ** Blocks and the rest of the store *)

(** Nothing new is owned in [d']. *)
Definition fewer (d d' : semfs) : Prop :=
  (forall n sem', sem_at d' n sem' -> exists sem, sem_at d n sem /\ sem_blocks sem' = sem_blocks sem /\ (sem_ok sem -> sem_ok sem')) /\
  (forall i dent, dent_at d' i dent -> dent_at d i dent).

Lemma fewer_owns d d' k p : fewer d d' -> owns d' k p -> owns d k p.
Proof.
  intros [Hs Hd]. destruct k as [n | i]; cbn.
  - intros (sem' & Hn & Hp). destruct (Hs n sem' Hn) as (sem & Hn' & E & _). exists sem. by rewrite <- E.
  - intros (dent & Hi & Hp). exists dent. split; [by apply Hd | done].
Qed.

Lemma fewer_blocks d d' : fewer d d' -> blocks_ok d -> blocks_ok d'.
Proof.
  intros Hf [Hs Hd Ho]. split.
  - intros n sem' Hn. destruct Hf as [Hf _]. destruct (Hf n sem' Hn) as (sem & Hn' & _ & Hk). apply Hk. by apply (Hs n).
  - intros i dent Hi. apply (Hd i). by apply Hf.
  - intros k k' p H1 H2. apply (Ho k k' p); by apply (fewer_owns d d').
Qed.

(** The blocks of an object that is gone belong to nobody. *)
Lemma unowned_sem d d' n sem k p :
  blocks_ok d -> fewer d d' -> sem_at d n sem -> (forall s, ~ sem_at d' n s) -> owns d' k p -> p ∉ sem_blocks sem.
Proof.
  intros HB Hf Hn Hno Hk Hp. assert (k = inl n) as ->.
  { apply (so_owner _ HB k (inl n) p); [by apply (fewer_owns d d') | by exists sem]. }
  destruct Hk as (s & Hs & _). by apply (Hno s).
Qed.

Lemma unowned_dent d d' i dent k p :
  blocks_ok d -> fewer d d' -> dent_at d i dent -> (forall s, ~ dent_at d' i s) -> owns d' k p -> p ∉ dent_blocks dent.
Proof.
  intros HB Hf Hn Hno Hk Hp. assert (k = inr i) as ->.
  { apply (so_owner _ HB k (inr i) p); [by apply (fewer_owns d d') | by exists dent]. }
  destruct Hk as (s & Hs & _). by apply (Hno s).
Qed.

Lemma empty_upd {A} (l l' : list (option A)) i : upd l l' i None -> forall a, zget l' i <> Some (Some a).
Proof. intros U a. rewrite U, decide_True by done. done. Qed.

Lemma fewer_refl d : fewer d d.
Proof. split; [ | done]. intros n sem Hn. by exists sem. Qed.

Lemma fewer_trans d1 d2 d3 : fewer d1 d2 -> fewer d2 d3 -> fewer d1 d3.
Proof.
  intros [S1 D1] [S2 D2]. split; [ | auto]. intros n sem3 H3. destruct (S2 n sem3 H3) as (sem2 & H2 & E2 & K2).
  destruct (S1 n sem2 H2) as (sem1 & H1 & E1 & K1). exists sem1. split; [done |]. split; [congruence | auto].
Qed.

Lemma fewer_sem a vs m d n o ss :
  upd (semfs_sems d) ss n o -> (forall sem', o = Some sem' -> exists sem, sem_at d n sem /\ sem_blocks sem' = sem_blocks sem /\ (sem_ok sem -> sem_ok sem')) ->
  fewer d (mkSemfs a vs m ss (semfs_dents d)).
Proof.
  intros U Ho. split; [ | done]. intros j sem' Hj. apply (sem_at_upd d _ _ _ _ _ _ _ _ _ U) in Hj as [[-> ->] | [_ Hj]]; [by apply Ho | by exists sem'].
Qed.

Lemma sem_ok_flags sem sem' : sem_blocks sem' = sem_blocks sem -> sems_lock sem' = sems_lock sem -> sems_cv sem' = sems_cv sem -> sem_ok sem -> sem_ok sem'.
Proof. intros E1 E2 E3 []. split; [by rewrite E1 | by rewrite E2 | by rewrite E3]. Qed.

(** The layer above does not disturb the file system. *)
Lemma semfs_frame x x' e : semfs_ok x e -> frame x x' -> semfs_ok x' e.
Proof.
  intros [Hf Hfi Hl Hb Hli] [Ed Hs Hli' [n Hn] Hnew Hok]. split; rewrite ?Ed; try done.
  - by rewrite Hn, Hf, drop_nil.
  - intros v f. rewrite <- (Hs v f). by rewrite Hfi.
  - intros k p Hp. destruct (Hli k p Hp) as [Hin Hnone]. split; [by apply Hli' |].
    destruct (vnodes x' !! p) as [vn | ] eqn:E; [ | done]. destruct (Hnew p) as [Hsome | Hnin]; [by rewrite E | | done].
    rewrite Hnone in Hsome. by destruct Hsome.
Qed.

(** The counts after a call that handed out [v]. *)
Record counted x x' (v : Z) : Prop := {
  ct_ok : vnodes_ok x';
  ct_refs : forall w, refs x' w = refs x w + (if decide (w = v) then 1 else 0);
  ct_same : forall w vn vn', vnodes x !! w = Some vn -> vnodes x' !! w = Some vn' -> vn_fs vn' = vn_fs vn /\ vn_ops vn' = vn_ops vn
}.

Lemma counted_steps x x' v :
  semfs_ok x' None -> counted x x' v -> semfs_absfs (fsdata x') = semfs_absfs (fsdata x) -> steps x x' {[+ v +]} ∅.
Proof.
  intros Hi [Hok Hr Hs] Ea. split; [ | intros f; cbn; by rewrite Ea]. split; [done | done | | done].
  intros w. rewrite Hr, multiplicity_empty. case_decide as E; [subst; rewrite multiplicity_singleton_eq; lia | rewrite multiplicity_singleton_ne by done; lia].
Qed.

Lemma same_quiet x x' :
  semfs_ok x' None -> vnodes_ok x' -> vnodes x' = vnodes x -> semfs_absfs (fsdata x') = semfs_absfs (fsdata x) -> quiet x x'.
Proof.
  intros Hi Hok Ev Ea. split; [ | intros f; cbn; by rewrite Ea]. split; [done | done | |].
  - intros v. unfold refs. by rewrite Ev.
  - intros v vn vn' E E'. rewrite Ev in E'. rewrite E in E'. by injection E' as ->.
Qed.

Lemma incref_counted x v vn :
  vnodes_ok x -> vnodes x !! v = Some vn ->
  exists x', vnode_incref x v = Ok x' /\ counted x x' v /\ frame x x'.
Proof.
  intros Hok Hv. unfold vnode_incref. rewrite Hv. cbn. eexists. split; [done |]. pose proof (vk_pos _ Hok v vn Hv).
  destruct (refcount_frame x v vn (vn_refcount vn + 1)) as (Hfr & Hr & Hs); [done | done | lia |].
  split; [split; [apply Hfr | | done] | done]. intros w. rewrite Hr. case_decide; [subst; unfold refs; rewrite Hv; cbn; lia | lia].
Qed.

(** ** Vnodes come and go *)

Lemma find_vnode_spec x n (l : list Z) :
  (forall v, v ∈ l -> is_Some (semv_semnum (fsdata x) !! v)) ->
  exists o, find_vnode l x n = Ok o /\
    match o with
    | Some v => v ∈ l /\ semv_semnum (fsdata x) !! v = Some n
    | None => forall v, v ∈ l -> semv_semnum (fsdata x) !! v <> Some n
    end.
Proof.
  induction l as [ | v l IH]; intros Hl; cbn; [exists None; split; [done | set_solver] |].
  destruct (Hl v) as [k Hk]; [by left |]. unfold semnum_of. rewrite Hk. cbn.
  destruct (Z.eqb_spec k n) as [-> | Hne]; [exists (Some v); split; [done |]; split; [by left | done] |].
  destruct IH as (o & -> & Ho); [intros w Hw; apply Hl; by right |]. exists o. split; [done |].
  destruct o as [w | ]; [split; [right; apply Ho | apply Ho] |]. intros w [-> | Hw]%elem_of_cons; [congruence | by apply Ho].
Qed.

(** What stays of the file system when a vnode is handed out. *)
Record opened (d d' : semfs) : Prop := {
  op_abs : semfs_absfs d' = semfs_absfs d;
  op_dents : semfs_dents d' = semfs_dents d;
  op_sems : forall n sem, sem_at d n sem -> exists sem', sem_at d' n sem' /\ sems_linked sem' = sems_linked sem;
  op_len : zlen (semfs_sems d') = zlen (semfs_sems d)
}.

(** A new vnode [v] in the heap and in the table of vnodes. *)
Lemma new_vnode_store x e v h d' :
  semfs_ok x e -> vnodes_ok x -> halloc (kmem x) = (h, Some v) ->
  links d' e -> fewer (fsdata x) d' -> semfs_vnodes d' = semfs_vnodes (fsdata x) ++ [v] -> semfs_absfs d' = semfs_absfs (fsdata x) ->
  let x' := mkStore (<[v := mkVnode 1 (Some (semfs_absfs (fsdata x))) FsOps]> (vnodes x)) (mkHeap (live h) (next_block h) []) d' in
  semfs_ok x' e /\ counted x x' v /\ vnode_of x' v (semfs_absfs (fsdata x)).
Proof.
  intros [Hf Hfi Hl Hb Hli] Hok Eh Hl' Hfew Evs Ea x'. rewrite (halloc_nofail _ Hf) in Eh. injection Eh as <- <-. cbn [live next_block] in x'.
  set (v := next_block (kmem x)) in *.
  assert (Hv : v ∉ live (kmem x)) by (intros Hin; pose proof (vk_heap _ Hok v Hin); subst v; lia).
  assert (Hnone : vnodes x !! v = None) by (destruct (vnodes x !! v) eqn:E; [by destruct Hv; apply (vk_live _ Hok v _ E) | done]).
  assert (E : forall w, vnodes x' !! w = if decide (w = v) then Some (mkVnode 1 (Some (semfs_absfs (fsdata x))) FsOps) else vnodes x !! w).
  { intros w. unfold x'. cbn. case_decide; [subst; by rewrite lookup_insert_eq | by rewrite lookup_insert_ne]. }
  assert (Hok' : vnodes_ok x').
  { destruct Hok as [Hh Hlv Hp Hfs]. split.
    - intros p Hp'. unfold x' in *. cbn in *. apply elem_of_union in Hp' as [->%elem_of_singleton | Hp']; [lia |]. specialize (Hh p Hp'). lia.
    - intros w vw. rewrite E. case_decide as Hw; [subst; intros _; unfold x'; cbn; set_solver |]. intros Ew. specialize (Hlv w vw Ew). unfold x'. cbn. set_solver.
    - intros w vw. rewrite E. case_decide as Hw; [intros [= <-]; done | apply Hp].
    - intros w vw. rewrite E. case_decide as Hw; [intros [= <-]; cbn; split; [eauto | done] | apply Hfs]. }
  split; [split; unfold x'; cbn [fsdata kmem vnodes live fails]; try done | split; [split; [done | |] |]].
  - intros w f. unfold vnode_of. fold x'. rewrite E, Evs, elem_of_app, list_elem_of_singleton, Ea. case_decide as Hw.
    + subst. split; [intros [k [= <-]]; auto | intros [_ ->]; eauto].
    + specialize (Hfi w f). unfold vnode_of in Hfi. rewrite Hfi. naive_solver.
  - by apply (fewer_blocks (fsdata x)).
  - intros k p Hp. destruct (Hli k p) as [Hin Hn]; [by apply (fewer_owns _ d') |]. split; [set_solver |]. rewrite lookup_insert_ne; [done |]. congruence.
  - intros w. unfold refs. rewrite E. case_decide; [subst; rewrite Hnone; cbn; lia | lia].
  - intros w vw vw' Ew. rewrite E. case_decide; [congruence |]. intros Ew'. by simplify_eq.
  - exists 1. unfold x'. cbn. by rewrite lookup_insert_eq.
Qed.

Lemma semfs_getvnode_ok x e n :
  semfs_ok x e -> vnodes_ok x -> (n = SEMFS_ROOTDIR \/ exists sem, sem_at (fsdata x) n sem) ->
  exists x' v, semfs_getvnode x n = Ok (x', 0, Some v) /\ semfs_ok x' e /\ counted x x' v /\ vnode_of x' v (semfs_absfs (fsdata x)) /\
    opened (fsdata x) (fsdata x').
Proof.
  intros HI Hok Hn. pose proof (so_links _ _ HI) as HL. unfold semfs_getvnode.
  destruct (find_vnode_spec x n (semfs_vnodes (fsdata x)) (so_num _ _ HL)) as (o & -> & Ho). cbn [rbind].
  destruct o as [v | ].
  - destruct Ho as [Hv Ev]. destruct (proj2 (so_files _ _ HI v (semfs_absfs (fsdata x))) (conj Hv eq_refl)) as [k Hk].
    destruct (incref_counted x v _ Hok Hk) as (x' & -> & Hc & Hfr). exists x', v. split; [done |].
    split; [by apply (semfs_frame x) |]. split; [done |]. split; [apply (fr_files _ _ Hfr); by exists k |].
    rewrite (fr_data _ _ Hfr). split; try done. eauto.
  - assert (Hfl : fails (kmem x) = []) by apply HI.
    unfold semfs_vnode_create. destruct (halloc (kmem x)) as [h p] eqn:Eh. pose proof Eh as Eh0. rewrite (halloc_nofail _ Hfl) in Eh0.
    injection Eh0 as <- <-. set (v := next_block (kmem x)) in *. cbn [set_kmem kmem]. unfold array_room. cbn [kmem vnode_init set_vnodes fails live next_block negb set_kmem with_vnode_table with_data fsdata].
    assert (Hv : v ∉ semfs_vnodes (fsdata x)).
    { intros Hin. destruct (proj2 (so_files _ _ HI v (semfs_absfs (fsdata x))) (conj Hin eq_refl)) as [k Hk].
      pose proof (vk_heap _ Hok v (vk_live _ Hok v _ Hk)). subst v. lia. }
    destruct (Z.eqb_spec n SEMFS_ROOTDIR) as [-> | Hr]; cbn [negb].
    + cbn [rbind]. eexists _, v. split; [done |].
      destruct (new_vnode_store x e v _ (mkSemfs (semfs_absfs (fsdata x)) (semfs_vnodes (fsdata x) ++ [v]) (<[v := SEMFS_ROOTDIR]> (semv_semnum (fsdata x))) (semfs_sems (fsdata x)) (semfs_dents (fsdata x))) HI Hok Eh) as (H1 & H2 & H3);
        [by apply links_new_root | split; [intros k s Hs; by exists s | done] | done | done |].
      split; [exact H1 |]. split; [exact H2 |]. split; [exact H3 |]. split; try done. eauto.
    + destruct Hn as [ | [sem Hsem]]; [done |]. unfold get. unfold sem_at in Hsem. cbn [semfs_sems]. rewrite Hsem. cbn [rbind].
      destruct (sems_hasvnode sem) eqn:Hh.
      { destruct (so_hasvnode _ _ HL n sem Hsem Hh) as (w & Hw & Ew). by destruct (Ho w Hw). }
      cbn [negb kassert]. unfold put_sem. cbn [fsdata semfs_sems with_vnode_table with_data vnode_init set_vnodes set_kmem semfs_absfs semfs_vnodes semv_semnum semfs_dents].
      destruct (set_upd (semfs_sems (fsdata x)) n (Some (set_hasvnode sem true))) as (ss & -> & U & Hlen); [by apply zget_Some in Hsem |].
      cbn [rbind]. eexists _, v. split; [done |].
      destruct (new_vnode_store x e v _ (mkSemfs (semfs_absfs (fsdata x)) (semfs_vnodes (fsdata x) ++ [v]) (<[v := n]> (semv_semnum (fsdata x))) ss (semfs_dents (fsdata x))) HI Hok Eh) as (H1 & H2 & H3);
        [by apply (links_new_vnode _ _ _ _ sem) | | done | done |].
      { apply (fewer_sem _ _ _ _ n (Some (set_hasvnode sem true))); [done |]. intros s' [= <-]. exists sem. split; [done |]. split; [done |]. by apply sem_ok_flags. }
      split; [exact H1 |]. split; [exact H2 |]. split; [exact H3 |]. split; try done.
      intros k s Hk. unfold sem_at in *. cbn. rewrite U. case_decide; [subst | by exists s]. exists (set_hasvnode sem true). split; [done |]. cbn. congruence.
Qed.

(** The last reference to [v] is gone, and with it the blocks [bl]. *)
Lemma gone_store x v vn h d' bl :
  semfs_ok x None -> vnodes_ok x -> vnodes x !! v = Some vn -> vn_refcount vn = 1 -> gave_blocks (kmem x) h (bl ++ [v]) ->
  links d' None -> fewer (fsdata x) d' -> (forall k p, owns d' k p -> p ∉ bl) -> (forall p, p ∈ bl -> vnodes x !! p = None) ->
  (forall w, w ∈ semfs_vnodes d' <-> w ∈ semfs_vnodes (fsdata x) /\ w <> v) -> semfs_absfs d' = semfs_absfs (fsdata x) ->
  steps x (mkStore (delete v (vnodes x)) h d') ∅ {[+ v +]}.
Proof.
  intros [Hf Hfi Hl Hb Hli] Hok Hv Hone [Gf Gh Gl] Hl' Hfew Hbl Hnone Hvs Ea. set (x' := mkStore _ _ _).
  assert (Hlive : forall w vw, vnodes x' !! w = Some vw -> w <> v /\ vnodes x !! w = Some vw).
  { intros w vw. unfold x'. cbn. rewrite lookup_delete_Some. naive_solver. }
  split; [split | intros f; cbn; by rewrite Ea].
  - split; unfold x'; cbn [fsdata kmem vnodes]; try done; [congruence | | by apply (fewer_blocks (fsdata x)) |].
    + intros w f. rewrite Ea, Hvs. specialize (Hfi w f). unfold vnode_of in *. cbn. split.
      * intros [k [Hne Hk]%lookup_delete_Some]. assert (w ∈ semfs_vnodes (fsdata x) /\ f = semfs_absfs (fsdata x)) as [] by (apply Hfi; eauto). done.
      * intros [[Hw Hne] ->]. rewrite lookup_delete_ne by done. by apply Hfi.
    + intros k p Hp. destruct (Hli k p) as [Hin Hn]; [by apply (fewer_owns _ d') |]. rewrite Gl, elem_of_app, list_elem_of_singleton.
      split; [split; [done |]; intros [Hb' | ->]; [by apply (Hbl k p) | congruence] |]. rewrite lookup_delete_ne; [done |]. congruence.
  - destruct Hok as [Hh Hlv Hp Hfs]. split; [done | | |]; intros w vw [Hne Hw]%Hlive; [ | by apply (Hp w) | by apply (Hfs w)].
    apply Gl. split; [by apply (Hlv w vw) |]. rewrite elem_of_app, list_elem_of_singleton. intros [Hb' | ]; [ | done]. rewrite (Hnone w Hb') in Hw. done.
  - intros w. unfold refs, x'. cbn. rewrite multiplicity_empty. destruct (decide (w = v)) as [-> | Hne].
    + rewrite lookup_delete_eq, multiplicity_singleton_eq, Hv. cbn. lia.
    + rewrite lookup_delete_ne, multiplicity_singleton_ne by done. lia.
  - intros w vw vw' Ew [Hne Ew']%Hlive. by simplify_eq.
Qed.

Lemma semfs_reclaim_ok x v f :
  semfs_ok x None -> vnodes_ok x -> vnode_of x v f -> runs (semfs_reclaim x v) (fun a => steps x a.1 ∅ {[+ v +]}).
Proof.
  intros HI Hok Hvf. pose proof (so_links _ _ HI) as HL. destruct (proj1 (so_files _ _ HI v f) Hvf) as [Hv ->]. destruct Hvf as [k Hk].
  pose proof (vk_pos _ Hok v _ Hk) as Hpos. cbn in Hpos. unfold semfs_reclaim. rewrite Hk. cbn [access rbind vn_refcount].
  destruct (Z.ltb_spec 1 k) as [Hgt | Hle].
  { destruct (refcount_frame x v _ (k - 1) Hok Hk) as (Hfr & Hr & Hs); [lia |]. split; [ | done]. split; [by apply (semfs_frame x) | apply Hfr | | done].
    intros w. rewrite Hr, multiplicity_empty. case_decide; [subst; rewrite multiplicity_singleton_eq; unfold refs; rewrite Hk; cbn; lia | rewrite multiplicity_singleton_ne by done; lia]. }
  assert (k = 1) as -> by lia. destruct (so_num _ _ HL v Hv) as [n En]. unfold semnum_of. cbn [fsdata with_vnode_table with_data semv_semnum]. rewrite En. cbn [access rbind].
  destruct (remove_first_spec (semfs_vnodes (fsdata x)) v (so_nodup _ _ HL)) as [_ Hrm].
  assert (Hvl : v ∈ live (kmem x)) by by apply (vk_live _ Hok v _ Hk).
  destruct (Z.eqb_spec n SEMFS_ROOTDIR) as [-> | Hr]; cbn [negb rbind].
  { unfold semfs_vnode_destroy, vnode_cleanup. cbn. rewrite Hk. cbn. destruct (hfree_gave (kmem x) v (vk_heap _ Hok) Hvl) as (h & -> & G). cbn.
    apply (gone_store x v _ h _ [] HI Hok Hk eq_refl G); [exact (links_gone_root (fsdata x) v HL Hv En) | split; [intros j s Hs; by exists s | done] | set_solver | set_solver | done | done]. }
  destruct (so_vnode _ _ HL v n Hv En Hr) as (sem & Hsem & Hh).
  pose proof (so_sem _ (so_blocks _ _ HI) n sem Hsem) as Hso.
  assert (Hlt : 0 <= n < zlen (semfs_sems (fsdata x))) by by apply zget_Some in Hsem.
  unfold get_sem, get. cbn. unfold sem_at in Hsem. rewrite Hsem. cbn. rewrite Hh. cbn. unfold put_sem. cbn.
  destruct (set_upd (semfs_sems (fsdata x)) n (Some (set_hasvnode sem false)) Hlt) as (ss & -> & U & Hlen). cbn.
  destruct (sems_linked sem) eqn:Hlk; cbn.
  { unfold semfs_vnode_destroy, vnode_cleanup. cbn. rewrite Hk. cbn. destruct (hfree_gave (kmem x) v (vk_heap _ Hok) Hvl) as (h & -> & G). cbn.
    apply (gone_store x v _ h _ [] HI Hok Hk eq_refl G); [apply (links_gone (fsdata x) v n sem); rewrite ?Hlk; done | | set_solver | set_solver | done | done].
    apply (fewer_sem _ _ _ (fsdata x) n (Some (set_hasvnode sem false))); [done |]. intros s' [= <-]. exists sem. split; [done |]. split; [done |]. by apply sem_ok_flags. }
  destruct (set_upd ss n None) as (ss' & -> & U' & Hlen'); [lia |]. cbn.
  assert (U2 : upd (semfs_sems (fsdata x)) ss' n None) by (intros j; rewrite U', U; by case_decide).
  assert (Hown : forall p, p ∈ sem_blocks sem -> owns (fsdata x) (inl n) p) by (intros p Hp; by exists sem).
  match goal with |- context [semfs_sem_destroy ?y sem] => destruct (semfs_sem_destroy_ok y sem) as (h1 & -> & G1) end;
    [apply Hok | done | intros p Hp; by apply (so_live _ _ HI (inl n) p), Hown |]. cbn in G1 |- *.
  unfold semfs_vnode_destroy, vnode_cleanup. cbn. rewrite Hk. cbn.
  destruct (hfree_gave h1 v) as (h & -> & G); [apply G1 | apply G1; split; [done |]; intros Hp; destruct (so_live _ _ HI _ _ (Hown v Hp)); congruence |]. cbn.
  apply (gone_store x v _ h _ (sem_blocks sem) HI Hok Hk eq_refl (gave_trans _ _ _ _ _ G1 G)); [apply (links_gone (fsdata x) v n sem); [done | done | done | done | done | rewrite Hlk; exact U2 | exact (eq_trans Hlen' Hlen)] | by apply (fewer_sem _ _ _ (fsdata x) n None) | | | done | done].
  - intros j p. apply (unowned_sem (fsdata x) _ n sem j p (so_blocks _ _ HI) (fewer_sem _ _ _ (fsdata x) n None _ U2 ltac:(done)) Hsem).
    by apply (empty_upd (semfs_sems (fsdata x))).
  - intros p Hp. by apply (so_live _ _ HI (inl n) p), Hown.
Qed.

(** ** New objects *)

Lemma took_ok x h l : vnodes_ok x -> took_blocks (kmem x) h l -> vnodes_ok (set_kmem x h).
Proof. intros [Hh Hlv Hp Hf] [Tf Th Tl _ _]. split; cbn; try done. intros v vn E. apply Tl. right. by apply (Hlv v vn). Qed.

Lemma took_ok_data x h l d : vnodes_ok x -> took_blocks (kmem x) h l -> vnodes_ok (with_data (set_kmem x h) d).
Proof. intros Hok Ht. by destruct (took_ok x h l Hok Ht). Qed.

Lemma heap_frame x h :
  vnodes_ok x -> heap_ok h -> fails h = fails (kmem x) -> live (kmem x) ⊆ live h -> frame x (set_kmem x h).
Proof.
  intros [Hh Hlv Hp Hf] Hh' Hfl Hl. split; cbn; try done; [by exists 0%nat | intros v; by left |]. split; cbn; try done.
  intros v vn E. apply Hl. by apply (Hlv v vn).
Qed.

Lemma took_room h h1 l : took_blocks h h1 l -> fails h = [] -> took_blocks h (mkHeap (live h1) (next_block h1) []) l.
Proof. intros [Tf Th Tl Tfr Tn] Hf. split; cbn; try done. Qed.

Lemma not_vnode x p : vnodes_ok x -> p ∉ live (kmem x) -> vnodes x !! p = None.
Proof. intros Hok Hp. destruct (vnodes x !! p) as [vn | ] eqn:E; [ | done]. destruct Hp. by apply (vk_live _ Hok p vn). Qed.

(** The blocks of a new object join those of the file system. *)
Lemma joined_ok x h l d' k0 e e' :
  semfs_ok x e -> vnodes_ok x -> took_blocks (kmem x) h l -> links d' e' ->
  semfs_vnodes d' = semfs_vnodes (fsdata x) -> semfs_absfs d' = semfs_absfs (fsdata x) ->
  (forall n sem, sem_at d' n sem -> sem_ok sem) -> (forall i dent, dent_at d' i dent -> dent_block dent <> name_block dent) ->
  (forall k p, owns d' k p -> (k = k0 /\ p ∈ l) \/ (k <> k0 /\ owns (fsdata x) k p)) ->
  semfs_ok (mkStore (vnodes x) h d') e'.
Proof.
  intros [Hf Hfi Hl Hb Hli] Hok [Tf Th Tl Tfr Tn] HL Evs Ea Hs Hd Ho. split; cbn [fsdata kmem vnodes]; try done.
  - congruence.
  - intros v f. rewrite Evs, Ea. apply Hfi.
  - split; [done | done |]. intros k k' p H1 H2.
    apply Ho in H1 as [[-> H1] | [_ H1]]; apply Ho in H2 as [[-> H2] | [_ H2]]; [done | | | by apply (so_owner _ Hb k k' p)].
    + destruct (Hli _ _ H2) as [Hin _]. by destruct (Tfr p H1).
    + destruct (Hli _ _ H1) as [Hin _]. by destruct (Tfr p H2).
  - intros k p Hp. apply Ho in Hp as [[_ Hp] | [_ Hp]].
    + split; [apply Tl; by left |]. apply not_vnode; [done | by apply Tfr].
    + destruct (Hli k p Hp). split; [apply Tl; by right | done].
Qed.

Lemma add_sem_ok x h sem ss n :
  semfs_ok x None -> vnodes_ok x -> took_blocks (kmem x) h (sem_blocks sem) -> sem_ok sem ->
  sems_hasvnode sem = false -> sems_linked sem = false -> (forall s, ~ sem_at (fsdata x) n s) ->
  upd (semfs_sems (fsdata x)) ss n (Some sem) -> zlen ss <= SEMFS_ROOTDIR ->
  semfs_ok (with_sems (set_kmem x h) ss) (Some n).
Proof.
  intros HI Hok Ht Hs Hh Hk Hn U Hl.
  assert (S : forall j s, sem_at (fsdata (with_sems (set_kmem x h) ss)) j s <-> (j = n /\ Some sem = Some s) \/ (j <> n /\ sem_at (fsdata x) j s)) by (intros; by apply sem_at_upd).
  apply (joined_ok x h (sem_blocks sem) _ (inl n) None); [done | done | done | by apply (links_new_sem _ _ sem); [apply HI | ..] | done | done | | |].
  - intros j s Hj. apply S in Hj as [[-> [= <-]] | [_ Hj]]; [done | by apply (so_sem _ (so_blocks _ _ HI) j)].
  - apply HI.
  - intros [j | j] p; cbn.
    + intros (s & Hj & Hp). apply S in Hj as [[-> [= <-]] | [Hne Hj]]; [by left | right]. split; [congruence | by exists s].
    + intros Hp. right. split; [done | exact Hp].
Qed.

Lemma add_dent_ok x h dent ds n i sem :
  semfs_ok x (Some n) -> vnodes_ok x -> took_blocks (kmem x) h (dent_blocks dent) -> semd_semnum dent = n ->
  sem_at (fsdata x) n sem -> (forall j d2, dent_at (fsdata x) j d2 -> semd_name d2 <> semd_name dent /\ semd_semnum d2 <> n) ->
  (forall d2, ~ dent_at (fsdata x) i d2) -> upd (semfs_dents (fsdata x)) ds i (Some dent) ->
  semfs_ok (with_dents (set_kmem x h) ds) (Some n).
Proof.
  intros HI Hok Ht En Hn Hnew Hi U.
  assert (D : forall j s, dent_at (fsdata (with_dents (set_kmem x h) ds)) j s <-> (j = i /\ Some dent = Some s) \/ (j <> i /\ dent_at (fsdata x) j s)) by (intros; by apply dent_at_upd).
  apply (joined_ok x h (dent_blocks dent) _ (inr i) (Some n)); [done | done | done | by apply (links_new_dent _ n i dent ds sem); [apply HI | ..] | done | done | | |].
  - apply HI.
  - intros j d2 Hj. apply D in Hj as [[-> [= <-]] | [_ Hj]]; [ | by apply (so_dent_blocks _ (so_blocks _ _ HI) j)].
    pose proof (tb_nodup _ _ _ Ht) as Hnd. unfold dent_blocks in Hnd. rewrite !NoDup_cons, !elem_of_cons, elem_of_nil in Hnd. naive_solver.
  - intros [j | j] p; cbn.
    + intros Hp. right. split; [done | exact Hp].
    + intros (d2 & Hj & Hp). apply D in Hj as [[-> [= <-]] | [Hne Hj]]; [by left | right]. split; [congruence | by exists d2].
Qed.

(** ** Searching the directory *)

Lemma zget_cons {A} (a : A) l j : zget (a :: l) j = if decide (j = 0) then Some a else zget l (j - 1).
Proof.
  unfold zget. case_decide as E; [by subst |]. destruct (Z.ltb_spec j 0), (Z.ltb_spec (j - 1) 0); try lia; [done |].
  by replace (Z.to_nat j) with (S (Z.to_nat (j - 1))) by lia.
Qed.

Lemma zget_shift {A} (a : A) l i j : i + 1 <= j -> zget (a :: l) (j - i) = zget l (j - (i + 1)).
Proof. intros Hj. rewrite zget_cons, decide_False by lia. f_equal. lia. Qed.

Lemma find_dent_spec (l : list (option semfs_direntry)) name : forall i,
  match find_dent l i name with
  | Some (j, dent) => i <= j /\ zget l (j - i) = Some (Some dent) /\ semd_name dent = name
  | None => forall j dent, zget l j = Some (Some dent) -> semd_name dent <> name
  end.
Proof.
  induction l as [ | o l IH]; intros i; cbn [find_dent]; [intros j dent E; by apply zget_Some in E; unfold zlen in E; cbn in E; lia |].
  assert (Hrest : (forall dent, o = Some dent -> semd_name dent <> name) ->
    match find_dent l (i + 1) name with
    | Some (j, dent) => i <= j /\ zget (o :: l) (j - i) = Some (Some dent) /\ semd_name dent = name
    | None => forall j dent, zget (o :: l) j = Some (Some dent) -> semd_name dent <> name
    end).
  { intros Ho. specialize (IH (i + 1)). destruct (find_dent l (i + 1) name) as [[j dent] | ].
    - destruct IH as (Hj & E & En). rewrite zget_shift by lia. split; [lia | done].
    - intros j dent. rewrite zget_cons. case_decide; [intros [= ->]; by apply Ho | apply IH]. }
  destruct o as [dent | ]; [ | by apply Hrest]. case_bool_decide as En; [ | apply Hrest; naive_solver].
  split; [lia |]. by replace (i - i) with 0 by lia.
Qed.

Lemma creat_loop_spec (l : list (option semfs_direntry)) name num : forall i empty,
  0 <= i -> i + zlen l = num -> (empty = num \/ empty < i) ->
  match creat_loop l i num empty name with
  | (Some dent, _) => exists j, zget l j = Some (Some dent) /\ semd_name dent = name
  | (None, e) => (forall j dent, zget l j = Some (Some dent) -> semd_name dent <> name) /\
      ((e = empty /\ empty <> num) \/ e = num \/ (i <= e < num /\ zget l (e - i) = Some None))
  end.
Proof.
  induction l as [ | o l IH]; intros i empty Hi Hnum He; cbn [creat_loop].
  { split; [intros j dent E; apply zget_Some in E; unfold zlen in E; cbn in E; lia | ]. destruct (decide (empty = num)); auto. }
  assert (Hlen : i + 1 + zlen l = num) by (unfold zlen in *; cbn in Hnum; lia). assert (Hpos : 0 <= zlen l) by (unfold zlen; lia).
  assert (Hrest : forall em, (em = num \/ em < i + 1) -> (em = empty \/ (empty = num /\ em = i /\ o = None)) -> (forall dent, o = Some dent -> semd_name dent <> name) ->
    match creat_loop l (i + 1) num em name with
    | (Some dent, _) => exists j, zget (o :: l) j = Some (Some dent) /\ semd_name dent = name
    | (None, e) => (forall j dent, zget (o :: l) j = Some (Some dent) -> semd_name dent <> name) /\
        ((e = empty /\ empty <> num) \/ e = num \/ (i <= e < num /\ zget (o :: l) (e - i) = Some None))
    end).
  { intros em Hem Hcase Ho. specialize (IH (i + 1) em ltac:(lia) Hlen Hem). destruct (creat_loop l (i + 1) num em name) as [[dent | ] e].
    - destruct IH as (j & E & En). exists (j + 1). split; [ | done]. apply zget_Some in E as Hj. rewrite zget_cons, decide_False by lia. by replace (j + 1 - 1) with j by lia.
    - destruct IH as [Hno Hc]. split; [intros j dent; rewrite zget_cons; case_decide; [intros [= ->]; by apply Ho | apply Hno] |].
      destruct Hc as [[-> Hne] | [-> | [Hr E]]]; [ | auto | right; right; split; [lia | rewrite zget_shift by lia; done]].
      destruct Hcase as [-> | (-> & -> & ->)]; [auto |]. right; right. split; [lia |]. by replace (i - i) with 0 by lia. }
  destruct o as [dent | ].
  - case_bool_decide as En; [exists 0; done |]. apply Hrest; [destruct He; [by left | right; lia] | by left | naive_solver].
  - destruct (Z.eqb_spec empty num); apply Hrest; try done; [right; lia | auto | destruct He; [by left | right; lia] | by left].
Qed.

(** ** Making a semaphore *)

(** The store after a piece of the work: the vnodes are those of [x]. *)
Record made x x' (e : option Z) : Prop := {
  md_ok : semfs_ok x' e;
  md_vnodes : vnodes x' = vnodes x;
  md_vok : vnodes_ok x';
  md_abs : semfs_absfs (fsdata x') = semfs_absfs (fsdata x)
}.

Lemma semfs_sem_insert_ok x h sem :
  semfs_ok x None -> vnodes_ok x -> took_blocks (kmem x) h (sem_blocks sem) -> sem_ok sem ->
  sems_hasvnode sem = false -> sems_linked sem = false ->
  semfs_sem_insert (set_kmem x h) sem = Ok (set_kmem x h, ENOSPC, 0) \/
  exists x' n, semfs_sem_insert (set_kmem x h) sem = Ok (x', 0, n) /\ made x x' (Some n) /\ sem_at (fsdata x') n sem /\
    semfs_dents (fsdata x') = semfs_dents (fsdata x) /\ (forall j d2, dent_at (fsdata x) j d2 -> semd_semnum d2 <> n).
Proof.
  intros HI Hok Ht Hs Hh Hk. pose proof (so_links _ _ HI) as HL. pose proof (so_limit _ _ HL) as Hlim. unfold semfs_sem_insert. cbn [fsdata set_kmem].
  destruct (Z.eqb_spec (zlen (semfs_sems (fsdata x))) SEMFS_ROOTDIR) as [ | Hne]; [by left | right].
  assert (Hfin : forall ss n h', (forall s, ~ sem_at (fsdata x) n s) -> upd (semfs_sems (fsdata x)) ss n (Some sem) -> zlen ss <= SEMFS_ROOTDIR ->
    took_blocks (kmem x) h' (sem_blocks sem) ->
    made x (with_sems (set_kmem x h') ss) (Some n) /\ sem_at (fsdata (with_sems (set_kmem x h') ss)) n sem /\
    semfs_dents (fsdata (with_sems (set_kmem x h') ss)) = semfs_dents (fsdata x) /\ (forall j d2, dent_at (fsdata x) j d2 -> semd_semnum d2 <> n)).
  { intros ss n h' Hno U Hl Ht'. split; [split; [by apply (add_sem_ok x h' sem) | done | by apply (took_ok_data x h' (sem_blocks sem)) | done] |].
    split; [unfold sem_at; cbn; rewrite U; by rewrite decide_True |]. split; [done |].
    intros j d2 Hj E. destruct (so_dent _ _ HL j d2 Hj) as (s & Hs' & _). rewrite E in Hs'. by apply (Hno s). }
  pose proof (empty_slot_spec (semfs_sems (fsdata x)) 0 ltac:(lia)) as He. destruct (empty_slot (semfs_sems (fsdata x)) 0) as [n | ].
  - destruct He as [_ He]. replace (n - 0) with n in He by lia.
    destruct (set_upd (semfs_sems (fsdata x)) n (Some sem)) as (ss & -> & U & Hlen); [by apply zget_Some in He |]. cbn [rbind].
    exists (with_sems (set_kmem x h) ss), n. split; [done |]. apply Hfin; [ | done | lia | done]. intros s Hs'. unfold sem_at in Hs'. congruence.
  - assert (Hf : fails h = []) by (rewrite (tb_fails _ _ _ Ht); apply HI). cbn [kmem set_kmem]. rewrite (room_nofail _ Hf).
    eexists _, (zlen (semfs_sems (fsdata x))). split; [done |].
    apply (Hfin _ _ (mkHeap (live h) (next_block h) [])); [ | apply snoc_upd | unfold zlen in *; rewrite length_app; cbn; lia | apply took_room; [done | apply HI]].
    intros s Hs'. apply zget_Some in Hs'. lia.
Qed.

Lemma creat_enter_ok x h empty num dent n sem :
  semfs_ok x (Some n) -> vnodes_ok x -> took_blocks (kmem x) h (dent_blocks dent) -> semd_semnum dent = n -> sem_at (fsdata x) n sem ->
  (forall j d2, dent_at (fsdata x) j d2 -> semd_name d2 <> semd_name dent /\ semd_semnum d2 <> n) ->
  num = zlen (semfs_dents (fsdata x)) -> (empty = num \/ (0 <= empty < num /\ zget (semfs_dents (fsdata x)) empty = Some None)) ->
  exists x' i, creat_enter (set_kmem x h) empty num dent = Ok (x', 0, i) /\ made x x' (Some n) /\ sem_at (fsdata x') n sem /\ dent_at (fsdata x') i dent.
Proof.
  intros HI Hok Ht En Hn Hnew -> He. unfold creat_enter. cbn [fsdata set_kmem].
  assert (Hfin : forall ds i h', (forall d2, ~ dent_at (fsdata x) i d2) -> upd (semfs_dents (fsdata x)) ds i (Some dent) -> took_blocks (kmem x) h' (dent_blocks dent) ->
    made x (with_dents (set_kmem x h') ds) (Some n) /\ sem_at (fsdata (with_dents (set_kmem x h') ds)) n sem /\ dent_at (fsdata (with_dents (set_kmem x h') ds)) i dent).
  { intros ds i h' Hno U Ht'. split; [split; [by apply (add_dent_ok x h' dent ds n i sem) | done | by apply (took_ok_data x h' (dent_blocks dent)) | done] |].
    split; [done |]. unfold dent_at. cbn. rewrite U. by rewrite decide_True. }
  destruct He as [-> | [Hr He]].
  - rewrite Z.ltb_irrefl. assert (Hf : fails h = []) by (rewrite (tb_fails _ _ _ Ht); apply HI). cbn [kmem set_kmem]. rewrite (room_nofail _ Hf).
    eexists _, _. split; [done |]. apply (Hfin _ _ (mkHeap (live h) (next_block h) [])); [ | apply snoc_upd | apply took_room; [done | apply HI]].
    intros d2 Hd. apply zget_Some in Hd. lia.
  - destruct (Z.ltb_spec empty (zlen (semfs_dents (fsdata x)))); [ | lia].
    destruct (set_upd (semfs_dents (fsdata x)) empty (Some dent) Hr) as (ds & -> & U & _). cbn [rbind].
    eexists _, empty. split; [done |]. apply Hfin; [ | done | done]. intros d2 Hd. unfold dent_at in Hd. congruence.
Qed.

Lemma creat_finish_ok x x3 n sem i dent empty :
  made x x3 (Some n) -> sem_at (fsdata x3) n sem -> dent_at (fsdata x3) i dent -> semd_semnum dent = n ->
  runs (creat_finish x3 empty dent n sem) (hands_back x (semfs_absfs (fsdata x))).
Proof.
  intros M3 Hn3 Hi3 En. unfold creat_finish.
  destruct (semfs_getvnode_ok x3 (Some n) n (md_ok _ _ _ M3) (md_vok _ _ _ M3)) as (x4 & w & -> & HI4 & Hc4 & Hw4 & Ho4); [eauto |].
  cbn [rbind]. change (negb (0 =? 0)) with false. cbn iota.
  destruct (op_sems _ _ Ho4 n sem Hn3) as (sem4 & Hn4 & _). unfold get_sem, get, put_sem. unfold sem_at in Hn4. rewrite Hn4. cbn [rbind access].
  destruct (set_upd (semfs_sems (fsdata x4)) n (Some (set_linked sem4 true))) as (ss & -> & U & Hlen); [by apply zget_Some in Hn4 |]. cbn [rbind].
  assert (Ea : semfs_absfs (fsdata x4) = semfs_absfs (fsdata x)) by (rewrite (op_abs _ _ Ho4); apply M3).
  pose proof (md_vnodes _ _ _ M3) as Ev3.
  cbn. exists w. split; [done |]. split; [destruct Hw4 as [k Hw4]; exists k; cbn; by rewrite Hw4, (md_abs _ _ _ M3) |].
  apply counted_steps; [ | | done].
  - destruct HI4 as [F4 Fi4 L4 B4 Li4].
    assert (Hfew : fewer (fsdata x4) (fsdata (with_sems x4 ss))).
    { apply (fewer_sem _ _ _ (fsdata x4) n (Some (set_linked sem4 true))); [done |]. intros s' [= <-]. exists sem4. split; [done |]. split; [done |]. by apply sem_ok_flags. }
    split; cbn; try done.
    + apply (links_mark (fsdata x4) n i dent sem4); try done. unfold dent_at. by rewrite (op_dents _ _ Ho4).
    + by apply (fewer_blocks (fsdata x4)).
    + intros k b Hb. apply (Li4 k b). by apply (fewer_owns _ _ _ _ Hfew).
  - split; [by destruct (ct_ok _ _ _ Hc4) | |].
    + intros u. change (refs (with_sems x4 ss) u) with (refs x4 u). rewrite (ct_refs _ _ _ Hc4 u). unfold refs. by rewrite Ev3.
    + intros u vn vn' E E'. rewrite <- Ev3 in E. by apply (ct_same _ _ _ Hc4 u).
Qed.

Lemma semfs_creat_ok x v name excl mode :
  semfs_ok x None -> vnodes_ok x -> runs (semfs_creat x v name excl mode) (hands_back x (semfs_absfs (fsdata x))).
Proof.
  intros HI Hok. assert (Hq : forall e, e <> 0 -> hands_back x (semfs_absfs (fsdata x)) (x, e, None)).
  { intros e He. cbn. destruct (Z.eqb_spec e 0); [done |]. by apply same_quiet. }
  unfold semfs_creat. destruct (is_dots name); [by apply Hq |].
  pose proof (creat_loop_spec (semfs_dents (fsdata x)) name (zlen (semfs_dents (fsdata x))) 0 (zlen (semfs_dents (fsdata x))) ltac:(lia) ltac:(lia) ltac:(by left)) as Hloop.
  destruct (creat_loop _ _ _ _ _) as [[dent | ] empty].
  - destruct excl; [by apply Hq |]. destruct Hloop as (j & Hj & En). destruct (so_dent _ _ (so_links _ _ HI) j dent Hj) as (sem & Hs & _).
    destruct (semfs_getvnode_ok x None (semd_semnum dent) HI Hok) as (x' & w & -> & HI' & Hc & Hw & Ho); [eauto |].
    cbn. exists w. split; [done |]. split; [done |]. apply counted_steps; [done | done | apply Ho].
  - destruct Hloop as [Hno He].
    destruct (semfs_sem_create_ok x (vk_heap _ Hok) (so_fails _ _ HI)) as (h & sem & -> & Ht & Hs & _ & Hh & Hk). cbn [rbind].
    destruct (semfs_sem_insert_ok x h sem HI Hok Ht Hs Hh Hk) as [-> | (x1 & n & -> & M1 & Hn1 & Ed1 & Hfree)]; cbn [rbind].
    { change (negb (ENOSPC =? 0)) with true. cbn iota.
      destruct (semfs_sem_destroy_ok (set_kmem x h) sem) as (h' & -> & G); [apply Ht | done | intros p Hp; apply Ht; by left |].
      assert (Hfr : frame x (set_kmem x h')).
      { apply heap_frame; [done | apply G | rewrite (gb_fails _ _ _ G); apply Ht |]. intros p Hp. apply G. cbn. split; [apply Ht; by right |].
        intros Hb. by destruct (tb_fresh _ _ _ Ht p Hb). }
      cbn. apply same_quiet; [by apply (semfs_frame x) | apply Hfr | done | done]. }
    change (negb (0 =? 0)) with false. cbn iota.
    destruct (semfs_direntry_create_ok x1 name n (vk_heap _ (md_vok _ _ _ M1)) (so_fails _ _ (md_ok _ _ _ M1))) as (h2 & p & q & -> & Ht2). cbn [rbind].
    destruct (creat_enter_ok x1 h2 empty (zlen (semfs_dents (fsdata x))) (mkDent p q name n) n sem) as (x3 & i & -> & M3 & Hn3 & Hi3);
      [apply M1 | apply M1 | done | done | done | | by rewrite Ed1 | rewrite Ed1 | ].
    { intros j d2 Hj. unfold dent_at in Hj. rewrite Ed1 in Hj. split; [cbn; by apply (Hno j) | by apply (Hfree j)]. }
    { destruct He as [[_ []] | [-> | [Hr E]]]; [done | by left | right]. split; [lia |]. by replace (empty - 0) with empty in E by lia. }
    cbn [rbind]. change (negb (0 =? 0)) with false. cbn iota.
    apply (creat_finish_ok x x3 n sem i); try done. destruct M1 as [? Ev1 ? Ea1], M3 as [? Ev3 ? Ea3]. split; [done | by rewrite Ev3 | done | by rewrite Ea3].
Qed.

(** ** Removing, looking up, resetting *)

Lemma shrunk_quiet x h d' bl :
  semfs_ok x None -> vnodes_ok x -> gave_blocks (kmem x) h bl -> links d' None -> fewer (fsdata x) d' ->
  (forall k p, owns d' k p -> p ∉ bl) -> (forall p, p ∈ bl -> vnodes x !! p = None) ->
  semfs_vnodes d' = semfs_vnodes (fsdata x) -> semfs_absfs d' = semfs_absfs (fsdata x) ->
  quiet x (mkStore (vnodes x) h d').
Proof.
  intros [Hf Hfi Hl Hb Hli] [Hh Hlv Hp Hfs] [Gf Gh Gl] Hl' Hfew Hbl Hnone Evs Ea. apply same_quiet; [ | | done | done].
  - split; cbn; try done; [congruence | by rewrite Evs, Ea | by apply (fewer_blocks (fsdata x)) |].
    intros k p Hp'. destruct (Hli k p) as [Hin Hn]; [by apply (fewer_owns _ d') |]. split; [apply Gl; split; [done | by apply (Hbl k)] | done].
  - split; cbn; try done. intros v vn E. apply Gl. split; [by apply (Hlv v vn) |]. intros Hb'. rewrite (Hnone v Hb') in E. done.
Qed.

Lemma fewer_dent a vs m ss d i ds : upd (semfs_dents d) ds i None -> semfs_sems d = ss -> fewer d (mkSemfs a vs m ss ds).
Proof.
  intros U <-. split; [intros n s Hs; by exists s |]. intros j dent Hj. apply (dent_at_upd d _ _ _ _ _ _ _ _ _ U) in Hj. naive_solver.
Qed.

Lemma semfs_remove_ok x v name : semfs_ok x None -> vnodes_ok x -> runs (semfs_remove x v name) (fun a => quiet x a.1).
Proof.
  intros HI Hok. assert (Hq : quiet x x) by by apply same_quiet. unfold semfs_remove. destruct (is_dots name); [done |].
  pose proof (find_dent_spec (semfs_dents (fsdata x)) name 0) as Hfind. destruct (find_dent _ _ _) as [[i dent] | ]; [ | done].
  destruct Hfind as (_ & Hi & En). replace (i - 0) with i in Hi by lia.
  pose proof (so_links _ _ HI) as HL. pose proof (so_blocks _ _ HI) as HB. destruct (so_dent _ _ HL i dent Hi) as (sem & Hsem & [Hlk | ]); [ | done].
  set (n := semd_semnum dent) in *. pose proof (so_sem _ HB n sem Hsem) as Hso. assert (Hlt : 0 <= n < zlen (semfs_sems (fsdata x))) by by apply zget_Some in Hsem.
  assert (Hs1 : forall p, p ∈ sem_blocks sem -> owns (fsdata x) (inl n) p) by (intros p Hp; by exists sem).
  assert (Hd1 : forall p, p ∈ dent_blocks dent -> owns (fsdata x) (inr i) p) by (intros p Hp; by exists dent).
  unfold get_sem, get, put_sem. unfold sem_at in Hsem. rewrite Hsem. cbn [access rbind]. rewrite Hlk. cbn [kassert].
  destruct (set_upd (semfs_sems (fsdata x)) n (Some (set_linked sem false)) Hlt) as (ss & -> & U & Hlen). cbn [rbind].
  destruct (set_upd (semfs_dents (fsdata x)) i None) as (ds & Hds & W & _); [by apply zget_Some in Hi |].
  destruct (sems_hasvnode sem) eqn:Hh; cbn [negb].
  - cbn. rewrite Hds. cbn.
    match goal with |- context [semfs_direntry_destroy ?y dent] => destruct (semfs_direntry_destroy_ok y dent) as (h & -> & G) end;
      [apply Hok | by apply (so_dent_blocks _ HB i) | intros p Hp; by apply (so_live _ _ HI (inr i)), Hd1 |]. cbn in G |- *.
    assert (Hfew : fewer (fsdata x) (mkSemfs (semfs_absfs (fsdata x)) (semfs_vnodes (fsdata x)) (semv_semnum (fsdata x)) ss ds)).
    { eapply fewer_trans; [apply (fewer_sem (semfs_absfs (fsdata x)) (semfs_vnodes (fsdata x)) (semv_semnum (fsdata x)) (fsdata x) n (Some (set_linked sem false)) ss U) | by apply (fewer_dent _ _ _ _ _ i)].
      intros s' [= <-]. exists sem. split; [done |]. split; [done |]. by apply sem_ok_flags. }
    apply (shrunk_quiet x h _ (dent_blocks dent)); try done.
    + apply (links_unlink (fsdata x) i dent sem); try done. by rewrite Hh.
    + intros k p. apply (unowned_dent (fsdata x) _ i dent k p HB Hfew Hi). by apply (empty_upd (semfs_dents (fsdata x))).
    + intros p Hp. by apply (so_live _ _ HI (inr i)), Hd1.
  - destruct (set_upd ss n None) as (ss' & Hss & U' & Hlen'); [lia |]. cbn. rewrite Hss. cbn.
    assert (U2 : upd (semfs_sems (fsdata x)) ss' n None) by (intros j; rewrite U', U; by case_decide).
    match goal with |- context [semfs_sem_destroy ?y sem] => destruct (semfs_sem_destroy_ok y sem) as (h1 & -> & G1) end;
      [apply Hok | done | intros p Hp; by apply (so_live _ _ HI (inl n)), Hs1 |]. cbn in G1 |- *. rewrite Hds. cbn.
    match goal with |- context [semfs_direntry_destroy ?y dent] => destruct (semfs_direntry_destroy_ok y dent) as (h & -> & G) end;
      [apply G1 | by apply (so_dent_blocks _ HB i) | |].
    { intros p Hp. apply G1. split; [by apply (so_live _ _ HI (inr i)), Hd1 |]. intros Hp'. by pose proof (so_owner _ HB _ _ p (Hs1 p Hp') (Hd1 p Hp)). }
    cbn in G |- *.
    assert (Hfew : fewer (fsdata x) (mkSemfs (semfs_absfs (fsdata x)) (semfs_vnodes (fsdata x)) (semv_semnum (fsdata x)) ss' ds)).
    { eapply fewer_trans; [by apply (fewer_sem (semfs_absfs (fsdata x)) (semfs_vnodes (fsdata x)) (semv_semnum (fsdata x)) (fsdata x) n None ss' U2) | by apply (fewer_dent _ _ _ _ _ i)]. }
    apply (shrunk_quiet x h _ (sem_blocks sem ++ dent_blocks dent)); try done.
    + by apply (gave_trans _ h1).
    + apply (links_unlink (fsdata x) i dent sem); try done; [by rewrite Hh | exact (eq_trans Hlen' Hlen)].
    + intros k p Hk. rewrite elem_of_app. intros [Hp | Hp]; revert Hp.
      * apply (unowned_sem (fsdata x) _ n sem k p HB Hfew Hsem); [by apply (empty_upd (semfs_sems (fsdata x))) | done].
      * apply (unowned_dent (fsdata x) _ i dent k p HB Hfew Hi); [by apply (empty_upd (semfs_dents (fsdata x))) | done].
    + intros p Hp. apply elem_of_app in Hp as [Hp | Hp]; [by apply (so_live _ _ HI (inl n)), Hs1 | by apply (so_live _ _ HI (inr i)), Hd1].
Qed.

Lemma counted_back x x' v :
  semfs_ok x' None -> counted x x' v -> semfs_absfs (fsdata x') = semfs_absfs (fsdata x) -> vnode_of x' v (semfs_absfs (fsdata x)) ->
  hands_back x (semfs_absfs (fsdata x)) (x', 0, Some v).
Proof. intros HI Hc Ea Hv. cbn. exists v. split; [done |]. split; [done |]. by apply counted_steps. Qed.

Lemma getvnode_back x n :
  semfs_ok x None -> vnodes_ok x -> (n = SEMFS_ROOTDIR \/ exists sem, sem_at (fsdata x) n sem) ->
  runs (semfs_getvnode x n) (hands_back x (semfs_absfs (fsdata x))).
Proof.
  intros HI Hok Hn. destruct (semfs_getvnode_ok x None n HI Hok Hn) as (x' & w & -> & HI' & Hc & Hw & Ho). apply counted_back; try done. apply Ho.
Qed.

(** A second reference to the directory. *)
Lemma incref_back x v f :
  semfs_ok x None -> vnodes_ok x -> vnode_of x v f ->
  exists x', vnode_incref x v = Ok x' /\ hands_back x (semfs_absfs (fsdata x)) (x', 0, Some v).
Proof.
  intros HI Hok Hv. destruct (proj1 (so_files _ _ HI v f) Hv) as [_ ->]. destruct Hv as [k Hk].
  destruct (incref_counted x v _ Hok Hk) as (x' & -> & Hc & Hfr). exists x'. split; [done |].
  apply counted_back; [by apply (semfs_frame x) | done | by rewrite (fr_data _ _ Hfr) | apply (fr_files _ _ Hfr); by exists k].
Qed.

Lemma semfs_lookup_ok x v f path :
  semfs_ok x None -> vnodes_ok x -> vnode_of x v f -> runs (semfs_lookup x v path) (hands_back x (semfs_absfs (fsdata x))).
Proof.
  intros HI Hok Hv. unfold semfs_lookup. destruct (is_dots path).
  - destruct (incref_back x v f HI Hok Hv) as (x' & -> & Hb). exact Hb.
  - pose proof (find_dent_spec (semfs_dents (fsdata x)) path 0) as Hfind. destruct (find_dent _ _ _) as [[i dent] | ]; [ | by apply same_quiet].
    destruct Hfind as (_ & Hi & _). apply getvnode_back; [done | done |]. right.
    destruct (so_dent _ _ (so_links _ _ HI) _ dent Hi) as (sem & Hs & _). eauto.
Qed.

Lemma semfs_truncate_ok x v f len n :
  semfs_ok x None -> vnodes_ok x -> vnode_of x v f -> semv_semnum (fsdata x) !! v = Some n -> n <> SEMFS_ROOTDIR ->
  runs (semfs_truncate x v len) (fun a => quiet x a.1).
Proof.
  intros HI Hok Hv En Hr. assert (Hq : quiet x x) by by apply same_quiet. unfold semfs_truncate.
  destruct (len <? 0); [done |]. destruct (2 ^ 32 - 1 <? len); [done |]. unfold semnum_of. rewrite En. cbn [access rbind].
  destruct (proj1 (so_files _ _ HI v f) Hv) as [Hin _]. destruct (so_vnode _ _ (so_links _ _ HI) v n Hin En Hr) as (sem & Hs & Hh).
  unfold get_sem, get, put_sem. unfold sem_at in Hs. rewrite Hs. cbn [access rbind].
  set (sem' := set_count sem (semfs_wakeup sem len) len).
  destruct (set_upd (semfs_sems (fsdata x)) n (Some sem')) as (ss & -> & U & Hlen); [by apply zget_Some in Hs |]. cbn.
  assert (Hw : cv_ptr (semfs_wakeup sem len) = cv_ptr (sems_cv sem) /\ cv_name (semfs_wakeup sem len) = cv_name (sems_cv sem) /\
    wc_ptr (cv_wchan (semfs_wakeup sem len)) = wc_ptr (cv_wchan (sems_cv sem)) /\
    (wc_threads (cv_wchan (sems_cv sem)) = [] -> wc_threads (cv_wchan (semfs_wakeup sem len)) = [])).
  { unfold semfs_wakeup. destruct (_ || _); [done |]. destruct (len =? 1); [ | done]. unfold cv_signal_wake, wchan_wakeone. cbn.
    destruct (wc_threads (cv_wchan (sems_cv sem))) eqn:E; cbn; rewrite ?E; done. }
  destruct Hw as (W1 & W2 & W3 & W4).
  assert (Hb : sem_blocks sem' = sem_blocks sem) by (unfold sem_blocks, sem'; cbn; by rewrite W1, W2, W3).
  assert (Hfew : fewer (fsdata x) (fsdata (with_sems x ss))).
  { apply (fewer_sem _ _ _ (fsdata x) n (Some sem')); [done |]. intros s' [= <-]. exists sem. split; [done |]. split; [done |].
    intros [K1 K2 K3]. split; [by rewrite Hb | done | by apply W4]. }
  apply same_quiet; [ | by destruct Hok | done | done]. destruct HI as [F Fi L Bl Li]. split; cbn; try done.
  - by apply (links_sem _ _ n sem sem').
  - by apply (fewer_blocks (fsdata x)).
  - intros k p Hp. apply (Li k p). by apply (fewer_owns _ _ _ _ Hfew).
Qed.

(** Either table. *)
Lemma by_table_ok x v f {A} (dir sem : res A) (Q : A -> Prop) :
  semfs_ok x None -> vnode_of x v f -> (f = semfs_absfs (fsdata x) -> runs dir Q) ->
  (forall n, f = semfs_absfs (fsdata x) -> semv_semnum (fsdata x) !! v = Some n -> n <> SEMFS_ROOTDIR -> runs sem Q) -> runs (by_table x v dir sem) Q.
Proof.
  intros HI Hv Hd Hs. destruct (proj1 (so_files _ _ HI v f) Hv) as [Hin Ef]. destruct (so_num _ _ (so_links _ _ HI) v Hin) as [n En].
  unfold by_table, semnum_of. rewrite En. cbn [access rbind]. destruct (Z.eqb_spec n SEMFS_ROOTDIR); [by apply Hd | by apply (Hs n)].
Qed.

(** The semaphore file system is one that the VFS layer can rely on. *)
#[global] Instance semfs_laws : FileSystemLaws semfs.
Proof.
  assert (Q : forall x, semfs_ok x None -> vnodes_ok x -> quiet x x) by (intros x HI Hok; by apply same_quiet).
  assert (T : forall x v f (dir sem : res (store semfs * Z)), semfs_ok x None -> vnodes_ok x -> vnode_of x v f ->
    runs dir (fun a => quiet x a.1) -> runs sem (fun a => quiet x a.1) -> runs (by_table x v dir sem) (fun a => quiet x a.1))
    by (intros x v f dir sem HI Hok Hv Hd Hs; by apply (by_table_ok x v f)).
  split; cbn -[semfs_reclaim semfs_creat semfs_remove semfs_lookup semfs_lookparent semfs_truncate semfs_getroot by_table hands_back quiet steps].
  - intros x x' HI Hfr. by apply (semfs_frame x).
  - intros x v f HI Hv. by apply (so_files _ _ HI v f).
  - intros x v f flags HI Hok Hv. destruct (proj1 (so_files _ _ HI v f) Hv) as [Hin _]. destruct (so_num _ _ (so_links _ _ HI) v Hin) as [n En].
    unfold semfs_eachopen, semnum_of. rewrite En. cbn [access rbind]. destruct (n =? SEMFS_ROOTDIR); [destruct (negb _); [ | destruct (negb _)] |]; by apply Q.
  - intros x v f. apply semfs_reclaim_ok.
  - intros x v f u HI Hok Hv. apply (by_table_ok x v f); [done | done | intros _; by apply Q | intros; by apply Q].
  - intros x v f HI Hok Hv. destruct (proj1 (so_files _ _ HI v f) Hv) as [Hin _]. destruct (so_num _ _ (so_links _ _ HI) v Hin) as [n En].
    unfold semfs_gettype, semnum_of. by rewrite En.
  - intros x v f len HI Hok Hv. apply (by_table_ok x v f); [done | done | intros _; by apply Q |]. intros n _ En Hr. by apply (semfs_truncate_ok x v f len n).
  - intros x v f u HI Hok Hv. apply (by_table_ok x v f); [done | done | intros _; by apply Q | intros; by apply Q].
  - intros x v f name excl mode HI Hok Hv. apply (by_table_ok x v f); [done | done | intros ->; by apply semfs_creat_ok | intros; by apply Q].
  - intros x v f a b HI Hok Hv. apply (T x v f); try done; by apply Q.
  - intros x v f a b HI Hok Hv. apply (T x v f); try done; by apply Q.
  - intros x v f a b HI Hok Hv _. apply (T x v f); try done; by apply Q.
  - intros x v f name HI Hok Hv. apply (T x v f); try done; [by apply semfs_remove_ok | by apply Q].
  - intros x v f a HI Hok Hv. apply (T x v f); try done; by apply Q.
  - intros x v f a v2 b HI Hok Hv _. apply (T x v f); try done; by apply Q.
  - intros x v f path HI Hok Hv _. apply (by_table_ok x v f); [done | done | intros ->; by apply (semfs_lookup_ok x v (semfs_absfs (fsdata x))) | intros; by apply Q].
  - intros x v f path len HI Hok Hv _. apply (by_table_ok x v f); [done | done | | intros; by apply Q]. intros ->. unfold semfs_lookparent.
    destruct (len <? zlen path + 1); [by apply Q |]. destruct (incref_back x v _ HI Hok Hv) as (x' & -> & Hb). exact Hb.
  - intros x f HI Hok _. by apply Q.
  - intros x f HI Hok ->. apply getvnode_back; [done | done | by left].
  - done.
  - intros x d flags HI Hok. by apply Q.
  - intros x l u HI Hok. by apply Q.
Qed.
