(* ===== verification/SemfsSync.v ===== *)
(** Reads and writes of a semaphore of the semaphore file system
    (kern/fs/semfs/semfs_vnops.c: semfs_read, semfs_write, semfs_truncate and
    semfs_wakeup), by any number of threads.

    A thread goes on from one of its stopping points to the next: where it takes
    the semaphore's lock, sleeps, or has let the lock go.  cv_signal and
    cv_broadcast of this kernel let the lock go before they wake and take it
    again after it (file Synch), so that the count may change between
    semfs_wakeup and the store behind it.  The theorems say what survives that
    and what does not. *)
From stdpp Require Import gmultiset.
From S2P Require Import Prelude Coremap Copyinout Synch Vfs Semfs.

(** Where a thread goes on once it has the lock: the loop of semfs_read or of
    semfs_write with [resid] bytes to go, the store of [newcount] behind
    semfs_wakeup in semfs_write and in semfs_truncate, and the call of
    semfs_wakeup in semfs_truncate. *)
Inductive kont :=
| Rd (resid : Z)
| Wr (resid : Z)
| WrSet (newcount resid : Z)
| Tr (newcount : Z)
| TrSet (newcount : Z).

(** [Acquire]: about to call lock_acquire; [LockWait]: asleep in it; [Inside]:
    has the lock; [CvWait]: asleep in cv_wait; [Waking]: in cv_signal or
    cv_broadcast with the lock released; [Returned]: back with this value. *)
Inductive pc :=
| Acquire (k : kont)
| LockWait (k : kont)
| Inside (k : kont)
| CvWait (resid : Z)
| Waking (newcount : Z) (k : kont)
| Returned (result : Z).

#[global] Instance kont_eq_dec : EqDecision kont.
Proof. solve_decision. Defined.
#[global] Instance pc_eq_dec : EqDecision pc.
Proof. solve_decision. Defined.

(** [balance]: what was written less what was read, since the last truncation. *)
Record sync := mkSync {
  sem : semfs_sem;
  pcs : gmap Z pc;
  balance : Z
}.

(** A call is made, or a thread goes on. *)
Inductive event := Call (t : Z) (k : kont) | Go (t : Z).

Definition set_lock (m : semfs_sem) (lk : lock) : semfs_sem :=
  mkSemfsSem (sem_block m) lk (sems_cv m) (sems_count m) (sems_hasvnode m) (sems_linked m).

Section Sync.
(** The processor each thread runs on. *)
Context (cpu_of : Z -> Z).

Definition moves (x : sync) (t : Z) (p : pc) (m : semfs_sem) (b : Z) : sync := mkSync m (<[t := p]> (pcs x)) b.

(** The outcome of lock_acquire, or of waking up in it. *)
Definition enter (x : sync) (t : Z) (k : kont) (got : res (lock * bool)) : res sync :=
  let* (lk, got) := got in
  Ok (moves x t (if got : bool then Inside k else LockWait k) (set_lock (sem x) lk) (balance x)).

(** [lock_release(sem->sems_lock); return result;] *)
Definition leave (x : sync) (t : Z) (result : Z) : res sync :=
  let* lk := lock_release (sems_lock (sem x)) (at_home cpu_of t) in
  Ok (moves x t (Returned result) (set_lock (sem x) lk) (balance x)).

(** semfs_wakeup, up to where it lets the lock go; [k]: where it is done. *)
Definition wakeup (x : sync) (t : Z) (newcount : Z) (k : kont) : res sync :=
  if (0 <? sems_count (sem x)) || (newcount =? 0) then Ok (moves x t (Inside k) (sem x) (balance x))
  else
  let* lk := cv_signal_begin (sems_lock (sem x)) (at_home cpu_of t) in
  Ok (moves x t (Waking newcount k) (set_lock (sem x) lk) (balance x)).

(** One turn of the loop of semfs_read. *)
Definition read_turn (x : sync) (t : Z) (resid : Z) : res sync :=
  if resid <=? 0 then leave x t 0
  else
  let m := sem x in
  let consume := if 0 <? sems_count m then (if sems_count m <? resid then sems_count m else resid) else 0 in
  let m := set_count m (sems_cv m) (sems_count m - consume) in
  let resid := resid - consume in
  let x := mkSync m (pcs x) (balance x - consume) in
  if resid =? 0 then leave x t 0
  else if sems_count m =? 0 then
    let* (v, lk) := cv_wait (sems_cv m) (sems_lock m) (at_home cpu_of t) in
    Ok (moves x t (CvWait resid) (set_lock (set_count m v (sems_count m)) lk) (balance x))
  else Ok (moves x t (Inside (Rd resid)) m (balance x)).

(** One turn of the loop of semfs_write, up to the wakeup. *)
Definition write_turn (x : sync) (t : Z) (resid : Z) : res sync :=
  if resid <=? 0 then leave x t 0
  else
  let newcount := u32 (sems_count (sem x) + resid) in
  if newcount <? sems_count (sem x) then leave x t EFBIG
  else wakeup x t newcount (WrSet newcount resid).

(** A thread with the lock goes on. *)
Definition inside (x : sync) (t : Z) (k : kont) : res sync :=
  match k with
  | Rd resid => read_turn x t resid
  | Wr resid => write_turn x t resid
  | WrSet newcount resid =>
    Ok (moves x t (Inside (Wr 0)) (set_count (sem x) (sems_cv (sem x)) newcount) (balance x + resid))
  | Tr newcount => wakeup x t newcount (TrSet newcount)
  | TrSet newcount =>
    leave (mkSync (set_count (sem x) (sems_cv (sem x)) newcount) (pcs x) newcount) t 0
  end.

(** [None]: the thread is asleep, or has no call to go on with. *)
Definition go (x : sync) (t : Z) : res (option sync) :=
  let some m := let* x := m in Ok (Some x) in
  match pcs x !! t with
  | Some (Acquire k) => some (enter x t k (lock_acquire (sems_lock (sem x)) (at_home cpu_of t)))
  | Some (LockWait k) =>
    if bool_decide (t ∈ wc_woken (lock_wchan (sems_lock (sem x)))) then
      some (enter x t k (lock_acquire_resume (sems_lock (sem x)) (at_home cpu_of t)))
    else Ok None
  | Some (Inside k) => some (inside x t k)
  | Some (CvWait resid) =>
    if bool_decide (t ∈ wc_woken (cv_wchan (sems_cv (sem x)))) then
      Ok (Some (moves x t (Acquire (Rd resid)) (set_count (sem x) (cv_wait_resume (sems_cv (sem x)) (at_home cpu_of t)) (sems_count (sem x))) (balance x)))
    else Ok None
  | Some (Waking newcount k) =>
    let v := if newcount =? 1 then cv_signal_wake (sems_cv (sem x)) else cv_broadcast_wake (sems_cv (sem x)) in
    Ok (Some (moves x t (Acquire k) (set_count (sem x) v (sems_count (sem x))) (balance x)))
  | Some (Returned _) | None => Ok None
  end.

(** A thread may call when it is not inside another call; the uio has at most
    2^32 - 1 bytes, and semfs_truncate checks its length before it comes here. *)
Definition may_call (x : sync) (t : Z) : bool :=
  match pcs x !! t with Some (Returned _) | None => true | _ => false end.

Definition good_call (k : kont) : bool :=
  match k with
  | Rd n | Wr n | Tr n => (0 <=? n) && (n <? 2 ^ 32)
  | _ => false
  end.

Definition sync_step (x : sync) (e : event) : res (option sync) :=
  match e with
  | Call t k => Ok (if may_call x t && good_call k then Some (moves x t (Acquire k) (sem x) (balance x)) else None)
  | Go t => go x t
  end.

(** A schedule: every event of it can happen. *)
Fixpoint sync_run (x : sync) (l : list event) : res (option sync) :=
  match l with
  | [] => Ok (Some x)
  | e :: l =>
    let* y := sync_step x e in
    match y with Some y => sync_run y l | None => Ok None end
  end.
End Sync.

(** A fresh semaphore with count [n]. *)
Definition sync0 (m : semfs_sem) : sync := mkSync m ∅ (sems_count m).

(** * More is never read than was written *)

Definition waiters (lk : lock) : list Z := wc_threads (lock_wchan lk) ++ wc_woken (lock_wchan lk).

Lemma wakeone_waiters wc u : u ∈ wc_threads (wchan_wakeone wc) ++ wc_woken (wchan_wakeone wc) <-> u ∈ wc_threads wc ++ wc_woken wc.
Proof. unfold wchan_wakeone. destruct (wc_threads wc) as [ | w ws] eqn:E; [by rewrite E |]. cbn. set_solver. Qed.

Section SyncInv.
Context (cpu_of : Z -> Z).
Notation home := (at_home cpu_of).

Lemma acquire_loop_ok lk hs t :
  lock_inv cpu_of (lk, hs) -> exists lk' got, lock_acquire_loop lk (home t) = Ok (lk', got) /\
    (got = true -> hs = []) /\ forall u, u ∈ waiters lk' -> u ∈ waiters lk \/ got = false /\ u = t.
Proof.
  intros [W _ _]. cbn in W. unfold lock_acquire_loop, waiters. destruct hs as [ | v [ | ? ?]]; [ | | done]; destruct W as [-> Hh]; cbn.
  - eexists _, _. split; [done |]. split; [done |]. cbn. set_solver.
  - eexists _, _. split; [done |]. split; [done |]. cbn. set_solver.
Qed.

Lemma lock_acquire_ok lk hs t :
  lock_inv cpu_of (lk, hs) -> t ∉ waiters lk -> t ∉ hs -> exists lk' got, lock_acquire lk (home t) = Ok (lk', got) /\
    lock_inv cpu_of (lk', if got : bool then t :: hs else hs) /\ (got = true -> hs = []) /\
    forall u, u ∈ waiters lk' -> u ∈ waiters lk \/ got = false /\ u = t.
Proof.
  intros HI Hw Hh. destruct (acquire_loop_ok lk hs t HI) as (lk' & got & E & G & U). exists lk', got.
  split; [exact E |]. split; [ | done]. apply (lock_step_inv cpu_of (lk, hs)); [done |]. by apply (LockAcquire _ lk hs t lk' got).
Qed.

Lemma lock_resume_ok lk hs t :
  lock_inv cpu_of (lk, hs) -> t ∈ wc_woken (lock_wchan lk) -> exists lk' got, lock_acquire_resume lk (home t) = Ok (lk', got) /\
    lock_inv cpu_of (lk', if got : bool then t :: hs else hs) /\ (got = true -> hs = []) /\
    forall u, u ∈ waiters lk' -> u ∈ waiters lk /\ u <> t \/ got = false /\ u = t.
Proof.
  intros HI Hw. pose proof (lk_nodup _ _ HI) as Hnd. destruct (woken_run _ _ Hnd Hw) as (_ & _ & Hf). cbn [fst] in Hnd, Hf.
  assert (E : exists lk' got, lock_acquire_resume lk (home t) = Ok (lk', got) /\ (got = true -> hs = []) /\
    forall u, u ∈ waiters lk' -> u ∈ wc_threads (lock_wchan lk) ++ wc_woken (wchan_run (lock_wchan lk) t) \/ got = false /\ u = t).
  { destruct HI as [W _ _]. cbn in W. unfold lock_acquire_resume, lock_acquire_loop, waiters.
    destruct hs as [ | v [ | ? ?]]; [ | | done]; destruct W as [-> Hh]; cbn; eexists _, _; (split; [done |]; split; [done |]); cbn; set_solver. }
  destruct E as (lk' & got & E & G & U). exists lk', got. split; [done |]. split; [ | split; [done |]].
  - apply (lock_step_inv cpu_of (lk, hs)); [done |]. by apply (LockResume _ lk hs t lk' got).
  - intros u Hu. destruct (U u Hu) as [Hin | [-> ->]]; [ | by right]. left. split; [ | by intros ->].
    unfold waiters. revert Hin. rewrite !elem_of_app. intros [ | Hin]; [by left | right]. unfold wchan_run in Hin. cbn in Hin.
    apply list_elem_of_filter in Hin. tauto.
Qed.

Lemma lock_release_ok lk hs t :
  lock_inv cpu_of (lk, hs) -> t ∈ hs -> exists lk', lock_release lk (home t) = Ok lk' /\ lock_inv cpu_of (lk', []) /\ hs = [t] /\
    (forall u, u ∈ waiters lk' <-> u ∈ waiters lk) /\ lock_do_i_hold lk (home t) = true.
Proof.
  intros HI Ht. pose proof (lk_word _ _ HI) as W. cbn in W. destruct hs as [ | v [ | ? ?]]; [by apply elem_of_nil in Ht | | done].
  apply list_elem_of_singleton in Ht as ->. destruct W as [C Hh].
  assert (Hd : lock_do_i_hold lk (home v) = true) by (unfold lock_do_i_hold; by rewrite Hh, bool_decide_eq_true_2).
  assert (E : exists lk', lock_release lk (home v) = Ok lk' /\ forall u, u ∈ waiters lk' <-> u ∈ waiters lk).
  { unfold lock_release. rewrite Hd, C. cbn. eexists. split; [done |]. intros u. apply wakeone_waiters. }
  destruct E as (lk' & E & U). exists lk'. split; [done |]. split; [ | done]. apply (lock_step_inv cpu_of (lk, [v])); [done |].
  by apply (LockRelease _ lk [] v [] lk').
Qed.

(** What a thread that has yet to take the lock knows: semfs_wakeup lets the lock
    go only if the count was 0, so that it will store no more than it adds. *)
Definition waiting_ok (k : kont) : Prop :=
  match k with
  | Rd n | Wr n | Tr n | TrSet n => 0 <= n < 2 ^ 32
  | WrSet n r => 0 <= n < 2 ^ 32 /\ n <= r
  end.

Definition inside_ok (count : Z) (k : kont) : Prop :=
  match k with
  | Rd n | Wr n | Tr n | TrSet n => 0 <= n < 2 ^ 32
  | WrSet n r => 0 <= n < 2 ^ 32 /\ n <= count + r
  end.

Definition pc_ok (count : Z) (p : pc) : Prop :=
  match p with
  | Acquire k | LockWait k | Waking _ k => waiting_ok k
  | Inside k => inside_ok count k
  | CvWait r => 0 <= r < 2 ^ 32
  | Returned _ => True
  end.

Definition is_inside (o : option pc) : Prop := exists k, o = Some (Inside k).
Definition is_waiting (o : option pc) : Prop := exists k, o = Some (LockWait k).

Record sync_inv (x : sync) (hs : list Z) : Prop := {
  sy_lock : lock_inv cpu_of (sems_lock (sem x), hs);
  sy_inside : forall t, t ∈ hs <-> is_inside (pcs x !! t);
  sy_waiting : forall t, t ∈ waiters (sems_lock (sem x)) -> is_waiting (pcs x !! t);
  sy_pcs : forall t p, pcs x !! t = Some p -> pc_ok (sems_count (sem x)) p;
  sy_count : 0 <= sems_count (sem x) < 2 ^ 32;
  sy_balance : sems_count (sem x) <= balance x
}.

(** Thread [t] has moved to [p], the lock has its new holders, and the count is
    as before or [t] had the lock. *)
Lemma inv_moves x hs t p m b hs' :
  sync_inv x hs -> lock_inv cpu_of (sems_lock m, hs') ->
  (forall u, u ∈ hs' <-> if decide (u = t) then is_inside (Some p) else u ∈ hs) ->
  (forall u, u ∈ waiters (sems_lock m) -> if decide (u = t) then is_waiting (Some p) else u ∈ waiters (sems_lock (sem x))) ->
  (sems_count m = sems_count (sem x) \/ hs = [t]) ->
  pc_ok (sems_count m) p -> 0 <= sems_count m < 2 ^ 32 -> sems_count m <= b ->
  sync_inv (moves x t p m b) hs'.
Proof.
  intros [Hlk Hin Hwt Hpc Hct Hbal] Hlk' Hin' Hwt' Hsame Hp Hc Hb. split; cbn [sem pcs balance moves]; try done.
  - intros u. rewrite Hin'. destruct (decide (u = t)) as [-> | Hne]; [by rewrite lookup_insert_eq | rewrite lookup_insert_ne by done; apply Hin].
  - intros u Hu. specialize (Hwt' u Hu). destruct (decide (u = t)) as [-> | Hne]; [by rewrite lookup_insert_eq | rewrite lookup_insert_ne by done; by apply Hwt].
  - intros u q. destruct (decide (u = t)) as [-> | Hne]; [rewrite lookup_insert_eq; by intros [= <-] |]. rewrite lookup_insert_ne by done.
    intros Hq. specialize (Hpc u q Hq). destruct Hsame as [-> | ->]; [done |]. destruct q as [ | | k | | | ]; try done.
    exfalso. apply Hne. assert (Hu : u ∈ [t]) by (apply Hin; rewrite Hq; by exists k). by apply list_elem_of_singleton in Hu.
Qed.

(** The thread at [p] is not among the holders or the waiters. *)
Lemma elsewhere x hs t p : sync_inv x hs -> pcs x !! t = Some p -> (forall k, p <> Inside k) -> t ∉ hs.
Proof. intros HI Hp Hne Ht. apply (sy_inside _ _ HI) in Ht as [k E]. rewrite Hp in E. injection E as ->. by apply (Hne k). Qed.

Lemma not_waiting x hs t : sync_inv x hs -> ~ is_waiting (pcs x !! t) -> t ∉ waiters (sems_lock (sem x)).
Proof. intros HI Hn Ht. by apply Hn, (sy_waiting _ _ HI). Qed.

(** Taking the lock, at once or after a wakeup. *)
Lemma enter_ok x hs t k got lk' b :
  sync_inv x hs -> got = Ok (lk', b) -> waiting_ok k -> t ∉ hs ->
  lock_inv cpu_of (lk', if b : bool then t :: hs else hs) -> (b = true -> hs = []) ->
  (forall u, u ∈ waiters lk' -> u ∈ waiters (sems_lock (sem x)) /\ u <> t \/ b = false /\ u = t) ->
  runs (enter x t k got) (fun y => exists hs', sync_inv y hs').
Proof.
  intros HI -> Hk Ht Hlk Hb Hw. unfold enter. cbn. exists (if b then t :: hs else hs).
  pose proof (sy_count _ _ HI). pose proof (sy_balance _ _ HI).
  apply (inv_moves x hs); try done.
  - intros u. destruct b; [rewrite elem_of_cons |]; case_decide as Hd; subst; try (unfold is_inside; naive_solver).
  - cbn. intros u Hu. destruct (Hw u Hu) as [[Hin Hne] | [-> ->]]; [by rewrite decide_False | rewrite decide_True by done; by exists k].
  - by left.
  - cbn. destruct b; [ | done]. destruct k; cbn in *; lia.
Qed.

(** Letting the lock go: to return, to sleep or to wake somebody. *)
Lemma release_ok x hs t :
  sync_inv x hs -> is_inside (pcs x !! t) ->
  exists lk', lock_release (sems_lock (sem x)) (home t) = Ok lk' /\ lock_do_i_hold (sems_lock (sem x)) (home t) = true /\
    forall p m b, sems_lock m = lk' -> (forall k, p <> Inside k) -> pc_ok (sems_count m) p ->
      0 <= sems_count m < 2 ^ 32 -> sems_count m <= b -> sync_inv (moves x t p m b) [].
Proof.
  intros HI Hin. pose proof (proj2 (sy_inside _ _ HI t) Hin) as Ht.
  destruct (lock_release_ok _ _ t (sy_lock _ _ HI) Ht) as (lk' & E & Hlk' & -> & Hw & Hd). exists lk'. split; [done |]. split; [done |].
  intros p m b Hm Hp Hok Hc Hb. apply (inv_moves x [t]); rewrite ?Hm; try done.
  - intros u. rewrite elem_of_nil. case_decide; [unfold is_inside; split; [done |]; intros [k [= ->]]; by apply (Hp k) | set_solver].
  - intros u Hu. apply Hw in Hu. case_decide as Hd'; [subst | done]. exfalso. apply (sy_waiting _ _ HI) in Hu as [k Ek].
    destruct Hin as [k' Ek']. congruence.
  - by right.
Qed.

Lemma leave_ok x hs t r m b :
  sync_inv x hs -> is_inside (pcs x !! t) -> sems_lock m = sems_lock (sem x) ->
  0 <= sems_count m < 2 ^ 32 -> sems_count m <= b ->
  runs (leave cpu_of (mkSync m (pcs x) b) t r) (fun y => exists hs', sync_inv y hs').
Proof.
  intros HI Hin Hl Hc Hb. unfold leave. cbn [sem]. rewrite Hl. destruct (release_ok x hs t HI Hin) as (lk' & -> & _ & K).
  exists []. by apply (K (Returned r) (set_lock m lk') b).
Qed.

(** Going on with the lock held. *)
Lemma stay_ok x hs t k m b :
  sync_inv x hs -> is_inside (pcs x !! t) -> sems_lock m = sems_lock (sem x) -> inside_ok (sems_count m) k ->
  0 <= sems_count m < 2 ^ 32 -> sems_count m <= b -> sync_inv (moves x t (Inside k) m b) hs.
Proof.
  intros HI Hin Hl Hk Hc Hb. pose proof (proj2 (sy_inside _ _ HI t) Hin) as Ht.
  destruct (lock_release_ok _ _ t (sy_lock _ _ HI) Ht) as (lk' & _ & _ & Eh & _ & _).
  apply (inv_moves x hs); rewrite ?Hl; try done.
  - apply HI.
  - intros u. case_decide as Hd; [subst u | done]. split; [intros _; by exists k | done].
  - intros u Hu. case_decide as Hd; [subst u | done]. exfalso. apply (sy_waiting _ _ HI) in Hu as [k' Ek]. destruct Hin as [k2 Ek']. congruence.
  - by right.
Qed.

Lemma wakeup_ok x hs t n k :
  sync_inv x hs -> is_inside (pcs x !! t) -> inside_ok (sems_count (sem x)) k -> (sems_count (sem x) = 0 -> waiting_ok k) ->
  runs (wakeup cpu_of x t n k) (fun y => exists hs', sync_inv y hs').
Proof.
  intros HI Hin Hk Hk0. pose proof (sy_count _ _ HI) as Hc. pose proof (sy_balance _ _ HI) as Hb. unfold wakeup.
  destruct (Z.ltb_spec 0 (sems_count (sem x))); cbn [orb]; [exists hs; by apply stay_ok |].
  destruct (n =? 0); [exists hs; by apply stay_ok |].
  unfold cv_signal_begin. destruct (release_ok x hs t HI Hin) as (lk' & -> & -> & K). cbn [kassert rbind]. exists [].
  apply (K (Waking n k) (set_lock (sem x) lk')); try done. cbn. apply Hk0. lia.
Qed.

Lemma read_turn_ok x hs t r :
  sync_inv x hs -> is_inside (pcs x !! t) -> 0 <= r < 2 ^ 32 -> runs (read_turn cpu_of x t r) (fun y => exists hs', sync_inv y hs').
Proof.
  intros HI Hin Hr. pose proof (sy_count _ _ HI) as Hc. pose proof (sy_balance _ _ HI) as Hb. unfold read_turn.
  assert (Ex : x = mkSync (sem x) (pcs x) (balance x)) by by destruct x.
  destruct (Z.leb_spec r 0); [rewrite Ex; by apply (leave_ok x hs) |].
  set (c := if 0 <? sems_count (sem x) then _ else _).
  assert (Hcr : 0 <= c <= r /\ c <= sems_count (sem x)).
  { unfold c. destruct (Z.ltb_spec 0 (sems_count (sem x))); [ | lia]. destruct (Z.ltb_spec (sems_count (sem x)) r); lia. }
  set (m := set_count _ _ _). assert (Hm : sems_count m = sems_count (sem x) - c) by done.
  destruct (Z.eqb_spec (r - c) 0); [apply (leave_ok x hs); [done | done | done | lia | lia] |].
  destruct (Z.eqb_spec (sems_count m) 0) as [Hz | Hz].
  - unfold cv_wait. cbn [m sems_lock set_count sem]. destruct (release_ok x hs t HI Hin) as (lk' & -> & -> & K). cbn [kassert rbind runs].
    exists []. apply (K (CvWait (r - c))); cbn in *; [done | done | lia | lia | lia].
  - exists hs. apply (stay_ok x hs); try done; cbn in *; lia.
Qed.

Lemma write_turn_ok x hs t r :
  sync_inv x hs -> is_inside (pcs x !! t) -> 0 <= r < 2 ^ 32 -> runs (write_turn cpu_of x t r) (fun y => exists hs', sync_inv y hs').
Proof.
  intros HI Hin Hr. pose proof (sy_count _ _ HI) as Hc. pose proof (sy_balance _ _ HI) as Hb. unfold write_turn.
  assert (Ex : x = mkSync (sem x) (pcs x) (balance x)) by by destruct x.
  destruct (Z.leb_spec r 0); [rewrite Ex; by apply (leave_ok x hs) |].
  set (n := u32 _). assert (Hn : 0 <= n < 2 ^ 32) by apply u32_range. assert (Hle : n <= sems_count (sem x) + r) by (unfold n, u32; apply Z.mod_le; lia).
  destruct (n <? sems_count (sem x)); [rewrite Ex; by apply (leave_ok x hs) |].
  apply (wakeup_ok x hs); [done | done | cbn; lia | cbn; lia].
Qed.

Lemma inside_turn_ok x hs t k :
  sync_inv x hs -> pcs x !! t = Some (Inside k) -> runs (inside cpu_of x t k) (fun y => exists hs', sync_inv y hs').
Proof.
  intros HI Hk. assert (Hin : is_inside (pcs x !! t)) by (rewrite Hk; by exists k). pose proof (sy_pcs _ _ HI t _ Hk) as Hok. cbn in Hok.
  pose proof (sy_count _ _ HI) as Hc. pose proof (sy_balance _ _ HI) as Hb. destruct k as [r | r | n r | n | n]; cbn [inside inside_ok] in *.
  - by apply (read_turn_ok x hs).
  - by apply (write_turn_ok x hs).
  - exists hs. apply (stay_ok x hs); try done; cbn; lia.
  - apply (wakeup_ok x hs); [done | done | done | done].
  - apply (leave_ok x hs); [done | done | done | done | cbn; lia].
Qed.

(** Only [t]'s place changes, and it neither has the lock nor waits for it. *)
Lemma aside_ok x hs t p v :
  sync_inv x hs -> t ∉ hs -> t ∉ waiters (sems_lock (sem x)) -> (forall k, p <> Inside k) -> pc_ok (sems_count (sem x)) p ->
  sync_inv (moves x t p (set_count (sem x) v (sems_count (sem x))) (balance x)) hs.
Proof.
  intros HI Ht Hw Hp Hok. pose proof (sy_count _ _ HI) as Hc. pose proof (sy_balance _ _ HI) as Hb.
  apply (inv_moves x hs); try done; [apply HI | | | by left].
  - intros u. case_decide as Hd; [subst u | done]. split; [done |]. intros [k [= ->]]. by destruct (Hp k).
  - intros u Hu. case_decide as Hd; [by subst u | done].
Qed.

Lemma some_ok (m : res sync) (Q : sync -> Prop) :
  runs m Q -> runs (let* x := m in Ok (Some x)) (fun o => forall y, o = Some y -> Q y).
Proof. intros Hm. eapply runs_bind; [exact Hm |]. intros x Hx y. by intros [= <-]. Qed.

Lemma sync_step_ok x hs e :
  sync_inv x hs -> runs (sync_step cpu_of x e) (fun o => forall y, o = Some y -> exists hs', sync_inv y hs').
Proof.
  intros HI. destruct e as [t k | t]; cbn [sync_step].
  - intros y. destruct (may_call x t) eqn:Em; [ | done]. destruct (good_call k) eqn:Eg; [ | done]. intros [= <-].
    unfold may_call in Em. exists hs. replace (sem x) with (set_count (sem x) (sems_cv (sem x)) (sems_count (sem x))) at 1 by by destruct x as [[] ? ?].
    apply aside_ok; [done | | | done |].
    + intros Hin. apply (sy_inside _ _ HI) in Hin as [k' E]. by rewrite E in Em.
    + apply (not_waiting x hs); [done |]. intros [k' E]. by rewrite E in Em.
    + destruct k; cbn in Eg |- *; rewrite ?andb_true_iff in Eg; lia.
  - unfold go. destruct (pcs x !! t) as [p | ] eqn:Ep; [ | done]. pose proof (sy_pcs _ _ HI t p Ep) as Hok.
    assert (Hh : (forall k, p <> Inside k) -> t ∉ hs) by by apply (elsewhere x hs t p).
    assert (Hw : (forall k, p <> LockWait k) -> t ∉ waiters (sems_lock (sem x))).
    { intros Hne. apply (not_waiting x hs); [done |]. intros [k E]. apply (Hne k). congruence. }
    destruct p as [k | k | k | r | n k | r]; cbn [pc_ok] in Hok.
    + apply some_ok. destruct (lock_acquire_ok _ hs t (sy_lock _ _ HI) (Hw ltac:(done)) (Hh ltac:(done))) as (lk' & got & E & Hlk & G & U).
      apply (enter_ok x hs t k _ lk' got HI E); try done; [by apply Hh |]. intros u Hu. destruct (U u Hu) as [Hin | ]; [left; split; [done |] | by right].
      intros ->. by apply Hw in Hin.
    + case_bool_decide as Hwk; [ | done]. apply some_ok.
      destruct (lock_resume_ok _ hs t (sy_lock _ _ HI) Hwk) as (lk' & got & E & Hlk & G & U).
      apply (enter_ok x hs t k _ lk' got HI E); try done. by apply Hh.
    + apply some_ok. by apply (inside_turn_ok x hs).
    + case_bool_decide as Hwk; [ | done]. intros y [= <-]. exists hs. apply aside_ok; [done | by apply Hh | by apply Hw | done | done].
    + intros y [= <-]. exists hs. apply aside_ok; [done | by apply Hh | by apply Hw | done | done].
    + done.
Qed.

Lemma sync_run_ok (l : list event) : forall x hs,
  sync_inv x hs -> runs (sync_run cpu_of x l) (fun o => forall y, o = Some y -> exists hs', sync_inv y hs').
Proof.
  induction l as [ | e l IH]; intros x hs HI; cbn [sync_run]; [intros y [= <-]; by exists hs |].
  eapply runs_bind; [by apply (sync_step_ok x hs) |]. intros [y | ] Hy; [ | done]. destruct (Hy y eq_refl) as [hs' HI']. by apply (IH y hs').
Qed.
End SyncInv.

(** A semaphore nobody uses. *)
Record fresh_sem (m : semfs_sem) : Prop := {
  fs_count : 0 <= sems_count m < 2 ^ 32;
  fs_free : lock_count (sems_lock m) = 1 /\ lock_holder (sems_lock m) = None;
  fs_threads : wc_threads (lock_wchan (sems_lock m)) = [] /\ wc_woken (lock_wchan (sems_lock m)) = []
}.

(** C16: Reads, writes and truncations of a semaphore file, by any number of threads
    each of which stays on its processor ([cpu_of]), and in any interleaving: no assertion fails, at most one thread works on the
    semaphore at a time, the count stays a 32-bit number, and it is never more
    than what was written and not yet read, so that no more is read than was
    written.  A thread that is moved to another processor while it has the lock
    fails the assertion of lock_release ([lock_holder_is_cpu] in file Synch). *)
Theorem semfs_never_overdrawn cpu_of m l (Hm : fresh_sem m) :
  exists o, sync_run cpu_of (sync0 m) l = Ok o /\
    forall x, o = Some x ->
      0 <= sems_count (sem x) < 2 ^ 32 /\ sems_count (sem x) <= balance x /\
      forall t u k k', pcs x !! t = Some (Inside k) -> pcs x !! u = Some (Inside k') -> t = u.
Proof.
  destruct Hm as [Hc [Hl1 Hl2] [Ht1 Ht2]].
  assert (HI : sync_inv cpu_of (sync0 m) []).
  { split; cbn; try done.
    - split; cbn; [done | by rewrite Ht1, Ht2; constructor | by rewrite Ht1].
    - intros t. split; [by intros ?%elem_of_nil | by intros [k [=]]].
    - intros t. unfold waiters. rewrite Ht1, Ht2. by intros ?%elem_of_nil. }
  pose proof (sync_run_ok cpu_of l _ _ HI) as Hr. destruct (sync_run cpu_of (sync0 m) l) as [o | ]; [ | done].
  exists o. split; [done |]. intros x ->. destruct (Hr x eq_refl) as [hs HI']. split; [apply HI' |]. split; [apply HI' |].
  intros t u k k' Et Eu. assert (Hte : t ∈ hs) by (apply HI'; by exists k). assert (Hue : u ∈ hs) by (apply HI'; by exists k').
  destruct (lock_release_ok cpu_of _ _ t (sy_lock _ _ _ HI') Hte) as (_ & _ & _ & -> & _). by apply list_elem_of_singleton in Hue.
Qed.

(** ** What is lost when the lock is let go *)

Definition demo_sem (n : Z) : semfs_sem := mkSemfsSem 0 (mkLock 1 2 (mkWchan 3 [] []) 1 None) (mkCv 4 5 (mkWchan 6 [] []) 0) n false true.

Definition own_cpu (t : Z) : Z := t.

(** Thread 1 sleeps in a read of one byte when thread 2 writes one. *)
Definition lost_wakeup : list event :=
  [Call 1 (Rd 1); Go 1; Go 1; Call 2 (Wr 1); Go 2; Go 2; Go 2; Go 1; Go 1; Go 1; Go 2; Go 2; Go 2].

(** Two threads write one byte each. *)
Definition lost_write : list event :=
  [Call 1 (Wr 1); Go 1; Go 1; Call 2 (Wr 1); Go 2; Go 2; Go 1; Go 1; Go 2; Go 1; Go 1; Go 2; Go 2; Go 2].

Lemma semfs_never_overdrawn_witness : exists x, sync_run own_cpu (sync0 (demo_sem 3)) [Call 1 (Rd 2); Go 1; Go 1; Call 2 (Rd 4); Go 2; Go 2] = Ok (Some x) /\
  sems_count (sem x) <= balance x /\ pcs x !! 2 = Some (CvWait 3).
Proof.
  assert (Hf : fresh_sem (demo_sem 3)) by (split; cbn; repeat split; lia).
  destruct (semfs_never_overdrawn own_cpu (demo_sem 3) [Call 1 (Rd 2); Go 1; Go 1; Call 2 (Rd 4); Go 2; Go 2] Hf) as (o & E & H).
  assert (R : match sync_run own_cpu (sync0 (demo_sem 3)) [Call 1 (Rd 2); Go 1; Go 1; Call 2 (Rd 4); Go 2; Go 2] with
    | Ok (Some x) => bool_decide (pcs x !! 2 = Some (CvWait 3)) | _ => false end = true) by (vm_compute; reflexivity).
  rewrite E in R. destruct o as [x | ]; [ | discriminate R]. exists x. split; [exact E |].
  split; [apply (H x eq_refl) |]. apply bool_decide_eq_true in R. exact R.
Defined.

(** The lock that semfs_wakeup lets go: a thread that sleeps in a read is woken
    before the count is stored, finds it 0 and sleeps again, although the write
    that woke it has returned and the count is 1; and of two writes of one byte
    that both return 0 only one is counted. *)
Theorem semfs_wakeup_races :
  (exists x, sync_run own_cpu (sync0 (demo_sem 0)) lost_wakeup = Ok (Some x) /\
     pcs x !! 2 = Some (Returned 0) /\ sems_count (sem x) = 1 /\ pcs x !! 1 = Some (CvWait 1) /\ go own_cpu x 1 = Ok None) /\
  (exists x, sync_run own_cpu (sync0 (demo_sem 0)) lost_write = Ok (Some x) /\
     pcs x !! 1 = Some (Returned 0) /\ pcs x !! 2 = Some (Returned 0) /\ balance x = 2 /\ sems_count (sem x) = 1).
Proof. split; eexists; (split; [vm_compute; reflexivity |]); vm_compute; repeat split. Qed.
