(* ===== verification/VfsBoot.v ===== *)
(** Setting up the VFS layer: vfs_bootstrap (kern/vfs/vfslist.c) with the null
    device (devnull.c) and the semaphore file system (kern/fs/semfs) attached.

    The state that it leaves satisfies the invariant of file VfsRefs, so that
    the accounting of references there starts from a real state: with memory
    to be had, the boot does not panic. *)
From stdpp Require Import gmultiset.
From S2P Require Import Prelude Coremap Copyinout Synch Vfs VfsRefs VfsNames Semfs.

(** "null" *)
Definition null_name : list Z := [110; 117; 108; 108].

Definition devnull_create (s : vfs semfs) (c : caller) : res (vfs semfs) :=
  let (s, dev) := kmalloc s in
  match dev with
  | None => Fault PanicCall
  | Some dev =>
    let s := with_devices s (<[dev := mkDevice 0 1 0]> (devices s)) in
    let* (s, result) := vfs_adddev s c null_name dev false in
    if negb (result =? 0) then Fault PanicCall else Ok s
  end.

(** The labels of semfs_create, from the last one up. *)
Definition fail_semfs (h : kheap) (p : Z) : res (kheap * option semfs) :=
  let* h := hfree h p in Ok (h, None).
Definition fail_tablelock (h : kheap) (p : Z) (tablelock : lock) : res (kheap * option semfs) :=
  let* h := lock_destroy h tablelock in fail_semfs h p.
Definition fail_vnodes (h : kheap) (p : Z) (tablelock : lock) (vnodes : Z) : res (kheap * option semfs) :=
  let* h := hfree h vnodes in fail_tablelock h p tablelock.
Definition fail_sems (h : kheap) (p : Z) (tablelock : lock) (vnodes sems : Z) : res (kheap * option semfs) :=
  let* h := hfree h sems in fail_vnodes h p tablelock vnodes.
Definition fail_dirlock (h : kheap) (p : Z) (tablelock : lock) (vnodes sems : Z) (dirlock : lock) : res (kheap * option semfs) :=
  let* h := lock_destroy h dirlock in fail_sems h p tablelock vnodes sems.

(** An array is created empty, in one block; the struct semfs starts with its
    struct fs, so that both have the same address. *)
Definition semfs_create (h : kheap) : res (kheap * option semfs) :=
  let (h, p) := halloc h in
  match p with
  | None => Ok (h, None)
  | Some p =>
  let* (h, tablelock) := lock_create h in
  match tablelock with
  | None => fail_semfs h p
  | Some tablelock =>
  let (h, vnodes) := halloc h in
  match vnodes with
  | None => fail_tablelock h p tablelock
  | Some vnodes =>
  let (h, sems) := halloc h in
  match sems with
  | None => fail_vnodes h p tablelock vnodes
  | Some sems =>
  let* (h, dirlock) := lock_create h in
  match dirlock with
  | None => fail_sems h p tablelock vnodes sems
  | Some dirlock =>
  let (h, dents) := halloc h in
  match dents with
  | None => fail_dirlock h p tablelock vnodes sems dirlock
  | Some _ => Ok (h, Some (mkSemfs p [] ∅ [] []))
  end
  end
  end
  end
  end
  end.

Definition semfs_bootstrap (s : vfs semfs) (c : caller) : res (vfs semfs) :=
  let* (h, o) := semfs_create (kmem (st s)) in
  match o with
  | None => Fault PanicCall
  | Some d =>
    let s := with_st s (mkStore (vnodes (st s)) h d) in
    let* (s, result) := vfs_addfs s c semfs_volname (semfs_absfs d) in
    if negb (result =? 0) then Fault PanicCall else Ok s
  end.

Definition vfs_bootstrap (s : vfs semfs) (c : caller) : res (vfs semfs) :=
  let (s, p) := kmalloc s in
  match p with
  | None => Fault PanicCall
  | Some _ =>
  let s := with_knowndevs s [] in
  let* (h, lk) := lock_create (kmem (st s)) in
  match lk with
  | None => Fault PanicCall
  | Some lk =>
  let s := with_biglock (with_st s (set_kmem (st s) h)) lk 0 in
  let* s := devnull_create s c in
  semfs_bootstrap s c
  end
  end.

(** Before: the static variables are zero, and there is no vnode. *)
Definition unset_lock : lock := mkLock 0 0 (mkWchan 0 [] []) 0 None.
Definition vfs_start (h : kheap) : vfs semfs := mkVfs (mkStore ∅ h (mkSemfs 0 [] ∅ [] [])) unset_lock 0 ∅ [] None ∅.

(** ** What the boot leaves *)

(** Memory was taken, and more is to be had. *)
Record grown (h h' : kheap) : Prop := {
  gr_fails : fails h' = [];
  gr_heap : heap_ok h';
  gr_live : live h ⊆ live h'
}.

Lemma grown_trans h1 h2 h3 : grown h1 h2 -> grown h2 h3 -> grown h1 h3.
Proof. intros [] []. split; set_solver. Qed.

Lemma halloc_grown h : heap_ok h -> fails h = [] -> exists h' p, halloc h = (h', Some p) /\ grown h h'.
Proof.
  intros Hh Hf. rewrite (halloc_nofail _ Hf). eexists _, _. split; [done |]. split; cbn; [done | | set_solver].
  intros p. cbn. rewrite elem_of_union, elem_of_singleton. intros [-> | Hp]; [lia |]. specialize (Hh p Hp). lia.
Qed.

Lemma lock_create_grown h :
  heap_ok h -> fails h = [] -> exists h' lk, lock_create h = Ok (h', Some lk) /\ grown h h' /\ lock_count lk = 1 /\ lock_holder lk = None.
Proof.
  intros Hh Hf. unfold lock_create, object_create, wchan_create.
  destruct (halloc_grown h Hh Hf) as (h1 & p1 & -> & G1). destruct (halloc_grown h1) as (h2 & p2 & -> & G2); [apply G1.. |].
  destruct (halloc_grown h2) as (h3 & p3 & -> & G3); [apply G2.. |]. eexists _, _. split; [done |].
  split; [ | done]. eapply grown_trans; [exact G1 | by eapply grown_trans].
Qed.

Lemma semfs_create_grown h :
  heap_ok h -> fails h = [] -> exists h' p, semfs_create h = Ok (h', Some (mkSemfs p [] ∅ [] [])) /\ grown h h'.
Proof.
  intros Hh Hf. unfold semfs_create.
  destruct (halloc_grown h Hh Hf) as (h1 & p & -> & G1). destruct (lock_create_grown h1) as (h2 & lk2 & -> & G2 & _); [apply G1.. |].
  cbn [rbind]. destruct (halloc_grown h2) as (h3 & p3 & -> & G3); [apply G2.. |].
  destruct (halloc_grown h3) as (h4 & p4 & -> & G4); [apply G3.. |].
  destruct (lock_create_grown h4) as (h5 & lk5 & -> & G5 & _); [apply G4.. |]. cbn [rbind].
  destruct (halloc_grown h5) as (h6 & p6 & -> & G6); [apply G5.. |]. exists h6, p. split; [done |].
  repeat (eapply grown_trans; [eassumption |]). split; [apply G6 | apply G6 | done].
Qed.

(** With memory and a free name, a device is added. *)
Lemma vfs_doadd_result (s : vfs semfs) c dname dev fs s' r :
  fails (kmem (st s)) = [] ->
  badnames_loop (knowndevs s) (st s) (Some dname) None (match fs with Some f => fsop_getvolname (fsdata (st s)) f | None => None end) = false ->
  vfs_doadd s c dname false dev fs = Ok (s', r) -> r = 0.
Proof.
  intros Hf Hb. unfold vfs_doadd. destruct (vfs_biglock_acquire s c) as [s1 | ] eqn:Ea; [ | done].
  destruct (acquire_shape _ _ _ Ea) as (lk & dep & ->). unfold kmalloc. cbn [rbind st with_biglock with_st].
  rewrite (halloc_nofail _ Hf). cbn [andb]. unfold dev_create_vnode, kmalloc. cbn [st with_st kmem set_kmem].
  rewrite halloc_nofail by done. cbn [st with_st kmem set_kmem vnode_init set_vnodes]. rewrite halloc_nofail by done.
  unfold doadd_enter, badnames. cbn [st with_st set_kmem fsdata knowndevs with_biglock].
  destruct (vfs_biglock_do_i_hold _ _); [cbn [kassert rbind] | done].
  set (b := badnames_loop _ _ _ _ _). assert (b = false) as ->.
  { subst b. rewrite <- Hb. cbn [vnode_init set_vnodes st with_st set_kmem fsdata]. generalize (knowndevs s). intros l.
    induction l as [ | kd l IH]; [done |]. cbn [badnames_loop]. by rewrite IH. }
  rewrite room_nofail by done. cbn [negb].
  destruct (set_devnumber _ _ _); [cbn [rbind] | done]. destruct (vfs_biglock_release _ _); [ | done]. by intros [= _ <-].
Qed.

(** Nothing of the file system is in use yet. *)
Lemma empty_semfs_ok x p :
  fails (kmem x) = [] -> fsdata x = mkSemfs p [] ∅ [] [] -> (forall v f, ~ vnode_of x v f) -> semfs_ok x None.
Proof.
  intros Hf Hd Hv. assert (S : forall n sem, ~ sem_at (fsdata x) n sem).
  { intros n sem. unfold sem_at. rewrite Hd. cbn. unfold zget. by destruct (n <? 0). }
  assert (D : forall n dent, ~ dent_at (fsdata x) n dent).
  { intros n dent. unfold dent_at. rewrite Hd. cbn. unfold zget. by destruct (n <? 0). }
  assert (O : forall k q, ~ owns (fsdata x) k q) by (intros [n | n] q (a & Ha & _); [by apply (S n a) | by apply (D n a)]).
  split; [done | | | |].
  - intros v f. split; [intros Hx; by apply Hv in Hx |]. rewrite Hd. cbn. by intros [?%elem_of_nil _].
  - rewrite Hd in S, D |- *. split; try (intros ? ? Hs; exfalso; exact (S _ _ Hs)); try (intros ? ? Hs; exfalso; exact (D _ _ Hs));
      try (intros ? ? ? ? Hs; exfalso; exact (D _ _ Hs)); try (by intros ? ?%elem_of_nil); try (by intros ? ? ? ?%elem_of_nil);
      try (by intros ? ? ?%elem_of_nil); [constructor | unfold zlen, SEMFS_ROOTDIR; cbn; lia].
  - split; [intros n sem Hn; by apply S in Hn | intros i dent Hi; by apply D in Hi | intros k k' q Hk; by apply O in Hk].
  - intros k q Hk. by apply O in Hk.
Qed.

(** Calls keep the list of failing requests empty. *)
Lemma inv_fails c n (s : vfs semfs) h : vfs_inv c n s h -> fails (kmem (st s)) = [].
Proof. intros HI. exact (so_fails _ _ (iv_fs _ _ _ _ HI)). Qed.

(** Blocks that are taken, and devices that are made, change nothing else. *)
Lemma inv_alloc c n (s : vfs semfs) h h' devs :
  vfs_inv c n s h -> grown (kmem (st s)) h' -> (forall d, is_Some (devices s !! d) -> is_Some (devs !! d)) ->
  vfs_inv c n (with_devices (with_st s (set_kmem (st s) h')) devs) h.
Proof.
  intros HI [Gf Gh Gl] Hd. assert (HI' : vfs_inv c n (with_st s (set_kmem (st s) h')) h).
  { apply inv_quiet; [done |]. split; [ | done]. split; [ | | done |].
    - apply (law_frame (st s)); [apply HI |]. apply heap_frame; try done; [apply HI |]. by rewrite Gf, (inv_fails _ _ _ _ HI).
    - destruct (iv_vn _ _ _ _ HI) as [? L ? ?]. split; try done. cbn. intros v vn E. apply Gl. by apply (L v vn).
    - cbn. intros v vn vn' E E'. rewrite E in E'. by injection E' as ->. }
  destruct HI' as [? ? [] ? ? ? Hheld Hkd ? ? ?]. split; try done.
  - intros v vn Hv E. specialize (Hheld v vn Hv E). destruct (vn_ops vn) as [[d | ] | ]; [by apply Hd | done | done].
  - intros kd Hk. destruct (Hkd kd Hk) as [? Hdev ? ?]. split; try done. intros d Ed. apply Hd. by apply Hdev.
Qed.

Section Boot.
Context (h : kheap) (c : caller) (Hh : heap_ok h) (Hf : fails h = []) (Hc : in_interrupt (thr c) = false).

Lemma empty_vfs_ok h' lk devs :
  grown h h' -> lock_count lk = 1 -> lock_holder lk = None ->
  vfs_inv c 0 (mkVfs (mkStore ∅ h' (mkSemfs 0 [] ∅ [] [])) lk 0 devs [] None ∅) ∅.
Proof.
  intros G Hl1 Hl2. split; cbn [st bootfs_vnode p_cwd knowndevs]; try done.
  - apply (empty_semfs_ok _ 0); [apply G | done |]. intros v f [k E]. done.
  - split; cbn; [apply G | done..].
  - by intros kd ?%elem_of_nil.
  - constructor.
  - intros v f [k E]. done.
Qed.

Lemma devnull_create_ok s :
  vfs_inv c 0 s ∅ -> knowndevs s = [] ->
  runs (devnull_create s c) (fun s' => vfs_inv c 0 s' ∅ /\ exists d v, knowndevs s' = [mkKd null_name None (Some d) v None]).
Proof.
  intros HI Hk. unfold devnull_create, kmalloc. pose proof (inv_fails _ _ _ _ HI) as Hfs.
  destruct (halloc_grown (kmem (st s)) (vk_heap _ (iv_vn _ _ _ _ HI)) Hfs) as (h' & d & E & G). rewrite E.
  set (s1 := with_devices _ _). assert (HI1 : vfs_inv c 0 s1 ∅).
  { apply (inv_alloc c 0 s ∅ h' (<[d := mkDevice 0 1 0]> (devices s)) HI G). intros d' Hd'.
    destruct (decide (d' = d)) as [-> | ]; [rewrite lookup_insert_eq; eauto | by rewrite lookup_insert_ne]. }
  assert (Had : add_ok s1 false (Some d) None).
  { split; [intros d' [= <-]; cbn; rewrite lookup_insert_eq; eauto | eauto | done]. }
  pose proof (vfs_doadd_ok c 0 s1 ∅ null_name false (Some d) None HI1 Had) as Hadd. unfold vfs_adddev.
  destruct (vfs_doadd s1 c null_name false (Some d) None) as [[s2 r] | ] eqn:Ed; [ | done].
  apply vfs_doadd_result in Ed as ->; [ | apply (inv_fails _ _ _ _ HI1) | by cbn; rewrite Hk].
  destruct Hadd as [HI2 [v Hv]]. cbn. split; [done |]. exists d, v. by rewrite Hv; cbn; rewrite Hk.
Qed.
(** The new file system replaces data that nothing referred to. *)
Lemma new_semfs_ok s h' p :
  vfs_inv c 0 s ∅ -> omap kd_fs (knowndevs s) = [] -> grown (kmem (st s)) h' ->
  vfs_inv c 0 (with_st s (mkStore (vnodes (st s)) h' (mkSemfs p [] ∅ [] []))) ∅.
Proof.
  intros HI Hk [Gf Gh Gl]. assert (Hkd0 : forall kd f, kd ∈ knowndevs s -> kd_fs kd <> Some f).
  { intros kd f Hin Ef. assert (f ∈ omap kd_fs (knowndevs s)) as Hel by (apply list_elem_of_omap; eauto). rewrite Hk in Hel. by apply elem_of_nil in Hel. }
  assert (Hnv : forall v f, ~ vnode_of (st s) v f).
  { intros v f Hv. destruct (iv_listed _ _ _ _ HI v f Hv) as (kd & Hin & Ef). by apply (Hkd0 kd f). }
  destruct HI as [_ [Vh Vl Vp Vf] [] Hr Hb Hcw Hheld Hkd Hdev Hnd Hli]. split; try done.
  - by apply (empty_semfs_ok _ p).
  - split; cbn; try done. intros v vn E. apply Gl. by apply (Vl v vn).
  - intros kd Hin. destruct (Hkd kd Hin) as [Kv Kd Kr Kf]. split; try done. intros f Ef. by apply Hkd0 in Ef.
Qed.

Lemma semfs_bootstrap_ok s d v :
  vfs_inv c 0 s ∅ -> knowndevs s = [mkKd null_name None (Some d) v None] ->
  runs (semfs_bootstrap s c) (fun s' => vfs_inv c 0 s' ∅ /\
    exists w, knowndevs s' = knowndevs s ++ [mkKd semfs_volname None None w (Some (semfs_absfs (fsdata (st s'))))]).
Proof.
  intros HI Hk. unfold semfs_bootstrap. pose proof (inv_fails _ _ _ _ HI) as Hfs.
  destruct (semfs_create_grown (kmem (st s)) (vk_heap _ (iv_vn _ _ _ _ HI)) Hfs) as (h' & p & -> & G). cbn [rbind semfs_absfs].
  set (s1 := with_st s _). assert (HI1 : vfs_inv c 0 s1 ∅) by (apply new_semfs_ok; [done | by rewrite Hk | done]).
  assert (Had : add_ok s1 false None (Some p)).
  { split; [done | by intros [] | intros f [= <-]]. split; [done |]. split; [done |]. intros (kd & Hin & Ef). revert Hin. cbn. rewrite Hk.
    intros ->%list_elem_of_singleton. done. }
  pose proof (vfs_doadd_ok c 0 s1 ∅ semfs_volname false None (Some p) HI1 Had) as Hadd. unfold vfs_addfs.
  destruct (vfs_doadd s1 c semfs_volname false None (Some p)) as [[s2 r] | ] eqn:Ed; [ | done].
  apply vfs_doadd_result in Ed as ->; [ | apply (inv_fails _ _ _ _ HI1) | by cbn; rewrite Hk].
  destruct Hadd as [HI2 [w Hw]]. cbn. split; [done |]. exists w. cbn in Hw. rewrite Hw. repeat f_equal.
  assert (Hin : mkKd semfs_volname None None w (Some p) ∈ knowndevs s2) by (rewrite Hw; set_solver).
  by destruct (ko_fs _ _ (iv_kd _ _ _ _ HI2 _ Hin) p eq_refl) as [-> _].
Qed.

Lemma vfs_bootstrap_ok :
  runs (vfs_bootstrap (vfs_start h) c) (fun s => vfs_inv c 0 s ∅ /\ exists d v w,
    knowndevs s = [mkKd null_name None (Some d) v None; mkKd semfs_volname None None w (Some (semfs_absfs (fsdata (st s))))]).
Proof.
  unfold vfs_bootstrap, kmalloc, vfs_start. cbn [st with_st kmem set_kmem vnodes fsdata].
  destruct (halloc_grown h Hh Hf) as (h1 & p & -> & G1). cbn [st with_st kmem set_kmem with_knowndevs].
  destruct (lock_create_grown h1) as (h2 & lk & -> & G2 & L1 & L2); [apply G1.. |]. cbn [rbind].
  eapply runs_bind.
  - apply devnull_create_ok; [ | done]. apply (empty_vfs_ok h2 lk ∅); [by eapply grown_trans | done | done].
  - intros s1 (HI1 & d & v & E1). eapply runs_mono; [by apply (semfs_bootstrap_ok s1 d v) |].
    intros s2 (HI2 & w & E2). split; [done |]. exists d, v, w. by rewrite E2, E1.
Qed.
End Boot.

(** Booting the VFS layer with memory to be had does not panic: afterwards there
    are the null device, which cannot be mounted on, and the semaphore file
    system as "sem:", and every count is exact. *)
Theorem vfs_bootstrap_ready h c (Hh : heap_ok h) (Hf : fails h = []) (Hc : in_interrupt (thr c) = false) :
  exists s d v w, vfs_bootstrap (vfs_start h) c = Ok s /\
    knowndevs s = [mkKd null_name None (Some d) v None; mkKd semfs_volname None None w (Some (semfs_absfs (fsdata (st s))))] /\
    (forall u, refs (st s) u = Z.of_nat (multiplicity u (owned s))) /\
    vfs_inv c 0 s ∅.
Proof.
  pose proof (vfs_bootstrap_ok h c Hh Hf Hc) as Hb. destruct (vfs_bootstrap (vfs_start h) c) as [s | ]; [ | done].
  destruct Hb as (HI & d & v & w & E). exists s, d, v, w. split; [done |]. split; [done |]. split; [ | done].
  intros u. rewrite (iv_refs _ _ _ _ HI). f_equal. by rewrite (left_id_L ∅ disj_union).
Qed.

(** ** A concrete history *)

Definition caller1 : caller := mkCaller (mkCtx 1 0 false) 1.
Definition caller2 : caller := mkCaller (mkCtx 2 1 false) 2.
Definition heap0 : kheap := mkHeap ∅ 0 [].

Lemma vfs_bootstrap_ready_witness : exists s d v w, vfs_bootstrap (vfs_start heap0) caller1 = Ok s /\
  knowndevs s = [mkKd null_name None (Some d) v None; mkKd semfs_volname None None w (Some (semfs_absfs (fsdata (st s))))].
Proof.
  destruct (vfs_bootstrap_ready heap0 caller1) as (s & d & v & w & E & K & _).
  - intros p Hp. by apply not_elem_of_empty in Hp.
  - reflexivity.
  - reflexivity.
  - exists s, d, v, w. split; [exact E | exact K].
Defined.

(** "sem:", "sem:x", "x", "null:" and so on. *)
Definition path_sem : list Z := semfs_volname ++ [58].
Definition path_sem_x : list Z := path_sem ++ [120].
Definition path_x : list Z := [120].
Definition path_null : list Z := null_name ++ [58].

Definition booted : vfs semfs :=
  match vfs_bootstrap (vfs_start heap0) caller1 with Ok s => s | Fault _ => vfs_start heap0 end.

Definition history1 : list (caller * @vfs_call semfs) :=
  [(caller1, CChdir path_sem); (caller1, COpen path_x (Z.lor O_RDWR O_CREAT) 0); (caller2, CLookup path_sem_x);
   (caller2, COpen path_null O_WRONLY 0); (caller1, CRemove path_x); (caller1, CClose 31); (caller2, CClose 31);
   (caller2, CLookup path_sem_x); (caller1, CClearcurdir); (caller1, CSync)].

(** The semaphore is removed while two callers have it open; one reference, to
    the null device, is left. *)
Lemma vfs_references_exact_witness : exists s h, vfs_run booted ∅ history1 = Ok (s, h) /\
  (forall v, refs (st s) v = Z.of_nat (multiplicity v (h ⊎ owned s))) /\ bool_decide (h = {[+ 6 +]}) = true.
Proof.
  pose proof (vfs_bootstrap_ok heap0 caller1) as Hb.
  assert (HI : vfs_inv caller1 0 booted ∅).
  { unfold booted. destruct (vfs_bootstrap (vfs_start heap0) caller1) as [s | ].
    - apply Hb; [ | reflexivity | reflexivity]. intros p Hp. by apply not_elem_of_empty in Hp.
    - exfalso. apply Hb; [ | reflexivity | reflexivity]. intros p Hp. by apply not_elem_of_empty in Hp. }
  assert (Hl : calls_ok booted ∅ history1) by (vm_compute; repeat split; lia).
  destruct (vfs_references_exact caller1 booted ∅ history1 HI Hl) as (s & h & E & R & _).
  exists s, h. split; [exact E |]. split; [exact R |].
  assert (E2 : match vfs_run booted ∅ history1 with Ok (_, h) => bool_decide (h = {[+ 6 +]}) | Fault _ => false end = true)
    by (vm_compute; reflexivity).
  rewrite E in E2. exact E2.
Defined.

(** Inside the layer. *)
Definition locked : vfs semfs := match vfs_biglock_acquire booted caller1 with Ok s => s | Fault _ => booted end.

Lemma getdevice_reads_witness : exists s r, getdevice locked caller1 path_sem_x = Ok (s, 0, path_x, Some r).
Proof.
  destruct (getdevice_reads locked caller1 path_sem_x) as (from & rest & Hr & Hu & E); [vm_compute; reflexivity |].
  destruct (Hu (FromDevice semfs_volname) path_x) as [<- <-].
  - apply (ReadsDevice semfs_volname [] path_x); [repeat constructor; discriminate | discriminate | constructor | discriminate].
  - rewrite E. eexists _, _. vm_compute. reflexivity.
Defined.

Lemma two_unique (s : vfs semfs) a b :
  knowndevs s = [a; b] -> (forall nm, nm ∈ kd_names (fsdata (st s)) a -> nm ∉ kd_names (fsdata (st s)) b) -> unique_names s.
Proof.
  intros Hk Hd i j kd kd' nm. rewrite Hk. destruct i as [ | [ | i]], j as [ | [ | j]]; cbn [lookup list_lookup]; try done;
    intros [= <-] [= <-] H1 H2; exfalso; by apply (Hd nm).
Qed.

Lemma device_names_witness : exists s' r, vfs_getroot locked caller1 null_name = Ok (s', 0, Some r) /\ vfs_getroot locked caller1 path_x = Ok (locked, ENODEV, None).
Proof.
  assert (Hk : exists a b, knowndevs locked = [a; b] /\ kd_names (fsdata (st locked)) a = [null_name] /\ kd_names (fsdata (st locked)) b = [semfs_volname; semfs_volname])
    by (eexists _, _; vm_compute; repeat split).
  destruct Hk as (a & b & Hk & Ha & Hb). destruct (device_names locked caller1) as (Hin & Hout & _).
  - vm_compute. reflexivity.
  - apply (two_unique locked a b Hk). rewrite Ha, Hb. intros nm ->%list_elem_of_singleton. apply (bool_decide_unpack _). vm_compute. exact I.
  - rewrite (Hout path_x); [rewrite (Hin a null_name) | rewrite Hk; intros kd Hin'; apply elem_of_cons in Hin' as [-> | ->%list_elem_of_singleton];
      rewrite ?Ha, ?Hb; apply (bool_decide_unpack _); vm_compute; exact I].
    + revert Hk. vm_compute. intros [= <- <-]. eexists _, _. split; reflexivity.
    + rewrite Hk. apply list_elem_of_here.
    + rewrite Ha. apply list_elem_of_here.
Defined.

(** ** What goes wrong without memory, and after a removal *)

(** The tenth request for memory after this fails. *)
Definition short_of_memory (s : vfs semfs) : vfs semfs :=
  with_st s (set_kmem (st s) (mkHeap (live (kmem (st s))) (next_block (kmem (st s))) (replicate 10 false ++ [true]))).

(** Semfs_creat returns 0 without a vnode when there is no memory for the
    directory entry, and the assertion in vfs_open stops the kernel. *)
Theorem creat_without_memory :
  vfs_open (short_of_memory booted) caller1 path_sem_x (Z.lor O_RDWR O_CREAT) 0 = Fault Assertion.
Proof. vm_compute. reflexivity. Qed.

(** The state after a semaphore is created and removed. *)
Definition after_removal : vfs semfs :=
  match vfs_run booted ∅ [(caller1, COpen path_sem_x (Z.lor O_RDWR O_CREAT) 0); (caller1, CRemove path_sem_x)] with
  | Ok (s, _) => s
  | Fault _ => booted
  end.

(** Reading the directory dereferences the empty slot that a removal leaves. *)
Theorem getdirentry_after_removal : semfs_getdirentry (st after_removal) 0 = Fault BadAccess.
Proof. vm_compute. reflexivity. Qed.
