(* ===== verification/Files.v ===== *)
(** File descriptors and the system calls on them: sys_open, sys_read,
    sys_write and sys_close of kern/arch/mips/syscall/syscall.c.

    File descriptions ([struct fdesc]) are objects that the tables of several
    threads may point to; [fdescs] holds the live ones by address, so that a
    pointer to a freed one finds nothing.  Their locks are those of file Synch.
    The system calls are proved against an interface, the class [Vfs]: what
    the VFS layer below and user memory answer, and the law of
    [VfsLaws] that reads and writes keep the books of their uio. *)
From S2P Require Import Prelude Coremap Copyinout Synch.

Definition OPEN_MAX := 128.
Definition PATH_MAX := 1024.

(** ** The interface to the layers below

    [copyin_path f p]: the result of copyinstr and the name it left in the
    buffer.  [vfs_open]: an error code, and the vnode when that is 0. *)
Class Vfs (F : Type) := {
  copyin_path : F -> Z -> Z * list Z;
  vfs_open : F -> list Z -> Z -> Z -> F * Z * Z;
  vfs_close : F -> Z -> F;
  vop_stat_size : F -> Z -> Z;
  vop_read : F -> Z -> uio -> F * uio * Z;
  vop_write : F -> Z -> uio -> F * uio * Z
}.

Definition books (u u' : uio) : Prop :=
  0 <= uio_resid u' <= uio_resid u /\ uio_offset u' = uio_offset u + (uio_resid u - uio_resid u').

Class VfsLaws (F : Type) `{Vfs F} := {
  vop_read_books : forall f vn u f' u' r, vop_read f vn u = (f', u', r) -> 0 <= uio_resid u -> books u u';
  vop_write_books : forall f vn u f' u' r, vop_write f vn u = (f', u', r) -> 0 <= uio_resid u -> books u u'
}.

Record fdesc := mkFd {
  fname : Z;
  flags : Z;
  refcount : Z;
  offset : Z;
  vn : Z;
  fdlock : option lock
}.

Section Files.
Context {F : Type} `{Vfs F}.

Record files := mkFiles {
  vfs : F;
  heap : kheap;
  fdescs : gmap Z fdesc;
  t_fdtable : gmap Z (list (option Z))
}.

Definition with_vfs (s : files) (f : F) : files := mkFiles f (heap s) (fdescs s) (t_fdtable s).
Definition with_heap (s : files) (h : kheap) : files := mkFiles (vfs s) h (fdescs s) (t_fdtable s).
Definition with_fdescs (s : files) (m : gmap Z fdesc) : files := mkFiles (vfs s) (heap s) m (t_fdtable s).
Definition with_table (s : files) (t : Z) (l : list (option Z)) : files :=
  mkFiles (vfs s) (heap s) (fdescs s) (<[t := l]> (t_fdtable s)).

Definition free (s : files) (p : Z) : res files := let* h := hfree (heap s) p in Ok (with_heap s h).
Definition alloc (s : files) : files * option Z := let (h, p) := halloc (heap s) in (with_heap s h, p).

(** [curthread->t_fdtable[fd]]; the table has OPEN_MAX slots. *)
Definition get_slot (s : files) (t fd : Z) : res (option Z) :=
  let* l := access (t_fdtable s !! t) in access (zget l fd).

Definition set_slot (s : files) (t fd : Z) (p : option Z) : res files :=
  let* l := access (t_fdtable s !! t) in
  let* l := access (zput l fd p) in
  Ok (with_table s t l).

(** [curthread->t_fdtable[fd]->...] *)
Definition get_fdesc (s : files) (t fd : Z) : res (Z * fdesc) :=
  let* p := get_slot s t fd in
  let* p := access p in
  let* d := access (fdescs s !! p) in
  Ok (p, d).

Definition put_fdesc (s : files) (p : Z) (d : fdesc) : files := with_fdescs s (<[p := d]> (fdescs s)).

Definition with_lock (d : fdesc) (lk : option lock) : fdesc :=
  mkFd (fname d) (flags d) (refcount d) (offset d) (vn d) lk.
Definition with_offset (d : fdesc) (o : Z) : fdesc :=
  mkFd (fname d) (flags d) (refcount d) o (vn d) (fdlock d).
Definition with_refcount (d : fdesc) (n : Z) : fdesc :=
  mkFd (fname d) (flags d) n (offset d) (vn d) (fdlock d).

(** lock_acquire and lock_release of the description's lock, which asserts
    that there is one. *)
Definition fd_acquire (s : files) (p : Z) (d : fdesc) (c : ctx) : res (files * fdesc) :=
  match fdlock d with
  | None => Fault Assertion
  | Some lk =>
    let* (lk, got) := lock_acquire lk c in
    if got : bool then
      let d := with_lock d (Some lk) in Ok (put_fdesc s p d, d)
    else Fault Hang
  end.

Definition fd_release (s : files) (p : Z) (d : fdesc) (c : ctx) : res files :=
  match fdlock d with
  | None => Fault Assertion
  | Some lk => let* lk := lock_release lk c in Ok (put_fdesc s p (with_lock d (Some lk)))
  end.

(** [for(fd = 0; fd < OPEN_MAX; fd++) if(t_fdtable[fd] == NULL) break;] *)
Fixpoint first_free (l : list (option Z)) (fd : Z) : Z :=
  match l with
  | [] => fd
  | None :: _ => fd
  | Some _ :: l => first_free l (fd + 1)
  end.

(** ** sys_open

    The error code and [*retval]. *)
Definition sys_open (s : files) (c : ctx) (filename oflags mode : Z) : res (files * (Z * Z)) :=
  let t := self c in
  let flagmask := Z.lor (Z.lor (Z.lor O_CREAT O_EXCL) O_TRUNC) O_APPEND in
  let flagmask := Z.land oflags (if flagmask =? 0 then 1 else 0) in
  if filename =? 0 then Ok (s, (ENODEV, 0))
  else if negb (flagmask =? O_RDONLY) && negb (flagmask =? O_WRONLY) && negb (flagmask =? O_RDWR) then
    Ok (s, (EINVAL, 0))
  else
  let (s, name) := alloc s in
  match name with
  | None => Ok (s, (ENOMEM, 0))
  | Some name =>
  let (s, statbuf) := alloc s in
  match statbuf with
  | None => let* s := free s name in Ok (s, (ENOMEM, 0))
  | Some statbuf =>
  let (s, newfdesc) := alloc s in
  match newfdesc with
  | None => let* s := free s name in let* s := free s statbuf in Ok (s, (ENOMEM, 0))
  | Some newfdesc =>
  let* l := access (t_fdtable s !! t) in
  let fd := first_free l 0 in
  let* s := set_slot s t fd (Some newfdesc) in
  let (ret, path) := copyin_path (vfs s) filename in
  if ret <? 0 then
    let* s := free s name in let* s := free s statbuf in let* s := free s newfdesc in
    Ok (s, (EIO, 0))
  else
  let '(f, ret, v) := vfs_open (vfs s) path oflags mode in
  let s := with_vfs s f in
  if negb (ret =? 0) then
    let* s := free s name in let* s := free s statbuf in let* s := free s newfdesc in
    Ok (s, (ret, 0))
  else
  let* (h, lk) := lock_create (heap s) in
  let s := with_heap s h in
  let off := if negb (Z.land oflags O_APPEND =? 0) then vop_stat_size (vfs s) v else 0 in
  let s := put_fdesc s newfdesc (mkFd name oflags 1 off v lk) in
  let* s := free s statbuf in
  Ok (s, (0, fd))
  end end end.

(** ** sys_read and sys_write *)

(** [uio_iov] of the uio is never set: [iov] says whether the pointer that
    happens to be there can be written through, which every kernel is free to
    choose. *)
Definition sys_read (s : files) (c : ctx) (iov : bool) (as_ : option Z) (fd buf size : Z)
    : res (files * (Z * Z)) :=
  let t := self c in
  let* slot := get_slot s t fd in
  match slot with
  | None => Ok (s, (EBADF, 0))
  | Some _ =>
  if (buf =? 0) || (size =? 0) then Ok (s, (EBADF, 0))
  else
  let* (p, d) := get_fdesc s t fd in
  let* (s, d) := fd_acquire s p d c in
  let (s, read) := alloc s in
  let* read := access read in
  if negb iov then Fault BadAccess
  else
  let u := mkUio [mkIov buf size] (offset d) size UIO_USERSPACE UIO_READ as_ in
  let '(f, u, ret) := vop_read (vfs s) (vn d) u in
  let s := with_vfs s f in
  if ret <? 0 then let* s := free s read in Ok (s, (ret, 0))
  else
  let d := with_offset d (uio_offset u) in
  let s := put_fdesc s p d in
  let retval := s32 (u32 (size - uio_resid u)) in
  let* s := free s read in
  let* s := fd_release s p d c in
  Ok (s, (0, retval))
  end.

Definition sys_write (s : files) (c : ctx) (as_ : option Z) (fd buf size : Z)
    : res (files * (Z * Z)) :=
  let t := self c in
  if buf =? 0 then Ok (s, (EFAULT, 0))
  else
  let* slot := get_slot s t fd in
  match slot with
  | None => Ok (s, (EBADF, 0))
  | Some _ =>
  let* (p, d) := get_fdesc s t fd in
  let* (s, d) := fd_acquire s p d c in
  let (s, write) := alloc s in
  let* write := access write in
  let (s, uio_iov) := alloc s in
  let* uio_iov := access uio_iov in
  let u := mkUio [mkIov buf size] (offset d) size UIO_USERSPACE UIO_WRITE as_ in
  let '(f, u, ret) := vop_write (vfs s) (vn d) u in
  let s := with_vfs s f in
  if ret <? 0 then let* s := free s uio_iov in let* s := free s write in Ok (s, (ret, 0))
  else
  let d := with_offset d (uio_offset u) in
  let s := put_fdesc s p d in
  let retval := s32 (u32 (size - uio_resid u)) in
  let* s := free s uio_iov in
  let* s := free s write in
  let* s := fd_release s p d c in
  Ok (s, (0, retval))
  end.

(** ** sys_close *)

Definition sys_close (s : files) (c : ctx) (fd : Z) : res (files * Z) :=
  let t := self c in
  let* slot := get_slot s t fd in
  match slot with
  | None => Ok (s, EBADF)
  | Some _ =>
  let* (p, d) := get_fdesc s t fd in
  let* (s, d) := fd_acquire s p d c in
  let d := with_refcount d (refcount d - 1) in
  let s := put_fdesc s p d in
  if refcount d =? 0 then
    let s := with_vfs s (vfs_close (vfs s) (vn d)) in
    let* s := free s (fname d) in
    let* lk := access (fdlock d) in
    let* h := lock_destroy (heap s) lk in
    let s := with_heap s h in
    let* s := free s p in
    let s := with_fdescs s (delete p (fdescs s)) in
    let* s := set_slot s t fd None in
    Ok (s, 0)
  else
    let* s := fd_release s p d c in Ok (s, 0)
  end.

(** The table a forked child starts with: enter_forked_process copies the
    parent's, as it is when the child first runs, and counts one more
    reference to each description in it. *)
Fixpoint share (m : gmap Z fdesc) (l : list (option Z)) : res (gmap Z fdesc) :=
  match l with
  | [] => Ok m
  | None :: l => share m l
  | Some p :: l =>
    let* d := access (m !! p) in
    share (<[p := with_refcount d (refcount d + 1)]> m) l
  end.

Definition copy_fdtable (s : files) (parent child : Z) : res files :=
  let* l := access (t_fdtable s !! parent) in
  let* m := share (fdescs s) l in
  Ok (with_table (with_fdescs s m) child l).

End Files.
Arguments files F : clear implicits.

Section FilesFacts.
Context {F : Type} `{VfsLaws F}.
Implicit Types (s : files F) (l : list (option Z)).

(** Descriptions are live blocks, tables have OPEN_MAX slots. *)
Record files_ok s : Prop := {
  ok_heap : heap_ok (heap s);
  ok_descs : forall p d, fdescs s !! p = Some d -> p ∈ live (heap s);
  ok_tables : forall t l, t_fdtable s !! t = Some l -> length l = Z.to_nat OPEN_MAX
}.

Lemma first_free_spec l i :
  i <= first_free l i <= i + zlen l /\
  (first_free l i < i + zlen l -> l !! Z.to_nat (first_free l i - i) = Some None) /\
  (forall j, i <= j < first_free l i -> exists p, l !! Z.to_nat (j - i) = Some (Some p)).
Proof.
  revert i. induction l as [ | [p | ] l IH]; intros i; cbn [first_free].
  - unfold zlen. cbn. split; [lia |]. split; lia.
  - destruct (IH (i + 1)) as (H1 & H2 & H3). assert (zlen (Some p :: l) = zlen l + 1) as -> by (unfold zlen; cbn; lia).
    split; [lia |]. split.
    + intros Hlt. replace (Z.to_nat (first_free l (i + 1) - i)) with (S (Z.to_nat (first_free l (i + 1) - (i + 1)))) by lia.
      apply H2. lia.
    + intros j Hj. destruct (Z.eq_dec j i) as [-> | ]; [rewrite Z.sub_diag; by exists p |].
      replace (Z.to_nat (j - i)) with (S (Z.to_nat (j - (i + 1)))) by lia. apply H3. lia.
  - unfold zlen. cbn [length]. split; [lia |]. split; [ | lia]. intros _. by rewrite Z.sub_diag.
Qed.

(** The check of the access mode in sys_open tests a value that is always 0. *)
Lemma sys_open_flags oflags : Z.land oflags (if Z.lor (Z.lor (Z.lor O_CREAT O_EXCL) O_TRUNC) O_APPEND =? 0 then 1 else 0) = 0.
Proof. apply Z.land_0_r. Qed.

(** A block that was just handed out. *)
Lemma hfree_eq L n fl p : p ∈ L -> hfree (mkHeap L n fl) p = Ok (mkHeap (L ∖ {[p]}) n fl).
Proof. intros Hp. unfold hfree. by rewrite decide_True. Qed.

Definition opened (name p : Z) (oflags off v n : Z) : fdesc :=
  mkFd name oflags 1 off v (Some (mkLock n (n + 1) (mkWchan (n + 1 + 1) [] []) 1 None)).

(** A successful open, with no allocation failing. *)
Lemma sys_open_ok f L n fds tbl c filename oflags mode l ret path f' v :
  let s := mkFiles f (mkHeap L n []) fds tbl in
  files_ok s -> tbl !! self c = Some l -> first_free l 0 < OPEN_MAX -> filename <> 0 ->
  copyin_path f filename = (ret, path) -> 0 <= ret -> vfs_open f path oflags mode = (f', 0, v) ->
  exists off L1, sys_open s c filename oflags mode =
    Ok (mkFiles f' (mkHeap L1 (n + 1 + 1 + 1 + 1 + 1 + 1) [])
          (<[n + 1 + 1 := opened n (n + 1 + 1) oflags off v (n + 1 + 1 + 1)]> fds)
          (<[self c := <[Z.to_nat (first_free l 0) := Some (n + 1 + 1)]> l]> tbl), (0, first_free l 0)) /\
    off = (if negb (Z.land oflags O_APPEND =? 0) then vop_stat_size f' v else 0) /\
    L1 = ({[n + 1 + 1 + 1 + 1 + 1]} ∪ ({[n + 1 + 1 + 1 + 1]} ∪ ({[n + 1 + 1 + 1]} ∪
          ({[n + 1 + 1]} ∪ ({[n + 1]} ∪ ({[n]} ∪ L)))))) ∖ {[n + 1]}.
Proof.
  intros s [K D T] Hl Hfd Hname Hcopy Hret Hopen. unfold sys_open. rewrite sys_open_flags.
  rewrite (proj2 (Z.eqb_neq _ _)) by done. cbn.
  rewrite Hl. cbn [access rbind]. unfold set_slot. cbn. rewrite Hl. cbn [access rbind].
  pose proof (first_free_spec l 0) as (Hr & _). pose proof (T _ _ Hl) as Hlen.
  destruct (zput_lt l (first_free l 0) (Some (n + 1 + 1))) as [l' Hl'].
  { unfold zlen, OPEN_MAX in *. lia. }
  rewrite Hl'. cbn. apply zput_Some in Hl' as [_ ->]. rewrite Hcopy. cbn.
  rewrite (proj2 (Z.ltb_ge _ _)) by lia. rewrite Hopen. cbn. unfold free. cbn.
  rewrite hfree_eq by set_solver. cbn. eexists _, _. split; [reflexivity |]. done.
Qed.

Lemma zget_insert {A} (l : list A) i x : 0 <= i < zlen l -> zget (<[Z.to_nat i := x]> l) i = Some x.
Proof.
  intros Hi. unfold zget, zlen in *. rewrite (proj2 (Z.ltb_ge _ _)) by lia. apply list_lookup_insert_eq. lia.
Qed.

(** Closing the only reference to a description whose lock is free. *)
Lemma sys_close_last f L n fl fds tbl c fd l p d o nm w :
  let s := mkFiles f (mkHeap L n fl) fds tbl in
  in_interrupt c = false -> tbl !! self c = Some l -> 0 <= fd < zlen l -> l !! Z.to_nat fd = Some (Some p) ->
  fds !! p = Some d -> refcount d = 1 -> fdlock d = Some (mkLock o nm (mkWchan w [] []) 1 None) ->
  NoDup [fname d; p; o; nm; w] -> {[fname d; p; o; nm; w]} ⊆ L ->
  exists L', sys_close s c fd =
    Ok (mkFiles (vfs_close f (vn d)) (mkHeap L' n fl) (delete p fds)
          (<[self c := <[Z.to_nat fd := None]> l]> tbl), 0) /\
    L' = L ∖ {[fname d]} ∖ {[w]} ∖ {[nm]} ∖ {[o]} ∖ {[p]}.
Proof.
  intros s Hint Hl Hfd Hslot Hd Href Hlk Hnd Hsub. subst s. unfold sys_close, get_fdesc, get_slot.
  cbn [t_fdtable]. rewrite Hl.
  assert (zget l fd = Some (Some p)) as Hz.
  { unfold zget. by rewrite (proj2 (Z.ltb_ge _ _)) by lia. }
  cbn [access rbind]. rewrite Hz. cbn [access rbind fdescs]. rewrite Hd. cbn [access rbind].
  unfold fd_acquire. rewrite Hlk. unfold lock_acquire. rewrite Hint. cbn. rewrite Href. cbn. unfold free. cbn.
  rewrite !NoDup_cons in Hnd. destruct Hnd as (N1 & N2 & N3 & N4 & _).
  rewrite hfree_eq by set_solver. cbn. unfold lock_destroy, object_destroy, wchan_destroy. cbn.
  rewrite hfree_eq by set_solver. cbn. rewrite hfree_eq by set_solver. cbn. rewrite hfree_eq by set_solver. cbn.
  rewrite hfree_eq by set_solver. cbn. unfold set_slot. cbn. rewrite Hl. cbn [access rbind].
  destruct (zput_lt l fd None Hfd) as [l' Hl']. rewrite Hl'. apply zput_Some in Hl' as [_ ->]. cbn.
  eexists. split; [ | reflexivity]. unfold with_table, put_fdesc, with_fdescs. cbn. do 3 f_equal.
  by rewrite !delete_insert_eq.
Qed.

(** C21: open and close are inverse.  With memory to spare, an empty slot and a
    path the VFS opens, sys_open returns the lowest free descriptor, fills in
    that slot of the caller's table and no other with a fresh description
    (one reference, the offset 0 or, to append, the end of the file), and a
    sys_close of it by the same thread leaves the table, the descriptions and
    the heap exactly as they were before, the vnode closed. *)
Theorem open_close_roundtrip s c filename oflags mode l ret path f' v
  (Hok : files_ok s) (Hmem : fails (heap s) = []) (Hint : in_interrupt c = false)
  (Hl : t_fdtable s !! self c = Some l) (Hfd : first_free l 0 < OPEN_MAX) (Hname : filename <> 0)
  (Hcopy : copyin_path (vfs s) filename = (ret, path)) (Hret : 0 <= ret)
  (Hopen : vfs_open (vfs s) path oflags mode = (f', 0, v)) :
  exists s1 p d, sys_open s c filename oflags mode = Ok (s1, (0, first_free l 0)) /\
    t_fdtable s1 = <[self c := <[Z.to_nat (first_free l 0) := Some p]> l]> (t_fdtable s) /\
    fdescs s1 = <[p := d]> (fdescs s) /\ fdescs s !! p = None /\
    refcount d = 1 /\ vn d = v /\ flags d = oflags /\
    offset d = (if negb (Z.land oflags O_APPEND =? 0) then vop_stat_size f' v else 0) /\
    exists s2, sys_close s1 c (first_free l 0) = Ok (s2, 0) /\
      t_fdtable s2 = t_fdtable s /\ fdescs s2 = fdescs s /\ live (heap s2) = live (heap s) /\
      vfs s2 = vfs_close f' v.
Proof.
  destruct s as [f [L n fl] fds tbl]. cbn in Hmem, Hl, Hcopy, Hopen. subst fl.
  destruct (sys_open_ok f L n fds tbl c filename oflags mode l ret path f' v Hok Hl Hfd Hname Hcopy Hret Hopen)
    as (off & L1 & E & Hoff & HL1). destruct Hok as [K D T]. cbn in K, D, T.
  assert (HnL : forall k, 0 <= k -> n + k ∉ L) by (intros k Hk Hin%K; cbn in *; lia).
  assert (Hp : fds !! (n + 1 + 1) = None).
  { destruct (fds !! (n + 1 + 1)) eqn:Ep; [ | done]. apply D in Ep. exfalso. apply (HnL 2); [lia |].
    by replace (n + 2) with (n + 1 + 1) by lia. }
  pose proof (first_free_spec l 0) as (Hr & Hnone & _). pose proof (T _ _ Hl) as Hlen.
  assert (Hin : 0 <= first_free l 0 < zlen l) by (unfold zlen, OPEN_MAX in *; lia).
  eexists _, (n + 1 + 1), _. split; [exact E |]. cbn [t_fdtable fdescs]. split; [reflexivity |].
  split; [reflexivity |]. split; [exact Hp |]. split; [done |]. split; [done |]. split; [done |]. split; [exact Hoff |].
  destruct (sys_close_last f' L1 (n + 1 + 1 + 1 + 1 + 1 + 1) [] (<[n + 1 + 1 := opened n (n + 1 + 1) oflags off v (n + 1 + 1 + 1)]> fds)
    (<[self c := <[Z.to_nat (first_free l 0) := Some (n + 1 + 1)]> l]> tbl) c (first_free l 0)
    (<[Z.to_nat (first_free l 0) := Some (n + 1 + 1)]> l) (n + 1 + 1) (opened n (n + 1 + 1) oflags off v (n + 1 + 1 + 1))
    (n + 1 + 1 + 1) (n + 1 + 1 + 1 + 1) (n + 1 + 1 + 1 + 1 + 1)) as (L2 & E2 & HL2).
  - done.
  - apply lookup_insert_eq.
  - unfold zlen in *. by rewrite length_insert.
  - apply list_lookup_insert_eq. unfold zlen in Hin. lia.
  - apply lookup_insert_eq.
  - done.
  - done.
  - cbn. rewrite !NoDup_cons, !not_elem_of_cons. repeat split; try lia; try apply not_elem_of_nil. constructor.
  - rewrite HL1. cbn. intros x. rewrite !elem_of_union, !elem_of_difference, !elem_of_union, !elem_of_singleton. lia.
  - eexists. split; [exact E2 |]. cbn. rewrite insert_insert_eq, list_insert_insert_eq, delete_insert_id by done.
    split; [ | split; [done | split; [ | done]]].
    + rewrite list_insert_id; [by apply insert_id |]. rewrite Z.sub_0_r in Hnone. apply Hnone. lia.
    + rewrite HL2, HL1. cbn. apply set_eq. intros x.
      rewrite !elem_of_difference, !elem_of_union, !elem_of_singleton.
      assert (forall k, 0 <= k -> x = n + k -> x ∉ L) as Hx by (intros k Hk -> ; by apply HnL).
      split; [tauto |]. intros HxL. repeat split; try (intros ->; eapply (Hx 0); [lia | lia | done]);
        try tauto; intros Heq; eapply (Hx (x - n)); try lia; try done.
Qed.

(** A failed open leaves a descriptor behind.  When the VFS cannot open
    the path, sys_open returns its error and gives back all memory it took,
    but the slot it had already filled in keeps pointing to the freed
    description: the descriptor is used up, and closing it, or reading or
    writing through it, goes through the stale pointer. *)
Theorem sys_open_dangles s c filename oflags mode l ret path f' e v
  (Hok : files_ok s) (Hmem : fails (heap s) = [])
  (Hl : t_fdtable s !! self c = Some l) (Hfd : first_free l 0 < OPEN_MAX) (Hname : filename <> 0)
  (Hcopy : copyin_path (vfs s) filename = (ret, path)) (Hret : 0 <= ret)
  (Hopen : vfs_open (vfs s) path oflags mode = (f', e, v)) (He : e <> 0) :
  exists s1 p, sys_open s c filename oflags mode = Ok (s1, (e, 0)) /\
    live (heap s1) = live (heap s) /\ get_slot s1 (self c) (first_free l 0) = Ok (Some p) /\
    p ∉ live (heap s1) /\ sys_close s1 c (first_free l 0) = Fault BadAccess.
Proof.
  destruct s as [f [L n fl] fds tbl]. cbn in Hmem, Hl, Hcopy, Hopen. subst fl. destruct Hok as [K D T]. cbn in K, D, T.
  assert (HnL : forall k, 0 <= k -> n + k ∉ L) by (intros k Hk Hin%K; cbn in *; lia).
  pose proof (first_free_spec l 0) as (Hr & _). pose proof (T _ _ Hl) as Hlen.
  assert (Hin : 0 <= first_free l 0 < zlen l) by (unfold zlen, OPEN_MAX in *; lia).
  exists (mkFiles f' (mkHeap (({[n + 1 + 1]} ∪ ({[n + 1]} ∪ ({[n]} ∪ L))) ∖ {[n]} ∖ {[n + 1]} ∖ {[n + 1 + 1]}) (n + 1 + 1 + 1) [])
            fds (<[self c := <[Z.to_nat (first_free l 0) := Some (n + 1 + 1)]> l]> tbl)), (n + 1 + 1).
  split.
  { unfold sys_open. rewrite sys_open_flags. rewrite (proj2 (Z.eqb_neq filename 0)) by done. cbn.
    rewrite Hl. cbn [access rbind]. unfold set_slot. cbn. rewrite Hl. cbn [access rbind].
    destruct (zput_lt l (first_free l 0) (Some (n + 1 + 1)) Hin) as [l' Hl']. rewrite Hl'. cbn.
    apply zput_Some in Hl' as [_ ->]. rewrite Hcopy. cbn. rewrite (proj2 (Z.ltb_ge _ _)) by lia.
    rewrite Hopen. rewrite (proj2 (Z.eqb_neq e 0)) by done. cbn. unfold free. cbn.
    rewrite hfree_eq by set_solver. cbn. rewrite hfree_eq; [cbn; rewrite hfree_eq; [done |] |];
      rewrite !elem_of_difference, !elem_of_union, !elem_of_singleton; lia. }
  split; [ | split; [ | split]].
  - cbn. apply set_eq. intros x. rewrite !elem_of_difference, !elem_of_union, !elem_of_singleton.
    split; [tauto |]. intros HxL. assert (forall k, 0 <= k -> x <> n + k) as Hx by (intros k Hk -> ; by apply (HnL k)).
    pose proof (Hx 0). pose proof (Hx 1). pose proof (Hx 2). repeat split; try tauto; lia.
  - unfold get_slot. cbn. rewrite lookup_insert_eq. cbn [access rbind]. by rewrite zget_insert by done.
  - cbn. rewrite !elem_of_difference, !elem_of_singleton. tauto.
  - unfold sys_close, get_fdesc, get_slot. cbn [t_fdtable]. rewrite lookup_insert_eq. cbn [access rbind].
    rewrite zget_insert by done. cbn [access rbind fdescs].
    assert (fds !! (n + 1 + 1) = None) as ->; [ | done].
    destruct (fds !! (n + 1 + 1)) eqn:Ep; [ | done]. apply D in Ep. exfalso. apply (HnL 2); [lia |].
    by replace (n + 2) with (n + 1 + 1) by lia.
Qed.

(** A descriptor that is open with nobody using its description. *)
Definition open_fd s (c : ctx) (fd p : Z) (d : fdesc) (lk : lock) : Prop :=
  get_slot s (self c) fd = Ok (Some p) /\ fdescs s !! p = Some d /\ fdlock d = Some lk /\
  lock_count lk = 1 /\ wc_threads (lock_wchan lk) = [].

(** What write reports.  On an open descriptor, sys_write hands the buffer
    to the vnode at the description's offset; whatever non-negative value
    VOP_WRITE returns, error codes included, the call succeeds: it returns the
    bytes that were taken, moves the offset by exactly that many, and leaves
    the heap and the lock as they were.  An error of the file system is
    never reported. *)
Theorem sys_write_books s c as_ fd buf size p d lk f' u' r
  (Hok : files_ok s) (Hmem : fails (heap s) = []) (Hint : in_interrupt c = false)
  (Hbuf : buf <> 0) (Hsize : 0 <= size < 2 ^ 31) (Hfd : open_fd s c fd p d lk)
  (Hw : vop_write (vfs s) (vn d) (mkUio [mkIov buf size] (offset d) size UIO_USERSPACE UIO_WRITE as_) = (f', u', r))
  (Hr : 0 <= r) :
  exists s' n lk', sys_write s c as_ fd buf size = Ok (s', (0, n)) /\ 0 <= n <= size /\
    vfs s' = f' /\ live (heap s') = live (heap s) /\ t_fdtable s' = t_fdtable s /\
    fdescs s' = <[p := with_lock (with_offset d (offset d + n)) (Some lk')]> (fdescs s) /\
    lock_count lk' = 1.
Proof.
  destruct Hfd as (Hslot & Hd & Hlk & Hc & Hwc). destruct s as [f [L n fl] fds tbl]. cbn in Hmem. subst fl.
  destruct Hok as [K D T]. cbn in K.
  assert (HnL : forall k, 0 <= k -> n + k ∉ L) by (intros k Hk Hin%K; cbn in *; lia).
  destruct (vop_write_books _ _ _ _ _ _ Hw (proj1 Hsize)) as [Hres Hoff]. cbn in Hres, Hoff, Hw.
  unfold sys_write. rewrite (proj2 (Z.eqb_neq buf 0)) by done. rewrite Hslot. cbn [access rbind].
  unfold get_fdesc. rewrite Hslot. cbn [access rbind]. rewrite Hd. cbn [access rbind].
  unfold fd_acquire. rewrite Hlk. unfold lock_acquire, lock_acquire_loop. rewrite Hint, Hc. cbn.
  rewrite Hw. rewrite (proj2 (Z.ltb_ge r 0)) by done. cbn. unfold free. cbn.
  rewrite hfree_eq by set_solver. cbn. rewrite hfree_eq; [ | rewrite elem_of_difference, !elem_of_union, !elem_of_singleton; lia].
  cbn. unfold fd_release, lock_release, lock_do_i_hold. cbn. rewrite bool_decide_eq_true_2 by done. cbn.
  assert (Hret : s32 (u32 (size - uio_resid u')) = size - uio_resid u').
  { rewrite u32_id by (unfold is_u32; lia). unfold s32. rewrite Z.mod_small; lia. }
  rewrite Hret. eexists _, (size - uio_resid u'), _. split; [reflexivity |]. cbn. split; [lia |]. split; [done |].
  split; [ | split; [done | split]].
  - apply set_eq. intros x. rewrite !elem_of_difference, !elem_of_union, !elem_of_singleton.
    split; [tauto |]. intros HxL. assert (forall k, 0 <= k -> x <> n + k) as Hx by (intros k Hk -> ; by apply (HnL k)).
    pose proof (Hx 0). pose proof (Hx 1). repeat split; try tauto; lia.
  - rewrite !insert_insert_eq. unfold with_lock, with_offset. cbn. by rewrite Hoff.
  - done.
Qed.

(** Closing a shared descriptor does not close it.  When a description has
    more than one reference, as all have after a fork, sys_close only counts
    one off: it reports success, but the caller's slot still refers to the
    description, so the descriptor stays open, and closing it once more takes
    away the reference of the other process. *)
Theorem sys_close_shared s c fd p d lk
  (Hint : in_interrupt c = false) (Hfd : open_fd s c fd p d lk) (Href : 1 < refcount d) :
  exists s1 lk1, sys_close s c fd = Ok (s1, 0) /\ t_fdtable s1 = t_fdtable s /\
    open_fd s1 c fd p (with_lock (with_refcount d (refcount d - 1)) (Some lk1)) lk1 /\
    vfs s1 = vfs s /\ heap s1 = heap s.
Proof.
  destruct Hfd as (Hslot & Hd & Hlk & Hc & Hwc). destruct s as [f h fds tbl].
  unfold sys_close. rewrite Hslot. cbn [access rbind]. unfold get_fdesc. rewrite Hslot. cbn [access rbind].
  rewrite Hd. cbn [access rbind]. unfold fd_acquire. rewrite Hlk. unfold lock_acquire, lock_acquire_loop.
  rewrite Hint, Hc. cbn. rewrite (proj2 (Z.eqb_neq (refcount d - 1) 0)) by lia.
  unfold fd_release, lock_release, lock_do_i_hold. cbn. rewrite bool_decide_eq_true_2 by done. cbn.
  eexists _, _. split; [reflexivity |]. split; [done |]. split; [ | done]. unfold open_fd. cbn.
  split; [exact Hslot |]. split; [rewrite !lookup_insert_eq; done |]. split; [done |]. split; [done |].
  unfold wchan_wakeone. rewrite Hwc. cbn. exact Hwc.
Qed.

End FilesFacts.

(** A file system with one file that takes any write, and knows no file with
    an empty name. *)
#[global] Instance one_file : Vfs Z := {
  copyin_path := fun _ p => (0, if p =? 1 then [] else [65]);
  vfs_open := fun n path _ _ => match path with [] => (n, ENOENT, 0) | _ => (n, 0, 1) end;
  vfs_close := fun n _ => n;
  vop_stat_size := fun n _ => n;
  vop_read := fun n _ u => (n, u, 0);
  vop_write := fun n _ u =>
    (uio_offset u + uio_resid u,
     mkUio [] (uio_offset u + uio_resid u) 0 (uio_segflg u) (uio_dir u) (uio_space u), EIO)
}.

#[global] Instance one_file_laws : VfsLaws Z.
Proof.
  split.
  - intros f v u f' u' r [= <- <- <-] Hu. unfold books. lia.
  - intros f v u f' u' r [= <- <- <-] Hu. unfold books. cbn. lia.
Qed.

Definition demo_ctx : ctx := mkCtx 7 0 false.
Definition demo_files : files Z := mkFiles 10 (mkHeap ∅ 0 []) ∅ {[7 := repeat None 128]}.

Lemma demo_files_ok : files_ok demo_files.
Proof.
  split.
  - intros p Hp. cbn in Hp. set_solver.
  - intros p d Hp. cbn in Hp. by rewrite lookup_empty in Hp.
  - intros t l Hl. cbn in Hl. apply lookup_singleton_Some in Hl as [_ <-]. reflexivity.
Qed.

Lemma open_close_roundtrip_witness :
  exists s1 s2, sys_open demo_files demo_ctx 2 O_APPEND 0 = Ok (s1, (0, 0)) /\
    sys_close s1 demo_ctx 0 = Ok (s2, 0) /\ t_fdtable s2 = t_fdtable demo_files.
Proof.
  destruct (open_close_roundtrip demo_files demo_ctx 2 O_APPEND 0 (repeat None 128) 0 [65] 10 1
    demo_files_ok eq_refl eq_refl eq_refl)
    as (s1 & p & d & E & _ & _ & _ & _ & _ & _ & _ & s2 & E2 & H & _);
    [unfold OPEN_MAX; cbn; lia | discriminate | reflexivity | lia | reflexivity |].
  exists s1, s2. split; [exact E |]. split; [exact E2 | exact H].
Defined.

Lemma sys_open_dangles_witness :
  exists s1, sys_open demo_files demo_ctx 1 O_RDONLY 0 = Ok (s1, (ENOENT, 0)) /\
    sys_close s1 demo_ctx 0 = Fault BadAccess.
Proof.
  destruct (sys_open_dangles demo_files demo_ctx 1 O_RDONLY 0 (repeat None 128) 0 [] 10 ENOENT 0
    demo_files_ok eq_refl eq_refl) as (s1 & p & E & _ & _ & _ & H);
    [unfold OPEN_MAX; cbn; lia | discriminate | reflexivity | lia | reflexivity | discriminate |].
  exists s1. split; [exact E | exact H].
Defined.

(** The same with descriptor 3 open. *)
Definition demo_lock1 : lock := mkLock 11 12 (mkWchan 13 [] []) 1 None.
Definition demo_fd (refs : Z) : fdesc := mkFd 9 O_WRONLY refs 40 1 (Some demo_lock1).
Definition demo_open (refs : Z) : files Z :=
  mkFiles 10 (mkHeap {[10]} 20 []) {[10 := demo_fd refs]} {[7 := [None; None; None; Some 10] ++ repeat None 124]}.

Lemma demo_open_ok refs : files_ok (demo_open refs).
Proof.
  split.
  - intros p Hp. cbn in Hp. apply elem_of_singleton in Hp as ->. cbn. lia.
  - intros p d Hp. cbn in Hp. apply lookup_singleton_Some in Hp as [<- _]. cbn. set_solver.
  - intros t l Hl. cbn in Hl. apply lookup_singleton_Some in Hl as [_ <-]. reflexivity.
Qed.

Lemma demo_open_fd refs : open_fd (demo_open refs) demo_ctx 3 10 (demo_fd refs) demo_lock1.
Proof. by repeat split. Qed.

Lemma sys_close_shared_witness :
  exists s1, sys_close (demo_open 2) demo_ctx 3 = Ok (s1, 0) /\ get_slot s1 7 3 = Ok (Some 10).
Proof.
  destruct (sys_close_shared (demo_open 2) demo_ctx 3 10 (demo_fd 2) demo_lock1 eq_refl (demo_open_fd 2))
    as (s1 & lk1 & E & _ & H & _); [cbn; lia |].
  exists s1. split; [exact E | exact (proj1 H)].
Defined.

Lemma sys_write_books_witness :
  exists s' n, sys_write (demo_open 1) demo_ctx (Some 5) 3 0x400000 100 = Ok (s', (0, n)) /\ 0 <= n <= 100.
Proof.
  destruct (sys_write_books (demo_open 1) demo_ctx (Some 5) 3 0x400000 100 10 (demo_fd 1) demo_lock1 140
    (mkUio [] 140 0 UIO_USERSPACE UIO_WRITE (Some 5)) EIO (demo_open_ok 1) eq_refl eq_refl)
    as (s' & n & lk' & E & H & _); [discriminate | lia | exact (demo_open_fd 1) | reflexivity | unfold EIO; lia |].
  exists s', n. split; [exact E | exact H].
Defined.
