(* ===== verification/Process.v ===== *)
(** Processes: kern/proc/proc.c, and sys_fork, sys_getpid, sys_waitpid,
    sys__exit, sys_sbrk and the dispatcher of
    kern/arch/mips/syscall/syscall.c.

    Processes are objects; [proc_Array] maps process ids to them.  The two
    semaphores of a process are their counts: a P on 0 sleeps, and is
    [Fault Hang] here; the sleeper goes on from its P when somebody has done a
    V (file Synch shows that V wakes the waiter).  The calls that sleep are cut
    there: sys__exit is [exit_begin] and [exit_finish], sys_waitpid is
    [wait_begin] and [wait_finish], and any steps of other processes may come
    in between.  The part of a call up to its P or from it on is one step.  [p_children] is the part of the
    array in front of the first -1.  The memset that enters the -1s covers
    __PID_MAX bytes and so only the first [CLEARED] of the __PID_MAX entries;
    reading an entry behind them is a fault here. *)
From S2P Require Import Prelude Coremap Addrspace Copyinout Synch Files.

Definition PID_MAX := 32767.

(** The entries [memset(p_children, -1, __PID_MAX)] sets: 4 bytes each. *)
Definition CLEARED := PID_MAX / 4.

Record proc := mkProc {
  p_id : Z;
  p_exitcode : option Z;
  p_parent : Z;
  p_children : list Z;
  p_parsem : Z;
  p_childsem : Z;
  p_numthreads : Z;
  p_addrspace : option Z;
  p_cwd : option Z
}.

Record procs := mkProcs {
  proc_Array : gmap Z Z;
  objs : gmap Z proc;
  next_obj : Z;
  proc_Lock : bool
}.

Definition with_array (s : procs) (a : gmap Z Z) : procs := mkProcs a (objs s) (next_obj s) (proc_Lock s).
Definition with_objs (s : procs) (m : gmap Z proc) : procs := mkProcs (proc_Array s) m (next_obj s) (proc_Lock s).
Definition with_plock (s : procs) (b : bool) : procs := mkProcs (proc_Array s) (objs s) (next_obj s) b.

(** ** proc.c *)

(** A fresh process with no address space, [None] when memory runs out.  [id]
    is what memory holds at [p_id], which nobody assigns; the semaphores and
    the children are assigned by runprogram before they are used. *)
Definition proc_create (s : procs) (mem : bool) (id : Z) : procs * option Z :=
  if mem then
    let p := next_obj s in
    (mkProcs (proc_Array s) (<[p := mkProc id None 0 [] 0 0 0 None None]> (objs s)) (p + 1) (proc_Lock s), Some p)
  else (s, None).

Definition set_as_of (p : proc) (a : option Z) : proc :=
  mkProc (p_id p) (p_exitcode p) (p_parent p) (p_children p) (p_parsem p) (p_childsem p) (p_numthreads p) a (p_cwd p).
Definition set_cwd (p : proc) (c : option Z) : proc :=
  mkProc (p_id p) (p_exitcode p) (p_parent p) (p_children p) (p_parsem p) (p_childsem p) (p_numthreads p) (p_addrspace p) c.
Definition set_threads (p : proc) (n : Z) : proc :=
  mkProc (p_id p) (p_exitcode p) (p_parent p) (p_children p) (p_parsem p) (p_childsem p) n (p_addrspace p) (p_cwd p).
Definition set_parsem (p : proc) (n : Z) : proc :=
  mkProc (p_id p) (p_exitcode p) (p_parent p) (p_children p) n (p_childsem p) (p_numthreads p) (p_addrspace p) (p_cwd p).
Definition set_childsem (p : proc) (n : Z) : proc :=
  mkProc (p_id p) (p_exitcode p) (p_parent p) (p_children p) (p_parsem p) n (p_numthreads p) (p_addrspace p) (p_cwd p).
Definition set_exitcode (p : proc) (c : Z) : proc :=
  mkProc (p_id p) (Some c) (p_parent p) (p_children p) (p_parsem p) (p_childsem p) (p_numthreads p) (p_addrspace p) (p_cwd p).
Definition add_child (p : proc) (c : Z) : proc :=
  mkProc (p_id p) (p_exitcode p) (p_parent p) (p_children p ++ [c]) (p_parsem p) (p_childsem p) (p_numthreads p) (p_addrspace p) (p_cwd p).

Definition get_proc (s : procs) (o : Z) : res proc := access (objs s !! o).
Definition put_proc (s : procs) (o : Z) (p : proc) : procs := with_objs s (<[o := p]> (objs s)).

(** The new process shares the current directory of [cur]. *)
Definition proc_create_runprogram (s : procs) (cur : Z) (mem : bool) (id : Z) : res (procs * option Z) :=
  let (s, o) := proc_create s mem id in
  match o with
  | None => Ok (s, None)
  | Some o =>
    let* p := get_proc s o in
    let* c := get_proc s cur in
    Ok (put_proc s o (set_cwd (set_as_of p None) (p_cwd c)), Some o)
  end.

(** [t_proc] of the thread is the result. *)
Definition proc_addthread (s : procs) (o : Z) (t_proc : option Z) : res (procs * option Z) :=
  kassert (bool_decide (t_proc = None)) (
  let* p := get_proc s o in
  Ok (put_proc s o (set_threads p (u32 (p_numthreads p + 1))), Some o)).

Definition proc_remthread (s : procs) (t_proc : option Z) : res (procs * option Z) :=
  match t_proc with
  | None => Fault Assertion
  | Some o =>
    let* p := get_proc s o in
    kassert (0 <? p_numthreads p) (Ok (put_proc s o (set_threads p (p_numthreads p - 1)), None))
  end.

(** The old address space. *)
Definition proc_setas (s : procs) (curproc : option Z) (newas : option Z) : res (procs * option Z) :=
  match curproc with
  | None => Fault Assertion
  | Some o => let* p := get_proc s o in Ok (put_proc s o (set_as_of p newas), p_addrspace p)
  end.

(** proc_destroy of a process other than the kernel's: the address space goes
    away through the VM system, no thread may be left. *)
Definition proc_destroy (s : procs) (v : vm) (kproc : Z) (curproc : option Z) (o : Z) : res (procs * vm) :=
  kassert (negb (o =? kproc)) (
  let* p := get_proc s o in
  let s := put_proc s o (set_cwd p None) in
  let* (s, v) :=
    match p_addrspace p with
    | None => Ok (s, v)
    | Some a =>
      let* s := if bool_decide (curproc = Some o) then let* (s, _) := proc_setas s curproc None in Ok s
                else let* p := get_proc s o in Ok (put_proc s o (set_as_of p None)) in
      let* v := as_destroy v a in
      Ok (s, v)
    end in
  kassert (p_numthreads p =? 0) (Ok (with_objs s (delete o (objs s)), v))).

(** runprogram, as far as the process structure goes: the semaphores and the
    children of the process that is about to run. *)
Definition runprogram_sems (s : procs) (o : Z) : res procs :=
  let* p := get_proc s o in
  Ok (put_proc s o (mkProc (p_id p) (p_exitcode p) (p_parent p) [] 1 0 (p_numthreads p) (p_addrspace p) (p_cwd p))).

(** A program started from the menu: the process, its thread, and runprogram in
    that thread, which takes proc_Lock, sets the address space [a], makes the
    semaphores and releases the lock.  [None]: runprogram returns an error,
    with proc_Lock held; the thread ends and nothing points to the process any
    more.  The menu thread belongs to [kproc]; [id] is what memory holds at
    [p_id]. *)
Definition start_program (s : procs) (kproc id : Z) (a : option Z) : res (procs * option Z) :=
  let* (s, o) := proc_create_runprogram s kproc true id in
  let* o := access o in
  let* (s, t_proc) := proc_addthread s o None in
  if proc_Lock s then Fault Hang
  else
  match a with
  | None =>
    let* (s, _) := proc_remthread s t_proc in
    Ok (with_plock (with_objs s (delete o (objs s))) true, None)
  | Some a =>
    let* (s, _) := proc_setas s t_proc (Some a) in
    let* s := runprogram_sems s o in
    Ok (s, Some o)
  end.

(** ** sys_fork *)

(** [for(i = 1; i < __PID_MAX; i++) if(proc_Array[i] == NULL) break;] *)
Fixpoint first_pid (k : nat) (a : gmap Z Z) (i : Z) : Z :=
  match k with
  | O => i
  | S k =>
    match a !! i with
    | None => i
    | Some _ => first_pid k a (i + 1)
    end
  end.

Definition find_pid (a : gmap Z Z) : Z := first_pid (Z.to_nat (PID_MAX - 1)) a 1.

(** The process part of sys_fork, on the current process [cur] and the address
    space as_copy made: the error code and [*retval].  The early return leaves
    proc_Lock held.  The calls of kmalloc and sem_create are not checked; they
    succeed here. *)
Definition fork_proc (s : procs) (cur : Z) (newas : option Z) : res (procs * (Z * Z)) :=
  if proc_Lock s then Fault Hang
  else
  let s := with_plock s true in
  let* c := get_proc s cur in
  let i := find_pid (proc_Array s) in
  if i =? PID_MAX then Ok (s, (ENPROC, 0))
  else
  let o := next_obj s in
  let new := mkProc i None (p_id c) [] 0 0 1 newas (p_cwd c) in
  let s := mkProcs (<[i := o]> (proc_Array s)) (<[o := new]> (objs s)) (o + 1) (proc_Lock s) in
  if CLEARED <=? zlen (p_children c) then Fault BadAccess
  else
  let s := put_proc s cur (add_child c i) in
  let s := with_plock s false in
  let* (s, _) := proc_addthread s o None in
  Ok (s, (0, i)).

(** The whole call; the result of as_copy is not looked at. *)
Definition sys_fork (s : procs) (v : vm) (cur : Z) : res (procs * vm * (Z * Z)) :=
  if proc_Lock s then Fault Hang
  else
  let* c := get_proc s cur in
  let* old := access (p_addrspace c) in
  let* (v, _, newas) := as_copy v old in
  let* (s, r) := fork_proc s cur newas in
  Ok (s, v, r).

Definition sys_getpid (s : procs) (cur : Z) : res (Z * Z) :=
  let* c := get_proc s cur in Ok (0, p_id c).

(** Up to the P: the process whose [p_childsem] to wait for, [None] when the
    table has none under [pid]. *)
Definition wait_begin (s : procs) (pid : Z) : res (option Z) :=
  if negb ((0 <=? pid) && (pid <? PID_MAX)) then Fault BadAccess
  else Ok (proc_Array s !! pid).

(** From the P on the semaphore of [o] on; the table is looked up again for the
    exit code.  The error code, [*returncode] and [*retval]. *)
Definition wait_finish (s : procs) (pid o : Z) : res (procs * (Z * option Z * Z)) :=
  let* p := get_proc s o in
  if p_childsem p =? 0 then Fault Hang
  else
  let s := put_proc s o (set_childsem p (p_childsem p - 1)) in
  let* o := access (proc_Array s !! pid) in
  let* p := get_proc s o in
  Ok (s, (0, p_exitcode p, pid)).

(** The call when it need not sleep. *)
Definition sys_waitpid (s : procs) (pid : Z) : res (procs * (Z * option Z * Z)) :=
  let* w := wait_begin s pid in
  match w with
  | None => Ok (s, (-1, None, 0))
  | Some o => wait_finish s pid o
  end.

(** ** sys__exit *)

(** Up to the P: the exit code is there and whoever waits may go on. *)
Definition exit_begin (s : procs) (cur code : Z) : res procs :=
  let* c := get_proc s cur in
  Ok (put_proc s cur (set_childsem (set_exitcode c code) (p_childsem c + 1))).

(** [for(i = 0; p_children[i] != -1; i++) V(proc_Array[p_children[i]]->p_parsem);] *)
Fixpoint release_children (s : procs) (cs : list Z) : res procs :=
  match cs with
  | [] => Ok s
  | c :: cs =>
    let* o := access (proc_Array s !! c) in
    let* p := get_proc s o in
    release_children (put_proc s o (set_parsem p (p_parsem p + 1))) cs
  end.

(** From the P on: only when the parent has exited.  Nothing points to the
    structure afterwards. *)
Definition exit_finish (s : procs) (cur : Z) : res procs :=
  let* c := get_proc s cur in
  if p_parsem c =? 0 then Fault Hang
  else
  let s := put_proc s cur (set_parsem c (p_parsem c - 1)) in
  if negb ((0 <=? p_id c) && (p_id c <? PID_MAX)) then Fault BadAccess
  else
  let s := with_array s (delete (p_id c) (proc_Array s)) in
  let* s := release_children s (p_children c) in
  if CLEARED <=? zlen (p_children c) then Fault BadAccess
  else
  let* (s, _) := proc_remthread s (Some cur) in
  Ok (with_objs s (delete cur (objs s))).

Definition sys__exit (s : procs) (v : vm) (cur code : Z) : res (procs * vm) :=
  let* s := exit_begin s cur code in
  let* c := get_proc s cur in
  let* s := exit_finish s cur in
  let* a := access (p_addrspace c) in
  let* v := as_destroy v a in
  Ok (s, v).

(** ** sys_sbrk

    On the heap fields of the address space: the error code, [*retval] and the
    new end of the heap.  [%] is C's remainder, with the sign of [inc]. *)
Definition sbrk_fields (heapstart heapend stackpbase inc : Z) : Z * Z * Z :=
  let inc := s32 (inc + (4 - Z.rem inc 4)) in
  if stackpbase <? u32 (heapend + inc) then (ENOMEM, -1, heapend)
  else if u32 (heapend + inc) <? heapstart then (EINVAL, -1, heapend)
  else (0, s32 heapend, u32 (heapend + inc)).

(** Reading a heap field that nobody has assigned is a fault. *)
Definition sys_sbrk (v : vm) (a inc : Z) : res (vm * (Z * Z)) :=
  let* sp := get_as v a in
  let* heapstart := access (as_heapstart sp) in
  let* heapend := access (as_heapend sp) in
  let '(err, retval, heapend) := sbrk_fields heapstart heapend (as_stackpbase sp) inc in
  Ok (set_as v a (mkAs (as_vbase1 sp) (as_pbase1 sp) (as_npages1 sp) (as_vbase2 sp) (as_pbase2 sp)
        (as_npages2 sp) (as_heapstart sp) (Some heapend) (as_stackpbase sp) (ptable sp)), (err, retval)).

(** ** The life of processes *)

Definition running (s : procs) (o : Z) : Prop := exists p, objs s !! o = Some p /\ p_exitcode p = None.
Definition exiting (s : procs) (o : Z) : Prop := exists p, objs s !! o = Some p /\ p_exitcode p <> None.

(** A step of some process: a fork, whether it succeeds or not; an exit up to
    its P, and from it on; a waitpid from its P on, of any caller and on any
    semaphore (up to it nothing changes); the start of a program, whether it
    comes to run or not.  The structure of the program has 0 in [p_id] from
    the memory it was made of; [unassigned_id_breaks] below is about the
    others. *)
Inductive proc_step (s s' : procs) : Prop :=
| StepFork cur newas r : running s cur -> fork_proc s cur newas = Ok (s', r) -> proc_step s s'
| StepExit cur code : running s cur -> exit_begin s cur code = Ok s' -> proc_step s s'
| StepGone cur : exiting s cur -> exit_finish s cur = Ok s' -> proc_step s s'
| StepWait pid o r : wait_finish s pid o = Ok (s', r) -> proc_step s s'
| StepRun kproc a r : start_program s kproc 0 a = Ok (s', r) -> proc_step s s'.

(** After proc_bootstrap: the kernel's own process, object 0. *)
Definition boot_procs : procs := mkProcs ∅ {[0 := mkProc 0 None 0 [] 0 0 1 None None]} 1 false.

(** A process that a program start made has id 0; every other one is in
    proc_Array under its id. *)
Record procs_inv (s : procs) : Prop := {
  pi_next : forall o p, objs s !! o = Some p -> o < next_obj s;
  pi_array : forall i o, proc_Array s !! i = Some o -> 1 <= i < PID_MAX /\ exists p, objs s !! o = Some p /\ p_id p = i;
  pi_listed : forall o p, objs s !! o = Some p -> p_id p <> 0 -> proc_Array s !! p_id p = Some o;
  pi_children : forall o p c, objs s !! o = Some p -> c ∈ p_children p ->
    exists oc pc, proc_Array s !! c = Some oc /\ objs s !! oc = Some pc /\ p_parsem pc = 0;
  pi_family : forall o o' p p' i j c, objs s !! o = Some p -> objs s !! o' = Some p' ->
    p_children p !! i = Some c -> p_children p' !! j = Some c -> o = o' /\ i = j;
  pi_fit : forall o p, objs s !! o = Some p -> zlen (p_children p) <= CLEARED;
  pi_code : forall o p, objs s !! o = Some p -> 0 < p_childsem p -> p_exitcode p <> None;
  pi_counts : forall o p, objs s !! o = Some p -> 0 < p_numthreads p <= 2 /\ 0 <= p_parsem p /\ 0 <= p_childsem p
}.

Lemma first_pid_spec k a i :
  i <= first_pid k a i <= i + Z.of_nat k /\
  (first_pid k a i < i + Z.of_nat k -> a !! first_pid k a i = None) /\
  (forall j, i <= j < first_pid k a i -> is_Some (a !! j)).
Proof.
  revert i. induction k as [ | k IH]; intros i; cbn [first_pid]; [split; [lia | split; lia] |].
  destruct (a !! i) as [o | ] eqn:E; [ | split; [lia | split; [done | lia]]].
  destruct (IH (i + 1)) as (H1 & H2 & H3). split; [lia |]. split; [intros Hlt; apply H2; lia |].
  intros j Hj. destruct (Z.eq_dec j i) as [-> | ]; [by eexists | apply H3; lia].
Qed.

(** The lowest free id, or PID_MAX when all are taken. *)
Lemma find_pid_spec a :
  1 <= find_pid a <= PID_MAX /\ (find_pid a < PID_MAX -> a !! find_pid a = None) /\
  (forall j, 1 <= j < find_pid a -> is_Some (a !! j)).
Proof.
  destruct (first_pid_spec (Z.to_nat (PID_MAX - 1)) a 1) as (H1 & H2 & H3). unfold find_pid, PID_MAX in *.
  split; [lia |]. split; [intros; apply H2; lia | done].
Qed.

(** Changes to one object that leave its id and children alone. *)
Lemma procs_inv_update s o p p' :
  procs_inv s -> objs s !! o = Some p -> p_id p' = p_id p -> p_children p' = p_children p ->
  (p_parsem p = 0 -> p_parsem p' = 0) ->
  (0 < p_childsem p' -> p_exitcode p' <> None) -> 0 < p_numthreads p' <= 2 -> 0 <= p_parsem p' -> 0 <= p_childsem p' ->
  procs_inv (put_proc s o p').
Proof.
  intros [N A Li C Fa Fi Cd Co] Ho Hid Hch Hps Hcd H1 H2 H3.
  assert (Hget : forall q x, objs (put_proc s o p') !! q = Some x ->
    (q = o /\ x = p') \/ (q <> o /\ objs s !! q = Some x)).
  { intros q x. cbn. intros [[<- <-] | [? ?]]%lookup_insert_Some; auto. }
  assert (Hold : forall q x, objs (put_proc s o p') !! q = Some x ->
    exists y, objs s !! q = Some y /\ p_id x = p_id y /\ p_children x = p_children y).
  { intros q x [[-> ->] | [_ Hx]]%Hget; [exists p; auto | exists x; auto]. }
  split; cbn [put_proc with_objs proc_Array proc_Lock next_obj].
  - intros q x (y & Hy & _)%Hold. by eapply N.
  - intros i q Hi. destruct (A i q Hi) as (Hr & y & Hy & Hyi). split; [done |].
    destruct (decide (q = o)) as [-> | ].
    + exists p'. cbn. rewrite lookup_insert_eq. split; [done |]. congruence.
    + exists y. cbn. by rewrite lookup_insert_ne by done.
  - intros q x (y & Hy & -> & _)%Hold. by apply Li.
  - intros q x c (y & Hy & _ & ->)%Hold Hc. destruct (C q y c Hy Hc) as (oc & pc & H4 & H5 & H6).
    destruct (decide (oc = o)) as [-> | ].
    + exists o, p'. cbn. rewrite lookup_insert_eq. split; [done |]. split; [done |]. apply Hps. congruence.
    + exists oc, pc. cbn. by rewrite lookup_insert_ne by done.
  - intros q q' x x' i j c (y & Hy & _ & ->)%Hold (y' & Hy' & _ & ->)%Hold. by eapply Fa.
  - intros q x (y & Hy & _ & ->)%Hold. by eapply Fi.
  - intros q x [[-> ->] | [_ Hx]]%Hget; [done | by eapply Cd].
  - intros q x [[-> ->] | [_ Hx]]%Hget; [done | by eapply Co].
Qed.

Lemma exit_begin_inv s cur code s' : procs_inv s -> exit_begin s cur code = Ok s' -> procs_inv s'.
Proof.
  intros Inv H. unfold exit_begin, get_proc in H. apply rbind_Ok in H as (c & Hc%access_Ok & [= <-]).
  destruct (pi_counts _ Inv _ _ Hc) as (? & ? & ?).
  eapply procs_inv_update; cbn; eauto; lia.
Qed.

Lemma wait_finish_Ok s pid o s' r :
  wait_finish s pid o = Ok (s', r) ->
  exists p, objs s !! o = Some p /\ p_childsem p <> 0 /\ s' = put_proc s o (set_childsem p (p_childsem p - 1)).
Proof.
  unfold wait_finish, get_proc. intros (p & Hp%access_Ok & H)%rbind_Ok. exists p. split; [done |].
  destruct (Z.eqb_spec (p_childsem p) 0); [done |]. split; [done |].
  apply rbind_Ok in H as (o' & _ & H). apply rbind_Ok in H as (p' & _ & H). by injection H as <- _.
Qed.

Lemma wait_finish_inv s pid o s' r : procs_inv s -> wait_finish s pid o = Ok (s', r) -> procs_inv s'.
Proof.
  intros Inv (p & Hp & Hnz & ->)%wait_finish_Ok. destruct (pi_counts _ Inv _ _ Hp) as (? & ? & ?).
  eapply procs_inv_update; cbn; eauto; try lia. intros _. eapply (pi_code _ Inv); [done | lia].
Qed.

Lemma procs_inv_lock s b : procs_inv s -> procs_inv (with_plock s b).
Proof. intros [N A Li C Fa Fi Cd Co]. by split. Qed.

(** The state a successful fork leaves. *)
Definition child_of (c : proc) (i : Z) (newas : option Z) : proc :=
  mkProc i None (p_id c) [] 0 0 2 newas (p_cwd c).

Definition forked (s : procs) (cur : Z) (c : proc) (newas : option Z) (i : Z) : procs :=
  mkProcs (<[i := next_obj s]> (proc_Array s))
    (<[next_obj s := child_of c i newas]> (<[cur := add_child c i]> (objs s))) (next_obj s + 1) false.

Lemma fork_proc_eq s cur newas s' i :
  procs_inv s -> fork_proc s cur newas = Ok (s', (0, i)) ->
  exists c, objs s !! cur = Some c /\ i = find_pid (proc_Array s) /\ i < PID_MAX /\
    zlen (p_children c) < CLEARED /\ s' = forked s cur c newas i.
Proof.
  intros Inv H. unfold fork_proc in H. destruct (proc_Lock s) eqn:HL; [done |]. cbn in H.
  apply rbind_Ok in H as (c & Hc%access_Ok & H). exists c. split; [exact Hc |].
  destruct (find_pid_spec (proc_Array s)) as (Hr & _). destruct (Z.eqb_spec (find_pid (proc_Array s)) PID_MAX); [done |].
  destruct (Z.leb_spec CLEARED (zlen (p_children c))); [done |].
  unfold proc_addthread in H. cbn in H. unfold get_proc in H. cbn in H.
  pose proof (pi_next _ Inv _ _ Hc) as Hn.
  rewrite lookup_insert_ne, lookup_insert_eq in H by lia. cbn in H. res_inv.
  split; [done |]. split; [lia |]. split; [done |]. unfold forked, put_proc, with_objs, with_plock. cbn. f_equal.
  rewrite insert_insert_ne, insert_insert_eq by lia.
  rewrite (insert_insert_ne _ cur) by lia. done.
Qed.

Section Forked.
Context (s : procs) (cur : Z) (c : proc) (newas : option Z) (i : Z).
Context (Inv : procs_inv s) (Hc : objs s !! cur = Some c).
Context (Hi : 1 <= i < PID_MAX) (Hfit : zlen (p_children c) < CLEARED) (Hnone : proc_Array s !! i = None).
Let s' := forked s cur c newas i.

Lemma forked_fresh : objs s !! next_obj s = None.
Proof. destruct (objs s !! next_obj s) eqn:E; [ | done]. apply (pi_next _ Inv) in E. lia. Qed.

Lemma forked_get q x :
  objs s' !! q = Some x ->
  (q = next_obj s /\ x = child_of c i newas) \/ (q = cur /\ x = add_child c i) \/
  (q <> next_obj s /\ q <> cur /\ objs s !! q = Some x).
Proof.
  unfold s', forked. cbn [objs].
  intros [[<- <-] | [? [[<- <-] | [? ?]]%lookup_insert_Some]]%lookup_insert_Some; auto 7.
Qed.

Lemma forked_keep q y :
  objs s !! q = Some y -> exists x, objs s' !! q = Some x /\ p_id x = p_id y /\ p_parsem x = p_parsem y.
Proof.
  intros Hy. unfold s', forked. cbn. pose proof forked_fresh. rewrite lookup_insert_ne by congruence.
  destruct (decide (q = cur)) as [-> | ].
  - rewrite lookup_insert_eq. exists (add_child c i). assert (y = c) as -> by congruence. done.
  - rewrite lookup_insert_ne by done. by exists y.
Qed.

(** A free id is nobody's child. *)
Lemma forked_nokid q x : objs s !! q = Some x -> i ∉ p_children x.
Proof. intros Hx Hin. destruct (pi_children _ Inv q x i Hx Hin) as (oc & pc & E & _). congruence. Qed.

(** Children after the fork: the new one of [cur], or an old one. *)
Lemma forked_children q x a k :
  objs s' !! q = Some x -> p_children x !! a = Some k ->
  (k = i /\ q = cur /\ a = length (p_children c)) \/
  (k <> i /\ exists z, objs s !! q = Some z /\ p_children z !! a = Some k).
Proof.
  intros Hy He. destruct (forked_get q x Hy) as [[-> ->] | [[-> ->] | (_ & _ & Hy')]].
  - done.
  - cbn in He. apply lookup_app_Some in He as [He | [He1 He2]].
    + right. split; [intros ->; apply (forked_nokid _ _ Hc); by eapply list_elem_of_lookup_2 | eauto].
    + apply list_lookup_singleton_Some in He2 as [He2 <-]. left. split; [done |]. split; [done | lia].
  - right. split; [intros ->; apply (forked_nokid _ _ Hy'); by eapply list_elem_of_lookup_2 | eauto].
Qed.

Lemma forked_array j q :
  proc_Array s' !! j = Some q -> 1 <= j < PID_MAX /\ exists p, objs s' !! q = Some p /\ p_id p = j.
Proof.
  unfold s' at 1, forked. cbn [proc_Array]. intros [[<- <-] | [Hne Hj]]%lookup_insert_Some.
  - split; [lia |]. eexists. unfold s', forked. cbn. rewrite lookup_insert_eq. done.
  - destruct (pi_array _ Inv j q Hj) as (Hjr & y & Hy & Hyj). split; [done |].
    destruct (forked_keep q y Hy) as (x & Hx & Hxi & _). exists x. split; [done | congruence].
Qed.

Lemma forked_listed q x : objs s' !! q = Some x -> p_id x <> 0 -> proc_Array s' !! p_id x = Some q.
Proof.
  intros Hx Hid. unfold s', forked. cbn.
  assert (Hold : forall y, objs s !! q = Some y -> p_id y = p_id x -> <[i := next_obj s]> (proc_Array s) !! p_id x = Some q).
  { intros y Hy Hyx. rewrite <- Hyx in *. pose proof (pi_listed _ Inv _ _ Hy Hid) as E.
    rewrite lookup_insert_ne; [done |]. intros ->. congruence. }
  destruct (forked_get q x Hx) as [[-> ->] | [[-> ->] | (_ & _ & Hx')]].
  - cbn. apply lookup_insert_eq.
  - by apply (Hold c).
  - by apply (Hold x).
Qed.

Lemma forked_inv : procs_inv s'.
Proof.
  split.
  - intros q x [[-> _] | [[-> _] | (_ & _ & Hx)]]%forked_get; cbn; [lia | |].
    + apply (pi_next _ Inv) in Hc. lia.
    + apply (pi_next _ Inv) in Hx. lia.
  - exact forked_array.
  - exact forked_listed.
  - intros q x k Hx [a Ha]%list_elem_of_lookup_1. unfold s', forked. cbn.
    destruct (forked_children q x a k Hx Ha) as [(-> & _) | (Hk & z & Hz & Hza)].
    + exists (next_obj s), (child_of c i newas). by rewrite !lookup_insert_eq.
    + destruct (pi_children _ Inv q z k Hz) as (oc & pc & H1 & H2 & H3); [by eapply list_elem_of_lookup_2 |].
      destruct (forked_keep oc pc H2) as (pc' & H4 & _ & H5). exists oc, pc'.
      rewrite lookup_insert_ne by congruence. split; [done |]. split; [exact H4 | congruence].
  - intros q q' x x' a b l Hx Hx' Ha Hb. pose proof (forked_children q x a l Hx Ha) as D.
    pose proof (forked_children q' x' b l Hx' Hb) as D'.
    destruct D as [(Hl & -> & ->) | (Hl & z & Hz & Hza)], D' as [(Hl' & -> & ->) | (Hl' & z' & Hz' & Hzb)]; try done.
    by eapply (pi_family _ Inv).
  - intros q x [[-> ->] | [[-> ->] | (_ & _ & Hx)]]%forked_get; [done | | by eapply (pi_fit _ Inv)].
    unfold zlen in *. cbn. rewrite length_app. cbn. lia.
  - intros q x [[-> ->] | [[-> ->] | (_ & _ & Hx)]]%forked_get; [cbn; lia | | by eapply (pi_code _ Inv)].
    cbn. by eapply (pi_code _ Inv).
  - intros q x [[-> ->] | [[-> ->] | (_ & _ & Hx)]]%forked_get; [cbn; lia | | by eapply (pi_counts _ Inv)].
    cbn. by eapply (pi_counts _ Inv).
Qed.
End Forked.

(** Every other result of fork: ENPROC, with proc_Lock held. *)
Lemma fork_proc_Ok s cur newas s' r :
  fork_proc s cur newas = Ok (s', r) -> (exists i, r = (0, i)) \/ s' = with_plock s true.
Proof.
  unfold fork_proc. destruct (proc_Lock s); [done |]. intros (c & _ & H)%rbind_Ok.
  case_match; [injection H as <- _; by right |]. case_match; [done |].
  apply rbind_Ok in H as ([s1 t1] & _ & H). injection H as _ <-. left. by eexists.
Qed.

Lemma fork_proc_inv s cur newas s' r :
  procs_inv s -> fork_proc s cur newas = Ok (s', r) -> procs_inv s'.
Proof.
  intros Inv H. destruct (fork_proc_Ok s cur newas s' r H) as [[i ->] | ->]; [ | by apply procs_inv_lock].
  destruct (fork_proc_eq s cur newas s' i Inv H) as (c & Hc & Hi & Hlt & Hfit & ->).
  destruct (find_pid_spec (proc_Array s)) as (Hr & Hnone & _). rewrite <- Hi in *.
  apply forked_inv; [done | done | lia | done | by apply Hnone].
Qed.

(** ** Exiting *)

Definition wake_kid (cs : list Z) (p : proc) : proc :=
  if decide (p_id p ∈ cs) then set_parsem p (p_parsem p + 1) else p.

Lemma release_children_spec s cs :
  NoDup cs ->
  (forall c, c ∈ cs -> exists o p, proc_Array s !! c = Some o /\ objs s !! o = Some p /\ p_id p = c) ->
  (forall o p, objs s !! o = Some p -> p_id p ∈ cs -> proc_Array s !! p_id p = Some o) ->
  exists m, release_children s cs = Ok (with_objs s m) /\ forall o, m !! o = wake_kid cs <$> objs s !! o.
Proof.
  revert s. induction cs as [ | c cs IH]; intros s Hnd Hex Huniq.
  { exists (objs s). split; [by destruct s |]. intros o. unfold wake_kid. destruct (objs s !! o); cbn; [ | done].
    by rewrite decide_False by set_solver. }
  apply NoDup_cons in Hnd as [Hc Hnd]. destruct (Hex c) as (o & p & Ha & Ho & Hid); [set_solver |].
  cbn [release_children]. unfold get_proc. rewrite Ha. cbn [access rbind]. rewrite Ho. cbn [access rbind].
  set (p1 := set_parsem p (p_parsem p + 1)).
  destruct (IH (put_proc s o p1)) as (m & E & Hm); [done | | | ].
  - intros k Hk. destruct (Hex k) as (ok & pk & H1 & H2 & H3); [set_solver |]. cbn.
    destruct (decide (ok = o)) as [-> | ].
    + assert (k = c) by congruence. subst. set_solver.
    + exists ok, pk. by rewrite lookup_insert_ne by done.
  - intros q x. cbn. intros [[<- <-] | [? Hx]]%lookup_insert_Some Hin.
    + exfalso. cbn in Hin. rewrite Hid in Hin. done.
    + apply Huniq; [done | set_solver].
  - exists m. split; [exact E |]. intros q. rewrite Hm. cbn. destruct (decide (q = o)) as [-> | Hne].
    + rewrite lookup_insert_eq, Ho. cbn. f_equal. unfold wake_kid, p1. cbn.
      rewrite decide_False, decide_True; [done | set_solver | by rewrite Hid].
    + rewrite lookup_insert_ne by done. destruct (objs s !! q) as [x | ] eqn:Ex; cbn; [ | done].
      f_equal. unfold wake_kid. assert (p_id x <> c) as Hxc.
      { intros Heq. apply Hne. assert (proc_Array s !! p_id x = Some q) by (apply Huniq; [done | set_solver]).
        rewrite Heq in *. congruence. }
      case_decide as H1; case_decide as H2; try done; set_solver.
Qed.

(** What the departure of a process whose parent is gone leaves: all others,
    with its children free to go. *)
Lemma exit_finish_spec s cur c :
  procs_inv s -> objs s !! cur = Some c -> p_parsem c <> 0 -> zlen (p_children c) < CLEARED ->
  exists m, exit_finish s cur = Ok (mkProcs (delete (p_id c) (proc_Array s)) m (next_obj s) (proc_Lock s)) /\
    (forall o, m !! o = if decide (o = cur) then None else wake_kid (p_children c) <$> objs s !! o).
Proof.
  intros Inv Hc Hps Hfit. pose proof Inv as [N A Li C Fa Fi Cd Co]. unfold exit_finish, get_proc. rewrite Hc. cbn [access rbind].
  rewrite (proj2 (Z.eqb_neq _ _)) by done.
  assert (negb ((0 <=? p_id c) && (p_id c <? PID_MAX)) = false) as ->.
  { apply negb_false_iff, andb_true_iff. rewrite Z.leb_le, Z.ltb_lt. unfold PID_MAX.
    destruct (Z.eq_dec (p_id c) 0) as [-> | Hid]; [lia |]. destruct (A _ _ (Li _ _ Hc Hid)) as [? _]. unfold PID_MAX in *. lia. }
  set (s1 := with_array _ _).
  assert (Hkid : forall k, k ∈ p_children c -> k <> p_id c /\ exists o p, proc_Array s !! k = Some o /\
    objs s !! o = Some p /\ p_id p = k /\ o <> cur).
  { intros k Hk. destruct (C cur c k Hc Hk) as (o & p & H1 & H2 & H3). destruct (A k o H1) as (Hk0 & p' & H4 & H5).
    assert (p' = p) as -> by congruence. assert (o <> cur) as Hne by (intros ->; congruence).
    split; [ | by exists o, p]. intros Heq. rewrite Heq in H1. rewrite (Li cur c Hc) in H1 by lia. congruence. }
  destruct (release_children_spec s1 (p_children c)) as (m & -> & Hm).
  - apply NoDup_alt. intros i j x Hi Hj. apply (Fa cur cur c c i j x Hc Hc Hi Hj).
  - intros k Hk. destruct (Hkid k Hk) as (Hne & o & p & H1 & H2 & H3 & H4). exists o, p. unfold s1. cbn.
    rewrite lookup_delete_ne, lookup_insert_ne by done. done.
  - intros o p Ho Hin. destruct (Hkid _ Hin) as (Hne & ok & pk & H1 & H2 & H3 & H4). unfold s1 in *. cbn in *.
    rewrite lookup_delete_ne by done. apply lookup_insert_Some in Ho as [[<- <-] | [Hoc Ho]]; [done |].
    apply Li; [done |]. destruct (A _ _ H1). lia.
  - cbn [rbind]. rewrite (proj2 (Z.leb_gt _ _)) by done. unfold proc_remthread, get_proc. cbn. rewrite Hm. unfold s1. cbn. rewrite lookup_insert_eq. cbn.
    assert (Hw : wake_kid (p_children c) (set_parsem c (p_parsem c - 1)) = set_parsem c (p_parsem c - 1)).
    { unfold wake_kid. rewrite decide_False; [done |]. cbn. intros Hin. by destruct (Hkid _ Hin). }
    rewrite Hw. cbn. destruct (Co _ _ Hc) as ([Ht _] & _). rewrite (proj2 (Z.ltb_lt _ _)) by done. cbn.
    eexists. split; [reflexivity |]. intros o. case_decide as E.
    + subst o. apply lookup_delete_eq.
    + rewrite lookup_delete_ne, lookup_insert_ne, Hm by done. unfold s1. cbn. by rewrite lookup_insert_ne by done.
Qed.

Lemma wake_kid_same cs p :
  p_id (wake_kid cs p) = p_id p /\ p_children (wake_kid cs p) = p_children p /\
  p_numthreads (wake_kid cs p) = p_numthreads p /\ p_childsem (wake_kid cs p) = p_childsem p /\
  p_exitcode (wake_kid cs p) = p_exitcode p /\ p_parsem p <= p_parsem (wake_kid cs p).
Proof. unfold wake_kid. case_decide; cbn; intuition lia. Qed.

(** A process that is not yet free to go is no id of a process that is. *)
Lemma child_not_gone s o p k cur c :
  procs_inv s -> objs s !! o = Some p -> k ∈ p_children p -> objs s !! cur = Some c -> p_parsem c <> 0 -> k <> p_id c.
Proof.
  intros [N A Li C Fa Fi Cd Co] Ho Hk Hc Hps ->. destruct (C o p _ Ho Hk) as (oc & pc & H1 & H2 & H3).
  destruct (A _ _ H1) as (Hr & _). rewrite (Li cur c Hc) in H1 by lia. congruence.
Qed.

Lemma exit_finish_Ok s cur s' :
  exit_finish s cur = Ok s' -> exists c, objs s !! cur = Some c /\ p_parsem c <> 0 /\ zlen (p_children c) < CLEARED.
Proof.
  unfold exit_finish, get_proc. intros (c & Hc%access_Ok & H)%rbind_Ok. exists c. split; [done |].
  destruct (Z.eqb_spec (p_parsem c) 0); [done |]. split; [done |]. case_match; [done |].
  apply rbind_Ok in H as (s1 & _ & H). destruct (Z.leb_spec CLEARED (zlen (p_children c))); [done | lia].
Qed.

Lemma exit_finish_inv s cur s' : procs_inv s -> exit_finish s cur = Ok s' -> procs_inv s'.
Proof.
  intros Inv H. destruct (exit_finish_Ok _ _ _ H) as (c & Hc & Hps & Hfit).
  destruct (exit_finish_spec s cur c Inv Hc Hps Hfit) as (m & E & Hm). rewrite E in H. injection H as <-.
  pose proof Inv as [N A Li C Fa Fi Cd Co].
  assert (Hget : forall o x, m !! o = Some x -> o <> cur /\ exists y, objs s !! o = Some y /\ x = wake_kid (p_children c) y).
  { intros o x. rewrite Hm. case_decide; [done |]. intros (y & -> & Hy)%fmap_Some. eauto. }
  assert (Hput : forall o y, o <> cur -> objs s !! o = Some y -> m !! o = Some (wake_kid (p_children c) y)).
  { intros o y Ho Hy. by rewrite Hm, decide_False, Hy by done. }
  split; cbn.
  - intros o x (_ & y & Hy & _)%Hget. by eapply N.
  - intros i o [Hi Ha]%lookup_delete_Some. destruct (A i o Ha) as (Hr & y & Hy & Hyi). split; [done |].
    exists (wake_kid (p_children c) y). split; [apply Hput; [congruence | done] |].
    by rewrite (proj1 (wake_kid_same _ y)).
  - intros o x (Ho & y & Hy & ->)%Hget. destruct (wake_kid_same (p_children c) y) as (-> & _). intros Hid.
    rewrite lookup_delete_ne; [by apply Li |]. intros Heq. pose proof (Li _ _ Hy Hid) as H1.
    rewrite <- Heq, (Li _ _ Hc) in H1 by congruence. congruence.
  - intros o x k (Ho & y & Hy & ->)%Hget. destruct (wake_kid_same (p_children c) y) as (_ & -> & _). intros Hk.
    pose proof (child_not_gone s o y k cur c Inv Hy Hk Hc Hps) as Hne.
    destruct (C o y k Hy Hk) as (oc & pc & H1 & H2 & H3). exists oc, pc. rewrite lookup_delete_ne by done.
    split; [done |]. split; [ | done]. rewrite (Hput oc pc); [ | congruence | done]. f_equal.
    unfold wake_kid. rewrite decide_False; [done |]. destruct (A _ _ H1) as (_ & pc' & H4 & H5).
    assert (pc' = pc) as -> by congruence. rewrite H5. intros [j Hj]%list_elem_of_lookup_1.
    apply list_elem_of_lookup_1 in Hk as [i Hi]. apply Ho. by eapply Fa.
  - intros o o' x x' i j k (Ho & y & Hy & ->)%Hget (Ho' & y' & Hy' & ->)%Hget.
    destruct (wake_kid_same (p_children c) y) as (_ & -> & _), (wake_kid_same (p_children c) y') as (_ & -> & _).
    by eapply Fa.
  - intros o x (Ho & y & Hy & ->)%Hget. destruct (wake_kid_same (p_children c) y) as (_ & -> & _). by eapply Fi.
  - intros o x (Ho & y & Hy & ->)%Hget. destruct (wake_kid_same (p_children c) y) as (_ & _ & _ & -> & -> & _). by eapply Cd.
  - intros o x (Ho & y & Hy & ->)%Hget. destruct (wake_kid_same (p_children c) y) as (_ & _ & -> & -> & _ & Hle).
    destruct (Co _ _ Hy) as (? & ? & ?). split; [done |]. split; [lia | done].
Qed.

(** ** Starting *)

Lemma start_program_eq s kproc a s' r :
  start_program s kproc 0 a = Ok (s', r) ->
  let o := next_obj s in
  (exists b k, s' = mkProcs (proc_Array s) (<[o := mkProc 0 None 0 [] 1 0 1 (Some b) k]> (objs s)) (o + 1) (proc_Lock s)) \/
  s' = mkProcs (proc_Array s) (delete o (objs s)) (o + 1) true.
Proof.
  unfold start_program, proc_create_runprogram, proc_create, get_proc. cbn. rewrite lookup_insert_eq. cbn.
  intros H. apply rbind_Ok in H as ([s1 o1] & H1 & H). apply rbind_Ok in H1 as (c & _ & [= <- <-]).
  cbn in H. unfold proc_addthread, proc_setas, proc_remthread, runprogram_sems, get_proc, put_proc in H.
  cbn in H. rewrite lookup_insert_eq in H. cbn in H. destruct (proc_Lock s) eqn:HL; [done |].
  destruct a as [b | ]; repeat (cbn in H; rewrite lookup_insert_eq in H); cbn in H; injection H as <- _; [left | right].
  - exists b, (p_cwd c). unfold with_objs. cbn. f_equal. by rewrite !insert_insert_eq.
  - unfold with_plock, with_objs. cbn. f_equal. by rewrite !delete_insert_eq.
Qed.

Lemma start_program_inv s kproc a s' r : procs_inv s -> start_program s kproc 0 a = Ok (s', r) -> procs_inv s'.
Proof.
  intros Inv H. pose proof Inv as [N A Li C Fa Fi Cd Co].
  assert (Hfresh : objs s !! next_obj s = None).
  { destruct (objs s !! next_obj s) eqn:E; [ | done]. apply N in E. lia. }
  destruct (start_program_eq _ _ _ _ _ H) as [(b & k & ->) | ->].
  2: { rewrite delete_id by done. split; cbn; try done. intros o p Ho. apply N in Ho. lia. }
  set (new := mkProc 0 None 0 [] 1 0 1 (Some b) k).
  assert (Hget : forall q x, <[next_obj s := new]> (objs s) !! q = Some x -> (q = next_obj s /\ x = new) \/ objs s !! q = Some x).
  { intros q x [[<- <-] | [_ ?]]%lookup_insert_Some; auto. }
  assert (Hold : forall q x, objs s !! q = Some x -> <[next_obj s := new]> (objs s) !! q = Some x).
  { intros q x Hx. rewrite lookup_insert_ne; [done |]. congruence. }
  split; cbn.
  - intros q x [[-> _] | Hx]%Hget; [lia |]. apply N in Hx. lia.
  - intros i q Hi. destruct (A i q Hi) as (Hr & p & Hp & Hpi). split; [done |]. exists p. auto.
  - intros q x [[-> ->] | Hx]%Hget; [done | by apply Li].
  - intros q x c [[-> ->] | Hx]%Hget Hc; [by apply elem_of_nil in Hc |].
    destruct (C q x c Hx Hc) as (oc & pc & H1 & H2 & H3). exists oc, pc. auto.
  - intros q q' x x' i j c [[-> ->] | Hx]%Hget [[-> ->] | Hx']%Hget; try done. by eapply Fa.
  - intros q x [[-> ->] | Hx]%Hget; [done | by eapply Fi].
  - intros q x [[-> ->] | Hx]%Hget; [cbn; lia | by eapply Cd].
  - intros q x [[-> ->] | Hx]%Hget; [cbn; lia | by eapply Co].
Qed.

Lemma proc_step_inv s s' : procs_inv s -> proc_step s s' -> procs_inv s'.
Proof.
  intros Inv [cur a r _ H | cur code _ H | cur _ H | pid o r H | kproc a r H].
  - by eapply fork_proc_inv.
  - by eapply exit_begin_inv.
  - by eapply exit_finish_inv.
  - by eapply wait_finish_inv.
  - by eapply start_program_inv.
Qed.

Lemma boot_procs_inv : procs_inv boot_procs.
Proof.
  assert (Hget : forall q x, objs boot_procs !! q = Some x -> q = 0 /\ x = mkProc 0 None 0 [] 0 0 1 None None).
  { intros q x. unfold boot_procs. cbn [objs]. intros [<- <-]%lookup_singleton_Some. done. }
  split.
  - intros q x [-> ->]%Hget. done.
  - intros i q. cbn. by rewrite lookup_empty.
  - intros q x [-> ->]%Hget. done.
  - intros q x c [-> ->]%Hget Hc. by apply elem_of_nil in Hc.
  - intros q q' x x' i j c [-> ->]%Hget. done.
  - intros q x [-> ->]%Hget. done.
  - intros q x [-> ->]%Hget. cbn. lia.
  - intros q x [-> ->]%Hget. cbn. lia.
Qed.

Lemma procs_reachable_inv s : rtc proc_step boot_procs s -> procs_inv s.
Proof.
  assert (H : forall s1 s2, rtc proc_step s1 s2 -> procs_inv s1 -> procs_inv s2).
  { induction 1; [done |]. eauto using proc_step_inv. }
  intros Hr. by apply (H boot_procs), boot_procs_inv.
Qed.

(** ** What a step leaves alone

    Objects are not made again, children stay in the list of their parent, and
    only a process that is free to go loses its place in the table. *)

Record evolves (s s' : procs) : Prop := {
  ev_next : next_obj s <= next_obj s';
  ev_objs : forall o, o < next_obj s -> is_Some (objs s' !! o) -> is_Some (objs s !! o);
  ev_children : forall o p p', objs s !! o = Some p -> objs s' !! o = Some p' -> p_children p ⊆ p_children p';
  ev_array : forall i o, proc_Array s !! i = Some o -> proc_Array s' !! i = Some o \/
    exists p, objs s !! o = Some p /\ p_parsem p <> 0
}.

Lemma evolves_put s o p p' :
  objs s !! o = Some p -> p_children p ⊆ p_children p' -> evolves s (put_proc s o p').
Proof.
  intros Ho Hc. split; cbn.
  - lia.
  - intros q _ [x [[<- <-] | [_ Hx]]%lookup_insert_Some]; eauto.
  - intros q x x' Hx [[<- <-] | [_ Hx']]%lookup_insert_Some; [by assert (x = p) as -> by congruence |]. by assert (x' = x) as -> by congruence.
  - auto.
Qed.

Lemma forked_evolves s cur c newas i :
  procs_inv s -> objs s !! cur = Some c -> proc_Array s !! i = None -> evolves s (forked s cur c newas i).
Proof.
  intros Inv Hc Hi. split; cbn [forked next_obj proc_Array].
  - lia.
  - intros o Ho [x [[-> _] | [[-> _] | (_ & _ & Hx)]]%forked_get]; [lia | eauto..].
  - intros o p p' Hp Hp'. pose proof (pi_next _ Inv _ _ Hp) as Hn.
    destruct (forked_get _ _ _ _ _ _ _ Hp') as [[-> _] | [[-> ->] | (_ & _ & Hx)]]; [lia | |].
    + assert (p = c) as -> by congruence. cbn. set_solver.
    + by assert (p' = p) as -> by congruence.
  - intros j o Hj. left. rewrite lookup_insert_ne; [done | congruence].
Qed.

Lemma exit_finish_evolves s cur s' : procs_inv s -> exit_finish s cur = Ok s' -> evolves s s'.
Proof.
  intros Inv H. destruct (exit_finish_Ok _ _ _ H) as (c & Hc & Hps & Hfit).
  destruct (exit_finish_spec s cur c Inv Hc Hps Hfit) as (m & E & Hm). rewrite E in H. injection H as <-.
  split; cbn.
  - lia.
  - intros o _ [x Hx]. rewrite Hm in Hx. case_decide; [done |]. apply fmap_Some in Hx as (y & Hy & _). eauto.
  - intros o p p' Hp Hp'. rewrite Hm in Hp'. case_decide; [done |]. rewrite Hp in Hp'. cbn in Hp'. injection Hp' as <-.
    by rewrite (proj1 (proj2 (wake_kid_same _ p))).
  - intros i o Hi. destruct (decide (i = p_id c)) as [-> | Hne]; [ | left; by rewrite lookup_delete_ne].
    right. destruct (pi_array _ Inv _ _ Hi) as ([H1 _] & p & Hp & Hid). exists p. split; [done |].
    assert (o = cur) as ->; [ | congruence]. pose proof (pi_listed _ Inv _ _ Hc) as H2. rewrite H2 in Hi by lia. congruence.
Qed.

Lemma proc_step_evolves s s' : procs_inv s -> proc_step s s' -> evolves s s'.
Proof.
  intros Inv [cur a r _ H | cur code _ H | cur _ H | pid o r H | kproc a r H].
  - destruct (fork_proc_Ok s cur a s' r H) as [[i ->] | ->].
    + destruct (fork_proc_eq s cur a s' i Inv H) as (c & Hc & Hi & Hlt & _ & ->).
      apply forked_evolves; [done | done |]. destruct (find_pid_spec (proc_Array s)) as (_ & Hn & _). rewrite Hi in *. auto.
    + split; cbn; [lia | auto | intros o p p' ? ?; by assert (p' = p) as -> by congruence | auto].
  - unfold exit_begin, get_proc in H. apply rbind_Ok in H as (c & Hc%access_Ok & [= <-]). by eapply evolves_put.
  - by eapply exit_finish_evolves.
  - apply wait_finish_Ok in H as (p & Hp & _ & ->). by eapply evolves_put.
  - destruct (start_program_eq _ _ _ _ _ H) as [(b & k & ->) | ->]; split; cbn; try lia; auto.
    + intros o Ho. by rewrite lookup_insert_ne by lia.
    + intros o p p' Hp. apply (pi_next _ Inv) in Hp as Hn. rewrite lookup_insert_ne by lia. congruence.
    + intros o Ho. by rewrite lookup_delete_ne by lia.
    + intros o p p' Hp. apply (pi_next _ Inv) in Hp as Hn. rewrite lookup_delete_ne by lia. congruence.
Qed.

(** As long as a process is there, its children keep their place in the table,
    whatever happens. *)
Lemma children_stay s s' o p c oc :
  procs_inv s -> rtc proc_step s s' -> objs s !! o = Some p -> c ∈ p_children p -> proc_Array s !! c = Some oc ->
  is_Some (objs s' !! o) ->
  procs_inv s' /\ proc_Array s' !! c = Some oc /\ exists pc, objs s' !! oc = Some pc.
Proof.
  intros Inv Hr. revert p Inv. induction Hr as [s | s s1 s' Hs Hr IH]; intros p Inv Ho Hc Ha Hend.
  { split; [done |]. split; [done |]. destruct (pi_children _ Inv o p c Ho Hc) as (oc' & pc & H1 & H2 & _). exists pc. congruence. }
  pose proof (proc_step_evolves _ _ Inv Hs) as Ev. pose proof (proc_step_inv _ _ Inv Hs) as Inv1.
  assert (Hthere : is_Some (objs s1 !! o)).
  { assert (H : forall x y, rtc proc_step x y -> procs_inv x -> o < next_obj x -> is_Some (objs y !! o) -> is_Some (objs x !! o)).
    { induction 1 as [ | x y z Hxy _ IHr]; [done |]. intros Ix Hx Hz. pose proof (proc_step_evolves _ _ Ix Hxy) as Ex.
      apply (ev_objs _ _ Ex); [done |]. apply IHr; [by eapply proc_step_inv | | done]. pose proof (ev_next _ _ Ex). lia. }
    apply (H _ _ Hr Inv1); [ | done]. apply (pi_next _ Inv) in Ho. pose proof (ev_next _ _ Ev). lia. }
  destruct Hthere as [p1 Hp1].
  apply (IH p1); [done | done | by eapply (ev_children _ _ Ev) | | done].
  destruct (ev_array _ _ Ev c oc Ha) as [ | (pc & Hpc & Hne)]; [done | exfalso].
  destruct (pi_children _ Inv o p c Ho Hc) as (oc' & pc' & H1 & H2 & H3). congruence.
Qed.

(** ** Claims *)

(** C5: the process table is sound in every state that program starts, forks,
    exits and waits lead to from boot, successful or not, in any order and with
    the calls that sleep cut at their P, each part being one step; conditions:
    the memory of a process structure made for a program has 0 at p_id, which
    nobody assigns, and fork gets the memory it asks for without looking.  Every
    id
    in proc_Array is in range and belongs to the process that has it, so that
    no two processes share an id (0 apart); a process that exits, with fewer than
    [CLEARED] children, finds all of them in the table, and is either kept waiting by a living parent or
    goes away, letting its children go; and a wait for a child that its parent
    began, whenever it goes on with the parent still there, sleeps on or
    returns the code which that child exited with, never the code of another
    process and never a fault. *)
Theorem process_table_sound s :
  rtc proc_step boot_procs s ->
  (forall i o, proc_Array s !! i = Some o -> 1 <= i < PID_MAX /\ exists p, objs s !! o = Some p /\ p_id p = i) /\
  (forall o o' p p', objs s !! o = Some p -> objs s !! o' = Some p' -> p_id p = p_id p' -> p_id p <> 0 -> o = o') /\
  (forall o p, objs s !! o = Some p -> zlen (p_children p) < CLEARED ->
     if p_parsem p =? 0 then exit_finish s o = Fault Hang
     else exists s', exit_finish s o = Ok s' /\ proc_Array s' = delete (p_id p) (proc_Array s) /\
       forall c, c ∈ p_children p -> exists oc pc, proc_Array s' !! c = Some oc /\ objs s' !! oc = Some pc /\ p_parsem pc = 1) /\
  (forall o p c, objs s !! o = Some p -> c ∈ p_children p ->
     exists oc, wait_begin s c = Ok (Some oc) /\
       forall s', rtc proc_step s s' -> is_Some (objs s' !! o) ->
         exists pc, proc_Array s' !! c = Some oc /\ objs s' !! oc = Some pc /\ p_id pc = c /\
           if p_childsem pc =? 0 then wait_finish s' c oc = Fault Hang
           else exists s'' code, p_exitcode pc = Some code /\ wait_finish s' c oc = Ok (s'', (0, Some code, c))).
Proof.
  intros Inv%procs_reachable_inv. pose proof Inv as [N A Li C Fa Fi Cd Co].
  split; [done |]. split.
  { intros o o' p p' Ho Ho' Heq Hid. pose proof (Li _ _ Ho Hid) as H1. rewrite Heq in *.
    rewrite (Li _ _ Ho' Hid) in H1. congruence. }
  split.
  - intros o p Ho Hfit. destruct (Z.eqb_spec (p_parsem p) 0) as [E | E].
    { unfold exit_finish, get_proc. rewrite Ho. cbn. by rewrite E. }
    destruct (exit_finish_spec s o p Inv Ho E Hfit) as (m & H & Hm). eexists. split; [exact H |]. split; [done |].
    intros c Hc. destruct (C o p c Ho Hc) as (oc & pc & H1 & H2 & H3). destruct (A _ _ H1) as (_ & pc' & H4 & H5).
    assert (pc' = pc) as -> by congruence. exists oc, (wake_kid (p_children p) pc). cbn.
    pose proof (child_not_gone s o p c o p Inv Ho Hc Ho E).
    rewrite lookup_delete_ne by congruence. split; [done |].
    rewrite Hm, decide_False, H2 by congruence. split; [done |].
    unfold wake_kid. rewrite decide_True by (by rewrite H5). cbn. lia.
  - intros o p c Ho Hc. destruct (C o p c Ho Hc) as (oc & pc & H1 & H2 & H3). destruct (A _ _ H1) as (Hr & _).
    exists oc. split.
    { unfold wait_begin. rewrite H1. rewrite (proj2 (Z.leb_le _ _)), (proj2 (Z.ltb_lt _ _)) by lia. done. }
    intros s' Hs Hend. destruct (children_stay s s' o p c oc Inv Hs Ho Hc H1 Hend) as (Inv' & Ha' & p' & Hp').
    exists p'. split; [done |]. split; [done |]. split.
    { destruct (pi_array _ Inv' _ _ Ha') as (_ & x & Hx & Hid). congruence. }
    unfold wait_finish, get_proc. rewrite Hp'. cbn [access rbind].
    destruct (Z.eqb_spec (p_childsem p') 0) as [ | Hnz]; [done |].
    destruct (pi_counts _ Inv' _ _ Hp') as (_ & _ & Hcs). destruct (p_exitcode p') as [code | ] eqn:E.
    + cbn [put_proc with_objs proc_Array objs]. rewrite Ha'. cbn [access rbind]. rewrite lookup_insert_eq. cbn. rewrite E. eauto.
    + exfalso. apply (pi_code _ Inv' _ _ Hp'); [lia | done].
Qed.

(** A program (object 1) forks once (object 2, id 1); the child exits with 7,
    the parent waits and exits. *)
Definition life : list procs :=
  let step s k := match s with Ok s => k s | Fault f => Fault f end in
  let s1 := step (Ok boot_procs) (fun s => let* (s, _) := start_program s 0 0 (Some 64) in Ok s) in
  let s2 := step s1 (fun s => let* (s, _) := fork_proc s 1 (Some 65) in Ok s) in
  let s3 := step s2 (fun s => exit_begin s 2 7) in
  let s4 := step s3 (fun s => let* (s, _) := sys_waitpid s 1 in Ok s) in
  let s5 := step s4 (fun s => exit_begin s 1 0) in
  let s6 := step s5 (fun s => exit_finish s 1) in
  omap (fun r => match r with Ok s => Some s | Fault _ => None end) [s1; s2; s3; s4; s5; s6].

Definition life_at (i : nat) : procs := default boot_procs (life !! i).

Lemma life_forked : rtc proc_step boot_procs (life_at 1).
Proof.
  apply (rtc_l _ _ (life_at 0)); [by apply (StepRun _ _ 0 (Some 64) (Some 1)) |].
  apply rtc_once. apply (StepFork _ _ 1 (Some 65) (0, 1)); [ | vm_compute; reflexivity].
  eexists. split; [vm_compute; reflexivity | reflexivity].
Qed.

Lemma life_over : rtc proc_step boot_procs (life_at 5).
Proof.
  transitivity (life_at 1); [exact life_forked |].
  apply (rtc_l _ _ (life_at 2)).
  { apply (StepExit _ _ 2 7); [ | vm_compute; reflexivity]. eexists. split; [vm_compute; reflexivity | reflexivity]. }
  apply (rtc_l _ _ (life_at 3)); [by apply (StepWait _ _ 1 2 (0, Some 7, 1)); vm_compute |].
  apply (rtc_l _ _ (life_at 4)).
  { apply (StepExit _ _ 1 0); [ | vm_compute; reflexivity]. eexists. split; [vm_compute; reflexivity | reflexivity]. }
  apply rtc_once. apply (StepGone _ _ 1); [ | vm_compute; reflexivity]. eexists. split; [vm_compute; reflexivity | done].
Qed.

(** With its parent gone the child may leave as well; and the wait the parent
    began before the child had exited returns its code. *)
Lemma process_table_sound_witness :
  (exists s', exit_finish (life_at 5) 2 = Ok s') /\
  (exists s' code, wait_finish (life_at 2) 1 2 = Ok (s', (0, Some code, 1))).
Proof.
  split.
  - destruct (process_table_sound (life_at 5) life_over) as (_ & _ & H & _).
    assert (Hp : objs (life_at 5) !! 2 = Some (mkProc 1 (Some 7) 0 [] 1 0 2 (Some 65) None)) by (vm_compute; reflexivity).
    specialize (H 2 _ Hp). cbn in H. destruct H as (s' & H & _); [reflexivity |]. by exists s'.
  - destruct (process_table_sound (life_at 1) life_forked) as (_ & _ & _ & H).
    destruct (H 1 (mkProc 0 None 0 [1] 1 0 1 (Some 64) None) 1) as (oc & Hw & Hf); [vm_compute; reflexivity | set_solver |].
    assert (oc = 2) as -> by (vm_compute in Hw; congruence).
    destruct (Hf (life_at 2)) as (pc & _ & Hpc & _ & Hres).
    + apply rtc_once. apply (StepExit _ _ 2 7); [ | vm_compute; reflexivity]. eexists. split; [vm_compute; reflexivity | reflexivity].
    + eexists. vm_compute. reflexivity.
    + assert (Hp : objs (life_at 2) !! 2 = Some (mkProc 1 (Some 7) 0 [] 0 1 2 (Some 65) None)) by (vm_compute; reflexivity).
      assert (pc = mkProc 1 (Some 7) 0 [] 0 1 2 (Some 65) None) as -> by congruence. cbn in Hres.
      destruct Hres as (s' & code & _ & E). by exists s', code.
Defined.

(** The condition on p_id is needed.  A program whose structure happens to hold
    in p_id the id of another program's child takes that child off the table
    when it exits, and the other program's exit then goes through a null
    pointer. *)
Theorem unassigned_id_breaks :
  exists s1 s2 s3 s4, start_program (life_at 1) 0 1 (Some 66) = Ok (s1, Some 3) /\
    exit_begin s1 3 0 = Ok s2 /\ exit_finish s2 3 = Ok s3 /\ exit_begin s3 1 0 = Ok s4 /\
    exit_finish s4 1 = Fault BadAccess.
Proof. eexists _, _, _, _. repeat (split; [vm_compute; reflexivity |]). vm_compute. reflexivity. Qed.

(** The wait of a process other than the parent may be left behind: a second
    child (object 3) has begun to wait for the first (id 1, object 2), which
    exits; the parent exits, the first child goes away and its semaphore is
    freed before the second has come out of its P. *)
Theorem stranger_wait_faults :
  exists s1 s2 s3 s4 s5, fork_proc (life_at 1) 1 (Some 67) = Ok (s1, (0, 2)) /\ wait_begin s1 1 = Ok (Some 2) /\
    exit_begin s1 2 7 = Ok s2 /\ exit_begin s2 1 0 = Ok s3 /\ exit_finish s3 1 = Ok s4 /\ exit_finish s4 2 = Ok s5 /\
    wait_finish s5 1 2 = Fault BadAccess.
Proof. eexists _, _, _, _, _. repeat (split; [vm_compute; reflexivity |]). vm_compute. reflexivity. Qed.

(** C22: fork gives the child the lowest free process id and the child starts
    without an exit code, so a wait for it blocks; once the child has exited
    with a code, one wait returns that code, while the child itself stays until
    its parent exits; a second wait for it blocks for good. *)
Theorem fork_exit_wait s cur newas s1 i :
  rtc proc_step boot_procs s -> running s cur -> fork_proc s cur newas = Ok (s1, (0, i)) ->
  1 <= i < PID_MAX /\ proc_Array s !! i = None /\ (forall j, 1 <= j < i -> is_Some (proc_Array s !! j)) /\
  sys_waitpid s1 i = Fault Hang /\
  exists o, proc_Array s1 !! i = Some o /\ sys_getpid s1 o = Ok (0, i) /\
    forall code, exists s2 s3, exit_begin s1 o code = Ok s2 /\ exit_finish s2 o = Fault Hang /\
      sys_waitpid s2 i = Ok (s3, (0, Some code, i)) /\ sys_waitpid s3 i = Fault Hang.
Proof.
  intros Inv%procs_reachable_inv _ H. destruct (fork_proc_eq s cur newas s1 i Inv H) as (c & Hc & Hi & Hlt & Hfit & ->).
  destruct (find_pid_spec (proc_Array s)) as (Hr & Hnone & Hlow). rewrite <- Hi in *.
  split; [lia |]. split; [auto |]. split; [done |].
  assert (Hin : negb ((0 <=? i) && (i <? PID_MAX)) = false).
  { apply negb_false_iff, andb_true_iff. split; [apply Z.leb_le | apply Z.ltb_lt]; lia. }
  unfold sys_waitpid, wait_begin, wait_finish, sys_getpid, exit_begin, exit_finish, get_proc, put_proc, forked. rewrite Hin. cbn.
  rewrite lookup_insert_eq. cbn. rewrite lookup_insert_eq. cbn. split; [done |].
  eexists. split; [done |]. rewrite lookup_insert_eq. cbn. split; [done |]. intros code.
  eexists _, _. split; [done |]. do 3 (cbn; rewrite ?lookup_insert_eq). split; [done |]. split; [done |].
  do 4 (cbn; rewrite ?lookup_insert_eq). done.
Qed.

Lemma fork_exit_wait_witness : sys_waitpid (life_at 1) 1 = Fault Hang.
Proof.
  apply (fork_exit_wait (life_at 0) 1 (Some 65) (life_at 1) 1).
  - apply rtc_once. by apply (StepRun _ _ 0 (Some 64) (Some 1)).
  - eexists. split; [vm_compute; reflexivity | reflexivity].
  - vm_compute. reflexivity.
Defined.

(** A fork that finds all process ids taken reports ENPROC with proc_Lock
    still held, so that every later fork, by any process, waits for ever. *)
Theorem fork_enproc_locks_up s cur newas :
  is_Some (objs s !! cur) -> proc_Lock s = false -> (forall i, 1 <= i < PID_MAX -> is_Some (proc_Array s !! i)) ->
  exists s', fork_proc s cur newas = Ok (s', (ENPROC, 0)) /\ forall q a, fork_proc s' q a = Fault Hang.
Proof.
  intros [c Hc] HL Hall. destruct (find_pid_spec (proc_Array s)) as (Hr & Hnone & _).
  assert (find_pid (proc_Array s) = PID_MAX) as E.
  { destruct (Z.eq_dec (find_pid (proc_Array s)) PID_MAX) as [ | Hne]; [done |].
    destruct (Hall (find_pid (proc_Array s))) as [o Ho]; [lia |]. rewrite Hnone in Ho by lia. done. }
  unfold fork_proc, get_proc. rewrite HL. cbn. rewrite Hc. cbn. rewrite E, Z.eqb_refl. by eexists.
Qed.

Definition crowded : procs :=
  mkProcs (list_to_map ((fun n => (Z.of_nat n, 1)) <$> seq 1 (Z.to_nat 32766))) {[1 := mkProc 0 None 0 [] 1 0 1 None None]} 2 false.

Lemma fork_enproc_locks_up_witness :
  exists s', fork_proc crowded 1 None = Ok (s', (ENPROC, 0)) /\ forall q a, fork_proc s' q a = Fault Hang.
Proof.
  apply fork_enproc_locks_up.
  - eexists. unfold crowded, objs. apply lookup_singleton_eq.
  - unfold crowded, proc_Lock. exact eq_refl.
  - intros i Hi. unfold PID_MAX in Hi. unfold crowded, proc_Array. exists 1. apply elem_of_list_to_map_1.
    { rewrite <- list_fmap_compose. apply NoDup_fmap_2; [intros x y Hxy; change (Z.of_nat x = Z.of_nat y) in Hxy; lia | apply NoDup_seq]. }
    apply list_elem_of_fmap. exists (Z.to_nat i). split; [rewrite Z2Nat.id by lia; done | apply elem_of_seq; lia].
Defined.

(** Sbrk on a heap that lies below 2^31: an accepted request returns the old
    end of the heap, keeps the end between the start of the heap and
    as_stackpbase, and moves it by the request rounded to the next multiple of
    4 above; a request that is a multiple of 4 already, 0 included, moves it by
    4 bytes more.  A refused request changes nothing. *)
Theorem sbrk_moves heapstart heapend stackpbase inc err retval heapend' :
  0 <= heapstart <= heapend -> heapend < 2 ^ 31 -> - heapend <= inc < 2 ^ 30 ->
  sbrk_fields heapstart heapend stackpbase inc = (err, retval, heapend') ->
  let moved := 4 * (Z.quot inc 4) + 4 in
  (err = 0 /\ retval = heapend /\ heapend' = heapend + moved /\ heapstart <= heapend' <= stackpbase) \/
  (err = ENOMEM /\ heapend' = heapend /\ stackpbase < heapend + moved) \/
  (err = EINVAL /\ heapend' = heapend /\ heapend + moved < heapstart).
Proof.
  intros Hs He Hi H moved. unfold sbrk_fields in H.
  assert (Hm : inc + (4 - Z.rem inc 4) = moved) by (pose proof (Z.quot_rem' inc 4); unfold moved; lia).
  assert (Hr : -4 < Z.rem inc 4 < 4) by (pose proof (Z.rem_bound_abs inc 4); lia).
  rewrite Hm in H.
  assert (s32 moved = moved) as Hs32 by (unfold s32; rewrite Z.mod_small; lia).
  rewrite Hs32, u32_id in H by (unfold is_u32; lia).
  destruct (Z.ltb_spec stackpbase (heapend + moved)); [injection H as <- <- <-; auto |].
  destruct (Z.ltb_spec (heapend + moved) heapstart); injection H as <- <- <-; [auto |].
  left. repeat split; try lia. unfold s32. rewrite Z.mod_small; lia.
Qed.

Lemma sbrk_moves_witness : sbrk_fields 4096 8192 65536 0 = (0, 8192, 8196) /\ 8196 = 8192 + (4 * Z.quot 0 4 + 4).
Proof.
  split; [reflexivity |].
  destruct (sbrk_moves 4096 8192 65536 0 0 8192 8196) as [(_ & _ & H & _) | [(H & _) | (H & _)]];
    [lia | lia | lia | reflexivity | exact H | discriminate | discriminate].
Defined.
