(* ===== verification/Exec.v ===== *)
(** Running a program: load_elf of kern/syscall/loadelf.c, sys_execv of
    kern/arch/mips/syscall/syscall.c and runprogram of
    kern/syscall/runprogram.c, over the address spaces of file Addrspace.

    What the kernel can address is a memory in the sense of file Copyinout:
    itself and the address space that is active.  The class [ExecEnv] is that
    memory, the switch to another address space, and the files.  Requests for
    kernel memory are granted here; a copyinstr into a fresh buffer is the
    string that arrives in it. *)
From S2P Require Import Prelude Coremap Addrspace Copyinout Synch Files Process.

Definition PATH_MAX := 1024.

(** ** Words and strings in memory *)

Definition be16 (l : list Z) (i : nat) : Z := default 0 (l !! i) * 2 ^ 8 + default 0 (l !! S i).
Definition be32 (l : list Z) (i : nat) : Z := be16 l i * 2 ^ 16 + be16 l (2 + i).

Definition load_word (m : memory) (a : Z) : option Z := (fun l => be32 l 0) <$> read_bytes 4 m a.

Definition word_bytes (w : Z) : list Z := [u8 (w / 2 ^ 24); u8 (w / 2 ^ 16); u8 (w / 2 ^ 8); u8 w].
Definition store_word (m : memory) (a w : Z) : option memory := write_bytes m a (word_bytes w).

(** The string at [a], looked for in [k] bytes: [None], a fault on the way;
    [Some None], no end in sight. *)
Fixpoint fetch_string (k : nat) (m : memory) (a : Z) : option (option (list Z)) :=
  match k with
  | O => Some None
  | S k =>
    match m a with
    | None => None
    | Some ch =>
      if ch =? 0 then Some (Some [])
      else
        match fetch_string k m (a + 1) with
        | None => None
        | Some o => Some ((fun l => ch :: l) <$> o)
        end
    end
  end.

(** copyinstr into a fresh buffer of [len] bytes: the return value and the
    string that is in it. *)
Definition copyin_string (m : memory) (usersrc len : Z) : Z * option (list Z) :=
  let (result, stoplen) := copycheck usersrc len in
  if negb (result =? 0) then (result, None)
  else
  match fetch_string (Z.to_nat (Z.min len stoplen)) m usersrc with
  | None => (EFAULT, None)
  | Some None => (if stoplen <? len then EFAULT else ENAMETOOLONG, None)
  | Some (Some l) => (0, Some l)
  end.

(** copyout of these bytes: what was copied before a fault stays. *)
Fixpoint write_prefix (m : memory) (a : Z) (l : list Z) : memory * bool :=
  match l with
  | [] => (m, true)
  | v :: l =>
    match store m a v with
    | None => (m, false)
    | Some m => write_prefix m (a + 1) l
    end
  end.

Definition copyout_bytes (m : memory) (userdest : Z) (l : list Z) : memory * Z :=
  let (result, stoplen) := copycheck userdest (zlen l) in
  if negb (result =? 0) then (m, result)
  else if negb (stoplen =? zlen l) then (m, EFAULT)
  else let (m, ok) := write_prefix m userdest l in (m, if ok : bool then 0 else EFAULT).

(** ** The environment *)

Class ExecEnv (X : Type) := {
  x_bytes : X -> memory;
  x_set_bytes : X -> memory -> X;
  (** user addresses are from now on those of this address space *)
  x_switch : X -> Z -> X;
  (** vfs_open with these flags: the error code and the vnode *)
  x_open : X -> list Z -> Z -> X * Z * Z;
  x_close : X -> Z -> X;
  (** VOP_READ; the list is what has arrived in a buffer of the kernel *)
  x_read : X -> Z -> uio -> X * uio * Z * list Z
}.

(** ** ELF files (kern/include/elf.h) *)

Record Elf_Ehdr := mkEhdr {
  e_ident : list Z;
  e_type : Z;
  e_machine : Z;
  e_version : Z;
  e_entry : Z;
  e_phoff : Z;
  e_phentsize : Z;
  e_phnum : Z
}.

Record Elf_Phdr := mkPhdr {
  p_type : Z;
  p_offset : Z;
  p_vaddr : Z;
  p_filesz : Z;
  p_memsz : Z;
  p_flags : Z
}.

Definition sizeof_ehdr := 52.
Definition sizeof_phdr := 32.

Definition parse_ehdr (b : list Z) : Elf_Ehdr :=
  mkEhdr (take 16 b) (be16 b 16) (be16 b 18) (be32 b 20) (be32 b 24) (be32 b 28) (be16 b 42) (be16 b 44).

Definition parse_phdr (b : list Z) : Elf_Phdr :=
  mkPhdr (be32 b 0) (be32 b 4) (be32 b 8) (be32 b 16) (be32 b 20) (be32 b 24).

Definition PT_NULL := 0.
Definition PT_LOAD := 1.
Definition PT_PHDR := 6.
Definition PT_MIPS_REGINFO := 0x70000000.

(** A 32-bit big-endian executable of version 1 for this processor. *)
Definition ehdr_ok (eh : Elf_Ehdr) : bool :=
  bool_decide (take 7 (e_ident eh) = [0x7f; 69; 76; 70; 1; 2; 1]) &&
  (e_version eh =? 1) && (e_type eh =? 2) && (e_machine eh =? 8).

Section Exec.
Context {X : Type} `{ExecEnv X}.
Implicit Types (s : vm) (x : X).

(** Reads [len] bytes at [offset] into a structure of the kernel at [kbuf]. *)
Definition read_struct x (v kbuf len offset : Z) : X * Z * list Z :=
  let '(x, ku, result, b) := x_read x v (uio_kinit kbuf len offset UIO_READ) in
  if negb (result =? 0) then (x, result, b)
  else if negb (uio_resid ku =? 0) then (x, ENOEXEC, b)
  else (x, 0, b).

(** The filesize is cut to the memsize. *)
Definition load_segment x (a : option Z) (v : Z) (offset vaddr memsize filesize : Z) (is_executable : bool) : X * Z :=
  let filesize := if memsize <? filesize then memsize else filesize in
  let u := mkUio [mkIov vaddr memsize] offset filesize (if is_executable then UIO_USERISPACE else UIO_USERSPACE) UIO_READ a in
  let '(x, u, result, _) := x_read x v u in
  if negb (result =? 0) then (x, result)
  else if negb (uio_resid u =? 0) then (x, ENOEXEC)
  else (x, result).

(** The two loops over the program headers, at number [i] with [k] to go: each
    reads the header, skips three types, refuses unknown ones, and does [f] for
    a segment to be loaded. *)
Fixpoint each_segment (k : nat) (f : vm -> X -> Elf_Phdr -> res (vm * X * Z)) s x (v kbuf : Z) (eh : Elf_Ehdr) (i : Z) : res (vm * X * Z) :=
  match k with
  | O => Ok (s, x, 0)
  | S k =>
    let offset := u32 (e_phoff eh + i * e_phentsize eh) in
    let '(x, result, b) := read_struct x v kbuf sizeof_phdr offset in
    if negb (result =? 0) then Ok (s, x, result)
    else
    let ph := parse_phdr b in
    if (p_type ph =? PT_NULL) || (p_type ph =? PT_PHDR) || (p_type ph =? PT_MIPS_REGINFO) then each_segment k f s x v kbuf eh (i + 1)
    else if negb (p_type ph =? PT_LOAD) then Ok (s, x, ENOEXEC)
    else
    let* (s, x, result) := f s x ph in
    if negb (result =? 0) then Ok (s, x, result)
    else each_segment k f s x v kbuf eh (i + 1)
  end.

Definition define_segment (a : option Z) s x (ph : Elf_Phdr) : res (vm * X * Z) :=
  let* a := access a in
  let* (s, result) := as_define_region s a (p_vaddr ph) (p_memsz ph) in Ok (s, x, result).

Definition read_segment (a : option Z) (v : Z) s x (ph : Elf_Phdr) : res (vm * X * Z) :=
  let (x, result) := load_segment x a v (p_offset ph) (p_vaddr ph) (p_memsz ph) (p_filesz ph) (negb (Z.land (p_flags ph) 1 =? 0)) in
  Ok (s, x, result).

(** The return value and [*entrypoint], if it is set; [kbuf]: where on the stack the headers
    are. *)
Definition load_elf s x (v kbuf : Z) : res (vm * X * Z * option Z) :=
  let a := proc_getas s in
  let '(x, result, b) := read_struct x v kbuf sizeof_ehdr 0 in
  if negb (result =? 0) then Ok (s, x, result, None)
  else
  let eh := parse_ehdr b in
  if negb (ehdr_ok eh) then Ok (s, x, ENOEXEC, None)
  else
  let n := Z.to_nat (e_phnum eh) in
  let* (s, x, result) := each_segment n (define_segment a) s x v kbuf eh 0 in
  if negb (result =? 0) then Ok (s, x, result, None)
  else
  let* as_ := access a in
  let* (s, result) := as_prepare_load s as_ in
  if negb (result =? 0) then Ok (s, x, result, None)
  else
  let* (s, x, result) := each_segment n (read_segment a v) s x v kbuf eh 0 in
  if negb (result =? 0) then Ok (s, x, result, None)
  else
  let* result := as_complete_load s as_ in
  if negb (result =? 0) then Ok (s, x, result, None)
  else Ok (s, x, 0, Some (e_entry eh)).

(** ** sys_execv *)

(** [for(argc = 0; args[argc] != NULL; argc++);], in user memory as it is. *)
Fixpoint count_args (fuel : nat) (m : memory) (args argc : Z) : res Z :=
  match fuel with
  | O => Fault OutOfFuel
  | S fuel =>
    let* p := access (load_word m (args + 4 * argc)) in
    if p =? 0 then Ok argc else count_args fuel m args (argc + 1)
  end.

(** strlen, kmalloc and copyinstr of one argument: what is in its buffer, or
    [None] if nothing was copied. *)
Definition fetch_arg (fuel : nat) (m : memory) (args i : Z) : res (option (list Z)) :=
  let* p := access (load_word m (args + 4 * i)) in
  let* o := access (fetch_string fuel m p) in
  match o with
  | None => Fault OutOfFuel
  | Some l => Ok (copyin_string m p (zlen l + 1)).2
  end.

Fixpoint fetch_args (k : nat) (fuel : nat) (m : memory) (args i : Z) : res (list (option (list Z))) :=
  match k with
  | O => Ok []
  | S k =>
    let* arg := fetch_arg fuel m args i in
    let* l := fetch_args k fuel m args (i + 1) in
    Ok (arg :: l)
  end.

(** The loop that puts the strings below the array of pointers at [argptr]: a
    buffer that was never filled has no length. *)
Fixpoint push_args (progargs : list (option (list Z))) (m : memory) (argptr i stackptr : Z) : res (memory * Z) :=
  match progargs with
  | [] => Ok (m, stackptr)
  | arg :: progargs =>
    let* l := access arg in
    let stackptr := stackptr - (zlen l + 1) in
    let* m := access (store_word m (argptr + 4 * i) stackptr) in
    let m := (copyout_bytes m stackptr (l ++ [0])).1 in
    push_args progargs m argptr (i + 1) stackptr
  end.

(** From the copyout of the array to the alignment of the stack: the memory, the
    array and the stack.  [kptrs]: the addresses of the buffers, and the word
    behind them. *)
Definition place_args (progargs : list (option (list Z))) (kptrs : list Z) (m : memory) (stackptr : Z) : res (memory * Z * Z) :=
  let argc := zlen progargs in
  let argptr := stackptr - 4 * (argc + 1) in
  let m := (copyout_bytes m argptr (concat (word_bytes <$> kptrs))).1 in
  let* (m, stackptr) := push_args progargs m argptr 0 argptr in
  let* m := access (store_word m (argptr + 4 * argc) 0) in
  Ok (m, argptr, stackptr - stackptr mod 8).

Inductive exec_result :=
| Returns (code : Z)
| Enters (argc argv stack entry : Z).

Definition with_curas s (a : option Z) : vm := with_curproc s (Some a).

(** [fuel]: how far the loops over user memory go; [kbuf], [kptrs] as above;
    [junk]: what is in startptr before load_elf sets it. *)
Definition sys_execv s x (fuel : nat) (kbuf junk : Z) (kptrs : list Z) (prog args : Z) : res (vm * X * exec_result) :=
  let m := x_bytes x in
  match copyin_string m prog PATH_MAX with
  | (0, Some progname) =>
  if zlen progname + 1 =? 1 then Ok (s, x, Returns EINVAL)
  else
  let* argc := count_args fuel m args 0 in
  let* progargs := fetch_args (Z.to_nat argc) fuel m args 0 in
  let* s := match proc_getas s with Some a => as_destroy s a | None => Ok s end in
  let '(x, ret, v) := x_open x progname O_RDONLY in
  if negb (ret =? 0) then Ok (s, x, Returns ret)
  else
  let* (s, new) := as_create s in
  let s := with_curas s new in
  let* s := as_activate s in
  let x := match new with Some a => x_switch x a | None => x end in
  let* (s, x, ret, startptr) := load_elf s x v kbuf in
  let x := x_close x v in
  let* a := access (proc_getas s) in
  let* (ret, stackptr) := as_define_stack s a in
  let* (m, argptr, stackptr) := place_args progargs kptrs (x_bytes x) stackptr in
  Ok (s, x_set_bytes x m, Enters argc argptr stackptr (default junk startptr))
  | _ => Ok (s, x, Returns EFAULT)
  end.

(** ** sys___time

    [sec], [nsec]: what gettime delivers; the error code. *)
Definition sys___time (m : memory) (sec nsec user_seconds_ptr user_nanoseconds_ptr : Z) : memory * Z :=
  let (m, result) := copyout_bytes m user_seconds_ptr (word_bytes (sec / 2 ^ 32) ++ word_bytes sec) in
  if negb (result =? 0) then (m, result)
  else
  let (m, result) := copyout_bytes m user_nanoseconds_ptr (word_bytes nsec) in
  if negb (result =? 0) then (m, result)
  else (m, 0).

(** ** runprogram *)

(** What it works on besides: the process table, the heap, the descriptions of
    open files and the table of the thread. *)
Record running := mkRun {
  r_vm : vm;
  r_env : X;
  r_procs : procs;
  r_heap : kheap;
  r_fdescs : gmap Z fdesc;
  r_fdtable : list (option Z)
}.

Definition con : list Z := [99; 111; 110; 58].

(** One of the three descriptors: [sname] is the address of its name on the
    stack, [junk] what memory holds at the offset.  The result of vfs_open is
    not looked at. *)
Definition open_std (r : running) (fd oflags sname junk : Z) : res running :=
  let (h, p) := halloc (r_heap r) in
  let '(x, _, vn) := x_open (r_env r) con oflags in
  let* table := access (zput (r_fdtable r) fd p) in
  let* p := access p in
  let* (h, lk) := lock_create h in
  Ok (mkRun (r_vm r) x (r_procs r) h (<[p := mkFd sname oflags 1 junk vn lk]> (r_fdescs r)) table).

(** [o] is the process of the thread; [sname] and [junk]: see [open_std]. *)
Definition runprogram (r : running) (o : Z) (kbuf : Z) (sname junk : Z -> Z) (progname : list Z) : res (running * exec_result) :=
  if proc_Lock (r_procs r) then Fault Hang
  else
  let ps := with_plock (r_procs r) true in
  let stop s x ps ret := Ok (mkRun s x ps (r_heap r) (r_fdescs r) (r_fdtable r), Returns ret) in
  let s := r_vm r in
  let '(x, result, v) := x_open (r_env r) progname O_RDONLY in
  if negb (result =? 0) then stop s x ps result
  else
  kassert (bool_decide (proc_getas s = None)) (
  let* (s, a) := as_create s in
  match a with
  | None => stop s (x_close x v) ps ENOMEM
  | Some a =>
  let* (ps, _) := proc_setas ps (Some o) (Some a) in
  let s := with_curas s (Some a) in
  let* s := as_activate s in
  let* (s, x, result, entrypoint) := load_elf s (x_switch x a) v kbuf in
  if negb (result =? 0) then stop s (x_close x v) ps result
  else
  let r := mkRun s x ps (r_heap r) (r_fdescs r) (r_fdtable r) in
  let* r := open_std r 0 O_RDONLY (sname 0) (junk 0) in
  let* r := open_std r 1 O_WRONLY (sname 1) (junk 1) in
  let* r := open_std r 2 O_WRONLY (sname 2) (junk 2) in
  let x := x_close (r_env r) v in
  let* (result, stackptr) := as_define_stack (r_vm r) a in
  if negb (result =? 0) then Ok (mkRun (r_vm r) x (r_procs r) (r_heap r) (r_fdescs r) (r_fdtable r), Returns result)
  else
  let* ps := runprogram_sems (r_procs r) o in
  let ps := with_plock ps false in
  let* entrypoint := access entrypoint in
  Ok (mkRun (r_vm r) x ps (r_heap r) (r_fdescs r) (r_fdtable r), Enters 0 0 stackptr entrypoint)
  end).
End Exec.

Arguments running X : clear implicits.

(** * The arguments of a program *)

Definition mapped (m : memory) (lo hi : Z) : Prop := forall a, lo <= a < hi -> is_Some (m a).

(** [m] with [l] at [a]. *)
Definition put (m : memory) (a : Z) (l : list Z) : memory :=
  fun x => if decide (a <= x < a + zlen l) then l !! Z.to_nat (x - a) else m x.

Definition same_bytes (m m' : memory) : Prop := forall a, m a = m' a.

(** The bytes [l] are at [a]. *)
Definition at_addr (m : memory) (a : Z) (l : list Z) : Prop := forall i v, l !! i = Some v -> m (a + Z.of_nat i) = Some v.

Lemma store_put m a v m' : store m a v = Some m' -> forall x, m' x = put m a [v] x.
Proof.
  unfold store, put. destruct (m a); [ | done]. intros [= <-] x. destruct (Z.eqb_spec x a) as [-> | Hne]; cbn.
  - rewrite decide_True by (unfold zlen; cbn; lia). by rewrite Z.sub_diag.
  - rewrite decide_False by (unfold zlen; cbn; lia). done.
Qed.

Lemma put_cons m m' a v l x : store m a v = Some m' -> put m' (a + 1) l x = put m a (v :: l) x.
Proof.
  intros Hs. unfold put at 1. rewrite (store_put _ _ _ _ Hs). unfold put, zlen. cbn [length].
  repeat case_decide; try lia; try done.
  - replace (Z.to_nat (x - a)) with (S (Z.to_nat (x - (a + 1)))) by lia. done.
  - replace (Z.to_nat (x - a)) with 0%nat by lia. done.
Qed.

Lemma write_prefix_ok (l : list Z) : forall m a, mapped m a (a + zlen l) -> exists m', write_prefix m a l = (m', true) /\ same_bytes m' (put m a l).
Proof.
  induction l as [ | v l IH]; intros m a Hm.
  - exists m. split; [done |]. intros x. unfold put, zlen. cbn. by rewrite decide_False by lia.
  - unfold zlen in Hm. cbn [length] in Hm. cbn [write_prefix]. destruct (store_ok m a v) as [m1 E1]; [apply Hm; lia |]. rewrite E1.
    destruct (IH m1 (a + 1)) as (m2 & -> & E2).
    + intros x Hx. rewrite (store_put _ _ _ _ E1). unfold put. case_decide; [unfold zlen in *; cbn in *; lia |]. apply Hm. unfold zlen in Hx. lia.
    + exists m2. split; [done |]. intros x. rewrite E2. by apply put_cons.
Qed.

Lemma write_bytes_ok (l : list Z) : forall m a, mapped m a (a + zlen l) -> exists m', write_bytes m a l = Some m' /\ same_bytes m' (put m a l).
Proof.
  induction l as [ | v l IH]; intros m a Hm.
  - exists m. split; [done |]. intros x. unfold put, zlen. cbn. by rewrite decide_False by lia.
  - unfold zlen in Hm. cbn [length] in Hm. cbn [write_bytes]. destruct (store_ok m a v) as [m1 E1]; [apply Hm; lia |]. rewrite E1.
    destruct (IH m1 (a + 1)) as (m2 & -> & E2).
    + intros x Hx. rewrite (store_put _ _ _ _ E1). unfold put. case_decide; [unfold zlen in *; cbn in *; lia |]. apply Hm. unfold zlen in Hx. lia.
    + exists m2. split; [done |]. intros x. rewrite E2. by apply put_cons.
Qed.

Lemma put_mapped m a l lo hi : mapped m lo hi -> mapped (put m a l) lo hi.
Proof.
  intros Hm x Hx. unfold put. case_decide; [ | by apply Hm]. apply lookup_lt_is_Some. unfold zlen in *. lia.
Qed.

Lemma put_at m a l : at_addr (put m a l) a l.
Proof.
  intros i v Hi. unfold put. pose proof (lookup_lt_Some _ _ _ Hi). rewrite decide_True by (unfold zlen; lia).
  by replace (Z.to_nat (a + Z.of_nat i - a)) with i by lia.
Qed.

Lemma put_at_other m a l b k : at_addr m b k -> (b + zlen k <= a \/ a + zlen l <= b) -> at_addr (put m a l) b k.
Proof.
  intros Hm Hd i v Hi. pose proof (lookup_lt_Some _ _ _ Hi). unfold put. rewrite decide_False by (unfold zlen in *; lia). by apply Hm.
Qed.

Lemma at_same m m' a l : same_bytes m m' -> at_addr m' a l -> at_addr m a l.
Proof. intros Hs Ha i v Hi. rewrite Hs. by apply Ha. Qed.

Lemma mapped_same m m' lo hi : same_bytes m m' -> mapped m' lo hi -> mapped m lo hi.
Proof. intros Hs Hm a Ha. rewrite Hs. by apply Hm. Qed.

Lemma copyout_ok m a l :
  0 <= a -> a + zlen l <= USERSPACETOP -> l <> [] -> mapped m a (a + zlen l) ->
  exists m', copyout_bytes m a l = (m', 0) /\ same_bytes m' (put m a l).
Proof.
  intros Ha Hl Hne Hm. unfold copyout_bytes. assert (0 < zlen l) by (unfold zlen; destruct l; [done | cbn; lia]).
  assert (Ec : copycheck a (zlen l) = (0, zlen l)).
  { unfold copycheck, USERSPACETOP, MIPS_KSEG0 in *. change (2 ^ 32) with 4294967296 in *.
    rewrite (u32_id (a + zlen l)) by (unfold is_u32; lia). rewrite u32_id by (unfold is_u32; lia).
    destruct (Z.ltb_spec (a + zlen l - 1) a); [lia |]. destruct (Z.leb_spec 0x80000000 a); [lia |].
    destruct (Z.leb_spec 0x80000000 (a + zlen l - 1)); [lia | done]. }
  rewrite Ec. change (negb (0 =? 0)) with false. rewrite Z.eqb_refl. cbn [negb].
  destruct (write_prefix_ok l m a Hm) as (m' & -> & E). exists m'. split; [done | exact E].
Qed.

(** ** Words *)

Lemma load_word_at m a w : is_u32 w -> at_addr m a (word_bytes w) -> load_word m a = Some w.
Proof.
  intros Hw Ha. unfold load_word. cbn [read_bytes].
  pose proof (Ha 0%nat _ eq_refl) as H0. pose proof (Ha 1%nat _ eq_refl) as H1. pose proof (Ha 2%nat _ eq_refl) as H2. pose proof (Ha 3%nat _ eq_refl) as H3.
  cbn in H0, H1, H2, H3. rewrite Z.add_0_r in H0. replace (a + Z.of_nat 1) with (a + 1) in H1 by lia.
  replace (a + Z.of_nat 2) with (a + 1 + 1) in H2 by lia. replace (a + Z.of_nat 3) with (a + 1 + 1 + 1) in H3 by lia.
  rewrite H0, H1, H2, H3. cbn. f_equal. unfold be32, be16. cbn. unfold is_u32, u8 in *.
  change (2 ^ 8) with 256 in *. change (2 ^ 16) with 65536. change (2 ^ 24) with 16777216. change (2 ^ 32) with 4294967296 in Hw. div_lia.
Qed.

Lemma store_word_ok m a w : mapped m a (a + 4) -> exists m', store_word m a w = Some m' /\ same_bytes m' (put m a (word_bytes w)).
Proof. intros Hm. by apply write_bytes_ok. Qed.

Lemma read_bytes_ext (k : nat) : forall m m' a, (forall i, 0 <= i < Z.of_nat k -> m (a + i) = m' (a + i)) -> read_bytes k m a = read_bytes k m' a.
Proof.
  induction k as [ | k IH]; intros m m' a Hm; [done |]. cbn. rewrite (IH m m' (a + 1)).
  - specialize (Hm 0 ltac:(lia)). rewrite Z.add_0_r in Hm. by rewrite Hm.
  - intros i Hi. specialize (Hm (1 + i) ltac:(lia)). by replace (a + 1 + i) with (a + (1 + i)) by lia.
Qed.

(** The seconds, high word first, and the nanoseconds arrive where the program
    wants them, and nothing else of its memory changes. *)
Lemma time_arrives m sec nsec p q :
  0 <= p -> p + 8 <= USERSPACETOP -> 0 <= q -> q + 4 <= USERSPACETOP -> p + 8 <= q \/ q + 4 <= p ->
  mapped m p (p + 8) -> mapped m q (q + 4) -> 0 <= sec < 2 ^ 63 -> is_u32 nsec ->
  exists m', sys___time m sec nsec p q = (m', 0) /\
    load_word m' p = Some (sec / 2 ^ 32) /\ load_word m' (p + 4) = Some (u32 sec) /\ load_word m' q = Some nsec /\
    forall a, ~ (p <= a < p + 8) -> ~ (q <= a < q + 4) -> m' a = m a.
Proof.
  intros Hp Hp8 Hq Hq4 Hd M1 M2 Hs Hn. unfold sys___time.
  destruct (copyout_ok m p (word_bytes (sec / 2 ^ 32) ++ word_bytes sec)) as (m1 & -> & E1); [done | done | done | done |].
  change (negb (0 =? 0)) with false. cbv iota.
  destruct (copyout_ok m1 q (word_bytes nsec)) as (m2 & -> & E2); [done | done | done | eapply mapped_same; [exact E1 | by apply put_mapped] |].
  exists m2. split; [done |].
  assert (A1 : at_addr m2 p (word_bytes (sec / 2 ^ 32) ++ word_bytes sec)).
  { eapply at_same; [exact E2 |]. apply put_at_other; [eapply at_same; [exact E1 | apply put_at] |]. cbn. unfold zlen. cbn. lia. }
  assert (Hw : word_bytes sec = word_bytes (u32 sec)).
  { unfold word_bytes, u8, u32. change (2 ^ 8) with 256. change (2 ^ 16) with 65536. change (2 ^ 24) with 16777216. change (2 ^ 32) with 4294967296.
    do 4 (apply (f_equal2 cons); [div_lia |]). done. }
  split; [ | split; [ | split]].
  - apply load_word_at; [unfold is_u32; change (2 ^ 63) with (2 ^ 31 * 2 ^ 32) in Hs; change (2 ^ 31) with 2147483648 in Hs; change (2 ^ 32) with 4294967296 in *; div_lia |].
    intros i v Hi. apply A1. by apply lookup_app_l_Some.
  - apply load_word_at; [apply u32_range |]. rewrite <- Hw. intros i v Hi. replace (p + 4 + Z.of_nat i) with (p + Z.of_nat (4 + i)) by lia. by apply A1.
  - apply load_word_at; [done |]. eapply at_same; [exact E2 | apply put_at].
  - intros a H1 H2. rewrite E2. unfold put at 1. rewrite decide_False by (cbn; unfold zlen; cbn; lia). rewrite E1. unfold put.
    by rewrite decide_False by (cbn; unfold zlen; cbn; lia).
Qed.

(** ** The strings *)

(** The room that strings take, with their terminators. *)
Definition room (ls : list (list Z)) : Z := foldr (fun l n => zlen l + 1 + n) 0 ls.

Lemma room_nonneg ls : 0 <= room ls.
Proof. induction ls as [ | l ls IH]; [done |]. change (0 <= zlen l + 1 + room ls). unfold zlen. lia. Qed.

(** Where the strings [ls] are when they are pushed from [sp] on. *)
Fixpoint pointers (sp : Z) (ls : list (list Z)) : list Z :=
  match ls with
  | [] => []
  | l :: ls => sp - (zlen l + 1) :: pointers (sp - (zlen l + 1)) ls
  end.

(** Memory outside two ranges is as before. *)
Definition outside2 (m m' : memory) (a b c d : Z) : Prop := forall x, ~ (a <= x < b) -> ~ (c <= x < d) -> m' x = m x.

Lemma push_args_ok ls : forall m argptr i sp,
  0 <= i -> 0 <= sp - room ls -> sp <= argptr -> argptr + 4 * (i + zlen ls) <= USERSPACETOP ->
  mapped m (sp - room ls) sp -> mapped m (argptr + 4 * i) (argptr + 4 * (i + zlen ls)) ->
  exists m', push_args (Some <$> ls) m argptr i sp = Ok (m', sp - room ls) /\
    outside2 m m' (sp - room ls) sp (argptr + 4 * i) (argptr + 4 * (i + zlen ls)) /\
    (forall lo hi, mapped m lo hi -> mapped m' lo hi) /\
    forall j l p, ls !! j = Some l -> pointers sp ls !! j = Some p ->
      load_word m' (argptr + 4 * (i + Z.of_nat j)) = Some p /\ at_addr m' p (l ++ [0]).
Proof.
  induction ls as [ | l ls IH]; intros m argptr i sp Hi Hr Hsp Htop Hm1 Hm2.
  { exists m. cbn. rewrite Z.sub_0_r. split; [done |]. split; [by intros x _ _ | split; [done | done]]. }
  pose proof (room_nonneg ls) as Hn. change (room (l :: ls)) with (zlen l + 1 + room ls) in *. unfold zlen in Htop, Hm2. cbn [length] in Htop, Hm2.
  assert (Hl : 0 <= zlen l) by (unfold zlen; lia). set (sp1 := sp - (zlen l + 1)).
  cbn [fmap list_fmap push_args access rbind]. fold sp1.
  destruct (store_word_ok m (argptr + 4 * i) sp1) as (m1 & -> & E1); [intros x Hx; apply Hm2; lia |]. cbn [access rbind].
  assert (Hk : zlen (l ++ [0]) = zlen l + 1) by (unfold zlen; rewrite length_app; cbn; lia).
  assert (M1 : forall lo hi, mapped m lo hi -> mapped m1 lo hi) by (intros lo hi Hx; eapply mapped_same; [exact E1 | by apply put_mapped]).
  destruct (copyout_ok m1 sp1 (l ++ [0])) as (m2 & -> & E2); [unfold sp1; lia | unfold sp1; lia | by destruct l | apply M1; intros x Hx; apply Hm1; unfold sp1 in *; lia |].
  cbn [fst]. assert (M2 : forall lo hi, mapped m lo hi -> mapped m2 lo hi).
  { intros lo hi Hx. eapply mapped_same; [exact E2 |]. apply put_mapped. by apply M1. }
  destruct (IH m2 argptr (i + 1) sp1) as (m' & E' & O' & M' & P'); try (unfold sp1; lia).
  - unfold zlen. lia.
  - apply M2. intros x Hx. apply Hm1. unfold sp1 in *. lia.
  - apply M2. intros x Hx. apply Hm2. unfold zlen in Hx. lia.
  - exists m'. rewrite E'. replace (sp - (zlen l + 1 + room ls)) with (sp1 - room ls) by (unfold sp1; lia). split; [done |].
    assert (O2 : forall x, ~ (sp1 <= x < sp) -> ~ (argptr + 4 * i <= x < argptr + 4 * (i + 1)) -> m2 x = m x).
    { intros x H1 H2. rewrite E2. unfold put at 1. rewrite decide_False by (rewrite Hk; unfold sp1 in *; lia). rewrite E1. unfold put.
      rewrite decide_False by (change (zlen (word_bytes sp1)) with 4; lia). done. }
    split; [ | split; [auto |]].
    + intros x H1 H2. unfold zlen in H2. cbn [length] in H2. rewrite O'; [apply O2; unfold sp1 in *; lia | unfold sp1 in *; lia | unfold zlen; lia].
    + intros [ | j] k p Hj Hp; cbn in Hj, Hp.
      * injection Hj as <-. injection Hp as <-. fold sp1. split.
        -- apply load_word_at; [unfold is_u32, USERSPACETOP, MIPS_KSEG0 in *; unfold sp1; lia |]. intros q v Hq. pose proof (lookup_lt_Some _ _ _ Hq) as Hlt. cbn in Hlt.
           rewrite O' by (unfold sp1, zlen in *; lia). rewrite E2. unfold put at 1. rewrite decide_False by (rewrite Hk; unfold sp1; lia).
           rewrite E1. replace (argptr + 4 * (i + Z.of_nat 0)) with (argptr + 4 * i) by lia. by apply put_at.
        -- intros q v Hq. pose proof (lookup_lt_Some _ _ _ Hq) as Hlt. rewrite length_app in Hlt. cbn in Hlt.
           rewrite O' by (unfold sp1, zlen in *; lia). rewrite E2. by apply put_at.
      * fold sp1 in Hp. replace (i + Z.of_nat (S j)) with (i + 1 + Z.of_nat j) by lia. by apply P'.
Qed.

Lemma pointers_bounds ls : forall sp j l p, ls !! j = Some l -> pointers sp ls !! j = Some p -> sp - room ls <= p /\ p + (zlen l + 1) <= sp.
Proof.
  induction ls as [ | k ls IH]; intros sp [ | j] l p; cbn [lookup list_lookup pointers]; try done;
    change (room (k :: ls)) with (zlen k + 1 + room ls); pose proof (room_nonneg ls) as Hn; unfold zlen in *.
  - intros [= ->] [= <-]. lia.
  - intros Hj Hp. specialize (IH _ _ _ _ Hj Hp). lia.
Qed.

Lemma pointers_length sp ls : length (pointers sp ls) = length ls.
Proof. revert sp. induction ls as [ | l ls IH]; intros sp; cbn; [done |]. by rewrite IH. Qed.

(** An argument vector as a program sees it: pointers to strings in user memory,
    and a null pointer behind them. *)
Record args_in (m : memory) (argv : Z) (ls : list (list Z)) : Prop := {
  ai_strings : Forall (Forall (fun ch => ch <> 0)) ls;
  ai_pointers : forall j l, ls !! j = Some l -> exists p, load_word m (argv + 4 * Z.of_nat j) = Some p /\
    0 < p /\ p + (zlen l + 1) <= USERSPACETOP /\ at_addr m p (l ++ [0]);
  ai_end : load_word m (argv + 4 * zlen ls) = Some 0
}.

(** The stack that an argument vector needs. *)
Definition args_room (ls : list (list Z)) : Z := 4 * (zlen ls + 1) + room ls.

Lemma concat_words (l : list Z) : zlen (concat (word_bytes <$> l)) = 4 * zlen l.
Proof. unfold zlen. induction l as [ | w l IH]; [done |]. cbn [fmap list_fmap concat]. rewrite length_app. cbn [length word_bytes]. lia. Qed.

Lemma place_args_ok ls kptrs m sp :
  Forall (Forall (fun ch => ch <> 0)) ls -> zlen kptrs = zlen ls + 1 -> 0 < sp - args_room ls -> sp <= USERSPACETOP ->
  mapped m (sp - args_room ls) sp ->
  exists m' stack, place_args (Some <$> ls) kptrs m sp = Ok (m', sp - 4 * (zlen ls + 1), stack) /\
    args_in m' (sp - 4 * (zlen ls + 1)) ls /\ stack mod 8 = 0 /\ sp - args_room ls - 8 < stack <= sp - args_room ls /\
    forall x, ~ (sp - args_room ls <= x < sp) -> m' x = m x.
Proof.
  intros Hz Hk Hpos Htop Hm. unfold place_args, args_room in *. pose proof (room_nonneg ls) as Hn. assert (0 <= zlen ls) by (unfold zlen; lia).
  assert (El : zlen (Some <$> ls) = zlen ls) by (unfold zlen; by rewrite length_fmap). rewrite El. set (argv := sp - 4 * (zlen ls + 1)) in *.
  set (kb := concat (word_bytes <$> kptrs)). assert (Hkb : zlen kb = 4 * (zlen ls + 1)) by (unfold kb; rewrite concat_words; lia).
  destruct (copyout_ok m argv kb) as (m1 & -> & E1); [unfold argv; lia | unfold argv; lia | intros E0; rewrite E0 in Hkb; unfold zlen in Hkb at 1; cbn in Hkb; lia |
    rewrite Hkb; intros x Hx; apply Hm; unfold argv in *; lia |]. cbn [fst].
  assert (M1 : forall lo hi, mapped m lo hi -> mapped m1 lo hi) by (intros lo hi Hx; eapply mapped_same; [exact E1 | by apply put_mapped]).
  destruct (push_args_ok ls m1 argv 0 argv) as (m2 & -> & O2 & M2 & P2); try (unfold argv; lia).
  { apply M1. intros x Hx. apply Hm. unfold argv in *. lia. }
  { apply M1. intros x Hx. apply Hm. unfold argv in *. lia. }
  cbn [rbind]. destruct (store_word_ok m2 (argv + 4 * zlen ls) 0) as (m3 & -> & E3).
  { apply M2, M1. intros x Hx. apply Hm. unfold argv in *. lia. }
  cbn [access rbind]. exists m3, ((argv - room ls) - (argv - room ls) mod 8). split; [done |].
  assert (O3 : forall x, ~ (argv + 4 * zlen ls <= x < argv + 4 * zlen ls + 4) -> m3 x = m2 x).
  { intros x Hx. rewrite E3. unfold put. by rewrite decide_False by (change (zlen (word_bytes 0)) with 4; lia). }
  pose proof (Z.mod_pos_bound (argv - room ls) 8 ltac:(lia)) as Hmod. split; [split; [done | |] | split; [ | split; [unfold argv in *; lia |]]].
  - intros j l Hj. pose proof (lookup_lt_Some _ _ _ Hj) as Hlt. destruct (lookup_lt_is_Some_2 (pointers argv ls) j) as [p Hp]; [by rewrite pointers_length |].
    destruct (P2 j l p Hj Hp) as [Hw Hs]. destruct (pointers_bounds ls argv j l p Hj Hp) as [B1 B2]. assert (0 <= zlen l) by (unfold zlen; lia). exists p. split; [ | split; [unfold argv in *; lia | split; [unfold argv in *; lia |]]].
    + rewrite <- Hw. unfold load_word. f_equal. rewrite Z.add_0_l. apply read_bytes_ext. intros k Hk4. apply O3. unfold zlen. lia.
    + intros i v Hi. pose proof (lookup_lt_Some _ _ _ Hi) as Hi'. rewrite length_app in Hi'. cbn in Hi'. rewrite O3 by (unfold zlen in *; lia). by apply Hs.
  - apply load_word_at; [unfold is_u32; lia |]. eapply at_same; [exact E3 | apply put_at].
  - by rewrite Zminus_mod_idemp_r, Z.sub_diag.
  - intros x Hx. rewrite O3 by (unfold argv in *; lia). rewrite O2 by (unfold argv in *; lia). rewrite E1. unfold put. by rewrite decide_False by (unfold argv in *; lia).
Qed.

(** ** Reading the arguments *)

Lemma fetch_string_ok l : forall fuel m a, Forall (fun ch => ch <> 0) l -> at_addr m a (l ++ [0]) -> (length l < fuel)%nat -> fetch_string fuel m a = Some (Some l).
Proof.
  induction l as [ | ch l IH]; intros [ | fuel] m a Hz Ha Hf; cbn in Hf; try lia; cbn [fetch_string].
  - pose proof (Ha 0%nat 0 eq_refl) as H0. rewrite Z.add_0_r in H0. by rewrite H0.
  - apply Forall_cons in Hz as [Hch Hz]. pose proof (Ha 0%nat ch eq_refl) as H0. rewrite Z.add_0_r in H0. rewrite H0.
    destruct (Z.eqb_spec ch 0); [done |]. rewrite (IH fuel m (a + 1)); [done | done | | lia].
    intros i v Hi. replace (a + 1 + Z.of_nat i) with (a + Z.of_nat (S i)) by lia. by apply Ha.
Qed.

Lemma copyin_string_ok l m a len :
  Forall (fun ch => ch <> 0) l -> at_addr m a (l ++ [0]) -> 0 < a -> a + (zlen l + 1) <= USERSPACETOP -> zlen l + 1 <= len < 2 ^ 31 ->
  copyin_string m a len = (0, Some l).
Proof.
  intros Hz Ha Hp Ht Hl. assert (0 <= zlen l) by (unfold zlen; lia). unfold copyin_string.
  assert (Hc : exists stop, copycheck a len = (0, stop) /\ zlen l + 1 <= stop).
  { unfold copycheck, USERSPACETOP, MIPS_KSEG0 in *. change (2 ^ 31) with 2147483648 in Hl.
    rewrite (u32_id (a + len)) by (unfold is_u32; change (2 ^ 32) with 4294967296; lia). rewrite u32_id by (unfold is_u32; change (2 ^ 32) with 4294967296; lia).
    destruct (Z.ltb_spec (a + len - 1) a); [lia |]. destruct (Z.leb_spec 0x80000000 a); [lia |].
    destruct (Z.leb_spec 0x80000000 (a + len - 1)); eexists; (split; [done | lia]). }
  destruct Hc as (stop & -> & Hs). change (negb (0 =? 0)) with false. cbv iota. rewrite (fetch_string_ok l); [done | done | done |]. unfold zlen in *. lia.
Qed.

Lemma count_args_ok ls m argv : args_in m argv ls -> forall fuel i, (0 <= i <= length ls)%nat -> (length ls - i < fuel)%nat ->
  count_args fuel m argv (Z.of_nat i) = Ok (zlen ls).
Proof.
  intros [_ Hp He] fuel. induction fuel as [ | fuel IH]; intros i Hi Hf; [lia |]. cbn [count_args].
  destruct (decide (i = length ls)) as [-> | Hne].
  - unfold zlen in He |- *. rewrite He. done.
  - destruct (lookup_lt_is_Some_2 ls i) as [l Hl]; [lia |]. destruct (Hp i l Hl) as (p & -> & Hpos & _). cbn [access rbind].
    destruct (Z.eqb_spec p 0); [lia |]. replace (Z.of_nat i + 1) with (Z.of_nat (S i)) by lia. apply IH; lia.
Qed.

Lemma fetch_args_ok ls fuel m argv : args_in m argv ls -> Forall (fun l => (length l < fuel)%nat) ls ->
  forall k i, (i + k = length ls)%nat -> fetch_args k fuel m argv (Z.of_nat i) = Ok (Some <$> drop i ls).
Proof.
  intros [Hz Hp _] Hf. induction k as [ | k IH]; intros i Hi; cbn [fetch_args].
  - by rewrite drop_ge by lia.
  - destruct (lookup_lt_is_Some_2 ls i) as [l Hl]; [lia |]. destruct (Hp i l Hl) as (p & Ew & Hpos & Ht & Ha). unfold fetch_arg. rewrite Ew. cbn [access rbind].
    rewrite Forall_lookup in Hz, Hf. specialize (Hz i l Hl). specialize (Hf i l Hl). rewrite (fetch_string_ok l) by done. cbn [access rbind].
    rewrite (copyin_string_ok l); [ | done | done | done | done | unfold USERSPACETOP, MIPS_KSEG0 in Ht; unfold zlen in *; change (2 ^ 31) with 2147483648; lia].
    cbn [snd rbind]. replace (Z.of_nat i + 1) with (Z.of_nat (S i)) by lia. rewrite IH by lia. cbn [rbind]. by rewrite (drop_S ls l i Hl).
Qed.

Section Execv.
Context {X : Type} `{ExecEnv X}.

(** The old address space goes, the file is opened, and the new address space is
    made, activated and loaded: everything between the arguments of the old
    program and those of the new one. *)
Definition execv_loads (s : vm) (x : X) (kbuf : Z) (name : list Z) (s' : vm) (x' : X) (entry : Z) : Prop :=
  exists s1 s2 s3 x1 x2 v a,
    match proc_getas s with Some old => as_destroy s old | None => Ok s end = Ok s1 /\
    x_open x name O_RDONLY = (x1, 0, v) /\
    as_create s1 = Ok (s2, Some a) /\ as_activate (with_curas s2 (Some a)) = Ok s3 /\
    load_elf s3 (x_switch x1 a) v kbuf = Ok (s', x2, 0, Some entry) /\ x' = x_close x2 v /\
    proc_getas s' = Some a /\ as_define_stack s' a = Ok (0, USERSTACK).

(** What the old program passes. *)
Record execv_call (m : memory) (fuel : nat) (prog args : Z) (name : list Z) (ls : list (list Z)) : Prop := {
  ec_name : copyin_string m prog PATH_MAX = (0, Some name);
  ec_nonempty : name <> [];
  ec_args : args_in m args ls;
  ec_count : (length ls < fuel)%nat;
  ec_fuel : Forall (fun l => (length l < fuel)%nat) ls
}.

Lemma execv_reads (x : X) fuel prog args name ls (k : Z -> list (option (list Z)) -> res (vm * X * exec_result)) :
  execv_call (x_bytes x) fuel prog args name ls ->
  (let* argc := count_args fuel (x_bytes x) args 0 in
   let* progargs := fetch_args (Z.to_nat argc) fuel (x_bytes x) args 0 in k argc progargs) = k (zlen ls) (Some <$> ls).
Proof.
  intros [_ _ Ha Hc Hf]. change 0 with (Z.of_nat 0) at 1. rewrite (count_args_ok ls _ args Ha fuel 0%nat) by lia. cbn [rbind].
  replace (Z.to_nat (zlen ls)) with (length ls) by (unfold zlen; lia). change 0 with (Z.of_nat 0). by rewrite (fetch_args_ok ls fuel _ args Ha Hf (length ls) 0%nat).
Qed.
End Execv.

Lemma free_kpages_curproc s a s' : free_kpages s a = Ok s' -> curproc s' = curproc s.
Proof.
  unfold free_kpages. intros H. apply rbind_Ok in H as ([] & _ & H). destruct (find_index _ _ _) as [i | ]; [ | by injection H as <-].
  apply rbind_Ok in H as (e & _ & H). apply rbind_Ok in H as (c & _ & H). destruct (ce_as e); [ | by injection H as <-].
  destruct (0 <=? _); [ | by injection H as <-]. unfold vm_tlbshootdown, tlb_write in H. apply rbind_Ok in H as ([hi lo] & _ & H).
  apply rbind_Ok in H as (t & _ & H). by injection H as <-.
Qed.

(** C23: execv hands over the arguments.  If the program can be opened and loaded and
    its stack has the room, the process enters the new program at its entry
    point, with the number of arguments, a stack aligned to 8 bytes below
    everything else, and an argument vector with exactly the strings that the
    old program passed. *)
Theorem execv_arguments {X} `{ExecEnv X} (s : vm) (x : X) fuel kbuf junk kptrs prog args name ls s' x' entry
  (Hcall : execv_call (x_bytes x) fuel prog args name ls) (Hload : execv_loads s x kbuf name s' x' entry)
  (Hk : zlen kptrs = zlen ls + 1) (Hroom : args_room ls < USERSTACK) (Hm : mapped (x_bytes x') (USERSTACK - args_room ls) USERSTACK) :
  exists m argv stack, sys_execv s x fuel kbuf junk kptrs prog args = Ok (s', x_set_bytes x' m, Enters (zlen ls) argv stack entry) /\
    args_in m argv ls /\ stack mod 8 = 0 /\ stack <= USERSTACK - args_room ls /\
    forall a, ~ (USERSTACK - args_room ls <= a < USERSTACK) -> m a = x_bytes x' a.
Proof.
  pose proof Hcall as [Hname Hne Hargs _ _]. destruct Hload as (s1 & s2 & s3 & x1 & x2 & v & a & Hold & Hopen & Hnew & Hact & Hld & -> & Has & Hst).
  unfold sys_execv. rewrite Hname.
  destruct (Z.eqb_spec (zlen name + 1) 1) as [E | _]; [destruct name; [done | unfold zlen in E; cbn in E; lia] |].
  erewrite execv_reads by exact Hcall. rewrite Hold. cbn [rbind]. rewrite Hopen. change (negb (0 =? 0)) with false. cbv iota.
  rewrite Hnew. cbn [rbind]. rewrite Hact. cbn [rbind]. rewrite Hld. cbn [rbind]. rewrite Has. cbn [access rbind]. rewrite Hst. cbn [rbind].
  destruct (place_args_ok ls kptrs (x_bytes (x_close x2 v)) USERSTACK) as (m & stack & -> & Ha & Hal & Hbd & Ho);
    [apply Hargs | done | lia | unfold USERSTACK; lia | done |].
  cbn [rbind default]. exists m, (USERSTACK - 4 * (zlen ls + 1)), stack. split; [done |]. split; [done |]. split; [done |]. split; [lia | done].
Qed.

(** A program that cannot be opened: execv returns the error to a process whose
    address space is gone. *)
Theorem execv_open_fails {X} `{ExecEnv X} (s : vm) (x : X) fuel kbuf junk kptrs prog args name ls a s1 x1 e v
  (Hcall : execv_call (x_bytes x) fuel prog args name ls) (Has : proc_getas s = Some a) (Hd : as_destroy s a = Ok s1)
  (Ho : x_open x name O_RDONLY = (x1, e, v)) (He : e <> 0) :
  sys_execv s x fuel kbuf junk kptrs prog args = Ok (s1, x1, Returns e) /\ proc_getas s1 = Some a /\ get_as s1 a = Fault BadAccess.
Proof.
  pose proof Hcall as [Hname Hne _ _ _]. unfold sys_execv. rewrite Hname.
  destruct (Z.eqb_spec (zlen name + 1) 1) as [E | _]; [destruct name; [done | unfold zlen in E; cbn in E; lia] |].
  erewrite execv_reads by exact Hcall. rewrite Has, Hd. cbn [rbind]. rewrite Ho. destruct (Z.eqb_spec e 0); [done |]. split; [done |].
  unfold as_destroy in Hd. apply rbind_Ok in Hd as ([] & _ & Hd). apply rbind_Ok in Hd as (s2 & Hf & Hd). injection Hd as <-.
  split; [ | unfold get_as; cbn; by rewrite lookup_delete_eq]. rewrite <- Has. unfold proc_getas. cbn. apply kassert_Ok in Hf as [_ Hf].
  by rewrite (free_kpages_curproc _ _ _ Hf).
Qed.

(** * Starting a program from the menu *)

Section Runprogram.
Context {X : Type} `{ExecEnv X}.
Implicit Types r : running X.

Lemma lock_create_live h h' lk : heap_ok h -> lock_create h = Ok (h', lk) -> heap_ok h' /\ live h ⊆ live h'.
Proof.
  intros Hh. unfold lock_create. destruct (object_create_cases h Hh) as [(h1 & -> & L & K) | (h1 & o & n & wc & -> & K & Hc)]; cbn; intros [= <- <-].
  - split; [done | by rewrite L].
  - split; [done |]. destruct Hc as (_ & _ & _ & _ & _ & _ & _ & _ & ->). set_solver.
Qed.

Lemma open_std_spec r fd oflags sname junk r' :
  heap_ok (r_heap r) -> open_std r fd oflags sname junk = Ok r' ->
  exists p d, p ∉ live (r_heap r) /\ p ∈ live (r_heap r') /\ live (r_heap r) ⊆ live (r_heap r') /\ heap_ok (r_heap r') /\
    r_fdescs r' = <[p := d]> (r_fdescs r) /\ flags d = oflags /\ refcount d = 1 /\ zput (r_fdtable r) fd (Some p) = Some (r_fdtable r') /\
    r_procs r' = r_procs r.
Proof.
  intros Hh. unfold open_std. destruct (halloc_cases _ Hh) as [(h1 & -> & _ & _) | (h1 & p & -> & Hp & L1 & K1)];
    destruct (x_open _ _ _) as [[x res] vn]; intros Hr; res_inv; [done |]. destruct x2 as [h2 lk]. res_inv. cbn.
  match goal with E : lock_create _ = _ |- _ => destruct (lock_create_live _ _ _ K1 E) as [K2 L2] end.
  simplify_eq. eexists _, _. split; [exact Hp |]. split; [set_solver |]. split; [set_solver |]. split; [done |]. split; [done |]. split; [done |]. split; [done |]. split; done.
Qed.

(** A descriptor of the thread, opened with these flags and used by one thread. *)
Definition std_fd r (fd oflags : Z) : Prop :=
  exists p d, zget (r_fdtable r) fd = Some (Some p) /\ r_fdescs r !! p = Some d /\ flags d = oflags /\ refcount d = 1.

Lemma open_std_three r n0 n1 n2 j0 j1 j2 r1 r2 r3 :
  heap_ok (r_heap r) -> open_std r 0 O_RDONLY n0 j0 = Ok r1 -> open_std r1 1 O_WRONLY n1 j1 = Ok r2 -> open_std r2 2 O_WRONLY n2 j2 = Ok r3 ->
  std_fd r3 0 O_RDONLY /\ std_fd r3 1 O_WRONLY /\ std_fd r3 2 O_WRONLY /\ r_procs r3 = r_procs r.
Proof.
  intros Hh E1 E2 E3.
  destruct (open_std_spec _ _ _ _ _ _ Hh E1) as (p0 & d0 & N0 & L0 & S0 & K0 & F0 & G0 & C0 & T0 & P0).
  destruct (open_std_spec _ _ _ _ _ _ K0 E2) as (p1 & d1 & N1 & L1 & S1 & K1 & F1 & G1 & C1 & T1 & P1).
  destruct (open_std_spec _ _ _ _ _ _ K1 E3) as (p2 & d2 & N2 & L2 & S2 & K2 & F2 & G2 & C2 & T2 & P2).
  assert (p0 <> p1) by set_solver. assert (p0 <> p2) by set_solver. assert (p1 <> p2) by set_solver.
  split; [ | split; [ | split; [ | congruence]]]; [exists p0, d0 | exists p1, d1 | exists p2, d2];
    rewrite !(zget_zput _ _ _ _ _ T2), ?(zget_zput _ _ _ _ _ T1), ?(zget_zput _ _ _ _ _ T0); cbn [decide];
    (split; [done |]); (split; [ | done]); rewrite F2, F1, F0; by simplify_map_eq.
Qed.
End Runprogram.

(** A program that is started runs with no arguments on an empty stack, with
    the console as descriptors 0 to 2, the semaphores of its process ready and
    proc_Lock free; every error of runprogram leaves proc_Lock held, so that
    no program is started and no process forks ever after. *)
Theorem runprogram_outcome {X} `{ExecEnv X} (r : running X) o kbuf sname junk name r' e
  (Hh : heap_ok (r_heap r)) (Hrun : runprogram r o kbuf sname junk name = Ok (r', e)) :
  match e with
  | Enters argc argv stack _ =>
    argc = 0 /\ argv = 0 /\ stack = USERSTACK /\ proc_Lock (r_procs r') = false /\
    std_fd r' 0 O_RDONLY /\ std_fd r' 1 O_WRONLY /\ std_fd r' 2 O_WRONLY /\
    exists p, objs (r_procs r') !! o = Some p /\ is_Some (p_addrspace p) /\ p_parsem p = 1 /\ p_childsem p = 0 /\ p_children p = []
  | Returns _ =>
    proc_Lock (r_procs r') = true /\ (forall o kbuf sname junk name, runprogram r' o kbuf sname junk name = Fault Hang) /\
    forall q a, fork_proc (r_procs r') q a = Fault Hang
  end.
Proof.
  assert (Hlock : proc_Lock (r_procs r') = true -> (forall o kbuf sname junk name, runprogram r' o kbuf sname junk name = Fault Hang) /\
    forall q a, fork_proc (r_procs r') q a = Fault Hang).
  { intros El. split; intros; [unfold runprogram | unfold fork_proc]; by rewrite El. }
  unfold runprogram in Hrun. destruct (proc_Lock (r_procs r)); [done |]. destruct (x_open _ _ _) as [[x res] v].
  destruct (negb (res =? 0)); [res_inv; by auto |]. res_inv. destruct x0 as [s [a | ]]; [ | res_inv; by auto].
  apply rbind_Ok in H2 as ([ps old] & Hps & H2). apply rbind_Ok in H2 as (s1 & _ & H2). apply rbind_Ok in H2 as ([[[s2 x2] res2] entry] & _ & H2).
  unfold proc_setas, get_proc in Hps. apply rbind_Ok in Hps as (p0 & _ & Hps). injection Hps as <- _.
  destruct (negb (res2 =? 0)); [res_inv; by auto |].
  apply rbind_Ok in H2 as (r1 & E1 & H2). apply rbind_Ok in H2 as (r2 & E2 & H2). apply rbind_Ok in H2 as (r3 & E3 & H2).
  destruct (open_std_three (mkRun s2 x2 _ (r_heap r) _ _) _ _ _ _ _ _ _ _ _ Hh E1 E2 E3) as (D0 & D1 & D2 & Hp). cbn [r_procs] in Hp.
  apply rbind_Ok in H2 as ([res3 stack] & Hst & H2). unfold as_define_stack in Hst. apply rbind_Ok in Hst as (sp & _ & Hst).
  apply kassert_Ok in Hst as [_ Hst]. injection Hst as Er Es. subst res3 stack. change (negb (0 =? 0)) with false in H2. cbv iota in H2.
  apply rbind_Ok in H2 as (ps' & Hs & H2). apply rbind_Ok in H2 as (en & _ & H2). injection H2 as <- <-.
  unfold runprogram_sems, get_proc in Hs. rewrite Hp in Hs. cbn in Hs. rewrite lookup_insert_eq in Hs. cbn in Hs. injection Hs as <-.
  do 3 (split; [done |]). split; [done |]. split; [exact D0 |]. split; [exact D1 |]. split; [exact D2 |].
  eexists. cbn. rewrite lookup_insert_eq. split; [done |]. split; [by eexists |]. done.
Qed.

(** ** A machine with one program *)

(** Memory that is given, or all of user space with zeros; what was loaded into
    it; the bytes of the only file, which is called prog. *)
Inductive toy_base := Given (m : memory) | Fresh.

Record toy := mkToy { toy_start : toy_base; toy_loaded : list (Z * list Z); toy_file : list Z }.

Definition toy_mem (x : toy) : memory :=
  foldr (fun '(a, l) m => put m a l)
    match toy_start x with Given m => m | Fresh => fun a => if decide (0 <= a < USERSTACK) then Some 0 else None end (toy_loaded x).

Definition toy_name : list Z := [112; 114; 111; 103].

(** A file system that reads what is there, into kernel or user memory. *)
Instance toy_env : ExecEnv toy := {|
  x_bytes := toy_mem;
  x_set_bytes x m := mkToy (Given m) [] (toy_file x);
  x_switch x a := mkToy Fresh [] (toy_file x);
  x_open x name _ := if bool_decide (name = toy_name) then (x, 0, 7) else (x, 19, 0);
  x_close x v := x;
  x_read x v u :=
    let b := take (Z.to_nat (uio_resid u)) (drop (Z.to_nat (uio_offset u)) (toy_file x)) in
    let done := mkUio (uio_iov u) (uio_offset u + zlen b) (uio_resid u - zlen b) (uio_segflg u) (uio_dir u) (uio_space u) in
    match uio_segflg u, uio_iov u with
    | UIO_SYSSPACE, _ | _, [] => (x, done, 0, b)
    | _, v :: _ => (mkToy (toy_start x) ((iov_base v, b) :: toy_loaded x) (toy_file x), done, 0, [])
    end
|}.

Definition half (w : Z) : list Z := [u8 (w / 2 ^ 8); u8 w].

Definition toy_phdr (type offset vaddr filesz memsz flags : Z) : list Z :=
  concat (word_bytes <$> [type; offset; vaddr; vaddr; filesz; memsz; flags; 4096]).

(** Code of eight bytes, a note of the linker, data of four. *)
Definition toy_image : list Z :=
  [0x7f; 69; 76; 70; 1; 2; 1] ++ repeat 0 9 ++ half 2 ++ half 8 ++ concat (word_bytes <$> [1; 0x400010; 52; 0; 0]) ++
  concat (half <$> [52; 32; 3; 40; 0; 0]) ++
  toy_phdr PT_LOAD 148 0x400010 8 8 5 ++ toy_phdr PT_MIPS_REGINFO 0 0 0 0 4 ++ toy_phdr PT_LOAD 156 0x10000000 4 100 6 ++
  [0x27; 0xbd; 0xff; 0xe8; 3; 0xe0; 0; 8] ++ [0; 0; 0; 42].

(** The strings in the memory of the old program: a name, ab and c. *)
Definition toy_call (name : list Z) : memory :=
  put (put (put (fun _ => None) 0x1000 (name ++ [0])) 0x2000 (word_bytes 0x3000 ++ word_bytes 0x3003 ++ word_bytes 0))
    0x3000 [97; 98; 0; 99; 0].

Definition toy_vm : vm :=
  mkVm ((fun i => mkEntry None 0xffffffff (0x40000 + 0x1000 * i) FREE) <$> seqZ 0 40) true 40 0 0 ∅ (Some None)
    (repeat (0, 0) 64) (fun _ => 0) (Some (0, false)).

Definition toy_x : toy := mkToy (Given (toy_call toy_name)) [] toy_image.

Lemma toy_execv_call name : copyin_string (toy_call name) 0x1000 PATH_MAX = (0, Some name) -> name <> [] ->
  execv_call (toy_call name) 10 0x1000 0x2000 name [[97; 98]; [99]].
Proof.
  intros Hn Hne. split; [done | done | | cbn; lia | repeat constructor; cbn; lia].
  split; [repeat constructor; lia | | vm_compute; reflexivity].
  intros [ | [ | j]] l; cbn [lookup list_lookup]; [intros [= <-]; exists 0x3000 | intros [= <-]; exists 0x3003 | done];
    (split; [vm_compute; reflexivity | split; [lia | split; [unfold zlen, USERSPACETOP, MIPS_KSEG0; cbn; lia |]]]);
    intros [ | [ | [ | i]]] v; cbn [lookup list_lookup app]; intros [= <-]; reflexivity.
Qed.

(** The memory of the new program when it has been loaded. *)
Definition toy_x' : toy := mkToy Fresh [(0x10000000, [0; 0; 0; 42]); (0x400010, [0x27; 0xbd; 0xff; 0xe8; 3; 0xe0; 0; 8])] toy_image.

Lemma toy_execv_loads : exists s', execv_loads toy_vm toy_x 0x80050000 toy_name s' toy_x' 0x400010.
Proof.
  assert (Hc : match (let* (s, new) := as_create toy_vm in
                      let* s := as_activate (with_curas s new) in
                      let* a := access new in
                      let* (s, x, ret, startptr) := load_elf s (x_switch toy_x a) 7 0x80050000 in
                      let* stack := as_define_stack s a in
                      Ok (x, ret, startptr, stack, bool_decide (proc_getas s = Some a)))
               with Ok r => r = (toy_x', 0, Some 0x400010, (0, USERSTACK), true) | Fault _ => False end) by (vm_compute; reflexivity).
  destruct (as_create toy_vm) as [[s2 new] | ] eqn:Ec; [cbn [rbind] in Hc | done].
  destruct (as_activate _) as [s3 | ] eqn:Ea; [cbn [rbind] in Hc | done]. destruct new as [a | ]; [cbn [access rbind] in Hc | done].
  destruct (load_elf _ _ _ _) as [[[[s4 x4] ret] st] | ] eqn:El; [cbn [rbind] in Hc | done].
  destruct (as_define_stack _ _) as [stk | ] eqn:Es; [cbn [rbind] in Hc | done]. injection Hc as -> -> -> -> Hp. apply bool_decide_eq_true in Hp.
  exists s4, toy_vm, s2, s3, toy_x, toy_x', 7, a. split; [reflexivity |]. split; [reflexivity |]. done.
Qed.

Lemma execv_arguments_witness :
  exists s' m argv stack, sys_execv toy_vm toy_x 10 0x80050000 0 [0x80051000; 0x80051010; 5] 0x1000 0x2000 =
      Ok (s', x_set_bytes toy_x' m, Enters 2 argv stack 0x400010) /\
    args_in m argv [[97; 98]; [99]] /\ stack mod 8 = 0 /\ x_bytes toy_x' 0x400017 = Some 8 /\ x_bytes toy_x' 0x10000003 = Some 42.
Proof.
  destruct toy_execv_loads as [s' Hl]. exists s'.
  destruct (execv_arguments toy_vm toy_x 10 0x80050000 0 [0x80051000; 0x80051010; 5] 0x1000 0x2000 toy_name [[97; 98]; [99]] s' toy_x' 0x400010)
    as (m & argv & stack & E & Ha & Hs & _).
  - apply toy_execv_call; [vm_compute; reflexivity | done].
  - exact Hl.
  - reflexivity.
  - vm_compute. reflexivity.
  - apply put_mapped, put_mapped. intros a Ha. cbn. rewrite decide_True; [by exists 0 |]. change (args_room _) with 17 in Ha. unfold USERSTACK, USERSPACETOP, MIPS_KSEG0 in *. lia.
  - exists m, argv, stack. split; [exact E |]. split; [exact Ha |]. split; [exact Hs |]. split; vm_compute; reflexivity.
Defined.

(** A program that looks for another file than the one there is. *)
Definition toy_other : toy := mkToy (Given (toy_call [113])) [] toy_image.

Lemma execv_open_fails_witness :
  exists s a s1, proc_getas s = Some a /\ is_Some (spaces s !! a) /\
    sys_execv s toy_other 10 0x80050000 0 [0x80051000; 0x80051010; 5] 0x1000 0x2000 = Ok (s1, toy_other, Returns 19) /\
    get_as s1 a = Fault BadAccess.
Proof.
  assert (Hc : match (let* (s, new) := as_create toy_vm in
                      let* a := access new in
                      let* s1 := as_destroy (with_curas s (Some a)) a in Ok (bool_decide (is_Some (spaces s !! a))))
               with Ok b => b = true | Fault _ => False end) by (vm_compute; reflexivity).
  destruct (as_create toy_vm) as [[s [a | ]] | ]; [cbn [access rbind] in Hc | done | done].
  destruct (as_destroy _ a) as [s1 | ] eqn:Ed; [cbn [rbind] in Hc | done]. apply bool_decide_eq_true in Hc.
  exists (with_curas s (Some a)), a, s1. split; [reflexivity |]. split; [exact Hc |].
  destruct (execv_open_fails (with_curas s (Some a)) toy_other 10 0x80050000 0 [0x80051000; 0x80051010; 5] 0x1000 0x2000 [113] [[97; 98]; [99]] a s1 toy_other 19 0)
    as (E & _ & Eg); [ | reflexivity | exact Ed | reflexivity | lia | split; [exact E | exact Eg]].
  apply toy_execv_call; [vm_compute; reflexivity | done].
Defined.

Definition toy_run : running toy :=
  mkRun toy_vm toy_x (mkProcs ∅ {[1 := mkProc 0 None 0 [] 0 0 1 None None]} 2 false) (mkHeap ∅ 1 []) ∅ (repeat None 8).

Lemma res_result {A B} (m : res (A * B)) b : match m with Ok (_, e) => e = b | Fault _ => False end -> exists a, m = Ok (a, b).
Proof. destruct m as [[a e] | ]; [intros ->; by exists a | done]. Qed.

Lemma runprogram_outcome_witness :
  (exists r', runprogram toy_run 1 0x80050000 id id toy_name = Ok (r', Enters 0 0 USERSTACK 0x400010) /\ std_fd r' 2 O_WRONLY) /\
  (exists r', runprogram toy_run 1 0x80050000 id id con = Ok (r', Returns 19) /\ fork_proc (r_procs r') 1 None = Fault Hang).
Proof.
  assert (Hh : heap_ok (r_heap toy_run)) by (intros p Hp; cbn in Hp; set_solver).
  destruct (res_result (runprogram toy_run 1 0x80050000 id id toy_name) (Enters 0 0 USERSTACK 0x400010)) as [r1 E1]; [vm_compute; reflexivity |].
  destruct (res_result (runprogram toy_run 1 0x80050000 id id con) (Returns 19)) as [r2 E2]; [vm_compute; reflexivity |].
  split; [exists r1 | exists r2]; (split; [assumption |]).
  - apply (runprogram_outcome _ _ _ _ _ _ _ _ Hh E1).
  - apply (runprogram_outcome _ _ _ _ _ _ _ _ Hh E2).
Defined.
