(* ===== verification/Syscall.v ===== *)
(** The system call dispatcher: [syscall] and [enter_forked_process] of
    kern/arch/mips/syscall/syscall.c.

    The dispatcher is written against an interface, the class [Handlers]: one
    operation per system call it knows, on a kernel state [K].  The theorems
    about the calling convention hold for every implementation; the instance
    [kernel_handlers] puts in the system calls of the files Files and Process. *)
From S2P Require Import Prelude Coremap Addrspace Copyinout Synch Files Process.

(** The registers of [struct trapframe] the dispatcher reads or writes;
    [others] are the rest. *)
Record trapframe := mkTf {
  tf_v0 : Z;
  tf_a0 : Z;
  tf_a1 : Z;
  tf_a2 : Z;
  tf_a3 : Z;
  tf_epc : Z;
  others : list Z
}.

Definition SYS_fork := 0.
Definition SYS_execv := 2.
Definition SYS__exit := 3.
Definition SYS_waitpid := 4.
Definition SYS_getpid := 5.
Definition SYS_sbrk := 7.
Definition SYS_open := 45.
Definition SYS_close := 49.
Definition SYS_read := 50.
Definition SYS_write := 55.
Definition SYS___time := 113.
Definition SYS_reboot := 119.

(** Each operation gives the error code and, where the call has one, the
    value it stores in [retval]; [h_waitpid] also the exit code it stores.
    [h_exit] does not come back; [h_reboot] and [h_execv] come back only with
    an error, a success of theirs being the end of the call, for which an
    instance gives a fault. *)
Class Handlers (K : Type) := {
  h_reboot : K -> Z -> res (K * Z);
  h_time : K -> Z -> Z -> res (K * Z);
  h_open : K -> Z -> Z -> Z -> res (K * (Z * Z));
  h_read : K -> Z -> Z -> Z -> res (K * (Z * Z));
  h_write : K -> Z -> Z -> Z -> res (K * (Z * Z));
  h_close : K -> Z -> res (K * Z);
  h_getpid : K -> res (K * (Z * Z));
  h_fork : K -> trapframe -> res (K * (Z * Z));
  h_execv : K -> Z -> Z -> res (K * Z);
  h_waitpid : K -> Z -> Z -> res (K * (Z * option Z * Z));
  h_sbrk : K -> Z -> res (K * (Z * Z));
  h_exit : K -> Z -> res K
}.

Section Dispatcher.
Context {K : Type} `{Handlers K}.

(** What the switch leaves: the kernel, [err], [retval] and the [tf_a1] that
    waitpid may have written. *)
Inductive outcome :=
| Returns (k : K) (err retval a1 : Z)
| Exits (k : K).

Definition returns (a1 : Z) (r : res (K * (Z * Z))) : res outcome :=
  let* (k, (err, retval)) := r in Ok (Returns k err retval a1).

(** Calls without a value: [retval] is still 0. *)
Definition no_value (r : res (K * Z)) : res (K * (Z * Z)) :=
  let* (k, err) := r in Ok (k, (err, 0)).

Definition call (k : K) (tf : trapframe) : res outcome :=
  let callno := tf_v0 tf in
  let (a0, a1) := (tf_a0 tf, tf_a1 tf) in
  let a2 := tf_a2 tf in
  let ret := returns a1 in
  if callno =? SYS_reboot then ret (no_value (h_reboot k a0))
  else if callno =? SYS___time then ret (no_value (h_time k a0 a1))
  else if callno =? SYS_open then ret (h_open k a0 a1 a2)
  else if callno =? SYS_read then ret (h_read k (s32 a0) a1 a2)
  else if callno =? SYS_write then ret (h_write k (s32 a0) a1 a2)
  else if callno =? SYS_close then ret (no_value (h_close k (s32 a0)))
  else if callno =? SYS_getpid then ret (h_getpid k)
  else if callno =? SYS_fork then ret (h_fork k tf)
  else if callno =? SYS_execv then ret (no_value (h_execv k a0 a1))
  else if callno =? SYS_waitpid then
    let* (k, (err, code, retval)) := h_waitpid k (s32 a0) (s32 a2) in
    Ok (Returns k err retval (match code with Some c => u32 c | None => a1 end))
  else if callno =? SYS_sbrk then ret (h_sbrk k (s32 a0))
  else if callno =? SYS__exit then let* k := h_exit k (s32 a0) in Ok (Exits k)
  else Ok (Returns k ENOSYS 0 a1).

(** The trapframe the caller goes on with, [None] after an exit.  The
    assertions about spl concern interrupts, which nothing here disables. *)
Definition syscall (k : K) (tf : trapframe) : res (K * option trapframe) :=
  let* o := call k tf in
  match o with
  | Exits k => Ok (k, None)
  | Returns k err retval a1 =>
    let (v0, a3) := if negb (err =? 0) then (u32 err, 1) else (u32 retval, 0) in
    Ok (k, Some (mkTf v0 (tf_a0 tf) a1 (tf_a2 tf) a3 (u32 (tf_epc tf + 4)) (others tf)))
  end.

(** The trapframe a forked child enters user mode with, from the parent's: that
    is copied twice on its way (sys_fork's newtf in the childinfo, and newtf on
    the child's stack), and changed between the two. *)
Definition forked_tf (tf : trapframe) : trapframe :=
  mkTf 0 (tf_a0 tf) (tf_a1 tf) (tf_a2 tf) 0 (u32 (tf_epc tf + 4)) (others tf).

Definition known (callno : Z) : bool :=
  existsb (Z.eqb callno) [SYS_reboot; SYS___time; SYS_open; SYS_read; SYS_write; SYS_close; SYS_getpid;
    SYS_fork; SYS_execv; SYS_waitpid; SYS_sbrk; SYS__exit].

Lemma returns_Ok a1 r o : returns a1 r = Ok o -> exists k err v, r = Ok (k, (err, v)) /\ o = Returns k err v a1.
Proof. unfold returns. destruct r as [[k [err v]] | ]; [ | done]. intros [= <-]. eauto. Qed.

(** Only waitpid touches [tf_a1]. *)
Lemma call_a1 k tf k' err v a1 :
  call k tf = Ok (Returns k' err v a1) -> tf_v0 tf <> SYS_waitpid -> a1 = tf_a1 tf.
Proof.
  intros Hc Hn. unfold call in Hc.
  repeat (destruct (tf_v0 tf =? _) eqn:E in Hc; [try (apply returns_Ok in Hc as (? & ? & ? & _ & [= <- <- <- <-]); done) | clear E]).
  - by apply Z.eqb_eq in E.
  - by destruct (h_exit k (s32 (tf_a0 tf))).
  - by injection Hc.
Qed.

Lemma call_unknown k tf : known (tf_v0 tf) = false -> call k tf = Ok (Returns k ENOSYS 0 (tf_a1 tf)).
Proof.
  unfold known, call. cbn [existsb]. intros Hk.
  repeat (apply orb_false_iff in Hk as [-> Hk]). done.
Qed.

(** C25: the calling convention of every system call, whatever the handlers do:
    a call that returns goes on behind the syscall instruction with [a3]
    telling errors from results and [v0] holding the error code or the result,
    and with every register but [v0], [a1] and [a3] unchanged, [a1] too unless
    the call is waitpid; an unknown call number changes no kernel state and
    gives ENOSYS; only an exit does not return. *)
Theorem syscall_convention k tf k' o :
  syscall k tf = Ok (k', o) ->
  (known (tf_v0 tf) = false -> k' = k /\ exists tf', o = Some tf' /\ tf_v0 tf' = ENOSYS /\ tf_a3 tf' = 1) /\
  match o with
  | None => tf_v0 tf = SYS__exit /\ h_exit k (s32 (tf_a0 tf)) = Ok k'
  | Some tf' =>
    exists err retval a1, call k tf = Ok (Returns k' err retval a1) /\
      (tf_a3 tf' = 1 /\ err <> 0 /\ tf_v0 tf' = u32 err \/ tf_a3 tf' = 0 /\ err = 0 /\ tf_v0 tf' = u32 retval) /\
      tf_epc tf' = u32 (tf_epc tf + 4) /\ tf_a0 tf' = tf_a0 tf /\ tf_a2 tf' = tf_a2 tf /\ others tf' = others tf /\
      (tf_v0 tf <> SYS_waitpid -> tf_a1 tf' = tf_a1 tf)
  end.
Proof.
  intros Hs. unfold syscall in Hs. split.
  { intros Hk. rewrite call_unknown in Hs by done. injection Hs as <- <-. split; [done |]. by eexists. }
  apply rbind_Ok in Hs as (oc & Hc & Hs). destruct oc as [k1 err v a1 | k1].
  - destruct (negb (err =? 0)) eqn:E in Hs; injection Hs as <- <-; exists err, v, a1; split; try done; cbn;
      bool_inv; repeat split; auto; by apply (call_a1 k tf k1 err v).
  - injection Hs as <- <-. unfold call in Hc.
    repeat (destruct (tf_v0 tf =? _) eqn:E in Hc; [try (apply returns_Ok in Hc as (? & ? & ? & _ & Hc); done) | clear E]).
    + by destruct (h_waitpid k (s32 (tf_a0 tf)) (s32 (tf_a2 tf))) as [[? [[? ?] ?]] | ].
    + apply Z.eqb_eq in E. split; [done |]. destruct (h_exit k (s32 (tf_a0 tf))); cbn in Hc; congruence.
    + done.
Qed.
End Dispatcher.
Arguments outcome K : clear implicits.

(** ** The kernel's own handlers *)

(** The state the system calls work on, and whose call it is: the current
    process and the thread with its processor. *)
Record kernel {F : Type} := mkKernel {
  k_procs : procs;
  k_vm : vm;
  k_files : files F;
  k_proc : Z;
  k_ctx : ctx
}.
Arguments kernel F : clear implicits.

Section Kernel.
Context {F : Type} `{Vfs F}.
(** Calls of other parts of the kernel, and what the uninitialised [uio_iov]
    of sys_read happens to be. *)
Context (reboot : kernel F -> Z -> res (kernel F * Z)) (time execv : kernel F -> Z -> Z -> res (kernel F * Z)).
Context (iov : bool).

Definition on_files (k : kernel F) (f : files F) : kernel F := mkKernel F (k_procs k) (k_vm k) f (k_proc k) (k_ctx k).
Definition on_procs (k : kernel F) (s : procs) : kernel F := mkKernel F s (k_vm k) (k_files k) (k_proc k) (k_ctx k).
Definition on_vm (k : kernel F) (v : vm) : kernel F := mkKernel F (k_procs k) v (k_files k) (k_proc k) (k_ctx k).

(** [curproc->p_addrspace] *)
Definition cur_as (k : kernel F) : res (option Z) := let* p := get_proc (k_procs k) (k_proc k) in Ok (p_addrspace p).

#[global] Instance kernel_handlers : Handlers (kernel F) := {
  h_reboot := reboot;
  h_time := time;
  h_execv := execv;
  h_open k name fl mode :=
    let* (f, r) := sys_open (k_files k) (k_ctx k) name fl mode in Ok (on_files k f, r);
  h_read k fd buf size :=
    let* a := cur_as k in let* (f, r) := sys_read (k_files k) (k_ctx k) iov a fd buf size in Ok (on_files k f, r);
  h_write k fd buf size :=
    let* a := cur_as k in let* (f, r) := sys_write (k_files k) (k_ctx k) a fd buf size in Ok (on_files k f, r);
  h_close k fd := let* (f, err) := sys_close (k_files k) (k_ctx k) fd in Ok (on_files k f, err);
  h_getpid k := let* r := sys_getpid (k_procs k) (k_proc k) in Ok (k, r);
  h_fork k _ :=
    let* (s, v, r) := sys_fork (k_procs k) (k_vm k) (k_proc k) in Ok (on_vm (on_procs k s) v, r);
  h_waitpid k pid _ := let* (s, r) := sys_waitpid (k_procs k) pid in Ok (on_procs k s, r);
  h_sbrk k inc :=
    let* a := cur_as k in let* a := access a in
    let* (v, r) := sys_sbrk (k_vm k) a inc in Ok (on_vm k v, r);
  h_exit k code :=
    let* (s, v) := sys__exit (k_procs k) (k_vm k) (k_proc k) code in Ok (on_vm (on_procs k s) v)
}.

(** The child of a fork when its thread [t] first runs. *)
Definition enter_forked_process (k : kernel F) (t : Z) (tf : trapframe) : res (kernel F * trapframe) :=
  let* f := copy_fdtable (k_files k) (self (k_ctx k)) t in Ok (on_files k f, forked_tf tf).

Lemma sys_fork_Ok s v cur s' v' i :
  sys_fork s v cur = Ok (s', v', (0, i)) -> exists newas, fork_proc s cur newas = Ok (s', (0, i)).
Proof.
  unfold sys_fork. destruct (proc_Lock s); [done |].
  destruct (get_proc s cur) as [c | ]; [cbn | done]. destruct (access (p_addrspace c)) as [old | ]; [cbn | done].
  destruct (as_copy v old) as [[[v1 e] newas] | ]; [cbn | done].
  destruct (fork_proc s cur newas) as [[s1 r] | ] eqn:E; [cbn | done]. intros [= -> -> ->]. eauto.
Qed.

(** C24: fork returns twice at the same instruction: the parent goes on with the
    id of the child, a positive number that was free before and now names a
    new process, the child with 0, and with the same value in every register
    but [v0]. *)
Theorem fork_returns_twice k tf k' tf' :
  rtc proc_step boot_procs (k_procs k) -> tf_v0 tf = SYS_fork -> syscall k tf = Ok (k', Some tf') -> tf_a3 tf' = 0 ->
  0 < tf_v0 tf' < PID_MAX /\ proc_Array (k_procs k) !! tf_v0 tf' = None /\
  (exists o c, proc_Array (k_procs k') !! tf_v0 tf' = Some o /\ objs (k_procs k') !! o = Some c /\
     objs (k_procs k) !! o = None /\ p_exitcode c = None) /\
  tf_v0 (forked_tf tf) = 0 /\
  mkTf 0 (tf_a0 tf') (tf_a1 tf') (tf_a2 tf') (tf_a3 tf') (tf_epc tf') (others tf') = forked_tf tf.
Proof.
  intros Inv%procs_reachable_inv Hno Hs Ha. unfold syscall, call in Hs. rewrite Hno in Hs. cbn in Hs.
  destruct (sys_fork (k_procs k) (k_vm k) (k_proc k)) as [[[s v] [err i]] | ] eqn:E; [cbn in Hs | done].
  destruct (Z.eqb_spec err 0) as [-> | Hne]; cbn in Hs; injection Hs as <- <-; [ | done].
  destruct (sys_fork_Ok _ _ _ _ _ _ E) as [newas Hf].
  destruct (fork_proc_eq _ _ _ _ _ Inv Hf) as (c & Hc & Hi & Hlt & Hfit & ->).
  destruct (find_pid_spec (proc_Array (k_procs k))) as (Hr & Hnone & _). rewrite <- Hi in *.
  cbn. unfold PID_MAX in *. rewrite u32_id by (unfold is_u32; lia). split; [lia |]. split; [auto |]. split; [ | done].
  exists (next_obj (k_procs k)), (child_of c i newas). rewrite !lookup_insert_eq.
  split; [done |]. split; [done |]. split; [ | done]. by apply forked_fresh.
Qed.
End Kernel.

(** ** A kernel that has just started a program *)

Definition no_call {A : Type} (k : kernel Z) (_ : A) : res (kernel Z * Z) := Ok (k, ENOSYS).

#[global] Instance demo_handlers : Handlers (kernel Z) :=
  kernel_handlers no_call (fun k _ => no_call k) (fun k _ => no_call k) false.

Definition demo_procs : procs :=
  match start_program boot_procs 0 0 (Some demo_as) with Ok (s, _) => s | Fault _ => boot_procs end.

Definition demo_kernel : kernel Z :=
  mkKernel Z demo_procs demo7 (mkFiles 0 (mkHeap ∅ 0 []) ∅ {[7 := repeat None 128]}) 1 (mkCtx 7 0 false).

Definition call_tf (no : Z) : trapframe := mkTf no 1 2 3 4 0x400100 [].

Definition frame {K} (r : res (K * option trapframe)) : option trapframe :=
  match r with Ok (_, o) => o | Fault _ => None end.

Lemma frame_Some {K} (r : res (K * option trapframe)) tf : frame r = Some tf -> exists k, r = Ok (k, Some tf).
Proof. destruct r as [[k o] | ]; cbn; [intros ->; eauto | done]. Qed.

Lemma syscall_convention_witness :
  exists k', syscall demo_kernel (call_tf 99) = Ok (k', Some (mkTf ENOSYS 1 2 3 1 0x400104 [])) /\ k' = demo_kernel.
Proof.
  destruct (frame_Some (syscall demo_kernel (call_tf 99)) (mkTf ENOSYS 1 2 3 1 0x400104 [])) as [k' E]; [reflexivity |].
  exists k'. split; [exact E |]. exact (proj1 (proj1 (syscall_convention _ _ _ _ E) eq_refl)).
Defined.

Lemma fork_returns_twice_witness :
  exists k' tf', syscall demo_kernel (call_tf SYS_fork) = Ok (k', Some tf') /\ 0 < tf_v0 tf' < PID_MAX.
Proof.
  destruct (frame_Some (syscall demo_kernel (call_tf SYS_fork)) (mkTf 1 1 2 3 0 0x400104 [])) as [k' E].
  { vm_compute. reflexivity. }
  exists k', (mkTf 1 1 2 3 0 0x400104 []). split; [exact E |].
  refine (proj1 (fork_returns_twice _ _ _ _ demo_kernel (call_tf SYS_fork) k' _ _ eq_refl E eq_refl)).
  apply rtc_once. apply (StepRun _ _ 0 (Some demo_as) (Some 1)). reflexivity.
Defined.
