(* ===== verification/Malloc.v ===== *)
(** malloc and free for user programs (userland/lib/libc/stdlib/malloc.c), over
    an interface for the system call sbrk.

    The heap of a program is a run of blocks, each with a header of eight bytes
    in front of it: two words, as the compiler lays out the bit fields on this
    machine, from the most significant bit down.  Memory is a function from
    addresses to words; touching a word that is not below the break is a
    fault.  errx ends the program. *)
From S2P Require Import Prelude.

(** The system call, with the state the kernel keeps for it: [sbrk s inc] is
    the new state and the old break, or nothing for -1.  The program may touch
    what is between [brk_base] and [brk_top]. *)
Class Sbrk (K : Type) := {
  sbrk : K -> Z -> K * option Z;
  brk_base : K -> Z;
  brk_top : K -> Z
}.

(** Programs live below this address. *)
Definition USERSPACETOP := 2 ^ 31.

(** What sbrk promises: the break moves by what was asked for and its old place
    is returned, or it stays. *)
Class SbrkLaws (K : Type) `{Sbrk K} := {
  sbrk_law : forall k inc, 0 <= inc < 2 ^ 31 -> 0 < brk_base k <= brk_top k -> brk_top k <= USERSPACETOP ->
    let (k', x) := sbrk k inc in
    brk_base k' = brk_base k /\
    match x with
    | Some x => x = brk_top k /\ brk_top k' = brk_top k + inc /\ brk_top k' <= USERSPACETOP
    | None => brk_top k' = brk_top k
    end;
  sbrk_zero : forall k, 0 < brk_base k <= brk_top k -> brk_top k <= USERSPACETOP -> (sbrk k 0).2 <> None
}.

Definition MBLOCKSIZE := 8.
Definition MBLOCKSHIFT := 3.
Definition MMAGIC := 2.
Definition PAGE_SIZE := 4096.

Section Malloc.
Context {K : Type} `{Sbrk K}.

(** The static variables of malloc.c, the memory, and the kernel. *)
Record heap := mkUheap {
  heapbase : Z;
  heaptop : Z;
  cells : Z -> Z;
  kern : K
}.

(** A call returns or ends the program. *)
Inductive fate (A : Type) :=
| Ret (a : A) (h : heap)
| Exits (code : Z).
Arguments Ret {A} a h.
Arguments Exits {A} code.

Definition M (A : Type) : Type := heap -> res (fate A).

Definition ret {A} (a : A) : M A := fun h => Ok (Ret a h).
Definition bind {A B} (m : M A) (f : A -> M B) : M B :=
  fun h => let* r := m h in match r with Ret a h => f a h | Exits c => Ok (Exits c) end.
Definition errx {A} (code : Z) : M A := fun _ => Ok (Exits code).

Notation "'let!' x := m 'in' k" := (bind m (fun x => k)) (at level 10, x pattern, m at level 100, k at level 200).
Notation "m ;; k" := (bind m (fun _ => k)) (at level 100, right associativity).

(** ** Memory *)

Definition reachable (k : K) (a : Z) : bool := (a mod 4 =? 0) && (brk_base k <=? a) && (a + 4 <=? brk_top k).

Definition poke (f : Z -> Z) (a v : Z) : Z -> Z := fun x => if x =? a then v else f x.

Definition load (a : Z) : M Z := fun h => if reachable (kern h) a then Ok (Ret (cells h a) h) else Fault BadAccess.
Definition store (a v : Z) : M unit := fun h => if reachable (kern h) a then Ok (Ret tt (mkUheap (heapbase h) (heaptop h) (poke (cells h) a v) (kern h))) else Fault BadAccess.

Definition get_base : M Z := fun h => Ok (Ret (heapbase h) h).
Definition get_top : M Z := fun h => Ok (Ret (heaptop h) h).
Definition set_heap (base top : Z) : M unit := fun h => Ok (Ret tt (mkUheap base top (cells h) (kern h))).
Definition call_sbrk (inc : Z) : M (option Z) := fun h => let (k, x) := sbrk (kern h) inc in Ok (Ret x (mkUheap (heapbase h) (heaptop h) (cells h) k)).

(** ** struct mheader *)

Definition mh_prevblock (mh : Z) : M Z := let! w := load mh in ret (w / 8).
Definition mh_magic1 (mh : Z) : M Z := let! w := load mh in ret (w mod 4).
Definition mh_nextblock (mh : Z) : M Z := let! w := load (mh + 4) in ret (w / 8).
Definition mh_inuse (mh : Z) : M bool := let! w := load (mh + 4) in ret (Z.testbit w 2).
Definition mh_magic2 (mh : Z) : M Z := let! w := load (mh + 4) in ret (w mod 4).

Definition set_prevblock (mh n : Z) : M unit := let! w := load mh in store mh (n mod 2 ^ 29 * 8 + w mod 8).
Definition set_pad (mh n : Z) : M unit := let! w := load mh in store mh (w / 8 * 8 + n mod 2 * 4 + w mod 4).
Definition set_magic1 (mh n : Z) : M unit := let! w := load mh in store mh (w / 4 * 4 + n mod 4).
Definition set_nextblock (mh n : Z) : M unit := let! w := load (mh + 4) in store (mh + 4) (n mod 2 ^ 29 * 8 + w mod 8).
Definition set_inuse (mh n : Z) : M unit := let! w := load (mh + 4) in store (mh + 4) (w / 8 * 8 + n mod 2 * 4 + w mod 4).
Definition set_magic2 (mh n : Z) : M unit := let! w := load (mh + 4) in store (mh + 4) (w / 4 * 4 + n mod 4).

Definition M_NEXTOFF (mh : Z) : M Z := let! n := mh_nextblock mh in ret (u32 (Z.shiftl n MBLOCKSHIFT)).
Definition M_PREVOFF (mh : Z) : M Z := let! n := mh_prevblock mh in ret (u32 (Z.shiftl n MBLOCKSHIFT)).
Definition M_NEXT (mh : Z) : M Z := let! n := M_NEXTOFF mh in ret (u32 (mh + n)).
Definition M_PREV (mh : Z) : M Z := let! n := M_PREVOFF mh in ret (u32 (mh - n)).
Definition M_DATA (mh : Z) : Z := u32 (mh + MBLOCKSIZE).
Definition M_SIZE (mh : Z) : M Z := let! n := M_NEXTOFF mh in ret (u32 (n - MBLOCKSIZE)).
Definition M_OK (mh : Z) : M bool := let! m1 := mh_magic1 mh in if m1 =? MMAGIC then let! m2 := mh_magic2 mh in ret (m2 =? MMAGIC) else ret false.
Definition M_MKFIELD (off : Z) : Z := Z.shiftr off MBLOCKSHIFT.

(** ** Growing the heap *)

Definition malloc_init : M unit :=
  let! base := get_base in
  let! top := get_top in
  if negb (base =? 0) || negb (top =? 0) then errx 1
  else
  let! x := call_sbrk 0 in
  match x with
  | None => errx 1
  | Some x =>
    if x =? 0 then errx 1
    else
    set_heap x x;;
    if negb (x mod MBLOCKSIZE =? 0) then
      let adjust := MBLOCKSIZE - x mod MBLOCKSIZE in
      let! y := call_sbrk adjust in
      match y with
      | None => errx 1
      | Some y => if negb (y =? x) then errx 1 else set_heap (u32 (x + adjust)) (u32 (x + adjust))
      end
    else ret tt
  end.

(** [None] for NULL. *)
Definition malloc_sbrk (size : Z) : M (option Z) :=
  let! x := call_sbrk size in
  match x with
  | None => ret None
  | Some x =>
    let! base := get_base in
    let! top := get_top in
    if negb (x =? top) then errx 1
    else set_heap base (u32 (top + size));; ret (Some x)
  end.

(** ** malloc *)

Definition malloc_split (mh size : Z) : M unit :=
  if negb (size mod MBLOCKSIZE =? 0) then errx 1
  else
  let! oldsize := M_SIZE mh in
  if u32 (oldsize - size) <? 2 * MBLOCKSIZE then ret tt
  else
  let! mhnext := M_NEXT mh in
  set_nextblock mh (M_MKFIELD (u32 (size + MBLOCKSIZE)));;
  let! mhnew := M_NEXT mh in
  if mhnew =? mhnext then errx 1
  else
  set_prevblock mhnew (M_MKFIELD (u32 (size + MBLOCKSIZE)));;
  set_pad mhnew 0;;
  set_magic1 mhnew MMAGIC;;
  set_nextblock mhnew (M_MKFIELD (u32 (oldsize - size)));;
  set_inuse mhnew 0;;
  set_magic2 mhnew MMAGIC;;
  let! top := get_top in
  if negb (mhnext =? top) then let! n := mh_nextblock mhnew in set_prevblock mhnext n else ret tt.

(** The search: a block is found and taken, or [i], [mh] and [rightprevblock]
    are as the loop leaves them. *)
Fixpoint malloc_loop (fuel : nat) (size i mh rightprevblock : Z) : M (Z + Z * Z * Z) :=
  let! top := get_top in
  if i <? top then
    match fuel with
    | O => fun _ => Fault OutOfFuel
    | S fuel =>
      let mh := i in
      let! ok := M_OK mh in
      if negb ok then errx 1
      else
      let! prev := mh_prevblock mh in
      if negb (prev =? rightprevblock) then errx 1
      else
      let! rightprevblock := mh_nextblock mh in
      let! inuse := mh_inuse mh in
      let! msize := M_SIZE mh in
      if inuse || (msize <? size) then
        let! off := M_NEXTOFF mh in
        malloc_loop fuel size (u32 (i + off)) mh rightprevblock
      else
        malloc_split mh size;;
        set_inuse mh 1;;
        ret (inl (M_DATA mh))
    end
  else ret (inr (i, mh, rightprevblock)).

(** The top block, when there is one and it is free, is extended; otherwise a
    new one is made.  0 is NULL. *)
Definition malloc_grow (size mh rightprevblock : Z) : M Z :=
  let! extend := (if negb (mh =? 0) then let! u := mh_inuse mh in ret (negb u) else ret false) in
  let! morespace := (if extend : bool then
      let! msize := M_SIZE mh in
      if msize <? size then ret (u32 (size - msize)) else fun _ => Fault Assertion
    else ret (u32 (MBLOCKSIZE + size))) in
  let morespace := u32 (PAGE_SIZE * (u32 (morespace + PAGE_SIZE - 1) / PAGE_SIZE)) in
  let! p := malloc_sbrk morespace in
  match p with
  | None => ret 0
  | Some p =>
    let! mh :=
      if extend : bool then
        let! off := M_NEXTOFF mh in
        set_nextblock mh (M_MKFIELD (u32 (off + morespace)));;
        set_inuse mh 1;;
        ret mh
      else
        set_prevblock p rightprevblock;;
        set_magic1 p MMAGIC;;
        set_magic2 p MMAGIC;;
        set_pad p 0;;
        set_inuse p 1;;
        set_nextblock p (M_MKFIELD morespace);;
        ret p in
    malloc_split mh size;;
    ret (M_DATA mh)
  end.

Definition loop_fuel (base top : Z) : nat := Z.to_nat ((top - base) / MBLOCKSIZE).

Definition malloc (size : Z) : M Z :=
  let! base := get_base in
  (if base =? 0 then malloc_init else ret tt);;
  let! base := get_base in
  let! top := get_top in
  if (base =? 0) || (top =? 0) || (top <? base) then errx 1
  else
  let size := Z.ldiff (u32 (size + MBLOCKSIZE - 1)) (MBLOCKSIZE - 1) in
  let! r := malloc_loop (loop_fuel base top) size base 0 0 in
  match r with
  | inl p => ret p
  | inr (i, mh, rightprevblock) => if negb (i =? top) then errx 1 else malloc_grow size mh rightprevblock
  end.

(** ** free *)

Fixpoint deadbeef_loop (n : nat) (a : Z) : M unit :=
  match n with
  | O => ret tt
  | S n => store a 3735928559;; deadbeef_loop n (u32 (a + 4))
  end.

Definition malloc_deadbeef (ptr size : Z) : M unit := deadbeef_loop (Z.to_nat (size / 4)) ptr.

Definition malloc_trymerge (mh mhnext : Z) : M unit :=
  let! n := mh_nextblock mh in
  let! p := mh_prevblock mhnext in
  if negb (n =? p) then errx 1
  else
  let! u := mh_inuse mh in
  let! un := (if u then ret true else mh_inuse mhnext) in
  if un : bool then ret tt
  else
  let! mhnextnext := M_NEXT mhnext in
  let! size := M_SIZE mh in
  let! nsize := M_SIZE mhnext in
  set_nextblock mh (M_MKFIELD (u32 (MBLOCKSIZE + size + MBLOCKSIZE + nsize)));;
  let! top := get_top in
  (if negb (mhnextnext =? top) then let! n := mh_nextblock mh in set_prevblock mhnextnext n else ret tt);;
  malloc_deadbeef mhnext MBLOCKSIZE.

Definition free (x : Z) : M unit :=
  if x =? 0 then ret tt
  else
  let! base := get_base in
  let! top := get_top in
  if (base =? 0) || (top =? 0) || (top <? base) then errx 1
  else if (x <? base) || (top <=? x) then errx 1
  else
  let mh := u32 (x - MBLOCKSIZE) in
  let! ok := M_OK mh in
  if negb ok then errx 1
  else
  let! u := mh_inuse mh in
  if negb u then errx 1
  else
  set_inuse mh 0;;
  let! size := M_SIZE mh in
  malloc_deadbeef (M_DATA mh) size;;
  let! mhnext := M_NEXT mh in
  (if negb (mhnext =? top) then malloc_trymerge mh mhnext else ret tt);;
  if negb (mh =? base) then
    let! mhprev := M_PREV mh in
    malloc_trymerge mhprev mh
  else ret tt.

(** * The heap as a list of blocks *)

Lemma bind_ret {A B} (m : M A) (f : A -> M B) h a h' : m h = Ok (Ret a h') -> bind m f h = f a h'.
Proof. intros E. unfold bind. by rewrite E. Qed.

Lemma bind_exits {A B} (m : M A) (f : A -> M B) h c : m h = Ok (Exits c) -> bind m f h = Ok (Exits c).
Proof. intros E. unfold bind. by rewrite E. Qed.

Definition upd (h : heap) (c : Z -> Z) : heap := mkUheap (heapbase h) (heaptop h) c (kern h).

Lemma load_ok h a : reachable (kern h) a = true -> load a h = Ok (Ret (cells h a) h).
Proof. intros E. unfold load. by rewrite E. Qed.

Lemma store_reached h a v : reachable (kern h) a = true -> store a v h = Ok (Ret tt (upd h (poke (cells h) a v))).
Proof. intros E. unfold store. by rewrite E. Qed.

Lemma poke_eq c a v : poke c a v a = v.
Proof. unfold poke. by rewrite Z.eqb_refl. Qed.

Lemma poke_ne c a v x : x <> a -> poke c a v x = c x.
Proof. intros Hx. unfold poke. destruct (Z.eqb_spec x a); done. Qed.

Definition bit (u : bool) : Z := if u then 1 else 0.

(** A header: the blocks below and this one, in units of the header size. *)
Record hdr (h : heap) (a p k : Z) (u : bool) : Prop := {
  hd_reach : reachable (kern h) a = true /\ reachable (kern h) (a + 4) = true;
  hd_lo : cells h a = p * 8 + 2;
  hd_hi : cells h (a + 4) = k * 8 + bit u * 4 + 2;
  hd_range : 0 <= p < 2 ^ 28 /\ 1 <= k < 2 ^ 28 /\ 0 < a < 2 ^ 31
}.

Lemma testbit2 w : Z.testbit w 2 = ((w / 4) mod 2 =? 1).
Proof. rewrite Z.testbit_eqb by lia. done. Qed.

Section Header.
Context (h : heap) (a p k : Z) (u : bool) (HH : hdr h a p k u).

Lemma prevblock_ok : mh_prevblock a h = Ok (Ret p h).
Proof using HH. destruct HH as [[R1 R2] E1 E2 _]. unfold mh_prevblock. erewrite bind_ret by by apply load_ok. rewrite E1. unfold ret. do 2 f_equal. div_lia. Qed.

Lemma nextblock_ok : mh_nextblock a h = Ok (Ret k h).
Proof using HH. destruct HH as [[R1 R2] E1 E2 _]. unfold mh_nextblock. erewrite bind_ret by by apply load_ok. rewrite E2. unfold ret. do 2 f_equal. destruct u; cbn; div_lia. Qed.

Lemma inuse_ok : mh_inuse a h = Ok (Ret u h).
Proof using HH.
  destruct HH as [[R1 R2] E1 E2 _]. unfold mh_inuse. erewrite bind_ret by by apply load_ok. rewrite E2, testbit2. unfold ret. do 2 f_equal.
  destruct u; cbn [bit]; [apply Z.eqb_eq | apply Z.eqb_neq]; div_lia.
Qed.

Lemma m_ok : M_OK a h = Ok (Ret true h).
Proof using HH.
  destruct HH as [[R1 R2] E1 E2 _]. unfold M_OK, mh_magic1, mh_magic2, bind. rewrite (load_ok _ _ R1). cbn [rbind ret]. rewrite E1.
  replace ((p * 8 + 2) mod 4) with 2 by div_lia. cbn [Z.eqb Pos.eqb MMAGIC]. rewrite (load_ok _ _ R2). cbn [rbind ret]. rewrite E2.
  replace ((k * 8 + bit u * 4 + 2) mod 4) with 2 by div_lia. done.
Qed.

Lemma nextoff_ok : M_NEXTOFF a h = Ok (Ret (8 * k) h).
Proof using HH.
  unfold M_NEXTOFF. rewrite (bind_ret _ _ _ _ _ nextblock_ok). unfold ret, MBLOCKSHIFT. rewrite Z.shiftl_mul_pow2 by lia. destruct HH as [_ _ _ Hr].
  rewrite u32_id by (unfold is_u32; lia). do 2 f_equal. lia.
Qed.

Lemma prevoff_ok : M_PREVOFF a h = Ok (Ret (8 * p) h).
Proof using HH.
  unfold M_PREVOFF. rewrite (bind_ret _ _ _ _ _ prevblock_ok). unfold ret, MBLOCKSHIFT. rewrite Z.shiftl_mul_pow2 by lia. destruct HH as [_ _ _ Hr].
  rewrite u32_id by (unfold is_u32; lia). do 2 f_equal. lia.
Qed.

Lemma next_ok : M_NEXT a h = Ok (Ret (a + 8 * k) h).
Proof using HH. unfold M_NEXT. rewrite (bind_ret _ _ _ _ _ nextoff_ok). unfold ret. destruct HH as [_ _ _ Hr]. rewrite u32_id by (unfold is_u32; lia). done. Qed.

Lemma size_ok : M_SIZE a h = Ok (Ret (8 * (k - 1)) h).
Proof using HH.
  unfold M_SIZE. rewrite (bind_ret _ _ _ _ _ nextoff_ok). unfold ret, MBLOCKSIZE. destruct HH as [_ _ _ Hr]. rewrite u32_id by (unfold is_u32; lia). do 2 f_equal. lia.
Qed.

Lemma set_nextblock_ok n : 0 <= n < 2 ^ 29 -> set_nextblock a n h = Ok (Ret tt (upd h (poke (cells h) (a + 4) (n * 8 + bit u * 4 + 2)))).
Proof using HH.
  intros Hn. destruct HH as [[R1 R2] E1 E2 _]. unfold set_nextblock. erewrite bind_ret by by apply load_ok. rewrite (store_reached _ _ _ R2), E2, (Z.mod_small n) by lia.
  replace ((k * 8 + bit u * 4 + 2) mod 8) with (bit u * 4 + 2) by (destruct u; cbn; div_lia). by rewrite Z.add_assoc.
Qed.

Lemma set_prevblock_ok n : 0 <= n < 2 ^ 29 -> set_prevblock a n h = Ok (Ret tt (upd h (poke (cells h) a (n * 8 + 2)))).
Proof using HH.
  intros Hn. destruct HH as [[R1 R2] E1 E2 _]. unfold set_prevblock. erewrite bind_ret by by apply load_ok. rewrite (store_reached _ _ _ R1), E1, (Z.mod_small n) by lia.
  by replace ((p * 8 + 2) mod 8) with 2 by div_lia.
Qed.

Lemma set_inuse_ok u' : set_inuse a (bit u') h = Ok (Ret tt (upd h (poke (cells h) (a + 4) (k * 8 + bit u' * 4 + 2)))).
Proof using HH.
  destruct HH as [[R1 R2] E1 E2 _]. unfold set_inuse. erewrite bind_ret by by apply load_ok. rewrite (store_reached _ _ _ R2), E2.
  replace ((k * 8 + bit u * 4 + 2) / 8) with k by (destruct u; cbn; div_lia). replace ((k * 8 + bit u * 4 + 2) mod 4) with 2 by div_lia.
  by replace (bit u' mod 2) with (bit u') by by destruct u'.
Qed.
End Header.

(** Headers are written field by field over what is there. *)
Section Raw.
Context (h : heap) (a : Z) (R : reachable (kern h) a = true) (R' : reachable (kern h) (a + 4) = true).

Lemma raw_prev n : set_prevblock a n h = Ok (Ret tt (upd h (poke (cells h) a (n mod 2 ^ 29 * 8 + cells h a mod 8)))).
Proof using R. unfold set_prevblock. erewrite bind_ret by by apply load_ok. by apply store_reached. Qed.

Lemma raw_pad n : set_pad a n h = Ok (Ret tt (upd h (poke (cells h) a (cells h a / 8 * 8 + n mod 2 * 4 + cells h a mod 4)))).
Proof using R. unfold set_pad. erewrite bind_ret by by apply load_ok. by apply store_reached. Qed.

Lemma raw_magic1 n : set_magic1 a n h = Ok (Ret tt (upd h (poke (cells h) a (cells h a / 4 * 4 + n mod 4)))).
Proof using R. unfold set_magic1. erewrite bind_ret by by apply load_ok. by apply store_reached. Qed.

Lemma raw_next n : set_nextblock a n h = Ok (Ret tt (upd h (poke (cells h) (a + 4) (n mod 2 ^ 29 * 8 + cells h (a + 4) mod 8)))).
Proof using R'. unfold set_nextblock. erewrite bind_ret by by apply load_ok. by apply store_reached. Qed.

Lemma raw_inuse n : set_inuse a n h = Ok (Ret tt (upd h (poke (cells h) (a + 4) (cells h (a + 4) / 8 * 8 + n mod 2 * 4 + cells h (a + 4) mod 4)))).
Proof using R'. unfold set_inuse. erewrite bind_ret by by apply load_ok. by apply store_reached. Qed.

Lemma raw_magic2 n : set_magic2 a n h = Ok (Ret tt (upd h (poke (cells h) (a + 4) (cells h (a + 4) / 4 * 4 + n mod 4)))).
Proof using R'. unfold set_magic2. erewrite bind_ret by by apply load_ok. by apply store_reached. Qed.
End Raw.

Ltac pokes := repeat first [rewrite poke_eq | rewrite poke_ne by lia].

(** Memory that differs in the words [l] only. *)
Definition differs (l : list Z) (c c' : Z -> Z) : Prop := forall x, x ∉ l -> c' x = c x.

Lemma split_header {B} (f : M B) h a p k :
  reachable (kern h) a = true -> reachable (kern h) (a + 4) = true -> 0 <= p < 2 ^ 29 -> 0 <= k < 2 ^ 29 ->
  exists c', (set_prevblock a p;; set_pad a 0;; set_magic1 a MMAGIC;; set_nextblock a k;; set_inuse a 0;; set_magic2 a MMAGIC;; f) h = f (upd h c') /\
    c' a = p * 8 + 2 /\ c' (a + 4) = k * 8 + bit false * 4 + 2 /\ differs [a; a + 4] (cells h) c'.
Proof.
  intros R R' Hp Hk. erewrite bind_ret by by apply raw_prev. erewrite bind_ret by by apply raw_pad. erewrite bind_ret by by apply raw_magic1.
  erewrite bind_ret by by apply raw_next. erewrite bind_ret by by apply raw_inuse. erewrite bind_ret by by apply raw_magic2.
  eexists. split; [reflexivity |]. cbn [upd cells heapbase heaptop kern]. split; [ | split].
  - pokes. unfold MMAGIC. rewrite (Z.mod_small p) by lia. div_lia.
  - pokes. unfold MMAGIC. cbn [bit]. rewrite (Z.mod_small k) by lia. div_lia.
  - intros x Hx. rewrite !not_elem_of_cons in Hx. destruct Hx as (H1 & H2 & _). by rewrite !poke_ne by done.
Qed.

Lemma grow_header {B} (f : M B) h a p k :
  reachable (kern h) a = true -> reachable (kern h) (a + 4) = true -> 0 <= p < 2 ^ 29 -> 0 <= k < 2 ^ 29 ->
  exists c', (set_prevblock a p;; set_magic1 a MMAGIC;; set_magic2 a MMAGIC;; set_pad a 0;; set_inuse a 1;; set_nextblock a k;; f) h = f (upd h c') /\
    c' a = p * 8 + 2 /\ c' (a + 4) = k * 8 + bit true * 4 + 2 /\ differs [a; a + 4] (cells h) c'.
Proof.
  intros R R' Hp Hk. erewrite bind_ret by by apply raw_prev. erewrite bind_ret by by apply raw_magic1. erewrite bind_ret by by apply raw_magic2.
  erewrite bind_ret by by apply raw_pad. erewrite bind_ret by by apply raw_inuse. erewrite bind_ret by by apply raw_next.
  eexists. split; [reflexivity |]. cbn [upd cells heapbase heaptop kern]. split; [ | split].
  - pokes. unfold MMAGIC. rewrite (Z.mod_small p) by lia. div_lia.
  - pokes. unfold MMAGIC. cbn [bit]. rewrite (Z.mod_small k) by lia. div_lia.
  - intros x Hx. rewrite !not_elem_of_cons in Hx. destruct Hx as (H1 & H2 & _). by rewrite !poke_ne by done.
Qed.
(** ** Blocks *)

(** A block: its size with the header, in units of the header size, and whether
    it is in use. *)
Definition blk : Type := Z * bool.

Fixpoint units (l : list blk) : Z := match l with [] => 0 | (k, _) :: l => k + units l end.

(** The size of the last block; [p] if there is none. *)
Fixpoint lastk (p : Z) (l : list blk) : Z := match l with [] => p | (k, _) :: l => lastk k l end.

(** The headers of [l] are in memory from [a] on, and [p] is the size of the
    block below. *)
Fixpoint laid (c : Z -> Z) (a p : Z) (l : list blk) : Prop :=
  match l with
  | [] => True
  | (k, u) :: l => c a = p * 8 + 2 /\ c (a + 4) = k * 8 + bit u * 4 + 2 /\ 1 <= k /\ laid c (a + 8 * k) k l
  end.

Lemma units_app l1 l2 : units (l1 ++ l2) = units l1 + units l2.
Proof. induction l1 as [ | [k u] l1 IH]; cbn; lia. Qed.

Lemma lastk_app p l1 l2 : lastk p (l1 ++ l2) = lastk (lastk p l1) l2.
Proof. revert p. induction l1 as [ | [k u] l1 IH]; intros p; cbn; auto. Qed.

Lemma laid_app c a p l1 l2 : laid c a p (l1 ++ l2) <-> laid c a p l1 /\ laid c (a + 8 * units l1) (lastk p l1) l2.
Proof.
  revert a p. induction l1 as [ | [k u] l1 IH]; intros a p; cbn [app laid units lastk]; [rewrite Z.mul_0_r, Z.add_0_r; tauto |].
  rewrite IH. replace (a + 8 * (k + units l1)) with (a + 8 * k + 8 * units l1) by lia. tauto.
Qed.

Lemma laid_units c a p l : laid c a p l -> 0 <= units l /\ (0 <= p -> 0 <= lastk p l) /\ (l <> [] -> lastk p l <= units l).
Proof.
  revert a p. induction l as [ | [k u] l IH]; intros a p; cbn [laid units lastk]; [intros _; split; [lia | split; done] |].
  intros (_ & _ & Hk & Hl). destruct (IH _ _ Hl) as (H1 & H2 & H3). split; [lia |]. split; [intros _; apply H2; lia |].
  intros _. destruct l; [cbn in *; lia |]. specialize (H3 ltac:(done)). lia.
Qed.

(** Headers are where their blocks are. *)
Lemma laid_ext c c' a p l : laid c a p l -> (forall x, a <= x < a + 8 * units l -> c' x = c x) -> laid c' a p l.
Proof.
  revert a p. induction l as [ | [k u] l IH]; intros a p; cbn [laid units]; [done |]. intros (H1 & H2 & Hk & Hl) Hx. destruct (laid_units _ _ _ _ Hl) as [Hu _].
  split; [rewrite Hx by lia; done |]. split; [rewrite Hx by lia; done |]. split; [done |]. apply IH; [done |]. intros x Hr. apply Hx. lia.
Qed.

(** The heap consists of the blocks [l]. *)
Record sound (h : heap) (l : list blk) : Prop := {
  so_base : 0 < brk_base (kern h) <= heapbase h /\ heapbase h mod 8 = 0;
  so_top : heaptop h = heapbase h + 8 * units l;
  so_brk : brk_top (kern h) = heaptop h /\ heaptop h <= USERSPACETOP;
  so_laid : laid (cells h) (heapbase h) 0 l
}.

Lemma sound_reach h l x : sound h l -> heapbase h <= x -> x + 4 <= heaptop h -> x mod 4 = 0 -> reachable (kern h) x = true.
Proof. intros [[HB HM] HT [HK HU] HL] H1 H2 H3. unfold reachable. apply andb_true_iff. split; [apply andb_true_iff; split |]; [apply Z.eqb_eq | apply Z.leb_le | apply Z.leb_le]; lia. Qed.

Lemma sound_hdr h l1 k u l2 : sound h (l1 ++ (k, u) :: l2) -> hdr h (heapbase h + 8 * units l1) (lastk 0 l1) k u.
Proof.
  intros HS. pose proof HS as [[HB HM] HT [HK HU] HL]. apply laid_app in HL as [HL1 HL2]. cbn [laid] in HL2. destruct HL2 as (H1 & H2 & Hk & HL2).
  destruct (laid_units _ _ _ _ HL1) as (U1 & U2 & U3). destruct (laid_units _ _ _ _ HL2) as (U4 & _). rewrite units_app in HT. cbn [units] in HT. unfold USERSPACETOP in HU.
  split; [split; eapply sound_reach; [exact HS | lia | lia | div_lia | exact HS | lia | lia | div_lia] | done | done |].
  split; [ | lia]. split; [apply U2; lia |]. destruct l1 as [ | b l1]; [cbn; lia |]. specialize (U3 ltac:(done)). lia.
Qed.

Lemma sound_upd h l c' l' : sound h l -> units l' = units l -> laid c' (heapbase h) 0 l' -> sound (upd h c') l'.
Proof. intros [HB HT HK _] HU HL. split; cbn [upd heapbase heaptop cells kern]; [done | congruence | done | done]. Qed.

(** A header that was not touched. *)
Lemma hdr_upd h c' a p k u : hdr h a p k u -> c' a = cells h a -> c' (a + 4) = cells h (a + 4) -> hdr (upd h c') a p k u.
Proof. intros [HR H1 H2 HL] E1 E2. split; cbn [upd cells kern]; [done | congruence | congruence | done]. Qed.

(** Where the next block is, and whether there is one. *)
Lemma sound_next h l1 b l2 :
  sound h (l1 ++ b :: l2) -> let a := heapbase h + 8 * units l1 in
  a + 8 * b.1 <= heaptop h /\ (l2 = [] <-> a + 8 * b.1 = heaptop h) /\ forall k u l3, l2 = (k, u) :: l3 -> hdr h (a + 8 * b.1) b.1 k u.
Proof.
  intros HS. destruct b as [k0 u0]. cbn [fst]. pose proof (so_top _ _ HS) as HT. rewrite units_app in HT. cbn [units] in HT. pose proof (so_laid _ _ HS) as HL.
  apply laid_app in HL as [_ HL]. cbn [laid] in HL. destruct HL as (_ & _ & Hk & HL). destruct (laid_units _ _ _ _ HL) as [HU _]. split; [lia |]. split; [split |].
  - intros ->. cbn in *. lia.
  - intros E. destruct l2 as [ | [k1 u1] l3]; [done |]. cbn [units laid] in *. destruct HL as (_ & _ & Hk1 & HL). destruct (laid_units _ _ _ _ HL) as [HU1 _]. lia.
  - intros k1 u1 l3 ->. rewrite (cons_middle (k0, u0)), app_assoc in HS. pose proof (sound_hdr _ _ _ _ _ HS) as HH. rewrite units_app, lastk_app in HH. cbn [units lastk] in HH.
    by replace (heapbase h + 8 * units l1 + 8 * k0) with (heapbase h + 8 * (units l1 + (k0 + 0))) by lia.
Qed.

(** ** Splitting *)

Definition split_blk (k : Z) (u : bool) (s : Z) : list blk := if k - 1 - s <? 2 then [(k, u)] else [(s + 1, u); (k - s - 1, false)].

(** Three neighbours and the memory they are in. *)
Lemma laid_around c c' a p l1 n l2 k m :
  laid c a p (l1 ++ n ++ l2) -> units n = k -> units m = k ->
  laid c' (a + 8 * units l1) (lastk p l1) m ->
  (forall x, x < a + 8 * units l1 \/ a + 8 * units l1 + 8 * k < x -> c' x = c x) ->
  (l2 <> [] -> c' (a + 8 * units l1 + 8 * k) = lastk 0 m * 8 + 2) -> m <> [] ->
  laid c' a p (l1 ++ m ++ l2).
Proof.
  intros HL Hn Hm HM Hx Hne Hm0. apply laid_app in HL as [HL1 HL2]. apply laid_app in HL2 as [_ HL2]. rewrite Hn in HL2. destruct (laid_units _ _ _ _ HL1) as [HU1 _].
  apply laid_app. split; [eapply laid_ext; [exact HL1 |]; intros x Hr; apply Hx; lia |]. apply laid_app. split; [done |]. rewrite Hm.
  replace (lastk (lastk p l1) m) with (lastk 0 m) by (destruct m as [ | [? ?] m]; [done | done]).
  destruct l2 as [ | [k2 u2] l2]; [done |]. cbn [laid] in *. destruct HL2 as (E1 & E2 & Hk2 & HL2). destruct (laid_units _ _ _ _ HL2) as [HU2 _].
  split; [by apply Hne |]. split; [rewrite Hx by lia; done |]. split; [done |]. eapply laid_ext; [exact HL2 |]. intros x Hr. apply Hx. lia.
Qed.

Lemma mkfield k : M_MKFIELD (8 * k) = k.
Proof. unfold M_MKFIELD, MBLOCKSHIFT. rewrite Z.shiftr_div_pow2 by lia. change (2 ^ 3) with 8. rewrite Z.mul_comm. by apply Z.div_mul. Qed.

(** Setting the size of the block below in the next header, if there is one. *)
Lemma fix_next h c' l1 k u l2 m n :
  sound h (l1 ++ (k, u) :: l2) -> 0 <= n < 2 ^ 29 -> mh_nextblock m (upd h c') = Ok (Ret n (upd h c')) -> let a := heapbase h + 8 * units l1 in
  (l2 <> [] -> c' (a + 8 * k) = cells h (a + 8 * k) /\ c' (a + 8 * k + 4) = cells h (a + 8 * k + 4)) ->
  exists c2, (if negb (a + 8 * k =? heaptop h) then let! n := mh_nextblock m in set_prevblock (a + 8 * k) n else ret tt) (upd h c') = Ok (Ret tt (upd h c2)) /\
    differs [a + 8 * k] c' c2 /\ (l2 <> [] -> c2 (a + 8 * k) = n * 8 + 2).
Proof.
  intros HS Hn Hm a Hc. destruct (sound_next h l1 (k, u) l2 HS) as (_ & Hl2 & Hnx). cbn [fst] in *. fold a in Hl2, Hnx. destruct l2 as [ | [k2 u2] l3].
  - destruct Hl2 as [Hl2 _]. rewrite (Hl2 eq_refl), Z.eqb_refl. cbn [negb]. exists c'. split; [done |]. split; [intros x _; done | done].
  - destruct (Z.eqb_spec (a + 8 * k) (heaptop h)) as [E | _]; [by destruct Hl2 as [_ Hl2]; discriminate Hl2 |]. cbn [negb].
    destruct Hc as [C1 C2]; [done |]. pose proof (hdr_upd _ _ _ _ _ _ (Hnx k2 u2 l3 eq_refl) C1 C2) as HH. rewrite (bind_ret _ _ _ _ _ Hm).
    rewrite (set_prevblock_ok _ _ _ _ _ HH n Hn). eexists. split; [reflexivity |]. split; [ | intros _; apply poke_eq]. intros x Hx. apply poke_ne. intros ->. apply Hx. left.
Qed.

Lemma split_ok h l1 k u l2 s :
  sound h (l1 ++ (k, u) :: l2) -> 0 <= s -> s + 1 <= k -> let a := heapbase h + 8 * units l1 in
  exists c', malloc_split a (8 * s) h = Ok (Ret tt (upd h c')) /\ sound (upd h c') (l1 ++ split_blk k u s ++ l2) /\
    forall x, x < a + 4 \/ a + 4 < x < a + 8 * (s + 1) \/ a + 8 * k < x -> c' x = cells h x.
Proof.
  intros HS Hs Hk a. pose proof (sound_hdr _ _ _ _ _ HS) as HH. fold a in HH. pose proof (hd_range _ _ _ _ _ HH) as (Hp & Hk2 & Ha).
  unfold malloc_split, MBLOCKSIZE. rewrite Z.mul_comm, Z.mod_mul by done. rewrite Z.mul_comm. cbn [Z.eqb negb].
  rewrite (bind_ret _ _ _ _ _ (size_ok _ _ _ _ _ HH)). rewrite (u32_id (8 * (k - 1) - 8 * s)) by (unfold is_u32; lia). unfold split_blk.
  destruct (Z.ltb_spec (8 * (k - 1) - 8 * s) (2 * 8)), (Z.ltb_spec (k - 1 - s) 2); try lia.
  { exists (cells h). split; [by destruct h |]. split; [by destruct h | done]. }
  rewrite (bind_ret _ _ _ _ _ (next_ok _ _ _ _ _ HH)). rewrite u32_id by (unfold is_u32; lia). replace (8 * s + 8) with (8 * (s + 1)) by lia.
  replace (8 * (k - 1) - 8 * s) with (8 * (k - s - 1)) by lia. rewrite !mkfield. rewrite (bind_ret _ _ _ _ _ (set_nextblock_ok _ _ _ _ _ HH (s + 1) ltac:(lia))).
  set (h1 := upd h (poke (cells h) (a + 4) ((s + 1) * 8 + bit u * 4 + 2))).
  assert (HH1 : hdr h1 a (lastk 0 l1) (s + 1) u).
  { destruct HH as [HR G1 G2 _]. split; [exact HR | cbn; by rewrite poke_ne by lia | cbn; apply poke_eq | lia]. }
  rewrite (bind_ret _ _ _ _ _ (next_ok _ _ _ _ _ HH1)). destruct (Z.eqb_spec (a + 8 * (s + 1)) (a + 8 * k)); [lia |].
  destruct (sound_next h l1 (k, u) l2 HS) as (Hend & _). cbn [fst] in Hend. fold a in Hend. pose proof HS as [[HB HM] HT HK HL].
  assert (HR : forall x, a <= x -> x + 4 <= heaptop h -> x mod 4 = 0 -> reachable (kern h1) x = true).
  { intros x X1 X2 X3. apply (sound_reach h (l1 ++ (k, u) :: l2)); [done | | done | done]. destruct (proj1 (laid_app _ _ _ _ _) HL) as [HL1 _]. pose proof (laid_units _ _ _ _ HL1). lia. }
  match goal with |- context [set_magic2 _ _ ;; ?f] => destruct (split_header f h1 (a + 8 * (s + 1)) (s + 1) (k - s - 1)) as (c2 & -> & C1 & C2 & CD);
    [apply HR; [lia | lia | unfold a; div_lia] | apply HR; [lia | lia | unfold a; div_lia] | lia | lia |] end.
  change (upd h1 c2) with (upd h c2). erewrite bind_ret by reflexivity. change (heaptop (upd h c2)) with (heaptop h).
  assert (E1 : forall x, x <> a + 8 * (s + 1) -> x <> a + 8 * (s + 1) + 4 -> x <> a + 4 -> c2 x = cells h x).
  { intros x X1 X2 X3. rewrite CD by (rewrite !not_elem_of_cons; split; [done | split; [done | apply not_elem_of_nil]]). cbn. by apply poke_ne. }
  assert (HH2 : hdr (upd h c2) (a + 8 * (s + 1)) (s + 1) (k - s - 1) false).
  { split; [split; apply HR; [lia | lia | unfold a; div_lia | lia | lia | unfold a; div_lia] | done | done | unfold USERSPACETOP in HK; lia]. }
  destruct (fix_next h c2 l1 k u l2 (a + 8 * (s + 1)) (k - s - 1) HS) as (c3 & E & C3 & C4); [lia | by eapply nextblock_ok | intros _; split; apply E1; lia |].
  fold a in E, C3, C4. rewrite E. assert (E3 : forall x, x <> a + 8 * k -> c3 x = c2 x) by (intros x Hx; apply C3; rewrite list_elem_of_singleton; done).
  exists c3. split; [done |]. split.
  - eapply sound_upd; [exact HS | rewrite !units_app; cbn; lia |]. apply (laid_around (cells h) _ _ _ _ [(k, u)] _ k); [exact HL | cbn; lia | cbn; lia | | | intros Hl2; by apply C4 | done].
    + fold a. cbn [laid]. destruct HH1 as [_ G1 G2 _]. split; [rewrite E3, E1 by lia; cbn in G1; rewrite poke_ne in G1 by lia; done |].
      split; [rewrite E3, CD by (lia || (rewrite !not_elem_of_cons; split; [lia | split; [lia | apply not_elem_of_nil]])); exact G2 |].
      split; [lia |]. split; [by rewrite E3 by lia |]. split; [rewrite E3 by lia; done | split; [lia | done]].
    + fold a. intros x Hx. rewrite E3, E1 by lia. done.
  - intros x Hx. rewrite E3, E1 by lia. done.
Qed.

(** ** Searching *)

Lemma mark_ok h l1 k u l2 u' :
  sound h (l1 ++ (k, u) :: l2) -> let a := heapbase h + 8 * units l1 in
  exists c', set_inuse a (bit u') h = Ok (Ret tt (upd h c')) /\ sound (upd h c') (l1 ++ (k, u') :: l2) /\ differs [a + 4] (cells h) c'.
Proof.
  intros HS a. pose proof (sound_hdr _ _ _ _ _ HS) as HH. fold a in HH. rewrite (set_inuse_ok _ _ _ _ _ HH). eexists. split; [reflexivity |].
  assert (HD : differs [a + 4] (cells h) (poke (cells h) (a + 4) (k * 8 + bit u' * 4 + 2))) by (intros x Hx; apply poke_ne; intros ->; apply Hx; left).
  split; [ | exact HD]. destruct HH as [_ E1 E2 HR]. assert (HX : forall x, x <> a + 4 -> poke (cells h) (a + 4) (k * 8 + bit u' * 4 + 2) x = cells h x) by (intros x Hx; by apply poke_ne).
  eapply sound_upd; [exact HS | rewrite !units_app; done |]. change ((k, u') :: l2) with ([(k, u')] ++ l2). apply (laid_around (cells h) _ _ _ _ [(k, u)] _ k); [apply HS | cbn; lia | cbn; lia | | | | done]; fold a.
  - cbn [laid]. split; [rewrite HX by lia; done |]. split; [apply poke_eq | lia].
  - intros x Hx. apply HX. lia.
  - intros Hl2. rewrite HX by lia. destruct (sound_next h l1 (k, u) l2 HS) as (_ & _ & Hn). cbn [fst lastk] in *. fold a in Hn. destruct l2 as [ | [k2 u2] l3]; [done |]. apply (Hn k2 u2 l3 eq_refl).
Qed.

Definition fits (s : Z) (b : blk) : bool := negb b.2 && (s + 1 <=? b.1).

(** A block is taken: what is left of it is free, and nothing but headers and
    free memory has changed. *)
Lemma take_ok h l1 k l2 s :
  sound h (l1 ++ (k, false) :: l2) -> 0 <= s -> s + 1 <= k -> let a := heapbase h + 8 * units l1 in
  exists c', (malloc_split a (8 * s);; set_inuse a 1;; ret (inl (M_DATA a) : Z + Z * Z * Z)) h = Ok (Ret (inl (a + 8)) (upd h c')) /\ sound (upd h c') (l1 ++ split_blk k true s ++ l2) /\
    forall x, x < a + 4 \/ a + 8 * k < x -> c' x = cells h x.
Proof.
  intros HS Hs Hk a. destruct (split_ok h l1 k false l2 s HS Hs Hk) as (c1 & E1 & S1 & X1). fold a in E1, X1. rewrite (bind_ret _ _ _ _ _ E1).
  assert (Hsp : exists k' t, split_blk k false s = (k', false) :: t /\ split_blk k true s = (k', true) :: t) by (unfold split_blk; case_if; eauto).
  destruct Hsp as (k' & t & F1 & F2). rewrite F1 in S1. rewrite F2. destruct (mark_ok _ _ _ _ _ true S1) as (c2 & E2 & S2 & D2). cbn [bit upd heapbase cells] in E2, D2. fold a in E2, D2.
  rewrite (bind_ret _ _ _ _ _ E2). exists c2. change (upd (upd h c1) c2) with (upd h c2) in *. pose proof (hd_range _ _ _ _ _ (sound_hdr _ _ _ _ _ HS)) as (_ & Hk2 & Ha). fold a in Ha.
  split; [unfold ret, M_DATA, MBLOCKSIZE; by rewrite u32_id by (unfold is_u32; lia) |]. split; [exact S2 |].
  intros x Hx. rewrite D2 by (rewrite list_elem_of_singleton; lia). apply X1. lia.
Qed.

Lemma loop_ok fuel : forall h l1 l2 s mh,
  sound h (l1 ++ l2) -> 0 <= s -> (length l2 <= fuel)%nat ->
  (Forall (fun b => fits s b = false) l2 /\
   malloc_loop fuel (8 * s) (heapbase h + 8 * units l1) mh (lastk 0 l1) h =
     Ok (Ret (inr (heaptop h, match l2 with [] => mh | _ => heaptop h - 8 * lastk 0 l2 end, lastk 0 (l1 ++ l2))) h)) \/
  (exists m1 k m2 c', l2 = m1 ++ (k, false) :: m2 /\ s + 1 <= k /\ let a := heapbase h + 8 * units (l1 ++ m1) in
   malloc_loop fuel (8 * s) (heapbase h + 8 * units l1) mh (lastk 0 l1) h = Ok (Ret (inl (a + 8)) (upd h c')) /\
   sound (upd h c') ((l1 ++ m1) ++ split_blk k true s ++ m2) /\ forall x, x < a + 4 \/ a + 8 * k < x -> c' x = cells h x).
Proof.
  induction fuel as [ | fuel IH]; intros h l1 l2 s mh HS Hs Hf.
  all: destruct l2 as [ | [k u] l2]; cbn [length] in Hf; try lia.
  1, 2: left; split; [constructor |]; rewrite app_nil_r in *; cbn [malloc_loop]; erewrite bind_ret by reflexivity; rewrite <- (so_top _ _ HS), Z.ltb_irrefl; reflexivity.
  pose proof (sound_hdr _ _ _ _ _ HS) as HH. set (a := heapbase h + 8 * units l1) in *. pose proof (hd_range _ _ _ _ _ HH) as (Hp & Hk & Ha).
  destruct (sound_next h l1 (k, u) l2 HS) as (Hend & _). cbn [fst] in Hend. fold a in Hend.
  cbn [malloc_loop]. erewrite bind_ret by reflexivity. destruct (Z.ltb_spec a (heaptop h)); [ | lia].
  rewrite (bind_ret _ _ _ _ _ (m_ok _ _ _ _ _ HH)). cbn [negb]. rewrite (bind_ret _ _ _ _ _ (prevblock_ok _ _ _ _ _ HH)), Z.eqb_refl. cbn [negb].
  rewrite (bind_ret _ _ _ _ _ (nextblock_ok _ _ _ _ _ HH)), (bind_ret _ _ _ _ _ (inuse_ok _ _ _ _ _ HH)), (bind_ret _ _ _ _ _ (size_ok _ _ _ _ _ HH)).
  destruct (u || (8 * (k - 1) <? 8 * s)) eqn:Eskip.
  - rewrite (bind_ret _ _ _ _ _ (nextoff_ok _ _ _ _ _ HH)). rewrite u32_id by (unfold is_u32; unfold a in *; pose proof (so_brk _ _ HS); unfold USERSPACETOP in *; lia).
    assert (HS' : sound h ((l1 ++ [(k, u)]) ++ l2)) by by rewrite <- app_assoc.
    destruct (IH h (l1 ++ [(k, u)]) l2 s a HS' Hs ltac:(lia)) as [[HF E] | (m1 & k1 & m2 & c' & -> & Hk1 & E & S' & X')];
      rewrite units_app, lastk_app in E; cbn [units lastk] in E; replace (heapbase h + 8 * (units l1 + (k + 0))) with (a + 8 * k) in E by (unfold a; lia).
    + left. split; [constructor; [unfold fits; cbn; destruct u; cbn in *; [done | lia] | done] |]. rewrite E. rewrite <- app_assoc. do 5 f_equal.
      destruct l2 as [ | [k2 u2] l3]; [ | done]. pose proof (so_top _ _ HS) as HT. rewrite units_app in HT. cbn in *. unfold a. lia.
    + right. exists ((k, u) :: m1), k1, m2, c'. rewrite <- !app_assoc in *. cbn [app] in *. split; [done |]. split; [done |]. split; [exact E | done].
  - right. exists [], k, l2. apply orb_false_iff in Eskip as [-> Hge%Z.ltb_ge]. rewrite app_nil_r. fold a.
    destruct (take_ok h l1 k l2 s HS Hs ltac:(lia)) as (c' & E & S' & X'). fold a in E, X'. exists c'. split; [done |]. split; [lia |]. split; [exact E | done].
Qed.

(** ** Growing *)

Context `{!SbrkLaws K}.

(** The pages asked for, in units. *)
Lemma page_round n : 0 <= n < 2 ^ 31 -> exists g, u32 (PAGE_SIZE * (u32 (n + PAGE_SIZE - 1) / PAGE_SIZE)) = 8 * g /\ n <= 8 * g < n + 4096 /\ g mod 512 = 0.
Proof.
  intros Hn. unfold PAGE_SIZE. rewrite (u32_id (n + 4096 - 1)) by (unfold is_u32; lia). rewrite u32_id by (unfold is_u32; div_lia).
  exists (512 * ((n + 4096 - 1) / 4096)). split; [lia |]. split; [div_lia |]. rewrite Z.mul_comm. by apply Z.mod_mul.
Qed.

Lemma call_sbrk_eq h g k' x : sbrk (kern h) g = (k', x) -> call_sbrk g h = Ok (Ret x (mkUheap (heapbase h) (heaptop h) (cells h) k')).
Proof. intros E. unfold call_sbrk. by rewrite E. Qed.

Definition grown (h : heap) (k' : K) (g : Z) : heap := mkUheap (heapbase h) (heaptop h + g) (cells h) k'.

Lemma malloc_sbrk_ok h l g :
  sound h l -> 0 <= g < 2 ^ 31 ->
  exists k', (malloc_sbrk g h = Ok (Ret None (mkUheap (heapbase h) (heaptop h) (cells h) k')) /\ sound (mkUheap (heapbase h) (heaptop h) (cells h) k') l /\ (sbrk (kern h) g).2 = None) \/
    (malloc_sbrk g h = Ok (Ret (Some (heaptop h)) (grown h k' g)) /\ brk_base k' = brk_base (kern h) /\ brk_top k' = heaptop h + g /\ heaptop h + g <= USERSPACETOP).
Proof using SbrkLaws0.
  intros [[HB HM] HT [HK HU] HL] Hg. destruct (laid_units _ _ _ _ HL) as [Hpos _]. pose proof (sbrk_law (kern h) g Hg) as HS. unfold malloc_sbrk.
  destruct (sbrk (kern h) g) as [k' x] eqn:Es. rewrite (bind_ret _ _ _ _ _ (call_sbrk_eq _ _ _ _ Es)). exists k'. destruct HS as [HB' HS]; [lia | lia |]. destruct x as [x | ].
  - right. destruct HS as (-> & HT' & HU'). erewrite bind_ret by reflexivity. erewrite bind_ret by reflexivity. cbn [heaptop heapbase]. rewrite HK, Z.eqb_refl. cbn [negb].
    erewrite bind_ret by reflexivity. unfold ret, grown. cbn [cells kern]. rewrite u32_id by (unfold is_u32, USERSPACETOP in *; lia). split; [done |]. split; [done |]. split; [lia | lia].
  - left. split; [done |]. split; [ | done]. split; cbn [kern heapbase heaptop cells]; [lia | done | split; [congruence | done] | done].
Qed.

(** The heap got [g] more units, of which a block at the top is made. *)
Lemma sound_grown h l l0 k' g k c' :
  sound h l -> (l = l0 \/ exists k0, l = l0 ++ [(k0, false)]) -> brk_base k' = brk_base (kern h) -> brk_top k' = heaptop h + 8 * g -> heaptop h + 8 * g <= USERSPACETOP ->
  units l0 + k = units l + g -> 1 <= k -> let a := heapbase h + 8 * units l0 in
  c' a = lastk 0 l0 * 8 + 2 -> c' (a + 4) = k * 8 + bit true * 4 + 2 -> (forall x, x < a -> c' x = cells h x) ->
  sound (upd (grown h k' (8 * g)) c') (l0 ++ [(k, true)]).
Proof.
  intros [[HB HM] HT [HK HU] HL] Hl HB' HT' HU' Hun Hk a E1 E2 Hx. split; cbn [upd grown heapbase heaptop cells kern].
  - lia.
  - rewrite units_app. cbn. lia.
  - done.
  - apply laid_app. split; [ | cbn [laid]; done]. assert (HL0 : laid (cells h) (heapbase h) 0 l0) by (destruct Hl as [<- | [k0 ->]]; [done | by apply laid_app in HL as [? _]]).
    eapply laid_ext; [exact HL0 |]. intros x Hr. apply Hx. unfold a. lia.
Qed.

(** What growing the heap for a block of [s] units of data leads to. *)
Definition grow_result (h : heap) (l : list blk) (s : Z) (r : Z) (h' : heap) : Prop :=
  heapbase h' = heapbase h /\
  ((r = 0 /\ cells h' = cells h /\ sound h' l /\ exists g, 8 * g <= 8 * s + 8 + 4096 /\ (sbrk (kern h) (8 * g)).2 = None) \/
   (exists l0 k, (l = l0 \/ exists k0, l = l0 ++ [(k0, false)]) /\ s + 1 <= k /\ 2 <= k /\ sound h' (l0 ++ split_blk k true s) /\
      let a := heapbase h + 8 * units l0 in r = a + 8 /\ forall x, x < a -> cells h' x = cells h x)).

(** The block at the top has been made; it is split. *)
Lemma grow_finish h l l0 k' g k c' s :
  sound h l -> (l = l0 \/ exists k0, l = l0 ++ [(k0, false)]) -> brk_base k' = brk_base (kern h) -> brk_top k' = heaptop h + 8 * g -> heaptop h + 8 * g <= USERSPACETOP ->
  units l0 + k = units l + g -> 0 <= s -> s + 1 <= k -> 2 <= k -> let a := heapbase h + 8 * units l0 in
  c' a = lastk 0 l0 * 8 + 2 -> c' (a + 4) = k * 8 + bit true * 4 + 2 -> (forall x, x < a -> c' x = cells h x) ->
  exists h', (malloc_split a (8 * s);; ret (M_DATA a)) (upd (grown h k' (8 * g)) c') = Ok (Ret (a + 8) h') /\ grow_result h l s (a + 8) h'.
Proof.
  intros HS Hl HB HT HU Hun Hs Hk Hk2 a E1 E2 Hx. assert (HG : sound (upd (grown h k' (8 * g)) c') (l0 ++ (k, true) :: [])) by (eapply sound_grown; try done; lia).
  pose proof (hd_range _ _ _ _ _ (sound_hdr _ _ _ _ _ HG)) as (_ & _ & Ha). cbn [upd grown heapbase] in Ha. fold a in Ha.
  destruct (split_ok _ l0 k true [] s HG Hs Hk) as (c2 & E & S2 & X2). cbn [upd grown heapbase cells] in E, X2. fold a in E, X2. unfold upd, grown. cbn [heapbase heaptop kern cells].
  rewrite (bind_ret _ _ _ _ _ E). unfold M_DATA, MBLOCKSIZE. rewrite u32_id by (unfold is_u32; lia). eexists. split; [reflexivity |]. split; [done |]. right. exists l0, k.
  split; [done |]. split; [done |]. split; [done |]. split; [by rewrite app_nil_r in S2 |]. split; [done |]. intros x Hxa. cbn [upd cells]. rewrite X2 by lia. by apply Hx.
Qed.

Lemma grow_ok h l s :
  sound h l -> Forall (fun b => fits s b = false) l -> 0 <= s <= 2 ^ 27 ->
  exists r h', malloc_grow (8 * s) (match l with [] => 0 | _ => heaptop h - 8 * lastk 0 l end) (lastk 0 l) h = Ok (Ret r h') /\ grow_result h l s r h'.
Proof using SbrkLaws0.
  intros HS HF Hs. set (mh := match l with [] => 0 | _ => heaptop h - 8 * lastk 0 l end). unfold malloc_grow.
  assert (Hex : (l = [] /\ mh = 0) \/ exists l0 k u, l = l0 ++ [(k, u)] /\ mh = heapbase h + 8 * units l0 /\ hdr h mh (lastk 0 l0) k u /\ (u = false -> k <= s)).
  { destruct l as [ | [k u] l0 _] using rev_ind; [by left |]. right. exists l0, k, u. split; [done |].
    assert (Hmh : mh = heapbase h + 8 * units l0).
    { unfold mh. pose proof (so_top _ _ HS) as HT. rewrite units_app in HT. rewrite lastk_app. cbn in *. clear -HT. destruct l0 as [ | b l0]; cbn [app] in *; lia. }
    split; [done |]. split; [rewrite Hmh; by eapply sound_hdr |]. intros ->. apply Forall_app in HF as [_ HF]. inversion_clear HF as [ | ? ? Hf _]. unfold fits in Hf. cbn in Hf. lia. }
  assert (Hext : exists e, (if negb (mh =? 0) then let! u := mh_inuse mh in ret (negb u) else ret false) h = Ok (Ret e h) /\
    (e = true -> exists l0 k, l = l0 ++ [(k, false)] /\ mh = heapbase h + 8 * units l0 /\ hdr h mh (lastk 0 l0) k false /\ k <= s)).
  { destruct Hex as [[El Emh] | (l0 & k & u & El & Emh & HH & Hks)]; [exists false; rewrite Emh; done |].
    destruct (Z.eqb_spec mh 0) as [E0 | _]; [pose proof (hd_range _ _ _ _ _ HH); lia |]. cbn [negb]. exists (negb u). rewrite (bind_ret _ _ _ _ _ (inuse_ok _ _ _ _ _ HH)).
    split; [done |]. intros Hu. destruct u; [done |]. exists l0, k. auto. }
  destruct Hext as (e & Ee & He). rewrite (bind_ret _ _ _ _ _ Ee). clear Ee. pose proof (so_top _ _ HS) as HT. pose proof (so_brk _ _ HS) as [_ HU]. unfold USERSPACETOP in HU.
  destruct e.
  - destruct (He eq_refl) as (l0 & k & El & Emh & HH & Hks). clear He Hex. clearbody mh. pose proof (hd_range _ _ _ _ _ HH) as (Hp & Hk & Ha).
    destruct (page_round (8 * s - 8 * (k - 1))) as (g & Eg & Hg); [lia |].
    erewrite bind_ret by (rewrite (bind_ret _ _ _ _ _ (size_ok _ _ _ _ _ HH)); destruct (Z.ltb_spec (8 * (k - 1)) (8 * s)); [reflexivity | lia]).
    rewrite (u32_id (8 * s - _)) by (unfold is_u32; lia). rewrite Eg.
    destruct (malloc_sbrk_ok h l (8 * g) HS ltac:(lia)) as (k' & [(E & HS' & Hno) | (E & HB' & HT' & HU')]); rewrite (bind_ret _ _ _ _ _ E).
    { eexists 0, _. split; [reflexivity |]. split; [done |]. left. split; [done |]. split; [done |]. split; [done |]. exists g. split; [lia | done]. }
    assert (HH1 : hdr (grown h k' (8 * g)) mh (lastk 0 l0) k false).
    { destruct HH as [[R1 R2] G1 G2 G3]. split; [ | done | done | done]. unfold reachable in *. cbn [grown kern]. rewrite HB', HT'. pose proof (so_brk _ _ HS) as [HKt _]. rewrite HKt in *. split; bool_inv; lia. }
    set (h1 := grown h k' (8 * g)) in *. set (h2 := upd h1 (poke (cells h1) (mh + 4) ((k + g) * 8 + bit false * 4 + 2))).
    assert (HH2 : hdr h2 mh (lastk 0 l0) (k + g) false).
    { destruct HH1 as [R G1 G2 G3]. unfold USERSPACETOP in HU'. rewrite El, units_app in HT. cbn [units] in HT. pose proof (so_base _ _ HS). split; [done | cbn; rewrite poke_ne by lia; exact G1 | cbn; apply poke_eq |].
      assert (0 <= units l0) by (pose proof (so_laid _ _ HS) as HL; rewrite El in HL; apply laid_app in HL as [HL _]; apply (laid_units _ _ _ _ HL)). lia. }
    pose proof (hd_range _ _ _ _ _ HH2) as (_ & Hkg & _). erewrite bind_ret.
    2: { rewrite (bind_ret _ _ _ _ _ (nextoff_ok _ _ _ _ _ HH1)). rewrite u32_id by (unfold is_u32; lia). rewrite <- Z.mul_add_distr_l, mkfield.
         rewrite (bind_ret _ _ _ _ _ (set_nextblock_ok _ _ _ _ _ HH1 (k + g) ltac:(lia))). fold h2. rewrite (bind_ret _ _ _ _ _ (set_inuse_ok _ _ _ _ _ HH2 true)). reflexivity. }
    destruct (grow_finish h l l0 k' g (k + g) (poke (cells h2) (mh + 4) ((k + g) * 8 + bit true * 4 + 2)) s) as (h' & Ef & HR); rewrite <- ?Emh in *;
      [done | right; by exists k | done | done | done | rewrite El, units_app; cbn; lia | lia | lia | lia | | apply poke_eq | | by eexists _, h'].
    + rewrite poke_ne by lia. apply HH2.
    + intros x Hx. rewrite poke_ne by lia. cbn. apply poke_ne. lia.
  - clear He Hex. destruct (page_round (8 + 8 * s)) as (g & Eg & Hg); [lia |]. erewrite bind_ret by reflexivity. unfold MBLOCKSIZE. rewrite (u32_id (8 + 8 * s)) by (unfold is_u32; lia).
    rewrite Eg. destruct (malloc_sbrk_ok h l (8 * g) HS ltac:(lia)) as (k' & [(E & HS' & Hno) | (E & HB' & HT' & HU')]); rewrite (bind_ret _ _ _ _ _ E).
    { eexists 0, _. split; [reflexivity |]. split; [done |]. left. split; [done |]. split; [done |]. split; [done |]. exists g. split; [lia | done]. }
    pose proof HS as [[HB HM] _ [HK _] HL]. destruct (laid_units _ _ _ _ HL) as (U1 & U2 & U3). unfold USERSPACETOP in HU'.
    assert (HR : forall x, heaptop h <= x -> x + 4 <= heaptop h + 8 * g -> x mod 4 = 0 -> reachable (kern (grown h k' (8 * g))) x = true).
    { intros x X1 X2 X3. unfold reachable. cbn [grown kern]. rewrite HB', HT'. apply andb_true_iff. split; [apply andb_true_iff; split |]; [apply Z.eqb_eq | apply Z.leb_le | apply Z.leb_le]; lia. }
    assert (Hlk : 0 <= lastk 0 l < 2 ^ 29) by (split; [apply U2; lia |]; destruct l as [ | b l]; [cbn; lia |]; specialize (U3 ltac:(done)); lia).
    destruct (grow_header (ret (heaptop h)) (grown h k' (8 * g)) (heaptop h) (lastk 0 l) g) as (c' & E2 & C1 & C2 & CD);
      [apply HR; [lia | lia | div_lia] | apply HR; [lia | lia | div_lia] | exact Hlk | lia |].
    rewrite mkfield. erewrite bind_ret by (rewrite E2; reflexivity).
    destruct (grow_finish h l l k' g g c' s) as (h' & Ef & HRs); rewrite <- ?HT;
      [done | by left | done | done | done | lia | lia | lia | div_lia | exact C1 | exact C2 | | ].
    + intros x Hx. apply CD. rewrite !not_elem_of_cons. split; [lia |]. split; [lia | apply not_elem_of_nil].
    + rewrite <- HT in Ef, HRs. rewrite Ef. by eexists _, h'.
Qed.

(** ** Freeing *)

Definition DEADBEEF := 3735928559.

Lemma deadbeef_ok n : forall h a,
  (forall i, 0 <= i < Z.of_nat n -> reachable (kern h) (a + 4 * i) = true) -> 0 <= a -> a + 4 * Z.of_nat n < 2 ^ 32 ->
  exists c', deadbeef_loop n a h = Ok (Ret tt (upd h c')) /\ (forall x, x < a \/ a + 4 * Z.of_nat n <= x -> c' x = cells h x) /\
    forall i, 0 <= i < Z.of_nat n -> c' (a + 4 * i) = DEADBEEF.
Proof.
  induction n as [ | n IH]; intros h a HR H0 Ha; cbn [deadbeef_loop].
  { exists (cells h). split; [by destruct h |]. split; [done | lia]. }
  pose proof (HR 0 ltac:(lia)) as HR0. rewrite Z.add_0_r in HR0. rewrite (bind_ret _ _ _ _ _ (store_reached _ _ _ HR0)). rewrite u32_id by (unfold is_u32; lia).
  destruct (IH (upd h (poke (cells h) a DEADBEEF)) (a + 4)) as (c' & E & HX & HD).
  { intros i Hi. cbn [upd kern]. replace (a + 4 + 4 * i) with (a + 4 * (i + 1)) by lia. apply HR. lia. }
  { lia. }
  { lia. }
  exists c'. split; [exact E |]. split.
  - intros x Hx. rewrite HX by lia. cbn. apply poke_ne. lia.
  - intros i Hi. destruct (Z.eq_dec i 0) as [-> | Hne].
    + rewrite Z.mul_0_r, Z.add_0_r, HX by lia. cbn. apply poke_eq.
    + replace (a + 4 * i) with (a + 4 + 4 * (i - 1)) by lia. apply HD. lia.
Qed.

Lemma merge_ok h l1 k u k2 u2 l2 :
  sound h (l1 ++ (k, u) :: (k2, u2) :: l2) -> let a := heapbase h + 8 * units l1 in let b := a + 8 * k in
  if u || u2 then malloc_trymerge a b h = Ok (Ret tt h)
  else exists c', malloc_trymerge a b h = Ok (Ret tt (upd h c')) /\ sound (upd h c') (l1 ++ (k + k2, false) :: l2) /\
    (forall x, x < a + 4 \/ b + 8 * k2 < x -> c' x = cells h x) /\ c' b = DEADBEEF /\ c' (b + 4) = DEADBEEF.
Proof.
  intros HS a b. pose proof (sound_hdr _ _ _ _ _ HS) as HH. fold a in HH. destruct (sound_next h l1 (k, u) _ HS) as (_ & _ & Hn). cbn [fst] in Hn. fold a b in Hn.
  pose proof (Hn k2 u2 l2 eq_refl) as HN. unfold malloc_trymerge.
  rewrite (bind_ret _ _ _ _ _ (nextblock_ok _ _ _ _ _ HH)), (bind_ret _ _ _ _ _ (prevblock_ok _ _ _ _ _ HN)), Z.eqb_refl. cbn [negb].
  rewrite (bind_ret _ _ _ _ _ (inuse_ok _ _ _ _ _ HH)). destruct u; [done |]. cbn [orb]. rewrite (bind_ret _ _ _ _ _ (inuse_ok _ _ _ _ _ HN)). destruct u2; [done |].
  rewrite (bind_ret _ _ _ _ _ (next_ok _ _ _ _ _ HN)), (bind_ret _ _ _ _ _ (size_ok _ _ _ _ _ HH)), (bind_ret _ _ _ _ _ (size_ok _ _ _ _ _ HN)).
  pose proof (hd_range _ _ _ _ _ HH) as (_ & Hk & Ha). pose proof (hd_range _ _ _ _ _ HN) as (_ & Hk2 & Hb). unfold MBLOCKSIZE.
  replace (8 + 8 * (k - 1) + 8 + 8 * (k2 - 1)) with (8 * (k + k2)) by lia. rewrite u32_id, mkfield by (unfold is_u32; lia).
  rewrite (bind_ret _ _ _ _ _ (set_nextblock_ok _ _ _ _ _ HH (k + k2) ltac:(lia))). set (c1 := poke (cells h) (a + 4) ((k + k2) * 8 + bit false * 4 + 2)).
  erewrite bind_ret by reflexivity. change (heaptop (upd h c1)) with (heaptop h).
  assert (HS' : sound h ((l1 ++ [(k, false)]) ++ (k2, false) :: l2)) by by rewrite <- app_assoc.
  assert (Eb : heapbase h + 8 * units (l1 ++ [(k, false)]) = b) by (rewrite units_app; cbn; unfold b, a; lia).
  destruct (sound_next h _ _ _ HS') as (Hend & _). cbn [fst] in Hend. rewrite Eb in Hend. pose proof (so_brk _ _ HS) as [_ HU]. unfold USERSPACETOP in HU.
  assert (HH1 : hdr (upd h c1) a (lastk 0 l1) (k + k2) false).
  { destruct HH as [R G1 G2 G3]. split; [exact R | cbn; unfold c1; rewrite poke_ne by lia; exact G1 | apply poke_eq |]. unfold b in *. lia. }
  destruct (fix_next h c1 _ k2 false l2 a (k + k2) HS') as (c2 & E & C1 & C2); [lia | by eapply nextblock_ok | |].
  { rewrite Eb. intros _. unfold c1. split; apply poke_ne; unfold b; lia. }
  rewrite Eb in E, C1, C2. rewrite (bind_ret _ _ _ _ _ E). unfold malloc_deadbeef. change (Z.to_nat (8 / 4)) with 2%nat.
  destruct (deadbeef_ok 2 (upd h c2) b) as (c3 & E3 & X3 & D3); [ | unfold b; lia | lia |].
  { destruct HN as [[R1 R2] _ _ _]. intros i Hi. assert (i = 0 \/ i = 1) as [-> | ->] by lia; [by rewrite Z.mul_0_r, Z.add_0_r | exact R2]. }
  exists c3. split; [exact E3 |]. assert (X2 : forall x, x <> b + 8 * k2 -> c2 x = c1 x) by (intros x Hx; apply C1; by rewrite list_elem_of_singleton).
  cbn [upd cells] in X3. change (4 * Z.of_nat 2) with 8 in X3. assert (Hc1 : forall x, x <> a + 4 -> c1 x = cells h x) by (intros x Hx; by apply poke_ne).
  assert (F : forall x, x < a + 4 \/ b + 8 * k2 < x -> c3 x = cells h x) by (intros x Hx; rewrite X3, X2, Hc1 by lia; done).
  split; [ | split; [exact F | split; [by rewrite <- (D3 0), Z.mul_0_r, Z.add_0_r by lia | by rewrite <- (D3 1) by lia]]].
  eapply sound_upd; [exact HS | rewrite !units_app; cbn; lia |]. pose proof (so_laid _ _ HS) as HL.
  assert (Hab : a + 8 * (k + k2) = b + 8 * k2) by (unfold b; lia).
  change ((k + k2, false) :: l2) with ([(k + k2, false)] ++ l2). apply (laid_around (cells h) _ _ _ _ [(k, false); (k2, false)] _ (k + k2)); [exact HL | cbn; lia | cbn; lia | | | | done]; fold a; rewrite ?Hab.
  - destruct HH1 as [_ G1 G2 _]. cbn [laid upd cells] in *. split; [rewrite X3, X2 by lia; exact G1 |]. split; [rewrite X3, X2 by lia; exact G2 | lia].
  - intros x Hx. apply F. lia.
  - intros Hl2. rewrite X3 by lia. by apply C2.
Qed.

(** At most one block, and that free. *)
Definition one_free (d : list blk) : Prop := d = [] \/ exists k, d = [(k, false)].

(** Memory inside a block is written. *)
Lemma sound_data h l1 k u l2 c' : sound h (l1 ++ (k, u) :: l2) -> let a := heapbase h + 8 * units l1 in
  (forall x, x < a + 8 \/ a + 8 * k <= x -> c' x = cells h x) -> sound (upd h c') (l1 ++ (k, u) :: l2).
Proof.
  intros HS a Hx. pose proof (sound_hdr _ _ _ _ _ HS) as [_ G1 G2 GR]. fold a in G1, G2, GR. eapply sound_upd; [exact HS | done |].
  change ((k, u) :: l2) with ([(k, u)] ++ l2). apply (laid_around (cells h) _ _ _ _ [(k, u)] _ k); [apply HS | cbn; lia | cbn; lia | | | | done]; fold a.
  - cbn [laid]. rewrite !Hx by lia. split; [done |]. split; [done | lia].
  - intros x Hr. apply Hx. lia.
  - intros Hl2. rewrite Hx by lia. destruct (sound_next h l1 (k, u) l2 HS) as (_ & _ & Hn). cbn [fst lastk] in *. fold a in Hn. destruct l2 as [ | [k2 u2] l3]; [done |]. apply (Hn k2 u2 l3 eq_refl).
Qed.

Lemma merge_up h l1 k l2 :
  sound h (l1 ++ (k, false) :: l2) -> let a := heapbase h + 8 * units l1 in
  exists d l3 c', (if negb (a + 8 * k =? heaptop h) then malloc_trymerge a (a + 8 * k) else ret tt) h = Ok (Ret tt (upd h c')) /\ l2 = d ++ l3 /\ one_free d /\
    (d = [] -> forall k0 m, l3 <> (k0, false) :: m) /\ sound (upd h c') (l1 ++ (k + units d, false) :: l3) /\
    forall x, x < a + 4 \/ a + 8 * (k + units d) < x -> c' x = cells h x.
Proof.
  intros HS a. destruct (sound_next h l1 (k, false) l2 HS) as (_ & Hl2 & _). cbn [fst] in Hl2. fold a in Hl2. destruct (Z.eqb_spec (a + 8 * k) (heaptop h)) as [E | E]; cbn [negb].
  { apply Hl2 in E as ->. exists [], [], (cells h). cbn [units]. rewrite !Z.add_0_r. split; [by destruct h |]. split; [done |]. split; [by left |]. split; [done |]. split; [by destruct h | done]. }
  destruct l2 as [ | [k2 u2] l2]; [by destruct E; apply Hl2 |]. pose proof (merge_ok h l1 k false k2 u2 l2 HS) as HM. cbn [orb] in HM. fold a in HM. destruct u2.
  - rewrite HM. exists [], ((k2, true) :: l2), (cells h). cbn [units]. rewrite !Z.add_0_r. split; [by destruct h |]. split; [done |]. split; [by left |]. split; [done |]. split; [by destruct h | done].
  - destruct HM as (c' & -> & HS' & HX & _). exists [(k2, false)], l2, c'. cbn [units]. rewrite Z.add_0_r. split; [done |]. split; [done |]. split; [right; by eexists |]. split; [done |]. split; [done |].
    intros x Hx. apply HX. lia.
Qed.

Lemma merge_down h l1 k l2 :
  sound h (l1 ++ (k, false) :: l2) -> let a := heapbase h + 8 * units l1 in
  exists l0 d c', (if negb (a =? heapbase h) then let! mhprev := M_PREV a in malloc_trymerge mhprev a else ret tt) h = Ok (Ret tt (upd h c')) /\ l1 = l0 ++ d /\ one_free d /\
    (d = [] -> forall k0 m, l0 <> m ++ [(k0, false)]) /\ sound (upd h c') (l0 ++ (units d + k, false) :: l2) /\
    (forall x, x < heapbase h + 8 * units l0 + 4 \/ a + 8 * k < x -> c' x = cells h x) /\ (d = [] \/ c' a = DEADBEEF).
Proof.
  intros HS a. destruct l1 as [ | [k0 u0] l0 _] using rev_ind.
  { assert (a = heapbase h) as -> by (unfold a; cbn; lia). rewrite Z.eqb_refl. cbn [negb]. exists [], [], (cells h). cbn [units app Z.add] in *. split; [by destruct h |]. split; [done |]. split; [by left |].
    split; [intros _ k0 m Hm; by destruct m |]. split; [by destruct h |]. split; [done | by left]. }
  pose proof (sound_hdr _ _ _ _ _ HS) as HH. fold a in HH. set (b := heapbase h + 8 * units l0).
  rewrite <- app_assoc in HS. cbn [app] in HS. pose proof (merge_ok h l0 k0 u0 k false l2 HS) as HM. cbv zeta in HM. fold b in HM.
  pose proof (hd_range _ _ _ _ _ (sound_hdr _ _ _ _ _ HS)) as (_ & Hk0 & Hb). fold b in Hb. pose proof (hd_range _ _ _ _ _ HH) as (_ & _ & Ha).
  assert (Eab : b + 8 * k0 = a) by (unfold a, b; rewrite units_app; cbn; lia). rewrite Eab in HM.
  pose proof (so_laid _ _ HS) as HL. apply laid_app in HL as [HL _]. destruct (laid_units _ _ _ _ HL) as [HU _].
  destruct (Z.eqb_spec a (heapbase h)); [unfold b in *; lia |]. cbn [negb]. erewrite bind_ret.
  2: { unfold M_PREV. rewrite (bind_ret _ _ _ _ _ (prevoff_ok _ _ _ _ _ HH)). rewrite lastk_app. cbn [lastk]. replace (a - 8 * k0) with b by lia. rewrite u32_id by (unfold is_u32; lia). reflexivity. }
  destruct u0; cbn [orb] in HM.
  - rewrite HM. exists (l0 ++ [(k0, true)]), [], (cells h). cbn [units]. rewrite app_nil_r. split; [by destruct h |]. split; [done |]. split; [by left |].
    split; [intros _ k1 m Hm; by apply app_inj_tail in Hm as [_ ?] |]. split; [rewrite <- app_assoc; by destruct h |]. split; [done | by left].
  - destruct HM as (c' & -> & HS' & HX & HD & _). exists l0, [(k0, false)], c'. cbn [units]. rewrite Z.add_0_r. fold b. split; [done |]. split; [done |]. split; [right; by eexists |]. split; [done |].
    split; [done |]. split; [ | by right]. intros x Hx. apply HX. lia.
Qed.

(** The blocks after one of them is freed: it is joined with free neighbours. *)
Record freed (l1 : list blk) (k : Z) (l2 l0 d1 d2 l3 : list blk) : Prop := {
  fr_below : l1 = l0 ++ d1 /\ one_free d1 /\ (d1 = [] -> forall k0 m, l0 <> m ++ [(k0, false)]);
  fr_above : l2 = d2 ++ l3 /\ one_free d2 /\ (d2 = [] -> forall k0 m, l3 <> (k0, false) :: m)
}.

Lemma free_ok h l1 k l2 :
  sound h (l1 ++ (k, true) :: l2) -> let a := heapbase h + 8 * units l1 in a + 8 < heaptop h ->
  exists l0 d1 d2 l3 c', free (a + 8) h = Ok (Ret tt (upd h c')) /\ freed l1 k l2 l0 d1 d2 l3 /\
    sound (upd h c') (l0 ++ (units d1 + (k + units d2), false) :: l3) /\
    (forall x, x < heapbase h + 8 * units l0 \/ a + 8 * (k + units d2) < x -> c' x = cells h x) /\ (d1 = [] \/ c' a = DEADBEEF).
Proof.
  intros HS a Hin. pose proof (sound_hdr _ _ _ _ _ HS) as HH. fold a in HH. pose proof (hd_range _ _ _ _ _ HH) as (_ & Hk & Ha).
  pose proof HS as [[HB HM] HT [HKt HU] HL]. apply laid_app in HL as [HL1 _]. destruct (laid_units _ _ _ _ HL1) as [HU1 _]. unfold USERSPACETOP in HU.
  unfold free. destruct (Z.eqb_spec (a + 8) 0); [lia |]. erewrite bind_ret by reflexivity. erewrite bind_ret by reflexivity.
  assert (Hck : (heapbase h =? 0) || (heaptop h =? 0) || (heaptop h <? heapbase h) = false) by (unfold a in *; rewrite !orb_false_iff, !Z.eqb_neq, Z.ltb_ge; lia). rewrite Hck.
  assert (Hck2 : (a + 8 <? heapbase h) || (heaptop h <=? a + 8) = false) by (unfold a in *; rewrite orb_false_iff, Z.ltb_ge, Z.leb_gt; lia). rewrite Hck2. clear Hck Hck2.
  unfold MBLOCKSIZE. rewrite Z.add_simpl_r, u32_id by (unfold is_u32; lia). rewrite (bind_ret _ _ _ _ _ (m_ok _ _ _ _ _ HH)). cbn [negb].
  rewrite (bind_ret _ _ _ _ _ (inuse_ok _ _ _ _ _ HH)). cbn [negb].
  destruct (mark_ok h l1 k true l2 false HS) as (c1 & E1 & S1 & D1). cbn [bit] in E1. fold a in E1, D1. rewrite (bind_ret _ _ _ _ _ E1).
  pose proof (sound_hdr _ _ _ _ _ S1) as HH1. cbn [upd heapbase] in HH1. fold a in HH1. rewrite (bind_ret _ _ _ _ _ (size_ok _ _ _ _ _ HH1)).
  destruct (sound_next h l1 (k, true) l2 HS) as (Hend & _). cbn [fst] in Hend. fold a in Hend.
  unfold malloc_deadbeef, M_DATA, MBLOCKSIZE. rewrite (u32_id (a + 8)) by (unfold is_u32; lia). assert (Z.of_nat (Z.to_nat (8 * (k - 1) / 4)) = 2 * (k - 1)) as Hlen by div_lia.
  destruct (deadbeef_ok (Z.to_nat (8 * (k - 1) / 4)) (upd h c1) (a + 8)) as (c2 & E2 & X2 & _); [ | lia | lia |].
  { intros i Hi. cbn [upd kern]. apply (sound_reach h (l1 ++ (k, true) :: l2)); [done | unfold a; lia | lia | unfold a; div_lia]. }
  rewrite Hlen in X2. cbn [upd cells] in X2. rewrite (bind_ret _ _ _ _ _ E2). change (upd (upd h c1) c2) with (upd h c2).
  assert (S2 : sound (upd h c2) (l1 ++ (k, false) :: l2)) by (apply (sound_data (upd h c1) l1 k false l2 c2 S1); cbn [upd heapbase cells]; fold a; intros x Hx; apply X2; lia).
  pose proof (sound_hdr _ _ _ _ _ S2) as HH2. cbn [upd heapbase] in HH2. fold a in HH2. rewrite (bind_ret _ _ _ _ _ (next_ok _ _ _ _ _ HH2)).
  destruct (merge_up (upd h c2) l1 k l2 S2) as (d2 & l3 & c3 & E3 & El2 & F2 & N2 & S3 & X3). cbn [upd heapbase heaptop cells] in E3, X3. fold a in E3, X3. rewrite (bind_ret _ _ _ _ _ E3).
  change (upd _ c3) with (upd h c3) in *.
  destruct (merge_down (upd h c3) l1 (k + units d2) l3 S3) as (l0 & d1 & c4 & E4 & El1 & F1 & N1 & S4 & X4 & DB). cbn [upd heapbase cells] in E4, X4, DB. fold a in E4, X4, DB.
  exists l0, d1, d2, l3, c4. split; [exact E4 |]. split; [by split |]. split; [exact S4 |]. split; [ | exact DB].
  intros x Hx. assert (Hd1 : 0 <= units d1) by (destruct F1 as [-> | [k1 ->]]; [cbn; lia |]; rewrite El1 in HL1; apply laid_app in HL1 as [_ HL1]; destruct (laid_units _ _ _ _ HL1); lia).
  assert (Hal : heapbase h + 8 * units l0 + 8 * units d1 = a) by (unfold a; rewrite El1, units_app; lia).
  assert (Hd2 : 0 <= units d2).
  { pose proof (so_laid _ _ S2) as HL2. apply laid_app in HL2 as [_ HL2]. cbn [laid] in HL2. destruct HL2 as (_ & _ & _ & HL2). rewrite El2 in HL2. apply laid_app in HL2 as [HL2 _]. apply (laid_units _ _ _ _ HL2). }
  rewrite X4 by lia. rewrite X3 by lia. rewrite X2 by lia. apply D1. rewrite list_elem_of_singleton. lia.
Qed.

(** * What programs see *)

(** No two free blocks are neighbours; [u]: whether the block below is in use. *)
Fixpoint tidy (u : bool) (l : list blk) : Prop := match l with [] => True | (_, v) :: l => u || v = true /\ tidy v l end.
Fixpoint lastu (u : bool) (l : list blk) : bool := match l with [] => u | (_, v) :: l => lastu v l end.

(** A block in use with its data at [p]; the blocks begin at [a]. *)
Fixpoint used_at (a : Z) (l : list blk) (p k : Z) : Prop :=
  match l with [] => False | (k0, u) :: l => (u = true /\ k0 = k /\ p = a + 8) \/ used_at (a + 8 * k0) l p k end.

Lemma tidy_app u l1 l2 : tidy u (l1 ++ l2) <-> tidy u l1 /\ tidy (lastu u l1) l2.
Proof. revert u. induction l1 as [ | [k v] l1 IH]; intros u; cbn [app tidy lastu]; [tauto |]. rewrite IH. tauto. Qed.

Lemma tidy_weaken l : tidy false l -> tidy true l.
Proof. destruct l as [ | [k u] l]; [done |]. cbn. by intros [_ ?]. Qed.

Lemma lastu_app u l1 l2 : lastu u (l1 ++ l2) = lastu (lastu u l1) l2.
Proof. revert u. induction l1 as [ | [k v] l1 IH]; intros u; cbn; auto. Qed.

Lemma used_app a l1 l2 p k : used_at a (l1 ++ l2) p k <-> used_at a l1 p k \/ used_at (a + 8 * units l1) l2 p k.
Proof.
  revert a. induction l1 as [ | [k0 u] l1 IH]; intros a; cbn [app used_at units]; [rewrite Z.mul_0_r, Z.add_0_r; tauto |].
  rewrite IH. replace (a + 8 * (k0 + units l1)) with (a + 8 * k0 + 8 * units l1) by lia. tauto.
Qed.

Lemma used_range c a q l p k : laid c a q l -> used_at a l p k -> a + 8 <= p /\ 1 <= k /\ p - 8 + 8 * k <= a + 8 * units l.
Proof.
  revert a q. induction l as [ | [k0 u] l IH]; intros a q; cbn [laid used_at units]; [done |]. intros (_ & _ & Hk & HL) [(_ & -> & ->) | Hu].
  - destruct (laid_units _ _ _ _ HL). lia.
  - destruct (IH _ _ HL Hu) as (? & ? & ?). lia.
Qed.

Lemma used_apart c a q l p1 k1 p2 k2 : laid c a q l -> used_at a l p1 k1 -> used_at a l p2 k2 -> (p1 = p2 /\ k1 = k2) \/ p1 + 8 * k1 <= p2 \/ p2 + 8 * k2 <= p1.
Proof.
  revert a q. induction l as [ | [k0 u] l IH]; intros a q; cbn [laid used_at]; [done |]. intros (_ & _ & Hk & HL) [(_ & -> & ->) | H1] [(_ & -> & ->) | H2].
  - by left.
  - destruct (used_range _ _ _ _ _ _ HL H2) as (? & ? & ?). lia.
  - destruct (used_range _ _ _ _ _ _ HL H1) as (? & ? & ?). lia.
  - by eapply IH.
Qed.

Lemma used_split a l p k : used_at a l p k -> exists m1 m2, l = m1 ++ (k, true) :: m2 /\ p = a + 8 * units m1 + 8.
Proof.
  revert a. induction l as [ | [k0 u] l IH]; intros a; cbn [used_at]; [done |]. intros [(-> & -> & ->) | Hu]; [exists [], l; split; [done | cbn; lia] |].
  destruct (IH _ Hu) as (m1 & m2 & -> & ->). exists ((k0, u) :: m1), m2. split; [done | cbn; lia].
Qed.

Lemma one_free_unused a d p k : one_free d -> ~ used_at a d p k.
Proof. intros [-> | [k0 ->]]; cbn; [tauto |]. intros [[Hu _] | Hu]; [discriminate Hu | exact Hu]. Qed.

(** What the program knows: its allocations, and the words it has put there. *)
Notation allocs := (gmap Z (list (option Z))).

(** The heap has the allocations [A]. *)
Record rep (h : heap) (A : allocs) (l : list blk) : Prop := {
  rp_sound : sound h l;
  rp_last : 2 <= lastk 2 l;
  rp_tidy : tidy true l;
  rp_alloc : forall p ws, A !! p = Some ws -> exists k, used_at (heapbase h) l p k /\ 4 * zlen ws <= 8 * (k - 1) /\ forall i w, zget ws i = Some (Some w) -> cells h (p + 4 * i) = w;
  rp_used : forall p k, used_at (heapbase h) l p k -> is_Some (A !! p)
}.

(** Before the first call: the program has a heap of its own, with nothing on
    it, that begins at a multiple of the header size. *)
Definition fresh (h : heap) : Prop := heapbase h = 0 /\ heaptop h = 0 /\ 0 < brk_base (kern h) <= brk_top (kern h) /\ brk_top (kern h) <= USERSPACETOP /\ brk_top (kern h) mod 8 = 0.

Definition holds (h : heap) (A : allocs) : Prop := (fresh h /\ A = ∅) \/ exists l, rep h A l.

(** ** malloc *)

Lemma lastk_default p q l : l <> [] -> lastk p l = lastk q l.
Proof. by destruct l as [ | [k u] l]. Qed.

Lemma split_units k u s : units (split_blk k u s) = k.
Proof. unfold split_blk. case_if; cbn; lia. Qed.

Lemma split_used a k s q kq : 0 <= s -> s + 1 <= k -> used_at a (split_blk k true s) q kq -> q = a + 8 /\ s + 1 <= kq.
Proof. intros Hs Hk. unfold split_blk. case_if; cbn; intros [(_ & <- & ->) | Hu]; [split; [done | lia] | done | split; [done | lia] |]. destruct Hu as [[Hu _] | Hu]; [discriminate Hu | done]. Qed.

Lemma split_used_first a k s : exists kq, used_at a (split_blk k true s) (a + 8) kq.
Proof. unfold split_blk. case_if; eexists; cbn; left; done. Qed.

Definition new_words (n : Z) : list (option Z) := repeat None (Z.to_nat ((n + 3) / 4)).

Lemma rep_take h A l h' l0 d l2 k s n :
  rep h A l -> l = l0 ++ d ++ l2 -> one_free d -> (l2 <> [] -> units d = k) -> heapbase h' = heapbase h -> 0 <= s -> s + 1 <= k -> 2 <= k \/ l2 <> [] -> 0 <= n <= 8 * s ->
  sound h' (l0 ++ split_blk k true s ++ l2) -> let a := heapbase h + 8 * units l0 in
  (forall x, x < a \/ (l2 <> [] /\ a + 8 * k < x) -> cells h' x = cells h x) ->
  rep h' (<[a + 8 := new_words n]> A) (l0 ++ split_blk k true s ++ l2) /\ A !! (a + 8) = None /\
  forall q ws, A !! q = Some ws -> a + 8 + 8 * s <= q \/ q + 4 * zlen ws <= a + 8.
Proof.
  intros [HS HLk HTi HA HUs] El Hd Hk2 HB Hs Hk Hk1 Hn HS' a HX.
  assert (Hused : forall q kq, used_at (heapbase h) l q kq -> (used_at (heapbase h) l0 q kq /\ q - 8 + 8 * kq <= a) \/ (l2 <> [] /\ used_at (a + 8 * k) l2 q kq /\ a + 8 * k + 8 <= q)).
  { intros q kq Hq. pose proof (so_laid _ _ HS) as HL. rewrite El in Hq, HL. apply laid_app in HL as [HL0 HL]. apply laid_app in HL as [_ HL2]. rewrite !used_app in Hq. fold a in Hq, HL2.
    destruct Hq as [Hq | [Hq | Hq]]; [left; split; [done |]; by destruct (used_range _ _ _ _ _ _ HL0 Hq) as (_ & _ & ?) | by apply one_free_unused in Hq |].
    assert (Hne : l2 <> []) by (intros ->; done). right. split; [done |]. rewrite (Hk2 Hne) in Hq, HL2. split; [done |]. apply (used_range _ _ _ _ _ _ HL2 Hq). }
  assert (Hp : forall q ws, A !! q = Some ws -> exists kq, (used_at (heapbase h) l q kq /\ 1 <= kq /\ 4 * zlen ws <= 8 * (kq - 1) /\ forall i w, zget ws i = Some (Some w) -> cells h (q + 4 * i) = w)).
  { intros q ws Hq. destruct (HA q ws Hq) as (kq & H1 & H2 & H3). exists kq. split; [done |]. split; [ | done]. by destruct (used_range _ _ _ _ _ _ (so_laid _ _ HS) H1) as (_ & ? & _). }
  assert (Hap : forall q ws, A !! q = Some ws -> a + 8 + 8 * s <= q \/ q + 4 * zlen ws <= a).
  { intros q ws Hq. destruct (Hp q ws Hq) as (kq & Hu & Hkq & Hz & _). destruct (Hused q kq Hu) as [[_ Hr] | (_ & _ & Hr)]; lia. }
  split; [split | split].
  - exact HS'.
  - rewrite !lastk_app. destruct l2 as [ | b l2].
    + cbn [lastk]. unfold split_blk. case_if; cbn [lastk]; destruct Hk1; [lia | done | lia | done].
    + rewrite El, !lastk_app in HLk. rewrite (lastk_default _ (lastk (lastk 2 l0) d)) by done. exact HLk.
  - rewrite El, !tidy_app in HTi. destruct HTi as (T0 & Td & T2). rewrite !tidy_app. split; [done |]. unfold split_blk. case_if; cbn [tidy lastu].
    + rewrite orb_true_r. split; [done |]. destruct (lastu (lastu true l0) d); [done | by apply tidy_weaken].
    + rewrite orb_true_r. split; [done |]. destruct l2 as [ | b l2]; [done |]. destruct Hd as [-> | [k0 ->]]; [cbn in Hk2; specialize (Hk2 ltac:(done)); lia | exact T2].
  - intros q ws Hq. rewrite HB. apply lookup_insert_Some in Hq as [[<- <-] | [Hne Hq]].
    + destruct (split_used_first a k s) as (kq & Hu). exists kq. split; [rewrite !used_app; right; left; exact Hu |]. apply split_used in Hu as [_ Hu]; [ | done | done]. split.
      * unfold new_words, zlen. rewrite repeat_length. div_lia.
      * intros i w Hi. unfold new_words, zget in Hi. destruct (i <? 0); [done |]. apply list_elem_of_lookup_2, list_elem_of_In, repeat_spec in Hi. done.
    + destruct (Hp q ws Hq) as (kq & Hu & Hkq & Hz & Hw). exists kq. split; [ | split; [done |]].
      * rewrite !used_app. destruct (Hused q kq Hu) as [[H0 _] | (_ & H2 & _)]; [by left |]. right. right. fold a. by rewrite split_units.
      * intros i w Hi. rewrite HX; [by apply Hw |]. pose proof (zget_Some _ _ _ Hi). destruct (Hused q kq Hu) as [[_ Hr] | (Hl2 & _ & Hr)]; [left; lia | right; split; [done | lia]].
  - intros q kq. rewrite HB, !used_app. intros [Hq | [Hq | Hq]].
    + rewrite lookup_insert_is_Some'. right. apply (HUs q kq). rewrite El, used_app. by left.
    + fold a in Hq. apply split_used in Hq as [-> _]; [ | done | done]. rewrite lookup_insert_is_Some'. by left.
    + rewrite split_units in Hq. fold a in Hq. rewrite lookup_insert_is_Some'. right. apply (HUs q kq). assert (Hne : l2 <> []) by (intros ->; done). rewrite El, !used_app. right. right. fold a. by rewrite Hk2.
  - apply eq_None_not_Some. intros [ws Hq]. destruct (Hp _ _ Hq) as (kq & Hu & Hkq & _). destruct (Hused _ _ Hu) as [[_ Hr] | (_ & _ & Hr)]; lia.
  - intros q ws Hq. destruct (Hap q ws Hq); [by left | right; lia].
Qed.

Lemma rep_same h A l h' : rep h A l -> sound h' l -> heapbase h' = heapbase h -> cells h' = cells h -> rep h' A l.
Proof. intros [HS HLk HTi HA HU] HS' HB HC. split; rewrite ?HB, ?HC; done. Qed.

Lemma laid_length c a p l : laid c a p l -> Z.of_nat (length l) <= units l.
Proof. revert a p. induction l as [ | [k u] l IH]; intros a p; cbn [laid length units]; [lia |]. intros (_ & _ & Hk & HL). specialize (IH _ _ HL). lia. Qed.

Lemma round_size n : 0 <= n <= 2 ^ 30 -> Z.ldiff (u32 (n + MBLOCKSIZE - 1)) (MBLOCKSIZE - 1) = 8 * ((n + 7) / 8).
Proof.
  intros Hn. unfold MBLOCKSIZE. rewrite u32_id by (unfold is_u32; lia). change (8 - 1) with (Z.ones 3). rewrite Z.ldiff_ones_r by lia.
  rewrite Z.shiftl_mul_pow2, Z.shiftr_div_pow2 by lia. change (2 ^ 3) with 8. rewrite Z.mul_comm. do 2 f_equal. lia.
Qed.

(** What a call of malloc may do. *)
Definition malloc_result (h : heap) (A : allocs) (n r : Z) (h' : heap) : Prop :=
  (r = 0 /\ (exists l, rep h' A l) /\ exists g, 8 * g <= n + 8 + 4096 + 8 /\ (sbrk (kern h) (8 * g)).2 = None) \/
  (r <> 0 /\ r mod 8 = 0 /\ A !! r = None /\ (forall q ws, A !! q = Some ws -> r + n <= q \/ q + 4 * zlen ws <= r) /\ exists l, rep h' (<[r := new_words n]> A) l).

Lemma malloc_rep h A l n : rep h A l -> 0 <= n <= 2 ^ 30 -> exists r h', malloc n h = Ok (Ret r h') /\ malloc_result h A n r h'.
Proof using SbrkLaws0.
  intros HR Hn. pose proof (rp_sound _ _ _ HR) as HS. pose proof HS as [[HB HM] HT [HK HU] HL]. destruct (laid_units _ _ _ _ HL) as [Hpos _]. pose proof (laid_length _ _ _ _ HL) as Hlen.
  unfold malloc. erewrite bind_ret by reflexivity. destruct (Z.eqb_spec (heapbase h) 0) as [E0 | _]; [lia |]. erewrite bind_ret by reflexivity. erewrite bind_ret by reflexivity. erewrite bind_ret by reflexivity.
  assert (Hck : (heapbase h =? 0) || (heaptop h =? 0) || (heaptop h <? heapbase h) = false) by (rewrite !orb_false_iff, !Z.eqb_neq, Z.ltb_ge; lia). rewrite Hck. clear Hck.
  rewrite round_size by done. set (s := (n + 7) / 8). assert (Hs : 0 <= s <= 2 ^ 27 /\ n <= 8 * s <= n + 7) by (unfold s; div_lia).
  assert (Hfin : forall l0 d l2 k h', l = l0 ++ d ++ l2 -> one_free d -> (l2 <> [] -> units d = k) -> heapbase h' = heapbase h -> s + 1 <= k -> 2 <= k \/ l2 <> [] ->
      sound h' (l0 ++ split_blk k true s ++ l2) -> let a := heapbase h + 8 * units l0 in (forall x, x < a \/ (l2 <> [] /\ a + 8 * k < x) -> cells h' x = cells h x) -> malloc_result h A n (a + 8) h').
  { intros l0 d l2 k h' El Hd Hk2 HB' Hk Hk1 HS' a HX. destruct (rep_take h A l h' l0 d l2 k s n) as (HR' & HN & Hap); try done; [lia | lia |]. fold a in HR', HN, Hap.
    assert (0 <= units l0) by (rewrite El in HL; apply laid_app in HL as [HL0 _]; apply (laid_units _ _ _ _ HL0)).
    right. split; [unfold a; lia |]. split; [unfold a; div_lia |]. split; [done |]. split; [ | by eexists]. intros q ws Hq. destruct (Hap q ws Hq); [left; lia | by right]. }
  assert (Hl2 : 2 <= lastk 2 l) by apply HR.
  destruct (loop_ok (loop_fuel (heapbase h) (heaptop h)) h [] l s 0) as [[HF E] | (m1 & k & m2 & c' & El & Hk & E & S' & X')].
  { exact HS. }
  { lia. }
  { unfold loop_fuel, MBLOCKSIZE. rewrite HT. replace (heapbase h + 8 * units l - heapbase h) with (units l * 8) by lia. rewrite Z.div_mul by done. lia. }
  - cbn [units lastk app] in E. rewrite Z.mul_0_r, Z.add_0_r in E. rewrite (bind_ret _ _ _ _ _ E), Z.eqb_refl. cbn [negb].
    destruct (grow_ok h l s HS HF ltac:(lia)) as (r & h' & -> & HB' & [(-> & HC & HS' & g & Hg & Hno) | (l0 & k & Hl0 & Hk & Hk1 & HS' & -> & HX)]); eexists _, h'; (split; [reflexivity |]).
    + left. split; [done |]. split; [exists l; by eapply rep_same |]. exists g. split; [lia | done].
    + destruct Hl0 as [-> | [k0 El]].
      * apply (Hfin l0 [] [] k); [by rewrite app_nil_r | by left | done | done | done | by left | by rewrite app_nil_r | intros x [Hx | [? _]]; [by apply HX | done]].
      * apply (Hfin l0 [(k0, false)] [] k); [done | right; by eexists | done | done | done | by left | by rewrite app_nil_r | intros x [Hx | [? _]]; [by apply HX | done]].
  - cbn [units lastk app] in *. rewrite Z.mul_0_r, Z.add_0_r in E. rewrite (bind_ret _ _ _ _ _ E). eexists _, _. split; [reflexivity |].
    apply (Hfin m1 [(k, false)] m2 k); [done | right; by eexists | intros _; cbn; lia | done | done | | done | intros x Hx; apply X'; lia].
    destruct m2; [left | by right]. rewrite El, lastk_app in Hl2. done.
Qed.

(** ** free *)

Lemma one_free_units c a p d : one_free d -> laid c a p d -> 0 <= units d.
Proof. intros _ HL. apply (laid_units _ _ _ _ HL). Qed.

(** The blocks in use that stay. *)
Lemma freed_used h l1 k l2 l0 d1 d2 l3 q kq : sound h (l1 ++ (k, true) :: l2) -> freed l1 k l2 l0 d1 d2 l3 ->
  let a := heapbase h + 8 * units l1 in
  used_at (heapbase h) (l1 ++ (k, true) :: l2) q kq <->
  (q = a + 8 /\ kq = k) \/ (used_at (heapbase h) l0 q kq /\ q - 8 + 8 * kq <= heapbase h + 8 * units l0) \/
  (used_at (a + 8 * (k + units d2)) l3 q kq /\ a + 8 * (k + units d2) + 8 <= q).
Proof.
  intros HS [(-> & F1 & _) (-> & F2 & _)] a. pose proof (so_laid _ _ HS) as HL. rewrite !used_app. rewrite !laid_app in HL. destruct HL as [[HL0 _] HL]. cbn [used_at laid] in *. fold a in HL. fold a.
  destruct HL as (_ & _ & Hk & HL). apply laid_app in HL as [_ HL3]. rewrite used_app. replace (a + 8 * k + 8 * units d2) with (a + 8 * (k + units d2)) in * by lia. split.
  - intros [[Hq | Hq] | [(_ & <- & ->) | [Hq | Hq]]]; [ | by apply one_free_unused in Hq | by left | by apply one_free_unused in Hq |].
    + right. left. split; [done |]. apply (used_range _ _ _ _ _ _ HL0 Hq).
    + right. right. split; [done |]. apply (used_range _ _ _ _ _ _ HL3 Hq).
  - intros [[-> ->] | [[Hq _] | [Hq _]]]; [right; left; done | by left; left | by right; right; right].
Qed.

Lemma freed_shape l1 k l2 l0 d1 d2 l3 :
  freed l1 k l2 l0 d1 d2 l3 -> 1 <= k -> 0 <= units d1 -> 0 <= units d2 -> tidy true (l1 ++ (k, true) :: l2) -> 2 <= lastk 2 (l1 ++ (k, true) :: l2) ->
  tidy true (l0 ++ (units d1 + (k + units d2), false) :: l3) /\ 2 <= lastk 2 (l0 ++ (units d1 + (k + units d2), false) :: l3).
Proof.
  intros [(-> & F1 & N1) (-> & F2 & N2)] Hk Hu1 Hu2 HT HLk. rewrite !tidy_app in HT. cbn [tidy] in HT. rewrite lastu_app, tidy_app in HT. destruct HT as ((T0 & T1) & _ & T2 & T3).
  rewrite !lastk_app in *. cbn [lastk] in *. rewrite lastk_app in HLk. split.
  - rewrite tidy_app. split; [done |]. cbn [tidy]. rewrite orb_false_r. split.
    + destruct F1 as [-> | [k1 ->]]; [ | cbn [tidy] in T1; destruct T1 as [T1 _]; by rewrite orb_false_r in T1]. clear -N1. destruct l0 as [ | [k0 u] m _] using rev_ind; [done |].
      rewrite lastu_app. cbn [lastu]. destruct u; [done |]. by destruct (N1 eq_refl k0 m).
    + destruct F2 as [-> | [k2 ->]]; [ | exact T3]. destruct l3 as [ | [k0 u] m]; [done |]. cbn [tidy lastu] in *. destruct u; [done |]. by destruct (N2 eq_refl k0 m).
  - destruct l3 as [ | b l3]; [ | by rewrite (lastk_default _ (lastk k d2))]. cbn [lastk] in *. destruct F2 as [-> | [k2 ->]]; cbn [lastk units] in *; lia.
Qed.

Lemma free_rep h A l p ws :
  rep h A l -> A !! p = Some ws -> exists h', free p h = Ok (Ret tt h') /\ (exists l', rep h' (delete p A) l') /\ free p h' = Ok (Exits 1).
Proof.
  intros HR Hp. pose proof HR as [HS HLk HTi HA HUs]. destruct (HA p ws Hp) as (k & Hu & _). destruct (used_split _ _ _ _ Hu) as (l1 & l2 & -> & Ep). set (a := heapbase h + 8 * units l1) in *.
  pose proof (sound_hdr _ _ _ _ _ HS) as HH. fold a in HH. pose proof (hd_range _ _ _ _ _ HH) as (_ & Hk & Ha). destruct (sound_next h l1 (k, true) l2 HS) as (Hend & Hl2 & Hnx). cbn [fst] in *. fold a in Hend, Hl2, Hnx.
  assert (Hin : a + 8 < heaptop h).
  { destruct l2 as [ | [k2 u2] l3]; [rewrite lastk_app in HLk; cbn in HLk; lia |]. destruct (Z.eq_dec (a + 8 * k) (heaptop h)) as [E | E]; [by apply Hl2 in E | lia]. }
  destruct (free_ok h l1 k l2 HS) as (l0 & d1 & d2 & l3 & c' & E & HF & HS' & HX & HDB); [exact Hin |]. fold a in E, HX, HDB. rewrite <- Ep in E. exists (upd h c'). split; [exact E |].
  pose proof (fun q kq => freed_used h l1 k l2 l0 d1 d2 l3 q kq HS HF) as Hused. fold a in Hused. pose proof HF as [(El1 & F1 & _) (El2 & F2 & _)].
  pose proof (so_laid _ _ HS) as HL. rewrite El1, El2, !laid_app in HL. cbn [laid] in HL. destruct HL as ((HL0 & HL1) & _ & _ & _ & HL). apply laid_app in HL as [HL2 _].
  destruct (freed_shape _ _ _ _ _ _ _ HF ltac:(lia) (one_free_units _ _ _ _ F1 HL1) (one_free_units _ _ _ _ F2 HL2) HTi HLk) as [HTi' HLk'].
  assert (Eal : a = heapbase h + 8 * units l0 + 8 * units d1) by (unfold a; rewrite El1, units_app; lia). destruct (laid_units _ _ _ _ HL1) as [Hd1 _]. destruct (laid_units _ _ _ _ HL2) as [Hd2 _].
  assert (Hused' : forall q kq, used_at (heapbase h) (l0 ++ (units d1 + (k + units d2), false) :: l3) q kq <-> q <> p /\ used_at (heapbase h) (l1 ++ (k, true) :: l2) q kq).
  { intros q kq. rewrite Hused, used_app. cbn [used_at]. replace (heapbase h + 8 * units l0 + 8 * (units d1 + (k + units d2))) with (a + 8 * (k + units d2)) by lia.
    pose proof (so_laid _ _ HS') as HL'. cbn [upd cells heapbase] in HL'. apply laid_app in HL' as [HL0' HL3']. cbn [laid] in HL3'. destruct HL3' as (_ & _ & _ & HL3').
    replace (heapbase h + 8 * units l0 + 8 * (units d1 + (k + units d2))) with (a + 8 * (k + units d2)) in HL3' by lia. split.
    - intros [Hq | [[Hq _] | Hq]]; [ | discriminate Hq |].
      + destruct (used_range _ _ _ _ _ _ HL0' Hq) as (? & ? & ?). split; [lia |]. right. left. split; [done | lia].
      + destruct (used_range _ _ _ _ _ _ HL3' Hq) as (? & ? & ?). split; [lia |]. right. right. split; [done | lia].
    - intros [Hne [[-> _] | [[Hq _] | [Hq _]]]]; [by destruct Hne | by left | by right; right]. }
  split.
  - eexists. split; [exact HS' | exact HLk' | exact HTi' | |].
    + intros q vs [Hne Hq]%lookup_delete_Some. destruct (HA q vs Hq) as (kq & Hq1 & Hq2 & Hq3). exists kq. cbn [upd heapbase cells]. split; [apply Hused'; split; [congruence | done] |]. split; [done |].
      intros i w Hi. rewrite HX; [by apply Hq3 |]. pose proof (zget_Some _ _ _ Hi). apply Hused in Hq1 as [[-> ->] | [[_ Hr] | [_ Hr]]]; [congruence | lia | lia].
    + cbn [upd heapbase]. intros q kq [Hne Hq]%Hused'. rewrite lookup_delete_ne by congruence. by eapply HUs.
  - rewrite Ep. unfold free. destruct (Z.eqb_spec (a + 8) 0); [lia |]. erewrite bind_ret by reflexivity. erewrite bind_ret by reflexivity. cbn [upd heapbase heaptop].
    destruct ((heapbase h =? 0) || (heaptop h =? 0) || (heaptop h <? heapbase h)); [done |]. destruct ((a + 8 <? heapbase h) || (heaptop h <=? a + 8)); [done |].
    unfold MBLOCKSIZE. rewrite Z.add_simpl_r, u32_id by (unfold is_u32; lia). fold (upd h c'). destruct F1 as [-> | [k1 ->]].
    + pose proof (sound_hdr _ _ _ _ _ HS') as HH'. cbn [upd heapbase units] in HH'. replace (heapbase h + 8 * units l0) with a in HH' by (cbn [units] in *; lia).
      rewrite (bind_ret _ _ _ _ _ (m_ok _ _ _ _ _ HH')). cbn [negb]. rewrite (bind_ret _ _ _ _ _ (inuse_ok _ _ _ _ _ HH')). done.
    + destruct HDB as [? | HDB]; [done |]. destruct HH as [[R _] _ _ _]. unfold M_OK, mh_magic1, bind. rewrite (load_ok (upd h c') a R). cbn [rbind ret upd cells]. rewrite HDB. done.
Qed.

(** ** Reading and writing *)

Lemma alloc_reach h A l p ws i : rep h A l -> A !! p = Some ws -> 0 <= i < zlen ws -> reachable (kern h) (p + 4 * i) = true.
Proof.
  intros HR Hp Hi. pose proof (rp_sound _ _ _ HR) as HS. destruct (rp_alloc _ _ _ HR p ws Hp) as (k & Hu & Hz & _). destruct (used_range _ _ _ _ _ _ (so_laid _ _ HS) Hu) as (H1 & H2 & H3).
  destruct (used_split _ _ _ _ Hu) as (l1 & l2 & _ & Ep). pose proof HS as [[HB HM] HT _ _]. apply (sound_reach h l); [done | lia | lia | div_lia].
Qed.

Lemma write_rep h A l p ws i w : rep h A l -> A !! p = Some ws -> 0 <= i < zlen ws ->
  store (p + 4 * i) w h = Ok (Ret tt (upd h (poke (cells h) (p + 4 * i) w))) /\ rep (upd h (poke (cells h) (p + 4 * i) w)) (<[p := <[Z.to_nat i := Some w]> ws]> A) l.
Proof.
  intros HR Hp Hi. split; [apply store_reached; by eapply alloc_reach |]. pose proof HR as [HS HLk HTi HA HUs]. destruct (HA p ws Hp) as (k & Hu & Hz & Hw).
  pose proof (fun q kq => used_apart _ _ _ _ p k q kq (so_laid _ _ HS) Hu) as Hap. split; [ | done | done | |].
  - destruct (used_split _ _ _ _ Hu) as (l1 & l2 & -> & Ep). apply sound_data; [done |]. intros x Hx. apply poke_ne. lia.
  - intros q vs Hq. cbn [upd heapbase cells]. apply lookup_insert_Some in Hq as [[<- <-] | [Hne Hq]].
    + exists k. split; [done |]. split; [unfold zlen in *; rewrite length_insert; done |]. intros j v Hj. unfold zget, zlen in *. destruct (Z.ltb_spec j 0); [done |].
      destruct (Z.eq_dec j i) as [-> | Hne].
      * rewrite list_lookup_insert_eq in Hj by lia. injection Hj as ->. apply poke_eq.
      * rewrite list_lookup_insert_ne in Hj by lia. rewrite poke_ne by lia. apply Hw. destruct (Z.ltb_spec j 0); [lia | done].
    + destruct (HA q vs Hq) as (kq & Hq1 & Hq2 & Hq3). exists kq. split; [done |]. split; [done |]. intros j v Hj. pose proof (zget_Some _ _ _ Hj).
      rewrite poke_ne; [by apply Hq3 |]. destruct (Hap q kq Hq1) as [[-> _] | [? | ?]]; [done | lia | lia].
  - intros q kq Hq. cbn [upd heapbase] in Hq. rewrite lookup_insert_is_Some'. right. by eapply HUs.
Qed.

(** ** The first call *)

Lemma init_ok h : fresh h -> exists h', malloc_init h = Ok (Ret tt h') /\ rep h' ∅ [].
Proof using SbrkLaws0.
  intros (H1 & H2 & HB & HU & HM). unfold malloc_init. erewrite bind_ret by reflexivity. erewrite bind_ret by reflexivity. rewrite H1, H2. cbn [Z.eqb negb orb].
  pose proof (sbrk_law (kern h) 0 ltac:(lia) HB HU) as HL. pose proof (sbrk_zero (kern h) HB HU) as H0. destruct (sbrk (kern h) 0) as [k' [x | ]] eqn:Es; [ | done].
  rewrite (bind_ret _ _ _ _ _ (call_sbrk_eq _ _ _ _ Es)). destruct HL as (HB' & -> & HT' & HU'). destruct (Z.eqb_spec (brk_top (kern h)) 0); [lia |].
  erewrite bind_ret by reflexivity. unfold MBLOCKSIZE. rewrite HM. cbn [Z.eqb negb]. eexists. split; [reflexivity |]. split; cbn [heapbase heaptop cells kern].
  - split; cbn [heapbase heaptop cells kern units laid]; [lia | lia | lia | done].
  - done.
  - done.
  - intros p ws Hp. by rewrite lookup_empty in Hp.
  - intros p k [].
Qed.

Lemma malloc_first h h' n : fresh h -> malloc_init h = Ok (Ret tt h') -> heapbase h' <> 0 -> malloc n h = malloc n h'.
Proof.
  intros (H1 & _) E Hne. unfold malloc. erewrite bind_ret by reflexivity. rewrite H1. cbn [Z.eqb]. rewrite (bind_ret _ _ _ _ _ E). symmetry.
  erewrite bind_ret by reflexivity. destruct (Z.eqb_spec (heapbase h') 0); [done |]. by erewrite bind_ret by reflexivity.
Qed.

(** ** Histories *)

(** What a program does with its heap; words are counted from the beginning of
    the allocation. *)
Inductive hop := Malloc (n : Z) | Free (p : Z) | Read (p i : Z) | Write (p i w : Z).

Definition heap_call (o : hop) : M Z :=
  match o with
  | Malloc n => malloc n
  | Free p => free p;; ret 0
  | Read p i => load (p + 4 * i)
  | Write p i w => store (p + 4 * i) w;; ret 0
  end.

(** What it may do: not more than a gigabyte at a time, frees of what it has,
    and accesses inside its allocations. *)
Definition allowed (A : allocs) (o : hop) : Prop :=
  match o with
  | Malloc n => 0 <= n <= 2 ^ 30
  | Free p => p = 0 \/ is_Some (A !! p)
  | Read p i | Write p i _ => exists ws, A !! p = Some ws /\ 0 <= i < zlen ws
  end.

(** What it may count on: NULL, or an address of its own, at a multiple of
    eight and apart from the other allocations; and what it has written. *)
Definition answers (A : allocs) (o : hop) (r : Z) : Prop :=
  match o with
  | Malloc n => r = 0 \/ (r <> 0 /\ r mod 8 = 0 /\ A !! r = None /\ forall q ws, A !! q = Some ws -> r + n <= q \/ q + 4 * zlen ws <= r)
  | Read p i => forall ws w, A !! p = Some ws -> zget ws i = Some (Some w) -> r = w
  | _ => True
  end.

Definition after (A : allocs) (o : hop) (r : Z) : allocs :=
  match o with
  | Malloc n => if r =? 0 then A else <[r := new_words n]> A
  | Free p => delete p A
  | Read _ _ => A
  | Write p i w => match A !! p with Some ws => <[p := <[Z.to_nat i := Some w]> ws]> A | None => A end
  end.

(** As long as the program does what it may, every call returns what it may
    count on. *)
Fixpoint behaves (ops : list hop) (h : heap) (A : allocs) : Prop :=
  match ops with
  | [] => holds h A
  | o :: ops => allowed A o -> exists r h', heap_call o h = Ok (Ret r h') /\ answers A o r /\ behaves ops h' (after A o r)
  end.

Lemma malloc_served h A n : holds h A -> 0 <= n <= 2 ^ 30 -> exists r h', malloc n h = Ok (Ret r h') /\ answers A (Malloc n) r /\ holds h' (after A (Malloc n) r).
Proof using SbrkLaws0.
  intros HH Hn. assert (Hr : exists h0 l, malloc n h = malloc n h0 /\ rep h0 A l).
  { destruct HH as [[HF ->] | [l HR]]; [ | by exists h, l]. destruct (init_ok h HF) as (h0 & E & HR). exists h0, []. split; [ | done]. apply (malloc_first h h0 n HF E).
    pose proof (so_base _ _ (rp_sound _ _ _ HR)). lia. }
  destruct Hr as (h0 & l & -> & HR). destruct (malloc_rep h0 A l n HR Hn) as (r & h' & E & [(-> & HR' & _) | (Hne & Hal & Hnew & Hap & HR')]); exists r || exists 0; exists h'; (split; [exact E |]).
  - split; [by left | by right].
  - split; [by right |]. cbn [after]. destruct (Z.eqb_spec r 0); [done | by right].
Qed.

Lemma behaves_holds ops : forall h A, holds h A -> behaves ops h A.
Proof using SbrkLaws0.
  induction ops as [ | o ops IH]; intros h A HH; cbn [behaves]; [done |]. destruct o as [n | p | p i | p i w]; cbn [allowed heap_call].
  - intros Hn. destruct (malloc_served h A n HH Hn) as (r & h' & E & HA & HH'). exists r, h'. split; [done |]. split; [done |]. by apply IH.
  - intros Hp. assert (E : exists h', free p h = Ok (Ret tt h') /\ holds h' (delete p A)).
    { destruct (decide (p = 0)) as [-> | Hne].
      - exists h. split; [done |]. rewrite delete_id; [done |]. destruct HH as [[_ ->] | [l HR]]; [apply lookup_empty |]. apply eq_None_not_Some. intros [ws Hws].
        destruct (rp_alloc _ _ _ HR 0 ws Hws) as (k & Hu & _). pose proof (rp_sound _ _ _ HR) as HS. destruct (used_range _ _ _ _ _ _ (so_laid _ _ HS) Hu). pose proof (so_base _ _ HS). lia.
      - destruct Hp as [? | [ws Hws]]; [done |]. destruct HH as [[_ ->] | [l HR]]; [by rewrite lookup_empty in Hws |]. destruct (free_rep h A l p ws HR Hws) as (h' & E & HR' & _). exists h'. split; [done | by right]. }
    destruct E as (h' & E & HH'). exists 0, h'. rewrite (bind_ret _ _ _ _ _ E). split; [done |]. split; [done |]. by apply IH.
  - intros (ws & Hws & Hi). destruct HH as [[_ ->] | [l HR]]; [by rewrite lookup_empty in Hws |]. exists (cells h (p + 4 * i)), h. rewrite load_ok by (by eapply alloc_reach). split; [done |].
    split; [ | apply IH; right; by eexists]. intros vs w Hvs Hw. destruct (rp_alloc _ _ _ HR p vs Hvs) as (k & _ & _ & Hc). by apply Hc.
  - intros (ws & Hws & Hi). destruct HH as [[_ ->] | [l HR]]; [by rewrite lookup_empty in Hws |]. destruct (write_rep h A l p ws i w HR Hws Hi) as [E HR']. exists 0.
    eexists. rewrite (bind_ret _ _ _ _ _ E). split; [reflexivity |]. split; [done |]. apply IH. right. exists l. cbn [after]. by rewrite Hws.
Qed.

(** When the program has given everything back, its heap is one free block. *)
Lemma all_free h l : rep h ∅ l -> l = [] \/ exists k, l = [(k, false)].
Proof.
  intros HR. assert (Hno : forall p k, ~ used_at (heapbase h) l p k) by (intros p k Hu; destruct (rp_used _ _ _ HR p k Hu) as [? Hx]; by rewrite lookup_empty in Hx).
  pose proof (rp_tidy _ _ _ HR) as HT. destruct l as [ | [k u] l]; [by left |]. right. destruct u; [by destruct (Hno (heapbase h + 8) k); left |].
  exists k. destruct l as [ | [k2 u2] l]; [done |]. cbn in HT. destruct HT as (_ & HT & _). destruct u2; [ | done]. destruct (Hno (heapbase h + 8 * k + 8) k2). cbn. right. by left.
Qed.
End Malloc.
Arguments mkUheap {K} heapbase heaptop cells kern.
Arguments Ret {K A} a h.
Arguments Exits {K A} code.

(** C3: malloc and free, over an sbrk that keeps [SbrkLaws]: it moves the break by
    what was asked for and returns the old break, or refuses and moves nothing,
    and never refuses 0 (the sbrk of this kernel does not keep them: file
    MallocSbrk), with the break at a multiple of eight when the program starts
    ([fresh]).  However a program calls them, as long as it asks for at
    most a gigabyte at a time, frees what it has got and stays inside of it,
    every call returns, whatever sbrk grants or refuses: malloc gives NULL, or
    an address at a multiple of eight of memory apart from all that is
    allocated, and every word reads as it was last written. *)
Theorem malloc_allocates {K} `{SbrkLaws K} (h : @heap K) ops : fresh h -> behaves ops h ∅.
Proof. intros HF. apply behaves_holds. left. done. Qed.

(** Freeing twice is noticed, whether or not the block was joined with another
    one: the second call ends the program. *)
Theorem double_free_caught {K} `{SbrkLaws K} (h : @heap K) A p ws :
  holds h A -> A !! p = Some ws -> exists h', free p h = Ok (Ret tt h') /\ holds h' (delete p A) /\ free p h' = Ok (Exits 1).
Proof.
  intros [[_ ->] | [l HR]] Hp; [by rewrite lookup_empty in Hp |]. destruct (free_rep h A l p ws HR Hp) as (h' & E & HR' & E2). exists h'. split; [done |]. split; [by right | done].
Qed.

(** NULL comes only from a refusal of sbrk, for a request of a page more than
    the size at most. *)
Theorem malloc_null_refused {K} `{SbrkLaws K} (h h' : @heap K) A l n :
  rep h A l -> 0 <= n <= 2 ^ 30 -> malloc n h = Ok (Ret 0 h') -> exists inc, inc <= n + 4112 /\ (sbrk (kern h) inc).2 = None.
Proof.
  intros HR Hn E. destruct (malloc_rep h A l n HR Hn) as (r & h2 & E2 & HM). rewrite E in E2. injection E2 as <- <-. destruct HM as [(_ & _ & g & Hg & Hno) | (? & _)]; [ | done].
  exists (8 * g). split; [lia | done].
Qed.

(** Sizes that are within seven bytes of 2^32 wrap around when they are rounded
    up: the caller gets a block without a single byte. *)
Theorem malloc_huge_wraps {K} `{Sbrk K} (h : @heap K) n : 2 ^ 32 - 8 < n < 2 ^ 32 -> malloc n h = malloc 0 h.
Proof.
  intros Hn. unfold malloc, MBLOCKSIZE. assert (Hz : Z.ldiff (u32 (n + 8 - 1)) (8 - 1) = Z.ldiff (u32 (0 + 8 - 1)) (8 - 1)); [ | by rewrite Hz].
  replace (u32 (n + 8 - 1)) with (n + 7 - 2 ^ 32) by (unfold u32; div_lia). change (Z.ldiff (u32 (0 + 8 - 1)) (8 - 1)) with 0. change (8 - 1) with (Z.ones 3).
  rewrite Z.ldiff_ones_r, Z.shiftl_mul_pow2, Z.shiftr_div_pow2 by lia. change (2 ^ 3) with 8. div_lia.
Qed.

(** ** A kernel that keeps the promise *)

Record space := mkSpace { sp_base : Z; sp_top : Z; sp_limit : Z }.

#[global] Instance space_sbrk : Sbrk space := {|
  sbrk s inc :=
    if (inc =? 0) || ((sp_base s <=? sp_top s + s32 inc) && (sp_top s + s32 inc <=? Z.min (sp_limit s) USERSPACETOP))
    then (mkSpace (sp_base s) (sp_top s + s32 inc) (sp_limit s), Some (sp_top s)) else (s, None);
  brk_base := sp_base;
  brk_top := sp_top
|}.

#[global] Instance space_laws : SbrkLaws space.
Proof.
  split.
  - intros k inc Hi Hb Ht. cbn. assert (s32 inc = inc) as -> by (unfold s32; rewrite Z.mod_small; lia). destruct (Z.eqb_spec inc 0) as [-> | Hne]; cbn [orb].
    + cbn. split; [done |]. rewrite Z.add_0_r. done.
    + destruct (Z.leb_spec (sp_base k) (sp_top k + inc)), (Z.leb_spec (sp_top k + inc) (Z.min (sp_limit k) USERSPACETOP)); cbn; split; try done. split; [done |]. split; [done | lia].
  - intros k Hb Ht. cbn. done.
Qed.

Definition demo_heap : @heap space := mkUheap 0 0 (fun _ => 99) (mkSpace 4096 4096 65536).

(** Blocks are taken, written, freed and joined, and taken again; one request
    is too large. *)
Definition demo_ops : list hop :=
  [Malloc 20; Write 4104 0 7; Malloc 5000; Write 4136 0 8; Malloc 1; Free 4136; Read 4104 0; Free 4104; Malloc 100000; Malloc 5016; Malloc 0].

Fixpoint heap_run {K} `{Sbrk K} (ops : list hop) (h : @heap K) : list Z :=
  match ops with
  | [] => []
  | o :: ops => match heap_call o h with Ok (Ret r h) => r :: heap_run ops h | _ => [-1] end
  end.

Lemma malloc_allocates_witness : behaves demo_ops demo_heap ∅ /\ heap_run demo_ops demo_heap = [4104; 0; 4136; 0; 9144; 0; 7; 0; 0; 4104; 9128].
Proof. split; [apply (malloc_allocates demo_heap demo_ops); repeat split; cbn; unfold USERSPACETOP; lia | vm_compute; reflexivity]. Defined.

Lemma malloc_huge_wraps_witness : malloc (2 ^ 32 - 1) demo_heap = malloc 0 demo_heap.
Proof. apply (malloc_huge_wraps demo_heap (2 ^ 32 - 1)). lia. Defined.
