(* ===== verification/MallocSbrk.v ===== *)
(** malloc on this kernel: the system call sbrk of file Process below the
    allocator of file Malloc.

    sys_sbrk adds four bytes to every request that is a multiple of four, that
    for nothing included, so the break is never where malloc has left it. *)
From S2P Require Import Prelude Process Malloc.

(** The part of the address space sys_sbrk works on. *)
Record heap_fields := mkFields { heapstart : Z; heapend : Z; stackpbase : Z }.

(** The system call as programs see it: the library turns errors into -1. *)
#[global] Instance kernel_sbrk : Sbrk heap_fields := {|
  sbrk k inc :=
    let '(err, retval, e) := sbrk_fields (heapstart k) (heapend k) (stackpbase k) (s32 inc) in
    (mkFields (heapstart k) e (stackpbase k), if err =? 0 then Some (u32 retval) else None);
  brk_base := heapstart;
  brk_top := heapend
|}.

Definition in_place (k : heap_fields) : Prop := 0 < heapstart k <= heapend k /\ heapend k < 2 ^ 31.

(** Nothing, or the old break, with the new one four bytes too far. *)
Lemma kernel_moves k inc :
  in_place k -> 0 <= inc < 2 ^ 30 ->
  exists k', heapstart k' = heapstart k /\
    ((sbrk k inc = (k', None) /\ heapend k' = heapend k) \/ (sbrk k inc = (k', Some (heapend k)) /\ heapend k' = heapend k + 4 * (inc / 4) + 4)).
Proof.
  intros [[H0 H1] H2] Hi. cbn [sbrk kernel_sbrk]. assert (s32 inc = inc) as -> by (unfold s32; rewrite Z.mod_small; lia).
  destruct (sbrk_fields (heapstart k) (heapend k) (stackpbase k) inc) as [[err retval] e] eqn:E. apply sbrk_moves in E as [(-> & -> & -> & _) | [(-> & -> & _) | (-> & -> & _)]]; [ | | | lia | lia | lia].
  - eexists. split; [ | right; split; [cbn [Z.eqb]; rewrite u32_id by (unfold is_u32; lia); reflexivity |]]; [done |]. cbn [heapend]. rewrite Z.quot_div_nonneg by lia. lia.
  - eexists. split; [ | left; split; [reflexivity | done]]; done.
  - eexists. split; [ | left; split; [reflexivity | done]]; done.
Qed.

(** After the first call: malloc takes the heap to be empty and to begin where
    the break was. *)
Definition stuck (h : @heap heap_fields) : Prop :=
  0 < heapbase h < 2 ^ 31 /\ heaptop h = heapbase h /\ in_place (kern h) /\ heapend (kern h) = heapbase h + 4.

(** No memory comes out of it. *)
Definition no_memory (h : @heap heap_fields) (n : Z) : Prop := malloc n h = Ok (Exits 1) \/ exists h', malloc n h = Ok (Ret 0 h') /\ stuck h'.

Lemma stuck_malloc h n : stuck h -> 0 <= n < 2 ^ 29 -> no_memory h n.
Proof.
  intros (Hb & Ht & Hk & He) Hn. unfold no_memory, malloc. erewrite bind_ret by reflexivity. destruct (Z.eqb_spec (heapbase h) 0); [lia |].
  erewrite bind_ret by reflexivity. erewrite bind_ret by reflexivity. erewrite bind_ret by reflexivity. rewrite Ht.
  assert (Hck : (heapbase h =? 0) || (heapbase h =? 0) || (heapbase h <? heapbase h) = false) by (rewrite !orb_false_iff, !Z.eqb_neq, Z.ltb_ge; lia). rewrite Hck. clear Hck.
  rewrite round_size by lia. set (s := (n + 7) / 8). assert (Hs : 0 <= s <= 2 ^ 26) by (unfold s; div_lia). unfold loop_fuel. rewrite Z.sub_diag. 
  change (Z.to_nat (0 / MBLOCKSIZE)) with 0%nat. cbn [malloc_loop].
  erewrite bind_ret by (erewrite bind_ret by reflexivity; rewrite Ht, Z.ltb_irrefl; reflexivity). cbv beta iota. rewrite Z.eqb_refl. cbn [negb].
  unfold malloc_grow. erewrite bind_ret by reflexivity. erewrite bind_ret by reflexivity. unfold MBLOCKSIZE. rewrite (u32_id (8 + 8 * s)) by (unfold is_u32; lia).
  destruct (page_round (8 + 8 * s)) as (g & -> & Hg & _); [lia |]. unfold malloc_sbrk.
  destruct (kernel_moves (kern h) (8 * g) Hk) as (k' & Hs' & [[E Ee] | [E Ee]]); [lia | |].
  - right. eexists. erewrite bind_ret by (erewrite bind_ret by (by apply call_sbrk_eq); reflexivity). split; [reflexivity |].
    split; [done |]. split; [done |]. split; [ | cbn [kern heapbase]; lia]. destruct Hk as [[? ?] ?]. split; cbn [kern]; lia.
  - left. apply bind_exits. rewrite (bind_ret _ _ _ _ _ (call_sbrk_eq _ _ _ _ E)). cbv beta iota. erewrite bind_ret by reflexivity. erewrite bind_ret by reflexivity. cbn [heaptop].
    rewrite Ht, He. destruct (Z.eqb_spec (heapbase h + 4) (heapbase h)); [lia | reflexivity].
Qed.

(** Every request in turn, as long as the program runs. *)
Fixpoint never_served (ns : list Z) (h : @heap heap_fields) : Prop :=
  match ns with
  | [] => True
  | n :: ns => 0 <= n < 2 ^ 29 -> malloc n h = Ok (Exits 1) \/ exists h', malloc n h = Ok (Ret 0 h') /\ never_served ns h'
  end.

Lemma stuck_never ns : forall h, stuck h -> never_served ns h.
Proof.
  induction ns as [ | n ns IH]; intros h Hst; cbn [never_served]; [done |]. intros Hn. destruct (stuck_malloc h n Hst Hn) as [E | (h' & E & H')]; [by left |]. right. exists h'. split; [done | by apply IH].
Qed.

(** C39: malloc does not work on this kernel.  In a program that has not called
    it yet, wherever its heap begins, no call of malloc ever gives memory: it
    returns NULL when the kernel refuses, and otherwise finds that the top of
    the heap moved itself and ends the program. *)
Theorem malloc_never_works (h : @heap heap_fields) ns :
  heapbase h = 0 -> heaptop h = 0 -> in_place (kern h) -> heapend (kern h) + 4 < 2 ^ 31 -> never_served ns h.
Proof.
  intros Hb Ht Hk Hend. destruct ns as [ | n ns]; [done |]. intros Hn.
  destruct (kernel_moves (kern h) 0 Hk) as (k1 & Hs1 & [[E1 Ee1] | [E1 Ee1]]); [lia | |].
  { left. unfold malloc. erewrite bind_ret by reflexivity. rewrite Hb. cbn [Z.eqb]. apply bind_exits. unfold malloc_init. erewrite bind_ret by reflexivity. erewrite bind_ret by reflexivity.
    rewrite Hb, Ht. cbn [Z.eqb negb orb]. rewrite (bind_ret _ _ _ _ _ (call_sbrk_eq _ _ _ _ E1)). reflexivity. }
  change (4 * (0 / 4)) with 0 in Ee1. rewrite Z.add_0_r in Ee1. set (b := heapend (kern h)) in *. destruct Hk as [[Hk0 Hk1] Hk2]. fold b in Hk1, Hk2.
  set (h1 := mkUheap b b (cells h) k1 : @heap heap_fields).
  assert (Hst : stuck h1) by (split; [cbn; lia |]; split; [done |]; split; [split; cbn; lia | done]).
  assert (Hin : malloc_init h = Ok (Exits 1) \/ malloc_init h = Ok (Ret tt h1)).
  { unfold malloc_init. erewrite bind_ret by reflexivity. erewrite bind_ret by reflexivity. rewrite Hb, Ht. cbn [Z.eqb negb orb]. rewrite (bind_ret _ _ _ _ _ (call_sbrk_eq _ _ _ _ E1)).
    destruct (Z.eqb_spec b 0); [lia |]. erewrite bind_ret by reflexivity. cbn [cells kern]. destruct (Z.eqb_spec (b mod MBLOCKSIZE) 0) as [_ | Hm]; cbn [negb]; [by right |]. left.
    unfold MBLOCKSIZE in *. destruct (kernel_moves k1 (8 - b mod 8)) as (k2 & _ & [[E2 _] | [E2 _]]); [split; lia | div_lia | |].
    all: rewrite (bind_ret _ _ _ _ _ (call_sbrk_eq (mkUheap b b (cells h) k1) _ _ _ E2)); cbv beta iota.
    - reflexivity.
    - destruct (Z.eqb_spec (heapend k1) b); [lia | reflexivity]. }
  destruct Hin as [E | E].
  - left. unfold malloc. erewrite bind_ret by reflexivity. rewrite Hb. cbn [Z.eqb]. by apply bind_exits.
  - assert (Em : malloc n h = malloc n h1).
    { unfold malloc. erewrite bind_ret by reflexivity. rewrite Hb. cbn [Z.eqb]. rewrite (bind_ret _ _ _ _ _ E). symmetry. erewrite bind_ret by reflexivity. cbn [heapbase h1].
      destruct (Z.eqb_spec b 0); [lia |]. by erewrite bind_ret by reflexivity. }
    rewrite Em. destruct (stuck_malloc h1 n Hst Hn) as [E2 | (h' & E2 & H')]; [by left |]. right. exists h'. split; [done | by apply stuck_never].
Qed.

Definition demo_program : @heap heap_fields := mkUheap 0 0 (fun _ => 0) (mkFields 4194304 4194304 2147418112).

Lemma malloc_never_works_witness : never_served [100; 0] demo_program /\ malloc 100 demo_program = Ok (Exits 1).
Proof. split; [ | vm_compute; reflexivity]. apply (malloc_never_works demo_program [100; 0]); [reflexivity | reflexivity | repeat split; cbn; lia | cbn; lia]. Defined.
