(* ===== verification/Console.v ===== *)
(** The console: kern/dev/generic/console.c, on the serial port driver
    kern/dev/lamebus/lser.c, and reading lines from it (kern/lib/kgets.c).

    One thread uses the console while interrupts come in.  [script] is what the
    machine does: a batch of interrupts is taken at every place where the
    thread could be interrupted and the interrupt makes a difference, and when
    the thread waits batches are taken until it can go on.  After them the port
    still sends what it is given, but nothing more is typed, and a thread that
    waits for that waits for ever ([Hang]). *)
From S2P Require Import Prelude.

Definition CONSOLE_INPUT_BUFFER_SIZE := 32.
Definition DELAYBUFSIZE := 1024.

(** Interrupts of the serial port: a character was typed, or the character that
    was being sent has been sent. *)
Inductive irq := Typed (ch : Z) | Sent.

(** The softc of the console and that of the serial port, the static variables
    of console.c, what has been sent, and what is to come.  The semaphores are
    their counts. *)
Record con := mkCon {
  cs_rsem : Z;
  cs_wsem : Z;
  cs_gotchars : list Z;
  cs_gotchars_head : Z;
  cs_gotchars_tail : Z;
  ls_wbusy : bool;
  the_console : bool;
  delayed_outbuf : list Z;
  con_userlock_read : bool;
  con_userlock_write : bool;
  out : list Z;
  script : list (list irq)
}.

Definition with_read (s : con) (n : Z) (g : list Z) (h t : Z) : con :=
  mkCon n (cs_wsem s) g h t (ls_wbusy s) (the_console s) (delayed_outbuf s) (con_userlock_read s) (con_userlock_write s) (out s) (script s).
Definition with_write (s : con) (n : Z) (b : bool) (o : list Z) : con :=
  mkCon (cs_rsem s) n (cs_gotchars s) (cs_gotchars_head s) (cs_gotchars_tail s) b (the_console s) (delayed_outbuf s) (con_userlock_read s) (con_userlock_write s) o (script s).
Definition with_boot (s : con) (c : bool) (d : list Z) : con :=
  mkCon (cs_rsem s) (cs_wsem s) (cs_gotchars s) (cs_gotchars_head s) (cs_gotchars_tail s) (ls_wbusy s) c d (con_userlock_read s) (con_userlock_write s) (out s) (script s).
Definition with_locks (s : con) (r w : bool) : con :=
  mkCon (cs_rsem s) (cs_wsem s) (cs_gotchars s) (cs_gotchars_head s) (cs_gotchars_tail s) (ls_wbusy s) (the_console s) (delayed_outbuf s) r w (out s) (script s).
Definition with_script (s : con) (l : list (list irq)) : con :=
  mkCon (cs_rsem s) (cs_wsem s) (cs_gotchars s) (cs_gotchars_head s) (cs_gotchars_tail s) (ls_wbusy s) (the_console s) (delayed_outbuf s) (con_userlock_read s) (con_userlock_write s) (out s) l.

(** ** Interrupts *)

Definition con_input (s : con) (ch : Z) : res con :=
  let nexthead := (cs_gotchars_head s + 1) mod CONSOLE_INPUT_BUFFER_SIZE in
  if nexthead =? cs_gotchars_tail s then Ok s
  else
  let* g := access (zput (cs_gotchars s) (cs_gotchars_head s) (u8 ch)) in
  Ok (with_read s (cs_rsem s + 1) g nexthead (cs_gotchars_tail s)).

Definition con_start (s : con) : con := with_write s (cs_wsem s + 1) (ls_wbusy s) (out s).

(** The port reports the end of a transmission only when there was one. *)
Definition lser_irq (s : con) (i : irq) : res con :=
  match i with
  | Typed ch => con_input s ch
  | Sent => if ls_wbusy s then Ok (con_start (with_write s (cs_wsem s) false (out s))) else Ok s
  end.

Fixpoint deliver (s : con) (l : list irq) : res con :=
  match l with
  | [] => Ok s
  | i :: l => let* s := lser_irq s i in deliver s l
  end.

Definition interrupts (s : con) : res con :=
  match script s with
  | [] => deliver s [Sent]
  | b :: l => deliver (with_script s l) b
  end.

(** P on one of the semaphores, [n] batches at most. *)
Fixpoint wait (n : nat) (s : con) (count : con -> Z) : res con :=
  let* s := interrupts s in
  if 0 <? count s then Ok s
  else match n with O => Fault Hang | S n => wait n s count end.

(** ** The serial port *)

Definition lser_write (s : con) (ch : Z) : res con :=
  if ls_wbusy s then Fault PanicCall else Ok (with_write s (cs_wsem s) true (out s ++ [u8 ch])).

(** It waits for the port by itself and leaves everything as it was. *)
Definition lser_writepolled (s : con) (ch : Z) : con := with_write s (cs_wsem s) (ls_wbusy s) (out s ++ [u8 ch]).

(** ** Characters *)

Definition putch_intr (s : con) (ch : Z) : res con :=
  let* s := wait (length (script s)) s cs_wsem in
  lser_write (with_write s (cs_wsem s - 1) (ls_wbusy s) (out s)) ch.

Definition getch_intr (s : con) : res (con * Z) :=
  let* s := wait (length (script s)) s cs_rsem in
  let s := with_read s (cs_rsem s - 1) (cs_gotchars s) (cs_gotchars_head s) (cs_gotchars_tail s) in
  let* s := interrupts s in
  let* ret := access (zget (cs_gotchars s) (cs_gotchars_tail s)) in
  Ok (with_read s (cs_rsem s) (cs_gotchars s) (cs_gotchars_head s) ((cs_gotchars_tail s + 1) mod CONSOLE_INPUT_BUFFER_SIZE), ret).

Definition putch_delayed (s : con) (ch : Z) : res con :=
  kassert (zlen (delayed_outbuf s) <? DELAYBUFSIZE) (Ok (with_boot s (the_console s) (delayed_outbuf s ++ [u8 ch]))).

(** [nowait]: in an interrupt handler, with interrupts off, or with a spinlock
    held. *)
Definition putch (s : con) (nowait : bool) (ch : Z) : res con :=
  if negb (the_console s) then putch_delayed s ch
  else if nowait then Ok (lser_writepolled s ch)
  else putch_intr s ch.

Definition getch (s : con) (nowait : bool) : res (con * Z) := kassert (the_console s) (kassert (negb nowait) (getch_intr s)).

Fixpoint puts (s : con) (nowait : bool) (l : list Z) : res con :=
  match l with
  | [] => Ok s
  | ch :: l => let* s := putch s nowait ch in puts s nowait l
  end.

Definition flush_delay_buf (s : con) (nowait : bool) : res con :=
  let* s := puts s nowait (delayed_outbuf s) in
  Ok (with_boot s (the_console s) []).

(** The console is found; [mem] says whether the semaphores and the locks get
    memory, [added] is what attach_console_to_vfs returns. *)
Definition config_con (s : con) (unit : Z) (mem : bool) (added : Z) (nowait : bool) : res (con * Z) :=
  if 0 <? unit then kassert (the_console s) (Ok (s, ENODEV))
  else
  kassert (negb (the_console s)) (
  if negb mem then Ok (s, ENOMEM)
  else
  let s := mkCon 0 1 (cs_gotchars s) 0 0 (ls_wbusy s) true (delayed_outbuf s) false false (out s) (script s) in
  let* s := flush_delay_buf s nowait in
  Ok (s, added)).

(** ** The device *)

(** The loop of con_io when reading: [resid] bytes, and what the coming calls of
    uiomove return.  The bytes that were moved, and the result. *)
Fixpoint con_read_loop (resid : nat) (s : con) (moves : list Z) (got : list Z) : res (con * list Z * Z) :=
  match resid with
  | O => Ok (s, got, 0)
  | S resid =>
    let* (s, ch) := getch s false in
    let ch := if ch =? 13 then 10 else ch in
    let result := default 0 (head moves) in
    if negb (result =? 0) then Ok (s, got, result)
    else if ch =? 10 then Ok (s, got ++ [ch], 0)
    else con_read_loop resid s (tail moves) (got ++ [ch])
  end.

Fixpoint con_write_loop (s : con) (data moves : list Z) : res (con * Z) :=
  match data with
  | [] => Ok (s, 0)
  | ch :: data =>
    let result := default 0 (head moves) in
    if negb (result =? 0) then Ok (s, result)
    else
    let* s := (if ch =? 10 then putch s false 13 else Ok s) in
    let* s := putch s false ch in
    con_write_loop s data (tail moves)
  end.

(** The locks are those of one thread at a time, taken or not; what the
    assertions of lock_release say of processors is in file Synch. *)
Definition con_io_read (s : con) (resid : Z) (moves : list Z) : res (con * list Z * Z) :=
  if con_userlock_read s then Fault Hang
  else
  let s := with_locks s true (con_userlock_write s) in
  let* (s, got, result) := con_read_loop (Z.to_nat resid) s moves [] in
  Ok (with_locks s false (con_userlock_write s), got, result).

Definition con_io_write (s : con) (data moves : list Z) : res (con * Z) :=
  if con_userlock_write s then Fault Hang
  else
  let s := with_locks s (con_userlock_read s) true in
  let* (s, result) := con_write_loop s data moves in
  Ok (with_locks s (con_userlock_read s) false, result).

(** ** kgets *)

Definition backsp (s : con) : res con := puts s false [8; 32; 8].

(** The loops of ^U and ^W: [pos] goes down while [c] holds of the character in
    front. *)
Fixpoint erase_while (n : nat) (s : con) (buf : list Z) (pos : Z) (c : Z -> bool) : res (con * Z) :=
  if 0 <? pos then
    let* b := access (zget buf (pos - 1)) in
    if c b then
      match n with
      | O => Fault OutOfFuel
      | S n => let* s := backsp s in erase_while n s buf (pos - 1) c
      end
    else Ok (s, pos)
  else Ok (s, pos).

(** The line typed so far, up to its terminator. *)
Definition reprint (buf : list Z) (pos : Z) : list Z := [94; 82; 10] ++ take (Z.to_nat pos) buf.

(** A character that does nothing else makes the console beep, which leaves no
    trace here. *)
Fixpoint kgets_loop (n : nat) (s : con) (buf : list Z) (maxlen pos : Z) : res (con * list Z * Z) :=
  match n with
  | O => Fault OutOfFuel
  | S n =>
    let* (s, ch) := getch s false in
    if (ch =? 10) || (ch =? 13) then
      let* s := putch s false 10 in
      Ok (s, buf, pos)
    else if (32 <=? ch) && (ch <? 127) && (pos <? u32 (maxlen - 1)) then
      let* s := putch s false ch in
      let* buf := access (zput buf pos ch) in
      kgets_loop n s buf maxlen (pos + 1)
    else if ((ch =? 8) || (ch =? 127)) && (0 <? pos) then
      let* s := backsp s in
      kgets_loop n s buf maxlen (pos - 1)
    else if ch =? 3 then
      let* s := puts s false [94; 67; 10] in
      Ok (s, buf, 0)
    else if ch =? 18 then
      let* buf := access (zput buf pos 0) in
      let* s := puts s false (reprint buf pos) in
      kgets_loop n s buf maxlen pos
    else if ch =? 21 then
      let* (s, pos) := erase_while (Z.to_nat pos) s buf pos (fun _ => true) in
      kgets_loop n s buf maxlen pos
    else if ch =? 23 then
      let* (s, pos) := erase_while (Z.to_nat pos) s buf pos (fun b => b =? 32) in
      let* (s, pos) := erase_while (Z.to_nat pos) s buf pos (fun b => negb (b =? 32)) in
      kgets_loop n s buf maxlen pos
    else kgets_loop n s buf maxlen pos
  end.

(** The characters that can still be read. *)
Definition typed_left (s : con) : nat := (Z.to_nat (cs_rsem s) + length (concat (script s)))%nat.

Definition kgets (s : con) (buf : list Z) (maxlen : Z) : res (con * list Z) :=
  let* (s, buf, pos) := kgets_loop (S (typed_left s)) s buf maxlen 0 in
  let* buf := access (zput buf pos 0) in
  Ok (s, buf).

(** * The ring buffer is a queue *)

(** The characters waiting in the ring. *)
Record ring (s : con) (q : list Z) : Prop := {
  rg_len : zlen (cs_gotchars s) = 32 /\ zlen q <= 31;
  rg_tail : 0 <= cs_gotchars_tail s < 32;
  rg_head : cs_gotchars_head s = (cs_gotchars_tail s + zlen q) mod 32;
  rg_chars : forall i c, zget q i = Some c -> zget (cs_gotchars s) ((cs_gotchars_tail s + i) mod 32) = Some c
}.

(** [rt], [wt]: what a thread that has passed P and has not gone on yet holds. *)
Record con_inv (s : con) (q : list Z) (rt wt : Z) : Prop := {
  ci_ring : ring s q;
  ci_rsem : cs_rsem s + rt = zlen q /\ 0 <= cs_rsem s;
  ci_wsem : cs_wsem s + wt + (if ls_wbusy s then 1 else 0) = 1 /\ 0 <= cs_wsem s
}.

(** What else is on the console. *)
Definition same_rest (s s' : con) : Prop :=
  the_console s' = the_console s /\ delayed_outbuf s' = delayed_outbuf s /\ con_userlock_read s' = con_userlock_read s /\ con_userlock_write s' = con_userlock_write s.

Definition accept (q : list Z) (i : irq) : list Z :=
  match i with Typed ch => if zlen q <? 31 then q ++ [u8 ch] else q | Sent => q end.

Definition typed_of (l : list irq) : list Z := flat_map (fun i => match i with Typed ch => [u8 ch] | Sent => [] end) l.

Lemma zget_app_l {A} (l1 l2 : list A) i : i < zlen l1 -> zget (l1 ++ l2) i = zget l1 i.
Proof. intros Hi. unfold zget, zlen in *. case_if; [done |]. apply lookup_app_l. lia. Qed.

Lemma zget_last {A} (l : list A) x : zget (l ++ [x]) (zlen l) = Some x.
Proof. unfold zget, zlen. destruct (Z.ltb_spec (Z.of_nat (length l)) 0); [lia |]. rewrite Nat2Z.id. by rewrite list_lookup_middle. Qed.

Lemma zlen_snoc {A} (l : list A) x : zlen (l ++ [x]) = zlen l + 1.
Proof. unfold zlen. rewrite length_app. cbn. lia. Qed.

(** A character is dropped exactly if 31 are waiting. *)
Lemma input_ok s q rt wt ch : con_inv s q rt wt -> exists s', con_input s ch = Ok s' /\ con_inv s' (accept q (Typed ch)) rt wt /\ same_rest s s' /\ out s' = out s /\ script s' = script s.
Proof.
  intros [[[RL RQ] RT RH RC] [HR HR0] HW]. unfold con_input, CONSOLE_INPUT_BUFFER_SIZE. cbn [accept]. pose proof (Zle_0_nat (length q)) as Hq. fold (zlen q) in Hq.
  rewrite RH. destruct (Z.eqb_spec (((cs_gotchars_tail s + zlen q) mod 32 + 1) mod 32) (cs_gotchars_tail s)) as [E | E].
  - destruct (Z.ltb_spec (zlen q) 31); [exfalso; div_lia |]. exists s. split; [done |]. split; [by split; [split | |] |]. split; [done |]. split; [done |]. done.
  - destruct (Z.ltb_spec (zlen q) 31); [ | exfalso; apply E; div_lia]. destruct (zput_lt (cs_gotchars s) ((cs_gotchars_tail s + zlen q) mod 32) (u8 ch)) as [g Eg]; [div_lia |].
    rewrite Eg. cbn [access rbind]. eexists. split; [reflexivity |]. split; [ | split; [done |]; split; [done | done]].
    split; [split | |]; cbn [with_read cs_rsem cs_wsem cs_gotchars cs_gotchars_head cs_gotchars_tail ls_wbusy]; rewrite ?zlen_snoc; [ | done | div_lia | | lia | done].
    + split; [by rewrite (zput_length _ _ _ _ Eg) | lia].
    + intros i c Hi. pose proof (zget_Some _ _ _ Hi) as Hr. rewrite zlen_snoc in Hr. rewrite (zget_zput _ _ _ _ _ Eg). destruct (Z.eq_dec i (zlen q)) as [-> | Hne].
      * rewrite decide_True by done. by rewrite zget_last in Hi.
      * rewrite zget_app_l in Hi by lia. rewrite decide_False by div_lia. by apply RC.
Qed.

Lemma irq_ok s q rt wt i : con_inv s q rt wt -> exists s', lser_irq s i = Ok s' /\ con_inv s' (accept q i) rt wt /\ same_rest s s' /\ out s' = out s /\ script s' = script s.
Proof.
  intros HI. destruct i as [ch | ]; cbn [lser_irq accept]; [by apply input_ok |]. destruct (ls_wbusy s) eqn:Hb; [ | by exists s].
  eexists. split; [reflexivity |]. destruct HI as [HR HR2 HW]. rewrite Hb in HW. split; [split; [by destruct HR; split | done | cbn; lia] | done].
Qed.

Lemma same_rest_trans s1 s2 s3 : same_rest s1 s2 -> same_rest s2 s3 -> same_rest s1 s3.
Proof. intros (A1 & A2 & A3 & A4) (B1 & B2 & B3 & B4). repeat split; congruence. Qed.

(** Of the characters [l] that are typed while [q] wait, [arr] get in: all of
    them if there is room. *)
Definition arrive (q l arr : list Z) : Prop := arr `sublist_of` l /\ (zlen q + zlen l <= 31 -> arr = l).

Lemma arrive_app q l1 l2 a1 a2 q1 cs : arrive q l1 a1 -> q ++ a1 = cs ++ q1 -> arrive q1 l2 a2 -> arrive q (l1 ++ l2) (a1 ++ a2).
Proof.
  intros [S1 A1] E [S2 A2]. split; [by apply sublist_app |]. unfold zlen in *. rewrite length_app. intros Hl. rewrite A1, A2; [done | | lia].
  apply (f_equal length) in E. rewrite !length_app in E. apply sublist_length in S1. lia.
Qed.

(** Interrupts only add to the queue, some of what was typed. *)
Lemma deliver_ok l : forall s q rt wt, con_inv s q rt wt ->
  exists s' arr, deliver s l = Ok s' /\ con_inv s' (q ++ arr) rt wt /\ arrive q (typed_of l) arr /\ same_rest s s' /\ out s' = out s /\ script s' = script s.
Proof.
  induction l as [ | i l IH]; intros s q rt wt HI; cbn [deliver].
  { exists s, []. rewrite app_nil_r. split; [done |]. split; [done |]. split; [by split | done]. }
  destruct (irq_ok s q rt wt i HI) as (s1 & -> & HI1 & B1 & O1 & S1). cbn [rbind]. destruct (IH s1 _ rt wt HI1) as (s2 & arr & -> & HI2 & Hs & B2 & O2 & S2).
  assert (Ha : exists a1, accept q i = q ++ a1 /\ arrive q (typed_of [i]) a1).
  { destruct i as [ch | ]; cbn [accept]; [ | exists []; rewrite app_nil_r; by split]. unfold arrive. destruct (Z.ltb_spec (zlen q) 31); [by exists [u8 ch] |].
    exists []. rewrite app_nil_r. split; [done |]. split; [apply sublist_nil_l |]. unfold zlen in *. cbn. lia. }
  destruct Ha as (a1 & Ea & Hsa). exists s2, (a1 ++ arr). rewrite Ea in HI2, Hs. rewrite <- app_assoc in HI2. split; [done |]. split; [done |]. split; [ | split; [by eapply same_rest_trans | split; congruence]].
  change (i :: l) with ([i] ++ l). unfold typed_of. rewrite flat_map_app. by apply (arrive_app _ _ _ _ _ (q ++ a1) []).
Qed.

(** From [s] to [s'] the characters [cs] were taken: they are the first of those
    that waited and of those that came in, in order; more of the script has
    been used. *)
Record moved (s : con) (q : list Z) (s' : con) (q' cs : list Z) : Prop := {
  mv_rest : same_rest s s';
  mv_fifo : exists used arr, script s = used ++ script s' /\ arrive q (typed_of (concat used)) arr /\ q ++ arr = cs ++ q';
  mv_left : (typed_left s' + length cs <= typed_left s)%nat
}.

Lemma moved_refl s q : moved s q s q [].
Proof. split; [done | | cbn; lia]. exists [], []. split; [done |]. split; [by split |]. by rewrite app_nil_r. Qed.

Lemma chars_trans s1 q1 s2 q2 s3 q3 c1 c2 : moved s1 q1 s2 q2 c1 -> moved s2 q2 s3 q3 c2 -> moved s1 q1 s3 q3 (c1 ++ c2).
Proof.
  intros [B1 (u1 & a1 & E1 & S1 & F1) L1] [B2 (u2 & a2 & E2 & S2 & F2) L2]. split; [by eapply same_rest_trans | | rewrite length_app; lia].
  exists (u1 ++ u2), (a1 ++ a2). split; [rewrite E1, E2; by rewrite app_assoc |]. split; [unfold typed_of in *; rewrite concat_app, flat_map_app; by eapply arrive_app |].
  rewrite app_assoc, F1, <- app_assoc, F2. by rewrite app_assoc.
Qed.

Lemma typed_of_length l : (length (typed_of l) <= length l)%nat.
Proof. induction l as [ | [ch | ] l IH]; cbn [typed_of flat_map app length] in *; unfold typed_of in *; lia. Qed.

Lemma interrupts_ok s q rt wt : con_inv s q rt wt -> exists s' q', interrupts s = Ok s' /\ con_inv s' q' rt wt /\ moved s q s' q' [] /\ out s' = out s /\
  script s' = tail (script s) /\ (script s = [] -> ls_wbusy s' = false).
Proof.
  intros HI. unfold interrupts. destruct (script s) as [ | b l] eqn:Es.
  { destruct (deliver_ok [Sent] s q rt wt HI) as (s' & arr & E & HI' & [Hs _] & B & O & S). apply sublist_nil_r in Hs as ->. rewrite app_nil_r in HI'. exists s', q. split; [done |]. split; [done |].
    destruct HI as [_ HR _]. pose proof HI' as [_ HR' _]. split; [ | split; [done |]; split; [by rewrite S, Es |]; intros _; cbn in E; destruct (ls_wbusy s) eqn:Hb; injection E as <-; done].
    split; [done | | unfold typed_left; rewrite S; cbn; lia]. exists [], []. rewrite S, Es. split; [done |]. split; [by split | by rewrite app_nil_r]. }
  assert (HI' : con_inv (with_script s l) q rt wt) by (destruct HI as [[? ? ? ?] ? ?]; by split; [split | |]).
  destruct (deliver_ok b _ _ _ _ HI') as (s' & arr & -> & HI2 & Hs & B & O & S). exists s', (q ++ arr). split; [done |]. split; [done |]. split; [ | done].
  split; [done | |].
  - exists [b], arr. rewrite S, Es. split; [done |]. split; [cbn; by rewrite app_nil_r | done].
  - destruct HI as [_ [HR _] _]. destruct HI2 as [_ [HR2 _] _]. unfold typed_left. rewrite S, Es. cbn [with_script script concat length cs_rsem] in *. rewrite length_app. unfold zlen in *.
    rewrite length_app in HR2. destruct Hs as [Hs%sublist_length _]. pose proof (typed_of_length b). lia.
Qed.

(** A call returns and [Q] holds of what it returns, or it waits for ever, and
    [stall] holds. *)
Definition waits_or {A} (m : res A) (stall : Prop) (Q : A -> Prop) : Prop := (m = Fault Hang /\ stall) \/ exists a, m = Ok a /\ Q a.

Lemma waits_bind {A B} (m : res A) (k : A -> res B) (st1 st2 : Prop) (P : A -> Prop) (Q : B -> Prop) :
  waits_or m st1 P -> (st1 -> st2) -> (forall a, P a -> waits_or (k a) st2 Q) -> waits_or (rbind m k) st2 Q.
Proof. intros [[-> Hs] | (a & -> & Ha)] Hst Hk; [left; auto | by apply Hk]. Qed.

Lemma waits_run {A B} (m : res A) (k : A -> res B) (st : Prop) (P : A -> Prop) (Q : B -> Prop) :
  runs m P -> (forall a, P a -> waits_or (k a) st Q) -> waits_or (rbind m k) st Q.
Proof. intros (a & -> & Ha)%runs_Ok Hk. by apply Hk. Qed.

Lemma waits_ret {A} (a : A) (st : Prop) (Q : A -> Prop) : Q a -> waits_or (Ok a) st Q.
Proof. intros Ha. right. by exists a. Qed.

Lemma wait_ok n : forall s q rt wt count, con_inv s q rt wt -> (length (script s) <= n)%nat ->
  waits_or (wait n s count) (exists s' q', con_inv s' q' rt wt /\ moved s q s' q' [] /\ script s' = [] /\ ls_wbusy s' = false /\ count s' <= 0)
    (fun s' => exists q', con_inv s' q' rt wt /\ moved s q s' q' [] /\ out s' = out s /\ 0 < count s').
Proof.
  induction n as [ | n IH]; intros s q rt wt count HI Hn; cbn [wait]; destruct (interrupts_ok s q rt wt HI) as (s1 & q1 & -> & HI1 & M1 & O1 & S1 & W1); cbn [rbind].
  all: destruct (Z.ltb_spec 0 (count s1)) as [Hc | Hc]; [apply waits_ret; by exists q1 |].
  - left. split; [done |]. destruct (script s); [ | cbn in Hn; lia]. exists s1, q1. split; [done |]. split; [done |]. split; [done |]. split; [by apply W1 | lia].
  - destruct (IH s1 q1 rt wt count HI1) as [[E (s2 & q2 & HI2 & M2 & Hs)] | (s2 & E & q2 & HI2 & M2 & O2 & Hc2)]; [rewrite S1; destruct (script s); cbn in *; lia | |].
    + left. split; [done |]. exists s2, q2. split; [done |]. split; [exact (chars_trans _ _ _ _ _ _ [] [] M1 M2) | done].
    + right. exists s2. split; [done |]. exists q2. split; [done |]. split; [exact (chars_trans _ _ _ _ _ _ [] [] M1 M2) |]. split; [congruence | done].
Qed.

(** The characters [cs] are all that wait or will ever come in. *)
Definition used_up (s : con) (q cs : list Z) : Prop := exists arr, arrive q (typed_of (concat (script s))) arr /\ q ++ arr = cs.

Lemma moved_used_up s q s' q' c1 c2 : moved s q s' q' c1 -> used_up s' q' c2 -> used_up s q (c1 ++ c2).
Proof.
  intros [_ (u & a1 & E1 & A1 & F1) _] (a2 & A2 & F2). exists (a1 ++ a2). rewrite E1. unfold typed_of in *. rewrite concat_app, flat_map_app.
  split; [by eapply arrive_app |]. by rewrite app_assoc, F1, <- app_assoc, F2.
Qed.

(** A character comes out: the first one waiting. *)
Definition got (s : con) (q : list Z) (r : con * Z) : Prop := exists q', con_inv r.1 q' 0 0 /\ moved s q r.1 q' [r.2] /\ out r.1 = out s.

Lemma getch_ok s q : con_inv s q 0 0 -> the_console s = true -> waits_or (getch s false) (used_up s q []) (got s q).
Proof.
  intros HI Hc. unfold getch. rewrite Hc. cbn [kassert negb]. unfold getch_intr. eapply waits_bind; [by apply (wait_ok _ s q 0 0) | |].
  { intros (s1 & q1 & [_ [HR HR0] _] & M & Hs & _ & H0). assert (q1 = []) as -> by (destruct q1; [done | unfold zlen in *; cbn in *; lia]).
    apply (moved_used_up _ _ _ _ [] [] M). exists []. rewrite Hs. by split; [split |]. }
  intros s1 (q1 & HI1 & M1 & O1 & H1). set (s1' := with_read s1 (cs_rsem s1 - 1) (cs_gotchars s1) (cs_gotchars_head s1) (cs_gotchars_tail s1)).
  assert (HI1' : con_inv s1' q1 1 0) by (destruct HI1 as [[R1 R2 R3 R4] [HR HR0] HW]; split; [by split | cbn; lia | done]).
  destruct (interrupts_ok s1' q1 1 0 HI1') as (s2 & q2 & -> & HI2 & M2 & O2 & _). cbn [rbind]. destruct HI2 as [[[L1 L2] T HH C] [HR HR0] HW].
  destruct q2 as [ | c q2]; [unfold zlen in HR; cbn in HR; lia |]. pose proof (C 0 c eq_refl) as E0. rewrite Z.add_0_r, Z.mod_small in E0 by lia. rewrite E0. cbn [access rbind]. apply waits_ret.
  unfold zlen in HR, HH, L2. cbn [length] in HR, HH, L2. exists q2. cbn [fst snd]. split; [split; [split | |] |]; cbn [with_read cs_rsem cs_wsem cs_gotchars cs_gotchars_head cs_gotchars_tail ls_wbusy].
  - split; [done | unfold zlen; lia].
  - unfold CONSOLE_INPUT_BUFFER_SIZE. div_lia.
  - rewrite HH. unfold CONSOLE_INPUT_BUFFER_SIZE, zlen. div_lia.
  - intros i x Hi. pose proof (zget_Some _ _ _ Hi) as Hr. specialize (C (i + 1) x). rewrite <- C; [f_equal; unfold CONSOLE_INPUT_BUFFER_SIZE; div_lia |].
    unfold zget in *. destruct (Z.ltb_spec i 0), (Z.ltb_spec (i + 1) 0); try lia; try done. by replace (Z.to_nat (i + 1)) with (S (Z.to_nat i)) by lia.
  - unfold zlen. lia.
  - exact HW.
  - split; [ | cbn; rewrite O2; done]. destruct M1 as [B1 (u1 & a1 & E1 & S1 & F1) L1']. destruct M2 as [B2 (u2 & a2 & E2 & S2 & F2) L2'].
    split; [eapply same_rest_trans; [exact B1 | exact B2] | |].
    + exists (u1 ++ u2), (a1 ++ a2). cbn [with_read script s1' app] in *. split; [rewrite E1, E2; by rewrite app_assoc |]. split; [unfold typed_of in *; rewrite concat_app, flat_map_app; by apply (arrive_app _ _ _ _ _ q1 []) |].
      by rewrite app_assoc, F1, F2.
    + unfold typed_left in *. cbn [with_read cs_rsem script s1' length] in *. lia.
Qed.

(** The characters [l] go out; the port is never found busy, and never waited
    for in vain. *)
Definition put (s : con) (q l : list Z) (s' : con) : Prop := exists q', con_inv s' q' 0 0 /\ moved s q s' q' [] /\ out s' = out s ++ (u8 <$> l).

Lemma putch_ok s q ch nowait : con_inv s q 0 0 -> the_console s = true -> runs (putch s nowait ch) (put s q [ch]).
Proof.
  intros HI Hc. unfold putch. rewrite Hc. cbn [negb]. destruct nowait.
  { exists q. split; [by destruct HI as [[? ? ? ?] ? ?]; split; [split | |] |]. split; [ | done]. destruct (moved_refl s q) as [B F L]. by split. }
  unfold putch_intr. destruct (wait_ok (length (script s)) s q 0 0 cs_wsem HI) as [[_ (s1 & q1 & HI1 & _ & _ & Hb & H1)] | (s1 & -> & q1 & [[R1 R2 R3 R4] HR [HW HW0]] & M1 & O1 & H1)]; [done | |].
  { destruct HI1 as [_ _ [HW _]]. rewrite Hb in HW. lia. }
  destruct (ls_wbusy s1) eqn:Hb; [lia |]. cbn [rbind]. unfold lser_write. cbn [with_write ls_wbusy]. rewrite Hb. exists q1. split; [split; [by split | done | cbn; lia] |].
  split; [ | cbn; by rewrite O1]. destruct M1 as [B F L]. by split.
Qed.

Lemma moved_console s q s' q' cs : moved s q s' q' cs -> the_console s' = the_console s.
Proof. intros HM. by destruct (mv_rest _ _ _ _ _ HM) as [-> _]. Qed.

Lemma puts_ok l nowait : forall s q, con_inv s q 0 0 -> the_console s = true -> runs (puts s nowait l) (put s q l).
Proof.
  induction l as [ | ch l IH]; intros s q HI Hc; cbn [puts].
  { exists q. split; [done |]. split; [apply moved_refl | cbn; by rewrite app_nil_r]. }
  eapply runs_bind; [by apply (putch_ok s q) |]. intros s1 (q1 & HI1 & M1 & O1).
  eapply runs_mono; [apply (IH s1 q1 HI1); by rewrite (moved_console _ _ _ _ _ M1) |]. intros s2 (q2 & HI2 & M2 & O2). exists q2. split; [done |].
  split; [exact (chars_trans _ _ _ _ _ _ [] [] M1 M2) |]. rewrite O2, O1, <- app_assoc. done.
Qed.

(** ** Reading and writing the device *)

Definition crnl (c : Z) : Z := if c =? 13 then 10 else c.
Definition crlf (l : list Z) : list Z := flat_map (fun c => if c =? 10 then [13; 10] else [c]) l.

(** What a read of [n] bytes delivers: a line or [n] bytes, of the characters
    [cs] taken; a character that cannot be stored is lost. *)
Definition read_answer (n : nat) (d cs : list Z) (result : Z) : Prop :=
  (result = 0 /\ d = crnl <$> cs /\ (length d <= n)%nat /\ (forall l, d = l ++ [10] -> 10 ∉ l) /\ (10 ∈ d -> exists l, d = l ++ [10]) /\ (length d = n \/ 10 ∈ d)) \/
  (result <> 0 /\ exists c, cs = take (length d) cs ++ [c] /\ d = crnl <$> take (length d) cs /\ 10 ∉ d /\ (length d < n)%nat).

(** All that is ever typed is neither a line nor as much as is asked for. *)
Definition read_stall (n : nat) (s : con) (q : list Z) : Prop := exists cs, used_up s q cs /\ (length cs < n)%nat /\ 10 ∉ crnl <$> cs.

Lemma read_loop_ok n : forall s q moves acc, con_inv s q 0 0 -> the_console s = true ->
  waits_or (con_read_loop n s moves acc) (read_stall n s q) (fun r => exists q' cs d, con_inv r.1.1 q' 0 0 /\ moved s q r.1.1 q' cs /\ out r.1.1 = out s /\ r.1.2 = acc ++ d /\ read_answer n d cs r.2).
Proof.
  induction n as [ | n IH]; intros s q moves acc HI Hc; cbn [con_read_loop].
  { apply waits_ret. exists q, [], []. cbn. rewrite app_nil_r. split; [done |]. split; [apply moved_refl |]. split; [done |]. split; [done |]. left. split; [done |]. split; [done |]. split; [cbn; lia |].
    split; [intros l E; by destruct l |]. split; [by intros ?%elem_of_nil | by left]. }
  eapply waits_bind; [by apply (getch_ok s q) | intros Hu; exists []; split; [done |]; split; [cbn; lia | apply not_elem_of_nil] |].
  intros [s1 ch] (q1 & HI1 & M1 & O1). cbn [fst snd] in *. fold (crnl ch).
  destruct (Z.eqb_spec (default 0 (head moves)) 0) as [_ | Hne]; cbn [negb].
  2: { apply waits_ret. exists q1, [ch], []. cbn. rewrite app_nil_r. split; [done |]. split; [done |]. split; [done |]. split; [done |]. right. split; [done |]. exists ch.
       split; [done |]. split; [done |]. split; [apply not_elem_of_nil | cbn; lia]. }
  destruct (Z.eqb_spec (crnl ch) 10) as [E10 | Hn10].
  { apply waits_ret. exists q1, [ch], [crnl ch]. cbn. split; [done |]. split; [done |]. split; [done |]. split; [done |]. left. split; [done |]. split; [done |]. split; [cbn; lia |]. rewrite E10.
    split; [intros l El; destruct l as [ | x l]; [apply not_elem_of_nil | by destruct l] |]. split; [intros _; by exists [] | right; by left]. }
  destruct (IH s1 q1 (tail moves) (acc ++ [crnl ch]) HI1) as [[E (cs & Hu & Hl & Hn)] | (r & E & q2 & cs & d & HI2 & M2 & O2 & Ed & HA)]; [by rewrite (moved_console _ _ _ _ _ M1) | |].
  { left. split; [done |]. exists (ch :: cs). split; [exact (moved_used_up _ _ _ _ [ch] cs M1 Hu) |]. split; [cbn; lia |]. rewrite fmap_cons. apply not_elem_of_cons. split; [congruence | done]. }
  right. exists r. split; [done |]. exists q2, (ch :: cs), (crnl ch :: d). split; [done |]. split; [exact (chars_trans _ _ _ _ _ _ [ch] cs M1 M2) |]. split; [congruence |].
  split; [rewrite Ed, <- app_assoc; done |]. destruct HA as [(-> & -> & Hl & H1 & H2 & H3) | (Hr & c & Ec & E2 & Hn & Hl)].
  - left. split; [done |]. split; [done |]. split; [cbn; lia |]. split; [ | split].
    + intros l El. destruct l as [ | x l]; [apply not_elem_of_nil |]. injection El as <- El. apply not_elem_of_cons. split; [congruence | by apply H1].
    + intros [E10 | Hin]%elem_of_cons; [congruence |]. destruct (H2 Hin) as [l El]. exists (crnl ch :: l). cbn. by rewrite El.
    + destruct H3 as [H3 | H3]; [left; cbn; lia | right; by right].
  - right. split; [done |]. exists c. cbn [length take]. rewrite fmap_cons, <- E2. split; [cbn; by rewrite <- Ec |]. split; [done |]. split; [apply not_elem_of_cons; split; [congruence | done] | cbn; lia].
Qed.

Lemma write_loop_sends data : forall s q moves, con_inv s q 0 0 -> the_console s = true ->
  runs (con_write_loop s data moves) (fun r => exists q' k, con_inv r.1 q' 0 0 /\ moved s q r.1 q' [] /\ out r.1 = out s ++ (u8 <$> crlf (take k data)) /\ (r.2 = 0 -> take k data = data)).
Proof.
  induction data as [ | ch data IH]; intros s q moves HI Hc; cbn [con_write_loop].
  { exists q, 0%nat. split; [done |]. split; [apply moved_refl |]. cbn. by rewrite app_nil_r. }
  destruct (Z.eqb_spec (default 0 (head moves)) 0) as [_ | Hne]; cbn [negb].
  2: { exists q, 0%nat. split; [done |]. split; [apply moved_refl |]. cbn. rewrite app_nil_r. split; [done | intros ?; done]. }
  eapply (runs_bind _ _ (put s q (if ch =? 10 then [13] else []))).
  { destruct (ch =? 10); [by apply putch_ok |]. exists q. split; [done |]. split; [apply moved_refl | cbn; by rewrite app_nil_r]. }
  intros s1 (q1 & HI1 & M1 & O1). eapply runs_bind; [apply (putch_ok s1 q1); [done | by rewrite (moved_console _ _ _ _ _ M1)] |]. intros s2 (q2 & HI2 & M2 & O2).
  eapply runs_mono; [apply (IH s2 q2 (tail moves) HI2); by rewrite (moved_console _ _ _ _ _ M2), (moved_console _ _ _ _ _ M1) |]. intros r (q3 & k & HI3 & M3 & O3 & Hk).
  exists q3, (S k). split; [done |]. split; [exact (chars_trans _ _ _ _ _ _ [] [] (chars_trans _ _ _ _ _ _ [] [] M1 M2) M3) |].
  split; [ | intros Hr; cbn; by rewrite Hk]. rewrite O3, O2, O1, <- !app_assoc. f_equal. rewrite firstn_cons. unfold crlf. cbn [flat_map]. rewrite fmap_app.
  rewrite app_assoc. f_equal. by destruct (Z.eqb_spec ch 10) as [-> | _].
Qed.

(** C28: the console.  Whatever is typed and whenever the port interrupts, reads
    and writes of the console device leave both locks free.  A read takes
    characters in the order in which they were typed (see [moved]; only what
    finds 31 characters waiting is dropped) and delivers a line, with its end as
    a newline, or as much as was asked for; a character that cannot be stored is
    lost.  It waits for ever only if neither is ever typed.  A write always
    returns; it sends the bytes with a carriage return in front of each newline,
    and never while the port is busy, which would be a panic. *)
Theorem console_reads_writes s q resid data moves :
  con_inv s q 0 0 -> the_console s = true -> con_userlock_read s = false -> con_userlock_write s = false ->
  waits_or (con_io_read s resid moves) (read_stall (Z.to_nat resid) s q) (fun r => exists q' cs, con_inv r.1.1 q' 0 0 /\ moved s q r.1.1 q' cs /\ read_answer (Z.to_nat resid) r.1.2 cs r.2) /\
  runs (con_io_write s data moves) (fun r => exists q' k, con_inv r.1 q' 0 0 /\ moved s q r.1 q' [] /\ out r.1 = out s ++ (u8 <$> crlf (take k data)) /\ (r.2 = 0 -> take k data = data)).
Proof.
  assert (Hl : forall s q r w, con_inv s q 0 0 -> con_inv (with_locks s r w) q 0 0) by (intros ? ? ? ? [[? ? ? ?] ? ?]; by split; [split | |]).
  intros HI Hc Hr Hw. split.
  - unfold con_io_read. rewrite Hr. eapply waits_bind; [apply (read_loop_ok _ _ q); [by apply Hl | done] | done |]. intros [[s1 d] r] (q1 & cs & d' & HI1 & [B F L] & _ & Ed & HA). cbn [fst snd app] in *. subst d'.
    apply waits_ret. exists q1, cs. cbn [fst snd]. split; [by apply Hl |]. split; [ | done]. destruct B as (B1 & B2 & B3 & B4). split; [ | exact F | exact L]. by repeat split; cbn; rewrite ?Hr.
  - unfold con_io_write. rewrite Hw. eapply runs_bind; [apply (write_loop_sends _ _ q); [by apply Hl | done] |]. intros [s1 r] (q1 & k & HI1 & [B F L] & O & Hk). cbn [fst snd] in *.
    exists q1, k. cbn [fst snd]. split; [by apply Hl |]. split; [ | done]. destruct B as (B1 & B2 & B3 & B4). split; [ | exact F | exact L]. by repeat split; cbn; rewrite ?Hw.
Qed.

(** ** Lines *)

Fixpoint drop_while (c : Z -> bool) (l : list Z) : list Z := match l with [] => [] | x :: l => if c x then drop_while c l else x :: l end.
Definition drop_end (c : Z -> bool) (l : list Z) : list Z := rev (drop_while c (rev l)).

Definition erase_word (l : list Z) : list Z := drop_end (fun b => negb (b =? 32)) (drop_end (fun b => b =? 32) l).

(** The line that typing [cs] gives, if the last of [cs] ends it. *)
Fixpoint edit (maxlen : Z) (line cs : list Z) : option (list Z) :=
  match cs with
  | [] => None
  | ch :: cs =>
    if (ch =? 10) || (ch =? 13) then match cs with [] => Some line | _ => None end
    else if (32 <=? ch) && (ch <? 127) && (zlen line <? maxlen - 1) then edit maxlen (line ++ [ch]) cs
    else if ((ch =? 8) || (ch =? 127)) && (0 <? zlen line) then edit maxlen (removelast line) cs
    else if ch =? 3 then match cs with [] => Some [] | _ => None end
    else if ch =? 21 then edit maxlen [] cs
    else if ch =? 23 then edit maxlen (erase_word line) cs
    else edit maxlen line cs
  end.

Lemma drop_end_snoc c l x : drop_end c (l ++ [x]) = if c x then drop_end c l else l ++ [x].
Proof. unfold drop_end. rewrite rev_unit. cbn. destruct (c x); [done |]. cbn. by rewrite rev_involutive. Qed.

Lemma drop_end_prefix c l : drop_end c l = take (length (drop_end c l)) l /\ (length (drop_end c l) <= length l)%nat.
Proof.
  induction l as [ | x l [IH1 IH2]] using rev_ind; [done |]. rewrite drop_end_snoc, length_app. destruct (c x); [ | rewrite take_ge by (rewrite length_app; lia); rewrite length_app; done].
  split; [by rewrite take_app_le by done | lia].
Qed.

Lemma drop_end_all l : drop_end (fun _ => true) l = [].
Proof. induction l as [ | x l IH] using rev_ind; [done |]. by rewrite drop_end_snoc. Qed.

(** The buffer begins with the line. *)
Definition begins (buf line : list Z) : Prop := take (length line) buf = line.

Lemma begins_get buf line x : begins buf (line ++ [x]) -> zget buf (zlen line) = Some x.
Proof.
  unfold begins. intros Hb. unfold zget, zlen. destruct (Z.ltb_spec (Z.of_nat (length line)) 0); [lia |]. rewrite Nat2Z.id.
  rewrite length_app in Hb. cbn in Hb. rewrite <- (lookup_take_lt buf (length line + 1)) by lia. rewrite Hb. by rewrite list_lookup_middle.
Qed.

Lemma begins_prefix buf line k : begins buf line -> (k <= length line)%nat -> begins buf (take k line).
Proof. unfold begins. intros Hb Hk. rewrite length_take, Nat.min_l by lia. rewrite <- Hb, take_take. f_equal. lia. Qed.

Lemma begins_drop buf line c : begins buf line -> begins buf (drop_end c line).
Proof. intros Hb. destruct (drop_end_prefix c line) as [E Hl]. rewrite E. by apply begins_prefix. Qed.

Lemma begins_put buf line x buf' : begins buf line -> zput buf (zlen line) x = Some buf' -> begins buf' (line ++ [x]).
Proof.
  unfold begins. intros Hb [Hr ->]%zput_Some. unfold zlen in *. rewrite Nat2Z.id, length_app. cbn [length]. rewrite Nat.add_1_r.
  rewrite (take_S_r _ _ x) by (apply list_lookup_insert_eq; lia). rewrite take_insert_ge by lia. by rewrite Hb.
Qed.

Lemma backsp_ok s q : con_inv s q 0 0 -> the_console s = true -> runs (backsp s) (fun s' => exists q', con_inv s' q' 0 0 /\ moved s q s' q' []).
Proof. intros HI Hc. eapply runs_mono; [by apply (puts_ok [8; 32; 8] false s q) |]. intros s' (q' & HI' & M & _). eauto. Qed.

Lemma erase_while_ok n c buf : forall line s q, con_inv s q 0 0 -> the_console s = true -> begins buf line -> (length line <= n)%nat ->
  runs (erase_while n s buf (zlen line) c) (fun r => exists q', con_inv r.1 q' 0 0 /\ moved s q r.1 q' [] /\ r.2 = zlen (drop_end c line)).
Proof.
  induction n as [ | n IH]; intros line s q HI Hc Hb Hn; destruct line as [ | x line _] using rev_ind.
  all: cbn [erase_while]; rewrite ?zlen_snoc.
  1, 3: exists q; split; [done |]; split; [apply moved_refl | done].
  all: pose proof (Zle_0_nat (length line)) as Hlen; fold (zlen line) in Hlen.
  all: destruct (Z.ltb_spec 0 (zlen line + 1)); [ | lia]; rewrite Z.add_simpl_r, (begins_get _ _ _ Hb); cbn [access rbind]; rewrite drop_end_snoc.
  { rewrite length_app in Hn. cbn in Hn. lia. }
  destruct (c x); [ | exists q; split; [done |]; split; [apply moved_refl | by rewrite zlen_snoc]].
  eapply runs_bind; [by apply (backsp_ok s q) |]. intros s1 (q1 & HI1 & M1). rewrite length_app in Hn. cbn in Hn.
  eapply runs_mono; [apply (IH line s1 q1 HI1); [by rewrite (moved_console _ _ _ _ _ M1) | | lia] |].
  { pose proof (begins_prefix _ _ (length line) Hb) as Hp. rewrite take_app_length in Hp. apply Hp. rewrite length_app. lia. }
  intros r (q2 & HI2 & M2 & Hr). exists q2. split; [done |]. split; [exact (chars_trans _ _ _ _ _ _ [] [] M1 M2) | done].
Qed.

(** What kgets has when it is done: the characters it took and the line they
    make, at the beginning of the buffer. *)
Definition line_read (s : con) (q buf : list Z) (maxlen : Z) (line : list Z) (r : con * list Z * Z) : Prop :=
  exists q' cs line', con_inv r.1.1 q' 0 0 /\ moved s q r.1.1 q' cs /\ edit maxlen line cs = Some line' /\
    begins r.1.2 line' /\ r.2 = zlen line' /\ zlen r.1.2 = zlen buf /\ zlen line' < maxlen.

(** All that is ever typed does not end a line. *)
Definition line_stall (maxlen : Z) (line : list Z) (s : con) (q : list Z) : Prop := exists cs, used_up s q cs /\ forall k, edit maxlen line (take k cs) = None.

Lemma kgets_loop_ok n maxlen : forall s q buf line,
  con_inv s q 0 0 -> the_console s = true -> begins buf line -> zlen line < maxlen -> zlen buf = maxlen -> 1 <= maxlen < 2 ^ 31 -> (typed_left s < n)%nat ->
  waits_or (kgets_loop n s buf maxlen (zlen line)) (line_stall maxlen line s q) (line_read s q buf maxlen line).
Proof.
  induction n as [ | n IH]; intros s q buf line HI Hc Hb Hl Hbl Hm Hn; [lia |]. cbn [kgets_loop]. pose proof (Zle_0_nat (length line)) as Hlen. fold (zlen line) in Hlen.
  eapply waits_bind; [by apply (getch_ok s q) | intros Hu; exists []; split; [done |]; intros k; by rewrite take_nil |]. intros [s1 ch] (q1 & HI1 & M1 & _). cbn [fst snd] in *. rewrite u32_id by (unfold is_u32; lia).
  assert (Hc1 : the_console s1 = true) by by rewrite (moved_console _ _ _ _ _ M1).
  assert (Hgo : forall s2 q2 buf2 line2, con_inv s2 q2 0 0 -> moved s1 q1 s2 q2 [] -> begins buf2 line2 -> zlen line2 < maxlen -> zlen buf2 = maxlen ->
    (forall cs, edit maxlen line (ch :: cs) = edit maxlen line2 cs) -> waits_or (kgets_loop n s2 buf2 maxlen (zlen line2)) (line_stall maxlen line s q) (line_read s q buf maxlen line)).
  { intros s2 q2 buf2 line2 HI2 M2 Hb2 Hl2 Hbl2 He. pose proof (mv_left _ _ _ _ _ M1) as L1. pose proof (mv_left _ _ _ _ _ M2) as L2. cbn in L1, L2.
    destruct (IH s2 q2 buf2 line2 HI2) as [[E (cs & Hu & Hcs)] | (r & E & q3 & cs & line' & HI3 & M3 & H3 & H4 & H5 & H6 & H7)]; [by rewrite (moved_console _ _ _ _ _ M2) | done | done | done | done | lia | |].
    { left. split; [done |]. exists (ch :: cs). split; [exact (moved_used_up _ _ _ _ [ch] cs M1 (moved_used_up _ _ _ _ [] cs M2 Hu)) |]. intros [ | k]; [done |]. cbn [take]. by rewrite He. }
    right. exists r. split; [done |]. exists q3, (ch :: cs), line'. split; [done |]. split; [exact (chars_trans _ _ _ _ _ _ [ch] cs M1 (chars_trans _ _ _ _ _ _ [] cs M2 M3)) |].
    rewrite He. split; [done |]. split; [done |]. split; [done |]. split; [congruence | done]. }
  assert (Hend : forall s2 q2 line2, con_inv s2 q2 0 0 -> moved s1 q1 s2 q2 [] -> begins buf line2 -> zlen line2 < maxlen -> edit maxlen line [ch] = Some line2 ->
    line_read s q buf maxlen line (s2, buf, zlen line2)).
  { intros s2 q2 line2 HI2 M2 Hb2 Hl2 He. exists q2, [ch], line2. split; [done |]. split; [exact (chars_trans _ _ _ _ _ _ [ch] [] M1 M2) |]. done. }
  destruct ((ch =? 10) || (ch =? 13)) eqn:E1.
  { eapply waits_run; [by apply (putch_ok s1 q1) |]. intros s2 (q2 & HI2 & M2 & _). apply waits_ret, (Hend s2 q2); try done. cbn [edit]. by rewrite E1. }
  destruct ((32 <=? ch) && (ch <? 127) && (zlen line <? maxlen - 1)) eqn:E2.
  { eapply waits_run; [by apply (putch_ok s1 q1) |]. intros s2 (q2 & HI2 & M2 & _). apply andb_true_iff in E2 as E2'. destruct (zput_lt buf (zlen line) ch) as [buf2 Eb]; [lia |].
    rewrite Eb. cbn [access rbind]. rewrite <- (zlen_snoc line ch). apply (Hgo s2 q2); [done | done | by eapply begins_put | rewrite zlen_snoc; lia | by rewrite (zput_length _ _ _ _ Eb) |].
    intros cs. cbn [edit]. by rewrite E1, E2. }
  destruct (((ch =? 8) || (ch =? 127)) && (0 <? zlen line)) eqn:E3.
  { eapply waits_run; [by apply (backsp_ok s1 q1) |]. intros s2 (q2 & HI2 & M2). destruct line as [ | x line _] using rev_ind; [by rewrite andb_false_r in E3 |].
    rewrite zlen_snoc in *. rewrite Z.add_simpl_r. apply (Hgo s2 q2); [done | done | | lia | done | intros cs; cbn [edit]; rewrite zlen_snoc, E1, E2, E3; by rewrite removelast_last].
    pose proof (begins_prefix _ _ (length line) Hb) as Hp. rewrite take_app_length in Hp. apply Hp. rewrite length_app. lia. }
  destruct (ch =? 3) eqn:E4.
  { eapply waits_run; [by apply (puts_ok _ false s1 q1) |]. intros s2 (q2 & HI2 & M2 & _). apply waits_ret, (Hend s2 q2 []); [done | done | done | change (0 < maxlen); lia |]. cbn [edit]. by rewrite E1, E2, E3, E4. }
  destruct (Z.eqb_spec ch 18) as [-> | Hn18].
  { destruct (zput_lt buf (zlen line) 0) as [buf2 Eb]; [lia |]. rewrite Eb. cbn [access rbind]. eapply waits_run; [by apply (puts_ok _ false s1 q1) |]. intros s2 (q2 & HI2 & M2 & _).
    apply (Hgo s2 q2); [done | done | | done | by rewrite (zput_length _ _ _ _ Eb) | intros cs; cbn [edit]; by rewrite E1, E2, E3]. pose proof (begins_put _ _ _ _ Hb Eb) as Hp.
    pose proof (begins_prefix _ _ (length line) Hp) as Hq. rewrite take_app_length in Hq. apply Hq. rewrite length_app. lia. }
  destruct (ch =? 21) eqn:E6.
  { eapply waits_run; [apply (erase_while_ok _ _ buf line s1 q1); try done; unfold zlen; lia |]. intros [s2 pos] (q2 & HI2 & M2 & Hp). cbn [fst snd] in *. rewrite drop_end_all in Hp. subst pos.
    apply (Hgo s2 q2 buf []); [done | done | done | change (0 < maxlen); lia | done | intros cs; cbn [edit]; by rewrite E1, E2, E3, E4, E6]. }
  destruct (ch =? 23) eqn:E7.
  { eapply waits_run; [apply (erase_while_ok _ _ buf line s1 q1); try done; unfold zlen; lia |]. intros [s2 pos] (q2 & HI2 & M2 & Hp). cbn [fst snd] in *. subst pos.
    eapply waits_run; [apply (erase_while_ok _ _ buf _ s2 q2); [done | by rewrite (moved_console _ _ _ _ _ M2) | by apply begins_drop | unfold zlen; lia] |].
    intros [s3 pos] (q3 & HI3 & M3 & Hp). cbn [fst snd] in *. subst pos. fold (erase_word line).
    apply (Hgo s3 q3); [done | exact (chars_trans _ _ _ _ _ _ [] [] M2 M3) | unfold erase_word; by do 2 apply begins_drop | | done | intros cs; cbn [edit]; by rewrite E1, E2, E3, E4, E6, E7].
    destruct (drop_end_prefix (fun b => negb (b =? 32)) (drop_end (fun b => b =? 32) line)) as [_ H1]. destruct (drop_end_prefix (fun b => b =? 32) line) as [_ H2]. unfold erase_word, zlen in *. lia. }
  apply (Hgo s1 q1); [done | apply moved_refl | done | done | done | intros cs; cbn [edit]; by rewrite E1, E2, E3, E4, E6, E7].
Qed.

(** C29: lines.  kgets takes characters in the order in which they were typed, up
    to the first that ends the line, and leaves the line they make (see [edit]:
    printable characters that fit, backspace, ^U, ^W and ^C) in the buffer with
    a terminator behind it; it stays inside the buffer, and waits for ever only
    if no end of a line is ever typed. *)
Theorem kgets_line s q buf maxlen :
  con_inv s q 0 0 -> the_console s = true -> zlen buf = maxlen -> 1 <= maxlen < 2 ^ 31 ->
  waits_or (kgets s buf maxlen) (line_stall maxlen [] s q) (fun r => exists q' cs line, con_inv r.1 q' 0 0 /\ moved s q r.1 q' cs /\ edit maxlen [] cs = Some line /\
    begins r.2 (line ++ [0]) /\ zlen line < maxlen /\ zlen r.2 = maxlen).
Proof.
  intros HI Hc Hb Hm. unfold kgets. eapply waits_bind; [apply (kgets_loop_ok _ maxlen s q buf []); [done | done | done | change (0 < maxlen); lia | done | done | lia] | done |].
  intros [[s1 buf1] pos] (q1 & cs & line & HI1 & M1 & He & Hb1 & Hp & Hz & Hl). cbn [fst snd] in *. subst pos. destruct (zput_lt buf1 (zlen line) 0) as [buf2 Eb]; [unfold zlen in *; lia |].
  rewrite Eb. cbn [access rbind]. apply waits_ret. exists q1, cs, line. cbn [fst snd]. split; [done |]. split; [done |]. split; [done |]. split; [by eapply begins_put |]. split; [done |].
  rewrite (zput_length _ _ _ _ Eb). congruence.
Qed.

(** ** Booting *)

Lemma delayed_ok l nowait : forall s, the_console s = false -> zlen (delayed_outbuf s) + zlen l <= DELAYBUFSIZE -> puts s nowait l = Ok (with_boot s false (delayed_outbuf s ++ (u8 <$> l))).
Proof.
  induction l as [ | ch l IH]; intros s Hc Hl; cbn [puts]; [cbn; rewrite app_nil_r, <- Hc; by destruct s |].
  unfold putch. rewrite Hc. cbn [negb]. unfold putch_delayed. unfold zlen in Hl. cbn [length] in Hl. destruct (Z.ltb_spec (zlen (delayed_outbuf s)) DELAYBUFSIZE); [ | unfold zlen in *; lia].
  cbn [kassert rbind]. rewrite IH; [cbn; by rewrite <- app_assoc | done |]. cbn. unfold zlen in *. rewrite length_app. cbn. lia.
Qed.

(** Before there is a console, output is kept, a kilobyte at most; when the
    console comes up, it goes out. *)
Theorem boot_messages s l nowait :
  the_console s = false -> delayed_outbuf s = [] -> zlen l <= DELAYBUFSIZE -> ls_wbusy s = false -> zlen (cs_gotchars s) = 32 ->
  exists s1, puts s nowait l = Ok s1 /\
    runs (config_con s1 0 true 0 nowait) (fun r => r.2 = 0 /\ the_console r.1 = true /\ delayed_outbuf r.1 = [] /\ out r.1 = out s ++ (u8 <$> l) /\ exists q, con_inv r.1 q 0 0).
Proof.
  intros Hc Hd Hl Hb Hg. rewrite (delayed_ok l nowait s Hc) by (rewrite Hd; unfold zlen in *; cbn; lia). eexists. split; [reflexivity |]. rewrite Hd. cbn [app]. unfold config_con.
  cbn [Z.ltb Z.compare with_boot the_console negb kassert delayed_outbuf]. unfold flush_delay_buf. cbn [delayed_outbuf].
  set (s2 := mkCon 0 1 _ 0 0 _ true _ false false _ _). assert (HI : con_inv s2 [] 0 0).
  { split; [split; cbn | unfold zlen; cbn; lia | cbn; rewrite Hb; lia]; [split; [done | unfold zlen; cbn; lia] | lia | done |]. intros i c Hi. apply zget_Some in Hi. unfold zlen in Hi. cbn in Hi. lia. }
  eapply (runs_bind _ _ (fun s4 => exists s3, put s2 [] (u8 <$> l) s3 /\ s4 = with_boot s3 (the_console s3) [])).
  - eapply runs_bind; [by apply (puts_ok (u8 <$> l) nowait s2 []) |]. intros s3 HP. by exists s3.
  - intros s4 (s3 & (q & HI3 & M & O) & ->). cbn [fst snd runs]. split; [done |]. split; [cbn; by rewrite (moved_console _ _ _ _ _ M) |]. split; [done |].
    split; [cbn; rewrite O; cbn; f_equal; rewrite <- list_fmap_compose; apply list_fmap_ext; intros _ x _; apply Z.mod_mod; lia |]. exists q. destruct HI3 as [[? ? ? ?] ? ?]. by split; [split | |].
Qed.

(** ** Examples *)

Definition quiet (script : list (list irq)) : con := mkCon 0 1 (repeat 0 32) 0 0 false true [] false false [] script.

Lemma quiet_inv l : con_inv (quiet l) [] 0 0.
Proof. split; [split; cbn | unfold zlen; cbn; lia | cbn; lia]; [done | lia | done |]. intros i c Hi. apply zget_Some in Hi. unfold zlen in Hi. cbn in Hi. lia. Qed.

(** "ab", a backspace, "c" and return are typed while the echo goes out. *)
Definition typing : list (list irq) := [[Typed 97]; [Typed 98]; [Sent]; [Typed 8; Sent]; []; [Sent]; [Sent]; [Sent]; [Sent; Typed 99]; [Typed 13; Sent]; [Sent]; [Sent]; [Sent]; []; [Sent]].

Definition kgets_result (r : res (con * list Z)) : option (list Z * list Z) := match r with Ok (s, buf) => Some (out s, take 4 buf) | _ => None end.

Lemma kgets_line_witness :
  exists s' buf cs line, kgets (quiet typing) (repeat 0 16) 16 = Ok (s', buf) /\ edit 16 [] cs = Some line /\ begins buf (line ++ [0]) /\
    kgets_result (kgets (quiet typing) (repeat 0 16) 16) = Some ([97; 98; 8; 32; 8; 99; 10], [97; 99; 0; 0]).
Proof.
  assert (Hc : kgets_result (kgets (quiet typing) (repeat 0 16) 16) = Some ([97; 98; 8; 32; 8; 99; 10], [97; 99; 0; 0])) by (vm_compute; reflexivity).
  destruct (kgets_line (quiet typing) [] (repeat 0 16) 16 (quiet_inv typing) eq_refl eq_refl) as [[E _] | ([s' buf] & E & q' & cs & line & _ & _ & He & Hb & _)]; [lia | rewrite E in Hc; discriminate Hc |].
  exists s', buf, cs, line. split; [exact E |]. split; [exact He |]. split; [exact Hb | exact Hc].
Defined.

Lemma console_reads_writes_witness :
  (exists s' d, con_io_read (quiet [[Typed 97; Typed 13; Typed 98]]) 10 [] = Ok (s', d, 0) /\ d = [97; 10]) /\
  (exists s', con_io_write (quiet [[Sent]]) [97; 10] [] = Ok (s', 0) /\ out s' = [97; 13; 10]).
Proof.
  destruct (console_reads_writes (quiet [[Typed 97; Typed 13; Typed 98]]) [] 10 [] [] (quiet_inv _) eq_refl eq_refl eq_refl) as [[[E _] | (r & E & _)] _]; [vm_compute in E; discriminate E |].
  destruct (console_reads_writes (quiet [[Sent]]) [] 0 [97; 10] [] (quiet_inv _) eq_refl eq_refl eq_refl) as [_ H2]. apply runs_Ok in H2 as ([s2 r2] & E2 & _).
  split; [ | exists s2; vm_compute in E2; injection E2 as <- <-; split; reflexivity].
  destruct r as [[s1 d] r]. exists s1, d. vm_compute in E. injection E as <- <- <-. split; reflexivity.
Defined.
